(* ===== verification/_CoqProject ===== *)
-Q . S2P
Prelude.v
SeqNum.v
Wire.v
Dtls.v
DtlsSpec.v
DtlsHello.v
DtlsData.v
Crc.v
Base64.v
Addr.v
Rtp.v
AnnexB.v
Rtcp.v
Twcc.v
Bwe.v
RateControl.v
Jitter.v
Reorder.v
Fec.v
Fragment.v
H264.v
H265.v
DataChannel.v
Srtp.v
Media.v
Stun.v
Ice.v
IceHistory.v
IceConnect.v
Turn.v
TurnRequests.v
TurnHistory.v
TurnSession.v
Sdp.v
SdpText.v
SdpParse.v
SdpSafe.v
Candidate.v
CandidateTrickle.v
OutQueue.v
OutQueueFifo.v
OutQueueSpec.v
OutQueueSteps.v
VideoSend.v
VideoSteps.v
VideoFrame.v
VideoAdmit.v
MediaSend.v
SendPath.v
VideoDelivery.v
MediaRecv.v
MediaTracks.v
VideoReceive.v
VideoEndToEnd.v
SctpCodec.v
SctpRecv.v
SctpDelivery.v
SctpSend.v
SctpSack.v
Sctp.v
SctpTransfer.v
SctpHandshake.v
