(* ===== verification/Prelude.v ===== *)
(** * nanortc: a verification of the library's protocol code

    nanortc is a sans-I/O WebRTC library in C: the application feeds it
    datagrams and the time, and polls it for datagrams to send and for events.
    This development models its protocol components as executable Rocq
    functions, translated from the sources function by function, and proves
    what makes each correct.  Every definition that models code keeps the
    source's name.

    ** The parts and how they interact

    A datagram that arrives is demultiplexed by its first octet to STUN (ICE and
    TURN), SRTP or DTLS; DTLS carries SCTP, SCTP carries data channels, and SRTP
    carries RTP and RTCP, whose payloads the depacketizers, the reorder and
    jitter buffers and FEC turn into frames.  In the other direction the
    packetizers cut frames into RTP payloads, feedback (REMB, TWCC) moves the
    bandwidth estimate, and the rate controller picks a rung from it.

    - [Prelude] (this file): machine integers, the result type, memory objects,
      iteration and the automation that every file uses.
    - [SeqNum]: 16-bit sequence numbers against the unbounded count of their
      sender, for the statements about [Jitter] and [Reorder].
    - [Wire]: the byte order accessors, the string helpers and the wrapping
      clock ([nanortc.h], [nanortc_util.h], [nano_time.h]).
    - [Crc] ([nano_crc32.c], [nano_crc32c.c]), [Base64] ([nano_base64.c]),
      [Addr] ([nano_addr.c]).
    - Media over RTP: [Rtp] ([nano_rtp.c]), [Rtcp] ([nano_rtcp.c]), [AnnexB]
      ([nano_annex_b.c]), [Fragment], [H264] and [H265] ([nano_h264.c],
      [nano_h265.c]), [Fec] ([nano_fec.c]), [Jitter] ([nano_jitter.c]),
      [Reorder] ([nano_reorder.c]), [Media] ([nano_media.c]).
    - Congestion control: [Twcc] ([nano_twcc.c]), [Bwe] ([nano_bwe.c]),
      [RateControl] ([nano_rate_control.c]).
    - Security: [Srtp] ([nano_srtp.c]); [Dtls], [DtlsSpec], [DtlsHello] and
      [DtlsData] ([nano_dtls.c]).
    - Connectivity: [Stun] ([nano_stun.c]); [Ice], [IceHistory] and [IceConnect]
      ([nano_ice.c]); [Turn], [TurnRequests], [TurnHistory] and [TurnSession]
      ([nano_turn.c]).  Both clients build on [Stun]'s parser and verifications.
    - Data: [SctpCodec], [SctpRecv], [SctpDelivery], [SctpSend], [SctpSack],
      [Sctp], [SctpTransfer] and [SctpHandshake] ([nano_sctp.c]);
      [DataChannel] ([nano_datachannel.c]).
    - Signalling: [Sdp], [SdpText], [SdpParse] and [SdpSafe] ([nano_sdp.c]); [Candidate]
      and [CandidateTrickle] (the candidate half of [nano_rtc_negotiate.c]).
    - The connection: [OutQueue] is the output queue of [nano_rtc.c], its transmit
      slots, pending events and lazy TURN framing; [OutQueueFifo], [OutQueueSpec]
      and [OutQueueSteps] its abstract queue and the steps that refine it.
      [VideoSend] is the sending half of [nano_rtc_media.c]; [VideoSteps],
      [VideoFrame], [VideoAdmit], [MediaSend] and [SendPath] prove it against the
      queue, [VideoDelivery] follows a frame to the socket.  [MediaRecv] is the
      receiving half (SRTP and compound RTCP datagrams to tracks, events and the
      estimator, sender reports, audio release) and [MediaTracks] the calls on
      tracks; [VideoReceive] and [VideoEndToEnd] follow a frame to the peer's
      application.

    ** What is proved

    Codecs: what an encoder writes parses back to what it was given, and the
    encoder refuses exactly the buffers that are too small (RTP, RTCP, STUN,
    TURN requests, ChannelData, SCTP chunks, DCEP, SRTP protection, IPv6 text,
    Base64).  Parsers never read outside their input, on every input.

    Stateful components: each has an invariant that all its operations keep, and
    the properties are stated over every history of operations from the initial
    state: jitter and reorder buffers release packets in the order of the sender's
    count, as long as each comes within a quarter of the sequence space of the
    newest; the SCTP pool stays consistent and delivers the peer's messages whole,
    at most once and in stream order; the data channel table stays well formed,
    with distinct live ids as long as the peer leaves our ids alone; the ICE agent
    connects only on a pair it has checked and sends a bounded number of checks;
    the TURN client keeps its tables well formed and its requests in bounds.

    Composition: two SCTP associations connect and then exchange messages over a
    network that loses, repeats and reorders packets ([SctpHandshake]); a SACK
    tells the sender what the receiver holds ([SctpSack]); two ICE
    agents connect in three checks ([IceConnect]); a TURN client allocates
    through the server's challenge ([TurnSession]); two data channel managers
    open a channel; a depacketizer rebuilds what the packetizer sent; FEC
    rebuilds any one lost packet; a session's SDP tells the peer that parses it
    the session, and its candidates reach the peer's ICE agent; texts cross two
    DTLS adapters whose engines share a session.  The flagship is
    [video_end_to_end]: a frame given to [nanortc_send_video] reaches the peer's
    application unit by unit, through packetizer, RTP, SRTP, packet ring, pacer
    and output queue on one side and SRTP, RTP, stream discovery, depacketizer
    and event queue on the other.

    Security: a datagram that changes the ICE agent or the TURN client carries
    the peer's or the server's authentication, with the exceptions the protocol
    makes; STUN's integrity binds what the parser reports.

    Refinements: the SCTP receive pool implements an abstract table of chunks,
    the SSRC table a bounded finite map, and the output queue with its slots,
    rings and pacer a bounded queue of packets and events ([send_path_refines]);
    CRC-32 and CRC-32c equal the bitwise definition, and a fragmented DTLS
    ClientHello is to the engine the unfragmented one.

    Where the code does not do what it means to, the theorem says what it does:
    the packets refused after a rollover ([srtp_rollover_lost]), the arrival
    orders that lose a fragmented message ([sctp_merge_strands]), a gap block's
    offset beyond 16 bits ([gap_sack_wraps]), two channels on one stream once the
    ids wrap ([dc_ids_collide]), two events over one buffer when the application
    does not poll between datagrams ([unpolled_events_alias]).

    ** Conventions

    - A memory object of n octets is a list of n octets; an octet is a [Z] with
      [is_u8].  [rdn] and [wr] read and write at an offset and are [Fault] out of
      bounds, as is a division by zero or an exhausted fuel.  [Err e] is an error
      code of [nanortc.h]; where a failing path has already changed the state, the
      state is returned together with the code.
    - [uintN_t] arithmetic is [Z] with an explicit [u8], [u16], [u32] or [u64];
      sizes, offsets and indices that the code keeps below their bounds are [nat].
    - NULL arguments and the checks for them are left out, except where the
      code's answer to NULL matters (members of an FEC group).
    - Callbacks thread their caller's state.  Code outside the repository is a
      parameter: HMAC-SHA1 (twenty octets), MD5 (sixteen), the AES-CM cipher, the
      random source (the octets asked for, or a failure), and the DTLS engine, a
      record of functions whose calls are finite programs over the two BIO
      callbacks.  The laws are hypotheses of the theorems that need them; the
      witnesses instantiate them with small concrete functions ([toy_mac],
      [toy_md5], [serial], [toy_laws], [toy_provider]).
    - Configuration macros have the defaults of [nanortc_config.h], the components'
      features on; the host is little-endian where the source assumes it (the
      SCTP checksum).  On the media path of the connection FEC, the reorder
      buffer, receiver NACK and rate control are off and pacing and automatic PLI
      on, their defaults.
    - An event holds references to the buffers its pointers lead to, as the code's
      does; [media_octets] of [VideoReceive] is what the application reads through
      one at the time it polls.

    ** Fuel and bounds

    A loop whose recursion is not structural takes fuel from the size of what it
    walks (octets left, slots, table entries); exhausting it is [Fault], and the
    safety theorems exclude [Fault], so the fuel always suffices: that is the
    termination of the loop.  Table sizes are those of the configuration: eight
    ICE candidates and permissions, four channels, seven transmissions.

    ** What is not modelled, and why

    - Of the connection core ([nano_rtc.c], [nano_rtc_negotiate.c]) the
      demultiplexer, the timers and the offer and answer entry points, which join
      the components on one large state.  The order of calls among ICE, TURN,
      DTLS and SCTP is therefore not verified; each component's contract is, and
      the media path as a whole.
    - The crypto providers wrap mbedTLS and OpenSSL, whose code is not in the
      repository.
    - Logging ([nano_log.c]) is output only; examples and tests are programs that
      use the library.

    The order of the files is that of dependency; each file opens with what it
    holds. *)

From Stdlib Require Import ZArith Lia.
From stdpp Require Import base list gmap numbers.

#[global] Set Default Goal Selector "!".
Local Open Scope Z_scope.

(** * Machine integers *)

(** The C unsigned types are [Z] reduced modulo their width; a cast is an
    explicit reduction.  The signed casts are two's complement. *)
Definition u8 (z : Z) : Z := z mod 2 ^ 8.
Definition u16 (z : Z) : Z := z mod 2 ^ 16.
Definition u32 (z : Z) : Z := z mod 2 ^ 32.
Definition u64 (z : Z) : Z := z mod 2 ^ 64.
Definition i16 (z : Z) : Z := let r := z mod 2 ^ 16 in if r <? 2 ^ 15 then r else r - 2 ^ 16.
Definition i32 (z : Z) : Z := let r := z mod 2 ^ 32 in if r <? 2 ^ 31 then r else r - 2 ^ 32.

Definition UINT16_MAX : Z := 65535.
Definition UINT32_MAX : Z := 4294967295.

Definition is_u8 (z : Z) : Prop := 0 <= z < 2 ^ 8.
Definition is_u16 (z : Z) : Prop := 0 <= z < 2 ^ 16.
Definition is_u32 (z : Z) : Prop := 0 <= z < 2 ^ 32.
Definition is_u64 (z : Z) : Prop := 0 <= z < 2 ^ 64.

#[global] Instance is_u8_dec z : Decision (is_u8 z).
Proof. unfold is_u8. apply _. Defined.
#[global] Instance is_u16_dec z : Decision (is_u16 z).
Proof. unfold is_u16. apply _. Defined.
#[global] Instance is_u32_dec z : Decision (is_u32 z).
Proof. unfold is_u32. apply _. Defined.

(** A byte string of the program: a list of octets. *)
Abbreviation bytes := (Forall is_u8).

Create HintDb mach.
Create Rewrite HintDb mach.
Create HintDb safe.

(** [mach] decides linear goals on machine integers: it exposes the widths and
    the modular reductions to [lia]. *)
Ltac mach_unfold :=
  unfold is_u8, is_u16, is_u32, is_u64, u8, u16, u32, u64, UINT16_MAX, UINT32_MAX in *;
  change (2 ^ 8) with 256 in *; change (2 ^ 15) with 32768 in *; change (2 ^ 16) with 65536 in *;
  change (2 ^ 31) with 2147483648 in *; change (2 ^ 32) with 4294967296 in *;
  change (2 ^ 64) with 18446744073709551616 in *.
Ltac mach := mach_unfold; Z.div_mod_to_equations; lia.

Lemma u8_range z : is_u8 (u8 z).
Proof. apply Z.mod_pos_bound. lia. Qed.
Lemma u16_range z : is_u16 (u16 z).
Proof. apply Z.mod_pos_bound. lia. Qed.
Lemma u32_range z : is_u32 (u32 z).
Proof. apply Z.mod_pos_bound. lia. Qed.
Lemma u64_range z : is_u64 (u64 z).
Proof. apply Z.mod_pos_bound. lia. Qed.
Lemma u8_id z : is_u8 z -> u8 z = z.
Proof. apply Z.mod_small. Qed.
Lemma u16_id z : is_u16 z -> u16 z = z.
Proof. apply Z.mod_small. Qed.
Lemma u32_id z : is_u32 z -> u32 z = z.
Proof. apply Z.mod_small. Qed.
Lemma u64_id z : is_u64 z -> u64 z = z.
Proof. apply Z.mod_small. Qed.
Lemma i16_range z : - 2 ^ 15 <= i16 z < 2 ^ 15.
Proof.
  unfold i16. pose proof (Z.mod_pos_bound z (2 ^ 16)).
  destruct (Z.ltb_spec (z mod 2 ^ 16) (2 ^ 15)); mach_unfold; lia.
Qed.
Lemma i16_small z : - 2 ^ 15 <= z < 2 ^ 15 -> i16 z = z.
Proof.
  intros H. unfold i16. destruct (Z.ltb_spec (z mod 2 ^ 16) (2 ^ 15)); mach.
Qed.
Lemma i32_small z : - 2 ^ 31 <= z < 2 ^ 31 -> i32 z = z.
Proof.
  intros H. unfold i32. destruct (Z.ltb_spec (z mod 2 ^ 32) (2 ^ 31)); mach.
Qed.

Lemma is_u8_0 : is_u8 0.
Proof. unfold is_u8. lia. Qed.

#[export] Hint Resolve u8_range u16_range u32_range u64_range is_u8_0 : mach.
#[export] Hint Rewrite u8_id u16_id u32_id using (solve [auto with mach | mach]) : mach.

(** Facts about single octets, by evaluation on all 256 of them. *)
Lemma octet_forall (P : Z -> bool) :
  forallb P (map Z.of_nat (seq 0 256)) = true -> forall x, is_u8 x -> P x = true.
Proof.
  intros H x Hx. rewrite forallb_forall in H. apply H. apply in_map_iff. exists (Z.to_nat x).
  unfold is_u8 in Hx. change (2 ^ 8) with 256 in Hx. split; [lia|]. apply in_seq. lia.
Qed.

(** Splits a goal [bytes l] into its octets. *)
Ltac bytes_split :=
  repeat first [apply List.Forall_nil | apply List.Forall_cons | apply Forall_app_2]; auto with mach.

(** Closes [bytes l] for a literal list. *)
Ltac bytes_lit := cbn; repeat constructor; unfold is_u8; lia.

(** * Bit operations *)

Lemma land_ones_mod z n : 0 <= n -> Z.land z (Z.ones n) = z mod 2 ^ n.
Proof. apply Z.land_ones. Qed.

(** Or-ing into cleared low bits is addition. *)
Lemma lor_shiftl_add a b n :
  0 <= n -> 0 <= b < 2 ^ n -> Z.lor (Z.shiftl a n) b = a * 2 ^ n + b.
Proof.
  intros Hn Hb. rewrite <- Z.shiftl_mul_pow2 by lia. rewrite <- Z.add_lor_land.
  enough (Z.land (Z.shiftl a n) b = 0) as -> by lia.
  apply Z.bits_inj'. intros i Hi. rewrite Z.land_spec, Z.bits_0.
  destruct (Z.lt_ge_cases i n); [by rewrite Z.shiftl_spec_low by lia|].
  rewrite <- (Z.mod_small b (2 ^ n)) by lia. rewrite Z.mod_pow2_bits_high by lia.
  apply andb_false_r.
Qed.

Section Bounded.
Context (n : Z) (Hn : 0 <= n).

Lemma pow2_bounded_bits a : 0 <= a < 2 ^ n <-> 0 <= a /\ forall i, n <= i -> Z.testbit a i = false.
Proof using Hn.
  split.
  - intros [Ha Hb]. split; [done|]. intros i Hi.
    rewrite <- (Z.mod_small a (2 ^ n)) by lia. by apply Z.mod_pow2_bits_high.
  - intros [Ha Hb]. split; [done|].
    destruct (Z.eq_dec a 0) as [->|]; [lia|].
    apply Z.log2_lt_pow2; [lia|]. destruct (Z.lt_ge_cases (Z.log2 a) n) as [|Hge]; [done|].
    specialize (Hb _ Hge). rewrite Z.bit_log2 in Hb by lia. done.
Qed.

Lemma lor_bounded a b : 0 <= a < 2 ^ n -> 0 <= b < 2 ^ n -> 0 <= Z.lor a b < 2 ^ n.
Proof using Hn.
  rewrite !pow2_bounded_bits. intros [? Ha] [? Hb]. split; [by apply Z.lor_nonneg|].
  intros i Hi. by rewrite Z.lor_spec, Ha, Hb.
Qed.
Lemma lxor_bounded a b : 0 <= a < 2 ^ n -> 0 <= b < 2 ^ n -> 0 <= Z.lxor a b < 2 ^ n.
Proof using Hn.
  rewrite !pow2_bounded_bits. intros [? Ha] [? Hb].
  split; [apply Z.lxor_nonneg; tauto|]. intros i Hi. by rewrite Z.lxor_spec, Ha, Hb.
Qed.
Lemma land_bounded_l a b : 0 <= a < 2 ^ n -> 0 <= Z.land a b < 2 ^ n.
Proof using Hn.
  rewrite !pow2_bounded_bits. intros [? Ha].
  split; [apply Z.land_nonneg; tauto|]. intros i Hi. by rewrite Z.land_spec, Ha.
Qed.
End Bounded.

(** Clearing the low two bits. *)
Lemma land_lnot3 z : 0 <= z -> Z.land z (Z.lnot 3) = 4 * (z / 4).
Proof.
  intros Hz. change (Z.lnot 3) with (Z.lnot (Z.ones 2)). rewrite <- Z.ldiff_land, Z.ldiff_ones_r by lia.
  rewrite Z.shiftr_div_pow2, Z.shiftl_mul_pow2 by lia. change (2 ^ 2) with 4. lia.
Qed.

Lemma land_bounded_r n a b : 0 <= n -> 0 <= b < 2 ^ n -> 0 <= Z.land a b < 2 ^ n.
Proof. intros. rewrite Z.land_comm. by apply land_bounded_l. Qed.

(** * Results *)

(** Outcome of a C function on its modelled arguments: a value, a negative
    error code, or undefined behaviour (an access outside an object). *)
Inductive res (A : Type) : Type :=
| Ok (a : A)
| Err (e : Z)
| Fault.
Arguments Ok {A} a.
Arguments Err {A} e.
Arguments Fault {A}.

#[export] Instance res_ret : MRet res := fun A a => Ok a.
#[export] Instance res_bind : MBind res := fun A B f m =>
  match m with Ok a => f a | Err e => Err e | Fault => Fault end.
#[export] Instance res_eq_dec `{EqDecision A} : EqDecision (res A).
Proof. solve_decision. Defined.

(** The call neither reads nor writes outside its objects. *)
Definition safe {A} (m : res A) : Prop := m <> Fault.
(** The call succeeds with a value satisfying [P]. *)
Definition succeeds {A} (m : res A) (P : A -> Prop) : Prop := exists a, m = Ok a /\ P a.

Lemma bind_Ok {A B} (a : A) (f : A -> res B) : (Ok a ≫= f) = f a.
Proof. done. Qed.
Lemma bind_assoc {A B C} (m : res A) (f : A -> res B) (g : B -> res C) :
  ((m ≫= f) ≫= g) = (m ≫= fun a => f a ≫= g).
Proof. by destruct m. Qed.
Lemma bind_Ok_under {A B C} (m : res A) (v : B) (k : A -> B -> res C) :
  (a ← m; b ← Ok v; k a b) = (a ← m; k a v).
Proof. by destruct m. Qed.
Lemma bind_Ok_inv {A B} (m : res A) (f : A -> res B) b :
  (m ≫= f) = Ok b -> exists a, m = Ok a /\ f a = Ok b.
Proof. destruct m; cbn; [eauto | done | done]. Qed.
Lemma safe_bind {A B} (m : res A) (f : A -> res B) :
  safe m -> (forall a, m = Ok a -> safe (f a)) -> safe (m ≫= f).
Proof. unfold safe. destruct m; cbn; [auto | done | done]. Qed.
Lemma safe_Ok {A} (a : A) : safe (Ok a).
Proof. done. Qed.
Lemma safe_Err {A} e : safe (Err (A:=A) e).
Proof. done. Qed.
#[export] Hint Resolve safe_Ok safe_Err : safe.

(** Weakest precondition: the call stays inside its objects, and when it
    succeeds its value satisfies [P]. *)
Definition wp {A} (m : res A) (P : A -> Prop) : Prop :=
  match m with Ok a => P a | Err _ => True | Fault => False end.
Lemma wp_Ok {A} (a : A) (P : A -> Prop) : P a -> wp (Ok a) P.
Proof. done. Qed.
Lemma wp_Err {A} e (P : A -> Prop) : wp (Err e) P.
Proof. done. Qed.
Lemma wp_bind {A B} (m : res A) (f : A -> res B) P :
  wp m (fun a => wp (f a) P) -> wp (m ≫= f) P.
Proof. by destruct m. Qed.
Lemma wp_mono {A} (m : res A) (P Q : A -> Prop) : wp m P -> (forall a, P a -> Q a) -> wp m Q.
Proof. destruct m; cbn; auto. Qed.
Lemma wp_safe {A} (m : res A) P : wp m P -> safe m.
Proof. by destruct m. Qed.
Lemma wp_elim {A} (m : res A) P a : wp m P -> m = Ok a -> P a.
Proof. intros H ->. done. Qed.
Lemma wp_if {A} (b : bool) (m n : res A) P :
  (b = true -> wp m P) -> (b = false -> wp n P) -> wp (if b then m else n) P.
Proof. destruct b; auto. Qed.

(** * Checked buffer accesses *)

(** An object of [n] octets is a list of length [n]; every access is checked
    against its bounds. *)
Definition rd8 (b : list Z) (i : nat) : res Z :=
  match b !! i with Some x => Ok x | None => Fault end.
Definition rdn (b : list Z) (i n : nat) : res (list Z) :=
  if (i + n <=? length b)%nat then Ok (take n (drop i b)) else Fault.
Definition wr (b : list Z) (i : nat) (bs : list Z) : res (list Z) :=
  if (i + length bs <=? length b)%nat
  then Ok (take i b ++ bs ++ drop (i + length bs) b) else Fault.

Lemma rd8_Ok b i : (i < length b)%nat -> rd8 b i = Ok (nth i b 0).
Proof.
  intros H. unfold rd8. destruct (lookup_lt_is_Some_2 b i H) as [x Hx]. rewrite Hx.
  by rewrite (nth_lookup_Some _ _ _ _ Hx).
Qed.
Lemma rd8_inv b i x : rd8 b i = Ok x -> b !! i = Some x.
Proof. unfold rd8. destruct (b !! i); congruence. Qed.
Lemma rd8_u8 b i x : bytes b -> rd8 b i = Ok x -> is_u8 x.
Proof. intros Hb Hx%rd8_inv. by eapply Forall_lookup_1. Qed.
Lemma rd8_safe b i : (i < length b)%nat -> safe (rd8 b i).
Proof. intros H. by rewrite rd8_Ok. Qed.
Lemma rd8_app_l b c i : (i < length b)%nat -> rd8 (b ++ c) i = rd8 b i.
Proof. intros. unfold rd8. by rewrite lookup_app_l. Qed.
Lemma rd8_app_r b c i : rd8 (b ++ c) (length b + i) = rd8 c i.
Proof. unfold rd8. rewrite lookup_app_r by lia.
  by replace (length b + i - length b)%nat with i by lia.
Qed.

Lemma wp_rd8 b i P :
  bytes b -> (i < length b)%nat -> (is_u8 (nth i b 0) -> P (nth i b 0)) -> wp (rd8 b i) P.
Proof.
  intros Hb Hi HP. rewrite rd8_Ok by done. apply HP.
  destruct (lookup_lt_is_Some_2 b i Hi) as [x Hx]. rewrite (nth_lookup_Some _ _ _ _ Hx).
  by eapply Forall_lookup_1.
Qed.

Lemma rdn_Ok b i n : (i + n <= length b)%nat -> rdn b i n = Ok (take n (drop i b)).
Proof. intros H. unfold rdn. by apply Nat.leb_le in H as ->. Qed.
Lemma rdn_inv b i n x :
  rdn b i n = Ok x -> (i + n <= length b)%nat /\ x = take n (drop i b).
Proof. unfold rdn. destruct (Nat.leb_spec (i + n) (length b)); [naive_solver|done]. Qed.
Lemma rdn_length b i n x : rdn b i n = Ok x -> length x = n.
Proof. intros [? ->]%rdn_inv. rewrite length_take, length_drop. lia. Qed.
Lemma rdn_bytes b i n x : bytes b -> rdn b i n = Ok x -> bytes x.
Proof. intros Hb [? ->]%rdn_inv. by apply Forall_take, Forall_drop. Qed.
Lemma rdn_safe b i n : (i + n <= length b)%nat -> safe (rdn b i n).
Proof. intros H. by rewrite rdn_Ok. Qed.
(** Reading back a middle segment. *)
Lemma rdn_mid pre mid post i n :
  i = length pre -> n = length mid -> rdn (pre ++ mid ++ post) i n = Ok mid.
Proof.
  intros -> ->. rewrite rdn_Ok by (rewrite !length_app; lia).
  by rewrite drop_app_length, take_app_length.
Qed.
Lemma rdn_front pre post n : n = length pre -> rdn (pre ++ post) 0 n = Ok pre.
Proof. apply (rdn_mid [] pre post 0 n eq_refl). Qed.

Lemma wr_Ok b i bs :
  (i + length bs <= length b)%nat -> wr b i bs = Ok (take i b ++ bs ++ drop (i + length bs) b).
Proof. intros H. unfold wr. by apply Nat.leb_le in H as ->. Qed.
Lemma wr_inv b i bs b' :
  wr b i bs = Ok b' ->
  (i + length bs <= length b)%nat /\ b' = take i b ++ bs ++ drop (i + length bs) b.
Proof. unfold wr. destruct (Nat.leb_spec (i + length bs) (length b)); [naive_solver|done]. Qed.
Lemma wr_safe b i bs : (i + length bs <= length b)%nat -> safe (wr b i bs).
Proof. intros H. by rewrite wr_Ok. Qed.
Lemma wr_length b i bs b' : wr b i bs = Ok b' -> length b' = length b.
Proof.
  intros [H ->]%wr_inv. rewrite !length_app, length_take, length_drop. lia.
Qed.
Lemma wr_bytes b i bs b' : bytes b -> bytes bs -> wr b i bs = Ok b' -> bytes b'.
Proof.
  intros ? ? [_ ->]%wr_inv. repeat apply Forall_app_2; auto using Forall_take, Forall_drop.
Qed.
(** Overwriting a middle segment of the same length. *)
Lemma wr_mid pre old post bs i :
  i = length pre -> length bs = length old -> wr (pre ++ old ++ post) i bs = Ok (pre ++ bs ++ post).
Proof.
  intros -> Hl. rewrite wr_Ok by (rewrite !length_app; lia). rewrite take_app_length.
  by rewrite Hl, drop_app_add, drop_app_length.
Qed.
(** Extending a written prefix: what an encoder that appends at its cursor does. *)
Lemma wr_append pre rest bs i :
  i = length pre -> (length bs <= length rest)%nat ->
  wr (pre ++ rest) i bs = Ok ((pre ++ bs) ++ drop (length bs) rest).
Proof.
  intros -> Hl. rewrite wr_Ok by (rewrite !length_app; lia).
  rewrite take_app_length, drop_app_add, <- app_assoc. done.
Qed.

(** Two stores at consecutive positions are one store. *)
Lemma wr_wr b i x y : (b' ← wr b i x; wr b' (i + length x) y) = wr b i (x ++ y).
Proof.
  destruct (Nat.leb_spec (i + length x) (length b)) as [Hx|Hx].
  - rewrite wr_Ok, bind_Ok by done. unfold wr. rewrite !length_app, length_take, length_drop.
    replace (i `min` length b + (length x + (length b - (i + length x))))%nat with (length b) by lia.
    rewrite <- Nat.add_assoc. destruct (Nat.leb_spec (i + (length x + length y)) (length b)); [|done].
    assert (length (take i b ++ x) = i + length x)%nat as Hi
      by (rewrite length_app, length_take; lia).
    f_equal. rewrite (app_assoc (take i b) x), (take_app_length' _ _ (i + length x)) by done.
    rewrite <- !app_assoc. do 3 f_equal. rewrite app_assoc.
    rewrite drop_app_ge by lia. rewrite drop_drop. f_equal. lia.
  - assert (forall z, (length x <= length z)%nat -> wr b i z = Fault) as Hf
      by (intros z Hz; unfold wr; by rewrite (proj2 (Nat.leb_gt _ _)) by lia).
    by rewrite !Hf by (rewrite ?length_app; lia).
Qed.
Lemma wr_last b i j x y :
  j = (i + length x)%nat -> (b1 ← wr b i x; wr b1 j y) = wr b i (x ++ y).
Proof. intros ->. apply wr_wr. Qed.
Lemma wr_then {A} b i j x y (k : list Z -> res A) :
  j = (i + length x)%nat ->
  (b1 ← wr b i x; b2 ← wr b1 j y; k b2) = (b2 ← wr b i (x ++ y); k b2).
Proof. intros ->. rewrite <- wr_wr. by destruct (wr b i x). Qed.
Lemma wr_then_in {A B} b i j x y (h : list Z -> res A) (k : A -> res B) :
  j = (i + length x)%nat ->
  (b1 ← wr b i x; (b2 ← wr b1 j y; h b2) ≫= k) = (b2 ← wr b i (x ++ y); h b2 ≫= k).
Proof. intros ->. rewrite <- wr_wr. destruct (wr b i x); [|done..]. by rewrite !bind_Ok, bind_assoc. Qed.
(** Merges a chain of consecutive stores. *)
Ltac wr_merge :=
  repeat first [rewrite wr_then by done | rewrite wr_then_in by done]; rewrite <- ?app_assoc; cbn [app].
Lemma wr_0 b bs : (length bs <= length b)%nat -> wr b 0 bs = Ok (bs ++ drop (length bs) b).
Proof. intros. by rewrite wr_Ok. Qed.

(** The same for stores and reads whose contents do not matter. *)
Lemma wr_wp b i bs P :
  (i + length bs <= length b)%nat -> (forall b', length b' = length b -> P b') -> wp (wr b i bs) P.
Proof. intros Hi HP. destruct (wr b i bs) eqn:Hw; [by apply HP, (wr_length _ _ _ _ Hw) | done |].
  rewrite wr_Ok in Hw by done. done.
Qed.
Lemma rdn_wp b i n P :
  (i + n <= length b)%nat -> (forall x, length x = n -> P x) -> wp (rdn b i n) P.
Proof. intros Hi HP. rewrite rdn_Ok by done. apply HP. rewrite length_take, length_drop. lia. Qed.
Lemma rd8_wp b i P : (i < length b)%nat -> (forall x, P x) -> wp (rd8 b i) P.
Proof. intros Hi HP. rewrite rd8_Ok by done. apply HP. Qed.

(** The call reports errors in its value only, as a return code. *)
Definition no_err {A} (m : res A) : Prop := forall e, m <> Err e.
Lemma no_err_Ok {A} (a : A) : no_err (Ok a).
Proof. done. Qed.
Lemma no_err_Fault {A} : no_err (Fault (A:=A)).
Proof. done. Qed.
Lemma no_err_bind {A B} (m : res A) (f : A -> res B) :
  no_err m -> (forall a, no_err (f a)) -> no_err (m ≫= f).
Proof. intros Hm Hf. destruct m as [a|e|]; [apply Hf | by destruct (Hm e) | done]. Qed.
Lemma no_err_rd8 b i : no_err (rd8 b i).
Proof. intros e. unfold rd8. by destruct (b !! i). Qed.
Lemma no_err_rdn b i n : no_err (rdn b i n).
Proof. intros e. unfold rdn. by destruct (_ <=? _)%nat. Qed.
Lemma no_err_wr b i x : no_err (wr b i x).
Proof. intros e. unfold wr. by destruct (_ <=? _)%nat. Qed.
#[export] Hint Resolve no_err_Ok no_err_Fault no_err_rd8 no_err_rdn no_err_wr : safe.
Ltac no_err_step :=
  cbv zeta beta;
  match goal with
  | |- no_err (mbind _ _) => apply no_err_bind; [| intros ?]
  | |- no_err (if ?b then _ else _) => destruct b
  | |- no_err (match ?x with _ => _ end) => destruct x
  | |- no_err _ => solve [auto with safe]
  end.

(** [wp_steps] walks through a [wp] goal: it enters binds and splits the guards,
    keeping their outcome as arithmetic facts. *)
Ltac bool_facts :=
  repeat match goal with
  | H : negb _ = true |- _ => apply negb_true_iff in H
  | H : negb _ = false |- _ => apply negb_false_iff in H
  | H : _ || _ = false |- _ => apply orb_false_elim in H as [? ?]
  | H : _ && _ = true |- _ => apply andb_prop in H as [? ?]
  | H : (_ <? _)%nat = true |- _ => apply Nat.ltb_lt in H
  | H : (_ <? _)%nat = false |- _ => apply Nat.ltb_ge in H
  | H : (_ <=? _)%nat = true |- _ => apply Nat.leb_le in H
  | H : (_ <=? _)%nat = false |- _ => apply Nat.leb_gt in H
  | H : (_ =? _)%nat = true |- _ => apply Nat.eqb_eq in H
  | H : (_ =? _)%nat = false |- _ => apply Nat.eqb_neq in H
  | H : (_ <? _) = true |- _ => apply Z.ltb_lt in H
  | H : (_ <? _) = false |- _ => apply Z.ltb_ge in H
  | H : (_ <=? _) = true |- _ => apply Z.leb_le in H
  | H : (_ <=? _) = false |- _ => apply Z.leb_gt in H
  | H : (_ =? _) = true |- _ => apply Z.eqb_eq in H
  | H : (_ =? _) = false |- _ => apply Z.eqb_neq in H
  end.
Ltac wp_step :=
  cbv zeta;
  match goal with
  | |- wp (Err _) _ => exact I
  | |- wp (mbind _ _) _ => apply wp_bind
  | |- wp (rd8 _ _) _ => apply wp_rd8; [assumption | | intros ?]
  | |- wp (if ?b then _ else _) _ =>
      apply wp_if; let H := fresh "Hg" in intros H; bool_facts
  | |- wp (Ok _) _ => apply wp_Ok
  | |- wp (mret _) _ => apply wp_Ok
  end.

(** [safe_step] peels the outermost bind off a safety goal; [bind_inv H] does
    the same with a hypothesis that a bind succeeded. *)
Ltac safe_step := apply safe_bind; [auto with safe | intros ? ?].
Ltac bind_inv H :=
  let x := fresh "x" in let Hx := fresh "Hx" in
  apply bind_Ok_inv in H as (x & Hx & H).

(** * Lists *)

Lemma nth_u8 (b : list Z) i : bytes b -> is_u8 (nth i b 0).
Proof.
  intros Hb. destruct (lt_dec i (length b)) as [Hi|Hi].
  - eapply Forall_lookup_1; [apply Hb|]. destruct (lookup_lt_is_Some_2 b i Hi) as [x Hx].
    by rewrite (nth_lookup_Some _ _ _ _ Hx).
  - rewrite nth_overflow by lia. unfold is_u8. lia.
Qed.
#[export] Hint Resolve nth_u8 : mach.

(** Case analysis on the boolean comparisons of a guard. *)
Ltac zbool :=
  repeat match goal with
  | H : context [(?a <? ?b)%Z] |- _ => destruct (Z.ltb_spec a b)
  | H : context [(?a <=? ?b)%Z] |- _ => destruct (Z.leb_spec a b)
  | H : context [(?a =? ?b)%Z] |- _ => destruct (Z.eqb_spec a b)
  | H : context [(?a <? ?b)%nat] |- _ => destruct (Nat.ltb_spec a b)
  | H : context [(?a <=? ?b)%nat] |- _ => destruct (Nat.leb_spec a b)
  | H : context [(?a =? ?b)%nat] |- _ => destruct (Nat.eqb_spec a b)
  | |- context [(?a <? ?b)%Z] => destruct (Z.ltb_spec a b)
  | |- context [(?a <=? ?b)%Z] => destruct (Z.leb_spec a b)
  | |- context [(?a =? ?b)%Z] => destruct (Z.eqb_spec a b)
  | |- context [(?a <? ?b)%nat] => destruct (Nat.ltb_spec a b)
  | |- context [(?a <=? ?b)%nat] => destruct (Nat.leb_spec a b)
  | |- context [(?a =? ?b)%nat] => destruct (Nat.eqb_spec a b)
  end.
