(* ===== verification/SeqNum.v ===== *)
(** 16-bit sequence numbers against the unbounded count of their sender: the
    highest number seen, histories whose packets stay near it, and the count of
    vacant slots that bounds how far a receiver's window can run ahead of it. *)

From Stdlib Require Import ZArith Lia Sorted.
From stdpp Require Import base list numbers.
From S2P Require Import Prelude.

Local Open Scope Z_scope.

(** * Highest number *)

(** The highest number of those that came, [None] before the first. *)
Definition raise (hi : option Z) (i : Z) : option Z := Some (match hi with Some n => Z.max n i | None => i end).
(** A quarter of the sequence space. *)
Definition seq_reach : Z := 2 ^ 14.
Definition in_reach (hi : option Z) (i : Z) : Prop := match hi with Some n => - seq_reach <= i - n <= seq_reach | None => True end.
#[global] Instance in_reach_dec hi i : Decision (in_reach hi i).
Proof. unfold in_reach. destruct hi; apply _. Defined.

Lemma i16_distance a b : - 2 ^ 15 <= a - b < 2 ^ 15 -> i16 (u16 a - u16 b) = a - b.
Proof.
  intros H. unfold i16. replace ((u16 a - u16 b) mod 2 ^ 16) with ((a - b) mod 2 ^ 16) by mach.
  destruct (Z.ltb_spec ((a - b) mod 2 ^ 16) (2 ^ 15)); mach.
Qed.

(** A packet of number [i] given out as number [h] while [n] was the highest that
    had come: [h] carries the packet's sequence number and lies in the window
    around [n], and a packet of the last half cycle is given out as itself.
    (Anything older is a slot left over from an earlier cycle.) *)
Record given_as (back ahead n h i : Z) : Prop := GivenAs {
  ga_window : n - back < h <= n + ahead;
  ga_seq : u16 h = u16 i;
  ga_own : n - i < 2 ^ 15 -> h = i
}.
Lemma given_as_intro back ahead n h i : 0 <= back <= 2 ^ 14 -> 0 <= ahead <= 2 ^ 14 ->
  n - back < h <= n + ahead -> u16 h = u16 i -> i <= n -> given_as back ahead n h i.
Proof. intros Hb Ha Hh Hs Hi. constructor; [done | done|]. intros Hn. mach. Qed.

(** * Vacant slots *)

Section Vacant.
Context {A : Type} (occupied : A -> bool).

Definition vacancy (a : A) : nat := if occupied a then 0 else 1.
Definition vacancies (l : list A) : nat := list_sum (map vacancy l).
Lemma vacancies_insert l : forall i a b, l !! i = Some a -> (vacancies (<[i := b]> l) + vacancy a = vacancies l + vacancy b)%nat.
Proof using Type.
  assert (forall x r, vacancies (x :: r) = (vacancy x + vacancies r)%nat) as Hc by done.
  induction l as [|x l IH]; intros [|i] a b H; try done; cbn [insert list_insert lookup list_lookup] in *; rewrite !Hc.
  - injection H as ->. lia.
  - pose proof (IH i a b H) as Hi. rewrite <- !Nat.add_assoc. f_equal. exact Hi.
Qed.
Lemma vacancies_le l : (vacancies l <= length l)%nat.
Proof using Type.
  assert (forall x r, vacancies (x :: r) = (vacancy x + vacancies r)%nat) as Hc by done.
  induction l as [|x l IH]; [done|]. rewrite Hc. cbn [length]. unfold vacancy. destruct (occupied x); lia.
Qed.
End Vacant.
