(* ===== verification/Wire.v ===== *)
(** Byte order, string and clock helpers shared by every protocol module:
    the static inline functions of [include/nanortc.h], [include/nanortc_util.h]
    and [src/nano_time.h], and the error codes of [include/nanortc.h]. *)

From Stdlib Require Import ZArith Lia.
From stdpp Require Import base list numbers.
From S2P Require Import Prelude.

Local Open Scope Z_scope.

(** * Error codes ([include/nanortc.h]) *)

Definition NANORTC_OK : Z := 0.
Definition NANORTC_ERR_INVALID_PARAM : Z := -1.
Definition NANORTC_ERR_BUFFER_TOO_SMALL : Z := -2.
Definition NANORTC_ERR_STATE : Z := -3.
Definition NANORTC_ERR_CRYPTO : Z := -4.
Definition NANORTC_ERR_PROTOCOL : Z := -5.
Definition NANORTC_ERR_NOT_IMPLEMENTED : Z := -6.
Definition NANORTC_ERR_PARSE : Z := -7.
Definition NANORTC_ERR_NO_DATA : Z := -8.
Definition NANORTC_ERR_INTERNAL : Z := -9.
Definition NANORTC_ERR_WOULD_BLOCK : Z := -10.

(** * Big-endian accessors *)

(** The octets [nanortc_write_u16be] and [nanortc_write_u32be] store. *)
Definition be16 (v : Z) : list Z := [u8 (Z.shiftr v 8); u8 v].
Definition be32 (v : Z) : list Z :=
  [u8 (Z.shiftr v 24); u8 (Z.shiftr v 16); u8 (Z.shiftr v 8); u8 v].

Definition nanortc_write_u16be (p : list Z) (i : nat) (v : Z) : res (list Z) := wr p i (be16 v).
Definition nanortc_write_u32be (p : list Z) (i : nat) (v : Z) : res (list Z) := wr p i (be32 v).

Definition nanortc_read_u16be (p : list Z) (i : nat) : res Z :=
  a ← rd8 p i; b ← rd8 p (i + 1);
  mret (u16 (Z.lor (Z.shiftl a 8) b)).

Definition nanortc_read_u32be (p : list Z) (i : nat) : res Z :=
  a ← rd8 p i; b ← rd8 p (i + 1); c ← rd8 p (i + 2); d ← rd8 p (i + 3);
  mret (Z.lor (Z.lor (Z.lor (u32 (Z.shiftl a 24)) (u32 (Z.shiftl b 16))) (u32 (Z.shiftl c 8))) d).

Definition nanortc_htons (x : Z) : Z := u16 (Z.lor (Z.shiftr x 8) (Z.shiftl x 8)).
Definition nanortc_ntohs (x : Z) : Z := nanortc_htons x.
Definition nanortc_htonl (x : Z) : Z :=
  Z.lor (Z.lor (Z.lor (Z.land (Z.shiftr x 24) 0x000000FF) (Z.land (Z.shiftr x 8) 0x0000FF00))
               (Z.land (u32 (Z.shiftl x 8)) 0x00FF0000))
        (Z.land (u32 (Z.shiftl x 24)) 0xFF000000).
Definition nanortc_ntohl (x : Z) : Z := nanortc_htonl x.

Lemma be16_bytes v : bytes (be16 v).
Proof. repeat constructor; apply u8_range. Qed.
Lemma be32_bytes v : bytes (be32 v).
Proof. repeat constructor; apply u8_range. Qed.

(** The 16- and 32-bit big-endian values of octets. *)
Definition val16 (a b : Z) : Z := a * 256 + b.
Definition val32 (a b c d : Z) : Z := ((a * 256 + b) * 256 + c) * 256 + d.

Lemma lor16 a b : is_u8 a -> is_u8 b -> u16 (Z.lor (Z.shiftl a 8) b) = val16 a b.
Proof.
  intros Ha Hb. rewrite lor_shiftl_add by (unfold is_u8 in *; lia). unfold val16.
  rewrite u16_id; mach.
Qed.
Lemma lor32 a b c d :
  is_u8 a -> is_u8 b -> is_u8 c -> is_u8 d ->
  Z.lor (Z.lor (Z.lor (u32 (Z.shiftl a 24)) (u32 (Z.shiftl b 16))) (u32 (Z.shiftl c 8))) d
  = val32 a b c d.
Proof.
  intros Ha Hb Hc Hd. unfold val32.
  rewrite !u32_id by (rewrite Z.shiftl_mul_pow2 by lia; mach).
  replace (Z.shiftl a 24) with (Z.shiftl (Z.shiftl a 8) 16) by (by rewrite Z.shiftl_shiftl by lia).
  rewrite <- Z.shiftl_lor, lor_shiftl_add with (n := 8) by mach.
  replace (Z.shiftl (a * 2 ^ 8 + b) 16) with (Z.shiftl (Z.shiftl (a * 2 ^ 8 + b) 8) 8)
    by (by rewrite Z.shiftl_shiftl by lia).
  rewrite <- Z.shiftl_lor, lor_shiftl_add with (n := 8) by mach.
  rewrite lor_shiftl_add with (n := 8) by mach. mach.
Qed.

Lemma read_u16be_Ok p i :
  bytes p -> (i + 1 < length p)%nat ->
  nanortc_read_u16be p i = Ok (val16 (nth i p 0) (nth (i + 1) p 0)).
Proof.
  intros Hp Hi. unfold nanortc_read_u16be. rewrite !rd8_Ok by lia. cbn.
  unfold mret, res_ret. rewrite lor16 by auto with mach. done.
Qed.
Lemma read_u32be_Ok p i :
  bytes p -> (i + 3 < length p)%nat ->
  nanortc_read_u32be p i =
  Ok (val32 (nth i p 0) (nth (i + 1) p 0) (nth (i + 2) p 0) (nth (i + 3) p 0)).
Proof.
  intros Hp Hi. unfold nanortc_read_u32be. rewrite !rd8_Ok by lia. cbn.
  unfold mret, res_ret. rewrite lor32 by auto with mach. done.
Qed.
Lemma val16_range a b : is_u8 a -> is_u8 b -> is_u16 (val16 a b).
Proof. unfold val16. mach. Qed.
Lemma val32_range a b c d : is_u8 a -> is_u8 b -> is_u8 c -> is_u8 d -> is_u32 (val32 a b c d).
Proof. unfold val32. mach. Qed.

Lemma wp_read_u16be p i P :
  bytes p -> (i + 1 < length p)%nat ->
  (is_u16 (val16 (nth i p 0) (nth (i + 1) p 0)) -> P (val16 (nth i p 0) (nth (i + 1) p 0))) ->
  wp (nanortc_read_u16be p i) P.
Proof. intros Hp Hi HP. rewrite read_u16be_Ok by done. apply HP, val16_range; auto with mach. Qed.
Lemma wp_read_u32be p i P :
  bytes p -> (i + 3 < length p)%nat ->
  (let v := val32 (nth i p 0) (nth (i + 1) p 0) (nth (i + 2) p 0) (nth (i + 3) p 0) in
   is_u32 v -> P v) ->
  wp (nanortc_read_u32be p i) P.
Proof. intros Hp Hi HP. rewrite read_u32be_Ok by done. apply HP, val32_range; auto with mach. Qed.
Ltac wp_wire :=
  match goal with
  | |- wp (nanortc_read_u16be _ _) _ => apply wp_read_u16be; [assumption | | intros ?]
  | |- wp (nanortc_read_u32be _ _) _ => apply wp_read_u32be; [assumption | | cbv zeta; intros ?]
  | _ => wp_step
  end.

Lemma read_u16be_safe p i : (i + 1 < length p)%nat -> safe (nanortc_read_u16be p i).
Proof. intros. unfold nanortc_read_u16be. by rewrite !rd8_Ok by lia. Qed.
Lemma read_u32be_safe p i : (i + 3 < length p)%nat -> safe (nanortc_read_u32be p i).
Proof. intros. unfold nanortc_read_u32be. by rewrite !rd8_Ok by lia. Qed.
Lemma read_u16be_range p i v : nanortc_read_u16be p i = Ok v -> is_u16 v.
Proof.
  unfold nanortc_read_u16be. intros H. bind_inv H. bind_inv H.
  injection H as <-. apply u16_range.
Qed.
Lemma read_u32be_range p i v : bytes p -> nanortc_read_u32be p i = Ok v -> is_u32 v.
Proof.
  unfold nanortc_read_u32be. intros Hp H. do 4 bind_inv H. injection H as <-.
  rewrite lor32 by (eapply rd8_u8; [apply Hp | eassumption]).
  apply val32_range; (eapply rd8_u8; [apply Hp | eassumption]).
Qed.
#[export] Hint Resolve rd8_safe rdn_safe wr_safe read_u16be_safe read_u32be_safe : safe.

Lemma val16_be16 v : val16 (u8 (Z.shiftr v 8)) (u8 v) = u16 v.
Proof. unfold val16. rewrite Z.shiftr_div_pow2 by lia. mach. Qed.
Lemma val32_be32 v :
  val32 (u8 (Z.shiftr v 24)) (u8 (Z.shiftr v 16)) (u8 (Z.shiftr v 8)) (u8 v) = u32 v.
Proof.
  unfold val32. rewrite !Z.shiftr_div_pow2 by lia.
  change (2 ^ 24) with 16777216. mach.
Qed.

(** The reads of octets just stored. *)
Create Rewrite HintDb wire.
Lemma be16_read v : u16 (Z.lor (Z.shiftl (u8 (Z.shiftr v 8)) 8) (u8 v)) = u16 v.
Proof. rewrite lor16 by apply u8_range. apply val16_be16. Qed.
Lemma be32_read v :
  Z.lor (Z.lor (Z.lor (u32 (Z.shiftl (u8 (Z.shiftr v 24)) 24)) (u32 (Z.shiftl (u8 (Z.shiftr v 16)) 16)))
               (u32 (Z.shiftl (u8 (Z.shiftr v 8)) 8))) (u8 v) = u32 v.
Proof. rewrite lor32 by apply u8_range. apply val32_be32. Qed.
#[export] Hint Rewrite be16_read be32_read : wire.

(** Reads inside a literal prefix. *)
Lemma read_u16be_at p i :
  (i + 1 < length p)%nat ->
  nanortc_read_u16be p i = Ok (u16 (Z.lor (Z.shiftl (nth i p 0) 8) (nth (i + 1) p 0))).
Proof. intros Hi. unfold nanortc_read_u16be. by rewrite !rd8_Ok by lia. Qed.
Lemma read_u32be_at p i :
  (i + 3 < length p)%nat ->
  nanortc_read_u32be p i =
  Ok (Z.lor (Z.lor (Z.lor (u32 (Z.shiftl (nth i p 0) 24)) (u32 (Z.shiftl (nth (i + 1) p 0) 16)))
       (u32 (Z.shiftl (nth (i + 2) p 0) 8))) (nth (i + 3) p 0)).
Proof. intros Hi. unfold nanortc_read_u32be. by rewrite !rd8_Ok by lia. Qed.
Lemma read_u16be_wp p i P : (i + 1 < length p)%nat -> (forall v, P v) -> wp (nanortc_read_u16be p i) P.
Proof. intros Hi HP. rewrite read_u16be_at by done. apply HP. Qed.
Lemma read_u32be_wp p i P : (i + 3 < length p)%nat -> (forall v, P v) -> wp (nanortc_read_u32be p i) P.
Proof. intros Hi HP. rewrite read_u32be_at by done. apply HP. Qed.
Lemma no_err_read16 p i : no_err (nanortc_read_u16be p i).
Proof. unfold nanortc_read_u16be. repeat no_err_step. Qed.
Lemma no_err_read32 p i : no_err (nanortc_read_u32be p i).
Proof. unfold nanortc_read_u32be. repeat no_err_step. Qed.
#[export] Hint Resolve no_err_read16 no_err_read32 : safe.
(** [lit_read] evaluates the reads, [lit_write] the stores, at constant offsets
    of a buffer whose first octets are written out. *)
Ltac lit_read :=
  first [rewrite read_u16be_at by (cbn [length be16 be32 app]; lia)
        | rewrite read_u32be_at by (cbn [length be16 be32 app]; lia)
        | rewrite rd8_Ok by (cbn [length be16 be32 app]; lia)];
  rewrite ?bind_Ok; cbn [nth Nat.add be16 be32 app]; autorewrite with wire.
Ltac lit_write :=
  rewrite wr_Ok by (cbn [length be16 be32 app]; lia); rewrite ?bind_Ok;
  cbn [take drop length be16 be32 app Nat.add].

(** Reading back what was written, at any position of a buffer. *)
Lemma read_u16be_app pre v post i :
  i = length pre -> nanortc_read_u16be (pre ++ be16 v ++ post) i = Ok (u16 v).
Proof.
  intros ->. unfold nanortc_read_u16be.
  replace (length pre) with (length pre + 0)%nat at 1 by lia. rewrite !rd8_app_r. cbn.
  unfold mret, res_ret. rewrite lor16 by apply u8_range. by rewrite val16_be16.
Qed.
Lemma read_u32be_app pre v post i :
  i = length pre -> nanortc_read_u32be (pre ++ be32 v ++ post) i = Ok (u32 v).
Proof.
  intros ->. unfold nanortc_read_u32be.
  replace (length pre) with (length pre + 0)%nat at 1 by lia. rewrite !rd8_app_r. cbn.
  unfold mret, res_ret. rewrite lor32 by apply u8_range. by rewrite val32_be32.
Qed.

(** The same when the field is found at a constant offset: the first hypothesis
    holds by computation. *)
Lemma read16_field p i v :
  p = take i p ++ be16 v ++ drop (i + 2) p -> length (take i p) = i -> is_u16 v -> nanortc_read_u16be p i = Ok v.
Proof. intros Hp Hi Hv. rewrite Hp, read_u16be_app by done. by rewrite u16_id. Qed.
Lemma read32_field p i v :
  p = take i p ++ be32 v ++ drop (i + 4) p -> length (take i p) = i -> is_u32 v -> nanortc_read_u32be p i = Ok v.
Proof. intros Hp Hi Hv. rewrite Hp, read_u32be_app by done. by rewrite u32_id. Qed.

(** * String helpers ([include/nanortc_util.h]) *)

(** [nanortc_strnlen]: the bounded NUL scan, as the source's loop on [i]; it
    faults when the scan leaves the object. *)
Fixpoint strnlen_loop (fuel : nat) (s : list Z) (i maxlen : nat) : res nat :=
  match fuel with
  | O => Ok i
  | S fuel =>
      if (i <? maxlen)%nat then
        c ← rd8 s i;
        if c =? 0 then Ok i else strnlen_loop fuel s (i + 1) maxlen
      else Ok i
  end.
Definition nanortc_strnlen (s : list Z) (maxlen : nat) : res nat :=
  strnlen_loop maxlen s 0 maxlen.

(** [nanortc_parse_uint32]: [-1] is the failure code of the source. *)
Fixpoint parse_uint32_loop (cs : list Z) (val : Z) : res Z :=
  match cs with
  | [] => Ok val
  | c :: cs =>
      if (c <? 48) || (57 <? c) then Err (-1) else
      let digit := u32 (c - 48) in
      if val >? (UINT32_MAX - digit) / 10 then Err (-1)
      else parse_uint32_loop cs (u32 (val * 10 + digit))
  end.
Definition nanortc_parse_uint32 (buf : list Z) : res Z :=
  match buf with
  | [] => Err (-1)
  | c :: rest =>
      if (1 <? length buf)%nat && (c =? 48) then Err (-1)
      else parse_uint32_loop buf 0
  end.

(** Reference: the value of a decimal numeral, over the integers. *)
Definition is_digit (c : Z) : bool := (48 <=? c) && (c <=? 57).
Fixpoint decimal_value (cs : list Z) (acc : Z) : Z :=
  match cs with [] => acc | c :: cs => decimal_value cs (acc * 10 + (c - 48)) end.
(** A canonical numeral: nonempty digits, no leading zero unless it is ["0"]. *)
Definition canonical_numeral (cs : list Z) : Prop :=
  cs <> [] /\ forallb is_digit cs = true /\ ((1 < length cs)%nat -> nth 0 cs 0 <> 48).

Lemma decimal_value_ge cs acc :
  forallb is_digit cs = true -> 0 <= acc -> acc <= decimal_value cs acc.
Proof.
  revert acc. induction cs as [|c cs IH]; intros acc Hd Ha; cbn in *; [lia|].
  apply andb_prop in Hd as [Hc Hd]. unfold is_digit in Hc. etrans; [|apply IH; [done|lia]]. lia.
Qed.

Lemma parse_uint32_loop_spec cs val v :
  is_u32 val ->
  parse_uint32_loop cs val = Ok v <->
  forallb is_digit cs = true /\ decimal_value cs val = v /\ is_u32 v.
Proof.
  revert val. induction cs as [|c cs IH]; intros val Hval; cbn.
  { split; [intros [= <-]; done | intros (_ & -> & _); done]. }
  unfold is_digit. destruct (Z.ltb_spec c 48), (Z.ltb_spec 57 c); cbn;
    try (split; [done | intros (Hd & _); lia]).
  rewrite (u32_id (c - 48)) by mach.
  destruct (Z.gtb_spec val ((UINT32_MAX - (c - 48)) / 10)) as [Hov|Hov].
  - split; [done|]. intros (Hd & Hv & Hr).
    assert (val * 10 + (c - 48) <= v); [|mach].
    apply andb_prop in Hd as [_ Hd]. rewrite <- Hv. apply decimal_value_ge; [done | mach].
  - assert (is_u32 (val * 10 + (c - 48))) by mach.
    rewrite (u32_id (val * 10 + _)) by done. rewrite IH by done.
    replace (48 <=? c) with true by lia. replace (c <=? 57) with true by lia. done.
Qed.

(** [nanortc_parse_uint32] accepts exactly the canonical decimal
    numerals below 2^32 and returns their value. *)
Theorem nanortc_parse_uint32_spec (buf : list Z) (v : Z) :
  nanortc_parse_uint32 buf = Ok v <->
  canonical_numeral buf /\ decimal_value buf 0 = v /\ is_u32 v.
Proof.
  unfold nanortc_parse_uint32, canonical_numeral. destruct buf as [|c rest].
  { split; [done | intros ((? & _) & _); done]. }
  assert (Hspec := parse_uint32_loop_spec (c :: rest) 0 v ltac:(unfold is_u32; lia)).
  destruct (Nat.ltb_spec 1 (length (c :: rest))) as [Hlen|Hlen]; cbn [andb].
  - destruct (Z.eqb_spec c 48) as [->|Hc].
    + split; [done|]. intros ((_ & _ & Hz) & _). by destruct (Hz Hlen).
    + rewrite Hspec. cbn [nth]. split; [intros (? & ? & ?) | intros ((_ & ? & _) & ? & ?)]; done.
  - rewrite Hspec. split; [intros (? & ? & ?) | intros ((_ & ? & _) & ? & ?); done].
    split_and!; try done. lia.
Qed.

(** * Wrap-safe clock ([src/nano_time.h]) *)

Definition NANO_TIME_MAX_INTERVAL_MS : Z := 0x7FFFFFFF.
Definition nano_time_elapsed (now_ms since_ms : Z) : Z := u32 (now_ms - since_ms).
Definition nano_time_is_due (now_ms deadline_ms : Z) : bool :=
  nano_time_elapsed now_ms deadline_ms <=? NANO_TIME_MAX_INTERVAL_MS.
Definition nano_time_until (now_ms deadline_ms : Z) : Z :=
  if nano_time_is_due now_ms deadline_ms then 0 else u32 (deadline_ms - now_ms).
Definition nano_time_deadline (now_ms delay_ms : Z) : Z :=
  let deadline_ms := u32 (now_ms + delay_ms) in
  if deadline_ms =? 0 then 1 else deadline_ms.

(** The wrapping clock after [t] milliseconds of real time. *)
Definition clock (t : Z) : Z := u32 t.

(** On a wrapping 32-bit clock, a deadline armed at real time [t] with
    a delay below half the clock range is never the disarmed value 0, and at
    every later real time within half the range it is due exactly when the
    delay has elapsed (one extra millisecond when the deadline would wrap to
    0), with [nano_time_until] the remaining time. *)
Theorem nano_time_deadline_correct (t delay dt : Z) :
  0 < delay <= NANO_TIME_MAX_INTERVAL_MS -> 0 <= dt <= NANO_TIME_MAX_INTERVAL_MS ->
  let d := nano_time_deadline (clock t) delay in
  let delay' := if u32 (t + delay) =? 0 then delay + 1 else delay in
  is_u32 d /\ d <> 0 /\
  (nano_time_is_due (clock (t + dt)) d = true <-> delay' <= dt) /\
  nano_time_until (clock (t + dt)) d = Z.max 0 (delay' - dt).
Proof.
  intros Hdelay Hdt d delay'. unfold NANO_TIME_MAX_INTERVAL_MS in *.
  assert (Hd : d = u32 (t + delay')).
  { unfold d, delay', nano_time_deadline, clock.
    replace (u32 (u32 t + delay)) with (u32 (t + delay)) by mach.
    destruct (Z.eqb_spec (u32 (t + delay)) 0); mach. }
  assert (delay <= delay' <= delay + 1 /\ d <> 0) as [Hr Hnz].
  { rewrite Hd. unfold delay'. destruct (Z.eqb_spec (u32 (t + delay)) 0); mach. }
  assert (Hel : nano_time_elapsed (clock (t + dt)) d = u32 (dt - delay')).
  { unfold nano_time_elapsed, clock. rewrite Hd. mach. }
  clearbody d delay'. subst d. split; [apply u32_range|]. split; [done|].
  unfold nano_time_until, nano_time_is_due. rewrite Hel. unfold NANO_TIME_MAX_INTERVAL_MS.
  destruct (Z.leb_spec (u32 (dt - delay')) 0x7FFFFFFF) as [Hle|Hle].
  - assert (delay' <= dt) by mach. split; [done | lia].
  - assert (dt < delay') by mach. split; [split; [done|lia]|].
    unfold clock. mach.
Qed.
Lemma nano_time_deadline_correct_witness :
  let d := nano_time_deadline (clock 4294967290) 6 in
  d = 1 /\ d <> 0 /\ nano_time_until (clock (4294967290 + 4)) d = 3.
Proof.
  destruct (nano_time_deadline_correct 4294967290 6 4) as (_ & Hnz & _ & Hu);
    [unfold NANO_TIME_MAX_INTERVAL_MS; lia | unfold NANO_TIME_MAX_INTERVAL_MS; lia |].
  split; [reflexivity|]. split; [exact Hnz|]. exact Hu.
Defined.
