(* ===== verification/Dtls.v ===== *)
(** The DTLS adapter, [src/nano_dtls.c]: the buffers between the datagrams of
    the connection and the provider's engine, the handshake's state and timer,
    the reassembly of a fragmented ClientHello and application data.

    The engine is not in the repository.  Of one of its calls the adapter sees
    what the call does to the two BIO callbacks: [prog] is that, a finite program
    that sends records and asks for received octets, and [run] interprets it over
    the adapter's buffers with the code's own callbacks. *)

From Stdlib Require Import ZArith Lia.
From stdpp Require Import base list numbers.
From S2P Require Import Prelude Wire.

Local Open Scope Z_scope.

Definition NANORTC_DTLS_BUF_SIZE : nat := Z.to_nat 2048.
Definition NANORTC_DTLS_KEYING_SIZE : nat := 60.
Definition NANORTC_DTLS_FINGERPRINT_STR_SIZE : nat := 97.
Definition NANORTC_DTLS_RECORD_HDR_PREFIX_SIZE : nat := 11.

(** * The provider *)

(** What a call of the engine does with the BIO callbacks before it returns:
    [Send] hands over a record and sees the callback's code, [Recv] offers room
    for some octets and sees those it was given, none for a code of 0. *)
Inductive prog (A : Type) : Type :=
| Ret (a : A)
| Send (data : list Z) (k : Z -> prog A)
| Recv (buf_len : nat) (k : list Z -> prog A).
Arguments Ret {A} a.
Arguments Send {A} data k.
Arguments Recv {A} buf_len k.

(** The DTLS part of [nanortc_crypto_provider_t]; the optional operations are
    [None] where the table holds NULL.  The engine's context is opaque.
    [dtls_decrypt] gives its code and the octets it left in the output. *)
Record provider : Type := Provider {
  ctx : Type;
  dtls_ctx_new : bool -> option ctx;
  dtls_set_bio : ctx -> ctx * Z;
  p_set_time : ctx -> Z -> ctx;
  dtls_next_timeout : ctx -> Z;
  p_handle_timeout : ctx -> prog (ctx * Z);
  dtls_handshake : ctx -> prog (ctx * Z);
  p_encrypt : ctx -> list Z -> prog (ctx * Z);
  p_decrypt : ctx -> nat -> prog (ctx * Z * list Z);
  dtls_export_keying_material : ctx -> list Z -> nat -> ctx * Z * list Z;
  p_get_fingerprint : ctx -> nat -> list Z;
  dtls_close_notify : option (ctx -> prog (ctx * Z))
}.

(** * Data *)

Inductive nano_dtls_state : Type :=
| DTLS_INIT | DTLS_HANDSHAKING | DTLS_ESTABLISHED | DTLS_CLOSED | DTLS_ERROR.
#[export] Instance nano_dtls_state_eq_dec : EqDecision nano_dtls_state.
Proof. solve_decision. Defined.

(** The inbound buffer with its two cursors. *)
Record dtls_in : Type := DtlsIn { di_buf : list Z; di_len : nat; di_read_pos : nat }.
(** The clock: the last time seen, the engine's timeout and when it was asked. *)
Record dtls_timer : Type := DtlsTimer { ti_now_ms : Z; ti_timeout_ms : Z; ti_observed_ms : Z }.
(** The ClientHello under reassembly; its octets are in the application buffer. *)
Record dtls_chlo : Type := DtlsChlo { ch_total : Z; ch_have : Z; ch_msg_seq : Z; ch_rec_hdr : list Z }.
(** [nano_dtls_t] *)
Record nano_dtls (P : provider) : Type := Dtls {
  dt_state : nano_dtls_state; dt_timer : dtls_timer;
  dt_out_buf : list Z; dt_out_len : nat; dt_in : dtls_in; dt_ctx : option (ctx P);
  dt_is_server : bool; dt_keying_material : list Z; dt_keying_ready : bool;
  dt_app_buf : list Z; dt_app_len : nat; dt_fingerprint : list Z; dt_chlo : dtls_chlo
}.
Arguments Dtls {P}.
Arguments dt_state {P} _.
Arguments dt_timer {P} _.
Arguments dt_out_buf {P} _.
Arguments dt_out_len {P} _.
Arguments dt_in {P} _.
Arguments dt_ctx {P} _.
Arguments dt_is_server {P} _.
Arguments dt_keying_material {P} _.
Arguments dt_keying_ready {P} _.
Arguments dt_app_buf {P} _.
Arguments dt_app_len {P} _.
Arguments dt_fingerprint {P} _.
Arguments dt_chlo {P} _.

Section Adapter.
Context {P : provider}.
Abbreviation dtls := (nano_dtls P).

Definition with_state (d : dtls) x : dtls := Dtls x (dt_timer d) (dt_out_buf d) (dt_out_len d) (dt_in d) (dt_ctx d) (dt_is_server d) (dt_keying_material d) (dt_keying_ready d) (dt_app_buf d) (dt_app_len d) (dt_fingerprint d) (dt_chlo d).
Definition with_timer (d : dtls) x : dtls := Dtls (dt_state d) x (dt_out_buf d) (dt_out_len d) (dt_in d) (dt_ctx d) (dt_is_server d) (dt_keying_material d) (dt_keying_ready d) (dt_app_buf d) (dt_app_len d) (dt_fingerprint d) (dt_chlo d).
Definition with_out (d : dtls) b n : dtls := Dtls (dt_state d) (dt_timer d) b n (dt_in d) (dt_ctx d) (dt_is_server d) (dt_keying_material d) (dt_keying_ready d) (dt_app_buf d) (dt_app_len d) (dt_fingerprint d) (dt_chlo d).
Definition with_in (d : dtls) x : dtls := Dtls (dt_state d) (dt_timer d) (dt_out_buf d) (dt_out_len d) x (dt_ctx d) (dt_is_server d) (dt_keying_material d) (dt_keying_ready d) (dt_app_buf d) (dt_app_len d) (dt_fingerprint d) (dt_chlo d).
Definition with_ctx (d : dtls) x : dtls := Dtls (dt_state d) (dt_timer d) (dt_out_buf d) (dt_out_len d) (dt_in d) x (dt_is_server d) (dt_keying_material d) (dt_keying_ready d) (dt_app_buf d) (dt_app_len d) (dt_fingerprint d) (dt_chlo d).
Definition with_keying (d : dtls) m r : dtls := Dtls (dt_state d) (dt_timer d) (dt_out_buf d) (dt_out_len d) (dt_in d) (dt_ctx d) (dt_is_server d) m r (dt_app_buf d) (dt_app_len d) (dt_fingerprint d) (dt_chlo d).
Definition with_app (d : dtls) b n : dtls := Dtls (dt_state d) (dt_timer d) (dt_out_buf d) (dt_out_len d) (dt_in d) (dt_ctx d) (dt_is_server d) (dt_keying_material d) (dt_keying_ready d) b n (dt_fingerprint d) (dt_chlo d).
Definition with_fingerprint (d : dtls) x : dtls := Dtls (dt_state d) (dt_timer d) (dt_out_buf d) (dt_out_len d) (dt_in d) (dt_ctx d) (dt_is_server d) (dt_keying_material d) (dt_keying_ready d) (dt_app_buf d) (dt_app_len d) x (dt_chlo d).
Definition with_chlo (d : dtls) x : dtls := Dtls (dt_state d) (dt_timer d) (dt_out_buf d) (dt_out_len d) (dt_in d) (dt_ctx d) (dt_is_server d) (dt_keying_material d) (dt_keying_ready d) (dt_app_buf d) (dt_app_len d) (dt_fingerprint d) x.

(** * BIO callbacks *)

Definition bio_send_cb (d : dtls) (data : list Z) : res (dtls * Z) :=
  if (NANORTC_DTLS_BUF_SIZE <? dt_out_len d + length data)%nat then Ok (d, -1) else
  out ← wr (dt_out_buf d) (dt_out_len d) data;
  Ok (with_out d out (dt_out_len d + length data), Z.of_nat (length data)).
Definition bio_recv_cb (d : dtls) (buf_len : nat) : res (dtls * list Z) :=
  let i := dt_in d in
  let avail := (di_len i - di_read_pos i)%nat in
  if (avail =? 0)%nat then Ok (d, []) else
  let to_copy := Nat.min avail buf_len in
  data ← rdn (di_buf i) (di_read_pos i) to_copy;
  let pos := (di_read_pos i + to_copy)%nat in
  Ok (with_in d (if (di_len i <=? pos)%nat then DtlsIn (di_buf i) 0 0 else DtlsIn (di_buf i) (di_len i) pos), data).

(** A call of the engine, its callbacks run over the adapter. *)
Fixpoint run {A} (p : prog A) (d : dtls) : res (dtls * A) :=
  match p with
  | Ret a => Ok (d, a)
  | Send data k => '(d, rc) ← bio_send_cb d data; run (k rc) d
  | Recv n k => '(d, data) ← bio_recv_cb d n; run (k data) d
  end.

(** * Handshake *)

Definition dtls_set_time (d : dtls) (now_ms : Z) : dtls :=
  let d := with_timer d (DtlsTimer now_ms (ti_timeout_ms (dt_timer d)) (ti_observed_ms (dt_timer d))) in
  match dt_ctx d with Some c => with_ctx d (Some (p_set_time P c now_ms)) | None => d end.

(** ["EXTRACTOR-dtls_srtp"] *)
Definition srtp_label : list Z :=
  [69; 88; 84; 82; 65; 67; 84; 79; 82; 45; 100; 116; 108; 115; 95; 115; 114; 116; 112].

(** The context the engine returned and its code. *)
Definition dtls_handshake_result (d : dtls) (c : ctx P) (rc : Z) : res (dtls * Z) :=
  if rc <? 0 then Ok (with_state (with_ctx d (Some c)) DTLS_ERROR, NANORTC_ERR_CRYPTO) else
  let d := with_timer (with_ctx d (Some c)) (DtlsTimer (ti_now_ms (dt_timer d)) (dtls_next_timeout P c) (ti_now_ms (dt_timer d))) in
  if rc =? 0 then
    let d := with_state d DTLS_ESTABLISHED in
    let d := with_timer d (DtlsTimer (ti_now_ms (dt_timer d)) UINT32_MAX (ti_observed_ms (dt_timer d))) in
    let '(c, krc, key) := dtls_export_keying_material P c srtp_label NANORTC_DTLS_KEYING_SIZE in
    material ← wr (dt_keying_material d) 0 key;
    Ok (with_keying (with_ctx d (Some c)) material (if krc =? 0 then true else dt_keying_ready d), NANORTC_OK)
  else Ok (d, NANORTC_OK).

Definition dtls_next_timeout_ms (d : dtls) (now_ms : Z) : Z :=
  if negb (bool_decide (dt_state d = DTLS_HANDSHAKING)) || (ti_timeout_ms (dt_timer d) =? UINT32_MAX) then UINT32_MAX else
  let elapsed := u32 (now_ms - ti_observed_ms (dt_timer d)) in
  if ti_timeout_ms (dt_timer d) <=? elapsed then 0 else ti_timeout_ms (dt_timer d) - elapsed.

(** One handshake call of the engine and its result. *)
Definition drive (d : dtls) (p : prog (ctx P * Z)) : res (dtls * Z) :=
  '(d, (c, rc)) ← run p d; dtls_handshake_result d c rc.

Definition dtls_handle_timeout (d : dtls) (now_ms : Z) : res (dtls * Z) :=
  let d := dtls_set_time d now_ms in
  match dt_ctx d with
  | Some c =>
      if negb (bool_decide (dt_state d = DTLS_HANDSHAKING)) then Ok (d, NANORTC_OK) else
      if negb (dtls_next_timeout_ms d now_ms =? 0) then Ok (d, NANORTC_OK) else
      drive d (p_handle_timeout P c)
  | None => Ok (d, NANORTC_OK)
  end.

Definition dtls_zero (is_server : bool) : dtls :=
  let z := replicate NANORTC_DTLS_BUF_SIZE 0 in
  Dtls DTLS_INIT (DtlsTimer 0 UINT32_MAX 0) z 0 (DtlsIn z 0 0) None is_server
    (replicate NANORTC_DTLS_KEYING_SIZE 0) false z 0
    (replicate NANORTC_DTLS_FINGERPRINT_STR_SIZE 0)
    (DtlsChlo 0 0 0 (replicate NANORTC_DTLS_RECORD_HDR_PREFIX_SIZE 0)).
Definition dtls_init (is_server : bool) : res (dtls * Z) :=
  let d := dtls_zero is_server in
  match dtls_ctx_new P is_server with
  | None => Ok (with_state d DTLS_ERROR, NANORTC_ERR_CRYPTO)
  | Some c =>
      let '(c, rc) := dtls_set_bio P c in
      if negb (rc =? 0) then Ok (with_state d DTLS_ERROR, NANORTC_ERR_CRYPTO) else
      fp ← wr (dt_fingerprint d) 0 (p_get_fingerprint P c NANORTC_DTLS_FINGERPRINT_STR_SIZE);
      Ok (with_fingerprint (with_ctx d (Some c)) fp, NANORTC_OK)
  end.

Definition dtls_start (d : dtls) : res (dtls * Z) :=
  match dt_ctx d with
  | None => Ok (d, NANORTC_ERR_INVALID_PARAM)
  | Some c =>
      if negb (bool_decide (dt_state d = DTLS_INIT)) then Ok (d, NANORTC_ERR_STATE) else
      drive (with_state d DTLS_HANDSHAKING) (dtls_handshake P c)
  end.

(** * ClientHello reassembly *)

(** The handshake header of a record: the length of the message, its number, and
    the fragment's place. *)
Record hs_header : Type := HsHeader { hs_total : Z; hs_msg_seq : Z; hs_off : Z; hs_len : Z }.
Definition read_u24be (p : list Z) (i : nat) : res Z :=
  a ← rd8 p i; b ← rd8 p (i + 1); c ← rd8 p (i + 2);
  Ok (Z.lor (Z.lor (Z.shiftl a 16) (Z.shiftl b 8)) c).
(** [None]: not the fragment of a ClientHello for us. *)
Definition chlo_header (d : dtls) (data : list Z) : res (option hs_header) :=
  if negb (dt_is_server d) then Ok None else
  if negb (bool_decide (dt_state d = DTLS_INIT)) && negb (bool_decide (dt_state d = DTLS_HANDSHAKING)) then Ok None else
  if (length data <? 25)%nat then Ok None else
  content ← rd8 data 0;
  if negb (content =? 22) then Ok None else
  hi ← rd8 data 11; lo ← rd8 data 12;
  let rec_len := Z.lor (Z.shiftl hi 8) lo in
  if (Z.of_nat (length data) <? rec_len + 13) || (rec_len <? 12) then Ok None else
  type ← rd8 data 13;
  if negb (type =? 1) then Ok None else
  total ← read_u24be data 14;
  hi ← rd8 data 17; lo ← rd8 data 18;
  let msg_seq := Z.lor (Z.shiftl hi 8) lo in
  off ← read_u24be data 19;
  len ← read_u24be data 22;
  if (off =? 0) && (len =? total) then Ok None else
  Ok (Some (HsHeader total msg_seq off len)).

(** The synthesized record of a whole ClientHello. *)
Definition be24 (v : Z) : list Z := [u8 (Z.shiftr v 16); u8 (Z.shiftr v 8); Z.land v 255].
Definition chlo_record (c : dtls_chlo) (body : list Z) : list Z :=
  let rec_body_len := 12 + ch_total c in
  ch_rec_hdr c ++ [u8 (Z.shiftr rec_body_len 8); Z.land rec_body_len 255; 1] ++ be24 (ch_total c)
    ++ [u8 (Z.shiftr (ch_msg_seq c) 8); Z.land (ch_msg_seq c) 255; 0; 0; 0] ++ be24 (ch_total c) ++ body.
Definition chlo_idle (c : dtls_chlo) : dtls_chlo := DtlsChlo 0 0 (ch_msg_seq c) (ch_rec_hdr c).
Definition dtls_try_reassemble_chlo (d : dtls) (data : list Z) : res (dtls * Z) :=
  header ← chlo_header d data;
  match header with
  | None => Ok (d, 0)
  | Some h =>
      if Z.of_nat NANORTC_DTLS_BUF_SIZE <? hs_total h then Ok (d, -1) else
      if hs_total h <? u32 (hs_off h + hs_len h) then Ok (d, -1) else
      if Z.of_nat (length data) <? 25 + hs_len h then Ok (d, -1) else
      let c := dt_chlo d in
      hdr ← rdn data 0 NANORTC_DTLS_RECORD_HDR_PREFIX_SIZE;
      let c := if (ch_total c =? 0) || negb (ch_total c =? hs_total h) || negb (ch_msg_seq c =? hs_msg_seq h)
               then DtlsChlo (hs_total h) 0 (hs_msg_seq h) hdr else c in
      fragment ← rdn data 25 (Z.to_nat (hs_len h));
      app ← wr (dt_app_buf d) (Z.to_nat (hs_off h)) fragment;
      let have := if ch_have c <? u32 (hs_off h + hs_len h) then u32 (hs_off h + hs_len h) else ch_have c in
      let c := DtlsChlo (ch_total c) have (ch_msg_seq c) (ch_rec_hdr c) in
      let d := with_chlo (with_app d app (dt_app_len d)) c in
      if have <? ch_total c then Ok (d, 1) else
      let new_rec_len := (25 + Z.to_nat (ch_total c))%nat in
      let i := dt_in d in
      if (NANORTC_DTLS_BUF_SIZE <? di_len i + new_rec_len)%nat then Ok (with_chlo d (chlo_idle c), -1) else
      body ← rdn (dt_app_buf d) 0 (Z.to_nat (ch_total c));
      buf ← wr (di_buf i) (di_len i) (chlo_record c body);
      Ok (with_chlo (with_in d (DtlsIn buf (di_len i + new_rec_len) (di_read_pos i))) (chlo_idle c), 1)
  end.

(** * Datagrams and application data *)

Definition dtls_buffer (d : dtls) (data : list Z) : res (dtls * Z) :=
  '(d, rasm) ← dtls_try_reassemble_chlo d data;
  if rasm <? 0 then Ok (d, NANORTC_ERR_PROTOCOL) else
  if rasm =? 0 then
    let i := dt_in d in
    if (NANORTC_DTLS_BUF_SIZE <? di_len i + length data)%nat then Ok (d, NANORTC_ERR_BUFFER_TOO_SMALL) else
    buf ← wr (di_buf i) (di_len i) data;
    Ok (with_in d (DtlsIn buf (di_len i + length data) (di_read_pos i)), NANORTC_OK)
  else Ok (d, NANORTC_OK).
(** The engine's read of one record into the application buffer. *)
Definition dtls_read_app (d : dtls) (c : ctx P) : res (dtls * Z) :=
  '(d, (c, rc, out)) ← run (p_decrypt P c NANORTC_DTLS_BUF_SIZE) d;
  app ← wr (dt_app_buf d) 0 out;
  let d := with_ctx d (Some c) in
  if rc <? 0 then Ok (with_app d app 0, NANORTC_ERR_CRYPTO) else Ok (with_app d app (length out), NANORTC_OK).
Definition dtls_handle_data (d : dtls) (data : list Z) : res (dtls * Z) :=
  if (length data =? 0)%nat then Ok (d, NANORTC_ERR_INVALID_PARAM) else
  match dt_ctx d with
  | None => Ok (d, NANORTC_ERR_STATE)
  | Some c =>
      '(d, rc) ← dtls_buffer d data;
      if negb (rc =? NANORTC_OK) then Ok (d, rc) else
      match dt_state d with
      | DTLS_INIT => drive (with_state d DTLS_HANDSHAKING) (dtls_handshake P c)
      | DTLS_HANDSHAKING => drive d (dtls_handshake P c)
      | DTLS_ESTABLISHED => dtls_read_app d c
      | _ => Ok (d, NANORTC_ERR_STATE)
      end
  end.

(** The output handed over, in a buffer of the given size. *)
Definition dtls_poll_output (d : dtls) (buf_len : nat) : res (dtls * list Z) :=
  if (dt_out_len d =? 0)%nat then Err NANORTC_ERR_NO_DATA else
  if (buf_len <? dt_out_len d)%nat then Err NANORTC_ERR_BUFFER_TOO_SMALL else
  out ← rdn (dt_out_buf d) 0 (dt_out_len d);
  Ok (with_out d (dt_out_buf d) 0, out).

Definition dtls_encrypt (d : dtls) (data : list Z) : res (dtls * Z) :=
  if (length data =? 0)%nat then Ok (d, NANORTC_ERR_INVALID_PARAM) else
  if negb (bool_decide (dt_state d = DTLS_ESTABLISHED)) then Ok (d, NANORTC_ERR_STATE) else
  match dt_ctx d with
  | None => Fault
  | Some c =>
      '(d, (c, rc)) ← run (p_encrypt P c data) d;
      let d := with_ctx d (Some c) in
      if rc <? 0 then Ok (d, NANORTC_ERR_CRYPTO) else Ok (d, NANORTC_OK)
  end.

Definition dtls_poll_app_data (d : dtls) : res (dtls * list Z) :=
  if (dt_app_len d =? 0)%nat then Err NANORTC_ERR_NO_DATA else
  data ← rdn (dt_app_buf d) 0 (dt_app_len d);
  Ok (with_app d (dt_app_buf d) 0, data).

Definition dtls_get_fingerprint (d : dtls) : res (option (list Z)) :=
  first ← rd8 (dt_fingerprint d) 0;
  Ok (if first =? 0 then None else Some (dt_fingerprint d)).

Definition dtls_close (d : dtls) : res dtls :=
  match dtls_close_notify P, dt_ctx d, bool_decide (dt_state d = DTLS_ESTABLISHED) with
  | Some close_notify, Some c, true =>
      '(d, (c, _)) ← run (close_notify c) d; Ok (with_state (with_ctx d (Some c)) DTLS_CLOSED)
  | _, _, _ => Ok (with_state d DTLS_CLOSED)
  end.
Definition dtls_destroy (d : dtls) : dtls := with_state (with_ctx d None) DTLS_CLOSED.

End Adapter.
Arguments dtls_init P is_server : clear implicits.
