(* ===== verification/DtlsSpec.v ===== *)
(** What the DTLS adapter keeps over every history of calls: its buffers and
    their cursors, the order of its states, and the SRTP keying material once it
    is ready.  The provider is any that writes no more than it is given room
    for. *)

From Stdlib Require Import ZArith Lia Relations.
From stdpp Require Import base list numbers relations.
From S2P Require Import Prelude Wire Dtls.

Local Open Scope Z_scope.

(** Every way a call can end satisfies [Q]: the callbacks may give any code and
    any octets that fit the room offered. *)
Fixpoint always {A} (Q : A -> Prop) (p : prog A) : Prop :=
  match p with
  | Ret a => Q a
  | Send data k => forall rc, always Q (k rc)
  | Recv n k => forall data, (length data <= n)%nat -> always Q (k data)
  end.

(** The documented capacities of the provider's outputs. *)
Class provider_laws (P : provider) : Prop := {
  law_fingerprint c n : (length (p_get_fingerprint P c n) <= n)%nat;
  law_keying c l n : (length (snd (dtls_export_keying_material P c l n)) <= n)%nat;
  law_decrypt c n : always (fun r => (length (snd r) <= n)%nat) (p_decrypt P c n);
}.

(** The order of the states: forward through the handshake, from there to an
    error, and from anywhere to closed. *)
Inductive dtls_step : nano_dtls_state -> nano_dtls_state -> Prop :=
| step_start : dtls_step DTLS_INIT DTLS_HANDSHAKING
| step_established : dtls_step DTLS_HANDSHAKING DTLS_ESTABLISHED
| step_error : dtls_step DTLS_HANDSHAKING DTLS_ERROR
| step_closed s : dtls_step s DTLS_CLOSED.
#[export] Hint Constructors dtls_step : core.

Section History.
Context {P : provider} {laws : provider_laws P}.
Abbreviation dtls := (nano_dtls P).

(** The inbound cursors: within the buffer, and at its start when it is empty. *)
Definition in_wf (i : dtls_in) : Prop :=
  length (di_buf i) = NANORTC_DTLS_BUF_SIZE /\ (di_len i <= NANORTC_DTLS_BUF_SIZE)%nat /\
  ((di_read_pos i < di_len i)%nat \/ (di_read_pos i = 0 /\ di_len i = 0)%nat).
Definition chlo_wf (c : dtls_chlo) : Prop :=
  length (ch_rec_hdr c) = NANORTC_DTLS_RECORD_HDR_PREFIX_SIZE /\
  0 <= ch_total c <= Z.of_nat NANORTC_DTLS_BUF_SIZE /\ 0 <= ch_have c /\
  (ch_have c < ch_total c \/ (ch_have c = 0 /\ ch_total c = 0)).
Record dtls_wf (d : dtls) : Prop := {
  wf_out_buf : length (dt_out_buf d) = NANORTC_DTLS_BUF_SIZE;
  wf_out_len : (dt_out_len d <= NANORTC_DTLS_BUF_SIZE)%nat;
  wf_in : in_wf (dt_in d);
  wf_keying : length (dt_keying_material d) = NANORTC_DTLS_KEYING_SIZE;
  wf_app_buf : length (dt_app_buf d) = NANORTC_DTLS_BUF_SIZE;
  wf_app_len : (dt_app_len d <= NANORTC_DTLS_BUF_SIZE)%nat;
  wf_fp : length (dt_fingerprint d) = NANORTC_DTLS_FINGERPRINT_STR_SIZE;
  wf_chlo : chlo_wf (dt_chlo d);
  wf_ctx : dt_state d = DTLS_ESTABLISHED -> dt_ctx d <> None;
  wf_ready : dt_keying_ready d = true -> dt_state d <> DTLS_INIT /\ dt_state d <> DTLS_HANDSHAKING
}.

(** What one call may do to the state and the keying material. *)
Definition advances (d d' : dtls) : Prop :=
  rtc dtls_step (dt_state d) (dt_state d') /\
  (dt_keying_ready d = true -> dt_keying_ready d' = true /\ dt_keying_material d' = dt_keying_material d).
Lemma advances_refl d : advances d d.
Proof. split; [apply rtc_refl | auto]. Qed.
Lemma advances_trans d d' d'' : advances d d' -> advances d' d'' -> advances d d''.
Proof.
  intros [H1 K1] [H2 K2]. split; [by etrans|].
  intros H. destruct (K1 H) as [H' E]. destruct (K2 H') as [? E']. split; [done | congruence].
Qed.

(** A call that keeps the adapter well formed and moves it forward. *)
Definition good {A} (d : dtls) (r : res (dtls * A)) (Q : dtls -> A -> Prop) : Prop :=
  exists d' a, r = Ok (d', a) /\ dtls_wf d' /\ advances d d' /\ Q d' a.

(** * The callbacks *)

Lemma bio_send_good d data :
  dtls_wf d ->
  exists d' rc, bio_send_cb d data = Ok (d', rc) /\ dtls_wf d' /\ d' = with_out d (dt_out_buf d') (dt_out_len d').
Proof.
  intros W. unfold bio_send_cb. destruct (Nat.ltb_spec NANORTC_DTLS_BUF_SIZE (dt_out_len d + length data)).
  - exists d, (-1). split_and!; [done | done | by destruct d].
  - destruct (wr (dt_out_buf d) (dt_out_len d) data) as [b| |] eqn:Hw.
    2,3: rewrite wr_Ok in Hw by (rewrite (wf_out_buf _ W); lia); done.
    apply wr_length in Hw. rewrite bind_Ok. do 2 eexists. split_and!; [done | | done].
    destruct W. split; cbn; first [done | congruence].
Qed.
Lemma bio_recv_good d n :
  dtls_wf d ->
  exists d' data, bio_recv_cb d n = Ok (d', data) /\ dtls_wf d' /\ d' = with_in d (dt_in d') /\ (length data <= n)%nat.
Proof.
  intros W. destruct (wf_in _ W) as (Hb & Hl & Hp). unfold bio_recv_cb.
  destruct (Nat.eqb_spec (di_len (dt_in d) - di_read_pos (dt_in d)) 0).
  { exists d, []. split_and!; [done | done | by destruct d | cbn; lia]. }
  rewrite rdn_Ok by lia. rewrite bind_Ok. do 2 eexists. split; [done|]. split_and!.
  - destruct W. split; cbn; try done. unfold in_wf.
    destruct (Nat.leb_spec (di_len (dt_in d)) (di_read_pos (dt_in d) + Nat.min (di_len (dt_in d) - di_read_pos (dt_in d)) n)); cbn.
    + split_and!; [done | lia | by right].
    + split_and!; [done | lia | left; lia].
  - done.
  - rewrite length_take. lia.
Qed.

(** What the engine can change of the adapter, its callbacks only. *)
Definition bio_only (d d' : dtls) : Prop :=
  d' = with_in (with_out d (dt_out_buf d') (dt_out_len d')) (dt_in d').
Lemma bio_only_refl d : bio_only d d.
Proof. by destruct d. Qed.
Lemma bio_only_trans d d' d'' : bio_only d d' -> bio_only d' d'' -> bio_only d d''.
Proof. unfold bio_only. intros -> E. rewrite E. by destruct d, d''. Qed.

Lemma run_good {A} (p : prog A) (Q : A -> Prop) d :
  dtls_wf d -> always Q p ->
  exists d' a, run p d = Ok (d', a) /\ dtls_wf d' /\ bio_only d d' /\ Q a.
Proof.
  revert d. induction p as [a|data k IH|n k IH]; intros d W HQ; cbn.
  - exists d, a. auto using bio_only_refl.
  - destruct (bio_send_good d data W) as (d1 & rc & -> & W1 & E1). rewrite bind_Ok.
    destruct (IH rc d1 W1 (HQ rc)) as (d2 & a & -> & W2 & E2 & ?). exists d2, a. split_and!; auto.
    eapply bio_only_trans; [|exact E2]. rewrite E1. by destruct d.
  - destruct (bio_recv_good d n W) as (d1 & data & -> & W1 & E1 & Hl). rewrite bind_Ok.
    destruct (IH data d1 W1 (HQ data Hl)) as (d2 & a & -> & W2 & E2 & ?). exists d2, a. split_and!; auto.
    eapply bio_only_trans; [|exact E2]. rewrite E1. by destruct d.
Qed.
Lemma always_True {A} (p : prog A) : always (fun _ => True) p.
Proof. induction p; cbn; auto. Qed.
Lemma run_total {A} (p : prog A) d :
  dtls_wf d -> exists d' a, run p d = Ok (d', a) /\ dtls_wf d' /\ bio_only d d'.
Proof. intros W. destruct (run_good p (fun _ => True) d W (always_True p)) as (d' & a & ? & ? & ? & _). eauto. Qed.

(** * The handshake *)

Lemma advances_to d (d' : dtls) :
  dtls_step (dt_state d) (dt_state d') -> dt_keying_ready d = false -> advances d d'.
Proof. intros H K. split; [by apply rtc_once | congruence]. Qed.
Lemma not_ready d : dtls_wf d -> dt_state d = DTLS_HANDSHAKING -> dt_keying_ready d = false.
Proof. intros W E. destruct (dt_keying_ready d) eqn:K; [|done]. by destruct (wf_ready _ W K). Qed.

Lemma handshake_result_good d c rc :
  dtls_wf d -> dt_state d = DTLS_HANDSHAKING ->
  good d (dtls_handshake_result d c rc) (fun _ code => code = NANORTC_OK \/ code = NANORTC_ERR_CRYPTO).
Proof.
  intros W E. pose proof (not_ready d W E) as K. unfold dtls_handshake_result.
  destruct (rc <? 0).
  { do 2 eexists. split_and!; [done | | | by right].
    - destruct W. split; cbn; first [done | congruence].
    - apply advances_to; [rewrite E; constructor | done]. }
  destruct (rc =? 0).
  - pose proof (law_keying c srtp_label NANORTC_DTLS_KEYING_SIZE) as Hk.
    destruct (dtls_export_keying_material P c srtp_label NANORTC_DTLS_KEYING_SIZE) as [[c' krc] key]. cbn in Hk.
    cbn [dt_keying_material with_timer with_state with_ctx].
    destruct (wr (dt_keying_material d) 0 key) as [b| |] eqn:Hw.
    2,3: rewrite wr_Ok in Hw by (rewrite (wf_keying _ W); lia); done.
    apply wr_length in Hw. rewrite bind_Ok. do 2 eexists. split_and!; [done | | | by left].
    + destruct W. split; cbn; first [done | congruence].
    + apply advances_to; [rewrite E; constructor | done].
  - do 2 eexists. split_and!; [done | | | by left].
    + destruct W. split; cbn; try done.
    + split; [cbn; apply rtc_refl | cbn; auto].
Qed.

Lemma bio_only_state d d' : bio_only d d' -> dt_state d' = dt_state d.
Proof. intros ->. done. Qed.
Lemma bio_only_advances d d' d'' : bio_only d d' -> advances d' d'' -> advances d d''.
Proof. intros -> [H K]. split; [exact H | exact K]. Qed.

Lemma drive_good d p :
  dtls_wf d -> dt_state d = DTLS_HANDSHAKING ->
  good d (drive d p) (fun _ code => code = NANORTC_OK \/ code = NANORTC_ERR_CRYPTO).
Proof.
  intros W E. unfold drive. destruct (run_total p d W) as (d1 & [c rc] & -> & W1 & B). rewrite bind_Ok.
  destruct (handshake_result_good d1 c rc W1) as (d2 & a & -> & W2 & Ad & HQ).
  { by rewrite (bio_only_state _ _ B). }
  exists d2, a. split_and!; eauto using bio_only_advances.
Qed.

(** * Reassembly *)

Definition hs_wf (data : list Z) (h : hs_header) : Prop :=
  (25 <= length data)%nat /\ 0 <= hs_total h < 2 ^ 24 /\ 0 <= hs_off h < 2 ^ 24 /\ 0 <= hs_len h < 2 ^ 24 /\
  (hs_off h <> 0 \/ hs_len h <> hs_total h).
Lemma lor24 a b c : is_u8 a -> is_u8 b -> is_u8 c -> Z.lor (Z.lor (Z.shiftl a 16) (Z.shiftl b 8)) c = (a * 256 + b) * 256 + c.
Proof.
  intros Ha Hb Hc. replace (Z.shiftl a 16) with (Z.shiftl (Z.shiftl a 8) 8) by (by rewrite Z.shiftl_shiftl by lia).
  rewrite <- Z.shiftl_lor. rewrite lor_shiftl_add by (unfold is_u8 in *; lia).
  rewrite lor_shiftl_add by (unfold is_u8 in *; lia). lia.
Qed.
Lemma wp_read_u24be p i Q :
  bytes p -> (i + 2 < length p)%nat -> (forall v, 0 <= v < 2 ^ 24 -> Q v) -> wp (read_u24be p i) Q.
Proof.
  intros Hp Hi HQ. unfold read_u24be. do 3 (wp_step; wp_step; [lia|]).
  wp_step. apply HQ. rewrite lor24 by done. unfold is_u8 in *. lia.
Qed.
Lemma chlo_header_wp (d : dtls) data :
  bytes data ->
  wp (chlo_header d data) (fun o => match o with
    | None => True
    | Some h => hs_wf data h /\ dt_is_server d = true /\ (dt_state d = DTLS_INIT \/ dt_state d = DTLS_HANDSHAKING) end).
Proof.
  intros Hb. unfold chlo_header.
  apply wp_if; [done|]. intros Hs%negb_false_iff.
  apply wp_if; [done|]. intros Hst.
  apply wp_if; [done|]. intros Hl%Nat.ltb_ge.
  wp_step. wp_step; [lia|]. apply wp_if; [done|]. intros _.
  do 2 (wp_step; wp_step; [lia|]). cbv zeta. apply wp_if; [done|]. intros _.
  wp_step. wp_step; [lia|]. apply wp_if; [done|]. intros _.
  wp_step. apply wp_read_u24be; [done | lia|]. intros total Ht.
  do 2 (wp_step; wp_step; [lia|]). cbv zeta.
  wp_step. apply wp_read_u24be; [done | lia|]. intros off Ho.
  wp_step. apply wp_read_u24be; [done | lia|]. intros len Hn.
  apply wp_if; [done|]. intros Hne. apply wp_Ok. split_and!; [|done|].
  - unfold hs_wf. cbn. apply andb_false_iff in Hne as [?%Z.eqb_neq | ?%Z.eqb_neq]; lia.
  - apply andb_false_iff in Hst as [E%negb_false_iff%bool_decide_eq_true | E%negb_false_iff%bool_decide_eq_true]; auto.
Qed.

Lemma chlo_record_length c body :
  length (ch_rec_hdr c) = NANORTC_DTLS_RECORD_HDR_PREFIX_SIZE -> length (chlo_record c body) = (25 + length body)%nat.
Proof. intros H. unfold chlo_record. rewrite !length_app, H. cbn. lia. Qed.

(** What reassembly touches: its own state, the octets of the application
    buffer and the inbound buffer. *)
Definition chlo_only (d d' : dtls) : Prop :=
  d' = with_chlo (with_app (with_in d (dt_in d')) (dt_app_buf d') (dt_app_len d)) (dt_chlo d').

Lemma reassemble_good (d : dtls) data :
  dtls_wf d -> bytes data ->
  exists d' rc, dtls_try_reassemble_chlo d data = Ok (d', rc) /\ dtls_wf d' /\ chlo_only d d' /\ (rc = 0 -> d' = d).
Proof.
  intros W Hb. unfold dtls_try_reassemble_chlo. pose proof (chlo_header_wp d data Hb) as Hh.
  assert (no_err (chlo_header d data)) as Hne by (unfold chlo_header, read_u24be; repeat no_err_step).
  destruct (chlo_header d data) as [[h|]| |]; [| | by destruct (Hne e) | done]; clear Hne; rewrite bind_Ok.
  2:{ exists d, 0. split_and!; [done | done | by destruct d | done]. }
  cbn [wp] in Hh. destruct Hh as ((Hd & Ht & Ho & Hn & Hne) & _ & Hst).
  assert (forall rc, rc <> 0 -> exists d' rc', Ok (d, rc) = Ok (d', rc') /\ dtls_wf d' /\ chlo_only d d' /\ (rc' = 0 -> d' = d)) as Hstop.
  { intros rc Hrc. exists d, rc. split_and!; [done | done | by destruct d | done]. }
  destruct (Z.ltb_spec (Z.of_nat NANORTC_DTLS_BUF_SIZE) (hs_total h)); [by apply Hstop|].
  replace (u32 (hs_off h + hs_len h)) with (hs_off h + hs_len h) by mach.
  destruct (Z.ltb_spec (hs_total h) (hs_off h + hs_len h)); [by apply Hstop|].
  destruct (Z.ltb_spec (Z.of_nat (length data)) (25 + hs_len h)); [by apply Hstop|]. clear Hstop.
  rewrite (rdn_Ok data 0), bind_Ok by (unfold NANORTC_DTLS_RECORD_HDR_PREFIX_SIZE; lia). cbv zeta.
  set (c := if _ || _ then _ else dt_chlo d).
  assert (length (ch_rec_hdr c) = NANORTC_DTLS_RECORD_HDR_PREFIX_SIZE /\ ch_total c = hs_total h /\ 0 <= ch_have c <= ch_total c) as (Hc1 & Hc2 & Hc3).
  { destruct (wf_chlo _ W) as (Hr & Hct & Hch & Hlt). subst c.
    destruct (_ || _) eqn:Hor; cbn.
    - split_and!; [rewrite length_take, length_drop; unfold NANORTC_DTLS_RECORD_HDR_PREFIX_SIZE; lia | done | lia | lia].
    - apply orb_false_iff in Hor as [Hor _]. apply orb_false_iff in Hor as [_ Hor%negb_false_iff%Z.eqb_eq].
      split_and!; [done | done | lia | lia]. }
  rewrite rdn_Ok, bind_Ok by lia.
  set (fragment := take _ _). assert (Z.of_nat (length fragment) = hs_len h) as Hf.
  { unfold fragment. rewrite length_take, length_drop. lia. }
  destruct (wr (dt_app_buf d) (Z.to_nat (hs_off h)) fragment) as [app| |] eqn:Hw.
  2,3: rewrite wr_Ok in Hw by (rewrite (wf_app_buf _ W); lia); done.
  apply wr_length in Hw. rewrite bind_Ok.
  set (have := if ch_have c <? _ then _ else ch_have c).
  assert (0 <= have <= ch_total c) as Hhave.
  { unfold have. destruct (Z.ltb_spec (ch_have c) (hs_off h + hs_len h)); lia. }
  cbn [ch_total dt_chlo with_chlo with_app dt_in dt_app_buf with_in].
  destruct (wf_in _ W) as (Hi1 & Hi2 & Hi3).
  destruct (Z.ltb_spec have (ch_total c)).
  { do 2 eexists. split_and!; [done | | done | done].
    destruct W. split; cbn; try done; [congruence|]. unfold chlo_wf. cbn. split_and!; try done; try lia. }
  destruct (Nat.ltb_spec NANORTC_DTLS_BUF_SIZE (di_len (dt_in d) + (25 + Z.to_nat (ch_total c)))).
  { do 2 eexists. split_and!; [done | | done | done].
    destruct W. split; cbn; try done; [congruence|]. unfold chlo_wf. cbn. split_and!; try done; try lia. }
  rewrite rdn_Ok, bind_Ok by (rewrite Hw, (wf_app_buf _ W); lia).
  set (rec := chlo_record _ _). assert (length rec = 25 + Z.to_nat (ch_total c))%nat as Hrec.
  { unfold rec. rewrite chlo_record_length by done. rewrite length_take, length_drop, Hw, (wf_app_buf _ W). lia. }
  destruct (wr (di_buf (dt_in d)) (di_len (dt_in d)) rec) as [buf| |] eqn:Hwb.
  2,3: rewrite wr_Ok in Hwb by lia; done.
  apply wr_length in Hwb. rewrite bind_Ok. do 2 eexists. split_and!; [done | | done | done].
  destruct W. split; cbn; try done; [| congruence |].
  - unfold in_wf. cbn. split_and!; [congruence | lia | left; lia].
  - unfold chlo_wf. cbn. split_and!; try done; lia.
Qed.

Lemma chlo_only_advances d d' : chlo_only d d' -> dt_state d' = dt_state d /\ dt_ctx d' = dt_ctx d /\ advances d d'.
Proof. intros ->. split_and!; [done | done |]. split; cbn; [apply rtc_refl | auto]. Qed.

Lemma buffer_good (d : dtls) data :
  dtls_wf d -> bytes data -> good d (dtls_buffer d data) (fun d' _ => dt_state d' = dt_state d /\ dt_ctx d' = dt_ctx d).
Proof.
  intros W Hb. unfold dtls_buffer. destruct (reassemble_good d data W Hb) as (d1 & rc & -> & W1 & Ho & H0).
  rewrite bind_Ok. destruct (chlo_only_advances d d1 Ho) as (Es & Ec & Ad).
  destruct (rc <? 0). { exists d1, NANORTC_ERR_PROTOCOL. auto. }
  destruct (Z.eqb_spec rc 0) as [E0|]; [|exists d1, NANORTC_OK; auto].
  rewrite (H0 E0) in *. clear d1 H0 W1 Ho Es Ec.
  destruct (wf_in _ W) as (Hi1 & Hi2 & Hi3).
  destruct (Nat.ltb_spec NANORTC_DTLS_BUF_SIZE (di_len (dt_in d) + length data)).
  { exists d, NANORTC_ERR_BUFFER_TOO_SMALL. auto. }
  destruct (wr (di_buf (dt_in d)) (di_len (dt_in d)) data) as [buf| |] eqn:Hw.
  2,3: rewrite wr_Ok in Hw by lia; done.
  apply wr_length in Hw. rewrite bind_Ok. do 2 eexists. split_and!; [done | | | done | done].
  - destruct W. split; cbn; try done. unfold in_wf. cbn. split_and!; [congruence | lia |].
    destruct (decide (di_len (dt_in d) + length data = 0)%nat); [right; lia | left; lia].
  - split; cbn; [apply rtc_refl | auto].
Qed.

(** * The operations *)

Lemma state_good (d : dtls) s :
  dtls_wf d -> (s = DTLS_ESTABLISHED -> dt_ctx d <> None) ->
  (dt_keying_ready d = true -> s <> DTLS_INIT /\ s <> DTLS_HANDSHAKING) -> dtls_wf (with_state d s).
Proof. intros W H1 H2. destruct W. by split. Qed.
Lemma wf_handshaking (d : dtls) : dtls_wf d -> dt_state d = DTLS_INIT -> dtls_wf (with_state d DTLS_HANDSHAKING).
Proof.
  intros W E. apply state_good; [done | done|]. intros K. by destruct (wf_ready _ W K).
Qed.
Lemma start_advances (d d' : dtls) :
  dt_state d = DTLS_INIT -> advances (with_state d DTLS_HANDSHAKING) d' -> advances d d'.
Proof. intros E [H K]. split; [|exact K]. rewrite E. eapply rtc_l; [constructor | exact H]. Qed.

Lemma set_time_good (d : dtls) now : dtls_wf d -> dtls_wf (dtls_set_time d now) /\ advances d (dtls_set_time d now).
Proof.
  intros W. unfold dtls_set_time. cbn. destruct (dt_ctx d) eqn:E; cbn.
  - split; [destruct W; split; cbn; try done | split; cbn; [apply rtc_refl | auto]].
  - split; [destruct W; split; cbn; try done | split; cbn; [apply rtc_refl | auto]].
Qed.

Lemma handle_timeout_good (d : dtls) now : dtls_wf d -> good d (dtls_handle_timeout d now) (fun _ _ => True).
Proof.
  intros W. destruct (set_time_good d now W) as [W' Ad]. unfold dtls_handle_timeout.
  set (d1 := dtls_set_time d now) in *. cbv zeta.
  assert (good d (Ok (d1, NANORTC_OK)) (fun _ _ => True)) as Hstop by (do 2 eexists; split_and!; done).
  destruct (dt_ctx d1) as [c|]; [|done].
  destruct (bool_decide_reflect (dt_state d1 = DTLS_HANDSHAKING)) as [E|]; [|done]. cbn [negb].
  destruct (negb _); [done|].
  destruct (drive_good d1 (p_handle_timeout P c) W' E) as (d2 & a & -> & W2 & Ad2 & _).
  do 2 eexists. split_and!; eauto using advances_trans.
Qed.

Lemma start_good (d : dtls) : dtls_wf d -> good d (dtls_start d) (fun _ _ => True).
Proof.
  intros W. unfold dtls_start.
  assert (forall e : Z, good d (Ok (d, e)) (fun _ _ => True)) as Hstop
    by (intros e; do 2 eexists; split_and!; eauto using advances_refl).
  destruct (dt_ctx d) as [c|]; [|apply Hstop].
  destruct (bool_decide_reflect (dt_state d = DTLS_INIT)) as [E|]; [|apply Hstop]. cbn [negb].
  destruct (drive_good _ (dtls_handshake P c) (wf_handshaking d W E) eq_refl) as (d2 & a & -> & W2 & Ad2 & _).
  do 2 eexists. split_and!; eauto using start_advances.
Qed.

(** A call of the engine, the context it returned stored. *)
Lemma engine_good {A} (p : prog (ctx P * A)) (Q : ctx P * A -> Prop) (d : dtls) :
  dtls_wf d -> always Q p ->
  exists d' c a, run p d = Ok (d', (c, a)) /\ dtls_wf (with_ctx d' (Some c)) /\ advances d (with_ctx d' (Some c)) /\
    dt_state d' = dt_state d /\ Q (c, a).
Proof.
  intros W HQ. destruct (run_good p Q d W HQ) as (d1 & [c a] & -> & W1 & B & Hq).
  exists d1, c, a. split_and!; [done | | | by apply bio_only_state | done].
  - destruct W1. split; cbn; done.
  - eapply bio_only_advances; [exact B|]. split; cbn; [apply rtc_refl | auto].
Qed.

Lemma read_app_good (d : dtls) c : dtls_wf d -> good d (dtls_read_app d c) (fun _ _ => True).
Proof.
  intros W. unfold dtls_read_app.
  destruct (run_good (p_decrypt P c NANORTC_DTLS_BUF_SIZE) _ d W (law_decrypt c NANORTC_DTLS_BUF_SIZE))
    as (d1 & [[c' rc] out] & -> & W1 & B & Hl). cbn in Hl. rewrite bind_Ok.
  destruct (wr (dt_app_buf d1) 0 out) as [app| |] eqn:Hw.
  2,3: rewrite wr_Ok in Hw by (rewrite (wf_app_buf _ W1); lia); done.
  apply wr_length in Hw. rewrite bind_Ok.
  assert (forall n, (n <= NANORTC_DTLS_BUF_SIZE)%nat -> dtls_wf (with_app (with_ctx d1 (Some c')) app n)) as W2.
  { intros n Hn. destruct W1. split; cbn; try done. congruence. }
  assert (forall n, advances d (with_app (with_ctx d1 (Some c')) app n)) as Ad.
  { intros n. eapply bio_only_advances; [exact B|]. split; cbn; [apply rtc_refl | auto]. }
  destruct (rc <? 0); do 2 eexists; (split_and!; [done | apply W2; lia | apply Ad | done]).
Qed.

Lemma handle_data_good (d : dtls) data : dtls_wf d -> bytes data -> good d (dtls_handle_data d data) (fun _ _ => True).
Proof.
  intros W Hb. unfold dtls_handle_data.
  assert (forall e : Z, good d (Ok (d, e)) (fun _ _ => True)) as Hstop
    by (intros e; do 2 eexists; split_and!; eauto using advances_refl).
  destruct (length data =? 0)%nat; [apply Hstop|]. destruct (dt_ctx d) as [c|]; [|apply Hstop]. clear Hstop.
  destruct (buffer_good d data W Hb) as (d1 & rc & -> & W1 & Ad & Es & Ec). rewrite bind_Ok.
  assert (forall e : Z, good d (Ok (d1, e)) (fun _ _ => True)) as Hstop by (intros e; do 2 eexists; split_and!; done).
  destruct (negb _); [apply Hstop|]. destruct (dt_state d1) eqn:E; [| | |apply Hstop|apply Hstop].
  - destruct (drive_good _ (dtls_handshake P c) (wf_handshaking d1 W1 E) eq_refl) as (d2 & a & -> & W2 & Ad2 & _).
    do 2 eexists. split_and!; eauto using start_advances, advances_trans.
  - destruct (drive_good d1 (dtls_handshake P c) W1 E) as (d2 & a & -> & W2 & Ad2 & _).
    do 2 eexists. split_and!; eauto using advances_trans.
  - destruct (read_app_good d1 c W1) as (d2 & a & -> & W2 & Ad2 & _).
    do 2 eexists. split_and!; eauto using advances_trans.
Qed.

Lemma encrypt_good (d : dtls) data : dtls_wf d -> good d (dtls_encrypt d data) (fun _ _ => True).
Proof.
  intros W. unfold dtls_encrypt.
  assert (forall e : Z, good d (Ok (d, e)) (fun _ _ => True)) as Hstop
    by (intros e; do 2 eexists; split_and!; eauto using advances_refl).
  destruct (length data =? 0)%nat; [apply Hstop|].
  destruct (bool_decide_reflect (dt_state d = DTLS_ESTABLISHED)) as [E|]; [|apply Hstop]. cbn [negb].
  destruct (dt_ctx d) as [c|] eqn:Ec; [|by destruct (wf_ctx _ W E)].
  destruct (engine_good (p_encrypt P c data) (fun _ => True) d W (always_True _)) as (d1 & c' & rc & -> & W1 & Ad & _).
  rewrite bind_Ok. destruct (rc <? 0); do 2 eexists; split_and!; done.
Qed.

Lemma close_good (d : dtls) :
  dtls_wf d -> exists d', dtls_close d = Ok d' /\ dtls_wf d' /\ advances d d' /\ dt_state d' = DTLS_CLOSED.
Proof.
  intros W. unfold dtls_close.
  assert (forall d1, dtls_wf d1 -> advances d d1 -> exists d', Ok (with_state d1 DTLS_CLOSED) = Ok d' /\ dtls_wf d' /\ advances d d' /\ dt_state d' = DTLS_CLOSED) as Hc.
  { intros d1 W1 [H K]. eexists. split_and!; [done | by apply state_good | | done].
    split; cbn; [|exact K]. etrans; [exact H|]. apply rtc_once. constructor. }
  destruct (dtls_close_notify P) as [notify|]; [|by apply Hc; [|apply advances_refl]].
  destruct (dt_ctx d) as [c|]; [|by apply Hc; [|apply advances_refl]].
  destruct (bool_decide _); [|by apply Hc; [|apply advances_refl]].
  destruct (engine_good (notify c) (fun _ => True) d W (always_True _)) as (d1 & c' & rc & -> & W1 & Ad & _).
  rewrite bind_Ok. by apply Hc.
Qed.

(** * Histories *)

(** The calls of the connection and of the application on one adapter. *)
Inductive dtls_op : Type :=
| OpTimeout (now_ms : Z) | OpStart | OpData (data : list Z) | OpPoll (buf_len : nat)
| OpEncrypt (data : list Z) | OpPollApp | OpClose | OpDestroy.
Definition dtls_op_ok (op : dtls_op) : Prop :=
  match op with OpData data => bytes data | _ => True end.
Definition keep {A} (d : dtls) (r : res (dtls * A)) : res dtls :=
  match r with Ok (d', _) => Ok d' | Err _ => Ok d | Fault => Fault end.
Definition dtls_perform (d : dtls) (op : dtls_op) : res dtls :=
  match op with
  | OpTimeout now => keep d (dtls_handle_timeout d now)
  | OpStart => keep d (dtls_start d)
  | OpData data => keep d (dtls_handle_data d data)
  | OpPoll n => keep d (dtls_poll_output d n)
  | OpEncrypt data => keep d (dtls_encrypt d data)
  | OpPollApp => keep d (dtls_poll_app_data d)
  | OpClose => dtls_close d
  | OpDestroy => Ok (dtls_destroy d)
  end.
Fixpoint dtls_run (ops : list dtls_op) (d : dtls) : res dtls :=
  match ops with [] => Ok d | op :: ops => d ← dtls_perform d op; dtls_run ops d end.

Lemma poll_output_good (d : dtls) n :
  dtls_wf d -> exists d', keep d (dtls_poll_output d n) = Ok d' /\ dtls_wf d' /\ advances d d'.
Proof.
  intros W. unfold dtls_poll_output. pose proof (advances_refl d) as R.
  destruct (_ =? 0)%nat; [by exists d|]. destruct (_ <? _)%nat; [by exists d|].
  rewrite rdn_Ok by (rewrite (wf_out_buf _ W); apply (wf_out_len _ W)). eexists. split_and!; [done | |].
  - destruct W. split; cbn; try done. lia.
  - split; cbn; [apply rtc_refl | auto].
Qed.
Lemma poll_app_good (d : dtls) :
  dtls_wf d -> exists d', keep d (dtls_poll_app_data d) = Ok d' /\ dtls_wf d' /\ advances d d'.
Proof.
  intros W. unfold dtls_poll_app_data. pose proof (advances_refl d) as R.
  destruct (_ =? 0)%nat; [by exists d|].
  rewrite rdn_Ok by (rewrite (wf_app_buf _ W); apply (wf_app_len _ W)). eexists. split_and!; [done | |].
  - destruct W. split; cbn; try done. lia.
  - split; cbn; [apply rtc_refl | auto].
Qed.
Lemma good_keep {A} (d : dtls) (r : res (dtls * A)) Q :
  good d r Q -> exists d', keep d r = Ok d' /\ dtls_wf d' /\ advances d d'.
Proof. intros (d' & a & -> & ? & ? & _). by exists d'. Qed.

Lemma perform_good (d : dtls) op :
  dtls_wf d -> dtls_op_ok op -> exists d', dtls_perform d op = Ok d' /\ dtls_wf d' /\ advances d d'.
Proof.
  intros W Hop. destruct op; cbn.
  - eapply good_keep, handle_timeout_good, W.
  - eapply good_keep, start_good, W.
  - eapply good_keep, handle_data_good; done.
  - by apply poll_output_good.
  - eapply good_keep, encrypt_good, W.
  - by apply poll_app_good.
  - destruct (close_good d W) as (d' & ? & ? & ? & _). eauto.
  - eexists. split_and!; [done | destruct W; split; cbn; done |].
    split; cbn; [apply rtc_once; constructor | auto].
Qed.
Lemma dtls_run_good ops (d : dtls) :
  dtls_wf d -> Forall dtls_op_ok ops -> exists d', dtls_run ops d = Ok d' /\ dtls_wf d' /\ advances d d'.
Proof.
  intros W Hops. revert d W. induction Hops as [|op ops Hop _ IH]; intros d W; cbn.
  - exists d. auto using advances_refl.
  - destruct (perform_good d op W Hop) as (d1 & -> & W1 & A1). rewrite bind_Ok.
    destruct (IH d1 W1) as (d2 & -> & W2 & A2). exists d2. eauto using advances_trans.
Qed.

Lemma zero_wf is_server : dtls_wf (dtls_zero is_server).
Proof.
  unfold dtls_zero. split; cbn; rewrite ?length_replicate; try done; [lia | | lia |].
  - unfold in_wf. cbn. rewrite length_replicate. split_and!; [done | lia | by right].
  - unfold chlo_wf. cbn. split_and!; try done; lia.
Qed.
Lemma init_good is_server : exists (d : dtls) rc, dtls_init P is_server = Ok (d, rc) /\ dtls_wf d.
Proof.
  pose proof (zero_wf is_server) as W. unfold dtls_init. cbv zeta.
  assert (dtls_wf (with_state (dtls_zero is_server) DTLS_ERROR)) as We by (by apply state_good).
  destruct (dtls_ctx_new P is_server) as [c|]; [|eauto]. destruct (dtls_set_bio P c) as [c' rc].
  destruct (negb _); [eauto|].
  pose proof (law_fingerprint c' NANORTC_DTLS_FINGERPRINT_STR_SIZE) as Hl.
  destruct (wr (dt_fingerprint _) 0 _) as [fp| |] eqn:Hw.
  2,3: rewrite wr_Ok in Hw by (rewrite (wf_fp _ W); lia); done.
  apply wr_length in Hw. rewrite bind_Ok. do 2 eexists. split; [done|].
  destruct W. split; cbn in *; first [done | congruence].
Qed.
End History.

(** A small engine: the handshake ends with the first record received, a record
    of application data is its type and the text with each octet masked. *)
Definition toy_mask : list Z -> list Z := map (fun x => Z.lxor x 85).
Definition toy_provider : provider := {|
  ctx := unit;
  dtls_ctx_new _ := Some tt;
  dtls_set_bio c := (c, 0);
  p_set_time c _ := c;
  dtls_next_timeout _ := 1000;
  p_handle_timeout c := Send [22] (fun _ => Ret (c, 1));
  dtls_handshake c := Recv NANORTC_DTLS_BUF_SIZE (fun data =>
    match data with [] => Ret (c, 1) | _ => Send [20] (fun _ => Ret (c, 0)) end);
  p_encrypt c data := Send (23 :: toy_mask data) (fun rc => Ret (c, if rc <? 0 then 1 else 0));
  p_decrypt c n := Recv NANORTC_DTLS_BUF_SIZE (fun data =>
    match data with [] => Ret (c, 1, []) | x :: data => if x =? 23 then Ret (c, 0, take n (toy_mask data)) else Ret (c, 1, []) end);
  dtls_export_keying_material c _ n := (c, 0, replicate n 7);
  p_get_fingerprint _ n := take n (replicate 95 65 ++ [0]);
  dtls_close_notify := Some (fun c => Send [21; 1; 0] (fun _ => Ret (c, 0)))
|}.
#[export] Instance toy_provider_laws : provider_laws toy_provider.
Proof.
  split; cbn [toy_provider dtls_export_keying_material p_get_fingerprint p_decrypt snd always].
  - intros. rewrite length_take. lia.
  - intros. by rewrite length_replicate.
  - intros c n [|x data] _; [cbn; lia|].
    destruct (x =? 23); cbn; rewrite ?length_take; lia.
Qed.

(** C10: over every history of calls and datagrams, with every provider that
    respects the sizes it is given, nothing faults: the cursors of the three
    buffers stay inside them, the reassembly's counts consistent.  The states
    only move forward, to established or error through the handshake and to
    closed for good; and the SRTP keying material is ready only after the
    handshake and from then on never changes. *)
Theorem dtls_history (P : provider) (is_server : bool) (ops1 ops2 : list dtls_op) :
  provider_laws P -> Forall dtls_op_ok ops1 -> Forall dtls_op_ok ops2 ->
  exists d0 rc d1 d2,
    dtls_init P is_server = Ok (d0, rc) /\ dtls_run ops1 d0 = Ok d1 /\ dtls_run ops2 d1 = Ok d2 /\
    dtls_wf d1 /\ dtls_wf d2 /\ rtc dtls_step (dt_state d0) (dt_state d1) /\ rtc dtls_step (dt_state d1) (dt_state d2) /\
    (dt_keying_ready d1 = true -> dt_keying_ready d2 = true /\ dt_keying_material d2 = dt_keying_material d1).
Proof.
  intros L H1 H2. destruct (init_good (P := P) is_server) as (d0 & rc & E0 & W0).
  destruct (dtls_run_good ops1 d0 W0 H1) as (d1 & E1 & W1 & A1 & _).
  destruct (dtls_run_good ops2 d1 W1 H2) as (d2 & E2 & W2 & A2 & K2).
  exists d0, rc, d1, d2. split_and!; done.
Qed.

Definition demo_dtls_ops : list dtls_op := [OpStart; OpData [22; 1; 2]; OpPoll 2048; OpEncrypt [1; 2; 3]].
Lemma dtls_history_witness :
  exists d0 rc d1 d2,
    dtls_init toy_provider true = Ok (d0, rc) /\ dtls_run demo_dtls_ops d0 = Ok d1 /\ dtls_run [OpClose] d1 = Ok d2 /\
    dtls_wf d1 /\ dtls_wf d2 /\ rtc dtls_step (dt_state d0) (dt_state d1) /\ rtc dtls_step (dt_state d1) (dt_state d2) /\
    (dt_keying_ready d1 = true -> dt_keying_ready d2 = true /\ dt_keying_material d2 = dt_keying_material d1).
Proof.
  apply (dtls_history toy_provider true demo_dtls_ops [OpClose]).
  - apply toy_provider_laws.
  - do 2 (apply List.Forall_cons; [first [exact I | bytes_lit]|]).
    do 2 (apply List.Forall_cons; [exact I|]). apply List.Forall_nil.
  - apply List.Forall_cons; [exact I | apply List.Forall_nil].
Defined.
