(* ===== verification/DtlsHello.v ===== *)
(** The reassembly of a fragmented ClientHello: to the engine, the fragments of
    a ClientHello in order, with whatever repetitions and overlaps, are the
    unfragmented record. *)

From Stdlib Require Import ZArith Lia.
From stdpp Require Import base list numbers.
From S2P Require Import Prelude Wire Dtls DtlsSpec.

Local Open Scope Z_scope.

(** A handshake record that carries [len] octets of a ClientHello body from
    [off] on (RFC 6347, 4.2.2); [hdr] is the record header up to its length. *)
Definition chlo_fragment (hdr : list Z) (seq : Z) (body : list Z) (off len : nat) : list Z :=
  hdr ++ be16 (12 + Z.of_nat len) ++ [1] ++ be24 (Z.of_nat (length body)) ++ be16 seq
    ++ be24 (Z.of_nat off) ++ be24 (Z.of_nat len) ++ take len (drop off body).
Definition record_hdr (hdr : list Z) : Prop :=
  length hdr = NANORTC_DTLS_RECORD_HDR_PREFIX_SIZE /\ head hdr = Some 22.

Lemma record_hdr_inv hdr :
  record_hdr hdr -> exists a b c d e f g h i j, hdr = [22; a; b; c; d; e; f; g; h; i; j].
Proof.
  intros [Hl Hh]. destruct hdr as [|x0 hdr]; [done|]. cbn in Hh. injection Hh as ->.
  do 10 (destruct hdr as [|? hdr]; [done|]). destruct hdr; [|done]. by repeat eexists.
Qed.
Lemma fragment_length hdr seq body off len :
  record_hdr hdr -> (off + len <= length body)%nat -> length (chlo_fragment hdr seq body off len) = (25 + len)%nat.
Proof.
  intros [Hh _] Hl. unfold chlo_fragment. rewrite !length_app, Hh, length_take, length_drop. cbn. lia.
Qed.
Lemma read_be24 v : 0 <= v < 2 ^ 24 ->
  Z.lor (Z.lor (Z.shiftl (u8 (Z.shiftr v 16)) 16) (Z.shiftl (u8 (Z.shiftr v 8)) 8)) (Z.land v 255) = v.
Proof.
  intros Hv. rewrite lor24; [| auto with mach | auto with mach |].
  - change 255 with (Z.ones 8). rewrite Z.land_ones by lia. rewrite !Z.shiftr_div_pow2 by lia.
    change (2 ^ 24) with 16777216 in *. change (2 ^ 16) with 65536. mach.
  - change 255 with (Z.ones 8). rewrite Z.land_ones by lia. apply u8_range.
Qed.
Lemma read_be16 v : is_u16 v -> Z.lor (Z.shiftl (u8 (Z.shiftr v 8)) 8) (u8 v) = v.
Proof. intros Hv. pose proof (be16_read v) as H. rewrite !u16_id in H; [done | done |].
  rewrite lor_shiftl_add by (try apply u8_range; lia). rewrite Z.shiftr_div_pow2 by lia. mach.
Qed.

(** Reads the next octet of a record written out. *)
Ltac octet := rewrite rd8_Ok by (cbn [length]; lia); rewrite ?bind_Ok; cbn [nth Nat.add].

Section Hello.
Context {P : provider}.
Abbreviation dtls := (nano_dtls P).
Context (seq : Z) (body : list Z).
Context (Hseq : is_u16 seq) (Hbody : (25 + length body <= NANORTC_DTLS_BUF_SIZE)%nat).

(** The adapter takes fragments of a ClientHello. *)
Definition takes_hello (d : dtls) : Prop :=
  dt_is_server d = true /\ (dt_state d = DTLS_INIT \/ dt_state d = DTLS_HANDSHAKING).

Lemma header_of_fragment (d : dtls) hdr off len :
  takes_hello d -> record_hdr hdr -> (off + len <= length body)%nat ->
  chlo_header d (chlo_fragment hdr seq body off len) =
    Ok (if (Z.of_nat off =? 0) && (Z.of_nat len =? Z.of_nat (length body)) then None
        else Some (HsHeader (Z.of_nat (length body)) seq (Z.of_nat off) (Z.of_nat len))).
Proof using Hseq Hbody.
  intros [Hs Hst] Hr Hl. pose proof (fragment_length hdr seq body off len Hr Hl) as Hfl.
  unfold NANORTC_DTLS_BUF_SIZE in Hbody. unfold chlo_header. rewrite Hs, Hfl. cbn [negb].
  replace (_ && _) with false by (destruct Hst as [-> | ->]; done).
  rewrite (proj2 (Nat.ltb_ge _ _)) by lia.
  destruct (record_hdr_inv hdr Hr) as (a & b & c & e & f & g & h & i & j & k & ->).
  unfold chlo_fragment, be16, be24, read_u24be. cbn [app].
  repeat octet. change (22 =? 22) with true. cbn [negb]. repeat octet.
  rewrite read_be16 by mach.
  rewrite (proj2 (Z.ltb_ge _ _)) by lia. rewrite (proj2 (Z.ltb_ge (12 + _) _)) by lia. cbn [orb].
  repeat octet. change (1 =? 1) with true. cbn [negb]. repeat octet.
  rewrite !read_be24 by lia. rewrite read_be16 by done. by destruct (_ && _).
Qed.

(** The body's first [n] octets are assembled, under the header of the first
    fragment; with none assembled the reassembly may also be idle. *)
Definition assembled (d : dtls) (hdr0 hdr : list Z) (n : nat) : Prop :=
  (dt_chlo d = DtlsChlo (Z.of_nat (length body)) (Z.of_nat n) seq hdr0 /\
     take n (dt_app_buf d) = take n body /\ (n < length body)%nat) \/
  (ch_total (dt_chlo d) = 0 /\ n = 0%nat /\ hdr0 = hdr).

Lemma whole_record hdr : chlo_record (DtlsChlo (Z.of_nat (length body)) 0 seq hdr) body = chlo_fragment hdr seq body 0 (length body).
Proof using Hseq Hbody.
  unfold NANORTC_DTLS_BUF_SIZE in Hbody. unfold chlo_record, chlo_fragment, be16. cbn [ch_rec_hdr ch_total ch_msg_seq]. f_equal.
  assert (forall v, Z.land v 255 = u8 v) as E.
  { intros v. change 255 with (Z.ones 8). by rewrite Z.land_ones by lia. }
  rewrite !E. cbn [drop]. rewrite (take_ge body) by lia. done.
Qed.

Lemma take_shorter {A} (l : list A) m n : (m <= n)%nat -> take m (take n l) = take m l.
Proof. intros. rewrite take_take. f_equal. lia. Qed.
(** Writing a piece of the body over its assembled start extends it. *)
Lemma assemble_piece app app' n off len :
  length app = NANORTC_DTLS_BUF_SIZE -> take n app = take n body -> (off <= n)%nat -> (n <= length body)%nat ->
  (off + len <= length body)%nat -> wr app off (take len (drop off body)) = Ok app' ->
  take (Nat.max n (off + len)) app' = take (Nat.max n (off + len)) body.
Proof using Hbody.
  intros Ha Hn Ho Hnl Hl Hw%wr_inv. assert (length (take len (drop off body)) = len) as Hp
    by (rewrite length_take, length_drop; lia).
  rewrite Hp in Hw. destruct Hw as [_ ->].
  assert (take off app = take off body) as Ht.
  { rewrite <- (take_shorter app off n), Hn, take_shorter by lia. done. }
  rewrite Ht, app_assoc.
  assert (take off body ++ take len (drop off body) = take (off + len) body) as -> by apply take_take_drop.
  assert (length (take (off + len) body) = off + len)%nat as Hlen by (rewrite length_take; lia).
  destruct (Nat.le_gt_cases n (off + len)).
  - replace (Nat.max n (off + len)) with (off + len)%nat by lia. by rewrite take_app_length'.
  - replace (Nat.max n (off + len)) with n by lia.
    rewrite take_app_ge, Hlen by lia.
    rewrite <- (take_drop (off + len) (take n body)) . rewrite take_shorter by lia. f_equal.
    rewrite <- Hn, skipn_firstn_comm. done.
Qed.

(** The adapter with other octets in its scratch space: reassembly state,
    application buffer and clock, which the engine never sees. *)
Definition scratch (d : dtls) app c t : dtls := with_timer (with_chlo (with_app d app (dt_app_len d)) c) t.

Lemma chlo_taken (d : dtls) hdr0 hdr n rec_hdr :
  (0 < length body)%nat -> assembled d hdr0 hdr n -> rec_hdr = hdr ->
  (if (ch_total (dt_chlo d) =? 0) || negb (ch_total (dt_chlo d) =? Z.of_nat (length body)) || negb (ch_msg_seq (dt_chlo d) =? seq)
   then DtlsChlo (Z.of_nat (length body)) 0 seq rec_hdr else dt_chlo d) = DtlsChlo (Z.of_nat (length body)) (Z.of_nat n) seq hdr0.
Proof using Hbody.
  intros Hb [(E & _ & Hn) | (E & -> & ->)] ->.
  - rewrite E. cbn. rewrite (proj2 (Z.eqb_neq _ 0)), !Z.eqb_refl by lia. done.
  - by rewrite E.
Qed.
Lemma assembled_take (d : dtls) hdr0 hdr n :
  assembled d hdr0 hdr n -> take n (dt_app_buf d) = take n body /\ (n <= length body)%nat.
Proof using Hbody. intros [(_ & ? & ?) | (_ & -> & _)]; [split; [done | lia] | split; [done | lia]]. Qed.

Lemma reassemble_piece (d : dtls) hdr0 hdr n off len :
  dtls_wf d -> takes_hello d -> (di_len (dt_in d) + 25 + length body <= NANORTC_DTLS_BUF_SIZE)%nat ->
  record_hdr hdr -> record_hdr hdr0 -> assembled d hdr0 hdr n -> (off <= n)%nat -> (off + len <= length body)%nat -> (off <> 0 \/ len <> length body)%nat ->
  let n' := Nat.max n (off + len) in
  exists app c i, dtls_try_reassemble_chlo d (chlo_fragment hdr seq body off len) =
      Ok (with_in (scratch d app c (dt_timer d)) i, 1) /\ length app = NANORTC_DTLS_BUF_SIZE /\
    ((n' < length body)%nat -> i = dt_in d /\ c = DtlsChlo (Z.of_nat (length body)) (Z.of_nat n') seq hdr0 /\ take n' app = take n' body) /\
    (n' = length body -> exists buf, wr (di_buf (dt_in d)) (di_len (dt_in d)) (chlo_fragment hdr0 seq body 0 (length body)) = Ok buf /\
       i = DtlsIn buf (di_len (dt_in d) + (25 + length body)) (di_read_pos (dt_in d))).
Proof using Hseq Hbody.
  intros W Hh Hroom Hr Hr0 Ha Ho Hl Hne n'. pose proof (fragment_length hdr seq body off len Hr Hl) as Hfl.
  unfold dtls_try_reassemble_chlo. rewrite header_of_fragment, bind_Ok by done.
  replace (_ && _) with false.
  2:{ symmetry. apply andb_false_iff. destruct Hne; [left; apply Z.eqb_neq; lia | right; apply Z.eqb_neq; lia]. }
  cbn [hs_total hs_off hs_len hs_msg_seq]. unfold NANORTC_DTLS_BUF_SIZE in *.
  rewrite (proj2 (Z.ltb_ge (Z.of_nat (Z.to_nat 2048)) _)) by lia.
  replace (u32 (Z.of_nat off + Z.of_nat len)) with (Z.of_nat (off + len)) by mach.
  rewrite (proj2 (Z.ltb_ge (Z.of_nat (length body)) _)), (proj2 (Z.ltb_ge (Z.of_nat (length (chlo_fragment _ _ _ _ _))) _)) by lia.
  assert (rdn (chlo_fragment hdr seq body off len) 0 NANORTC_DTLS_RECORD_HDR_PREFIX_SIZE = Ok hdr) as ->.
  { unfold chlo_fragment. apply rdn_front. symmetry. apply Hr. }
  rewrite bind_Ok. cbv zeta. rewrite (chlo_taken d hdr0 hdr n hdr); [|lia | done | done].
  assert (rdn (chlo_fragment hdr seq body off len) 25 (Z.to_nat (Z.of_nat len)) = Ok (take len (drop off body))) as ->.
  { rewrite rdn_Ok by lia. destruct (record_hdr_inv hdr Hr) as (a & b & x & e & f & g & h & i & j & k & ->).
    unfold chlo_fragment, be16, be24. cbn [app drop]. rewrite Nat2Z.id. by rewrite drop_0, take_idemp. }
  rewrite bind_Ok, Nat2Z.id. destruct (assembled_take _ _ _ _ Ha) as [Ht Hnl].
  destruct (wr (dt_app_buf d) off (take len (drop off body))) as [app| |] eqn:Hw.
  2,3: rewrite wr_Ok in Hw by (rewrite (wf_app_buf _ W), length_take, length_drop; unfold NANORTC_DTLS_BUF_SIZE; lia); done.
  pose proof (wr_length _ _ _ _ Hw) as Hal. rewrite (wf_app_buf _ W) in Hal.
  assert (take n' app = take n' body) as Htake by (by eapply assemble_piece; [apply (wf_app_buf _ W)| ..]).
  rewrite bind_Ok. cbn [ch_have ch_total ch_msg_seq ch_rec_hdr].
  replace (if Z.of_nat n <? Z.of_nat (off + len) then Z.of_nat (off + len) else Z.of_nat n) with (Z.of_nat n').
  2:{ unfold n'. destruct (Z.ltb_spec (Z.of_nat n) (Z.of_nat (off + len))); lia. }
  destruct (Z.ltb_spec (Z.of_nat n') (Z.of_nat (length body))).
  { exists app, (DtlsChlo (Z.of_nat (length body)) (Z.of_nat n') seq hdr0), (dt_in d). split_and!; [by destruct d | done | done |]. lia. }
  rewrite Nat2Z.id. cbn [dt_in with_chlo with_app dt_app_buf].
  rewrite (proj2 (Nat.ltb_ge _ _)) by (unfold NANORTC_DTLS_BUF_SIZE; lia).
  rewrite rdn_Ok, bind_Ok by (rewrite Hal; unfold NANORTC_DTLS_BUF_SIZE; lia). rewrite drop_0.
  assert (n' = length body) as En by (unfold n' in *; lia). assert (take (length body) app = body) as -> by (rewrite En in Htake; by rewrite Htake, take_ge by lia).
  rewrite En. unfold chlo_record at 1. cbn [ch_total ch_rec_hdr ch_msg_seq].
  pose proof (whole_record hdr0) as Hwr. unfold chlo_record in Hwr. cbn [ch_total ch_rec_hdr ch_msg_seq] in Hwr. rewrite Hwr.
  assert (length (chlo_fragment hdr0 seq body 0 (length body)) = 25 + length body)%nat as Hrl.
  { apply fragment_length; [done | lia]. }
  destruct (wf_in _ W) as (Hi1 & Hi2 & Hi3).
  destruct (wr (di_buf (dt_in d)) (di_len (dt_in d)) _) as [buf| |] eqn:Hwb.
  2,3: rewrite wr_Ok in Hwb by (rewrite Hi1, Hrl; unfold NANORTC_DTLS_BUF_SIZE; lia); done.
  rewrite bind_Ok. do 3 eexists. split_and!; [by destruct d | done | lia |]. intros _. by exists buf.
Qed.

End Hello.

(** * The engine does not see the scratch space *)

Section Engine.
Context {P : provider}.
Abbreviation dtls := (nano_dtls P).

Lemma run_scratch {A} (p : prog A) (d : dtls) app c t :
  run p (scratch d app c t) =
    match run p d with Ok (d', a) => Ok (scratch d' app c t, a) | Err e => Err e | Fault => Fault end.
Proof.
  revert d. induction p as [a|data k IH|n k IH]; intros d; cbn [run]; [done | |].
  - assert (bio_send_cb (scratch d app c t) data = match bio_send_cb d data with Ok (d', a) => Ok (scratch d' app c t, a) | Err e => Err e | Fault => Fault end) as ->.
    { unfold bio_send_cb. change (dt_out_len (scratch d app c t)) with (dt_out_len d). change (dt_out_buf (scratch d app c t)) with (dt_out_buf d).
      destruct (_ <? _)%nat; [done|]. by destruct (wr _ _ _). }
    destruct (bio_send_cb d data) as [[d1 rc]| |]; [|done..]. rewrite !bind_Ok. apply IH.
  - assert (bio_recv_cb (scratch d app c t) n = match bio_recv_cb d n with Ok (d', a) => Ok (scratch d' app c t, a) | Err e => Err e | Fault => Fault end) as ->.
    { unfold bio_recv_cb. change (dt_in (scratch d app c t)) with (dt_in d). cbv zeta.
      destruct (_ =? 0)%nat; [done|]. by destruct (rdn _ _ _). }
    destruct (bio_recv_cb d n) as [[d1 rc]| |]; [|done..]. rewrite !bind_Ok. apply IH.
Qed.

(** Two adapters that differ in their scratch space only, in the clock only
    after an error. *)
Definition same_to_engine (d1 d2 : dtls) (rc : Z) : Prop :=
  d1 = scratch d2 (dt_app_buf d1) (dt_chlo d1) (dt_timer d1) /\ (rc = NANORTC_OK -> dt_timer d1 = dt_timer d2).

Lemma run_timer {A} (p : prog A) (d d' : dtls) a : run p d = Ok (d', a) -> dt_timer d' = dt_timer d.
Proof.
  revert d. induction p as [x|data k IH|n k IH]; intros d; cbn.
  - naive_solver.
  - unfold bio_send_cb. destruct (_ <? _)%nat; [rewrite bind_Ok; apply IH|].
    destruct (wr _ _ _); [|done..]. rewrite !bind_Ok. intros H%IH. done.
  - unfold bio_recv_cb. destruct (_ =? 0)%nat; [rewrite bind_Ok; apply IH|].
    destruct (rdn _ _ _); [|done..]. rewrite !bind_Ok. intros H%IH. done.
Qed.

Lemma drive_scratch p (d d2 : dtls) rc app c t :
  ti_now_ms t = ti_now_ms (dt_timer d) -> drive d p = Ok (d2, rc) ->
  exists d1, drive (scratch d app c t) p = Ok (d1, rc) /\ same_to_engine d1 d2 rc.
Proof.
  intros Hnow. unfold drive. rewrite run_scratch.
  destruct (run p d) as [[d' [x code]]| |] eqn:Hr; [|done..]. apply run_timer in Hr. rewrite !bind_Ok.
  unfold dtls_handshake_result. destruct (code <? 0).
  { intros [= <- <-]. eexists. split; [done|]. split; [by destruct d'|]. done. }
  destruct (code =? 0).
  - cbn [scratch dt_timer with_timer with_ctx with_state dt_keying_material with_chlo with_app ti_now_ms ti_observed_ms dt_keying_ready].
    destruct (dtls_export_keying_material P x srtp_label NANORTC_DTLS_KEYING_SIZE) as [[c' krc] key].
    destruct (wr _ 0 key) as [m| |]; [|done..]. rewrite !bind_Ok. intros [= <- <-].
    eexists. split; [done|]. split; [by destruct d'|]. intros _. cbn. by rewrite Hnow, Hr.
  - cbn [scratch dt_timer with_timer with_ctx with_chlo with_app ti_now_ms]. intros [= <- <-].
    eexists. split; [done|]. split; [by destruct d'|]. intros _. cbn. by rewrite Hnow, Hr.
Qed.

(** * Fragments as datagrams *)

(** The engine waits for the client: offered nothing, it wants more. *)
Definition waiting (c : ctx P) : Prop := exists n k, dtls_handshake P c = Recv n k /\ k [] = Ret (c, 1).

(** The adapter between datagrams: nothing inbound waits, and the engine does. *)
Record at_rest (d : dtls) (c : ctx P) : Prop := {
  rest_wf : dtls_wf d;
  rest_takes : takes_hello d;
  rest_ctx : dt_ctx d = Some c;
  rest_waiting : waiting c;
  rest_in : di_len (dt_in d) = 0%nat
}.

(** The datagrams one after the other, with their codes. *)
Fixpoint dtls_handle_all (ds : list (list Z)) (d : dtls) : res (dtls * list Z) :=
  match ds with
  | [] => Ok (d, [])
  | data :: ds => '(d, rc) ← dtls_handle_data d data; '(d, rcs) ← dtls_handle_all ds d; Ok (d, rc :: rcs)
  end.

Lemma handle_data_driven (d : dtls) c data d1 :
  dtls_buffer d data = Ok (d1, NANORTC_OK) -> takes_hello d1 -> dt_ctx d = Some c -> (0 < length data)%nat ->
  dtls_handle_data d data = drive (with_state d1 DTLS_HANDSHAKING) (dtls_handshake P c).
Proof.
  intros Hb [_ Hst] Hc Hl. unfold dtls_handle_data. rewrite (proj2 (Nat.eqb_neq _ 0)) by lia.
  rewrite Hc, Hb, bind_Ok. change (negb (NANORTC_OK =? NANORTC_OK)) with false. cbv match.
  destruct Hst as [E | E]; rewrite E; [done|]. f_equal. destruct d1. cbn in E. by subst.
Qed.

Lemma drive_waiting (d : dtls) c :
  waiting c -> di_len (dt_in d) = 0%nat ->
  drive d (dtls_handshake P c) =
    Ok (with_timer (with_ctx d (Some c)) (DtlsTimer (ti_now_ms (dt_timer d)) (dtls_next_timeout P c) (ti_now_ms (dt_timer d))), NANORTC_OK).
Proof.
  intros (n & k & E & Ek) Hin. unfold drive. rewrite E. cbn [run].
  assert (bio_recv_cb d n = Ok (d, [])) as -> by (unfold bio_recv_cb; by rewrite Hin).
  rewrite bind_Ok, Ek. done.
Qed.

(** Fragments, each with its record header, its place and its length, that reach
    the body's end exactly with the last: none starts beyond what the ones before
    it cover, but they may repeat and overlap. *)
Fixpoint covers (total n : nat) (fs : list (list Z * nat * nat)) : Prop :=
  match fs with
  | [] => False
  | (hdr, off, len) :: fs =>
      record_hdr hdr /\ bytes hdr /\ (off <= n)%nat /\ (off + len <= total)%nat /\ (off <> 0 \/ len <> total)%nat /\
      let n' := Nat.max n (off + len) in (n' = total /\ fs = []) \/ ((n' < total)%nat /\ covers total n' fs)
  end.
Definition first_hdr (fs : list (list Z * nat * nat)) : list Z :=
  match fs with (hdr, _, _) :: _ => hdr | [] => [] end.
Definition fragments (seq : Z) (body : list Z) (fs : list (list Z * nat * nat)) : list (list Z) :=
  map (fun '(hdr, off, len) => chlo_fragment hdr seq body off len) fs.

(** The adapter as it was, up to scratch space and a started handshake. *)
Definition untouched (d cur : dtls) : Prop :=
  with_state cur DTLS_HANDSHAKING = scratch (with_state d DTLS_HANDSHAKING) (dt_app_buf cur) (dt_chlo cur) (dt_timer cur) /\
  ti_now_ms (dt_timer cur) = ti_now_ms (dt_timer d).

Lemma untouched_fields (d cur : dtls) : untouched d cur ->
  dt_out_buf cur = dt_out_buf d /\ dt_out_len cur = dt_out_len d /\ dt_in cur = dt_in d /\ dt_ctx cur = dt_ctx d /\ dt_is_server cur = dt_is_server d /\
  dt_keying_material cur = dt_keying_material d /\ dt_keying_ready cur = dt_keying_ready d /\ dt_app_len cur = dt_app_len d /\ dt_fingerprint cur = dt_fingerprint d.
Proof.
  intros [U _]. exact (conj (f_equal dt_out_buf U) (conj (f_equal dt_out_len U) (conj (f_equal dt_in U) (conj (f_equal dt_ctx U) (conj (f_equal dt_is_server U)
    (conj (f_equal dt_keying_material U) (conj (f_equal dt_keying_ready U) (conj (f_equal dt_app_len U) (f_equal dt_fingerprint U))))))))).
Qed.
Lemma dtls_ext (a b : dtls) :
  dt_state a = dt_state b -> dt_timer a = dt_timer b -> dt_out_buf a = dt_out_buf b -> dt_out_len a = dt_out_len b -> dt_in a = dt_in b -> dt_ctx a = dt_ctx b ->
  dt_is_server a = dt_is_server b -> dt_keying_material a = dt_keying_material b -> dt_keying_ready a = dt_keying_ready b -> dt_app_buf a = dt_app_buf b ->
  dt_app_len a = dt_app_len b -> dt_fingerprint a = dt_fingerprint b -> dt_chlo a = dt_chlo b -> a = b.
Proof. destruct a, b. cbn. intros -> -> -> -> -> -> -> -> -> -> -> -> ->. reflexivity. Qed.
(** Setting the clock after the engine was offered nothing keeps it so. *)
Lemma untouched_waits (d cur : dtls) app cl t c :
  untouched d cur -> dt_ctx cur = Some c -> ti_now_ms t = ti_now_ms (dt_timer d) ->
  untouched d (with_timer (with_ctx (with_state (with_in (scratch cur app cl (dt_timer cur)) (dt_in cur)) DTLS_HANDSHAKING) (Some c)) t).
Proof.
  intros U Hc Ht. destruct (untouched_fields d cur U) as (E1 & E2 & E3 & E4 & E5 & E6 & E7 & E8 & E9). rewrite Hc in E4. split; [|exact Ht].
  apply dtls_ext; try reflexivity; first [exact E1 | exact E2 | exact E3 | exact E4 | exact E5 | exact E6 | exact E7 | exact E8 | exact E9 | reflexivity].
Qed.
(** The buffered record, with the scratch space the fragments left. *)
Lemma untouched_buffered (d cur : dtls) app cl i :
  untouched d cur ->
  with_state (with_in (scratch cur app cl (dt_timer cur)) i) DTLS_HANDSHAKING = scratch (with_state (with_in d i) DTLS_HANDSHAKING) app cl (dt_timer cur).
Proof.
  intros U. destruct (untouched_fields d cur U) as (E1 & E2 & E3 & E4 & E5 & E6 & E7 & E8 & E9).
  apply dtls_ext; try reflexivity; first [exact E1 | exact E2 | exact E4 | exact E5 | exact E6 | exact E7 | exact E8 | exact E9 | reflexivity].
Qed.

Section Fragments.
Context {laws : provider_laws P}.
Context (seq : Z) (body : list Z).
Context (Hseq : is_u16 seq) (Hbytes : bytes body) (Hbody : (25 + length body <= NANORTC_DTLS_BUF_SIZE)%nat).

Lemma fragment_bytes hdr off len : bytes hdr -> bytes (chlo_fragment hdr seq body off len).
Proof using Hbytes Hbody.
  intros Hh. unfold chlo_fragment, be24. pose proof u8_range.
  assert (forall v, is_u8 (Z.land v 255)) by (intros v; change 255 with (Z.ones 8); rewrite Z.land_ones by lia; apply u8_range).
  repeat apply Forall_app_2; auto using be16_bytes, Forall_take, Forall_drop.
  all: repeat (apply List.Forall_cons; [auto with mach|]); try apply List.Forall_nil; unfold is_u8; lia.
Qed.
Lemma buffer_reassembled (d d1 : dtls) data :
  dtls_try_reassemble_chlo d data = Ok (d1, 1) -> dtls_buffer d data = Ok (d1, NANORTC_OK).
Proof using. intros E. unfold dtls_buffer. by rewrite E. Qed.

Lemma waits_for_more (d cur : dtls) c hdr0 hdr n off len :
  at_rest cur c -> untouched d cur -> record_hdr hdr -> bytes hdr -> record_hdr hdr0 -> assembled seq body cur hdr0 hdr n ->
  (off <= n)%nat -> (off + len <= length body)%nat -> (off <> 0 \/ len <> length body)%nat -> (Nat.max n (off + len) < length body)%nat ->
  exists cur', dtls_handle_data cur (chlo_fragment hdr seq body off len) = Ok (cur', NANORTC_OK) /\
    at_rest cur' c /\ untouched d cur' /\ forall hdr', assembled seq body cur' hdr0 hdr' (Nat.max n (off + len)).
Proof using laws Hseq Hbytes Hbody.
  intros [W Ht Hc Hw Hin] [U Unow] Hr Hb Hr0 Ha Ho Hl Hne Hlt.
  destruct (reassemble_piece seq body Hseq Hbody cur hdr0 hdr n off len) as (app & cl & i & E & Happ & Hmore & _);
    try done; [lia|]. destruct (Hmore Hlt) as (-> & -> & Htake). apply buffer_reassembled in E.
  pose proof (fragment_length hdr seq body off len Hr Hl) as Hfl.
  assert (0 < length (chlo_fragment hdr seq body off len))%nat as Hpos by lia.
  pose proof (handle_data_good cur (chlo_fragment hdr seq body off len) W (fragment_bytes hdr off len Hb)) as (cur' & rc & E' & W' & _).
  assert (dtls_handle_data cur (chlo_fragment hdr seq body off len) = Ok (cur', NANORTC_OK) /\
    cur' = with_timer (with_ctx (with_state (with_in (scratch cur app (DtlsChlo (Z.of_nat (length body)) (Z.of_nat (Nat.max n (off + len))) seq hdr0) (dt_timer cur)) (dt_in cur)) DTLS_HANDSHAKING) (Some c))
      (DtlsTimer (ti_now_ms (dt_timer cur)) (dtls_next_timeout P c) (ti_now_ms (dt_timer cur)))) as [Ed Ecur].
  { rewrite E'. rewrite (handle_data_driven cur c _ _ E Ht Hc Hpos), drive_waiting in E' by first [exact Hw | exact Hin]. injection E' as <- <-. done. }
  clear E E'. exists cur'. split; [done|]. subst cur'. split_and!.
  - split; [exact W' | destruct Ht as [? _]; split; [done | by right] | done | done | done].
  - apply untouched_waits; [by split | exact Hc | exact Unow].
  - intros hdr'. left. done.
Qed.

Lemma takes_last (d cur : dtls) c hdr0 hdr n off len :
  at_rest d c -> at_rest cur c -> untouched d cur -> record_hdr hdr -> record_hdr hdr0 -> assembled seq body cur hdr0 hdr n ->
  (off <= n)%nat -> (off + len <= length body)%nat -> (off <> 0 \/ len <> length body)%nat -> Nat.max n (off + len) = length body ->
  exists d1 d2 rc, dtls_handle_data cur (chlo_fragment hdr seq body off len) = Ok (d1, rc) /\
    dtls_handle_data d (chlo_fragment hdr0 seq body 0 (length body)) = Ok (d2, rc) /\ same_to_engine d1 d2 rc.
Proof using laws Hseq Hbytes Hbody.
  intros [W0 Ht0 Hc0 _ Hin0] [W Ht Hc Hw Hin] [U Unow] Hr Hr0 Ha Ho Hl Hne Hlast.
  destruct (reassemble_piece seq body Hseq Hbody cur hdr0 hdr n off len) as (app & cl & i & E & Happ & _ & Hfull);
    try done; [lia|]. destruct (Hfull Hlast) as (buf & Hbuf & ->). apply buffer_reassembled in E.
  destruct (untouched_fields d cur (conj U Unow)) as (_ & _ & Ein & _).
  pose proof (fragment_length hdr seq body off len Hr Hl) as Hfl.
  assert (0 < length (chlo_fragment hdr seq body off len))%nat as Hpos by lia.
  assert (length (chlo_fragment hdr0 seq body 0 (length body)) = 25 + length body)%nat as Hwl by (apply fragment_length; [done | lia]).
  assert (0 < length (chlo_fragment hdr0 seq body 0 (length body)))%nat as Hpos0 by lia.
  rewrite Ein, Hin0 in E, Hbuf. cbn [Nat.add] in E.
  assert (dtls_buffer d (chlo_fragment hdr0 seq body 0 (length body)) = Ok (with_in d (DtlsIn buf (25 + length body) (di_read_pos (dt_in d))), NANORTC_OK)) as E2.
  { unfold dtls_buffer, dtls_try_reassemble_chlo.
    rewrite header_of_fragment, !Z.eqb_refl by first [done | lia]. cbn [andb Z.of_nat Z.eqb]. rewrite !bind_Ok. cbn [Z.ltb Z.compare Z.eqb]. cbv zeta.
    rewrite Hin0, Hwl, Hbuf. rewrite (proj2 (Nat.ltb_ge _ _)) by lia. done. }
  rewrite (handle_data_driven cur c _ _ E Ht Hc Hpos).
  rewrite (handle_data_driven d c _ _ E2 Ht0 Hc0 Hpos0).
  set (d' := with_state (with_in d _) DTLS_HANDSHAKING).
  assert (dtls_wf d') as W'.
  { destruct (wf_in _ W0) as (Hi1 & Hi2 & Hi3). apply wr_length in Hbuf.
    unfold d'. apply state_good; [|done|].
    - destruct W0. split; cbn; try done. unfold in_wf. cbn. split_and!; [congruence | lia | left; lia].
    - intros K. destruct (wf_ready _ W0 K). by destruct Ht0 as [_ [|]]. }
  destruct (drive_good d' (dtls_handshake P c) W' eq_refl) as (d2 & rc & Ed & _).
  destruct (drive_scratch (dtls_handshake P c) d' d2 rc app cl (dt_timer cur) Unow Ed) as (d1 & Ed1 & Hsame).
  exists d1, d2, rc. split_and!; [|done | done]. rewrite <- Ed1. f_equal.
  unfold d'. apply untouched_buffered. by split.
Qed.

Lemma fragments_reach (d : dtls) c hdr0 fs (cur : dtls) n :
  at_rest d c -> at_rest cur c -> untouched d cur -> record_hdr hdr0 -> assembled seq body cur hdr0 (first_hdr fs) n ->
  covers (length body) n fs ->
  exists d1 d2 rcs rc, dtls_handle_all (fragments seq body fs) cur = Ok (d1, rcs ++ [rc]) /\ Forall (fun e => e = NANORTC_OK) rcs /\
    dtls_handle_data d (chlo_fragment hdr0 seq body 0 (length body)) = Ok (d2, rc) /\ same_to_engine d1 d2 rc.
Proof using laws Hseq Hbytes Hbody.
  intros R0 R U Hr0 Ha Hcov. revert cur n R U Ha Hcov. induction fs as [|[[hdr off] len] fs IH]; intros cur n R U Ha Hcov; [done|].
  destruct Hcov as (Hr & Hb & Ho & Hl & Hne & [[Hlast ->] | [Hmore Hcov]]); cbn [fragments map dtls_handle_all].
  - destruct (takes_last d cur c hdr0 hdr n off len) as (d1 & d2 & rc & E1 & E2 & Hs); try done.
    exists d1, d2, [], rc. by rewrite E1.
  - destruct (waits_for_more d cur c hdr0 hdr n off len) as (cur' & E & R' & U' & Ha'); try done.
    rewrite E, bind_Ok. destruct (IH cur' _ R' U' (Ha' _) Hcov) as (d1 & d2 & rcs & rc & E1 & Hok & E2 & Hs).
    fold (fragments seq body fs). rewrite E1. exists d1, d2, (NANORTC_OK :: rcs), rc. split_and!; [done | by apply List.Forall_cons | done | done].
Qed.
End Fragments.
End Engine.

(** C11: while a server adapter waits for the client, a ClientHello that arrives
    in fragments, in order but with any repetitions and overlaps, does to the
    engine exactly what the unfragmented record does: every fragment but the last
    is taken without an answer, and with the last the adapter ends where the
    whole record leads, with the same code, records to send and keying material;
    they differ in the scratch octets alone, and after an error in the clock. *)
Theorem dtls_fragmented_hello {P : provider} (seq : Z) (body : list Z) (fs : list (list Z * nat * nat)) (d : nano_dtls P) c :
  provider_laws P -> is_u16 seq -> bytes body -> (25 + length body <= NANORTC_DTLS_BUF_SIZE)%nat ->
  at_rest d c -> ch_total (dt_chlo d) = 0 -> covers (length body) 0 fs ->
  exists d1 d2 rcs rc,
    dtls_handle_all (fragments seq body fs) d = Ok (d1, rcs ++ [rc]) /\ Forall (fun e => e = NANORTC_OK) rcs /\
    dtls_handle_data d (chlo_fragment (first_hdr fs) seq body 0 (length body)) = Ok (d2, rc) /\ same_to_engine d1 d2 rc.
Proof.
  intros L Hseq Hb Hl R Hidle Hcov.
  apply (fragments_reach seq body Hseq Hb Hl d c (first_hdr fs) fs d 0); [exact R | exact R | | | | exact Hcov].
  - split; [by apply dtls_ext | done].
  - destruct fs as [|[[hdr off] len] fs]; [done|]. apply Hcov.
  - by right.
Qed.

Definition demo_hdr : list Z := [22; 254; 253; 0; 0; 0; 0; 0; 0; 0; 1].
Definition demo_body : list Z := [3; 3; 9; 8; 7; 6; 5].
Definition demo_fragments : list (list Z * nat * nat) := [(demo_hdr, 0, 3); (demo_hdr, 0, 3); (demo_hdr, 2, 5)]%nat.
Definition demo_server : nano_dtls toy_provider := with_ctx (P := toy_provider) (dtls_zero true) (Some tt).
Lemma demo_server_rests : at_rest demo_server tt.
Proof.
  split; [| split; [done | by left] | done | | done].
  - destruct (zero_wf (P := toy_provider) true). by split.
  - exists NANORTC_DTLS_BUF_SIZE. eexists. split; [reflexivity|]. done.
Qed.
Lemma dtls_fragmented_hello_witness :
  exists d1 d2 rcs rc,
    dtls_handle_all (fragments 0 demo_body demo_fragments) demo_server = Ok (d1, rcs ++ [rc]) /\ Forall (fun e => e = NANORTC_OK) rcs /\
    dtls_handle_data demo_server (chlo_fragment demo_hdr 0 demo_body 0 7) = Ok (d2, rc) /\ same_to_engine d1 d2 rc.
Proof.
  apply (dtls_fragmented_hello 0 demo_body demo_fragments demo_server tt).
  - apply toy_provider_laws.
  - unfold is_u16. lia.
  - bytes_lit.
  - cbn [length demo_body]. unfold NANORTC_DTLS_BUF_SIZE. lia.
  - exact demo_server_rests.
  - reflexivity.
  - assert (record_hdr demo_hdr) by done. assert (bytes demo_hdr) by bytes_lit. cbn [covers demo_fragments length demo_body].
    split_and!; try done; try lia. right. split; [lia|]. split_and!; try done; try lia. right. split; [lia|].
    split_and!; try done; try lia. left. done.
Defined.

(** The count knows how far the fragments reach, not whether they have a hole:
    here one with the last five octets of the body alone completes it, its first
    two read from the empty application buffer. *)
Example chlo_hole_completes :
  match dtls_try_reassemble_chlo demo_server (chlo_fragment demo_hdr 0 demo_body 2 5) with
  | Ok (d, rc) => rc = 1 /\ take (di_len (dt_in d)) (di_buf (dt_in d)) = chlo_fragment demo_hdr 0 [0; 0; 9; 8; 7; 6; 5] 0 7
  | _ => False
  end.
Proof. vm_compute. done. Qed.
