(* ===== verification/DtlsData.v ===== *)
(** Application data over DTLS: what one established adapter encrypts, its
    datagrams carried to the other, comes out of that one as it went in. *)

From Stdlib Require Import ZArith Lia.
From stdpp Require Import base list numbers.
From S2P Require Import Prelude Wire Dtls DtlsSpec.

Local Open Scope Z_scope.

(** What two engines that finished a handshake with each other promise: a text
    of at most [max] octets becomes one record, which the peer, offered it, turns
    back into the text; and they stay in step. *)
Class record_link (Ps Pr : provider) (max : nat) : Type := {
  linked : ctx Ps -> ctx Pr -> Prop;
  law_record cs cr m : linked cs cr -> (0 < length m <= max)%nat ->
    exists rec cs' cr' ks n kr,
      (0 < length rec <= NANORTC_DTLS_BUF_SIZE)%nat /\ (length m <= NANORTC_DTLS_BUF_SIZE)%nat /\
      p_encrypt Ps cs m = Send rec ks /\ ks (Z.of_nat (length rec)) = Ret (cs', 0) /\
      p_decrypt Pr cr NANORTC_DTLS_BUF_SIZE = Recv n kr /\ (length rec <= n)%nat /\ kr rec = Ret (cr', 0, m) /\
      linked cs' cr'
}.

Section Transfer.
Context {Ps Pr : provider} {max : nat} {link : record_link Ps Pr max}.

Definition can_send (s : nano_dtls Ps) (c : ctx Ps) : Prop :=
  dt_state s = DTLS_ESTABLISHED /\ dt_ctx s = Some c /\ dt_out_len s = 0%nat /\ length (dt_out_buf s) = NANORTC_DTLS_BUF_SIZE.
Definition can_receive (r : nano_dtls Pr) (c : ctx Pr) : Prop :=
  dt_state r = DTLS_ESTABLISHED /\ dt_ctx r = Some c /\ di_len (dt_in r) = 0%nat /\ di_read_pos (dt_in r) = 0%nat /\
  length (di_buf (dt_in r)) = NANORTC_DTLS_BUF_SIZE /\ length (dt_app_buf r) = NANORTC_DTLS_BUF_SIZE.

(** One text through both adapters: the calls of the sending connection and of
    the receiving one. *)
Definition carry (s : nano_dtls Ps) (r : nano_dtls Pr) (m : list Z) : res (nano_dtls Ps * nano_dtls Pr * list Z) :=
  '(s, _) ← dtls_encrypt s m;
  '(s, datagram) ← dtls_poll_output s NANORTC_DTLS_BUF_SIZE;
  '(r, _) ← dtls_handle_data r datagram;
  '(r, m) ← dtls_poll_app_data r;
  Ok (s, r, m).
Fixpoint carry_all (s : nano_dtls Ps) (r : nano_dtls Pr) (ms : list (list Z)) : res (nano_dtls Ps * nano_dtls Pr * list (list Z)) :=
  match ms with
  | [] => Ok (s, r, [])
  | m :: ms => '(s, r, m) ← carry s r m; '(s, r, ms) ← carry_all s r ms; Ok (s, r, m :: ms)
  end.

Lemma encrypt_record (s : nano_dtls Ps) c m rec ks c' :
  can_send s c -> (0 < length m)%nat -> (0 < length rec <= NANORTC_DTLS_BUF_SIZE)%nat ->
  p_encrypt Ps c m = Send rec ks -> ks (Z.of_nat (length rec)) = Ret (c', 0) ->
  exists s1 s2, dtls_encrypt s m = Ok (s1, NANORTC_OK) /\ dtls_poll_output s1 NANORTC_DTLS_BUF_SIZE = Ok (s2, rec) /\ can_send s2 c'.
Proof.
  intros (Est & Ec & Eo & Eb) Hm Hrec Ep Ek. unfold dtls_encrypt.
  rewrite (proj2 (Nat.eqb_neq _ 0)), bool_decide_eq_true_2, Ec, Ep by first [done | lia]. cbn [negb run].
  unfold bio_send_cb. rewrite Eo. rewrite (proj2 (Nat.ltb_ge _ _)) by lia.
  rewrite wr_0 by lia. rewrite !bind_Ok, Ek. cbn [run]. rewrite bind_Ok. cbn [Z.ltb Z.compare].
  do 2 eexists. split; [done|]. unfold dtls_poll_output. cbn [dt_out_len dt_out_buf with_ctx with_out Nat.add].
  rewrite (proj2 (Nat.eqb_neq _ 0)), (proj2 (Nat.ltb_ge _ _)) by lia.
  rewrite rdn_front by done. rewrite bind_Ok. split; [done|].
  unfold can_send. cbn. split_and!; try done. rewrite length_app, length_drop. lia.
Qed.

Lemma receive_record (r : nano_dtls Pr) c rec n kr c' m :
  can_receive r c -> (0 < length rec <= NANORTC_DTLS_BUF_SIZE)%nat -> (0 < length m <= NANORTC_DTLS_BUF_SIZE)%nat ->
  p_decrypt Pr c NANORTC_DTLS_BUF_SIZE = Recv n kr -> (length rec <= n)%nat -> kr rec = Ret (c', 0, m) ->
  exists r1 r2, dtls_handle_data r rec = Ok (r1, NANORTC_OK) /\ dtls_poll_app_data r1 = Ok (r2, m) /\ can_receive r2 c'.
Proof.
  intros (Est & Ec & Ei & Ep & Eb & Ea) Hrec Hm Ed Hn Ek. unfold dtls_handle_data.
  rewrite (proj2 (Nat.eqb_neq _ 0)), Ec by lia.
  assert (dtls_buffer r rec = Ok (with_in r (DtlsIn (rec ++ drop (length rec) (di_buf (dt_in r))) (length rec) 0), NANORTC_OK)) as ->.
  { assert (chlo_header r rec = Ok None) as Eh by (unfold chlo_header; rewrite Est; by destruct (dt_is_server r)).
    unfold dtls_buffer, dtls_try_reassemble_chlo. rewrite Eh, !bind_Ok. cbn [Z.ltb Z.compare Z.eqb]. cbv zeta.
    rewrite Ei, Ep. cbn [Nat.add]. rewrite (proj2 (Nat.ltb_ge _ _)) by lia. by rewrite wr_0 by lia. }
  rewrite bind_Ok. change (negb (NANORTC_OK =? NANORTC_OK)) with false. cbv match.
  change (dt_state (with_in r _)) with (dt_state r). rewrite Est. unfold dtls_read_app. rewrite Ed. cbn [run].
  unfold bio_recv_cb. cbn [dt_in with_in di_len di_read_pos di_buf]. cbv zeta.
  rewrite Nat.sub_0_r, (proj2 (Nat.eqb_neq _ 0)) by lia. replace (Nat.min (length rec) n) with (length rec) by lia.
  rewrite rdn_front, !bind_Ok by done. rewrite (proj2 (Nat.leb_le _ _)) by lia. rewrite Ek. cbn [run]. rewrite bind_Ok.
  cbn [dt_app_buf with_in]. rewrite wr_0, bind_Ok by lia. cbn [Z.ltb Z.compare].
  do 2 eexists. split; [done|]. unfold dtls_poll_app_data. cbn [dt_app_len dt_app_buf with_app with_ctx].
  rewrite (proj2 (Nat.eqb_neq _ 0)) by lia. rewrite rdn_front, bind_Ok by done. split; [done|].
  unfold can_receive. cbn. rewrite !length_app, !length_drop. split_and!; try done; lia.
Qed.

Lemma carry_one s r cs cr m :
  can_send s cs -> can_receive r cr -> linked cs cr -> (0 < length m <= max)%nat ->
  exists s' r' cs' cr', carry s r m = Ok (s', r', m) /\ can_send s' cs' /\ can_receive r' cr' /\ linked cs' cr'.
Proof.
  intros Hs Hr Hl Hm. destruct (law_record cs cr m Hl Hm) as (rec & cs' & cr' & ks & n & kr & Hrec & Hmb & E1 & E2 & E3 & Hn & E4 & Hl').
  destruct (encrypt_record s cs m rec ks cs' Hs ltac:(lia) Hrec E1 E2) as (s1 & s2 & Es1 & Es2 & Hs2).
  destruct (receive_record r cr rec n kr cr' m Hr Hrec ltac:(lia) E3 Hn E4) as (r1 & r2 & Er1 & Er2 & Hr2).
  exists s2, r2, cs', cr'. split; [|done]. unfold carry. by rewrite Es1, bind_Ok, Es2, bind_Ok, Er1, bind_Ok, Er2.
Qed.
End Transfer.

(** C12: between two established adapters whose engines share a session, every
    sequence of texts that [dtls_encrypt] is given comes out of the peer's
    [dtls_poll_app_data] unaltered and in order, one record a datagram, each
    taken from [dtls_poll_output] and given to [dtls_handle_data]; nothing stays
    behind in either adapter. *)
Theorem dtls_delivers (Ps Pr : provider) (max : nat) (link : record_link Ps Pr max) s r cs cr (ms : list (list Z)) :
  can_send s cs -> can_receive r cr -> linked cs cr -> Forall (fun m => (0 < length m <= max)%nat) ms ->
  exists s' r' cs' cr', carry_all s r ms = Ok (s', r', ms) /\ can_send s' cs' /\ can_receive r' cr' /\ linked cs' cr'.
Proof.
  intros Hs Hr Hl Hms. revert s r cs cr Hs Hr Hl. induction Hms as [|m ms Hm _ IH]; intros s r cs cr Hs Hr Hl; cbn [carry_all].
  - exists s, r, cs, cr. done.
  - destruct (carry_one s r cs cr m Hs Hr Hl Hm) as (s1 & r1 & cs1 & cr1 & E & Hs1 & Hr1 & Hl1). rewrite E, bind_Ok.
    destruct (IH s1 r1 cs1 cr1 Hs1 Hr1 Hl1) as (s2 & r2 & cs2 & cr2 & E2 & ?). rewrite E2, bind_Ok. by exists s2, r2, cs2, cr2.
Qed.

Lemma toy_mask_mask m : toy_mask (toy_mask m) = m.
Proof.
  unfold toy_mask. rewrite map_map. rewrite <- (map_id m) at 2. apply map_ext. intros x.
  by rewrite Z.lxor_assoc, Z.lxor_nilpotent, Z.lxor_0_r.
Qed.
Definition toy_link : record_link toy_provider toy_provider (Z.to_nat 2000).
Proof.
  refine {| linked := fun _ _ => True |}. intros cs cr m _ Hm.
  exists (23 :: toy_mask m), cs, cr. do 3 eexists.
  assert (length (23 :: toy_mask m) = S (length m)) as El by (unfold toy_mask; cbn [length]; by rewrite length_map).
  rewrite El. unfold NANORTC_DTLS_BUF_SIZE.
  split; [lia|]. split; [lia|]. split; [reflexivity|]. split; [reflexivity|]. split; [reflexivity|].
  split; [unfold NANORTC_DTLS_BUF_SIZE; lia|]. split; [|exact I].
  cbn [Z.eqb Pos.eqb]. rewrite toy_mask_mask, take_ge by lia. done.
Defined.

(** Two established adapters around the toy engine. *)
Definition demo_established (server : bool) : nano_dtls toy_provider := with_state (with_ctx (P := toy_provider) (dtls_zero server) (Some tt)) DTLS_ESTABLISHED.
Definition demo_texts : list (list Z) := [[104; 105]; [0]; [1; 2; 3]].
Lemma dtls_delivers_witness : exists s' r' cs' cr', carry_all (demo_established false) (demo_established true) demo_texts = Ok (s', r', demo_texts) /\
  can_send s' cs' /\ can_receive r' cr' /\ @linked _ _ _ toy_link cs' cr'.
Proof.
  apply (dtls_delivers toy_provider toy_provider (Z.to_nat 2000) toy_link _ _ tt tt).
  - split_and!; [done..|]. apply length_replicate.
  - split_and!; [done..| |]; apply length_replicate.
  - exact I.
  - repeat (apply List.Forall_cons; [cbn [length]; lia|]). apply List.Forall_nil.
Defined.
