(* ===== verification/Base64.v ===== *)
(** Base64 encoder, [src/nano_base64.c] (ICE password and fingerprint text):
    the grouping loop with its writes into the caller's buffer, and its
    correctness against an independent decoder of RFC 4648 text. *)

From Stdlib Require Import ZArith Lia.
From stdpp Require Import base list numbers.
From S2P Require Import Prelude Wire.

Local Open Scope Z_scope.

(** * The encoder *)

(** ASCII codes of A-Z, a-z, 0-9, [+], [/]. *)
Definition kBase64Alphabet : list Z :=
  [65; 66; 67; 68; 69; 70; 71; 72; 73; 74; 75; 76; 77; 78; 79; 80; 81; 82; 83; 84; 85; 86; 87; 88;
   89; 90; 97; 98; 99; 100; 101; 102; 103; 104; 105; 106; 107; 108; 109; 110; 111; 112; 113; 114;
   115; 116; 117; 118; 119; 120; 121; 122; 48; 49; 50; 51; 52; 53; 54; 55; 56; 57; 43; 47].

(** [kBase64Alphabet[(triple >> sh) & 0x3F]]. *)
Definition b64_char (triple sh : Z) : Z :=
  nth (Z.to_nat (Z.land (Z.shiftr triple sh) 0x3F)) kBase64Alphabet 0.

(** The four stores [dst[di + 0] = ...; ... dst[di + 3] = ...] of a group. *)
Definition put4 (dst : list Z) (di : nat) (w x y z : Z) : res (list Z) :=
  dst ← wr dst di [w]; dst ← wr dst (di + 1) [x];
  dst ← wr dst (di + 2) [y]; wr dst (di + 3) [z].

(** The [while (si + 3 <= src_len)] loop; returns [dst], [si] and [di]. *)
Fixpoint base64_groups (fuel : nat) (src dst : list Z) (si di : nat) : res (list Z * nat * nat) :=
  match fuel with
  | O => Fault
  | S fuel =>
      if (si + 3 <=? length src)%nat then
        a ← rd8 src si; b ← rd8 src (si + 1); c ← rd8 src (si + 2);
        let triple := Z.lor (Z.lor (Z.shiftl a 16) (Z.shiftl b 8)) c in
        dst ← put4 dst di (b64_char triple 18) (b64_char triple 12)
                          (b64_char triple 6) (b64_char triple 0);
        base64_groups fuel src dst (si + 3) (di + 4)
      else Ok (dst, si, di)
  end.

(** The one- or two-octet tail with its padding. *)
Definition base64_tail (src dst : list Z) (si di : nat) : res (list Z * nat) :=
  match (length src - si)%nat with
  | 1%nat =>
      a ← rd8 src si;
      let triple := Z.shiftl a 16 in
      dst ← put4 dst di (b64_char triple 18) (b64_char triple 12) 61 61;
      mret (dst, (di + 4)%nat)
  | 2%nat =>
      a ← rd8 src si; b ← rd8 src (si + 1);
      let triple := Z.lor (Z.shiftl a 16) (Z.shiftl b 8) in
      dst ← put4 dst di (b64_char triple 18) (b64_char triple 12) (b64_char triple 6) 61;
      mret (dst, (di + 4)%nat)
  | _ => mret (dst, di)
  end.

(** [dst] is the caller's buffer of [dst_cap] octets; the result is the buffer
    and [*out_len]. *)
Definition nano_base64_encode (src dst : list Z) : res (list Z * nat) :=
  let needed := ((length src + 2) / 3 * 4 + 1)%nat in
  if (length dst <? needed)%nat then Err NANORTC_ERR_BUFFER_TOO_SMALL else
  '(dst, si, di) ← base64_groups (S (length src)) src dst 0 0;
  '(dst, di) ← base64_tail src dst si di;
  dst ← wr dst di [0];
  mret (dst, di).

(** * Reference encoder and decoder *)

(** The text of an octet string, group by group, over arithmetic sextets. *)
Definition sextet (v : Z) : Z := nth (Z.to_nat v) kBase64Alphabet 0.
#[global] Arguments sextet : simpl never.
Fixpoint b64_text (src : list Z) : list Z :=
  match src with
  | [] => []
  | [a] => [sextet (a / 4); sextet (a mod 4 * 16); 61; 61]
  | [a; b] => [sextet (a / 4); sextet (a mod 4 * 16 + b / 16); sextet (b mod 16 * 4); 61]
  | a :: b :: c :: src =>
      sextet (a / 4) :: sextet (a mod 4 * 16 + b / 16) :: sextet (b mod 16 * 4 + c / 64)
      :: sextet (c mod 64) :: b64_text src
  end.

(** Decoder of RFC 4648 text: padding only at the end. *)
Fixpoint index_of (x : Z) (l : list Z) : option Z :=
  match l with
  | [] => None
  | y :: l => if x =? y then Some 0 else Z.succ <$> index_of x l
  end.
Definition unsextet (c : Z) : option Z := index_of c kBase64Alphabet.
Fixpoint b64_decode (text : list Z) : option (list Z) :=
  match text with
  | [] => Some []
  | w :: x :: y :: z :: rest =>
      p ← unsextet w; q ← unsextet x;
      if (y =? 61) && (z =? 61) then guard (rest = []);; Some [p * 4 + q / 16] else
      r ← unsextet y;
      if z =? 61 then guard (rest = []);; Some [p * 4 + q / 16; q mod 16 * 16 + r / 4] else
      s ← unsextet z;
      tl ← b64_decode rest;
      Some (p * 4 + q / 16 :: q mod 16 * 16 + r / 4 :: r mod 4 * 64 + s :: tl)
  | _ => None
  end.

(** * Lemmas *)

Lemma unsextet_sextet v : 0 <= v < 64 -> unsextet (sextet v) = Some v /\ sextet v <> 61.
Proof.
  intros Hv.
  assert (forallb (fun n => bool_decide (unsextet (sextet (Z.of_nat n)) = Some (Z.of_nat n))
                            && negb (sextet (Z.of_nat n) =? 61)) (seq 0 64) = true) as H
    by (vm_compute; reflexivity).
  rewrite forallb_forall in H. specialize (H (Z.to_nat v) ltac:(apply in_seq; lia)).
  rewrite Z2Nat.id in H by lia. apply andb_prop in H as [H1%bool_decide_eq_true H2].
  split; [done | lia].
Qed.

(** Three octets are four sextets. *)
Lemma triple_sum a b c :
  is_u8 a -> is_u8 b -> is_u8 c ->
  Z.lor (Z.lor (Z.shiftl a 16) (Z.shiftl b 8)) c = (a * 256 + b) * 256 + c.
Proof.
  intros Ha Hb Hc.
  replace (Z.shiftl a 16) with (Z.shiftl (Z.shiftl a 8) 8) by (by rewrite Z.shiftl_shiftl by lia).
  rewrite <- Z.shiftl_lor, !lor_shiftl_add by (unfold is_u8 in *; lia). lia.
Qed.
Lemma triple_sum1 a : Z.shiftl a 16 = (a * 256 + 0) * 256 + 0.
Proof. rewrite Z.shiftl_mul_pow2 by lia. lia. Qed.
Lemma triple_sum2 a b :
  is_u8 a -> is_u8 b -> Z.lor (Z.shiftl a 16) (Z.shiftl b 8) = (a * 256 + b) * 256 + 0.
Proof.
  intros Ha Hb. rewrite <- (Z.lor_0_r (Z.lor _ _)). apply triple_sum; auto. unfold is_u8. lia.
Qed.
Lemma b64_char_sextet t sh : 0 <= sh -> b64_char t sh = sextet (t / 2 ^ sh mod 64).
Proof.
  intros. unfold b64_char, sextet. change 0x3F with (Z.ones 6).
  by rewrite Z.land_ones, Z.shiftr_div_pow2 by lia.
Qed.
Lemma b64_chars a b c :
  is_u8 a -> is_u8 b -> is_u8 c ->
  let t := (a * 256 + b) * 256 + c in
  b64_char t 18 = sextet (a / 4) /\ b64_char t 12 = sextet (a mod 4 * 16 + b / 16) /\
  b64_char t 6 = sextet (b mod 16 * 4 + c / 64) /\ b64_char t 0 = sextet (c mod 64).
Proof.
  intros Ha Hb Hc t. subst t. rewrite !b64_char_sextet by lia.
  change (2 ^ 18) with 262144. change (2 ^ 12) with 4096. change (2 ^ 6) with 64.
  change (2 ^ 0) with 1. split_and!; f_equal; mach.
Qed.

(** Induction by groups of three. *)
Lemma list_ind3 {A} (P : list A -> Prop) :
  P [] -> (forall a, P [a]) -> (forall a b, P [a; b]) ->
  (forall a b c l, P l -> P (a :: b :: c :: l)) -> forall l, P l.
Proof.
  intros H0 H1 H2 H3 l. enough (P l /\ (forall a, P (a :: l)) /\ (forall a b, P (a :: b :: l)))
    by tauto. induction l as [|x l (IH1 & IH2 & IH3)]; auto.
Qed.

Lemma b64_text_length src : length (b64_text src) = ((length src + 2) / 3 * 4)%nat.
Proof.
  induction src as [|a|a b|a b c src IH] using list_ind3; [done..|].
  cbn [b64_text length]. rewrite IH.
  replace (S (S (S (length src))) + 2)%nat with (length src + 2 + 1 * 3)%nat by lia.
  rewrite Nat.div_add by lia. lia.
Qed.

Lemma b64_decode_text src : bytes src -> b64_decode (b64_text src) = Some src.
Proof.
  intros Hs. induction src as [|a|a b|a b c src IH] using list_ind3; [done|..].
  - inv Hs. cbn [b64_text b64_decode].
    destruct (unsextet_sextet (a / 4)) as [-> _]; [mach|].
    destruct (unsextet_sextet (a mod 4 * 16)) as [-> _]; [mach|].
    cbn. case_guard; [|done]. cbn. do 2 f_equal. mach.
  - inv Hs as [|? ? Ha Hs']. inv Hs' as [|? ? Hb _]. cbn [b64_text b64_decode].
    destruct (unsextet_sextet (a / 4)) as [-> _]; [mach|].
    destruct (unsextet_sextet (a mod 4 * 16 + b / 16)) as [-> _]; [mach|].
    destruct (unsextet_sextet (b mod 16 * 4)) as [-> Hy%Z.eqb_neq]; [mach|].
    rewrite Hy. cbn. case_guard; [|done]. cbn. f_equal. f_equal; [|f_equal]; mach.
  - inv Hs as [|? ? Ha Hs']. inv Hs' as [|? ? Hb Hs'']. inv Hs'' as [|? ? Hc Hs].
    cbn [b64_text b64_decode].
    destruct (unsextet_sextet (a / 4)) as [-> _]; [mach|].
    destruct (unsextet_sextet (a mod 4 * 16 + b / 16)) as [-> _]; [mach|].
    destruct (unsextet_sextet (b mod 16 * 4 + c / 64)) as [-> Hy%Z.eqb_neq]; [mach|].
    destruct (unsextet_sextet (c mod 64)) as [-> Hz%Z.eqb_neq]; [mach|].
    rewrite Hy, Hz, (IH Hs). cbn. f_equal. f_equal; [|f_equal; [|f_equal]]; mach.
Qed.

(** A group of stores at the cursor. *)
Lemma put4_append pre rest w x y z i :
  i = length pre -> (4 <= length rest)%nat ->
  put4 (pre ++ rest) i w x y z = Ok ((pre ++ [w; x; y; z]) ++ drop 4 rest).
Proof.
  intros -> Hr. unfold put4. do 4 (destruct rest as [|? rest]; cbn in Hr; [lia|]).
  do 4 (rewrite wr_append by (rewrite ?length_app; cbn; lia); cbn [mbind res_bind length drop]).
  by rewrite <- !app_assoc.
Qed.

Lemma rd8_skip pre (s : list Z) n x :
  s !! n = Some x -> rd8 (pre ++ s) (length pre + n) = Ok x.
Proof. intros H. rewrite rd8_app_r. unfold rd8. by rewrite H. Qed.
Lemma rd8_skip0 pre (s : list Z) x : s !! 0%nat = Some x -> rd8 (pre ++ s) (length pre) = Ok x.
Proof. intros H. rewrite <- (Nat.add_0_r (length pre)). by apply rd8_skip. Qed.

(** The tail writes the text of the at most two octets left. *)
Lemma base64_tail_spec pre_src src pre rest :
  bytes src -> (length src < 3)%nat -> (length (b64_text src) <= length rest)%nat ->
  base64_tail (pre_src ++ src) (pre ++ rest) (length pre_src) (length pre)
  = Ok ((pre ++ b64_text src) ++ drop (length (b64_text src)) rest,
        (length pre + length (b64_text src))%nat).
Proof.
  intros Hs Hl Hr. unfold base64_tail. rewrite length_app.
  replace (length pre_src + length src - length pre_src)%nat with (length src) by lia.
  destruct src as [|a [|b [|c src]]]; cbn [length] in *; [..|lia].
  - cbn. by rewrite !app_nil_r, Nat.add_0_r.
  - inv Hs as [|? ? Ha _]. rewrite (rd8_skip0 _ _ a) by done. cbn [mbind res_bind].
    rewrite put4_append; [|done|cbn in Hr; lia]. rewrite triple_sum1.
    destruct (b64_chars a 0 0 Ha is_u8_0 is_u8_0) as (-> & -> & _).
    cbn [mbind res_bind b64_text length]. change (0 / 16) with 0. by rewrite Z.add_0_r.
  - inv Hs as [|? ? Ha Hs']. inv Hs' as [|? ? Hb _]. rewrite (rd8_skip0 _ _ a) by done.
    cbn [mbind res_bind]. rewrite (rd8_skip _ _ 1 b) by done. cbn [mbind res_bind].
    rewrite put4_append; [|done|cbn in Hr; lia]. rewrite triple_sum2 by done.
    destruct (b64_chars a b 0 Ha Hb is_u8_0) as (-> & -> & -> & _).
    cbn [mbind res_bind b64_text length]. change (0 / 64) with 0. by rewrite Z.add_0_r.
Qed.

(** The grouping loop followed by the tail writes the whole text. *)
Lemma base64_loops_spec src : forall pre_src pre rest fuel,
  bytes src -> (length src < fuel)%nat -> (length (b64_text src) <= length rest)%nat ->
  ('(dst, si, di) ← base64_groups fuel (pre_src ++ src) (pre ++ rest) (length pre_src) (length pre);
   base64_tail (pre_src ++ src) dst si di)
  = Ok ((pre ++ b64_text src) ++ drop (length (b64_text src)) rest,
        (length pre + length (b64_text src))%nat).
Proof.
  induction src as [|a|a b|a b c src IH] using list_ind3;
    intros pre_src pre rest [|fuel] Hs Hf Hl; try lia; cbn [base64_groups];
    rewrite length_app; cbn [length] in *.
  1-3: rewrite (proj2 (Nat.leb_gt _ _)) by lia; apply base64_tail_spec; cbn in *; first [done | lia].
  rewrite (proj2 (Nat.leb_le _ _)) by lia.
  inv Hs as [|? ? Ha Hs']. inv Hs' as [|? ? Hb Hs'']. inv Hs'' as [|? ? Hc Hs].
  rewrite (rd8_skip0 _ _ a), (rd8_skip _ _ 1 b), (rd8_skip _ _ 2 c) by done.
  cbn [mbind res_bind]. rewrite put4_append by (cbn in Hl; lia).
  rewrite triple_sum by done. destruct (b64_chars a b c Ha Hb Hc) as (-> & -> & -> & ->).
  cbn [mbind res_bind].
  replace (pre_src ++ a :: b :: c :: src) with ((pre_src ++ [a; b; c]) ++ src)
    by (by rewrite <- app_assoc).
  replace (length pre_src + 3)%nat with (length (pre_src ++ [a; b; c])) by (by rewrite length_app).
  match goal with |- context [(pre ++ ?g) ++ drop 4 rest] =>
    replace (length pre + 4)%nat with (length (pre ++ g)) by (by rewrite length_app) end.
  cbn in Hl. rewrite IH by (rewrite ?length_drop; first [done | lia]). rewrite drop_drop, !length_app.
  cbn. do 2 f_equal; [by rewrite <- !app_assoc | lia].
Qed.

(** * Properties *)

(** When the destination holds the padded text and its NUL, encoding
    succeeds, writes exactly the RFC 4648 text followed by NUL (leaving the rest
    of the buffer alone), reports its length, and the text decodes to the input;
    a smaller destination is refused. *)
Theorem nano_base64_encode_correct (src dst : list Z) :
  bytes src ->
  let needed := ((length src + 2) / 3 * 4 + 1)%nat in
  if (length dst <? needed)%nat
  then nano_base64_encode src dst = Err NANORTC_ERR_BUFFER_TOO_SMALL
  else nano_base64_encode src dst = Ok (b64_text src ++ 0 :: drop needed dst, (needed - 1)%nat)
       /\ length (b64_text src) = (needed - 1)%nat
       /\ b64_decode (b64_text src) = Some src.
Proof.
  intros Hs needed. unfold nano_base64_encode. fold needed.
  destruct (Nat.ltb_spec (length dst) needed) as [|Hl]; [done|].
  assert (Hlen : (needed = length (b64_text src) + 1)%nat)
    by (unfold needed; by rewrite b64_text_length).
  clearbody needed.
  split_and!; [|lia | by apply b64_decode_text].
  pose proof (base64_loops_spec src [] [] dst (S (length src)) Hs ltac:(lia) ltac:(lia)) as H.
  cbn [app length] in H.
  destruct (base64_groups _ _ _ _ _) as [[[d si] di]| |]; [|done..]. cbn [mbind res_bind] in H |- *.
  rewrite H. cbn [mbind res_bind].
  rewrite wr_append by (rewrite ?length_drop; cbn; lia). unfold mret, res_ret.
  rewrite drop_drop, <- app_assoc. cbn.
  rewrite Hlen, Nat.add_sub. done.
Qed.

Lemma nano_base64_encode_correct_witness :
  nano_base64_encode [77; 97; 110; 77] (replicate 9 7) =
  Ok ([84; 87; 70; 117; 84; 81; 61; 61; 0], 8%nat).
Proof.
  assert (bytes [77; 97; 110; 77]) as H by (repeat constructor; unfold is_u8; lia).
  destruct (nano_base64_encode_correct _ (replicate 9 7) H) as [He _]. exact He.
Defined.
