(* ===== verification/Addr.v ===== *)
(** IP address text conversion, [src/nano_addr.c]: the IPv4 and IPv6 parsers and
    formatters with their buffer checks, the exact language the IPv4 parser
    accepts, and the parse/format round trips. *)

From Stdlib Require Import ZArith Lia.
From stdpp Require Import base list numbers.
From S2P Require Import Prelude Wire.

Local Open Scope Z_scope.

Definition ADDR_ERR_INVALID_PARAM : Z := -1.
Definition ADDR_ERR_BUFFER_SMALL : Z := -2.
Definition ADDR_ERR_PARSE : Z := -7.

(** ASCII *)
Definition DOT : Z := 46.
Definition COLON : Z := 58.
Definition CH0 : Z := 48.

(** * Parsing IPv4 *)

(** The [for (i = 0; i <= len; i++)] loop: [out] is the written prefix of the
    output array, its length the counter [octet]. *)
Definition ipv4_store (out : list Z) (val : Z) : res (list Z) :=
  if (4 <=? length out)%nat || (255 <? val) then Err ADDR_ERR_PARSE else Ok (out ++ [u8 val]).
Fixpoint parse_ipv4_loop (str : list Z) (out : list Z) (val : Z) : res (list Z) :=
  match str with
  | [] => ipv4_store out val
  | c :: str =>
      if c =? DOT then out ← ipv4_store out val; parse_ipv4_loop str out 0
      else if (CH0 <=? c) && (c <=? 57) then
        let val := u16 (val * 10 + u16 (c - CH0)) in
        if 255 <? val then Err ADDR_ERR_PARSE else parse_ipv4_loop str out val
      else Err ADDR_ERR_PARSE
  end.
Definition addr_parse_ipv4 (str : list Z) : res (list Z) :=
  match str with
  | [] => Err ADDR_ERR_INVALID_PARAM
  | _ =>
      out ← parse_ipv4_loop str [] 0;
      if (length out =? 4)%nat then Ok out else Err ADDR_ERR_PARSE
  end.

(** * Formatting *)

(** One guarded store [if (pos >= buf_len) return ADDR_ERR_BUFFER_SMALL;
    buf[pos++] = c;] (the macro [EMIT_CHAR] of the IPv6 formatter). *)
Definition emit_char (st : list Z * nat) (c : Z) : res (list Z * nat) :=
  let '(buf, pos) := st in
  if (length buf <=? pos)%nat then Err ADDR_ERR_BUFFER_SMALL else
  buf ← wr buf pos [c]; Ok (buf, S pos).
(** The closing NUL and [*out_len = pos]. *)
Definition emit_nul (st : list Z * nat) : res (list Z * nat) :=
  let '(buf, pos) := st in
  if (length buf <=? pos)%nat then Err ADDR_ERR_BUFFER_SMALL else
  buf ← wr buf pos [0]; Ok (buf, pos).

(** Up to three decimal digits. *)
Definition emit_octet (st : list Z * nat) (v : Z) : res (list Z * nat) :=
  if 100 <=? v then
    st ← emit_char st (CH0 + v / 100);
    let v := v mod 100 in
    st ← emit_char st (CH0 + v / 10);
    emit_char st (CH0 + v mod 10)
  else if 10 <=? v then
    st ← emit_char st (CH0 + v / 10);
    emit_char st (CH0 + v mod 10)
  else emit_char st (CH0 + v).
Fixpoint format_ipv4_loop (addr : list Z) (i : nat) (st : list Z * nat) : res (list Z * nat) :=
  match addr with
  | [] => Ok st
  | v :: addr =>
      st ← (if (0 <? i)%nat then emit_char st DOT else Ok st);
      st ← emit_octet st v;
      format_ipv4_loop addr (S i) st
  end.
(** Reads the four octets of [addr]; the result is the buffer and [*out_len]. *)
Definition addr_format_ipv4 (addr buf : list Z) : res (list Z * nat) :=
  addr4 ← rdn addr 0 4;
  st ← format_ipv4_loop addr4 0 (buf, 0%nat);
  emit_nul st.

(** * IPv6 *)

Definition IPV6_MAX_GROUPS : nat := 8.

Definition hex_digit (c : Z) : Z :=
  if (48 <=? c) && (c <=? 57) then c - 48
  else if (97 <=? c) && (c <=? 102) then 10 + (c - 97)
  else if (65 <=? c) && (c <=? 70) then 10 + (c - 65)
  else -1.

(** The look-ahead for a [.] before the next [:] or the end. *)
Fixpoint has_dot (str : list Z) : bool :=
  match str with
  | [] => false
  | c :: str => if c =? DOT then true else if c =? COLON then false else has_dot str
  end.

(** One hexadecimal group, up to [:] or the end: the value, the digit count and
    the unread text. *)
Fixpoint parse_hex_group (str : list Z) (val : Z) (digits : nat) : res (Z * nat * list Z) :=
  match str with
  | [] => Ok (val, digits, [])
  | c :: rest =>
      if c =? COLON then Ok (val, digits, str) else
      let d := hex_digit c in
      if d <? 0 then Err ADDR_ERR_PARSE else
      let val := Z.lor (u32 (Z.shiftl val 4)) d in
      if 0xFFFF <? val then Err ADDR_ERR_PARSE else
      let digits := S digits in
      if (4 <? digits)%nat then Err ADDR_ERR_PARSE
      else parse_hex_group rest val digits
  end.

(** The [while (i < len)] loop over the unread text; [groups] is the filled
    prefix of the group array and [dcolon] the position of [::] in it. *)
Fixpoint parse_ipv6_loop (fuel : nat) (str : list Z) (groups : list Z) (dcolon : option nat)
  : res (list Z * option nat) :=
  match fuel with
  | O => Fault
  | S fuel =>
      match str with
      | [] => Ok (groups, dcolon)
      | _ =>
          if (IPV6_MAX_GROUPS <=? length groups)%nat then Err ADDR_ERR_PARSE else
          if has_dot str then
            if (6 <? length groups)%nat then Err ADDR_ERR_PARSE else
            ipv4 ← addr_parse_ipv4 str;
            a ← rd8 ipv4 0; b ← rd8 ipv4 1; c ← rd8 ipv4 2; d ← rd8 ipv4 3;
            Ok (groups ++ [u16 (Z.lor (Z.shiftl a 8) b); u16 (Z.lor (Z.shiftl c 8) d)], dcolon)
          else
            '(val, digits, rest) ← parse_hex_group str 0 0;
            if (digits =? 0)%nat then Err ADDR_ERR_PARSE else
            let groups := groups ++ [u16 val] in
            match rest with
            | [] => Ok (groups, dcolon)
            | _ :: rest =>   (* past the ':' *)
                match rest with
                | [] => Err ADDR_ERR_PARSE   (* trailing single colon *)
                | c :: rest' =>
                    if c =? COLON then
                      match dcolon with
                      | Some _ => Err ADDR_ERR_PARSE
                      | None =>
                          match rest' with
                          | [] => Ok (groups, Some (length groups))
                          | _ => parse_ipv6_loop fuel rest' groups (Some (length groups))
                          end
                      end
                    else parse_ipv6_loop fuel rest groups dcolon
                end
            end
      end
  end.

(** A group's two octets. *)
Definition group_octets (g : Z) : list Z := [u8 (Z.shiftr g 8); u8 (Z.land g 0xFF)].
(** Writing the groups around the zero gap of [::]. *)
Definition expand_ipv6 (groups : list Z) (dcolon : option nat) : res (list Z) :=
  match dcolon with
  | Some d =>
      if (IPV6_MAX_GROUPS <? length groups)%nat then Err ADDR_ERR_PARSE else
      let missing := (IPV6_MAX_GROUPS - length groups)%nat in
      Ok (concat (map group_octets (take d groups)) ++ replicate (2 * missing) 0
          ++ concat (map group_octets (drop d groups)))
  | None =>
      if (length groups =? IPV6_MAX_GROUPS)%nat
      then Ok (concat (map group_octets groups)) else Err ADDR_ERR_PARSE
  end.
Definition addr_parse_ipv6 (str : list Z) : res (list Z) :=
  match str with
  | [] => Err ADDR_ERR_INVALID_PARAM
  | _ =>
      let '(dcolon, rest) :=
        match str with
        | c0 :: c1 :: rest =>
            if (c0 =? COLON) && (c1 =? COLON) then (Some 0%nat, rest) else (None, str)
        | _ => (None, str)
        end in
      match dcolon, rest with
      | Some _, [] => Ok (replicate 16 0)
      | _, _ =>
          '(groups, dcolon) ← parse_ipv6_loop (S (length str)) rest [] dcolon;
          expand_ipv6 groups dcolon
      end
  end.

(** The search for the first longest run of zero groups: [best] and [cur] are
    the [(start, len)] pairs of the source, a start of [-1] being [len = 0]. *)
Fixpoint zero_run (groups : list Z) (g : nat) (best cur : nat * nat) : nat * nat :=
  match groups with
  | [] => if (best.2 <? cur.2)%nat then cur else best
  | v :: groups =>
      if v =? 0 then
        zero_run groups (S g) best (if (cur.2 =? 0)%nat then (g, 1%nat) else (cur.1, S cur.2))
      else zero_run groups (S g) (if (best.2 <? cur.2)%nat then cur else best) (0%nat, 0%nat)
  end.
(** The run to compress: a single zero group is not. *)
Definition best_run (groups : list Z) : option (nat * nat) :=
  let run := zero_run groups 0 (0%nat, 0%nat) (0%nat, 0%nat) in
  if (run.2 <=? 1)%nat then None else Some run.
Definition hex_char (v : Z) : Z := if v <? 10 then 48 + v else 87 + v.
Definition hex_nibble (v sh : Z) : Z := hex_char (Z.land (Z.shiftr v sh) 0xF).
Definition group_text (v : Z) : list Z :=
  if 0x1000 <=? v then [hex_nibble v 12; hex_nibble v 8; hex_nibble v 4; hex_nibble v 0]
  else if 0x100 <=? v then [hex_nibble v 8; hex_nibble v 4; hex_nibble v 0]
  else if 0x10 <=? v then [hex_nibble v 4; hex_nibble v 0]
  else [hex_nibble v 0].
Fixpoint emit_list (st : list Z * nat) (cs : list Z) : res (list Z * nat) :=
  match cs with [] => Ok st | c :: cs => st ← emit_char st c; emit_list st cs end.

(** The emission loop; [best = Some (start, len)] when a run is compressed. *)
Fixpoint format_ipv6_loop (fuel : nat) (groups : list Z) (g : nat) (best : option (nat * nat))
    (st : list Z * nat) : res (list Z * nat) :=
  match fuel with
  | O => Fault
  | S fuel =>
      if (g <? IPV6_MAX_GROUPS)%nat then
        let skip := match best with Some (s, l) => if (g =? s)%nat then Some l else None | None => None end in
        match skip with
        | Some best_len =>
          st ← emit_char st COLON; st ← emit_char st COLON;
          format_ipv6_loop fuel groups (g + best_len) best st
        | None =>
          (* without a run, best_start + best_len is -1 *)
          let after := match best with Some (s, l) => (g =? s + l)%nat | None => false end in
          st ← (if (0 <? g)%nat && negb after then emit_char st COLON else Ok st);
          v ← rd8 groups g;
          st ← emit_list st (group_text v);
          format_ipv6_loop fuel groups (S g) best st
        end
      else Ok st
  end.
Definition decode_groups (addr : list Z) : list Z :=
  map (fun g => u16 (Z.lor (Z.shiftl (nth (2 * g) addr 0) 8) (nth (2 * g + 1) addr 0)))
      (seq 0 IPV6_MAX_GROUPS).
Definition addr_format_ipv6 (addr buf : list Z) : res (list Z * nat) :=
  addr16 ← rdn addr 0 16;
  let groups := decode_groups addr16 in
  st ← format_ipv6_loop 9 groups 0 (best_run groups) (buf, 0%nat);
  emit_nul st.

(** * Dispatch on the family *)

(** Returns the 16-octet output and [*family]. *)
Definition addr_parse_auto (str : list Z) : res (list Z * Z) :=
  match str with
  | [] => Err ADDR_ERR_INVALID_PARAM
  | _ =>
      if existsb (Z.eqb COLON) str then out ← addr_parse_ipv6 str; Ok (out, 6)
      else out ← addr_parse_ipv4 str; Ok (out ++ replicate 12 0, 4)
  end.
Definition addr_format (addr : list Z) (family : Z) (buf : list Z) : res (list Z * nat) :=
  if family =? 4 then addr_format_ipv4 addr buf
  else if family =? 6 then addr_format_ipv6 addr buf
  else Err ADDR_ERR_INVALID_PARAM.

(** * The IPv4 language *)

Fixpoint join (sep : Z) (segs : list (list Z)) : list Z :=
  match segs with
  | [] => []
  | [s] => s
  | s :: rest => s ++ sep :: join sep rest
  end.
(** What the parser takes for an octet: decimal digits, possibly none, with a
    value of at most 255. *)
Definition octet_text (seg : list Z) : Prop :=
  forallb is_digit seg = true /\ decimal_value seg 0 <= 255.

Lemma join_cons sep c s segs : join sep ((c :: s) :: segs) = c :: join sep (s :: segs).
Proof. by destruct segs. Qed.
Lemma is_digit_not_sep c : is_digit c = true -> c <> DOT /\ c <> COLON.
Proof. unfold is_digit, DOT, COLON. lia. Qed.

Lemma ipv4_store_Ok out val o :
  0 <= val -> ipv4_store out val = Ok o <->
  (length out < 4)%nat /\ val <= 255 /\ o = out ++ [val].
Proof.
  intros Hv. unfold ipv4_store.
  destruct (Nat.leb_spec 4 (length out)), (Z.ltb_spec 255 val); cbn [orb];
    try (split; [done | lia]).
  rewrite u8_id by mach. split; [intros [= <-] | intros (_ & _ & ->)]; done.
Qed.

Lemma parse_ipv4_loop_spec str out val o :
  0 <= val <= 255 ->
  parse_ipv4_loop str out val = Ok o <->
  exists seg segs, str = join DOT (seg :: segs) /\ forallb is_digit seg = true /\
    decimal_value seg val <= 255 /\ Forall octet_text segs /\
    o = out ++ decimal_value seg val :: map (fun s => decimal_value s 0) segs /\
    (length o <= 4)%nat.
Proof.
  revert out val. induction str as [|c str IH]; intros out val Hval; cbn [parse_ipv4_loop].
  { rewrite ipv4_store_Ok by lia. split.
    - intros (Hl & Hv & ->). exists [], []. rewrite length_app. cbn. split_and!; try done. lia.
    - intros (seg & segs & Heq & _ & Hv & _ & -> & Hl).
      destruct seg as [|? ?]; [|by rewrite join_cons in Heq].
      destruct segs; [|done]. rewrite length_app in Hl. cbn in *. split_and!; [lia | lia | done]. }
  destruct (Z.eqb_spec c DOT) as [->|Hdot].
  - split.
    + intros H. bind_inv H. apply ipv4_store_Ok in Hx as (Hl & Hv & ->); [|lia].
      apply IH in H as (seg & segs & -> & Hd & Hv' & Hs & -> & Hl'); [|lia].
      exists [], (seg :: segs). rewrite <- app_assoc in *. cbn in *.
      split_and!; try done. by constructor.
    + intros (seg & segs & Heq & Hd & Hv & Hs & -> & Hl).
      destruct seg as [|d seg].
      2:{ rewrite join_cons in Heq. injection Heq as <- _. by cbn in Hd. }
      destruct segs as [|seg segs]; [done|]. injection Heq as ->. inv Hs as [|? ? [Hd' Hv'] Hs'].
      rewrite length_app in Hl. cbn in Hl. cbn [decimal_value] in *.
      rewrite (proj2 (ipv4_store_Ok out val (out ++ [val]) ltac:(lia))) by (split_and!; [lia..|done]).
      cbn [mbind res_bind]. apply IH; [lia|]. exists seg, segs.
      rewrite <- app_assoc. split_and!; try done. rewrite length_app. cbn. lia.
  - destruct (is_digit c) eqn:Hc; unfold is_digit in Hc; unfold CH0; rewrite Hc.
    2:{ split; [done|]. intros (seg & segs & Heq & Hd & _).
        destruct seg as [|d seg]; [destruct segs; cbn in Heq; congruence|].
        rewrite join_cons in Heq. injection Heq as <- _. cbn in Hd. unfold is_digit in Hd.
        by rewrite Hc in Hd. }
    rewrite (u16_id (c - 48)), (u16_id (val * 10 + _)) by mach.
    assert (forall seg segs, c :: str = join DOT (seg :: segs) -> forallb is_digit seg = true ->
              exists seg', seg = c :: seg' /\ str = join DOT (seg' :: segs)) as Hcons.
    { intros seg segs Heq Hd. destruct seg as [|d seg]; [destruct segs; cbn in Heq; congruence|].
      rewrite join_cons in Heq. injection Heq as <- ->. by eauto. }
    assert (forall seg, forallb is_digit (c :: seg) = true <-> forallb is_digit seg = true) as Hdig.
    { intros seg. cbn. unfold is_digit at 1. by rewrite Hc. }
    destruct (Z.ltb_spec 255 (val * 10 + (c - 48))) as [Hov|Hov].
    + split; [done|]. intros (seg & segs & Heq & Hd & Hv & _).
      destruct (Hcons _ _ Heq Hd) as (seg' & -> & _). rewrite Hdig in Hd. cbn in Hv.
      pose proof (decimal_value_ge seg' (val * 10 + (c - 48)) Hd ltac:(lia)). lia.
    + rewrite IH by lia. split.
      * intros (seg & segs & -> & Hd & Hrest). exists (c :: seg), segs.
        rewrite join_cons, Hdig. done.
      * intros (seg & segs & Heq & Hd & Hrest).
        destruct (Hcons _ _ Heq Hd) as (seg' & -> & ->). exists seg', segs.
        rewrite Hdig in Hd. done.
Qed.

(** * Emission *)

Lemma emit_char_spec pre rest c :
  emit_char (pre ++ rest, length pre) c =
  if (1 <=? length rest)%nat then Ok ((pre ++ [c]) ++ drop 1 rest, length (pre ++ [c]))
  else Err ADDR_ERR_BUFFER_SMALL.
Proof.
  unfold emit_char. rewrite length_app. destruct rest as [|x rest]; cbn [length].
  - by rewrite Nat.add_0_r, Nat.leb_refl.
  - rewrite (proj2 (Nat.leb_gt _ _)) by lia. rewrite wr_append by (cbn; lia).
    cbn [mbind res_bind length]. rewrite length_app. cbn. by rewrite Nat.add_1_r.
Qed.
Lemma emit_list_app st a b : emit_list st (a ++ b) = (st ← emit_list st a; emit_list st b).
Proof.
  revert st. induction a as [|c a IH]; intros st; cbn; [done|].
  destruct (emit_char st c); cbn; [apply IH | done | done].
Qed.
Lemma emit_char_list st c : emit_char st c = emit_list st [c].
Proof. cbn. by destruct (emit_char st c). Qed.
(** Emitting a text succeeds exactly when it fits. *)
Lemma emit_list_spec cs : forall pre rest,
  emit_list (pre ++ rest, length pre) cs =
  if (length cs <=? length rest)%nat
  then Ok ((pre ++ cs) ++ drop (length cs) rest, length (pre ++ cs))
  else Err ADDR_ERR_BUFFER_SMALL.
Proof.
  induction cs as [|c cs IH]; intros pre rest; cbn [emit_list].
  - by rewrite app_nil_r.
  - rewrite emit_char_spec. destruct rest as [|x rest]; [done|]. cbn [Nat.leb length].
    cbn [mbind res_bind drop]. rewrite IH. by rewrite <- !app_assoc.
Qed.
(** A text and its NUL. *)
Lemma emit_list_nul text buf :
  (st ← emit_list (buf, 0%nat) text; emit_nul st) =
  if (length text <? length buf)%nat
  then Ok (text ++ 0 :: drop (S (length text)) buf, length text)
  else Err ADDR_ERR_BUFFER_SMALL.
Proof.
  pose proof (emit_list_spec text [] buf) as H. cbn [app length] in H. rewrite H. clear H.
  destruct (Nat.leb_spec (length text) (length buf)) as [Hl|Hl].
  2:{ rewrite (proj2 (Nat.ltb_ge _ _)) by lia. done. }
  cbn [mbind res_bind]. unfold emit_nul. rewrite length_app, length_drop.
  destruct (Nat.ltb_spec (length text) (length buf)).
  - rewrite (proj2 (Nat.leb_gt _ _)) by lia.
    rewrite wr_append by (rewrite ?length_drop; cbn; lia). cbn [mbind res_bind].
    rewrite drop_drop, <- app_assoc. cbn. by rewrite Nat.add_1_r.
  - by rewrite (proj2 (Nat.leb_le _ _)) by lia.
Qed.

Definition dec3 (v : Z) : list Z :=
  if 100 <=? v then [CH0 + v / 100; CH0 + v mod 100 / 10; CH0 + v mod 10]
  else if 10 <=? v then [CH0 + v / 10; CH0 + v mod 10] else [CH0 + v].
Lemma emit_octet_list st v : 0 <= v -> emit_octet st v = emit_list st (dec3 v).
Proof.
  intros Hv. unfold emit_octet, dec3. destruct (100 <=? v); [|destruct (10 <=? v)].
  - cbn [emit_list]. destruct (emit_char st _) as [st1| |]; [|done..]. cbn [mbind res_bind].
    destruct (emit_char st1 _) as [st2| |]; [|done..]. cbn [mbind res_bind].
    rewrite emit_char_list. cbn. replace (v mod 100 mod 10) with (v mod 10) by mach. done.
  - cbn [emit_list]. destruct (emit_char st _) as [st1| |]; [|done..]. cbn [mbind res_bind].
    apply emit_char_list.
  - apply emit_char_list.
Qed.
Lemma dec3_octet v : is_u8 v -> octet_text (dec3 v) /\ decimal_value (dec3 v) 0 = v.
Proof.
  intros Hv. unfold octet_text, dec3, CH0.
  destruct (Z.leb_spec 100 v); [|destruct (Z.leb_spec 10 v)]; cbn; unfold is_digit; mach_unfold.
  all: split_and!; Z.div_mod_to_equations; lia.
Qed.
Lemma dec3_length v : (1 <= length (dec3 v) <= 3)%nat.
Proof. unfold dec3. destruct (100 <=? v); [cbn; lia|]. destruct (10 <=? v); cbn; lia. Qed.

Definition ipv4_text (addr : list Z) : list Z := join DOT (map dec3 addr).
Lemma format_ipv4_loop_list addr : bytes addr -> forall i st,
  format_ipv4_loop addr i st =
  emit_list st (if (0 <? i)%nat then concat (map (fun v => DOT :: dec3 v) addr) else ipv4_text addr).
Proof.
  induction 1 as [|v addr Hv Ha IH]; intros i st; cbn [format_ipv4_loop].
  - by destruct (0 <? i)%nat.
  - assert (0 <= v) by (unfold is_u8 in Hv; lia).
    assert (forall st', format_ipv4_loop addr (S i) st' =
                        emit_list st' (concat (map (fun v => DOT :: dec3 v) addr))) as Hrest
      by (intros; by rewrite IH).
    assert (dec3 v ++ concat (map (fun v => DOT :: dec3 v) addr) = ipv4_text (v :: addr)) as Htext.
    { unfold ipv4_text. clear. revert v. induction addr as [|w addr IH]; intros v; cbn;
        [apply app_nil_r|]. f_equal. cbn in IH. by rewrite <- IH. }
    destruct i as [|i]; cbn [Nat.ltb Nat.leb].
    + cbn [mbind res_bind]. rewrite <- Htext, emit_list_app, emit_octet_list by done.
      destruct (emit_list st (dec3 v)); cbn [mbind res_bind]; auto.
    + cbn [map concat app emit_list]. destruct (emit_char st DOT) as [st'| |]; [|done..].
      cbn [mbind res_bind]. rewrite emit_list_app, emit_octet_list by done.
      destruct (emit_list st' (dec3 v)); cbn [mbind res_bind]; auto.
Qed.


Lemma addr_parse_ipv4_iff (str out : list Z) :
  addr_parse_ipv4 str = Ok out <->
  str <> [] /\ exists segs, length segs = 4%nat /\ str = join DOT segs /\
    Forall octet_text segs /\ out = map (fun s => decimal_value s 0) segs.
Proof.
  unfold addr_parse_ipv4. destruct str as [|c str]; [split; [done | intros [? _]; done]|].
  assert (Hne : c :: str <> []) by done. set (s := c :: str) in *. clearbody s. split.
  - intros H. bind_inv H. destruct (Nat.eqb_spec (length x) 4) as [Hl|]; [|done].
    injection H as <-. apply parse_ipv4_loop_spec in Hx as (seg & segs & Hj & Hd & Hv & Hs & Ho & _);
      [|lia]. split; [done|]. exists (seg :: segs). cbn in Ho. subst x. cbn in Hl.
    rewrite length_map in Hl. split_and!; [done | done | by constructor | done].
  - intros (_ & segs & Hl & Hs & Ho & ->). destruct segs as [|seg segs]; [done|].
    rewrite Forall_cons_iff in Ho. destruct Ho as [[Hd Hv] Ho'].
    rewrite (proj2 (parse_ipv4_loop_spec s [] 0 (map (fun s => decimal_value s 0) (seg :: segs)) ltac:(lia))).
    + cbn [mbind res_bind]. rewrite length_map, Hl. done.
    + exists seg, segs. split_and!; try done. rewrite length_map, Hl. lia.
Qed.

(** * The IPv6 text *)

(** The text of a group list, with the run [best] compressed. *)
Definition ipv6_text (groups : list Z) (best : option (nat * nat)) : list Z :=
  match best with
  | None => join COLON (map group_text groups)
  | Some (s, l) =>
      join COLON (map group_text (take s groups)) ++ [COLON; COLON]
      ++ join COLON (map group_text (drop (s + l) groups))
  end.

(** [zero_run] finds a run of zero groups. *)
Definition zeros_at (groups : list Z) (p : nat * nat) : Prop :=
  (p.1 + p.2 <= length groups)%nat /\
  forall i, (p.1 <= i < p.1 + p.2)%nat -> groups !! i = Some 0.
Lemma zeros_at_app pre post p : zeros_at pre p -> zeros_at (pre ++ post) p.
Proof.
  intros [Hl Hz]. split; [rewrite length_app; lia|]. intros i Hi.
  rewrite lookup_app_l by lia. by apply Hz.
Qed.
Lemma zero_run_spec groups : forall pre best cur,
  zeros_at pre best -> zeros_at pre cur ->
  ((0 < cur.2)%nat -> (cur.1 + cur.2 = length pre)%nat) ->
  zeros_at (pre ++ groups) (zero_run groups (length pre) best cur).
Proof.
  induction groups as [|v groups IH]; intros pre best cur Hb Hc Hcl; cbn [zero_run].
  - rewrite app_nil_r. by destruct (_ <? _)%nat.
  - replace (pre ++ v :: groups) with ((pre ++ [v]) ++ groups) by (by rewrite <- app_assoc).
    replace (S (length pre)) with (length (pre ++ [v])) by (rewrite length_app; cbn; lia).
    destruct (Z.eqb_spec v 0) as [->|Hv].
    + apply IH; [by apply zeros_at_app | |];
        destruct (Nat.eqb_spec cur.2 0); cbn; rewrite ?length_app; cbn.
      * split; [rewrite length_app; cbn; lia|]. intros i Hi. cbn in Hi.
        replace i with (length pre + 0)%nat by lia. by rewrite lookup_app_r, Nat.add_sub_swap, Nat.sub_diag by lia.
      * specialize (Hcl ltac:(lia)). split; [rewrite length_app; cbn; lia|].
        cbn. intros i Hi. destruct (decide (i = length pre)) as [->|].
        { by rewrite lookup_app_r, Nat.sub_diag by lia. }
        rewrite lookup_app_l by lia. apply Hc. lia.
      * lia.
      * specialize (Hcl ltac:(lia)). lia.
    + apply IH; [by destruct (_ <? _)%nat; apply zeros_at_app | | cbn; lia].
      split; [cbn; lia | cbn; lia].
Qed.

(** A run the formatter compresses: at least two of the eight groups. *)
Definition run_ok (best : option (nat * nat)) : Prop :=
  match best with None => True | Some (s, l) => (2 <= l)%nat /\ (s + l <= 8)%nat end.
Definition all_runs : list (option (nat * nat)) :=
  None :: concat (map (fun s => map (fun l => Some (s, (l + 2)%nat)) (seq 0 (7 - s))) (seq 0 7)).
Lemma run_ok_cases best : run_ok best -> In best all_runs.
Proof.
  destruct best as [[s l]|]; [|by left]. intros [Hl Hs].
  right. apply in_concat. eexists. split.
  - apply (in_map_iff _ (seq 0 7)). exists s. split; [done | apply in_seq; lia].
  - apply in_map_iff. exists (l - 2)%nat. split; [do 2 f_equal; lia | apply in_seq; lia].
Qed.

Lemma best_run_spec groups :
  length groups = 8%nat ->
  run_ok (best_run groups) /\ forall p, best_run groups = Some p -> zeros_at groups p.
Proof.
  intros Hg. assert (zeros_at [] (0%nat, 0%nat)) as H0 by (split; cbn; lia).
  pose proof (zero_run_spec groups [] (0%nat, 0%nat) (0%nat, 0%nat) H0 H0 ltac:(cbn; lia)) as Hz.
  cbn [app length] in Hz. unfold best_run. destruct (zero_run groups 0 _ _) as [s l].
  destruct (Nat.leb_spec l 1) as [Hle|Hgt]; cbn [snd] in *.
  - rewrite (proj2 (Nat.leb_le _ _)) by done. split; [exact I | done].
  - rewrite (proj2 (Nat.leb_gt _ _)) by done. split; [|by intros ? [= <-]].
    destruct Hz as [Hle _]. cbn in *. lia.
Qed.

(** The emission loop emits that text: both sides perform the same stores. *)
Ltac emit_steps :=
  repeat (cbn [mbind res_bind emit_list]; rewrite ?emit_list_app;
    match goal with
    | |- ?x = ?x => reflexivity
    | |- context [emit_char ?st ?c] => destruct (emit_char st c) as [?st'| |]
    | |- context [emit_list ?st (group_text ?g)] =>
        destruct (emit_list st (group_text g)) as [?st'| |]
    end).
Lemma format_ipv6_loop_text groups best st :
  length groups = 8%nat -> run_ok best ->
  format_ipv6_loop 9 groups 0 best st = emit_list st (ipv6_text groups best).
Proof.
  intros Hg Hbest%run_ok_cases. do 8 (destruct groups as [|? groups]; [done|]). destruct groups; [|done].
  cbn in Hbest. repeat destruct Hbest as [<-|Hbest]; [..|done].
  all: cbn [format_ipv6_loop ipv6_text map join take drop Nat.ltb Nat.leb Nat.eqb Nat.add
            IPV6_MAX_GROUPS app andb negb rd8 lookup list_lookup].
  all: emit_steps.
Qed.

(** Reading a group back. *)
Lemma hex_char_spec n :
  0 <= n < 16 -> hex_digit (hex_char n) = n /\ hex_char n <> COLON /\ hex_char n <> DOT.
Proof.
  intros Hn. unfold hex_char, hex_digit, COLON, DOT.
  destruct (Z.ltb_spec n 10); split_and!; try lia.
  - replace (48 <=? 48 + n) with true by lia. replace (48 + n <=? 57) with true by lia. cbn. lia.
  - replace (87 + n <=? 57) with false by lia. rewrite andb_false_r.
    replace (97 <=? 87 + n) with true by lia. replace (87 + n <=? 102) with true by lia. cbn. lia.
Qed.
Lemma hex_nibble_eq v sh : 0 <= sh -> hex_nibble v sh = hex_char (v / 2 ^ sh mod 16).
Proof.
  intros. unfold hex_nibble. change 0xF with (Z.ones 4).
  by rewrite Z.land_ones, Z.shiftr_div_pow2 by lia.
Qed.
(** The nibbles of [v], most significant first. *)
Definition nibbles (v : Z) : list Z :=
  if 0x1000 <=? v then [v / 4096 mod 16; v / 256 mod 16; v / 16 mod 16; v mod 16]
  else if 0x100 <=? v then [v / 256 mod 16; v / 16 mod 16; v mod 16]
  else if 0x10 <=? v then [v / 16 mod 16; v mod 16]
  else [v mod 16].
Lemma group_text_nibbles v : group_text v = map hex_char (nibbles v).
Proof.
  unfold group_text, nibbles.
  destruct (0x1000 <=? v); [|destruct (0x100 <=? v); [|destruct (0x10 <=? v)]]; cbn [map];
    by rewrite ?hex_nibble_eq, ?Z.div_1_r by lia.
Qed.
Definition nibble_value (ns : list Z) (val : Z) : Z := foldl (fun acc n => acc * 16 + n) val ns.
Lemma nibbles_spec v :
  is_u16 v -> Forall (fun n => 0 <= n < 16) (nibbles v) /\ nibble_value (nibbles v) 0 = v /\
  (1 <= length (nibbles v) <= 4)%nat.
Proof.
  intros Hv. unfold nibbles, nibble_value.
  destruct (Z.leb_spec 0x1000 v); [|destruct (Z.leb_spec 0x100 v); [|destruct (Z.leb_spec 0x10 v)]];
    (split; [repeat constructor; apply Z.mod_pos_bound; lia | cbn; split; [mach | lia]]).
Qed.
Lemma nibble_value_ge ns val : Forall (fun n => 0 <= n < 16) ns -> 0 <= val -> val <= nibble_value ns val.
Proof.
  intros Hn. revert val. induction Hn as [|n ns Hn Hns IH]; intros val Hv; cbn; [lia|].
  specialize (IH (val * 16 + n)). unfold nibble_value in IH. lia.
Qed.
Definition group_end (rest : list Z) : Prop := rest = [] \/ exists r, rest = COLON :: r.
Lemma parse_hex_nibbles ns rest : forall val k,
  Forall (fun n => 0 <= n < 16) ns -> 0 <= val -> nibble_value ns val <= 0xFFFF ->
  (k + length ns <= 4)%nat -> group_end rest ->
  parse_hex_group (map hex_char ns ++ rest) val k = Ok (nibble_value ns val, (k + length ns)%nat, rest).
Proof.
  induction ns as [|n ns IH]; intros val k Hn Hv Hle Hk Hrest; cbn [map app].
  - cbn. rewrite Nat.add_0_r. by destruct Hrest as [->|[r ->]].
  - rewrite Forall_cons_iff in Hn. destruct Hn as [Hn Hns]. cbn [nibble_value foldl] in Hle.
    destruct (hex_char_spec n Hn) as (Hd & Hc & _). cbn [parse_hex_group].
    apply Z.eqb_neq in Hc as ->. rewrite Hd. replace (n <? 0) with false by lia.
    assert (Hb : val * 16 + n <= 0xFFFF) by (etrans; [apply (nibble_value_ge ns); [done | lia] | done]).
    rewrite u32_id by (rewrite Z.shiftl_mul_pow2 by lia; change (2 ^ 4) with 16; mach).
    rewrite lor_shiftl_add by lia. change (2 ^ 4) with 16.
    replace (0xFFFF <? val * 16 + n) with false by lia. cbn [length] in Hk.
    rewrite (proj2 (Nat.ltb_ge _ _)) by lia. rewrite IH by (try done; lia).
    cbn. do 2 f_equal. f_equal. lia.
Qed.
Lemma parse_group_text v rest :
  is_u16 v -> group_end rest ->
  exists k, parse_hex_group (group_text v ++ rest) 0 0 = Ok (v, S k, rest).
Proof.
  intros Hv Hr. rewrite group_text_nibbles. destruct (nibbles_spec v Hv) as (Hn & Hval & Hl).
  rewrite parse_hex_nibbles by (try done; mach). rewrite Hval. exists (length (nibbles v) - 1)%nat.
  do 2 f_equal. f_equal. lia.
Qed.
Lemma group_text_cons v : is_u16 v -> exists c t, group_text v = c :: t /\ c <> COLON.
Proof.
  intros Hv. rewrite group_text_nibbles. destruct (nibbles_spec v Hv) as (Hn & _ & Hl).
  destruct (nibbles v) as [|n ns]; [cbn in Hl; lia|]. rewrite Forall_cons_iff in Hn.
  eexists _, _. split; [done|]. apply hex_char_spec, Hn.
Qed.
Lemma has_dot_group v rest :
  is_u16 v -> group_end rest -> has_dot (group_text v ++ rest) = false.
Proof.
  intros Hv Hr. rewrite group_text_nibbles. destruct (nibbles_spec v Hv) as (Hn & _ & _).
  induction Hn as [|n ns Hn Hns IH]; cbn.
  - by destruct Hr as [->|[r ->]].
  - destruct (hex_char_spec n Hn) as (_ & Hc%Z.eqb_neq & Hd%Z.eqb_neq). by rewrite Hc, Hd.
Qed.

Section Ipv6Steps.
Context (v : Z) (Hv : is_u16 v).

Lemma ipv6_step_end f gs d :
  (length gs < 8)%nat -> parse_ipv6_loop (S f) (group_text v) gs d = Ok (gs ++ [v], d).
Proof using Hv.
  intros Hg. cbn [parse_ipv6_loop]. unfold IPV6_MAX_GROUPS.
  destruct (group_text_cons v Hv) as (c & t & Heq & _).
  destruct (parse_group_text v [] Hv (or_introl eq_refl)) as [k Hk].
  pose proof (has_dot_group v [] Hv (or_introl eq_refl)) as Hd. rewrite app_nil_r in Hk, Hd.
  rewrite Heq in *. rewrite (proj2 (Nat.leb_gt _ _)), Hd, Hk by lia.
  cbn [mbind res_bind Nat.eqb]. by rewrite u16_id.
Qed.
Lemma ipv6_step_next f w r gs d :
  is_u16 w -> (length gs < 8)%nat ->
  parse_ipv6_loop (S f) (group_text v ++ COLON :: group_text w ++ r) gs d
  = parse_ipv6_loop f (group_text w ++ r) (gs ++ [v]) d.
Proof using Hv.
  intros Hw Hg. cbn [parse_ipv6_loop]. unfold IPV6_MAX_GROUPS.
  assert (He : group_end (COLON :: group_text w ++ r)) by (right; eauto).
  destruct (group_text_cons v Hv) as (c & t & Heq & _).
  destruct (group_text_cons w Hw) as (c' & t' & Heq' & Hc').
  destruct (parse_group_text v _ Hv He) as [k Hk]. pose proof (has_dot_group v _ Hv He) as Hd.
  rewrite Heq, Heq' in *. cbn [app] in *. rewrite (proj2 (Nat.leb_gt _ _)), Hd, Hk by lia.
  cbn [mbind res_bind Nat.eqb]. rewrite u16_id by done. apply Z.eqb_neq in Hc' as ->. done.
Qed.
Lemma ipv6_step_gap f w r gs :
  is_u16 w -> (length gs < 8)%nat ->
  parse_ipv6_loop (S f) (group_text v ++ COLON :: COLON :: group_text w ++ r) gs None
  = parse_ipv6_loop f (group_text w ++ r) (gs ++ [v]) (Some (length (gs ++ [v]))).
Proof using Hv.
  intros Hw Hg. cbn [parse_ipv6_loop]. unfold IPV6_MAX_GROUPS.
  assert (He : group_end (COLON :: COLON :: group_text w ++ r)) by (right; eauto).
  destruct (group_text_cons v Hv) as (c & t & Heq & _).
  destruct (group_text_cons w Hw) as (c' & t' & Heq' & Hc').
  destruct (parse_group_text v _ Hv He) as [k Hk]. pose proof (has_dot_group v _ Hv He) as Hd.
  rewrite Heq, Heq' in *. cbn [app] in *. rewrite (proj2 (Nat.leb_gt _ _)), Hd, Hk by lia.
  cbn [mbind res_bind Nat.eqb]. rewrite u16_id by done. rewrite Z.eqb_refl. done.
Qed.
Lemma ipv6_step_gap_end f gs :
  (length gs < 8)%nat ->
  parse_ipv6_loop (S f) (group_text v ++ [COLON; COLON]) gs None
  = Ok (gs ++ [v], Some (length (gs ++ [v]))).
Proof using Hv.
  intros Hg. cbn [parse_ipv6_loop]. unfold IPV6_MAX_GROUPS.
  assert (He : group_end [COLON; COLON]) by (right; eauto).
  destruct (group_text_cons v Hv) as (c & t & Heq & _).
  destruct (parse_group_text v _ Hv He) as [k Hk]. pose proof (has_dot_group v _ Hv He) as Hd.
  rewrite Heq in *. cbn [app] in *. rewrite (proj2 (Nat.leb_gt _ _)), Hd, Hk by lia.
  cbn [mbind res_bind Nat.eqb]. rewrite u16_id by done. done.
Qed.
End Ipv6Steps.

(** * Parsing the IPv6 text *)

Lemma join_groups_cons v gs : exists r,
  join COLON (map group_text (v :: gs)) = group_text v ++ r /\
  (gs = [] /\ r = [] \/ gs <> [] /\ r = COLON :: join COLON (map group_text gs)).
Proof. destruct gs as [|w gs]; cbn; [exists []; rewrite app_nil_r; auto | eexists; eauto]. Qed.
Lemma join_groups_length gs :
  Forall is_u16 gs -> (length gs <= length (join COLON (map group_text gs)))%nat.
Proof.
  induction 1 as [|v gs Hv Hgs IH]; [done|]. destruct (group_text_cons v Hv) as (c & t & Heq & _).
  destruct (join_groups_cons v gs) as (r & -> & [[-> ->]|[_ ->]]); rewrite length_app, Heq; cbn in *; lia.
Qed.

Lemma ipv6_loop_join gs : forall fuel acc d,
  Forall is_u16 gs -> gs <> [] -> (length acc + length gs <= 8)%nat -> (length gs <= fuel)%nat ->
  parse_ipv6_loop fuel (join COLON (map group_text gs)) acc d = Ok (acc ++ gs, d).
Proof.
  induction gs as [|v gs IH]; intros fuel acc d Hgs Hne Hl Hf; [done|].
  rewrite Forall_cons_iff in Hgs. destruct Hgs as [Hv Hgs]. cbn [length] in *.
  destruct fuel as [|fuel]; [lia|]. destruct gs as [|w gs].
  - cbn. by apply ipv6_step_end; [|cbn in Hl; lia].
  - destruct (join_groups_cons v (w :: gs)) as (r & -> & [[? _]|[_ ->]]); [done|].
    destruct (join_groups_cons w gs) as (r & Hr & _). rewrite Hr.
    rewrite Forall_cons_iff in Hgs. destruct Hgs as [Hw Hgs].
    rewrite ipv6_step_next by (done || lia). rewrite <- Hr, IH; cbn in *.
    + by rewrite <- app_assoc.
    + by constructor.
    + done.
    + rewrite length_app. cbn. lia.
    + lia.
Qed.

Lemma ipv6_loop_gap gs post : forall fuel acc,
  Forall is_u16 (gs ++ post) -> gs <> [] -> (length acc + length (gs ++ post) <= 8)%nat ->
  (length (gs ++ post) <= fuel)%nat ->
  parse_ipv6_loop fuel (join COLON (map group_text gs) ++ [COLON; COLON]
                        ++ join COLON (map group_text post)) acc None
  = Ok (acc ++ gs ++ post, Some (length (acc ++ gs))).
Proof.
  induction gs as [|v gs IH]; intros fuel acc Hgs Hne Hl Hf; [done|].
  cbn [app] in Hgs. rewrite Forall_cons_iff in Hgs. destruct Hgs as [Hv Hgs]. cbn [length app] in *.
  destruct fuel as [|fuel]; [lia|]. destruct gs as [|w gs].
  - cbn [map join app] in *. destruct post as [|w post].
    + cbn [map join]. by apply ipv6_step_gap_end; [|cbn in Hl; lia].
    + destruct (join_groups_cons w post) as (r & Hr & _). rewrite Hr.
      pose proof Hgs as Hgs'. rewrite Forall_cons_iff in Hgs'. destruct Hgs' as [Hw _].
      rewrite ipv6_step_gap by (done || lia). rewrite <- Hr, ipv6_loop_join; try done.
      * by rewrite <- app_assoc.
      * rewrite length_app. cbn in *. lia.
      * cbn in *. lia.
  - destruct (join_groups_cons v (w :: gs)) as (r & -> & [[? _]|[_ ->]]); [done|].
    destruct (join_groups_cons w gs) as (r & Hr & _).
    rewrite <- app_assoc. cbn [app]. rewrite Hr, <- app_assoc.
    cbn [app] in Hgs. pose proof Hgs as Hgs'. rewrite Forall_cons_iff in Hgs'. destruct Hgs' as [Hw _].
    rewrite ipv6_step_next by (done || lia). rewrite app_assoc, <- Hr.
    cbn [app] in IH. rewrite IH; cbn in *; try done.
    + by rewrite <- !app_assoc.
    + rewrite length_app. cbn. lia.
    + lia.
Qed.

Lemma concat_zeros l : concat (map group_octets (replicate l 0)) = replicate (2 * l) 0.
Proof.
  induction l as [|l IH]; [done|]. replace (2 * S l)%nat with (S (S (2 * l))) by lia.
  cbn [replicate map concat]. rewrite IH. done.
Qed.
Lemma zeros_split groups s l :
  zeros_at groups (s, l) -> groups = take s groups ++ replicate l 0 ++ drop (s + l) groups.
Proof.
  intros [Hl Hz]. cbn in *. rewrite <- (take_drop s groups) at 1. f_equal.
  rewrite <- (take_drop l (drop s groups)), drop_drop. f_equal.
  apply list_eq. intros i. destruct (decide (i < l)%nat) as [Hi|Hi].
  - rewrite lookup_take_lt, lookup_drop, lookup_replicate_2 by done. apply Hz. lia.
  - rewrite lookup_take_ge by lia. symmetry. apply lookup_replicate_None. lia.
Qed.

Lemma addr_parse_ipv6_group v r :
  is_u16 v ->
  addr_parse_ipv6 (group_text v ++ r) =
  ('(groups, dcolon) ← parse_ipv6_loop (S (length (group_text v ++ r))) (group_text v ++ r) [] None;
   expand_ipv6 groups dcolon).
Proof.
  intros Hv. destruct (group_text_cons v Hv) as (c & t & Heq & Hc%Z.eqb_neq). rewrite Heq.
  unfold addr_parse_ipv6. cbn [app]. destruct (t ++ r) as [|c1 rest]; [done|]. by rewrite Hc.
Qed.

Lemma ipv6_parse_text groups best :
  length groups = 8%nat -> Forall is_u16 groups -> run_ok best ->
  (forall p, best = Some p -> zeros_at groups p) ->
  addr_parse_ipv6 (ipv6_text groups best) = Ok (concat (map group_octets groups)).
Proof.
  intros Hl Hg Hrun Hz. destruct best as [[s l]|]; cbn [ipv6_text].
  2:{ assert (Hjl := join_groups_length groups Hg). destruct groups as [|v groups]; [done|].
      destruct (join_groups_cons v groups) as (r & Hr & _). rewrite Hr.
      rewrite addr_parse_ipv6_group by (by inv Hg). rewrite <- Hr.
      rewrite ipv6_loop_join by (done || cbn [length] in *; lia). cbn [mbind res_bind app].
      unfold expand_ipv6. rewrite Hl. done. }
  destruct Hrun as [H2 H8]. specialize (Hz _ eq_refl).
  pose proof (zeros_split _ _ _ Hz) as Hsplit.
  set (a := take s groups) in *. set (z := drop (s + l) groups) in *.
  assert (length a = s /\ length z = 8 - (s + l))%nat as [Ha Hlz]
    by (unfold a, z; rewrite length_take, length_drop; lia).
  assert (Forall is_u16 a /\ Forall is_u16 z) as [Fa Fz] by (split; [by apply Forall_take | by apply Forall_drop]).
  assert (expand_ipv6 (a ++ z) (Some s) = Ok (concat (map group_octets groups))) as Hexp.
  { unfold expand_ipv6, IPV6_MAX_GROUPS. rewrite length_app, Ha, Hlz.
    rewrite (proj2 (Nat.ltb_ge _ _)) by lia. rewrite take_app_length', drop_app_length' by done.
    rewrite Hsplit. rewrite !map_app, !concat_app, concat_zeros. do 4 f_equal. lia. }
  clearbody a z. destruct a as [|v a].
  - cbn [map join app]. cbn in Ha. subst s. cbn [length app] in *. unfold addr_parse_ipv6.
    change (COLON =? COLON) with true. cbn [andb]. destruct z as [|w z].
    + cbn [map join]. rewrite Hsplit, app_nil_r, concat_zeros. cbn in Hlz. by replace l with 8%nat by lia.
    + pose proof (join_groups_length (w :: z) Fz) as Hjl.
      destruct (join_groups_cons w z) as (r & Hr & _).
      destruct (group_text_cons w ltac:(by inv Fz)) as (c & t & Hc & _).
      destruct (join COLON (map group_text (w :: z))) as [|c' t'] eqn:Hj; [by rewrite Hc in Hr|].
      rewrite <- Hj, ipv6_loop_join; [exact Hexp | done | done | |];
        rewrite ?Hj; cbn [length] in *; lia.
  - pose proof (join_groups_length (v :: a) Fa). pose proof (join_groups_length z Fz).
    destruct (join_groups_cons v a) as (r & Hr & _).
    rewrite Hr, <- app_assoc, addr_parse_ipv6_group by (by inv Fa).
    rewrite app_assoc, <- Hr, ipv6_loop_gap; try done.
    + cbn [mbind res_bind app]. cbn [app] in Hexp. by rewrite Ha.
    + by apply Forall_app_2.
    + rewrite length_app. cbn [length] in *. lia.
    + rewrite !length_app in *. cbn [length] in *. lia.
Qed.

Lemma decode_groups_length addr : length (decode_groups addr) = 8%nat.
Proof. unfold decode_groups. by rewrite length_map, length_seq. Qed.
Lemma decode_groups_octets addr :
  bytes addr -> length addr = 16%nat ->
  Forall is_u16 (decode_groups addr) /\ concat (map group_octets (decode_groups addr)) = addr.
Proof.
  intros Hb Hl. do 16 (destruct addr as [|? addr]; [done|]). destruct addr; [|done].
  repeat match goal with H : Forall _ (_ :: _) |- _ =>
    rewrite Forall_cons_iff in H; destruct H as [? H] end.
  unfold decode_groups. cbn [map seq IPV6_MAX_GROUPS Nat.mul Nat.add nth concat app].
  assert (forall a b, is_u8 a -> is_u8 b ->
    group_octets (u16 (Z.lor (Z.shiftl a 8) b)) = [a; b]) as Hgo.
  { intros a b Ha Hb'. rewrite lor16 by done. unfold group_octets, val16.
    change 0xFF with (Z.ones 8). rewrite Z.land_ones, Z.shiftr_div_pow2 by lia.
    change (2 ^ 8) with 256. f_equal; [mach|]. f_equal. mach. }
  split; [repeat constructor; apply u16_range|]. by rewrite !Hgo.
Qed.

(** * Properties *)

(** The IPv4 parser accepts exactly the nonempty strings that are four
    dot-separated digit strings, each of value at most 255, and returns their
    values.  A digit string may be empty: ["..."] and ["1..2.3"] are accepted,
    an empty octet reading as 0. *)
Theorem addr_parse_ipv4_language (str out : list Z) :
  addr_parse_ipv4 str = Ok out <->
  str <> [] /\ exists segs, length segs = 4%nat /\ str = join DOT segs /\
    Forall octet_text segs /\ out = map (fun s => decimal_value s 0) segs.
Proof. apply addr_parse_ipv4_iff. Qed.

(** Formatting any IPv4 address into a buffer succeeds exactly when the
    text (7 to 15 characters) and its NUL fit, and parsing the text gives back
    the address. *)
Theorem addr_ipv4_roundtrip (a b c d : Z) (buf : list Z) :
  bytes [a; b; c; d] ->
  let text := ipv4_text [a; b; c; d] in
  addr_format_ipv4 [a; b; c; d] buf =
    (if (length text <? length buf)%nat
     then Ok (text ++ 0 :: drop (S (length text)) buf, length text)
     else Err ADDR_ERR_BUFFER_SMALL) /\
  (7 <= length text <= 15)%nat /\
  addr_parse_ipv4 text = Ok [a; b; c; d].
Proof.
  intros Hb text. split; [|split].
  - unfold addr_format_ipv4. change (rdn [a; b; c; d] 0 4) with (Ok [a; b; c; d]).
    cbn [mbind res_bind]. rewrite format_ipv4_loop_list by done. apply emit_list_nul.
  - unfold text, ipv4_text. cbn. repeat (rewrite ?length_app; cbn [length]).
    pose proof (dec3_length a); pose proof (dec3_length b); pose proof (dec3_length c);
      pose proof (dec3_length d); lia.
  - unfold text, ipv4_text. apply addr_parse_ipv4_iff.
    repeat match goal with H : Forall _ (_ :: _) |- _ =>
      let Hx := fresh in rewrite Forall_cons_iff in H; destruct H as [Hx%dec3_octet H] end.
    destruct_and!. split.
    + intros Hj. cbn in Hj. by apply app_eq_nil in Hj as [_ ?].
    + exists (map dec3 [a; b; c; d]). split_and!; [done | done | | cbn; congruence].
      cbn [map]. rewrite !Forall_cons_iff. auto 6.
Qed.

Lemma addr_ipv4_roundtrip_witness :
  addr_parse_ipv4 (ipv4_text [192; 168; 0; 17]) = Ok [192; 168; 0; 17].
Proof. apply (addr_ipv4_roundtrip 192 168 0 17 []). repeat constructor; unfold is_u8; lia. Defined.

(** Formatting any IPv6 address writes its text, with a longest run of
    zero groups as [::], exactly when the text and its NUL fit the buffer, and
    parsing the text gives back the 16 octets. *)
Theorem addr_ipv6_roundtrip (addr buf : list Z) :
  bytes addr -> length addr = 16%nat ->
  let text := ipv6_text (decode_groups addr) (best_run (decode_groups addr)) in
  addr_format_ipv6 addr buf =
    (if (length text <? length buf)%nat
     then Ok (text ++ 0 :: drop (S (length text)) buf, length text)
     else Err ADDR_ERR_BUFFER_SMALL) /\
  addr_parse_ipv6 text = Ok addr.
Proof.
  intros Hb Hl text. destruct (decode_groups_octets addr Hb Hl) as [Hu16 Hoct].
  assert (Hg : length (decode_groups addr) = 8%nat) by apply decode_groups_length.
  destruct (best_run_spec (decode_groups addr) Hg) as [Hrun Hzr].
  split.
  - unfold addr_format_ipv6. rewrite rdn_Ok by lia. rewrite drop_0, take_ge by lia.
    rewrite bind_Ok. cbv zeta. rewrite (format_ipv6_loop_text _ _ _ Hg Hrun). apply emit_list_nul.
  - unfold text. rewrite (ipv6_parse_text _ _ Hg Hu16 Hrun Hzr). by rewrite Hoct.
Qed.

Lemma addr_ipv6_roundtrip_witness :
  addr_parse_ipv6 (ipv6_text (decode_groups [32; 1; 13; 184; 0; 0; 0; 0; 0; 1; 0; 0; 0; 0; 0; 1])
                     (best_run (decode_groups [32; 1; 13; 184; 0; 0; 0; 0; 0; 1; 0; 0; 0; 0; 0; 1])))
  = Ok [32; 1; 13; 184; 0; 0; 0; 0; 0; 1; 0; 0; 0; 0; 0; 1].
Proof.
  refine (proj2 (addr_ipv6_roundtrip [32; 1; 13; 184; 0; 0; 0; 0; 0; 1; 0; 0; 0; 0; 0; 1] [] _ _));
    [repeat constructor; unfold is_u8; lia | reflexivity].
Defined.
