(* ===== verification/Rtp.v ===== *)
(** RTP packets, [src/nano_rtp.c]: the packing state with its transport-wide
    sequence extension, the packer and the bounds-checked parser, and their
    round trip. *)

From Stdlib Require Import ZArith Lia.
From stdpp Require Import base list numbers.
From S2P Require Import Prelude Wire.

Local Open Scope Z_scope.

Definition RTP_HEADER_SIZE : nat := 12.
Definition RTP_VERSION : Z := 2.
Definition RTP_EXT_PROFILE_ONE_BYTE : Z := 0xBEDE.
Definition RTP_TWCC_EXT_OVERHEAD : nat := 8.

(** [nano_rtp_t] *)
Record nano_rtp : Type := NanoRtp {
  rtp_seq : Z;
  rtp_ssrc : Z;
  rtp_payload_type : Z;
  rtp_marker : Z;
  rtp_twcc_ext_id : Z;
  rtp_twcc_seq : Z
}.

Definition rtp_init (ssrc pt : Z) : nano_rtp := NanoRtp 0 ssrc pt 1 0 0.

Definition rtp_has_twcc (rtp : nano_rtp) : bool :=
  negb (rtp_twcc_ext_id rtp =? 0) && (rtp_twcc_ext_id rtp <=? 14).

(** [payload = None] is a null payload or one already staged in [buf] at the
    body offset: the body octets stay as they are. The result is the state, the
    buffer and [*out_len]. *)
Definition rtp_pack (rtp : nano_rtp) (timestamp : Z) (payload : option (list Z)) (payload_len : nat)
    (buf : list Z) : res (nano_rtp * list Z * nat) :=
  let has_twcc := rtp_has_twcc rtp in
  let ext_bytes := if has_twcc then RTP_TWCC_EXT_OVERHEAD else 0%nat in
  let total := (RTP_HEADER_SIZE + ext_bytes + payload_len)%nat in
  if (length buf <? total)%nat then Err NANORTC_ERR_BUFFER_TOO_SMALL else
  buf ← wr buf 0 [u8 (Z.lor (Z.shiftl RTP_VERSION 6) (if has_twcc then 0x10 else 0))];
  buf ← wr buf 1 [u8 (Z.lor (if rtp_marker rtp =? 0 then 0 else 0x80)
                            (Z.land (rtp_payload_type rtp) 0x7F))];
  buf ← wr buf 2 (be16 (rtp_seq rtp));
  buf ← wr buf 4 (be32 timestamp);
  buf ← wr buf 8 (be32 (rtp_ssrc rtp));
  '(buf, off, twcc_seq) ←
    (if has_twcc then
       buf ← wr buf 12 (be16 RTP_EXT_PROFILE_ONE_BYTE);
       buf ← wr buf 14 (be16 1);
       buf ← wr buf 16 [Z.lor (u8 (Z.shiftl (Z.land (rtp_twcc_ext_id rtp) 0x0F) 4)) 0x01];
       buf ← wr buf 17 (be16 (rtp_twcc_seq rtp));
       buf ← wr buf 19 [0];
       Ok (buf, 20%nat, u16 (rtp_twcc_seq rtp + 1))
     else Ok (buf, RTP_HEADER_SIZE, rtp_twcc_seq rtp));
  buf ← (match payload with
         | Some p => data ← rdn p 0 payload_len; wr buf off data
         | None => Ok buf
         end);
  Ok (NanoRtp (u16 (rtp_seq rtp + 1)) (rtp_ssrc rtp) (rtp_payload_type rtp) 0
              (rtp_twcc_ext_id rtp) twcc_seq, buf, total).

(** The output parameters of [rtp_unpack]: the payload is the offset of
    [*payload] in [data] and [*payload_len]. *)
Record rtp_packet : Type := RtpPacket {
  pkt_pt : Z; pkt_seq : Z; pkt_ts : Z; pkt_ssrc : Z; pkt_off : nat; pkt_len : nat
}.

Definition rtp_unpack (data : list Z) : res rtp_packet :=
  let len := length data in
  if (len <? RTP_HEADER_SIZE)%nat then Err NANORTC_ERR_INVALID_PARAM else
  b0 ← rd8 data 0;
  if negb (Z.land (Z.shiftr b0 6) 0x03 =? RTP_VERSION) then Err NANORTC_ERR_PARSE else
  let cc := Z.to_nat (Z.land b0 0x0F) in
  let header_len := (RTP_HEADER_SIZE + cc * 4)%nat in
  if (len <? header_len)%nat then Err NANORTC_ERR_PARSE else
  header_len ←
    (if negb (Z.land b0 0x10 =? 0) then
       let remaining := (len - header_len)%nat in
       if (remaining <? 4)%nat then Err NANORTC_ERR_PARSE else
       ext_len ← nanortc_read_u16be data (header_len + 2);
       if Z.of_nat ((remaining - 4) / 4) <? ext_len then Err NANORTC_ERR_PARSE
       else Ok (header_len + 4 + Z.to_nat ext_len * 4)%nat
     else Ok header_len);
  let body_len := (len - header_len)%nat in
  body_len ←
    (if negb (Z.land b0 0x20 =? 0) then
       if (body_len =? 0)%nat then Err NANORTC_ERR_PARSE else
       padding_len ← rd8 data (len - 1);
       if (padding_len =? 0) || (Z.of_nat body_len <? padding_len) then Err NANORTC_ERR_PARSE
       else Ok (body_len - Z.to_nat padding_len)%nat
     else Ok body_len);
  b1 ← rd8 data 1;
  seq ← nanortc_read_u16be data 2;
  ts ← nanortc_read_u32be data 4;
  ssrc ← nanortc_read_u32be data 8;
  Ok (RtpPacket (Z.land b1 0x7F) seq ts ssrc header_len body_len).

(** * Lemmas *)

(** The header octets [rtp_pack] stores. *)
Definition rtp_header (rtp : nano_rtp) (timestamp : Z) : list Z :=
  u8 (Z.lor (Z.shiftl RTP_VERSION 6) (if rtp_has_twcc rtp then 0x10 else 0))
  :: u8 (Z.lor (if rtp_marker rtp =? 0 then 0 else 0x80) (Z.land (rtp_payload_type rtp) 0x7F))
  :: be16 (rtp_seq rtp) ++ be32 timestamp ++ be32 (rtp_ssrc rtp)
  ++ (if rtp_has_twcc rtp then
        be16 RTP_EXT_PROFILE_ONE_BYTE ++ be16 1
        ++ [Z.lor (u8 (Z.shiftl (Z.land (rtp_twcc_ext_id rtp) 0x0F) 4)) 0x01]
        ++ be16 (rtp_twcc_seq rtp) ++ [0]
      else []).
Definition rtp_header_len (rtp : nano_rtp) : nat :=
  if rtp_has_twcc rtp then 20%nat else 12%nat.
Definition rtp_next (rtp : nano_rtp) : nano_rtp :=
  NanoRtp (u16 (rtp_seq rtp + 1)) (rtp_ssrc rtp) (rtp_payload_type rtp) 0 (rtp_twcc_ext_id rtp)
          (if rtp_has_twcc rtp then u16 (rtp_twcc_seq rtp + 1) else rtp_twcc_seq rtp).

Lemma rtp_header_length rtp ts : length (rtp_header rtp ts) = rtp_header_len rtp.
Proof. unfold rtp_header, rtp_header_len. by destruct (rtp_has_twcc rtp). Qed.
Lemma rtp_header_bytes rtp ts : bytes (rtp_header rtp ts).
Proof.
  assert (is_u8 (Z.lor (u8 (Z.shiftl (Z.land (rtp_twcc_ext_id rtp) 0x0F) 4)) 0x01))
    by (apply lor_bounded; [lia | apply u8_range | lia]).
  unfold rtp_header, be16, be32. destruct (rtp_has_twcc rtp); bytes_split.
Qed.

(** Packing is one store of the header and one of the payload. *)
Lemma rtp_pack_eq rtp ts payload n buf :
  (rtp_header_len rtp + n <= length buf)%nat ->
  rtp_pack rtp ts payload n buf =
  (buf ← wr buf 0 (rtp_header rtp ts);
   buf ← (match payload with
          | Some p => data ← rdn p 0 n; wr buf (rtp_header_len rtp) data
          | None => Ok buf
          end);
   Ok (rtp_next rtp, buf, (rtp_header_len rtp + n)%nat)).
Proof.
  intros Hl. unfold rtp_pack, rtp_header, rtp_header_len, rtp_next, RTP_HEADER_SIZE, RTP_TWCC_EXT_OVERHEAD in *.
  destruct (rtp_has_twcc rtp).
  - rewrite (proj2 (Nat.ltb_ge _ _)) by lia.
    wr_merge. unfold be16, be32. cbn [app].
    destruct (wr buf 0 _) as [b| |]; [|done..]. by rewrite !bind_Ok.
  - rewrite (proj2 (Nat.ltb_ge _ _)) by lia.
    wr_merge. unfold be16, be32. cbn [app].
    destruct (wr buf 0 _) as [b| |]; [|done..]. by rewrite !bind_Ok.
Qed.

Lemma rtp_pack_small rtp ts payload n buf :
  (length buf < rtp_header_len rtp + n)%nat ->
  rtp_pack rtp ts payload n buf = Err NANORTC_ERR_BUFFER_TOO_SMALL.
Proof.
  intros Hl. unfold rtp_pack, rtp_header_len, RTP_HEADER_SIZE, RTP_TWCC_EXT_OVERHEAD in *.
  destruct (rtp_has_twcc rtp); by rewrite (proj2 (Nat.ltb_lt _ _)) by lia.
Qed.

(** A packet that starts with a header the packer wrote. *)
Lemma rtp_unpack_header rtp ts body :
  rtp_unpack (rtp_header rtp ts ++ body) =
  Ok (RtpPacket (rtp_payload_type rtp mod 128) (u16 (rtp_seq rtp)) (u32 ts) (u32 (rtp_ssrc rtp))
                (rtp_header_len rtp) (length body)).
Proof.
  assert (Hpt : Z.land (u8 (Z.lor (if rtp_marker rtp =? 0 then 0 else 0x80)
                  (Z.land (rtp_payload_type rtp) 0x7F))) 0x7F = rtp_payload_type rtp mod 128).
  { change 0x7F with (Z.ones 7). change 128 with (2 ^ 7). unfold u8. rewrite <- (Z.land_ones _ 8) by lia.
    rewrite <- (Z.land_ones (rtp_payload_type rtp) 7) by lia.
    destruct (rtp_marker rtp =? 0); apply Z.bits_inj'; intros i Hi;
      rewrite ?Z.land_spec, ?Z.lor_spec, ?Z.land_spec, ?Z.bits_0.
    - destruct (Z.testbit (rtp_payload_type rtp) i); cbn; [|done].
      destruct (Z.lt_ge_cases i 7); [by rewrite !Z.ones_spec_low by lia|].
      by rewrite (Z.ones_spec_high 7) by lia.
    - destruct (Z.lt_ge_cases i 7) as [Hi7|]; [|by rewrite (Z.ones_spec_high 7), !andb_false_r by lia].
      rewrite !Z.ones_spec_low, !andb_true_r by lia.
      change 0x80 with (2 ^ 7). by rewrite Z.pow2_bits_false by lia. }
  unfold rtp_unpack. rewrite length_app, rtp_header_length.
  unfold rtp_header, rtp_header_len, RTP_HEADER_SIZE.
  destruct (rtp_has_twcc rtp).
  - rewrite (proj2 (Nat.ltb_ge _ _)) by lia.
    unfold nanortc_read_u16be, nanortc_read_u32be, be16, be32, rd8.
    cbn [app lookup list_lookup Nat.add]. rewrite !bind_Ok. cbv zeta.
    change (Z.land (u8 (Z.lor (Z.shiftl RTP_VERSION 6) 16)) 0x0F) with 0.
    change (Z.land (u8 (Z.lor (Z.shiftl RTP_VERSION 6) 16)) 0x10) with 16.
    change (Z.land (u8 (Z.lor (Z.shiftl RTP_VERSION 6) 16)) 0x20) with 0.
    change (Z.land (Z.shiftr (u8 (Z.lor (Z.shiftl RTP_VERSION 6) 16)) 6) 0x03) with 2.
    change (Z.to_nat 0) with 0%nat. cbn [negb Z.eqb Pos.eqb RTP_VERSION Nat.mul Nat.add].
    rewrite (proj2 (Nat.ltb_ge _ _)) by lia. rewrite (proj2 (Nat.ltb_ge _ _)) by lia.
    cbn [lookup list_lookup]. rewrite !bind_Ok. unfold mret, res_ret.
    autorewrite with wire. change (u16 1) with 1.
    rewrite (proj2 (Z.ltb_ge _ _)).
    2:{ apply (inj_le 1), Nat.div_le_lower_bound; lia. }
    rewrite !bind_Ok. rewrite Hpt. do 2 f_equal. change (Z.to_nat 1) with 1%nat. lia.
  - rewrite (proj2 (Nat.ltb_ge _ _)) by lia.
    unfold nanortc_read_u16be, nanortc_read_u32be, be16, be32, rd8.
    cbn [app lookup list_lookup Nat.add]. rewrite !bind_Ok. cbv zeta.
    change (Z.land (u8 (Z.lor (Z.shiftl RTP_VERSION 6) 0)) 0x0F) with 0.
    change (Z.land (u8 (Z.lor (Z.shiftl RTP_VERSION 6) 0)) 0x10) with 0.
    change (Z.land (u8 (Z.lor (Z.shiftl RTP_VERSION 6) 0)) 0x20) with 0.
    change (Z.land (Z.shiftr (u8 (Z.lor (Z.shiftl RTP_VERSION 6) 0)) 6) 0x03) with 2.
    change (Z.to_nat 0) with 0%nat. cbn [negb Z.eqb Pos.eqb RTP_VERSION Nat.mul Nat.add].
    rewrite (proj2 (Nat.ltb_ge _ _)) by lia. rewrite !bind_Ok. unfold mret, res_ret.
    rewrite ?bind_Ok. autorewrite with wire. rewrite Hpt. do 2 f_equal. lia.
Qed.

(** * Properties *)

(** For every sender state and payload, packing fails exactly when the
    buffer is smaller than header, extension and payload; otherwise it writes
    only that prefix of the buffer, advances the sequence number (and the
    transport-wide one when the extension is on) modulo 2^16, clears the marker,
    and parsing the packet gives back payload type, sequence number, timestamp,
    SSRC and exactly the payload. *)
Theorem rtp_pack_unpack (rtp : nano_rtp) (ts : Z) (payload buf : list Z) :
  let total := (rtp_header_len rtp + length payload)%nat in
  if (length buf <? total)%nat
  then rtp_pack rtp ts (Some payload) (length payload) buf = Err NANORTC_ERR_BUFFER_TOO_SMALL
  else exists buf',
    rtp_pack rtp ts (Some payload) (length payload) buf = Ok (rtp_next rtp, buf', total) /\
    drop total buf' = drop total buf /\ length buf' = length buf /\
    rtp_unpack (take total buf') =
      Ok (RtpPacket (rtp_payload_type rtp mod 128) (u16 (rtp_seq rtp)) (u32 ts)
                    (u32 (rtp_ssrc rtp)) (rtp_header_len rtp) (length payload)) /\
    take (length payload) (drop (rtp_header_len rtp) buf') = payload.
Proof.
  intros total. destruct (Nat.ltb_spec (length buf) total) as [Hl|Hl]; [by apply rtp_pack_small|].
  assert (Hh := rtp_header_length rtp ts).
  exists ((rtp_header rtp ts ++ payload) ++ drop total buf).
  rewrite rtp_pack_eq by done. rewrite wr_0, bind_Ok by lia.
  rewrite rdn_Ok, bind_Ok, drop_0, (take_ge payload) by lia.
  rewrite wr_append, bind_Ok, drop_drop by (rewrite ?length_drop; lia).
  replace (length payload + length (rtp_header rtp ts))%nat with total by lia.
  replace (length (rtp_header rtp ts) + length payload)%nat with total by lia.
  assert (Ht : length (rtp_header rtp ts ++ payload) = total) by (rewrite length_app; lia).
  rewrite drop_app_length', take_app_length' by done.
  split_and!; [done | done | | |].
  - rewrite length_app, length_drop. lia.
  - apply rtp_unpack_header.
  - by rewrite <- !app_assoc, drop_app_length', take_app_length.
Qed.

(** On every octet string the parser reads only inside it, and a packet
    it accepts has version 2 and a payload inside the packet, after the fixed
    header. *)
Theorem rtp_unpack_safe (data : list Z) :
  bytes data ->
  wp (rtp_unpack data) (fun p =>
    (RTP_HEADER_SIZE <= pkt_off p)%nat /\ (pkt_off p + pkt_len p <= length data)%nat /\
    nth 0 data 0 / 64 = RTP_VERSION /\
    0 <= pkt_pt p < 128 /\ is_u16 (pkt_seq p) /\ is_u32 (pkt_ts p) /\ is_u32 (pkt_ssrc p)).
Proof.
  intros Hb. unfold rtp_unpack, RTP_HEADER_SIZE. wp_wire; [wp_wire|]. wp_wire. wp_wire; [lia|].
  set (b0 := nth 0 data 0) in *. wp_wire; [wp_wire|].
  assert (b0 / 64 = RTP_VERSION) as Hver.
  { rewrite <- Hg0, Z.shiftr_div_pow2 by lia. change 3 with (Z.ones 2). rewrite Z.land_ones by lia.
    change (2 ^ 6) with 64. change (2 ^ 2) with 4. mach. }
  cbv zeta. set (h := (12 + Z.to_nat (Z.land b0 15) * 4)%nat). assert (12 <= h)%nat by lia. clearbody h.
  wp_wire; [wp_wire|]. wp_wire.
  eapply wp_mono with (P := fun h' => (h <= h' <= length data)%nat).
  { repeat wp_wire; try lia.
    pose proof (Nat.div_mod_eq (length data - h - 4) 4). unfold is_u16 in *. lia. }
  intros h' Hh'. wp_wire. eapply wp_mono with (P := fun n => (h' + n <= length data)%nat).
  { repeat wp_wire; try lia. }
  intros n Hn. repeat wp_wire; try lia. cbn.
  split_and!; try lia; try done.
  - apply Z.land_nonneg. lia.
  - apply (land_bounded_r 7); lia.
Qed.
Lemma rtp_unpack_safe_witness :
  wp (rtp_unpack (128 :: 96 :: replicate 10 0 ++ [1; 2])) (fun p =>
    (RTP_HEADER_SIZE <= pkt_off p)%nat /\ (pkt_off p + pkt_len p <= 14)%nat /\
    nth 0 (128 :: 96 :: replicate 10 0 ++ [1; 2]) 0 / 64 = RTP_VERSION /\
    0 <= pkt_pt p < 128 /\ is_u16 (pkt_seq p) /\ is_u32 (pkt_ts p) /\ is_u32 (pkt_ssrc p)).
Proof. apply rtp_unpack_safe. bytes_lit. Defined.
