(* ===== verification/AnnexB.v ===== *)
(** Annex-B scanner, [src/nano_annex_b.c]: the start-code search over a byte
    stream, and the proof that walking a stream of well-formed NAL units returns
    exactly those units. *)

From Stdlib Require Import ZArith Lia.
From stdpp Require Import base list numbers.
From S2P Require Import Prelude Wire.

Local Open Scope Z_scope.

(** * The scanner *)

(** The start-code test at [i], when [i + 2 < len]: [Some 3] for 00 00 01,
    [Some 4] for 00 00 00 01. *)
Definition start_code_at (data : list Z) (i : nat) : res (option nat) :=
  a ← rd8 data i;
  if negb (a =? 0) then Ok None else
  b ← rd8 data (i + 1);
  if negb (b =? 0) then Ok None else
  c ← rd8 data (i + 2);
  if c =? 1 then Ok (Some 3%nat) else
  if (i + 3 <? length data)%nat && (c =? 0) then
    d ← rd8 data (i + 3);
    Ok (if d =? 1 then Some 4%nat else None)
  else Ok None.

(** [while (i + 2 < len)], leaving [i] after the first start code. *)
Fixpoint skip_start_code (fuel : nat) (data : list Z) (i : nat) : res nat :=
  match fuel with
  | O => Fault
  | S fuel =>
      if (i + 2 <? length data)%nat then
        sc ← start_code_at data i;
        match sc with
        | Some n => Ok (i + n)%nat
        | None => skip_start_code fuel data (i + 1)
        end
      else Ok i
  end.
(** [while (j + 2 < len)], leaving [j] at the next start code, with the
    [if (j + 2 >= len) j = len] that follows. *)
Fixpoint next_start_code (fuel : nat) (data : list Z) (j : nat) : res nat :=
  match fuel with
  | O => Fault
  | S fuel =>
      if (j + 2 <? length data)%nat then
        sc ← start_code_at data j;
        match sc with
        | Some _ => Ok j
        | None => next_start_code fuel data (j + 1)
        end
      else Ok (length data)
  end.
(** [while (end > i && data[end - 1] == 0) end--]; recursion on [end - i]. *)
Fixpoint strip_zeros (data : list Z) (i n : nat) : res nat :=
  match n with
  | O => Ok i
  | S m =>
      c ← rd8 data (i + m);
      if c =? 0 then strip_zeros data i m else Ok (i + n)%nat
  end.

(** Returns the unit's start and length and the advanced [*offset]. *)
Definition nano_annex_b_find_nal (data : list Z) (offset : nat) : res (option (nat * nat * nat)) :=
  i ← skip_start_code (S (length data)) data offset;
  if (length data <=? i)%nat then Ok None else
  j ← next_start_code (S (length data)) data i;
  e ← strip_zeros data i (j - i);
  Ok (Some (i, (e - i)%nat, j)).

(** The walk a caller makes (the loop of [nanortc_send_video] in
    [src/nano_rtc_media.c]): every unit until none is left. *)
Fixpoint annex_b_nals (fuel : nat) (data : list Z) (offset : nat) : res (list (list Z)) :=
  match fuel with
  | O => Ok []
  | S fuel =>
      r ← nano_annex_b_find_nal data offset;
      match r with
      | None => Ok []
      | Some (start, n, offset) =>
          nal ← rdn data start n;
          rest ← annex_b_nals fuel data offset;
          Ok (nal :: rest)
      end
  end.

(** * Streams *)

(** A unit as the standard has it: nonempty, not ending in a zero octet, and
    with emulation prevention, so that 00 00 01 does not occur in it. *)
Definition no_start_code (nal : list Z) : Prop :=
  forall p, nal !! p = Some 0 -> nal !! (p + 1)%nat = Some 0 -> nal !! (p + 2)%nat <> Some 1.
Definition nal_ok (nal : list Z) : Prop :=
  (exists front c, nal = front ++ [c] /\ c <> 0) /\ no_start_code nal.
Definition start_code (four : bool) : list Z := if four then [0; 0; 0; 1] else [0; 0; 1].
Definition annex_b_stream (items : list (bool * list Z)) : list Z :=
  concat (map (fun it => start_code it.1 ++ it.2) items).

(** * Lemmas *)

Lemma start_code_at_wp data i :
  (i + 2 < length data)%nat ->
  wp (start_code_at data i) (fun sc => forall n, sc = Some n -> (3 <= n)%nat /\ (i + n <= length data)%nat).
Proof.
  intros Hi. unfold start_code_at. rewrite !(rd8_Ok data i), !(rd8_Ok data (i + 1)),
    !(rd8_Ok data (i + 2)) by lia. rewrite !bind_Ok.
  repeat (apply wp_if; intros ?); try (apply wp_Ok; naive_solver lia).
  bool_facts. rewrite rd8_Ok by lia. apply wp_Ok. destruct (_ =? _); naive_solver lia.
Qed.
Lemma skip_start_code_wp fuel data i :
  (length data < i + fuel)%nat -> (i <= length data)%nat ->
  wp (skip_start_code fuel data i) (fun i' => (i <= i' <= length data)%nat).
Proof.
  revert i. induction fuel as [|fuel IH]; intros i Hf Hi; [lia|]. cbn [skip_start_code].
  apply wp_if; intros; bool_facts; [|apply wp_Ok; lia]. apply wp_bind.
  eapply wp_mono; [by apply start_code_at_wp|]. intros [n|] Hn.
  - destruct (Hn n eq_refl). apply wp_Ok. lia.
  - eapply wp_mono; [apply IH; lia|]. cbn. lia.
Qed.
Lemma next_start_code_wp fuel data j :
  (length data < j + fuel)%nat -> (j <= length data)%nat ->
  wp (next_start_code fuel data j) (fun j' => (j <= j' <= length data)%nat).
Proof.
  revert j. induction fuel as [|fuel IH]; intros j Hf Hj; [lia|]. cbn [next_start_code].
  apply wp_if; intros; bool_facts; [|apply wp_Ok; lia]. apply wp_bind.
  eapply wp_mono; [by apply start_code_at_wp|]. intros [n|] _.
  - apply wp_Ok. lia.
  - eapply wp_mono; [apply IH; lia|]. cbn. lia.
Qed.
Lemma strip_zeros_wp data i n :
  (i + n <= length data)%nat -> wp (strip_zeros data i n) (fun e => (i <= e <= i + n)%nat).
Proof.
  induction n as [|n IH]; intros Hn; cbn [strip_zeros]; [apply wp_Ok; lia|].
  rewrite rd8_Ok, bind_Ok by lia. apply wp_if; intros _; [|apply wp_Ok; lia].
  eapply wp_mono; [apply IH; lia|]. cbn. lia.
Qed.

(** At a start code the test answers, before it (inside a unit) it does not. *)
Lemma start_code_at_code pre four rest :
  start_code_at (pre ++ start_code four ++ rest) (length pre) =
  Ok (Some (length (start_code four))).
Proof.
  unfold start_code_at. replace (rd8 (pre ++ start_code four ++ rest) (length pre))
    with (rd8 (pre ++ start_code four ++ rest) (length pre + 0)) by (by rewrite Nat.add_0_r).
  rewrite !rd8_app_r, length_app. destruct four; unfold rd8; cbn [start_code app lookup list_lookup].
  - rewrite !bind_Ok. cbn [Z.eqb negb length]. by rewrite (proj2 (Nat.ltb_lt _ _)) by lia.
  - rewrite !bind_Ok. done.
Qed.
Lemma start_code_at_data data i :
  (i + 2 < length data)%nat ->
  (data !! i = Some 0 -> data !! (i + 1)%nat = Some 0 -> data !! (i + 2)%nat <> Some 1) ->
  (data !! i = Some 0 -> data !! (i + 1)%nat = Some 0 -> data !! (i + 2)%nat = Some 0 ->
   data !! (i + 3)%nat <> Some 1) ->
  start_code_at data i = Ok None.
Proof.
  intros Hi H3 H4. unfold start_code_at, rd8.
  destruct (data !! i) as [a|] eqn:Ha; [|apply lookup_ge_None in Ha; lia]. rewrite bind_Ok.
  destruct (Z.eqb_spec a 0) as [->|]; [|done]. cbn [negb].
  destruct (data !! (i + 1)%nat) as [b|] eqn:Hb; [|apply lookup_ge_None in Hb; lia]. rewrite bind_Ok.
  destruct (Z.eqb_spec b 0) as [->|]; [|done]. cbn [negb].
  destruct (data !! (i + 2)%nat) as [c|] eqn:Hc; [|apply lookup_ge_None in Hc; lia]. rewrite bind_Ok.
  destruct (Z.eqb_spec c 1) as [->|]; [naive_solver|].
  destruct (Nat.ltb_spec (i + 3) (length data)); [|done].
  destruct (Z.eqb_spec c 0) as [->|]; [|done]. cbn [andb].
  destruct (data !! (i + 3)%nat) as [d|] eqn:Hd; [|apply lookup_ge_None in Hd; lia]. rewrite bind_Ok.
  destruct (Z.eqb_spec d 1) as [->|]; [naive_solver | done].
Qed.

(** The rest of a stream after a unit: the end, or another start code. *)
Definition stream_rest (rest : list Z) : Prop :=
  rest = [] \/ exists four r, rest = start_code four ++ r.

(** Inside a unit there is no start code, whatever follows the unit. *)
Section Unit.
Context (pre nal rest : list Z) (Hnal : nal_ok nal).
Let data := pre ++ nal ++ rest.

Lemma nal_last p : (p + 1 = length pre + length nal)%nat -> data !! p <> Some 0.
Proof using Hnal.
  destruct Hnal as [(front & c & -> & Hc) _]. rewrite length_app. cbn. intros Hp.
  unfold data. rewrite lookup_app_r by lia. rewrite lookup_app_l by (rewrite length_app; cbn; lia).
  rewrite lookup_app_r by lia. replace (p - length pre - length front)%nat with 0%nat by lia.
  cbn. congruence.
Qed.
Lemma nal_no_code p :
  (length pre <= p < length pre + length nal)%nat ->
  data !! p = Some 0 -> data !! (p + 1)%nat = Some 0 -> data !! (p + 2)%nat <> Some 1.
Proof using Hnal.
  intros Hp H0 H1 H2.
  destruct (decide (p + 1 = length pre + length nal)%nat) as [He|]; [by apply (nal_last p)|].
  destruct (decide (p + 2 = length pre + length nal)%nat) as [He|]; [by apply (nal_last (p + 1)); [lia|]|].
  unfold data in *. rewrite lookup_app_r, lookup_app_l in H0, H1, H2 by lia.
  destruct Hnal as [_ Hno]. apply (Hno (p - length pre)%nat); [done | |].
  - rewrite <- H1. f_equal. lia.
  - rewrite <- H2. f_equal. lia.
Qed.
Lemma nal_no_start_code i :
  (length pre <= i < length pre + length nal)%nat -> (i + 2 < length data)%nat ->
  start_code_at data i = Ok None.
Proof using Hnal.
  intros Hi Hl. apply start_code_at_data; [done | by apply nal_no_code |].
  intros H0 H1 H2. destruct (decide (i + 1 = length pre + length nal)%nat); [by apply nal_last in H0|].
  replace (i + 2)%nat with (i + 1 + 1)%nat in H2 by lia.
  replace (i + 3)%nat with (i + 1 + 2)%nat by lia. apply nal_no_code; [lia | done..].
Qed.

Lemma next_start_code_nal fuel : stream_rest rest -> forall i,
  (length pre <= i <= length pre + length nal)%nat -> (length data < i + fuel)%nat ->
  next_start_code fuel data i = Ok (length pre + length nal)%nat.
Proof using Hnal.
  intros Hrest. induction fuel as [|fuel IH]; intros i Hi Hf.
  { unfold data in Hf. rewrite !length_app in Hf. lia. }
  assert (Hlen : length data = (length pre + length nal + length rest)%nat)
    by (unfold data; rewrite !length_app; lia).
  cbn [next_start_code]. rewrite Hlen in *.
  destruct (Nat.ltb_spec (i + 2) (length pre + length nal + length rest)) as [Hl|Hl].
  - destruct (decide (i = length pre + length nal)%nat) as [->|Hne].
    + destruct Hrest as [Hr|(four & r & Hr)]; [rewrite Hr in Hl; cbn in Hl; lia|].
      unfold data. rewrite Hr, app_assoc, <- length_app, start_code_at_code. done.
    + rewrite nal_no_start_code by lia. rewrite bind_Ok. apply IH; lia.
  - destruct Hrest as [Hr|(four & r & Hr)]; rewrite Hr in *.
    + cbn [length]. f_equal. lia.
    + rewrite length_app in Hl. destruct four; cbn in Hl; lia.
Qed.

Lemma strip_zeros_nal : strip_zeros data (length pre) (length nal) = Ok (length pre + length nal)%nat.
Proof using Hnal.
  pose proof nal_last as Hlast. destruct (length nal) as [|n] eqn:Hn; cbn [strip_zeros]; [by rewrite Nat.add_0_r|].
  specialize (Hlast (length pre + n)%nat ltac:(lia)). unfold rd8.
  destruct (data !! (length pre + n)%nat) as [c|] eqn:Hc.
  - rewrite bind_Ok. destruct (Z.eqb_spec c 0) as [->|]; done.
  - apply lookup_ge_None in Hc. unfold data in Hc. rewrite !length_app in Hc. lia.
Qed.
End Unit.

Lemma nal_ok_length nal : nal_ok nal -> (0 < length nal)%nat.
Proof. intros [(front & c & -> & _) _]. rewrite length_app. cbn. lia. Qed.

(** One call at a start code returns the unit after it. *)
Lemma find_nal_spec pre four nal rest :
  nal_ok nal -> stream_rest rest ->
  nano_annex_b_find_nal (pre ++ start_code four ++ nal ++ rest) (length pre) =
  Ok (Some (length (pre ++ start_code four), length nal, length (pre ++ start_code four ++ nal))).
Proof.
  intros Hnal Hrest. unfold nano_annex_b_find_nal. pose proof (nal_ok_length nal Hnal) as Hn.
  cbn [skip_start_code]. rewrite start_code_at_code, bind_Ok.
  rewrite (proj2 (Nat.ltb_lt _ _)) by (rewrite !length_app; destruct four; cbn; lia).
  rewrite bind_Ok, <- length_app. rewrite (app_assoc pre). set (p := pre ++ start_code four).
  rewrite (proj2 (Nat.leb_gt _ _)) by (rewrite !length_app; lia).
  rewrite (next_start_code_nal p nal rest Hnal _ Hrest) by (rewrite ?length_app; lia).
  rewrite bind_Ok, Nat.add_comm, Nat.add_sub, strip_zeros_nal, bind_Ok by done.
  rewrite Nat.add_comm, Nat.add_sub. unfold p. by rewrite app_assoc, (length_app (pre ++ _)), Nat.add_comm.
Qed.

Lemma annex_b_stream_rest items : Forall (fun it => nal_ok it.2) items -> stream_rest (annex_b_stream items).
Proof.
  destruct items as [|[four nal] items]; [by left|]. intros _. right. exists four.
  eexists. unfold annex_b_stream. cbn [map concat fst snd]. by rewrite <- app_assoc.
Qed.

Lemma annex_b_nals_walk items : forall pre fuel,
  Forall (fun it => nal_ok it.2) items -> (length items < fuel)%nat ->
  annex_b_nals fuel (pre ++ annex_b_stream items) (length pre) = Ok (map snd items).
Proof.
  induction items as [|[four nal] items IH]; intros pre fuel Hok Hf; (destruct fuel as [|fuel]; [lia|]);
    cbn [annex_b_nals].
  - unfold nano_annex_b_find_nal, annex_b_stream. cbn [map concat]. rewrite app_nil_r.
    cbn [skip_start_code]. rewrite (proj2 (Nat.ltb_ge _ _)) by lia. rewrite bind_Ok.
    by rewrite Nat.leb_refl.
  - rewrite Forall_cons_iff in Hok. destruct Hok as [Hn Hok]. cbn [snd] in Hn.
    change (annex_b_stream ((four, nal) :: items)) with ((start_code four ++ nal) ++ annex_b_stream items).
    rewrite <- app_assoc, find_nal_spec by (done || by apply annex_b_stream_rest). rewrite bind_Ok.
    rewrite (app_assoc pre), rdn_mid, bind_Ok by done.
    replace ((pre ++ start_code four) ++ nal ++ annex_b_stream items)
      with ((pre ++ start_code four ++ nal) ++ annex_b_stream items) by (by rewrite <- !app_assoc).
    rewrite IH by (done || cbn in Hf; lia). done.
Qed.

(** * Properties *)

(** Walking a stream made of well-formed NAL units, each after a 3- or
    4-octet start code, returns exactly those units, in order, without reading
    outside the stream, whatever their number and the mix of start codes. *)
Theorem annex_b_walk_stream (items : list (bool * list Z)) :
  Forall (fun it => nal_ok it.2) items ->
  annex_b_nals (S (length items)) (annex_b_stream items) 0 = Ok (map snd items).
Proof. intros Hok. apply (annex_b_nals_walk items [] _ Hok). lia. Qed.

Lemma annex_b_walk_stream_witness :
  annex_b_nals 3 (annex_b_stream [(true, [103; 66; 0; 0; 3; 1]); (false, [104; 0; 206])]) 0 =
  Ok [[103; 66; 0; 0; 3; 1]; [104; 0; 206]].
Proof.
  refine (annex_b_walk_stream [(true, [103; 66; 0; 0; 3; 1]); (false, [104; 0; 206])] _).
  repeat apply List.Forall_cons; [..|apply List.Forall_nil]; (split; [|intros p]); cbn.
  - by exists [103; 66; 0; 0; 3], 1.
  - do 6 (destruct p as [|p]; [cbn; congruence|]). done.
  - by exists [104; 0], 206.
  - do 3 (destruct p as [|p]; [cbn; congruence|]). done.
Defined.

(** On any octet string and cursor inside it the scanner reads only
    inside it, and a unit it returns lies inside the string, the cursor moving
    to at least the unit's end. *)
Theorem annex_b_find_nal_safe (data : list Z) (offset : nat) :
  (offset <= length data)%nat ->
  wp (nano_annex_b_find_nal data offset) (fun r =>
    forall start n offset', r = Some (start, n, offset') ->
      (offset <= start < length data)%nat /\ (start + n <= offset' <= length data)%nat).
Proof.
  intros Ho. unfold nano_annex_b_find_nal. apply wp_bind.
  eapply wp_mono; [apply skip_start_code_wp; lia|]. intros i Hi.
  wp_step; [apply wp_Ok; done|]. wp_step.
  bool_facts. eapply wp_mono; [apply next_start_code_wp; lia|]. intros j Hj. cbn beta in Hj.
  wp_step.
  eapply wp_mono; [apply strip_zeros_wp; lia|]. intros e He. cbn beta in *.
  wp_step. intros ? ? ? [= <- <- <-]. lia.
Qed.
Lemma annex_b_find_nal_safe_witness :
  wp (nano_annex_b_find_nal [0; 0; 1; 9; 9] 0) (fun r =>
    forall start n offset', r = Some (start, n, offset') ->
      (0 <= start < 5)%nat /\ (start + n <= offset' <= 5)%nat).
Proof. apply (annex_b_find_nal_safe [0; 0; 1; 9; 9] 0). cbn. lia. Defined.
