(* ===== verification/Rtcp.v ===== *)
(** RTCP reports and feedback, [src/nano_rtcp.c]: the Sender Report, Receiver
    Report, generic NACK and PLI generators and the parser, with the round trip
    of each packet type. *)

From Stdlib Require Import ZArith Lia.
From stdpp Require Import base list numbers.
From S2P Require Import Prelude Wire.

Local Open Scope Z_scope.

Definition RTCP_SR : Z := 200.
Definition RTCP_RR : Z := 201.
Definition RTCP_RTPFB : Z := 205.
Definition RTCP_PSFB : Z := 206.
Definition RTCP_HEADER_SIZE : nat := 8.
Definition RTCP_SR_SIZE : nat := 28.
Definition RTCP_SR_WITH_RB_SIZE : nat := 52.
Definition RTCP_RR_SIZE : nat := 32.
Definition RTCP_NACK_SIZE : nat := 16.
Definition RTCP_PLI_SIZE : nat := 12.
Definition RTCP_VERSION : Z := 2.

(** [nano_rtcp_t] *)
Record nano_rtcp : Type := NanoRtcp {
  rtcp_ssrc : Z;
  rtcp_packets_sent : Z;
  rtcp_octets_sent : Z;
  rtcp_packets_received : Z;
  rtcp_packets_lost : Z;
  rtcp_remote_ssrc : Z;
  rtcp_last_sr_ntp : Z;
  rtcp_last_sr_recv_ms : Z;
  rtcp_last_sr_recv_valid : bool;
  rtcp_max_seq : Z;
  rtcp_jitter : Z
}.
Definition rtcp_init (ssrc : Z) : nano_rtcp := NanoRtcp ssrc 0 0 0 0 0 0 0 false 0 0.

(** [nano_rtcp_info_t] *)
Record nano_rtcp_info : Type := RtcpInfo {
  info_type : Z; info_ssrc : Z;
  info_ntp_sec : Z; info_ntp_frac : Z; info_rtp_ts : Z; info_sr_packets : Z; info_sr_octets : Z;
  info_nack_media_ssrc : Z; info_nack_pid : Z; info_nack_blp : Z;
  info_psfb_media_ssrc : Z;
  info_rb_valid : bool; info_rb_source_ssrc : Z; info_rb_fraction_lost : Z
}.

(** * Generators *)

Definition write_header (buf : list Z) (rc_fmt pt length_words ssrc : Z) : res (list Z) :=
  buf ← wr buf 0 [u8 (Z.lor (Z.shiftl RTCP_VERSION 6) (Z.land rc_fmt 0x1F))];
  buf ← wr buf 1 [pt];
  buf ← wr buf 2 (be16 length_words);
  wr buf 4 (be32 ssrc).

Definition rtcp_generate_sr (rtcp : nano_rtcp) (ntp_sec ntp_frac rtp_ts : Z) (buf : list Z)
  : res (list Z * nat) :=
  if (length buf <? RTCP_SR_SIZE)%nat then Err NANORTC_ERR_BUFFER_TOO_SMALL else
  buf ← write_header buf 0 RTCP_SR 6 (rtcp_ssrc rtcp);
  buf ← wr buf 8 (be32 ntp_sec);
  buf ← wr buf 12 (be32 ntp_frac);
  buf ← wr buf 16 (be32 rtp_ts);
  buf ← wr buf 20 (be32 (rtcp_packets_sent rtcp));
  buf ← wr buf 24 (be32 (rtcp_octets_sent rtcp));
  Ok (buf, RTCP_SR_SIZE).

(** The division faults on a zero divisor. *)
Definition udiv (a b : Z) : res Z := if b =? 0 then Fault else Ok (a / b).
Definition rr_fraction_lost (rtcp : nano_rtcp) : res Z :=
  if (0 <? rtcp_packets_received rtcp) && (0 <? rtcp_packets_lost rtcp) then
    let expected := u32 (rtcp_packets_received rtcp + rtcp_packets_lost rtcp) in
    q ← udiv (u32 (rtcp_packets_lost rtcp * 256)) expected;
    Ok (u8 q)
  else Ok 0.
Definition rtcp_generate_rr (rtcp : nano_rtcp) (remote_ssrc : Z) (buf : list Z) : res (list Z * nat) :=
  if (length buf <? RTCP_RR_SIZE)%nat then Err NANORTC_ERR_BUFFER_TOO_SMALL else
  buf ← write_header buf 1 RTCP_RR 7 (rtcp_ssrc rtcp);
  buf ← wr buf 8 (be32 remote_ssrc);
  fraction_lost ← rr_fraction_lost rtcp;
  buf ← wr buf 12 [fraction_lost];
  let clost := Z.land (rtcp_packets_lost rtcp) 0x00FFFFFF in
  buf ← wr buf 13 [u8 (Z.shiftr clost 16)];
  buf ← wr buf 14 [u8 (Z.shiftr clost 8)];
  buf ← wr buf 15 [u8 clost];
  buf ← wr buf 16 (be32 (rtcp_max_seq rtcp));
  buf ← wr buf 20 (be32 (rtcp_jitter rtcp));
  buf ← wr buf 24 (be32 (rtcp_last_sr_ntp rtcp));
  buf ← wr buf 28 (be32 0);
  Ok (buf, RTCP_RR_SIZE).

Definition rtcp_generate_nack (ssrc media_ssrc seq blp : Z) (buf : list Z) : res (list Z * nat) :=
  if (length buf <? RTCP_NACK_SIZE)%nat then Err NANORTC_ERR_BUFFER_TOO_SMALL else
  buf ← write_header buf 1 RTCP_RTPFB 3 ssrc;
  buf ← wr buf 8 (be32 media_ssrc);
  buf ← wr buf 12 (be16 seq);
  buf ← wr buf 14 (be16 blp);
  Ok (buf, RTCP_NACK_SIZE).

Definition rtcp_generate_pli (sender_ssrc media_ssrc : Z) (buf : list Z) : res (list Z * nat) :=
  if (length buf <? RTCP_PLI_SIZE)%nat then Err NANORTC_ERR_BUFFER_TOO_SMALL else
  buf ← write_header buf 1 RTCP_PSFB 2 sender_ssrc;
  buf ← wr buf 8 (be32 media_ssrc);
  Ok (buf, RTCP_PLI_SIZE).

(** * Parser *)

Definition rtcp_parse (data : list Z) : res nano_rtcp_info :=
  let len := length data in
  if (len <? RTCP_HEADER_SIZE)%nat then Err NANORTC_ERR_INVALID_PARAM else
  b0 ← rd8 data 0;
  if negb (Z.land (Z.shiftr b0 6) 0x03 =? RTCP_VERSION) then Err NANORTC_ERR_PARSE else
  type ← rd8 data 1;
  length_words ← nanortc_read_u16be data 2;
  let pkt_size := Z.to_nat (u32 ((length_words + 1) * 4)) in
  if (len <? pkt_size)%nat then Err NANORTC_ERR_PARSE else
  ssrc ← nanortc_read_u32be data 4;
  let rc_count := Z.land b0 0x1F in
  if type =? RTCP_SR then
    if (pkt_size <? RTCP_SR_SIZE)%nat then Err NANORTC_ERR_PARSE else
    ntp_sec ← nanortc_read_u32be data 8;
    ntp_frac ← nanortc_read_u32be data 12;
    rtp_ts ← nanortc_read_u32be data 16;
    sr_packets ← nanortc_read_u32be data 20;
    sr_octets ← nanortc_read_u32be data 24;
    if (1 <=? rc_count) && (RTCP_SR_WITH_RB_SIZE <=? pkt_size)%nat then
      rb_source_ssrc ← nanortc_read_u32be data 28;
      rb_fraction_lost ← rd8 data 32;
      Ok (RtcpInfo type ssrc ntp_sec ntp_frac rtp_ts sr_packets sr_octets 0 0 0 0
                   true rb_source_ssrc rb_fraction_lost)
    else Ok (RtcpInfo type ssrc ntp_sec ntp_frac rtp_ts sr_packets sr_octets 0 0 0 0 false 0 0)
  else if type =? RTCP_RR then
    if (1 <=? rc_count) && (RTCP_RR_SIZE <=? pkt_size)%nat then
      rb_source_ssrc ← nanortc_read_u32be data 8;
      rb_fraction_lost ← rd8 data 12;
      Ok (RtcpInfo type ssrc 0 0 0 0 0 0 0 0 0 true rb_source_ssrc rb_fraction_lost)
    else Ok (RtcpInfo type ssrc 0 0 0 0 0 0 0 0 0 false 0 0)
  else if type =? RTCP_RTPFB then
    if (pkt_size <? RTCP_NACK_SIZE)%nat then Err NANORTC_ERR_PARSE else
    if rc_count =? 1 then
      nack_media_ssrc ← nanortc_read_u32be data 8;
      nack_pid ← nanortc_read_u16be data 12;
      nack_blp ← nanortc_read_u16be data 14;
      Ok (RtcpInfo type ssrc 0 0 0 0 0 nack_media_ssrc nack_pid nack_blp 0 false 0 0)
    else Ok (RtcpInfo type ssrc 0 0 0 0 0 0 0 0 0 false 0 0)
  else if type =? RTCP_PSFB then
    if (12 <=? pkt_size)%nat then
      psfb_media_ssrc ← nanortc_read_u32be data 8;
      Ok (RtcpInfo type ssrc 0 0 0 0 0 0 0 0 psfb_media_ssrc false 0 0)
    else Ok (RtcpInfo type ssrc 0 0 0 0 0 0 0 0 0 false 0 0)
  else Ok (RtcpInfo type ssrc 0 0 0 0 0 0 0 0 0 false 0 0).

(** * Lemmas *)

(** A generated packet occupies a prefix of the buffer. *)
Definition generates (m : res (list Z * nat)) (buf packet : list Z) : Prop :=
  m = if (length buf <? length packet)%nat then Err NANORTC_ERR_BUFFER_TOO_SMALL
      else Ok (packet ++ drop (length packet) buf, length packet).

Definition header_octets (rc_fmt pt length_words ssrc : Z) : list Z :=
  [u8 (Z.lor (Z.shiftl RTCP_VERSION 6) (Z.land rc_fmt 0x1F)); pt] ++ be16 length_words ++ be32 ssrc.
Lemma write_header_eq buf rc pt l ssrc :
  write_header buf rc pt l ssrc = wr buf 0 (header_octets rc pt l ssrc).
Proof.
  unfold write_header, header_octets. rewrite wr_then by done. rewrite wr_then by done.
  rewrite wr_last by done. by rewrite <- ?app_assoc.
Qed.
Definition sr_packet (rtcp : nano_rtcp) (ntp_sec ntp_frac rtp_ts : Z) : list Z :=
  header_octets 0 RTCP_SR 6 (rtcp_ssrc rtcp) ++ be32 ntp_sec ++ be32 ntp_frac ++ be32 rtp_ts
  ++ be32 (rtcp_packets_sent rtcp) ++ be32 (rtcp_octets_sent rtcp).
Definition rr_packet (rtcp : nano_rtcp) (remote_ssrc fraction_lost : Z) : list Z :=
  let clost := Z.land (rtcp_packets_lost rtcp) 0x00FFFFFF in
  header_octets 1 RTCP_RR 7 (rtcp_ssrc rtcp) ++ be32 remote_ssrc
  ++ [fraction_lost; u8 (Z.shiftr clost 16); u8 (Z.shiftr clost 8); u8 clost]
  ++ be32 (rtcp_max_seq rtcp) ++ be32 (rtcp_jitter rtcp) ++ be32 (rtcp_last_sr_ntp rtcp) ++ be32 0.
Definition nack_packet (ssrc media_ssrc seq blp : Z) : list Z :=
  header_octets 1 RTCP_RTPFB 3 ssrc ++ be32 media_ssrc ++ be16 seq ++ be16 blp.
Definition pli_packet (sender_ssrc media_ssrc : Z) : list Z :=
  header_octets 1 RTCP_PSFB 2 sender_ssrc ++ be32 media_ssrc.


Lemma generate_store buf packet n :
  length packet = n ->
  (if (length buf <? n)%nat then Err NANORTC_ERR_BUFFER_TOO_SMALL
   else (b ← wr buf 0 packet; Ok (b, n))) =
  (if (length buf <? length packet)%nat then Err NANORTC_ERR_BUFFER_TOO_SMALL
   else Ok (packet ++ drop (length packet) buf, length packet)).
Proof.
  intros <-. destruct (Nat.ltb_spec (length buf) (length packet)); [done|]. by rewrite wr_0.
Qed.

Lemma rtcp_generate_sr_spec rtcp ntp_sec ntp_frac rtp_ts buf :
  generates (rtcp_generate_sr rtcp ntp_sec ntp_frac rtp_ts buf) buf (sr_packet rtcp ntp_sec ntp_frac rtp_ts).
Proof.
  unfold generates. rewrite <- (generate_store buf _ RTCP_SR_SIZE) by done.
  unfold rtcp_generate_sr. rewrite write_header_eq. repeat rewrite wr_then by done.
  by rewrite <- ?app_assoc.
Qed.
Lemma rtcp_generate_rr_spec rtcp remote_ssrc buf fraction :
  rr_fraction_lost rtcp = Ok fraction ->
  generates (rtcp_generate_rr rtcp remote_ssrc buf) buf (rr_packet rtcp remote_ssrc fraction).
Proof.
  intros Hf. unfold generates. rewrite <- (generate_store buf _ RTCP_RR_SIZE) by done.
  unfold rtcp_generate_rr. rewrite write_header_eq, Hf. cbv zeta.
  rewrite wr_then by done. destruct (length buf <? RTCP_RR_SIZE)%nat; [done|].
  rewrite bind_Ok_under. repeat rewrite wr_then by done. by rewrite <- ?app_assoc.
Qed.
Lemma rtcp_generate_nack_spec ssrc media_ssrc seq blp buf :
  generates (rtcp_generate_nack ssrc media_ssrc seq blp buf) buf (nack_packet ssrc media_ssrc seq blp).
Proof.
  unfold generates. rewrite <- (generate_store buf _ RTCP_NACK_SIZE) by done.
  unfold rtcp_generate_nack. rewrite write_header_eq. repeat rewrite wr_then by done.
  by rewrite <- ?app_assoc.
Qed.
Lemma rtcp_generate_pli_spec sender_ssrc media_ssrc buf :
  generates (rtcp_generate_pli sender_ssrc media_ssrc buf) buf (pli_packet sender_ssrc media_ssrc).
Proof.
  unfold generates. rewrite <- (generate_store buf _ RTCP_PLI_SIZE) by done.
  unfold rtcp_generate_pli. rewrite write_header_eq. repeat rewrite wr_then by done. done.
Qed.

(** Evaluates the parser on a generated packet of [n] octets with count [rc]. *)
Ltac parse_packet rc n :=
  unfold rtcp_parse, sr_packet, rr_packet, nack_packet, pli_packet, header_octets, nanortc_read_u16be,
    nanortc_read_u32be, be16, be32, rd8;
  cbn -[u8 u16 u32 Z.lor Z.land Z.shiftl Z.shiftr Nat.ltb Nat.leb Z.to_nat lookup];
  cbn [lookup list_lookup];
  change (Z.land (Z.shiftr (u8 (Z.lor (Z.shiftl RTCP_VERSION 6) (Z.land rc 31))) 6) 3) with 2;
  change (Z.land (u8 (Z.lor (Z.shiftl RTCP_VERSION 6) (Z.land rc 31))) 31) with rc;
  autorewrite with wire; unfold mret, res_ret; rewrite ?bind_Ok; autorewrite with wire;
  match goal with |- context [Z.to_nat ?t] => change (Z.to_nat t) with n end;
  cbv zeta; rewrite (proj2 (Nat.ltb_ge _ _)) by (unfold RTCP_HEADER_SIZE; lia);
  cbn [negb Z.eqb RTCP_VERSION Pos.eqb];
  rewrite (proj2 (Nat.ltb_ge _ _)) by lia; reflexivity.

(** * Properties *)

(** Into any buffer large enough, each generator writes exactly one
    packet at the start (a smaller buffer is refused and left alone), and parsing
    that packet gives back the generator's arguments and counters: Sender Report,
    NACK, PLI, and, when the loss fraction is defined, Receiver Report. *)
Theorem rtcp_generate_parse (rtcp : nano_rtcp) (a b c d : Z) (buf rest : list Z) :
  (generates (rtcp_generate_sr rtcp a b c buf) buf (sr_packet rtcp a b c) /\
   rtcp_parse (sr_packet rtcp a b c ++ rest) =
     Ok (RtcpInfo RTCP_SR (u32 (rtcp_ssrc rtcp)) (u32 a) (u32 b) (u32 c)
           (u32 (rtcp_packets_sent rtcp)) (u32 (rtcp_octets_sent rtcp)) 0 0 0 0 false 0 0)) /\
  (generates (rtcp_generate_nack a b c d buf) buf (nack_packet a b c d) /\
   rtcp_parse (nack_packet a b c d ++ rest) =
     Ok (RtcpInfo RTCP_RTPFB (u32 a) 0 0 0 0 0 (u32 b) (u16 c) (u16 d) 0 false 0 0)) /\
  (generates (rtcp_generate_pli a b buf) buf (pli_packet a b) /\
   rtcp_parse (pli_packet a b ++ rest) =
     Ok (RtcpInfo RTCP_PSFB (u32 a) 0 0 0 0 0 0 0 0 (u32 b) false 0 0)) /\
  (forall fraction, rr_fraction_lost rtcp = Ok fraction ->
   generates (rtcp_generate_rr rtcp a buf) buf (rr_packet rtcp a fraction) /\
   rtcp_parse (rr_packet rtcp a fraction ++ rest) =
     Ok (RtcpInfo RTCP_RR (u32 (rtcp_ssrc rtcp)) 0 0 0 0 0 0 0 0 0 true (u32 a) fraction)).
Proof.
  split; [|split; [|split]].
  - split; [apply rtcp_generate_sr_spec|]. parse_packet 0 28%nat.
  - split; [apply rtcp_generate_nack_spec|]. parse_packet 1 16%nat.
  - split; [apply rtcp_generate_pli_spec|]. parse_packet 1 12%nat.
  - intros fraction Hf. split; [by apply rtcp_generate_rr_spec|]. parse_packet 1 32%nat.
Qed.

Lemma rtcp_generate_parse_witness :
  rr_fraction_lost (NanoRtcp 7 0 0 90 10 0 0 0 false 500 3) = Ok 25 /\
  rtcp_parse (rr_packet (NanoRtcp 7 0 0 90 10 0 0 0 false 500 3) 9 25 ++ []) =
    Ok (RtcpInfo RTCP_RR (u32 7) 0 0 0 0 0 0 0 0 0 true (u32 9) 25).
Proof.
  assert (rr_fraction_lost (NanoRtcp 7 0 0 90 10 0 0 0 false 500 3) = Ok 25) as H by reflexivity.
  split; [exact H|].
  destruct (rtcp_generate_parse (NanoRtcp 7 0 0 90 10 0 0 0 false 500 3) 9 0 0 0 [] []) as (_ & _ & _ & Hr).
  exact (proj2 (Hr 25 H)).
Defined.

(** The Receiver Report's loss fraction is the fixed-point fraction
    floor(256 * lost / expected), below 256, as long as the counters are below
    the width of the code's products (lost < 2^24, received + lost < 2^32);
    beyond it the sum can wrap to zero and the division faults. *)
Theorem rr_fraction_lost_spec (rtcp : nano_rtcp) :
  let recv := rtcp_packets_received rtcp in let lost := rtcp_packets_lost rtcp in
  is_u32 recv -> is_u32 lost ->
  (lost < 2 ^ 24 -> recv + lost < 2 ^ 32 -> 0 < recv ->
   rr_fraction_lost rtcp = Ok (256 * lost / (recv + lost)) /\ 256 * lost / (recv + lost) < 256) /\
  (recv + lost = 2 ^ 32 -> rr_fraction_lost rtcp = Fault).
Proof.
  intros recv lost Hr Hl. unfold rr_fraction_lost, udiv. fold recv lost. split.
  - intros Hl24 Hsum Hpos. change (2 ^ 24) with 16777216 in *. change (2 ^ 32) with 4294967296 in *.
    assert (256 * lost / (recv + lost) < 256) as Hlt by (apply Z.div_lt_upper_bound; unfold is_u32 in *; lia).
    split; [|done]. destruct (Z.ltb_spec 0 recv); [|lia].
    destruct (Z.ltb_spec 0 lost) as [Hlp|Hlp]; cbn [andb].
    + rewrite (u32_id (recv + lost)), (u32_id (lost * 256)) by mach.
      destruct (Z.eqb_spec (recv + lost) 0); [lia|]. rewrite bind_Ok, u8_id by
        (split; [apply Z.div_pos; lia | rewrite Z.mul_comm; done]).
      by rewrite Z.mul_comm.
    + assert (lost = 0) as -> by (unfold is_u32 in *; lia). by rewrite Z.mul_0_r, Zdiv_0_l.
  - intros Hsum. change (2 ^ 32) with 4294967296 in *. unfold is_u32 in *. change (2 ^ 32) with 4294967296 in *.
    replace (0 <? recv) with true by lia. replace (0 <? lost) with true by lia. cbn [andb].
    replace (u32 (recv + lost)) with 0 by (rewrite Hsum; done). done.
Qed.
Lemma rr_fraction_lost_spec_witness :
  rr_fraction_lost (NanoRtcp 7 0 0 90 10 0 0 0 false 500 3) = Ok 25 /\
  rr_fraction_lost (NanoRtcp 7 0 0 4294967295 1 0 0 0 false 500 3) = Fault.
Proof.
  split.
  - refine (proj1 (proj1 (rr_fraction_lost_spec (NanoRtcp 7 0 0 90 10 0 0 0 false 500 3) _ _) _ _ _));
      cbn; unfold is_u32; lia.
  - refine (proj2 (rr_fraction_lost_spec (NanoRtcp 7 0 0 4294967295 1 0 0 0 false 500 3) _ _) _);
      cbn; unfold is_u32; lia.
Defined.

(** On every octet string the parser reads only inside it, and an
    accepted packet has version 2 and a length field that fits the string. *)
Theorem rtcp_parse_safe (data : list Z) :
  bytes data ->
  wp (rtcp_parse data) (fun info =>
    info_type info = nth 1 data 0 /\ nth 0 data 0 / 64 = RTCP_VERSION /\
    (val16 (nth 2 data 0) (nth 3 data 0) + 1) * 4 <= Z.of_nat (length data)).
Proof.
  intros Hb. unfold rtcp_parse, RTCP_HEADER_SIZE. wp_wire; [wp_wire|]. wp_wire. wp_wire; [lia|].
  wp_wire; [wp_wire|].
  assert (nth 0 data 0 / 64 = RTCP_VERSION) as Hver.
  { rewrite <- Hg0, Z.shiftr_div_pow2 by lia. change 3 with (Z.ones 2). rewrite Z.land_ones by lia.
    change (2 ^ 6) with 64. change (2 ^ 2) with 4. mach. }
  do 2 wp_wire; [lia|]. do 2 wp_wire; [lia|]. cbn [Nat.add] in *.
  rewrite u32_id by (unfold is_u16, is_u32 in *; lia).
  unfold is_u16 in *.
  set (l := val16 _ _) in *. clearbody l.
  unfold RTCP_SR_SIZE, RTCP_SR_WITH_RB_SIZE, RTCP_RR_SIZE, RTCP_NACK_SIZE.
  repeat wp_wire; try (cbn [info_type]; split_and!; [done | done | lia]); try lia.
Qed.
Lemma rtcp_parse_safe_witness :
  wp (rtcp_parse [128; 206; 0; 2; 0; 0; 0; 1; 0; 0; 0; 2]) (fun info =>
    info_type info = 206 /\ 128 / 64 = RTCP_VERSION /\ (val16 0 2 + 1) * 4 <= 12).
Proof. refine (rtcp_parse_safe [128; 206; 0; 2; 0; 0; 0; 1; 0; 0; 0; 2] _). bytes_lit. Defined.
