(* ===== verification/Twcc.v ===== *)
(** Transport-wide congestion control feedback, [src/nano_twcc.c]: the two
    parsing passes (status chunks, then receive deltas) with the fixed status
    array and the per-packet callback, and what an accepted feedback means. *)

From Stdlib Require Import ZArith Lia.
From stdpp Require Import base list numbers.
From S2P Require Import Prelude Wire.

Local Open Scope Z_scope.

Definition TWCC_RTCP_RTPFB : Z := 205.
Definition TWCC_RTCP_VERSION : Z := 2.
Definition TWCC_FMT : Z := 15.
Definition TWCC_REF_TIME_UNIT_US : Z := 64000.
Definition TWCC_DELTA_UNIT_US : Z := 250.
Definition TWCC_CHUNK_TYPE_MASK : Z := 0x8000.
Definition TWCC_STATUS_VEC_SYMSZ_BIT : Z := 0x4000.
(** [include/nanortc_config.h] may override it; the default. *)
Definition NANORTC_TWCC_MAX_PACKETS_PER_FB : nat := 128.

(** [nano_twcc_status_t], by value *)
Definition NANO_TWCC_STATUS_NOT_RECEIVED : Z := 0.
Definition NANO_TWCC_STATUS_SMALL_DELTA : Z := 1.
Definition NANO_TWCC_STATUS_LARGE_DELTA : Z := 2.
Definition NANO_TWCC_STATUS_RESERVED : Z := 3.

(** [nano_twcc_summary_t] *)
Record nano_twcc_summary : Type := TwccSummary {
  tw_sender_ssrc : Z; tw_media_ssrc : Z; tw_base_seq : Z; tw_packet_status_count : Z;
  tw_reference_time_us : Z; tw_fb_pkt_count : Z; tw_received_count : Z
}.

(** * Pass 1: status chunks *)

(** [statuses[emitted++] = symbol] into the fixed array, counting received
    symbols; the list is the written prefix. *)
Definition emit_status (symbol : Z) (st : list Z * Z) : res (list Z * Z) :=
  let '(statuses, received) := st in
  if (NANORTC_TWCC_MAX_PACKETS_PER_FB <=? length statuses)%nat then Fault else
  Ok (statuses ++ [symbol],
      if symbol =? NANO_TWCC_STATUS_NOT_RECEIVED then received else u16 (received + 1)).

Fixpoint emit_run (n : nat) (symbol : Z) (st : list Z * Z) : res (list Z * Z) :=
  match n with
  | O => Ok st
  | S n => st ← emit_status symbol st; emit_run n symbol st
  end.

(** The [i < 14 && remaining > 0] loop over the bit positions [shifts]. *)
Fixpoint emit_vector1 (shifts : list Z) (chunk : Z) (remaining : nat) (st : list Z * Z)
  : res (nat * (list Z * Z)) :=
  match shifts, remaining with
  | shift :: shifts, S remaining =>
      let bit := Z.land (Z.shiftr chunk shift) 0x1 in
      st ← emit_status (if bit =? 0 then NANO_TWCC_STATUS_NOT_RECEIVED else NANO_TWCC_STATUS_SMALL_DELTA) st;
      emit_vector1 shifts chunk remaining st
  | _, _ => Ok (remaining, st)
  end.
(** The [i < 7 && remaining > 0] loop; a reserved symbol is refused. *)
Fixpoint emit_vector2 (shifts : list Z) (chunk : Z) (remaining : nat) (st : list Z * Z)
  : res (nat * (list Z * Z)) :=
  match shifts, remaining with
  | shift :: shifts, S remaining =>
      let symbol := Z.land (Z.shiftr chunk shift) 0x3 in
      if symbol =? NANO_TWCC_STATUS_RESERVED then Err NANORTC_ERR_PARSE else
      st ← emit_status symbol st;
      emit_vector2 shifts chunk remaining st
  | _, _ => Ok (remaining, st)
  end.
Definition shifts1 : list Z := [13; 12; 11; 10; 9; 8; 7; 6; 5; 4; 3; 2; 1; 0].
Definition shifts2 : list Z := [12; 10; 8; 6; 4; 2; 0].

(** The three branches on the chunk type. *)
Definition parse_chunk (chunk : Z) (remaining : nat) (st : list Z * Z) : res (nat * (list Z * Z)) :=
  if Z.land chunk TWCC_CHUNK_TYPE_MASK =? 0 then
    let symbol := Z.land (Z.shiftr chunk 13) 0x3 in
    let run := Z.to_nat (Z.land chunk 0x1FFF) in
    if (run =? 0)%nat then Err NANORTC_ERR_PARSE else
    if symbol =? NANO_TWCC_STATUS_RESERVED then Err NANORTC_ERR_PARSE else
    let n := if (remaining <? run)%nat then remaining else run in
    st ← emit_run n symbol st;
    Ok ((remaining - n)%nat, st)
  else if Z.land chunk TWCC_STATUS_VEC_SYMSZ_BIT =? 0 then emit_vector1 shifts1 chunk remaining st
  else emit_vector2 shifts2 chunk remaining st.

Fixpoint parse_chunks (fuel : nat) (data : list Z) (pkt_size off remaining : nat) (st : list Z * Z)
  : res (nat * (list Z * Z)) :=
  match fuel with
  | O => Fault
  | S fuel =>
      if (remaining =? 0)%nat then Ok (off, st) else
      if (pkt_size <? off + 2)%nat then Err NANORTC_ERR_PARSE else
      chunk ← nanortc_read_u16be data off;
      '(remaining, st) ← parse_chunk chunk remaining st;
      parse_chunks fuel data pkt_size (off + 2) remaining st
  end.

(** * Pass 2: receive deltas *)

(** One callback: sequence number, status, delta in microseconds. *)
Definition twcc_event : Type := Z * Z * Z.

(** The loop over the status array from index [i]. The callbacks fired before an
    error stay fired, so the result is the return code, the events and [off]. *)
Fixpoint read_deltas (data : list Z) (pkt_size : nat) (base_seq : Z) (i : nat) (statuses : list Z)
    (off : nat) (events : list twcc_event) : res (Z * list twcc_event * nat) :=
  match statuses with
  | [] => Ok (NANORTC_OK, events, off)
  | status :: statuses =>
      let seq := u16 (base_seq + Z.of_nat i) in
      if status =? NANO_TWCC_STATUS_SMALL_DELTA then
        if (pkt_size <? off + 1)%nat then Ok (NANORTC_ERR_PARSE, events, off) else
        d ← rd8 data off;
        read_deltas data pkt_size base_seq (S i) statuses (off + 1)
          (events ++ [(seq, status, d * TWCC_DELTA_UNIT_US)])
      else if status =? NANO_TWCC_STATUS_LARGE_DELTA then
        if (pkt_size <? off + 2)%nat then Ok (NANORTC_ERR_PARSE, events, off) else
        raw_u ← nanortc_read_u16be data off;
        let signed_units := if Z.land raw_u 0x8000 =? 0 then raw_u else raw_u - 0x10000 in
        read_deltas data pkt_size base_seq (S i) statuses (off + 2)
          (events ++ [(seq, status, signed_units * TWCC_DELTA_UNIT_US)])
      else read_deltas data pkt_size base_seq (S i) statuses off (events ++ [(seq, status, 0)])
  end.

(** * The parser *)

Definition twcc_reference_time (a b c : Z) : Z :=
  let ref_raw := Z.lor (Z.lor (Z.shiftl a 16) (Z.shiftl b 8)) c in
  let ref_raw := if Z.land ref_raw 0x00800000 =? 0 then ref_raw else ref_raw - 0x1000000 in
  ref_raw * TWCC_REF_TIME_UNIT_US.

(** The return code, the summary and the callbacks fired. [Err] is a return
    before [out] is written. *)
Definition twcc_parse_feedback (data : list Z) : res (Z * nano_twcc_summary * list twcc_event) :=
  let len := length data in
  if (len <? 20)%nat then Err NANORTC_ERR_PARSE else
  b0 ← rd8 data 0;
  if negb (Z.shiftr b0 6 =? TWCC_RTCP_VERSION) then Err NANORTC_ERR_PARSE else
  if negb (Z.land b0 0x1F =? TWCC_FMT) then Err NANORTC_ERR_PARSE else
  b1 ← rd8 data 1;
  if negb (b1 =? TWCC_RTCP_RTPFB) then Err NANORTC_ERR_PARSE else
  length_words ← nanortc_read_u16be data 2;
  let pkt_size := (Z.to_nat (length_words + 1) * 4)%nat in
  if (len <? pkt_size)%nat || (pkt_size <? 20)%nat then Err NANORTC_ERR_PARSE else
  sender_ssrc ← nanortc_read_u32be data 4;
  media_ssrc ← nanortc_read_u32be data 8;
  base_seq ← nanortc_read_u16be data 12;
  packet_status_count ← nanortc_read_u16be data 14;
  t0 ← rd8 data 16; t1 ← rd8 data 17; t2 ← rd8 data 18;
  fb_pkt_count ← rd8 data 19;
  let out received := TwccSummary sender_ssrc media_ssrc base_seq packet_status_count
                        (twcc_reference_time t0 t1 t2) fb_pkt_count received in
  let count := Z.to_nat packet_status_count in
  if (count =? 0)%nat then Ok (NANORTC_OK, out 0, []) else
  if (NANORTC_TWCC_MAX_PACKETS_PER_FB <? count)%nat then Ok (NANORTC_ERR_PARSE, out 0, []) else
  match parse_chunks (S pkt_size) data pkt_size 20 count ([], 0) with
  | Fault => Fault
  | Err e => Err e
  | Ok (off, (statuses, received)) =>
      '(rc, events, off) ← read_deltas data pkt_size base_seq 0 statuses off [];
      if negb (rc =? NANORTC_OK) then Ok (rc, out received, events) else
      if (3 <? pkt_size - off)%nat then Ok (NANORTC_ERR_PARSE, out received, events) else
      Ok (NANORTC_OK, out received, events)
  end.

(** * Specification of the chunks *)

(** The symbols a chunk stands for (draft section 3.1). *)
Definition chunk_symbols (chunk : Z) : list Z :=
  if Z.testbit chunk 15 then
    if Z.testbit chunk 14 then map (fun s => chunk / 2 ^ s mod 4) shifts2
    else map (fun s => chunk / 2 ^ s mod 2) shifts1
  else replicate (Z.to_nat (chunk mod 2 ^ 13)) (chunk / 2 ^ 13 mod 4).
(** The first [n] chunks from offset [off]. *)
Definition chunk_at (data : list Z) (off : nat) : Z := val16 (nth off data 0) (nth (off + 1) data 0).
Definition chunks_at (data : list Z) (off n : nat) : list Z :=
  map (fun k => chunk_at data (off + 2 * k)) (seq 0 n).
Definition count_received (statuses : list Z) : Z :=
  Z.of_nat (length (List.filter (fun s => negb (s =? NANO_TWCC_STATUS_NOT_RECEIVED)) statuses)).

(** * Lemmas *)

Lemma land_bit chunk n : 0 <= n -> (Z.land chunk (2 ^ n) =? 0) = negb (Z.testbit chunk n).
Proof.
  intros Hn. destruct (Z.testbit chunk n) eqn:Hb; cbn.
  - apply Z.eqb_neq. intros H. apply (f_equal (fun z => Z.testbit z n)) in H.
    by rewrite Z.land_spec, Hb, Z.pow2_bits_true, Z.bits_0 in H by lia.
  - apply Z.eqb_eq, Z.bits_inj'. intros i Hi. rewrite Z.land_spec, Z.bits_0.
    destruct (decide (i = n)) as [->|]; [by rewrite Hb|].
    by rewrite Z.pow2_bits_false, andb_false_r by done.
Qed.
Lemma land_low chunk s k :
  0 <= s -> 0 <= k -> Z.land (Z.shiftr chunk s) (Z.ones k) = chunk / 2 ^ s mod 2 ^ k.
Proof. intros. by rewrite Z.land_ones, Z.shiftr_div_pow2. Qed.

Lemma count_received_app a b : count_received (a ++ b) = count_received a + count_received b.
Proof. unfold count_received. rewrite List.filter_app, length_app. lia. Qed.
Lemma count_received_le l : 0 <= count_received l <= Z.of_nat (length l).
Proof. unfold count_received. pose proof (List.filter_length_le (fun s => negb (s =? NANO_TWCC_STATUS_NOT_RECEIVED)) l). lia. Qed.

(** The status array: [st] holds [base ++ syms] with its received count. *)
Definition emitted (syms : list Z) (st : list Z * Z) : Prop :=
  st.1 = syms /\ st.2 = count_received syms /\ Forall (fun s => 0 <= s <= 2) syms.

Lemma emit_status_wp symbol syms st :
  emitted syms st -> (length syms < NANORTC_TWCC_MAX_PACKETS_PER_FB)%nat -> 0 <= symbol <= 2 ->
  wp (emit_status symbol st) (emitted (syms ++ [symbol])).
Proof.
  destruct st as [statuses received]. intros (Hs & Hr & Hf) Hl Hsym. cbn in Hs, Hr. subst statuses received.
  unfold emit_status. rewrite (proj2 (Nat.leb_gt _ _)) by done. apply wp_Ok.
  split; [done|]. split; [|by apply Forall_app_2; [|constructor]]. cbn.
  rewrite count_received_app. unfold NANORTC_TWCC_MAX_PACKETS_PER_FB in *.
  pose proof (count_received_le syms).
  assert (count_received [symbol] = if symbol =? NANO_TWCC_STATUS_NOT_RECEIVED then 0 else 1) as ->
    by (unfold count_received; cbn; by destruct (symbol =? _)).
  destruct (symbol =? _); [lia|]. rewrite u16_id; [done|]. unfold is_u16. lia.
Qed.
Lemma emit_run_wp n symbol : forall syms st,
  emitted syms st -> (length syms + n <= NANORTC_TWCC_MAX_PACKETS_PER_FB)%nat -> 0 <= symbol <= 2 ->
  wp (emit_run n symbol st) (emitted (syms ++ replicate n symbol)).
Proof.
  induction n as [|n IH]; intros syms st Hst Hl Hsym; cbn [emit_run replicate].
  - apply wp_Ok. by rewrite app_nil_r.
  - apply wp_bind. eapply wp_mono; [apply emit_status_wp; [done | lia | done]|]. intros st' Hst'.
    cbn beta in Hst'. eapply wp_mono; [apply (IH (syms ++ [symbol])); [done | rewrite length_app; cbn; lia | done]|].
    intros st'' Hst''. by rewrite <- app_assoc in Hst''.
Qed.

(** A vector loop emits the symbols that fit. *)
Definition emits (syms all : list Z) (remaining : nat) (r : nat * (list Z * Z)) : Prop :=
  r.1 = (remaining - length all)%nat /\ emitted (syms ++ take remaining all) r.2.
Lemma emits_step sym all syms remaining r :
  emits (syms ++ [sym]) all remaining r -> emits syms (sym :: all) (S remaining) r.
Proof. intros [H1 H2]. split; [done|]. by rewrite <- app_assoc in H2. Qed.

Lemma emit_vector1_wp shifts chunk : forall syms remaining st,
  Forall (fun s => 0 <= s) shifts ->
  emitted syms st -> (length syms + remaining <= NANORTC_TWCC_MAX_PACKETS_PER_FB)%nat ->
  wp (emit_vector1 shifts chunk remaining st)
     (emits syms (map (fun s => chunk / 2 ^ s mod 2) shifts) remaining).
Proof.
  induction shifts as [|s shifts IH]; intros syms remaining st Hsh Hst Hl; cbn [emit_vector1 map].
  - apply wp_Ok. split; cbn; [lia|]. by rewrite take_nil, app_nil_r.
  - rewrite Forall_cons_iff in Hsh. destruct Hsh as [Hs Hsh].
    destruct remaining as [|remaining]; [apply wp_Ok; split; cbn; [done | by rewrite app_nil_r]|].
    cbv zeta. change 1 with (Z.ones 1) at 1. rewrite land_low by lia. change (2 ^ 1) with 2.
    set (bit := chunk / 2 ^ s mod 2). assert (0 <= bit < 2) by (apply Z.mod_pos_bound; lia).
    replace (if bit =? 0 then NANO_TWCC_STATUS_NOT_RECEIVED else NANO_TWCC_STATUS_SMALL_DELTA) with bit
      by (destruct (Z.eqb_spec bit 0); unfold NANO_TWCC_STATUS_NOT_RECEIVED, NANO_TWCC_STATUS_SMALL_DELTA; lia).
    apply wp_bind. eapply wp_mono; [apply emit_status_wp; [done | lia | lia]|]. intros st' Hst'.
    eapply wp_mono; [apply (IH (syms ++ [bit])); [done | done | rewrite length_app; cbn; lia]|].
    intros r Hr. by apply emits_step.
Qed.
Lemma emit_vector2_wp shifts chunk : forall syms remaining st,
  Forall (fun s => 0 <= s) shifts ->
  emitted syms st -> (length syms + remaining <= NANORTC_TWCC_MAX_PACKETS_PER_FB)%nat ->
  wp (emit_vector2 shifts chunk remaining st)
     (emits syms (map (fun s => chunk / 2 ^ s mod 4) shifts) remaining).
Proof.
  induction shifts as [|s shifts IH]; intros syms remaining st Hsh Hst Hl; cbn [emit_vector2 map].
  - apply wp_Ok. split; cbn; [lia|]. by rewrite take_nil, app_nil_r.
  - rewrite Forall_cons_iff in Hsh. destruct Hsh as [Hs Hsh].
    destruct remaining as [|remaining]; [apply wp_Ok; split; cbn; [done | by rewrite app_nil_r]|].
    cbv zeta. change (Z.land (Z.shiftr chunk s) 3) with (Z.land (Z.shiftr chunk s) (Z.ones 2)). rewrite land_low by lia. change (2 ^ 2) with 4.
    set (sym := chunk / 2 ^ s mod 4). assert (0 <= sym < 4) by (apply Z.mod_pos_bound; lia).
    wp_step; [wp_step|]. unfold NANO_TWCC_STATUS_RESERVED in *.
    apply wp_bind. eapply wp_mono; [apply emit_status_wp; [done | lia | lia]|]. intros st' Hst'.
    eapply wp_mono; [apply (IH (syms ++ [sym])); [done | done | rewrite length_app; cbn; lia]|].
    intros r Hr. by apply emits_step.
Qed.

Lemma parse_chunk_wp chunk syms remaining st :
  is_u16 chunk -> (0 < remaining)%nat ->
  emitted syms st -> (length syms + remaining <= NANORTC_TWCC_MAX_PACKETS_PER_FB)%nat ->
  wp (parse_chunk chunk remaining st)
     (fun r => emits syms (chunk_symbols chunk) remaining r /\ (0 < length (chunk_symbols chunk))%nat).
Proof.
  intros Hc Hrem Hst Hl. unfold parse_chunk, chunk_symbols, TWCC_CHUNK_TYPE_MASK, TWCC_STATUS_VEC_SYMSZ_BIT.
  change 0x8000 with (2 ^ 15). change 0x4000 with (2 ^ 14). rewrite !land_bit by lia.
  destruct (Z.testbit chunk 15); cbn [negb].
  - destruct (Z.testbit chunk 14); cbn [negb].
    + eapply wp_mono; [apply emit_vector2_wp; [|done..]; repeat constructor; done|].
      intros r Hr. split; [done | cbn; lia].
    + eapply wp_mono; [apply emit_vector1_wp; [|done..]; repeat constructor; done|].
      intros r Hr. split; [done | cbn; lia].
  - cbv zeta. change 0x3 with (Z.ones 2). change 0x1FFF with (Z.ones 13). rewrite land_low, Z.land_ones by lia.
    change (2 ^ 2) with 4. set (sym := chunk / 2 ^ 13 mod 4). set (run := Z.to_nat (chunk mod 2 ^ 13)).
    assert (0 <= sym < 4) by (apply Z.mod_pos_bound; lia). clearbody sym run.
    do 2 (wp_step; [wp_step|]). unfold NANO_TWCC_STATUS_RESERVED in *.
    apply wp_bind. set (n := if (remaining <? run)%nat then remaining else run).
    assert (n = Nat.min remaining run) as Hn by (unfold n; destruct (Nat.ltb_spec remaining run); lia).
    eapply wp_mono; [apply (emit_run_wp n sym syms st Hst); lia|]. intros st' Hst'. apply wp_Ok.
    rewrite length_replicate. split; [|lia]. split; cbn [fst snd]; rewrite ?length_replicate; [lia|].
    by rewrite take_replicate, <- Hn.
Qed.

Lemma chunks_at_S data off n : chunks_at data off (S n) = chunk_at data off :: chunks_at data (off + 2) n.
Proof.
  unfold chunks_at. cbn [seq map]. rewrite Nat.mul_0_r, Nat.add_0_r. f_equal.
  rewrite <- seq_shift, map_map. apply map_ext. intros k. f_equal. lia.
Qed.

(** The chunk pass: the statuses are the symbols of the chunks read, cut at the
    packet count. *)
Lemma parse_chunks_wp data pkt_size : bytes data -> (pkt_size <= length data)%nat ->
  forall fuel off remaining syms st,
  (pkt_size < off + fuel)%nat -> (off <= pkt_size)%nat ->
  emitted syms st -> (length syms + remaining <= NANORTC_TWCC_MAX_PACKETS_PER_FB)%nat ->
  wp (parse_chunks fuel data pkt_size off remaining st) (fun r => exists n,
    r.1 = (off + 2 * n)%nat /\ (r.1 <= pkt_size)%nat /\
    (let all := concat (map chunk_symbols (chunks_at data off n)) in
     (remaining <= length all)%nat /\ emitted (syms ++ take remaining all) r.2)).
Proof.
  intros Hb Hp. induction fuel as [|fuel IH]; intros off remaining syms st Hf Ho Hst Hl; [lia|].
  cbn [parse_chunks]. wp_step.
  { apply wp_Ok. exists 0%nat. subst remaining. cbn. rewrite app_nil_r. split_and!; [lia | lia | lia | done..]. }
  wp_step; [wp_step|]. wp_wire. wp_wire; [lia|]. apply wp_bind.
  eapply wp_mono; [by apply (parse_chunk_wp _ syms); [|lia|..]|].
  intros [remaining' st'] [[Hr Hst'] Hlen]. cbn in Hr, Hst'.
  fold (chunk_at data off) in *. set (c := chunk_symbols (chunk_at data off)) in *.
  eapply wp_mono; [apply IH; [lia | lia | exact Hst' | rewrite length_app, length_take; lia]|].
  intros [off' st''] (n & Hoff & Hle & Hall & Hst''). cbn in Hoff, Hle, Hst''.
  exists (S n). rewrite chunks_at_S. cbn [map concat fst snd]. fold c.
  rewrite length_app, take_app, <- Hr, app_assoc. split_and!; try lia. done.
Qed.

(** The events of a status list, given the deltas. *)
Definition event_ok (base_seq : Z) (i : nat) (ev : twcc_event) (status : Z) : Prop :=
  let '(seq, s, delta) := ev in
  seq = u16 (base_seq + Z.of_nat i) /\ s = status /\
  (status = NANO_TWCC_STATUS_NOT_RECEIVED -> delta = 0) /\
  (status = NANO_TWCC_STATUS_SMALL_DELTA -> 0 <= delta <= 255 * TWCC_DELTA_UNIT_US) /\
  (status = NANO_TWCC_STATUS_LARGE_DELTA ->
   - 32768 * TWCC_DELTA_UNIT_US <= delta <= 32767 * TWCC_DELTA_UNIT_US).
Fixpoint events_ok (base_seq : Z) (i : nat) (evs : list twcc_event) (statuses : list Z) : Prop :=
  match evs, statuses with
  | [], _ => True
  | ev :: evs, s :: statuses => event_ok base_seq i ev s /\ events_ok base_seq (S i) evs statuses
  | _ :: _, [] => False
  end.

Lemma events_ok_statuses base_seq new sts : forall i,
  events_ok base_seq i new sts -> length new = length sts -> map (fun ev : twcc_event => ev.1.2) new = sts.
Proof.
  revert sts. induction new as [|[[q s] d] new IH]; intros [|s' sts] i Hn Hl; try done.
  destruct Hn as [(_ & -> & _) Hn]. cbn in *. f_equal. eapply IH; [done | lia].
Qed.

Lemma read_deltas_wp data pkt_size base_seq statuses :
  bytes data -> (pkt_size <= length data)%nat -> Forall (fun s => 0 <= s <= 2) statuses ->
  forall i off events, (off <= pkt_size)%nat ->
  wp (read_deltas data pkt_size base_seq i statuses off events) (fun '(rc, evs, off') =>
    (off <= off' <= pkt_size)%nat /\
    exists new, evs = events ++ new /\ events_ok base_seq i new statuses /\
      (rc = NANORTC_OK -> length new = length statuses)).
Proof.
  intros Hb Hp Hs. induction Hs as [|status statuses Hst Hs IH]; intros i off events Ho; cbn [read_deltas].
  { apply wp_Ok. split; [lia|]. exists []. by rewrite app_nil_r. }
  assert (Hstop : forall e, e <> NANORTC_OK -> wp (Ok (e, events, off)) (fun '(rc, evs, off') =>
    (off <= off' <= pkt_size)%nat /\
    exists new, evs = events ++ new /\ events_ok base_seq i new (status :: statuses) /\
      (rc = NANORTC_OK -> length new = length (status :: statuses)))).
  { intros e He. apply wp_Ok. split; [lia|]. exists []. by rewrite app_nil_r. }
  assert (Hgo : forall delta n, event_ok base_seq i (u16 (base_seq + Z.of_nat i), status, delta) status ->
    (off + n <= pkt_size)%nat ->
    wp (read_deltas data pkt_size base_seq (S i) statuses (off + n)
          (events ++ [(u16 (base_seq + Z.of_nat i), status, delta)])) (fun '(rc, evs, off') =>
    (off <= off' <= pkt_size)%nat /\
    exists new, evs = events ++ new /\ events_ok base_seq i new (status :: statuses) /\
      (rc = NANORTC_OK -> length new = length (status :: statuses)))).
  { intros delta n Hev Hn. eapply wp_mono; [by apply IH|].
    intros [[rc evs] off'] [Hoff (new & -> & Hnew & Hlen)]. split; [lia|].
    exists ((u16 (base_seq + Z.of_nat i), status, delta) :: new).
    rewrite <- app_assoc. split_and!; try done. cbn. intros Hrc. by rewrite (Hlen Hrc). }
  cbv zeta. unfold NANO_TWCC_STATUS_SMALL_DELTA, NANO_TWCC_STATUS_LARGE_DELTA in *.
  wp_step; [wp_step; [by apply Hstop | wp_step; wp_step; [lia|]] |
            wp_step; [wp_step; [by apply Hstop | wp_wire; wp_wire; [lia|]] |]].
  - apply Hgo; [|lia]. unfold event_ok, is_u8, TWCC_DELTA_UNIT_US, NANO_TWCC_STATUS_NOT_RECEIVED,
      NANO_TWCC_STATUS_LARGE_DELTA in *. split_and!; try done; lia.
  - apply Hgo; [|lia]. change 0x8000 with (2 ^ 15) at 1. rewrite land_bit by lia.
    unfold event_ok, NANO_TWCC_STATUS_NOT_RECEIVED, NANO_TWCC_STATUS_SMALL_DELTA, TWCC_DELTA_UNIT_US.
    cbn [Nat.add]. set (v := val16 _ _) in *. unfold is_u16 in *.
    pose proof (Z.testbit_true v 15 ltac:(lia)) as Ht.
    pose proof (Z.testbit_false v 15 ltac:(lia)) as Hf'.
    change (2 ^ 15) with 32768 in *. change (2 ^ 16) with 65536 in *.
    split_and!; try done; try lia. intros _.
    destruct (Z.testbit v 15); cbn [negb].
    + pose proof (proj1 Ht eq_refl). Z.div_mod_to_equations. lia.
    + pose proof (proj1 Hf' eq_refl). Z.div_mod_to_equations. lia.
  - specialize (Hgo 0 0%nat). rewrite Nat.add_0_r in Hgo. apply Hgo; [|lia].
    unfold event_ok, NANO_TWCC_STATUS_SMALL_DELTA, NANO_TWCC_STATUS_LARGE_DELTA. split_and!; try done; lia.
Qed.

(** * Properties *)

(** C38: on every octet string the parser stays inside it and inside its
    128-entry status array. When it accepts a feedback, it has fired one callback
    per reported packet, in sequence order from the base sequence number (modulo
    2^16), whose statuses are the symbols the chunks stand for, none reserved;
    losses carry delta 0 and received packets a delta in the range of their
    encoding; [received_count] counts exactly the packets not lost. *)
Theorem twcc_parse_feedback_correct (data : list Z) :
  bytes data ->
  wp (twcc_parse_feedback data) (fun '(rc, out, events) =>
    rc = NANORTC_OK -> 
    let count := Z.to_nat (tw_packet_status_count out) in
    let statuses := map (fun ev : twcc_event => ev.1.2) events in
    (count <= NANORTC_TWCC_MAX_PACKETS_PER_FB)%nat /\ length events = count /\
    tw_received_count out = count_received statuses /\
    events_ok (tw_base_seq out) 0 events statuses /\
    Forall (fun s => 0 <= s <= 2) statuses /\
    exists n, statuses = take count (concat (map chunk_symbols (chunks_at data 20 n)))).
Proof.
  intros Hb. unfold twcc_parse_feedback.
  wp_wire; [wp_wire|]. wp_wire. wp_wire; [lia|]. do 2 (wp_wire; [wp_wire|]). wp_wire. wp_wire; [lia|].
  wp_wire; [wp_wire|]. do 2 wp_wire; [lia|].
  wp_wire; [wp_wire|]. do 8 (wp_wire; wp_wire; [lia|]). cbn [Nat.add] in *.
  wp_wire.
  { apply wp_Ok. intros _. cbn.
    match goal with H : Z.to_nat _ = 0%nat |- _ => rewrite H end. split_and!; try done; [lia|]. by exists 0%nat. }
  wp_wire; [apply wp_Ok; done|].
  match goal with |- wp (match parse_chunks ?f data ?p ?o ?r ?s with _ => _ end) _ =>
    pose proof (parse_chunks_wp data p Hb ltac:(lia) f o r [] s) as Hpc end.
  specialize (Hpc ltac:(lia) ltac:(lia) ltac:(done) ltac:(cbn; lia)).
  destruct (parse_chunks _ _ _ _ _ _) as [[off [statuses received]]| |]; [|exact I|exact Hpc].
  destruct Hpc as (n & Hoff & Hle & Hall & (Hst & Hrc & Hf)). cbn in Hst, Hrc, Hle. subst statuses received.
  set (sts := take _ _) in *. apply wp_bind.
  eapply wp_mono; [apply read_deltas_wp; [exact Hb | lia | exact Hf | lia]|].
  intros [[rc evs] off'] [Hoff' (new & -> & Hnew & Hlen)]. cbn [app].
  wp_step; [apply wp_Ok; intros ->; done|]. wp_step; [apply wp_Ok; done|]. apply wp_Ok. intros _.
  cbn [tw_packet_status_count tw_received_count tw_base_seq]. specialize (Hlen ltac:(assumption)).
  assert (Hlsts : length sts = Z.to_nat (val16 (nth 14 data 0) (nth 15 data 0))).
  { unfold sts. rewrite length_take. lia. }
  pose proof (events_ok_statuses _ _ _ _ Hnew Hlen) as Hmap.
  rewrite Hmap. split_and!; try done; [lia|]. by exists n.
Qed.

Lemma twcc_parse_feedback_correct_witness :
  wp (twcc_parse_feedback [143; 205; 0; 5; 0; 0; 0; 1; 0; 0; 0; 2; 255; 255; 0; 2; 0; 0; 1; 7; 32; 2; 4; 8])
     (fun '(rc, out, events) => rc = NANORTC_OK /\
        events = [(65535, 1, 1000); (0, 1, 2000)] /\ tw_received_count out = 2) /\
  wp (twcc_parse_feedback [143; 205; 0; 5; 0; 0; 0; 1; 0; 0; 0; 2; 255; 255; 0; 2; 0; 0; 1; 7; 32; 2; 4; 8])
     (fun '(rc, out, events) =>
        rc = NANORTC_OK ->
        let count := Z.to_nat (tw_packet_status_count out) in
        let statuses := map (fun ev : twcc_event => ev.1.2) events in
        (count <= NANORTC_TWCC_MAX_PACKETS_PER_FB)%nat /\ length events = count /\
        tw_received_count out = count_received statuses /\
        events_ok (tw_base_seq out) 0 events statuses /\
        Forall (fun s => 0 <= s <= 2) statuses /\
        exists n, statuses = take count (concat (map chunk_symbols
          (chunks_at [143; 205; 0; 5; 0; 0; 0; 1; 0; 0; 0; 2; 255; 255; 0; 2; 0; 0; 1; 7; 32; 2; 4; 8] 20 n)))).
Proof.
  split; [vm_compute; repeat split; reflexivity|]. apply twcc_parse_feedback_correct. bytes_lit.
Defined.
