(* ===== verification/Bwe.v ===== *)
(** Bandwidth estimator, [src/nano_bwe.c]: REMB parsing, the clamped moving
    average fed by REMB and by transport-wide loss, the runtime bounds and the
    event threshold; the estimate stays in its bounds along every history. *)

From Stdlib Require Import ZArith Lia.
From stdpp Require Import base list numbers.
From S2P Require Import Prelude Wire.

Local Open Scope Z_scope.

(** Compile-time defaults of [nano_bwe.h] and [nanortc_config.h]. *)
Definition NANORTC_BWE_MIN_BITRATE : Z := 30000.
Definition NANORTC_BWE_MAX_BITRATE : Z := 2000000.
Definition NANORTC_BWE_INITIAL_BITRATE : Z := 300000.
Definition NANORTC_BWE_EMA_ALPHA : Z := 204.
Definition NANORTC_BWE_EVENT_THRESHOLD_PCT : Z := 15.
Definition BWE_REMB_FMT : Z := 15.
Definition BWE_REMB_UNIQUE_ID : Z := 0x52454D42.

(** [nano_bwe_t] *)
Record nano_bwe : Type := NanoBwe {
  estimated_bitrate : Z;
  prev_event_bitrate : Z;
  bwe_last_update_ms : Z;
  remb_count : Z;
  twcc_count : Z;
  smoothed_loss_q8 : Z;
  runtime_min_bps : Z;
  runtime_max_bps : Z;
  runtime_event_threshold_pct : Z
}.

Definition bwe_init : nano_bwe :=
  NanoBwe NANORTC_BWE_INITIAL_BITRATE NANORTC_BWE_INITIAL_BITRATE 0 0 0 0 0 0 0.

(** * REMB *)

Definition bwe_parse_remb (data : list Z) : res Z :=
  let len := length data in
  if (len <? 20)%nat then Err NANORTC_ERR_PARSE else
  b0 ← rd8 data 0;
  if negb (Z.land (Z.shiftr b0 6) 0x03 =? 2) then Err NANORTC_ERR_PARSE else
  pt ← rd8 data 1;
  if negb (Z.land b0 0x1F =? BWE_REMB_FMT) || negb (pt =? 206) then Err NANORTC_ERR_PARSE else
  length_words ← nanortc_read_u16be data 2;
  let pkt_size := Z.to_nat (u32 ((length_words + 1) * 4)) in
  if (len <? pkt_size)%nat || (pkt_size <? 20)%nat then Err NANORTC_ERR_PARSE else
  uid ← nanortc_read_u32be data 12;
  if negb (uid =? BWE_REMB_UNIQUE_ID) then Err NANORTC_ERR_PARSE else
  b17 ← rd8 data 17; b18 ← rd8 data 18; b19 ← rd8 data 19;
  let br_exp := Z.land (Z.shiftr b17 2) 0x3F in
  let br_mantissa := Z.lor (Z.lor (Z.shiftl (Z.land b17 0x03) 16) (Z.shiftl b18 8)) b19 in
  Ok (if (32 <=? br_exp) || ((0 <? br_exp) && (Z.shiftr UINT32_MAX br_exp <? br_mantissa))
      then UINT32_MAX else u32 (Z.shiftl br_mantissa br_exp)).

(** * Bounds *)

Definition bwe_effective_min (bwe : nano_bwe) : Z :=
  if runtime_min_bps bwe =? 0 then NANORTC_BWE_MIN_BITRATE else runtime_min_bps bwe.
Definition bwe_effective_max (bwe : nano_bwe) : Z :=
  if runtime_max_bps bwe =? 0 then NANORTC_BWE_MAX_BITRATE else runtime_max_bps bwe.
Definition bwe_clamp (bwe : nano_bwe) (bps : Z) : Z :=
  let min_bps := bwe_effective_min bwe in
  let max_bps := bwe_effective_max bwe in
  if bps <? min_bps then min_bps else if max_bps <? bps then max_bps else bps.

Definition bwe_set_bounds (bwe : nano_bwe) (min_bps max_bps : Z) : res nano_bwe :=
  let effective_min := if min_bps =? 0 then NANORTC_BWE_MIN_BITRATE else min_bps in
  let effective_max := if max_bps =? 0 then NANORTC_BWE_MAX_BITRATE else max_bps in
  if effective_max <? effective_min then Err NANORTC_ERR_INVALID_PARAM else
  let bwe := NanoBwe (estimated_bitrate bwe) (prev_event_bitrate bwe) (bwe_last_update_ms bwe)
               (remb_count bwe) (twcc_count bwe) (smoothed_loss_q8 bwe) min_bps max_bps
               (runtime_event_threshold_pct bwe) in
  let est := bwe_clamp bwe (estimated_bitrate bwe) in
  let prev := bwe_clamp bwe (prev_event_bitrate bwe) in
  Ok (NanoBwe est prev (bwe_last_update_ms bwe) (remb_count bwe) (twcc_count bwe)
        (smoothed_loss_q8 bwe) min_bps max_bps (runtime_event_threshold_pct bwe)).

Definition with_estimate (bwe : nano_bwe) (est prev last : Z) : nano_bwe :=
  NanoBwe est prev last (remb_count bwe) (twcc_count bwe) (smoothed_loss_q8 bwe)
    (runtime_min_bps bwe) (runtime_max_bps bwe) (runtime_event_threshold_pct bwe).

Definition bwe_set_initial_bitrate (bwe : nano_bwe) (bps : Z) : nano_bwe :=
  if (remb_count bwe =? 0) && (twcc_count bwe =? 0) then
    let initial := if bps =? 0 then NANORTC_BWE_INITIAL_BITRATE else bps in
    let est := bwe_clamp bwe initial in
    with_estimate bwe est est (bwe_last_update_ms bwe)
  else bwe.

(** * Feedback *)

Definition bwe_apply (bwe : nano_bwe) (candidate_bps now_ms : Z) (first_sample : bool) : nano_bwe :=
  let candidate_bps := bwe_clamp bwe candidate_bps in
  let est :=
    if first_sample then candidate_bps
    else
      let alpha := NANORTC_BWE_EMA_ALPHA in
      let smoothed := u64 (u64 (alpha * candidate_bps)
                           + u64 (u64 (256 - alpha) * estimated_bitrate bwe)) / 256 in
      u32 smoothed in
  with_estimate bwe est (prev_event_bitrate bwe) now_ms.

Definition bwe_on_rtcp_feedback (bwe : nano_bwe) (data : list Z) (now_ms : Z) : res nano_bwe :=
  remb_bitrate ← bwe_parse_remb data;
  let bwe := NanoBwe (estimated_bitrate bwe) (prev_event_bitrate bwe) (bwe_last_update_ms bwe)
               (u32 (remb_count bwe + 1)) (twcc_count bwe) (smoothed_loss_q8 bwe)
               (runtime_min_bps bwe) (runtime_max_bps bwe) (runtime_event_threshold_pct bwe) in
  Ok (bwe_apply bwe remb_bitrate now_ms (remb_count bwe =? 1)).

(** The loss controller's target. *)
Definition bwe_loss_target (bwe : nano_bwe) (loss : Z) : Z :=
  let max_bps := bwe_effective_max bwe in
  let min_bps := bwe_effective_min bwe in
  let target := if estimated_bitrate bwe =? 0 then NANORTC_BWE_INITIAL_BITRATE
                else estimated_bitrate bwe in
  if loss <? 5 then
    let grown := u64 (target * 108) / 100 in
    if max_bps <? grown then max_bps else u32 grown
  else if 25 <? loss then
    let shrunk := u64 (target * u64 (512 - loss)) / 512 in
    let shrunk := if shrunk <? min_bps then min_bps else shrunk in
    u32 shrunk
  else target.
Definition bwe_on_twcc_loss (bwe : nano_bwe) (loss_fraction_q8 now_ms : Z) : nano_bwe :=
  let loss := if 256 <? loss_fraction_q8 then 256 else loss_fraction_q8 in
  let smoothed :=
    if twcc_count bwe =? 0 then loss
    else u16 (u32 (u32 (smoothed_loss_q8 bwe * 3) + loss) / 4) in
  let target := bwe_loss_target bwe loss in
  let bwe := NanoBwe (estimated_bitrate bwe) (prev_event_bitrate bwe) (bwe_last_update_ms bwe)
               (remb_count bwe) (u32 (twcc_count bwe + 1)) smoothed
               (runtime_min_bps bwe) (runtime_max_bps bwe) (runtime_event_threshold_pct bwe) in
  bwe_apply bwe target now_ms (twcc_count bwe =? 1).

Definition bwe_get_bitrate (bwe : nano_bwe) : Z := estimated_bitrate bwe.
Definition bwe_get_loss_q8 (bwe : nano_bwe) : Z := smoothed_loss_q8 bwe.

Definition bwe_should_emit_event (bwe : nano_bwe) : nano_bwe * bool :=
  if prev_event_bitrate bwe =? 0 then (bwe, false) else
  let cur := estimated_bitrate bwe in
  let prev := prev_event_bitrate bwe in
  let diff := if prev <? cur then cur - prev else prev - cur in
  let threshold_pct := if runtime_event_threshold_pct bwe =? 0
                       then NANORTC_BWE_EVENT_THRESHOLD_PCT else runtime_event_threshold_pct bwe in
  let threshold_abs := u32 (prev / 100 * threshold_pct) in
  if threshold_abs <? diff then (with_estimate bwe cur cur (bwe_last_update_ms bwe), true)
  else (bwe, false).

(** * The estimator as a state machine *)

Inductive bwe_op : Type :=
| SetBounds (min_bps max_bps : Z)
| SetInitial (bps : Z)
| Feedback (data : list Z) (now_ms : Z)
| Loss (loss_q8 now_ms : Z)
| PollEvent.
Definition bwe_step (bwe : nano_bwe) (op : bwe_op) : nano_bwe :=
  match op with
  | SetBounds lo hi => match bwe_set_bounds bwe lo hi with Ok b => b | _ => bwe end
  | SetInitial bps => bwe_set_initial_bitrate bwe bps
  | Feedback data now => match bwe_on_rtcp_feedback bwe data now with Ok b => b | _ => bwe end
  | Loss loss now => bwe_on_twcc_loss bwe loss now
  | PollEvent => (bwe_should_emit_event bwe).1
  end.
(** The arguments fit their C types. *)
Definition op_ok (op : bwe_op) : Prop :=
  match op with
  | SetBounds lo hi => is_u32 lo /\ is_u32 hi
  | SetInitial bps => is_u32 bps
  | Feedback data now => bytes data
  | Loss loss now => is_u16 loss
  | PollEvent => True
  end.

(** The invariant: bounds in order, estimate and event baseline inside them. *)
Record bwe_inv (bwe : nano_bwe) : Prop := BweInv {
  inv_order : 0 < bwe_effective_min bwe <= bwe_effective_max bwe;
  inv_max : is_u32 (bwe_effective_max bwe);
  inv_est : bwe_effective_min bwe <= estimated_bitrate bwe <= bwe_effective_max bwe;
  inv_prev : bwe_effective_min bwe <= prev_event_bitrate bwe <= bwe_effective_max bwe;
  inv_loss : 0 <= smoothed_loss_q8 bwe <= 256
}.

Lemma bwe_clamp_range bwe bps :
  bwe_effective_min bwe <= bwe_effective_max bwe ->
  bwe_effective_min bwe <= bwe_clamp bwe bps <= bwe_effective_max bwe.
Proof. intros H. unfold bwe_clamp. zbool; lia. Qed.
Lemma bwe_clamp_id bwe bps :
  bwe_effective_min bwe <= bps <= bwe_effective_max bwe -> bwe_clamp bwe bps = bps.
Proof. intros H. unfold bwe_clamp. zbool; lia. Qed.

(** The moving average, without wrap-around inside the bounds. *)
Lemma bwe_ema_eq c e :
  is_u32 c -> is_u32 e ->
  u32 (u64 (u64 (NANORTC_BWE_EMA_ALPHA * c) + u64 (u64 (256 - NANORTC_BWE_EMA_ALPHA) * e)) / 256)
  = (204 * c + 52 * e) / 256.
Proof.
  intros Hc He. unfold NANORTC_BWE_EMA_ALPHA. change (u64 (256 - 204)) with 52.
  unfold is_u32 in *. change (2 ^ 32) with 4294967296 in *.
  rewrite (u64_id (204 * c)), (u64_id (52 * e)), u64_id
    by (unfold is_u64; change (2 ^ 64) with 18446744073709551616; lia).
  apply u32_id. unfold is_u32. change (2 ^ 32) with 4294967296.
  split; [apply Z.div_pos; lia | apply Z.div_lt_upper_bound; lia].
Qed.
Lemma bwe_ema_between c e lo hi :
  lo <= c <= hi -> lo <= e <= hi -> lo <= (204 * c + 52 * e) / 256 <= hi.
Proof. intros. Z.div_mod_to_equations. lia. Qed.

Lemma bwe_apply_inv bwe c now first :
  bwe_inv bwe -> bwe_inv (bwe_apply bwe c now first).
Proof.
  intros [Ho Hm He Hp Hl]. unfold bwe_apply.
  pose proof (bwe_clamp_range bwe c ltac:(lia)) as Hc. set (c' := bwe_clamp bwe c) in *.
  destruct first; [by constructor|].
  rewrite bwe_ema_eq by (unfold is_u32 in *; lia). constructor; try done.
  by apply bwe_ema_between.
Qed.

Lemma bwe_step_inv bwe op : bwe_inv bwe -> op_ok op -> bwe_inv (bwe_step bwe op).
Proof.
  intros Hinv Hop. pose proof Hinv as [Ho Hm He Hp Hl]. destruct op as [lo hi|bps|data now|loss now|]; cbn.
  - unfold bwe_set_bounds. cbv zeta.
    set (emin := if lo =? 0 then _ else lo). set (emax := if hi =? 0 then _ else hi).
    destruct (Z.ltb_spec emax emin) as [|Hle]; [done|]. destruct Hop as [Hlo Hhi].
    set (b := NanoBwe _ _ _ _ _ _ lo hi _).
    assert (bwe_effective_min b = emin) as Hemin by done. assert (bwe_effective_max b = emax) as Hemax by done.
    assert (0 < emin /\ is_u32 emax) as [Hpos Hu]
      by (unfold emin, emax, NANORTC_BWE_MIN_BITRATE, NANORTC_BWE_MAX_BITRATE, is_u32 in *; zbool; lia).
    pose proof (bwe_clamp_range b (estimated_bitrate bwe) ltac:(lia)).
    pose proof (bwe_clamp_range b (prev_event_bitrate bwe) ltac:(lia)).
    rewrite Hemin, Hemax in *. constructor; try done.
    all: change (bwe_effective_min _) with emin; change (bwe_effective_max _) with emax; done.
  - unfold bwe_set_initial_bitrate. destruct (_ && _); [|done]. cbv zeta.
    set (i := if bps =? 0 then _ else bps). pose proof (bwe_clamp_range bwe i ltac:(lia)).
    by constructor.
  - unfold bwe_on_rtcp_feedback. destruct (bwe_parse_remb data); cbn [mbind res_bind]; [|done..].
    apply bwe_apply_inv. by constructor.
  - unfold bwe_on_twcc_loss. cbv zeta. apply bwe_apply_inv. constructor; try done. cbn in Hop |- *.
    unfold is_u16 in Hop. destruct (Z.ltb_spec 256 loss), (twcc_count bwe =? 0); try lia; mach.
  - unfold bwe_should_emit_event. destruct (_ =? 0); [done|]. cbv zeta. destruct (_ <? _); [|done]. by constructor.
Qed.

Lemma bwe_init_inv : bwe_inv bwe_init.
Proof.
  constructor; unfold bwe_effective_min, bwe_effective_max, NANORTC_BWE_MIN_BITRATE, NANORTC_BWE_MAX_BITRATE,
    is_u32; cbn; unfold NANORTC_BWE_INITIAL_BITRATE; lia.
Qed.

(** Feeding the same REMB bitrate. *)
Fixpoint bwe_feed (n : nat) (bwe : nano_bwe) (bps now_ms : Z) : nano_bwe :=
  match n with O => bwe | S n => bwe_feed n (bwe_apply bwe bps now_ms false) bps now_ms end.

Lemma bwe_feed_dist n bwe bps now k :
  bwe_inv bwe -> (n <= k)%nat ->
  Z.abs (estimated_bitrate bwe - bwe_clamp bwe bps) <= 4 ^ Z.of_nat k ->
  let b := bwe_feed n bwe bps now in
  bwe_inv b /\ bwe_clamp b bps = bwe_clamp bwe bps /\
  Z.abs (estimated_bitrate b - bwe_clamp bwe bps) <= 4 ^ Z.of_nat (k - n).
Proof.
  revert bwe k. induction n as [|n IH]; intros bwe k Hinv Hn Hd; cbn [bwe_feed].
  - by rewrite Nat.sub_0_r.
  - assert (Hinv' := bwe_apply_inv bwe bps now false Hinv).
    assert (Hc : bwe_clamp (bwe_apply bwe bps now false) bps = bwe_clamp bwe bps) by done.
    destruct k as [|k]; [lia|]. specialize (IH _ k Hinv' ltac:(lia)). rewrite Hc in IH.
    replace (S k - S n)%nat with (k - n)%nat by lia. apply IH.
    cbn [bwe_apply with_estimate estimated_bitrate]. destruct Hinv as [Ho Hm He Hp Hl].
    pose proof (bwe_clamp_range bwe bps ltac:(lia)). unfold is_u32 in Hm.
    rewrite bwe_ema_eq by (unfold is_u32; lia).
    replace (Z.of_nat (S k)) with (Z.succ (Z.of_nat k)) in Hd by lia. rewrite Z.pow_succ_r in Hd by lia.
    pose proof (Z.pow_pos_nonneg 4 (Z.of_nat k) ltac:(lia) ltac:(lia)).
    set (c := bwe_clamp bwe bps) in *. set (e := estimated_bitrate bwe) in *. clearbody c e.
    Z.div_mod_to_equations. lia.
Qed.

(** * Properties *)

(** Along every history of bound changes, initial settings, REMB and
    loss feedback (well-formed or not) and event polls, the effective bounds stay
    ordered, the estimate and the event baseline stay inside them, and the
    smoothed loss stays a fraction of at most 256/256. *)
Theorem bwe_history_in_bounds (ops : list bwe_op) :
  Forall op_ok ops -> bwe_inv (foldl bwe_step bwe_init ops).
Proof.
  pose proof bwe_init_inv as H0. revert H0. generalize bwe_init. induction ops as [|op ops IH]; intros bwe Hi Hops; [done|].
  inv Hops. apply IH; [by apply bwe_step_inv | done].
Qed.
Lemma bwe_history_in_bounds_witness :
  bwe_inv (foldl bwe_step bwe_init [Loss 0 10; SetBounds 500000 0; Loss 200 20; PollEvent]) /\
  estimated_bitrate (foldl bwe_step bwe_init [Loss 0 10; SetBounds 500000 0; Loss 200 20; PollEvent]) = 500000.
Proof.
  split; [|vm_compute; reflexivity]. apply bwe_history_in_bounds.
  repeat constructor; unfold is_u32, is_u16; cbn; lia.
Defined.

(** Repeated feedback with one bitrate brings the estimate within one
    bit per second of that bitrate clamped to the bounds after at most 16
    samples, from any state in bounds, and keeps it there. *)
Theorem bwe_feed_converges (n : nat) (bwe : nano_bwe) (bps now : Z) :
  bwe_inv bwe -> (16 <= n)%nat ->
  Z.abs (estimated_bitrate (bwe_feed n bwe bps now) - bwe_clamp bwe bps) <= 1.
Proof.
  intros Hinv Hn. pose proof Hinv as [Ho Hm He Hp Hl]. unfold is_u32 in Hm.
  pose proof (bwe_clamp_range bwe bps ltac:(lia)).
  pose proof (bwe_feed_dist n bwe bps now n Hinv (Nat.le_refl _)) as (_ & _ & Hd).
  - assert (4 ^ 16 <= 4 ^ Z.of_nat n) by (apply Z.pow_le_mono_r; lia).
    change (4 ^ 16) with (2 ^ 32) in *. lia.
  - by rewrite Nat.sub_diag in Hd.
Qed.
Lemma bwe_feed_converges_witness :
  Z.abs (estimated_bitrate (bwe_feed 16 bwe_init 1500000 7) - 1500000) <= 1.
Proof.
  apply (bwe_feed_converges 16 bwe_init 1500000 7); [exact bwe_init_inv | lia].
Defined.

(** On every octet string the REMB parser reads only inside it; an accepted
    packet's bitrate is mantissa * 2^exp saturated at 2^32 - 1, for the 18-bit
    mantissa and 6-bit exponent at octets 17 to 19 (an exponent of 32 or more
    saturates whatever the mantissa). *)
Theorem bwe_parse_remb_spec (data : list Z) :
  bytes data ->
  wp (bwe_parse_remb data) (fun bitrate =>
    let exp := nth 17 data 0 / 4 in
    let mantissa := nth 17 data 0 mod 4 * 65536 + val16 (nth 18 data 0) (nth 19 data 0) in
    (20 <= length data)%nat /\ nth 1 data 0 = 206 /\ nth 0 data 0 / 64 = 2 /\
    bitrate = if 32 <=? exp then UINT32_MAX else Z.min UINT32_MAX (mantissa * 2 ^ exp)).
Proof.
  intros Hb. unfold bwe_parse_remb.
  wp_wire; [wp_wire|]. wp_wire. wp_wire; [lia|]. wp_wire; [wp_wire|]. wp_wire. wp_wire; [lia|].
  wp_wire; [wp_wire|]. wp_wire. wp_wire; [lia|]. wp_wire; [wp_wire|]. wp_wire. wp_wire; [lia|].
  wp_wire; [wp_wire|]. do 3 (wp_wire; wp_wire; [lia|]). wp_wire. cbn [Nat.add] in *.
  assert (nth 0 data 0 / 64 = 2) as Hver.
  { rewrite <- Hg0, Z.shiftr_div_pow2 by lia. change 3 with (Z.ones 2). rewrite Z.land_ones by lia.
    change (2 ^ 6) with 64. change (2 ^ 2) with 4. mach. }
  set (x := nth 17 data 0) in *. set (y := nth 18 data 0) in *. set (z := nth 19 data 0) in *.
  assert (Z.land (Z.shiftr x 2) 63 = x / 4) as ->.
  { rewrite Z.shiftr_div_pow2 by lia. change 63 with (Z.ones 6). rewrite Z.land_ones by lia.
    change (2 ^ 2) with 4. change (2 ^ 6) with 64. mach. }
  assert (Z.lor (Z.lor (Z.shiftl (Z.land x 3) 16) (Z.shiftl y 8)) z = x mod 4 * 65536 + val16 y z) as ->.
  { change 3 with (Z.ones 2). rewrite Z.land_ones by lia. change (2 ^ 2) with 4.
    assert (is_u8 (x mod 4)) by mach.
    replace (Z.shiftl (x mod 4) 16) with (Z.shiftl (Z.shiftl (x mod 4) 8) 8) by (by rewrite Z.shiftl_shiftl by lia).
    rewrite <- Z.shiftl_lor, !lor_shiftl_add by (unfold is_u8 in *; lia). unfold val16. lia. }
  split_and!; [lia | | done |].
  - match goal with H : (_ || _) = false |- _ => idtac | _ => idtac end. bool_facts. by unfold x.
  - set (e := x / 4). set (m := x mod 4 * 65536 + val16 y z).
    assert (0 <= e < 64) by (unfold e; mach). assert (0 <= m < 2 ^ 18) by (unfold m, val16; mach).
    clearbody e m. destruct (Z.leb_spec 32 e); [done|]. cbn [orb].
    rewrite Z.shiftl_mul_pow2, Z.shiftr_div_pow2 by lia. pose proof (Z.pow_pos_nonneg 2 e ltac:(lia) ltac:(lia)).
    destruct (Z.ltb_spec (UINT32_MAX / 2 ^ e) m) as [Hov|Hov].
    + destruct (Z.ltb_spec 0 e); cbn [andb].
      * assert (UINT32_MAX < m * 2 ^ e); [|lia].
        apply Z.nle_gt. intros Hle. apply (Z.div_le_mono _ _ (2 ^ e)) in Hle; [|lia].
        rewrite Z.div_mul in Hle by lia. lia.
      * assert (e = 0) as -> by lia. rewrite Z.div_1_r in Hov. unfold UINT32_MAX in *. lia.
    + rewrite andb_false_r. assert (m * 2 ^ e <= UINT32_MAX).
      { etrans; [apply Z.mul_le_mono_nonneg_r; [lia | apply Hov]|]. rewrite Z.mul_comm. by apply Z.mul_div_le. }
      rewrite u32_id by (unfold is_u32, UINT32_MAX in *; lia). lia.
Qed.
Lemma bwe_parse_remb_spec_witness :
  bwe_parse_remb [143; 206; 0; 5; 0; 0; 0; 1; 0; 0; 0; 0; 82; 69; 77; 66; 1; 17; 0; 1; 0; 0; 0; 9] = Ok 1048592 /\
  wp (bwe_parse_remb [143; 206; 0; 5; 0; 0; 0; 1; 0; 0; 0; 0; 82; 69; 77; 66; 1; 17; 0; 1; 0; 0; 0; 9])
    (fun bitrate => (20 <= 24)%nat /\ 206 = 206 /\ 143 / 64 = 2 /\
       bitrate = if 32 <=? 17 / 4 then UINT32_MAX
                 else Z.min UINT32_MAX ((17 mod 4 * 65536 + val16 0 1) * 2 ^ (17 / 4))).
Proof.
  split; [vm_compute; reflexivity|].
  refine (bwe_parse_remb_spec [143; 206; 0; 5; 0; 0; 0; 1; 0; 0; 0; 0; 82; 69; 77; 66; 1; 17; 0; 1; 0; 0; 0; 9] _).
  bytes_lit.
Defined.
