(* ===== verification/RateControl.v ===== *)
(** Adaptive rate controller, [src/nano_rate_control.c]: the rung selection with
    its asymmetric hysteresis, and the guarantees of the recommendation over a
    history of updates. *)

From Stdlib Require Import ZArith Lia.
From stdpp Require Import base list numbers.
From S2P Require Import Prelude Wire.

Local Open Scope Z_scope.

(** Defaults of [include/nanortc_config.h]. *)
Definition NANORTC_RATE_CONTROL_SAFETY_PCT : Z := 85.
Definition NANORTC_RATE_CONTROL_UP_HEADROOM_PCT : Z := 20.
Definition NANORTC_RATE_CONTROL_MIN_HOLD_MS : Z := 3000.
Definition NANORTC_RATE_CONTROL_LOSS_DOWN_Q8 : Z := 25.

(** [nano_rate_control_t]; the ladder is the list of the rungs' [bitrate_bps]. *)
Record nano_rate_control : Type := NanoRc {
  cur_rung : Z;
  has_rung : bool;
  up_target : Z;
  up_since_ms : Z
}.

Definition rate_control_init : nano_rate_control := NanoRc 0 false 0 0.

Definition rate_control_clear_up (rc : nano_rate_control) : nano_rate_control :=
  NanoRc (cur_rung rc) (has_rung rc) 0 0.

(** The last index whose bitrate fits the budget, 0 if none; the loop's [i] and
    [target]. *)
Fixpoint select_loop (budget : Z) (ladder : list Z) (i target : Z) : Z :=
  match ladder with
  | [] => target
  | b :: ladder => select_loop budget ladder (i + 1) (if b <=? budget then i else target)
  end.
Definition rate_control_select_target (estimate_bps : Z) (ladder : list Z) : Z :=
  let budget := u64 (estimate_bps * NANORTC_RATE_CONTROL_SAFETY_PCT) / 100 in
  select_loop budget ladder 0 0.

(** The state and the returned rung; the ladder access faults out of range. *)
Definition rate_control_update (rc : nano_rate_control) (estimate_bps loss_q8 : Z) (ladder : list Z)
    (now_ms : Z) : res (nano_rate_control * Z) :=
  if (length ladder =? 0)%nat then Err NANORTC_ERR_INVALID_PARAM else
  if estimate_bps =? 0 then Ok (rc, if has_rung rc then cur_rung rc else 0) else
  let target := rate_control_select_target estimate_bps ladder in
  if negb (has_rung rc) then Ok (NanoRc target true 0 0, target) else
  let target :=
    if (NANORTC_RATE_CONTROL_LOSS_DOWN_Q8 <=? loss_q8) && (0 <? cur_rung rc) then
      let loss_target := u8 (cur_rung rc - 1) in
      if loss_target <? target then loss_target else target
    else target in
  if target <? cur_rung rc then
    Ok (rate_control_clear_up (NanoRc target (has_rung rc) (up_target rc) (up_since_ms rc)), target)
  else if cur_rung rc <? target then
    let next := u8 (cur_rung rc + 1) in
    bitrate ← rd8 ladder (Z.to_nat next);
    let need := u64 (bitrate * (100 + NANORTC_RATE_CONTROL_UP_HEADROOM_PCT)) / 100 in
    if need <=? estimate_bps then
      let '(up_t, up_s) := if negb (up_target rc =? next) then (next, now_ms)
                           else (up_target rc, up_since_ms rc) in
      if NANORTC_RATE_CONTROL_MIN_HOLD_MS <=? u32 (now_ms - up_s) then
        Ok (rate_control_clear_up (NanoRc next (has_rung rc) up_t up_s), next)
      else Ok (NanoRc (cur_rung rc) (has_rung rc) up_t up_s, cur_rung rc)
    else Ok (rate_control_clear_up rc, cur_rung rc)
  else Ok (rate_control_clear_up rc, cur_rung rc).

Definition rate_control_get_rung (rc : nano_rate_control) : Z := cur_rung rc.

(** * Specification *)

(** The budget at an estimate, and the headroom test for an up-step from [r]. *)
Definition budget (estimate : Z) : Z := estimate * 85 / 100.
Definition headroom_ok (ladder : list Z) (estimate r : Z) : Prop :=
  nth (Z.to_nat (r + 1)) ladder 0 * 120 / 100 <= estimate.
(** The highest rung that fits a budget, the floor if none does. *)
Definition best_rung (ladder : list Z) (limit r : Z) : Prop :=
  (r = 0 \/ nth (Z.to_nat r) ladder 0 <= limit) /\
  forall k, (k < length ladder)%nat -> nth k ladder 0 <= limit -> Z.of_nat k <= r.
(** The ladder as the documentation requires it: 1 to 255 rungs. *)
Definition ladder_ok (ladder : list Z) : Prop :=
  Forall is_u32 ladder /\ (1 <= length ladder <= 255)%nat.

(** One call. *)
Record rc_call : Type := RcCall { call_estimate : Z; call_loss : Z; call_now : Z }.
Definition call_ok (c : rc_call) : Prop :=
  is_u32 (call_estimate c) /\ is_u16 (call_loss c) /\ is_u32 (call_now c).
Definition rc_run (ladder : list Z) (rc : nano_rate_control) (calls : list rc_call)
  : res nano_rate_control :=
  foldl (fun m c => rc ← m;
           '(rc', _) ← rate_control_update rc (call_estimate c) (call_loss c) ladder (call_now c);
           Ok rc') (Ok rc) calls.

(** * Lemmas *)

Lemma select_loop_range budget ladder i target :
  0 <= i -> 0 <= target < i + Z.of_nat (length ladder) ->
  0 <= select_loop budget ladder i target < i + Z.of_nat (length ladder).
Proof.
  revert i target. induction ladder as [|b ladder IH]; intros i target Hi Ht; cbn [select_loop length]; [done|].
  cbn [length] in Ht. specialize (IH (i + 1) (if b <=? budget then i else target)).
  destruct (b <=? budget); lia.
Qed.
(** The selected rung fits the budget (or is the floor), and no later one does. *)
Lemma select_loop_best budget ladder : forall i target,
  let t := select_loop budget ladder i target in
  (t = target \/ (i <= t < i + Z.of_nat (length ladder) /\ nth (Z.to_nat (t - i)) ladder 0 <= budget)) /\
  forall k, (k < length ladder)%nat -> nth k ladder 0 <= budget ->
    i + Z.of_nat k <= t.
Proof.
  induction ladder as [|b ladder IH]; intros i target; cbn [select_loop length]; [split; [by left | lia]|].
  destruct (IH (i + 1) (if b <=? budget then i else target)) as [H1 H2].
  set (t := select_loop _ _ _ _) in *. split.
  - destruct H1 as [H1|[Hr Hb]].
    + destruct (Z.leb_spec b budget); [|by left]. right. split; [lia|].
      by replace (Z.to_nat (t - i)) with 0%nat by lia.
    + right. split; [lia|]. replace (Z.to_nat (t - i)) with (S (Z.to_nat (t - (i + 1)))) by lia. done.
  - intros [|k] Hk Hn; cbn in Hn.
    + destruct H1 as [H1|[Hr _]]; [|lia]. rewrite (proj2 (Z.leb_le _ _)) in H1 by done. lia.
    + specialize (H2 k ltac:(lia) Hn). lia.
Qed.

Section Update.
Context (ladder : list Z) (Hladder : ladder_ok ladder).
Let n := Z.of_nat (length ladder).

Definition rc_ok (rc : nano_rate_control) : Prop :=
  0 <= cur_rung rc < n /\ (has_rung rc = false -> cur_rung rc = 0) /\
  (up_target rc = 0 \/ has_rung rc = true /\ up_target rc = cur_rung rc + 1).

Lemma select_target_range estimate : 0 <= rate_control_select_target estimate ladder < n.
Proof using Hladder.
  destruct Hladder as [_ Hl]. unfold rate_control_select_target.
  pose proof (select_loop_range (u64 (estimate * NANORTC_RATE_CONTROL_SAFETY_PCT) / 100) ladder 0 0).
  unfold n. lia.
Qed.

Lemma select_target_best estimate :
  is_u32 estimate -> best_rung ladder (budget estimate) (rate_control_select_target estimate ladder).
Proof using.
  intros He. unfold rate_control_select_target, budget, NANORTC_RATE_CONTROL_SAFETY_PCT.
  rewrite u64_id by (unfold is_u64, is_u32 in *; change (2 ^ 64) with 18446744073709551616;
                     change (2 ^ 32) with 4294967296 in *; lia).
  destruct (select_loop_best (estimate * 85 / 100) ladder 0 0) as [H1 H2].
  set (t := select_loop _ _ _ _) in *. split.
  - destruct H1 as [H1|[_ H1]]; [by left | right]. by rewrite Z.sub_0_r in H1.
  - intros k Hk Hn. apply (H2 k Hk Hn).
Qed.

Lemma update_eq rc estimate loss now :
  rc_ok rc -> is_u32 estimate -> estimate <> 0 ->
  rate_control_update rc estimate loss ladder now =
  let sel := rate_control_select_target estimate ladder in
  if negb (has_rung rc) then Ok (NanoRc sel true 0 0, sel) else
  let target := if (25 <=? loss) && (0 <? cur_rung rc) then Z.min (cur_rung rc - 1) sel else sel in
  if target <? cur_rung rc then Ok (NanoRc target true 0 0, target)
  else if cur_rung rc <? target then
    let next := cur_rung rc + 1 in
    if nth (Z.to_nat next) ladder 0 * 120 / 100 <=? estimate then
      let since := if up_target rc =? next then up_since_ms rc else now in
      if 3000 <=? u32 (now - since) then Ok (NanoRc next true 0 0, next)
      else Ok (NanoRc (cur_rung rc) true next since, cur_rung rc)
    else Ok (NanoRc (cur_rung rc) true 0 0, cur_rung rc)
  else Ok (NanoRc (cur_rung rc) true 0 0, cur_rung rc).
Proof using Hladder.
  intros (Hcur & Hno & Hup) He Hne. pose proof (select_target_range estimate) as Hsel.
  pose proof Hladder as [Hu Hl]. unfold rate_control_update.
  destruct (Nat.eqb_spec (length ladder) 0); [lia|]. destruct (Z.eqb_spec estimate 0); [done|].
  cbv zeta. set (sel := rate_control_select_target estimate ladder) in *.
  destruct (has_rung rc) eqn:Hhas; cbn [negb]; [|done].
  unfold NANORTC_RATE_CONTROL_LOSS_DOWN_Q8, NANORTC_RATE_CONTROL_MIN_HOLD_MS, NANORTC_RATE_CONTROL_UP_HEADROOM_PCT.
  unfold n in *.
  replace (if (25 <=? loss) && (0 <? cur_rung rc) then
             if u8 (cur_rung rc - 1) <? sel then u8 (cur_rung rc - 1) else sel else sel)
    with (if (25 <=? loss) && (0 <? cur_rung rc) then Z.min (cur_rung rc - 1) sel else sel).
  2:{ destruct (Z.ltb_spec 0 (cur_rung rc)); [|by rewrite andb_false_r].
      rewrite u8_id by (unfold is_u8; lia). destruct (25 <=? loss); [|done]. cbn [andb].
      destruct (Z.ltb_spec (cur_rung rc - 1) sel); lia. }
  set (target := if (25 <=? loss) && _ then _ else _).
  assert (0 <= target <= sel) as Ht.
  { unfold target. destruct (25 <=? loss), (Z.ltb_spec 0 (cur_rung rc)); cbn [andb]; lia. }
  clearbody target. unfold rate_control_clear_up. cbn [cur_rung has_rung up_target up_since_ms].
  rewrite Hhas. destruct (target <? cur_rung rc); [done|].
  destruct (Z.ltb_spec (cur_rung rc) target); [|done].
  rewrite u8_id by (unfold is_u8; lia). rewrite rd8_Ok, bind_Ok by lia.
  assert (is_u32 (nth (Z.to_nat (cur_rung rc + 1)) ladder 0)) as Hb.
  { destruct (lookup_lt_is_Some_2 ladder (Z.to_nat (cur_rung rc + 1))) as [x Hx]; [lia|].
    rewrite (nth_lookup_Some _ _ _ _ Hx). by eapply Forall_lookup_1. }
  rewrite u64_id by (unfold is_u64, is_u32 in *; change (2 ^ 64) with 18446744073709551616;
                     change (2 ^ 32) with 4294967296 in *; lia).
  change (100 + 20) with 120. destruct (_ <=? estimate); [|done].
  destruct (up_target rc =? cur_rung rc + 1) eqn:Hupt; cbn [negb].
  - apply Z.eqb_eq in Hupt. rewrite Hupt. by destruct (3000 <=? _).
  - by destruct (3000 <=? _).
Qed.

Lemma update_ok rc estimate loss now :
  rc_ok rc -> is_u32 estimate -> exists rc' r,
    rate_control_update rc estimate loss ladder now = Ok (rc', r) /\ rc_ok rc' /\
    r = cur_rung rc' /\ (has_rung rc = true -> has_rung rc' = true).
Proof using Hladder.
  intros Hrc He. pose proof Hrc as (Hcur & Hno & Hup). pose proof Hladder as [Hu Hl].
  destruct (decide (estimate = 0)) as [->|Hne].
  { unfold rate_control_update. destruct (Nat.eqb_spec (length ladder) 0); [lia|]. cbn [Z.eqb].
    exists rc. eexists. split; [done|]. split; [done|]. split; [|done].
    destruct (has_rung rc); [done|]. by rewrite Hno. }
  rewrite update_eq by done. cbv zeta. pose proof (select_target_range estimate) as Hsel.
  set (sel := rate_control_select_target estimate ladder) in *.
  destruct (has_rung rc) eqn:Hhas; cbn [negb].
  2:{ eexists _, _. split; [done|]. split; [|done]. split_and!; cbn; try lia; try done. }
  set (target := if (25 <=? loss) && _ then _ else _).
  assert (0 <= target <= sel) as Ht.
  { unfold target. destruct (25 <=? loss), (Z.ltb_spec 0 (cur_rung rc)); cbn [andb]; lia. }
  clearbody target.
  destruct (Z.ltb_spec target (cur_rung rc)).
  { eexists _, _. split; [done|]. split; [|done]. split_and!; cbn; try lia; try done. }
  destruct (Z.ltb_spec (cur_rung rc) target).
  2:{ eexists _, _. split; [done|]. split; [|done]. split_and!; cbn; try lia; try done. }
  destruct (_ <=? estimate); [destruct (3000 <=? _)|];
    (eexists _, _; split; [done|]; split; [|done]; split_and!; cbn; try lia; try done; auto).
Qed.

(** The up-step timer: when armed, some call in the history armed it at
    [up_since_ms], the rung has not changed since, and no call since has lacked
    the headroom. *)
Definition keeps_headroom (r : Z) (c : rc_call) : Prop :=
  call_estimate c = 0 \/ headroom_ok ladder (call_estimate c) r.
Definition armed_by (history : list rc_call) (rc : nano_rate_control) : Prop :=
  up_target rc <> 0 -> exists before first since,
    history = before ++ first :: since /\ call_now first = up_since_ms rc /\
    Forall (keeps_headroom (cur_rung rc)) (first :: since).

Lemma update_armed rc c history rc' r :
  rc_ok rc -> armed_by history rc -> call_ok c ->
  rate_control_update rc (call_estimate c) (call_loss c) ladder (call_now c) = Ok (rc', r) ->
  armed_by (history ++ [c]) rc' /\
  (has_rung rc = true -> cur_rung rc < cur_rung rc' ->
   cur_rung rc' = cur_rung rc + 1 /\
   exists before first since,
     history ++ [c] = before ++ first :: since /\
     3000 <= u32 (call_now c - call_now first) /\
     Forall (keeps_headroom (cur_rung rc)) (first :: since)).
Proof using Hladder.
  intros Hrc Harm (He & _ & Hnow) Hup. pose proof Hladder as [Hu Hl].
  pose proof Hrc as (Hcur & Hno & Hupt).
  destruct (decide (call_estimate c = 0)) as [H0|Hne].
  { unfold rate_control_update in Hup. destruct (Nat.eqb_spec (length ladder) 0); [lia|].
    rewrite H0 in Hup. cbn [Z.eqb] in Hup. injection Hup as <- <-. split; [|lia].
    intros Ha. destruct (Harm Ha) as (before & first & since & -> & Hf & Hk).
    exists before, first, (since ++ [c]). rewrite <- app_assoc. split_and!; [done | done |].
    rewrite app_comm_cons. apply Forall_app_2; [done|]. apply List.Forall_cons; [by left | constructor]. }
  rewrite update_eq in Hup by done. cbv zeta in Hup.
  set (sel := rate_control_select_target _ _) in *.
  destruct (has_rung rc) eqn:Hhas; cbn [negb] in Hup; [|injection Hup as <- <-; split; [by intros []|done]].
  set (target := if (25 <=? call_loss c) && _ then _ else _) in *. clearbody target.
  destruct (Z.ltb_spec target (cur_rung rc)); [injection Hup as <- <-; split; [by intros [] | cbn; lia]|].
  destruct (Z.ltb_spec (cur_rung rc) target); [|injection Hup as <- <-; split; [by intros [] | cbn; lia]].
  destruct (Z.leb_spec (nth (Z.to_nat (cur_rung rc + 1)) ladder 0 * 120 / 100) (call_estimate c)) as [Hh|];
    [|injection Hup as <- <-; split; [by intros [] | cbn; lia]].
  set (since0 := if up_target rc =? cur_rung rc + 1 then up_since_ms rc else call_now c) in *.
  assert (exists before first since, history ++ [c] = before ++ first :: since /\
            call_now first = since0 /\ Forall (keeps_headroom (cur_rung rc)) (first :: since))
    as (before & first & since & Heq & Hf & Hk).
  { unfold since0. destruct (Z.eqb_spec (up_target rc) (cur_rung rc + 1)) as [Hut|_].
    - destruct (Harm ltac:(lia)) as (before & first & since & -> & Hf & Hk).
      exists before, first, (since ++ [c]). rewrite <- app_assoc. split_and!; [done | done |].
      rewrite app_comm_cons. apply Forall_app_2; [done|]. apply List.Forall_cons; [by right | constructor].
    - exists history, c, []. split_and!; [done | done |]. apply List.Forall_cons; [by right | constructor]. }
  destruct (Z.leb_spec 3000 (u32 (call_now c - since0))); injection Hup as <- <-; cbn.
  - split; [by intros []|]. intros _ _. split; [done|]. exists before, first, since.
    by rewrite Hf.
  - split; [|lia]. intros _. by exists before, first, since.
Qed.

Lemma rc_run_snoc rc calls c :
  rc_run ladder rc (calls ++ [c]) =
  (rc ← rc_run ladder rc calls;
   '(rc', _) ← rate_control_update rc (call_estimate c) (call_loss c) ladder (call_now c); Ok rc').
Proof using. unfold rc_run. by rewrite foldl_app. Qed.
Lemma rc_run_ok calls :
  Forall call_ok calls -> exists rc, rc_run ladder rate_control_init calls = Ok rc /\ rc_ok rc /\ armed_by calls rc.
Proof using Hladder.
  pose proof Hladder as [Hu Hl].
  induction calls as [|c calls IH] using rev_ind; intros Hc.
  { exists rate_control_init. split; [done|]. split; [|by intros []].
    unfold n, rc_ok. cbn. split_and!; try lia; done. }
  apply Forall_app in Hc as [Hc Hc1]. rewrite Forall_cons_iff in Hc1. destruct Hc1 as [Hc1 _].
  destruct (IH Hc) as (rc & Hrun & Hok & Harm). rewrite rc_run_snoc, Hrun, bind_Ok.
  destruct (update_ok rc (call_estimate c) (call_loss c) (call_now c) Hok (proj1 Hc1))
    as (rc' & r & Hup & Hok' & _). rewrite Hup, bind_Ok. exists rc'. split; [done|]. split; [done|].
  exact (proj1 (update_armed rc c calls rc' r Hok Harm Hc1 Hup)).
Qed.
End Update.

(** * Properties *)

(** On any ladder of 1 to 255 rungs, after any history every update
    succeeds without reading outside the ladder and returns the current rung, an
    index into the ladder; the first selection is the highest rung within 85% of
    the estimate; a lossy update ([loss_q8 >= 25]) with an estimate
    never leaves the rung where it is unless it is already the floor. *)
Theorem rate_control_update_in_range (ladder : list Z) (calls : list rc_call) (c : rc_call) :
  ladder_ok ladder -> Forall call_ok calls -> call_ok c ->
  exists rc rc' r,
    rc_run ladder rate_control_init calls = Ok rc /\
    rate_control_update rc (call_estimate c) (call_loss c) ladder (call_now c) = Ok (rc', r) /\
    r = rate_control_get_rung rc' /\ 0 <= r < Z.of_nat (length ladder) /\
    (has_rung rc = true -> call_estimate c <> 0 -> 25 <= call_loss c -> 0 < cur_rung rc -> r < cur_rung rc) /\
    (has_rung rc = false -> call_estimate c <> 0 -> best_rung ladder (budget (call_estimate c)) r).
Proof.
  intros Hl Hcs Hc. destruct (rc_run_ok ladder Hl calls Hcs) as (rc & Hrun & Hok & _).
  destruct (update_ok ladder Hl rc (call_estimate c) (call_loss c) (call_now c) Hok (proj1 Hc))
    as (rc' & r & Hup & Hok' & Hr & _).
  exists rc, rc', r. split_and!; try done; try (destruct Hok' as [? _]; lia).
  2:{ intros Hhas Hne. rewrite (update_eq ladder Hl rc _ _ _ Hok (proj1 Hc) Hne), Hhas in Hup.
      injection Hup as <- <-. apply select_target_best, Hc. }
  intros Hhas Hne Hloss Hpos. rewrite (update_eq ladder Hl rc _ _ _ Hok (proj1 Hc) Hne), Hhas in Hup.
  cbn [negb] in Hup. cbv zeta in Hup.
  rewrite (proj2 (Z.leb_le 25 _)), (proj2 (Z.ltb_lt 0 _)) in Hup by done. cbn [andb] in Hup.
  rewrite (proj2 (Z.ltb_lt _ (cur_rung rc))) in Hup by lia. injection Hup as <- <-. cbn. lia.
Qed.
Lemma rate_control_update_in_range_witness :
  exists rc rc' r,
    rc_run [300000; 900000; 2500000] rate_control_init [RcCall 3000000 0 10] = Ok rc /\
    rate_control_update rc 3000000 30 [300000; 900000; 2500000] 20 = Ok (rc', r) /\
    r = rate_control_get_rung rc' /\ 0 <= r < 3 /\
    (has_rung rc = true -> 3000000 <> 0 -> 25 <= 30 -> 0 < cur_rung rc -> r < cur_rung rc) /\
    (has_rung rc = false -> 3000000 <> 0 -> best_rung [300000; 900000; 2500000] (budget 3000000) r).
Proof.
  refine (rate_control_update_in_range [300000; 900000; 2500000] [RcCall 3000000 0 10] (RcCall 3000000 30 20) _ _ _).
  - split; [repeat constructor; unfold is_u32; lia | cbn; lia].
  - repeat constructor; unfold is_u32, is_u16; cbn; lia.
  - repeat split; unfold is_u32, is_u16; cbn; lia.
Defined.

(** After the first selection the recommendation rises at most one rung at
    a time, and only after the headroom held for the minimum time: the history
    has an earlier call at least 3000 ms before (on the wrapping clock) such that
    that call and every later one, the rising call included, either carried no
    estimate or an estimate at least 1.2 times the next rung's bitrate. *)
Theorem rate_control_up_step_held (ladder : list Z) (calls : list rc_call) (c : rc_call)
    (rc rc' : nano_rate_control) (r : Z) :
  ladder_ok ladder -> Forall call_ok calls -> call_ok c ->
  rc_run ladder rate_control_init calls = Ok rc -> has_rung rc = true ->
  rate_control_update rc (call_estimate c) (call_loss c) ladder (call_now c) = Ok (rc', r) ->
  cur_rung rc < cur_rung rc' ->
  cur_rung rc' = cur_rung rc + 1 /\
  exists before first since,
    calls ++ [c] = before ++ first :: since /\
    3000 <= u32 (call_now c - call_now first) /\
    Forall (keeps_headroom ladder (cur_rung rc)) (first :: since).
Proof.
  intros Hl Hcs Hc Hrun Hhas Hup Hlt. destruct (rc_run_ok ladder Hl calls Hcs) as (rc0 & Hrun0 & Hok & Harm).
  rewrite Hrun in Hrun0. injection Hrun0 as <-.
  exact (proj2 (update_armed ladder Hl rc c calls rc' r Hok Harm Hc Hup) Hhas Hlt).
Qed.
Lemma rate_control_up_step_held_witness :
  rc_run [300000; 900000] rate_control_init [RcCall 400000 0 10; RcCall 1200000 0 20] = Ok (NanoRc 0 true 1 20) /\
  cur_rung (NanoRc 1 true 0 0) = cur_rung (NanoRc 0 true 1 20) + 1.
Proof.
  assert (ladder_ok [300000; 900000]) as Hl by (split; [repeat constructor; unfold is_u32; lia | cbn; lia]).
  assert (Forall call_ok [RcCall 400000 0 10; RcCall 1200000 0 20]) as Hcs
    by (repeat constructor; unfold is_u32, is_u16; cbn; lia).
  assert (call_ok (RcCall 1200000 0 3020)) as Hc by (repeat split; unfold is_u32, is_u16; cbn; lia).
  assert (rc_run [300000; 900000] rate_control_init [RcCall 400000 0 10; RcCall 1200000 0 20]
          = Ok (NanoRc 0 true 1 20)) as Hrun by (vm_compute; reflexivity).
  assert (rate_control_update (NanoRc 0 true 1 20) (call_estimate (RcCall 1200000 0 3020))
            (call_loss (RcCall 1200000 0 3020)) [300000; 900000] (call_now (RcCall 1200000 0 3020))
          = Ok (NanoRc 1 true 0 0, 1)) as Hup by (vm_compute; reflexivity).
  split; [exact Hrun|].
  exact (proj1 (rate_control_up_step_held _ _ _ _ _ _ Hl Hcs Hc Hrun eq_refl Hup ltac:(cbn; lia))).
Defined.
