(* ===== verification/Jitter.v ===== *)
(** Audio jitter buffer, [src/nano_jitter.c]: the ring of slots indexed by the
    sequence number, push, pop and the next timeout; packets come out unaltered
    and in sequence order, and reordering inside the window is healed. *)

From Stdlib Require Import ZArith Lia Sorted.
From stdpp Require Import base list numbers.
From S2P Require Import Prelude SeqNum Wire.

Local Open Scope Z_scope.

(** Defaults of [include/nanortc_config.h]. *)
Definition NANORTC_JITTER_SLOTS : Z := 32.
Definition NANORTC_JITTER_SLOT_DATA_SIZE : nat := 320.

(** [nano_jitter_slot_t]; [js_data] is the whole data array. *)
Record nano_jitter_slot : Type := JSlot {
  js_data : list Z; js_len : nat; js_seq : Z; js_timestamp : Z; js_arrival_ms : Z; js_occupied : bool
}.
(** [nano_jitter_t] *)
Record nano_jitter : Type := NanoJitter {
  jb_slots : list nano_jitter_slot; jb_head_seq : Z; jb_depth_ms : Z; jb_started : bool
}.

Definition empty_slot : nano_jitter_slot := JSlot (replicate NANORTC_JITTER_SLOT_DATA_SIZE 0) 0 0 0 0 false.
Definition jitter_init (depth_ms : Z) : nano_jitter :=
  NanoJitter (replicate (Z.to_nat NANORTC_JITTER_SLOTS) empty_slot) 0 depth_ms false.

(** Slot accesses are checked against the array. *)
Definition slot_idx (seq : Z) : nat := Z.to_nat (seq mod NANORTC_JITTER_SLOTS).
Definition get_slot (slots : list nano_jitter_slot) (i : nat) : res nano_jitter_slot :=
  match slots !! i with Some s => Ok s | None => Fault end.
Definition put_slot (slots : list nano_jitter_slot) (i : nat) (s : nano_jitter_slot)
  : res (list nano_jitter_slot) :=
  if (i <? length slots)%nat then Ok (<[i := s]> slots) else Fault.
Definition vacate (s : nano_jitter_slot) : nano_jitter_slot :=
  JSlot (js_data s) (js_len s) (js_seq s) (js_timestamp s) (js_arrival_ms s) false.

(** [while (jb->head_seq != new_head)]: vacates the slots skipped over. *)
Fixpoint skip_head (fuel : nat) (slots : list nano_jitter_slot) (head new_head : Z)
  : res (list nano_jitter_slot * Z) :=
  match fuel with
  | O => Fault
  | S fuel =>
      if head =? new_head then Ok (slots, head) else
      s ← get_slot slots (slot_idx head);
      slots ← put_slot slots (slot_idx head) (vacate s);
      skip_head fuel slots (u16 (head + 1)) new_head
  end.

(** One iteration per skipped number, and the final test. *)
Definition skip_fuel (head new_head : Z) : nat := S (Z.to_nat (u16 (new_head - head))).

(** The state and the return code (the first two error returns change nothing). *)
Definition jitter_push (jb : nano_jitter) (seq timestamp : Z) (data : list Z) (now_ms : Z)
  : res (nano_jitter * Z) :=
  if (length data =? 0)%nat then Err NANORTC_ERR_INVALID_PARAM else
  if (NANORTC_JITTER_SLOT_DATA_SIZE <? length data)%nat then Err NANORTC_ERR_BUFFER_TOO_SMALL else
  let head := if jb_started jb then jb_head_seq jb else seq in
  let delta := i16 (seq - head) in
  if (delta <? 0) && (NANORTC_JITTER_SLOTS <=? u16 (- delta)) then
    Ok (NanoJitter (jb_slots jb) head (jb_depth_ms jb) true, NANORTC_ERR_NO_DATA)
  else
    '(slots, head) ← (if NANORTC_JITTER_SLOTS <=? delta
                      then let new_head := u16 (seq - NANORTC_JITTER_SLOTS + 1) in
                           skip_head (skip_fuel head new_head) (jb_slots jb) head new_head
                      else Ok (jb_slots jb, head));
    let idx := slot_idx seq in
    slot ← get_slot slots idx;
    array ← wr (js_data slot) 0 data;
    slots ← put_slot slots idx (JSlot array (length data) seq timestamp now_ms true);
    Ok (NanoJitter slots head (jb_depth_ms jb) true, NANORTC_OK).

(** The scan for the first present packet after a missing head: its sequence
    number if it has waited long enough. *)
Fixpoint find_ready (idxs : list Z) (jb : nano_jitter) (now_ms : Z) : res (option Z) :=
  match idxs with
  | [] => Ok None
  | i :: idxs =>
      let check_seq := u16 (jb_head_seq jb + i) in
      check ← get_slot (jb_slots jb) (slot_idx check_seq);
      if js_occupied check && (js_seq check =? check_seq) then
        Ok (if jb_depth_ms jb <=? u32 (now_ms - js_arrival_ms check) then Some check_seq else None)
      else find_ready idxs jb now_ms
  end.
Definition indices (lo hi : Z) : list Z := map Z.of_nat (seq (Z.to_nat lo) (Z.to_nat (hi - lo))).

Definition with_head (jb : nano_jitter) (slots : list nano_jitter_slot) (head : Z) : nano_jitter :=
  NanoJitter slots head (jb_depth_ms jb) (jb_started jb).

(** What [jitter_pop] gives the caller: the return code and, on success, the
    output buffer, [*out_len] and [*timestamp]. *)
Inductive jitter_out : Type :=
| JCode (code : Z)
| JPacket (buf : list Z) (out_len : nat) (timestamp : Z).

(** The pop once the head is settled. *)
Definition jitter_pop_at (jb : nano_jitter) (now_ms : Z) (buf : list Z) : res (nano_jitter * jitter_out) :=
  let idx := slot_idx (jb_head_seq jb) in
  slot ← get_slot (jb_slots jb) idx;
  if negb (js_seq slot =? jb_head_seq jb) then
    slots ← put_slot (jb_slots jb) idx (vacate slot);
    Ok (with_head jb slots (u16 (jb_head_seq jb + 1)), JCode NANORTC_ERR_NO_DATA)
  else if u32 (now_ms - js_arrival_ms slot) <? jb_depth_ms jb then Ok (jb, JCode NANORTC_ERR_NO_DATA)
  else if (length buf <? js_len slot)%nat then Ok (jb, JCode NANORTC_ERR_BUFFER_TOO_SMALL)
  else
    data ← rdn (js_data slot) 0 (js_len slot);
    buf ← wr buf 0 data;
    slots ← put_slot (jb_slots jb) idx (vacate slot);
    Ok (with_head jb slots (u16 (jb_head_seq jb + 1)), JPacket buf (js_len slot) (js_timestamp slot)).

Definition jitter_pop (jb : nano_jitter) (now_ms : Z) (buf : list Z) : res (nano_jitter * jitter_out) :=
  if negb (jb_started jb) then Ok (jb, JCode NANORTC_ERR_NO_DATA) else
  slot ← get_slot (jb_slots jb) (slot_idx (jb_head_seq jb));
  if negb (js_occupied slot) then
    found ← find_ready (indices 1 NANORTC_JITTER_SLOTS) jb now_ms;
    match found with
    | None => Ok (jb, JCode NANORTC_ERR_NO_DATA)
    | Some head => jitter_pop_at (with_head jb (jb_slots jb) head) now_ms buf
    end
  else jitter_pop_at jb now_ms buf.

Fixpoint next_timeout_loop (idxs : list Z) (jb : nano_jitter) (now_ms : Z) : res Z :=
  match idxs with
  | [] => Ok UINT32_MAX
  | i :: idxs =>
      let seq := u16 (jb_head_seq jb + i) in
      slot ← get_slot (jb_slots jb) (slot_idx seq);
      if negb (js_occupied slot) || negb (js_seq slot =? seq) then next_timeout_loop idxs jb now_ms
      else
        let elapsed := u32 (now_ms - js_arrival_ms slot) in
        Ok (if jb_depth_ms jb <=? elapsed then 0 else u32 (jb_depth_ms jb - elapsed))
  end.
Definition jitter_next_timeout_ms (jb : nano_jitter) (now_ms : Z) : res Z :=
  if negb (jb_started jb) then Ok UINT32_MAX
  else next_timeout_loop (indices 0 NANORTC_JITTER_SLOTS) jb now_ms.

(** * Histories *)

(** A packet as pushed, by its number in the sender's unbounded count: the
    sequence number it carries is the low half of that. *)
Record jpacket : Type := JPkt { jp_index : Z; jp_timestamp : Z; jp_data : list Z }.
Definition jp_seq (p : jpacket) : Z := u16 (jp_index p).
Inductive jop : Type :=
| JPush (p : jpacket) (now_ms : Z)
| JPop (now_ms : Z) (buf : list Z).

(** The packets whose size the buffer takes, and the highest number among those
    pushed so far: a function of what arrives, not of the buffer. *)
Definition jp_fits (p : jpacket) : bool := (1 <=? length (jp_data p))%nat && (length (jp_data p) <=? NANORTC_JITTER_SLOT_DATA_SIZE)%nat.
Definition jop_highest (hi : option Z) (op : jop) : option Z :=
  match op with JPush p _ => if jp_fits p then raise hi (jp_index p) else hi | JPop _ _ => hi end.
(** Packets late, repeated, lost and out of order, but each within a quarter of
    the sequence space of the highest before it. *)
Fixpoint jops_in_reach (hi : option Z) (ops : list jop) : Prop :=
  match ops with
  | [] => True
  | op :: ops =>
      match op with JPush p _ => jp_fits p = true -> in_reach hi (jp_index p) | JPop _ _ => True end /\
      jops_in_reach (jop_highest hi op) ops
  end.

(** One operation, with what the caller gets from a successful pop: the octets and
    the timestamp. *)
Definition jitter_step (jb : nano_jitter) (op : jop) : res (nano_jitter * option (list Z * Z)) :=
  match op with
  | JPush p now =>
      match jitter_push jb (jp_seq p) (jp_timestamp p) (jp_data p) now with
      | Ok (jb', _) => Ok (jb', None)
      | Err _ => Ok (jb, None)
      | Fault => Fault
      end
  | JPop now buf =>
      '(jb', out) ← jitter_pop jb now buf;
      Ok (jb', match out with JPacket buf' n ts => Some (take n buf', ts) | JCode _ => None end)
  end.
(** What a history releases, each release with the highest number that had
    arrived by then. *)
Fixpoint jitter_run (jb : nano_jitter) (hi : option Z) (ops : list jop) : res (list (option Z * (list Z * Z))) :=
  match ops with
  | [] => Ok []
  | op :: ops =>
      '(jb, out) ← jitter_step jb op;
      rest ← jitter_run jb (jop_highest hi op) ops;
      Ok (match out with Some o => (hi, o) :: rest | None => rest end)
  end.

(** * Invariant *)

(** A slot is empty of meaning or holds exactly a pushed packet of its residue. *)
Definition slot_ok (pushed : jpacket -> Prop) (i : nat) (s : nano_jitter_slot) : Prop :=
  length (js_data s) = NANORTC_JITTER_SLOT_DATA_SIZE /\
  (js_occupied s = true ->
   exists p, pushed p /\ slot_idx (jp_seq p) = i /\
     js_seq s = jp_seq p /\ js_timestamp s = jp_timestamp p /\ js_len s = length (jp_data p) /\
     (length (jp_data p) <= NANORTC_JITTER_SLOT_DATA_SIZE)%nat /\
     take (js_len s) (js_data s) = jp_data p).
Definition slots_ok (pushed : jpacket -> Prop) (slots : list nano_jitter_slot) : Prop :=
  length slots = Z.to_nat NANORTC_JITTER_SLOTS /\
  forall i s, slots !! i = Some s -> slot_ok pushed i s.
Lemma slots_ok_mono (P Q : jpacket -> Prop) slots : (forall p, P p -> Q p) -> slots_ok P slots -> slots_ok Q slots.
Proof.
  intros HPQ [Hl Hs]. split; [done|]. intros i s Hi. destruct (Hs i s Hi) as [Hd Hp]. split; [done|].
  intros Ho. destruct (Hp Ho) as (p & H & Hr). exists p. split; [by apply HPQ | done].
Qed.

Lemma slot_idx_u16 q : slot_idx (u16 q) = slot_idx q.
Proof. unfold slot_idx, NANORTC_JITTER_SLOTS. f_equal. mach. Qed.
Lemma slot_idx_lt seq : (slot_idx seq < Z.to_nat NANORTC_JITTER_SLOTS)%nat.
Proof. unfold slot_idx, NANORTC_JITTER_SLOTS. pose proof (Z.mod_pos_bound seq 32). lia. Qed.
Lemma get_slot_ok pushed slots seq :
  slots_ok pushed slots -> exists s, get_slot slots (slot_idx seq) = Ok s /\
    slots !! slot_idx seq = Some s /\ slot_ok pushed (slot_idx seq) s.
Proof.
  intros [Hl Hs]. pose proof (slot_idx_lt seq). unfold get_slot.
  destruct (lookup_lt_is_Some_2 slots (slot_idx seq)) as [s Hs']; [lia|]. exists s. rewrite Hs'. auto.
Qed.
Lemma put_slot_ok pushed slots seq s :
  slots_ok pushed slots -> slot_ok pushed (slot_idx seq) s ->
  put_slot slots (slot_idx seq) s = Ok (<[slot_idx seq := s]> slots) /\
  slots_ok pushed (<[slot_idx seq := s]> slots).
Proof.
  intros [Hl Hs] Hso. pose proof (slot_idx_lt seq). unfold put_slot.
  rewrite (proj2 (Nat.ltb_lt _ _)) by lia. split; [done|]. split; [by rewrite length_insert|].
  intros i s' Hi. destruct (decide (i = slot_idx seq)) as [->|].
  - rewrite list_lookup_insert_eq in Hi by lia. by injection Hi as <-.
  - rewrite list_lookup_insert_ne in Hi by done. by apply Hs.
Qed.
Lemma vacate_ok pushed i s : slot_ok pushed i s -> slot_ok pushed i (vacate s).
Proof. intros [Hl _]. split; [done | by intros]. Qed.

Lemma skip_head_ok pushed fuel : forall slots head new_head,
  slots_ok pushed slots -> is_u16 head -> is_u16 new_head -> u16 (new_head - head) < Z.of_nat fuel ->
  exists slots', skip_head fuel slots head new_head = Ok (slots', new_head) /\ slots_ok pushed slots'.
Proof.
  induction fuel as [|fuel IH]; intros slots head new_head Hok Hh Hn Hf; [mach|]. cbn [skip_head].
  destruct (Z.eqb_spec head new_head) as [->|Hne]; [by exists slots|].
  destruct (get_slot_ok pushed slots head Hok) as (s & -> & _ & Hs). rewrite bind_Ok.
  destruct (put_slot_ok pushed slots head (vacate s) Hok (vacate_ok _ _ _ Hs)) as [-> Hok']. rewrite bind_Ok.
  apply IH; [done | apply u16_range | done |]. mach.
Qed.

(** ** The window and the highest number *)

(** The slack while the head stands on a packet. *)
Definition on_packet (slots : list nano_jitter_slot) (pos : Z) : Z :=
  match slots !! slot_idx pos with Some s => if js_occupied s then 31 else 0 | None => 0 end.
(** The head is [pos] in the sender's count: less than a window behind the highest
    number, and ahead of it at most by what the vacant slots account for (a head
    only passes the highest number by giving up slots of earlier cycles). *)
Record jb_at (pushed : jpacket -> Prop) (jb : nano_jitter) (n pos : Z) : Prop := JbAt {
  at_started : jb_started jb = true;
  at_head : jb_head_seq jb = u16 pos;
  at_behind : n - 31 <= pos;
  at_ahead : pos <= n + 32 + 32 * Z.of_nat (vacancies js_occupied (jb_slots jb)) + on_packet (jb_slots jb) pos;
  at_slots : slots_ok (fun p => pushed p /\ jp_index p <= n) (jb_slots jb)
}.
Definition jb_state (pushed : jpacket -> Prop) (jb : nano_jitter) (hi : option Z) (pos : Z) : Prop :=
  match hi with
  | None => jb_started jb = false /\ slots_ok (fun _ => False) (jb_slots jb)
  | Some n => jb_at pushed jb n pos
  end.
Lemma on_packet_bound slots pos : 0 <= on_packet slots pos <= 31.
Proof. unfold on_packet. destruct (_ !! _) as [s|]; [destruct (js_occupied s)|]; lia. Qed.
Lemma at_bound pushed jb n pos : jb_at pushed jb n pos -> pos <= n + 1087.
Proof.
  intros H. pose proof (at_ahead _ _ _ _ H). pose proof (on_packet_bound (jb_slots jb) pos).
  pose proof (vacancies_le js_occupied (jb_slots jb)) as Hv. rewrite (proj1 (at_slots _ _ _ _ H)) in Hv.
  unfold NANORTC_JITTER_SLOTS in Hv. lia.
Qed.

(** Giving up the packet at the head. *)
Lemma at_vacate pushed jb n pos s : jb_at pushed jb n pos -> jb_slots jb !! slot_idx pos = Some s -> js_occupied s = true ->
  put_slot (jb_slots jb) (slot_idx pos) (vacate s) = Ok (<[slot_idx pos := vacate s]> (jb_slots jb)) /\
  jb_at pushed (with_head jb (<[slot_idx pos := vacate s]> (jb_slots jb)) (u16 (jb_head_seq jb + 1))) n (pos + 1).
Proof.
  intros [H1 H2 H3 H4 H5] Hs Ho. pose proof (proj2 H5 _ _ Hs) as Hok.
  destruct (put_slot_ok _ _ _ (vacate s) H5 (vacate_ok _ _ _ Hok)) as [Hput Hok']. split; [done|].
  pose proof (vacancies_insert js_occupied _ _ _ (vacate s) Hs) as Hv. unfold vacancy at 1 2 in Hv. cbn [vacate js_occupied] in Hv. rewrite Ho in Hv.
  unfold on_packet in H4. rewrite Hs, Ho in H4. pose proof (on_packet_bound (<[slot_idx pos := vacate s]> (jb_slots jb)) (pos + 1)).
  constructor; cbn [with_head jb_started jb_head_seq jb_slots]; [done | rewrite H2; mach | lia | lia | done].
Qed.

Lemma push_head_at pushed jb p now n pos : jb_at pushed jb n pos -> pushed p -> jp_fits p = true -> in_reach (Some n) (jp_index p) ->
  exists jb' rc pos', jitter_push jb (jp_seq p) (jp_timestamp p) (jp_data p) now = Ok (jb', rc) /\
    jb_at pushed jb' (Z.max n (jp_index p)) pos' /\ pos <= pos'.
Proof.
  intros H Hp Hf Hreach. pose proof (at_bound _ _ _ _ H) as Hbound. destruct H as [Hst Hh Hbehind Hahead Hslots].
  unfold jp_fits in Hf. bool_facts. unfold jitter_push. rewrite (proj2 (Nat.eqb_neq _ _)) by lia. rewrite (proj2 (Nat.ltb_ge _ _)) by lia.
  cbv zeta. rewrite Hst, Hh. set (e := jp_index p) in *. change (jp_seq p) with (u16 e).
  unfold in_reach, seq_reach in Hreach. change (2 ^ 14) with 16384 in Hreach.
  rewrite i16_distance by lia. unfold NANORTC_JITTER_SLOTS.
  assert (slots_ok (fun q => pushed q /\ jp_index q <= Z.max n e) (jb_slots jb)) as Hs1 by (eapply slots_ok_mono; [|exact Hslots]; cbv beta; intros q []; split; [done | lia]).
  destruct ((e - pos <? 0) && (32 <=? u16 (- (e - pos)))) eqn:Hold.
  { exists (NanoJitter (jb_slots jb) (u16 pos) (jb_depth_ms jb) true), NANORTC_ERR_NO_DATA, pos. split; [done|]. split; [|lia].
    constructor; cbn [jb_started jb_head_seq jb_slots]; [done | done | mach | lia | done]. }
  (* the head after a far-ahead packet *)
  set (pos' := if 32 <=? e - pos then e - 31 else pos).
  assert (exists slots', (if 32 <=? e - pos
            then skip_head (skip_fuel (u16 pos) (u16 (u16 e - 32 + 1))) (jb_slots jb) (u16 pos) (u16 (u16 e - 32 + 1))
            else Ok (jb_slots jb, u16 pos)) = Ok (slots', u16 pos') /\ slots_ok (fun q => pushed q /\ jp_index q <= Z.max n e) slots')
    as (slots' & -> & Hs2).
  { unfold pos'. destruct (32 <=? e - pos); [|by exists (jb_slots jb)].
    destruct (skip_head_ok _ (skip_fuel (u16 pos) (u16 (u16 e - 32 + 1))) (jb_slots jb) (u16 pos) (u16 (u16 e - 32 + 1)) Hs1)
      as (slots' & -> & Hok'); [apply u16_range | apply u16_range | unfold skip_fuel; mach |].
    exists slots'. split; [|done]. do 2 f_equal. mach. }
  rewrite bind_Ok. destruct (get_slot_ok _ slots' (u16 e) Hs2) as (s & -> & Hlk & [Hsl _]).
  rewrite bind_Ok, wr_0, bind_Ok by lia. set (s' := JSlot _ _ _ _ _ _).
  assert (slot_ok (fun q => pushed q /\ jp_index q <= Z.max n e) (slot_idx (u16 e)) s') as Hs'.
  { split; cbn [s' js_data]; [rewrite length_app, length_drop; lia|].
    intros _. exists p. fold e. cbn [s' js_seq js_timestamp js_len js_data]. rewrite take_app_length. split_and!; try done; lia. }
  destruct (put_slot_ok _ slots' (u16 e) s' Hs2 Hs') as [-> Hok']. rewrite bind_Ok.
  exists (NanoJitter (<[slot_idx (u16 e) := s']> slots') (u16 pos') (jb_depth_ms jb) true), NANORTC_OK, pos'.
  assert (e <= pos' + 31 /\ (pos' = pos \/ pos' = e - 31) /\ pos <= pos' /\ pos' < e + 32) as (P1 & P2 & P3 & P4).
  { unfold pos'. destruct (Z.leb_spec 32 (e - pos)); [lia|]. apply andb_false_iff in Hold as [Hold|Hold]; [lia|]. mach. }
  split; [done|]. split; [|done]. pose proof (on_packet_bound (<[slot_idx (u16 e) := s']> slots') pos').
  constructor; cbn [jb_started jb_head_seq jb_slots]; [done | done | lia | lia | done].
Qed.
Lemma jitter_push_start jb p now : jb_started jb = false ->
  jitter_push jb (jp_seq p) (jp_timestamp p) (jp_data p) now =
  jitter_push (NanoJitter (jb_slots jb) (jp_seq p) (jb_depth_ms jb) true) (jp_seq p) (jp_timestamp p) (jp_data p) now.
Proof. intros H. unfold jitter_push. cbn [jb_started jb_head_seq jb_slots jb_depth_ms]. by rewrite H. Qed.
Lemma jitter_push_refuses jb p now : jp_fits p = false -> exists e, jitter_push jb (jp_seq p) (jp_timestamp p) (jp_data p) now = Err e.
Proof.
  unfold jp_fits, jitter_push. intros [H|H]%andb_false_iff.
  - apply Nat.leb_gt in H. rewrite (proj2 (Nat.eqb_eq _ _)) by lia. by eexists.
  - apply Nat.leb_gt in H. destruct (_ =? 0)%nat; [by eexists|]. rewrite (proj2 (Nat.ltb_lt _ _)) by lia. by eexists.
Qed.
Lemma jitter_push_ok pushed jb p now hi pos : jb_state pushed jb hi pos -> pushed p -> jp_fits p = true -> in_reach hi (jp_index p) ->
  exists jb' rc pos', jitter_push jb (jp_seq p) (jp_timestamp p) (jp_data p) now = Ok (jb', rc) /\
    jb_state pushed jb' (raise hi (jp_index p)) pos' /\ (hi <> None -> pos <= pos').
Proof.
  intros H Hp Hf Hr. destruct hi as [n|]; cbn [raise jb_state] in *.
  - destruct (push_head_at pushed jb p now n pos H Hp Hf Hr) as (jb' & rc & pos' & ? & ? & ?). by exists jb', rc, pos'.
  - destruct H as [Hst Hs]. rewrite (jitter_push_start jb p now Hst).
    destruct (push_head_at pushed (NanoJitter (jb_slots jb) (jp_seq p) (jb_depth_ms jb) true) p now (jp_index p) (jp_index p))
      as (jb' & rc & pos' & Hrun & Hat & _); [|done | done | unfold in_reach, seq_reach; lia|].
    + constructor; cbn [jb_started jb_head_seq jb_slots]; [done | done | lia | | by eapply slots_ok_mono; [|exact Hs]].
      pose proof (on_packet_bound (jb_slots jb) (jp_index p)). lia.
    + rewrite Z.max_id in Hat. exists jb', rc, pos'. done.
Qed.

Lemma find_ready_ok P jb now idxs : slots_ok P (jb_slots jb) -> exists r, find_ready idxs jb now = Ok r /\
    forall h, r = Some h -> exists i, In i idxs /\ h = u16 (jb_head_seq jb + i) /\
      exists s, jb_slots jb !! slot_idx h = Some s /\ js_occupied s = true.
Proof.
  intros Hslots. induction idxs as [|i idxs IH]; cbn [find_ready]; [by exists None|].
  destruct (get_slot_ok P (jb_slots jb) (u16 (jb_head_seq jb + i)) Hslots) as (s & -> & Hs & _).
  rewrite bind_Ok. destruct (js_occupied s && (js_seq s =? u16 (jb_head_seq jb + i))) eqn:Hc.
  - bool_facts. eexists. split; [done|]. intros h Hh. destruct (_ <=? _); [|done]. injection Hh as <-.
    exists i. split; [by left|]. split; [done|]. by exists s.
  - destruct IH as (r & -> & Hr). exists r. split; [done|]. intros h Hh'.
    destruct (Hr h Hh') as (i' & ? & ?). exists i'. split; [by right | done].
Qed.

(** A released packet, by the number [h] it is released as. *)
Definition pop_result (pushed : jpacket -> Prop) (n pos pos' : Z) (out : jitter_out) : Prop :=
  match out with
  | JCode _ => True
  | JPacket buf' k ts => exists h p, pos <= h < pos' /\ h <= n + 1087 /\ pushed p /\ jp_index p <= n /\ jp_seq p = u16 h /\
                           take k buf' = jp_data p /\ ts = jp_timestamp p
  end.
Lemma jitter_pop_at_ok pushed jb now buf n pos s : jb_at pushed jb n pos -> jb_slots jb !! slot_idx pos = Some s -> js_occupied s = true ->
  exists jb' out pos', jitter_pop_at jb now buf = Ok (jb', out) /\ jb_at pushed jb' n pos' /\ pos <= pos' /\ pop_result pushed n pos pos' out.
Proof.
  intros H Hs Ho. pose proof (at_head _ _ _ _ H) as Hh. destruct (at_vacate _ _ _ _ _ H Hs Ho) as [Hput Hat].
  destruct (proj2 (at_slots _ _ _ _ H) _ _ Hs) as [Hlen Hpkt]. destruct (Hpkt Ho) as (p & [Hp Hle] & _ & Hpq & Hpt & Hpl & Hple & Hpd).
  unfold jitter_pop_at, get_slot. cbv zeta. rewrite Hh, slot_idx_u16, Hs, bind_Ok. rewrite <- Hh.
  destruct (Z.eqb_spec (js_seq s) (jb_head_seq jb)) as [Hq|]; cbn [negb].
  2:{ rewrite Hput, bind_Ok. eexists _, _, (pos + 1). split; [done|]. split; [done|]. split; [lia | done]. }
  destruct (_ <? jb_depth_ms jb); [eexists _, _, pos; split; [done|]; split; [done|]; split; [lia | done]|].
  destruct (Nat.ltb_spec (length buf) (js_len s)) as [|Hbl]; [eexists _, _, pos; split; [done|]; split; [done|]; split; [lia | done]|].
  rewrite rdn_Ok, bind_Ok, drop_0, Hpd by lia. rewrite wr_0, bind_Ok, Hput, bind_Ok by lia.
  eexists _, _, (pos + 1). split; [done|]. split; [done|]. split; [lia|]. cbn [pop_result].
  exists pos, p. pose proof (at_bound _ _ _ _ H). split; [lia|]. split; [lia|]. split; [done|]. split; [done|].
  split; [congruence|]. by rewrite Hpl, take_app_length.
Qed.
Lemma with_head_id jb : with_head jb (jb_slots jb) (jb_head_seq jb) = jb.
Proof. by destruct jb. Qed.
Lemma In_indices i lo hi : 0 <= lo -> In i (indices lo hi) -> lo <= i < hi.
Proof. unfold indices. intros Hlo (k & <- & Hk)%in_map_iff. apply in_seq in Hk. lia. Qed.

Lemma pop_result_weaken pushed n pos pos1 pos' out : pos <= pos1 -> pop_result pushed n pos1 pos' out -> pop_result pushed n pos pos' out.
Proof. intros Hle. destruct out as [c|buf k ts]; [done|]. intros (h & p & Hh & Hr). exists h, p. split; [lia | done]. Qed.
Lemma jitter_pop_ok pushed jb now buf hi pos : jb_state pushed jb hi pos ->
  exists jb' out pos', jitter_pop jb now buf = Ok (jb', out) /\ jb_state pushed jb' hi pos' /\ pos <= pos' /\
    match hi with None => exists c, out = JCode c | Some n => pop_result pushed n pos pos' out end.
Proof.
  intros H. unfold jitter_pop. destruct hi as [n|]; cbn [jb_state] in *.
  2:{ destruct H as [Hst Hs]. rewrite Hst. cbn [negb]. eexists _, _, pos. split; [done|]. split; [by split|]. split; [lia | by eexists]. }
  pose proof H as [Hst Hh Hbehind Hahead Hslots]. rewrite Hst. cbn [negb]. rewrite Hh, slot_idx_u16.
  destruct (get_slot_ok _ _ pos Hslots) as (s & -> & Hs & _). rewrite bind_Ok. destruct (js_occupied s) eqn:Ho; cbn [negb].
  { destruct (jitter_pop_at_ok pushed jb now buf n pos s H Hs Ho) as (jb' & out & pos' & ? & ? & ? & ?). by exists jb', out, pos'. }
  destruct (find_ready_ok _ jb now (indices 1 NANORTC_JITTER_SLOTS) Hslots) as (r & -> & Hr). rewrite bind_Ok.
  destruct r as [h|]; [|eexists _, _, pos; split; [done|]; split; [done|]; split; [lia | done]].
  destruct (Hr h eq_refl) as (i & Hi%In_indices & -> & s' & Hs' & Ho'); [|lia]. unfold NANORTC_JITTER_SLOTS in Hi.
  rewrite Hh, slot_idx_u16 in Hs'. replace (slot_idx (u16 pos + i)) with (slot_idx (pos + i)) in Hs' by (unfold slot_idx, NANORTC_JITTER_SLOTS; f_equal; mach).
  unfold on_packet in Hahead. rewrite Hs, Ho in Hahead.
  destruct (jitter_pop_at_ok pushed (with_head jb (jb_slots jb) (u16 (jb_head_seq jb + i))) now buf n (pos + i) s') as (jb' & out & pos' & Hrun & Hat & Hle & Hres); [|done | done|].
  - constructor; cbn [with_head jb_started jb_head_seq jb_slots]; [done | rewrite Hh; mach | lia | | done]. unfold on_packet. rewrite Hs', Ho'. lia.
  - exists jb', out, pos'. split; [done|]. split; [done|]. split; [lia|]. eapply pop_result_weaken; [|exact Hres]. lia.
Qed.

(** * Ordered release *)

(** A release while [hi] was the highest number that had arrived, as number [h]. *)
Definition released_as (pushed : jpacket -> Prop) (h : Z) (o : option Z * (list Z * Z)) : Prop :=
  exists n p, o.1 = Some n /\ pushed p /\ o.2 = (jp_data p, jp_timestamp p) /\ given_as 32 1087 n h (jp_index p).
Lemma jitter_step_ok pushed jb hi pos op : jb_state pushed jb hi pos ->
  match op with JPush p _ => pushed p /\ (jp_fits p = true -> in_reach hi (jp_index p)) | JPop _ _ => True end ->
  exists jb' out pos', jitter_step jb op = Ok (jb', out) /\ jb_state pushed jb' (jop_highest hi op) pos' /\ (hi <> None -> pos <= pos') /\
    match out with None => True | Some o => exists h, pos <= h < pos' /\ hi <> None /\ released_as pushed h (hi, o) end.
Proof.
  intros H Hop. destruct op as [p now|now buf]; cbn [jitter_step jop_highest].
  - destruct Hop as [Hp Hr]. destruct (jp_fits p) eqn:Hf.
    + destruct (jitter_push_ok pushed jb p now hi pos H Hp Hf (Hr eq_refl)) as (jb' & rc & pos' & -> & Hs & Hle). by exists jb', None, pos'.
    + destruct (jitter_push_refuses jb p now Hf) as (e & ->). exists jb, None, pos. split; [done|]. split; [done|]. split; [lia | done].
  - destruct (jitter_pop_ok pushed jb now buf hi pos H) as (jb' & out & pos' & -> & Hs & Hle & Hres). rewrite bind_Ok.
    eexists _, _, pos'. split; [done|]. split; [done|]. split; [done|]. destruct out as [c|buf' k ts]; [done|].
    destruct hi as [n|]; [|by destruct Hres]. destruct Hres as (h & p & Hh & Hhn & Hp & Hpn & Hq & Hd & ->). exists h. split; [done|]. split; [done|].
    pose proof (at_behind _ _ _ _ H). exists n, p. split; [done|]. split; [done|]. split; [by rewrite Hd|]. apply given_as_intro; [lia | lia | lia | by symmetry | done].
Qed.
Lemma jitter_run_ok pushed ops : forall jb hi pos, jb_state pushed jb hi pos -> jops_in_reach hi ops ->
  (forall p now, In (JPush p now) ops -> pushed p) ->
  exists outs hs, jitter_run jb hi ops = Ok outs /\ Forall2 (released_as pushed) hs outs /\
    StronglySorted Z.lt hs /\ (hi <> None -> Forall (fun h => pos <= h) hs).
Proof.
  induction ops as [|op ops IH]; intros jb hi pos H Hr Hpush; cbn [jitter_run].
  { exists [], []. split; [done|]. split; [constructor|]. split; [constructor | done]. }
  destruct Hr as [Hr1 Hr2]. destruct (jitter_step_ok pushed jb hi pos op H) as (jb' & out & pos' & -> & Hs & Hle & Hout).
  { destruct op as [p now|]; [|done]. split; [|done]. apply (Hpush p now). by left. }
  rewrite bind_Ok. destruct (IH jb' (jop_highest hi op) pos' Hs Hr2) as (outs & hs & -> & Hrel & Hsort & Hge).
  { intros p now Hin. apply (Hpush p now). by right. }
  assert (hi <> None -> Forall (fun h => pos' <= h) hs) as Hge'.
  { intros Hn. apply Hge. destruct op as [p now|]; [|done]. cbn [jop_highest]. by destruct (jp_fits p). }
  rewrite bind_Ok. destruct out as [o|].
  - destruct Hout as (h & Hh & Hn & Ho). exists ((hi, o) :: outs), (h :: hs). split; [done|]. split; [by constructor|].
    specialize (Hge' Hn). split.
    + constructor; [done|]. refine (List.Forall_impl _ _ Hge'). cbn. lia.
    + intros _. constructor; [lia|]. refine (List.Forall_impl _ _ Hge'). cbn. lia.
  - exists outs, hs. split; [done|]. split; [done|]. split; [done|]. intros Hn. refine (List.Forall_impl _ _ (Hge' Hn)). cbn. specialize (Hle Hn). lia.
Qed.
Lemma jitter_init_ok pushed depth : jb_state pushed (jitter_init depth) None 0.
Proof. split; [done|]. split; [done|]. intros i s Hs. cbn in Hs. apply lookup_replicate in Hs as [-> _]. split; done. Qed.

(** * Healing of reordering *)

Lemma slot_idx_inj base i j :
  (i < 32)%nat -> (j < 32)%nat ->
  slot_idx (base + Z.of_nat i) = slot_idx (base + Z.of_nat j) -> i = j.
Proof.
  unfold slot_idx, NANORTC_JITTER_SLOTS. intros Hi Hj H.
  pose proof (Z.mod_pos_bound (base + Z.of_nat i) 32). pose proof (Z.mod_pos_bound (base + Z.of_nat j) 32).
  apply Z2Nat.inj in H; [|lia..]. Z.div_mod_to_equations. lia.
Qed.

Section Heal.
Context (base depth : Z) (k : nat) (pkt : nat -> jpacket) (arrival : nat -> Z).
Context (Hbase : is_u16 base) (Hk : (1 <= k <= 32)%nat).
Context (Hpkt : forall i, (i < k)%nat -> jp_seq (pkt i) = u16 (base + Z.of_nat i) /\
                          (1 <= length (jp_data (pkt i)) <= NANORTC_JITTER_SLOT_DATA_SIZE)%nat).

Definition push_all (order : list nat) (jb : nano_jitter) : res nano_jitter :=
  foldl (fun m i => jb ← m; '(jb, _) ← jitter_push jb (jp_seq (pkt i)) (jp_timestamp (pkt i))
                                        (jp_data (pkt i)) (arrival i); Ok jb) (Ok jb) order.

Definition holds_pkt (s : nano_jitter_slot) (i : nat) : Prop :=
  js_occupied s = true /\ js_seq s = jp_seq (pkt i) /\ js_timestamp s = jp_timestamp (pkt i) /\
  js_len s = length (jp_data (pkt i)) /\ js_arrival_ms s = arrival i /\
  take (js_len s) (js_data s) = jp_data (pkt i).
(** The head is packet [j]; the packets of [P] are in their slots, every other
    slot of the window is vacant. *)
Record window (P : nat -> Prop) (j : nat) (jb : nano_jitter) : Prop := Window {
  w_head : jb_head_seq jb = u16 (base + Z.of_nat j);
  w_started : jb_started jb = true;
  w_depth : jb_depth_ms jb = depth;
  w_len : length (jb_slots jb) = 32%nat;
  w_slots : forall i, (i < 32)%nat -> exists s, jb_slots jb !! slot_idx (base + Z.of_nat i) = Some s /\
    length (js_data s) = NANORTC_JITTER_SLOT_DATA_SIZE /\
    (P i -> holds_pkt s i) /\ (~ P i -> js_occupied s = false)
}.

(** Updating the slot of packet [i]. *)
Lemma window_update (P P' : nat -> Prop) j j' jb i s :
  window P j jb -> (i < 32)%nat -> length (js_data s) = NANORTC_JITTER_SLOT_DATA_SIZE ->
  (P' i -> holds_pkt s i) -> (~ P' i -> js_occupied s = false) ->
  (forall l, l <> i -> P' l <-> P l) ->
  window P' j' (NanoJitter (<[slot_idx (base + Z.of_nat i) := s]> (jb_slots jb))
                           (u16 (base + Z.of_nat j')) depth true).
Proof using Hk.
  intros [Hh Hst Hd Hl Hs] Hi Hsl H1 H2 Hother. constructor; cbn; [done..| by rewrite length_insert |].
  intros l Hl'. pose proof (slot_idx_lt (base + Z.of_nat i)) as Hlt.
  change (Z.to_nat NANORTC_JITTER_SLOTS) with 32%nat in Hlt.
  destruct (decide (l = i)) as [->|Hne].
  - exists s. rewrite list_lookup_insert_eq by lia. done.
  - destruct (Hs l Hl') as (s' & Hs' & Hlen & Ha & Hb). exists s'.
    rewrite list_lookup_insert_ne by (intros Heq; apply Hne; symmetry; by apply (slot_idx_inj base)).
    split; [done|]. split; [done|]. by rewrite (Hother l Hne).
Qed.

Lemma push_window P jb i :
  window P 0 jb -> (i < k)%nat ->
  exists jb', jitter_push jb (jp_seq (pkt i)) (jp_timestamp (pkt i)) (jp_data (pkt i)) (arrival i)
              = Ok (jb', NANORTC_OK) /\ window (fun l => l = i \/ P l) 0 jb'.
Proof using Hbase Hk Hpkt.
  intros Hw Hi. destruct (Hpkt i Hi) as [Hseq Hlen]. pose proof Hw as [Hh Hst Hd Hl Hs].
  unfold jitter_push. destruct (Nat.eqb_spec (length (jp_data (pkt i))) 0); [lia|].
  destruct (Nat.ltb_spec NANORTC_JITTER_SLOT_DATA_SIZE (length (jp_data (pkt i)))); [lia|].
  rewrite Hst, Hh, Hseq. cbv zeta.
  assert (i16 (u16 (base + Z.of_nat i) - u16 (base + Z.of_nat 0)) = Z.of_nat i) as ->.
  { unfold i16. replace ((u16 (base + Z.of_nat i) - u16 (base + Z.of_nat 0)) mod 2 ^ 16) with (Z.of_nat i) by mach.
    destruct (Z.ltb_spec (Z.of_nat i) (2 ^ 15)); [done|]. change (2 ^ 15) with 32768 in *. lia. }
  replace (Z.of_nat i <? 0) with false by lia. cbn [andb]. unfold NANORTC_JITTER_SLOTS at 1.
  replace (32 <=? Z.of_nat i) with false by lia. rewrite bind_Ok, slot_idx_u16.
  destruct (Hs i ltac:(lia)) as (s & Hlk & Hsl & _). unfold get_slot. rewrite Hlk, bind_Ok.
  rewrite wr_0, bind_Ok by lia. unfold put_slot. pose proof (slot_idx_lt (base + Z.of_nat i)) as Hlt.
  change (Z.to_nat NANORTC_JITTER_SLOTS) with 32%nat in Hlt.
  rewrite (proj2 (Nat.ltb_lt _ _)), bind_Ok by lia. eexists. split; [done|]. rewrite Hd.
  apply (window_update P _ 0 0 jb i); [done | lia | | | |].
  - cbn. rewrite length_app, length_drop. lia.
  - intros _. unfold holds_pkt. cbn. by rewrite take_app_length.
  - intros []. by left.
  - intros l Hne. tauto.
Qed.

Lemma push_all_window order : forall P jb,
  window P 0 jb -> Forall (fun i => (i < k)%nat) order ->
  exists jb', push_all order jb = Ok jb' /\ window (fun l => In l order \/ P l) 0 jb'.
Proof using Hbase Hk Hpkt.
  induction order as [|i order IH]; intros P jb Hw Ho; cbn.
  - exists jb. split; [done|]. destruct Hw as [Hh Hst Hd Hl Hs]. constructor; try done.
    intros i Hi. destruct (Hs i Hi) as (s & ? & ? & Ha & Hb). exists s. split_and!; try done.
    + intros [[]|]; auto.
    + intros Hn. apply Hb. tauto.
  - rewrite Forall_cons_iff in Ho. destruct Ho as [Hi Ho].
    destruct (push_window P jb i Hw Hi) as (jb1 & Hp & Hw1).
    destruct (IH _ _ Hw1 Ho) as (jb' & Hrun & Hw'). exists jb'. split.
    + unfold push_all in *. cbn [foldl]. by rewrite Hp, bind_Ok.
    + destruct Hw' as [Hh Hst Hd Hl Hs]. constructor; try done.
      intros l Hl'. destruct (Hs l Hl') as (s & ? & ? & Ha & Hb). exists s. split_and!; try done.
      * intros [[<-|]|]; auto.
      * intros Hn. apply Hb. intros [|[->|]]; apply Hn; cbn; auto.
Qed.

(** The first push of a fresh buffer makes its packet the head. *)
Lemma push_first :
  exists jb', jitter_push (jitter_init depth) (jp_seq (pkt 0)) (jp_timestamp (pkt 0)) (jp_data (pkt 0))
                (arrival 0%nat) = Ok (jb', NANORTC_OK) /\ window (fun l => l = 0%nat \/ False) 0 jb'.
Proof using Hbase Hk Hpkt.
  assert (Hw : window (fun _ => False) 0
            (NanoJitter (jb_slots (jitter_init depth)) (u16 (base + Z.of_nat 0)) depth true)).
  { constructor; try done. intros i Hi. exists empty_slot. split; [|split; [by vm_compute | done]].
    cbn [jitter_init jb_slots]. apply lookup_replicate_2.
    apply slot_idx_lt. }
  destruct (push_window _ _ 0 Hw ltac:(lia)) as (jb' & Hp & Hw'). exists jb'. split; [|exact Hw'].
  rewrite <- Hp. unfold jitter_push. cbn [jb_started jb_head_seq jb_slots jb_depth_ms jitter_init].
  by rewrite (proj1 (Hpkt 0 ltac:(lia))).
Qed.

(** Pops, the caller's buffer reused. *)
Fixpoint drain (n : nat) (jb : nano_jitter) (now_ms : Z) (buf : list Z) : res (list (list Z * Z)) :=
  match n with
  | O => Ok []
  | S n =>
      '(jb, out) ← jitter_pop jb now_ms buf;
      match out with
      | JCode _ => Ok []
      | JPacket buf' len ts => rest ← drain n jb now_ms buf; Ok ((take len buf', ts) :: rest)
      end
  end.

Lemma pop_window P j jb now buf :
  window P j jb -> (j < k)%nat -> P j -> depth <= u32 (now - arrival j) ->
  (NANORTC_JITTER_SLOT_DATA_SIZE <= length buf)%nat ->
  exists jb' buf', jitter_pop jb now buf
    = Ok (jb', JPacket buf' (length (jp_data (pkt j))) (jp_timestamp (pkt j))) /\
    take (length (jp_data (pkt j))) buf' = jp_data (pkt j) /\
    window (fun l => l <> j /\ P l) (S j) jb'.
Proof using Hbase Hk Hpkt.
  intros Hw Hj HP Hdue Hbuf. pose proof Hw as [Hh Hst Hd Hl Hs]. destruct (Hpkt j Hj) as [Hseq Hlen].
  destruct (Hs j ltac:(lia)) as (s & Hlk & Hsl & Hhold & _).
  destruct (Hhold HP) as (Ho & Hq & Ht & Hln & Ha & Hdt).
  unfold jitter_pop, jitter_pop_at, get_slot. rewrite Hst, Hh, slot_idx_u16, Hlk. cbn [negb]. rewrite !bind_Ok, Ho.
  cbn [negb]. rewrite Hq, Hseq, Z.eqb_refl. cbn [negb]. rewrite Ha, Hd.
  replace (u32 (now - arrival j) <? depth) with false by lia.
  destruct (Nat.ltb_spec (length buf) (js_len s)); [lia|].
  rewrite rdn_Ok, bind_Ok, drop_0, Hdt, wr_0, bind_Ok by lia. unfold put_slot.
  pose proof (slot_idx_lt (base + Z.of_nat j)) as Hlt. change (Z.to_nat NANORTC_JITTER_SLOTS) with 32%nat in Hlt.
  rewrite (proj2 (Nat.ltb_lt _ _)), bind_Ok by lia. rewrite Hln, Ht. eexists _, _. split; [done|].
  split; [by rewrite take_app_length|]. unfold with_head. rewrite Hd, Hst.
  replace (u16 (u16 (base + Z.of_nat j) + 1)) with (u16 (base + Z.of_nat (S j))) by mach.
  apply (window_update P _ j (S j) jb j); [done | lia | done | tauto | done | tauto].
Qed.

Lemma drain_window now buf n : forall j P jb,
  window P j jb -> (forall i, (j <= i < j + n)%nat -> P i) -> (j + n <= k)%nat ->
  (forall i, (i < k)%nat -> depth <= u32 (now - arrival i)) ->
  (NANORTC_JITTER_SLOT_DATA_SIZE <= length buf)%nat ->
  drain n jb now buf = Ok (map (fun i => (jp_data (pkt i), jp_timestamp (pkt i))) (seq j n)).
Proof using Hbase Hk Hpkt.
  induction n as [|n IH]; intros j P jb Hw HP Hn Hdue Hbuf; cbn [drain seq map]; [done|].
  destruct (pop_window P j jb now buf Hw ltac:(lia) ltac:(apply HP; lia) ltac:(apply Hdue; lia) Hbuf)
    as (jb' & buf' & -> & Htake & Hw').
  rewrite bind_Ok. rewrite (IH (S j) _ jb' Hw'); [| |lia|done|done].
  - rewrite bind_Ok, Htake. done.
  - intros i Hi. split; [lia | apply HP; lia].
Qed.
End Heal.

(** * Properties *)

(** C36: over every history of pushes and pops whose packets come out of order,
    late, repeated and with gaps, but each within a quarter of the sequence space
    of the highest number before it, the buffer never touches memory outside its
    slots, and what it releases is pushed packets, octets and timestamp unaltered,
    in strictly increasing order of their numbers in the sender's count.  The
    numbers are those the packets were pushed with; only a packet more than half a
    cycle older than the newest, left in its slot all that time, can come out under
    a later number of its residue, which lies in the window at that time. *)
Theorem jitter_releases_in_order (depth : Z) (ops : list jop) :
  jops_in_reach None ops ->
  exists outs numbers, jitter_run (jitter_init depth) None ops = Ok outs /\
    StronglySorted Z.lt numbers /\
    Forall2 (released_as (fun p => exists now, In (JPush p now) ops)) numbers outs.
Proof.
  intros Hops. destruct (jitter_run_ok (fun p => exists now, In (JPush p now) ops) ops (jitter_init depth) None 0)
    as (outs & hs & Hrun & Hrel & Hs & _); [apply jitter_init_ok | done | by eauto |]. by exists outs, hs.
Qed.
(** The count crosses the 16-bit wrap; the packet before the first is late. *)
Definition jitter_demo : list jop :=
  [JPush (JPkt 65535 7 [1; 2]) 0; JPush (JPkt 65537 9 [4]) 3; JPop 20 (replicate 8 0); JPush (JPkt 65534 6 [9]) 21; JPush (JPkt 65536 8 [3]) 22;
   JPop 42 (replicate 8 0); JPop 42 (replicate 8 0)].
Lemma jitter_releases_in_order_witness :
  jitter_run (jitter_init 20) None jitter_demo = Ok [(Some 65537, ([1; 2], 7)); (Some 65537, ([3], 8)); (Some 65537, ([4], 9))] /\
  exists outs numbers, jitter_run (jitter_init 20) None jitter_demo = Ok outs /\
    StronglySorted Z.lt numbers /\
    Forall2 (released_as (fun p => exists now, In (JPush p now) jitter_demo)) numbers outs.
Proof.
  split; [vm_compute; reflexivity|]. apply jitter_releases_in_order.
  vm_compute. intuition discriminate.
Defined.

(** Packets with consecutive sequence numbers (across the 16-bit wrap
    too), pushed into a fresh buffer in any order that starts with the first and
    spans at most the 32 slots, possibly with repetitions, all come out, in
    order, once each has aged the playout delay: reordering and duplication
    inside the window are invisible to the consumer. *)
Theorem jitter_heals_reordering (base depth now : Z) (k : nat) (pkt : nat -> jpacket) (arrival : nat -> Z)
    (order : list nat) (buf : list Z) :
  is_u16 base -> (1 <= k <= 32)%nat ->
  (forall i, (i < k)%nat -> jp_seq (pkt i) = u16 (base + Z.of_nat i) /\
     (1 <= length (jp_data (pkt i)) <= NANORTC_JITTER_SLOT_DATA_SIZE)%nat /\ depth <= u32 (now - arrival i)) ->
  (forall i, In i order -> (i < k)%nat) -> (forall i, (0 < i < k)%nat -> In i order) ->
  (NANORTC_JITTER_SLOT_DATA_SIZE <= length buf)%nat ->
  exists jb, push_all pkt arrival (0%nat :: order) (jitter_init depth) = Ok jb /\
    drain k jb now buf = Ok (map (fun i => (jp_data (pkt i), jp_timestamp (pkt i))) (seq 0 k)).
Proof.
  intros Hbase Hk Hpkt Hin Hall Hbuf.
  assert (Hpkt' : forall i, (i < k)%nat -> jp_seq (pkt i) = u16 (base + Z.of_nat i) /\
            (1 <= length (jp_data (pkt i)) <= NANORTC_JITTER_SLOT_DATA_SIZE)%nat)
    by (intros i Hi; destruct (Hpkt i Hi) as (? & ? & _); done).
  destruct (push_first base depth k pkt arrival Hbase Hk Hpkt') as (jb1 & Hp & Hw).
  destruct (push_all_window base depth k pkt arrival Hbase Hk Hpkt' order _ jb1 Hw) as (jb & Hrun & Hw').
  { by apply List.Forall_forall. }
  exists jb. split.
  - unfold push_all in *. cbn [foldl]. by rewrite bind_Ok, Hp, bind_Ok.
  - apply (drain_window base depth k pkt arrival Hbase Hk Hpkt' now buf k 0 _ jb Hw'); [| lia | | done].
    + intros i Hi. destruct (decide (i = 0%nat)); [right; by left | left; apply Hall; lia].
    + intros i Hi. by destruct (Hpkt i Hi) as (_ & _ & ?).
Qed.
Lemma jitter_heals_reordering_witness :
  exists jb, push_all (fun i => JPkt (65534 + Z.of_nat i) (Z.of_nat i) [Z.of_nat i]) (fun _ => 5)
               (0%nat :: [2; 1; 3]%nat) (jitter_init 20) = Ok jb /\
    drain 4 jb 30 (replicate 320 0) = Ok (map (fun i => ([Z.of_nat i], Z.of_nat i)) (seq 0 4)).
Proof.
  apply (jitter_heals_reordering 65534 20 30 4
           (fun i => JPkt (65534 + Z.of_nat i) (Z.of_nat i) [Z.of_nat i]) (fun _ => 5) [2; 1; 3]%nat (replicate 320 0)).
  - unfold is_u16. lia.
  - lia.
  - intros i Hi. cbn. unfold NANORTC_JITTER_SLOT_DATA_SIZE. split; [done|]. split; [lia | vm_compute; discriminate].
  - cbn. lia.
  - cbn. lia.
  - rewrite length_replicate. unfold NANORTC_JITTER_SLOT_DATA_SIZE. lia.
Defined.
