(* ===== verification/Reorder.v ===== *)
(** Video reorder buffer, [src/nano_reorder.c]: push with force-advance, the
    pop loop with its latency-cap skip, and the next timeout; the pop loop
    terminates, packets come out in sequence order, and the [lost] flag is set
    exactly at gaps. *)

From Stdlib Require Import ZArith Lia Sorted.
From stdpp Require Import base list numbers.
From S2P Require Import Prelude SeqNum Wire.

Local Open Scope Z_scope.

(** Defaults of [include/nanortc_config.h]. *)
Definition NANORTC_VIDEO_REORDER_SLOTS : Z := 8.
Definition NANORTC_VIDEO_REORDER_MAX_WAIT_MS : Z := 30.
Definition NANORTC_MEDIA_BUF_SIZE : nat := 1232.

(** [nano_reorder_slot_t]; [rs_data] is the whole data array. *)
Record nano_reorder_slot : Type := RSlot {
  rs_data : list Z; rs_len : nat; rs_ts : Z; rs_arrival_ms : Z; rs_seq : Z; rs_marker : Z; rs_occupied : bool
}.
(** [nano_reorder_t] *)
Record nano_reorder : Type := NanoReorder {
  r_slots : list nano_reorder_slot; r_next_seq : Z; r_inited : bool; r_pending_lost : bool
}.
Definition reorder_empty_slot : nano_reorder_slot := RSlot (replicate NANORTC_MEDIA_BUF_SIZE 0) 0 0 0 0 0 false.
Definition reorder_init : nano_reorder :=
  NanoReorder (replicate (Z.to_nat NANORTC_VIDEO_REORDER_SLOTS) reorder_empty_slot) 0 false false.

Definition reorder_slot_idx (seq : Z) : nat :=
  Z.to_nat (u16 (Z.land seq (NANORTC_VIDEO_REORDER_SLOTS - 1))).
Definition reorder_slot (slots : list nano_reorder_slot) (i : nat) : res nano_reorder_slot :=
  match slots !! i with Some s => Ok s | None => Fault end.
Definition reorder_store (slots : list nano_reorder_slot) (i : nat) (s : nano_reorder_slot)
  : res (list nano_reorder_slot) :=
  if (i <? length slots)%nat then Ok (<[i := s]> slots) else Fault.

Definition reorder_push (r : nano_reorder) (seq ts marker : Z) (data : list Z) (now_ms : Z)
  : res nano_reorder :=
  if (length data =? 0)%nat || (NANORTC_MEDIA_BUF_SIZE <? length data)%nat
  then Err NANORTC_ERR_INVALID_PARAM else
  let next_seq := if r_inited r then r_next_seq r else seq in
  let diff := i16 (seq - next_seq) in
  if diff <? 0 then Ok (NanoReorder (r_slots r) next_seq true (r_pending_lost r)) else
  let '(next_seq, pending_lost) :=
    if NANORTC_VIDEO_REORDER_SLOTS <=? diff
    then (u16 (seq - NANORTC_VIDEO_REORDER_SLOTS + 1), true) else (next_seq, r_pending_lost r) in
  s ← reorder_slot (r_slots r) (reorder_slot_idx seq);
  if rs_occupied s && (rs_seq s =? seq) then Ok (NanoReorder (r_slots r) next_seq true pending_lost) else
  array ← wr (rs_data s) 0 data;
  slots ← reorder_store (r_slots r) (reorder_slot_idx seq) (RSlot array (length data) ts now_ms seq marker true);
  Ok (NanoReorder slots next_seq true pending_lost).

(** A slot whose packet is ahead in the window. *)
Definition ahead_of (r : nano_reorder) (s : nano_reorder_slot) : Z := i16 (rs_seq s - r_next_seq r).
Definition in_window (r : nano_reorder) (s : nano_reorder_slot) : bool :=
  rs_occupied s && (0 <? ahead_of r s) && (ahead_of r s <? NANORTC_VIDEO_REORDER_SLOTS).
Fixpoint should_skip_loop (slots : list nano_reorder_slot) (r : nano_reorder) (now_ms : Z) : bool :=
  match slots with
  | [] => false
  | s :: slots =>
      if in_window r s && (NANORTC_VIDEO_REORDER_MAX_WAIT_MS <=? u32 (now_ms - rs_arrival_ms s))
      then true else should_skip_loop slots r now_ms
  end.
Definition reorder_should_skip (r : nano_reorder) (now_ms : Z) : bool := should_skip_loop (r_slots r) r now_ms.

(** What a successful pop gives the caller; [out_data]/[out_len] are the octets. *)
Record reorder_out : Type := ROut { ro_seq : Z; ro_ts : Z; ro_marker : Z; ro_data : list Z; ro_lost : bool }.

(** The [for (;;)] loop; [None] is [NANORTC_ERR_NO_DATA]. *)
Fixpoint reorder_pop_loop (fuel : nat) (r : nano_reorder) (now_ms : Z) : res (nano_reorder * option reorder_out) :=
  match fuel with
  | O => Fault
  | S fuel =>
      s ← reorder_slot (r_slots r) (reorder_slot_idx (r_next_seq r));
      if rs_occupied s && (rs_seq s =? r_next_seq r) then
        data ← rdn (rs_data s) 0 (rs_len s);
        slots ← reorder_store (r_slots r) (reorder_slot_idx (r_next_seq r))
                  (RSlot (rs_data s) (rs_len s) (rs_ts s) (rs_arrival_ms s) (rs_seq s) (rs_marker s) false);
        Ok (NanoReorder slots (u16 (r_next_seq r + 1)) (r_inited r) false,
            Some (ROut (rs_seq s) (rs_ts s) (rs_marker s) data (r_pending_lost r)))
      else if reorder_should_skip r now_ms then
        reorder_pop_loop fuel (NanoReorder (r_slots r) (u16 (r_next_seq r + 1)) (r_inited r) true) now_ms
      else Ok (r, None)
  end.
(** The loop runs at most once per slot of the window, see [reorder_pop_ok]. *)
Definition reorder_pop (r : nano_reorder) (now_ms : Z) : res (nano_reorder * option reorder_out) :=
  if negb (r_inited r) then Ok (r, None)
  else reorder_pop_loop (Z.to_nat NANORTC_VIDEO_REORDER_SLOTS) r now_ms.

Fixpoint timeout_loop (slots : list nano_reorder_slot) (r : nano_reorder) (now_ms best : Z) : Z :=
  match slots with
  | [] => best
  | s :: slots =>
      let age := u32 (now_ms - rs_arrival_ms s) in
      let left := if NANORTC_VIDEO_REORDER_MAX_WAIT_MS <=? age then 0
                  else u32 (NANORTC_VIDEO_REORDER_MAX_WAIT_MS - age) in
      timeout_loop slots r now_ms (if in_window r s && (left <? best) then left else best)
  end.
Definition reorder_next_timeout_ms (r : nano_reorder) (now_ms : Z) : res Z :=
  if negb (r_inited r) then Ok UINT32_MAX else
  head ← reorder_slot (r_slots r) (reorder_slot_idx (r_next_seq r));
  if rs_occupied head && (rs_seq head =? r_next_seq r) then Ok 0
  else Ok (timeout_loop (r_slots r) r now_ms UINT32_MAX).

(** * Histories *)

(** A packet as pushed, by its number in the sender's unbounded count: the
    sequence number it carries is the low half of that. *)
Record rpacket : Type := RPkt { rp_index : Z; rp_ts : Z; rp_marker : Z; rp_data : list Z }.
Definition rp_seq (p : rpacket) : Z := u16 (rp_index p).
Inductive rop : Type :=
| RPush (p : rpacket) (now_ms : Z)
| RPop (now_ms : Z).

(** The packets whose size the buffer takes, and the highest number among those
    pushed so far: a function of what arrives, not of the buffer. *)
Definition rp_fits (p : rpacket) : bool := (1 <=? length (rp_data p))%nat && (length (rp_data p) <=? NANORTC_MEDIA_BUF_SIZE)%nat.
Definition rop_highest (hi : option Z) (op : rop) : option Z :=
  match op with RPush p _ => if rp_fits p then raise hi (rp_index p) else hi | RPop _ => hi end.
(** Packets late, repeated, lost and out of order, but each within a quarter of
    the sequence space of the highest before it. *)
Fixpoint rops_in_reach (hi : option Z) (ops : list rop) : Prop :=
  match ops with
  | [] => True
  | op :: ops =>
      match op with RPush p _ => rp_fits p = true -> in_reach hi (rp_index p) | RPop _ => True end /\
      rops_in_reach (rop_highest hi op) ops
  end.
(** The number of the first packet a history gets into the buffer. *)
Fixpoint first_index (ops : list rop) : Z :=
  match ops with
  | [] => 0
  | RPush p _ :: ops => if rp_fits p then rp_index p else first_index ops
  | RPop _ :: ops => first_index ops
  end.

Definition reorder_step (r : nano_reorder) (op : rop) : res (nano_reorder * option reorder_out) :=
  match op with
  | RPush p now =>
      match reorder_push r (rp_seq p) (rp_ts p) (rp_marker p) (rp_data p) now with
      | Ok r' => Ok (r', None)
      | Err _ => Ok (r, None)
      | Fault => Fault
      end
  | RPop now => reorder_pop r now
  end.
(** What a history releases, each release with the highest number that had
    arrived by then. *)
Fixpoint reorder_run (r : nano_reorder) (hi : option Z) (ops : list rop) : res (list (option Z * reorder_out)) :=
  match ops with
  | [] => Ok []
  | op :: ops =>
      '(r, out) ← reorder_step r op;
      rest ← reorder_run r (rop_highest hi op) ops;
      Ok (match out with Some o => (hi, o) :: rest | None => rest end)
  end.

(** * Invariant *)

Definition rslot_ok (pushed : rpacket -> Prop) (i : nat) (s : nano_reorder_slot) : Prop :=
  length (rs_data s) = NANORTC_MEDIA_BUF_SIZE /\ is_u16 (rs_seq s) /\
  (rs_occupied s = true ->
   exists p, pushed p /\ rs_seq s = rp_seq p /\ reorder_slot_idx (rp_seq p) = i /\
     rs_ts s = rp_ts p /\ rs_marker s = rp_marker p /\
     (rs_len s <= NANORTC_MEDIA_BUF_SIZE)%nat /\ take (rs_len s) (rs_data s) = rp_data p).
Record r_ok (pushed : rpacket -> Prop) (r : nano_reorder) : Prop := ROk {
  ok_next : is_u16 (r_next_seq r);
  ok_len : length (r_slots r) = 8%nat;
  ok_slots : forall i s, r_slots r !! i = Some s -> rslot_ok pushed i s
}.

Lemma r_ok_mono (P Q : rpacket -> Prop) r : (forall p, P p -> Q p) -> r_ok P r -> r_ok Q r.
Proof.
  intros HPQ [H1 H2 H3]. constructor; [done | done|]. intros i s Hi. destruct (H3 i s Hi) as (Hl & Hq & Hp).
  split; [done|]. split; [done|]. intros Ho. destruct (Hp Ho) as (p & H & Hr). exists p. split; [by apply HPQ | done].
Qed.
Lemma reorder_slot_idx_eq seq : reorder_slot_idx seq = Z.to_nat (seq mod 8).
Proof.
  unfold reorder_slot_idx, NANORTC_VIDEO_REORDER_SLOTS. change (8 - 1) with (Z.ones 3).
  rewrite Z.land_ones by lia. change (2 ^ 3) with 8. f_equal. apply u16_id. mach.
Qed.
Lemma reorder_slot_idx_lt seq : (reorder_slot_idx seq < 8)%nat.
Proof. rewrite reorder_slot_idx_eq. pose proof (Z.mod_pos_bound seq 8). lia. Qed.

Section Slots.
Context (pushed : rpacket -> Prop) (r : nano_reorder) (Hok : r_ok pushed r).

Lemma reorder_slot_ok seq : exists s,
  reorder_slot (r_slots r) (reorder_slot_idx seq) = Ok s /\
  r_slots r !! reorder_slot_idx seq = Some s /\ rslot_ok pushed (reorder_slot_idx seq) s.
Proof using Hok.
  destruct Hok as [_ Hl Hs]. pose proof (reorder_slot_idx_lt seq). unfold reorder_slot.
  destruct (lookup_lt_is_Some_2 (r_slots r) (reorder_slot_idx seq)) as [s Hs']; [lia|].
  exists s. rewrite Hs'. auto.
Qed.
Lemma reorder_store_ok seq s next b1 b2 :
  rslot_ok pushed (reorder_slot_idx seq) s -> is_u16 next ->
  reorder_store (r_slots r) (reorder_slot_idx seq) s = Ok (<[reorder_slot_idx seq := s]> (r_slots r)) /\
  r_ok pushed (NanoReorder (<[reorder_slot_idx seq := s]> (r_slots r)) next b1 b2).
Proof using Hok.
  intros Hso Hn. destruct Hok as [_ Hl Hs]. pose proof (reorder_slot_idx_lt seq). unfold reorder_store.
  rewrite (proj2 (Nat.ltb_lt _ _)) by lia. split; [done|]. constructor; [done | cbn; by rewrite length_insert|].
  intros i s' Hi. cbn in Hi. destruct (decide (i = reorder_slot_idx seq)) as [->|].
  - rewrite list_lookup_insert_eq in Hi by lia. by injection Hi as <-.
  - rewrite list_lookup_insert_ne in Hi by done. by apply Hs.
Qed.
Lemma r_ok_next next b1 b2 : is_u16 next -> r_ok pushed (NanoReorder (r_slots r) next b1 b2).
Proof using Hok. destruct Hok. by constructor. Qed.
End Slots.

(** ** The window and the highest number *)

(** [next_seq] is [pos] in the sender's count, [edge] the number that would
    continue the released ones without a gap, and [pending_lost] whether they
    differ. *)
Record r_in (pushed : rpacket -> Prop) (r : nano_reorder) (pos edge : Z) : Prop := RIn {
  in_inited : r_inited r = true;
  in_next : r_next_seq r = u16 pos;
  in_edge : edge <= pos;
  in_pending : r_pending_lost r = negb (pos =? edge);
  in_slots : r_ok pushed r
}.
Definition known (pushed : rpacket -> Prop) (n : Z) (p : rpacket) : Prop := pushed p /\ rp_index p <= n.
(** Less than a window behind the highest number, and ahead of it at most by what
    the vacant slots account for (only packets of earlier cycles lead past it). *)
Record r_at (pushed : rpacket -> Prop) (r : nano_reorder) (n pos edge : Z) : Prop := RAt {
  ra_in : r_in (known pushed n) r pos edge;
  ra_behind : n - 7 <= pos;
  ra_ahead : pos <= n + 8 * Z.of_nat (vacancies rs_occupied (r_slots r))
}.
Definition r_state (pushed : rpacket -> Prop) (r : nano_reorder) (hi : option Z) (pos edge : Z) : Prop :=
  match hi with
  | None => r_inited r = false /\ r_pending_lost r = false /\ r_ok (fun _ => False) r
  | Some n => r_at pushed r n pos edge
  end.
Lemma r_at_bound pushed r n pos edge : r_at pushed r n pos edge -> pos <= n + 64.
Proof.
  intros [H _ Ha]. pose proof (vacancies_le rs_occupied (r_slots r)) as Hv. rewrite (ok_len _ _ (in_slots _ _ _ _ H)) in Hv. lia.
Qed.

Lemma push_in_window pushed r p now n pos edge : r_at pushed r n pos edge -> pushed p -> rp_fits p = true -> in_reach (Some n) (rp_index p) ->
  exists r' pos', reorder_push r (rp_seq p) (rp_ts p) (rp_marker p) (rp_data p) now = Ok r' /\
    r_at pushed r' (Z.max n (rp_index p)) pos' edge /\ pos <= pos'.
Proof.
  intros H Hp Hf Hreach. pose proof (r_at_bound _ _ _ _ _ H) as Hbound. destruct H as [[Hi Hn He Hpl Hok] Hbehind Hahead].
  unfold rp_fits in Hf. bool_facts. unfold reorder_push. rewrite (proj2 (Nat.eqb_neq _ _)), (proj2 (Nat.ltb_ge _ _)) by lia. cbn [orb]. cbv zeta.
  rewrite Hi, Hn. set (e := rp_index p) in *. change (rp_seq p) with (u16 e).
  unfold in_reach, seq_reach in Hreach. change (2 ^ 14) with 16384 in Hreach. rewrite i16_distance by lia. unfold NANORTC_VIDEO_REORDER_SLOTS.
  set (n' := Z.max n e). assert (r_ok (known pushed n') r) as Hok' by (eapply r_ok_mono; [|exact Hok]; intros q []; split; [done | unfold n'; lia]).
  destruct (Z.ltb_spec (e - pos) 0).
  { exists (NanoReorder (r_slots r) (u16 pos) true (r_pending_lost r)), pos. split; [done|]. split; [|lia]. unfold n' in *.
    constructor; [|lia | cbn [r_slots]; lia]. constructor; try done. apply r_ok_next; [done | apply u16_range]. }
  set (pos' := if 8 <=? e - pos then e - 7 else pos).
  assert (exists lost, (if 8 <=? e - pos then (u16 (u16 e - 8 + 1), true) else (u16 pos, r_pending_lost r)) = (u16 pos', lost) /\ lost = negb (pos' =? edge)) as (lost & -> & Hlost).
  { unfold pos'. destruct (Z.leb_spec 8 (e - pos)); eexists; (split; [f_equal; mach|]); [|done]. by rewrite (proj2 (Z.eqb_neq _ _)) by lia. }
  assert (pos <= pos' <= e /\ n' - 7 <= pos' /\ e <= n') as (P1 & P2 & P3) by (unfold pos', n'; destruct (Z.leb_spec 8 (e - pos)); lia).
  destruct (reorder_slot_ok _ r Hok' (u16 e)) as (s & -> & Hlk & [Hsl [Hsq Hs]]). rewrite bind_Ok.
  destruct (_ && _).
  { eexists _, pos'. split; [done|]. split; [|lia]. constructor; [|lia | cbn [r_slots]; lia]. constructor; try done; [lia|]. apply r_ok_next; [done | apply u16_range]. }
  rewrite wr_0, bind_Ok by lia. match goal with |- context [reorder_store _ _ ?s'] => set (sl := s') end.
  assert (rslot_ok (known pushed n') (reorder_slot_idx (u16 e)) sl) as Hsl'.
  { split; [cbn; rewrite length_app, length_drop; lia|]. split; [apply u16_range|]. intros _. exists p. cbn.
    rewrite take_app_length. split_and!; try done; lia. }
  destruct (reorder_store_ok _ r Hok' (u16 e) sl (u16 pos') true lost Hsl' (u16_range _)) as [-> Hok2].
  rewrite bind_Ok. eexists _, pos'. split; [done|]. split; [|lia]. constructor; [|lia | cbn [r_slots]; lia]. constructor; try done. lia.
Qed.
Lemma reorder_push_start r p now : r_inited r = false ->
  reorder_push r (rp_seq p) (rp_ts p) (rp_marker p) (rp_data p) now =
  reorder_push (NanoReorder (r_slots r) (rp_seq p) true (r_pending_lost r)) (rp_seq p) (rp_ts p) (rp_marker p) (rp_data p) now.
Proof. intros H. unfold reorder_push. cbn [r_inited r_next_seq r_slots r_pending_lost]. by rewrite H. Qed.
Lemma reorder_push_refuses r p now : rp_fits p = false -> reorder_push r (rp_seq p) (rp_ts p) (rp_marker p) (rp_data p) now = Err NANORTC_ERR_INVALID_PARAM.
Proof.
  unfold rp_fits, reorder_push. intros [H|H]%andb_false_iff; apply Nat.leb_gt in H.
  - by rewrite (proj2 (Nat.eqb_eq _ _)) by lia.
  - by rewrite (proj2 (Nat.ltb_lt _ _)), orb_true_r by lia.
Qed.
Lemma reorder_push_ok pushed r p now hi pos edge : r_state pushed r hi pos edge -> pushed p -> rp_fits p = true -> in_reach hi (rp_index p) ->
  exists r' pos', reorder_push r (rp_seq p) (rp_ts p) (rp_marker p) (rp_data p) now = Ok r' /\
    r_state pushed r' (raise hi (rp_index p)) pos' (match hi with Some _ => edge | None => rp_index p end) /\ (hi <> None -> pos <= pos').
Proof.
  intros H Hp Hf Hr. destruct hi as [n|]; cbn [raise r_state] in *.
  - destruct (push_in_window pushed r p now n pos edge H Hp Hf Hr) as (r' & pos' & ? & ? & ?). by exists r', pos'.
  - destruct H as (Hi & Hpl & Hok). rewrite (reorder_push_start r p now Hi).
    destruct (push_in_window pushed (NanoReorder (r_slots r) (rp_seq p) true (r_pending_lost r)) p now (rp_index p) (rp_index p) (rp_index p))
      as (r' & pos' & Hrun & Hat & _); [|done | done | unfold in_reach, seq_reach; lia|].
    + constructor; [|lia | lia]. constructor; try done; [cbn; by rewrite Hpl, Z.eqb_refl|]. apply r_ok_next; [|apply u16_range].
      eapply r_ok_mono; [|exact Hok]. done.
    + rewrite Z.max_id in Hat. exists r', pos'. done.
Qed.

(** ** Popping *)

Definition aged (now : Z) (s : nano_reorder_slot) : bool := NANORTC_VIDEO_REORDER_MAX_WAIT_MS <=? u32 (now - rs_arrival_ms s).
(** Skipping is for an aged packet ahead in the window. *)
Lemma should_skip_iff r now slots :
  should_skip_loop slots r now = true <-> exists s, In s slots /\ in_window r s = true /\ aged now s = true.
Proof.
  induction slots as [|s slots IH]; cbn [should_skip_loop]; [split; [done | by intros (s & [] & _)]|]. fold (aged now s).
  destruct (in_window r s && aged now s) eqn:Hw.
  - apply andb_true_iff in Hw. split; [|done]. intros _. exists s. split; [by left | done].
  - rewrite IH. split.
    + intros (s' & ? & ?). exists s'. split; [by right | done].
    + intros (s' & [->|Hin] & H1 & H2); [by rewrite H1, H2 in Hw | by exists s'].
Qed.

(** The packet given out as number [h], and whether a number was skipped before it. *)
Definition released (pushed : rpacket -> Prop) (h edge : Z) (o : reorder_out) : Prop :=
  ro_lost o = negb (h =? edge) /\
  exists p, pushed p /\ rp_seq p = u16 h /\ ro_seq o = rp_seq p /\ ro_ts o = rp_ts p /\ ro_marker o = rp_marker p /\ ro_data o = rp_data p.
(** A pop that releases [h]: one more vacant slot, the next number to go on with. *)
Definition pops (pushed : rpacket -> Prop) (r : nano_reorder) (edge : Z) (run : res (nano_reorder * option reorder_out)) (h : Z) : Prop :=
  exists r' o, run = Ok (r', Some o) /\ released pushed h edge o /\ r_in pushed r' (h + 1) (h + 1) /\
    vacancies rs_occupied (r_slots r') = S (vacancies rs_occupied (r_slots r)).
Lemma reorder_release pushed r fuel now pos edge s : r_in pushed r pos edge -> r_slots r !! reorder_slot_idx (r_next_seq r) = Some s ->
  rs_occupied s = true -> rs_seq s = r_next_seq r -> pops pushed r edge (reorder_pop_loop (S fuel) r now) pos.
Proof.
  intros [Hi Hn He Hpl Hok] Hlk Hocc Hq. cbn [reorder_pop_loop].
  destruct (reorder_slot_ok pushed r Hok (r_next_seq r)) as (s' & -> & Hlk' & [Hsl [Hsq Hs]]).
  rewrite Hlk in Hlk'. injection Hlk' as <-. rewrite bind_Ok, Hocc, Hq, Z.eqb_refl. cbn [andb].
  destruct (Hs Hocc) as (p & Hp & Hpq & Hpi & Hpt & Hpm & Hpl' & Hpd). rewrite rdn_Ok, bind_Ok, drop_0, Hpd by lia.
  set (s' := RSlot _ _ _ _ _ _ false).
  destruct (reorder_store_ok pushed r Hok (r_next_seq r) s' (u16 (r_next_seq r + 1)) (r_inited r) false) as [-> Hok'];
    [split; [done|]; split; [apply Hok | done] | apply u16_range|].
  pose proof (vacancies_insert rs_occupied _ _ _ s' Hlk) as Hv. unfold vacancy in Hv. rewrite Hocc in Hv. cbn [s' rs_occupied] in Hv.
  rewrite bind_Ok. eexists _, _. split; [done|]. split; [|split; [|cbn [r_slots]; lia]].
  - split; [done|]. exists p. cbn. split_and!; try done; congruence.
  - constructor; cbn [r_inited r_next_seq r_pending_lost]; [done | rewrite Hn; mach | lia | by rewrite Z.eqb_refl | done].
Qed.

(** An aged packet [a] numbers ahead: the loop releases within [a] skips. *)
Lemma reorder_pop_ahead pushed now : forall fuel r s i pos edge, r_in pushed r pos edge -> r_slots r !! i = Some s -> rs_occupied s = true ->
  0 <= ahead_of r s < Z.of_nat fuel -> (fuel <= 8)%nat -> aged now s = true ->
  exists h, pos <= h < pos + Z.of_nat fuel /\ pops pushed r edge (reorder_pop_loop fuel r now) h.
Proof.
  induction fuel as [|fuel IH]; intros r s i pos edge Hin Hi Hocc Ha Hf Hage; [lia|].
  pose proof (in_slots _ _ _ _ Hin) as Hok. pose proof (ok_slots _ _ Hok i s Hi) as (Hsl & Hsq & Hs).
  destruct (Hs Hocc) as (p & _ & Hpq & Hpi & _). rewrite <- Hpq in Hpi.
  destruct (reorder_slot_ok pushed r Hok (r_next_seq r)) as (s0 & Hget & Hlk & _).
  destruct (rs_occupied s0 && (rs_seq s0 =? r_next_seq r)) eqn:Hrel.
  { bool_facts. exists pos. split; [lia|]. by apply (reorder_release pushed r fuel now pos edge s0). }
  pose proof (ok_next _ _ Hok) as Hnx. assert (ahead_of r s = (rs_seq s - r_next_seq r) mod 2 ^ 16) as Hmod.
  { unfold ahead_of, i16 in *. destruct (Z.ltb_spec ((rs_seq s - r_next_seq r) mod 2 ^ 16) (2 ^ 15)); [done | mach]. }
  assert (ahead_of r s <> 0) as Hne.
  { intros H0. rewrite Hmod in H0. assert (rs_seq s = r_next_seq r) as Heq by mach.
    rewrite Heq in Hpi. subst i. rewrite Hlk in Hi. injection Hi as ->. by rewrite Hocc, Heq, Z.eqb_refl in Hrel. }
  cbn [reorder_pop_loop]. rewrite Hget, bind_Ok, Hrel.
  assert (reorder_should_skip r now = true) as ->.
  { apply should_skip_iff. exists s. split; [by apply list_elem_of_In, (list_elem_of_lookup_2 _ i)|]. split; [|done].
    unfold in_window, NANORTC_VIDEO_REORDER_SLOTS. rewrite Hocc, (proj2 (Z.ltb_lt _ _)), (proj2 (Z.ltb_lt _ _)) by lia. done. }
  set (r1 := NanoReorder _ _ _ _). destruct Hin as [Hin1 Hin2 Hin3 Hin4 _].
  assert (r_in pushed r1 (pos + 1) edge) as Hr1.
  { constructor; cbn [r1 r_inited r_next_seq r_pending_lost]; [done | rewrite Hin2; mach | lia | by rewrite (proj2 (Z.eqb_neq _ _)) by lia|].
    apply (r_ok_next pushed r Hok), u16_range. }
  assert (ahead_of r1 s = ahead_of r s - 1) as Ha1.
  { rewrite Hmod in *. unfold ahead_of. cbn [r1 r_next_seq]. unfold i16.
    replace ((rs_seq s - u16 (r_next_seq r + 1)) mod 2 ^ 16) with ((rs_seq s - r_next_seq r) mod 2 ^ 16 - 1) by mach.
    rewrite (proj2 (Z.ltb_lt _ _)); [done|]. change (2 ^ 15) with 32768. lia. }
  destruct (IH r1 s i (pos + 1) edge Hr1) as (h & Hh & Hpop); try done; [lia | lia|].
  exists h. split; [lia | done].
Qed.
Lemma reorder_pop_in pushed r now pos edge : r_in pushed r pos edge ->
  reorder_pop r now = Ok (r, None) \/ exists h, pos <= h < pos + 8 /\ pops pushed r edge (reorder_pop r now) h.
Proof.
  intros H. pose proof (in_slots _ _ _ _ H) as Hok. unfold reorder_pop. rewrite (in_inited _ _ _ _ H). cbn [negb].
  change (Z.to_nat NANORTC_VIDEO_REORDER_SLOTS) with 8%nat.
  destruct (reorder_slot_ok pushed r Hok (r_next_seq r)) as (s0 & Hget & Hlk & _).
  destruct (rs_occupied s0 && (rs_seq s0 =? r_next_seq r)) eqn:Hrel.
  { bool_facts. right. exists pos. split; [lia|]. by apply (reorder_release pushed r 7 now pos edge s0). }
  destruct (reorder_should_skip r now) eqn:Hskip.
  - right. destruct (proj1 (should_skip_iff _ _ _) Hskip) as (s & Hs & Hw & Hage). unfold in_window, NANORTC_VIDEO_REORDER_SLOTS in Hw.
    bool_facts. apply list_elem_of_In, list_elem_of_lookup_1 in Hs as [i Hi'].
    destruct (reorder_pop_ahead pushed now 8 r s i pos edge) as (h & Hh & Hpop); try done; [lia|]. exists h. split; [lia | done].
  - left. cbn [reorder_pop_loop]. by rewrite Hget, bind_Ok, Hrel, Hskip.
Qed.

(** * Ordered release with exact loss marking *)

(** A release while [hi] was the highest number that had arrived, as number [h]. *)
Definition released_as (pushed : rpacket -> Prop) (h : Z) (o : option Z * reorder_out) : Prop :=
  exists n p, o.1 = Some n /\ pushed p /\ given_as 8 64 n h (rp_index p) /\
    ro_seq o.2 = rp_seq p /\ ro_ts o.2 = rp_ts p /\ ro_marker o.2 = rp_marker p /\ ro_data o.2 = rp_data p.
(** Whether each number is other than the one after its predecessor. *)
Fixpoint gaps (next : Z) (numbers : list Z) : list bool :=
  match numbers with [] => [] | h :: numbers => negb (h =? next) :: gaps (h + 1) numbers end.

Lemma reorder_step_ok pushed r hi pos edge op : r_state pushed r hi pos edge ->
  match op with RPush p _ => pushed p /\ (rp_fits p = true -> in_reach hi (rp_index p)) | RPop _ => True end ->
  exists r' out pos' edge', reorder_step r op = Ok (r', out) /\ r_state pushed r' (rop_highest hi op) pos' edge' /\ (hi <> None -> pos <= pos') /\
    match out with
    | None => match hi, rop_highest hi op with None, Some n => edge' = n | _, _ => edge' = edge end
    | Some o => exists h, hi <> None /\ pos <= h < pos' /\ edge <= h /\ edge' = h + 1 /\ ro_lost o = negb (h =? edge) /\ released_as pushed h (hi, o)
    end.
Proof.
  intros H Hop. destruct op as [p now|now]; cbn [reorder_step rop_highest].
  - destruct Hop as [Hp Hr]. destruct (rp_fits p) eqn:Hf.
    + destruct (reorder_push_ok pushed r p now hi pos edge H Hp Hf (Hr eq_refl)) as (r' & pos' & -> & Hs & Hle).
      eexists r', None, pos', _. split; [done|]. split; [exact Hs|]. split; [done|]. by destruct hi.
    + rewrite (reorder_push_refuses r p now Hf). exists r, None, pos, edge. split; [done|]. split; [done|]. split; [lia|]. by destruct hi.
  - destruct hi as [n|]; cbn [r_state] in *.
    2:{ destruct H as (Hi & Hpl & Hok). unfold reorder_pop. rewrite Hi. by exists r, None, pos, edge. }
    destruct H as [Hin Hbehind Hahead]. destruct (reorder_pop_in _ r now pos edge Hin) as [->|(h & Hh & r' & o & -> & (Hlost & p & [Hp Hpn] & Hq & Hr) & Hin' & Hv)].
    { exists r, None, pos, edge. split; [done|]. split; [by constructor|]. split; [lia | done]. }
    pose proof (in_edge _ _ _ _ Hin). pose proof (vacancies_le rs_occupied (r_slots r)) as Hvl. rewrite (ok_len _ _ (in_slots _ _ _ _ Hin)) in Hvl.
    pose proof (vacancies_le rs_occupied (r_slots r')) as Hvl'. rewrite (ok_len _ _ (in_slots _ _ _ _ Hin')) in Hvl'.
    exists r', (Some o), (h + 1), (h + 1). split; [done|]. split; [constructor; [done | lia | lia]|]. split; [lia|].
    exists h. split; [done|]. split; [lia|]. split; [lia|]. split; [done|]. split; [done|].
    exists n, p. split; [done|]. split; [done|]. split; [|done]. apply given_as_intro; [lia | lia | lia | by symmetry | done].
Qed.
Lemma reorder_run_ok pushed ops : forall r hi pos edge, r_state pushed r hi pos edge -> rops_in_reach hi ops ->
  (forall p now, In (RPush p now) ops -> pushed p) ->
  exists outs hs, reorder_run r hi ops = Ok outs /\ Forall2 (released_as pushed) hs outs /\ StronglySorted Z.lt hs /\
    (hi <> None -> Forall (fun h => pos <= h) hs) /\
    map (fun o => ro_lost o.2) outs = gaps (match hi with Some _ => edge | None => first_index ops end) hs.
Proof.
  induction ops as [|op ops IH]; intros r hi pos edge H Hr Hpush; cbn [reorder_run].
  { exists [], []. split; [done|]. split; [constructor|]. split; [constructor|]. by split. }
  destruct Hr as [Hr1 Hr2]. destruct (reorder_step_ok pushed r hi pos edge op H) as (r' & out & pos' & edge' & -> & Hs & Hle & Hout).
  { destruct op as [p now|]; [|done]. split; [|done]. apply (Hpush p now). by left. }
  rewrite bind_Ok. destruct (IH r' (rop_highest hi op) pos' edge' Hs Hr2) as (outs & hs & -> & Hrel & Hsort & Hge & Hgap).
  { intros p now Hin. apply (Hpush p now). by right. }
  assert (hi <> None -> rop_highest hi op <> None) as Hsome by (destruct op as [p now|]; [cbn [rop_highest]; by destruct (rp_fits p) | done]).
  rewrite bind_Ok. destruct out as [o|].
  - destruct Hout as (h & Hn & Hh & He & -> & Hlost & Ho). exists ((hi, o) :: outs), (h :: hs). specialize (Hge (Hsome Hn)).
    split; [done|]. split; [by constructor|]. split; [|split].
    + constructor; [done|]. refine (List.Forall_impl _ _ Hge). cbn. lia.
    + intros _. constructor; [lia|]. refine (List.Forall_impl _ _ Hge). cbn. lia.
    + destruct hi as [n|]; [|done]. cbn [map gaps snd]. rewrite Hlost, Hgap. f_equal. destruct (rop_highest (Some n) op) eqn:E; [done | by destruct (Hsome Hn)].
  - exists outs, hs. split; [done|]. split; [done|]. split; [done|]. split.
    + intros Hn. refine (List.Forall_impl _ _ (Hge (Hsome Hn))). cbn. specialize (Hle Hn). lia.
    + rewrite Hgap. destruct hi as [n|].
      * destruct (rop_highest (Some n) op) eqn:E; [by rewrite Hout | by destruct (Hsome ltac:(done))].
      * destruct op as [p now|now]; cbn [rop_highest first_index] in *; [|done]. destruct (rp_fits p); [|done]. cbn [raise] in *. by rewrite Hout.
Qed.
Lemma reorder_init_ok pushed : r_state pushed reorder_init None 0 0.
Proof.
  split; [done|]. split; [done|]. constructor; [cbn; unfold is_u16; lia | done |]. intros i s Hs. apply lookup_replicate in Hs as [-> _].
  split; [done|]. split; [cbn; unfold is_u16; lia | done].
Qed.

(** * Properties *)

(** C37: over every history of pushes and pops whose packets come out of order,
    late, repeated and with gaps, but each within a quarter of the sequence space
    of the highest number before it, the buffer stays inside its slots and every
    pop loop ends; what it releases is pushed packets, octet for octet and with
    their sequence number, timestamp and marker, in strictly increasing order of
    their numbers in the sender's count, and [lost] is set on a packet exactly when
    the number before it was not released - on the first, exactly when it is not
    the first one accepted.  The numbers are those the packets were pushed with;
    only a packet more than half a cycle older than the newest, left in its slot
    all that time, can come out under a later number of its residue. *)
Theorem reorder_releases_in_order (ops : list rop) :
  rops_in_reach None ops ->
  exists outs numbers, reorder_run reorder_init None ops = Ok outs /\
    StronglySorted Z.lt numbers /\
    Forall2 (released_as (fun p => exists now, In (RPush p now) ops)) numbers outs /\
    map (fun o => ro_lost o.2) outs = gaps (first_index ops) numbers.
Proof.
  intros Hops. destruct (reorder_run_ok (fun p => exists now, In (RPush p now) ops) ops reorder_init None 0 0)
    as (outs & hs & Hrun & Hrel & Hs & _ & Hg); [apply reorder_init_ok | done | by eauto |]. by exists outs, hs.
Qed.
(** The count crosses the 16-bit wrap, one packet comes after its successor and
    another stays away. *)
Definition reorder_demo : list rop :=
  [RPush (RPkt 65535 7 0 [1]) 0; RPop 1; RPush (RPkt 65537 8 1 [2; 3]) 5; RPush (RPkt 65536 8 0 [9]) 6; RPop 6; RPop 6;
   RPush (RPkt 65539 9 0 [4]) 7; RPop 8; RPop 37].
Lemma reorder_releases_in_order_witness :
  reorder_run reorder_init None reorder_demo =
    Ok [(Some 65535, ROut 65535 7 0 [1] false); (Some 65537, ROut 0 8 0 [9] false); (Some 65537, ROut 1 8 1 [2; 3] false); (Some 65539, ROut 3 9 0 [4] true)] /\
  exists outs numbers, reorder_run reorder_init None reorder_demo = Ok outs /\
    StronglySorted Z.lt numbers /\
    Forall2 (released_as (fun p => exists now, In (RPush p now) reorder_demo)) numbers outs /\
    map (fun o => ro_lost o.2) outs = gaps (first_index reorder_demo) numbers.
Proof.
  split; [vm_compute; reflexivity|]. apply reorder_releases_in_order. vm_compute. intuition discriminate.
Defined.
