(* ===== verification/Fec.v ===== *)
(** Forward error correction, [src/nano_fec.c] (ULPFEC, RFC 5109 level 0): the
    encoder and the single-loss recovery, and the theorem that any one lost
    member of a group is rebuilt octet for octet. *)

From Stdlib Require Import ZArith Lia Permutation.
From stdpp Require Import base list numbers.
From S2P Require Import Prelude Wire.

Local Open Scope Z_scope.

Definition FEC_HEADER_SIZE : nat := 10.
Definition FEC_LEVEL0_HEADER_SIZE : nat := 4.
Definition FEC_OVERHEAD : nat := 14.
Definition FEC_MAX_GROUP : nat := 16.
Definition FEC_RTP_HDR : nat := 12.

(** * Encoder *)

(** A member pointer with its length; dereferencing a null one faults. *)
Definition member := option (list Z).
Definition deref (p : member) : res (list Z) := match p with Some b => Ok b | None => Fault end.
Definition member_seq (p : member) : res Z := b ← deref p; nanortc_read_u16be b 2.

Fixpoint sn_base_loop (pkts : list member) (base : Z) : res Z :=
  match pkts with
  | [] => Ok base
  | p :: pkts =>
      sn ← member_seq p;
      sn_base_loop pkts (if i16 (sn - base) <? 0 then sn else base)
  end.
Definition fec_sn_base (pkts : list member) : res Z :=
  match pkts with
  | [] => Fault
  | p :: rest => base ← member_seq p; sn_base_loop rest base
  end.

(** The validation loop, computing [max_bs]. *)
Fixpoint fec_check (pkts : list member) (sn_base : Z) (max_bs : nat) : res nat :=
  match pkts with
  | [] => Ok max_bs
  | None :: _ => Err NANORTC_ERR_INVALID_PARAM
  | Some p :: pkts =>
      if (length p <? FEC_RTP_HDR)%nat then Err NANORTC_ERR_INVALID_PARAM else
      sn ← nanortc_read_u16be p 2;
      if Z.of_nat FEC_MAX_GROUP <=? u16 (sn - sn_base) then Err NANORTC_ERR_INVALID_PARAM else
      let bs := (length p - 2)%nat in
      fec_check pkts sn_base (if (max_bs <? bs)%nat then bs else max_bs)
  end.

(** [out[i] ^= v] and [out[dst + k] ^= p[src + k]] for [k < n]. *)
Definition xor8 (out : list Z) (i : nat) (v : Z) : res (list Z) :=
  x ← rd8 out i; wr out i [Z.lxor x v].
Fixpoint xor_range (n : nat) (out : list Z) (dst : nat) (p : list Z) (src : nat) : res (list Z) :=
  match n with
  | O => Ok out
  | S n =>
      y ← rd8 p src;
      out ← xor8 out dst y;
      xor_range n out (S dst) p (S src)
  end.

(** The accumulation loop over the members: the FEC packet and the mask. *)
Fixpoint fec_accumulate (pkts : list member) (sn_base : Z) (out : list Z) (mask : Z)
  : res (list Z * Z) :=
  match pkts with
  | [] => Ok (out, mask)
  | m :: pkts =>
      p ← deref m;
      p0 ← rd8 p 0; out ← xor8 out 0 (Z.land p0 0x3F);
      p1 ← rd8 p 1; out ← xor8 out 1 p1;
      p4 ← rd8 p 4; out ← xor8 out 4 p4;
      p5 ← rd8 p 5; out ← xor8 out 5 p5;
      p6 ← rd8 p 6; out ← xor8 out 6 p6;
      p7 ← rd8 p 7; out ← xor8 out 7 p7;
      let len16 := u16 (Z.of_nat (length p) - Z.of_nat FEC_RTP_HDR) in
      out ← xor8 out 8 (u8 (Z.shiftr len16 8));
      out ← xor8 out 9 (u8 (Z.land len16 0xFF));
      out ← xor_range (Z.to_nat len16) out FEC_OVERHEAD p FEC_RTP_HDR;
      sn ← nanortc_read_u16be p 2;
      let off := u16 (sn - sn_base) in
      fec_accumulate pkts sn_base out (Z.lor mask (u16 (Z.shiftr 0x8000 off)))
  end.

(** [out] is the caller's buffer of [out_cap] octets. *)
Definition fec_encode (pkts : list member) (out : list Z) : res (list Z * nat) :=
  let count := length pkts in
  if (count =? 0)%nat || (FEC_MAX_GROUP <? count)%nat then Err NANORTC_ERR_INVALID_PARAM else
  sn_base ← fec_sn_base pkts;
  max_bs ← fec_check pkts sn_base 0;
  let protlen := u16 (Z.of_nat max_bs - Z.of_nat FEC_HEADER_SIZE) in
  let total := (FEC_OVERHEAD + Z.to_nat protlen)%nat in
  if (length out <? total)%nat then Err NANORTC_ERR_BUFFER_TOO_SMALL else
  out ← wr out 0 (replicate total 0);
  '(out, mask) ← fec_accumulate pkts sn_base out 0;
  out ← wr out 2 (be16 sn_base);
  out ← wr out 10 (be16 protlen);
  out ← wr out 12 (be16 mask);
  Ok (out, total).

(** * Recovery *)

(** Some received packet of sufficient length carries [sn]. *)
Fixpoint fec_present (recv : list member) (sn : Z) : res bool :=
  match recv with
  | [] => Ok false
  | None :: recv => fec_present recv sn
  | Some p :: recv =>
      if (FEC_RTP_HDR <=? length p)%nat then
        s ← nanortc_read_u16be p 2;
        if s =? sn then Ok true else fec_present recv sn
      else fec_present recv sn
  end.
(** The scan of the 16 offsets: [missing_count] and [missing_off]. *)
Fixpoint fec_missing (offs : list nat) (recv : list member) (sn_base mask : Z) (count : nat) (off : Z)
  : res (nat * Z) :=
  match offs with
  | [] => Ok (count, off)
  | o :: offs =>
      if Z.land mask (u16 (Z.shiftr 0x8000 (Z.of_nat o))) =? 0
      then fec_missing offs recv sn_base mask count off
      else
        present ← fec_present recv (u16 (sn_base + Z.of_nat o));
        if present : bool then fec_missing offs recv sn_base mask count off
        else fec_missing offs recv sn_base mask (S count) (Z.of_nat o)
  end.

(** The recovery registers [r0], [r1], [rts], [rlen]. *)
Record fec_regs : Type := FecRegs { fr0 : Z; fr1 : Z; frts : list Z; frlen : Z }.
Fixpoint fec_subtract (recv : list member) (sn_base mask : Z) (protlen : Z) (regs : fec_regs) (out : list Z)
  : res (fec_regs * list Z) :=
  match recv with
  | [] => Ok (regs, out)
  | None :: recv => fec_subtract recv sn_base mask protlen regs out
  | Some p :: recv =>
      if (length p <? FEC_RTP_HDR)%nat then fec_subtract recv sn_base mask protlen regs out else
      sn ← nanortc_read_u16be p 2;
      let off := u16 (sn - sn_base) in
      if (Z.of_nat FEC_MAX_GROUP <=? off) || (Z.land mask (u16 (Z.shiftr 0x8000 off)) =? 0)
      then fec_subtract recv sn_base mask protlen regs out
      else
        p0 ← rd8 p 0; p1 ← rd8 p 1;
        p4 ← rd8 p 4; p5 ← rd8 p 5; p6 ← rd8 p 6; p7 ← rd8 p 7;
        rts ← xor8 (frts regs) 0 p4; rts ← xor8 rts 1 p5; rts ← xor8 rts 2 p6; rts ← xor8 rts 3 p7;
        let l16 := u16 (Z.of_nat (length p) - Z.of_nat FEC_RTP_HDR) in
        let pcopy := if l16 <? protlen then l16 else protlen in
        out ← xor_range (Z.to_nat pcopy) out FEC_RTP_HDR p FEC_RTP_HDR;
        fec_subtract recv sn_base mask protlen
          (FecRegs (Z.lxor (fr0 regs) (Z.land p0 0x3F)) (Z.lxor (fr1 regs) p1) rts
                   (Z.lxor (frlen regs) l16)) out
  end.

(** The output buffer, [*out_len] and [*out_seq]. *)
Definition fec_recover (fec : list Z) (media_ssrc : Z) (recv : list member) (out : list Z)
  : res (list Z * nat * Z) :=
  let fec_len := length fec in
  if (fec_len <? FEC_OVERHEAD)%nat then Err NANORTC_ERR_INVALID_PARAM else
  sn_base ← nanortc_read_u16be fec 2;
  protlen ← nanortc_read_u16be fec 10;
  mask ← nanortc_read_u16be fec 12;
  if (fec_len <? FEC_OVERHEAD + Z.to_nat protlen)%nat then Err NANORTC_ERR_INVALID_PARAM else
  '(missing_count, missing_off) ← fec_missing (seq 0 FEC_MAX_GROUP) recv sn_base mask 0 (-1);
  if negb (missing_count =? 1)%nat then Err NANORTC_ERR_NO_DATA else
  let missing_sn := u16 (sn_base + missing_off) in
  if (length out <? FEC_RTP_HDR + Z.to_nat protlen)%nat then Err NANORTC_ERR_BUFFER_TOO_SMALL else
  f0 ← rd8 fec 0; f1 ← rd8 fec 1;
  rts ← rdn fec 4 4;
  rlen ← nanortc_read_u16be fec 8;
  payload ← rdn fec FEC_OVERHEAD (Z.to_nat protlen);
  out ← wr out FEC_RTP_HDR payload;
  '(regs, out) ← fec_subtract recv sn_base mask protlen (FecRegs (Z.land f0 0x3F) f1 rts rlen) out;
  let rlen := if protlen <? frlen regs then protlen else frlen regs in
  out ← wr out 0 [u8 (Z.lor 0x80 (fr0 regs))];
  out ← wr out 1 [fr1 regs];
  out ← wr out 2 (be16 missing_sn);
  out ← wr out 4 (frts regs);
  out ← wr out 8 (be32 media_ssrc);
  Ok (out, (FEC_RTP_HDR + Z.to_nat rlen)%nat, missing_sn).

(** * XOR sums *)

Definition xsum {A} (f : A -> Z) (l : list A) : Z := foldr (fun p acc => Z.lxor (f p) acc) 0 l.
Lemma xsum_cons {A} (f : A -> Z) x l : xsum f (x :: l) = Z.lxor (f x) (xsum f l).
Proof. done. Qed.
Lemma xsum_perm {A} (f : A -> Z) l l' : Permutation l l' -> xsum f l = xsum f l'.
Proof.
  induction 1 as [|x l l' _ IH|x y l|l1 l2 l3 _ IH1 _ IH2];
    rewrite ?xsum_cons; [done | by rewrite IH | | by rewrite IH1].
  by rewrite <- !Z.lxor_assoc, (Z.lxor_comm (f y)).
Qed.
Lemma xsum_cancel {A} (f : A -> Z) x l : Z.lxor (xsum f (x :: l)) (xsum f l) = f x.
Proof. by rewrite xsum_cons, Z.lxor_assoc, Z.lxor_nilpotent, Z.lxor_0_r. Qed.
Lemma xsum_bounded {A} n (f : A -> Z) l :
  0 <= n -> (forall x, In x l -> 0 <= f x < 2 ^ n) -> 0 <= xsum f l < 2 ^ n.
Proof.
  intros Hn. induction l as [|x l IH]; intros Hf; [cbn; pose proof (Z.pow_pos_nonneg 2 n); lia|].
  apply lxor_bounded; [done | apply Hf; by left | apply IH; intros; apply Hf; by right].
Qed.

(** XOR of a source into the front of a destination. *)
Fixpoint xor_into (dst src : list Z) : list Z :=
  match dst, src with
  | d :: dst, s :: src => Z.lxor d s :: xor_into dst src
  | _, _ => dst
  end.
Lemma xor_into_length dst src : length (xor_into dst src) = length dst.
Proof. revert src. induction dst as [|d dst IH]; intros [|s src]; cbn; auto. Qed.
Lemma nth_xor_into dst src k :
  (k < length dst)%nat -> nth k (xor_into dst src) 0 = Z.lxor (nth k dst 0) (nth k src 0).
Proof.
  revert src k. induction dst as [|d dst IH]; intros [|s src] k Hk; cbn in *; try lia.
  - destruct k; by rewrite Z.lxor_0_r.
  - destruct k as [|k]; [done|]. apply IH. lia.
Qed.
Lemma nth_xor_fold {A} (f : A -> list Z) l : forall dst k,
  (k < length dst)%nat ->
  nth k (foldl (fun d p => xor_into d (f p)) dst l) 0 = Z.lxor (nth k dst 0) (xsum (fun p => nth k (f p) 0) l).
Proof.
  induction l as [|p l IH]; intros dst k Hk; cbn [foldl]; [cbn; by rewrite Z.lxor_0_r|].
  rewrite xsum_cons, IH by (by rewrite xor_into_length). rewrite nth_xor_into by done. by rewrite Z.lxor_assoc.
Qed.
Lemma xor_fold_length {A} (f : A -> list Z) l dst :
  length (foldl (fun d p => xor_into d (f p)) dst l) = length dst.
Proof. revert dst. induction l as [|p l IH]; intros dst; cbn; [done|]. by rewrite IH, xor_into_length. Qed.

Lemma xor8_mid pre x post i v :
  i = length pre -> xor8 (pre ++ x :: post) i v = Ok (pre ++ Z.lxor x v :: post).
Proof.
  intros ->. unfold xor8. rewrite <- (Nat.add_0_r (length pre)) at 1. rewrite rd8_app_r. cbn.
  by rewrite (wr_mid pre [x] post).
Qed.
Lemma xor8_at out i v :
  (i < length out)%nat -> xor8 out i v = Ok (take i out ++ Z.lxor (nth i out 0) v :: drop (S i) out).
Proof.
  intros Hi. unfold xor8. rewrite rd8_Ok, bind_Ok by done. rewrite wr_Ok by (cbn; lia).
  cbn [length app]. by rewrite Nat.add_1_r.
Qed.
(** Evaluates one XOR into a literal header. *)
Ltac xor8_step := rewrite xor8_at by (cbn [length]; lia); rewrite !bind_Ok; cbn [take drop nth app].
Lemma xor_range_spec s : forall pre dst post pre_s,
  (length s <= length dst)%nat ->
  xor_range (length s) (pre ++ dst ++ post) (length pre) (pre_s ++ s) (length pre_s)
  = Ok (pre ++ xor_into dst s ++ post).
Proof.
  induction s as [|y s IH]; intros pre dst post pre_s Hl; cbn [xor_range length].
  - by destruct dst.
  - destruct dst as [|d dst]; [cbn in Hl; lia|]. cbn [app].
    rewrite <- (Nat.add_0_r (length pre_s)) at 1. rewrite rd8_app_r. change (rd8 (y :: s) 0) with (Ok y).
    rewrite bind_Ok, xor8_mid, bind_Ok by done.
    replace (pre ++ Z.lxor d y :: dst ++ post) with ((pre ++ [Z.lxor d y]) ++ dst ++ post) by (by rewrite <- app_assoc).
    replace (S (length pre)) with (length (pre ++ [Z.lxor d y])) by (rewrite length_app; cbn; lia).
    replace (pre_s ++ y :: s) with ((pre_s ++ [y]) ++ s) by (by rewrite <- app_assoc).
    replace (S (length pre_s)) with (length (pre_s ++ [y])) by (rewrite length_app; cbn; lia).
    rewrite IH by (cbn in Hl; lia). by rewrite <- !app_assoc.
Qed.

(** * Packets *)

Definition seq_of (p : list Z) : Z := val16 (nth 2 p 0) (nth 3 p 0).
Definition plen (p : list Z) : Z := u16 (Z.of_nat (length p) - Z.of_nat FEC_RTP_HDR).
Definition offset_of (base : Z) (p : list Z) : Z := u16 (seq_of p - base).
Definition mask_bit (off : Z) : Z := u16 (Z.shiftr 0x8000 off).

(** An RTP packet the codec accepts as a member. *)
Definition rtp_sized (p : list Z) : Prop :=
  bytes p /\ (FEC_RTP_HDR <= length p)%nat /\ Z.of_nat (length p) <= UINT16_MAX.

(** What a member contributes to octet [i] of the FEC header. *)
Definition field (i : nat) (p : list Z) : Z :=
  match i with
  | 0%nat => Z.land (nth 0 p 0) 0x3F
  | 8%nat => u8 (Z.shiftr (plen p) 8)
  | 9%nat => u8 (Z.land (plen p) 0xFF)
  | _ => nth i p 0
  end.
Definition acc_hdr (h : nat -> Z) : list Z :=
  [h 0%nat; h 1%nat; 0; 0; h 4%nat; h 5%nat; h 6%nat; h 7%nat; h 8%nat; h 9%nat; 0; 0; 0; 0].
Definition payload_of (p : list Z) : list Z := drop FEC_RTP_HDR p.

Lemma rtp_sized_plen p : rtp_sized p -> plen p = Z.of_nat (length p - 12) /\ is_u16 (plen p).
Proof.
  intros (_ & Hl & Hu). unfold plen, FEC_RTP_HDR in *. split; [|apply u16_range].
  rewrite u16_id by mach. lia.
Qed.
Lemma rtp_sized_split p :
  rtp_sized p -> exists hd, length hd = 12%nat /\ p = hd ++ payload_of p.
Proof.
  intros (_ & Hl & _). exists (take 12 p). split; [rewrite length_take; unfold FEC_RTP_HDR in *; lia|].
  unfold payload_of, FEC_RTP_HDR. by rewrite take_drop.
Qed.
Lemma payload_length p : length (payload_of p) = (length p - 12)%nat.
Proof. unfold payload_of, FEC_RTP_HDR. by rewrite length_drop. Qed.
Lemma read_seq p : rtp_sized p -> nanortc_read_u16be p 2 = Ok (seq_of p).
Proof. intros (Hb & Hl & _). rewrite read_u16be_Ok by (done || unfold FEC_RTP_HDR in *; lia). done. Qed.
Lemma seq_of_range p : rtp_sized p -> is_u16 (seq_of p).
Proof. intros (Hb & _). apply val16_range; auto with mach. Qed.
Lemma rd8_hdr p i : rtp_sized p -> (i < 12)%nat -> rd8 p i = Ok (nth i p 0).
Proof. intros (_ & Hl & _) Hi. apply rd8_Ok. unfold FEC_RTP_HDR in *. lia. Qed.
Lemma xor_payload p pre pay post :
  rtp_sized p -> (length p - 12 <= length pay)%nat ->
  xor_range (length p - 12) (pre ++ pay ++ post) (length pre) p FEC_RTP_HDR
  = Ok (pre ++ xor_into pay (payload_of p) ++ post).
Proof.
  intros Hp Hl. destruct (rtp_sized_split p Hp) as (hd & Hhd & Heq).
  rewrite <- payload_length. rewrite Heq at 2. replace FEC_RTP_HDR with (length hd) by done.
  apply xor_range_spec. by rewrite payload_length.
Qed.

(** * The encoder's result *)

Lemma fec_acc_step h pay post p pkts base mask :
  rtp_sized p -> (length p - 12 <= length pay)%nat ->
  fec_accumulate (Some p :: pkts) base (acc_hdr h ++ pay ++ post) mask =
  fec_accumulate pkts base
    (acc_hdr (fun i => Z.lxor (h i) (field i p)) ++ xor_into pay (payload_of p) ++ post)
    (Z.lor mask (mask_bit (offset_of base p))).
Proof.
  intros Hp Hl. destruct (rtp_sized_plen p Hp) as [Hpl _].
  cbn [fec_accumulate deref]. rewrite bind_Ok, !(rd8_hdr p) by (done || lia). rewrite !bind_Ok.
  unfold acc_hdr. cbn [app].
  cbv zeta. fold (plen p). do 8 xor8_step.
  replace (Z.to_nat (plen p)) with (length p - 12)%nat by lia.
  pose proof (xor_payload p (acc_hdr (fun i => Z.lxor (h i) (field i p))) pay post Hp Hl) as HX.
  unfold acc_hdr in HX. cbn [app length field] in HX. unfold FEC_OVERHEAD. rewrite HX, bind_Ok.
  rewrite read_seq, bind_Ok by done. cbn [field]. reflexivity.
Qed.

Definition xor_payloads (pay : list Z) (ps : list (list Z)) : list Z :=
  foldl (fun d p => xor_into d (payload_of p)) pay ps.
Definition group_mask (base : Z) (ps : list (list Z)) (mask : Z) : Z :=
  foldl (fun m p => Z.lor m (mask_bit (offset_of base p))) mask ps.

Lemma fec_accumulate_spec ps : forall h pay post base mask,
  Forall (fun p => rtp_sized p /\ (length p - 12 <= length pay)%nat) ps ->
  fec_accumulate (map Some ps) base (acc_hdr h ++ pay ++ post) mask =
  Ok (acc_hdr (fun i => Z.lxor (h i) (xsum (field i) ps)) ++ xor_payloads pay ps ++ post,
      group_mask base ps mask).
Proof.
  induction ps as [|p ps IH]; intros h pay post base mask Hps; cbn [map].
  - cbn [fec_accumulate]. unfold acc_hdr, xsum, xor_payloads, group_mask. cbn [foldr foldl].
    by rewrite !Z.lxor_0_r.
  - rewrite Forall_cons_iff in Hps. destruct Hps as [[Hp Hl] Hps]. rewrite fec_acc_step by done.
    rewrite IH.
    + unfold acc_hdr. by rewrite !xsum_cons, !Z.lxor_assoc.
    + refine (List.Forall_impl _ _ Hps). intros q. by rewrite xor_into_length.
Qed.

(** Group spans: every member sits within 16 of some sequence number. *)
Definition spans (b : Z) (ps : list (list Z)) : Prop :=
  is_u16 b /\ Forall (fun p => offset_of b p < Z.of_nat FEC_MAX_GROUP) ps.

Lemma sn_base_loop_spec b ps : forall base,
  is_u16 b -> is_u16 base -> u16 (base - b) < 16 ->
  Forall (fun p => rtp_sized p /\ offset_of b p < 16) ps ->
  exists r, sn_base_loop (map Some ps) base = Ok r /\ is_u16 r /\ u16 (r - b) <= u16 (base - b) /\
    Forall (fun p => u16 (r - b) <= offset_of b p) ps.
Proof.
  induction ps as [|p ps IH]; intros base Hb Hba Ho Hps; cbn [map sn_base_loop]; [eauto with lia|].
  rewrite Forall_cons_iff in Hps. destruct Hps as [[Hp Hpo] Hps].
  unfold member_seq. cbn [deref]. rewrite bind_Ok, read_seq, bind_Ok by done.
  pose proof (seq_of_range p Hp) as Hs.
  destruct (i16 (seq_of p - base) <? 0) eqn:Hlt.
  - apply Z.ltb_lt in Hlt. destruct (IH (seq_of p)) as (r & Hr & Hru & Hle & Hall); auto.
    exists r. split_and!; [done | done | | by constructor].
    enough (u16 (seq_of p - b) <= u16 (base - b)) by lia.
    unfold offset_of, i16 in *. zbool; mach.
  - apply Z.ltb_ge in Hlt. destruct (IH base) as (r & Hr & Hru & Hle & Hall); auto.
    exists r. split_and!; [done..|]. constructor; [|done].
    enough (u16 (base - b) <= offset_of b p) by lia.
    unfold offset_of, i16 in *. zbool; mach.
Qed.

Lemma fec_sn_base_spec b ps :
  ps <> [] -> Forall rtp_sized ps -> spans b ps ->
  exists r, fec_sn_base (map Some ps) = Ok r /\ spans r ps.
Proof.
  intros Hne Hps [Hb Hsp]. destruct ps as [|p ps]; [done|]. clear Hne.
  rewrite Forall_cons_iff in Hps, Hsp. destruct Hps as [Hp Hps], Hsp as [Ho Hsp].
  cbn [map fec_sn_base]. unfold member_seq. cbn [deref]. rewrite bind_Ok, read_seq, bind_Ok by done.
  pose proof (seq_of_range p Hp) as Hs. change (Z.of_nat FEC_MAX_GROUP) with 16 in *.
  destruct (sn_base_loop_spec b ps (seq_of p)) as (r & Hr & Hru & Hle & Hall); [done | done | done | |].
  { apply List.Forall_forall. intros q Hq. rewrite List.Forall_forall in Hps, Hsp. auto. }
  exists r. split; [done|]. split; [done|]. change (Z.of_nat FEC_MAX_GROUP) with 16.
  assert (forall q, rtp_sized q -> offset_of b q < 16 -> u16 (r - b) <= offset_of b q -> offset_of r q < 16)
    as Hq.
  { intros q Hq Hq1 Hq2. pose proof (seq_of_range q Hq). unfold offset_of in *. mach. }
  constructor; [by apply Hq|]. apply List.Forall_forall. intros q Hin.
  rewrite List.Forall_forall in Hps, Hsp, Hall. auto.
Qed.

Lemma fec_check_spec base ps : forall m,
  Forall rtp_sized ps -> spans base ps ->
  exists r, fec_check (map Some ps) base m = Ok r /\ (m <= r)%nat /\
    Forall (fun p => (length p - 2 <= r)%nat) ps /\ (r = m \/ exists p, p ∈ ps /\ r = (length p - 2)%nat).
Proof.
  induction ps as [|p ps IH]; intros m Hps [Hb Hsp]; cbn [map fec_check].
  { exists m. auto. }
  rewrite Forall_cons_iff in Hps, Hsp. destruct Hps as [Hp Hps], Hsp as [Ho Hsp].
  pose proof Hp as (_ & Hl & _). rewrite (proj2 (Nat.ltb_ge _ _)) by done.
  rewrite read_seq, bind_Ok by done. fold (offset_of base p). rewrite (proj2 (Z.leb_gt _ _)) by done.
  cbv zeta. destruct (Nat.ltb_spec m (length p - 2)) as [Hm|Hm].
  - destruct (IH (length p - 2)%nat Hps (conj Hb Hsp)) as (r & Hr & Hmr & Hall & Hor).
    exists r. split_and!; [done | lia | by constructor | right].
    destruct Hor as [->|(q & Hq & ->)]; [exists p | exists q]; split; try done; by constructor.
  - destruct (IH m Hps (conj Hb Hsp)) as (r & Hr & Hmr & Hall & Hor).
    exists r. split_and!; [done | done | by constructor; [lia|] |].
    destruct Hor as [->|(q & Hq & ->)]; [by left | right; exists q; split; [by constructor|done]].
Qed.

(** * The mask *)

Lemma mask_bit_spec o : 0 <= o < 16 -> mask_bit o = 2 ^ (15 - o).
Proof.
  intros Ho. assert (o = 0 \/ o = 1 \/ o = 2 \/ o = 3 \/ o = 4 \/ o = 5 \/ o = 6 \/ o = 7 \/ o = 8 \/
    o = 9 \/ o = 10 \/ o = 11 \/ o = 12 \/ o = 13 \/ o = 14 \/ o = 15) as Hc by lia.
  repeat (destruct Hc as [->|Hc]; [reflexivity|]). by subst o.
Qed.
Lemma land_mask_bit m o :
  0 <= o < 16 -> (Z.land m (mask_bit o) =? 0) = negb (Z.testbit m (15 - o)).
Proof.
  intros Ho. rewrite mask_bit_spec by done. destruct (Z.testbit m (15 - o)) eqn:Ht; cbn [negb].
  - apply Z.eqb_neq. intros H0. apply (f_equal (fun z => Z.testbit z (15 - o))) in H0.
    rewrite Z.land_spec, Ht, Z.pow2_bits_true, Z.bits_0 in H0 by lia. done.
  - apply Z.eqb_eq. apply Z.bits_inj'. intros i Hi. rewrite Z.land_spec, Z.bits_0.
    destruct (Z.eq_dec i (15 - o)) as [->|Hne]; [by rewrite Ht|].
    rewrite Z.pow2_bits_false by lia. apply andb_false_r.
Qed.
Lemma group_mask_cons base p ps m :
  group_mask base (p :: ps) m = group_mask base ps (Z.lor m (mask_bit (offset_of base p))).
Proof. done. Qed.
Lemma group_mask_bit base ps : forall m o,
  spans base ps -> 0 <= o < 16 ->
  Z.testbit (group_mask base ps m) (15 - o) =
  Z.testbit m (15 - o) || existsb (fun p => offset_of base p =? o) ps.
Proof.
  induction ps as [|p ps IH]; intros m o [Hb Hsp] Ho; [cbn; by rewrite orb_false_r|].
  rewrite Forall_cons_iff in Hsp. destruct Hsp as [Hp Hsp]. rewrite group_mask_cons, IH by done.
  change (Z.of_nat FEC_MAX_GROUP) with 16 in *.
  assert (0 <= offset_of base p) by apply u16_range. cbn [existsb].
  rewrite mask_bit_spec by lia. rewrite Z.lor_spec, <- orb_assoc. f_equal. f_equal.
  destruct (Z.eqb_spec (offset_of base p) o) as [->|Hne]; [by rewrite Z.pow2_bits_true by lia|].
  by rewrite Z.pow2_bits_false by lia.
Qed.
Lemma mask_bit_u16 o : is_u16 (mask_bit o).
Proof. apply u16_range. Qed.
Lemma group_mask_u16 base ps : forall m, is_u16 m -> is_u16 (group_mask base ps m).
Proof.
  induction ps as [|p ps IH]; intros m Hm; [done|]. apply IH.
  apply lor_bounded; [lia | done | apply mask_bit_u16].
Qed.

(** * The encoder *)

(** The FEC packet of a group. *)
Definition fec_body (base : Z) (ps : list (list Z)) (n : nat) : list Z :=
  let x i := xsum (field i) ps in
  [x 0%nat; x 1%nat] ++ be16 base ++ [x 4%nat; x 5%nat; x 6%nat; x 7%nat; x 8%nat; x 9%nat]
  ++ be16 (Z.of_nat n) ++ be16 (group_mask base ps 0) ++ xor_payloads (replicate n 0) ps.

Lemma fec_encode_spec ps b out :
  (1 <= length ps <= FEC_MAX_GROUP)%nat -> Forall rtp_sized ps -> spans b ps ->
  Forall (fun p => (length p + 2 <= length out)%nat) ps ->
  exists base n,
    spans base ps /\ Z.of_nat n < 65536 /\ (exists p, p ∈ ps /\ n = (length p - 12)%nat) /\
    Forall (fun p => (length p - 12 <= n)%nat) ps /\
    fec_encode (map Some ps) out =
      Ok (fec_body base ps n ++ drop (FEC_OVERHEAD + n) out, (FEC_OVERHEAD + n)%nat).
Proof.
  intros Hc Hps Hsp Hout. unfold fec_encode. rewrite length_map.
  rewrite (proj2 (Nat.eqb_neq _ _)), (proj2 (Nat.ltb_ge _ _)) by lia. cbn [orb].
  destruct (fec_sn_base_spec b ps) as (base & -> & Hsp'); [by intros ->; cbn in Hc; lia | done..|].
  rewrite bind_Ok. destruct (fec_check_spec base ps 0 Hps Hsp') as (r & -> & _ & Hall & Hor).
  rewrite bind_Ok. cbv zeta. change (Z.of_nat FEC_HEADER_SIZE) with 10.
  destruct Hor as [->|(p & Hp & Hr)].
  { destruct ps as [|p ps]; [cbn in Hc; lia|]. rewrite Forall_cons_iff in Hall, Hps.
    destruct Hps as [[_ [Hl _]] _]. unfold FEC_RTP_HDR in Hl. lia. }
  rewrite List.Forall_forall in Hps, Hout, Hall.
  pose proof (proj1 (list_elem_of_In _ _) Hp) as HpIn.
  pose proof (Hps p HpIn) as (_ & Hl & Hu). unfold FEC_RTP_HDR, UINT16_MAX in *.
  set (n := (length p - 12)%nat).
  assert (u16 (Z.of_nat r - 10) = Z.of_nat n) as -> by (rewrite u16_id; mach).
  rewrite Nat2Z.id. pose proof (Hout p HpIn) as Hlo. unfold FEC_OVERHEAD in *.
  rewrite (proj2 (Nat.ltb_ge _ _)) by lia.
  exists base, n. split_and!; [done | lia | by exists p |
    apply List.Forall_forall; intros q Hq; specialize (Hall q Hq); lia |].
  rewrite wr_0, bind_Ok by (rewrite length_replicate; lia). rewrite length_replicate.
  rewrite replicate_add, <- app_assoc.
  change (replicate 14 0) with (acc_hdr (fun _ => 0)).
  rewrite fec_accumulate_spec, bind_Ok by (apply List.Forall_forall; intros q Hq;
    split; [by apply Hps|]; rewrite length_replicate; specialize (Hall q Hq); lia).
  unfold acc_hdr. do 3 lit_write. unfold fec_body, be16. cbn [app]. by rewrite !Z.lxor_0_l.
Qed.

(** * Recovery *)

(** The received packets the codec looks at: null and short ones are skipped. *)
Fixpoint usable (recv : list member) : list (list Z) :=
  match recv with
  | [] => []
  | Some p :: recv => if (FEC_RTP_HDR <=? length p)%nat then p :: usable recv else usable recv
  | None :: recv => usable recv
  end.
Definition in_mask (base mask : Z) (p : list Z) : bool :=
  (offset_of base p <? 16) && Z.testbit mask (15 - offset_of base p).

Lemma fec_present_spec recv sn :
  Forall rtp_sized (usable recv) ->
  fec_present recv sn = Ok (existsb (fun p => seq_of p =? sn) (usable recv)).
Proof.
  induction recv as [|[p|] recv IH]; cbn [fec_present usable]; intros H; [done | | by apply IH].
  destruct (FEC_RTP_HDR <=? length p)%nat; [|by apply IH].
  rewrite Forall_cons_iff in H. destruct H as [Hp H]. rewrite read_seq, bind_Ok by done. cbn [existsb].
  destruct (seq_of p =? sn); [done|]. by apply IH.
Qed.

Lemma fec_missing_app l1 l2 recv base mask : forall c off,
  (forall o, In o l1 -> (o < 16)%nat /\
    (Z.testbit mask (15 - Z.of_nat o) = true ->
     exists p, In p (usable recv) /\ seq_of p = u16 (base + Z.of_nat o))) ->
  Forall rtp_sized (usable recv) ->
  fec_missing (l1 ++ l2) recv base mask c off = fec_missing l2 recv base mask c off.
Proof.
  induction l1 as [|o l1 IH]; intros c off Hl Hr; cbn [app fec_missing]; [done|].
  destruct (Hl o) as [Ho Hp]; [by left|]. fold (mask_bit (Z.of_nat o)). rewrite land_mask_bit by lia.
  destruct (Z.testbit mask (15 - Z.of_nat o)); cbn [negb].
  - rewrite fec_present_spec, bind_Ok by done. destruct (Hp eq_refl) as (p & Hin & Hs).
    replace (existsb _ _) with true; [apply IH; [|done]; intros; apply Hl; by right|].
    symmetry. apply existsb_exists. exists p. split; [done|]. by apply Z.eqb_eq.
  - apply IH; [|done]. intros; apply Hl; by right.
Qed.
(** Exactly one offset is missing: the scan finds it. *)
Lemma fec_missing_one recv base mask o0 :
  (o0 < 16)%nat -> Forall rtp_sized (usable recv) ->
  Z.testbit mask (15 - Z.of_nat o0) = true ->
  (forall p, In p (usable recv) -> seq_of p <> u16 (base + Z.of_nat o0)) ->
  (forall o, (o < 16)%nat -> o <> o0 -> Z.testbit mask (15 - Z.of_nat o) = true ->
    exists p, In p (usable recv) /\ seq_of p = u16 (base + Z.of_nat o)) ->
  fec_missing (seq 0 FEC_MAX_GROUP) recv base mask 0 (-1) = Ok (1%nat, Z.of_nat o0).
Proof.
  intros Ho Hr Hbit Hno Hyes.
  assert (seq 0 FEC_MAX_GROUP = seq 0 o0 ++ [o0] ++ seq (S o0) (15 - o0)) as ->.
  { change [o0] with (seq o0 1). replace (S o0) with (o0 + 1)%nat by lia.
    rewrite <- seq_app, <- seq_app. unfold FEC_MAX_GROUP. f_equal. lia. }
  rewrite fec_missing_app; [|intros o Hin; apply in_seq in Hin; split; [lia|]; intros; apply Hyes; lia || done | done].
  cbn [app fec_missing]. fold (mask_bit (Z.of_nat o0)). rewrite land_mask_bit, Hbit by lia. cbn [negb].
  rewrite fec_present_spec, bind_Ok by done.
  replace (existsb _ _) with false.
  - rewrite <- (app_nil_r (seq (S o0) _)). rewrite fec_missing_app; [done | | done].
    intros o Hin. apply in_seq in Hin. split; [lia|]. intros; apply Hyes; lia || done.
  - symmetry. apply not_true_is_false. intros (p & Hin & Hs)%existsb_exists.
    apply Z.eqb_eq in Hs. by apply (Hno p).
Qed.

Lemma fec_subtract_spec recv base mask protlen : forall r0 r1 t4 t5 t6 t7 rl pre pay post,
  length pre = 12%nat -> Forall rtp_sized (usable recv) -> protlen = Z.of_nat (length pay) ->
  let M := List.filter (in_mask base mask) (usable recv) in
  Forall (fun p => (length p - 12 <= length pay)%nat) M ->
  fec_subtract recv base mask protlen (FecRegs r0 r1 [t4; t5; t6; t7] rl) (pre ++ pay ++ post) =
  let x i := xsum (field i) M in
  Ok (FecRegs (Z.lxor r0 (x 0%nat)) (Z.lxor r1 (x 1%nat))
        [Z.lxor t4 (x 4%nat); Z.lxor t5 (x 5%nat); Z.lxor t6 (x 6%nat); Z.lxor t7 (x 7%nat)]
        (Z.lxor rl (xsum plen M)), pre ++ xor_payloads pay M ++ post).
Proof.
  induction recv as [|[p|] recv IH]; intros r0 r1 t4 t5 t6 t7 rl pre pay post Hpre Hr Hpl M HM;
    subst M; cbn [fec_subtract usable] in *.
  - cbn. by rewrite !Z.lxor_0_r.
  - destruct (Nat.leb_spec FEC_RTP_HDR (length p)) as [Hl|Hl];
      [rewrite (proj2 (Nat.ltb_ge _ _)) by done | rewrite (proj2 (Nat.ltb_lt _ _)) by done; by apply IH].
    rewrite Forall_cons_iff in Hr. destruct Hr as [Hp Hr]. rewrite read_seq, bind_Ok by done.
    cbv zeta. fold (offset_of base p). fold (mask_bit (offset_of base p)).
    assert (0 <= offset_of base p) by apply u16_range. change (Z.of_nat FEC_MAX_GROUP) with 16.
    replace ((16 <=? offset_of base p) || (Z.land mask (mask_bit (offset_of base p)) =? 0))
      with (negb (in_mask base mask p)).
    2:{ unfold in_mask. destruct (Z.leb_spec 16 (offset_of base p)) as [Ho|Ho]; cbn [orb].
        - by rewrite (proj2 (Z.ltb_ge _ _)) by done.
        - rewrite (proj2 (Z.ltb_lt _ _)) by done. by rewrite land_mask_bit by lia. }
    cbn [List.filter] in *. destruct (in_mask base mask p); cbn [negb]; [|by apply IH].
    rewrite Forall_cons_iff in HM. destruct HM as [Hlp HM].
    rewrite !(rd8_hdr p) by (done || lia). rewrite !bind_Ok. cbn [frts]. do 4 xor8_step.
    fold (plen p). destruct (rtp_sized_plen p Hp) as [Hpe _].
    replace (Z.to_nat (if plen p <? protlen then plen p else protlen)) with (length p - 12)%nat
      by (destruct (Z.ltb_spec (plen p) protlen); lia).
    replace (xor_range (length p - 12) (pre ++ pay ++ post) FEC_RTP_HDR p FEC_RTP_HDR)
      with (Ok (pre ++ xor_into pay (payload_of p) ++ post))
      by (rewrite <- (xor_payload p pre pay post Hp Hlp); by rewrite Hpre).
    rewrite bind_Ok, IH; try done.
    + cbn [fr0 fr1 frlen]. cbv zeta. by rewrite !xsum_cons, !Z.lxor_assoc.
    + by rewrite xor_into_length.
    + refine (List.Forall_impl _ _ HM). intros q. by rewrite xor_into_length.
  - by apply IH.
Qed.

(** * One loss *)

Lemma val16_lxor a b : is_u8 b -> val16 a b = Z.lxor (Z.shiftl a 8) b.
Proof.
  intros Hb. pose proof (lor_shiftl_add a b 8 ltac:(lia) Hb) as Hl.
  pose proof (Z.add_lor_land (Z.shiftl a 8) b) as Ha. rewrite Hl, (Z.shiftl_mul_pow2 a 8) in Ha by lia.
  assert (Z.land (Z.shiftl a 8) b = 0) as H0 by (rewrite Z.shiftl_mul_pow2 by lia; lia).
  rewrite Z.lxor_lor, Hl by done. done.
Qed.
(** The length recovery field is the XOR of the members' lengths. *)
Lemma xsum_length ps :
  val16 (xsum (field 8) ps) (xsum (field 9) ps) = xsum plen ps /\
  is_u8 (xsum (field 8) ps) /\ is_u8 (xsum (field 9) ps).
Proof.
  induction ps as [|p ps (IH & H8 & H9)]; [done|]. rewrite !xsum_cons.
  change (field 8 p) with (u8 (Z.shiftr (plen p) 8)). change (field 9 p) with (u8 (Z.land (plen p) 255)).
  assert (is_u8 (Z.lxor (u8 (Z.land (plen p) 255)) (xsum (field 9) ps))) as H9'
    by (apply lxor_bounded; [lia | apply u8_range | done]).
  split_and!; [| apply lxor_bounded; [lia | apply u8_range | done] | done].
  rewrite val16_lxor by done. rewrite Z.shiftl_lxor, <- IH, (val16_lxor (xsum _ _)) by done.
  replace (plen p) with (Z.lxor (Z.shiftl (u8 (Z.shiftr (plen p) 8)) 8) (u8 (Z.land (plen p) 255))) at 3.
  - rewrite <- !Z.lxor_assoc. f_equal. rewrite !Z.lxor_assoc. f_equal. apply Z.lxor_comm.
  - rewrite <- val16_lxor by apply u8_range. change 255 with (Z.ones 8). rewrite Z.land_ones by lia.
    unfold val16. rewrite Z.shiftr_div_pow2 by lia. pose proof (u16_range (Z.of_nat (length p) - 12)) as Hr.
    fold (plen p) in Hr. change (u16 _) with (plen p) in Hr. mach.
Qed.

Lemma field0_small p : 0 <= field 0 p < 2 ^ 6.
Proof. change (field 0 p) with (Z.land (nth 0 p 0) (Z.ones 6)). rewrite Z.land_ones by lia. apply Z.mod_pos_bound. lia. Qed.
Lemma xor_payloads_length pay ps : length (xor_payloads pay ps) = length pay.
Proof. apply xor_fold_length. Qed.

(** XOR-ing the other members into the group's payload leaves the lost one's. *)
Lemma xor_payloads_cancel n group lost others M :
  Permutation group (lost :: others) -> Permutation M others -> (length lost - 12 <= n)%nat ->
  xor_payloads (xor_payloads (replicate n 0) group) M =
  payload_of lost ++ replicate (n - (length lost - 12)) 0.
Proof.
  intros Hg HM Hn. apply (nth_ext _ _ 0 0).
  - rewrite !xor_payloads_length, length_app, payload_length, !length_replicate. lia.
  - intros k Hk. rewrite !xor_payloads_length, length_replicate in Hk.
    unfold xor_payloads. rewrite nth_xor_fold by (by rewrite xor_fold_length, length_replicate).
    rewrite nth_xor_fold by (by rewrite length_replicate).
    rewrite (xsum_perm _ _ _ Hg), (xsum_perm _ _ _ HM), Z.lxor_assoc, xsum_cancel.
    assert (forall m j, nth j (replicate m 0) 0 = 0) as Hz.
    { induction m as [|m IH]; intros [|j]; cbn; auto. }
    rewrite Hz, Z.lxor_0_l. destruct (Nat.ltb_spec k (length lost - 12)) as [Hlt|Hge].
    + by rewrite app_nth1 by (by rewrite payload_length).
    + rewrite app_nth2 by (by rewrite payload_length). rewrite Hz. apply nth_overflow. by rewrite payload_length.
Qed.

Lemma filter_perm {A} (f : A -> bool) l l' :
  Permutation l l' -> Permutation (List.filter f l) (List.filter f l').
Proof.
  induction 1 as [|x l l' _ IH|x y l|l1 l2 l3 _ IH1 _ IH2]; cbn; [done | | | by etrans].
  - destruct (f x); [by constructor | done].
  - destruct (f x), (f y); try done; constructor.
Qed.
Lemma filter_all {A} (f : A -> bool) l : (forall x, In x l -> f x = true) -> List.filter f l = l.
Proof. intros H. apply forallb_filter_id, forallb_forall, H. Qed.
Lemma filter_none {A} (f : A -> bool) l : (forall x, In x l -> f x = false) -> List.filter f l = [].
Proof.
  induction l as [|x l IH]; intros H; cbn; [done|]. rewrite (H x) by (by left). apply IH. intros; apply H; by right.
Qed.

Lemma in_mask_group base group p :
  spans base group ->
  in_mask base (group_mask base group 0) p = true <->
  offset_of base p < 16 /\ exists q, In q group /\ offset_of base q = offset_of base p.
Proof.
  intros Hsp. unfold in_mask. rewrite andb_true_iff, Z.ltb_lt. split; intros [Ho H]; (split; [done|]).
  - rewrite group_mask_bit, Z.bits_0 in H by first [done | split; [apply u16_range | done]]. cbn [orb] in H.
    apply existsb_exists in H as (q & Hq & He). exists q. split; [done|]. by apply Z.eqb_eq.
  - rewrite group_mask_bit, Z.bits_0 by first [done | split; [apply u16_range | done]]. cbn [orb].
    apply existsb_exists. destruct H as (q & Hq & He). exists q. split; [done|]. by apply Z.eqb_eq.
Qed.
Lemma offset_inj base p q :
  rtp_sized p -> rtp_sized q -> offset_of base p = offset_of base q -> seq_of p = seq_of q.
Proof.
  intros Hp%seq_of_range Hq%seq_of_range. unfold offset_of. mach.
Qed.

(** The members of a group among received packets, when the others carry other
    sequence numbers. *)
Lemma members_of_group base group others foreign recv :
  Forall rtp_sized group -> spans base group -> Forall rtp_sized foreign ->
  (forall p, In p others -> In p group) ->
  (forall p q, In p foreign -> In q group -> seq_of p <> seq_of q) ->
  Permutation recv (others ++ foreign) ->
  Permutation (List.filter (in_mask base (group_mask base group 0)) recv) others.
Proof.
  intros Hg Hsp Hf Hsub Hfor Hperm. etrans; [by apply filter_perm|]. rewrite List.filter_app.
  pose proof Hsp as [_ Hoff]. rewrite List.Forall_forall in Hg, Hoff, Hf.
  rewrite (filter_all _ others), (filter_none _ foreign), app_nil_r; [done | |].
  - intros p Hp. apply not_true_is_false. intros (Ho & q & Hq & He)%in_mask_group; [|done].
    apply (Hfor p q Hp Hq). symmetry. apply (offset_inj base); auto.
  - intros p Hp. apply in_mask_group; [done|]. split; [by apply Hoff, Hsub|]. exists p. auto.
Qed.

Lemma usable_perm_sized recv others foreign :
  Permutation (usable recv) (others ++ foreign) -> Forall rtp_sized others -> Forall rtp_sized foreign ->
  Forall rtp_sized (usable recv).
Proof. intros -> ? ?. by apply Forall_app_2. Qed.

(** The scan over the offsets finds the lost member. *)
Lemma fec_missing_lost base group lost others foreign recv :
  Forall rtp_sized group -> spans base group -> Forall rtp_sized foreign ->
  Permutation group (lost :: others) -> List.NoDup (map seq_of group) ->
  (forall p q, In p foreign -> In q group -> seq_of p <> seq_of q) ->
  Permutation (usable recv) (others ++ foreign) ->
  fec_missing (seq 0 FEC_MAX_GROUP) recv base (group_mask base group 0) 0 (-1)
  = Ok (1%nat, offset_of base lost).
Proof.
  intros Hg Hsp Hf Hperm Hnd Hfor Hrecv.
  assert (In lost group) as Hlost by (rewrite Hperm; by left).
  assert (Forall rtp_sized others) as Hos by (rewrite Hperm in Hg; rewrite Forall_cons_iff in Hg; tauto).
  pose proof (usable_perm_sized _ _ _ Hrecv Hos Hf) as Hru.
  pose proof Hsp as [Hb Hoff]. rewrite List.Forall_forall in Hg, Hoff.
  pose proof (Hoff lost Hlost) as Ho. change (Z.of_nat FEC_MAX_GROUP) with 16 in *.
  assert (0 <= offset_of base lost) by apply u16_range.
  assert (forall p, rtp_sized p -> u16 (base + offset_of base p) = seq_of p) as Hback.
  { intros p Hp%seq_of_range. unfold offset_of. mach. }
  assert (forall o, (o < 16)%nat -> Z.testbit (group_mask base group 0) (15 - Z.of_nat o) = true <->
    exists q, In q group /\ offset_of base q = Z.of_nat o) as Hbit.
  { intros o Hlt. rewrite group_mask_bit, Z.bits_0 by (done || lia). cbn [orb]. rewrite existsb_exists.
    split; intros (q & Hq & He); exists q; (split; [done|]); by apply Z.eqb_eq. }
  rewrite (fec_missing_one recv base _ (Z.to_nat (offset_of base lost)));
    [by rewrite Z2Nat.id by lia | lia | done | | |].
  - apply Hbit; [lia|]. exists lost. by rewrite Z2Nat.id by lia.
  - rewrite Z2Nat.id, Hback by auto. intros p Hp Hs. rewrite Hrecv, in_app_iff in Hp.
    destruct Hp as [Hp|Hp]; [|by apply (Hfor p lost)].
    rewrite Hperm in Hnd. cbn [map] in Hnd. apply NoDup_cons_iff in Hnd as [Hnd _]. apply Hnd.
    rewrite <- Hs. by apply in_map.
  - intros o Ho16 Hne (q & Hq & Hqo)%Hbit; [|done]. exists q. split.
    + rewrite Hrecv, in_app_iff. left. rewrite Hperm in Hq. destruct Hq as [<-|Hq]; [lia | done].
    + rewrite <- Hqo, Hback by auto. done.
Qed.

(** What the recovery writes: the lost packet, then the padding of the
    protected region. *)
Lemma fec_recover_spec base group n lost others foreign recv ssrc buf :
  Forall rtp_sized group -> spans base group -> Forall rtp_sized foreign ->
  Permutation group (lost :: others) -> List.NoDup (map seq_of group) ->
  (forall p q, In p foreign -> In q group -> seq_of p <> seq_of q) ->
  Permutation (usable recv) (others ++ foreign) ->
  Forall (fun p => (length p - 12 <= n)%nat) group -> Z.of_nat n < 65536 -> (12 + n <= length buf)%nat ->
  fec_recover (fec_body base group n) ssrc recv buf =
  Ok ([u8 (Z.lor 0x80 (field 0 lost)); nth 1 lost 0] ++ be16 (seq_of lost)
      ++ [nth 4 lost 0; nth 5 lost 0; nth 6 lost 0; nth 7 lost 0] ++ be32 ssrc ++ payload_of lost
      ++ replicate (n - (length lost - 12)) 0 ++ drop (12 + n) buf,
      length lost, seq_of lost).
Proof.
  intros Hg Hsp Hf Hperm Hnd Hfor Hrecv Hn Hn16 Hbuf.
  assert (In lost group) as Hlost by (rewrite Hperm; by left).
  assert (Forall rtp_sized others) as Hos by (rewrite Hperm in Hg; rewrite Forall_cons_iff in Hg; tauto).
  pose proof (usable_perm_sized _ _ _ Hrecv Hos Hf) as Hru.
  assert (Permutation (List.filter (in_mask base (group_mask base group 0)) (usable recv)) others) as HM.
  { apply (members_of_group base group others foreign); try done. intros p Hp. rewrite Hperm. by right. }
  pose proof (fec_missing_lost base group lost others foreign recv Hg Hsp Hf Hperm Hnd Hfor Hrecv) as Hmiss.
  rewrite List.Forall_forall in Hg, Hn. pose proof (Hg lost Hlost) as Hls. pose proof (Hn lost Hlost) as Hln.
  pose proof Hls as (_ & Hl12 & _). unfold FEC_RTP_HDR in Hl12.
  pose proof Hsp as [Hb _]. pose proof (seq_of_range lost Hls) as Hsq.
  destruct (rtp_sized_plen lost Hls) as [Hpl _].
  destruct (xsum_length group) as (Hxl & H8 & H9).
  set (mask := group_mask base group 0) in *.
  assert (is_u16 mask) as Hmask by (apply group_mask_u16; unfold is_u16; lia).
  unfold fec_recover. cbv zeta.
  assert (length (fec_body base group n) = 14 + n)%nat as Hlen.
  { unfold fec_body. cbn [app length be16]. rewrite xor_payloads_length, length_replicate. lia. }
  rewrite Hlen. unfold FEC_OVERHEAD. rewrite (proj2 (Nat.ltb_ge _ _)) by lia.
  unfold fec_body in *. fold mask in Hlen |- *. set (P := xor_payloads (replicate n 0) group) in *.
  cbn [app be16] in *. repeat lit_read. rewrite (u16_id base), (u16_id mask), (u16_id (Z.of_nat n)) by (done || mach).
  cbv beta. rewrite Nat2Z.id. rewrite (proj2 (Nat.ltb_ge _ _)) by lia. rewrite Hmiss, bind_Ok.
  cbn [Nat.eqb negb]. unfold FEC_RTP_HDR. rewrite (proj2 (Nat.ltb_ge _ _)) by lia.
  assert (length P = n) as HP by (unfold P; by rewrite xor_payloads_length, length_replicate).
  rewrite (rdn_Ok _ 4 4), bind_Ok by (cbn [length]; lia).
  rewrite (rdn_Ok _ FEC_OVERHEAD), bind_Ok by (unfold FEC_OVERHEAD; cbn [length]; lia).
  rewrite lor16, Hxl, !bind_Ok by done. unfold FEC_OVERHEAD. cbn [take drop].
  rewrite drop_0.
  rewrite (take_ge P n) by lia. rewrite wr_Ok, bind_Ok by lia. rewrite HP.
  rewrite (fec_subtract_spec recv base mask);
    [ | rewrite length_take; lia | done | by rewrite HP
      | rewrite HP; apply List.Forall_forall; intros p Hp; apply Hn; rewrite HM in Hp; rewrite Hperm; by right].
  cbv zeta. rewrite bind_Ok. cbn [fr0 fr1 frts frlen].
  unfold P. rewrite (xor_payloads_cancel n group lost others) by (done || lia).
  rewrite !(xsum_perm _ _ _ HM), !(xsum_perm _ _ _ Hperm), !xsum_cancel.
  change 63 with (Z.ones 6). rewrite Z.land_ones, Z.mod_small
    by first [lia | apply xsum_bounded; [lia | intros; apply field0_small]].
  rewrite xsum_cancel. cbn [field].
  replace (u16 (base + offset_of base lost)) with (seq_of lost) by (unfold offset_of; mach).
  replace (12 + Z.to_nat (if (Z.of_nat n <? plen lost)%Z then Z.of_nat n else plen lost))%nat with (length lost)
    by (destruct (Z.ltb_spec (Z.of_nat n) (plen lost)); lia).
  repeat rewrite wr_then by done. rewrite wr_0, bind_Ok
    by (rewrite (length_app (take 12 buf)), length_take; cbn [length app be16 be32]; lia).
  cbn [app length be16 be32]. rewrite (drop_app_length' (take 12 buf)) by (rewrite length_take; lia).
  by rewrite <- app_assoc.
Qed.

Lemma header_v2 x : is_u8 x -> Z.land x 0xC0 = 0x80 -> u8 (Z.lor 0x80 (Z.land x 0x3F)) = x.
Proof.
  intros Hx <-. rewrite <- Z.land_lor_distr_r. change (Z.lor 0xC0 0x3F) with (Z.ones 8).
  rewrite Z.land_ones by lia. unfold u8. rewrite Z.mod_mod by lia. by apply Z.mod_small.
Qed.
Lemma be16_val16 a b : is_u8 a -> is_u8 b -> be16 (val16 a b) = [a; b].
Proof.
  intros Ha Hb. unfold be16, val16. rewrite Z.shiftr_div_pow2 by lia. f_equal; [|f_equal]; mach.
Qed.

(** C25: a group of 1 to 16 RTP packets whose distinct sequence numbers span
    less than 16 always encodes into a buffer two octets longer than its longest
    member, and from the FEC packet and any reordering of all members but one,
    mixed with any null, short or foreign packets, the recovery rebuilds the
    missing packet octet for octet, with its length and sequence number.  The
    packets are those the codec covers: version 2 and the stream's SSRC. *)
Theorem fec_recover_encode (group others foreign : list (list Z)) (lost : list Z) (recv : list member)
    (b ssrc : Z) (out buf : list Z) :
  (length group <= FEC_MAX_GROUP)%nat ->
  Forall rtp_sized group -> spans b group -> List.NoDup (map seq_of group) ->
  Permutation group (lost :: others) ->
  Forall (fun p => (length p + 2 <= length out)%nat /\ (length p <= length buf)%nat) group ->
  Forall rtp_sized foreign -> (forall p q, In p foreign -> In q group -> seq_of p <> seq_of q) ->
  Permutation (usable recv) (others ++ foreign) ->
  Z.land (nth 0 lost 0) 0xC0 = 0x80 -> take 4 (drop 8 lost) = be32 ssrc ->
  exists out' total buf',
    fec_encode (map Some group) out = Ok (out', total) /\
    fec_recover (take total out') ssrc recv buf = Ok (buf', length lost, seq_of lost) /\
    take (length lost) buf' = lost.
Proof.
  intros Hc Hg Hsp Hnd Hperm Hlen Hf Hfor Hrecv Hv Hssrc.
  assert (In lost group) as Hlost by (rewrite Hperm; by left).
  destruct (fec_encode_spec group b out) as (base & n & Hsp' & Hn16 & (q & Hq & Hqn) & Hn & Henc);
    [split; [rewrite Hperm; cbn; lia | done] | done | done | refine (List.Forall_impl _ _ Hlen); cbn; lia |].
  rewrite List.Forall_forall in Hlen. apply list_elem_of_In in Hq. pose proof (Hlen q Hq) as [_ Hqb].
  rewrite List.Forall_forall in Hg. pose proof (Hg q Hq) as (_ & Hq12 & _). unfold FEC_RTP_HDR in Hq12.
  pose proof (Hg lost Hlost) as (Hlb & Hl12 & _). unfold FEC_RTP_HDR in Hl12.
  rewrite <- List.Forall_forall in Hg.
  eexists _, _, _. split; [exact Henc|]. split.
  - rewrite take_app_length'.
    + apply (fec_recover_spec base group n lost others foreign); try done. lia.
    + unfold fec_body. cbn [app length be16]. rewrite xor_payloads_length, length_replicate.
      unfold FEC_OVERHEAD. lia.
  - do 12 (destruct lost as [|? lost]; [cbn in Hl12; lia|]). cbn [nth] in Hv. cbn [take drop] in Hssrc.
    unfold field, seq_of, payload_of, FEC_RTP_HDR. rewrite <- Hssrc. cbn [nth app length take drop].
    repeat (rewrite Forall_cons_iff in Hlb; destruct Hlb as [? Hlb]).
    rewrite header_v2, be16_val16 by done. cbn [app].
    change (take 0 lost) with (@nil Z). rewrite !drop_0. cbn [app take]. do 12 f_equal.
    rewrite take_app_length'; [done | lia].
Qed.
Lemma fec_recover_encode_witness :
  let a := [128; 96; 255; 255; 0; 0; 0; 7; 0; 0; 0; 9; 1; 2; 3] in
  let b := [128; 224; 0; 0; 0; 0; 0; 8; 0; 0; 0; 9; 250] in
  let stray := [128; 96; 0; 9; 0; 0; 0; 8; 0; 0; 0; 9; 250] in
  exists out' total buf',
    fec_encode (map Some [a; b]) (replicate 20 0) = Ok (out', total) /\
    fec_recover (take total out') 9 [None; Some stray; Some a] (replicate 20 0) =
      Ok (buf', length b, seq_of b) /\
    take (length b) buf' = b.
Proof.
  intros a b stray.
  refine (fec_recover_encode [a; b] [a] [stray] b [None; Some stray; Some a] 65535 9
    (replicate 20 0) (replicate 20 0) _ _ _ _ _ _ _ _ _ _ _).
  - cbn. unfold FEC_MAX_GROUP. lia.
  - repeat constructor; cbn; unfold FEC_RTP_HDR, UINT16_MAX, is_u8; lia.
  - split; [split; lia|]. repeat constructor; vm_compute; done.
  - repeat constructor; cbn; unfold val16; intros H; repeat destruct H as [H|H]; lia || done.
  - apply perm_swap.
  - repeat constructor; cbn; lia.
  - repeat constructor; cbn; unfold FEC_RTP_HDR, UINT16_MAX, is_u8; lia.
  - intros p q [<-|[]] [<-|[<-|[]]]; vm_compute; done.
  - apply perm_swap.
  - reflexivity.
  - reflexivity.
Defined.

(** The encoder reads the sequence number of every member before it
    checks them: a null or short member other than by count faults where the
    checks would refuse it. *)
Theorem fec_encode_null_member (pre post : list member) (out : list Z) :
  Forall (fun m => exists p, m = Some p /\ rtp_sized p) pre ->
  (length pre + S (length post) <= FEC_MAX_GROUP)%nat ->
  fec_encode (pre ++ None :: post) out = Fault /\
  (forall base m, Forall (fun m => exists p, m = Some p /\ offset_of base p < 16) pre ->
     fec_check (pre ++ None :: post) base m = Err NANORTC_ERR_INVALID_PARAM).
Proof.
  intros Hpre Hc. split.
  - unfold fec_encode. rewrite length_app. cbn [length].
    rewrite (proj2 (Nat.eqb_neq _ _)), (proj2 (Nat.ltb_ge _ _)) by lia. cbn [orb].
    assert (forall ps base, Forall (fun m => exists p, m = Some p /\ rtp_sized p) ps ->
      sn_base_loop (ps ++ None :: post) base = Fault) as Hloop.
    { induction ps as [|m ps IH]; intros base H; [done|]. rewrite Forall_cons_iff in H.
      destruct H as [(p & -> & Hp) H]. cbn [app sn_base_loop]. unfold member_seq. cbn [deref].
      rewrite bind_Ok, read_seq, bind_Ok by done. by apply IH. }
    destruct pre as [|m pre]; [done|]. rewrite Forall_cons_iff in Hpre.
    destruct Hpre as [(p & -> & Hp) Hpre]. cbn [app fec_sn_base]. unfold member_seq. cbn [deref].
    rewrite bind_Ok, read_seq, bind_Ok by done. by rewrite Hloop.
  - intros base m Hoff. revert m. induction pre as [|x pre IH]; intros m; [done|].
    rewrite Forall_cons_iff in Hpre, Hoff. destruct Hpre as [(p & -> & Hp) Hpre], Hoff as [(q & [= <-] & Ho) Hoff].
    cbn [app fec_check]. pose proof Hp as (_ & Hl & _). rewrite (proj2 (Nat.ltb_ge _ _)) by done.
    rewrite read_seq, bind_Ok by done. fold (offset_of base p).
    rewrite (proj2 (Z.leb_gt _ _)) by done. apply IH; [done | cbn in Hc; lia | done].
Qed.
Lemma fec_encode_null_member_witness :
  fec_encode ([Some [128; 96; 255; 255; 0; 0; 0; 7; 0; 0; 0; 9; 1]] ++ None :: []) [] = Fault.
Proof.
  refine (proj1 (fec_encode_null_member [Some [128; 96; 255; 255; 0; 0; 0; 7; 0; 0; 0; 9; 1]] [] [] _ _)).
  - constructor; [|constructor]. eexists. split; [reflexivity|]. 
    repeat constructor; cbn; unfold FEC_RTP_HDR, UINT16_MAX, is_u8; lia.
  - cbn. unfold FEC_MAX_GROUP. lia.
Defined.
