(* ===== verification/Fragment.v ===== *)
(** What the video packetizers share: payload emission through the caller's
    callback (the [while] loops of [h264_packetize], [h265_emit_fu] and
    [h265_packetize_au] stop at the first non-zero return), cutting a NAL unit
    into fragments, and reassembly from them. *)

From Stdlib Require Import ZArith Lia.
From stdpp Require Import base list numbers.
From S2P Require Import Prelude.

Local Open Scope Z_scope.

(** * Emission *)

(** The callback of type [h264_packet_cb]: its own state [U] (what [userdata]
    points to) is threaded; it receives the payload octets and the marker. *)
Definition packet_cb (U : Type) : Type := U -> list Z -> bool -> U * Z.

(** Emitting a list of payloads: the reference behaviour of a packetizer. *)
Fixpoint emit_all {U} (cb : packet_cb U) (u : U) (ps : list (list Z * bool)) : U * Z :=
  match ps with
  | [] => (u, 0)
  | (p, m) :: ps =>
      let '(u, rc) := cb u p m in
      if rc =? 0 then emit_all cb u ps else (u, rc)
  end.
Lemma emit_all_app {U} (cb : packet_cb U) ps qs : forall u,
  emit_all cb u (ps ++ qs) =
  let '(u', rc) := emit_all cb u ps in if rc =? 0 then emit_all cb u' qs else (u', rc).
Proof.
  induction ps as [|[p m] ps IH]; intros u; cbn; [done|].
  destruct (cb u p m) as [u' rc]. destruct (rc =? 0) eqn:Hrc; [apply IH|]. by rewrite Hrc.
Qed.

(** A callback that records what it is given and never fails. *)
Definition collect : packet_cb (list (list Z * bool)) := fun u p m => (u ++ [(p, m)], 0).
Lemma emit_all_collect ps : forall u, emit_all collect u ps = (u ++ ps, 0).
Proof.
  induction ps as [|[p m] ps IH]; intros u; cbn; [by rewrite app_nil_r|].
  rewrite IH. by rewrite <- app_assoc.
Qed.

(** * Fragments *)

(** The payloads of [data] cut into pieces of at most [max] octets, each after
    its header; [hdr first last] is the header of a piece. *)
Fixpoint fragments (fuel : nat) (hdr : bool -> bool -> list Z) (max : nat) (first : bool) (data : list Z)
  : list (list Z * bool) :=
  match fuel with
  | O => []
  | S fuel =>
      if (length data <=? max)%nat then [(hdr first true ++ data, true)]
      else (hdr first false ++ take max data, false)
           :: fragments fuel hdr max false (drop max data)
  end.

(** Payload sizes, and the last flag exactly on the last payload. *)
Lemma fragments_shape hdr max h : forall fuel first data,
  (forall a b, length (hdr a b) = h) -> (0 < max)%nat -> (0 < length data)%nat -> (length data <= fuel)%nat ->
  Forall (fun p => (h < length p.1 <= h + max)%nat) (fragments fuel hdr max first data) /\
  exists k, map snd (fragments fuel hdr max first data) = replicate k false ++ [true].
Proof.
  induction fuel as [|fuel IH]; intros first data Hh Hmax Hd Hf; [lia|]. cbn [fragments].
  destruct (Nat.leb_spec (length data) max) as [Hle|Hgt].
  - split; [|by exists 0%nat]. constructor; [|constructor]. cbn [fst]. rewrite length_app, Hh. lia.
  - destruct (IH false (drop max data)) as (Hall & k & Hk); [done | done | rewrite length_drop; lia.. |].
    split; [|exists (S k); cbn; by rewrite Hk]. constructor; [|done]. cbn [fst].
    rewrite length_app, Hh, length_take. lia.
Qed.

(** More fuel than pieces changes nothing. *)
Lemma fragments_fuel hdr max : forall f1 f2 first data,
  (0 < max)%nat -> (length data < f1)%nat -> (length data < f2)%nat ->
  fragments f1 hdr max first data = fragments f2 hdr max first data.
Proof.
  induction f1 as [|f1 IH]; intros [|f2] first data Hm H1 H2; try lia. cbn [fragments].
  destruct (Nat.leb_spec (length data) max); [done|]. f_equal. apply IH; [done | rewrite length_drop; lia..].
Qed.

(** * Reassembly *)

Section Reassembly.
Context {St : Type} (push : St -> list Z -> res (St * Z * option (list Z))).

(** Pushing payloads one after the other: what each push outputs. *)
Fixpoint push_all (d : St) (ps : list (list Z)) : res (St * list (Z * option (list Z))) :=
  match ps with
  | [] => Ok (d, [])
  | p :: ps =>
      '(d, rc, out) ← push d p;
      '(d, outs) ← push_all d ps;
      Ok (d, (rc, out) :: outs)
  end.

(** Outputs of a completed reassembly: nothing, then the unit. *)
Definition outputs (k : nat) (nalu : list Z) : list (Z * option (list Z)) :=
  replicate k (0, None) ++ [(0, Some nalu)].

Context (hdr : bool -> bool -> list Z) (max cap : nat) (unit_hdr : list Z).
Context (inv : St -> Prop) (holding : list Z -> St -> Prop).
Hypothesis push_first : forall d last x,
  inv d -> (length unit_hdr + length x <= cap)%nat ->
  exists d', push d (hdr true last ++ x) = Ok (d', 0, if last : bool then Some (unit_hdr ++ x) else None) /\
    if last then inv d' else holding (unit_hdr ++ x) d'.
Hypothesis push_next : forall d last p x,
  holding p d -> (length p + length x <= cap)%nat ->
  exists d', push d (hdr false last ++ x) = Ok (d', 0, if last : bool then Some (p ++ x) else None) /\
    if last then inv d' else holding (p ++ x) d'.

Lemma reassemble_next : forall fuel data d p,
  holding p d -> (length p + length data <= cap)%nat -> (0 < max)%nat -> (length data < fuel)%nat ->
  exists d' k, push_all d (map fst (fragments fuel hdr max false data)) = Ok (d', outputs k (p ++ data)) /\ inv d'.
Proof using push_next.
  induction fuel as [|fuel IH]; intros data d p Hh Hc Hmax Hf; [lia|]. cbn [fragments].
  destruct (Nat.leb_spec (length data) max) as [Hle|Hgt].
  - destruct (push_next d true p data Hh Hc) as (d' & Hp & Hi). cbn [map fst push_all].
    rewrite Hp, bind_Ok. exists d', 0%nat. done.
  - destruct (push_next d false p (take max data) Hh) as (d1 & Hp & Hh1); [rewrite length_take; lia|].
    destruct (IH (drop max data) d1 (p ++ take max data) Hh1) as (d' & k & Hk & Hi);
      [rewrite length_app, length_take, length_drop; lia | done | rewrite length_drop; lia |].
    cbn [map fst push_all]. rewrite Hp, bind_Ok, Hk, bind_Ok. exists d', (S k).
    rewrite <- app_assoc, take_drop. done.
Qed.
Lemma reassemble fuel data d :
  inv d -> (length unit_hdr + length data <= cap)%nat -> (0 < max)%nat -> (length data < fuel)%nat ->
  exists d' k, push_all d (map fst (fragments fuel hdr max true data))
    = Ok (d', outputs k (unit_hdr ++ data)) /\ inv d'.
Proof using push_next push_first.
  intros Hi Hc Hmax Hf. destruct fuel as [|fuel]; [lia|]. cbn [fragments].
  destruct (Nat.leb_spec (length data) max) as [Hle|Hgt].
  - destruct (push_first d true data Hi Hc) as (d' & Hp & Hi'). cbn [map fst push_all].
    rewrite Hp, bind_Ok. exists d', 0%nat. done.
  - destruct (push_first d false (take max data) Hi) as (d1 & Hp & Hh1); [rewrite length_take; lia|].
    destruct (reassemble_next fuel (drop max data) d1 (unit_hdr ++ take max data) Hh1) as (d' & k & Hk & Hi');
      [rewrite length_app, length_take, length_drop; lia | done | rewrite length_drop; lia |].
    cbn [map fst push_all]. rewrite Hp, bind_Ok, Hk, bind_Ok. exists d', (S k).
    rewrite <- app_assoc, take_drop. done.
Qed.
End Reassembly.
