(* ===== verification/H264.v ===== *)
(** H.264 over RTP, [src/nano_h264.c] (RFC 6184): the fragment iterator, the
    packetizer, the depacketizer and keyframe detection; what the packetizer
    emits, that the depacketizer rebuilds it, and memory safety of the latter. *)

From Stdlib Require Import ZArith Lia.
From stdpp Require Import base list numbers.
From S2P Require Import Prelude Wire Fragment.

Local Open Scope Z_scope.

Definition H264_NAL_TYPE_MASK : Z := 0x1F.
Definition H264_NAL_REF_IDC_MASK : Z := 0x60.
Definition H264_NAL_IDR : Z := 5.
Definition H264_NAL_STAPA : Z := 24.
Definition H264_NAL_FUA : Z := 28.
Definition H264_FUA_S_BIT : Z := 0x80.
Definition H264_FUA_E_BIT : Z := 0x40.
Definition H264_FUA_HEADER_SIZE : nat := 2.
Definition H264_STAPA_HEADER_SIZE : nat := 1.
Definition H264_STAPA_NALU_LEN_SIZE : nat := 2.
(** Default of [include/nanortc_config.h]. *)
Definition NANORTC_VIDEO_NAL_BUF_SIZE : nat := Z.to_nat 16384.

(** * Fragment iterator *)

(** [h264_fragment_iter_t]; the pointer [data] is an offset into [nalu]. *)
Record h264_fragment_iter : Type := FragIter {
  it_nalu : list Z; it_mtu : nat; it_fu_indicator : Z; it_nal_type : Z;
  it_data : nat; it_remaining : nat; it_max_frag : nat; it_single_nal : bool; it_done : bool
}.

Definition h264_fragment_iter_init (nalu : list Z) (mtu : nat) : res h264_fragment_iter :=
  let nalu_len := length nalu in
  if (nalu_len =? 0)%nat || (mtu <? H264_FUA_HEADER_SIZE + 1)%nat then Err NANORTC_ERR_INVALID_PARAM else
  if (nalu_len <=? mtu)%nat then Ok (FragIter nalu mtu 0 0 0 0 0 true false) else
  nal_header ← rd8 nalu 0;
  let nri := Z.land nal_header H264_NAL_REF_IDC_MASK in
  Ok (FragIter nalu mtu (Z.lor nri H264_NAL_FUA) (Z.land nal_header H264_NAL_TYPE_MASK)
        1 (nalu_len - 1) (mtu - H264_FUA_HEADER_SIZE) false false).

Definition h264_fragment_iter_has_next (it : h264_fragment_iter) : bool :=
  if it_done it then false else it_single_nal it || (0 <? it_remaining it)%nat.

(** The iterator, the scratch buffer, the payload and [*is_last_out]. *)
Definition h264_fragment_iter_next (it : h264_fragment_iter) (scratch : list Z)
  : res (h264_fragment_iter * list Z * list Z * bool) :=
  if it_done it then Err NANORTC_ERR_INVALID_PARAM else
  if it_single_nal it then
    Ok (FragIter (it_nalu it) (it_mtu it) (it_fu_indicator it) (it_nal_type it) (it_data it)
          (it_remaining it) (it_max_frag it) true true, scratch, it_nalu it, true)
  else if (it_remaining it =? 0)%nat then Err NANORTC_ERR_INVALID_PARAM else
  let frag_len := if (it_remaining it <? it_max_frag it)%nat then it_remaining it else it_max_frag it in
  if (length scratch <? H264_FUA_HEADER_SIZE + frag_len)%nat then Err NANORTC_ERR_BUFFER_TOO_SMALL else
  let fu_header := it_nal_type it in
  let fu_header := if (it_data it =? 1)%nat then Z.lor fu_header H264_FUA_S_BIT else fu_header in
  let is_last := (it_remaining it =? frag_len)%nat in
  let fu_header := if is_last then Z.lor fu_header H264_FUA_E_BIT else fu_header in
  scratch ← wr scratch 0 [it_fu_indicator it];
  scratch ← wr scratch 1 [fu_header];
  data ← rdn (it_nalu it) (it_data it) frag_len;
  scratch ← wr scratch H264_FUA_HEADER_SIZE data;
  payload ← rdn scratch 0 (H264_FUA_HEADER_SIZE + frag_len);
  Ok (FragIter (it_nalu it) (it_mtu it) (it_fu_indicator it) (it_nal_type it)
        (it_data it + frag_len) (it_remaining it - frag_len) (it_max_frag it) false
        (if is_last then true else it_done it), scratch, payload, is_last).

(** * Packetizer *)

Section Packetize.
Context {U : Type} (cb : packet_cb U).

(** The callback's state, the return code and the scratch buffer. *)
Fixpoint h264_packetize_loop (fuel : nat) (it : h264_fragment_iter) (scratch : list Z) (u : U)
  : res (U * Z * list Z) :=
  match fuel with
  | O => Fault
  | S fuel =>
      if h264_fragment_iter_has_next it then
        match h264_fragment_iter_next it scratch with
        | Fault => Fault
        | Err rc => Ok (u, rc, scratch)
        | Ok (it, scratch, payload, is_last) =>
            let '(u, rc) := cb u payload is_last in
            if negb (rc =? 0) then Ok (u, rc, scratch) else h264_packetize_loop fuel it scratch u
        end
      else Ok (u, NANORTC_OK, scratch)
  end.

(** Every fragment takes at least one octet of the unit. *)
Definition h264_packetize (nalu : list Z) (mtu : nat) (scratch : list Z) (u : U) : res (U * Z * list Z) :=
  it ← h264_fragment_iter_init nalu mtu;
  h264_packetize_loop (S (S (length nalu))) it scratch u.
End Packetize.

(** * Depacketizer *)

(** [nano_h264_depkt_t]; [d_buf] is the whole array. *)
Record nano_h264_depkt : Type := Depkt {
  d_buf : list Z; d_len : nat; d_nal_header : Z; d_in_progress : bool
}.
Definition h264_depkt_init : nano_h264_depkt := Depkt (replicate NANORTC_VIDEO_NAL_BUF_SIZE 0) 0 0 false.

(** [in_progress = 0; len = 0] when a reassembly is abandoned. *)
Definition depkt_abort (d : nano_h264_depkt) : nano_h264_depkt :=
  if d_in_progress d then Depkt (d_buf d) 0 (d_nal_header d) false else d.

(** The STAP-A loop; the code, the buffer and [buf_pos]. *)
Fixpoint h264_stapa_loop (fuel : nat) (payload : list Z) (offset : nat) (buf : list Z) (buf_pos : nat)
  : res (Z * list Z * nat) :=
  match fuel with
  | O => Fault
  | S fuel =>
      if (offset + H264_STAPA_NALU_LEN_SIZE <=? length payload)%nat then
        hi ← rd8 payload offset; lo ← rd8 payload (offset + 1);
        let sub_len := Z.to_nat (u16 (Z.lor (Z.shiftl hi 8) lo)) in
        let offset := (offset + H264_STAPA_NALU_LEN_SIZE)%nat in
        if (length payload - offset <? sub_len)%nat then Ok (NANORTC_ERR_PARSE, buf, buf_pos) else
        if (sub_len =? 0)%nat then Ok (NANORTC_OK, buf, buf_pos) else
        if (buf_pos =? 0)%nat then
          if (NANORTC_VIDEO_NAL_BUF_SIZE <? sub_len)%nat then Ok (NANORTC_ERR_BUFFER_TOO_SMALL, buf, buf_pos) else
          sub ← rdn payload offset sub_len;
          buf ← wr buf 0 sub;
          h264_stapa_loop fuel payload (offset + sub_len) buf sub_len
        else h264_stapa_loop fuel payload (offset + sub_len) buf buf_pos
      else Ok (NANORTC_OK, buf, buf_pos)
  end.

(** The complete unit handed out: the first [d_len] octets of the buffer. *)
Definition depkt_out (d : nano_h264_depkt) : res (option (list Z)) :=
  nalu ← rdn (d_buf d) 0 (d_len d); Ok (Some nalu).

(** The FU-A branch after the length check. *)
Definition h264_push_fua (d : nano_h264_depkt) (payload : list Z)
  : res (nano_h264_depkt * Z * option (list Z)) :=
  fu_header ← rd8 payload 1;
  p0 ← rd8 payload 0;
  let is_start := negb (Z.land fu_header H264_FUA_S_BIT =? 0) in
  let is_end := negb (Z.land fu_header H264_FUA_E_BIT =? 0) in
  let frag_type := Z.land fu_header H264_NAL_TYPE_MASK in
  let nri := Z.land p0 H264_NAL_REF_IDC_MASK in
  let frag_len := (length payload - H264_FUA_HEADER_SIZE)%nat in
  frag_data ← rdn payload H264_FUA_HEADER_SIZE frag_len;
  let finish (d : nano_h264_depkt) :=
    if is_end then
      let d := Depkt (d_buf d) (d_len d) (d_nal_header d) false in
      out ← depkt_out d; Ok (d, NANORTC_OK, out)
    else Ok (d, NANORTC_OK, None) in
  if is_start then
    let nal_header := Z.lor nri frag_type in
    buf ← wr (d_buf d) 0 [nal_header];
    if (NANORTC_VIDEO_NAL_BUF_SIZE <? 1 + frag_len)%nat
    then Ok (Depkt buf 0 nal_header false, NANORTC_ERR_BUFFER_TOO_SMALL, None)
    else
      buf ← wr buf 1 frag_data;
      finish (Depkt buf (1 + frag_len) nal_header true)
  else if d_in_progress d then
    if (NANORTC_VIDEO_NAL_BUF_SIZE <? d_len d + frag_len)%nat
    then Ok (Depkt (d_buf d) 0 (d_nal_header d) false, NANORTC_ERR_BUFFER_TOO_SMALL, None)
    else
      buf ← wr (d_buf d) (d_len d) frag_data;
      finish (Depkt buf (d_len d + frag_len) (d_nal_header d) true)
  else Ok (d, NANORTC_OK, None).

(** The depacketizer, the return code and the unit handed out. *)
Definition h264_depkt_push (d : nano_h264_depkt) (payload : list Z)
  : res (nano_h264_depkt * Z * option (list Z)) :=
  let len := length payload in
  if (len =? 0)%nat then Err NANORTC_ERR_INVALID_PARAM else
  p0 ← rd8 payload 0;
  let nal_type := Z.land p0 H264_NAL_TYPE_MASK in
  if (1 <=? nal_type) && (nal_type <=? 23) then
    let d := depkt_abort d in
    if (NANORTC_VIDEO_NAL_BUF_SIZE <? len)%nat then Ok (d, NANORTC_ERR_BUFFER_TOO_SMALL, None) else
    buf ← wr (d_buf d) 0 payload;
    let d := Depkt buf len (d_nal_header d) (d_in_progress d) in
    out ← depkt_out d; Ok (d, NANORTC_OK, out)
  else if nal_type =? H264_NAL_STAPA then
    let d := depkt_abort d in
    '(rc, buf, buf_pos) ← h264_stapa_loop (S len) payload H264_STAPA_HEADER_SIZE (d_buf d) 0;
    if negb (rc =? NANORTC_OK) then Ok (Depkt buf (d_len d) (d_nal_header d) (d_in_progress d), rc, None) else
    if (0 <? buf_pos)%nat then
      let d := Depkt buf buf_pos (d_nal_header d) (d_in_progress d) in
      out ← depkt_out d; Ok (d, NANORTC_OK, out)
    else Ok (Depkt buf (d_len d) (d_nal_header d) (d_in_progress d), NANORTC_OK, None)
  else if nal_type =? H264_NAL_FUA then
    if (len <? H264_FUA_HEADER_SIZE)%nat then Ok (d, NANORTC_ERR_PARSE, None)
    else h264_push_fua d payload
  else Ok (d, NANORTC_OK, None).

(** * Keyframe detection *)

Fixpoint keyframe_stapa_loop (fuel : nat) (payload : list Z) (offset : nat) : res bool :=
  match fuel with
  | O => Fault
  | S fuel =>
      if (offset + H264_STAPA_NALU_LEN_SIZE <=? length payload)%nat then
        hi ← rd8 payload offset; lo ← rd8 payload (offset + 1);
        let sub_len := Z.to_nat (u16 (Z.lor (Z.shiftl hi 8) lo)) in
        let offset := (offset + H264_STAPA_NALU_LEN_SIZE)%nat in
        if (sub_len =? 0)%nat || (length payload - offset <? sub_len)%nat then Ok false else
        t ← rd8 payload offset;
        if Z.land t H264_NAL_TYPE_MASK =? H264_NAL_IDR then Ok true
        else keyframe_stapa_loop fuel payload (offset + sub_len)
      else Ok false
  end.

Definition h264_is_keyframe (payload : list Z) : res bool :=
  let len := length payload in
  if (len =? 0)%nat then Ok false else
  p0 ← rd8 payload 0;
  let nal_type := Z.land p0 H264_NAL_TYPE_MASK in
  if (1 <=? nal_type) && (nal_type <=? 23) then Ok (nal_type =? H264_NAL_IDR)
  else if nal_type =? H264_NAL_STAPA then keyframe_stapa_loop (S len) payload H264_STAPA_HEADER_SIZE
  else if nal_type =? H264_NAL_FUA then
    if (len <? H264_FUA_HEADER_SIZE)%nat then Ok false else
    fu_header ← rd8 payload 1;
    if Z.land fu_header H264_FUA_S_BIT =? 0 then Ok false
    else Ok (Z.land fu_header H264_NAL_TYPE_MASK =? H264_NAL_IDR)
  else Ok false.

(** * What the packetizer emits *)

Definition fua_hdr (h : Z) (first last : bool) : list Z :=
  let t := Z.land h H264_NAL_TYPE_MASK in
  let t := if first then Z.lor t H264_FUA_S_BIT else t in
  [Z.lor (Z.land h H264_NAL_REF_IDC_MASK) H264_NAL_FUA; if last then Z.lor t H264_FUA_E_BIT else t].
Definition h264_payloads (nalu : list Z) (mtu : nat) : list (list Z * bool) :=
  if (length nalu <=? mtu)%nat then [(nalu, true)]
  else fragments (length nalu) (fua_hdr (nth 0 nalu 0)) (mtu - 2) true (drop 1 nalu).

Section Emission.
Context {U : Type} (cb : packet_cb U) (nalu : list Z) (mtu : nat) (Hmtu : (3 <= mtu)%nat).

(** The iterator in front of the fragment at offset [o]. *)
Definition iter_at (o : nat) : h264_fragment_iter :=
  FragIter nalu mtu (Z.lor (Z.land (nth 0 nalu 0) H264_NAL_REF_IDC_MASK) H264_NAL_FUA)
    (Z.land (nth 0 nalu 0) H264_NAL_TYPE_MASK) o (length nalu - o) (mtu - 2) false false.

Lemma iter_next_at o scratch :
  (1 <= o < length nalu)%nat -> (mtu <= length scratch)%nat ->
  let n := (if length nalu - o <? mtu - 2 then length nalu - o else mtu - 2)%nat in
  let last := (length nalu - o <=? mtu - 2)%nat in
  exists scratch', length scratch' = length scratch /\
    h264_fragment_iter_next (iter_at o) scratch =
    Ok (FragIter nalu mtu (Z.lor (Z.land (nth 0 nalu 0) H264_NAL_REF_IDC_MASK) H264_NAL_FUA)
          (Z.land (nth 0 nalu 0) H264_NAL_TYPE_MASK) (o + n) (length nalu - o - n) (mtu - 2) false last,
        scratch', fua_hdr (nth 0 nalu 0) (o =? 1)%nat last ++ take n (drop o nalu), last).
Proof using Hmtu.
  intros Ho Hs n last. unfold h264_fragment_iter_next.
  cbn [it_done it_single_nal it_remaining it_max_frag it_data it_nal_type it_fu_indicator it_nalu it_mtu iter_at].
  fold n. rewrite (proj2 (Nat.eqb_neq _ _)) by lia.
  assert (n <= mtu - 2 /\ n <= length nalu - o)%nat as [Hn1 Hn2]
    by (unfold n; destruct (Nat.ltb_spec (length nalu - o) (mtu - 2)); lia).
  assert ((length nalu - o =? n)%nat = last) as ->.
  { unfold n, last. destruct (Nat.ltb_spec (length nalu - o) (mtu - 2)), (Nat.leb_spec (length nalu - o) (mtu - 2));
      apply Nat.eqb_eq || apply Nat.eqb_neq; lia. }
  unfold H264_FUA_HEADER_SIZE. rewrite (proj2 (Nat.ltb_ge _ _)) by lia.
  destruct scratch as [|s0 [|s1 scratch]]; [cbn in Hs; lia..|]. cbn [length] in Hs.
  do 2 lit_write. rewrite rdn_Ok, bind_Ok by lia.
  assert (length (take n (drop o nalu)) = n) as Hl by (rewrite length_take, length_drop; lia).
  rewrite !drop_0. rewrite wr_Ok, bind_Ok by (rewrite Hl; cbn [length]; lia).
  rewrite Hl. change (2 + n)%nat with (S (S n)). cbn [take app drop]. rewrite take_0, ?drop_0. cbn [app].
  rewrite rdn_Ok, bind_Ok by (cbn [length]; rewrite length_app, length_drop; cbn [length]; lia).
  rewrite drop_0. cbn [take Nat.add]. rewrite take_app_length' by done.
  replace (if last then true else false) with last by (by destruct last).
  eexists. split; [|reflexivity]. cbn [length]. rewrite length_app, length_drop, Hl. lia.
Qed.

Lemma packetize_loop_at : forall fuel o scratch u,
  (1 <= o < length nalu)%nat -> (mtu <= length scratch)%nat -> (length nalu - o < fuel)%nat ->
  exists scratch', length scratch' = length scratch /\
    h264_packetize_loop cb fuel (iter_at o) scratch u =
    Ok (emit_all cb u (fragments fuel (fua_hdr (nth 0 nalu 0)) (mtu - 2) (o =? 1)%nat (drop o nalu)), scratch').
Proof using Hmtu.
  induction fuel as [|fuel IH]; intros o scratch u Ho Hs Hf; [lia|].
  destruct (iter_next_at o scratch Ho Hs) as (s' & Hs' & Hn).
  cbn [h264_packetize_loop fragments]. rewrite length_drop.
  unfold h264_fragment_iter_has_next. cbn [it_done it_single_nal it_remaining iter_at orb].
  rewrite (proj2 (Nat.ltb_lt _ _)) by lia. rewrite Hn. clear Hn. cbv zeta.
  destruct (Nat.leb_spec (length nalu - o) (mtu - 2)) as [Hle|Hgt].
  - assert (take (if (length nalu - o <? mtu - 2)%nat then length nalu - o else mtu - 2) (drop o nalu) = drop o nalu)
      as -> by (apply take_ge; rewrite length_drop; destruct (Nat.ltb_spec (length nalu - o) (mtu - 2)); lia).
    cbn [emit_all]. destruct (cb u _ true) as [u' rc]. destruct (rc =? 0) eqn:Hrc; cbn [negb]; [|eauto].
    apply Z.eqb_eq in Hrc. subst rc. exists s'. split; [done|].
    destruct fuel as [|fuel]; [lia|]. reflexivity.
  - rewrite (proj2 (Nat.ltb_ge _ _)) by lia. cbn [emit_all].
    destruct (cb u _ false) as [u' rc]. destruct (rc =? 0) eqn:Hrc; cbn [negb]; [|eauto].
    destruct (IH (o + (mtu - 2))%nat s' u') as (s'' & Hs'' & Heq); [lia | lia | lia |].
    exists s''. split; [lia|]. unfold iter_at in Heq. rewrite Nat.sub_add_distr in Heq. rewrite Heq.
    rewrite drop_drop. by rewrite (proj2 (Nat.eqb_neq _ _)) by lia.
Qed.
End Emission.

Lemma h264_packetize_spec {U} (cb : packet_cb U) nalu mtu scratch u :
  (0 < length nalu)%nat -> (3 <= mtu)%nat -> (mtu <= length scratch)%nat ->
  exists scratch', length scratch' = length scratch /\
    h264_packetize cb nalu mtu scratch u = Ok (emit_all cb u (h264_payloads nalu mtu), scratch').
Proof.
  intros Hl Hmtu Hs. unfold h264_packetize, h264_fragment_iter_init, h264_payloads, H264_FUA_HEADER_SIZE.
  rewrite (proj2 (Nat.eqb_neq _ _)), (proj2 (Nat.ltb_ge _ _)) by lia. cbn [orb].
  destruct (Nat.leb_spec (length nalu) mtu) as [Hle|Hgt].
  - rewrite bind_Ok. cbn [h264_packetize_loop emit_all]. unfold h264_fragment_iter_has_next, h264_fragment_iter_next.
    cbn [it_done it_single_nal it_nalu orb]. destruct (cb u nalu true) as [u' rc].
    destruct (rc =? 0) eqn:Hrc; cbn [negb]; [|eauto].
    apply Z.eqb_eq in Hrc. subst rc. exists scratch. done.
  - rewrite rd8_Ok, !bind_Ok by lia.
    destruct (packetize_loop_at cb nalu mtu Hmtu (S (S (length nalu))) 1 scratch u) as (s' & Hs' & Heq); [lia..|].
    exists s'. split; [done|]. unfold iter_at in Heq. rewrite Heq.
    by rewrite (fragments_fuel _ _ (S (S (length nalu))) (length nalu)) by (rewrite ?length_drop; lia).
Qed.

(** * Depacketizing *)

Definition depkt_ok (d : nano_h264_depkt) : Prop :=
  length (d_buf d) = NANORTC_VIDEO_NAL_BUF_SIZE /\ (d_len d <= NANORTC_VIDEO_NAL_BUF_SIZE)%nat /\
  (d_in_progress d = true -> 1 <= d_len d)%nat.
(** A reassembly in progress holds the octets [p]. *)
Definition depkt_holding (p : list Z) (d : nano_h264_depkt) : Prop :=
  depkt_ok d /\ d_in_progress d = true /\ d_len d = length p /\ exists rest, d_buf d = p ++ rest.

Lemma nal_buf_size : Z.of_nat NANORTC_VIDEO_NAL_BUF_SIZE = 16384.
Proof. by apply Z2Nat.id. Qed.
(** The buffer size is only used through its value. *)
Ltac nal_lia := pose proof nal_buf_size; lia.

Lemma depkt_out_eq p rest h b : depkt_out (Depkt (p ++ rest) (length p) h b) = Ok (Some p).
Proof. unfold depkt_out. cbn [d_buf d_len]. by rewrite (rdn_mid [] p rest), bind_Ok. Qed.

(** Header bits of a fragment. *)
Ltac bits :=
  unfold H264_NAL_TYPE_MASK, H264_NAL_REF_IDC_MASK, H264_NAL_FUA, H264_FUA_S_BIT, H264_FUA_E_BIT;
  rewrite ?Z.land_lor_distr_l, <- ?Z.land_assoc;
  repeat match goal with |- context [Z.land (Zpos ?a) (Zpos ?b)] =>
    let v := eval vm_compute in (Z.land (Zpos a) (Zpos b)) in change (Z.land (Zpos a) (Zpos b)) with v end;
  rewrite ?Z.land_0_r, ?Z.lor_0_l, ?Z.lor_0_r.
Lemma fua_ind_type h : Z.land (Z.lor (Z.land h H264_NAL_REF_IDC_MASK) H264_NAL_FUA) H264_NAL_TYPE_MASK = H264_NAL_FUA.
Proof. by bits. Qed.
Lemma fua_header_bits h (first last : bool) :
  let fu := nth 1 (fua_hdr h first last) 0 in
  negb (Z.land fu H264_FUA_S_BIT =? 0) = first /\ negb (Z.land fu H264_FUA_E_BIT =? 0) = last /\
  Z.land fu H264_NAL_TYPE_MASK = Z.land h H264_NAL_TYPE_MASK.
Proof. destruct first, last; cbn [nth fua_hdr]; split_and!; by bits. Qed.
Lemma nal_header_restored h :
  0 <= h < 128 ->
  Z.lor (Z.land (Z.lor (Z.land h H264_NAL_REF_IDC_MASK) H264_NAL_FUA) H264_NAL_REF_IDC_MASK)
        (Z.land h H264_NAL_TYPE_MASK) = h.
Proof.
  intros Hh. bits. rewrite <- Z.land_lor_distr_r. change (Z.lor 96 31) with (Z.ones 7).
  rewrite Z.land_ones by lia. apply Z.mod_small. done.
Qed.

Section Push.
Context (h : Z) (Hh : 0 <= h < 128).

Lemma h264_push_fragment d (first last : bool) x :
  h264_depkt_push d (fua_hdr h first last ++ x) = h264_push_fua d (fua_hdr h first last ++ x).
Proof using Type.
  unfold h264_depkt_push. cbn [app length fua_hdr Nat.eqb]. rewrite rd8_Ok, bind_Ok by (cbn; lia). cbn [nth].
  rewrite fua_ind_type. done.
Qed.

Lemma h264_push_first d (last : bool) x :
  depkt_ok d -> (length [h] + length x <= NANORTC_VIDEO_NAL_BUF_SIZE)%nat ->
  exists d', h264_depkt_push d (fua_hdr h true last ++ x) = Ok (d', 0, if last then Some ([h] ++ x) else None) /\
    if last then depkt_ok d' else depkt_holding ([h] ++ x) d'.
Proof using Hh.
  intros (Hb & Hl & _) Hx. cbn [length] in Hx. rewrite h264_push_fragment. unfold h264_push_fua.
  destruct (fua_header_bits h true last) as (Hs & He & Ht). cbv zeta in Hs, He, Ht.
  unfold fua_hdr in *. cbn [nth app] in *. rewrite !rd8_Ok by (cbn; lia); rewrite !bind_Ok. cbn [nth].
  rewrite Hs, He, Ht, nal_header_restored by done. unfold H264_FUA_HEADER_SIZE. cbn [length].
  rewrite !Nat.sub_succ, Nat.sub_0_r. rewrite rdn_Ok, bind_Ok by (cbn [length]; lia).
  cbn [drop]. rewrite drop_0, firstn_all.
  rewrite wr_0, bind_Ok by (cbn [length]; nal_lia). rewrite (proj2 (Nat.ltb_ge _ _)) by lia.
  cbn [length app]. rewrite wr_Ok, bind_Ok by (cbn [length]; rewrite length_drop; nal_lia).
  cbn [take app]. rewrite take_0. cbn [app].
  set (tl := drop _ (h :: drop 1 (d_buf d))).
  assert (length (h :: x ++ tl) = NANORTC_VIDEO_NAL_BUF_SIZE) as Hlen.
  { subst tl. cbn [length]. rewrite length_app, length_drop. cbn [length]. rewrite length_drop. nal_lia. }
  change (h :: x ++ tl) with ((h :: x) ++ tl) in *. change (1 + length x)%nat with (length (h :: x)).
  destruct last.
  - cbn [d_buf d_len d_nal_header]. rewrite depkt_out_eq, bind_Ok. eexists. split; [reflexivity|].
    split_and!; [done | cbn [d_len length]; lia | done].
  - eexists. split; [reflexivity|]. split; [split_and!; [done | cbn [d_len length]; lia | cbn [d_len length]; lia]|].
    split_and!; [done | done | by exists tl].
Qed.

Lemma h264_push_next d (last : bool) p x :
  depkt_holding p d -> (length p + length x <= NANORTC_VIDEO_NAL_BUF_SIZE)%nat ->
  exists d', h264_depkt_push d (fua_hdr h false last ++ x) = Ok (d', 0, if last then Some (p ++ x) else None) /\
    if last then depkt_ok d' else depkt_holding (p ++ x) d'.
Proof using Type.
  intros ((Hb & Hl & Hone) & Hip & Hlp & rest & Hbuf) Hx. specialize (Hone Hip). rewrite h264_push_fragment. unfold h264_push_fua.
  destruct (fua_header_bits h false last) as (Hs & He & _). cbv zeta in Hs, He.
  unfold fua_hdr in *. cbn [nth app] in *. rewrite !rd8_Ok by (cbn; lia); rewrite !bind_Ok. cbn [nth].
  rewrite Hs, He. unfold H264_FUA_HEADER_SIZE. cbn [length].
  rewrite !Nat.sub_succ, Nat.sub_0_r. rewrite rdn_Ok, bind_Ok by (cbn [length]; lia).
  cbn [drop]. rewrite drop_0, firstn_all. rewrite Hip, Hlp. rewrite (proj2 (Nat.ltb_ge _ _)) by lia.
  rewrite Hbuf in *. rewrite length_app in Hb.
  rewrite (wr_append p rest), bind_Ok by (done || lia).
  set (tl := drop _ rest).
  assert (length ((p ++ x) ++ tl) = NANORTC_VIDEO_NAL_BUF_SIZE) as Hlen.
  { subst tl. rewrite !length_app, length_drop. lia. }
  rewrite <- length_app. destruct last.
  - cbn [d_buf d_len d_nal_header]. rewrite depkt_out_eq, bind_Ok. eexists. split; [reflexivity|].
    split_and!; [done | cbn [d_len]; rewrite length_app; lia | done].
  - eexists. split; [reflexivity|]. split; [split_and!; [done | cbn [d_len]; rewrite length_app; lia | cbn [d_len]; rewrite length_app; lia]|].
    split_and!; [done | done | by exists tl].
Qed.
End Push.

(** * Memory safety *)

Definition push_result_ok (r : nano_h264_depkt * Z * option (list Z)) : Prop :=
  let '(d, rc, out) := r in
  depkt_ok d /\ forall nalu, out = Some nalu -> (1 <= length nalu <= NANORTC_VIDEO_NAL_BUF_SIZE)%nat.

Lemma depkt_abort_ok d : depkt_ok d -> depkt_ok (depkt_abort d) /\ d_in_progress (depkt_abort d) = false.
Proof. intros (? & ? & ?). unfold depkt_abort, depkt_ok. destruct (d_in_progress d) eqn:?; split_and!; cbn; first [done | nal_lia | congruence]. Qed.
Lemma depkt_out_wp d P :
  depkt_ok d -> (forall nalu, length nalu = d_len d -> P (Some nalu)) -> wp (depkt_out d) P.
Proof.
  intros (Hb & Hl & _) HP. unfold depkt_out. rewrite rdn_Ok, bind_Ok by lia. apply HP.
  rewrite length_take, length_drop. lia.
Qed.
Lemma stapa_loop_wp payload : forall fuel offset buf buf_pos,
  length buf = NANORTC_VIDEO_NAL_BUF_SIZE -> (buf_pos <= NANORTC_VIDEO_NAL_BUF_SIZE)%nat ->
  (offset <= length payload)%nat -> (length payload - offset < fuel)%nat ->
  wp (h264_stapa_loop fuel payload offset buf buf_pos) (fun '(rc, buf', pos') =>
    length buf' = NANORTC_VIDEO_NAL_BUF_SIZE /\ (pos' <= NANORTC_VIDEO_NAL_BUF_SIZE)%nat).
Proof.
  induction fuel as [|fuel IH]; intros offset buf pos Hb Hp Ho Hf; [lia|]. cbn [h264_stapa_loop].
  unfold H264_STAPA_NALU_LEN_SIZE. wp_step; [|wp_step; done].
  wp_step. apply rd8_wp; [lia|]. intros hi. wp_step. apply rd8_wp; [lia|]. intros lo. cbv zeta.
  set (sub_len := Z.to_nat _). repeat wp_step; try done.
  - apply rdn_wp; [lia|]. intros sub Hsub. wp_step. apply wr_wp; [lia|]. intros b' Hb'.
    apply IH; lia.
  - apply IH; lia.
Qed.

Lemma h264_push_fua_wp d payload :
  depkt_ok d -> (2 <= length payload)%nat -> wp (h264_push_fua d payload) push_result_ok.
Proof.
  intros (Hb & Hl & Hone) Hp. unfold h264_push_fua, H264_FUA_HEADER_SIZE.
  wp_step. apply rd8_wp; [lia|]. intros fu. wp_step. apply rd8_wp; [lia|]. intros p0. cbv zeta.
  wp_step. apply rdn_wp; [lia|]. intros x Hx. unfold push_result_ok.
  assert (forall d', depkt_ok d' -> (1 <= d_len d')%nat ->
    wp (out ← depkt_out d'; Ok (d', NANORTC_OK, out)) push_result_ok) as Hout.
  { intros d' Hd' H1. wp_step. apply depkt_out_wp; [done|]. intros nalu Hn. wp_step. split; [done|].
    intros ? [= <-]. pose proof Hd' as (_ & ? & _). lia. }
  wp_step; [|wp_step; [wp_step|]].
  - wp_step. apply wr_wp; [cbn [length]; nal_lia|]. intros b1 Hb1. wp_step.
    { wp_step. split; [split_and!; cbn; first [lia | done] | done]. }
    wp_step. apply wr_wp; [lia|]. intros b2 Hb2. cbv beta.
    wp_step; [apply Hout; cbn [d_len]; [unfold depkt_ok; cbn [d_buf d_len d_in_progress]; split_and!; lia || done | lia]|].
    wp_step. split; [unfold depkt_ok; cbn [d_buf d_len d_in_progress]; split_and!; lia || done | done].
  - wp_step. split; [unfold depkt_ok; cbn; split_and!; lia || done | done].
  - wp_step. apply wr_wp; [lia|]. intros b2 Hb2. specialize (Hone Hg0). cbv beta.
    wp_step; [apply Hout; cbn [d_len]; [unfold depkt_ok; cbn [d_buf d_len d_in_progress]; split_and!; lia || done | lia]|].
    wp_step. split; [unfold depkt_ok; cbn [d_buf d_len d_in_progress]; split_and!; lia || done | done].
  - wp_step. done.
Qed.
Lemma h264_depkt_push_wp d payload : depkt_ok d -> wp (h264_depkt_push d payload) push_result_ok.
Proof.
  intros Hd. unfold h264_depkt_push. destruct (depkt_abort_ok d Hd) as [(Hab & Hal & _) Hai].
  wp_step; [wp_step|]. wp_step. apply rd8_wp; [lia|]. intros p0. cbv zeta.
  wp_step; [|wp_step; [|wp_step]].
  - wp_step; [wp_step; split; [unfold depkt_ok; rewrite Hai; done | done]|].
    wp_step. apply wr_wp; [lia|]. intros b Hb. wp_step.
    apply depkt_out_wp; [unfold depkt_ok; cbn [d_buf d_len d_in_progress]; rewrite Hai; split_and!; lia || done|].
    intros nalu Hn. cbn [d_len] in Hn. wp_step. unfold push_result_ok.
    split; [unfold depkt_ok; cbn [d_buf d_len d_in_progress]; rewrite Hai; split_and!; lia || done|].
    intros ? [= <-]. lia.
  - wp_step. eapply wp_mono; [apply (stapa_loop_wp payload); unfold H264_STAPA_HEADER_SIZE; lia|].
    intros [[rc b] pos] [Hb Hp]. wp_step; [wp_step; split; [unfold depkt_ok; cbn; rewrite Hai; done | done]|].
    wp_step; [|wp_step; split; [unfold depkt_ok; cbn; rewrite Hai; done | done]].
    wp_step. apply depkt_out_wp; [unfold depkt_ok; cbn [d_buf d_len d_in_progress]; rewrite Hai; split_and!; lia || done|].
    intros nalu Hn. cbn [d_len] in Hn. wp_step. unfold push_result_ok.
    split; [unfold depkt_ok; cbn [d_buf d_len d_in_progress]; rewrite Hai; split_and!; lia || done|].
    intros ? [= <-]. lia.
  - wp_step; [wp_step; done|]. apply h264_push_fua_wp; [done|]. unfold H264_FUA_HEADER_SIZE in *. lia.
  - wp_step. done.
Qed.

(** * Aggregation packets *)

(** A STAP-A payload with header octet [h]. *)
Definition stapa_body (nals : list (list Z)) : list Z :=
  concat (map (fun n => be16 (Z.of_nat (length n)) ++ n) nals).
Definition stapa (h : Z) (nals : list (list Z)) : list Z := h :: stapa_body nals.
Definition stapa_nal (n : list Z) : Prop := (1 <= length n)%nat /\ Z.of_nat (length n) < 65536.
Definition is_idr (n : list Z) : bool := Z.land (nth 0 n 0) H264_NAL_TYPE_MASK =? H264_NAL_IDR.

Lemma stapa_step pre n nals :
  stapa_nal n ->
  let payload := pre ++ stapa_body (n :: nals) in let offset := length pre in
  (offset + 2 <=? length payload)%nat = true /\
  rd8 payload offset = Ok (u8 (Z.shiftr (Z.of_nat (length n)) 8)) /\
  rd8 payload (offset + 1) = Ok (u8 (Z.of_nat (length n))) /\
  payload = ((pre ++ be16 (Z.of_nat (length n))) ++ n) ++ stapa_body nals.
Proof.
  intros [Hn Hn']. cbn zeta.
  assert (pre ++ stapa_body (n :: nals) = ((pre ++ be16 (Z.of_nat (length n))) ++ n) ++ stapa_body nals) as Heq.
  { unfold stapa_body. cbn [map concat]. by rewrite <- !app_assoc. }
  split_and!; [| | |done].
  - rewrite Heq, !length_app. apply Nat.leb_le. cbn [length be16]. lia.
  - rewrite <- (Nat.add_0_r (length pre)), rd8_app_r. done.
  - rewrite rd8_app_r. done.
Qed.
Lemma stapa_len n : stapa_nal n ->
  Z.to_nat (u16 (Z.lor (Z.shiftl (u8 (Z.shiftr (Z.of_nat (length n)) 8)) 8) (u8 (Z.of_nat (length n))))) = length n.
Proof. intros [_ Hn]. rewrite be16_read, u16_id by mach. apply Nat2Z.id. Qed.
Lemma stapa_room pre n nals :
  (length ((pre ++ be16 (Z.of_nat (length n))) ++ n ++ stapa_body nals) - (length pre + 2) <? length n)%nat = false.
Proof. apply Nat.ltb_ge. rewrite !length_app. cbn [length be16]. lia. Qed.

(** Once a unit is held, the rest of the packet is only checked. *)
Lemma stapa_loop_rest nals : forall fuel pre buf pos,
  Forall stapa_nal nals -> (0 < pos)%nat -> (length nals < fuel)%nat ->
  h264_stapa_loop fuel (pre ++ stapa_body nals) (length pre) buf pos = Ok (NANORTC_OK, buf, pos).
Proof.
  induction nals as [|n nals IH]; intros fuel pre buf pos Hn Hp Hf; (destruct fuel as [|fuel]; [cbn in Hf; lia|]).
  - cbn [h264_stapa_loop]. unfold stapa_body, H264_STAPA_NALU_LEN_SIZE. cbn [map concat]. rewrite app_nil_r.
    by rewrite (proj2 (Nat.leb_gt _ _)) by lia.
  - rewrite Forall_cons_iff in Hn. destruct Hn as [Hn1 Hn].
    destruct (stapa_step pre n nals Hn1) as (Hle & Hhi & Hlo & Heq). cbn zeta in *.
    cbn [h264_stapa_loop]. unfold H264_STAPA_NALU_LEN_SIZE. rewrite Hle, Hhi, Hlo, !bind_Ok, stapa_len by done.
    rewrite Heq, <- (app_assoc _ n), stapa_room. destruct Hn1 as [Hn1 _].
    rewrite (proj2 (Nat.eqb_neq (length n) 0)) by lia. rewrite (proj2 (Nat.eqb_neq pos 0)) by lia.
    rewrite (app_assoc _ n).
    replace (length pre + 2 + length n)%nat with (length ((pre ++ be16 (Z.of_nat (length n))) ++ n))
      by (rewrite !length_app; cbn [length be16]; lia).
    apply IH; [done | done | cbn in Hf; lia].
Qed.

Lemma stapa_loop_first n nals fuel pre buf :
  Forall stapa_nal (n :: nals) -> (length n <= NANORTC_VIDEO_NAL_BUF_SIZE)%nat ->
  length buf = NANORTC_VIDEO_NAL_BUF_SIZE -> (S (length nals) < fuel)%nat ->
  h264_stapa_loop fuel (pre ++ stapa_body (n :: nals)) (length pre) buf 0 =
  Ok (NANORTC_OK, n ++ drop (length n) buf, length n).
Proof.
  intros Hn Hcap Hbuf Hf. destruct fuel as [|fuel]; [lia|].
  rewrite Forall_cons_iff in Hn. destruct Hn as [Hn1 Hn].
  destruct (stapa_step pre n nals Hn1) as (Hle & Hhi & Hlo & Heq). cbn zeta in *.
  cbn [h264_stapa_loop]. unfold H264_STAPA_NALU_LEN_SIZE. rewrite Hle, Hhi, Hlo, !bind_Ok, stapa_len by done.
  rewrite Heq, <- (app_assoc _ n), stapa_room. destruct Hn1 as [Hn1 _].
  rewrite (proj2 (Nat.eqb_neq (length n) 0)) by lia. cbn [Nat.eqb].
  rewrite (proj2 (Nat.ltb_ge _ _)) by lia.
  rewrite (rdn_mid (pre ++ be16 (Z.of_nat (length n))) n), bind_Ok
    by (done || rewrite length_app; cbn [length be16]; lia).
  rewrite wr_0, bind_Ok by lia. rewrite (app_assoc _ n).
  replace (length pre + 2 + length n)%nat with (length ((pre ++ be16 (Z.of_nat (length n))) ++ n))
    by (rewrite !length_app; cbn [length be16]; lia).
  apply stapa_loop_rest; [done | lia | lia].
Qed.

Lemma keyframe_stapa nals : forall fuel pre,
  Forall stapa_nal nals -> (length nals < fuel)%nat ->
  keyframe_stapa_loop fuel (pre ++ stapa_body nals) (length pre) = Ok (existsb is_idr nals).
Proof.
  induction nals as [|n nals IH]; intros fuel pre Hn Hf; (destruct fuel as [|fuel]; [cbn in Hf; lia|]).
  - cbn [keyframe_stapa_loop]. unfold stapa_body, H264_STAPA_NALU_LEN_SIZE. cbn [map concat]. rewrite app_nil_r.
    by rewrite (proj2 (Nat.leb_gt _ _)) by lia.
  - rewrite Forall_cons_iff in Hn. destruct Hn as [Hn1 Hn].
    destruct (stapa_step pre n nals Hn1) as (Hle & Hhi & Hlo & Heq). cbn zeta in *.
    cbn [keyframe_stapa_loop]. unfold H264_STAPA_NALU_LEN_SIZE. rewrite Hle, Hhi, Hlo, !bind_Ok, stapa_len by done.
    rewrite Heq, <- (app_assoc _ n), stapa_room. destruct Hn1 as [Hn1 _].
    rewrite (proj2 (Nat.eqb_neq (length n) 0)) by lia. cbn [orb].
    replace (length pre + 2)%nat with (length (pre ++ be16 (Z.of_nat (length n))) + 0)%nat at 1
      by (rewrite length_app; cbn [length be16]; lia).
    rewrite rd8_app_r, rd8_app_l, rd8_Ok, bind_Ok by lia. cbn [existsb]. unfold is_idr at 1.
    destruct (Z.land (nth 0 n 0) H264_NAL_TYPE_MASK =? H264_NAL_IDR); cbn [orb]; [done|].
    rewrite (app_assoc _ n).
    replace (length pre + 2 + length n)%nat with (length ((pre ++ be16 (Z.of_nat (length n))) ++ n))
      by (rewrite !length_app; cbn [length be16]; lia).
    apply IH; [done | cbn in Hf; lia].
Qed.
Lemma stapa_body_length nals : Forall stapa_nal nals -> (length nals <= length (stapa_body nals))%nat.
Proof.
  induction 1 as [|n nals [Hn _] _ IH]; [done|]. unfold stapa_body in *. cbn [map concat length].
  rewrite !length_app. cbn [length be16]. lia.
Qed.

(** * Keyframes *)

Lemma h264_is_keyframe_fragment h first last x :
  h264_is_keyframe (fua_hdr h first last ++ x) =
  Ok (first && (Z.land h H264_NAL_TYPE_MASK =? H264_NAL_IDR)).
Proof.
  unfold h264_is_keyframe. destruct (fua_header_bits h first last) as (Hs & _ & Ht). cbv zeta in Hs, Ht.
  unfold fua_hdr in *. cbn [app length Nat.eqb nth] in *. rewrite !rd8_Ok, !bind_Ok by (cbn; lia). cbn [nth].
  rewrite fua_ind_type. cbn [andb Z.leb Z.compare Pos.compare Pos.compare_cont H264_NAL_FUA H264_NAL_STAPA Z.eqb Pos.eqb].
  change ((1 <=? H264_NAL_FUA) && (H264_NAL_FUA <=? 23)) with false.
  change (H264_NAL_FUA =? H264_NAL_STAPA) with false. cbn [Nat.ltb Nat.leb H264_FUA_HEADER_SIZE].
  rewrite Ht. destruct (Z.land _ H264_FUA_S_BIT =? 0); cbn [negb] in Hs; by rewrite <- Hs.
Qed.
Lemma fragments_not_key h max : forall fuel data,
  Forall (fun p => h264_is_keyframe p.1 = Ok false) (fragments fuel (fua_hdr h) max false data).
Proof.
  induction fuel as [|fuel IH]; intros data; cbn [fragments]; [done|].
  destruct (length data <=? max)%nat; repeat constructor; try apply IH; apply h264_is_keyframe_fragment.
Qed.

Lemma no_err_stapa payload : forall fuel offset buf pos, no_err (h264_stapa_loop fuel payload offset buf pos).
Proof. induction fuel as [|fuel IH]; intros offset buf pos; [done|]. cbn [h264_stapa_loop]. repeat (apply IH || no_err_step). Qed.
Lemma no_err_depkt_out d : no_err (depkt_out d).
Proof. unfold depkt_out. repeat no_err_step. Qed.
Lemma h264_depkt_push_no_err d p : (1 <= length p)%nat -> no_err (h264_depkt_push d p).
Proof.
  intros Hp. unfold h264_depkt_push, h264_push_fua. rewrite (proj2 (Nat.eqb_neq _ _)) by lia.
  repeat (apply no_err_stapa || apply no_err_depkt_out || no_err_step).
Qed.

(** * Properties *)

(** The depacketizer rebuilds a unit from the payloads it is cut into. *)
Lemma h264_payloads_reassemble (nalu : list Z) (mtu : nat) (d : nano_h264_depkt) :
  (1 <= length nalu <= NANORTC_VIDEO_NAL_BUF_SIZE)%nat -> (3 <= mtu)%nat ->
  0 <= nth 0 nalu 0 < 128 -> 1 <= Z.land (nth 0 nalu 0) H264_NAL_TYPE_MASK <= 23 -> depkt_ok d ->
  exists d' k, push_all h264_depkt_push d (map fst (h264_payloads nalu mtu)) = Ok (d', outputs k nalu) /\ depkt_ok d'.
Proof.
  intros Hlen Hmtu Hh Ht Hd. unfold h264_payloads. destruct (Nat.leb_spec (length nalu) mtu) as [Hle|Hgt].
  - pose proof (h264_depkt_push_wp d nalu Hd) as Hwp.
    assert (exists d', h264_depkt_push d nalu = Ok (d', 0, Some nalu)) as [d' Hp].
    { unfold h264_depkt_push. destruct (depkt_abort_ok d Hd) as [(Hab & _) _].
      rewrite (proj2 (Nat.eqb_neq _ _)) by lia. rewrite rd8_Ok, bind_Ok by lia. cbv zeta.
      rewrite (proj2 (Z.leb_le 1 _)), (proj2 (Z.leb_le _ 23)) by lia. cbn [andb].
      rewrite (proj2 (Nat.ltb_ge _ _)) by lia. rewrite wr_0, bind_Ok by lia.
      rewrite depkt_out_eq, bind_Ok. eauto. }
    rewrite Hp in Hwp. destruct Hwp as [Hd' _]. exists d', 0%nat. cbn [map fst push_all]. by rewrite Hp.
  - destruct nalu as [|h rest]; [cbn in Hlen; lia|]. cbn [nth drop] in *. rewrite drop_0. cbn [length] in *.
    apply (reassemble h264_depkt_push (fua_hdr h) (mtu - 2) NANORTC_VIDEO_NAL_BUF_SIZE [h] depkt_ok depkt_holding
      (h264_push_first h Hh) (h264_push_next h)); [done | cbn; lia | lia | lia].
Qed.
Lemma h264_payloads_shape (nalu : list Z) (mtu : nat) :
  (1 <= length nalu)%nat -> (3 <= mtu)%nat ->
  Forall (fun p => (1 <= length p.1 <= mtu)%nat) (h264_payloads nalu mtu) /\ exists k, map snd (h264_payloads nalu mtu) = replicate k false ++ [true].
Proof.
  intros Hlen Hmtu. unfold h264_payloads. destruct (Nat.leb_spec (length nalu) mtu) as [Hle|Hgt].
  - split; [by repeat constructor; cbn; lia | by exists 0%nat].
  - destruct nalu as [|h rest]; [cbn in Hlen; lia|]. cbn [nth drop] in *. rewrite drop_0. cbn [length] in *.
    destruct (fragments_shape (fua_hdr h) (mtu - 2) 2 (S (length rest)) true rest) as [Hall Hmark]; [by intros [] [] | lia | lia | lia |].
    split; [refine (List.Forall_impl _ _ Hall); cbn; lia | done].
Qed.
(** A unit in one payload says itself whether it is a key frame. *)
Lemma h264_is_keyframe_unit (nalu : list Z) :
  (1 <= length nalu)%nat -> 1 <= Z.land (nth 0 nalu 0) H264_NAL_TYPE_MASK <= 23 -> h264_is_keyframe nalu = Ok (is_idr nalu).
Proof.
  intros Hlen Ht. unfold h264_is_keyframe, is_idr. rewrite (proj2 (Nat.eqb_neq (length nalu) 0)) by lia. rewrite (rd8_Ok _ 0), bind_Ok by lia.
  cbv zeta. by rewrite (proj2 (Z.leb_le 1 _)), (proj2 (Z.leb_le _ 23)) by lia.
Qed.

(** C27: for every NAL unit (of a type below 24, its forbidden bit clear, that
    fits the reassembly buffer), every MTU of at least 3 and every scratch buffer
    of that size, the packetizer hands the callback exactly a list of payloads -
    stopping at the first refusal, whose code it returns - each of at most MTU
    octets, the marker on the last one only; and from any state of the
    depacketizer, whatever it was doing, pushing those payloads in order outputs
    nothing until the last one and then the unit, octet for octet. *)
Theorem h264_packetize_depacketize (nalu : list Z) (mtu : nat) (d : nano_h264_depkt) :
  (1 <= length nalu <= NANORTC_VIDEO_NAL_BUF_SIZE)%nat -> (3 <= mtu)%nat ->
  0 <= nth 0 nalu 0 < 128 -> 1 <= Z.land (nth 0 nalu 0) H264_NAL_TYPE_MASK <= 23 -> depkt_ok d ->
  exists payloads : list (list Z * bool),
    (forall U (cb : packet_cb U) u scratch, (mtu <= length scratch)%nat ->
       exists scratch', h264_packetize cb nalu mtu scratch u = Ok (emit_all cb u payloads, scratch')) /\
    Forall (fun p => (1 <= length p.1 <= mtu)%nat) payloads /\
    (exists k, map snd payloads = replicate k false ++ [true]) /\
    exists d' k, push_all h264_depkt_push d (map fst payloads) = Ok (d', outputs k nalu) /\ depkt_ok d'.
Proof.
  intros Hlen Hmtu Hh Ht Hd. exists (h264_payloads nalu mtu). split.
  { intros U cb u scratch Hs. destruct (h264_packetize_spec cb nalu mtu scratch u) as (s' & _ & Heq);
      [lia | done | done |]. by exists s'. }
  destruct (h264_payloads_shape nalu mtu) as [Hall Hmark]; [lia | done|]. split; [done|]. split; [done|].
  by apply h264_payloads_reassemble.
Qed.
Lemma h264_packetize_depacketize_witness :
  exists payloads : list (list Z * bool),
    (forall U (cb : packet_cb U) u scratch, (4 <= length scratch)%nat ->
       exists scratch', h264_packetize cb [101; 1; 2; 3; 4; 5] 4 scratch u = Ok (emit_all cb u payloads, scratch')) /\
    Forall (fun p => (1 <= length p.1 <= 4)%nat) payloads /\
    (exists k, map snd payloads = replicate k false ++ [true]) /\
    exists d' k, push_all h264_depkt_push h264_depkt_init (map fst payloads) =
      Ok (d', outputs k [101; 1; 2; 3; 4; 5]) /\ depkt_ok d'.
Proof.
  refine (h264_packetize_depacketize [101; 1; 2; 3; 4; 5] 4 h264_depkt_init _ _ _ _ _).
  - cbn [length]. nal_lia.
  - lia.
  - cbn. lia.
  - vm_compute. split; discriminate.
  - unfold depkt_ok, h264_depkt_init. cbn [d_buf d_len d_in_progress]. rewrite length_replicate.
    split; [reflexivity | split; [nal_lia | discriminate]].
Defined.

(** From the initial state, whatever octets are pushed, the depacketizer
    reads only the payload and writes only inside its buffer (each call keeps the
    state well-formed), and any unit it outputs is non-empty and at most the
    buffer's size. *)
Theorem h264_depkt_safe (payloads : list (list Z)) :
  Forall (fun p => 1 <= length p)%nat payloads ->
  exists d outs, push_all h264_depkt_push h264_depkt_init payloads = Ok (d, outs) /\ depkt_ok d /\
    length outs = length payloads /\
    Forall (fun o => forall nalu, o.2 = Some nalu -> (1 <= length nalu <= NANORTC_VIDEO_NAL_BUF_SIZE)%nat) outs.
Proof.
  assert (depkt_ok h264_depkt_init) as Hd.
  { split_and!; [apply length_replicate | apply Nat.le_0_l | done]. }
  revert Hd. generalize h264_depkt_init. induction payloads as [|p ps IH]; intros d Hd Hps.
  { exists d, []. done. }
  rewrite Forall_cons_iff in Hps. destruct Hps as [Hp Hps]. cbn [push_all].
  pose proof (h264_depkt_push_wp d p Hd) as Hwp.
  destruct (h264_depkt_push d p) as [[[d1 rc] out]|e|] eqn:Hpush; [|exfalso|done].
  - destruct Hwp as [Hd1 Hout]. rewrite bind_Ok. destruct (IH d1 Hd1 Hps) as (d' & outs & -> & Hd' & Hl & Ho).
    rewrite bind_Ok. exists d', ((rc, out) :: outs). split_and!; [done | done | cbn; by rewrite Hl |].
    by constructor.
  - by apply (h264_depkt_push_no_err d p Hp e).
Qed.
Lemma h264_depkt_safe_witness :
  exists d outs, push_all h264_depkt_push h264_depkt_init [[124; 5; 1]; [24; 0; 9; 1]; [28]] = Ok (d, outs) /\
    depkt_ok d /\ length outs = 3%nat /\
    Forall (fun o => forall nalu, o.2 = Some nalu -> (1 <= length nalu <= NANORTC_VIDEO_NAL_BUF_SIZE)%nat) outs.
Proof.
  refine (h264_depkt_safe [[124; 5; 1]; [24; 0; 9; 1]; [28]] _).
  repeat constructor; cbn; lia.
Defined.

(** Of the payloads emitted for a NAL unit (type below 24), the first is
    classified as a keyframe exactly when the unit is an IDR slice, and none of
    the following ones is. *)
Theorem h264_keyframe_of_packets (nalu : list Z) (mtu : nat) :
  (1 <= length nalu)%nat -> (3 <= mtu)%nat -> 1 <= Z.land (nth 0 nalu 0) H264_NAL_TYPE_MASK <= 23 ->
  exists first rest, h264_payloads nalu mtu = first :: rest /\
    h264_is_keyframe first.1 = Ok (is_idr nalu) /\
    Forall (fun p => h264_is_keyframe p.1 = Ok false) rest.
Proof.
  intros Hl Hmtu Ht. unfold h264_payloads. destruct (Nat.leb_spec (length nalu) mtu) as [Hle|Hgt].
  - exists (nalu, true), []. split_and!; [done | | done]. by apply h264_is_keyframe_unit.
  - destruct (length nalu) as [|n]; [lia|]. cbn [fragments].
    destruct (length (drop 1 nalu) <=? mtu - 2)%nat; (eexists _, _; split; [reflexivity|]; split;
      [apply h264_is_keyframe_fragment | first [done | apply fragments_not_key]]).
Qed.
Lemma h264_keyframe_of_packets_witness :
  exists first rest, h264_payloads [101; 1; 2; 3; 4; 5] 4 = first :: rest /\
    h264_is_keyframe first.1 = Ok true /\ Forall (fun p => h264_is_keyframe p.1 = Ok false) rest.
Proof.
  refine (h264_keyframe_of_packets [101; 1; 2; 3; 4; 5] 4 _ _ _); [cbn; lia | lia | vm_compute; split; discriminate].
Defined.

(** An aggregation packet of any number of units is classified as a
    keyframe exactly when one of the units is an IDR slice, whichever its place,
    while pushing it into the depacketizer outputs its first unit only. *)
Theorem h264_stapa_first_unit (h : Z) (nal : list Z) (nals : list (list Z)) (d : nano_h264_depkt) :
  Z.land h H264_NAL_TYPE_MASK = H264_NAL_STAPA -> Forall stapa_nal (nal :: nals) ->
  (length nal <= NANORTC_VIDEO_NAL_BUF_SIZE)%nat -> depkt_ok d ->
  h264_is_keyframe (stapa h (nal :: nals)) = Ok (existsb is_idr (nal :: nals)) /\
  exists d', h264_depkt_push d (stapa h (nal :: nals)) = Ok (d', NANORTC_OK, Some nal).
Proof.
  intros Hh Hn Hcap Hd. pose proof (stapa_body_length _ Hn) as Hbl. unfold stapa. split.
  - unfold h264_is_keyframe. cbn [length Nat.eqb]. rewrite (rd8_Ok _ 0), bind_Ok by (cbn; lia). cbn [nth].
    rewrite Hh. change ((1 <=? H264_NAL_STAPA) && (H264_NAL_STAPA <=? 23)) with false. cbn iota.
    rewrite Z.eqb_refl. apply (keyframe_stapa (nal :: nals) _ [h]); [done | lia].
  - unfold h264_depkt_push. cbn [length Nat.eqb]. rewrite (rd8_Ok _ 0), bind_Ok by (cbn; lia). cbn [nth].
    rewrite Hh. change ((1 <=? H264_NAL_STAPA) && (H264_NAL_STAPA <=? 23)) with false. cbn iota.
    rewrite Z.eqb_refl. destruct (depkt_abort_ok d Hd) as [(Hab & _) _].
    rewrite (stapa_loop_first nal nals _ [h]), bind_Ok by (done || cbn [length] in *; lia).
    rewrite Forall_cons_iff in Hn. destruct Hn as [[Hn1 _] _].
    cbn [negb NANORTC_OK Z.eqb]. rewrite (proj2 (Nat.ltb_lt _ _)) by lia.
    rewrite depkt_out_eq, bind_Ok. eauto.
Qed.
Lemma h264_stapa_first_unit_witness :
  h264_is_keyframe (stapa 120 [[103; 1]; [104]; [101; 7]]) = Ok true /\
  exists d', h264_depkt_push h264_depkt_init (stapa 120 [[103; 1]; [104]; [101; 7]]) = Ok (d', NANORTC_OK, Some [103; 1]).
Proof.
  refine (h264_stapa_first_unit 120 [103; 1] [[104]; [101; 7]] h264_depkt_init _ _ _ _).
  - reflexivity.
  - repeat constructor; cbn; lia.
  - cbn [length]. nal_lia.
  - unfold depkt_ok, h264_depkt_init. cbn [d_buf d_len d_in_progress]. rewrite length_replicate.
    split; [reflexivity | split; [nal_lia | discriminate]].
Defined.
