(* ===== verification/H265.v ===== *)
(** H.265 over RTP, [src/nano_h265.c] (RFC 7798): fragmentation units,
    aggregation packets, the access-unit packetizer, the depacketizer and
    keyframe detection; that a receiver following the RFC recovers every NAL unit
    of an access unit, that the depacketizer rebuilds a single unit, and its
    memory safety. *)

From Stdlib Require Import ZArith Lia.
From stdpp Require Import base list numbers.
From S2P Require Import Prelude Wire Fragment.

Local Open Scope Z_scope.

Definition H265_NAL_HEADER_SIZE : nat := 2.
Definition H265_NAL_F_BIT : Z := 0x80.
Definition H265_NAL_BLA_W_LP : Z := 16.
Definition H265_NAL_RSV_IRAP_VCL23 : Z := 23.
Definition H265_PKT_AP : Z := 48.
Definition H265_PKT_FU : Z := 49.
Definition H265_PKT_PACI : Z := 50.
Definition H265_FU_S_BIT : Z := 0x80.
Definition H265_FU_E_BIT : Z := 0x40.
Definition H265_FU_TYPE_MASK : Z := 0x3F.
Definition H265_FU_PAYLOAD_HDR_SIZE : nat := 2.
Definition H265_FU_HEADER_SIZE : nat := 3.
Definition H265_AP_PAYLOAD_HDR_SIZE : nat := 2.
Definition H265_AP_NALU_LEN_SIZE : nat := 2.
(** Defaults of [include/nanortc_config.h]. *)
Definition NANORTC_VIDEO_MTU : nat := Z.to_nat 1200.
Definition VIDEO_NAL_BUF_SIZE : nat := Z.to_nat 16384.

(** Header fields, on the first octet(s) of the header. *)
Definition H265_NAL_TYPE (b0 : Z) : Z := u8 (Z.land (Z.shiftr b0 1) 0x3F).
Definition H265_NAL_LAYER_ID (b0 b1 : Z) : Z :=
  u8 (Z.lor (Z.shiftl (Z.land b0 0x01) 5) (Z.land (Z.shiftr b1 3) 0x1F)).
Definition H265_NAL_TID (b1 : Z) : Z := u8 (Z.land b1 0x07).
Definition H265_IS_IRAP (type : Z) : bool := (H265_NAL_BLA_W_LP <=? type) && (type <=? H265_NAL_RSV_IRAP_VCL23).

(** [h265_nal_ref_t]: the unit's octets, or a null [data]. *)
Definition h265_nal_ref : Type := option (list Z).
Definition ref_len (n : h265_nal_ref) : nat := match n with Some d => length d | None => 0 end.
Definition ref_data (n : h265_nal_ref) : res (list Z) := match n with Some d => Ok d | None => Fault end.

Section Packetize.
Context {U : Type} (cb : packet_cb U).

(** * Fragmentation units *)

(** The loop over the rest of the unit; [pkt] is the stack buffer. *)
Fixpoint h265_fu_loop (fuel : nat) (hdr0 hdr1 fu_type : Z) (max_frag : nat) (marker_last_au first_frag : bool)
    (data pkt : list Z) (u : U) : res (U * Z) :=
  match fuel with
  | O => Fault
  | S fuel =>
      let remaining := length data in
      if (0 <? remaining)%nat then
        let frag_len := if (remaining <? max_frag)%nat then remaining else max_frag in
        let is_last_frag := (remaining =? frag_len)%nat in
        let fu_header := fu_type in
        let fu_header := if first_frag then Z.lor fu_header H265_FU_S_BIT else fu_header in
        let fu_header := if is_last_frag then Z.lor fu_header H265_FU_E_BIT else fu_header in
        pkt ← wr pkt 0 [hdr0];
        pkt ← wr pkt 1 [hdr1];
        pkt ← wr pkt 2 [fu_header];
        frag ← rdn data 0 frag_len;
        pkt ← wr pkt H265_FU_HEADER_SIZE frag;
        let marker := is_last_frag && marker_last_au in
        payload ← rdn pkt 0 (H265_FU_HEADER_SIZE + frag_len);
        let '(u, rc) := cb u payload marker in
        if negb (rc =? 0) then Ok (u, rc) else
        h265_fu_loop fuel hdr0 hdr1 fu_type max_frag marker_last_au false (drop frag_len data) pkt u
      else Ok (u, NANORTC_OK)
  end.

Definition h265_emit_fu (nalu : list Z) (mtu : nat) (marker_last_au : bool) (u : U) : res (U * Z) :=
  if (length nalu <=? H265_NAL_HEADER_SIZE)%nat then Ok (u, NANORTC_ERR_INVALID_PARAM) else
  if (mtu <=? H265_FU_HEADER_SIZE)%nat then Ok (u, NANORTC_ERR_INVALID_PARAM) else
  if (NANORTC_VIDEO_MTU <? mtu)%nat then Ok (u, NANORTC_ERR_BUFFER_TOO_SMALL) else
  n0 ← rd8 nalu 0; n1 ← rd8 nalu 1;
  let fu_type := H265_NAL_TYPE n0 in
  let payload_hdr0 := u8 (Z.lor (Z.land n0 0x81) (Z.shiftl H265_PKT_FU 1)) in
  h265_fu_loop (S (length nalu)) payload_hdr0 n1 fu_type (mtu - H265_FU_HEADER_SIZE) marker_last_au true
    (drop H265_NAL_HEADER_SIZE nalu) (replicate NANORTC_VIDEO_MTU 0) u.

(** * Aggregation packets *)

(** The scan for the minimum LayerId and TID and the F bit; [None] is the
    refusal of a short unit. *)
Fixpoint ap_scan (nals : list h265_nal_ref) (min_layer_id min_tid : Z) (f_bit : bool)
  : res (option (Z * Z * bool)) :=
  match nals with
  | [] => Ok (Some (min_layer_id, min_tid, f_bit))
  | n :: nals =>
      if (ref_len n <? H265_NAL_HEADER_SIZE)%nat then Ok None else
      d ← ref_data n;
      b0 ← rd8 d 0; b1 ← rd8 d 1;
      let lid := H265_NAL_LAYER_ID b0 b1 in
      let tid := H265_NAL_TID b1 in
      let f_bit := if Z.land b0 H265_NAL_F_BIT =? 0 then f_bit else true in
      ap_scan nals (if lid <? min_layer_id then lid else min_layer_id) (if tid <? min_tid then tid else min_tid) f_bit
  end.

(** The copy loop: the packet and [pos], or [None] when it does not fit. *)
Fixpoint ap_write (nals : list h265_nal_ref) (pkt : list Z) (pos : nat) : res (option (list Z * nat)) :=
  match nals with
  | [] => Ok (Some (pkt, pos))
  | n :: nals =>
      if (length pkt <? pos + H265_AP_NALU_LEN_SIZE + ref_len n)%nat then Ok None else
      let len := Z.of_nat (ref_len n) in
      pkt ← wr pkt (pos + 0) [u8 (Z.land (Z.shiftr len 8) 0xFF)];
      pkt ← wr pkt (pos + 1) [u8 (Z.land len 0xFF)];
      let pos := (pos + H265_AP_NALU_LEN_SIZE)%nat in
      d ← ref_data n;
      pkt ← wr pkt pos d;
      ap_write nals pkt (pos + ref_len n)
  end.

(** [nals] is the run of [count] units from [start]. *)
Definition h265_emit_ap (nals : list h265_nal_ref) (marker : bool) (u : U) : res (U * Z) :=
  if (length nals <? 2)%nat then Ok (u, NANORTC_ERR_INVALID_PARAM) else
  scan ← ap_scan nals 63 7 false;
  match scan with
  | None => Ok (u, NANORTC_ERR_INVALID_PARAM)
  | Some (min_layer_id, min_tid, f_bit) =>
      let min_tid := if min_tid =? 0 then 1 else min_tid in
      let pkt := replicate NANORTC_VIDEO_MTU 0 in
      if (length pkt <? H265_AP_PAYLOAD_HDR_SIZE)%nat then Ok (u, NANORTC_ERR_BUFFER_TOO_SMALL) else
      pkt ← wr pkt 0 [u8 (Z.lor (Z.lor (if f_bit : bool then H265_NAL_F_BIT else 0)
                                       (Z.shiftl (Z.land H265_PKT_AP 0x3F) 1))
                                (Z.land (Z.shiftr min_layer_id 5) 0x01))];
      pkt ← wr pkt 1 [u8 (Z.lor (Z.shiftl (Z.land min_layer_id 0x1F) 3) (Z.land min_tid 0x07))];
      w ← ap_write nals pkt H265_AP_PAYLOAD_HDR_SIZE;
      match w with
      | None => Ok (u, NANORTC_ERR_BUFFER_TOO_SMALL)
      | Some (pkt, pos) => payload ← rdn pkt 0 pos; Ok (cb u payload marker)
      end
  end.

(** * Access units *)

(** The run extension [while (j + 1 < nal_count)]: how many following units
    join the aggregation packet. *)
Fixpoint ap_extend (next : list h265_nal_ref) (mtu ap_bytes : nat) : nat :=
  match next with
  | [] => 0
  | n :: next =>
      match n with
      | None => 0
      | Some d =>
          if (length d <? H265_NAL_HEADER_SIZE)%nat then 0%nat else
          if (mtu <? length d)%nat then 0%nat else
          let next_bytes := (H265_AP_NALU_LEN_SIZE + length d)%nat in
          if (mtu <? ap_bytes + next_bytes)%nat then 0%nat
          else S (ap_extend next mtu (ap_bytes + next_bytes))
      end
  end.

(** The [while (i < nal_count)] loop over the units left. *)
Fixpoint h265_au_loop (fuel : nat) (nals : list h265_nal_ref) (mtu : nat) (u : U) : res (U * Z) :=
  match fuel with
  | O => Fault
  | S fuel =>
      match nals with
      | [] => Ok (u, NANORTC_OK)
      | None :: _ => Ok (u, NANORTC_ERR_INVALID_PARAM)
      | Some n :: rest =>
          if (length n <? H265_NAL_HEADER_SIZE)%nat then Ok (u, NANORTC_ERR_INVALID_PARAM) else
          if (mtu <? length n)%nat then
            '(u, rc) ← h265_emit_fu n mtu (length rest =? 0)%nat u;
            if negb (rc =? 0) then Ok (u, rc) else h265_au_loop fuel rest mtu u
          else
            let ap_bytes := (H265_AP_PAYLOAD_HDR_SIZE + H265_AP_NALU_LEN_SIZE + length n)%nat in
            let k := ap_extend rest mtu ap_bytes in
            if (0 <? k)%nat then
              '(u, rc) ← h265_emit_ap (take (S k) nals) (length rest =? k)%nat u;
              if negb (rc =? 0) then Ok (u, rc) else h265_au_loop fuel (drop k rest) mtu u
            else
              let '(u, rc) := cb u n (length rest =? 0)%nat in
              if negb (rc =? 0) then Ok (u, rc) else h265_au_loop fuel rest mtu u
      end
  end.
Definition h265_packetize_au (nals : list h265_nal_ref) (mtu : nat) (u : U) : res (U * Z) :=
  if (length nals =? 0)%nat || (mtu <? H265_FU_HEADER_SIZE + 1)%nat then Ok (u, NANORTC_ERR_INVALID_PARAM)
  else h265_au_loop (S (length nals)) nals mtu u.

Definition h265_packetize (nalu : list Z) (mtu : nat) (u : U) : res (U * Z) :=
  if (length nalu <? H265_NAL_HEADER_SIZE)%nat || (mtu <? H265_FU_HEADER_SIZE + 1)%nat
  then Ok (u, NANORTC_ERR_INVALID_PARAM) else
  if (length nalu <=? mtu)%nat then Ok (cb u nalu true) else h265_emit_fu nalu mtu true u.
End Packetize.

(** * Depacketizer *)

(** [nano_h265_depkt_t]; [hd_buf] is the whole array, [hd_nal_hdr] its two
    octets. *)
Record nano_h265_depkt : Type := H265Depkt {
  hd_buf : list Z; hd_len : nat; hd_nal_hdr : Z * Z; hd_in_progress : bool
}.
Definition h265_depkt_init : nano_h265_depkt := H265Depkt (replicate VIDEO_NAL_BUF_SIZE 0) 0 (0, 0) false.
Definition h265_abort (d : nano_h265_depkt) : nano_h265_depkt :=
  if hd_in_progress d then H265Depkt (hd_buf d) 0 (hd_nal_hdr d) false else d.
Definition h265_out (d : nano_h265_depkt) : res (option (list Z)) :=
  nalu ← rdn (hd_buf d) 0 (hd_len d); Ok (Some nalu).

(** The aggregation loop; the code, the buffer and [returned]. *)
Fixpoint h265_ap_loop (fuel : nat) (payload : list Z) (offset : nat) (buf : list Z) (returned : nat)
  : res (Z * list Z * nat) :=
  match fuel with
  | O => Fault
  | S fuel =>
      if (offset + H265_AP_NALU_LEN_SIZE <=? length payload)%nat then
        hi ← rd8 payload offset; lo ← rd8 payload (offset + 1);
        let sub_len := Z.to_nat (u16 (Z.lor (Z.shiftl hi 8) lo)) in
        let offset := (offset + H265_AP_NALU_LEN_SIZE)%nat in
        if (length payload - offset <? sub_len)%nat then Ok (NANORTC_ERR_PARSE, buf, returned) else
        if (sub_len =? 0)%nat then Ok (NANORTC_OK, buf, returned) else
        if (returned =? 0)%nat then
          if (VIDEO_NAL_BUF_SIZE <? sub_len)%nat then Ok (NANORTC_ERR_BUFFER_TOO_SMALL, buf, returned) else
          sub ← rdn payload offset sub_len;
          buf ← wr buf 0 sub;
          h265_ap_loop fuel payload (offset + sub_len) buf sub_len
        else h265_ap_loop fuel payload (offset + sub_len) buf returned
      else Ok (NANORTC_OK, buf, returned)
  end.

(** The fragmentation-unit branch after the length check. *)
Definition h265_push_fu (d : nano_h265_depkt) (payload : list Z)
  : res (nano_h265_depkt * Z * option (list Z)) :=
  fu_header ← rd8 payload H265_FU_PAYLOAD_HDR_SIZE;
  p0 ← rd8 payload 0; p1 ← rd8 payload 1;
  let is_start := negb (Z.land fu_header H265_FU_S_BIT =? 0) in
  let is_end := negb (Z.land fu_header H265_FU_E_BIT =? 0) in
  let fu_type := Z.land fu_header H265_FU_TYPE_MASK in
  let frag_len := (length payload - H265_FU_HEADER_SIZE)%nat in
  frag_data ← rdn payload H265_FU_HEADER_SIZE frag_len;
  let finish (d : nano_h265_depkt) :=
    if is_end then
      let d := H265Depkt (hd_buf d) (hd_len d) (hd_nal_hdr d) false in
      out ← h265_out d; Ok (d, NANORTC_OK, out)
    else Ok (d, NANORTC_OK, None) in
  if is_start then
    let h0 := u8 (Z.lor (Z.land p0 0x81) (Z.shiftl (Z.land fu_type 0x3F) 1)) in
    if (VIDEO_NAL_BUF_SIZE <? H265_NAL_HEADER_SIZE + frag_len)%nat
    then Ok (H265Depkt (hd_buf d) 0 (h0, p1) false, NANORTC_ERR_BUFFER_TOO_SMALL, None)
    else
      buf ← wr (hd_buf d) 0 [h0];
      buf ← wr buf 1 [p1];
      buf ← wr buf H265_NAL_HEADER_SIZE frag_data;
      finish (H265Depkt buf (H265_NAL_HEADER_SIZE + frag_len) (h0, p1) true)
  else if hd_in_progress d then
    if (VIDEO_NAL_BUF_SIZE <? hd_len d + frag_len)%nat
    then Ok (H265Depkt (hd_buf d) 0 (hd_nal_hdr d) false, NANORTC_ERR_BUFFER_TOO_SMALL, None)
    else
      buf ← wr (hd_buf d) (hd_len d) frag_data;
      finish (H265Depkt buf (hd_len d + frag_len) (hd_nal_hdr d) true)
  else Ok (d, NANORTC_OK, None).

(** The depacketizer, the return code and the unit handed out. *)
Definition h265_depkt_push (d : nano_h265_depkt) (payload : list Z)
  : res (nano_h265_depkt * Z * option (list Z)) :=
  let len := length payload in
  if (len <? H265_NAL_HEADER_SIZE)%nat then Err NANORTC_ERR_INVALID_PARAM else
  p0 ← rd8 payload 0;
  let type := H265_NAL_TYPE p0 in
  if type <? H265_PKT_AP then
    let d := h265_abort d in
    if (VIDEO_NAL_BUF_SIZE <? len)%nat then Ok (d, NANORTC_ERR_BUFFER_TOO_SMALL, None) else
    buf ← wr (hd_buf d) 0 payload;
    let d := H265Depkt buf len (hd_nal_hdr d) (hd_in_progress d) in
    out ← h265_out d; Ok (d, NANORTC_OK, out)
  else if type =? H265_PKT_AP then
    let d := h265_abort d in
    '(rc, buf, returned) ← h265_ap_loop (S len) payload H265_AP_PAYLOAD_HDR_SIZE (hd_buf d) 0;
    if negb (rc =? NANORTC_OK) then Ok (H265Depkt buf (hd_len d) (hd_nal_hdr d) (hd_in_progress d), rc, None) else
    if (0 <? returned)%nat then
      let d := H265Depkt buf returned (hd_nal_hdr d) (hd_in_progress d) in
      out ← h265_out d; Ok (d, NANORTC_OK, out)
    else Ok (H265Depkt buf (hd_len d) (hd_nal_hdr d) (hd_in_progress d), NANORTC_OK, None)
  else if type =? H265_PKT_FU then
    if (len <? H265_FU_HEADER_SIZE)%nat then Ok (d, NANORTC_ERR_PARSE, None)
    else h265_push_fu d payload
  else Ok (d, NANORTC_OK, None).

(** * Keyframe detection *)

Fixpoint h265_key_ap_loop (fuel : nat) (payload : list Z) (offset : nat) : res bool :=
  match fuel with
  | O => Fault
  | S fuel =>
      if (offset + H265_AP_NALU_LEN_SIZE <=? length payload)%nat then
        hi ← rd8 payload offset; lo ← rd8 payload (offset + 1);
        let sub_len := Z.to_nat (u16 (Z.lor (Z.shiftl hi 8) lo)) in
        let offset := (offset + H265_AP_NALU_LEN_SIZE)%nat in
        if (sub_len =? 0)%nat || (length payload - offset <? sub_len)%nat || (sub_len <? H265_NAL_HEADER_SIZE)%nat
        then Ok false else
        b0 ← rd8 payload offset;
        if H265_IS_IRAP (H265_NAL_TYPE b0) then Ok true
        else h265_key_ap_loop fuel payload (offset + sub_len)
      else Ok false
  end.
Definition h265_is_keyframe (payload : list Z) : res bool :=
  let len := length payload in
  if (len <? H265_NAL_HEADER_SIZE)%nat then Ok false else
  p0 ← rd8 payload 0;
  let type := H265_NAL_TYPE p0 in
  if type <? H265_PKT_AP then Ok (H265_IS_IRAP type)
  else if type =? H265_PKT_AP then h265_key_ap_loop (S len) payload H265_AP_PAYLOAD_HDR_SIZE
  else if type =? H265_PKT_FU then
    if (len <? H265_FU_HEADER_SIZE)%nat then Ok false else
    fu_header ← rd8 payload H265_FU_PAYLOAD_HDR_SIZE;
    if Z.land fu_header H265_FU_S_BIT =? 0 then Ok false
    else Ok (H265_IS_IRAP (Z.land fu_header H265_FU_TYPE_MASK))
  else Ok false.

(** * Fragmentation units: emission *)

Definition fu_hdr (h0 h1 : Z) (first last : bool) : list Z :=
  let t := H265_NAL_TYPE h0 in
  let t := if first then Z.lor t H265_FU_S_BIT else t in
  [u8 (Z.lor (Z.land h0 0x81) (Z.shiftl H265_PKT_FU 1)); h1; if last then Z.lor t H265_FU_E_BIT else t].
(** The payloads of one unit in the unit's own packets. *)
Definition unit_payloads (nalu : list Z) (mtu : nat) (marker_last_au : bool) : list (list Z * bool) :=
  if (length nalu <=? mtu)%nat then [(nalu, marker_last_au)]
  else map (fun p => (p.1, p.2 && marker_last_au))
         (fragments (length nalu) (fu_hdr (nth 0 nalu 0) (nth 1 nalu 0)) (mtu - 3) true (drop 2 nalu)).

Lemma video_mtu : Z.of_nat NANORTC_VIDEO_MTU = 1200.
Proof. by apply Z2Nat.id. Qed.
Lemma video_nal_buf_size : Z.of_nat VIDEO_NAL_BUF_SIZE = 16384.
Proof. by apply Z2Nat.id. Qed.
Ltac vid_lia := pose proof video_mtu; pose proof video_nal_buf_size; lia.

Lemma fu_loop_spec {U} (cb : packet_cb U) h0 h1 max mk : forall fuel first data pkt u,
  (0 < max)%nat -> (max + 3 <= length pkt)%nat -> (0 < length data < fuel)%nat ->
  h265_fu_loop cb fuel (u8 (Z.lor (Z.land h0 0x81) (Z.shiftl H265_PKT_FU 1))) h1 (H265_NAL_TYPE h0) max mk first
    data pkt u =
  Ok (emit_all cb u (map (fun p => (p.1, p.2 && mk)) (fragments fuel (fu_hdr h0 h1) max first data))).
Proof.
  induction fuel as [|fuel IH]; intros first data pkt u Hmax Hpkt Hd; [lia|].
  cbn [h265_fu_loop fragments]. rewrite (proj2 (Nat.ltb_lt _ _)) by lia. cbv zeta.
  set (n := if (length data <? max)%nat then length data else max).
  assert (n <= max /\ n <= length data /\ 0 < n)%nat as (Hn1 & Hn2 & Hn3)
    by (unfold n; destruct (Nat.ltb_spec (length data) max); lia).
  assert ((length data =? n)%nat = (length data <=? max)%nat) as ->.
  { unfold n. destruct (Nat.ltb_spec (length data) max), (Nat.leb_spec (length data) max);
      apply Nat.eqb_eq || apply Nat.eqb_neq; lia. }
  set (last := (length data <=? max)%nat).
  destruct pkt as [|k0 [|k1 [|k2 pkt]]]; [cbn in Hpkt; lia..|]. cbn [length] in Hpkt.
  do 3 lit_write. rewrite !drop_0. rewrite rdn_Ok, bind_Ok by lia. rewrite drop_0. unfold H265_FU_HEADER_SIZE.
  assert (length (take n data) = n) as Hl by (rewrite length_take; lia).
  rewrite wr_Ok, bind_Ok by (rewrite Hl; cbn [length]; lia). rewrite Hl.
  change (3 + n)%nat with (S (S (S n))). cbn [take app drop]. rewrite take_0. cbn [app].
  set (tl := drop n pkt). assert (length tl = length pkt - n)%nat as Htl by (unfold tl; by rewrite length_drop).
  rewrite rdn_Ok, bind_Ok by (cbn [length]; rewrite length_app, Hl, Htl; lia).
  rewrite drop_0. cbn [take]. rewrite take_app_length' by done.
  assert (forall fb, fu_hdr h0 h1 first fb ++ take n data = u8 (Z.lor (Z.land h0 0x81) (Z.shiftl H265_PKT_FU 1)) :: h1 ::
    (if fb then Z.lor (if first then Z.lor (H265_NAL_TYPE h0) H265_FU_S_BIT else H265_NAL_TYPE h0) H265_FU_E_BIT
     else if first then Z.lor (H265_NAL_TYPE h0) H265_FU_S_BIT else H265_NAL_TYPE h0) :: take n data) as Hhdr by done.
  rewrite <- Hhdr. clear Hhdr. destruct last eqn:Hlast; subst last.
  - apply Nat.leb_le in Hlast. assert (n = length data) as -> by (unfold n; destruct (Nat.ltb_spec (length data) max); lia).
    rewrite firstn_all. cbn [map emit_all fst snd andb]. destruct (cb u _ mk) as [u' rc].
    destruct (rc =? 0) eqn:Hrc; cbn [negb]; [|done]. apply Z.eqb_eq in Hrc. subst rc.
    rewrite drop_all. destruct fuel as [|fuel]; [lia|]. reflexivity.
  - apply Nat.leb_gt in Hlast. assert (n = max) as -> by (unfold n; destruct (Nat.ltb_spec (length data) max); lia).
    cbn [map emit_all fst snd andb]. destruct (cb u _ false) as [u' rc].
    destruct (rc =? 0) eqn:Hrc; cbn [negb]; [|done].
    rewrite IH; [done | done | cbn [length]; rewrite length_app, Hl, Htl; lia | rewrite length_drop; lia].
Qed.

Lemma h265_emit_fu_spec {U} (cb : packet_cb U) nalu mtu mk u :
  (3 < mtu < length nalu)%nat -> (mtu <= NANORTC_VIDEO_MTU)%nat ->
  h265_emit_fu cb nalu mtu mk u = Ok (emit_all cb u (unit_payloads nalu mtu mk)).
Proof.
  intros Hm Hv. unfold h265_emit_fu, unit_payloads, H265_NAL_HEADER_SIZE, H265_FU_HEADER_SIZE.
  rewrite !(proj2 (Nat.leb_gt _ _)), (proj2 (Nat.ltb_ge _ _)) by lia.
  rewrite !rd8_Ok, !bind_Ok by lia. cbv zeta.
  rewrite fu_loop_spec by (rewrite ?length_drop, ?length_replicate; lia).
  by rewrite (fragments_fuel _ _ (S (length nalu)) (length nalu)) by (rewrite ?length_drop; lia).
Qed.

(** * Depacketizing *)

Definition hdepkt_ok (d : nano_h265_depkt) : Prop :=
  length (hd_buf d) = VIDEO_NAL_BUF_SIZE /\ (hd_len d <= VIDEO_NAL_BUF_SIZE)%nat /\
  (hd_in_progress d = true -> 2 <= hd_len d)%nat.
(** A reassembly in progress holds the octets [p]. *)
Definition hdepkt_holding (p : list Z) (d : nano_h265_depkt) : Prop :=
  hdepkt_ok d /\ hd_in_progress d = true /\ hd_len d = length p /\ exists rest, hd_buf d = p ++ rest.

Lemma h265_out_eq p rest h b : h265_out (H265Depkt (p ++ rest) (length p) h b) = Ok (Some p).
Proof. unfold h265_out. cbn [hd_buf hd_len]. by rewrite (rdn_mid [] p rest), bind_Ok. Qed.

(** Header octets, checked on every value. *)
Definition header_facts (h0 : Z) : bool :=
  let ph0 := u8 (Z.lor (Z.land h0 0x81) (Z.shiftl H265_PKT_FU 1)) in
  let t := H265_NAL_TYPE h0 in
  let restored t := u8 (Z.lor (Z.land ph0 0x81) (Z.shiftl (Z.land (Z.land t 0x3F) 0x3F) 1)) =? h0 in
  (H265_NAL_TYPE ph0 =? H265_PKT_FU) && (t <? 64) &&
  forallb (fun fl : bool * bool => let '(first, last) := fl in
    let t1 := if first then Z.lor t H265_FU_S_BIT else t in
    let t2 := if last then Z.lor t1 H265_FU_E_BIT else t1 in
    Bool.eqb (negb (Z.land t2 H265_FU_S_BIT =? 0)) first && Bool.eqb (negb (Z.land t2 H265_FU_E_BIT =? 0)) last &&
    (Z.land t2 H265_FU_TYPE_MASK =? t) && restored t2)
    [(true, true); (true, false); (false, true); (false, false)].
Lemma header_facts_all h0 : is_u8 h0 -> header_facts h0 = true.
Proof. apply (octet_forall header_facts). vm_compute. reflexivity. Qed.

Section Push.
Context (h0 h1 : Z) (Hh0 : is_u8 h0).

Lemma fu_header_bits (first last : bool) :
  let fu := nth 2 (fu_hdr h0 h1 first last) 0 in
  let ph0 := u8 (Z.lor (Z.land h0 0x81) (Z.shiftl H265_PKT_FU 1)) in
  H265_NAL_TYPE ph0 = H265_PKT_FU /\
  negb (Z.land fu H265_FU_S_BIT =? 0) = first /\ negb (Z.land fu H265_FU_E_BIT =? 0) = last /\
  Z.land fu H265_FU_TYPE_MASK = H265_NAL_TYPE h0 /\
  u8 (Z.lor (Z.land ph0 0x81) (Z.shiftl (Z.land (Z.land fu H265_FU_TYPE_MASK) 0x3F) 1)) = h0.
Proof using Hh0.
  pose proof (header_facts_all h0 Hh0) as Hf. unfold header_facts in Hf. cbv zeta in Hf |- *.
  apply andb_prop in Hf as [[Ht _]%andb_prop Hf]. apply Z.eqb_eq in Ht. rewrite forallb_forall in Hf.
  specialize (Hf (first, last)). cbn [fu_hdr nth].
  assert (In (first, last) [(true, true); (true, false); (false, true); (false, false)]) as Hin
    by (destruct first, last; cbn; tauto).
  specialize (Hf Hin). cbv beta iota zeta in Hf.
  apply andb_prop in Hf as [[[Hs He]%andb_prop Hm]%andb_prop Hr].
  apply eqb_prop in Hs, He. apply Z.eqb_eq in Hm, Hr. unfold H265_FU_TYPE_MASK in *. auto.
Qed.

Lemma h265_push_fragment d (first last : bool) x :
  h265_depkt_push d (fu_hdr h0 h1 first last ++ x) = h265_push_fu d (fu_hdr h0 h1 first last ++ x).
Proof using Hh0.
  destruct (fu_header_bits first last) as (Ht & _). unfold h265_depkt_push, fu_hdr in *. cbv zeta in Ht.
  cbn [app length]. rewrite (rd8_Ok _ 0), bind_Ok by (cbn; lia). cbn [nth]. rewrite Ht. done.
Qed.

Lemma h265_push_first d (last : bool) x :
  hdepkt_ok d -> (length [h0; h1] + length x <= VIDEO_NAL_BUF_SIZE)%nat ->
  exists d', h265_depkt_push d (fu_hdr h0 h1 true last ++ x) = Ok (d', 0, if last then Some ([h0; h1] ++ x) else None) /\
    if last then hdepkt_ok d' else hdepkt_holding ([h0; h1] ++ x) d'.
Proof using Hh0.
  intros (Hb & Hl & _) Hx. cbn [length] in Hx. rewrite h265_push_fragment. unfold h265_push_fu.
  destruct (fu_header_bits true last) as (_ & Hs & He & _ & Hr). cbv zeta in Hs, He, Hr.
  unfold fu_hdr, H265_FU_PAYLOAD_HDR_SIZE, H265_FU_HEADER_SIZE, H265_NAL_HEADER_SIZE in *. cbn [nth app length] in *.
  rewrite !rd8_Ok by (cbn; lia). rewrite !bind_Ok. cbn [nth]. rewrite Hs, He, Hr.
  rewrite !Nat.sub_succ, Nat.sub_0_r. rewrite rdn_Ok, bind_Ok by (cbn [length]; lia).
  cbn [drop]. rewrite drop_0, firstn_all. rewrite (proj2 (Nat.ltb_ge _ _)) by lia.
  destruct (hd_buf d) as [|b0 [|b1 buf]]; [cbn in Hb; vid_lia..|]. cbn [length] in Hb.
  do 2 lit_write. rewrite !drop_0. rewrite wr_Ok, bind_Ok by (cbn [length]; lia).
  cbn [take app]. rewrite take_0. change (2 + length x)%nat with (S (S (length x))). cbn [drop app].
  set (tl := drop (length x) buf).
  assert (length (h0 :: h1 :: x ++ tl) = VIDEO_NAL_BUF_SIZE) as Hlen.
  { subst tl. cbn [length]. rewrite length_app, length_drop. lia. }
  change (h0 :: h1 :: x ++ tl) with ((h0 :: h1 :: x) ++ tl) in *.
  change (S (S (length x))) with (length (h0 :: h1 :: x)).
  destruct last.
  - cbn [hd_buf hd_len hd_nal_hdr]. rewrite h265_out_eq, bind_Ok. eexists. split; [reflexivity|].
    split_and!; [done | cbn [hd_len length]; lia | done].
  - eexists. split; [reflexivity|]. split; [split_and!; [done | cbn [hd_len length]; lia | cbn [hd_len length]; lia]|].
    split_and!; [done | done | by exists tl].
Qed.

Lemma h265_push_next d (last : bool) p x :
  hdepkt_holding p d -> (length p + length x <= VIDEO_NAL_BUF_SIZE)%nat ->
  exists d', h265_depkt_push d (fu_hdr h0 h1 false last ++ x) = Ok (d', 0, if last then Some (p ++ x) else None) /\
    if last then hdepkt_ok d' else hdepkt_holding (p ++ x) d'.
Proof using Hh0.
  intros ((Hb & Hl & Hone) & Hip & Hlp & rest & Hbuf) Hx. specialize (Hone Hip).
  rewrite h265_push_fragment. unfold h265_push_fu.
  destruct (fu_header_bits false last) as (_ & Hs & He & _). cbv zeta in Hs, He.
  unfold fu_hdr, H265_FU_PAYLOAD_HDR_SIZE, H265_FU_HEADER_SIZE in *. cbn [nth app length] in *.
  rewrite !rd8_Ok by (cbn; lia). rewrite !bind_Ok. cbn [nth]. rewrite Hs, He.
  rewrite !Nat.sub_succ, Nat.sub_0_r. rewrite rdn_Ok, bind_Ok by (cbn [length]; lia).
  cbn [drop]. rewrite drop_0, firstn_all. rewrite Hip, Hlp. rewrite (proj2 (Nat.ltb_ge _ _)) by lia.
  rewrite Hbuf in *. rewrite length_app in Hb.
  rewrite (wr_append p rest), bind_Ok by (done || lia).
  set (tl := drop _ rest).
  assert (length ((p ++ x) ++ tl) = VIDEO_NAL_BUF_SIZE) as Hlen.
  { subst tl. rewrite !length_app, length_drop. lia. }
  rewrite <- length_app. destruct last.
  - cbn [hd_buf hd_len hd_nal_hdr]. rewrite h265_out_eq, bind_Ok. eexists. split; [reflexivity|].
    split_and!; [done | cbn [hd_len]; rewrite length_app; lia | done].
  - eexists. split; [reflexivity|].
    split; [split_and!; [done | cbn [hd_len]; rewrite length_app; lia | cbn [hd_len]; rewrite length_app; lia]|].
    split_and!; [done | done | by exists tl].
Qed.
End Push.

(** * Memory safety *)

Definition hpush_ok (r : nano_h265_depkt * Z * option (list Z)) : Prop :=
  let '(d, rc, out) := r in
  hdepkt_ok d /\ forall nalu, out = Some nalu -> (1 <= length nalu <= VIDEO_NAL_BUF_SIZE)%nat.

Lemma h265_abort_ok d : hdepkt_ok d -> hdepkt_ok (h265_abort d) /\ hd_in_progress (h265_abort d) = false.
Proof.
  intros (? & ? & ?). unfold h265_abort, hdepkt_ok.
  destruct (hd_in_progress d) eqn:?; split_and!; cbn; first [done | vid_lia | congruence].
Qed.
Lemma h265_out_wp d P :
  hdepkt_ok d -> (forall nalu, length nalu = hd_len d -> P (Some nalu)) -> wp (h265_out d) P.
Proof.
  intros (Hb & Hl & _) HP. unfold h265_out. rewrite rdn_Ok, bind_Ok by lia. apply HP.
  rewrite length_take, length_drop. lia.
Qed.
Lemma h265_ap_loop_wp payload : forall fuel offset buf ret,
  length buf = VIDEO_NAL_BUF_SIZE -> (ret <= VIDEO_NAL_BUF_SIZE)%nat ->
  (offset <= length payload)%nat -> (length payload - offset < fuel)%nat ->
  wp (h265_ap_loop fuel payload offset buf ret) (fun '(rc, buf', ret') =>
    length buf' = VIDEO_NAL_BUF_SIZE /\ (ret' <= VIDEO_NAL_BUF_SIZE)%nat).
Proof.
  induction fuel as [|fuel IH]; intros offset buf ret Hb Hp Ho Hf; [lia|]. cbn [h265_ap_loop].
  unfold H265_AP_NALU_LEN_SIZE. wp_step; [|wp_step; done].
  wp_step. apply rd8_wp; [lia|]. intros hi. wp_step. apply rd8_wp; [lia|]. intros lo. cbv zeta.
  set (sub_len := Z.to_nat _). repeat wp_step; try done.
  - apply rdn_wp; [lia|]. intros sub Hsub. wp_step. apply wr_wp; [lia|]. intros b' Hb'. apply IH; lia.
  - apply IH; lia.
Qed.
(** A state rebuilt around the buffer is well-formed. *)
Ltac hok := unfold hdepkt_ok; cbn [hd_buf hd_len hd_in_progress]; split_and!; lia || done.

Lemma h265_push_fu_wp d payload :
  hdepkt_ok d -> (3 <= length payload)%nat -> wp (h265_push_fu d payload) hpush_ok.
Proof.
  intros (Hb & Hl & Hone) Hp. unfold h265_push_fu, H265_FU_HEADER_SIZE, H265_FU_PAYLOAD_HDR_SIZE, H265_NAL_HEADER_SIZE.
  do 3 (wp_step; apply rd8_wp; [lia|]; intros ?). cbv zeta.
  wp_step. apply rdn_wp; [lia|]. intros frag Hfrag.
  assert (forall d', hdepkt_ok d' -> (2 <= hd_len d')%nat ->
    wp (out ← h265_out d'; Ok (d', NANORTC_OK, out)) hpush_ok) as Hout.
  { intros d' Hd' H1. wp_step. apply h265_out_wp; [done|]. intros nalu Hn. wp_step. split; [done|].
    intros ? [= <-]. pose proof Hd' as (_ & ? & _). lia. }
  wp_step; [|wp_step; [wp_step|]].
  - wp_step; [wp_step; split; [hok | done]|].
    do 3 (wp_step; apply wr_wp; [cbn [length]; vid_lia|]; intros ? ?). cbv beta.
    wp_step; [apply Hout; cbn [hd_len]; [hok | lia]|]. wp_step. split; [hok | done].
  - wp_step. split; [hok | done].
  - wp_step. apply wr_wp; [lia|]. intros b2 Hb2. specialize (Hone Hg0). cbv beta.
    wp_step; [apply Hout; cbn [hd_len]; [hok | lia]|]. wp_step. split; [hok | done].
  - wp_step. done.
Qed.
Lemma h265_depkt_push_wp d payload : hdepkt_ok d -> wp (h265_depkt_push d payload) hpush_ok.
Proof.
  intros Hd. unfold h265_depkt_push, H265_NAL_HEADER_SIZE, H265_FU_HEADER_SIZE.
  destruct (h265_abort_ok d Hd) as [(Hab & Hal & _) Hai].
  wp_step; [wp_step|]. wp_step. apply rd8_wp; [lia|]. intros p0. cbv zeta.
  assert (forall buf n, length buf = VIDEO_NAL_BUF_SIZE -> (1 <= n <= VIDEO_NAL_BUF_SIZE)%nat ->
    wp (out ← h265_out (H265Depkt buf n (hd_nal_hdr (h265_abort d)) (hd_in_progress (h265_abort d)));
        Ok (H265Depkt buf n (hd_nal_hdr (h265_abort d)) (hd_in_progress (h265_abort d)), NANORTC_OK, out)) hpush_ok)
    as Hout.
  { intros buf n Hbuf Hn. assert (hdepkt_ok (H265Depkt buf n (hd_nal_hdr (h265_abort d)) (hd_in_progress (h265_abort d))))
      as Hok by (rewrite Hai; hok).
    wp_step. apply h265_out_wp; [done|]. intros nalu Hnl. cbn [hd_len] in Hnl. wp_step. split; [done|].
    intros ? [= <-]. lia. }
  wp_step; [|wp_step; [|wp_step]].
  - wp_step; [wp_step; split; [unfold hdepkt_ok; rewrite Hai; done | done]|].
    wp_step. apply wr_wp; [lia|]. intros b Hb. apply Hout; lia.
  - wp_step. eapply wp_mono; [apply (h265_ap_loop_wp payload); unfold H265_AP_PAYLOAD_HDR_SIZE; lia|].
    intros [[rc b] ret] [Hb Hp]. wp_step; [wp_step; split; [rewrite Hai; hok | done]|].
    wp_step; [apply Hout; lia | wp_step; split; [rewrite Hai; hok | done]].
  - wp_step; [wp_step; done|]. apply h265_push_fu_wp; [done | lia].
  - wp_step. done.
Qed.

Lemma no_err_h265_ap payload : forall fuel offset buf ret, no_err (h265_ap_loop fuel payload offset buf ret).
Proof. induction fuel as [|fuel IH]; intros offset buf ret; [done|]. cbn [h265_ap_loop]. repeat (apply IH || no_err_step). Qed.
Lemma no_err_h265_out d : no_err (h265_out d).
Proof. unfold h265_out. repeat no_err_step. Qed.
Lemma h265_depkt_push_no_err d p : (2 <= length p)%nat -> no_err (h265_depkt_push d p).
Proof.
  intros Hp. unfold h265_depkt_push, h265_push_fu, H265_NAL_HEADER_SIZE. rewrite (proj2 (Nat.ltb_ge _ _)) by lia.
  repeat (apply no_err_h265_ap || apply no_err_h265_out || no_err_step).
Qed.

(** * Aggregation packets: emission *)

Definition nal_layer (n : list Z) : Z := H265_NAL_LAYER_ID (nth 0 n 0) (nth 1 n 0).
Definition nal_tid (n : list Z) : Z := H265_NAL_TID (nth 1 n 0).
Definition nal_f (n : list Z) : bool := negb (Z.land (nth 0 n 0) H265_NAL_F_BIT =? 0).
Definition ap_layer (ns : list (list Z)) : Z := foldl Z.min 63 (map nal_layer ns).
Definition ap_tid (ns : list (list Z)) : Z := Z.max 1 (foldl Z.min 7 (map nal_tid ns)).
Definition ap_hdr (ns : list (list Z)) : list Z :=
  [u8 (Z.lor (Z.lor (if existsb nal_f ns then H265_NAL_F_BIT else 0) (Z.shiftl (Z.land H265_PKT_AP 0x3F) 1))
             (Z.land (Z.shiftr (ap_layer ns) 5) 0x01));
   u8 (Z.lor (Z.shiftl (Z.land (ap_layer ns) 0x1F) 3) (Z.land (ap_tid ns) 0x07))].
Definition ap_body (ns : list (list Z)) : list Z :=
  concat (map (fun n => be16 (Z.of_nat (length n)) ++ n) ns).

Lemma ap_scan_spec ns : forall a b f,
  Forall (fun n => 2 <= length n)%nat ns ->
  ap_scan (map Some ns) a b f =
  Ok (Some (foldl Z.min a (map nal_layer ns), foldl Z.min b (map nal_tid ns), f || existsb nal_f ns)).
Proof.
  induction ns as [|n ns IH]; intros a b f Hn; cbn [map ap_scan foldl existsb]; [by rewrite orb_false_r|].
  rewrite Forall_cons_iff in Hn. destruct Hn as [Hn1 Hn]. unfold H265_NAL_HEADER_SIZE. cbn [ref_len ref_data].
  rewrite (proj2 (Nat.ltb_ge _ _)) by lia. rewrite bind_Ok, !rd8_Ok, !bind_Ok by lia. cbv zeta.
  fold (nal_layer n) (nal_tid n). rewrite IH by done. f_equal; f_equal; f_equal; [f_equal; f_equal|].
  - destruct (Z.ltb_spec (nal_layer n) a); lia.
  - destruct (Z.ltb_spec (nal_tid n) b); lia.
  - change (nal_f n) with (negb (Z.land (nth 0 n 0) H265_NAL_F_BIT =? 0)).
    destruct (Z.land (nth 0 n 0) _ =? 0), f; done.
Qed.

Lemma be16_land v : [u8 (Z.land (Z.shiftr v 8) 0xFF); u8 (Z.land v 0xFF)] = be16 v.
Proof.
  unfold be16, u8. change 0xFF with (Z.ones 8). rewrite !Z.land_ones, !Z.mod_mod by lia. done.
Qed.
Lemma ap_body_cons n ns : ap_body (n :: ns) = be16 (Z.of_nat (length n)) ++ n ++ ap_body ns.
Proof. unfold ap_body. cbn [map concat]. by rewrite <- app_assoc. Qed.
Lemma ap_write_spec ns : forall pre rest,
  (length (ap_body ns) <= length rest)%nat ->
  ap_write (map Some ns) (pre ++ rest) (length pre) =
  Ok (Some ((pre ++ ap_body ns) ++ drop (length (ap_body ns)) rest, (length pre + length (ap_body ns))%nat)).
Proof.
  induction ns as [|n ns IH]; intros pre rest Hl; cbn [map ap_write].
  { unfold ap_body. cbn [map concat length drop]. by rewrite app_nil_r, drop_0, Nat.add_0_r. }
  rewrite ap_body_cons in *. rewrite !length_app in Hl. cbn [be16 length] in Hl. cbn [ref_len ref_data].
  unfold H265_AP_NALU_LEN_SIZE. rewrite (proj2 (Nat.ltb_ge _ _)) by (rewrite length_app; lia). cbv zeta.
  rewrite Nat.add_0_r. rewrite wr_then by done. rewrite bind_Ok_under. cbn [app]. rewrite be16_land.
  rewrite wr_then by done. rewrite wr_append, bind_Ok by (rewrite ?length_app; cbn [be16 length]; lia || done).
  replace (length pre + 2 + length n)%nat with (length (pre ++ be16 (Z.of_nat (length n)) ++ n))
    by (rewrite !length_app; cbn [be16 length]; lia).
  rewrite IH by (rewrite length_drop, length_app; cbn [be16 length]; lia).
  rewrite drop_drop. f_equal. f_equal. f_equal.
  - rewrite <- !app_assoc. do 4 f_equal. f_equal. rewrite !length_app. lia.
  - rewrite !length_app. lia.
Qed.
Lemma h265_emit_ap_spec {U} (cb : packet_cb U) ns mk u :
  (2 <= length ns)%nat -> Forall (fun n => 2 <= length n)%nat ns ->
  (2 + length (ap_body ns) <= NANORTC_VIDEO_MTU)%nat ->
  h265_emit_ap cb (map Some ns) mk u = Ok (cb u (ap_hdr ns ++ ap_body ns) mk).
Proof.
  intros Hc Hn Hl. unfold h265_emit_ap. rewrite length_map, (proj2 (Nat.ltb_ge _ _)) by done.
  rewrite ap_scan_spec, bind_Ok by done. cbv zeta. cbn [orb]. fold (ap_layer ns).
  replace (if foldl Z.min 7 (map nal_tid ns) =? 0 then 1 else foldl Z.min 7 (map nal_tid ns)) with (ap_tid ns).
  2:{ unfold ap_tid. assert (0 <= foldl Z.min 7 (map nal_tid ns)) as H0.
      { assert (forall l a, 0 <= a -> Forall (fun x => 0 <= x) l -> 0 <= foldl Z.min a l) as Hmin.
        { induction l as [|x l IH]; intros a Ha Hx; cbn; [done|]. rewrite Forall_cons_iff in Hx. apply IH; [lia | tauto]. }
        apply Hmin; [lia|]. apply List.Forall_forall. intros x (n & <- & _)%in_map_iff. apply u8_range. }
      destruct (Z.eqb_spec (foldl Z.min 7 (map nal_tid ns)) 0); lia. }
  unfold H265_AP_PAYLOAD_HDR_SIZE. rewrite length_replicate, (proj2 (Nat.ltb_ge _ _)) by vid_lia.
  rewrite wr_then by done. rewrite wr_0, bind_Ok by (rewrite length_replicate; cbn [length app]; vid_lia).
  cbn [app length]. change 2%nat with (length (ap_hdr ns)) at 2.
  pose proof (ap_write_spec ns (ap_hdr ns) (drop 2 (replicate NANORTC_VIDEO_MTU 0))) as Hw.
  unfold ap_hdr at 1 in Hw. cbn [app] in Hw. rewrite Hw by (rewrite length_drop, length_replicate; lia).
  rewrite bind_Ok, rdn_Ok, bind_Ok by (rewrite !length_app; lia).
  by rewrite drop_0, take_app_length' by (by rewrite length_app).
Qed.

(** * A receiver after RFC 7798 *)

(** The units of an aggregation packet's body. *)
Fixpoint rx_split (fuel : nat) (body : list Z) : list (list Z) :=
  match fuel, body with
  | S fuel, hi :: lo :: rest =>
      let n := Z.to_nat (val16 hi lo) in take n rest :: rx_split fuel (drop n rest)
  | _, _ => []
  end.
(** The unit under reassembly and the units delivered, after one payload. *)
Definition rx_step (st : list Z * list (list Z)) (p : list Z) : list Z * list (list Z) :=
  let '(partial, out) := st in
  let t := H265_NAL_TYPE (nth 0 p 0) in
  if t =? 48 then (partial, out ++ rx_split (length p) (drop 2 p))
  else if t =? 49 then
    let fu := nth 2 p 0 in
    let partial := if Z.testbit fu 7
                   then [nth 0 p 0 - 2 * 49 + 2 * (fu mod 64); nth 1 p 0] ++ drop 3 p
                   else partial ++ drop 3 p in
    if Z.testbit fu 6 then ([], out ++ [partial]) else (partial, out)
  else (partial, out ++ [p]).
Definition rx (payloads : list (list Z)) : list Z * list (list Z) := foldl rx_step ([], []) payloads.

(** A unit that can be carried in its own packet. *)
Definition nal_unit (n : list Z) : Prop := bytes n /\ (2 <= length n)%nat /\ H265_NAL_TYPE (nth 0 n 0) < 48.

Lemma rx_split_body ns : forall fuel,
  Forall (fun n => Z.of_nat (length n) < 65536) ns -> (length ns <= fuel)%nat -> rx_split fuel (ap_body ns) = ns.
Proof.
  induction ns as [|n ns IH]; intros fuel Hn Hf.
  { destruct fuel; reflexivity. }
  rewrite Forall_cons_iff in Hn. destruct Hn as [Hn1 Hn]. rewrite ap_body_cons.
  destruct fuel as [|fuel]; [cbn in Hf; lia|]. unfold be16. cbn [app rx_split]. cbv zeta.
  rewrite val16_be16, u16_id, Nat2Z.id by mach. rewrite take_app_length, drop_app_length, IH; [done | done | cbn in Hf; lia].
Qed.

Definition ap_facts (l : Z) : bool :=
  forallb (fun f : bool =>
    let b := u8 (Z.lor (Z.lor (if f then H265_NAL_F_BIT else 0) (Z.shiftl (Z.land H265_PKT_AP 0x3F) 1))
                       (Z.land (Z.shiftr l 5) 0x01)) in
    H265_NAL_TYPE b =? 48) [true; false].
Lemma foldl_min_range l : forall a m, 0 <= a <= m -> Forall (fun x => 0 <= x) l -> 0 <= foldl Z.min a l <= m.
Proof.
  induction l as [|x l IH]; intros a m Ha Hl; cbn; [done|].
  rewrite Forall_cons_iff in Hl. apply IH; [lia | tauto].
Qed.
Lemma rx_ap partial out ns :
  Forall (fun n => Z.of_nat (length n) < 65536) ns ->
  rx_step (partial, out) (ap_hdr ns ++ ap_body ns) = (partial, out ++ ns).
Proof.
  intros Hn. unfold rx_step.
  assert (is_u8 (ap_layer ns)) as Hl.
  { unfold ap_layer. pose proof (foldl_min_range (map nal_layer ns) 63 63) as H. unfold is_u8. change (2 ^ 8) with 256.
    assert (0 <= foldl Z.min 63 (map nal_layer ns) <= 63); [|lia]. apply H; [lia|].
    apply List.Forall_forall. intros z (n & <- & _)%in_map_iff. apply u8_range. }
  assert (H265_NAL_TYPE (nth 0 (ap_hdr ns ++ ap_body ns) 0) = 48) as ->.
  { pose proof (octet_forall ap_facts ltac:(vm_compute; reflexivity) _ Hl) as Hf. unfold ap_facts in Hf.
    rewrite forallb_forall in Hf. specialize (Hf (existsb nal_f ns)). apply Z.eqb_eq. apply Hf.
    destruct (existsb nal_f ns); cbn; tauto. }
  change (48 =? 48) with true. cbn iota. change (drop 2 (ap_hdr ns ++ ap_body ns)) with (drop 0 (ap_body ns)).
  rewrite drop_0, rx_split_body; [done | done |]. rewrite length_app.
  assert (length ns <= length (ap_body ns))%nat; [|lia]. clear.
  induction ns as [|n ns IH]; [done|]. rewrite ap_body_cons, !length_app. cbn [length be16]. lia.
Qed.

(** Fragments reassemble. *)
Definition rx_facts (h0 : Z) : bool :=
  forallb (fun fl : bool * bool => let '(first, last) := fl in
    let p := fu_hdr h0 0 first last in
    (H265_NAL_TYPE (nth 0 p 0) =? 49) && Bool.eqb (Z.testbit (nth 2 p 0) 7) first &&
    Bool.eqb (Z.testbit (nth 2 p 0) 6) last && (nth 0 p 0 - 2 * 49 + 2 * (nth 2 p 0 mod 64) =? h0))
    [(true, true); (true, false); (false, true); (false, false)].
Lemma rx_fragment h0 h1 (first last : bool) x partial out :
  is_u8 h0 ->
  rx_step (partial, out) (fu_hdr h0 h1 first last ++ x) =
  let partial := if first then [h0; h1] ++ x else partial ++ x in
  if last then ([], out ++ [partial]) else (partial, out).
Proof.
  intros Hh. pose proof (octet_forall rx_facts ltac:(vm_compute; reflexivity) _ Hh) as Hf.
  unfold rx_facts in Hf. rewrite forallb_forall in Hf. specialize (Hf (first, last)).
  assert (In (first, last) [(true, true); (true, false); (false, true); (false, false)]) as Hin
    by (destruct first, last; cbn; tauto).
  specialize (Hf Hin). cbv beta iota in Hf.
  apply andb_prop in Hf as [[[Ht%Z.eqb_eq Hs%eqb_prop]%andb_prop He%eqb_prop]%andb_prop Hr%Z.eqb_eq].
  unfold rx_step, fu_hdr in *. cbv zeta in *. cbn [nth app drop] in *.
  rewrite Ht. change (49 =? 48) with false. rewrite Z.eqb_refl. rewrite Hs, He, Hr, drop_0.
  by destruct first, last.
Qed.
Lemma rx_fragments h0 h1 max mk : forall fuel (first : bool) data partial out,
  is_u8 h0 -> (0 < max)%nat -> (length data < fuel)%nat ->
  foldl rx_step (partial, out)
    (map fst (map (fun p : list Z * bool => (p.1, p.2 && mk)) (fragments fuel (fu_hdr h0 h1) max first data))) =
  ([], out ++ [(if first then [h0; h1] else partial) ++ data]).
Proof.
  induction fuel as [|fuel IH]; intros first data partial out Hh Hm Hd; [lia|]. cbn [fragments].
  destruct (Nat.leb_spec (length data) max) as [Hle|Hgt]; cbn [map fst snd foldl]; rewrite rx_fragment by done; cbv zeta.
  - by destruct first.
  - rewrite IH by (done || rewrite length_drop; lia).
    destruct first; do 3 f_equal; rewrite <- !app_assoc; by rewrite take_drop.
Qed.
Lemma rx_unit n mtu mk out :
  nal_unit n -> (4 <= mtu)%nat ->
  foldl rx_step ([], out) (map fst (unit_payloads n mtu mk)) = ([], out ++ [n]).
Proof.
  intros (Hb & Hl & Ht) Hm. unfold unit_payloads. destruct (length n <=? mtu)%nat.
  - cbn [map fst foldl]. unfold rx_step. cbv zeta.
    rewrite (proj2 (Z.eqb_neq _ 48)), (proj2 (Z.eqb_neq _ 49)) by lia. done.
  - rewrite rx_fragments; [| apply nth_u8, Hb | lia | rewrite length_drop; lia].
    destruct n as [|a [|b n]]; [cbn in Hl; lia..|]. cbn [nth drop app]. by rewrite drop_0.
Qed.

(** * The access-unit packetizer *)

(** How many of the following units join [n] in an aggregation packet. *)
Definition ap_run (mtu : nat) (n : list Z) (rest : list (list Z)) : nat :=
  ap_extend (map Some rest) mtu (H265_AP_PAYLOAD_HDR_SIZE + H265_AP_NALU_LEN_SIZE + length n).
Fixpoint au_payloads (fuel : nat) (nals : list (list Z)) (mtu : nat) : list (list Z * bool) :=
  match fuel, nals with
  | S fuel, n :: rest =>
      if (mtu <? length n)%nat then
        unit_payloads n mtu (length rest =? 0)%nat ++ au_payloads fuel rest mtu
      else
        let k := ap_run mtu n rest in
        if (0 <? k)%nat then
          (ap_hdr (n :: take k rest) ++ ap_body (n :: take k rest), (length rest =? k)%nat)
            :: au_payloads fuel (drop k rest) mtu
        else (n, (length rest =? 0)%nat) :: au_payloads fuel rest mtu
  | _, _ => []
  end.

Lemma ap_extend_spec next mtu : forall b,
  let k := ap_extend (map Some next) mtu b in
  (k <= length next)%nat /\ ((0 < k)%nat -> (b + length (ap_body (take k next)) <= mtu)%nat).
Proof.
  induction next as [|n next IH]; intros b; cbn [map ap_extend].
  { split; [done | lia]. }
  unfold H265_NAL_HEADER_SIZE, H265_AP_NALU_LEN_SIZE.
  destruct (Nat.ltb_spec (length n) 2); [split; cbn; lia|].
  destruct (Nat.ltb_spec mtu (length n)); [split; cbn; lia|]. cbv zeta.
  destruct (Nat.ltb_spec mtu (b + (2 + length n))); [split; cbn; lia|].
  destruct (IH (b + (2 + length n))%nat) as [Hk Hsum]. cbv zeta in *.
  split; [cbn [length]; lia|]. intros _. cbn [take]. rewrite ap_body_cons, !length_app. cbn [be16 length].
  destruct (ap_extend (map Some next) mtu (b + (2 + length n))) as [|k].
  { rewrite take_0. cbn. lia. }
  specialize (Hsum ltac:(lia)). lia.
Qed.
Lemma ap_run_spec mtu n rest :
  let k := ap_run mtu n rest in
  (k <= length rest)%nat /\ ((0 < k)%nat -> (2 + length (ap_body (n :: take k rest)) <= mtu)%nat).
Proof.
  destruct (ap_extend_spec rest mtu (H265_AP_PAYLOAD_HDR_SIZE + H265_AP_NALU_LEN_SIZE + length n)) as [Hk Hs].
  cbv zeta in *. fold (ap_run mtu n rest) in *. split; [done|]. intros H. specialize (Hs H).
  rewrite ap_body_cons, !length_app. unfold H265_AP_PAYLOAD_HDR_SIZE, H265_AP_NALU_LEN_SIZE in Hs.
  cbn [be16 length]. lia.
Qed.

Lemma au_loop_spec {U} (cb : packet_cb U) mtu : forall fuel nals u,
  Forall (fun n => 2 <= length n)%nat nals -> (4 <= mtu <= NANORTC_VIDEO_MTU)%nat -> (length nals < fuel)%nat ->
  h265_au_loop cb fuel (map Some nals) mtu u = Ok (emit_all cb u (au_payloads fuel nals mtu)).
Proof.
  induction fuel as [|fuel IH]; intros nals u Hn Hm Hf; [lia|]. destruct nals as [|n rest]; [done|].
  rewrite Forall_cons_iff in Hn. destruct Hn as [Hn1 Hn]. cbn [length] in Hf.
  cbn [map h265_au_loop au_payloads]. unfold H265_NAL_HEADER_SIZE.
  rewrite (proj2 (Nat.ltb_ge _ _)) by lia. rewrite !length_map.
  destruct (Nat.ltb_spec mtu (length n)) as [Hbig|Hsmall].
  - rewrite h265_emit_fu_spec, bind_Ok by lia. rewrite emit_all_app.
    destruct (emit_all cb u _) as [u' rc]. destruct (rc =? 0); cbn [negb]; [|done]. apply IH; [done | done | lia].
  - cbv zeta. fold (ap_run mtu n rest). destruct (ap_run_spec mtu n rest) as [Hk Hsum]. cbv zeta in *.
    set (k := ap_run mtu n rest) in *.
    destruct (Nat.ltb_spec 0 k) as [Hpos|Hz].
    + change (take (S k) (Some n :: map Some rest)) with (Some n :: take k (map Some rest)).
      rewrite firstn_map, skipn_map. change (Some n :: map Some (take k rest)) with (map Some (n :: take k rest)).
      rewrite h265_emit_ap_spec, bind_Ok;
        [| cbn [length]; rewrite length_take; lia
         | constructor; [done | by apply Forall_take]
         | specialize (Hsum Hpos); lia].
      cbn [emit_all]. destruct (cb u _ _) as [u' rc]. destruct (rc =? 0); cbn [negb]; [|done].
      apply IH; [by apply Forall_drop | done | rewrite length_drop; lia].
    + cbn [emit_all]. destruct (cb u n _) as [u' rc]. destruct (rc =? 0); cbn [negb]; [|done].
      apply IH; [done | done | lia].
Qed.

Lemma unit_payloads_shape n mtu mk :
  (2 <= length n)%nat -> (4 <= mtu)%nat ->
  Forall (fun p => (1 <= length p.1 <= mtu)%nat) (unit_payloads n mtu mk) /\
  exists k, map snd (unit_payloads n mtu mk) = replicate k false ++ [mk].
Proof.
  intros Hn Hm. unfold unit_payloads. destruct (Nat.leb_spec (length n) mtu) as [Hle|Hgt].
  - split; [repeat constructor; cbn; lia | by exists 0%nat].
  - destruct (fragments_shape (fu_hdr (nth 0 n 0) (nth 1 n 0)) (mtu - 3) 3 (length n) true (drop 2 n)) as (Hall & k & Hk);
      [by intros [] [] | lia | rewrite length_drop; lia.. |].
    split.
    + rewrite Forall_map. refine (List.Forall_impl _ _ Hall). cbn. lia.
    + exists k. rewrite map_map. cbn [snd]. rewrite <- (map_map snd (fun l => l && mk)), Hk, map_app.
      by replace (map (fun l => l && mk) (replicate k false)) with (replicate k false)
        by (clear; induction k; cbn; congruence).
Qed.

Lemma au_payloads_shape mtu : forall fuel nals,
  Forall nal_unit nals -> (4 <= mtu <= NANORTC_VIDEO_MTU)%nat -> (length nals < fuel)%nat ->
  Forall (fun p => (1 <= length p.1 <= mtu)%nat) (au_payloads fuel nals mtu) /\
  (nals <> [] -> exists k, map snd (au_payloads fuel nals mtu) = replicate k false ++ [true]) /\
  (forall out, foldl rx_step ([], out) (map fst (au_payloads fuel nals mtu)) = ([], out ++ nals)).
Proof.
  induction fuel as [|fuel IH]; intros nals Hn Hm Hf; [lia|]. destruct nals as [|n rest].
  { split_and!; [done | done |]. intros out. cbn. by rewrite app_nil_r. }
  rewrite Forall_cons_iff in Hn. destruct Hn as [Hn1 Hn]. cbn [length] in Hf. cbn [au_payloads].
  pose proof Hn1 as (_ & Hl & _).
  assert (forall (p : list (list Z * bool)) j (l : list (list Z)), map snd p = replicate j false ++ [(length l =? 0)%nat] ->
    (l = [] -> map snd (au_payloads fuel l mtu) = []) ->
    (l <> [] -> exists k, map snd (au_payloads fuel l mtu) = replicate k false ++ [true]) ->
    exists k, map snd (p ++ au_payloads fuel l mtu) = replicate k false ++ [true]) as Hjoin.
  { intros p j l Hp H0 H1. rewrite map_app, Hp. destruct l as [|x l].
    - exists j. rewrite H0 by done. by rewrite app_nil_r.
    - destruct H1 as [k Hk]; [done|]. rewrite Hk. exists (j + 1 + k)%nat.
      cbn [length Nat.eqb]. rewrite !replicate_add, <- !app_assoc. done. }
  assert (forall l : list (list Z), l = [] -> map snd (au_payloads fuel l mtu) = []) as Hnil.
  { intros l ->. destruct fuel; done. }
  destruct (Nat.ltb_spec mtu (length n)) as [Hbig|Hsmall].
  - destruct (IH rest Hn Hm) as (Hall & Hmk & Hrx); [lia|].
    destruct (unit_payloads_shape n mtu (length rest =? 0)%nat) as (Hu & j & Hj); [lia | lia |].
    split_and!.
    + by apply Forall_app_2.
    + intros _. by apply (Hjoin _ j rest Hj (Hnil rest)).
    + intros out. rewrite map_app, foldl_app, rx_unit by (done || lia). rewrite Hrx. by rewrite <- app_assoc.
  - cbv zeta. destruct (ap_run_spec mtu n rest) as [Hk Hsum]. cbv zeta in *. set (k := ap_run mtu n rest) in *.
    destruct (Nat.ltb_spec 0 k) as [Hpos|Hz].
    + specialize (Hsum Hpos). destruct (IH (drop k rest)) as (Hall & Hmk & Hrx);
        [by apply Forall_drop | done | rewrite length_drop; lia |].
      assert ((length rest =? k)%nat = (length (drop k rest) =? 0)%nat) as ->.
      { rewrite length_drop. destruct (Nat.eqb_spec (length rest) k), (Nat.eqb_spec (length rest - k) 0); lia || done. }
      split_and!.
      * constructor; [|done]. cbn [fst]. rewrite length_app. cbn [ap_hdr length]. lia.
      * intros _. apply (Hjoin [_] 0%nat (drop k rest)); [done | apply Hnil | done].
      * intros out. cbn [map fst foldl]. rewrite rx_ap, Hrx.
        -- f_equal. rewrite <- app_assoc. cbn [app]. by rewrite take_drop.
        -- apply List.Forall_forall. intros x Hx. apply in_split in Hx as (l1 & l2 & Hx). rewrite Hx in Hsum.
           unfold ap_body in Hsum. rewrite map_app, concat_app, length_app in Hsum. cbn [map concat] in Hsum.
           rewrite !length_app in Hsum. vid_lia.
    + destruct (IH rest Hn Hm) as (Hall & Hmk & Hrx); [lia|]. split_and!.
      * constructor; [cbn; lia | done].
      * intros _. apply (Hjoin [_] 0%nat rest); [done | apply Hnil | done].
      * intros out. pose proof (rx_unit n mtu (length rest =? 0)%nat out Hn1 ltac:(lia)) as Hr.
        unfold unit_payloads in Hr. rewrite (proj2 (Nat.leb_le _ _)) in Hr by done. cbn [map fst foldl] in Hr |- *.
        rewrite Hr, Hrx. by rewrite <- app_assoc.
Qed.

(** * Properties *)

(** C26: for every access unit of NAL units (types below 48, any sizes) and
    every MTU from 4 to the packet buffer's size, the packetizer hands the
    callback exactly a list of payloads - stopping at the first refusal, whose
    code it returns - each of at most MTU octets, the marker on the last one only,
    from which a receiver after RFC 7798 gets back all the units, octet for octet
    and in order, whatever the mix of single, aggregated and fragmented ones. *)
Theorem h265_packetize_au_delivers (nals : list (list Z)) (mtu : nat) :
  nals <> [] -> Forall nal_unit nals -> (4 <= mtu <= NANORTC_VIDEO_MTU)%nat ->
  exists payloads : list (list Z * bool),
    (forall U (cb : packet_cb U) u, h265_packetize_au cb (map Some nals) mtu u = Ok (emit_all cb u payloads)) /\
    Forall (fun p => (1 <= length p.1 <= mtu)%nat) payloads /\
    (exists k, map snd payloads = replicate k false ++ [true]) /\
    rx (map fst payloads) = ([], nals).
Proof.
  intros Hne Hn Hm. exists (au_payloads (S (length nals)) nals mtu).
  destruct (au_payloads_shape mtu (S (length nals)) nals Hn Hm) as (Hall & Hmk & Hrx); [lia|].
  split_and!; [|done | by apply Hmk | apply Hrx].
  intros U cb u. unfold h265_packetize_au, H265_FU_HEADER_SIZE. rewrite length_map.
  rewrite (proj2 (Nat.eqb_neq _ _)) by (destruct nals; [done | cbn; lia]).
  rewrite (proj2 (Nat.ltb_ge _ _)) by lia. cbn [orb]. apply au_loop_spec; [| done | lia].
  refine (List.Forall_impl _ _ Hn). intros n (_ & H & _). done.
Qed.
Lemma h265_packetize_au_delivers_witness :
  exists payloads : list (list Z * bool),
    (forall U (cb : packet_cb U) u,
       h265_packetize_au cb (map Some [[64; 1; 9]; [66; 1]; [38; 1; 1; 2; 3; 4; 5; 6; 7; 8; 9; 10; 11; 12; 13; 14]]) 12 u
       = Ok (emit_all cb u payloads)) /\
    Forall (fun p => (1 <= length p.1 <= 12)%nat) payloads /\
    (exists k, map snd payloads = replicate k false ++ [true]) /\
    rx (map fst payloads) = ([], [[64; 1; 9]; [66; 1]; [38; 1; 1; 2; 3; 4; 5; 6; 7; 8; 9; 10; 11; 12; 13; 14]]).
Proof.
  refine (h265_packetize_au_delivers
    [[64; 1; 9]; [66; 1]; [38; 1; 1; 2; 3; 4; 5; 6; 7; 8; 9; 10; 11; 12; 13; 14]] 12 _ _ _).
  - discriminate.
  - repeat first [apply List.Forall_nil | apply List.Forall_cons];
      (split; [bytes_lit | split; [cbn; lia | vm_compute; reflexivity]]).
  - vid_lia.
Defined.

(** A NAL unit (type below 48, fitting the reassembly buffer) packetized
    alone - for an MTU of at least 4, and at most the packet buffer when it must be
    fragmented - gives payloads of at most MTU octets, the marker on the last one
    only, and from any state of the depacketizer, whatever it was doing, pushing
    them in order outputs nothing until the last one and then the unit, octet for
    octet, its forbidden bit, layer and temporal id included. *)
Theorem h265_packetize_depacketize (nalu : list Z) (mtu : nat) (d : nano_h265_depkt) :
  nal_unit nalu -> (length nalu <= VIDEO_NAL_BUF_SIZE)%nat -> (4 <= mtu)%nat ->
  ((length nalu <= mtu)%nat \/ (mtu <= NANORTC_VIDEO_MTU)%nat) -> hdepkt_ok d ->
  exists payloads : list (list Z * bool),
    (forall U (cb : packet_cb U) u, h265_packetize cb nalu mtu u = Ok (emit_all cb u payloads)) /\
    Forall (fun p => (1 <= length p.1 <= mtu)%nat) payloads /\
    (exists k, map snd payloads = replicate k false ++ [true]) /\
    exists d' k, push_all h265_depkt_push d (map fst payloads) = Ok (d', outputs k nalu) /\ hdepkt_ok d'.
Proof.
  intros (Hb & Hl & Ht) Hcap Hm Hor Hd. exists (unit_payloads nalu mtu true).
  destruct (unit_payloads_shape nalu mtu true Hl Hm) as [Hall Hmk]. split_and!; [| done | done |].
  { intros U cb u. unfold h265_packetize, H265_NAL_HEADER_SIZE, H265_FU_HEADER_SIZE.
    rewrite !(proj2 (Nat.ltb_ge _ _)) by lia. cbn [orb].
    destruct (Nat.leb_spec (length nalu) mtu) as [Hle|Hgt]; [|apply h265_emit_fu_spec; lia].
    unfold unit_payloads. rewrite (proj2 (Nat.leb_le _ _)) by done. cbn [emit_all].
    destruct (cb u nalu true) as [u' rc]. destruct (Z.eqb_spec rc 0); by subst. }
  unfold unit_payloads. destruct (Nat.leb_spec (length nalu) mtu) as [Hle|Hgt].
  - pose proof (h265_depkt_push_wp d nalu Hd) as Hwp.
    assert (exists d', h265_depkt_push d nalu = Ok (d', 0, Some nalu)) as [d' Hp].
    { unfold h265_depkt_push, H265_NAL_HEADER_SIZE. destruct (h265_abort_ok d Hd) as [(Hab & _) _].
      rewrite (proj2 (Nat.ltb_ge _ _)) by lia. rewrite (rd8_Ok _ 0), bind_Ok by lia. cbv zeta.
      rewrite (proj2 (Z.ltb_lt _ _)) by (unfold H265_PKT_AP; lia).
      rewrite (proj2 (Nat.ltb_ge _ _)) by lia. rewrite wr_0, bind_Ok by lia.
      rewrite h265_out_eq, bind_Ok. eauto. }
    rewrite Hp in Hwp. destruct Hwp as [Hd' _]. exists d', 0%nat. cbn [map fst push_all]. by rewrite Hp.
  - rewrite map_map. cbn [fst]. destruct nalu as [|h0 [|h1 rest]]; [cbn in Hl; lia..|]. cbn [nth drop].
    rewrite drop_0. cbn [length] in *. rewrite Forall_cons_iff in Hb. destruct Hb as [Hh0 _].
    apply (reassemble h265_depkt_push (fu_hdr h0 h1) (mtu - 3) VIDEO_NAL_BUF_SIZE [h0; h1] hdepkt_ok hdepkt_holding
      (h265_push_first h0 h1 Hh0) (h265_push_next h0 h1 Hh0)); [done | cbn; lia | lia | lia].
Qed.
Lemma h265_packetize_depacketize_witness :
  exists payloads : list (list Z * bool),
    (forall U (cb : packet_cb U) u, h265_packetize cb [38; 1; 1; 2; 3; 4; 5; 6] 5 u = Ok (emit_all cb u payloads)) /\
    Forall (fun p => (1 <= length p.1 <= 5)%nat) payloads /\
    (exists k, map snd payloads = replicate k false ++ [true]) /\
    exists d' k, push_all h265_depkt_push h265_depkt_init (map fst payloads) =
      Ok (d', outputs k [38; 1; 1; 2; 3; 4; 5; 6]) /\ hdepkt_ok d'.
Proof.
  refine (h265_packetize_depacketize [38; 1; 1; 2; 3; 4; 5; 6] 5 h265_depkt_init _ _ _ _ _).
  - split; [bytes_lit | split; [cbn; lia | vm_compute; reflexivity]].
  - cbn [length]. vid_lia.
  - lia.
  - right. vid_lia.
  - unfold hdepkt_ok, h265_depkt_init. cbn [hd_buf hd_len hd_in_progress]. rewrite length_replicate.
    split; [reflexivity | split; [vid_lia | discriminate]].
Defined.

(** From the initial state, whatever octets are pushed (payloads of at
    least a header), the depacketizer reads only the payload and writes only
    inside its buffer, and any unit it outputs is non-empty and at most the
    buffer's size. *)
Theorem h265_depkt_safe (payloads : list (list Z)) :
  Forall (fun p => 2 <= length p)%nat payloads ->
  exists d outs, push_all h265_depkt_push h265_depkt_init payloads = Ok (d, outs) /\ hdepkt_ok d /\
    length outs = length payloads /\
    Forall (fun o => forall nalu, o.2 = Some nalu -> (1 <= length nalu <= VIDEO_NAL_BUF_SIZE)%nat) outs.
Proof.
  assert (hdepkt_ok h265_depkt_init) as Hd.
  { split_and!; [apply length_replicate | apply Nat.le_0_l | done]. }
  revert Hd. generalize h265_depkt_init. induction payloads as [|p ps IH]; intros d Hd Hps.
  { exists d, []. done. }
  rewrite Forall_cons_iff in Hps. destruct Hps as [Hp Hps]. cbn [push_all].
  pose proof (h265_depkt_push_wp d p Hd) as Hwp.
  destruct (h265_depkt_push d p) as [[[d1 rc] out]|e|] eqn:Hpush; [|exfalso|done].
  - destruct Hwp as [Hd1 Hout]. rewrite bind_Ok. destruct (IH d1 Hd1 Hps) as (d' & outs & -> & Hd' & Hl & Ho).
    rewrite bind_Ok. exists d', ((rc, out) :: outs). split_and!; [done | done | cbn; by rewrite Hl |].
    by constructor.
  - by apply (h265_depkt_push_no_err d p Hp e).
Qed.
Lemma h265_depkt_safe_witness :
  exists d outs, push_all h265_depkt_push h265_depkt_init [[98; 1; 147; 1]; [96; 1; 0; 9; 1]; [98; 1]] = Ok (d, outs) /\
    hdepkt_ok d /\ length outs = 3%nat /\
    Forall (fun o => forall nalu, o.2 = Some nalu -> (1 <= length nalu <= VIDEO_NAL_BUF_SIZE)%nat) outs.
Proof.
  refine (h265_depkt_safe [[98; 1; 147; 1]; [96; 1; 0; 9; 1]; [98; 1]] _).
  repeat constructor; cbn; lia.
Defined.
