(* ===== verification/DataChannel.v ===== *)
(** Data channels, [src/nano_datachannel.c] (RFC 8831, RFC 8832): the DCEP codec,
    the channel table and the OPEN/ACK state machine; the handshake between two
    endpoints, the table's invariant and the delivery of pending messages. *)

From Stdlib Require Import ZArith Lia.
From stdpp Require Import base list numbers.
From S2P Require Import Prelude Wire.

Local Open Scope Z_scope.

Definition DCEP_DATA_CHANNEL_OPEN : Z := 0x03.
Definition DCEP_DATA_CHANNEL_ACK : Z := 0x02.
Definition DCEP_PPID_CONTROL : Z := 50.
Definition DCEP_CHANNEL_RELIABLE : Z := 0x00.
Definition DCEP_CHANNEL_RELIABLE_UNORDERED : Z := 0x80.
Definition DCEP_CHANNEL_REXMIT : Z := 0x01.
Definition DCEP_CHANNEL_REXMIT_UNORDERED : Z := 0x81.
(** Defaults of [include/nanortc_config.h]. *)
Definition NANORTC_MAX_DATACHANNELS : nat := 8.
Definition NANORTC_DC_LABEL_SIZE : nat := 32.

(** [dcep_open_t]; the label and protocol views are their octets. *)
Record dcep_open : Type := DcepOpen {
  do_channel_type : Z; do_priority : Z; do_reliability_param : Z; do_label : list Z; do_protocol : list Z
}.
(** [nano_dc_state_t] *)
Inductive dc_state : Type := DC_CLOSED | DC_OPENING | DC_OPEN.
#[export] Instance dc_state_eq_dec : EqDecision dc_state.
Proof. solve_decision. Defined.
Definition dc_state_eqb (a b : dc_state) : bool := bool_decide (a = b).

(** [nano_dc_channel_t]; [ch_label] and [ch_protocol] are the whole arrays. *)
Record nano_dc_channel : Type := Channel {
  ch_state : dc_state; ch_stream_id : Z; ch_label : list Z; ch_protocol : list Z;
  ch_channel_type : Z; ch_ordered : bool; ch_max_retransmits : Z; ch_pending : Z
}.
(** [nano_dc_t]: the whole table and the count. *)
Record nano_dc : Type := NanoDc { dc_channels : list nano_dc_channel; dc_channel_count : nat }.

(** * DCEP codec *)

Definition dcep_parse_open (data : list Z) : res dcep_open :=
  let len := length data in
  if (len <? 12)%nat then Err NANORTC_ERR_PARSE else
  d0 ← rd8 data 0;
  if negb (d0 =? DCEP_DATA_CHANNEL_OPEN) then Err NANORTC_ERR_PROTOCOL else
  channel_type ← rd8 data 1;
  priority ← nanortc_read_u16be data 2;
  reliability_param ← nanortc_read_u32be data 4;
  label_len ← nanortc_read_u16be data 8;
  protocol_len ← nanortc_read_u16be data 10;
  let label_len := Z.to_nat label_len in let protocol_len := Z.to_nat protocol_len in
  if (len - 12 <? label_len)%nat || (len - 12 - label_len <? protocol_len)%nat then Err NANORTC_ERR_PARSE else
  label ← (if (0 <? label_len)%nat then rdn data 12 label_len else Ok []);
  protocol ← (if (0 <? protocol_len)%nat then rdn data (12 + label_len) protocol_len else Ok []);
  Ok (DcepOpen channel_type priority reliability_param label protocol).

(** The buffer and the returned length. *)
Definition dcep_encode_open (buf : list Z) (channel_type priority reliability_param : Z) (label protocol : list Z)
  : res (list Z * nat) :=
  buf ← wr buf 0 [DCEP_DATA_CHANNEL_OPEN];
  buf ← wr buf 1 [channel_type];
  buf ← wr buf 2 (be16 priority);
  buf ← wr buf 4 (be32 reliability_param);
  buf ← wr buf 8 (be16 (Z.of_nat (length label)));
  buf ← wr buf 10 (be16 (Z.of_nat (length protocol)));
  let pos := 12%nat in
  buf ← wr buf pos label;
  let pos := (pos + length label)%nat in
  buf ← wr buf pos protocol;
  Ok (buf, (pos + length protocol)%nat).

(** * Channel table *)

Definition get_channel (dc : nano_dc) (i : nat) : res nano_dc_channel :=
  match dc_channels dc !! i with Some ch => Ok ch | None => Fault end.
Definition put_channel (dc : nano_dc) (i : nat) (ch : nano_dc_channel) : nano_dc :=
  NanoDc (<[i := ch]> (dc_channels dc)) (dc_channel_count dc).

(** The scans return the index of the first channel in use that [p] selects. *)
Fixpoint channel_scan (p : nano_dc_channel -> bool) (n i : nat) (dc : nano_dc) : res (option nat) :=
  match n with
  | O => Ok None
  | S n => ch ← get_channel dc i; if p ch then Ok (Some i) else channel_scan p n (S i) dc
  end.
Definition dc_find_channel (dc : nano_dc) (stream_id : Z) : res (option nat) :=
  channel_scan (fun ch => (ch_stream_id ch =? stream_id) && negb (dc_state_eqb (ch_state ch) DC_CLOSED))
    (dc_channel_count dc) 0 dc.

Definition zero_channel (stream_id : Z) : nano_dc_channel :=
  Channel DC_CLOSED stream_id (replicate NANORTC_DC_LABEL_SIZE 0) (replicate NANORTC_DC_LABEL_SIZE 0) 0 false 0 0.
(** The index of the new channel. *)
Definition dc_alloc_channel (dc : nano_dc) (stream_id : Z) : res (nano_dc * option nat) :=
  let i := dc_channel_count dc in
  if (NANORTC_MAX_DATACHANNELS <=? i)%nat then Ok (dc, None) else
  _ ← get_channel dc i;
  Ok (NanoDc (<[i := zero_channel stream_id]> (dc_channels dc)) (S i), Some i).

Definition dc_init : nano_dc := NanoDc (replicate NANORTC_MAX_DATACHANNELS (zero_channel 0)) 0.

Definition dc_pending_channel (dc : nano_dc) : res (option nat) :=
  channel_scan (fun ch => negb (ch_pending ch =? 0) && negb (dc_state_eqb (ch_state ch) DC_CLOSED))
    (dc_channel_count dc) 0 dc.
Definition dc_has_pending_output (dc : nano_dc) : res bool :=
  p ← dc_pending_channel dc; Ok (match p with Some _ => true | None => false end).

(** * State machine *)

Definition set_pending (ch : nano_dc_channel) (p : Z) : nano_dc_channel :=
  Channel (ch_state ch) (ch_stream_id ch) (ch_label ch) (ch_protocol ch) (ch_channel_type ch) (ch_ordered ch)
    (ch_max_retransmits ch) p.
Definition set_state (ch : nano_dc_channel) (s : dc_state) : nano_dc_channel :=
  Channel s (ch_stream_id ch) (ch_label ch) (ch_protocol ch) (ch_channel_type ch) (ch_ordered ch)
    (ch_max_retransmits ch) (ch_pending ch).

(** A bounded copy into a string array, with its terminating NUL. *)
Definition copy_string (array : list Z) (s : list Z) : res (list Z) :=
  array ← wr array 0 s;
  wr array (length s) [0].

(** Handling an incoming OPEN for a stream without a channel. *)
Definition dc_accept_open (dc : nano_dc) (stream_id : Z) (open : dcep_open) : res (nano_dc * Z * bool) :=
  if (DCEP_CHANNEL_REXMIT <? Z.land (do_channel_type open) 0x7f) || (UINT16_MAX <? do_reliability_param open)
  then Ok (dc, NANORTC_ERR_NOT_IMPLEMENTED, false) else
  if (NANORTC_DC_LABEL_SIZE <=? length (do_protocol open))%nat then Ok (dc, NANORTC_ERR_BUFFER_TOO_SMALL, false) else
  '(dc, slot) ← dc_alloc_channel dc stream_id;
  match slot with
  | None => Ok (dc, NANORTC_ERR_BUFFER_TOO_SMALL, false)
  | Some i =>
      ch ← get_channel dc i;
      let copy_len := if (NANORTC_DC_LABEL_SIZE <=? length (do_label open))%nat
                      then (NANORTC_DC_LABEL_SIZE - 1)%nat else length (do_label open) in
      label ← rdn (do_label open) 0 copy_len;
      label ← copy_string (ch_label ch) label;
      protocol ← copy_string (ch_protocol ch) (do_protocol open);
      Ok (put_channel dc i
            (Channel DC_OPEN (ch_stream_id ch) label protocol (do_channel_type open)
               (Z.land (do_channel_type open) 0x80 =? 0) (u16 (do_reliability_param open)) DCEP_DATA_CHANNEL_ACK),
          NANORTC_OK, true)
  end.

(** The state, the return code and [*opened]. *)
Definition dc_handle_message (dc : nano_dc) (stream_id ppid : Z) (data : list Z) : res (nano_dc * Z * bool) :=
  if ppid =? DCEP_PPID_CONTROL then
    if (length data <? 1)%nat then Ok (dc, NANORTC_ERR_PARSE, false) else
    d0 ← rd8 data 0;
    if d0 =? DCEP_DATA_CHANNEL_OPEN then
      match dcep_parse_open data with
      | Fault => Fault
      | Err rc => Ok (dc, rc, false)
      | Ok open =>
          existing ← dc_find_channel dc stream_id;
          match existing with
          | Some i =>
              ch ← get_channel dc i;
              Ok (put_channel dc i (set_pending ch DCEP_DATA_CHANNEL_ACK), NANORTC_OK, false)
          | None => dc_accept_open dc stream_id open
          end
      end
    else if d0 =? DCEP_DATA_CHANNEL_ACK then
      found ← dc_find_channel dc stream_id;
      match found with
      | None => Ok (dc, NANORTC_OK, false)
      | Some i =>
          ch ← get_channel dc i;
          if dc_state_eqb (ch_state ch) DC_OPENING
          then Ok (put_channel dc i (set_state ch DC_OPEN), NANORTC_OK, true)
          else Ok (dc, NANORTC_OK, false)
      end
    else Ok (dc, NANORTC_ERR_PROTOCOL, false)
  else Ok (dc, NANORTC_OK, false).

(** Length of a string: up to its NUL or the bound. [cstr_len] reads the octet
    before testing the bound, as the label loop does; [cstr_len_checked] after. *)
Fixpoint cstr_len (n i : nat) (s : list Z) : res nat :=
  c ← rd8 s i;
  if c =? 0 then Ok i else
  match n with O => Ok i | S n => cstr_len n (S i) s end.
Fixpoint cstr_len_checked (n i : nat) (s : list Z) : res nat :=
  match n with
  | O => Ok i
  | S n => c ← rd8 s i; if c =? 0 then Ok i else cstr_len_checked n (S i) s
  end.

Definition dc_channel_type (ordered partial_reliability : bool) : Z :=
  if negb partial_reliability
  then if ordered then DCEP_CHANNEL_RELIABLE else DCEP_CHANNEL_RELIABLE_UNORDERED
  else if ordered then DCEP_CHANNEL_REXMIT else DCEP_CHANNEL_REXMIT_UNORDERED.

(** [label] and [protocol] are the objects the C strings lie in. *)
Definition dc_open_options (dc : nano_dc) (stream_id : Z) (label : list Z) (protocol : option (list Z))
    (ordered partial_reliability : bool) (max_retransmits : Z) : res (nano_dc * Z) :=
  protocol_len ← (match protocol with None => Ok 0%nat | Some p => cstr_len_checked NANORTC_DC_LABEL_SIZE 0 p end);
  if (NANORTC_DC_LABEL_SIZE <=? protocol_len)%nat then Ok (dc, NANORTC_ERR_BUFFER_TOO_SMALL) else
  '(dc, slot) ← dc_alloc_channel dc stream_id;
  match slot with
  | None => Ok (dc, NANORTC_ERR_BUFFER_TOO_SMALL)
  | Some i =>
      ch ← get_channel dc i;
      label_len ← cstr_len (NANORTC_DC_LABEL_SIZE - 1) 0 label;
      text ← rdn label 0 label_len;
      ch_lab ← copy_string (ch_label ch) text;
      proto ← (match protocol with Some p => rdn p 0 protocol_len | None => Ok [] end);
      ch_proto ← copy_string (ch_protocol ch) proto;
      Ok (put_channel dc i
            (Channel DC_OPENING (ch_stream_id ch) ch_lab ch_proto (dc_channel_type ordered partial_reliability)
               ordered max_retransmits DCEP_DATA_CHANNEL_OPEN), NANORTC_OK)
  end.
Definition dc_open (dc : nano_dc) (stream_id : Z) (label : list Z) (ordered : bool) (max_retransmits : Z)
  : res (nano_dc * Z) :=
  dc_open_options dc stream_id label None ordered (negb (max_retransmits =? 0)) max_retransmits.

(** The buffer, [*out_len] and [*stream_id]. *)
Definition dc_peek_output (dc : nano_dc) (buf : list Z) : res (list Z * nat * Z) :=
  p ← dc_pending_channel dc;
  match p with
  | None => Err NANORTC_ERR_NO_DATA
  | Some i =>
      ch ← get_channel dc i;
      label_len ← (if ch_pending ch =? DCEP_DATA_CHANNEL_OPEN
                   then cstr_len_checked NANORTC_DC_LABEL_SIZE 0 (ch_label ch) else Ok 0%nat);
      protocol_len ← (if ch_pending ch =? DCEP_DATA_CHANNEL_OPEN
                      then cstr_len_checked NANORTC_DC_LABEL_SIZE 0 (ch_protocol ch) else Ok 0%nat);
      let needed := if ch_pending ch =? DCEP_DATA_CHANNEL_ACK then 1%nat else (12 + label_len + protocol_len)%nat in
      if (length buf <? needed)%nat then Err NANORTC_ERR_BUFFER_TOO_SMALL else
      buf ← (if ch_pending ch =? DCEP_DATA_CHANNEL_ACK then wr buf 0 [DCEP_DATA_CHANNEL_ACK]
             else
               label ← rdn (ch_label ch) 0 label_len;
               protocol ← rdn (ch_protocol ch) 0 protocol_len;
               '(buf, _) ← dcep_encode_open buf (ch_channel_type ch) 0 (ch_max_retransmits ch) label protocol;
               Ok buf);
      Ok (buf, needed, ch_stream_id ch)
  end.

Definition dc_commit_output (dc : nano_dc) (stream_id : Z) : res nano_dc :=
  found ← dc_find_channel dc stream_id;
  match found with
  | None => Ok dc
  | Some i => ch ← get_channel dc i; Ok (put_channel dc i (set_pending ch 0))
  end.

(** * Stream ids and closing ([src/nano_rtc.c]) *)

(** The channel part of [nanortc_datachannel_close]. *)
Definition dc_close (dc : nano_dc) (id : Z) : res (nano_dc * Z) :=
  found ← dc_find_channel dc id;
  match found with
  | None => Ok (dc, NANORTC_ERR_INVALID_PARAM)
  | Some i => ch ← get_channel dc i; Ok (put_channel dc i (set_state ch DC_CLOSED), NANORTC_OK)
  end.

Fixpoint alloc_id_loop (n i : nat) (dc : nano_dc) (base max_id : Z) : res Z :=
  match n with
  | O => Ok max_id
  | S n =>
      ch ← get_channel dc i;
      let sid := ch_stream_id ch in
      alloc_id_loop n (S i) dc base
        (if (sid mod 2 =? base mod 2) && (max_id <=? sid) then u16 (sid + 2) else max_id)
  end.
Definition rtc_alloc_stream_id (is_server : bool) (dc : nano_dc) : res Z :=
  let base := if is_server then 1 else 0 in
  alloc_id_loop (dc_channel_count dc) 0 dc base base.

(** * Strings *)

(** The text of a C string, and its image in a [NANORTC_DC_LABEL_SIZE] array. *)
Fixpoint c_text (s : list Z) : list Z :=
  match s with [] => [] | c :: s => if c =? 0 then [] else c :: c_text s end.
Definition str_array (t : list Z) : list Z := t ++ replicate (NANORTC_DC_LABEL_SIZE - length t) 0.

Lemma c_text_split s : 0 ∈ s -> exists rest, s = c_text s ++ 0 :: rest.
Proof.
  induction s as [|c s IH]; intros H; [by apply elem_of_nil in H|]. cbn.
  destruct (Z.eqb_spec c 0) as [->|Hc]; [by exists s|].
  apply elem_of_cons in H as [?|H]; [congruence|]. destruct (IH H) as (rest & Hs).
  exists rest. cbn. by rewrite <- Hs.
Qed.
Lemma c_text_nonzero s : Forall (fun c => c <> 0) (c_text s).
Proof.
  induction s as [|c s IH]; cbn; [constructor|]. destruct (Z.eqb_spec c 0); [constructor|].
  by constructor.
Qed.
Lemma c_text_app t rest : Forall (fun c => c <> 0) t -> c_text (t ++ 0 :: rest) = t.
Proof.
  induction 1 as [|c t Hc _ IH]; cbn; [done|]. destruct (Z.eqb_spec c 0); [done|]. by rewrite IH.
Qed.

Section Cstr.
Context (t rest : list Z) (Ht : Forall (fun c => c <> 0) t).

Lemma cstr_read i :
  (i <= length t)%nat ->
  rd8 (t ++ 0 :: rest) i = Ok (nth i (t ++ 0 :: rest) 0) /\
  (nth i (t ++ 0 :: rest) 0 =? 0) = (i =? length t)%nat.
Proof using Ht.
  intros Hi. rewrite rd8_Ok by (rewrite length_app; cbn; lia). split; [done|].
  destruct (Nat.eqb_spec i (length t)) as [->|Hn].
  - by rewrite app_nth2, Nat.sub_diag by lia.
  - rewrite app_nth1 by lia. apply Z.eqb_neq. destruct (lookup_lt_is_Some_2 t i ltac:(lia)) as [x Hx].
    rewrite (nth_lookup_Some _ _ _ _ Hx). by eapply Forall_lookup_1 in Hx; [|exact Ht].
Qed.
Lemma cstr_len_Ok n i :
  (i <= length t)%nat -> cstr_len n i (t ++ 0 :: rest) = Ok (i + n `min` (length t - i))%nat.
Proof using Ht.
  revert i. induction n as [|n IH]; intros i Hi; cbn [cstr_len];
    destruct (cstr_read i Hi) as [-> Hz]; rewrite bind_Ok, Hz;
    destruct (Nat.eqb_spec i (length t)); try (f_equal; lia).
  rewrite IH by lia. f_equal. lia.
Qed.
Lemma cstr_len_checked_Ok n i :
  (i <= length t)%nat -> cstr_len_checked n i (t ++ 0 :: rest) = Ok (i + n `min` (length t - i))%nat.
Proof using Ht.
  revert i. induction n as [|n IH]; intros i Hi; cbn [cstr_len_checked]; [f_equal; lia|].
  destruct (cstr_read i Hi) as [-> Hz]; rewrite bind_Ok, Hz.
  destruct (Nat.eqb_spec i (length t)); [f_equal; lia|].
  rewrite IH by lia. f_equal. lia.
Qed.
End Cstr.

Lemma cstr_len_text n s : 0 ∈ s -> cstr_len n 0 s = Ok (n `min` length (c_text s))%nat.
Proof.
  intros H. destruct (c_text_split s H) as (rest & Hs). rewrite Hs at 1.
  rewrite cstr_len_Ok by (apply c_text_nonzero || lia). f_equal. lia.
Qed.
Lemma cstr_len_checked_text n s : 0 ∈ s -> cstr_len_checked n 0 s = Ok (n `min` length (c_text s))%nat.
Proof.
  intros H. destruct (c_text_split s H) as (rest & Hs). rewrite Hs at 1.
  rewrite cstr_len_checked_Ok by (apply c_text_nonzero || lia). f_equal. lia.
Qed.
Lemma rdn_text k s : 0 ∈ s -> (k <= length (c_text s))%nat -> rdn s 0 k = Ok (take k (c_text s)).
Proof.
  intros H Hk. destruct (c_text_split s H) as (rest & Hs). rewrite Hs at 1.
  rewrite rdn_Ok by (rewrite length_app; lia). rewrite drop_0. f_equal. rewrite take_app_le by lia. done.
Qed.

Lemma str_array_length t : (length t <= NANORTC_DC_LABEL_SIZE)%nat -> length (str_array t) = NANORTC_DC_LABEL_SIZE.
Proof. intros. unfold str_array. rewrite length_app, length_replicate. lia. Qed.
Lemma str_array_split t :
  (length t < NANORTC_DC_LABEL_SIZE)%nat ->
  str_array t = t ++ 0 :: replicate (NANORTC_DC_LABEL_SIZE - S (length t)) 0.
Proof.
  intros. unfold str_array. f_equal.
  by replace (NANORTC_DC_LABEL_SIZE - length t)%nat with (S (NANORTC_DC_LABEL_SIZE - S (length t))) by lia.
Qed.
Lemma str_array_nul t : (length t < NANORTC_DC_LABEL_SIZE)%nat -> 0 ∈ str_array t.
Proof. intros. rewrite str_array_split by done. apply elem_of_app. right. left. Qed.
Lemma str_array_text t :
  Forall (fun c => c <> 0) t -> (length t < NANORTC_DC_LABEL_SIZE)%nat -> c_text (str_array t) = t.
Proof. intros Ht Hl. rewrite str_array_split by done. by apply c_text_app. Qed.
Lemma str_array_bytes t : bytes t -> bytes (str_array t).
Proof. intros Ht. apply Forall_app_2; [done|]. apply Forall_replicate. auto with mach. Qed.
Lemma copy_string_zero t :
  (length t < NANORTC_DC_LABEL_SIZE)%nat ->
  copy_string (replicate NANORTC_DC_LABEL_SIZE 0) t = Ok (str_array t).
Proof.
  intros Hl. unfold copy_string. rewrite wr_0 by (rewrite length_replicate; lia). rewrite bind_Ok.
  rewrite drop_replicate, wr_append; [|done|rewrite length_replicate; cbn [length]; lia].
  rewrite <- app_assoc, drop_replicate. cbn [app length]. rewrite str_array_split by done.
  do 4 f_equal. lia.
Qed.

(** * The table *)

(** A channel in use, and one not closed. *)
Definition used (dc : nano_dc) (i : nat) (ch : nano_dc_channel) : Prop :=
  (i < dc_channel_count dc)%nat /\ dc_channels dc !! i = Some ch.
Definition live (dc : nano_dc) (i : nat) (ch : nano_dc_channel) : Prop :=
  used dc i ch /\ ch_state ch <> DC_CLOSED.
Definition is_text (array : list Z) : Prop :=
  bytes array /\ length array = NANORTC_DC_LABEL_SIZE /\ 0 ∈ array.
Record channel_ok (ch : nano_dc_channel) : Prop := {
  co_id : is_u16 (ch_stream_id ch);
  co_label : is_text (ch_label ch);
  co_protocol : is_text (ch_protocol ch);
  co_type : is_u8 (ch_channel_type ch);
  co_max : is_u16 (ch_max_retransmits ch);
  co_pending : ch_pending ch = 0 \/ ch_pending ch = DCEP_DATA_CHANNEL_OPEN \/ ch_pending ch = DCEP_DATA_CHANNEL_ACK
}.
(** A well-formed table, and one with at most one open channel per stream id. *)
Record dc_wf (dc : nano_dc) : Prop := {
  dk_table : length (dc_channels dc) = NANORTC_MAX_DATACHANNELS;
  dk_count : (dc_channel_count dc <= NANORTC_MAX_DATACHANNELS)%nat;
  dk_channels : forall i ch, used dc i ch -> channel_ok ch
}.
Definition dc_distinct (dc : nano_dc) : Prop :=
  forall i j ci cj, live dc i ci -> live dc j cj -> ch_stream_id ci = ch_stream_id cj -> i = j.
Record dc_ok (dc : nano_dc) : Prop := { dk_wf :> dc_wf dc; dk_distinct : dc_distinct dc }.
#[local] Hint Extern 0 (dc_wf _) => apply dk_wf; assumption : core.

Lemma used_get dc i : dc_wf dc -> (i < dc_channel_count dc)%nat -> exists ch, get_channel dc i = Ok ch /\ used dc i ch.
Proof.
  intros [Ht Hc _] Hi. destruct (lookup_lt_is_Some_2 (dc_channels dc) i ltac:(lia)) as [ch Hch].
  exists ch. unfold get_channel, used. by rewrite Hch.
Qed.
Lemma get_used dc i ch : used dc i ch -> get_channel dc i = Ok ch.
Proof. intros [_ H]. unfold get_channel. by rewrite H. Qed.

Definition first_such (p : nano_dc_channel -> bool) (dc : nano_dc) (r : option nat) : Prop :=
  match r with
  | Some i => (exists ch, used dc i ch /\ p ch = true) /\ (forall j cj, used dc j cj -> (j < i)%nat -> p cj = false)
  | None => forall j cj, used dc j cj -> p cj = false
  end.
Lemma channel_scan_spec p n i dc :
  dc_wf dc -> (i + n = dc_channel_count dc)%nat ->
  (forall j cj, used dc j cj -> (j < i)%nat -> p cj = false) ->
  exists r, channel_scan p n i dc = Ok r /\ first_such p dc r.
Proof.
  intros Hok. revert i. induction n as [|n IH]; intros i Hi Hb; cbn [channel_scan].
  - exists None. split; [done|]. intros j cj Hj. apply (Hb j); [done|]. destruct Hj. lia.
  - destruct (used_get dc i Hok ltac:(lia)) as (ch & -> & Hch). rewrite bind_Ok.
    destruct (p ch) eqn:Hp; [by exists (Some i); split; [|split; [exists ch|]]|].
    apply IH; [lia|]. intros j cj Hj Hji. destruct (decide (j = i)) as [->|]; [|apply (Hb j); [done|lia]].
    destruct Hj as [_ Hj], Hch as [_ Hch]. by replace cj with ch by congruence.
Qed.

Lemma live_test dc i ch :
  used dc i ch -> live dc i ch <-> negb (dc_state_eqb (ch_state ch) DC_CLOSED) = true.
Proof.
  intros Hu. unfold live, dc_state_eqb. rewrite negb_true_iff, bool_decide_eq_false. tauto.
Qed.
Lemma find_spec dc sid :
  dc_wf dc ->
  exists r, dc_find_channel dc sid = Ok r /\
    match r with
    | Some i => exists ch, live dc i ch /\ ch_stream_id ch = sid
    | None => forall i ch, live dc i ch -> ch_stream_id ch <> sid
    end.
Proof.
  intros Hok. unfold dc_find_channel.
  destruct (channel_scan_spec (fun ch => (ch_stream_id ch =? sid) && negb (dc_state_eqb (ch_state ch) DC_CLOSED))
              (dc_channel_count dc) 0 dc Hok) as (r & -> & Hr); [lia | intros; lia|].
  exists r. split; [done|]. destruct r as [i|].
  - destruct Hr as [(ch & Hu & [Hid Hs]%andb_prop) _]. exists ch. rewrite live_test by done.
    split; [done|]. by apply Z.eqb_eq.
  - intros i ch Hl Hid. assert (Hu : used dc i ch) by apply Hl. apply Hr in Hu as Hf.
    rewrite Hid, Z.eqb_refl in Hf. cbn in Hf. rewrite live_test in Hl by done. congruence.
Qed.
Lemma find_live dc i ch : dc_ok dc -> live dc i ch -> dc_find_channel dc (ch_stream_id ch) = Ok (Some i).
Proof.
  intros Hok Hl. destruct (find_spec dc (ch_stream_id ch) Hok) as (r & -> & Hr). destruct r as [j|].
  - destruct Hr as (cj & Hj & Hid). do 2 f_equal. by eapply dk_distinct.
  - by destruct (Hr i ch Hl).
Qed.
Lemma find_fresh dc sid :
  dc_wf dc -> (forall i ch, live dc i ch -> ch_stream_id ch <> sid) -> dc_find_channel dc sid = Ok None.
Proof.
  intros Hok Hf. destruct (find_spec dc sid Hok) as (r & -> & Hr). destruct r as [i|]; [|done].
  destruct Hr as (ch & Hl & Hid). by destruct (Hf i ch Hl).
Qed.

(** Adding a channel and updating one. *)
Definition dc_add (dc : nano_dc) (ch : nano_dc_channel) : nano_dc :=
  NanoDc (<[dc_channel_count dc := ch]> (dc_channels dc)) (S (dc_channel_count dc)).

Lemma used_add dc ch i ci :
  dc_wf dc -> (dc_channel_count dc < NANORTC_MAX_DATACHANNELS)%nat ->
  used (dc_add dc ch) i ci <-> (i = dc_channel_count dc /\ ci = ch) \/ used dc i ci.
Proof.
  intros Hok Hc. pose proof (dk_table _ Hok). unfold used, dc_add; cbn.
  destruct (decide (i = dc_channel_count dc)) as [->|Hn].
  - rewrite list_lookup_insert_eq by lia. split; [intros [_ [= ->]]; by left | intros [[_ ->]|[? _]]; [split; [lia|done]|lia]].
  - rewrite list_lookup_insert_ne by done. split; [intros [? ?]; right; split; [lia|done] | intros [[? _]|[? ?]]; [done|split; [lia|done]]].
Qed.
Lemma live_add dc ch i ci :
  dc_wf dc -> (dc_channel_count dc < NANORTC_MAX_DATACHANNELS)%nat -> ch_state ch <> DC_CLOSED ->
  live (dc_add dc ch) i ci <-> (i = dc_channel_count dc /\ ci = ch) \/ live dc i ci.
Proof. intros Hok Hc Hs. unfold live. rewrite used_add by done.
  split; [intros [[[-> ->]|?] ?]; [by left | by right] | intros [[-> ->]|[? ?]]; split; auto].
Qed.
Lemma dc_add_wf dc ch :
  dc_wf dc -> (dc_channel_count dc < NANORTC_MAX_DATACHANNELS)%nat -> channel_ok ch -> dc_wf (dc_add dc ch).
Proof.
  intros Hok Hc Hch. split.
  - cbn. rewrite length_insert. apply dk_table, Hok.
  - cbn. lia.
  - intros i ci. rewrite used_add by done. intros [[_ ->]|Hu]; [done|]. by eapply dk_channels.
Qed.
Lemma dc_add_distinct dc ch :
  dc_ok dc -> (dc_channel_count dc < NANORTC_MAX_DATACHANNELS)%nat -> ch_state ch <> DC_CLOSED ->
  (forall i ci, live dc i ci -> ch_stream_id ci <> ch_stream_id ch) -> dc_distinct (dc_add dc ch).
Proof.
  intros Hok Hc Hs Hf i j ci cj. rewrite !live_add by done. intros [[-> ->]|Hi] [[-> ->]|Hj] He; [done | | |].
  - by destruct (Hf j cj Hj).
  - by destruct (Hf i ci Hi).
  - by eapply dk_distinct.
Qed.
Lemma dc_add_ok dc ch :
  dc_ok dc -> (dc_channel_count dc < NANORTC_MAX_DATACHANNELS)%nat ->
  channel_ok ch -> ch_state ch <> DC_CLOSED ->
  (forall i ci, live dc i ci -> ch_stream_id ci <> ch_stream_id ch) ->
  dc_ok (dc_add dc ch).
Proof. intros. split; [by apply dc_add_wf | by apply dc_add_distinct]. Qed.

Lemma used_put dc i ch0 ch j cj :
  used dc i ch0 -> used (put_channel dc i ch) j cj <-> (j = i /\ cj = ch) \/ (j <> i /\ used dc j cj).
Proof.
  intros [Hi Hl]. unfold used, put_channel; cbn. destruct (decide (j = i)) as [->|Hn].
  - apply lookup_lt_Some in Hl. rewrite list_lookup_insert_eq by done.
    split; [intros [_ [= ->]]; by left | intros [[_ ->]|[? _]]; done].
  - rewrite list_lookup_insert_ne by done.
    split; [intros [? ?]; by right | intros [[? _]|[_ ?]]; done].
Qed.
Lemma put_channel_wf dc i ch0 ch : dc_wf dc -> live dc i ch0 -> channel_ok ch -> dc_wf (put_channel dc i ch).
Proof.
  intros Hok [Hu Hs] Hch. split.
  - cbn. rewrite length_insert. apply dk_table, Hok.
  - apply (dk_count _ Hok).
  - intros j cj. rewrite used_put by done. intros [[_ ->]|[_ Hj]]; [done|]. by eapply dk_channels.
Qed.
Lemma put_channel_distinct dc i ch0 ch :
  dc_distinct dc -> live dc i ch0 -> ch_stream_id ch = ch_stream_id ch0 -> dc_distinct (put_channel dc i ch).
Proof.
  intros Hd [Hu Hs] Hid.
  assert (forall j cj, live (put_channel dc i ch) j cj -> exists cj', live dc j cj' /\ ch_stream_id cj' = ch_stream_id cj) as Hl.
  { intros j cj [Hj Hsj]. rewrite used_put in Hj by done. destruct Hj as [[-> ->]|[_ Hj]]; [by exists ch0 | by exists cj]. }
  intros j k cj ck Hj Hk He. destruct (Hl _ _ Hj) as (cj' & ? & ?), (Hl _ _ Hk) as (ck' & ? & ?).
  eapply Hd; [done..|congruence].
Qed.
Lemma put_channel_ok dc i ch0 ch :
  dc_ok dc -> live dc i ch0 -> channel_ok ch -> ch_stream_id ch = ch_stream_id ch0 ->
  dc_ok (put_channel dc i ch).
Proof. intros [Hw Hd] **. split; [by eapply put_channel_wf | by eapply put_channel_distinct]. Qed.
Lemma set_pending_ok ch p :
  channel_ok ch -> p = 0 \/ p = DCEP_DATA_CHANNEL_OPEN \/ p = DCEP_DATA_CHANNEL_ACK -> channel_ok (set_pending ch p).
Proof. intros []. by split. Qed.
Lemma set_state_ok ch s : channel_ok ch -> channel_ok (set_state ch s).
Proof. intros []. by split. Qed.
Lemma dc_init_ok : dc_ok dc_init.
Proof.
  split; [split; [done | cbn; lia|]|]; intros ?; intros; unfold live, used, dc_init in *; cbn in *; lia.
Qed.

(** How a channel may evolve: its identity and parameters are fixed and its
    state goes forward, from opening to open to closed. *)
Definition state_rank (s : dc_state) : nat :=
  match s with DC_OPENING => 0 | DC_OPEN => 1 | DC_CLOSED => 2 end.
Definition same_channel (c d : nano_dc_channel) : Prop :=
  ch_stream_id c = ch_stream_id d /\ ch_label c = ch_label d /\ ch_protocol c = ch_protocol d /\
  ch_channel_type c = ch_channel_type d /\ ch_ordered c = ch_ordered d /\
  ch_max_retransmits c = ch_max_retransmits d /\ (state_rank (ch_state c) <= state_rank (ch_state d))%nat.
Definition evolves (dc dc' : nano_dc) : Prop :=
  forall i ch, used dc i ch -> exists ch', used dc' i ch' /\ same_channel ch ch'.

#[export] Instance same_channel_preorder : PreOrder same_channel.
Proof.
  split.
  - by intros c; unfold same_channel.
  - unfold same_channel. intros c d e (?&?&?&?&?&?&?) (?&?&?&?&?&?&?). split_and!; congruence || lia.
Qed.
#[export] Instance evolves_preorder : PreOrder evolves.
Proof.
  split; [intros dc i ch Hu; by exists ch|]. intros a b c Hab Hbc i ch Hu.
  destruct (Hab i ch Hu) as (ch' & Hu' & ?), (Hbc i ch' Hu') as (ch'' & ? & ?).
  exists ch''. split; [done|]. by etrans.
Qed.
Lemma evolves_add dc ch :
  dc_wf dc -> (dc_channel_count dc < NANORTC_MAX_DATACHANNELS)%nat -> evolves dc (dc_add dc ch).
Proof. intros Hok Hc i ci Hu. exists ci. rewrite used_add by done. split; [by right|done]. Qed.
Lemma evolves_put dc i ch0 ch : used dc i ch0 -> same_channel ch0 ch -> evolves dc (put_channel dc i ch).
Proof.
  intros Hu Hs j cj Hj. destruct (decide (j = i)) as [->|Hn].
  - exists ch. rewrite used_put by done. split; [by left|].
    destruct Hu as [_ Hu], Hj as [_ Hj]. by replace cj with ch0 by congruence.
  - exists cj. rewrite used_put by done. split; [by right|done].
Qed.

(** * Each operation *)

Definition opened_channel (sid : Z) (label protocol : list Z) (ordered partial : bool) (mr : Z) : nano_dc_channel :=
  Channel DC_OPENING sid (str_array (take (NANORTC_DC_LABEL_SIZE - 1) label)) (str_array protocol)
    (dc_channel_type ordered partial) ordered mr DCEP_DATA_CHANNEL_OPEN.
Definition accepted_channel (sid : Z) (open : dcep_open) : nano_dc_channel :=
  Channel DC_OPEN sid (str_array (take (NANORTC_DC_LABEL_SIZE - 1) (do_label open))) (str_array (do_protocol open))
    (do_channel_type open) (Z.land (do_channel_type open) 0x80 =? 0) (u16 (do_reliability_param open))
    DCEP_DATA_CHANNEL_ACK.

Lemma dc_alloc_spec dc sid :
  dc_wf dc ->
  dc_alloc_channel dc sid =
  if (NANORTC_MAX_DATACHANNELS <=? dc_channel_count dc)%nat then Ok (dc, None)
  else Ok (dc_add dc (zero_channel sid), Some (dc_channel_count dc)).
Proof.
  intros Hok. unfold dc_alloc_channel. destruct (Nat.leb_spec NANORTC_MAX_DATACHANNELS (dc_channel_count dc)) as [|Hc]; [done|].
  pose proof (dk_table _ Hok). unfold get_channel.
  by destruct (lookup_lt_is_Some_2 (dc_channels dc) (dc_channel_count dc) ltac:(lia)) as [ch ->].
Qed.
Lemma get_added dc ch :
  dc_wf dc -> (dc_channel_count dc < NANORTC_MAX_DATACHANNELS)%nat ->
  get_channel (dc_add dc ch) (dc_channel_count dc) = Ok ch.
Proof. intros Hok Hc. apply get_used. rewrite used_add by done. by left. Qed.
Lemma put_added dc ch ch' : put_channel (dc_add dc ch) (dc_channel_count dc) ch' = dc_add dc ch'.
Proof. unfold put_channel, dc_add; cbn. by rewrite list_insert_insert_eq. Qed.

Lemma dc_open_options_eq dc sid label protocol ordered partial mr :
  dc_wf dc -> 0 ∈ label -> (forall p, protocol = Some p -> 0 ∈ p) ->
  let proto := match protocol with Some p => c_text p | None => [] end in
  dc_open_options dc sid label protocol ordered partial mr =
  if (NANORTC_DC_LABEL_SIZE <=? length proto)%nat || (NANORTC_MAX_DATACHANNELS <=? dc_channel_count dc)%nat
  then Ok (dc, NANORTC_ERR_BUFFER_TOO_SMALL)
  else Ok (dc_add dc (opened_channel sid (c_text label) proto ordered partial mr), NANORTC_OK).
Proof.
  intros Hok Hl Hp proto. unfold dc_open_options.
  assert ((match protocol with None => Ok 0%nat | Some p => cstr_len_checked NANORTC_DC_LABEL_SIZE 0 p end)
          = Ok (NANORTC_DC_LABEL_SIZE `min` length proto)%nat) as ->.
  { destruct protocol as [p|]; [|done]. apply cstr_len_checked_text. by apply Hp. }
  rewrite bind_Ok. destruct (Nat.leb_spec NANORTC_DC_LABEL_SIZE (length proto)) as [Hlong|Hlen]; cbn [orb].
  { by rewrite (proj2 (Nat.leb_le _ _)) by lia. }
  rewrite (Nat.min_r NANORTC_DC_LABEL_SIZE) by lia. rewrite (proj2 (Nat.leb_gt _ _)) by lia.
  rewrite dc_alloc_spec by done. destruct (Nat.leb_spec NANORTC_MAX_DATACHANNELS (dc_channel_count dc)) as [|Hc]; [done|].
  rewrite bind_Ok, get_added by done. rewrite bind_Ok, cstr_len_text by done. rewrite bind_Ok.
  rewrite rdn_text by (done || lia). rewrite bind_Ok. cbn [ch_label ch_protocol zero_channel].
  rewrite copy_string_zero by (rewrite length_take; unfold NANORTC_DC_LABEL_SIZE; lia). rewrite bind_Ok.
  assert ((match protocol with Some p => rdn p 0 (length proto) | None => Ok [] end) = Ok proto) as ->.
  { destruct protocol as [p|]; [|done]. rewrite rdn_text by (done || by apply Hp). by rewrite firstn_all. }
  rewrite bind_Ok, copy_string_zero by done. rewrite bind_Ok, put_added. unfold opened_channel.
  assert (take (NANORTC_DC_LABEL_SIZE - 1) (c_text label)
          = take ((NANORTC_DC_LABEL_SIZE - 1) `min` length (c_text label)) (c_text label)) as ->; [|done].
  destruct (le_lt_dec (NANORTC_DC_LABEL_SIZE - 1) (length (c_text label))); [by rewrite Nat.min_l by lia|].
  rewrite Nat.min_r by lia. by rewrite firstn_all, take_ge by lia.
Qed.

Lemma dc_accept_open_eq dc sid open :
  dc_wf dc ->
  dc_accept_open dc sid open =
  if (DCEP_CHANNEL_REXMIT <? Z.land (do_channel_type open) 0x7f) || (UINT16_MAX <? do_reliability_param open)
  then Ok (dc, NANORTC_ERR_NOT_IMPLEMENTED, false)
  else if (NANORTC_DC_LABEL_SIZE <=? length (do_protocol open))%nat || (NANORTC_MAX_DATACHANNELS <=? dc_channel_count dc)%nat
  then Ok (dc, NANORTC_ERR_BUFFER_TOO_SMALL, false)
  else Ok (dc_add dc (accepted_channel sid open), NANORTC_OK, true).
Proof.
  intros Hok. unfold dc_accept_open. destruct (_ || _); [done|].
  destruct (Nat.leb_spec NANORTC_DC_LABEL_SIZE (length (do_protocol open))) as [|Hp]; cbn [orb]; [done|].
  rewrite dc_alloc_spec by done. destruct (Nat.leb_spec NANORTC_MAX_DATACHANNELS (dc_channel_count dc)) as [|Hc]; [done|].
  rewrite bind_Ok, get_added, bind_Ok by done. cbv zeta. cbn [ch_label ch_protocol zero_channel ch_stream_id].
  set (n := if (NANORTC_DC_LABEL_SIZE <=? length (do_label open))%nat then _ else _).
  assert (n <= length (do_label open) /\ n < NANORTC_DC_LABEL_SIZE /\
          take n (do_label open) = take (NANORTC_DC_LABEL_SIZE - 1) (do_label open))%nat as (Hn & Hn' & Ht).
  { unfold n, NANORTC_DC_LABEL_SIZE. destruct (Nat.leb_spec 32 (length (do_label open))); split_and!; try lia; [done|].
    by rewrite firstn_all, take_ge by lia. }
  rewrite rdn_Ok by lia. rewrite drop_0, bind_Ok, (copy_string_zero (take _ _)) by (rewrite length_take; lia).
  rewrite bind_Ok, copy_string_zero by done. rewrite bind_Ok, put_added. unfold accepted_channel. by rewrite Ht.
Qed.

Lemma is_text_str_array t : bytes t -> (length t < NANORTC_DC_LABEL_SIZE)%nat -> is_text (str_array t).
Proof.
  intros. split_and!; [by apply str_array_bytes | apply str_array_length; lia | by apply str_array_nul].
Qed.
Lemma c_text_bytes s : bytes s -> bytes (c_text s).
Proof. induction 1; cbn; [constructor|]. destruct (_ =? _); by constructor. Qed.

(** What one operation may do to the table.  [id_parity] is that of the ids we
    draw; [ids_below] says that those in use are low enough for the next one not
    to wrap.  Where the operation is [tame], an id it adds is new. *)
Definition id_parity (is_server : bool) : Z := if is_server then 1 else 0.
Definition id_below (is_server : bool) (i : nat) (sid : Z) : Prop :=
  sid mod 2 = id_parity is_server -> sid <= 65519 + 2 * Z.of_nat i.
Definition ids_below (is_server : bool) (dc : nano_dc) : Prop :=
  forall i ch, used dc i ch -> id_below is_server i (ch_stream_id ch).
Inductive change (is_server : bool) (tame : Prop) (dc : nano_dc) : nano_dc -> Prop :=
| change_none : change is_server tame dc dc
| change_put i c0 c : live dc i c0 -> channel_ok c -> same_channel c0 c -> change is_server tame dc (put_channel dc i c)
| change_add c :
    (dc_channel_count dc < NANORTC_MAX_DATACHANNELS)%nat -> channel_ok c -> ch_state c <> DC_CLOSED ->
    (tame -> (forall i ci, live dc i ci -> ch_stream_id ci <> ch_stream_id c) /\
             id_below is_server (dc_channel_count dc) (ch_stream_id c)) -> change is_server tame dc (dc_add dc c).

Lemma change_preserves is_server tame dc dc' :
  dc_wf dc -> (tame -> dc_distinct dc /\ ids_below is_server dc) -> change is_server tame dc dc' ->
  dc_wf dc' /\ (tame -> dc_distinct dc' /\ ids_below is_server dc') /\ evolves dc dc'.
Proof.
  intros Hok Htame Hc. destruct Hc as [|i c0 c Hl Hc Hs|c Hn Hc Hs Hf].
  - split_and!; [done..|reflexivity].
  - split_and!; [by eapply put_channel_wf | | by eapply evolves_put; [apply Hl|]].
    intros Ht. destruct (Htame Ht) as [Hd Hids]. destruct Hs as [Hid _]. split; [by eapply put_channel_distinct|].
    intros j cj. rewrite used_put by apply Hl. intros [[-> ->]|[_ Hj]]; [|by apply Hids].
    rewrite <- Hid. apply Hids, Hl.
  - split_and!; [by apply dc_add_wf | | by apply evolves_add].
    intros Ht. destruct (Htame Ht) as [Hd Hids], (Hf Ht) as [Hf' Hb]. split; [by apply dc_add_distinct|].
    intros j cj. rewrite used_add by done. intros [[-> ->]|Hj]; [done | by apply Hids].
Qed.

Lemma dcep_parse_open_wp data :
  bytes data ->
  wp (dcep_parse_open data) (fun o =>
    is_u8 (do_channel_type o) /\ is_u32 (do_reliability_param o) /\ bytes (do_label o) /\ bytes (do_protocol o)).
Proof.
  intros Hb. unfold dcep_parse_open. cbv zeta. apply wp_if; [intros; exact I|]. intros Hl; bool_facts.
  wp_step. wp_step; [lia|]. apply wp_if; [intros; exact I|]. intros _.
  wp_step. wp_step; [lia|]. do 4 (apply wp_bind; wp_wire; [lia|]). apply wp_if; [intros; exact I|].
  intros [Hlab Hpro]%orb_false_elim. bool_facts.
  set (ll := Z.to_nat _) in *. set (pl := Z.to_nat (val16 (nth 10 _ _) _)) in *.
  apply wp_bind. apply (wp_mono _ bytes); [apply wp_if; intros _; [|constructor]|].
  { rewrite rdn_Ok by lia. by apply Forall_take, Forall_drop. }
  intros label Hlabel. apply wp_bind. apply (wp_mono _ bytes); [apply wp_if; intros _; [|constructor]|].
  { rewrite rdn_Ok by lia. by apply Forall_take, Forall_drop. }
  intros protocol Hprotocol. cbn. auto.
Qed.

Lemma accepted_channel_ok sid o :
  is_u16 sid -> is_u8 (do_channel_type o) -> bytes (do_label o) -> bytes (do_protocol o) ->
  (length (do_protocol o) < NANORTC_DC_LABEL_SIZE)%nat -> channel_ok (accepted_channel sid o).
Proof.
  intros. split; cbn; auto with mach.
  - apply is_text_str_array; [by apply Forall_take|]. rewrite length_take. unfold NANORTC_DC_LABEL_SIZE. lia.
  - by apply is_text_str_array.
Qed.
Lemma opened_channel_ok sid label protocol ordered partial mr :
  is_u16 sid -> is_u16 mr -> bytes label -> bytes protocol -> (length protocol < NANORTC_DC_LABEL_SIZE)%nat ->
  channel_ok (opened_channel sid label protocol ordered partial mr).
Proof.
  intros. split; cbn; auto.
  - apply is_text_str_array; [by apply Forall_take|]. rewrite length_take. unfold NANORTC_DC_LABEL_SIZE. lia.
  - by apply is_text_str_array.
  - unfold dc_channel_type. destruct ordered, partial; by vm_compute.
Qed.

Lemma same_pending ch p : same_channel ch (set_pending ch p).
Proof. by unfold same_channel. Qed.

Lemma dc_handle_message_change is_server (tame : Prop) dc sid ppid data :
  dc_wf dc -> bytes data -> is_u16 sid -> (tame -> id_below is_server 0 sid) ->
  exists dc' rc opened, dc_handle_message dc sid ppid data = Ok (dc', rc, opened) /\ change is_server tame dc dc'.
Proof.
  intros Hok Hb Hsid Htame. unfold dc_handle_message.
  destruct (ppid =? DCEP_PPID_CONTROL); [|by repeat eexists; constructor].
  destruct (Nat.ltb_spec (length data) 1) as [|Hlen]; [by repeat eexists; constructor|].
  rewrite rd8_Ok, bind_Ok by lia. destruct (find_spec dc sid Hok) as (r & Hfind & Hr).
  destruct (_ =? DCEP_DATA_CHANNEL_OPEN).
  - pose proof (dcep_parse_open_wp data Hb) as Hp. destruct (dcep_parse_open data) as [o|e|]; [|by repeat eexists; constructor|done].
    cbn in Hp. destruct Hp as (Ht & _ & Hlb & Hpr). rewrite Hfind, bind_Ok. destruct r as [i|].
    + destruct Hr as (ch & Hl & _). erewrite get_used, bind_Ok by apply Hl. do 3 eexists. split; [done|].
      eapply change_put; [done| |apply same_pending]. apply set_pending_ok; [eapply dk_channels; [done|apply Hl]|tauto].
    + rewrite dc_accept_open_eq by done. destruct (_ || _); [by repeat eexists; constructor|].
      destruct (_ || _) eqn:Hg; [by repeat eexists; constructor|]. apply orb_false_elim in Hg as [Hp Hc]. bool_facts.
      do 3 eexists. split; [done|]. apply change_add; [done | | done |].
      { by apply accepted_channel_ok. }
      intros Htm. split; [done|]. intros Hpar. specialize (Htame Htm Hpar). cbn. lia.
  - destruct (_ =? DCEP_DATA_CHANNEL_ACK); [|by repeat eexists; constructor]. rewrite Hfind, bind_Ok.
    destruct r as [i|]; [|by repeat eexists; constructor]. destruct Hr as (ch & Hl & _).
    erewrite get_used, bind_Ok by apply Hl. destruct (dc_state_eqb (ch_state ch) DC_OPENING) eqn:Hs; [|by repeat eexists; constructor].
    do 3 eexists. split; [done|]. apply bool_decide_eq_true in Hs. eapply change_put; [done| |].
    + apply set_state_ok. eapply dk_channels; [done|apply Hl].
    + unfold same_channel; cbn. rewrite Hs. cbn. split_and!; try done. lia.
Qed.

Lemma alloc_id_loop_spec is_server dc (base := id_parity is_server) n i m :
  dc_wf dc -> ids_below is_server dc -> (i + n = dc_channel_count dc)%nat ->
  m mod 2 = base -> 0 <= m <= 65519 + 2 * Z.of_nat i ->
  (forall j cj, used dc j cj -> (j < i)%nat -> ch_stream_id cj mod 2 = base -> ch_stream_id cj < m) ->
  exists r, alloc_id_loop n i dc base m = Ok r /\ r mod 2 = base /\
    0 <= r <= 65519 + 2 * Z.of_nat (dc_channel_count dc) /\
    (forall j cj, used dc j cj -> ch_stream_id cj mod 2 = base -> ch_stream_id cj < r).
Proof.
  intros Hok Hids. assert (base mod 2 = base) as Hbase by (unfold base; by destruct is_server).
  revert i m. induction n as [|n IH]; intros i m Hi Hm Hr Hb; cbn [alloc_id_loop].
  - exists m. split_and!; [done | done | lia | lia |]. intros j cj Hj. eapply Hb; [done|]. destruct Hj. lia.
  - destruct (used_get dc i Hok ltac:(lia)) as (ch & -> & Hch). rewrite bind_Ok. cbv zeta. rewrite Hbase.
    pose proof (Hids _ _ Hch) as Hlow. pose proof (co_id _ (dk_channels _ Hok _ _ Hch)) as Hid.
    pose proof (dk_count _ Hok) as Hcount. unfold NANORTC_MAX_DATACHANNELS in Hcount.
    assert (forall j cj, used dc j cj -> (j < S i)%nat -> (j < i)%nat \/ cj = ch) as Hsplit.
    { intros j cj [? Hj] ?. destruct (decide (j = i)) as [->|]; [right|left; lia]. destruct Hch. congruence. }
    destruct (_ && _) eqn:Hg; apply IH; try lia.
    + apply andb_prop in Hg as [Hpar Hge]. bool_facts. specialize (Hlow Hpar). rewrite u16_id by mach. fold base in Hpar. mach.
    + apply andb_prop in Hg as [Hpar Hge]. bool_facts. specialize (Hlow Hpar). rewrite u16_id by mach. mach.
    + apply andb_prop in Hg as [Hpar Hge]. bool_facts. specialize (Hlow Hpar). rewrite u16_id by mach.
      intros j cj Hj Hlt Hp. destruct (Hsplit _ _ Hj Hlt) as [Hji| ->]; [|lia].
      specialize (Hb _ _ Hj Hji Hp). lia.
    + intros j cj Hj Hlt Hp. destruct (Hsplit _ _ Hj Hlt) as [Hji| ->]; [by eapply Hb|].
      apply andb_false_iff in Hg as [Hg|Hg]; bool_facts; [congruence | lia].
Qed.
Lemma alloc_id_loop_u16 dc base n i m :
  dc_wf dc -> (i + n = dc_channel_count dc)%nat -> is_u16 m -> exists r, alloc_id_loop n i dc base m = Ok r /\ is_u16 r.
Proof.
  intros Hok. revert i m. induction n as [|n IH]; intros i m Hi Hm; cbn [alloc_id_loop]; [by exists m|].
  destruct (used_get dc i Hok ltac:(lia)) as (ch & -> & Hch). rewrite bind_Ok. cbv zeta. destruct (_ && _); apply IH; (lia || mach).
Qed.
Lemma rtc_alloc_stream_id_spec is_server (tame : Prop) dc :
  dc_wf dc -> (tame -> ids_below is_server dc) ->
  exists sid, rtc_alloc_stream_id is_server dc = Ok sid /\ is_u16 sid /\
    (tame -> (forall i ch, used dc i ch -> ch_stream_id ch <> sid) /\ id_below is_server (dc_channel_count dc) sid).
Proof.
  intros Hok Htame. unfold rtc_alloc_stream_id. cbv zeta. fold (id_parity is_server).
  assert (id_parity is_server mod 2 = id_parity is_server /\ 0 <= id_parity is_server <= 1) as [Hm Hr] by (split; [by destruct is_server | destruct is_server; cbn; lia]).
  destruct (alloc_id_loop_u16 dc (id_parity is_server) (dc_channel_count dc) 0 (id_parity is_server)) as (sid & Hs & Hu); [done | lia | mach |].
  exists sid. split; [done|]. split; [done|]. intros Ht.
  destruct (alloc_id_loop_spec is_server dc (dc_channel_count dc) 0 (id_parity is_server)) as (sid' & Hs' & Hp & Hb & Hf); [done | by apply Htame | lia | done | lia | lia|].
  assert (sid' = sid) as -> by congruence. split; [|intros _; lia]. intros i ch Hi He. specialize (Hf i ch Hi). rewrite He in Hf. lia.
Qed.

(** The arguments of the API: C strings of octets and a 16-bit retransmission count. *)
Definition is_cstring (s : list Z) : Prop := bytes s /\ 0 ∈ s.

Lemma dc_open_options_change is_server (tame : Prop) dc sid label protocol ordered partial mr :
  dc_wf dc -> is_cstring label -> (forall p, protocol = Some p -> is_cstring p) -> is_u16 mr ->
  is_u16 sid ->
  (tame -> (forall i ch, used dc i ch -> ch_stream_id ch <> sid) /\ id_below is_server (dc_channel_count dc) sid) ->
  exists dc' rc, dc_open_options dc sid label protocol ordered partial mr = Ok (dc', rc) /\ change is_server tame dc dc'.
Proof.
  intros Hok [Hlb Hl] Hp Hmr Hsid Hf. rewrite dc_open_options_eq; [|done|done|intros p ->; by apply Hp].
  destruct (_ || _) eqn:Hg; [by repeat eexists; constructor|]. apply orb_false_elim in Hg as [Hpl Hc]. bool_facts.
  do 2 eexists. split; [done|]. apply change_add; cbn; [done | | done | intros Ht; destruct (Hf Ht) as [Hn Hb]; split; [intros i ci [Hu _]; by eapply Hn | done]].
  apply opened_channel_ok; [done | done | by apply c_text_bytes | | done].
  destruct protocol as [p|]; [|constructor]. by apply c_text_bytes, (Hp p).
Qed.

Lemma dc_commit_change is_server tame dc sid :
  dc_wf dc -> exists dc', dc_commit_output dc sid = Ok dc' /\ change is_server tame dc dc'.
Proof.
  intros Hok. unfold dc_commit_output. destruct (find_spec dc sid Hok) as (r & -> & Hr). rewrite bind_Ok.
  destruct r as [i|]; [|by repeat eexists; constructor]. destruct Hr as (ch & Hl & _).
  erewrite get_used, bind_Ok by apply Hl. eexists. split; [done|].
  eapply change_put; [done| |apply same_pending]. apply set_pending_ok; [eapply dk_channels; [done|apply Hl]|tauto].
Qed.
Lemma dc_close_change is_server tame dc sid :
  dc_wf dc -> exists dc' rc, dc_close dc sid = Ok (dc', rc) /\ change is_server tame dc dc'.
Proof.
  intros Hok. unfold dc_close. destruct (find_spec dc sid Hok) as (r & -> & Hr). rewrite bind_Ok.
  destruct r as [i|]; [|by repeat eexists; constructor]. destruct Hr as (ch & Hl & _).
  erewrite get_used, bind_Ok by apply Hl. do 2 eexists. split; [done|].
  eapply change_put; [done| |].
  - apply set_state_ok. eapply dk_channels; [done|apply Hl].
  - unfold same_channel; cbn. split_and!; try done. by destruct (ch_state ch); cbn; lia.
Qed.

(** * The codec *)

Lemma dcep_encode_open_eq buf ty prio rel label protocol :
  (12 + length label + length protocol <= length buf)%nat ->
  dcep_encode_open buf ty prio rel label protocol =
  let m := [DCEP_DATA_CHANNEL_OPEN; ty] ++ be16 prio ++ be32 rel ++ be16 (Z.of_nat (length label)) ++
           be16 (Z.of_nat (length protocol)) ++ label ++ protocol in
  Ok (m ++ drop (length m) buf, length m).
Proof.
  intros Hl. unfold dcep_encode_open. cbv zeta. wr_merge.
  rewrite wr_0 by (rewrite ?length_app; cbn [length app be16 be32]; rewrite ?length_app; lia).
  rewrite bind_Ok. f_equal. f_equal; cbn [length app be16 be32].
  - by rewrite <- !app_assoc.
  - rewrite length_app. lia.
Qed.

Lemma rdn_if b i n : (i <= length b)%nat -> (if (0 <? n)%nat then rdn b i n else Ok []) = rdn b i n.
Proof.
  intros Hi. destruct (Nat.ltb_spec 0 n); [done|]. replace n with 0%nat by lia. by rewrite rdn_Ok by lia.
Qed.

(** The octets of a DATA_CHANNEL_OPEN. *)
Definition open_message (ty rel : Z) (label protocol : list Z) : list Z :=
  [DCEP_DATA_CHANNEL_OPEN; ty] ++ be16 0 ++ be32 rel ++ be16 (Z.of_nat (length label)) ++
  be16 (Z.of_nat (length protocol)) ++ label ++ protocol.

Lemma dcep_parse_open_message ty rel label protocol :
  is_u32 rel -> is_u16 (Z.of_nat (length label)) -> is_u16 (Z.of_nat (length protocol)) ->
  dcep_parse_open (open_message ty rel label protocol) = Ok (DcepOpen ty 0 rel label protocol).
Proof.
  intros Hrel Hl Hp. unfold dcep_parse_open. cbv zeta.
  assert (length (open_message ty rel label protocol) = 12 + length label + length protocol)%nat as Hlen
    by (unfold open_message; cbn [length app be16 be32]; rewrite length_app; lia).
  rewrite Hlen, (proj2 (Nat.ltb_ge _ _)) by lia.
  unfold open_message. cbn [app be16 be32]. 
  set (tail := label ++ protocol) in *.
  assert (length tail = length label + length protocol)%nat as Htail by apply length_app.
  rewrite (rd8_Ok _ 0), bind_Ok by (cbn [length]; lia). cbn [nth negb Z.eqb Pos.eqb DCEP_DATA_CHANNEL_OPEN].
  rewrite (rd8_Ok _ 1), bind_Ok by (cbn [length]; lia).
  rewrite (read_u16be_at _ 2), bind_Ok, (read_u32be_at _ 4), bind_Ok, (read_u16be_at _ 8), bind_Ok,
    (read_u16be_at _ 10), bind_Ok by (cbn [length]; lia).
  cbn [nth Nat.add]. autorewrite with wire. rewrite (u32_id rel), !u16_id, !Nat2Z.id by done.
  rewrite (proj2 (Nat.ltb_ge _ _)), (proj2 (Nat.ltb_ge _ _)) by lia. cbn [orb].
  rewrite !rdn_if by (cbn [length]; lia). rewrite !rdn_Ok by (cbn [length]; lia). rewrite !bind_Ok. cbn [drop]. unfold tail.
  by rewrite drop_0, take_app_length, drop_app_length, firstn_all.
Qed.

(** * Delivering the pending messages *)

(** The message a channel has to send. *)
Definition dc_message (ch : nano_dc_channel) : list Z :=
  if ch_pending ch =? DCEP_DATA_CHANNEL_ACK then [DCEP_DATA_CHANNEL_ACK]
  else open_message (ch_channel_type ch) (ch_max_retransmits ch) (c_text (ch_label ch)) (c_text (ch_protocol ch)).
Definition awaits (ch : nano_dc_channel) : Prop := ch_pending ch <> 0 /\ ch_state ch <> DC_CLOSED.

Lemma pending_spec dc :
  dc_wf dc ->
  exists r, dc_pending_channel dc = Ok r /\
    match r with
    | Some i => exists ch, used dc i ch /\ awaits ch /\
                  forall j cj, used dc j cj -> (j < i)%nat -> ~ awaits cj
    | None => forall i ch, used dc i ch -> ~ awaits ch
    end.
Proof.
  intros Hok. unfold dc_pending_channel.
  set (p := fun ch => negb (ch_pending ch =? 0) && negb (dc_state_eqb (ch_state ch) DC_CLOSED)).
  assert (forall ch, p ch = true <-> awaits ch) as Hp.
  { intros ch. unfold p, awaits, dc_state_eqb.
    rewrite andb_true_iff, !negb_true_iff, Z.eqb_neq, bool_decide_eq_false. done. }
  destruct (channel_scan_spec p (dc_channel_count dc) 0 dc Hok) as (r & -> & Hr); [lia | intros; lia|].
  exists r. split; [done|]. destruct r as [i|].
  - destruct Hr as [(ch & Hu & Hpc) Hbefore]. exists ch. split_and!; [done | by apply Hp|].
    intros j cj Hj Hji Ha%Hp. specialize (Hbefore j cj Hj Hji). congruence.
  - intros i ch Hu Ha%Hp. specialize (Hr i ch Hu). congruence.
Qed.

Lemma c_text_length array : is_text array -> (length (c_text array) < NANORTC_DC_LABEL_SIZE)%nat.
Proof.
  intros (_ & Hl & Hn). destruct (c_text_split _ Hn) as (rest & He).
  apply (f_equal length) in He. rewrite length_app in He. cbn in He. lia.
Qed.
Lemma open_message_length ty rel label protocol :
  length (open_message ty rel label protocol) = (12 + length label + length protocol)%nat.
Proof. unfold open_message. cbn [length app be16 be32]. rewrite length_app. lia. Qed.

Lemma dc_peek_output_eq dc i ch buf :
  dc_wf dc -> used dc i ch -> awaits ch -> (forall j cj, used dc j cj -> (j < i)%nat -> ~ awaits cj) ->
  dc_peek_output dc buf =
  if (length buf <? length (dc_message ch))%nat then Err NANORTC_ERR_BUFFER_TOO_SMALL
  else Ok (dc_message ch ++ drop (length (dc_message ch)) buf, length (dc_message ch), ch_stream_id ch).
Proof.
  intros Hok Hu Ha Hb. unfold dc_peek_output. destruct (pending_spec dc Hok) as (r & -> & Hr). rewrite bind_Ok.
  assert (r = Some i) as ->.
  { destruct r as [j|]; [|by destruct (Hr i ch)]. destruct Hr as (cj & Hj & Haj & Hbj). f_equal.
    destruct (lt_eq_lt_dec i j) as [[?|?]|?]; [by destruct (Hbj i ch) | done | by destruct (Hb j cj)]. }
  rewrite (get_used _ _ _ Hu), bind_Ok. pose proof (dk_channels _ Hok _ _ Hu) as [_ Hl Hp _ _ Hpend].
  unfold dc_message. destruct (Z.eqb_spec (ch_pending ch) DCEP_DATA_CHANNEL_ACK) as [He|He].
  - rewrite He. rewrite (proj2 (Z.eqb_neq _ _)) by done. rewrite !bind_Ok. cbn [length].
    destruct (Nat.ltb_spec (length buf) 1); [done|]. by rewrite wr_0, bind_Ok by done.
  - assert (ch_pending ch = DCEP_DATA_CHANNEL_OPEN) as -> by (destruct Ha, Hpend as [?|[?|?]]; congruence).
    rewrite Z.eqb_refl, !cstr_len_checked_text by (apply Hl || apply Hp). rewrite !bind_Ok.
    pose proof (c_text_length _ Hl). pose proof (c_text_length _ Hp).
    rewrite (Nat.min_r NANORTC_DC_LABEL_SIZE), (Nat.min_r NANORTC_DC_LABEL_SIZE) by lia.
    rewrite open_message_length. destruct (Nat.ltb_spec (length buf) (12 + length (c_text (ch_label ch)) + length (c_text (ch_protocol ch)))) as [|Hlen]; [done|].
    rewrite !rdn_text by first [apply Hl | apply Hp | done]. rewrite !bind_Ok, !firstn_all.
    rewrite dcep_encode_open_eq by done. cbv zeta. rewrite bind_Ok. f_equal. f_equal. f_equal.
    fold (open_message (ch_channel_type ch) (ch_max_retransmits ch) (c_text (ch_label ch)) (c_text (ch_protocol ch))).
    by rewrite open_message_length.
Qed.

(** One round of the sender's pump: encode the pending message, hand it over,
    commit. *)
#[export] Instance awaits_dec ch : Decision (awaits ch).
Proof. unfold awaits. apply _. Defined.
Definition waiting (dc : nano_dc) : list nano_dc_channel := filter awaits (take (dc_channel_count dc) (dc_channels dc)).
Definition dc_pump (dc : nano_dc) (buf : list Z) : res (nano_dc * (list Z * Z)) :=
  '(out, n, sid) ← dc_peek_output dc buf;
  dc ← dc_commit_output dc sid;
  Ok (dc, (take n out, sid)).
Fixpoint dc_drain (fuel : nat) (dc : nano_dc) (buf : list Z) : res (nano_dc * list (list Z * Z)) :=
  match fuel with
  | O => Fault
  | S fuel =>
      match dc_pump dc buf with
      | Ok (dc, m) => '(dc, ms) ← dc_drain fuel dc buf; Ok (dc, m :: ms)
      | Err _ => Ok (dc, [])
      | Fault => Fault
      end
  end.

Lemma dc_message_length ch : channel_ok ch -> (length (dc_message ch) <= 74)%nat.
Proof.
  intros [_ Hl Hp _ _ _]. unfold dc_message. destruct (_ =? _); [cbn; lia|]. rewrite open_message_length.
  pose proof (c_text_length _ Hl). pose proof (c_text_length _ Hp). unfold NANORTC_DC_LABEL_SIZE in *. lia.
Qed.

Lemma used_take dc i ch : used dc i ch <-> take (dc_channel_count dc) (dc_channels dc) !! i = Some ch.
Proof. unfold used. rewrite lookup_take_Some. tauto. Qed.
Lemma filter_awaits_none (l : list nano_dc_channel) :
  (forall i ch, l !! i = Some ch -> ~ awaits ch) -> filter awaits l = [].
Proof.
  induction l as [|c l IH]; intros H; [done|]. rewrite filter_cons_False by (by apply (H 0%nat)).
  apply IH. intros i. apply (H (S i)).
Qed.
(** The first waiting channel, in the table. *)
Lemma waiting_first dc i ch :
  used dc i ch -> awaits ch -> (forall j cj, used dc j cj -> (j < i)%nat -> ~ awaits cj) ->
  let rest := filter awaits (drop (S i) (take (dc_channel_count dc) (dc_channels dc))) in
  waiting dc = ch :: rest /\ forall c, ~ awaits c -> waiting (put_channel dc i c) = rest.
Proof.
  intros Hu Ha Hb rest. assert (Hi : (i < dc_channel_count dc)%nat) by apply Hu.
  unfold waiting. pose proof Hu as Hl. rewrite used_take in Hl.
  set (L := take (dc_channel_count dc) (dc_channels dc)) in *.
  assert (filter awaits (take i L) = []) as Hpre.
  { apply filter_awaits_none. intros j cj Hj. apply lookup_take_Some in Hj as [Hj Hji].
    eapply Hb; [|exact Hji]. by apply used_take. }
  split.
  - rewrite <- (take_drop_middle L i ch) at 1 by done. by rewrite list.filter_app, Hpre, filter_cons_True.
  - intros c Hc. cbn [put_channel dc_channels dc_channel_count].
    rewrite take_insert_lt by done. fold L. rewrite insert_take_drop by (by apply lookup_lt_Some in Hl).
    by rewrite list.filter_app, Hpre, filter_cons_False.
Qed.

Lemma dc_pump_none dc buf : dc_ok dc -> waiting dc = [] -> dc_pump dc buf = Err NANORTC_ERR_NO_DATA.
Proof.
  intros Hok Hw. unfold dc_pump, dc_peek_output. destruct (pending_spec dc Hok) as (r & -> & Hr). rewrite bind_Ok.
  destruct r as [i|]; [|done]. destruct Hr as (ch & Hu & Ha & Hb).
  destruct (waiting_first dc i ch Hu Ha Hb) as [He _]. congruence.
Qed.
Lemma dc_pump_first dc buf ch rest :
  dc_ok dc -> (74 <= length buf)%nat -> waiting dc = ch :: rest ->
  exists dc', dc_pump dc buf = Ok (dc', (dc_message ch, ch_stream_id ch)) /\ dc_ok dc' /\ waiting dc' = rest.
Proof.
  intros Hok Hbuf Hw. destruct (pending_spec dc Hok) as (r & Hp & Hr). destruct r as [i|].
  - destruct Hr as (ci & Hu & Ha & Hb). destruct (waiting_first dc i ci Hu Ha Hb) as [He Hput].
    rewrite Hw in He. injection He as <- Hrest. exists (put_channel dc i (set_pending ch 0)).
    pose proof (dk_channels _ Hok _ _ Hu) as Hch. assert (Hl : live dc i ch) by (split; [done|apply Ha]).
    unfold dc_pump. rewrite (dc_peek_output_eq dc i ch buf Hok Hu Ha Hb).
    pose proof (dc_message_length ch Hch). rewrite (proj2 (Nat.ltb_ge _ _)) by lia. rewrite bind_Ok.
    unfold dc_commit_output. rewrite (find_live dc i ch Hok Hl), bind_Ok, (get_used _ _ _ Hu), !bind_Ok.
    rewrite take_app_length. split_and!; [done | |].
    + eapply put_channel_ok; [done | done | apply set_pending_ok; [done|tauto] | done].
    + rewrite Hput; [done|]. unfold awaits. cbn. tauto.
  - assert (waiting dc = []) as He; [|congruence]. apply filter_awaits_none. intros i ci Hi. by apply (Hr i), used_take.
Qed.

(** Draining an endpoint's pending DCEP messages sends the message of every
    channel that waits, each exactly once, in the order of the table and on the
    channel's own stream, and stops with nothing left to send, in at most
    nine rounds. *)
Theorem dc_drain_delivers (dc : nano_dc) (buf : list Z) :
  dc_ok dc -> (74 <= length buf)%nat ->
  exists dc', dc_drain (S NANORTC_MAX_DATACHANNELS) dc buf =
                Ok (dc', map (fun ch => (dc_message ch, ch_stream_id ch)) (waiting dc)) /\
    dc_ok dc' /\ dc_has_pending_output dc' = Ok false.
Proof.
  intros Hok Hbuf.
  assert (length (waiting dc) < S NANORTC_MAX_DATACHANNELS)%nat as Hw.
  { unfold waiting. eapply Nat.le_lt_trans; [apply length_filter|]. rewrite length_take. pose proof (dk_count _ Hok). lia. }
  revert dc Hok Hw. generalize (S NANORTC_MAX_DATACHANNELS) as fuel.
  induction fuel as [|fuel IH]; intros dc Hok Hw; [lia|]. cbn [dc_drain].
  destruct (waiting dc) as [|ch rest] eqn:He.
  - rewrite dc_pump_none by done. exists dc. split_and!; [done..|].
    unfold dc_has_pending_output. destruct (pending_spec dc Hok) as (r & -> & Hr). rewrite bind_Ok.
    destruct r as [i|]; [|done]. destruct Hr as (ch & Hu & Ha & Hb).
    destruct (waiting_first dc i ch Hu Ha Hb) as [He' _]. congruence.
  - destruct (dc_pump_first dc buf ch rest Hok Hbuf He) as (dc1 & -> & Hok1 & He1).
    cbn in Hw. destruct (IH dc1 Hok1 ltac:(rewrite He1; lia)) as (dc' & Hd & Hok' & Hp). rewrite He1 in Hd.
    rewrite Hd, bind_Ok. by exists dc'.
Qed.

(** * Histories *)

Inductive dc_op : Type :=
| OpHandle (sid ppid : Z) (data : list Z)
| OpOpen (label : list Z) (protocol : option (list Z)) (ordered partial : bool) (mr : Z)
| OpPeek (buf : list Z)
| OpCommit (sid : Z)
| OpClose (sid : Z).
(** The arguments are of their types: 16-bit stream ids, octets, C strings. *)
Definition dc_op_ok (op : dc_op) : Prop :=
  match op with
  | OpHandle sid _ data => is_u16 sid /\ bytes data
  | OpOpen label protocol _ _ mr => is_cstring label /\ (forall p, protocol = Some p -> is_cstring p) /\ is_u16 mr
  | _ => True
  end.
(** The peer leaves our ids alone: its stream ids are of the other parity, as
    RFC 8832 has them, or below the last sixteen. *)
Definition leaves_ids (is_server : bool) (op : dc_op) : Prop :=
  match op with OpHandle sid _ _ => id_below is_server 0 sid | _ => True end.
Definition dc_step (is_server : bool) (dc : nano_dc) (op : dc_op) : res nano_dc :=
  match op with
  | OpHandle sid ppid data => '(dc, _, _) ← dc_handle_message dc sid ppid data; Ok dc
  | OpOpen label protocol ordered partial mr =>
      sid ← rtc_alloc_stream_id is_server dc;
      '(dc, _) ← dc_open_options dc sid label protocol ordered partial mr; Ok dc
  | OpPeek buf => match dc_peek_output dc buf with Fault => Fault | _ => Ok dc end
  | OpCommit sid => dc_commit_output dc sid
  | OpClose sid => '(dc, _) ← dc_close dc sid; Ok dc
  end.
Fixpoint dc_run (is_server : bool) (dc : nano_dc) (ops : list dc_op) : res nano_dc :=
  match ops with [] => Ok dc | op :: ops => dc ← dc_step is_server dc op; dc_run is_server dc ops end.

Lemma dc_step_change is_server (tame : Prop) dc op :
  dc_wf dc -> (tame -> ids_below is_server dc) -> dc_op_ok op -> (tame -> leaves_ids is_server op) ->
  exists dc', dc_step is_server dc op = Ok dc' /\ change is_server tame dc dc'.
Proof.
  intros Hok Hids Hop Hl. destruct op as [sid ppid data|label protocol ordered partial mr|buf|sid|sid]; cbn in *.
  - destruct Hop as [Hsid Hb]. destruct (dc_handle_message_change is_server tame dc sid ppid data) as (dc' & rc & o & -> & Hc); [done..|].
    by exists dc'.
  - destruct Hop as (Hlb & Hp & Hmr). destruct (rtc_alloc_stream_id_spec is_server tame dc Hok Hids) as (sid & -> & Hu & Hf).
    rewrite bind_Ok. destruct (dc_open_options_change is_server tame dc sid label protocol ordered partial mr) as (dc' & rc & -> & Hc); [done..|].
    by exists dc'.
  - exists dc. split; [|constructor]. destruct (pending_spec dc Hok) as (r & Hpd & Hr). destruct r as [i|].
    + destruct Hr as (ch & Hu & Ha & Hb). rewrite (dc_peek_output_eq dc i ch) by done. by destruct (_ <? _)%nat.
    + unfold dc_peek_output. by rewrite Hpd.
  - by apply dc_commit_change.
  - destruct (dc_close_change is_server tame dc sid Hok) as (dc' & rc & -> & Hc). by exists dc'.
Qed.
Lemma dc_run_preserves is_server (tame : Prop) ops dc :
  dc_wf dc -> (tame -> dc_distinct dc /\ ids_below is_server dc) -> Forall dc_op_ok ops -> (tame -> Forall (leaves_ids is_server) ops) ->
  exists dc', dc_run is_server dc ops = Ok dc' /\ dc_wf dc' /\ (tame -> dc_distinct dc' /\ ids_below is_server dc') /\ evolves dc dc'.
Proof.
  revert dc. induction ops as [|op ops IH]; intros dc Hok Htame Hops Hl; cbn [dc_run]; [by exists dc|].
  apply Forall_cons_iff in Hops as [Hop Hops].
  destruct (dc_step_change is_server tame dc op Hok) as (dc1 & -> & Hc);
    [intros Ht; apply (Htame Ht) | done | intros Ht; by destruct (proj1 (Forall_cons_iff _ _ _) (Hl Ht)) |].
  destruct (change_preserves is_server tame dc dc1 Hok Htame Hc) as (Hok1 & Htame1 & He1).
  destruct (IH dc1 Hok1 Htame1 Hops) as (dc' & Hr & Hok' & Htame' & He').
  { intros Ht. by destruct (proj1 (Forall_cons_iff _ _ _) (Hl Ht)). }
  exists dc'. rewrite bind_Ok. split_and!; [done..|]. by etrans.
Qed.

(** C35: over every history of the data channel manager (incoming messages of any
    content on any stream, opens with the ids [rtc_alloc_stream_id] draws, peeks,
    commits and closes, in any order), no operation reads or writes outside its
    objects; the table stays well formed; and a channel once created keeps its
    stream, label, protocol and reliability, while its state only moves forward,
    from opening to open to closed.  As long as the peer's messages come on
    streams of its own parity, or below 65520, there is at most one open channel
    per stream id. *)
Theorem dc_history (is_server : bool) (past future : list dc_op) :
  Forall dc_op_ok past -> Forall dc_op_ok future ->
  exists dc1 dc2, dc_run is_server dc_init past = Ok dc1 /\ dc_run is_server dc1 future = Ok dc2 /\
    dc_wf dc1 /\ dc_wf dc2 /\ evolves dc1 dc2 /\
    (Forall (leaves_ids is_server) past -> dc_distinct dc1 /\ (Forall (leaves_ids is_server) future -> dc_distinct dc2)).
Proof.
  intros Hpast Hfuture. set (tp := Forall (leaves_ids is_server) past). set (tf := tp /\ Forall (leaves_ids is_server) future).
  destruct (dc_run_preserves is_server tp past dc_init dc_init_ok) as (dc1 & H1 & Hok1 & Ht1 & _); [|done..|].
  { intros _. split; [apply dc_init_ok|]. intros i ch [Hi _]. cbn in Hi. lia. }
  destruct (dc_run_preserves is_server tf future dc1 Hok1) as (dc2 & H2 & Hok2 & Ht2 & He); [intros [Hp _]; by apply Ht1 | done | by intros [_ Hf]|].
  exists dc1, dc2. split_and!; [done..|]. intros Hp. split; [by apply Ht1|]. intros Hf. by apply Ht2.
Qed.
(** Where the peer does take our ids the next one wraps: after a peer's OPEN on
    stream 65534, two channels of a client are open on stream 0. *)
Definition open_65534 : list dc_op :=
  [OpOpen [97; 0] None true false 0; OpHandle 65534 DCEP_PPID_CONTROL [3; 0; 0; 0; 0; 0; 0; 0; 0; 0; 0; 0]; OpOpen [98; 0] None true false 0].
Theorem dc_ids_collide : Forall dc_op_ok open_65534 /\
  exists dc c0 c2, dc_run false dc_init open_65534 = Ok dc /\ live dc 0 c0 /\ live dc 2 c2 /\ ch_stream_id c0 = 0 /\ ch_stream_id c2 = 0.
Proof.
  split; [|do 3 eexists; split; [vm_compute; reflexivity|]; unfold live, used; cbn; split_and!; (done || lia)].
  apply Forall_cons; [|apply Forall_cons; [|apply Forall_cons; [|constructor]]]; cbn.
  - split; [split; [bytes_lit | repeat constructor] | split; [done | mach]].
  - split; [mach | bytes_lit].
  - split; [split; [bytes_lit | repeat constructor] | split; [done | mach]].
Qed.

(** * The handshake *)

Section Added.
Context (dc : nano_dc) (ch : nano_dc_channel) (Hok : dc_ok dc).
Context (Hcap : (dc_channel_count dc < NANORTC_MAX_DATACHANNELS)%nat).
Context (Hch : channel_ok ch) (Hs : ch_state ch <> DC_CLOSED).
Context (Hfresh : forall i ci, live dc i ci -> ch_stream_id ci <> ch_stream_id ch).

Lemma added_ok : dc_ok (dc_add dc ch).
Proof using Hok Hcap Hch Hs Hfresh. by apply dc_add_ok. Qed.
Lemma used_added : used (dc_add dc ch) (dc_channel_count dc) ch.
Proof using Hok Hcap. rewrite used_add by done. by left. Qed.
Lemma find_added : dc_find_channel (dc_add dc ch) (ch_stream_id ch) = Ok (Some (dc_channel_count dc)).
Proof using Hok Hcap Hch Hs Hfresh. apply find_live; [apply added_ok|]. split; [apply used_added | done]. Qed.
Lemma commit_added : dc_commit_output (dc_add dc ch) (ch_stream_id ch) = Ok (dc_add dc (set_pending ch 0)).
Proof using Hok Hcap Hch Hs Hfresh.
  unfold dc_commit_output. by rewrite find_added, bind_Ok, get_added, bind_Ok, put_added.
Qed.
Lemma peek_added buf :
  (forall i ci, used dc i ci -> ~ awaits ci) -> awaits ch ->
  (length (dc_message ch) <= length buf)%nat ->
  dc_peek_output (dc_add dc ch) buf =
  Ok (dc_message ch ++ drop (length (dc_message ch)) buf, length (dc_message ch), ch_stream_id ch).
Proof using Hok Hcap Hch Hs Hfresh.
  intros Hq Ha Hl. rewrite (dc_peek_output_eq _ (dc_channel_count dc) ch); [|apply added_ok|apply used_added|done|].
  - by rewrite (proj2 (Nat.ltb_ge _ _)).
  - intros j cj. rewrite used_add by done. intros [[-> ->]|Hj]; [lia|]. intros _. by eapply Hq.
Qed.
(** An incoming ACK, and an OPEN that is sent again. *)
Lemma ack_added :
  dc_handle_message (dc_add dc ch) (ch_stream_id ch) DCEP_PPID_CONTROL [DCEP_DATA_CHANNEL_ACK] =
  Ok (if dc_state_eqb (ch_state ch) DC_OPENING
      then (dc_add dc (set_state ch DC_OPEN), NANORTC_OK, true) else (dc_add dc ch, NANORTC_OK, false)).
Proof using Hok Hcap Hch Hs Hfresh.
  unfold dc_handle_message. cbn -[dc_find_channel get_channel dc_add put_channel].
  rewrite find_added, bind_Ok, get_added, bind_Ok, put_added by done. by destruct (dc_state_eqb _ _).
Qed.
Lemma reopen_added data o :
  (1 <= length data)%nat -> nth 0 data 0 = DCEP_DATA_CHANNEL_OPEN -> dcep_parse_open data = Ok o ->
  dc_handle_message (dc_add dc ch) (ch_stream_id ch) DCEP_PPID_CONTROL data =
  Ok (dc_add dc (set_pending ch DCEP_DATA_CHANNEL_ACK), NANORTC_OK, false).
Proof using Hok Hcap Hch Hs Hfresh.
  intros Hl H0 Hp. unfold dc_handle_message. rewrite Z.eqb_refl, (proj2 (Nat.ltb_ge _ _)) by lia.
  rewrite rd8_Ok, bind_Ok, H0, Z.eqb_refl, Hp, find_added, bind_Ok, get_added, bind_Ok, put_added by (done || lia). done.
Qed.
End Added.

Lemma accept_message dc sid data o :
  dc_ok dc -> (dc_channel_count dc < NANORTC_MAX_DATACHANNELS)%nat ->
  (forall i ci, live dc i ci -> ch_stream_id ci <> sid) ->
  (1 <= length data)%nat -> nth 0 data 0 = DCEP_DATA_CHANNEL_OPEN -> dcep_parse_open data = Ok o ->
  Z.land (do_channel_type o) 0x7f <= DCEP_CHANNEL_REXMIT -> do_reliability_param o <= UINT16_MAX ->
  (length (do_protocol o) < NANORTC_DC_LABEL_SIZE)%nat ->
  dc_handle_message dc sid DCEP_PPID_CONTROL data = Ok (dc_add dc (accepted_channel sid o), NANORTC_OK, true).
Proof.
  intros Hok Hc Hf Hl H0 Hp Ht Hr Hpl. unfold dc_handle_message. rewrite Z.eqb_refl, (proj2 (Nat.ltb_ge _ _)) by lia.
  rewrite rd8_Ok, bind_Ok, H0, Z.eqb_refl, Hp by lia. rewrite find_fresh by done. rewrite bind_Ok, dc_accept_open_eq by done.
  rewrite (proj2 (Z.ltb_ge _ _)), (proj2 (Z.ltb_ge _ _)) by done. cbn [orb].
  by rewrite (proj2 (Nat.leb_gt _ _)), (proj2 (Nat.leb_gt _ _)) by lia.
Qed.

(** An endpoint ready for a channel on stream [sid]. *)
Record ready (dc : nano_dc) (sid : Z) : Prop := {
  rdy_ok : dc_ok dc;
  rdy_capacity : (dc_channel_count dc < NANORTC_MAX_DATACHANNELS)%nat;
  rdy_quiet : forall i ch, used dc i ch -> ~ awaits ch;
  rdy_fresh : forall i ch, live dc i ch -> ch_stream_id ch <> sid
}.

Lemma opened_text sid label protocol ordered partial mr :
  (length (c_text protocol) < NANORTC_DC_LABEL_SIZE)%nat ->
  let t := take (NANORTC_DC_LABEL_SIZE - 1) (c_text label) in
  dc_message (opened_channel sid (c_text label) (c_text protocol) ordered partial mr) =
    open_message (dc_channel_type ordered partial) mr t (c_text protocol) /\
  (length t < NANORTC_DC_LABEL_SIZE)%nat.
Proof.
  intros Hp t. assert (length t < NANORTC_DC_LABEL_SIZE)%nat as Ht
    by (unfold t; rewrite length_take; unfold NANORTC_DC_LABEL_SIZE; lia).
  split; [|done]. unfold dc_message, opened_channel; cbn [ch_pending ch_label ch_protocol ch_channel_type ch_max_retransmits].
  rewrite !str_array_text; [done | apply c_text_nonzero | done | by apply Forall_take, c_text_nonzero | done].
Qed.
Lemma dc_channel_type_facts ordered partial :
  let ty := dc_channel_type ordered partial in
  Z.land ty 0x7f <= DCEP_CHANNEL_REXMIT /\ (Z.land ty 0x80 =? 0) = ordered.
Proof. by destruct ordered, partial; vm_compute. Qed.

(** C34: the DCEP handshake.  When one endpoint opens a channel and each side
    delivers what the other's [dc_peek_output] encodes, committing what it
    sent, both sides end with the channel open, nothing left pending, and the
    same label (cut to 31 octets), protocol, type, ordering and retransmission
    limit; each side reports the opening once, and a repeated OPEN or ACK only
    asks for another ACK or is ignored. *)
Theorem dc_handshake (a b : nano_dc) (sid : Z) (label protocol bufa bufb : list Z) (ordered partial : bool) (mr : Z) :
  ready a sid -> ready b sid -> is_u16 sid -> is_cstring label -> is_cstring protocol ->
  (length (c_text protocol) < NANORTC_DC_LABEL_SIZE)%nat -> is_u16 mr ->
  (74 <= length bufa)%nat -> (1 <= length bufb)%nat ->
  exists a1 outa n a2 b1 outb b2 a3 ca cb,
    dc_open_options a sid label (Some protocol) ordered partial mr = Ok (a1, NANORTC_OK) /\
    dc_peek_output a1 bufa = Ok (outa, n, sid) /\ dc_commit_output a1 sid = Ok a2 /\
    dc_handle_message b sid DCEP_PPID_CONTROL (take n outa) = Ok (b1, NANORTC_OK, true) /\
    dc_peek_output b1 bufb = Ok (outb, 1%nat, sid) /\ dc_commit_output b1 sid = Ok b2 /\
    dc_handle_message a2 sid DCEP_PPID_CONTROL (take 1 outb) = Ok (a3, NANORTC_OK, true) /\
    a3 = dc_add a ca /\ b2 = dc_add b cb /\ ca = cb /\
    ch_state ca = DC_OPEN /\ ch_pending ca = 0 /\ ch_stream_id ca = sid /\
    c_text (ch_label ca) = take 31 (c_text label) /\ c_text (ch_protocol ca) = c_text protocol /\
    ch_ordered ca = ordered /\ ch_max_retransmits ca = mr /\
    dc_handle_message b2 sid DCEP_PPID_CONTROL (take n outa) = Ok (b1, NANORTC_OK, false) /\
    dc_handle_message a3 sid DCEP_PPID_CONTROL (take 1 outb) = Ok (a3, NANORTC_OK, false).
Proof.
  intros [Hoka Hca Hqa Hfa] [Hokb Hcb Hqb Hfb] Hsid [Hlb Hl] [Hpb Hp] Hpl Hmr Hba Hbb.
  set (oc := opened_channel sid (c_text label) (c_text protocol) ordered partial mr).
  set (ty := dc_channel_type ordered partial) in *.
  set (t := take (NANORTC_DC_LABEL_SIZE - 1) (c_text label)) in *.
  set (o := DcepOpen ty 0 mr t (c_text protocol)). set (ac := accepted_channel sid o).
  destruct (opened_text sid label protocol ordered partial mr Hpl) as [Hmsg Ht]. fold t oc ty in Hmsg, Ht.
  destruct (dc_channel_type_facts ordered partial) as [Hty Hord]. fold ty in Hty, Hord.
  assert (channel_ok oc) as Hoc by (apply opened_channel_ok; auto using c_text_bytes).
  assert (channel_ok ac) as Hac.
  { apply accepted_channel_ok; [done | apply (co_type _ Hoc) | apply Forall_take, c_text_bytes, Hlb | by apply c_text_bytes | done]. }
  assert (dcep_parse_open (dc_message oc) = Ok o) as Hparse.
  { rewrite Hmsg. apply dcep_parse_open_message; [mach | |]; unfold NANORTC_DC_LABEL_SIZE in *; mach. }
  assert (1 <= length (dc_message oc))%nat as Hlen by (rewrite Hmsg, open_message_length; lia).
  assert (nth 0 (dc_message oc) 0 = DCEP_DATA_CHANNEL_OPEN) as H0 by by rewrite Hmsg.
  pose proof (dc_message_length oc Hoc) as Hlen'.
  assert (take (length (dc_message oc)) (dc_message oc ++ drop (length (dc_message oc)) bufa) = dc_message oc) as Htake
    by apply take_app_length.
  exists (dc_add a oc), (dc_message oc ++ drop (length (dc_message oc)) bufa), (length (dc_message oc)),
    (dc_add a (set_pending oc 0)), (dc_add b ac), (dc_message ac ++ drop (length (dc_message ac)) bufb),
    (dc_add b (set_pending ac 0)), (dc_add a (set_state (set_pending oc 0) DC_OPEN)),
    (set_state (set_pending oc 0) DC_OPEN), (set_pending ac 0).
  rewrite Htake. change (take 1 (dc_message ac ++ drop (length (dc_message ac)) bufb)) with [DCEP_DATA_CHANNEL_ACK].
  assert (ty = ch_channel_type oc) as Hty' by done.
  split_and!; try done.
  - rewrite dc_open_options_eq by (done || by intros p [= <-]).
    rewrite (proj2 (Nat.leb_gt _ _)), (proj2 (Nat.leb_gt _ _)) by done. done.
  - apply (peek_added a oc); [done..|lia].
  - by apply (commit_added a oc).
  - apply accept_message with (o := o); try done. cbn. mach.
  - by apply (peek_added b ac).
  - by apply (commit_added b ac).
  - apply (ack_added a (set_pending oc 0)); try done. by apply set_pending_ok; [|left].
  - unfold oc, ac, opened_channel, accepted_channel, set_pending, set_state.
    cbn [ch_state ch_stream_id ch_label ch_protocol ch_channel_type ch_ordered ch_max_retransmits ch_pending
         do_channel_type do_label do_protocol do_reliability_param o].
    fold ty t. rewrite Hord, (u16_id mr) by done.
    replace (take (NANORTC_DC_LABEL_SIZE - 1) t) with t; [done|]. unfold t. by rewrite take_take.
  - apply str_array_text; [by apply Forall_take, c_text_nonzero | done].
  - apply str_array_text; [apply c_text_nonzero | done].
  - apply (reopen_added b (set_pending ac 0)) with (o := o); try done. by apply set_pending_ok; [|left].
  - apply (ack_added a (set_state (set_pending oc 0) DC_OPEN)); try done. by apply set_state_ok, set_pending_ok; [|left].
Qed.

(** * Examples *)

Definition label_a : list Z := [97; 0].
Definition label_empty : list Z := [0].
Lemma label_a_ok : is_cstring label_a /\ is_cstring label_empty.
Proof. split; (split; [bytes_lit | repeat constructor]). Qed.

Lemma dc_drain_delivers_witness :
  let ch := opened_channel 4 [97] [] true false 0 in
  exists dc', dc_drain 9 (dc_add dc_init ch) (replicate 80 0) =
                Ok (dc', [([3; 0; 0; 0; 0; 0; 0; 0; 0; 1; 0; 0; 97], 4)]).
Proof.
  intros ch. destruct (dc_drain_delivers (dc_add dc_init ch) (replicate 80 0)) as (dc' & Hd & _).
  - apply dc_add_ok; [apply dc_init_ok | cbn; unfold NANORTC_MAX_DATACHANNELS; lia | | done |].
    + apply opened_channel_ok; [mach | mach | bytes_lit | constructor | cbn; unfold NANORTC_DC_LABEL_SIZE; lia].
    + intros i ci [[Hi _] _]. cbn in Hi. lia.
  - rewrite length_replicate. lia.
  - exists dc'. exact Hd.
Defined.

Lemma dc_history_witness :
  exists dc1 dc2,
    dc_run false dc_init [OpOpen label_a None true false 0; OpHandle 65535 50 [2]] = Ok dc1 /\
    dc_run false dc1 [OpClose 0] = Ok dc2 /\ evolves dc1 dc2 /\ dc_distinct dc2.
Proof.
  destruct (dc_history false [OpOpen label_a None true false 0; OpHandle 65535 50 [2]] [OpClose 0]) as (dc1 & dc2 & H1 & H2 & _ & _ & He & Hd).
  - apply Forall_cons; [|apply Forall_cons; [|constructor]]; cbn.
    + split; [apply label_a_ok|]. split; [done | mach].
    + split; [mach | bytes_lit].
  - apply Forall_cons; [done|constructor].
  - exists dc1, dc2. split_and!; [done..|]. apply Hd; apply Forall_cons; try done.
    apply Forall_cons; [|constructor]. cbn. unfold id_below. done.
Defined.

Lemma ready_init sid : ready dc_init sid.
Proof.
  split; [apply dc_init_ok | cbn; unfold NANORTC_MAX_DATACHANNELS; lia | |];
    [intros i ch [Hi _] | intros i ch [[Hi _] _]]; cbn in Hi; lia.
Qed.
Lemma dc_handshake_witness :
  exists a3 b2 ca cb, a3 = dc_add dc_init ca /\ b2 = dc_add dc_init cb /\ ca = cb /\
    ch_state ca = DC_OPEN /\ c_text (ch_label ca) = [97] /\ ch_max_retransmits ca = 3.
Proof.
  destruct (dc_handshake dc_init dc_init 2 label_a label_empty (replicate 80 0) [7] false true 3)
    as (a1 & outa & n & a2 & b1 & outb & b2 & a3 & ca & cb & _ & _ & _ & _ & _ & _ & _ & Ha & Hb & He & Hs & _ & _ & Hl & _ & _ & Hm & _).
  - apply ready_init.
  - apply ready_init.
  - mach.
  - apply label_a_ok.
  - apply label_a_ok.
  - cbn. unfold NANORTC_DC_LABEL_SIZE. lia.
  - mach.
  - rewrite length_replicate. lia.
  - cbn. lia.
  - by exists a3, b2, ca, cb.
Defined.

(** A peer that opens a channel on stream 65534 makes the next id we draw wrap
    to 0, the stream of a channel that is already open. *)
Theorem rtc_alloc_stream_id_wraps :
  exists dc, dc_run false dc_init
      [OpOpen label_a None true false 0; OpHandle 65534 50 (open_message 0 0 [97] [])] = Ok dc /\
    (exists ch, live dc 0 ch /\ ch_stream_id ch = 0) /\ rtc_alloc_stream_id false dc = Ok 0.
Proof.
  eexists. split; [vm_compute; reflexivity|]. split; [|vm_compute; reflexivity].
  eexists. split; [split; [split; [cbn; lia | reflexivity]|]|]; done.
Qed.
