(* ===== verification/Srtp.v ===== *)
(** SRTP and SRTCP, [src/nano_srtp.c] (RFC 3711): key derivation, the per-SSRC
    rollover counters and packet protection over an abstract cipher and MAC;
    that the two roles derive matching keys, that the initialization vector is
    the RFC's, that unprotecting inverts protecting, and where the receiver's
    rollover estimate fails. *)

From Stdlib Require Import ZArith Lia.
From stdpp Require Import base list numbers.
From S2P Require Import Prelude Wire.

Local Open Scope Z_scope.

Definition SRTP_LABEL_RTP_CIPHER : Z := 0x00.
Definition SRTP_LABEL_RTP_AUTH : Z := 0x01.
Definition SRTP_LABEL_RTP_SALT : Z := 0x02.
Definition SRTP_LABEL_RTCP_CIPHER : Z := 0x03.
Definition SRTP_LABEL_RTCP_AUTH : Z := 0x04.
Definition SRTP_LABEL_RTCP_SALT : Z := 0x05.
Definition SRTP_KDF_MAX_OUT : nat := 32.
Definition NANORTC_SRTP_KEY_SIZE : nat := 16.
Definition NANORTC_SRTP_AUTH_KEY_SIZE : nat := 20.
Definition NANORTC_SRTP_SALT_SIZE : nat := 14.
Definition NANORTC_SRTP_AUTH_TAG_SIZE : nat := 10.
Definition NANORTC_SRTCP_OVERHEAD : nat := 14.
Definition SRTP_RTP_HEADER_SIZE : nat := 12.
(** [2 * NANORTC_MAX_MEDIA_TRACKS], the default without forward error correction. *)
Definition NANORTC_MAX_SSRC_MAP : nat := 4.

(** [nano_srtp_ssrc_state_t] *)
Record ssrc_state : Type := SsrcState { ss_ssrc : Z; ss_roc : Z; ss_seq_max : Z; ss_active : bool }.

(** The session keys of [nano_srtp_t], in its order. *)
Record srtp_keys : Type := SrtpKeys {
  send_key : list Z; send_auth_key : list Z; send_salt : list Z;
  recv_key : list Z; recv_auth_key : list Z; recv_salt : list Z;
  send_rtcp_key : list Z; send_rtcp_auth_key : list Z; send_rtcp_salt : list Z;
  recv_rtcp_key : list Z; recv_rtcp_auth_key : list Z; recv_rtcp_salt : list Z
}.
(** [nano_srtp_t]; the crypto provider is the parameter of the section below. *)
Record nano_srtp : Type := NanoSrtp {
  sr_keys : srtp_keys; ssrc_states : list ssrc_state; srtcp_send_index : Z;
  last_send_idx : Z; last_recv_idx : Z; is_client : bool; sr_ready : bool
}.

Definition zero_keys : srtp_keys :=
  let k := replicate NANORTC_SRTP_KEY_SIZE 0 in let a := replicate NANORTC_SRTP_AUTH_KEY_SIZE 0 in
  let s := replicate NANORTC_SRTP_SALT_SIZE 0 in SrtpKeys k a s k a s k a s k a s.
Definition nano_srtp_init (is_client : bool) : nano_srtp :=
  NanoSrtp zero_keys (replicate NANORTC_MAX_SSRC_MAP (SsrcState 0 0 0 false)) 0 (-1) (-1) is_client false.

Definition set_keys (s : nano_srtp) (k : srtp_keys) : nano_srtp :=
  NanoSrtp k (ssrc_states s) (srtcp_send_index s) (last_send_idx s) (last_recv_idx s) (is_client s) (sr_ready s).
Definition set_ready (s : nano_srtp) : nano_srtp :=
  NanoSrtp (sr_keys s) (ssrc_states s) (srtcp_send_index s) (last_send_idx s) (last_recv_idx s) (is_client s) true.
Definition set_states (s : nano_srtp) (states : list ssrc_state) : nano_srtp :=
  NanoSrtp (sr_keys s) states (srtcp_send_index s) (last_send_idx s) (last_recv_idx s) (is_client s) (sr_ready s).
Definition set_send_idx (s : nano_srtp) (i : Z) : nano_srtp :=
  NanoSrtp (sr_keys s) (ssrc_states s) (srtcp_send_index s) i (last_recv_idx s) (is_client s) (sr_ready s).
Definition set_recv_idx (s : nano_srtp) (i : Z) : nano_srtp :=
  NanoSrtp (sr_keys s) (ssrc_states s) (srtcp_send_index s) (last_send_idx s) i (is_client s) (sr_ready s).
Definition set_srtcp_index (s : nano_srtp) (i : Z) : nano_srtp :=
  NanoSrtp (sr_keys s) (ssrc_states s) i (last_send_idx s) (last_recv_idx s) (is_client s) (sr_ready s).

(** * Initialization vector *)

Definition xor_at (iv : list Z) (i : nat) (x : Z) : list Z := <[i := Z.lxor (nth i iv 0) x]> iv.
Fixpoint xor_salt (n i : nat) (iv salt : list Z) : res (list Z) :=
  match n with
  | O => Ok iv
  | S n => b ← rd8 salt i; xor_salt n (S i) (xor_at iv i b) salt
  end.
Definition srtp_compute_iv (salt : list Z) (ssrc index : Z) : res (list Z) :=
  let iv := replicate 16 0 in
  let iv := <[4%nat := u8 (Z.shiftr ssrc 24)]> iv in
  let iv := <[5%nat := u8 (Z.shiftr ssrc 16)]> iv in
  let iv := <[6%nat := u8 (Z.shiftr ssrc 8)]> iv in
  let iv := <[7%nat := u8 ssrc]> iv in
  let iv := xor_at iv 6 (u8 (Z.shiftr index 56)) in
  let iv := xor_at iv 7 (u8 (Z.shiftr index 48)) in
  let iv := xor_at iv 8 (u8 (Z.shiftr index 40)) in
  let iv := xor_at iv 9 (u8 (Z.shiftr index 32)) in
  let iv := xor_at iv 10 (u8 (Z.shiftr index 24)) in
  let iv := xor_at iv 11 (u8 (Z.shiftr index 16)) in
  let iv := xor_at iv 12 (u8 (Z.shiftr index 8)) in
  let iv := xor_at iv 13 (u8 index) in
  xor_salt NANORTC_SRTP_SALT_SIZE 0 iv salt.

(** * Per-SSRC state *)

Definition get_ss (states : list ssrc_state) (i : nat) : res ssrc_state :=
  match states !! i with Some s => Ok s | None => Fault end.
Fixpoint scan_ssrc (n i : nat) (states : list ssrc_state) (ssrc : Z) : res (option nat) :=
  match n with
  | O => Ok None
  | S n => s ← get_ss states i;
           if ss_active s && (ss_ssrc s =? ssrc) then Ok (Some i) else scan_ssrc n (S i) states ssrc
  end.
Fixpoint scan_free (n i : nat) (states : list ssrc_state) : res (option nat) :=
  match n with
  | O => Ok None
  | S n => s ← get_ss states i; if negb (ss_active s) then Ok (Some i) else scan_free n (S i) states
  end.
(** The hit of the cached slot. *)
Definition cached_hit (states : list ssrc_state) (ssrc cache_idx : Z) : res bool :=
  if (0 <=? cache_idx) && (cache_idx <? Z.of_nat NANORTC_MAX_SSRC_MAP)
  then s ← get_ss states (Z.to_nat cache_idx); Ok (ss_active s && (ss_ssrc s =? ssrc))
  else Ok false.
(** The states, the cache index and the slot. *)
Definition srtp_get_ssrc_state (states : list ssrc_state) (ssrc cache_idx : Z)
  : res (list ssrc_state * Z * option nat) :=
  hit ← cached_hit states ssrc cache_idx;
  if (hit : bool) then Ok (states, cache_idx, Some (Z.to_nat cache_idx)) else
  found ← scan_ssrc NANORTC_MAX_SSRC_MAP 0 states ssrc;
  match found with
  | Some i => Ok (states, Z.of_nat i, Some i)
  | None =>
      free ← scan_free NANORTC_MAX_SSRC_MAP 0 states;
      match free with
      | Some i => Ok (<[i := SsrcState ssrc 0 0 true]> states, Z.of_nat i, Some i)
      | None => Ok (states, cache_idx, None)
      end
  end.

(** The header length of the first [len] octets. *)
Definition srtp_parse_hdr_len (packet : list Z) (len : nat) : res nat :=
  p0 ← rd8 packet 0;
  let cc := Z.land p0 0x0F in
  let hdr_len := (SRTP_RTP_HEADER_SIZE + Z.to_nat cc * 4)%nat in
  if (len <? hdr_len)%nat then Err NANORTC_ERR_PARSE else
  if negb (Z.land p0 0x10 =? 0) then
    let remaining := (len - hdr_len)%nat in
    if (remaining <? 4)%nat then Err NANORTC_ERR_PARSE else
    ext_words ← nanortc_read_u16be packet (hdr_len + 2);
    if ((remaining - 4) / 4 <? Z.to_nat ext_words)%nat then Err NANORTC_ERR_PARSE
    else Ok (hdr_len + (4 + Z.to_nat ext_words * 4))%nat
  else Ok hdr_len.

(** The constant-time comparison: the accumulated difference. *)
Fixpoint tag_diff (n i : nat) (diff : Z) (a b : list Z) : res Z :=
  match n with
  | O => Ok diff
  | S n => x ← rd8 a i; y ← rd8 b i; tag_diff n (S i) (Z.lor diff (Z.lxor x y)) a b
  end.

(** The receiver's rollover counter for [seq]. *)
Definition estimate_roc (ss : ssrc_state) (seq : Z) : Z :=
  if negb (ss_seq_max ss =? 0) || negb (ss_roc ss =? 0) then
    if i16 (seq - ss_seq_max ss) <? - 0x4000 then u32 (ss_roc ss + 1)
    else if (0x4000 <? i16 (seq - ss_seq_max ss)) && (0 <? ss_roc ss) then u32 (ss_roc ss - 1)
    else ss_roc ss
  else ss_roc ss.

Section Crypto.
(** The provider's [aes_128_cm] (key, IV, input; its code and what it leaves in
    the output buffer) and [hmac_sha1_80] (key, input; the tag). *)
Context (aes_128_cm : list Z -> list Z -> list Z -> Z * list Z).
Context (hmac_sha1_80 : list Z -> list Z -> list Z).

(** * Key derivation *)

Definition srtp_kdf (master_key master_salt : list Z) (label : Z) (out_len : nat) : res (list Z) :=
  if (SRTP_KDF_MAX_OUT <? out_len)%nat then Err NANORTC_ERR_INVALID_PARAM else
  salt ← rdn master_salt 0 NANORTC_SRTP_SALT_SIZE;
  let iv := xor_at (salt ++ [0; 0]) 7 label in
  let derive_len := if (out_len <=? 16)%nat then 16%nat else 32%nat in
  let '(rc, derived) := aes_128_cm master_key iv (replicate derive_len 0) in
  if negb (rc =? 0) then Err NANORTC_ERR_CRYPTO else rdn derived 0 out_len.

(** One derivation into a field, and what follows when it succeeds. *)
Definition derive (master_key master_salt : list Z) (label : Z) (n : nat) (put : list Z -> srtp_keys)
    (k : srtp_keys) (next : srtp_keys -> res (srtp_keys * Z)) : res (srtp_keys * Z) :=
  match srtp_kdf master_key master_salt label n with
  | Ok out => next (put out)
  | Err rc => Ok (k, rc)
  | Fault => Fault
  end.
(** The six derivations of the sending keys and the six of the receiving keys. *)
Definition derive_send (mk ms : list Z) (k : srtp_keys) (next : srtp_keys -> res (srtp_keys * Z)) : res (srtp_keys * Z) :=
  derive mk ms SRTP_LABEL_RTP_CIPHER NANORTC_SRTP_KEY_SIZE
    (fun x => SrtpKeys x (send_auth_key k) (send_salt k) (recv_key k) (recv_auth_key k) (recv_salt k)
       (send_rtcp_key k) (send_rtcp_auth_key k) (send_rtcp_salt k) (recv_rtcp_key k) (recv_rtcp_auth_key k) (recv_rtcp_salt k)) k (fun k =>
  derive mk ms SRTP_LABEL_RTP_AUTH NANORTC_SRTP_AUTH_KEY_SIZE
    (fun x => SrtpKeys (send_key k) x (send_salt k) (recv_key k) (recv_auth_key k) (recv_salt k)
       (send_rtcp_key k) (send_rtcp_auth_key k) (send_rtcp_salt k) (recv_rtcp_key k) (recv_rtcp_auth_key k) (recv_rtcp_salt k)) k (fun k =>
  derive mk ms SRTP_LABEL_RTP_SALT NANORTC_SRTP_SALT_SIZE
    (fun x => SrtpKeys (send_key k) (send_auth_key k) x (recv_key k) (recv_auth_key k) (recv_salt k)
       (send_rtcp_key k) (send_rtcp_auth_key k) (send_rtcp_salt k) (recv_rtcp_key k) (recv_rtcp_auth_key k) (recv_rtcp_salt k)) k (fun k =>
  derive mk ms SRTP_LABEL_RTCP_CIPHER NANORTC_SRTP_KEY_SIZE
    (fun x => SrtpKeys (send_key k) (send_auth_key k) (send_salt k) (recv_key k) (recv_auth_key k) (recv_salt k)
       x (send_rtcp_auth_key k) (send_rtcp_salt k) (recv_rtcp_key k) (recv_rtcp_auth_key k) (recv_rtcp_salt k)) k (fun k =>
  derive mk ms SRTP_LABEL_RTCP_AUTH NANORTC_SRTP_AUTH_KEY_SIZE
    (fun x => SrtpKeys (send_key k) (send_auth_key k) (send_salt k) (recv_key k) (recv_auth_key k) (recv_salt k)
       (send_rtcp_key k) x (send_rtcp_salt k) (recv_rtcp_key k) (recv_rtcp_auth_key k) (recv_rtcp_salt k)) k (fun k =>
  derive mk ms SRTP_LABEL_RTCP_SALT NANORTC_SRTP_SALT_SIZE
    (fun x => SrtpKeys (send_key k) (send_auth_key k) (send_salt k) (recv_key k) (recv_auth_key k) (recv_salt k)
       (send_rtcp_key k) (send_rtcp_auth_key k) x (recv_rtcp_key k) (recv_rtcp_auth_key k) (recv_rtcp_salt k)) k next))))).
Definition derive_recv (mk ms : list Z) (k : srtp_keys) (next : srtp_keys -> res (srtp_keys * Z)) : res (srtp_keys * Z) :=
  derive mk ms SRTP_LABEL_RTP_CIPHER NANORTC_SRTP_KEY_SIZE
    (fun x => SrtpKeys (send_key k) (send_auth_key k) (send_salt k) x (recv_auth_key k) (recv_salt k)
       (send_rtcp_key k) (send_rtcp_auth_key k) (send_rtcp_salt k) (recv_rtcp_key k) (recv_rtcp_auth_key k) (recv_rtcp_salt k)) k (fun k =>
  derive mk ms SRTP_LABEL_RTP_AUTH NANORTC_SRTP_AUTH_KEY_SIZE
    (fun x => SrtpKeys (send_key k) (send_auth_key k) (send_salt k) (recv_key k) x (recv_salt k)
       (send_rtcp_key k) (send_rtcp_auth_key k) (send_rtcp_salt k) (recv_rtcp_key k) (recv_rtcp_auth_key k) (recv_rtcp_salt k)) k (fun k =>
  derive mk ms SRTP_LABEL_RTP_SALT NANORTC_SRTP_SALT_SIZE
    (fun x => SrtpKeys (send_key k) (send_auth_key k) (send_salt k) (recv_key k) (recv_auth_key k) x
       (send_rtcp_key k) (send_rtcp_auth_key k) (send_rtcp_salt k) (recv_rtcp_key k) (recv_rtcp_auth_key k) (recv_rtcp_salt k)) k (fun k =>
  derive mk ms SRTP_LABEL_RTCP_CIPHER NANORTC_SRTP_KEY_SIZE
    (fun x => SrtpKeys (send_key k) (send_auth_key k) (send_salt k) (recv_key k) (recv_auth_key k) (recv_salt k)
       (send_rtcp_key k) (send_rtcp_auth_key k) (send_rtcp_salt k) x (recv_rtcp_auth_key k) (recv_rtcp_salt k)) k (fun k =>
  derive mk ms SRTP_LABEL_RTCP_AUTH NANORTC_SRTP_AUTH_KEY_SIZE
    (fun x => SrtpKeys (send_key k) (send_auth_key k) (send_salt k) (recv_key k) (recv_auth_key k) (recv_salt k)
       (send_rtcp_key k) (send_rtcp_auth_key k) (send_rtcp_salt k) (recv_rtcp_key k) x (recv_rtcp_salt k)) k (fun k =>
  derive mk ms SRTP_LABEL_RTCP_SALT NANORTC_SRTP_SALT_SIZE
    (fun x => SrtpKeys (send_key k) (send_auth_key k) (send_salt k) (recv_key k) (recv_auth_key k) (recv_salt k)
       (send_rtcp_key k) (send_rtcp_auth_key k) (send_rtcp_salt k) (recv_rtcp_key k) (recv_rtcp_auth_key k) x) k next))))).

Definition nano_srtp_derive_keys (s : nano_srtp) (keying_material : list Z) (len : nat) : res (nano_srtp * Z) :=
  if (len <? 60)%nat then Ok (s, NANORTC_ERR_INVALID_PARAM) else
  client_key ← rdn keying_material 0 16;
  server_key ← rdn keying_material 16 16;
  client_salt ← rdn keying_material 32 14;
  server_salt ← rdn keying_material 46 14;
  let '(send_mk, send_ms, recv_mk, recv_ms) :=
    if is_client s then (client_key, client_salt, server_key, server_salt)
    else (server_key, server_salt, client_key, client_salt) in
  '(k, rc) ← derive_send send_mk send_ms (sr_keys s) (fun k =>
               derive_recv recv_mk recv_ms k (fun k => Ok (k, NANORTC_OK)));
  let s := set_keys s k in
  if rc =? NANORTC_OK then Ok (set_ready s, rc) else Ok (s, rc).

(** * Protection *)

(** En- or decryption in place of [n] octets at [off]: the code and the packet. *)
Definition srtp_crypt (key salt : list Z) (ssrc index : Z) (packet : list Z) (off n : nat) : res (Z * list Z) :=
  iv ← srtp_compute_iv salt ssrc index;
  data ← rdn packet off n;
  let '(rc, out) := aes_128_cm key iv data in
  packet ← wr packet off out;
  Ok (rc, packet).

(** The state, the packet and the error code or [*out_len]. *)
Definition srtp_result : Type := nano_srtp * list Z * (Z + nat).

Definition nano_srtp_protect (s : nano_srtp) (packet : list Z) (len : nat) : res srtp_result :=
  if negb (sr_ready s) then Ok (s, packet, inl NANORTC_ERR_INVALID_PARAM) else
  if (len <? SRTP_RTP_HEADER_SIZE)%nat then Ok (s, packet, inl NANORTC_ERR_INVALID_PARAM) else
  seq ← nanortc_read_u16be packet 2;
  ssrc ← nanortc_read_u32be packet 8;
  match srtp_parse_hdr_len packet len with
  | Fault => Fault
  | Err rc => Ok (s, packet, inl rc)
  | Ok hdr_len =>
      '(states, cache, slot) ← srtp_get_ssrc_state (ssrc_states s) ssrc (last_send_idx s);
      let s := set_send_idx (set_states s states) cache in
      match slot with
      | None => Ok (s, packet, inl NANORTC_ERR_BUFFER_TOO_SMALL)
      | Some i =>
          ss ← get_ss states i;
          let index := Z.lor (Z.shiftl (ss_roc ss) 16) seq in
          let payload_len := (len - hdr_len)%nat in
          '(rc, packet) ← (if (0 <? payload_len)%nat
                           then srtp_crypt (send_key (sr_keys s)) (send_salt (sr_keys s)) ssrc index packet hdr_len payload_len
                           else Ok (0, packet));
          if negb (rc =? 0) then Ok (s, packet, inl NANORTC_ERR_CRYPTO) else
          packet ← wr packet len (be32 (ss_roc ss));
          data ← rdn packet 0 (len + 4);
          packet ← wr packet len (hmac_sha1_80 (send_auth_key (sr_keys s)) data);
          let roc := if seq =? 0xFFFF then u32 (ss_roc ss + 1) else ss_roc ss in
          Ok (set_states s (<[i := SsrcState (ss_ssrc ss) roc seq (ss_active ss)]> states), packet,
              inr (len + NANORTC_SRTP_AUTH_TAG_SIZE)%nat)
      end
  end.

Definition nano_srtp_protect_rtcp (s : nano_srtp) (packet : list Z) (len : nat) : res srtp_result :=
  if negb (sr_ready s) then Ok (s, packet, inl NANORTC_ERR_INVALID_PARAM) else
  if (len <? 8)%nat then Ok (s, packet, inl NANORTC_ERR_INVALID_PARAM) else
  ssrc ← nanortc_read_u32be packet 4;
  let index := srtcp_send_index s in
  let payload_len := (len - 8)%nat in
  '(rc, packet) ← (if (0 <? payload_len)%nat
                   then srtp_crypt (send_rtcp_key (sr_keys s)) (send_rtcp_salt (sr_keys s)) ssrc index packet 8 payload_len
                   else Ok (0, packet));
  if negb (rc =? 0) then Ok (s, packet, inl NANORTC_ERR_CRYPTO) else
  let e_and_index := Z.lor (Z.shiftl 1 31) (Z.land index 0x7FFFFFFF) in
  packet ← wr packet len (be32 e_and_index);
  data ← rdn packet 0 (len + 4);
  packet ← wr packet (len + 4) (hmac_sha1_80 (send_rtcp_auth_key (sr_keys s)) data);
  Ok (set_srtcp_index s (u32 (srtcp_send_index s + 1)), packet, inr (len + NANORTC_SRTCP_OVERHEAD)%nat).

Definition nano_srtp_unprotect_rtcp (s : nano_srtp) (packet : list Z) (len : nat) : res srtp_result :=
  if negb (sr_ready s) then Ok (s, packet, inl NANORTC_ERR_INVALID_PARAM) else
  if (len <? 8 + NANORTC_SRTCP_OVERHEAD)%nat then Ok (s, packet, inl NANORTC_ERR_INVALID_PARAM) else
  let auth_start := (len - NANORTC_SRTP_AUTH_TAG_SIZE)%nat in
  let rtcp_len := (auth_start - 4)%nat in
  recv_tag ← rdn packet auth_start NANORTC_SRTP_AUTH_TAG_SIZE;
  data ← rdn packet 0 auth_start;
  let computed_tag := hmac_sha1_80 (recv_rtcp_auth_key (sr_keys s)) data in
  diff ← tag_diff NANORTC_SRTP_AUTH_TAG_SIZE 0 0 recv_tag computed_tag;
  if negb (diff =? 0) then Ok (s, packet, inl NANORTC_ERR_CRYPTO) else
  e_and_index ← nanortc_read_u32be packet rtcp_len;
  let encrypted := Z.land (Z.shiftr e_and_index 31) 1 in
  let index := Z.land e_and_index 0x7FFFFFFF in
  '(rc, packet) ← (if negb (encrypted =? 0) && (8 <? rtcp_len)%nat
                   then ssrc ← nanortc_read_u32be packet 4;
                        srtp_crypt (recv_rtcp_key (sr_keys s)) (recv_rtcp_salt (sr_keys s)) ssrc index packet 8 (rtcp_len - 8)
                   else Ok (0, packet));
  if negb (rc =? 0) then Ok (s, packet, inl NANORTC_ERR_CRYPTO) else Ok (s, packet, inr rtcp_len).

Definition nano_srtp_unprotect (s : nano_srtp) (packet : list Z) (len : nat) : res srtp_result :=
  if negb (sr_ready s) then Ok (s, packet, inl NANORTC_ERR_INVALID_PARAM) else
  if (len <? SRTP_RTP_HEADER_SIZE + NANORTC_SRTP_AUTH_TAG_SIZE)%nat then Ok (s, packet, inl NANORTC_ERR_INVALID_PARAM) else
  seq ← nanortc_read_u16be packet 2;
  ssrc ← nanortc_read_u32be packet 8;
  let srtp_len := (len - NANORTC_SRTP_AUTH_TAG_SIZE)%nat in
  match srtp_parse_hdr_len packet srtp_len with
  | Fault => Fault
  | Err rc => Ok (s, packet, inl rc)
  | Ok hdr_len =>
      '(states, cache, slot) ← srtp_get_ssrc_state (ssrc_states s) ssrc (last_recv_idx s);
      let s := set_recv_idx (set_states s states) cache in
      match slot with
      | None => Ok (s, packet, inl NANORTC_ERR_BUFFER_TOO_SMALL)
      | Some i =>
          ss ← get_ss states i;
          let est_roc := estimate_roc ss seq in
          let index := Z.lor (Z.shiftl est_roc 16) seq in
          recv_tag ← rdn packet srtp_len NANORTC_SRTP_AUTH_TAG_SIZE;
          packet ← wr packet srtp_len (be32 est_roc);
          data ← rdn packet 0 (srtp_len + 4);
          let computed_tag := hmac_sha1_80 (recv_auth_key (sr_keys s)) data in
          packet ← wr packet srtp_len recv_tag;
          diff ← tag_diff NANORTC_SRTP_AUTH_TAG_SIZE 0 0 recv_tag computed_tag;
          if negb (diff =? 0) then Ok (s, packet, inl NANORTC_ERR_CRYPTO) else
          let payload_len := (srtp_len - hdr_len)%nat in
          '(rc, packet) ← (if (0 <? payload_len)%nat
                           then srtp_crypt (recv_key (sr_keys s)) (recv_salt (sr_keys s)) ssrc index packet hdr_len payload_len
                           else Ok (0, packet));
          if negb (rc =? 0) then Ok (s, packet, inl NANORTC_ERR_CRYPTO) else
          let s := if (ss_roc ss <? est_roc) || ((est_roc =? ss_roc ss) && (0 <? i16 (seq - ss_seq_max ss)))
                   then set_states s (<[i := SsrcState (ss_ssrc ss) est_roc seq (ss_active ss)]> states) else s in
          Ok (s, packet, inr srtp_len)
      end
  end.

End Crypto.

(** * The SSRC table *)

(** The table is sized, and an SSRC is active in at most one slot. *)
Record ssrc_table_ok (states : list ssrc_state) : Prop := {
  st_length : length states = NANORTC_MAX_SSRC_MAP;
  st_distinct : forall i j a b, states !! i = Some a -> states !! j = Some b ->
    ss_active a = true -> ss_active b = true -> ss_ssrc a = ss_ssrc b -> i = j
}.
(** The state an SSRC is tracked with. *)
Definition tracks (states : list ssrc_state) (ssrc : Z) (ss : ssrc_state) : Prop :=
  exists i, states !! i = Some ss /\ ss_active ss = true /\ ss_ssrc ss = ssrc.
(** The state a lookup starts from: the tracked one, or a fresh one when there is room. *)
Definition starts (states : list ssrc_state) (ssrc : Z) (ss : ssrc_state) : Prop :=
  tracks states ssrc ss \/
  (forall s, ~ tracks states ssrc s) /\ ss = SsrcState ssrc 0 0 true /\
  exists i s, states !! i = Some s /\ ss_active s = false.

Lemma get_ss_Ok states i : (i < length states)%nat -> exists s, get_ss states i = Ok s /\ states !! i = Some s.
Proof. intros Hi. destruct (lookup_lt_is_Some_2 states i Hi) as [s Hs]. exists s. unfold get_ss. by rewrite Hs. Qed.

Lemma hit_true s ssrc : ss_active s && (ss_ssrc s =? ssrc) = true <-> ss_active s = true /\ ss_ssrc s = ssrc.
Proof. by rewrite andb_true_iff, Z.eqb_eq. Qed.
Lemma scan_ssrc_spec n i states ssrc :
  (i + n = length states)%nat ->
  exists r, scan_ssrc n i states ssrc = Ok r /\
    match r with
    | Some j => exists s, states !! j = Some s /\ ss_active s = true /\ ss_ssrc s = ssrc
    | None => forall j s, states !! j = Some s -> (i <= j)%nat -> ~ (ss_active s = true /\ ss_ssrc s = ssrc)
    end.
Proof.
  revert i. induction n as [|n IH]; intros i Hi; cbn [scan_ssrc].
  - exists None. split; [done|]. intros j s Hj Hij. apply lookup_lt_Some in Hj. lia.
  - destruct (get_ss_Ok states i ltac:(lia)) as (s & -> & Hs). rewrite bind_Ok.
    destruct (_ && _) eqn:Hh; [exists (Some i); split; [done|]; exists s; by rewrite <- hit_true|].
    destruct (IH (S i) ltac:(lia)) as (r & -> & Hr). exists r. split; [done|]. destruct r as [j|]; [done|].
    intros j s' Hj Hij. destruct (decide (j = i)) as [->|]; [|apply (Hr j); [done|lia]].
    rewrite <- hit_true. congruence.
Qed.
Lemma scan_free_spec n i states :
  (i + n = length states)%nat ->
  exists r, scan_free n i states = Ok r /\
    match r with
    | Some j => exists s, states !! j = Some s /\ ss_active s = false
    | None => forall j s, states !! j = Some s -> (i <= j)%nat -> ss_active s = true
    end.
Proof.
  revert i. induction n as [|n IH]; intros i Hi; cbn [scan_free].
  - exists None. split; [done|]. intros j s Hj Hij. apply lookup_lt_Some in Hj. lia.
  - destruct (get_ss_Ok states i ltac:(lia)) as (s & -> & Hs). rewrite bind_Ok.
    destruct (ss_active s) eqn:Hh; cbn [negb]; [|by exists (Some i); split; [|exists s]].
    destruct (IH (S i) ltac:(lia)) as (r & -> & Hr). exists r. split; [done|]. destruct r as [j|]; [done|].
    intros j s' Hj Hij. destruct (decide (j = i)) as [->|]; [congruence | apply (Hr j); [done|lia]].
Qed.

(** A lookup returns the slot of the SSRC's state, tracked or fresh, and
    changes no other SSRC; it fails only when the table is full. *)
Definition same_tracks (ssrc : Z) (a b : list ssrc_state) : Prop :=
  forall other s, other <> ssrc -> tracks a other s <-> tracks b other s.

Lemma tracks_fun states ssrc a b :
  ssrc_table_ok states -> tracks states ssrc a -> tracks states ssrc b -> a = b.
Proof.
  intros Hok (i & Hi & Ha & Hia) (j & Hj & Hb & Hjb).
  assert (i = j) as -> by (eapply st_distinct; [done..|congruence]). congruence.
Qed.
Lemma table_insert states i old s :
  ssrc_table_ok states -> states !! i = Some old -> ss_active s = true ->
  (forall j b, states !! j = Some b -> ss_active b = true -> ss_ssrc b = ss_ssrc s -> j = i) ->
  (ss_active old = true -> ss_ssrc old = ss_ssrc s) ->
  ssrc_table_ok (<[i := s]> states) /\ tracks (<[i := s]> states) (ss_ssrc s) s /\
  same_tracks (ss_ssrc s) states (<[i := s]> states).
Proof.
  intros Hok Hi Hs Huniq Hold. assert (i < length states)%nat as Hlt by (by eapply lookup_lt_Some).
  split_and!.
  - split; [rewrite length_insert; apply Hok|]. intros j k a b Hj Hk Ha Hb He.
    destruct (decide (i = j)) as [<-|Hij], (decide (i = k)) as [<-|Hik]; [done | | |].
    + rewrite list_lookup_insert_eq in Hj by done. injection Hj as <-. rewrite list_lookup_insert_ne in Hk by done.
      symmetry. by eapply Huniq.
    + rewrite list_lookup_insert_eq in Hk by done. injection Hk as <-. rewrite list_lookup_insert_ne in Hj by done.
      by eapply Huniq.
    + rewrite list_lookup_insert_ne in Hj, Hk by done. by eapply st_distinct.
  - exists i. by rewrite list_lookup_insert_eq.
  - intros other x Hne. unfold tracks. split; intros (j & Hj & Hax & Hx); exists j.
    + rewrite list_lookup_insert_ne; [done|]. intros ->. replace old with x in Hold by congruence. by rewrite <- Hold in Hne.
    + destruct (decide (i = j)) as [->|]; [|by rewrite list_lookup_insert_ne in Hj].
      rewrite list_lookup_insert_eq in Hj by done. injection Hj as <-. by destruct Hne.
Qed.

Lemma starts_fun states ssrc a b :
  ssrc_table_ok states -> starts states ssrc a -> starts states ssrc b -> a = b.
Proof.
  intros Hok [Ha|(Hna & -> & _)] [Hb|(Hnb & -> & _)]; [by eapply tracks_fun | | |done].
  - by destruct (Hnb a).
  - by destruct (Hna b).
Qed.

Lemma cached_hit_spec states ssrc cache :
  length states = NANORTC_MAX_SSRC_MAP ->
  exists b, cached_hit states ssrc cache = Ok b /\
    (b = true -> exists s, states !! Z.to_nat cache = Some s /\ ss_active s = true /\ ss_ssrc s = ssrc).
Proof.
  intros Hl. unfold cached_hit. destruct (_ && _) eqn:Hg; [|by exists false].
  apply andb_prop in Hg as [Hge Hlt]. bool_facts.
  destruct (get_ss_Ok states (Z.to_nat cache) ltac:(lia)) as (s & -> & Hs). rewrite bind_Ok.
  eexists. split; [done|]. intros Hh. exists s. by rewrite <- hit_true.
Qed.

Lemma get_ssrc_state_spec states ssrc cache :
  ssrc_table_ok states ->
  exists states' cache' slot, srtp_get_ssrc_state states ssrc cache = Ok (states', cache', slot) /\
    ssrc_table_ok states' /\ same_tracks ssrc states states' /\
    match slot with
    | Some i => exists ss, states' !! i = Some ss /\ ss_active ss = true /\ ss_ssrc ss = ssrc /\ starts states ssrc ss
    | None => states' = states /\ forall ss, ~ starts states ssrc ss
    end.
Proof.
  intros Hok. pose proof (st_length _ Hok) as Hlen. unfold srtp_get_ssrc_state.
  destruct (cached_hit_spec states ssrc cache Hlen) as (b & -> & Hb). rewrite bind_Ok. destruct b.
  { destruct (Hb eq_refl) as (s & Hs & Ha & Hi). do 3 eexists. split; [done|]. split; [done|]. split; [done|].
    exists s. split_and!; [done..|]. left. by exists (Z.to_nat cache). }
  destruct (scan_ssrc_spec NANORTC_MAX_SSRC_MAP 0 states ssrc ltac:(lia)) as (r & -> & Hr). rewrite bind_Ok.
  destruct r as [i|].
  { destruct Hr as (s & Hs & Ha & Hi). do 3 eexists. split; [done|]. split; [done|]. split; [done|].
    exists s. split_and!; [done..|]. left. by exists i. }
  assert (forall s, ~ tracks states ssrc s) as Hnone.
  { intros s (i & Hi & Ha & Hs). by apply (Hr i s); [|lia|]. }
  destruct (scan_free_spec NANORTC_MAX_SSRC_MAP 0 states ltac:(lia)) as (f & -> & Hf). rewrite bind_Ok.
  destruct f as [i|].
  - destruct Hf as (old & Ho & Hoa). do 3 eexists. split; [done|].
    destruct (table_insert states i old (SsrcState ssrc 0 0 true)) as (Hok' & (j & Hj & Haj & Hsj) & Hsame); [done..| |congruence|].
    { intros j b Hj Hba Hbs. destruct (Hnone b). by exists j. }
    split; [done|]. split; [done|]. exists (SsrcState ssrc 0 0 true).
    rewrite list_lookup_insert_eq by (by eapply lookup_lt_Some). split_and!; try done.
    right. split_and!; [done..|]. by exists i, old.
  - do 3 eexists. split; [done|]. split; [done|]. split; [done|]. split; [done|].
    intros ss [Ht|(_ & _ & i & s & Hi & Hs)]; [by eapply Hnone|].
    specialize (Hf i s Hi). rewrite Hf in Hs; [done|lia].
Qed.

(** Updating the slot of an SSRC. *)
Lemma update_slot states i ss ss' :
  ssrc_table_ok states -> states !! i = Some ss -> ss_active ss = true ->
  ss_active ss' = true -> ss_ssrc ss' = ss_ssrc ss ->
  ssrc_table_ok (<[i := ss']> states) /\ tracks (<[i := ss']> states) (ss_ssrc ss) ss' /\
  same_tracks (ss_ssrc ss) states (<[i := ss']> states).
Proof.
  intros Hok Hi Ha Ha' He. rewrite <- He. apply table_insert with (old := ss); try done.
  intros j b Hj Hb Hbs. eapply st_distinct; [done..|congruence].
Qed.
Lemma same_tracks_trans ssrc a b c : same_tracks ssrc a b -> same_tracks ssrc b c -> same_tracks ssrc a c.
Proof. intros Hab Hbc other s Hne. etrans; [by apply Hab | by apply Hbc]. Qed.

(** * Lengths and octets *)

Lemma xor_at_length iv i x : length (xor_at iv i x) = length iv.
Proof. apply length_insert. Qed.
Lemma xor_salt_Ok n i iv salt :
  (i + n <= length salt)%nat -> exists iv', xor_salt n i iv salt = Ok iv' /\ length iv' = length iv.
Proof.
  revert i iv. induction n as [|n IH]; intros i iv Hi; cbn [xor_salt]; [by exists iv|].
  rewrite rd8_Ok, bind_Ok by lia. destruct (IH (S i) (xor_at iv i (nth i salt 0))) as (iv' & -> & Hl); [lia|].
  exists iv'. by rewrite Hl, xor_at_length.
Qed.
Lemma compute_iv_Ok salt ssrc index :
  length salt = NANORTC_SRTP_SALT_SIZE -> exists iv, srtp_compute_iv salt ssrc index = Ok iv /\ length iv = 16%nat.
Proof.
  intros Hl. unfold srtp_compute_iv. cbv zeta. edestruct xor_salt_Ok as (iv & Hiv & Hlen); [|exists iv; split; [exact Hiv|]].
  - by rewrite Hl.
  - rewrite Hlen. by rewrite !xor_at_length, !length_insert.
Qed.

Lemma tag_diff_zero n i d a b :
  (i + n <= length a)%nat -> (i + n <= length b)%nat ->
  exists r, tag_diff n i d a b = Ok r /\
    (r = 0 <-> d = 0 /\ take n (drop i a) = take n (drop i b)).
Proof.
  revert i d. induction n as [|n IH]; intros i d Ha Hb; cbn [tag_diff].
  { exists d. split; [done|]. cbn [take]. tauto. }
  rewrite !rd8_Ok by lia. rewrite !bind_Ok.
  destruct (lookup_lt_is_Some_2 a i ltac:(lia)) as [x Hx], (lookup_lt_is_Some_2 b i ltac:(lia)) as [y Hy].
  rewrite (nth_lookup_Some _ _ _ _ Hx), (nth_lookup_Some _ _ _ _ Hy).
  destruct (IH (S i) (Z.lor d (Z.lxor x y))) as (r & -> & Hr); [lia..|]. exists r. split; [done|].
  rewrite Hr, Z.lor_eq_0_iff, Z.lxor_eq_0_iff, (drop_S a x i), (drop_S b y i) by done. cbn [take].
  split; [intros [[-> ->] ->] | intros [-> [= -> ->]]]; done.
Qed.
Lemma tag_diff_spec a b :
  length a = NANORTC_SRTP_AUTH_TAG_SIZE -> length b = NANORTC_SRTP_AUTH_TAG_SIZE ->
  exists r, tag_diff NANORTC_SRTP_AUTH_TAG_SIZE 0 0 a b = Ok r /\ (r =? 0) = bool_decide (a = b).
Proof.
  intros Ha Hb. destruct (tag_diff_zero NANORTC_SRTP_AUTH_TAG_SIZE 0 0 a b) as (r & -> & Hr); [lia..|].
  exists r. split; [done|]. rewrite !drop_0, !take_ge in Hr by lia. apply Bool.eq_true_iff_eq.
  rewrite Z.eqb_eq, bool_decide_eq_true. tauto.
Qed.

(** * What the packet functions compute *)

Lemma lookup_agree (a b : list Z) h i : take h a = take h b -> (i < h)%nat -> a !! i = b !! i.
Proof. intros He Hi. by rewrite <- (lookup_take_lt a h i), He, lookup_take_lt. Qed.
Lemma rd8_agree a b h i : take h a = take h b -> (i < h)%nat -> rd8 a i = rd8 b i.
Proof. intros He Hi. unfold rd8. by rewrite (lookup_agree a b h i). Qed.
Lemma read_u16be_agree a b h i :
  take h a = take h b -> (i + 1 < h)%nat -> nanortc_read_u16be a i = nanortc_read_u16be b i.
Proof. intros He Hi. unfold nanortc_read_u16be. by rewrite !(rd8_agree a b h) by (done || lia). Qed.
Lemma read_u32be_agree a b h i :
  take h a = take h b -> (i + 3 < h)%nat -> nanortc_read_u32be a i = nanortc_read_u32be b i.
Proof. intros He Hi. unfold nanortc_read_u32be. by rewrite !(rd8_agree a b h) by (done || lia). Qed.

(** The header length depends on the header only. *)
Lemma parse_hdr_agree a b len h :
  srtp_parse_hdr_len a len = Ok h -> take h a = take h b -> srtp_parse_hdr_len b len = Ok h.
Proof.
  intros Ha He. assert (12 <= h)%nat as Hh.
  { revert Ha. unfold srtp_parse_hdr_len, SRTP_RTP_HEADER_SIZE. intros Ha. bind_inv Ha. cbv zeta in Ha.
    destruct (_ <? _)%nat; [done|]. destruct (negb _); [|injection Ha; lia]. destruct (_ <? 4)%nat; [done|].
    bind_inv Ha. destruct (_ <? _)%nat; [done|]. injection Ha. lia. }
  unfold srtp_parse_hdr_len in *. rewrite <- (rd8_agree a b h 0) by (done || lia).
  bind_inv Ha. rewrite Hx, bind_Ok. cbv zeta in *. destruct (_ <? _)%nat; [done|]. destruct (negb _); [|done].
  destruct (_ <? 4)%nat; [done|]. bind_inv Ha. destruct (_ <? _)%nat eqn:Hg; [done|].
  assert (h = SRTP_RTP_HEADER_SIZE + Z.to_nat (Z.land x 15) * 4 + (4 + Z.to_nat x0 * 4))%nat as Hh' by congruence.
  rewrite <- (read_u16be_agree a b h), Hx0, bind_Ok by (done || lia). by rewrite Hg.
Qed.
Lemma parse_hdr_min a len h : srtp_parse_hdr_len a len = Ok h -> (12 <= h <= len)%nat.
Proof.
  unfold srtp_parse_hdr_len, SRTP_RTP_HEADER_SIZE. intros Ha. bind_inv Ha. cbv zeta in Ha.
  destruct (_ <? _)%nat eqn:H1; [done|]. bool_facts. destruct (negb _); [|injection Ha; lia].
  destruct (_ <? 4)%nat eqn:H2; [done|]. bool_facts. bind_inv Ha. destruct (_ <? _)%nat eqn:H3; [done|]. bool_facts.
  injection Ha. pose proof (Nat.div_mod (len - (12 + Z.to_nat (Z.land x 15) * 4) - 4) 4 ltac:(lia)). lia.
Qed.

(** The keys' sizes, and that one endpoint's sending keys are another's receiving keys. *)
Record keys_ok (k : srtp_keys) : Prop := {
  ko_send : length (send_salt k) = NANORTC_SRTP_SALT_SIZE;
  ko_recv : length (recv_salt k) = NANORTC_SRTP_SALT_SIZE;
  ko_send_rtcp : length (send_rtcp_salt k) = NANORTC_SRTP_SALT_SIZE;
  ko_recv_rtcp : length (recv_rtcp_salt k) = NANORTC_SRTP_SALT_SIZE
}.
Record keys_match (snd rcv : srtp_keys) : Prop := {
  km_key : send_key snd = recv_key rcv;
  km_auth : send_auth_key snd = recv_auth_key rcv;
  km_salt : send_salt snd = recv_salt rcv;
  km_rtcp_key : send_rtcp_key snd = recv_rtcp_key rcv;
  km_rtcp_auth : send_rtcp_auth_key snd = recv_rtcp_auth_key rcv;
  km_rtcp_salt : send_rtcp_salt snd = recv_rtcp_salt rcv
}.
(** A session ready for packets. *)
Record session_ok (s : nano_srtp) : Prop := {
  so_ready : sr_ready s = true; so_keys : keys_ok (sr_keys s); so_table : ssrc_table_ok (ssrc_states s)
}.

(** What is assumed of the provider: the cipher succeeds, keeps the length and is
    its own inverse for a key and an IV (counter mode); the tag has ten octets. *)
Record provider_laws (aes_128_cm : list Z -> list Z -> list Z -> Z * list Z) (hmac_sha1_80 : list Z -> list Z -> list Z) : Prop := {
  aes_succeeds : forall k iv d, bytes d -> fst (aes_128_cm k iv d) = 0;
  aes_length : forall k iv d, bytes d -> length (snd (aes_128_cm k iv d)) = length d;
  aes_bytes : forall k iv d, bytes d -> bytes (snd (aes_128_cm k iv d));
  aes_inverse : forall k iv d, bytes d -> snd (aes_128_cm k iv (snd (aes_128_cm k iv d))) = d;
  hmac_length : forall k d, length (hmac_sha1_80 k d) = NANORTC_SRTP_AUTH_TAG_SIZE
}.

Section Packets.
Context (aes_128_cm : list Z -> list Z -> list Z -> Z * list Z).
Context (hmac_sha1_80 : list Z -> list Z -> list Z).
Context (Laws : provider_laws aes_128_cm hmac_sha1_80).

Definition cipher (key salt : list Z) (ssrc index : Z) (d : list Z) : list Z :=
  match srtp_compute_iv salt ssrc index with Ok iv => snd (aes_128_cm key iv d) | _ => [] end.
Lemma cipher_length key salt ssrc index d :
  length salt = NANORTC_SRTP_SALT_SIZE -> bytes d -> length (cipher key salt ssrc index d) = length d.
Proof using Laws. intros Hs Hd. unfold cipher. destruct (compute_iv_Ok salt ssrc index Hs) as (iv & -> & _). by apply (aes_length _ _ Laws). Qed.
Lemma cipher_bytes key salt ssrc index d :
  length salt = NANORTC_SRTP_SALT_SIZE -> bytes d -> bytes (cipher key salt ssrc index d).
Proof using Laws. intros Hs Hd. unfold cipher. destruct (compute_iv_Ok salt ssrc index Hs) as (iv & -> & _). by apply (aes_bytes _ _ Laws). Qed.
Lemma cipher_inverse key salt ssrc index d :
  length salt = NANORTC_SRTP_SALT_SIZE -> bytes d ->
  cipher key salt ssrc index (cipher key salt ssrc index d) = d.
Proof using Laws. intros Hs Hd. unfold cipher. destruct (compute_iv_Ok salt ssrc index Hs) as (iv & -> & _). by apply (aes_inverse _ _ Laws). Qed.

Lemma crypt_eq key salt ssrc index hd body rest off n :
  length salt = NANORTC_SRTP_SALT_SIZE -> bytes body -> off = length hd -> n = length body ->
  (if (0 <? n)%nat then srtp_crypt aes_128_cm key salt ssrc index (hd ++ body ++ rest) off n
   else Ok (0, hd ++ body ++ rest)) = Ok (0, hd ++ cipher key salt ssrc index body ++ rest).
Proof using Laws.
  intros Hs Hb -> ->. pose proof (cipher_length key salt ssrc index body Hs Hb) as Hl.
  destruct (Nat.ltb_spec 0 (length body)) as [Hpos|Hz].
  - unfold srtp_crypt. unfold cipher in *. destruct (compute_iv_Ok salt ssrc index Hs) as (iv & Hiv & _).
    rewrite Hiv in *. rewrite bind_Ok, rdn_mid, bind_Ok by done.
    pose proof (aes_succeeds _ _ Laws key iv body Hb) as H0. destruct (aes_128_cm key iv body) as [rc out]. cbn in *. subst rc.
    by rewrite wr_mid.
  - assert (length (cipher key salt ssrc index body) = 0%nat) as Hz' by lia. apply nil_length_inv in Hz'.
    rewrite Hz'. by replace body with (@nil Z) by (symmetry; apply nil_length_inv; lia).
Qed.

(** The packet [hd ++ c] with the tag under rollover counter [roc]. *)
Definition tag (key hd c : list Z) (roc : Z) : list Z := hmac_sha1_80 key ((hd ++ c) ++ be32 roc).
Definition advance (ss : ssrc_state) (seq : Z) : ssrc_state :=
  SsrcState (ss_ssrc ss) (if seq =? 0xFFFF then u32 (ss_roc ss + 1) else ss_roc ss) seq (ss_active ss).

Lemma tag_length key hd c roc : length (tag key hd c roc) = NANORTC_SRTP_AUTH_TAG_SIZE.
Proof using Laws. apply (hmac_length _ _ Laws). Qed.

(** A datagram: its header, its payload and what its header says. *)
Record rtp_datagram (hd body : list Z) (seq ssrc : Z) : Prop := {
  rd_bytes : bytes hd /\ bytes body;
  rd_hdr : srtp_parse_hdr_len (hd ++ body) (length hd + length body) = Ok (length hd);
  rd_seq : nanortc_read_u16be hd 2 = Ok seq;
  rd_ssrc : nanortc_read_u32be hd 8 = Ok ssrc
}.
Lemma datagram_fields hd body seq ssrc rest len :
  rtp_datagram hd body seq ssrc -> len = (length hd + length body)%nat ->
  nanortc_read_u16be (hd ++ rest) 2 = Ok seq /\ nanortc_read_u32be (hd ++ rest) 8 = Ok ssrc /\
  srtp_parse_hdr_len (hd ++ rest) len = Ok (length hd) /\ (12 <= length hd)%nat.
Proof.
  intros [Hb Hh Hs Hr] ->. pose proof (parse_hdr_min _ _ _ Hh).
  assert (take (length hd) (hd ++ rest) = take (length hd) hd) as He by by rewrite take_app_length, firstn_all.
  split_and!; [| | |lia].
  - rewrite <- Hs. apply read_u16be_agree with (h := length hd); [done|lia].
  - rewrite <- Hr. apply read_u32be_agree with (h := length hd); [done|lia].
  - eapply parse_hdr_agree; [exact Hh|]. by rewrite !take_app_length.
Qed.

Definition packet_index (roc seq : Z) : Z := Z.lor (Z.shiftl roc 16) seq.

Lemma protect_eq s hd body room seq ssrc ss :
  session_ok s -> rtp_datagram hd body seq ssrc -> (NANORTC_SRTP_AUTH_TAG_SIZE <= length room)%nat ->
  starts (ssrc_states s) ssrc ss ->
  let k := sr_keys s in
  let c := cipher (send_key k) (send_salt k) ssrc (packet_index (ss_roc ss) seq) body in
  exists s', nano_srtp_protect aes_128_cm hmac_sha1_80 s (hd ++ body ++ room) (length hd + length body) =
      Ok (s', hd ++ c ++ tag (send_auth_key k) hd c (ss_roc ss) ++ drop NANORTC_SRTP_AUTH_TAG_SIZE room,
          inr (length hd + length body + NANORTC_SRTP_AUTH_TAG_SIZE)%nat) /\
    session_ok s' /\ sr_keys s' = k /\ tracks (ssrc_states s') ssrc (advance ss seq) /\
    same_tracks ssrc (ssrc_states s) (ssrc_states s').
Proof using Laws.
  intros [Hready Hk Htab] Hd Hroom Hstart k c. unfold nano_srtp_protect. rewrite Hready. cbn [negb].
  destruct (datagram_fields hd body seq ssrc (body ++ room) _ Hd eq_refl) as (Hs & Hr & Hh & Hmin).
  rewrite (proj2 (Nat.ltb_ge _ _)) by (unfold SRTP_RTP_HEADER_SIZE; lia). rewrite Hs, bind_Ok, Hr, bind_Ok, Hh.
  destruct (get_ssrc_state_spec (ssrc_states s) ssrc (last_send_idx s) Htab) as (states & cache & slot & -> & Htab' & Hsame & Hslot).
  rewrite bind_Ok. cbv zeta. destruct slot as [i|]; [|by destruct (proj2 Hslot ss)].
  destruct Hslot as (ss' & Hi & Ha & Hid & Hst). assert (ss' = ss) as -> by by apply (starts_fun (ssrc_states s) ssrc).
  unfold get_ss at 1. rewrite Hi, bind_Ok. fold (packet_index (ss_roc ss) seq). cbn [sr_keys set_send_idx set_states].
  rewrite crypt_eq; [|apply Hk|apply Hd|done|lia]. rewrite bind_Ok. cbn [negb Z.eqb]. fold k. fold c.
  assert (length c = length body) as Hc by (apply cipher_length; [apply Hk | apply Hd]).
  unfold NANORTC_SRTP_AUTH_TAG_SIZE in *.
  rewrite (app_assoc hd c room), wr_append, bind_Ok by (rewrite ?length_app; cbn [length be32]; lia).
  rewrite rdn_Ok, bind_Ok by (rewrite !length_app; cbn [length be32]; lia).
  rewrite drop_0, take_app_length' by (rewrite !length_app; cbn [length be32]; lia).
  fold (tag (send_auth_key k) hd c (ss_roc ss)).
  pose proof (tag_length (send_auth_key k) hd c (ss_roc ss)) as Htl. unfold NANORTC_SRTP_AUTH_TAG_SIZE in Htl.
  set (t := tag _ _ _ _) in *.
  replace (((hd ++ c) ++ be32 (ss_roc ss)) ++ drop (length (be32 (ss_roc ss))) room)
    with ((hd ++ c) ++ (be32 (ss_roc ss) ++ take 6 (drop 4 room)) ++ drop 10 room).
  2: { rewrite <- !app_assoc. change (length (be32 (ss_roc ss))) with 4%nat. do 3 f_equal.
       rewrite <- (take_drop 6 (drop 4 room)) at 2. by rewrite drop_drop. }
  rewrite wr_mid, bind_Ok; [|rewrite length_app; lia|rewrite length_app, length_take, length_drop; cbn [length be32]; lia].
  rewrite <- app_assoc. eexists. split; [done|].
  destruct (update_slot states i ss (advance ss seq)) as (Hok & Htr & Hsame'); [done..|]. cbn.
  rewrite Hid in Htr, Hsame'. split_and!; [by split | done | exact Htr | by eapply same_tracks_trans].
Qed.

(** The receiver's state after an accepted packet. *)
Definition accept (rs : ssrc_state) (seq : Z) : ssrc_state :=
  let est := estimate_roc rs seq in
  if (ss_roc rs <? est) || ((est =? ss_roc rs) && (0 <? i16 (seq - ss_seq_max rs)))
  then SsrcState (ss_ssrc rs) est seq (ss_active rs) else rs.

Lemma unprotect_eq r hd c t rest seq ssrc rs :
  session_ok r -> rtp_datagram hd c seq ssrc -> length t = NANORTC_SRTP_AUTH_TAG_SIZE ->
  starts (ssrc_states r) ssrc rs ->
  let k := sr_keys r in
  let est := estimate_roc rs seq in
  let good := bool_decide (t = tag (recv_auth_key k) hd c est) in
  exists r', nano_srtp_unprotect aes_128_cm hmac_sha1_80 r (hd ++ c ++ t ++ rest) (length hd + length c + NANORTC_SRTP_AUTH_TAG_SIZE) =
      Ok (r', if good then hd ++ cipher (recv_key k) (recv_salt k) ssrc (packet_index est seq) c ++ t ++ rest
              else hd ++ c ++ t ++ rest,
          if good then inr (length hd + length c)%nat else inl NANORTC_ERR_CRYPTO) /\
    session_ok r' /\ sr_keys r' = k /\
    tracks (ssrc_states r') ssrc (if good then accept rs seq else rs) /\
    same_tracks ssrc (ssrc_states r) (ssrc_states r').
Proof using Laws.
  intros [Hready Hk Htab] Hd Ht Hstart k est good. unfold nano_srtp_unprotect. rewrite Hready. cbn [negb].
  set (len := (length hd + length c)%nat).
  destruct (datagram_fields hd c seq ssrc (c ++ t ++ rest) len Hd eq_refl) as (Hs & Hr & Hh & Hmin).
  rewrite (proj2 (Nat.ltb_ge _ _)) by (unfold SRTP_RTP_HEADER_SIZE; lia). rewrite Hs, bind_Ok, Hr, bind_Ok.
  replace (len + NANORTC_SRTP_AUTH_TAG_SIZE - NANORTC_SRTP_AUTH_TAG_SIZE)%nat with len by lia. rewrite Hh.
  destruct (get_ssrc_state_spec (ssrc_states r) ssrc (last_recv_idx r) Htab) as (states & cache & slot & -> & Htab' & Hsame & Hslot).
  rewrite bind_Ok. cbv zeta. destruct slot as [i|]; [|by destruct (proj2 Hslot rs)].
  destruct Hslot as (rs' & Hi & Ha & Hid & Hst). assert (rs' = rs) as -> by by apply (starts_fun (ssrc_states r) ssrc).
  unfold get_ss at 1. rewrite Hi, bind_Ok. fold est. fold (packet_index est seq). cbn [sr_keys set_recv_idx set_states].
  assert (len = length (hd ++ c)) as Hlen by (unfold len; by rewrite length_app).
  rewrite (app_assoc hd c (t ++ rest)). rewrite rdn_mid, bind_Ok by done.
  unfold NANORTC_SRTP_AUTH_TAG_SIZE in Ht.
  rewrite (wr_append (hd ++ c) (t ++ rest)), bind_Ok by (rewrite ?length_app; cbn [length be32]; lia).
  rewrite rdn_Ok, bind_Ok by (rewrite !length_app; cbn [length be32]; lia).
  rewrite drop_0, take_app_length' by (rewrite (length_app (hd ++ c)); cbn [length be32]; lia).
  fold k. fold (tag (recv_auth_key k) hd c est).
  change (length (be32 est)) with 4%nat. rewrite drop_app_le by lia.
  rewrite <- (app_assoc (hd ++ c)), (app_assoc (be32 est)).
  rewrite wr_mid, bind_Ok by (first [done | rewrite length_app, length_drop; cbn [length be32]; lia]).
  rewrite <- (app_assoc hd c).
  destruct (tag_diff_spec t (tag (recv_auth_key k) hd c est) Ht (tag_length _ _ _ _)) as (d & -> & Hdiff).
  rewrite bind_Ok. cbv zeta. rewrite Hdiff. fold good. destruct good eqn:Hgood; cbn [negb].
  - rewrite crypt_eq; [|apply Hk|apply Hd|done|unfold len; lia]. rewrite bind_Ok. cbn [negb Z.eqb].
    eexists. split; [done|]. unfold accept. fold est. destruct (_ || _).
    + destruct (update_slot states i rs (SsrcState (ss_ssrc rs) est seq (ss_active rs))) as (Hok & Htr & Hsame'); [done..|].
      rewrite Hid in Htr at 2. rewrite Hid in Hsame' at 1. split_and!; [by split | done | exact Htr | by eapply same_tracks_trans].
    + cbn. split_and!; [by split | done | by exists i | done].
  - eexists. split; [done|]. cbn. split_and!; [by split | done | by exists i | done].
Qed.

Section Pair.
Context (snd rcv : nano_srtp) (hd body room : list Z) (seq ssrc : Z) (ss rs : ssrc_state).
Context (Hsnd : session_ok snd) (Hrcv : session_ok rcv) (Hm : keys_match (sr_keys snd) (sr_keys rcv)).
Context (Hd : rtp_datagram hd body seq ssrc) (Hroom : (NANORTC_SRTP_AUTH_TAG_SIZE <= length room)%nat).
Context (Hss : starts (ssrc_states snd) ssrc ss).

(** The protected datagram, as it is in the sender's buffer. *)
Let k := sr_keys snd.
Definition protected_body : list Z := cipher (send_key k) (send_salt k) ssrc (packet_index (ss_roc ss) seq) body.
Definition protected_tag : list Z := tag (send_auth_key k) hd protected_body (ss_roc ss).

Lemma protected_body_length : length protected_body = length body.
Proof using Laws Hsnd Hd. apply cipher_length; [apply Hsnd | apply Hd]. Qed.
Lemma protected_datagram : rtp_datagram hd protected_body seq ssrc.
Proof using Laws Hsnd Hd.
  destruct Hd as [[? ?] Hh ? ?]. split; [split; [done|] | | done..].
  - by apply cipher_bytes; [apply Hsnd|].
  - rewrite protected_body_length. eapply parse_hdr_agree; [exact Hh|]. by rewrite !take_app_length.
Qed.
Lemma unprotect_protected_eq t rest :
  length t = NANORTC_SRTP_AUTH_TAG_SIZE -> starts (ssrc_states rcv) ssrc rs -> estimate_roc rs seq = ss_roc ss ->
  let good := bool_decide (t = protected_tag) in
  exists r', nano_srtp_unprotect aes_128_cm hmac_sha1_80 rcv (hd ++ protected_body ++ t ++ rest)
        (length hd + length body + NANORTC_SRTP_AUTH_TAG_SIZE) =
      Ok (r', hd ++ (if good then body else protected_body) ++ t ++ rest,
          if good then inr (length hd + length body)%nat else inl NANORTC_ERR_CRYPTO) /\
    session_ok r' /\ sr_keys r' = sr_keys rcv /\
    tracks (ssrc_states r') ssrc (if good then accept rs seq else rs) /\
    same_tracks ssrc (ssrc_states rcv) (ssrc_states r').
Proof using Laws Hsnd Hrcv Hm Hd.
  intros Ht Hrs Hest good.
  destruct (unprotect_eq rcv hd protected_body t rest seq ssrc rs Hrcv protected_datagram Ht Hrs) as (r' & Hr & Hok).
  rewrite protected_body_length, Hest in Hr. rewrite Hest in Hok.
  rewrite <- (km_auth _ _ Hm), <- (km_key _ _ Hm), <- (km_salt _ _ Hm) in Hr. rewrite <- (km_auth _ _ Hm) in Hok.
  fold k in Hr, Hok. fold protected_tag in Hr, Hok. exists r'. split; [|exact Hok]. rewrite Hr.
  assert (cipher (send_key k) (send_salt k) ssrc (packet_index (ss_roc ss) seq) protected_body = body) as ->
    by (apply cipher_inverse; [apply Hsnd | apply Hd]).
  fold good. by destruct good.
Qed.
End Pair.

(** C28: SRTP protection and unprotection.  Between two sessions with matching
    keys, when the receiver's estimate of the rollover counter is the sender's,
    [nano_srtp_protect] encrypts the payload in place and appends a ten octet
    tag without touching the header or the rest of the buffer, and
    [nano_srtp_unprotect] gives the datagram back octet for octet; with any
    other tag it refuses the packet, leaves it as it was and keeps the
    counter of the stream.  Both sides then track the stream's new counter and
    the counters of the other streams are unchanged. *)
Theorem srtp_protect_unprotect (snd rcv : nano_srtp) (hd body room : list Z) (seq ssrc : Z) (ss rs : ssrc_state) :
  session_ok snd -> session_ok rcv -> keys_match (sr_keys snd) (sr_keys rcv) ->
  rtp_datagram hd body seq ssrc -> (NANORTC_SRTP_AUTH_TAG_SIZE <= length room)%nat ->
  starts (ssrc_states snd) ssrc ss -> starts (ssrc_states rcv) ssrc rs -> estimate_roc rs seq = ss_roc ss ->
  let len := (length hd + length body)%nat in
  let rest := drop NANORTC_SRTP_AUTH_TAG_SIZE room in
  exists snd' c t,
    nano_srtp_protect aes_128_cm hmac_sha1_80 snd (hd ++ body ++ room) len =
      Ok (snd', hd ++ c ++ t ++ rest, inr (len + NANORTC_SRTP_AUTH_TAG_SIZE)%nat) /\
    length c = length body /\ length t = NANORTC_SRTP_AUTH_TAG_SIZE /\
    session_ok snd' /\ sr_keys snd' = sr_keys snd /\ tracks (ssrc_states snd') ssrc (advance ss seq) /\
    same_tracks ssrc (ssrc_states snd) (ssrc_states snd') /\
    (exists rcv', nano_srtp_unprotect aes_128_cm hmac_sha1_80 rcv (hd ++ c ++ t ++ rest) (len + NANORTC_SRTP_AUTH_TAG_SIZE) =
        Ok (rcv', hd ++ body ++ t ++ rest, inr len) /\
      session_ok rcv' /\ sr_keys rcv' = sr_keys rcv /\ tracks (ssrc_states rcv') ssrc (accept rs seq) /\
      same_tracks ssrc (ssrc_states rcv) (ssrc_states rcv')) /\
    (forall t', length t' = NANORTC_SRTP_AUTH_TAG_SIZE -> t' <> t ->
      exists rcv', nano_srtp_unprotect aes_128_cm hmac_sha1_80 rcv (hd ++ c ++ t' ++ rest) (len + NANORTC_SRTP_AUTH_TAG_SIZE) =
        Ok (rcv', hd ++ c ++ t' ++ rest, inl NANORTC_ERR_CRYPTO) /\
      tracks (ssrc_states rcv') ssrc rs /\ same_tracks ssrc (ssrc_states rcv) (ssrc_states rcv')).
Proof using Laws.
  intros Hsnd Hrcv Hm Hd Hroom Hss Hrs Hest len rest.
  destruct (protect_eq snd hd body room seq ssrc ss Hsnd Hd Hroom Hss) as (snd' & Hp & Hok & Hk & Htr & Hsame).
  set (c := protected_body snd body seq ssrc ss). set (t := protected_tag snd hd body seq ssrc ss).
  exists snd', c, t. assert (length t = NANORTC_SRTP_AUTH_TAG_SIZE) as Ht by apply tag_length.
  split_and!; try done.
  - by eapply protected_body_length.
  - destruct (unprotect_protected_eq snd rcv hd body seq ssrc ss rs Hsnd Hrcv Hm Hd t rest Ht Hrs Hest) as (r' & Hr & Hr').
    fold c t in Hr, Hr'. rewrite (bool_decide_eq_true_2 (t = t)) in Hr, Hr' by done. by exists r'.
  - intros t' Ht' Hne.
    destruct (unprotect_protected_eq snd rcv hd body seq ssrc ss rs Hsnd Hrcv Hm Hd t' rest Ht' Hrs Hest) as (r' & Hr & _ & _ & Hr').
    fold c t in Hr, Hr'. rewrite (bool_decide_eq_false_2 (t' = t)) in Hr, Hr' by done. by exists r'.
Qed.

(** * Rollover and replay *)

Lemma estimate_after_wrap rs seq :
  ss_seq_max rs = 0xFFFF -> 0 <= seq <= 0xFFFF -> is_u32 (ss_roc rs) ->
  estimate_roc rs seq = u32 (ss_roc rs + 1) <-> 0x7FFF <= seq < 0xBFFF.
Proof.
  intros Hm Hs Hr. unfold estimate_roc. rewrite Hm. cbn [Z.eqb negb orb].
  unfold i16. change (2 ^ 15) with 32768. change (2 ^ 16) with 65536.
  assert ((seq - 0xFFFF) mod 65536 = if seq =? 0xFFFF then 0 else seq + 1) as ->.
  { destruct (Z.eqb_spec seq 0xFFFF) as [->|]; [done|]. symmetry. apply (Z.mod_unique _ _ (-1)); lia. }
  assert (u32 (ss_roc rs - 1) <> u32 (ss_roc rs + 1) /\ ss_roc rs <> u32 (ss_roc rs + 1)) as [Hne1 Hne2] by mach.
  zbool; cbn [andb]; (split; [intros He | intros ?]); try congruence; try done; lia.
Qed.
Lemma estimate_roc_range rs seq : is_u32 (ss_roc rs) -> is_u32 (estimate_roc rs seq).
Proof.
  intros Hr. unfold estimate_roc. destruct (_ || _); [|done]. destruct (_ <? _); [apply u32_range|].
  destruct (_ && _); [apply u32_range | done].
Qed.
Lemma estimate_accept rs seq : estimate_roc (accept rs seq) seq = estimate_roc rs seq.
Proof.
  unfold accept. destruct (_ || _); [|done]. set (est := estimate_roc rs seq).
  unfold estimate_roc. cbn [ss_seq_max ss_roc]. rewrite Z.sub_diag. by destruct (_ || _).
Qed.

(** C29: at the rollover of a stream's sequence numbers the receiver loses it.
    Once it has accepted sequence number 65535, every packet the sender
    protects in the next cycle with a sequence number below 32767 (or from
    49151 on) is refused, because the receiver still estimates the old
    counter; only a packet between those bounds is accepted. *)
Theorem srtp_rollover_lost (snd rcv : nano_srtp) (hd body rest : list Z) (seq ssrc : Z) (ss rs : ssrc_state) :
  session_ok snd -> session_ok rcv -> keys_match (sr_keys snd) (sr_keys rcv) ->
  rtp_datagram hd body seq ssrc -> is_u32 (ss_roc rs) ->
  tracks (ssrc_states rcv) ssrc rs -> ss_seq_max rs = 0xFFFF -> ss_roc ss = u32 (ss_roc rs + 1) ->
  let c := protected_body snd body seq ssrc ss in
  let t := protected_tag snd hd body seq ssrc ss in
  (** the tags of this packet differ for different counters *)
  (forall roc, is_u32 roc -> tag (send_auth_key (sr_keys snd)) hd c roc = t -> roc = ss_roc ss) ->
  exists rcv',
    nano_srtp_unprotect aes_128_cm hmac_sha1_80 rcv (hd ++ c ++ t ++ rest)
        (length hd + length body + NANORTC_SRTP_AUTH_TAG_SIZE) =
      Ok (rcv', hd ++ (if (0x7FFF <=? seq) && (seq <? 0xBFFF) then body else c) ++ t ++ rest,
          if (0x7FFF <=? seq) && (seq <? 0xBFFF) then inr (length hd + length body)%nat else inl NANORTC_ERR_CRYPTO).
Proof using Laws.
  intros Hsnd Hrcv Hm Hd Hroc Hrs Hmax Hss c t Hmac.
  assert (0 <= seq <= 0xFFFF) as Hseq by (destruct Hd as [_ _ Hs _]; apply read_u16be_range in Hs; mach).
  pose proof (estimate_after_wrap rs seq Hmax Hseq Hroc) as Hest. rewrite <- Hss in Hest.
  assert (length t = NANORTC_SRTP_AUTH_TAG_SIZE) as Ht by apply tag_length.
  destruct (_ && _) eqn:Hg.
  - apply andb_prop in Hg as [? ?]. bool_facts.
    destruct (unprotect_protected_eq snd rcv hd body seq ssrc ss rs Hsnd Hrcv Hm Hd t rest Ht) as (r' & Hr & _); [by left | apply Hest; lia|].
    fold c in Hr. rewrite (bool_decide_eq_true_2 _ (eq_refl _)) in Hr. by exists r'.
  - assert (estimate_roc rs seq <> ss_roc ss) as Hne by (rewrite Hest; lia).
    destruct (unprotect_eq rcv hd c t rest seq ssrc rs Hrcv) as (r' & Hr & _);
      [by eapply protected_datagram | done | by left|].
    rewrite bool_decide_eq_false_2 in Hr.
    + unfold c in Hr at 2. rewrite (protected_body_length snd hd body seq ssrc ss Hsnd Hd) in Hr. by exists r'.
    + rewrite <- (km_auth _ _ Hm). intros He. destruct Hne. apply Hmac; [by apply estimate_roc_range | done].
Qed.

(** Nothing refuses a replay: a receiver that has accepted a packet accepts
    the same packet again, with the same plaintext, as often as it comes. *)
Theorem srtp_replay_accepted (snd rcv : nano_srtp) (hd body rest : list Z) (seq ssrc : Z) (ss rs : ssrc_state) :
  session_ok snd -> session_ok rcv -> keys_match (sr_keys snd) (sr_keys rcv) ->
  rtp_datagram hd body seq ssrc -> starts (ssrc_states rcv) ssrc rs -> estimate_roc rs seq = ss_roc ss ->
  let len := (length hd + length body + NANORTC_SRTP_AUTH_TAG_SIZE)%nat in
  let packet := hd ++ protected_body snd body seq ssrc ss ++ protected_tag snd hd body seq ssrc ss ++ rest in
  let plain := hd ++ body ++ protected_tag snd hd body seq ssrc ss ++ rest in
  exists rcv1 rcv2,
    nano_srtp_unprotect aes_128_cm hmac_sha1_80 rcv packet len = Ok (rcv1, plain, inr (length hd + length body)%nat) /\
    nano_srtp_unprotect aes_128_cm hmac_sha1_80 rcv1 packet len = Ok (rcv2, plain, inr (length hd + length body)%nat) /\
    tracks (ssrc_states rcv1) ssrc (accept rs seq) /\ tracks (ssrc_states rcv2) ssrc (accept (accept rs seq) seq).
Proof using Laws.
  intros Hsnd Hrcv Hm Hd Hrs Hest len packet plain.
  set (t := protected_tag snd hd body seq ssrc ss) in *.
  assert (length t = NANORTC_SRTP_AUTH_TAG_SIZE) as Ht by apply tag_length.
  assert (bool_decide (t = t) = true) as Htt by by apply bool_decide_eq_true_2.
  destruct (unprotect_protected_eq snd rcv hd body seq ssrc ss rs Hsnd Hrcv Hm Hd t rest Ht Hrs Hest) as (r1 & Hr1 & Hok1 & Hk1 & Htr1 & _).
  fold t in Hr1, Htr1. rewrite Htt in Hr1, Htr1.
  destruct (unprotect_protected_eq snd r1 hd body seq ssrc ss (accept rs seq) Hsnd Hok1) with (t := t) (rest := rest)
    as (r2 & Hr2 & _ & _ & Htr2 & _); [by rewrite Hk1 | done | done | by left | by rewrite estimate_accept|].
  fold t in Hr2, Htr2. rewrite Htt in Hr2, Htr2. by exists r1, r2.
Qed.
End Packets.

(** The estimate of RFC 3711, section 3.3.1 and appendix A. *)
Definition rfc_roc (roc s_l seq : Z) : Z :=
  if s_l <? 32768 then if 32768 <? seq - s_l then u32 (roc - 1) else roc
  else if seq <? s_l - 32768 then u32 (roc + 1) else roc.

(** Once a stream has rolled over, the receiver's estimate of the counter is
    the RFC's exactly for the packets within 16384 of the highest sequence
    number seen, the distance taken without wrapping around; every other packet
    gets a wrong counter. *)
Theorem estimate_roc_vs_rfc (ss : ssrc_state) (seq : Z) :
  is_u16 seq -> is_u16 (ss_seq_max ss) -> is_u32 (ss_roc ss) -> 0 < ss_roc ss ->
  estimate_roc ss seq = rfc_roc (ss_roc ss) (ss_seq_max ss) seq <-> Z.abs (seq - ss_seq_max ss) <= 16384.
Proof.
  intros Hs Hm Hr Hpos. unfold estimate_roc, rfc_roc, i16. change (2 ^ 15) with 32768. change (2 ^ 16) with 65536.
  set (s := ss_seq_max ss) in *. set (r := ss_roc ss) in *.
  assert ((seq - s) mod 65536 = if seq <? s then seq - s + 65536 else seq - s) as ->.
  { destruct (Z.ltb_spec seq s); symmetry; [apply (Z.mod_unique _ _ (-1)) | apply (Z.mod_unique _ _ 0)]; mach. }
  assert (u32 (r - 1) <> u32 (r + 1) /\ r <> u32 (r + 1) /\ r <> u32 (r - 1)) as (Hne1 & Hne2 & Hne3) by mach.
  replace (negb (s =? 0) || negb (r =? 0)) with true by (destruct (Z.eqb_spec r 0); [lia | by rewrite orb_true_r]).
  unfold is_u16 in *. change (2 ^ 16) with 65536 in *.
  zbool; cbn [andb]; (split; [intros He | intros ?]); try congruence; try done; lia.
Qed.

(** * SRTCP *)

Lemma e_index_fields i :
  0 <= i < 2 ^ 31 ->
  let e := Z.lor (Z.shiftl 1 31) (Z.land i 0x7FFFFFFF) in
  is_u32 e /\ Z.land (Z.shiftr e 31) 1 = 1 /\ Z.land e 0x7FFFFFFF = i.
Proof.
  intros Hi e. change 0x7FFFFFFF with (Z.ones 31) in *. assert (e = 2 ^ 31 + i) as He.
  { unfold e. rewrite land_ones_mod, Z.mod_small by lia. rewrite lor_shiftl_add by lia. lia. }
  rewrite He. split; [unfold is_u32; change (2 ^ 32) with (2 * 2 ^ 31); lia|]. split.
  - rewrite Z.shiftr_div_pow2 by lia. replace (2 ^ 31 + i) with (1 * 2 ^ 31 + i) by lia.
    rewrite Z.div_add_l, Z.div_small by lia. done.
  - rewrite land_ones_mod by lia. replace (2 ^ 31 + i) with (i + 1 * 2 ^ 31) by lia.
    rewrite Z.mod_add by lia. by apply Z.mod_small.
Qed.

Section Srtcp.
Context (aes_128_cm : list Z -> list Z -> list Z -> Z * list Z).
Context (hmac_sha1_80 : list Z -> list Z -> list Z).
Context (Laws : provider_laws aes_128_cm hmac_sha1_80).

(** The compound packet's first eight octets, its rest and its sender. *)
Record rtcp_datagram (hd body : list Z) (ssrc : Z) : Prop := {
  rc_length : length hd = 8%nat;
  rc_bytes : bytes body;
  rc_ssrc : nanortc_read_u32be hd 4 = Ok ssrc
}.
Definition srtcp_trailer (index : Z) : list Z := be32 (Z.lor (Z.shiftl 1 31) (Z.land index 0x7FFFFFFF)).

Lemma rtcp_ssrc hd body ssrc rest : rtcp_datagram hd body ssrc -> nanortc_read_u32be (hd ++ rest) 4 = Ok ssrc.
Proof.
  intros [Hl _ Hs]. rewrite <- Hs. apply read_u32be_agree with (h := 8%nat); [|lia].
  rewrite <- Hl. by rewrite take_app_length, firstn_all.
Qed.

Lemma protect_rtcp_eq s hd body room ssrc :
  session_ok s -> rtcp_datagram hd body ssrc -> (NANORTC_SRTCP_OVERHEAD <= length room)%nat ->
  let k := sr_keys s in
  let c := cipher aes_128_cm (send_rtcp_key k) (send_rtcp_salt k) ssrc (srtcp_send_index s) body in
  let e := srtcp_trailer (srtcp_send_index s) in
  nano_srtp_protect_rtcp aes_128_cm hmac_sha1_80 s (hd ++ body ++ room) (8 + length body) =
  Ok (set_srtcp_index s (u32 (srtcp_send_index s + 1)),
      hd ++ c ++ e ++ hmac_sha1_80 (send_rtcp_auth_key k) (hd ++ c ++ e) ++ drop NANORTC_SRTCP_OVERHEAD room,
      inr (8 + length body + NANORTC_SRTCP_OVERHEAD)%nat).
Proof using Laws.
  intros [Hready Hk Htab] Hd Hroom k c e. unfold nano_srtp_protect_rtcp, NANORTC_SRTCP_OVERHEAD in *.
  rewrite Hready, (proj2 (Nat.ltb_ge _ _)) by lia. cbn [negb].
  rewrite (rtcp_ssrc hd body ssrc) by done. rewrite bind_Ok. cbv zeta.
  rewrite crypt_eq with (hmac_sha1_80 := hmac_sha1_80); [|done|apply Hk|apply Hd|symmetry; apply Hd|lia].
  rewrite bind_Ok. cbn [negb Z.eqb]. fold k. fold c. fold (srtcp_trailer (srtcp_send_index s)). fold e.
  assert (length c = length body) as Hc by (eapply cipher_length; [done | apply Hk | apply Hd]).
  assert (8 + length body = length (hd ++ c))%nat as Hlen by (rewrite length_app, (rc_length _ _ _ Hd); lia).
  assert (length e = 4%nat) as He by done.
  rewrite (app_assoc hd c room), wr_append, bind_Ok by (done || lia).
  rewrite rdn_Ok, bind_Ok by (rewrite !length_app in *; lia).
  rewrite drop_0, take_app_length' by (rewrite (length_app (hd ++ c)); lia).
  pose proof (hmac_length _ _ Laws (send_rtcp_auth_key k) ((hd ++ c) ++ e)) as Ht. unfold NANORTC_SRTP_AUTH_TAG_SIZE in Ht.
  rewrite wr_append, bind_Ok by (rewrite ?length_app in *; rewrite ?length_drop; lia).
  rewrite Ht, He, drop_drop, <- !app_assoc. done.
Qed.

Lemma unprotect_rtcp_eq r hd c t rest ssrc index :
  session_ok r -> rtcp_datagram hd c ssrc -> length t = NANORTC_SRTP_AUTH_TAG_SIZE -> 0 <= index < 2 ^ 31 ->
  let k := sr_keys r in
  let e := srtcp_trailer index in
  let good := bool_decide (t = hmac_sha1_80 (recv_rtcp_auth_key k) (hd ++ c ++ e)) in
  nano_srtp_unprotect_rtcp aes_128_cm hmac_sha1_80 r (hd ++ c ++ e ++ t ++ rest) (8 + length c + NANORTC_SRTCP_OVERHEAD) =
  Ok (r, hd ++ (if good then cipher aes_128_cm (recv_rtcp_key k) (recv_rtcp_salt k) ssrc index c else c) ++ e ++ t ++ rest,
      if good then inr (8 + length c)%nat else inl NANORTC_ERR_CRYPTO).
Proof using Laws.
  intros [Hready Hk Htab] Hd Ht Hi k e good. unfold nano_srtp_unprotect_rtcp, NANORTC_SRTCP_OVERHEAD in *.
  rewrite Hready, (proj2 (Nat.ltb_ge _ _)) by lia. cbn [negb]. cbv zeta.
  assert (length e = 4%nat) as He by done. pose proof (rc_length _ _ _ Hd) as Hh.
  assert (8 + length c + 14 - NANORTC_SRTP_AUTH_TAG_SIZE = length (hd ++ c ++ e))%nat as Hlen
    by (rewrite !length_app; unfold NANORTC_SRTP_AUTH_TAG_SIZE; lia).
  rewrite Hlen. replace (hd ++ c ++ e ++ t ++ rest) with ((hd ++ c ++ e) ++ t ++ rest) by by rewrite <- !app_assoc.
  rewrite (rdn_mid (hd ++ c ++ e) t rest (length (hd ++ c ++ e))), bind_Ok by congruence.
  rewrite rdn_Ok, bind_Ok by (rewrite !length_app; lia).
  rewrite drop_0, take_app_length. fold k.
  destruct (tag_diff_spec t (hmac_sha1_80 (recv_rtcp_auth_key k) (hd ++ c ++ e)) Ht (hmac_length _ _ Laws _ _)) as (d & -> & Hdiff).
  rewrite bind_Ok, Hdiff. fold good. rewrite <- (app_assoc hd), <- (app_assoc c).
  destruct good; cbn [negb]; [|done].
  replace (length (hd ++ c ++ e) - 4)%nat with (length (hd ++ c)) by (rewrite !length_app; lia).
  assert (nanortc_read_u32be (hd ++ c ++ e ++ t ++ rest) (length (hd ++ c)) =
          Ok (u32 (Z.lor (Z.shiftl 1 31) (Z.land index 0x7FFFFFFF)))) as ->
    by (rewrite (app_assoc hd c); by apply read_u32be_app).
  rewrite bind_Ok.
  destruct (e_index_fields index Hi) as (Hu & Hbit & Hidx). rewrite u32_id, Hbit, Hidx by done. cbn [negb Z.eqb andb].
  rewrite (rtcp_ssrc hd c ssrc), bind_Ok by done.
  replace (8 <? length (hd ++ c))%nat with (0 <? length (hd ++ c) - 8)%nat
    by (apply Bool.eq_true_iff_eq; rewrite !Nat.ltb_lt; lia).
  rewrite crypt_eq with (hmac_sha1_80 := hmac_sha1_80);
    [|done|apply Hk|apply Hd|done|rewrite length_app; lia].
  rewrite bind_Ok. cbn [negb Z.eqb]. by rewrite length_app, Hh.
Qed.

(** SRTCP protection and unprotection.  [nano_srtp_protect_rtcp] encrypts all
    but the first eight octets in place and appends the E bit with the
    31-bit index and the tag; the peer's [nano_srtp_unprotect_rtcp] gives the
    packet back octet for octet, and refuses it, untouched, under any other
    tag.  Each protected packet takes the next index. *)
Theorem srtcp_protect_unprotect (snd rcv : nano_srtp) (hd body room : list Z) (ssrc : Z) :
  session_ok snd -> session_ok rcv -> keys_match (sr_keys snd) (sr_keys rcv) ->
  rtcp_datagram hd body ssrc -> (NANORTC_SRTCP_OVERHEAD <= length room)%nat ->
  0 <= srtcp_send_index snd < 2 ^ 31 ->
  let len := (8 + length body)%nat in
  exists snd' c t,
    let e := srtcp_trailer (srtcp_send_index snd) in
    let rest := drop NANORTC_SRTCP_OVERHEAD room in
    nano_srtp_protect_rtcp aes_128_cm hmac_sha1_80 snd (hd ++ body ++ room) len =
      Ok (snd', hd ++ c ++ e ++ t ++ rest, inr (len + NANORTC_SRTCP_OVERHEAD)%nat) /\
    length c = length body /\ length t = NANORTC_SRTP_AUTH_TAG_SIZE /\
    session_ok snd' /\ srtcp_send_index snd' = srtcp_send_index snd + 1 /\
    nano_srtp_unprotect_rtcp aes_128_cm hmac_sha1_80 rcv (hd ++ c ++ e ++ t ++ rest) (len + NANORTC_SRTCP_OVERHEAD) =
      Ok (rcv, hd ++ body ++ e ++ t ++ rest, inr len) /\
    (forall t', length t' = NANORTC_SRTP_AUTH_TAG_SIZE -> t' <> t ->
      nano_srtp_unprotect_rtcp aes_128_cm hmac_sha1_80 rcv (hd ++ c ++ e ++ t' ++ rest) (len + NANORTC_SRTCP_OVERHEAD) =
        Ok (rcv, hd ++ c ++ e ++ t' ++ rest, inl NANORTC_ERR_CRYPTO)).
Proof using Laws.
  intros Hsnd Hrcv Hm Hd Hroom Hi len. set (k := sr_keys snd) in *.
  set (c := cipher aes_128_cm (send_rtcp_key k) (send_rtcp_salt k) ssrc (srtcp_send_index snd) body).
  set (t := hmac_sha1_80 (send_rtcp_auth_key k) (hd ++ c ++ srtcp_trailer (srtcp_send_index snd))).
  assert (length t = NANORTC_SRTP_AUTH_TAG_SIZE) as Ht by apply (hmac_length _ _ Laws).
  assert (length c = length body) as Hc by (eapply cipher_length; [done | apply Hsnd | apply Hd]).
  assert (rtcp_datagram hd c ssrc) as Hdc.
  { destruct Hd. split; [done | eapply cipher_bytes; [done | apply Hsnd | done] | done]. }
  eexists _, c, t. cbv zeta. unfold len. split; [by apply protect_rtcp_eq|]. rewrite <- Hc.
  split_and!; [done | done | | | |].
  - destruct Hsnd. by split.
  - cbn. apply u32_id. unfold is_u32. change (2 ^ 32) with (2 * 2 ^ 31). lia.
  - rewrite unprotect_rtcp_eq with (ssrc := ssrc) by done.
    rewrite <- (km_rtcp_auth _ _ Hm), <- (km_rtcp_key _ _ Hm), <- (km_rtcp_salt _ _ Hm). fold k. fold t.
    rewrite (bool_decide_eq_true_2 (t = t)) by done.
    unfold c at 1. by erewrite cipher_inverse by (done || apply Hsnd || apply Hd).
  - intros t' Ht' Hne. rewrite unprotect_rtcp_eq with (ssrc := ssrc) by done.
    rewrite <- (km_rtcp_auth _ _ Hm). fold k. fold t. by rewrite (bool_decide_eq_false_2 (t' = t)).
Qed.
End Srtcp.

(** * Key derivation and initialization vectors *)

Section Keys.
Context (aes_128_cm : list Z -> list Z -> list Z -> Z * list Z).
Context (hmac_sha1_80 : list Z -> list Z -> list Z).
Context (Laws : provider_laws aes_128_cm hmac_sha1_80).

Definition session_key (mk ms : list Z) (label : Z) (n : nat) : list Z :=
  match srtp_kdf aes_128_cm mk ms label n with Ok out => out | _ => [] end.
Lemma srtp_kdf_Ok mk ms label n :
  (n <= SRTP_KDF_MAX_OUT)%nat -> length ms = NANORTC_SRTP_SALT_SIZE ->
  srtp_kdf aes_128_cm mk ms label n = Ok (session_key mk ms label n) /\ length (session_key mk ms label n) = n.
Proof using Laws.
  intros Hn Hs. unfold session_key, srtp_kdf. rewrite (proj2 (Nat.ltb_ge _ _)) by done.
  rewrite rdn_Ok, bind_Ok by lia. cbv zeta. set (d := replicate (if (n <=? 16)%nat then 16%nat else 32%nat) 0).
  set (iv := xor_at _ 7 label).
  assert (bytes d) as Hd by (apply Forall_replicate; auto with mach).
  pose proof (aes_succeeds _ _ Laws mk iv d Hd) as H0. pose proof (aes_length _ _ Laws mk iv d Hd) as Hl.
  destruct (aes_128_cm mk iv d) as [rc out]. cbn in *. subst rc. cbn [negb Z.eqb].
  assert (n <= length out)%nat as Hlen.
  { rewrite Hl. unfold d, SRTP_KDF_MAX_OUT in *. rewrite length_replicate. destruct (Nat.leb_spec n 16); lia. }
  rewrite rdn_Ok by done. split; [done|]. rewrite drop_0, length_take. lia.
Qed.

(** All the keys of a session, from its two master keys and salts. *)
Definition session_keys (smk sms rmk rms : list Z) : srtp_keys :=
  SrtpKeys (session_key smk sms SRTP_LABEL_RTP_CIPHER NANORTC_SRTP_KEY_SIZE)
    (session_key smk sms SRTP_LABEL_RTP_AUTH NANORTC_SRTP_AUTH_KEY_SIZE)
    (session_key smk sms SRTP_LABEL_RTP_SALT NANORTC_SRTP_SALT_SIZE)
    (session_key rmk rms SRTP_LABEL_RTP_CIPHER NANORTC_SRTP_KEY_SIZE)
    (session_key rmk rms SRTP_LABEL_RTP_AUTH NANORTC_SRTP_AUTH_KEY_SIZE)
    (session_key rmk rms SRTP_LABEL_RTP_SALT NANORTC_SRTP_SALT_SIZE)
    (session_key smk sms SRTP_LABEL_RTCP_CIPHER NANORTC_SRTP_KEY_SIZE)
    (session_key smk sms SRTP_LABEL_RTCP_AUTH NANORTC_SRTP_AUTH_KEY_SIZE)
    (session_key smk sms SRTP_LABEL_RTCP_SALT NANORTC_SRTP_SALT_SIZE)
    (session_key rmk rms SRTP_LABEL_RTCP_CIPHER NANORTC_SRTP_KEY_SIZE)
    (session_key rmk rms SRTP_LABEL_RTCP_AUTH NANORTC_SRTP_AUTH_KEY_SIZE)
    (session_key rmk rms SRTP_LABEL_RTCP_SALT NANORTC_SRTP_SALT_SIZE).

Lemma derive_Ok mk ms label n put k next :
  (n <= SRTP_KDF_MAX_OUT)%nat -> length ms = NANORTC_SRTP_SALT_SIZE ->
  derive aes_128_cm mk ms label n put k next = next (put (session_key mk ms label n)).
Proof using Laws. intros Hn Hs. unfold derive. by rewrite (proj1 (srtp_kdf_Ok mk ms label n Hn Hs)). Qed.
(** Runs one derivation on literal keys. *)
Ltac derive_step :=
  rewrite derive_Ok by first [assumption | unfold SRTP_KDF_MAX_OUT, NANORTC_SRTP_KEY_SIZE, NANORTC_SRTP_AUTH_KEY_SIZE,
                                NANORTC_SRTP_SALT_SIZE in *; lia];
  cbn beta iota delta [send_key send_auth_key send_salt recv_key recv_auth_key recv_salt send_rtcp_key send_rtcp_auth_key
                       send_rtcp_salt recv_rtcp_key recv_rtcp_auth_key recv_rtcp_salt].
Lemma derive_send_eq mk ms k next :
  length ms = NANORTC_SRTP_SALT_SIZE ->
  derive_send aes_128_cm mk ms k next =
  next (SrtpKeys (session_key mk ms SRTP_LABEL_RTP_CIPHER NANORTC_SRTP_KEY_SIZE)
          (session_key mk ms SRTP_LABEL_RTP_AUTH NANORTC_SRTP_AUTH_KEY_SIZE)
          (session_key mk ms SRTP_LABEL_RTP_SALT NANORTC_SRTP_SALT_SIZE)
          (recv_key k) (recv_auth_key k) (recv_salt k)
          (session_key mk ms SRTP_LABEL_RTCP_CIPHER NANORTC_SRTP_KEY_SIZE)
          (session_key mk ms SRTP_LABEL_RTCP_AUTH NANORTC_SRTP_AUTH_KEY_SIZE)
          (session_key mk ms SRTP_LABEL_RTCP_SALT NANORTC_SRTP_SALT_SIZE)
          (recv_rtcp_key k) (recv_rtcp_auth_key k) (recv_rtcp_salt k)).
Proof using Laws. intros Hs. destruct k. unfold derive_send. do 6 derive_step. done. Qed.
Lemma derive_recv_eq mk ms k next :
  length ms = NANORTC_SRTP_SALT_SIZE ->
  derive_recv aes_128_cm mk ms k next =
  next (SrtpKeys (send_key k) (send_auth_key k) (send_salt k)
          (session_key mk ms SRTP_LABEL_RTP_CIPHER NANORTC_SRTP_KEY_SIZE)
          (session_key mk ms SRTP_LABEL_RTP_AUTH NANORTC_SRTP_AUTH_KEY_SIZE)
          (session_key mk ms SRTP_LABEL_RTP_SALT NANORTC_SRTP_SALT_SIZE)
          (send_rtcp_key k) (send_rtcp_auth_key k) (send_rtcp_salt k)
          (session_key mk ms SRTP_LABEL_RTCP_CIPHER NANORTC_SRTP_KEY_SIZE)
          (session_key mk ms SRTP_LABEL_RTCP_AUTH NANORTC_SRTP_AUTH_KEY_SIZE)
          (session_key mk ms SRTP_LABEL_RTCP_SALT NANORTC_SRTP_SALT_SIZE)).
Proof using Laws. intros Hs. destruct k. unfold derive_recv. do 6 derive_step. done. Qed.
Lemma derive_all_eq smk sms rmk rms k :
  length sms = NANORTC_SRTP_SALT_SIZE -> length rms = NANORTC_SRTP_SALT_SIZE ->
  derive_send aes_128_cm smk sms k (fun k => derive_recv aes_128_cm rmk rms k (fun k => Ok (k, NANORTC_OK))) =
  Ok (session_keys smk sms rmk rms, NANORTC_OK).
Proof using Laws. intros Hs Hr. by rewrite derive_send_eq, derive_recv_eq. Qed.
Lemma session_keys_ok smk sms rmk rms :
  length sms = NANORTC_SRTP_SALT_SIZE -> length rms = NANORTC_SRTP_SALT_SIZE -> keys_ok (session_keys smk sms rmk rms).
Proof using Laws.
  intros Hs Hr. split; apply srtp_kdf_Ok; try done; unfold NANORTC_SRTP_SALT_SIZE, SRTP_KDF_MAX_OUT; lia.
Qed.

(** The two ends of a DTLS association agree on the SRTP keys.  From the same
    keying material the client and the server derive sessions ready for
    packets, in which each side's sending keys, of RTP and of RTCP, are the
    other side's receiving keys; shorter material is refused and changes
    nothing. *)
Theorem srtp_keys_agree (material : list Z) (len : nat) :
  (len <= length material)%nat ->
  if (len <? 60)%nat
  then forall role, nano_srtp_derive_keys aes_128_cm (nano_srtp_init role) material len =
         Ok (nano_srtp_init role, NANORTC_ERR_INVALID_PARAM)
  else exists client server,
    nano_srtp_derive_keys aes_128_cm (nano_srtp_init true) material len = Ok (client, NANORTC_OK) /\
    nano_srtp_derive_keys aes_128_cm (nano_srtp_init false) material len = Ok (server, NANORTC_OK) /\
    session_ok client /\ session_ok server /\
    keys_match (sr_keys client) (sr_keys server) /\ keys_match (sr_keys server) (sr_keys client).
Proof using Laws.
  intros Hlen. unfold nano_srtp_derive_keys. destruct (Nat.ltb_spec len 60) as [|Hge]; [done|].
  set (ck := take 16 (drop 0 material)). set (sk := take 16 (drop 16 material)).
  set (cs := take 14 (drop 32 material)). set (ss := take 14 (drop 46 material)).
  assert (length cs = NANORTC_SRTP_SALT_SIZE /\ length ss = NANORTC_SRTP_SALT_SIZE) as [Hcs Hss]
    by (unfold cs, ss, NANORTC_SRTP_SALT_SIZE; rewrite !length_take, !length_drop; lia).
  assert (forall role, ssrc_table_ok (ssrc_states (nano_srtp_init role))) as Htab.
  { intros role. split; [done|]. intros i j a b Hi _ Ha. cbn in Hi.
    apply (lookup_replicate_1 4) in Hi as [-> _]. done. }
  rewrite !rdn_Ok by lia. rewrite !bind_Ok. fold ck sk cs ss. cbn [is_client nano_srtp_init].
  rewrite !derive_all_eq by done. rewrite !bind_Ok. cbn [Z.eqb NANORTC_OK].
  do 2 eexists. split; [done|]. split; [done|].
  split_and!; split; try done; first [by apply session_keys_ok | by apply (Htab true)].
Qed.
End Keys.

(** The value of an octet string, first octet first. *)
Fixpoint be_val (l : list Z) (acc : Z) : Z :=
  match l with [] => acc | b :: l => be_val l (acc * 256 + b) end.
Lemma octet_step a x b y :
  is_u8 x -> is_u8 y -> Z.lxor (a * 256 + x) (b * 256 + y) = Z.lxor a b * 256 + Z.lxor x y.
Proof.
  intros Hx Hy. assert (0 <= Z.lxor x y < 2 ^ 8) as Hxy by (apply lxor_bounded; [lia|apply Hx|apply Hy]).
  change 256 with (2 ^ 8). rewrite <- !lor_shiftl_add by (done || lia).
  apply Z.bits_inj'. intros n Hn. rewrite !Z.lxor_spec, !Z.lor_spec, Z.lxor_spec.
  destruct (Z.lt_ge_cases n 8) as [Hlt|Hge].
  - by rewrite !Z.shiftl_spec_low by lia.
  - rewrite !Z.shiftl_spec, Z.lxor_spec by lia.
    assert (forall z, is_u8 z -> Z.testbit z n = false) as Hz.
    { intros z Hz. apply (pow2_bounded_bits 8); [lia|apply Hz|lia]. }
    by rewrite !Hz, !orb_false_r.
Qed.
Lemma be_val_lxor l m a b :
  bytes l -> bytes m -> length l = length m ->
  be_val (zip_with Z.lxor l m) (Z.lxor a b) = Z.lxor (be_val l a) (be_val m b).
Proof.
  intros Hl. revert m a b. induction Hl as [|x l Hx Hl IH]; intros m a b Hm Hlen; destruct Hm as [|y m Hy Hm]; try done.
  cbn. rewrite <- octet_step by done. apply IH; [done|]. cbn in Hlen. lia.
Qed.

Lemma be_val_lxor0 l m :
  bytes l -> bytes m -> length l = length m ->
  be_val (zip_with Z.lxor l m) 0 = Z.lxor (be_val l 0) (be_val m 0).
Proof. exact (be_val_lxor l m 0 0). Qed.

(** The octets of the three terms of the formula. *)
Definition iv_ssrc (ssrc : Z) : list Z := [0; 0; 0; 0] ++ be32 ssrc ++ replicate 8 0.
Definition iv_index (index : Z) : list Z :=
  replicate 6 0 ++ be32 (Z.shiftr index 32) ++ be32 index ++ [0; 0].

Lemma u8_shiftr_shiftr i a b : 0 <= a -> 0 <= b -> u8 (Z.shiftr (Z.shiftr i a) b) = u8 (Z.shiftr i (a + b)).
Proof. intros. by rewrite Z.shiftr_shiftr. Qed.
Lemma compute_iv_zip salt ssrc index :
  bytes salt -> length salt = NANORTC_SRTP_SALT_SIZE ->
  srtp_compute_iv salt ssrc index =
  Ok (zip_with Z.lxor (zip_with Z.lxor (iv_ssrc ssrc) (iv_index index)) (salt ++ [0; 0])).
Proof.
  intros Hb Hl. unfold NANORTC_SRTP_SALT_SIZE in Hl. do 14 (destruct salt as [|? salt]; [done|]). destruct salt; [|done].
  unfold srtp_compute_iv, iv_ssrc, iv_index, be32. rewrite !u8_shiftr_shiftr by lia.
  cbn [Z.add Pos.add Pos.succ]. cbn -[u8 Z.lxor Z.shiftr]. by rewrite !Z.lxor_0_l, !Z.lxor_0_r.
Qed.
Lemma be_val_app l m acc : be_val (l ++ m) acc = be_val m (be_val l acc).
Proof. revert acc. induction l; intros; cbn; auto. Qed.
Lemma be_val_zeros n acc : be_val (replicate n 0) acc = acc * 256 ^ Z.of_nat n.
Proof.
  revert acc. induction n as [|n IH]; intros acc; [cbn; lia|]. cbn [replicate be_val]. rewrite IH.
  rewrite Nat2Z.inj_succ, Z.pow_succ_r by lia. lia.
Qed.
Lemma be_val_be32 v acc : be_val (be32 v) acc = acc * 2 ^ 32 + u32 v.
Proof. cbn [be_val be32]. rewrite <- (val32_be32 v). unfold val32. lia. Qed.

(** The initialization vector is the one of RFC 3711, section 4.1.1: as a
    128-bit number it is (salt * 2^16) xor (SSRC * 2^64) xor (index * 2^16). *)
Theorem srtp_compute_iv_rfc (salt : list Z) (ssrc index : Z) :
  bytes salt -> length salt = NANORTC_SRTP_SALT_SIZE -> is_u32 ssrc -> is_u64 index ->
  exists iv, srtp_compute_iv salt ssrc index = Ok iv /\ length iv = 16%nat /\
    be_val iv 0 = Z.lxor (Z.lxor (ssrc * 2 ^ 64) (index * 2 ^ 16)) (be_val salt 0 * 2 ^ 16).
Proof.
  intros Hb Hl Hs Hi. destruct (compute_iv_Ok salt ssrc index Hl) as (iv & Hiv & Hlen).
  exists iv. split; [done|]. split; [done|]. rewrite compute_iv_zip in Hiv by done.
  assert (iv = zip_with Z.lxor (zip_with Z.lxor (iv_ssrc ssrc) (iv_index index)) (salt ++ [0; 0])) as -> by congruence.
  clear Hiv Hlen.
  assert (bytes (iv_ssrc ssrc) /\ bytes (iv_index index)) as [Hb1 Hb2].
  { split; unfold iv_ssrc, iv_index; bytes_split; auto using be32_bytes. all: apply Forall_replicate; auto with mach. }
  assert (bytes (zip_with Z.lxor (iv_ssrc ssrc) (iv_index index))) as Hbz.
  { eapply Forall_zip_with_fst; [exact Hb1|]. refine (List.Forall_impl _ _ Hb2). intros y Hy x Hx.
    apply lxor_bounded; [lia | apply Hx | apply Hy]. }
  assert (length (zip_with Z.lxor (iv_ssrc ssrc) (iv_index index)) = 16%nat) as Hlz by done.
  rewrite be_val_lxor0; [|done| |rewrite Hlz, length_app, Hl; done].
  2: { apply Forall_app_2; [done|]. bytes_split. }
  rewrite be_val_lxor0 by done. rewrite be_val_app. f_equal; [f_equal|].
  - unfold iv_ssrc. rewrite !be_val_app, be_val_be32, be_val_zeros. rewrite (u32_id ssrc) by done. cbn. lia.
  - unfold iv_index. rewrite !be_val_app, !be_val_be32, be_val_zeros.
    rewrite (u32_id (Z.shiftr index 32)) by (rewrite Z.shiftr_div_pow2 by lia; mach).
    rewrite Z.shiftr_div_pow2 by lia. cbn [be_val]. unfold u32. rewrite (Z.div_mod index (2 ^ 32)) at 3 by lia. lia.
  - cbn [be_val]. lia.
Qed.

(** * Safety *)

Section Safety.
Context (aes_128_cm : list Z -> list Z -> list Z -> Z * list Z).
Context (hmac_sha1_80 : list Z -> list Z -> list Z).
Context (aes_size : forall k iv d, length (snd (aes_128_cm k iv d)) = length d).
Context (hmac_size : forall k d, length (hmac_sha1_80 k d) = NANORTC_SRTP_AUTH_TAG_SIZE).

Lemma crypt_wp key salt ssrc index packet off n (P : Z * list Z -> Prop) :
  length salt = NANORTC_SRTP_SALT_SIZE -> (off + n <= length packet)%nat ->
  (forall rc p, length p = length packet -> P (rc, p)) ->
  wp (srtp_crypt aes_128_cm key salt ssrc index packet off n) P.
Proof using aes_size.
  intros Hs Ho HP. unfold srtp_crypt. destruct (compute_iv_Ok salt ssrc index Hs) as (iv & -> & _). rewrite bind_Ok.
  apply wp_bind, rdn_wp; [done|]. intros d Hd. pose proof (aes_size key iv d) as Hl.
  destruct (aes_128_cm key iv d) as [rc out]. cbn in Hl. apply wp_bind, wr_wp; [lia|]. intros p Hp. by apply HP.
Qed.
Lemma tag_diff_wp a b (P : Z -> Prop) :
  length a = NANORTC_SRTP_AUTH_TAG_SIZE -> length b = NANORTC_SRTP_AUTH_TAG_SIZE -> (forall d, P d) ->
  wp (tag_diff NANORTC_SRTP_AUTH_TAG_SIZE 0 0 a b) P.
Proof. intros Ha Hb HP. destruct (tag_diff_spec a b Ha Hb) as (d & -> & _). apply HP. Qed.

Definition result_ok (s : nano_srtp) (packet : list Z) (r : srtp_result) : Prop :=
  let '(s', packet', out) := r in
  session_ok s' /\ sr_keys s' = sr_keys s /\ length packet' = length packet /\
  match out with inl _ => True | inr n => (n <= length packet)%nat end.

Lemma parse_hdr_safe packet len :
  (12 <= len <= length packet)%nat -> safe (srtp_parse_hdr_len packet len).
Proof using.
  intros Hl. unfold srtp_parse_hdr_len, SRTP_RTP_HEADER_SIZE. rewrite rd8_Ok, bind_Ok by lia. cbv zeta.
  destruct (_ <? _)%nat eqn:H1; [done|]. destruct (negb _); [|done]. destruct (_ <? 4)%nat eqn:H2; [done|]. bool_facts.
  rewrite read_u16be_at, bind_Ok by lia. by destruct (_ <? _)%nat.
Qed.

Lemma unprotect_wp s packet len :
  session_ok s -> (len <= length packet)%nat ->
  wp (nano_srtp_unprotect aes_128_cm hmac_sha1_80 s packet len) (result_ok s packet).
Proof using aes_size hmac_size.
  intros Hok Hlen. unfold nano_srtp_unprotect. pose proof Hok as [Hr Hk Ht]. rewrite Hr. cbn [negb].
  unfold SRTP_RTP_HEADER_SIZE, NANORTC_SRTP_AUTH_TAG_SIZE.
  destruct (Nat.ltb_spec len (12 + 10)) as [|Hmin]; [by cbn|].
  rewrite read_u16be_at, bind_Ok, read_u32be_at, bind_Ok by lia. cbv zeta. set (seq := u16 _).
  match goal with |- context [srtp_get_ssrc_state _ ?x _] => set (ssrc := x) end.
  pose proof (parse_hdr_safe packet (len - 10) ltac:(lia)) as Hsafe.
  destruct (srtp_parse_hdr_len packet (len - 10)) as [h|e|] eqn:Hh; [|by cbn|done]. apply parse_hdr_min in Hh.
  destruct (get_ssrc_state_spec (ssrc_states s) ssrc (last_recv_idx s) Ht) as (states & cache & slot & -> & Ht' & _ & Hslot).
  rewrite bind_Ok. destruct slot as [i|]; [|by cbn; split_and!; [split|..]].
  destruct Hslot as (ss & Hi & Ha & Hid & _). unfold get_ss. rewrite Hi, bind_Ok.
  apply wp_bind, rdn_wp; [lia|]. intros recv_tag Hrt. apply wp_bind, wr_wp; [cbn; lia|]. intros p1 Hp1.
  apply wp_bind, rdn_wp; [lia|]. intros data _. apply wp_bind, wr_wp; [lia|]. intros p2 Hp2.
  apply wp_bind, tag_diff_wp; [done | apply hmac_size|]. intros d. cbv zeta.
  assert (length p2 = length packet) as Hp2' by lia.
  assert (session_ok (set_recv_idx (set_states s states) cache)) as Hs' by by split.
  destruct (negb (d =? 0)); [by cbn; split_and!|].
  apply wp_bind. apply (wp_mono _ (fun '(_, p) => length p = length packet)).
  { apply wp_if; intros _; [|done]. apply crypt_wp; [apply Hk | lia |]. intros rc p Hp. lia. }
  intros [rc p3] Hp3. destruct (negb (rc =? 0)); [by cbn; split_and!|].
  destruct (_ || _); cbn; (split_and!; [|done|done|lia]); [|done].
  split; [done | done|]. cbn. by apply (update_slot states i ss).
Qed.
Lemma unprotect_rtcp_wp s packet len :
  session_ok s -> (len <= length packet)%nat ->
  wp (nano_srtp_unprotect_rtcp aes_128_cm hmac_sha1_80 s packet len) (result_ok s packet).
Proof using aes_size hmac_size.
  intros Hok Hlen. unfold nano_srtp_unprotect_rtcp. pose proof Hok as [Hr Hk Ht]. rewrite Hr. cbn [negb].
  unfold NANORTC_SRTCP_OVERHEAD, NANORTC_SRTP_AUTH_TAG_SIZE.
  destruct (Nat.ltb_spec len (8 + 14)) as [|Hmin]; [by cbn|]. cbv zeta.
  apply wp_bind, rdn_wp; [lia|]. intros recv_tag Hrt. apply wp_bind, rdn_wp; [lia|]. intros data _.
  apply wp_bind, tag_diff_wp; [done | apply hmac_size|]. intros d.
  destruct (negb (d =? 0)); [by cbn|]. apply wp_bind, read_u32be_wp; [lia|]. intros e.
  apply wp_bind. apply (wp_mono _ (fun '(_, p) => length p = length packet)).
  { apply wp_if; intros Hg; [|done]. apply andb_prop in Hg as [_ Hg]. bool_facts.
    apply wp_bind, read_u32be_wp; [lia|]. intros ssrc. apply crypt_wp; [apply Hk | lia |]. intros rc p Hp. lia. }
  intros [rc p] Hp. destruct (negb (rc =? 0)); cbn; split_and!; done || lia.
Qed.

Lemma no_err_get_ss l i : no_err (get_ss l i).
Proof using. intros e. unfold get_ss. by destruct (l !! i). Qed.
Lemma no_err_scan_ssrc n i l x : no_err (scan_ssrc n i l x).
Proof using. revert i. induction n as [|n IH]; intros i; cbn; [done|]. apply no_err_bind; [apply no_err_get_ss|]. intros a. by destruct (_ && _). Qed.
Lemma no_err_scan_free n i l : no_err (scan_free n i l).
Proof using. revert i. induction n as [|n IH]; intros i; cbn; [done|]. apply no_err_bind; [apply no_err_get_ss|]. intros a. by destruct (negb _). Qed.
Lemma no_err_get_state l x c : no_err (srtp_get_ssrc_state l x c).
Proof using.
  unfold srtp_get_ssrc_state, cached_hit. apply no_err_bind.
  - destruct (_ && _); [|done]. apply no_err_bind; [apply no_err_get_ss | done].
  - intros []; [done|]. apply no_err_bind; [apply no_err_scan_ssrc|]. intros []; [done|].
    apply no_err_bind; [apply no_err_scan_free|]. by intros [].
Qed.
Lemma no_err_xor_salt n i iv salt : no_err (xor_salt n i iv salt).
Proof using. revert i iv. induction n as [|n IH]; intros i iv; cbn; [done|]. apply no_err_bind; [auto with safe | auto]. Qed.
Lemma no_err_crypt key salt ssrc index packet off n : no_err (srtp_crypt aes_128_cm key salt ssrc index packet off n).
Proof using.
  unfold srtp_crypt, srtp_compute_iv. apply no_err_bind; [apply no_err_xor_salt|]. intros iv.
  apply no_err_bind; [auto with safe|]. intros d. destruct (aes_128_cm key iv d). by do 2 no_err_step.
Qed.
Lemma no_err_tag_diff n i d a b : no_err (tag_diff n i d a b).
Proof using. revert i d. induction n as [|n IH]; intros i d; cbn; [done|]. do 2 (apply no_err_bind; [auto with safe | intros ?]). auto. Qed.
Hint Resolve no_err_get_ss no_err_get_state no_err_crypt no_err_tag_diff : safe.

(** C30: whatever a peer sends, SRTP and SRTCP unprotection read and write only
    inside the packet and the SSRC table: on every octet string and in every
    session they return, with the session still well formed and its keys
    unchanged, the buffer's size kept, and the reported plaintext inside it. *)
Theorem srtp_unprotect_safe (s : nano_srtp) (packet : list Z) (len : nat) (rtcp : bool) :
  session_ok s -> (len <= length packet)%nat ->
  let unprotect := if rtcp then nano_srtp_unprotect_rtcp else nano_srtp_unprotect in
  exists r, unprotect aes_128_cm hmac_sha1_80 s packet len = Ok r /\ result_ok s packet r.
Proof using aes_size hmac_size.
  intros Hok Hlen unprotect.
  assert (wp (unprotect aes_128_cm hmac_sha1_80 s packet len) (result_ok s packet) /\
          no_err (unprotect aes_128_cm hmac_sha1_80 s packet len)) as [Hwp Hne].
  { unfold unprotect. destruct rtcp.
    - split; [by apply unprotect_rtcp_wp|]. unfold nano_srtp_unprotect_rtcp. repeat no_err_step.
    - split; [by apply unprotect_wp|]. unfold nano_srtp_unprotect. repeat no_err_step. }
  destruct (unprotect _ _ _ _ _) as [r|e|]; [by exists r | by destruct (Hne e) | done].
Qed.
End Safety.

(** * Examples *)

(** A provider that satisfies the laws: a one-octet keystream and a tag that is
    the end of the message, the counter first. *)
Definition toy_aes (k iv d : list Z) : Z * list Z := (0, map (fun x => Z.lxor x (u8 (nth 0 k 0 + nth 13 iv 0))) d).
Definition toy_hmac (k d : list Z) : list Z := take 10 (rev d ++ replicate 10 0).
Lemma toy_laws : provider_laws toy_aes toy_hmac.
Proof.
  split; unfold toy_aes, toy_hmac; cbn [fst snd].
  - done.
  - intros. apply length_map.
  - intros k iv d Hd. induction Hd as [|x d Hx Hd IH]; cbn; [constructor|]. constructor; [|done].
    apply lxor_bounded; [lia | apply Hx | apply u8_range].
  - intros k iv d _. rewrite map_map. induction d as [|x d IH]; cbn; [done|]. rewrite IH. f_equal.
    by rewrite Z.lxor_assoc, Z.lxor_nilpotent, Z.lxor_0_r.
  - intros k d. rewrite length_take, length_app, length_replicate. unfold NANORTC_SRTP_AUTH_TAG_SIZE. lia.
Qed.

Definition toy_material : list Z := map Z.of_nat (seq 1 60).
Definition toy_session (role : bool) : nano_srtp :=
  match nano_srtp_derive_keys toy_aes (nano_srtp_init role) toy_material 60 with Ok (s, _) => s | _ => nano_srtp_init role end.
Lemma toy_sessions :
  session_ok (toy_session true) /\ session_ok (toy_session false) /\
  keys_match (sr_keys (toy_session true)) (sr_keys (toy_session false)).
Proof.
  assert (forall role, ssrc_table_ok (ssrc_states (toy_session role))) as Htab.
  { intros role. split; [by destruct role|]. intros i j a b Hi _ Ha.
    assert (ssrc_states (toy_session role) = replicate 4 (SsrcState 0 0 0 false)) as He by by destruct role.
    rewrite He in Hi. apply (lookup_replicate_1 4) in Hi as [-> _]. done. }
  split_and!; split; try done; by split.
Qed.

Lemma toy_hmac_counter k m roc : take 4 (toy_hmac k (m ++ be32 roc)) = rev (be32 roc).
Proof. unfold toy_hmac. rewrite rev_app_distr. done. Qed.

Lemma toy_tag_inj k hd c roc roc' :
  is_u32 roc -> is_u32 roc' -> tag toy_hmac k hd c roc = tag toy_hmac k hd c roc' -> roc = roc'.
Proof.
  intros Hr Hr' Htag. apply (f_equal (take 4)) in Htag. unfold tag in Htag. rewrite !toy_hmac_counter in Htag.
  cbn in Htag. injection Htag as H0 H1 H2 H3.
  by rewrite <- (u32_id roc), <- (u32_id roc'), <- !val32_be32, H0, H1, H2, H3 by done.
Qed.

Lemma toy_protected_tag snd hd body seq ssrc ss roc :
  is_u32 roc -> is_u32 (ss_roc ss) ->
  tag toy_hmac (send_auth_key (sr_keys snd)) hd (protected_body toy_aes snd body seq ssrc ss) roc =
  protected_tag toy_aes toy_hmac snd hd body seq ssrc ss -> roc = ss_roc ss.
Proof. intros Hr Hs. unfold protected_tag. by apply toy_tag_inj. Qed.

(** An RTP header with sequence number [seq] and SSRC 7. *)
Definition toy_header (seq : Z) : list Z := [128; 96] ++ be16 seq ++ [0; 0; 0; 1; 0; 0; 0; 7].
Lemma toy_datagram seq body : is_u16 seq -> bytes body -> rtp_datagram (toy_header seq) body seq 7.
Proof.
  intros Hs Hb. split.
  - split; [|done]. unfold toy_header. bytes_split; try apply be16_bytes; unfold is_u8; lia.
  - unfold srtp_parse_hdr_len. rewrite rd8_Ok, bind_Ok by (cbn; lia). change (nth 0 (toy_header seq ++ body) 0) with 128.
    change (length (toy_header seq)) with 12%nat. cbv zeta. change (Z.land 128 15) with 0. change (Z.land 128 16) with 0.
    by rewrite (proj2 (Nat.ltb_ge _ _)) by (cbn; lia).
  - unfold toy_header. change ([128; 96] ++ be16 seq ++ [0; 0; 0; 1; 0; 0; 0; 7]) with ([128; 96] ++ be16 seq ++ [0; 0; 0; 1; 0; 0; 0; 7]).
    rewrite read_u16be_app by done. by rewrite u16_id.
  - reflexivity.
Qed.
Lemma toy_starts role : starts (ssrc_states (toy_session role)) 7 (SsrcState 7 0 0 true).
Proof.
  right. assert (ssrc_states (toy_session role) = replicate 4 (SsrcState 0 0 0 false)) as -> by by destruct role.
  split_and!; [|done|by exists 0%nat, (SsrcState 0 0 0 false)].
  intros s (i & Hi & Ha & _). apply (lookup_replicate_1 4) in Hi as [-> _]. done.
Qed.

Lemma srtp_protect_unprotect_witness :
  exists snd' rcv' c t,
    nano_srtp_protect toy_aes toy_hmac (toy_session true) (toy_header 5 ++ [1; 2; 3] ++ replicate 12 9) 15 =
      Ok (snd', toy_header 5 ++ c ++ t ++ [9; 9], inr 25%nat) /\
    nano_srtp_unprotect toy_aes toy_hmac (toy_session false) (toy_header 5 ++ c ++ t ++ [9; 9]) 25 =
      Ok (rcv', toy_header 5 ++ [1; 2; 3] ++ t ++ [9; 9], inr 15%nat).
Proof.
  destruct toy_sessions as (Hc & Hs & Hm).
  destruct (srtp_protect_unprotect toy_aes toy_hmac toy_laws (toy_session true) (toy_session false) (toy_header 5) [1; 2; 3]
              (replicate 12 9) 5 7 (SsrcState 7 0 0 true) (SsrcState 7 0 0 true) Hc Hs Hm)
    as (snd' & c & t & Hp & _ & _ & _ & _ & _ & _ & (rcv' & Hu & _) & _).
  - apply toy_datagram; [mach | bytes_lit].
  - cbn. unfold NANORTC_SRTP_AUTH_TAG_SIZE. lia.
  - apply (toy_starts true).
  - apply (toy_starts false).
  - reflexivity.
  - exists snd', rcv', c, t. split; [exact Hp | exact Hu].
Defined.

Lemma set_states_ok s l : session_ok s -> ssrc_table_ok l -> session_ok (set_states s l).
Proof. intros [Hr Hk _] Hl. by split. Qed.
(** A receiver at the end of the cycle. *)
Definition toy_table : list ssrc_state := SsrcState 7 2 0xFFFF true :: replicate 3 (SsrcState 0 0 0 false).
Definition toy_receiver : nano_srtp :=
  set_states (toy_session false) toy_table.
Lemma set_states_keys s l : sr_keys (set_states s l) = sr_keys s.
Proof. done. Qed.
Lemma toy_receiver_match : keys_match (sr_keys (toy_session true)) (sr_keys toy_receiver).
Proof. unfold toy_receiver. rewrite set_states_keys. apply toy_sessions. Qed.
Lemma toy_receiver_ok : session_ok toy_receiver /\ tracks (ssrc_states toy_receiver) 7 (SsrcState 7 2 0xFFFF true).
Proof.
  split; [|by exists 0%nat]. apply set_states_ok; [apply toy_sessions|].
  split; [reflexivity|]. cbn. intros [|i] [|j] a b Hi Hj Ha Hb; [done | | |].
  - cbn in Hj. apply (lookup_replicate_1 3) in Hj as [-> _]. done.
  - cbn in Hi. apply (lookup_replicate_1 3) in Hi as [-> _]. done.
  - cbn in Hi. apply (lookup_replicate_1 3) in Hi as [-> _]. done.
Qed.

Definition toy_next : ssrc_state := SsrcState 7 3 0 true.
Lemma toy_rollover_tags roc :
  is_u32 roc ->
  tag toy_hmac (send_auth_key (sr_keys (toy_session true))) (toy_header 0)
    (protected_body toy_aes (toy_session true) [1; 2; 3] 0 7 toy_next) roc =
  protected_tag toy_aes toy_hmac (toy_session true) (toy_header 0) [1; 2; 3] 0 7 toy_next -> roc = ss_roc toy_next.
Proof. intros Hroc. apply toy_protected_tag; [exact Hroc | unfold is_u32; cbn; lia]. Qed.

Lemma srtp_rollover_lost_witness :
  exists rcv',
    let c := protected_body toy_aes (toy_session true) [1; 2; 3] 0 7 toy_next in
    let t := protected_tag toy_aes toy_hmac (toy_session true) (toy_header 0) [1; 2; 3] 0 7 toy_next in
    nano_srtp_unprotect toy_aes toy_hmac toy_receiver (toy_header 0 ++ c ++ t ++ [9])
        (length (toy_header 0) + length [1; 2; 3] + NANORTC_SRTP_AUTH_TAG_SIZE) =
      Ok (rcv', toy_header 0 ++ c ++ t ++ [9], inl NANORTC_ERR_CRYPTO).
Proof.
  destruct toy_sessions as (Hc & Hs & Hm). destruct toy_receiver_ok as [Hr Ht].
  destruct (srtp_rollover_lost toy_aes toy_hmac toy_laws (toy_session true) toy_receiver (toy_header 0) [1; 2; 3] [9] 0 7 toy_next
           (SsrcState 7 2 0xFFFF true) Hc Hr toy_receiver_match (toy_datagram 0 [1; 2; 3] ltac:(mach) ltac:(bytes_lit))
           ltac:(unfold is_u32; cbn; lia) Ht eq_refl eq_refl toy_rollover_tags) as (rcv' & Hu).
  assert ((0x7FFF <=? 0) && (0 <? 0xBFFF) = false) as Hout by reflexivity. rewrite Hout in Hu.
  exists rcv'. exact Hu.
Defined.

Lemma srtp_replay_accepted_witness :
  exists rcv1 rcv2,
    let c := protected_body toy_aes (toy_session true) [1; 2; 3] 5 7 (SsrcState 7 0 0 true) in
    let t := protected_tag toy_aes toy_hmac (toy_session true) (toy_header 5) [1; 2; 3] 5 7 (SsrcState 7 0 0 true) in
    let len := (length (toy_header 5) + length [1; 2; 3] + NANORTC_SRTP_AUTH_TAG_SIZE)%nat in
    nano_srtp_unprotect toy_aes toy_hmac (toy_session false) (toy_header 5 ++ c ++ t ++ [9]) len =
      Ok (rcv1, toy_header 5 ++ [1; 2; 3] ++ t ++ [9], inr (length (toy_header 5) + length [1; 2; 3])%nat) /\
    nano_srtp_unprotect toy_aes toy_hmac rcv1 (toy_header 5 ++ c ++ t ++ [9]) len =
      Ok (rcv2, toy_header 5 ++ [1; 2; 3] ++ t ++ [9], inr (length (toy_header 5) + length [1; 2; 3])%nat).
Proof.
  destruct toy_sessions as (Hc & Hs & Hm).
  destruct (srtp_replay_accepted toy_aes toy_hmac toy_laws (toy_session true) (toy_session false) (toy_header 5) [1; 2; 3] [9] 5 7
              (SsrcState 7 0 0 true) (SsrcState 7 0 0 true) Hc Hs Hm (toy_datagram 5 [1; 2; 3] ltac:(mach) ltac:(bytes_lit))
              (toy_starts false) eq_refl) as (rcv1 & rcv2 & H1 & H2 & _).
  exists rcv1, rcv2. split; [exact H1 | exact H2].
Defined.

Lemma estimate_roc_vs_rfc_witness :
  estimate_roc (SsrcState 7 1 0xFFFF true) 0 <> rfc_roc 1 0xFFFF 0 /\
  estimate_roc (SsrcState 7 1 0xFF00 true) 0xFFFF = rfc_roc 1 0xFF00 0xFFFF.
Proof.
  split.
  - intros H. apply (estimate_roc_vs_rfc (SsrcState 7 1 0xFFFF true) 0) in H; [cbn in H; lia | mach | cbn; mach | cbn; mach | cbn; lia].
  - apply (estimate_roc_vs_rfc (SsrcState 7 1 0xFF00 true) 0xFFFF); [mach | cbn; mach | cbn; mach | cbn; lia | cbn; lia].
Defined.

Lemma srtcp_protect_unprotect_witness :
  exists snd' c t,
    let e := srtcp_trailer 0 in
    nano_srtp_protect_rtcp toy_aes toy_hmac (toy_session true) ([128; 200; 0; 1; 0; 0; 0; 7] ++ [1; 2] ++ replicate 14 0) 10 =
      Ok (snd', [128; 200; 0; 1; 0; 0; 0; 7] ++ c ++ e ++ t, inr 24%nat) /\
    nano_srtp_unprotect_rtcp toy_aes toy_hmac (toy_session false) ([128; 200; 0; 1; 0; 0; 0; 7] ++ c ++ e ++ t) 24 =
      Ok (toy_session false, [128; 200; 0; 1; 0; 0; 0; 7] ++ [1; 2] ++ e ++ t, inr 10%nat).
Proof.
  destruct toy_sessions as (Hc & Hs & Hm).
  destruct (srtcp_protect_unprotect toy_aes toy_hmac toy_laws (toy_session true) (toy_session false) [128; 200; 0; 1; 0; 0; 0; 7]
              [1; 2] (replicate 14 0) 7 Hc Hs Hm) as (snd' & c & t & Hp & _ & _ & _ & _ & Hu & _).
  - split; [reflexivity | bytes_lit | reflexivity].
  - cbn. unfold NANORTC_SRTCP_OVERHEAD. lia.
  - cbn. lia.
  - exists snd', c, t. change (drop NANORTC_SRTCP_OVERHEAD (replicate 14 0)) with (@nil Z) in *. rewrite app_nil_r in *.
    split; [exact Hp | exact Hu].
Defined.

Lemma srtp_keys_agree_witness :
  exists client server,
    nano_srtp_derive_keys toy_aes (nano_srtp_init true) toy_material 60 = Ok (client, NANORTC_OK) /\
    nano_srtp_derive_keys toy_aes (nano_srtp_init false) toy_material 60 = Ok (server, NANORTC_OK) /\
    keys_match (sr_keys client) (sr_keys server).
Proof.
  destruct (srtp_keys_agree toy_aes toy_hmac toy_laws toy_material 60) as (c & s & H1 & H2 & _ & _ & H3 & _).
  - cbn. lia.
  - exists c, s. split; [exact H1 | split; [exact H2 | exact H3]].
Defined.

Lemma srtp_compute_iv_rfc_witness :
  exists iv, srtp_compute_iv (replicate 14 1) 0xAABBCCDD 0x10005 = Ok iv /\ nth 13 iv 0 = 4.
Proof.
  destruct (srtp_compute_iv_rfc (replicate 14 1) 0xAABBCCDD 0x10005) as (iv & Hiv & _);
    [cbn; bytes_lit | reflexivity | mach | mach |].
  exists iv. split; [exact Hiv|]. vm_compute in Hiv. injection Hiv as <-. reflexivity.
Defined.

Lemma srtp_unprotect_safe_witness :
  exists r, nano_srtp_unprotect_rtcp toy_aes toy_hmac (toy_session true) (replicate 40 200) 30 = Ok r /\
    result_ok (toy_session true) (replicate 40 200) r.
Proof.
  destruct (srtp_unprotect_safe toy_aes toy_hmac) with (s := toy_session true) (packet := replicate 40 200) (len := 30%nat) (rtcp := true)
    as (r & Hr & Hok).
  - intros. apply length_map.
  - apply toy_laws.
  - apply toy_sessions.
  - cbn. lia.
  - exists r. split; [exact Hr | exact Hok].
Defined.
