(* ===== verification/Media.v ===== *)
(** Media tracks, [src/nano_media.c]: track slots, the SSRC to MID table, which
    refines a bounded finite map, and the one-second send-rate window, whose
    figures are those of a second of the send log. *)

From Stdlib Require Import ZArith Lia.
From stdpp Require Import base list gmap numbers.
From S2P Require Import Prelude Wire Rtp Rtcp Jitter H264 H265.

Local Open Scope Z_scope.

(** * Tracks *)

(** [nanortc_track_kind_t] *)
Inductive track_kind : Type := TRACK_AUDIO | TRACK_VIDEO.
Definition NANORTC_CODEC_H265 : Z := 6.

(** [nano_rate_window_t] *)
Record nano_rate_window : Type := RateWindow {
  bucket_start_ms : Z; cur_frames : Z; cur_bytes : Z; prev_bps : Z; prev_fps_q8 : Z; bucket_valid : bool
}.
Definition rate_window_zero : nano_rate_window := RateWindow 0 0 0 0 0 false.

(** The union of [nanortc_track_t]. *)
Inductive track_media : Type :=
| AudioMedia (jitter : nano_jitter) (jitter_depth_ms : Z)
| VideoH264 (depkt : nano_h264_depkt)
| VideoH265 (depkt : nano_h265_depkt).
(** [nanortc_track_t], without its scratch buffer and the receive-side fields of
    the connection core. *)
Record nanortc_track : Type := Track {
  tr_mid : Z; tr_kind : track_kind; tr_direction : Z; tr_active : bool;
  tr_rtp : nano_rtp; tr_rtcp : nano_rtcp; tr_rate_window : nano_rate_window; tr_fraction_lost : Z;
  tr_codec : Z; tr_sample_rate : Z; tr_channels : Z; tr_media : track_media
}.
Definition track_init (mid : Z) (kind : track_kind) (direction codec sample_rate channels jitter_depth_ms : Z)
  : nanortc_track :=
  Track mid kind direction true (rtp_init 0 0) (rtcp_init 0) rate_window_zero 0 codec sample_rate channels
    (match kind with
     | TRACK_AUDIO => AudioMedia (jitter_init jitter_depth_ms) jitter_depth_ms
     | TRACK_VIDEO => if codec =? NANORTC_CODEC_H265 then VideoH265 h265_depkt_init else VideoH264 h264_depkt_init
     end).

(** The index of the track. *)
Fixpoint find_mid_loop (n i : nat) (media : list nanortc_track) (mid : Z) : res (option nat) :=
  match n with
  | O => Ok None
  | S n =>
      match media !! i with
      | None => Fault
      | Some m => if tr_active m && (tr_mid m =? mid) then Ok (Some i) else find_mid_loop n (S i) media mid
      end
  end.
Definition track_find_by_mid (media : list nanortc_track) (media_count : nat) (mid : Z) : res (option nat) :=
  find_mid_loop media_count 0 media mid.

(** * SSRC table *)

(** [nanortc_ssrc_entry_t] *)
Record ssrc_entry : Type := SsrcEntry { en_ssrc : Z; en_mid : Z; en_occupied : bool }.
Definition get_entry (map : list ssrc_entry) (i : nat) : res ssrc_entry :=
  match map !! i with Some e => Ok e | None => Fault end.
Fixpoint entry_scan (p : ssrc_entry -> bool) (n i : nat) (map : list ssrc_entry) : res (option nat) :=
  match n with
  | O => Ok None
  | S n => e ← get_entry map i; if p e then Ok (Some i) else entry_scan p n (S i) map
  end.
Definition holds (ssrc : Z) (e : ssrc_entry) : bool := en_occupied e && (en_ssrc e =? ssrc).
(** The table and the code. *)
Definition ssrc_map_register (map : list ssrc_entry) (map_size : nat) (ssrc mid : Z) : res (list ssrc_entry * Z) :=
  found ← entry_scan (holds ssrc) map_size 0 map;
  match found with
  | Some i => e ← get_entry map i; Ok (<[i := SsrcEntry (en_ssrc e) mid (en_occupied e)]> map, NANORTC_OK)
  | None =>
      free ← entry_scan (fun e => negb (en_occupied e)) map_size 0 map;
      match free with
      | Some i => Ok (<[i := SsrcEntry ssrc mid true]> map, NANORTC_OK)
      | None => Ok (map, NANORTC_ERR_BUFFER_TOO_SMALL)
      end
  end.
Definition ssrc_map_lookup (map : list ssrc_entry) (map_size : nat) (ssrc : Z) : res Z :=
  found ← entry_scan (holds ssrc) map_size 0 map;
  match found with
  | Some i => e ← get_entry map i; Ok (en_mid e)
  | None => Ok (-1)
  end.

(** * Rate window *)

Definition rate_window_roll (w : nano_rate_window) (now_ms : Z) : nano_rate_window :=
  if negb (bucket_valid w)
  then RateWindow now_ms (cur_frames w) (cur_bytes w) (prev_bps w) (prev_fps_q8 w) true
  else if 1000 <=? nano_time_elapsed now_ms (bucket_start_ms w) then
    let fps_q8 := u32 (cur_frames w * 256) in
    RateWindow now_ms 0 0 (u32 (cur_bytes w * 8)) (if 0xFFFF <? fps_q8 then 0xFFFF else u16 fps_q8) (bucket_valid w)
  else w.
Definition rate_window_on_frame (w : nano_rate_window) (now_ms : Z) : nano_rate_window :=
  let w := rate_window_roll w now_ms in
  RateWindow (bucket_start_ms w) (u32 (cur_frames w + 1)) (cur_bytes w) (prev_bps w) (prev_fps_q8 w) (bucket_valid w).
Definition rate_window_on_bytes (w : nano_rate_window) (now_ms nbytes : Z) : nano_rate_window :=
  let w := rate_window_roll w now_ms in
  RateWindow (bucket_start_ms w) (cur_frames w) (u32 (cur_bytes w + nbytes)) (prev_bps w) (prev_fps_q8 w) (bucket_valid w).

(** * The table refines a bounded map *)

(** The specification: registering replaces, or adds while there is room. *)
Definition map_register (cap : nat) (g : gmap Z Z) (ssrc mid : Z) : gmap Z Z * Z :=
  if bool_decide (is_Some (g !! ssrc)) || (size g <? cap)%nat
  then (<[ssrc := mid]> g, NANORTC_OK) else (g, NANORTC_ERR_BUFFER_TOO_SMALL).
Definition map_lookup (g : gmap Z Z) (ssrc : Z) : Z := default (-1) (g !! ssrc).

(** The map a table stands for. *)
Definition entry_map : list ssrc_entry -> gmap Z Z :=
  foldr (fun e g => if en_occupied e then <[en_ssrc e := en_mid e]> g else g) ∅.
Definition occupied_by (m : list ssrc_entry) (i : nat) (e : ssrc_entry) : Prop :=
  m !! i = Some e /\ en_occupied e = true.
Definition distinct_ssrcs (m : list ssrc_entry) : Prop :=
  forall i j a b, occupied_by m i a -> occupied_by m j b -> en_ssrc a = en_ssrc b -> i = j.

Lemma distinct_tail e m : distinct_ssrcs (e :: m) -> distinct_ssrcs m.
Proof.
  intros Hd i j a b Ha Hb He. assert (S i = S j) as [=] by (eapply (Hd (S i) (S j)); [exact Ha | exact Hb | exact He]). done.
Qed.
Lemma entry_map_lookup m ssrc mid :
  distinct_ssrcs m ->
  entry_map m !! ssrc = Some mid <-> exists i e, occupied_by m i e /\ en_ssrc e = ssrc /\ en_mid e = mid.
Proof.
  induction m as [|e m IH]; intros Hd; cbn [entry_map foldr].
  { rewrite lookup_empty. split; [done | intros (i & e & [Hi _] & _); done]. }
  specialize (IH (distinct_tail _ _ Hd)). fold (entry_map m). destruct (en_occupied e) eqn:Ho.
  - destruct (decide (en_ssrc e = ssrc)) as [Hs|Hs].
    + rewrite Hs, lookup_insert_eq. split.
      * intros [= <-]. by exists 0%nat, e.
      * intros (i & a & Ha & Has & <-). assert (i = 0%nat) as ->
          by (eapply (Hd i 0%nat a e); [done | done | congruence]). destruct Ha as [[= ->] _]. done.
    + rewrite lookup_insert_ne by done. rewrite IH. split.
      * intros (i & a & Ha & ?). by exists (S i), a.
      * intros ([|i] & a & [Ha Hao] & Has & ?); [cbn in Ha; congruence|]. by exists i, a.
  - rewrite IH. split.
    + intros (i & a & Ha & ?). by exists (S i), a.
    + intros ([|i] & a & [Ha Hao] & Has & ?); [cbn in Ha; congruence|]. by exists i, a.
Qed.
Lemma entry_map_none m ssrc :
  distinct_ssrcs m -> entry_map m !! ssrc = None <-> forall i e, occupied_by m i e -> en_ssrc e <> ssrc.
Proof.
  intros Hd. split.
  - intros Hn i e He Hs. assert (entry_map m !! ssrc = Some (en_mid e)); [|congruence]. apply entry_map_lookup; [done|]. by exists i, e.
  - intros Hf. destruct (entry_map m !! ssrc) as [mid|] eqn:Hm; [|done].
    apply entry_map_lookup in Hm as (i & e & He & Hs & _); [|done]. by destruct (Hf i e He).
Qed.
Lemma entry_map_size m : distinct_ssrcs m -> size (entry_map m) = length (filter (fun e => en_occupied e = true) m).
Proof.
  induction m as [|e m IH]; intros Hd; [done|]. specialize (IH (distinct_tail _ _ Hd)).
  cbn [entry_map foldr]. fold (entry_map m). destruct (en_occupied e) eqn:Ho.
  - rewrite filter_cons_True by done. cbn [length]. rewrite map_size_insert_None; [by rewrite IH|].
    apply entry_map_none; [by eapply distinct_tail|]. intros i a Ha Hs.
    assert (S i = 0%nat); [|done]. eapply (Hd (S i) 0%nat a e); [exact Ha | done | done].
  - rewrite filter_cons_False by congruence. done.
Qed.

Lemma entry_scan_spec p n i m :
  (i + n = length m)%nat ->
  exists r, entry_scan p n i m = Ok r /\
    match r with
    | Some j => exists e, m !! j = Some e /\ p e = true
    | None => forall j e, m !! j = Some e -> (i <= j)%nat -> p e = false
    end.
Proof.
  revert i. induction n as [|n IH]; intros i Hi; cbn [entry_scan].
  - exists None. split; [done|]. intros j e Hj Hij. apply lookup_lt_Some in Hj. lia.
  - destruct (lookup_lt_is_Some_2 m i ltac:(lia)) as [e He]. unfold get_entry. rewrite He, bind_Ok.
    destruct (p e) eqn:Hp; [by exists (Some i); split; [|exists e]|].
    destruct (IH (S i) ltac:(lia)) as (r & -> & Hr). exists r. split; [done|]. destruct r as [j|]; [done|].
    intros j e' Hj Hij. destruct (decide (j = i)) as [->|]; [congruence | apply (Hr j); [done|lia]].
Qed.
Lemma holds_true ssrc e : holds ssrc e = true <-> en_occupied e = true /\ en_ssrc e = ssrc.
Proof. unfold holds. by rewrite andb_true_iff, Z.eqb_eq. Qed.

(** Writing an occupied entry for [ssrc] where nothing else holds it is an insertion. *)
Lemma entry_map_insert m i old ssrc mid :
  distinct_ssrcs m -> m !! i = Some old -> (en_occupied old = true -> en_ssrc old = ssrc) ->
  (forall j e, occupied_by m j e -> en_ssrc e = ssrc -> j = i) ->
  distinct_ssrcs (<[i := SsrcEntry ssrc mid true]> m) /\
  entry_map (<[i := SsrcEntry ssrc mid true]> m) = <[ssrc := mid]> (entry_map m).
Proof.
  intros Hd Hi Hold Hu. assert (i < length m)%nat as Hlt by by eapply lookup_lt_Some.
  assert (forall j e, occupied_by (<[i := SsrcEntry ssrc mid true]> m) j e <->
            (j = i /\ e = SsrcEntry ssrc mid true) \/ (j <> i /\ occupied_by m j e)) as Hocc.
  { intros j e. unfold occupied_by. destruct (decide (j = i)) as [->|Hn].
    - rewrite list_lookup_insert_eq by done. split; [intros [[= <-] _]; by left | intros [[_ ->]|[? _]]; done].
    - rewrite list_lookup_insert_ne by done. split; [intros ?; by right | intros [[? _]|[_ ?]]; done]. }
  assert (distinct_ssrcs (<[i := SsrcEntry ssrc mid true]> m)) as Hd'.
  { intros j k a b. rewrite !Hocc. intros [[-> ->]|[Hj Ha]] [[-> ->]|[Hk Hb]] He; cbn in *; [done | | |by eapply Hd].
    - symmetry. by eapply Hu.
    - by eapply Hu. }
  split; [done|]. apply map_eq. intros s. apply option_eq. intros v.
  rewrite entry_map_lookup by done. destruct (decide (ssrc = s)) as [->|Hn].
  - rewrite lookup_insert_eq. split.
    + intros (j & e & He & Hs & <-). apply Hocc in He as [[-> ->]|[Hne He]]; [done|]. by destruct Hne, (Hu j e).
    + intros [= <-]. exists i, (SsrcEntry s mid true). rewrite Hocc. split; [by left|done].
  - rewrite lookup_insert_ne by done. rewrite entry_map_lookup by done. split.
    + intros (j & e & He & Hs & Hv). apply Hocc in He as [[-> ->]|[Hne He]]; [done|]. by exists j, e.
    + intros (j & e & He & Hs & Hv). exists j, e. rewrite Hocc. split; [|done]. right. split; [|done].
      intros ->. destruct He as [He Hocc']. replace e with old in * by congruence. destruct Hn. by rewrite <- Hold.
Qed.

Lemma filter_occupied_all (m : list ssrc_entry) :
  (forall i e, m !! i = Some e -> en_occupied e = true) -> filter (fun e => en_occupied e = true) m = m.
Proof.
  induction m as [|e m IH]; intros H; [done|]. rewrite filter_cons_True by (by apply (H 0%nat)).
  f_equal. apply IH. intros i. apply (H (S i)).
Qed.

Lemma register_refines m ssrc mid :
  distinct_ssrcs m ->
  exists m' rc, ssrc_map_register m (length m) ssrc mid = Ok (m', rc) /\
    map_register (length m) (entry_map m) ssrc mid = (entry_map m', rc) /\ distinct_ssrcs m' /\ length m' = length m.
Proof.
  intros Hd. unfold ssrc_map_register, map_register.
  destruct (entry_scan_spec (holds ssrc) (length m) 0 m ltac:(lia)) as (r & -> & Hr). rewrite bind_Ok. destruct r as [i|].
  - destruct Hr as (e & He & [Ho Hs]%holds_true). unfold get_entry. rewrite He, bind_Ok, Hs, Ho.
    destruct (entry_map_insert m i e ssrc mid Hd He) as [Hd' Hm]; [done | |].
    { intros j b Hb Hbs. eapply (Hd j i b e); [done | done | congruence]. }
    do 2 eexists. split; [done|]. rewrite Hm. assert (entry_map m !! ssrc = Some (en_mid e)) as ->
      by (apply entry_map_lookup; [done|]; by exists i, e).
    rewrite bool_decide_eq_true_2 by by eexists. cbn [orb]. split_and!; [done..|]. apply length_insert.
  - assert (forall i e, occupied_by m i e -> en_ssrc e <> ssrc) as Hnone.
    { intros i e [Hi Ho] Hs. specialize (Hr i e Hi ltac:(lia)). assert (holds ssrc e = true) by by apply holds_true. congruence. }
    rewrite (proj2 (entry_map_none m ssrc Hd)) by done. rewrite (bool_decide_eq_false_2 (is_Some None)) by by intros [? ?].
    cbn [orb]. rewrite entry_map_size by done.
    destruct (entry_scan_spec (fun e => negb (en_occupied e)) (length m) 0 m ltac:(lia)) as (f & -> & Hf). rewrite bind_Ok.
    destruct f as [i|].
    + destruct Hf as (e & He & Hfree%negb_true_iff).
      destruct (entry_map_insert m i e ssrc mid Hd He) as [Hd' Hm]; [congruence | |].
      { intros j b Hb Hbs. by destruct (Hnone j b). }
      do 2 eexists. split; [done|]. rewrite Hm.
      assert (length (filter (fun e => en_occupied e = true) m) < length m)%nat as Hlt.
      { apply length_filter_lt with (x := e); [by eapply list_elem_of_lookup_2|congruence]. }
      rewrite (proj2 (Nat.ltb_lt _ _)) by done. split_and!; [done..|]. apply length_insert.
    + do 2 eexists. split; [done|]. assert (filter (fun e => en_occupied e = true) m = m) as ->.
      { apply filter_occupied_all. intros i e Hi. specialize (Hf i e Hi ltac:(lia)). by apply negb_false_iff in Hf. }
      rewrite (proj2 (Nat.ltb_ge _ _)) by done. done.
Qed.

Lemma lookup_refines m ssrc :
  distinct_ssrcs m -> ssrc_map_lookup m (length m) ssrc = Ok (map_lookup (entry_map m) ssrc).
Proof.
  intros Hd. unfold ssrc_map_lookup, map_lookup.
  destruct (entry_scan_spec (holds ssrc) (length m) 0 m ltac:(lia)) as (r & -> & Hr). rewrite bind_Ok. destruct r as [i|].
  - destruct Hr as (e & He & [Ho Hs]%holds_true). unfold get_entry. rewrite He, bind_Ok.
    assert (entry_map m !! ssrc = Some (en_mid e)) as -> by (apply entry_map_lookup; [done|]; by exists i, e). done.
  - rewrite (proj2 (entry_map_none m ssrc Hd)); [done|]. intros i e [Hi Ho] Hs. specialize (Hr i e Hi ltac:(lia)).
    assert (holds ssrc e = true) by by apply holds_true. congruence.
Qed.

(** A history of registrations, on the table and on the specification. *)
Fixpoint table_run (m : list ssrc_entry) (ops : list (Z * Z)) : res (list ssrc_entry * list Z) :=
  match ops with
  | [] => Ok (m, [])
  | (ssrc, mid) :: ops =>
      '(m, rc) ← ssrc_map_register m (length m) ssrc mid; '(m, rcs) ← table_run m ops; Ok (m, rc :: rcs)
  end.
Fixpoint map_run (cap : nat) (g : gmap Z Z) (ops : list (Z * Z)) : gmap Z Z * list Z :=
  match ops with
  | [] => (g, [])
  | (ssrc, mid) :: ops =>
      let '(g, rc) := map_register cap g ssrc mid in let '(g, rcs) := map_run cap g ops in (g, rc :: rcs)
  end.
Definition empty_table (cap : nat) : list ssrc_entry := replicate cap (SsrcEntry 0 0 false).

(** C33: the SSRC table refines a finite map of bounded size.  Over every history of
    registrations from an empty table of [cap] slots, each call returns the
    code of the specification (success when the SSRC is known or there is
    room, a full-table error otherwise), and every later lookup returns the
    MID the specification's map has for the SSRC, or -1. *)
Theorem ssrc_map_refines (cap : nat) (ops : list (Z * Z)) :
  exists m, table_run (empty_table cap) ops = Ok (m, (map_run cap ∅ ops).2) /\ length m = cap /\
    forall ssrc, ssrc_map_lookup m cap ssrc = Ok (map_lookup (map_run cap ∅ ops).1 ssrc).
Proof.
  assert (forall m g, distinct_ssrcs m -> length m = cap -> entry_map m = g ->
    exists m', table_run m ops = Ok (m', (map_run cap g ops).2) /\ length m' = cap /\
      distinct_ssrcs m' /\ entry_map m' = (map_run cap g ops).1) as Hsim.
  { induction ops as [|[ssrc mid] ops IH]; intros m g Hd Hl Hg; cbn [table_run map_run]; [by exists m|].
    destruct (register_refines m ssrc mid Hd) as (m1 & rc & -> & Hspec & Hd1 & Hl1). rewrite bind_Ok.
    rewrite Hg, Hl in Hspec. rewrite Hspec.
    destruct (IH m1 (entry_map m1) Hd1 ltac:(lia) eq_refl) as (m' & -> & Hl' & Hd' & Hg'). exists m'. rewrite bind_Ok.
    destruct (map_run cap (entry_map m1) ops) as [g' rcs]. done. }
  destruct (Hsim (empty_table cap) ∅) as (m & Hr & Hl & Hd & Hg).
  - intros i j a b [Hi Ho]. unfold empty_table in Hi. apply lookup_replicate_1 in Hi as [-> _]. done.
  - apply length_replicate.
  - unfold empty_table. clear. induction cap as [|n IH]; [done|]. exact IH.
  - exists m. split_and!; [done..|]. intros ssrc. rewrite <- Hg, <- Hl. by apply lookup_refines.
Qed.

(** * The window reports a second of the send log *)

Inductive window_op : Type := WRoll | WFrame | WBytes (n : Z).
(** A log of calls at real times, latest first. *)
Definition send_log : Type := list (Z * window_op).
Definition window_step (w : nano_rate_window) (e : Z * window_op) : nano_rate_window :=
  match e.2 with
  | WRoll => rate_window_roll w (clock e.1)
  | WFrame => rate_window_on_frame w (clock e.1)
  | WBytes n => rate_window_on_bytes w (clock e.1) n
  end.
Definition window_run (log : send_log) : nano_rate_window := foldr (fun e w => window_step w e) rate_window_zero log.
(** Time does not go back, nor jump by half the range of the clock. *)
Fixpoint log_ok (log : send_log) : Prop :=
  match log with
  | (t, _) :: ((t', _) :: _) as rest => t' <= t <= t' + 2 ^ 31 /\ log_ok rest
  | _ => True
  end.
Definition op_frames (op : window_op) : Z := match op with WFrame => 1 | _ => 0 end.
Definition op_bytes (op : window_op) : Z := match op with WBytes n => n | _ => 0 end.
(** What the log has from time [a] for one second. *)
Definition second_sum (f : window_op -> Z) (log : send_log) (a : Z) : Z :=
  foldr (fun e s => if (a <=? e.1) && (e.1 <? a + 1000) then f e.2 + s else s) 0 log.
Definition quiet (log : send_log) (a b : Z) : Prop := Forall (fun e : Z * window_op => ~ (a <= e.1 < b)) log.

Lemma second_sum_cons f t op log a :
  second_sum f ((t, op) :: log) a = (if (a <=? t) && (t <? a + 1000) then f op else 0) + second_sum f log a.
Proof. cbn. fold (second_sum f log a). destruct (_ && _); lia. Qed.
Lemma second_sum_after f log a : Forall (fun e : Z * window_op => e.1 < a) log -> second_sum f log a = 0.
Proof.
  induction 1 as [|[t op] log Ht _ IH]; [done|]. rewrite second_sum_cons, IH. cbn in Ht.
  by rewrite (proj2 (Z.leb_gt _ _)).
Qed.

(** The current bucket, and the bucket the reported figures are of. *)
Record window_at (log : send_log) (w : nano_rate_window) (s : Z) : Prop := {
  wa_start : bucket_start_ms w = clock s;
  wa_valid : bucket_valid w = true;
  wa_frames : cur_frames w = u32 (second_sum op_frames log s);
  wa_bytes : cur_bytes w = u32 (second_sum op_bytes log s)
}.
Definition window_prev (log : send_log) (w : nano_rate_window) (s : Z) : Prop :=
  (Forall (fun e : Z * window_op => s <= e.1) log /\ prev_bps w = 0 /\ prev_fps_q8 w = 0) \/
  (exists s', s' + 1000 <= s /\ quiet log (s' + 1000) s /\
    prev_bps w = u32 (second_sum op_bytes log s' * 8) /\
    prev_fps_q8 w = Z.min 65535 (u32 (second_sum op_frames log s' * 256))).

Lemma log_ok_cons t op t' op' log :
  log_ok ((t, op) :: (t', op') :: log) ->
  t' <= t <= t' + 2 ^ 31 /\ Forall (fun e : Z * window_op => e.1 <= t') ((t', op') :: log) /\ log_ok ((t', op') :: log).
Proof.
  intros [Ht Hl]. split; [done|]. split; [|done]. clear Ht. revert t' op' Hl.
  induction log as [|[t2 op2] log IH]; intros t' op' Hl; [by repeat constructor|].
  constructor; [cbn; lia|]. destruct Hl as [Ht Hl]. refine (List.Forall_impl _ _ (IH t2 op2 Hl)). cbn. lia.
Qed.

(** One call after a log whose bucket started at [s]. *)
Lemma window_step_spec log w s t tl op :
  window_at log w s -> window_prev log w s -> Forall (fun e : Z * window_op => e.1 <= tl) log ->
  s <= tl < s + 1000 -> tl <= t <= tl + 2 ^ 31 ->
  exists s2, s2 <= t < s2 + 1000 /\
    window_at ((t, op) :: log) (window_step w (t, op)) s2 /\ window_prev ((t, op) :: log) (window_step w (t, op)) s2.
Proof.
  intros [Hs Hv Hf Hb] Hp Hlog Htl Ht.
  assert (nano_time_elapsed (clock t) (bucket_start_ms w) = t - s) as Hel.
  { rewrite Hs. unfold nano_time_elapsed, clock. mach. }
  destruct (Z.leb_spec 1000 (t - s)) as [Hroll|Hroll].
  - exists t. split; [lia|].
    assert (Forall (fun e : Z * window_op => e.1 < t) log) as Hbefore by (refine (List.Forall_impl _ _ Hlog); cbn; lia).
    set (w' := rate_window_roll w (clock t)).
    assert (w' = RateWindow (clock t) 0 0 (u32 (second_sum op_bytes log s * 8))
                   (Z.min 65535 (u32 (second_sum op_frames log s * 256))) true) as Hw.
    { unfold w', rate_window_roll. rewrite Hv, Hel, (proj2 (Z.leb_le _ _)) by done. cbn [negb]. cbv zeta. rewrite Hf, Hb.
      replace (u32 (u32 (second_sum op_frames log s) * 256)) with (u32 (second_sum op_frames log s * 256)) by mach.
      replace (u32 (u32 (second_sum op_bytes log s) * 8)) with (u32 (second_sum op_bytes log s * 8)) by mach.
      f_equal. pose proof (u32_range (second_sum op_frames log s * 256)).
      destruct (Z.ltb_spec 0xFFFF (u32 (second_sum op_frames log s * 256))); [lia|]. rewrite u16_id; [lia|mach]. }
    assert (forall f, second_sum f ((t, op) :: log) t = f op) as Hnow.
    { intros f. rewrite second_sum_cons, second_sum_after by done.
      rewrite (proj2 (Z.leb_le _ _)), (proj2 (Z.ltb_lt _ _)) by lia. cbn. lia. }
    assert (forall f, second_sum f ((t, op) :: log) s = second_sum f log s) as Hprev.
    { intros f. rewrite second_sum_cons, (proj2 (Z.ltb_ge _ _)) by lia. by rewrite andb_false_r. }
    split.
    + split; rewrite ?Hnow; destruct op as [| |n]; unfold window_step, rate_window_on_frame, rate_window_on_bytes;
        cbn [fst snd]; fold w'; rewrite Hw; done.
    + right. exists s. split; [lia|]. split.
      * constructor; [cbn; lia|]. refine (List.Forall_impl _ _ Hlog). cbn. lia.
      * rewrite !Hprev. destruct op as [| |n]; unfold window_step, rate_window_on_frame, rate_window_on_bytes; cbn [fst snd];
          fold w'; rewrite Hw; done.
  - exists s. split; [lia|].
    assert (rate_window_roll w (clock t) = w) as Hw.
    { unfold rate_window_roll. rewrite Hv, Hel, (proj2 (Z.leb_gt _ _)) by done. done. }
    assert (forall f, second_sum f ((t, op) :: log) s = f op + second_sum f log s) as Hnow.
    { intros f. rewrite second_sum_cons, (proj2 (Z.leb_le _ _)), (proj2 (Z.ltb_lt _ _)) by lia. done. }
    split.
    + split; rewrite ?Hnow; destruct op as [| |n]; unfold window_step, rate_window_on_frame, rate_window_on_bytes;
        cbn [fst snd op_frames op_bytes]; rewrite Hw; try done; cbn; rewrite ?Hf, ?Hb; mach.
    + assert (prev_bps (window_step w (t, op)) = prev_bps w /\ prev_fps_q8 (window_step w (t, op)) = prev_fps_q8 w) as [Hpb Hpf].
      { by destruct op as [| |n]; unfold window_step, rate_window_on_frame, rate_window_on_bytes; cbn [fst snd]; rewrite Hw. }
      destruct Hp as [(Hall & H1 & H2)|(s' & Hs' & Hq & H1 & H2)]; [left|right].
      * rewrite Hpb, Hpf. split_and!; [|done..]. constructor; [cbn; lia|done].
      * exists s'. assert (forall f, second_sum f ((t, op) :: log) s' = second_sum f log s') as Hsame.
        { intros f. rewrite second_sum_cons, (proj2 (Z.ltb_ge _ _)) by lia. by rewrite andb_false_r. }
        rewrite !Hsame, Hpb, Hpf. split_and!; [done| |done..]. constructor; [cbn; lia|done].
Qed.

(** The send-rate window reports one real second of the send log.  After any
    log of frames and bytes on a wrapping clock, the reported bit rate and frame
    rate are those of the frames and bytes logged in the second from some time
    [s'] on, nothing having been logged between the end of that second and the
    start [s] of the current one, or zero when no second has been completed;
    the counters are those of the current second.  (Counts are modulo 2^32,
    the frame rate saturates.) *)
Theorem rate_window_reports_second (log : send_log) :
  log_ok log -> log <> [] ->
  exists s, window_at log (window_run log) s /\ window_prev log (window_run log) s.
Proof.
  intros Hok Hne.
  assert (exists t op rest, log = (t, op) :: rest /\
    exists s, s <= t < s + 1000 /\ window_at log (window_run log) s /\ window_prev log (window_run log) s) as (t & op & rest & _ & s & _ & H);
    [|by exists s].
  induction log as [|[t op] log IH]; [done|]. exists t, op, log. split; [done|]. destruct log as [|[t' op'] log].
  - exists t. split; [lia|]. cbn. split.
    + destruct op as [| |n]; unfold window_step, rate_window_on_frame, rate_window_on_bytes; cbn; split; cbn;
        unfold second_sum; cbn; rewrite ?(proj2 (Z.leb_le t t)), ?(proj2 (Z.ltb_lt t (t + 1000))) by lia; cbn;
        rewrite ?Z.add_0_r; done.
    + left. split; [by repeat constructor|]. by destruct op.
  - destruct (log_ok_cons _ _ _ _ _ Hok) as (Ht & Hall & Hok').
    destruct (IH Hok' ltac:(done)) as (t2 & op2 & rest & [= <- <- <-] & s & Hs & Hat & Hpr).
    apply (window_step_spec _ _ s t t' op Hat Hpr Hall Hs Ht).
Qed.
Lemma rate_window_reports_second_witness :
  let log := [(1500, WRoll); (200, WBytes 1000); (100, WFrame)] in
  exists s, window_at log (window_run log) s /\ prev_bps (window_run log) = 8000.
Proof.
  intros log. destruct (rate_window_reports_second log) as (s & Hs & _); [cbn; lia | done | exists s; split; [exact Hs | reflexivity]].
Defined.
