(* ===== verification/Stun.v ===== *)
(** STUN messages, [src/nano_stun.c] (RFC 8489): the parser with its attribute
    walk, the binding request and response encoders, MESSAGE-INTEGRITY and
    FINGERPRINT; that the parser stays inside its input, that the encoders'
    messages parse back and verify, and that what the parser reports of an
    integrity-protected message lies under its MAC. *)

From Stdlib Require Import ZArith Lia.
From stdpp Require Import base list numbers.
From S2P Require Import Prelude Wire Crc.

Local Open Scope Z_scope.

Definition STUN_BINDING_REQUEST : Z := 0x0001.
Definition STUN_BINDING_RESPONSE : Z := 0x0101.
Definition STUN_ATTR_USERNAME : Z := 0x0006.
Definition STUN_ATTR_MESSAGE_INTEGRITY : Z := 0x0008.
Definition STUN_ATTR_ERROR_CODE : Z := 0x0009.
Definition STUN_ATTR_CHANNEL_NUMBER : Z := 0x000C.
Definition STUN_ATTR_LIFETIME : Z := 0x000D.
Definition STUN_ATTR_XOR_PEER_ADDRESS : Z := 0x0012.
Definition STUN_ATTR_DATA : Z := 0x0013.
Definition STUN_ATTR_REALM : Z := 0x0014.
Definition STUN_ATTR_NONCE : Z := 0x0015.
Definition STUN_ATTR_XOR_RELAYED_ADDRESS : Z := 0x0016.
Definition STUN_ATTR_XOR_MAPPED_ADDRESS : Z := 0x0020.
Definition STUN_ATTR_PRIORITY : Z := 0x0024.
Definition STUN_ATTR_USE_CANDIDATE : Z := 0x0025.
Definition STUN_ATTR_ICE_CONTROLLED : Z := 0x8029.
Definition STUN_ATTR_ICE_CONTROLLING : Z := 0x802A.
Definition STUN_ATTR_FINGERPRINT : Z := 0x8028.
Definition STUN_HEADER_SIZE : nat := 20.
Definition STUN_MAGIC_COOKIE : Z := 0x2112A442.
Definition STUN_FINGERPRINT_XOR : Z := 0x5354554E.
Definition STUN_TXID_SIZE : nat := 12.
Definition STUN_FAMILY_IPV4 : Z := 0x01.
Definition STUN_FAMILY_IPV6 : Z := 0x02.
Definition STUN_ADDR_SIZE : nat := 16.
(** The size of the copies the verification functions work on. *)
Definition STUN_COPY_SIZE : nat := 548.

(** An address array with its port and family. *)
Record stun_addr : Type := StunAddr { sa_addr : list Z; sa_port : Z; sa_family : Z }.
(** [stun_msg_t].  A [has_] flag and its value are an option, a view into the
    packet is its octets, and the three addresses are records. *)
Record stun_msg : Type := StunMsg {
  m_type : Z; m_length : Z; m_txid : list Z;
  m_username : option (list Z); m_priority : Z; m_use_candidate : bool;
  m_fingerprint : option Z; m_integrity : option Z; m_mapped : stun_addr;
  m_controlling : option Z; m_controlled : option Z; m_error_code : Z;
  m_lifetime : Z; m_relayed : stun_addr; m_data : option (list Z); m_realm : option (list Z); m_nonce : option (list Z);
  m_peer : stun_addr; m_channel : Z
}.
Definition no_addr : stun_addr := StunAddr (replicate STUN_ADDR_SIZE 0) 0 0.
Definition stun_msg_init (type length : Z) (txid : list Z) : stun_msg :=
  StunMsg type length txid None 0 false None None no_addr None None 0 0 no_addr None None None no_addr 0.
Definition set_username (m : stun_msg) x : stun_msg :=
  StunMsg (m_type m) (m_length m) (m_txid m) x (m_priority m) (m_use_candidate m) (m_fingerprint m)
    (m_integrity m) (m_mapped m) (m_controlling m) (m_controlled m) (m_error_code m) (m_lifetime m) (m_relayed
    m) (m_data m) (m_realm m) (m_nonce m) (m_peer m) (m_channel m).
Definition set_priority (m : stun_msg) x : stun_msg :=
  StunMsg (m_type m) (m_length m) (m_txid m) (m_username m) x (m_use_candidate m) (m_fingerprint m)
    (m_integrity m) (m_mapped m) (m_controlling m) (m_controlled m) (m_error_code m) (m_lifetime m) (m_relayed
    m) (m_data m) (m_realm m) (m_nonce m) (m_peer m) (m_channel m).
Definition set_use_candidate (m : stun_msg) x : stun_msg :=
  StunMsg (m_type m) (m_length m) (m_txid m) (m_username m) (m_priority m) x (m_fingerprint m) (m_integrity m)
    (m_mapped m) (m_controlling m) (m_controlled m) (m_error_code m) (m_lifetime m) (m_relayed m) (m_data m)
    (m_realm m) (m_nonce m) (m_peer m) (m_channel m).
Definition set_fingerprint (m : stun_msg) x : stun_msg :=
  StunMsg (m_type m) (m_length m) (m_txid m) (m_username m) (m_priority m) (m_use_candidate m) x (m_integrity
    m) (m_mapped m) (m_controlling m) (m_controlled m) (m_error_code m) (m_lifetime m) (m_relayed m) (m_data
    m) (m_realm m) (m_nonce m) (m_peer m) (m_channel m).
Definition set_integrity (m : stun_msg) x : stun_msg :=
  StunMsg (m_type m) (m_length m) (m_txid m) (m_username m) (m_priority m) (m_use_candidate m) (m_fingerprint
    m) x (m_mapped m) (m_controlling m) (m_controlled m) (m_error_code m) (m_lifetime m) (m_relayed m) (m_data
    m) (m_realm m) (m_nonce m) (m_peer m) (m_channel m).
Definition set_mapped (m : stun_msg) x : stun_msg :=
  StunMsg (m_type m) (m_length m) (m_txid m) (m_username m) (m_priority m) (m_use_candidate m) (m_fingerprint
    m) (m_integrity m) x (m_controlling m) (m_controlled m) (m_error_code m) (m_lifetime m) (m_relayed m)
    (m_data m) (m_realm m) (m_nonce m) (m_peer m) (m_channel m).
Definition set_controlling (m : stun_msg) x : stun_msg :=
  StunMsg (m_type m) (m_length m) (m_txid m) (m_username m) (m_priority m) (m_use_candidate m) (m_fingerprint
    m) (m_integrity m) (m_mapped m) x (m_controlled m) (m_error_code m) (m_lifetime m) (m_relayed m) (m_data
    m) (m_realm m) (m_nonce m) (m_peer m) (m_channel m).
Definition set_controlled (m : stun_msg) x : stun_msg :=
  StunMsg (m_type m) (m_length m) (m_txid m) (m_username m) (m_priority m) (m_use_candidate m) (m_fingerprint
    m) (m_integrity m) (m_mapped m) (m_controlling m) x (m_error_code m) (m_lifetime m) (m_relayed m) (m_data
    m) (m_realm m) (m_nonce m) (m_peer m) (m_channel m).
Definition set_error_code (m : stun_msg) x : stun_msg :=
  StunMsg (m_type m) (m_length m) (m_txid m) (m_username m) (m_priority m) (m_use_candidate m) (m_fingerprint
    m) (m_integrity m) (m_mapped m) (m_controlling m) (m_controlled m) x (m_lifetime m) (m_relayed m) (m_data
    m) (m_realm m) (m_nonce m) (m_peer m) (m_channel m).
Definition set_lifetime (m : stun_msg) x : stun_msg :=
  StunMsg (m_type m) (m_length m) (m_txid m) (m_username m) (m_priority m) (m_use_candidate m) (m_fingerprint
    m) (m_integrity m) (m_mapped m) (m_controlling m) (m_controlled m) (m_error_code m) x (m_relayed m)
    (m_data m) (m_realm m) (m_nonce m) (m_peer m) (m_channel m).
Definition set_relayed (m : stun_msg) x : stun_msg :=
  StunMsg (m_type m) (m_length m) (m_txid m) (m_username m) (m_priority m) (m_use_candidate m) (m_fingerprint
    m) (m_integrity m) (m_mapped m) (m_controlling m) (m_controlled m) (m_error_code m) (m_lifetime m) x
    (m_data m) (m_realm m) (m_nonce m) (m_peer m) (m_channel m).
Definition set_data (m : stun_msg) x : stun_msg :=
  StunMsg (m_type m) (m_length m) (m_txid m) (m_username m) (m_priority m) (m_use_candidate m) (m_fingerprint
    m) (m_integrity m) (m_mapped m) (m_controlling m) (m_controlled m) (m_error_code m) (m_lifetime m)
    (m_relayed m) x (m_realm m) (m_nonce m) (m_peer m) (m_channel m).
Definition set_realm (m : stun_msg) x : stun_msg :=
  StunMsg (m_type m) (m_length m) (m_txid m) (m_username m) (m_priority m) (m_use_candidate m) (m_fingerprint
    m) (m_integrity m) (m_mapped m) (m_controlling m) (m_controlled m) (m_error_code m) (m_lifetime m)
    (m_relayed m) (m_data m) x (m_nonce m) (m_peer m) (m_channel m).
Definition set_nonce (m : stun_msg) x : stun_msg :=
  StunMsg (m_type m) (m_length m) (m_txid m) (m_username m) (m_priority m) (m_use_candidate m) (m_fingerprint
    m) (m_integrity m) (m_mapped m) (m_controlling m) (m_controlled m) (m_error_code m) (m_lifetime m)
    (m_relayed m) (m_data m) (m_realm m) x (m_peer m) (m_channel m).
Definition set_peer (m : stun_msg) x : stun_msg :=
  StunMsg (m_type m) (m_length m) (m_txid m) (m_username m) (m_priority m) (m_use_candidate m) (m_fingerprint
    m) (m_integrity m) (m_mapped m) (m_controlling m) (m_controlled m) (m_error_code m) (m_lifetime m)
    (m_relayed m) (m_data m) (m_realm m) (m_nonce m) x (m_channel m).
Definition set_channel (m : stun_msg) x : stun_msg :=
  StunMsg (m_type m) (m_length m) (m_txid m) (m_username m) (m_priority m) (m_use_candidate m) (m_fingerprint
    m) (m_integrity m) (m_mapped m) (m_controlling m) (m_controlled m) (m_error_code m) (m_lifetime m)
    (m_relayed m) (m_data m) (m_realm m) (m_nonce m) (m_peer m) x.

(** * Accessors *)

Definition read_u64 (p : list Z) (i : nat) : res Z :=
  hi ← nanortc_read_u32be p i; lo ← nanortc_read_u32be p (i + 4);
  Ok (Z.lor (u64 (Z.shiftl hi 32)) lo).
(** The octets [write_u64] stores. *)
Definition be64 (v : Z) : list Z := be32 (u32 (Z.shiftr v 32)) ++ be32 (u32 v).
Definition attr_padded (len : Z) : nat := Z.to_nat (Z.land (len + 3) (Z.lnot 3)).

(** The XOR mask of an IPv6 address: the cookie and the transaction id. *)
Definition xor_mask (txid : list Z) : list Z := be32 STUN_MAGIC_COOKIE ++ txid.
Fixpoint xor_octets (n i : nat) (a mask : list Z) : res (list Z) :=
  match n with
  | O => Ok []
  | S n => x ← rd8 a i; y ← rd8 mask i; rest ← xor_octets n (S i) a mask; Ok (Z.lxor x y :: rest)
  end.

(** [val] is the attribute's value; every access is checked against it. *)
Definition stun_decode_xor_addr (val txid : list Z) (out : stun_addr) : res stun_addr :=
  if (length val <? 8)%nat then Err (-1) else
  family ← rd8 val 1;
  if family =? STUN_FAMILY_IPV4 then
    p ← nanortc_read_u16be val 2;
    a ← nanortc_read_u32be val 4;
    addr ← wr (sa_addr out) 0 (be32 (Z.lxor a STUN_MAGIC_COOKIE));
    Ok (StunAddr addr (Z.lxor p (u16 (Z.shiftr STUN_MAGIC_COOKIE 16))) family)
  else if family =? STUN_FAMILY_IPV6 then
    if (length val <? 20)%nat then Err (-1) else
    p ← nanortc_read_u16be val 2;
    a ← rdn val 4 16;
    octets ← xor_octets 16 0 a (xor_mask txid);
    addr ← wr (sa_addr out) 0 octets;
    Ok (StunAddr addr (Z.lxor p (u16 (Z.shiftr STUN_MAGIC_COOKIE 16))) family)
  else Err (-1).

(** * Parser *)

(** A 32-bit attribute. *)
Definition attr_u32 (val : list Z) : res Z :=
  if negb (length val =? 4)%nat then Err NANORTC_ERR_PARSE else nanortc_read_u32be val 0.
Definition attr_u64 (val : list Z) : res Z :=
  if negb (length val =? 8)%nat then Err NANORTC_ERR_PARSE else read_u64 val 0.
Definition attr_addr (val txid : list Z) (out : stun_addr) : res stun_addr :=
  match stun_decode_xor_addr val txid out with Err _ => Err NANORTC_ERR_PARSE | r => r end.

(** The switch on the attribute type: the message, and whether the attribute was
    MESSAGE-INTEGRITY and whether it was FINGERPRINT. *)
Definition stun_attr (attr_type : Z) (val : list Z) (pos : nat) (m : stun_msg) : res (stun_msg * bool * bool) :=
  if attr_type =? STUN_ATTR_USERNAME then Ok (set_username m (Some val), false, false)
  else if attr_type =? STUN_ATTR_PRIORITY then v ← attr_u32 val; Ok (set_priority m v, false, false)
  else if attr_type =? STUN_ATTR_USE_CANDIDATE then Ok (set_use_candidate m true, false, false)
  else if attr_type =? STUN_ATTR_XOR_MAPPED_ADDRESS then
    a ← attr_addr val (m_txid m) (m_mapped m); Ok (set_mapped m a, false, false)
  else if attr_type =? STUN_ATTR_XOR_RELAYED_ADDRESS then
    a ← attr_addr val (m_txid m) (m_relayed m); Ok (set_relayed m a, false, false)
  else if attr_type =? STUN_ATTR_XOR_PEER_ADDRESS then
    a ← attr_addr val (m_txid m) (m_peer m); Ok (set_peer m a, false, false)
  else if attr_type =? STUN_ATTR_LIFETIME then v ← attr_u32 val; Ok (set_lifetime m v, false, false)
  else if attr_type =? STUN_ATTR_DATA then Ok (set_data m (Some val), false, false)
  else if attr_type =? STUN_ATTR_REALM then Ok (set_realm m (Some val), false, false)
  else if attr_type =? STUN_ATTR_NONCE then Ok (set_nonce m (Some val), false, false)
  else if attr_type =? STUN_ATTR_MESSAGE_INTEGRITY then
    if negb (length val =? 20)%nat then Err NANORTC_ERR_PARSE
    else Ok (set_integrity m (Some (u16 (Z.of_nat pos))), true, false)
  else if attr_type =? STUN_ATTR_FINGERPRINT then v ← attr_u32 val; Ok (set_fingerprint m (Some v), false, true)
  else if attr_type =? STUN_ATTR_ERROR_CODE then
    if (length val <? 4)%nat then Err NANORTC_ERR_PARSE else
    c ← rd8 val 2; n ← rd8 val 3; Ok (set_error_code m (u16 (Z.land c 0x07 * 100 + n)), false, false)
  else if attr_type =? STUN_ATTR_ICE_CONTROLLING then v ← attr_u64 val; Ok (set_controlling m (Some v), false, false)
  else if attr_type =? STUN_ATTR_ICE_CONTROLLED then v ← attr_u64 val; Ok (set_controlled m (Some v), false, false)
  else if attr_type =? STUN_ATTR_CHANNEL_NUMBER then
    if negb (length val =? 4)%nat then Err NANORTC_ERR_PARSE else
    c ← nanortc_read_u16be val 0; Ok (set_channel m c, false, false)
  else Ok (m, false, false).

Fixpoint stun_walk (fuel : nat) (data : list Z) (pos : nat) (m : stun_msg) (after_integrity after_fingerprint : bool)
  : res stun_msg :=
  let len := length data in
  if (pos + 4 <=? len)%nat then
    match fuel with
    | O => Fault
    | S fuel =>
        attr_type ← nanortc_read_u16be data pos;
        attr_len ← nanortc_read_u16be data (pos + 2);
        let padded := attr_padded attr_len in
        if (len <? pos + 4 + padded)%nat then Err NANORTC_ERR_PARSE else
        if after_fingerprint then Err NANORTC_ERR_PARSE else
        if after_integrity && negb (attr_type =? STUN_ATTR_FINGERPRINT)
        then stun_walk fuel data (pos + (4 + padded)) m after_integrity after_fingerprint
        else
          val ← rdn data (pos + 4) (Z.to_nat attr_len);
          '(m, mi, fp) ← stun_attr attr_type val pos m;
          stun_walk fuel data (pos + (4 + padded)) m (after_integrity || mi) (after_fingerprint || fp)
    end
  else Ok m.

Definition stun_parse (data : list Z) : res stun_msg :=
  let len := length data in
  if (len <? STUN_HEADER_SIZE)%nat then Err NANORTC_ERR_PARSE else
  d0 ← rd8 data 0;
  if negb (Z.land d0 0xC0 =? 0) then Err NANORTC_ERR_PARSE else
  type ← nanortc_read_u16be data 0;
  mlen ← nanortc_read_u16be data 2;
  cookie ← nanortc_read_u32be data 4;
  if negb (cookie =? STUN_MAGIC_COOKIE) then Err NANORTC_ERR_PARSE else
  if negb (Z.to_nat mlen + STUN_HEADER_SIZE =? len)%nat then Err NANORTC_ERR_PARSE else
  if negb (Z.land mlen 3 =? 0) then Err NANORTC_ERR_PARSE else
  txid ← rdn data 8 STUN_TXID_SIZE;
  stun_walk len data STUN_HEADER_SIZE (stun_msg_init type mlen txid) false false.

(** * Verification *)

Definition stun_verify_fingerprint (data : list Z) : res Z :=
  let len := length data in
  if (len <? STUN_HEADER_SIZE + 8)%nat then Ok NANORTC_ERR_INVALID_PARAM else
  let fp_offset := (len - 8)%nat in
  fp_type ← nanortc_read_u16be data fp_offset;
  fp_len ← nanortc_read_u16be data (fp_offset + 2);
  if negb (fp_type =? STUN_ATTR_FINGERPRINT) || negb (fp_len =? 4) then Ok NANORTC_ERR_PROTOCOL else
  fp_value ← nanortc_read_u32be data (fp_offset + 4);
  if (STUN_COPY_SIZE <? fp_offset)%nat then Ok NANORTC_ERR_PROTOCOL else
  head ← rdn data 0 fp_offset;
  msg_copy ← wr (replicate STUN_COPY_SIZE 0) 0 head;
  msg_copy ← nanortc_write_u16be msg_copy 2 (u16 (Z.of_nat (len - STUN_HEADER_SIZE)));
  covered ← rdn msg_copy 0 fp_offset;
  let expected := Z.lxor (nano_crc32 covered) STUN_FINGERPRINT_XOR in
  if negb (expected =? fp_value) then Ok NANORTC_ERR_PROTOCOL else Ok NANORTC_OK.

Section Hmac.
(** The provider's [hmac_sha1] (key, input; the twenty octet MAC). *)
Context (hmac_sha1 : list Z -> list Z -> list Z).

Definition stun_verify_integrity (data : list Z) (msg : stun_msg) (key : list Z) : res Z :=
  match m_integrity msg with
  | None => Ok NANORTC_ERR_PROTOCOL
  | Some off =>
      let integrity_offset := Z.to_nat off in
      if (length data <? integrity_offset + 24)%nat then Ok NANORTC_ERR_PARSE else
      let adjusted_len := u16 (off - Z.of_nat STUN_HEADER_SIZE + 24) in
      if (STUN_COPY_SIZE <? integrity_offset)%nat then Ok NANORTC_ERR_PROTOCOL else
      head ← rdn data 0 integrity_offset;
      hmac_input ← wr (replicate STUN_COPY_SIZE 0) 0 head;
      hmac_input ← nanortc_write_u16be hmac_input 2 adjusted_len;
      covered ← rdn hmac_input 0 integrity_offset;
      let computed := hmac_sha1 key covered in
      stored ← rdn data (integrity_offset + 4) 20;
      if negb (bool_decide (computed = stored)) then Ok NANORTC_ERR_PROTOCOL else Ok NANORTC_OK
  end.

(** * Encoders *)

(** [write_attr_hdr]; the value starts four octets further. *)
Definition write_attr_hdr (buf : list Z) (pos : nat) (type len : Z) : res (list Z) :=
  buf ← nanortc_write_u16be buf pos type; nanortc_write_u16be buf (pos + 2) len.
Definition write_stun_header (buf : list Z) (type len : Z) (txid : list Z) : res (list Z) :=
  buf ← nanortc_write_u16be buf 0 type;
  buf ← nanortc_write_u16be buf 2 len;
  buf ← nanortc_write_u32be buf 4 STUN_MAGIC_COOKIE;
  wr buf 8 txid.

(** The buffer and the message length. *)
Definition append_integrity_fingerprint (buf : list Z) (pos : nat) (key : list Z) : res (list Z * nat) :=
  if (length buf <? pos + 24 + 8)%nat then Err NANORTC_ERR_BUFFER_TOO_SMALL else
  buf ← nanortc_write_u16be buf 2 (u16 (Z.of_nat (pos - STUN_HEADER_SIZE + 24)));
  buf ← write_attr_hdr buf pos STUN_ATTR_MESSAGE_INTEGRITY 20;
  covered ← rdn buf 0 pos;
  buf ← wr buf (pos + 4) (hmac_sha1 key covered);
  let pos := (pos + 24)%nat in
  buf ← nanortc_write_u16be buf 2 (u16 (Z.of_nat (pos - STUN_HEADER_SIZE + 8)));
  buf ← write_attr_hdr buf pos STUN_ATTR_FINGERPRINT 4;
  covered ← rdn buf 0 pos;
  buf ← nanortc_write_u32be buf (pos + 4) (Z.lxor (nano_crc32 covered) STUN_FINGERPRINT_XOR);
  Ok (buf, (pos + 8)%nat).

Definition stun_encode_binding_response (req_txid src_addr : list Z) (src_family src_port : Z) (key buf : list Z)
  : res (list Z * nat) :=
  if (length buf <? 76)%nat then Err NANORTC_ERR_BUFFER_TOO_SMALL else
  buf ← write_stun_header buf STUN_BINDING_RESPONSE 0 req_txid;
  let pos := STUN_HEADER_SIZE in
  let xport := Z.lxor src_port (u16 (Z.shiftr STUN_MAGIC_COOKIE 16)) in
  if src_family =? STUN_FAMILY_IPV4 then
    buf ← write_attr_hdr buf pos STUN_ATTR_XOR_MAPPED_ADDRESS 8;
    buf ← wr buf (pos + 4) [0];
    buf ← wr buf (pos + 5) [STUN_FAMILY_IPV4];
    buf ← nanortc_write_u16be buf (pos + 6) xport;
    addr ← nanortc_read_u32be src_addr 0;
    buf ← nanortc_write_u32be buf (pos + 8) (Z.lxor addr STUN_MAGIC_COOKIE);
    append_integrity_fingerprint buf (pos + (4 + 8)) key
  else if src_family =? STUN_FAMILY_IPV6 then
    buf ← write_attr_hdr buf pos STUN_ATTR_XOR_MAPPED_ADDRESS 20;
    buf ← wr buf (pos + 4) [0];
    buf ← wr buf (pos + 5) [STUN_FAMILY_IPV6];
    buf ← nanortc_write_u16be buf (pos + 6) xport;
    octets ← xor_octets 16 0 src_addr (xor_mask req_txid);
    buf ← wr buf (pos + 8) octets;
    append_integrity_fingerprint buf (pos + (4 + 20)) key
  else Err NANORTC_ERR_INVALID_PARAM.

Definition stun_encode_binding_request (username : list Z) (priority : Z) (use_candidate is_controlling : bool)
    (tie_breaker : Z) (transaction_id key buf : list Z) : res (list Z * nat) :=
  let username_len := length username in
  let ulen := u16 (Z.of_nat username_len) in
  let needed := (STUN_HEADER_SIZE + (4 + attr_padded ulen) + 8 + 12 + (if use_candidate then 4 else 0) + 24 + 8)%nat in
  if (length buf <? needed)%nat then Err NANORTC_ERR_BUFFER_TOO_SMALL else
  buf ← write_stun_header buf STUN_BINDING_REQUEST 0 transaction_id;
  let pos := STUN_HEADER_SIZE in
  buf ← write_attr_hdr buf pos STUN_ATTR_USERNAME ulen;
  buf ← wr buf (pos + 4) username;
  buf ← (if (attr_padded ulen <? username_len)%nat then Fault (** the subtraction wraps *)
         else wr buf (pos + 4 + username_len) (replicate (attr_padded ulen - username_len) 0));
  let pos := (pos + (4 + attr_padded ulen))%nat in
  buf ← write_attr_hdr buf pos STUN_ATTR_PRIORITY 4;
  buf ← nanortc_write_u32be buf (pos + 4) priority;
  let pos := (pos + 8)%nat in
  buf ← write_attr_hdr buf pos (if is_controlling then STUN_ATTR_ICE_CONTROLLING else STUN_ATTR_ICE_CONTROLLED) 8;
  buf ← wr buf (pos + 4) (be64 tie_breaker);
  let pos := (pos + 12)%nat in
  buf ← (if use_candidate then write_attr_hdr buf pos STUN_ATTR_USE_CANDIDATE 0 else Ok buf);
  let pos := if use_candidate then (pos + 4)%nat else pos in
  append_integrity_fingerprint buf pos key.

Definition stun_encode_simple_binding_request (txid buf : list Z) : res (list Z * nat) :=
  if (length buf <? STUN_HEADER_SIZE)%nat then Err NANORTC_ERR_BUFFER_TOO_SMALL else
  buf ← write_stun_header buf STUN_BINDING_REQUEST 0 txid;
  Ok (buf, STUN_HEADER_SIZE).
End Hmac.

(** * Safety and termination of the parser *)

Record msg_ok (m : stun_msg) : Prop := {
  mo_txid : length (m_txid m) = STUN_TXID_SIZE;
  mo_mapped : length (sa_addr (m_mapped m)) = STUN_ADDR_SIZE;
  mo_relayed : length (sa_addr (m_relayed m)) = STUN_ADDR_SIZE;
  mo_peer : length (sa_addr (m_peer m)) = STUN_ADDR_SIZE;
  mo_texts : forall x, m_username m = Some x \/ m_data m = Some x \/ m_realm m = Some x \/ m_nonce m = Some x -> bytes x
}.
(** A text attribute keeps the others. *)
Ltac texts_ok H Hb := let x := fresh "x" in let Hx := fresh "Hx" in
  intros x Hx; cbn in Hx; destruct Hx as [Hx|[Hx|[Hx|Hx]]];
  first [injection Hx as <-; exact Hb | apply H; rewrite Hx; tauto].

Lemma attr_padded_eq len : is_u16 len -> attr_padded len = (4 * ((Z.to_nat len + 3) / 4))%nat.
Proof.
  intros Hl. unfold attr_padded. rewrite land_lnot3 by (unfold is_u16 in Hl; lia).
  rewrite Z2Nat.inj_mul by (unfold is_u16 in Hl; Z.div_mod_to_equations; lia).
  rewrite Z2Nat.inj_div by (unfold is_u16 in Hl; lia). rewrite Z2Nat.inj_add by (unfold is_u16 in Hl; lia).
  change (Z.to_nat 4) with 4%nat. change (Z.to_nat 3) with 3%nat. lia.
Qed.
Lemma attr_padded_ge len : is_u16 len -> (Z.to_nat len <= attr_padded len)%nat.
Proof. intros Hl. rewrite attr_padded_eq by done. pose proof (Nat.div_mod (Z.to_nat len + 3) 4). pose proof (Nat.mod_upper_bound (Z.to_nat len + 3) 4). lia. Qed.

Lemma xor_octets_Ok n i a mask :
  (i + n <= length a)%nat -> (i + n <= length mask)%nat ->
  exists r, xor_octets n i a mask = Ok r /\ length r = n /\
    r = zip_with Z.lxor (take n (drop i a)) (take n (drop i mask)).
Proof.
  revert i. induction n as [|n IH]; intros i Ha Hm; cbn [xor_octets]; [by exists []|].
  rewrite !rd8_Ok by lia. rewrite !bind_Ok. destruct (IH (S i)) as (r & -> & Hl & Hr); [lia..|]. rewrite bind_Ok.
  destruct (lookup_lt_is_Some_2 a i ltac:(lia)) as [x Hx], (lookup_lt_is_Some_2 mask i ltac:(lia)) as [y Hy].
  rewrite (nth_lookup_Some _ _ _ _ Hx), (nth_lookup_Some _ _ _ _ Hy).
  eexists. split; [done|]. cbn [length]. split; [by rewrite Hl|].
  rewrite (drop_S a x i), (drop_S mask y i) by done. cbn. by rewrite Hr.
Qed.

Lemma decode_xor_addr_wp val txid out :
  bytes val -> length txid = STUN_TXID_SIZE -> length (sa_addr out) = STUN_ADDR_SIZE ->
  wp (stun_decode_xor_addr val txid out) (fun a => length (sa_addr a) = STUN_ADDR_SIZE).
Proof.
  intros Hb Ht Ho. unfold STUN_TXID_SIZE, STUN_ADDR_SIZE in *. unfold stun_decode_xor_addr.
  apply wp_if; [done|]. intros Hl; bool_facts. wp_step. wp_step; [lia|]. apply wp_if; intros _.
  - apply wp_bind; wp_wire; [lia|]. apply wp_bind; wp_wire; [lia|]. apply wp_bind, wr_wp; [cbn; lia|]. intros b Hb'. cbn. lia.
  - apply wp_if; intros _; [|done]. apply wp_if; [done|]. intros Hl2; bool_facts.
    apply wp_bind; wp_wire; [lia|]. apply wp_bind, rdn_wp; [lia|]. intros a Ha.
    destruct (xor_octets_Ok 16 0 a (xor_mask txid)) as (r & -> & Hr & _);
      [lia | unfold xor_mask; rewrite length_app, Ht; cbn; lia|]. rewrite bind_Ok.
    apply wp_bind, wr_wp; [lia|]. intros b Hb'. cbn. lia.
Qed.
Lemma attr_addr_wp val txid out :
  bytes val -> length txid = STUN_TXID_SIZE -> length (sa_addr out) = STUN_ADDR_SIZE ->
  wp (attr_addr val txid out) (fun a => length (sa_addr a) = STUN_ADDR_SIZE).
Proof.
  intros Hb Ht Ho. unfold attr_addr. pose proof (decode_xor_addr_wp val txid out Hb Ht Ho) as H.
  by destruct (stun_decode_xor_addr val txid out).
Qed.
Lemma attr_u32_wp val (P : Z -> Prop) : (forall v, P v) -> wp (attr_u32 val) P.
Proof. intros HP. unfold attr_u32. apply wp_if; [done|]. intros Hl; bool_facts. apply read_u32be_wp; [lia|done]. Qed.
Lemma attr_u64_wp val (P : Z -> Prop) : (forall v, P v) -> wp (attr_u64 val) P.
Proof.
  intros HP. unfold attr_u64, read_u64. apply wp_if; [done|]. intros Hl; bool_facts.
  do 2 (apply wp_bind, read_u32be_wp; [lia|]; intros ?). apply HP.
Qed.
Lemma stun_attr_wp ty val pos m :
  bytes val -> msg_ok m -> wp (stun_attr ty val pos m) (fun '(m', _, _) => msg_ok m').
Proof.
  intros Hb Hm. destruct Hm as [Ht H1 H2 H3 H4]. unfold stun_attr.
  repeat (apply wp_if; intros ?);
    try first
    [ constructor; [done..|texts_ok H4 Hb] | exact I
    | apply wp_bind, attr_u32_wp; intros ?; constructor; [done..|texts_ok H4 Hb]
    | apply wp_bind, attr_u64_wp; intros ?; constructor; [done..|texts_ok H4 Hb]
    | apply wp_bind; eapply wp_mono; [by apply attr_addr_wp|]; intros a Ha; constructor; [done..|texts_ok H4 Hb] ]; bool_facts.
  - do 2 (apply wp_bind, rd8_wp; [lia|]; intros ?). constructor; [done..|texts_ok H4 Hb].
  - apply wp_bind, read_u16be_wp; [lia|]. intros c. constructor; [done..|texts_ok H4 Hb].
Qed.
Lemma stun_walk_wp data fuel pos m ami afp :
  bytes data -> msg_ok m -> (length data <= pos + fuel)%nat -> wp (stun_walk fuel data pos m ami afp) msg_ok.
Proof.
  intros Hb. revert pos m ami afp. induction fuel as [|fuel IH]; intros pos m ami afp Hm Hf; cbn [stun_walk]; cbv zeta.
  { apply wp_if; intros H; bool_facts; [lia|done]. }
  apply wp_if; [|done]. intros Hpos; bool_facts.
  apply wp_bind; wp_wire; [lia|]. apply wp_bind; wp_wire; [lia|]. set (alen := val16 (nth (pos + 2) data 0) _) in *.
  apply wp_if; [done|]. intros Hlen; bool_facts. apply wp_if; [done|]. intros ->.
  apply wp_if; intros Hskip; [apply IH; [done|lia]|].
  pose proof (attr_padded_ge alen ltac:(done)). apply wp_bind. rewrite rdn_Ok by lia.
  apply wp_bind. eapply wp_mono; [apply stun_attr_wp; [by apply Forall_take, Forall_drop | done]|].
  intros [[m' mi] fp] Hm'. apply IH; [done|lia].
Qed.

Lemma stun_parse_wp data : bytes data -> wp (stun_parse data) msg_ok.
Proof.
  intros Hb. unfold stun_parse, STUN_HEADER_SIZE, STUN_TXID_SIZE. cbv zeta. apply wp_if; [done|]. intros Hl; bool_facts.
  wp_step. wp_step; [lia|]. apply wp_if; [done|]. intros _. do 2 (apply wp_bind; wp_wire; [lia|]).
  apply wp_bind; wp_wire; [lia|]. do 3 (apply wp_if; [done|]; intros _). apply wp_bind, rdn_wp; [lia|]. intros txid Ht.
  apply stun_walk_wp; [done | | lia]. constructor; try done. intros y [Hy|[Hy|[Hy|Hy]]]; discriminate.
Qed.

(** C32: the STUN parser is memory safe and total: on every datagram it returns, it
    reads only inside the datagram, and inside each attribute's value, and an
    accepted message has a full transaction id and address fields of the
    declared size. *)
Theorem stun_parse_safe (data : list Z) :
  bytes data -> safe (stun_parse data) /\ forall m, stun_parse data = Ok m -> msg_ok m.
Proof.
  intros Hb. pose proof (stun_parse_wp data Hb) as H. split; [by eapply wp_safe|]. intros m Hm. by eapply wp_elim.
Qed.
Lemma stun_parse_safe_witness :
  let data := [0; 1; 0; 8] ++ be32 STUN_MAGIC_COOKIE ++ replicate 12 7 ++ [0; 36; 0; 4; 0; 0; 1; 0] in
  exists m, stun_parse data = Ok m /\ msg_ok m /\ m_priority m = 256.
Proof.
  intros data. destruct (stun_parse_safe data) as [_ H]; [by apply (bool_decide_eq_true_1 _)|].
  eexists. split; [vm_compute; reflexivity|]. split; [apply H; vm_compute; reflexivity | reflexivity].
Defined.

(** Both verifications return, whatever the datagram. *)
Lemma wr_total b i bs : (i + length bs <= length b)%nat -> exists b', wr b i bs = Ok b' /\ length b' = length b.
Proof. intros H. rewrite wr_Ok by done. eexists. split; [done|]. rewrite !length_app, length_take, length_drop. lia. Qed.
Lemma verify_fingerprint_total data : exists rc, stun_verify_fingerprint data = Ok rc.
Proof.
  unfold stun_verify_fingerprint, STUN_HEADER_SIZE, STUN_COPY_SIZE. cbv zeta. destruct (Nat.ltb_spec (length data) (20 + 8)) as [|H]; [by eexists|].
  assert (forall i, (i + 1 < length data)%nat -> exists v, nanortc_read_u16be data i = Ok v) as Hr16.
  { intros i Hi. unfold nanortc_read_u16be. rewrite !rd8_Ok by lia. by eexists. }
  destruct (Hr16 (length data - 8)%nat ltac:(lia)) as [a ->], (Hr16 (length data - 8 + 2)%nat ltac:(lia)) as [b ->]. rewrite !bind_Ok.
  destruct (_ || _); [by eexists|]. unfold nanortc_read_u32be. rewrite !rd8_Ok by lia. rewrite !bind_Ok.
  destruct (Nat.ltb_spec 548 (length data - 8)); [by eexists|]. rewrite rdn_Ok, bind_Ok by lia.
  destruct (wr_total (replicate 548 0) 0 (take (length data - 8) (drop 0 data))) as (b1 & -> & L1); [rewrite length_take, length_drop, length_replicate; lia|]. rewrite bind_Ok.
  rewrite length_replicate in L1. unfold nanortc_write_u16be.
  match goal with |- context [wr b1 2 ?x] => destruct (wr_total b1 2 x) as (b2 & -> & L2); [cbn; lia|] end. rewrite bind_Ok, rdn_Ok, bind_Ok by lia.
  destruct (negb _); by eexists.
Qed.
Lemma verify_integrity_total hmac_sha1 data msg key : exists rc, stun_verify_integrity hmac_sha1 data msg key = Ok rc.
Proof.
  unfold stun_verify_integrity, STUN_COPY_SIZE. destruct (m_integrity msg) as [off|]; [|by eexists]. cbv zeta.
  destruct (Nat.ltb_spec (length data) (Z.to_nat off + 24)); [by eexists|]. destruct (Nat.ltb_spec 548 (Z.to_nat off)); [by eexists|].
  rewrite (rdn_Ok data 0), bind_Ok by lia. destruct (wr_total (replicate 548 0) 0 (take (Z.to_nat off) (drop 0 data))) as (b1 & -> & L1); [rewrite length_take, length_drop, length_replicate; lia|]. rewrite bind_Ok.
  rewrite length_replicate in L1. unfold nanortc_write_u16be.
  match goal with |- context [wr b1 2 ?x] => destruct (wr_total b1 2 x) as (b2 & -> & L2); [cbn; lia|] end. rewrite bind_Ok, !rdn_Ok, !bind_Ok by lia.
  destruct (negb _); by eexists.
Qed.

(** * Messages *)

(** An attribute on the wire, padded to four octets. *)
Definition attr_bytes (ty : Z) (val : list Z) : list Z :=
  be16 ty ++ be16 (Z.of_nat (length val)) ++ val ++ replicate (attr_padded (Z.of_nat (length val)) - length val) 0.
Definition attrs_bytes (avs : list (Z * list Z)) : list Z := concat (map (fun av => attr_bytes av.1 av.2) avs).
Definition attr_ok (av : Z * list Z) : Prop := is_u16 av.1 /\ is_u16 (Z.of_nat (length av.2)) /\ bytes av.2.

Lemma attr_bytes_length ty val :
  is_u16 (Z.of_nat (length val)) -> length (attr_bytes ty val) = (4 + attr_padded (Z.of_nat (length val)))%nat.
Proof.
  intros Hv. unfold attr_bytes. rewrite !length_app, length_replicate. cbn [length be16].
  pose proof (attr_padded_ge _ Hv) as H. rewrite Nat2Z.id in H. lia.
Qed.

(** What the walk does with a list of attributes, at position [pos]. *)
Fixpoint stun_attrs (avs : list (Z * list Z)) (pos : nat) (m : stun_msg) (ami afp : bool) : res (stun_msg * bool * bool) :=
  match avs with
  | [] => Ok (m, ami, afp)
  | (ty, val) :: avs =>
      let next := (pos + length (attr_bytes ty val))%nat in
      if afp then Err NANORTC_ERR_PARSE else
      if ami && negb (ty =? STUN_ATTR_FINGERPRINT) then stun_attrs avs next m ami afp else
      '(m, mi, fp) ← stun_attr ty val pos m;
      stun_attrs avs next m (ami || mi) (afp || fp)
  end.

Lemma stun_walk_attrs avs pre m ami afp fuel :
  Forall attr_ok avs -> (length (attrs_bytes avs) <= fuel)%nat ->
  stun_walk fuel (pre ++ attrs_bytes avs) (length pre) m ami afp =
  '(m, _, _) ← stun_attrs avs (length pre) m ami afp; Ok m.
Proof.
  revert pre m ami afp fuel. induction avs as [|[ty val] avs IH]; intros pre m ami afp fuel Hok Hf.
  - cbn. rewrite app_nil_r. destruct fuel; cbn [stun_walk]; cbv zeta; by rewrite (proj2 (Nat.leb_gt _ _)) by lia.
  - apply Forall_cons_iff in Hok as [(Hty & Hval & _) Hok]. cbn [fst snd] in *.
    pose proof (attr_bytes_length ty val Hval) as Hlen. set (p := attr_padded (Z.of_nat (length val))) in *.
    cbn [attrs_bytes concat map fst snd] in *. fold (attrs_bytes avs) in *. rewrite length_app in Hf.
    destruct fuel as [|fuel]; [lia|]. cbn [stun_walk stun_attrs]; cbv zeta.
    rewrite (proj2 (Nat.leb_le _ _)) by (rewrite !length_app; lia).
    set (data := pre ++ attr_bytes ty val ++ attrs_bytes avs).
    assert (nanortc_read_u16be data (length pre) = Ok ty) as ->.
    { unfold data, attr_bytes. rewrite <- !app_assoc. rewrite read_u16be_app by done. by rewrite u16_id. }
    assert (nanortc_read_u16be data (length pre + 2) = Ok (Z.of_nat (length val))) as ->.
    { unfold data, attr_bytes. rewrite <- !app_assoc. rewrite (app_assoc pre), read_u16be_app by (rewrite length_app; done).
      by rewrite u16_id. }
    rewrite !bind_Ok. fold p. rewrite (proj2 (Nat.ltb_ge _ _)) by (unfold data; rewrite !length_app; lia).
    rewrite Hlen. destruct afp; [done|].
    assert (forall m ami afp, stun_walk fuel data (length pre + (4 + p)) m ami afp =
              '(m, _, _) ← stun_attrs avs (length pre + (4 + p)) m ami afp; Ok m) as Hrest.
    { intros m' ami' afp'. unfold data. rewrite app_assoc.
      replace (length pre + (4 + p))%nat with (length (pre ++ attr_bytes ty val)) by (rewrite length_app; lia).
      apply IH; [done|lia]. }
    rewrite !Nat2Z.id. destruct (_ && _); [apply Hrest|].
    assert (rdn data (length pre + 4) (length val) = Ok val) as ->.
    { unfold data, attr_bytes. rewrite <- !app_assoc, (app_assoc pre), (app_assoc (pre ++ _)).
      apply rdn_mid; [rewrite !length_app; cbn; lia | done]. }
    rewrite bind_Ok. destruct (stun_attr ty val (length pre) m) as [[[m' mi] fp]|e|]; [|done..]. rewrite !bind_Ok. apply Hrest.
Qed.

(** The twenty octet header. *)
Definition stun_header (type len : Z) (txid : list Z) : list Z :=
  be16 type ++ be16 len ++ be32 STUN_MAGIC_COOKIE ++ txid.
Lemma stun_header_length type len txid : length txid = STUN_TXID_SIZE -> length (stun_header type len txid) = STUN_HEADER_SIZE.
Proof. intros Ht. unfold stun_header. rewrite !length_app, Ht. done. Qed.

Lemma attrs_bytes_app a b : attrs_bytes (a ++ b) = attrs_bytes a ++ attrs_bytes b.
Proof. unfold attrs_bytes. by rewrite map_app, concat_app. Qed.
Lemma attrs_bytes_cons av avs : attrs_bytes (av :: avs) = attr_bytes av.1 av.2 ++ attrs_bytes avs.
Proof. done. Qed.
Lemma attrs_bytes_bytes avs : Forall attr_ok avs -> bytes (attrs_bytes avs).
Proof.
  induction 1 as [|av avs (_ & _ & Hv) _ IH]; [done|]. rewrite attrs_bytes_cons. apply Forall_app_2; [|done].
  unfold attr_bytes. repeat apply Forall_app_2; auto using be16_bytes. apply Forall_replicate, is_u8_0.
Qed.
Lemma stun_header_bytes type len txid : bytes txid -> bytes (stun_header type len txid).
Proof. intros. unfold stun_header. repeat apply Forall_app_2; auto using be16_bytes, be32_bytes. Qed.
Lemma attrs_bytes_length4 avs : Forall attr_ok avs -> exists k, length (attrs_bytes avs) = (4 * k)%nat.
Proof.
  induction 1 as [|av avs (_ & Hv & _) _ [k IH]]; [by exists 0%nat|]. rewrite attrs_bytes_cons, length_app, IH, attr_bytes_length by done.
  rewrite attr_padded_eq by done. exists (1 + (Z.to_nat (Z.of_nat (length av.2)) + 3) / 4 + k)%nat. lia.
Qed.
Lemma land3_mult4 k : Z.land (4 * k) 3 = 0.
Proof. change 3 with (Z.ones 2). rewrite Z.land_ones by lia. change (2 ^ 2) with 4. rewrite Z.mul_comm. apply Z.mod_mul. lia. Qed.

(** What the parser makes of a well-formed message. *)
Lemma stun_parse_attrs type txid avs :
  is_u16 type -> Z.land (u8 (Z.shiftr type 8)) 0xC0 = 0 -> length txid = STUN_TXID_SIZE ->
  Forall attr_ok avs -> is_u16 (Z.of_nat (length (attrs_bytes avs))) ->
  stun_parse (stun_header type (Z.of_nat (length (attrs_bytes avs))) txid ++ attrs_bytes avs) =
  '(m, _, _) ← stun_attrs avs STUN_HEADER_SIZE (stun_msg_init type (Z.of_nat (length (attrs_bytes avs))) txid) false false; Ok m.
Proof.
  intros Hty Htop Ht Hav Hlen. set (n := Z.of_nat (length (attrs_bytes avs))) in *.
  pose proof (stun_header_length type n txid Ht) as Hh. set (data := stun_header type n txid ++ attrs_bytes avs).
  assert (length data = STUN_HEADER_SIZE + length (attrs_bytes avs))%nat as Hdl by (unfold data; rewrite length_app, Hh; done).
  unfold stun_parse. cbv zeta. rewrite Hdl. rewrite (proj2 (Nat.ltb_ge _ _)) by lia.
  assert (rd8 data 0 = Ok (u8 (Z.shiftr type 8))) as -> by done. rewrite bind_Ok, Htop, Z.eqb_refl. cbn [negb].
  assert (data = [] ++ be16 type ++ be16 n ++ be32 STUN_MAGIC_COOKIE ++ txid ++ attrs_bytes avs) as Hd
    by (unfold data, stun_header; by rewrite <- !app_assoc).
  assert (nanortc_read_u16be data 0 = Ok type) as -> by (rewrite Hd, read_u16be_app by done; by rewrite u16_id).
  assert (nanortc_read_u16be data 2 = Ok n) as ->.
  { rewrite Hd. cbn [app]. rewrite (read_u16be_app (be16 type)) by done. by rewrite u16_id. }
  assert (nanortc_read_u32be data 4 = Ok STUN_MAGIC_COOKIE) as ->.
  { rewrite Hd. cbn [app]. rewrite (app_assoc (be16 type)), read_u32be_app by done. by rewrite u32_id. }
  rewrite !bind_Ok, Z.eqb_refl. cbn [negb]. replace (Z.to_nat n) with (length (attrs_bytes avs)) by lia.
  rewrite (Nat.add_comm (length _)), Nat.eqb_refl. cbn [negb].
  assert (Z.land n 3 = 0) as ->. { destruct (attrs_bytes_length4 avs Hav) as [k Hk]. unfold n. rewrite Hk, Nat2Z.inj_mul. apply land3_mult4. }
  cbn [Z.eqb negb]. assert (rdn data 8 STUN_TXID_SIZE = Ok txid) as ->.
  { unfold data, stun_header. rewrite !app_assoc, <- !(app_assoc _ txid).
    apply (rdn_mid _ txid (attrs_bytes avs) 8 STUN_TXID_SIZE); done. }
  rewrite bind_Ok. unfold data. rewrite <- Hh at 2. rewrite <- Hh at 2. apply stun_walk_attrs; [done | lia].
Qed.

Section Signed.
Context (hmac_sha1 : list Z -> list Z -> list Z) (hmac_length : forall k x, length (hmac_sha1 k x) = 20%nat)
  (hmac_bytes : forall k x, bytes (hmac_sha1 k x)).

(** The two attributes [append_integrity_fingerprint] adds to [avs]. *)
Definition stun_mac (type : Z) (txid key : list Z) (attrs : list Z) : list Z :=
  hmac_sha1 key (stun_header type (Z.of_nat (length attrs) + 24) txid ++ attrs).
Definition stun_crc (type : Z) (txid attrs : list Z) : Z :=
  Z.lxor (nano_crc32 (stun_header type (Z.of_nat (length attrs) + 8) txid ++ attrs)) STUN_FINGERPRINT_XOR.
Definition with_mac (type : Z) (txid key : list Z) (avs : list (Z * list Z)) : list (Z * list Z) :=
  avs ++ [(STUN_ATTR_MESSAGE_INTEGRITY, stun_mac type txid key (attrs_bytes avs))].
Definition signed (type : Z) (txid key : list Z) (avs : list (Z * list Z)) : list (Z * list Z) :=
  let avs := with_mac type txid key avs in
  avs ++ [(STUN_ATTR_FINGERPRINT, be32 (stun_crc type txid (attrs_bytes avs)))].
Definition signed_message (type : Z) (txid key : list Z) (avs : list (Z * list Z)) : list Z :=
  let body := attrs_bytes (signed type txid key avs) in stun_header type (Z.of_nat (length body)) txid ++ body.

Lemma mac_length type txid key attrs : length (stun_mac type txid key attrs) = 20%nat.
Proof using hmac_length. apply hmac_length. Qed.
Lemma attr_bytes_mac type txid key attrs :
  attr_bytes STUN_ATTR_MESSAGE_INTEGRITY (stun_mac type txid key attrs) =
  be16 STUN_ATTR_MESSAGE_INTEGRITY ++ be16 20 ++ stun_mac type txid key attrs.
Proof using hmac_length. unfold attr_bytes. rewrite mac_length. cbn [replicate]. change (_ - 20)%nat with 0%nat. cbn [replicate]. by rewrite app_nil_r. Qed.
Lemma attr_bytes_crc v : attr_bytes STUN_ATTR_FINGERPRINT (be32 v) = be16 STUN_ATTR_FINGERPRINT ++ be16 4 ++ be32 v.
Proof. unfold attr_bytes. change (_ - length (be32 v))%nat with 0%nat. cbn [replicate]. by rewrite app_nil_r. Qed.
Lemma with_mac_bytes type txid key avs :
  attrs_bytes (with_mac type txid key avs) =
  attrs_bytes avs ++ be16 STUN_ATTR_MESSAGE_INTEGRITY ++ be16 20 ++ stun_mac type txid key (attrs_bytes avs).
Proof using hmac_length.
  unfold with_mac. rewrite attrs_bytes_app, attrs_bytes_cons. cbn [fst snd]. rewrite attr_bytes_mac.
  cbn [attrs_bytes map concat]. by rewrite app_nil_r.
Qed.
Lemma with_mac_length type txid key avs : length (attrs_bytes (with_mac type txid key avs)) = (length (attrs_bytes avs) + 24)%nat.
Proof using hmac_length. rewrite with_mac_bytes, !length_app, mac_length. done. Qed.
Lemma signed_length type txid key avs : length (attrs_bytes (signed type txid key avs)) = (length (attrs_bytes avs) + 32)%nat.
Proof using hmac_length.
  unfold signed. rewrite attrs_bytes_app, length_app, with_mac_length, attrs_bytes_cons. cbn [fst snd attrs_bytes map concat].
  rewrite app_nil_r, attr_bytes_crc. cbn. lia.
Qed.

Lemma write_attr_hdr_app pre rest pos ty len :
  pos = length pre -> (4 <= length rest)%nat ->
  write_attr_hdr (pre ++ rest) pos ty len = Ok ((pre ++ be16 ty ++ be16 len) ++ drop 4 rest).
Proof.
  intros -> Hr. unfold write_attr_hdr, nanortc_write_u16be. rewrite wr_last by done. by rewrite wr_append.
Qed.
Lemma patch_length type len len' txid rest :
  nanortc_write_u16be (stun_header type len txid ++ rest) 2 len' = Ok (stun_header type len' txid ++ rest).
Proof. unfold stun_header. rewrite <- !app_assoc. by apply (wr_mid (be16 type) (be16 len)). Qed.

Lemma append_spec type l0 txid key avs room :
  length txid = STUN_TXID_SIZE -> Z.of_nat (length (attrs_bytes avs)) + 32 < 65536 -> (32 <= length room)%nat ->
  append_integrity_fingerprint hmac_sha1 (stun_header type l0 txid ++ attrs_bytes avs ++ room)
    (STUN_HEADER_SIZE + length (attrs_bytes avs)) key =
  Ok (signed_message type txid key avs ++ drop 32 room, length (signed_message type txid key avs)).
Proof using hmac_length.
  intros Ht Hn Hr. set (n := length (attrs_bytes avs)) in *. pose proof (stun_header_length type) as Hh.
  unfold append_integrity_fingerprint. rewrite !length_app, Hh by done. fold n. rewrite (proj2 (Nat.ltb_ge _ _)) by lia.
  rewrite patch_length, bind_Ok.
  replace (u16 (Z.of_nat (STUN_HEADER_SIZE + n - STUN_HEADER_SIZE + 24))) with (Z.of_nat n + 24) by (unfold STUN_HEADER_SIZE; rewrite u16_id; mach).
  rewrite (app_assoc _ _ room), (write_attr_hdr_app _ room) by (rewrite ?length_app, ?Hh by done; fold n; lia).
  rewrite bind_Ok. rewrite <- !app_assoc.
  rewrite (app_assoc _ (attrs_bytes avs)). rewrite (rdn_front (_ ++ attrs_bytes avs)) by (rewrite ?length_app, ?Hh by done; fold n; done).
  rewrite bind_Ok. change (hmac_sha1 key _) with (stun_mac type txid key (attrs_bytes avs)).
  rewrite (app_assoc (be16 STUN_ATTR_MESSAGE_INTEGRITY)), (app_assoc (_ ++ attrs_bytes avs)).
  rewrite wr_append by (rewrite ?length_app, ?length_drop, ?mac_length, ?Hh by done; fold n; cbn; lia).
  rewrite mac_length, drop_drop, bind_Ok. cbn [Nat.add].
  set (body := attrs_bytes (with_mac type txid key avs)).
  pose proof (with_mac_bytes type txid key avs) as Hbody. fold body in Hbody.
  rewrite <- !app_assoc. rewrite (app_assoc (be16 STUN_ATTR_MESSAGE_INTEGRITY)), (app_assoc (_ ++ be16 20)), (app_assoc (attrs_bytes avs)).
  replace (attrs_bytes avs ++ _) with body by (by rewrite Hbody, <- !app_assoc).
  assert (length body = n + 24)%nat as Hbl by apply with_mac_length.
  rewrite patch_length, bind_Ok.
  replace (u16 (Z.of_nat (STUN_HEADER_SIZE + n + 24 - STUN_HEADER_SIZE + 8))) with (Z.of_nat (length body) + 8)
    by (unfold STUN_HEADER_SIZE; rewrite Hbl, u16_id; mach).
  rewrite (app_assoc _ body), (write_attr_hdr_app (_ ++ body)) by (rewrite ?length_app, ?length_drop, ?Hh by done; lia).
  rewrite bind_Ok, drop_drop, <- !app_assoc. rewrite (app_assoc _ body).
  rewrite (rdn_front (_ ++ body)) by (rewrite ?length_app, ?Hh by done; lia).
  rewrite bind_Ok. change (Z.lxor _ STUN_FINGERPRINT_XOR) with (stun_crc type txid body). rewrite (app_assoc (be16 STUN_ATTR_FINGERPRINT)), (app_assoc (_ ++ body)).
  unfold nanortc_write_u32be. rewrite wr_append by (rewrite ?length_app, ?length_drop, ?Hh by done; cbn; lia).
  rewrite bind_Ok. cbn [length be32]. rewrite drop_drop.
  unfold signed_message. rewrite signed_length, length_app, Hh, signed_length by done. fold n.
  do 2 f_equal; [|lia]. f_equal. rewrite <- !app_assoc. f_equal; [f_equal; lia|].
  unfold signed. fold body. rewrite attrs_bytes_app. fold body. rewrite attrs_bytes_cons. cbn [fst snd].
  rewrite attr_bytes_crc. cbn [attrs_bytes map concat]. by rewrite app_nil_r.
Qed.

Lemma stun_attrs_app a b pos m ami afp :
  stun_attrs (a ++ b) pos m ami afp =
  '(m, ami, afp) ← stun_attrs a pos m ami afp; stun_attrs b (pos + length (attrs_bytes a)) m ami afp.
Proof.
  revert pos m ami afp. induction a as [|[ty val] a IH]; intros pos m ami afp; cbn [app stun_attrs].
  { by rewrite bind_Ok, Nat.add_0_r. }
  rewrite attrs_bytes_cons, length_app. cbn [fst snd]. rewrite Nat.add_assoc. destruct afp; [done|].
  destruct (_ && _); [apply IH|]. rewrite bind_assoc. destruct (stun_attr ty val pos m) as [[[m' mi] fp]|e|]; [|done..].
  rewrite !bind_Ok. apply IH.
Qed.
Lemma attr_u32_be32 v : is_u32 v -> attr_u32 (be32 v) = Ok v.
Proof.
  intros Hv. unfold attr_u32. cbn [length be32 Nat.eqb negb].
  pose proof (read_u32be_app [] v [] 0 eq_refl) as H. cbn [app] in H. rewrite app_nil_r in H. by rewrite H, u32_id.
Qed.
Lemma attr_u64_be64 v : is_u64 v -> attr_u64 (be64 v) = Ok v.
Proof.
  intros Hv. unfold attr_u64, read_u64, be64. cbn [length be32 app Nat.eqb negb].
  pose proof (read_u32be_app [] (u32 (Z.shiftr v 32)) (be32 (u32 v)) 0 eq_refl) as H0.
  cbn [app be32] in H0. rewrite H0, bind_Ok. clear H0.
  pose proof (read_u32be_app (be32 (u32 (Z.shiftr v 32))) (u32 v) [] (0 + 4) eq_refl) as H. rewrite app_nil_r in H.
  cbn [app be32] in H. rewrite H, bind_Ok. rewrite !(u32_id (u32 _)) by apply u32_range.
  f_equal. rewrite Z.shiftr_div_pow2, (u32_id (_ / _)) by mach.
  assert (Z.shiftl (v / 2 ^ 32) 32 = v / 2 ^ 32 * 2 ^ 32) as Hs by (rewrite Z.shiftl_mul_pow2; lia).
  rewrite u64_id by (rewrite Hs; mach). rewrite lor_shiftl_add by mach. mach.
Qed.

(** The switch on the attributes the encoders write. *)
Lemma stun_attr_mac val pos m :
  length val = 20%nat ->
  stun_attr STUN_ATTR_MESSAGE_INTEGRITY val pos m = Ok (set_integrity m (Some (u16 (Z.of_nat pos))), true, false).
Proof. intros Hl. unfold stun_attr. rewrite Hl. done. Qed.
Lemma stun_attr_fp v pos m :
  is_u32 v -> stun_attr STUN_ATTR_FINGERPRINT (be32 v) pos m = Ok (set_fingerprint m (Some v), false, true).
Proof. intros Hv. transitivity (v ← attr_u32 (be32 v); Ok (set_fingerprint m (Some v), false, true)); [done|]. by rewrite attr_u32_be32. Qed.
Lemma stun_attr_priority v pos m :
  is_u32 v -> stun_attr STUN_ATTR_PRIORITY (be32 v) pos m = Ok (set_priority m v, false, false).
Proof. intros Hv. transitivity (v ← attr_u32 (be32 v); Ok (set_priority m v, false, false)); [done|]. by rewrite attr_u32_be32. Qed.
Lemma stun_attr_role (c : bool) v pos m :
  is_u64 v ->
  stun_attr (if c then STUN_ATTR_ICE_CONTROLLING else STUN_ATTR_ICE_CONTROLLED) (be64 v) pos m =
  Ok (if c then set_controlling m (Some v) else set_controlled m (Some v), false, false).
Proof.
  intros Hv. destruct c.
  - transitivity (v ← attr_u64 (be64 v); Ok (set_controlling m (Some v), false, false)); [done|]. by rewrite attr_u64_be64.
  - transitivity (v ← attr_u64 (be64 v); Ok (set_controlled m (Some v), false, false)); [done|]. by rewrite attr_u64_be64.
Qed.

Lemma with_mac_ok type txid key avs : Forall attr_ok avs -> Forall attr_ok (with_mac type txid key avs).
Proof using hmac_length hmac_bytes.
  intros Hav. apply Forall_app_2; [done|]. apply List.Forall_cons; [|done].
  split_and!; cbn [fst snd]; [done | by rewrite mac_length | apply hmac_bytes].
Qed.
Lemma stun_crc_range type txid key avs :
  Forall attr_ok avs -> bytes txid -> is_u32 (stun_crc type txid (attrs_bytes (with_mac type txid key avs))).
Proof using hmac_length hmac_bytes.
  intros Hav Ht. unfold stun_crc. apply lxor_bounded; [lia | | unfold STUN_FINGERPRINT_XOR; lia].
  apply nano_crc32_range, Forall_app_2; [by apply stun_header_bytes | by apply attrs_bytes_bytes, with_mac_ok].
Qed.
Lemma signed_ok type txid key avs : Forall attr_ok avs -> bytes txid -> Forall attr_ok (signed type txid key avs).
Proof using hmac_length hmac_bytes.
  intros Hav Ht. apply Forall_app_2; [by apply with_mac_ok|]. apply List.Forall_cons; [|done].
  split_and!; [done | done | apply be32_bytes].
Qed.

(** A signed message parses as its attributes, with the place of the MAC and the
    fingerprint. *)
Lemma stun_parse_signed type txid key avs m :
  is_u16 type -> Z.land (u8 (Z.shiftr type 8)) 0xC0 = 0 -> length txid = STUN_TXID_SIZE -> bytes txid ->
  Forall attr_ok avs -> Z.of_nat (length (attrs_bytes avs)) + 52 < 65536 ->
  stun_attrs avs STUN_HEADER_SIZE
    (stun_msg_init type (Z.of_nat (length (attrs_bytes avs)) + 32) txid) false false = Ok (m, false, false) ->
  stun_parse (signed_message type txid key avs) =
  Ok (set_fingerprint (set_integrity m (Some (Z.of_nat (STUN_HEADER_SIZE + length (attrs_bytes avs)))))
        (Some (stun_crc type txid (attrs_bytes (with_mac type txid key avs))))).
Proof using hmac_length hmac_bytes.
  intros Hty Htop Ht Htb Hav Hn Hattrs. unfold signed_message. cbv zeta.
  pose proof (with_mac_ok type txid key avs Hav) as Hwm.
  pose proof (signed_ok type txid key avs Hav Htb) as Hsg. pose proof (stun_crc_range type txid key avs Hav Htb) as Hcrc.
  rewrite stun_parse_attrs by (rewrite ?signed_length; try done; mach).
  rewrite signed_length. replace (Z.of_nat (_ + 32)) with (Z.of_nat (length (attrs_bytes avs)) + 32) by lia.
  unfold signed, with_mac at 1. rewrite <- app_assoc, stun_attrs_app, Hattrs, bind_Ok. cbn [app stun_attrs andb].
  rewrite stun_attr_mac, bind_Ok by apply mac_length. cbn [orb andb negb Z.eqb STUN_ATTR_FINGERPRINT Pos.eqb].
  rewrite stun_attr_fp, !bind_Ok by done. rewrite u16_id by (unfold STUN_HEADER_SIZE; mach). done.
Qed.

(** Both verifications recompute what the encoder wrote. *)
Lemma verify_copy len' type len txid body rest :
  length txid = STUN_TXID_SIZE -> (STUN_HEADER_SIZE + length body <= STUN_COPY_SIZE)%nat ->
  (head ← rdn (stun_header type len txid ++ body ++ rest) 0 (STUN_HEADER_SIZE + length body);
   copy ← wr (replicate STUN_COPY_SIZE 0) 0 head;
   copy ← nanortc_write_u16be copy 2 len';
   rdn copy 0 (STUN_HEADER_SIZE + length body)) = Ok (stun_header type len' txid ++ body).
Proof.
  intros Ht Hb. pose proof (stun_header_length type) as Hh. rewrite app_assoc, rdn_front by (by rewrite length_app, Hh).
  rewrite bind_Ok, wr_0 by (rewrite length_replicate, length_app, Hh; done). rewrite bind_Ok, <- app_assoc, patch_length, bind_Ok.
  rewrite app_assoc. apply rdn_front. by rewrite length_app, Hh.
Qed.

Lemma signed_split type txid key avs :
  signed_message type txid key avs =
  stun_header type (Z.of_nat (length (attrs_bytes avs)) + 32) txid ++ attrs_bytes (with_mac type txid key avs) ++
  be16 STUN_ATTR_FINGERPRINT ++ be16 4 ++ be32 (stun_crc type txid (attrs_bytes (with_mac type txid key avs))).
Proof using hmac_length.
  unfold signed_message. cbv zeta. rewrite signed_length. unfold signed. rewrite attrs_bytes_app, attrs_bytes_cons. cbn [fst snd].
  rewrite attr_bytes_crc. cbn [attrs_bytes map concat]. rewrite app_nil_r. do 2 f_equal. lia.
Qed.

Lemma verify_fingerprint_signed type txid key avs :
  length txid = STUN_TXID_SIZE -> bytes txid -> Forall attr_ok avs -> (length (attrs_bytes avs) <= 504)%nat ->
  stun_verify_fingerprint (signed_message type txid key avs) = Ok NANORTC_OK.
Proof using hmac_length hmac_bytes.
  intros Ht Htb Hav Hn. pose proof (with_mac_length type txid key avs) as Hb. pose proof (stun_header_length type) as Hh.
  pose proof (stun_crc_range type txid key avs Hav Htb) as Hcrc.
  rewrite signed_split. set (body := attrs_bytes (with_mac type txid key avs)) in *. set (crc := stun_crc type txid body) in *.
  set (h := stun_header type _ txid). assert (length h = STUN_HEADER_SIZE) as Hhl by by apply Hh.
  set (data := h ++ body ++ be16 STUN_ATTR_FINGERPRINT ++ be16 4 ++ be32 crc).
  assert (length data = STUN_HEADER_SIZE + length body + 8)%nat as Hdl by (unfold data; rewrite !length_app, Hhl; cbn; lia).
  unfold stun_verify_fingerprint. cbv zeta. rewrite Hdl, (proj2 (Nat.ltb_ge _ _)) by lia.
  replace (STUN_HEADER_SIZE + length body + 8 - 8)%nat with (STUN_HEADER_SIZE + length body)%nat by lia.
  assert (nanortc_read_u16be data (STUN_HEADER_SIZE + length body) = Ok STUN_ATTR_FINGERPRINT) as ->.
  { unfold data. rewrite app_assoc, read_u16be_app by (by rewrite length_app, Hhl). done. }
  assert (nanortc_read_u16be data (STUN_HEADER_SIZE + length body + 2) = Ok 4) as ->.
  { unfold data. rewrite app_assoc, (app_assoc (h ++ body)), read_u16be_app by (by rewrite !length_app, Hhl). done. }
  assert (nanortc_read_u32be data (STUN_HEADER_SIZE + length body + 4) = Ok crc) as ->.
  { unfold data. rewrite app_assoc, (app_assoc (h ++ body)), (app_assoc ((h ++ body) ++ _)).
    rewrite <- (app_nil_r (be32 crc)), read_u32be_app by (rewrite !length_app, Hhl; cbn; lia). by rewrite u32_id. }
  rewrite !bind_Ok, !Z.eqb_refl. cbn [negb orb]. rewrite (proj2 (Nat.ltb_ge _ _)) by (unfold STUN_COPY_SIZE, STUN_HEADER_SIZE; lia).
  pose proof (verify_copy (Z.of_nat (length body) + 8) type (Z.of_nat (length (attrs_bytes avs)) + 32) txid body
    (be16 STUN_ATTR_FINGERPRINT ++ be16 4 ++ be32 crc) Ht ltac:(unfold STUN_COPY_SIZE, STUN_HEADER_SIZE; lia)) as Hv.
  fold h in Hv. fold data in Hv.
  replace (u16 _) with (Z.of_nat (length body) + 8) by (unfold STUN_HEADER_SIZE; rewrite u16_id; mach).
  bind_inv Hv. bind_inv Hv. bind_inv Hv. rewrite Hx, bind_Ok, Hx0, bind_Ok, Hx1, bind_Ok, Hv, bind_Ok.
  change (Z.lxor _ STUN_FINGERPRINT_XOR) with crc. by rewrite Z.eqb_refl.
Qed.

(** The MAC is checked in place, whatever follows it. *)
Lemma verify_integrity_at type len txid key key' avs m tail :
  length txid = STUN_TXID_SIZE -> (length (attrs_bytes avs) <= 528)%nat ->
  m_integrity m = Some (Z.of_nat (STUN_HEADER_SIZE + length (attrs_bytes avs))) ->
  stun_verify_integrity hmac_sha1 (stun_header type len txid ++ attrs_bytes (with_mac type txid key avs) ++ tail) m key' =
  Ok (if bool_decide (stun_mac type txid key' (attrs_bytes avs) = stun_mac type txid key (attrs_bytes avs))
      then NANORTC_OK else NANORTC_ERR_PROTOCOL).
Proof using hmac_length.
  intros Ht Hn Hm. set (n := length (attrs_bytes avs)) in *. pose proof (stun_header_length type) as Hh.
  unfold stun_verify_integrity. rewrite Hm, Nat2Z.id.
  rewrite with_mac_bytes, <- !(app_assoc (attrs_bytes avs)), <- !(app_assoc (be16 STUN_ATTR_MESSAGE_INTEGRITY)), <- !(app_assoc (be16 20)).
  set (mac := stun_mac type txid key (attrs_bytes avs)).
  set (h := stun_header type len txid). assert (length h = STUN_HEADER_SIZE) as Hhl by by apply Hh.
  rewrite (proj2 (Nat.ltb_ge _ _)).
  2: { rewrite !length_app, Hhl. fold n. unfold mac. rewrite mac_length. cbn. lia. }
  cbv zeta. rewrite (proj2 (Nat.ltb_ge _ _)) by (unfold STUN_COPY_SIZE, STUN_HEADER_SIZE; lia).
  pose proof (verify_copy (Z.of_nat n + 24) type len txid (attrs_bytes avs)
    (be16 STUN_ATTR_MESSAGE_INTEGRITY ++ be16 20 ++ mac ++ tail) Ht
    ltac:(fold n; unfold STUN_COPY_SIZE, STUN_HEADER_SIZE; lia)) as Hv.
  fold h n in Hv.
  replace (u16 _) with (Z.of_nat n + 24) by (unfold STUN_HEADER_SIZE; rewrite u16_id; mach).
  bind_inv Hv. bind_inv Hv. bind_inv Hv. rewrite Hx, bind_Ok, Hx0, bind_Ok, Hx1, bind_Ok, Hv, bind_Ok.
  assert (rdn (h ++ attrs_bytes avs ++ be16 STUN_ATTR_MESSAGE_INTEGRITY ++ be16 20 ++ mac ++ tail)
            (STUN_HEADER_SIZE + n + 4) 20 = Ok mac) as ->.
  { rewrite (app_assoc h), (app_assoc (h ++ _)), (app_assoc ((h ++ _) ++ _)).
    apply rdn_mid; [rewrite !length_app, Hhl; fold n; cbn; lia | unfold mac; by rewrite mac_length]. }
  rewrite bind_Ok. change (hmac_sha1 key' _) with (stun_mac type txid key' (attrs_bytes avs)).
  destruct (bool_decide _); done.
Qed.
Lemma verify_integrity_signed type txid key key' avs m :
  length txid = STUN_TXID_SIZE -> (length (attrs_bytes avs) <= 528)%nat ->
  m_integrity m = Some (Z.of_nat (STUN_HEADER_SIZE + length (attrs_bytes avs))) ->
  stun_verify_integrity hmac_sha1 (signed_message type txid key avs) m key' =
  Ok (if bool_decide (stun_mac type txid key' (attrs_bytes avs) = stun_mac type txid key (attrs_bytes avs))
      then NANORTC_OK else NANORTC_ERR_PROTOCOL).
Proof using hmac_length. intros Ht Hn Hm. rewrite signed_split. by apply verify_integrity_at. Qed.

(** * The encoders *)

Lemma write_stun_header_Ok buf type len txid :
  length txid = STUN_TXID_SIZE -> (STUN_HEADER_SIZE <= length buf)%nat ->
  write_stun_header buf type len txid = Ok (stun_header type len txid ++ drop STUN_HEADER_SIZE buf).
Proof.
  intros Ht Hb. unfold write_stun_header, nanortc_write_u16be, nanortc_write_u32be.
  do 2 rewrite wr_then by done. rewrite wr_last by done. pose proof (stun_header_length type len txid Ht) as Hh.
  rewrite <- !app_assoc. fold (stun_header type len txid).
  rewrite wr_0 by (rewrite Hh; done). by rewrite Hh.
Qed.

(** The header of an attribute and its value, appended at the cursor. *)
Lemma write_attr_app pre rest pos ty len val (k : list Z -> res (list Z * nat)) :
  pos = length pre -> len = Z.of_nat (length val) -> (4 + length val <= length rest)%nat ->
  (buf ← write_attr_hdr (pre ++ rest) pos ty len; buf ← wr buf (pos + 4) val; k buf) =
  k ((pre ++ be16 ty ++ be16 len ++ val) ++ drop (4 + length val) rest).
Proof.
  intros Hp Hl Hr. rewrite write_attr_hdr_app, bind_Ok by (first [done | lia]).
  rewrite wr_append by (rewrite ?length_app, ?length_drop; cbn; lia). rewrite bind_Ok, drop_drop, <- !app_assoc. done.
Qed.
Lemma attr_bytes_aligned ty val k : length val = (4 * k)%nat -> is_u16 (Z.of_nat (length val)) ->
  attr_bytes ty val = be16 ty ++ be16 (Z.of_nat (length val)) ++ val.
Proof.
  intros Hk Hv. unfold attr_bytes. rewrite attr_padded_eq by done. rewrite Nat2Z.id, Hk.
  assert ((4 * k + 3) / 4 = k)%nat as ->. { symmetry. apply (Nat.div_unique _ 4 _ 3); lia. }
  rewrite Nat.sub_diag. cbn [replicate]. by rewrite app_nil_r.
Qed.

(** The attributes of a binding request. *)
Definition request_attrs (username : list Z) (priority : Z) (use_candidate is_controlling : bool) (tie_breaker : Z)
  : list (Z * list Z) :=
  [(STUN_ATTR_USERNAME, username); (STUN_ATTR_PRIORITY, be32 priority);
   (if is_controlling then STUN_ATTR_ICE_CONTROLLING else STUN_ATTR_ICE_CONTROLLED, be64 tie_breaker)] ++
  (if use_candidate then [(STUN_ATTR_USE_CANDIDATE, [])] else []).

Lemma request_attrs_bytes username priority (uc c : bool) tb :
  attrs_bytes (request_attrs username priority uc c tb) =
  attr_bytes STUN_ATTR_USERNAME username ++ (be16 STUN_ATTR_PRIORITY ++ be16 4 ++ be32 priority) ++
  (be16 (if c then STUN_ATTR_ICE_CONTROLLING else STUN_ATTR_ICE_CONTROLLED) ++ be16 8 ++ be64 tb) ++
  (if uc then be16 STUN_ATTR_USE_CANDIDATE ++ be16 0 else []).
Proof.
  unfold request_attrs. rewrite attrs_bytes_app, !attrs_bytes_cons. cbn [fst snd].
  rewrite (attr_bytes_aligned STUN_ATTR_PRIORITY _ 1) by done.
  rewrite (attr_bytes_aligned _ (be64 tb) 2) by done. cbn [attrs_bytes map concat]. rewrite app_nil_r, <- !app_assoc.
  do 5 f_equal. destruct uc; [|done]. rewrite attrs_bytes_cons. cbn [fst snd].
  rewrite (attr_bytes_aligned _ [] 0) by done. done.
Qed.

Lemma encode_binding_request_spec username priority (uc c : bool) tb txid key buf :
  length txid = STUN_TXID_SIZE -> is_u16 (Z.of_nat (length username) + 100) ->
  let msg := signed_message STUN_BINDING_REQUEST txid key (request_attrs username priority uc c tb) in
  stun_encode_binding_request hmac_sha1 username priority uc c tb txid key buf =
  if (length buf <? length msg)%nat then Err NANORTC_ERR_BUFFER_TOO_SMALL
  else Ok (msg ++ drop (length msg) buf, length msg).
Proof using hmac_length.
  intros Ht Hu msg. pose proof (stun_header_length STUN_BINDING_REQUEST) as Hh.
  assert (is_u16 (Z.of_nat (length username))) as Hu' by mach.
  pose proof (attr_padded_ge _ Hu') as Hpad. rewrite Nat2Z.id in Hpad.
  assert (attr_padded (Z.of_nat (length username)) <= length username + 3)%nat as Hpad'.
  { rewrite attr_padded_eq, Nat2Z.id by done. pose proof (Nat.div_mod_eq (length username + 3) 4). lia. }
  unfold stun_encode_binding_request. cbv zeta. rewrite (u16_id (Z.of_nat _)) by done.
  pose proof (attr_bytes_length STUN_ATTR_USERNAME username Hu') as Hul.
  set (p := attr_padded (Z.of_nat (length username))) in *.
  set (avs := request_attrs username priority uc c tb) in *.
  assert (length (attrs_bytes avs) = (4 + p) + 8 + 12 + (if uc then 4 else 0))%nat as Hal.
  { unfold avs. rewrite request_attrs_bytes, !length_app, Hul. destruct uc; cbn; lia. }
  assert (length msg = STUN_HEADER_SIZE + (4 + p) + 8 + 12 + (if uc then 4 else 0) + 24 + 8)%nat as Hml.
  { unfold msg, signed_message. cbv zeta. rewrite length_app, Hh, signed_length, Hal by done. lia. }
  rewrite Hml. destruct (Nat.ltb_spec (length buf) (STUN_HEADER_SIZE + (4 + p) + 8 + 12 + (if uc then 4 else 0) + 24 + 8))
    as [|Hroom]; [done|].
  rewrite write_stun_header_Ok, bind_Ok by (first [done | lia]).
  rewrite write_attr_app by (rewrite ?Hh, ?length_drop by done; first [done | lia]).
  rewrite (proj2 (Nat.ltb_ge _ _)) by done.
  rewrite wr_append by (rewrite ?length_app, ?length_replicate, ?length_drop, ?Hh by done; cbn [length be16]; lia).
  rewrite bind_Ok, length_replicate, !drop_drop, <- !app_assoc.
  replace (be16 STUN_ATTR_USERNAME ++ _) with (attr_bytes STUN_ATTR_USERNAME username ++ drop (STUN_HEADER_SIZE + (4 + p)) buf).
  2: { unfold attr_bytes. rewrite <- !app_assoc. fold p. do 5 f_equal. lia. }
  rewrite (app_assoc (stun_header _ _ _)).
  unfold nanortc_write_u32be. rewrite write_attr_app by (rewrite ?length_app, ?Hh, ?Hul, ?length_drop by done; cbn [length be32]; lia).
  rewrite write_attr_app by (rewrite ?length_app, ?Hh, ?Hul, ?length_drop by done; cbn [length be32 be64 be16 app]; lia).
  set (pre := _ ++ be16 (if c then _ else _) ++ _). set (rest := drop _ (drop _ (drop _ buf))).
  assert (length pre = STUN_HEADER_SIZE + (4 + p) + 8 + 12)%nat as Hpre.
  { unfold pre. rewrite !length_app, Hh, Hul by done. cbn. lia. }
  assert (length rest = length buf - (STUN_HEADER_SIZE + (4 + p) + 8 + 12))%nat as Hrest.
  { unfold rest. rewrite !length_drop. cbn [length be32 be64 app]. lia. }
  assert (drop (32 + (if uc then 4 else 0)) rest = drop (STUN_HEADER_SIZE + (4 + p) + 8 + 12 + (if uc then 4 else 0) + 24 + 8) buf)
    as Hdrop by (unfold rest; rewrite !drop_drop; f_equal; cbn [length be32 be64 app]; lia).
  assert (stun_header STUN_BINDING_REQUEST 0 txid ++ attrs_bytes avs =
          pre ++ (if uc then be16 STUN_ATTR_USE_CANDIDATE ++ be16 0 else [])) as Hmsg.
  { unfold avs, pre. rewrite request_attrs_bytes. by rewrite <- !app_assoc. }
  rewrite <- Hdrop, <- Hml. destruct uc.
  - rewrite write_attr_hdr_app, bind_Ok by lia. rewrite <- Hmsg, <- app_assoc.
    replace (STUN_HEADER_SIZE + (4 + p) + 8 + 12 + 4)%nat with (STUN_HEADER_SIZE + length (attrs_bytes avs))%nat by lia.
    rewrite append_spec by (rewrite ?length_drop; first [done | lia | mach]). by rewrite drop_drop.
  - rewrite bind_Ok. rewrite app_nil_r in Hmsg. rewrite <- Hmsg, <- app_assoc.
    replace (STUN_HEADER_SIZE + (4 + p) + 8 + 12)%nat with (STUN_HEADER_SIZE + length (attrs_bytes avs))%nat by lia.
    by rewrite append_spec by (first [done | lia | mach]).
Qed.

(** The XOR-MAPPED-ADDRESS value of an address. *)
Definition xor_value (txid src : list Z) (family port : Z) : list Z :=
  [0; family] ++ be16 (Z.lxor port (u16 (Z.shiftr STUN_MAGIC_COOKIE 16))) ++
  (if family =? STUN_FAMILY_IPV4
   then be32 (Z.lxor (val32 (nth 0 src 0) (nth 1 src 0) (nth 2 src 0) (nth 3 src 0)) STUN_MAGIC_COOKIE)
   else zip_with Z.lxor (take 16 src) (xor_mask txid)).
Definition addr_size (family : Z) : nat := if family =? STUN_FAMILY_IPV4 then 4 else 16.
Definition family_ok (family : Z) : Prop := family = STUN_FAMILY_IPV4 \/ family = STUN_FAMILY_IPV6.

Lemma xor_mask_length txid : length txid = STUN_TXID_SIZE -> length (xor_mask txid) = 16%nat.
Proof. intros Ht. unfold xor_mask. by rewrite length_app, Ht. Qed.
Lemma xor_value_length txid src family port :
  length txid = STUN_TXID_SIZE -> family_ok family -> (addr_size family <= length src)%nat ->
  length (xor_value txid src family port) = (4 + addr_size family)%nat.
Proof.
  intros Ht [-> | ->] Hs; [done|]. unfold xor_value. cbn -[take xor_mask]. rewrite length_zip_with, length_take, xor_mask_length by done.
  unfold addr_size in Hs. cbn in Hs. lia.
Qed.
Lemma xor_octets_16 src txid :
  length txid = STUN_TXID_SIZE -> (16 <= length src)%nat ->
  xor_octets 16 0 src (xor_mask txid) = Ok (zip_with Z.lxor (take 16 src) (xor_mask txid)).
Proof.
  intros Ht Hs. destruct (xor_octets_Ok 16 0 src (xor_mask txid)) as (r & -> & _ & ->);
    [lia | by rewrite xor_mask_length|]. rewrite !drop_0. by rewrite (take_ge (xor_mask txid)) by (by rewrite xor_mask_length).
Qed.
Lemma zip_lxor_involutive a m : length a = length m -> zip_with Z.lxor (zip_with Z.lxor a m) m = a.
Proof.
  revert m. induction a as [|x a IH]; intros [|y m] Hl; try done. cbn. rewrite IH by (cbn in Hl; lia). f_equal.
  by rewrite Z.lxor_assoc, Z.lxor_nilpotent, Z.lxor_0_r.
Qed.
Lemma zip_lxor_bytes a m : bytes a -> bytes m -> bytes (zip_with Z.lxor a m).
Proof.
  intros Ha. revert m. induction Ha as [|x a Hx Ha IH]; intros [|y m] Hm; cbn; try done.
  apply Forall_cons_iff in Hm as [Hy Hm]. apply List.Forall_cons; [by apply lxor_bounded | by apply IH].
Qed.

(** Decoding undoes the XOR, for both families. *)
Lemma decode_xor_value txid src family port out :
  length txid = STUN_TXID_SIZE -> family_ok family -> bytes src -> (addr_size family <= length src)%nat -> is_u16 port ->
  length (sa_addr out) = STUN_ADDR_SIZE ->
  stun_decode_xor_addr (xor_value txid src family port) txid out =
  Ok (StunAddr (take (addr_size family) src ++ drop (addr_size family) (sa_addr out)) port family).
Proof.
  intros Ht Hf Hsrc Hs Hp Ho. unfold STUN_ADDR_SIZE in Ho. unfold stun_decode_xor_addr.
  rewrite xor_value_length by done. rewrite (proj2 (Nat.ltb_ge _ _)) by (unfold addr_size; destruct (_ =? _); lia).
  assert (rd8 (xor_value txid src family port) 1 = Ok family) as -> by done. rewrite bind_Ok.
  assert (nanortc_read_u16be (xor_value txid src family port) 2 = Ok (Z.lxor port (u16 (Z.shiftr STUN_MAGIC_COOKIE 16)))) as Hport.
  { unfold xor_value. rewrite read_u16be_app by done. rewrite u16_id; [done|]. by apply lxor_bounded. }
  assert (Z.lxor (Z.lxor port (u16 (Z.shiftr STUN_MAGIC_COOKIE 16))) (u16 (Z.shiftr STUN_MAGIC_COOKIE 16)) = port) as Hx.
  { by rewrite Z.lxor_assoc, Z.lxor_nilpotent, Z.lxor_0_r. }
  destruct Hf as [-> | ->]; cbn [Z.eqb STUN_FAMILY_IPV4 STUN_FAMILY_IPV6 Pos.eqb]; rewrite Hport, bind_Ok.
  - assert (is_u32 (val32 (nth 0 src 0) (nth 1 src 0) (nth 2 src 0) (nth 3 src 0))) as Ha by (apply val32_range; auto with mach).
    set (a := val32 _ _ _ _) in *.
    assert (nanortc_read_u32be (xor_value txid src STUN_FAMILY_IPV4 port) 4 = Ok (Z.lxor a STUN_MAGIC_COOKIE)) as ->.
    { unfold xor_value. rewrite Z.eqb_refl, app_assoc, <- (app_nil_r (be32 _)). rewrite read_u32be_app by done. fold a. rewrite u32_id; [done|]. by apply lxor_bounded. }
    rewrite bind_Ok, Hx, (Z.lxor_assoc a), Z.lxor_nilpotent, Z.lxor_0_r. rewrite wr_0 by (rewrite Ho; cbn; lia). rewrite bind_Ok.
    do 3 f_equal. unfold a. destruct src as [|s0 [|s1 [|s2 [|s3 src]]]]; cbn in Hs; try lia.
    apply Forall_cons_iff in Hsrc as [H0 Hsrc]. apply Forall_cons_iff in Hsrc as [H1 Hsrc].
    apply Forall_cons_iff in Hsrc as [H2 Hsrc]. apply Forall_cons_iff in Hsrc as [H3 _]. cbn.
    unfold be32, val32. rewrite !Z.shiftr_div_pow2 by lia. change (2 ^ 24) with 16777216. f_equal. 2: f_equal. 3: f_equal. 4: f_equal. all: mach.
  - cbn in Hs. change (4 + addr_size STUN_FAMILY_IPV6 <? 20)%nat with false. cbn [addr_size Z.eqb STUN_FAMILY_IPV4 STUN_FAMILY_IPV6 Pos.eqb].
    assert (rdn (xor_value txid src STUN_FAMILY_IPV6 port) 4 16 = Ok (zip_with Z.lxor (take 16 src) (xor_mask txid))) as ->.
    { unfold xor_value. cbn [Z.eqb STUN_FAMILY_IPV4 STUN_FAMILY_IPV6 Pos.eqb].
      rewrite app_assoc, <- (app_nil_r (zip_with _ _ _)), rdn_mid; [by rewrite app_nil_r | done |]. rewrite length_zip_with, length_take, xor_mask_length by done. lia. }
    rewrite bind_Ok, xor_octets_16 by (rewrite ?length_zip_with, ?length_take, ?xor_mask_length by done; first [done | lia]).
    rewrite bind_Ok, (take_ge (zip_with _ _ _)) by (rewrite length_zip_with, length_take, xor_mask_length by done; lia).
    rewrite zip_lxor_involutive by (rewrite length_take, xor_mask_length by done; lia).
    rewrite wr_0 by (rewrite length_take; lia). rewrite bind_Ok, Hx, length_take. do 4 f_equal. lia.
Qed.

Definition response_attrs (txid src : list Z) (family port : Z) : list (Z * list Z) :=
  [(STUN_ATTR_XOR_MAPPED_ADDRESS, xor_value txid src family port)].
Lemma response_attrs_bytes txid src family port :
  length txid = STUN_TXID_SIZE -> family_ok family -> (addr_size family <= length src)%nat ->
  attrs_bytes (response_attrs txid src family port) =
  be16 STUN_ATTR_XOR_MAPPED_ADDRESS ++ be16 (4 + Z.of_nat (addr_size family)) ++ xor_value txid src family port.
Proof.
  intros Ht Hf Hs. pose proof (xor_value_length txid src family port Ht Hf Hs) as Hl.
  unfold response_attrs. rewrite attrs_bytes_cons. cbn [attrs_bytes map concat fst snd]. rewrite app_nil_r.
  rewrite (attr_bytes_aligned _ _ (1 + addr_size family / 4)) by (rewrite Hl; destruct Hf as [-> | ->]; done).
  rewrite Hl. do 3 f_equal. lia.
Qed.

(** The five stores of the XOR-MAPPED-ADDRESS attribute. *)
Lemma write_xor_mapped pre rest pos len family port addr (k : list Z -> res (list Z * nat)) :
  pos = length pre -> (8 + length addr <= length rest)%nat ->
  (buf ← write_attr_hdr (pre ++ rest) pos STUN_ATTR_XOR_MAPPED_ADDRESS len;
   buf ← wr buf (pos + 4) [0]; buf ← wr buf (pos + 5) [family]; buf ← nanortc_write_u16be buf (pos + 6) port;
   buf ← wr buf (pos + 8) addr; k buf) =
  k ((pre ++ be16 STUN_ATTR_XOR_MAPPED_ADDRESS ++ be16 len ++ [0; family] ++ be16 port ++ addr) ++ drop (8 + length addr) rest).
Proof.
  intros -> Hr. rewrite write_attr_hdr_app, bind_Ok by (first [done | lia]). unfold nanortc_write_u16be.
  do 3 rewrite wr_then by (cbn [length app be16]; lia).
  rewrite wr_append by (rewrite ?length_app, ?length_drop; cbn; lia). rewrite bind_Ok, drop_drop, !length_app, <- !app_assoc.
  cbn [length be16 app]. done.
Qed.

Lemma encode_binding_response_spec txid src family port key buf :
  length txid = STUN_TXID_SIZE -> family_ok family -> bytes src -> (addr_size family <= length src)%nat ->
  let msg := signed_message STUN_BINDING_RESPONSE txid key (response_attrs txid src family port) in
  stun_encode_binding_response hmac_sha1 txid src family port key buf =
  if (length buf <? 76)%nat then Err NANORTC_ERR_BUFFER_TOO_SMALL
  else Ok (msg ++ drop (length msg) buf, length msg).
Proof using hmac_length.
  intros Ht Hf Hsrc Hs msg. pose proof (stun_header_length STUN_BINDING_RESPONSE) as Hh.
  assert (length (attrs_bytes (response_attrs txid src family port)) = 8 + addr_size family)%nat as Hal.
  { rewrite response_attrs_bytes by done. rewrite !length_app, xor_value_length by done. cbn. lia. }
  assert (length msg = STUN_HEADER_SIZE + 40 + addr_size family)%nat as Hml.
  { unfold msg, signed_message. cbv zeta. rewrite length_app, Hh, signed_length, Hal by done. lia. }
  unfold stun_encode_binding_response. destruct (Nat.ltb_spec (length buf) 76) as [|Hroom]; [done|].
  rewrite write_stun_header_Ok, bind_Ok by (first [done | unfold STUN_HEADER_SIZE; lia]). cbv zeta.
  set (xport := Z.lxor port _).
  assert (forall len addr, xor_value txid src family port = [0; family] ++ be16 xport ++ addr ->
    len = 4 + Z.of_nat (addr_size family) -> length addr = addr_size family ->
    append_integrity_fingerprint hmac_sha1
      ((stun_header STUN_BINDING_RESPONSE 0 txid ++ be16 STUN_ATTR_XOR_MAPPED_ADDRESS ++ be16 len ++ [0; family] ++ be16 xport ++ addr) ++
       drop (8 + length addr) (drop STUN_HEADER_SIZE buf)) (STUN_HEADER_SIZE + (8 + addr_size family)) key =
    Ok (msg ++ drop (length msg) buf, length msg)) as Happend.
  { intros len addr Hx -> Hl. rewrite <- Hx, <- response_attrs_bytes, <- Hal, <- app_assoc by done.
    assert (addr_size family <= 16)%nat by (destruct Hf as [-> | ->]; cbn; lia).
    rewrite append_spec by (rewrite ?Hal, ?length_drop, ?Hl; first [done | unfold STUN_HEADER_SIZE; lia]).
    fold msg. rewrite !drop_drop. do 4 f_equal. rewrite Hml, Hl. lia. }
  assert (forall len addr (k : list Z -> res (list Z * nat)), (length addr <= 16)%nat ->
    (buf ← write_attr_hdr (stun_header STUN_BINDING_RESPONSE 0 txid ++ drop STUN_HEADER_SIZE buf) STUN_HEADER_SIZE STUN_ATTR_XOR_MAPPED_ADDRESS len;
     buf ← wr buf (STUN_HEADER_SIZE + 4) [0]; buf ← wr buf (STUN_HEADER_SIZE + 5) [family];
     buf ← nanortc_write_u16be buf (STUN_HEADER_SIZE + 6) xport; buf ← wr buf (STUN_HEADER_SIZE + 8) addr; k buf) =
    k ((stun_header STUN_BINDING_RESPONSE 0 txid ++ be16 STUN_ATTR_XOR_MAPPED_ADDRESS ++ be16 len ++ [0; family] ++ be16 xport ++ addr) ++
       drop (8 + length addr) (drop STUN_HEADER_SIZE buf))) as Hwrite.
  { intros len addr k Hl. rewrite write_xor_mapped; [done | by rewrite Hh | rewrite length_drop; unfold STUN_HEADER_SIZE; lia]. }
  destruct Hf as [-> | ->]; cbn [Z.eqb STUN_FAMILY_IPV4 STUN_FAMILY_IPV6 Pos.eqb] in *.
  - cbn in Hs. rewrite read_u32be_Ok by (first [done | lia]).
    refine (eq_trans (Hwrite 8 (be32 _) _ _) _); [cbn; lia|]. by apply Happend.
  - cbn in Hs. rewrite xor_octets_16 by done.
    assert (length (zip_with Z.lxor (take 16 src) (xor_mask txid)) = 16)%nat as Hz
      by (rewrite length_zip_with, length_take, xor_mask_length by done; lia).
    refine (eq_trans (Hwrite 20 _ _ _) _); [lia|]. by apply Happend.
Qed.

Lemma be64_bytes v : bytes (be64 v).
Proof. apply Forall_app_2; apply be32_bytes. Qed.
Lemma request_attrs_ok username priority (uc c : bool) tb :
  bytes username -> is_u16 (Z.of_nat (length username)) -> Forall attr_ok (request_attrs username priority uc c tb).
Proof.
  intros Hb Hl. apply Forall_app_2.
  - repeat (apply List.Forall_cons; [split_and!; cbn [fst snd]; try done; try (by destruct c); auto using be32_bytes, be64_bytes|]). done.
  - destruct uc; [|done]. by repeat constructor.
Qed.
Lemma request_attrs_walk username priority (uc c : bool) tb m :
  is_u32 priority -> is_u64 tb ->
  stun_attrs (request_attrs username priority uc c tb) STUN_HEADER_SIZE m false false =
  Ok (let m := set_priority (set_username m (Some username)) priority in
      let m := if c then set_controlling m (Some tb) else set_controlled m (Some tb) in
      if uc then set_use_candidate m true else m, false, false).
Proof.
  intros Hp Ht. unfold request_attrs. cbn [app stun_attrs andb orb].
  change (stun_attr STUN_ATTR_USERNAME username _ m) with (Ok (set_username m (Some username), false, false)).
  rewrite bind_Ok. cbn [andb orb]. rewrite stun_attr_priority, bind_Ok by done. cbn [andb orb].
  rewrite stun_attr_role, bind_Ok by done. cbn [andb orb]. destruct uc; [|done]. cbn [stun_attrs andb orb]. by destruct c.
Qed.

(** A binding request [stun_encode_binding_request] writes is refused exactly
    when it does not fit the buffer and otherwise is exactly a message whose
    fingerprint verifies, that the parser reads back to the same transaction
    id, user name, priority, role, tie breaker and nomination flag, and whose
    integrity verifies under a key exactly when that key gives the same MAC of
    the covered octets. *)
Theorem stun_binding_request_roundtrip (username : list Z) (priority : Z) (use_candidate is_controlling : bool)
    (tie_breaker : Z) (txid key buf : list Z) :
  bytes username -> (length username <= 476)%nat -> is_u32 priority -> is_u64 tie_breaker ->
  length txid = STUN_TXID_SIZE -> bytes txid ->
  exists msg covered m,
    stun_encode_binding_request hmac_sha1 username priority use_candidate is_controlling tie_breaker txid key buf =
      (if (length buf <? length msg)%nat then Err NANORTC_ERR_BUFFER_TOO_SMALL
       else Ok (msg ++ drop (length msg) buf, length msg)) /\
    stun_verify_fingerprint msg = Ok NANORTC_OK /\
    stun_parse msg = Ok m /\
    (m_type m = STUN_BINDING_REQUEST /\ m_txid m = txid /\ m_username m = Some username /\ m_priority m = priority /\
     m_use_candidate m = use_candidate /\
     m_controlling m = (if is_controlling then Some tie_breaker else None) /\
     m_controlled m = (if is_controlling then None else Some tie_breaker)) /\
    forall key', stun_verify_integrity hmac_sha1 msg m key' =
      Ok (if bool_decide (hmac_sha1 key' covered = hmac_sha1 key covered) then NANORTC_OK else NANORTC_ERR_PROTOCOL).
Proof using hmac_length hmac_bytes.
  intros Hub Hul Hp Htb Ht Htxb. assert (is_u16 (Z.of_nat (length username))) as Hu by mach.
  set (avs := request_attrs username priority use_candidate is_controlling tie_breaker).
  assert (length (attrs_bytes avs) <= 504)%nat as Hlen.
  { unfold avs. rewrite request_attrs_bytes, !length_app, attr_bytes_length, attr_padded_eq, Nat2Z.id by done.
    pose proof (Nat.Div0.div_le_mono (length username + 3) 479 4 ltac:(lia)) as Hd. change (479 / 4)%nat with 119%nat in Hd.
    destruct use_candidate; cbn [length be16 be32 be64 app]; lia. }
  exists (signed_message STUN_BINDING_REQUEST txid key avs),
    (stun_header STUN_BINDING_REQUEST (Z.of_nat (length (attrs_bytes avs)) + 24) txid ++ attrs_bytes avs).
  eexists. split; [apply encode_binding_request_spec; [done|mach]|].
  split; [apply verify_fingerprint_signed; first [done | apply request_attrs_ok; done | lia]|].
  split; [apply stun_parse_signed; [done | done | done | done | by apply request_attrs_ok | lia | by apply request_attrs_walk]|].
  split; [destruct is_controlling, use_candidate; done|]. intros key'. apply verify_integrity_signed; [done | lia |].
  by destruct is_controlling, use_candidate.
Qed.

Lemma response_attrs_walk txid src family port len :
  length txid = STUN_TXID_SIZE -> family_ok family -> bytes src -> (addr_size family <= length src)%nat -> is_u16 port ->
  let m := stun_msg_init STUN_BINDING_RESPONSE len txid in
  stun_attrs (response_attrs txid src family port) STUN_HEADER_SIZE m false false =
  Ok (set_mapped m (StunAddr (take (addr_size family) src ++ replicate (16 - addr_size family) 0) port family), false, false).
Proof.
  intros Ht Hf Hb Hs Hp m. unfold response_attrs. cbn [stun_attrs andb orb]. set (val := xor_value _ _ _ _).
  change (stun_attr _ val _ m) with (a ← attr_addr val (m_txid m) (m_mapped m); Ok (set_mapped m a, false, false)).
  unfold attr_addr, val. rewrite (decode_xor_value _ _ _ _ (m_mapped m)) by done. rewrite !bind_Ok. cbn [orb]. do 4 f_equal.
  cbn [m_mapped m stun_msg_init no_addr sa_addr]. by rewrite drop_replicate.
Qed.

(** A binding response [stun_encode_binding_response] writes for an IPv4 or IPv6
    address is refused exactly below 76 octets of room and otherwise is exactly
    a message whose fingerprint verifies, that the parser reads back to the
    same transaction id, address, port and family, and whose integrity verifies
    under a key exactly when that key gives the same MAC; every other family is
    refused. *)
Theorem stun_binding_response_roundtrip (txid src : list Z) (family port : Z) (key buf : list Z) :
  length txid = STUN_TXID_SIZE -> bytes txid -> bytes src -> (addr_size family <= length src)%nat -> is_u16 port ->
  if bool_decide (family_ok family) then
    exists msg covered m,
      stun_encode_binding_response hmac_sha1 txid src family port key buf =
        (if (length buf <? 76)%nat then Err NANORTC_ERR_BUFFER_TOO_SMALL
         else Ok (msg ++ drop (length msg) buf, length msg)) /\
      (length msg <= 76)%nat /\ stun_verify_fingerprint msg = Ok NANORTC_OK /\ stun_parse msg = Ok m /\
      (m_type m = STUN_BINDING_RESPONSE /\ m_txid m = txid /\
       m_mapped m = StunAddr (take (addr_size family) src ++ replicate (16 - addr_size family) 0) port family) /\
      forall key', stun_verify_integrity hmac_sha1 msg m key' =
        Ok (if bool_decide (hmac_sha1 key' covered = hmac_sha1 key covered) then NANORTC_OK else NANORTC_ERR_PROTOCOL)
  else stun_encode_binding_response hmac_sha1 txid src family port key buf =
       Err (if (length buf <? 76)%nat then NANORTC_ERR_BUFFER_TOO_SMALL else NANORTC_ERR_INVALID_PARAM).
Proof using hmac_length hmac_bytes.
  intros Ht Htb Hb Hs Hp. destruct (bool_decide_reflect (family_ok family)) as [Hf|Hf].
  - set (avs := response_attrs txid src family port).
    assert (length (attrs_bytes avs) = 8 + addr_size family)%nat as Hlen.
    { unfold avs. rewrite response_attrs_bytes by done. rewrite !length_app, xor_value_length by done. cbn. lia. }
    assert (addr_size family <= 16)%nat by (destruct Hf as [-> | ->]; cbn; lia).
    assert (Forall attr_ok avs) as Hok.
    { apply List.Forall_cons; [|done]. split_and!; cbn [fst snd]; [done | rewrite xor_value_length by done; mach|].
      unfold xor_value. repeat apply Forall_app_2; [destruct Hf as [-> | ->]; by (repeat apply List.Forall_cons) | apply be16_bytes |].
      destruct (_ =? _); [apply be32_bytes|]. apply zip_lxor_bytes; [by apply Forall_take|].
      apply Forall_app_2; [apply be32_bytes | done]. }
    exists (signed_message STUN_BINDING_RESPONSE txid key avs),
      (stun_header STUN_BINDING_RESPONSE (Z.of_nat (length (attrs_bytes avs)) + 24) txid ++ attrs_bytes avs).
    eexists. split; [by apply encode_binding_response_spec|].
    split; [unfold signed_message; cbv zeta; rewrite length_app, stun_header_length, signed_length by done; unfold STUN_HEADER_SIZE; lia|].
    split; [apply verify_fingerprint_signed; first [done | lia]|].
    split; [apply stun_parse_signed; [done | done | done | done | done | lia | by apply response_attrs_walk]|].
    split; [done|]. intros key'. apply verify_integrity_signed; [done | lia | done].
  - unfold stun_encode_binding_response. destruct (Nat.ltb_spec (length buf) 76); [done|].
    rewrite write_stun_header_Ok, bind_Ok by (first [done | unfold STUN_HEADER_SIZE; lia]).
    unfold family_ok in Hf. destruct (Z.eqb_spec family STUN_FAMILY_IPV4); [tauto|].
    destruct (Z.eqb_spec family STUN_FAMILY_IPV6); [tauto|]. done.
Qed.
End Signed.

(** * What the MAC covers *)

(** Everything the parser reports but the length field and the fingerprint. *)
Definition core (m : stun_msg) : stun_msg :=
  StunMsg (m_type m) 0 (m_txid m) (m_username m) (m_priority m) (m_use_candidate m) None (m_integrity m) (m_mapped m)
    (m_controlling m) (m_controlled m) (m_error_code m) (m_lifetime m) (m_relayed m) (m_data m) (m_realm m) (m_nonce m)
    (m_peer m) (m_channel m).
(** The octets [stun_verify_integrity] feeds to the MAC. *)
Definition mac_input (data : list Z) (off : Z) : list Z :=
  take 2 data ++ be16 (u16 (off - Z.of_nat STUN_HEADER_SIZE + 24)) ++ drop 4 (take (Z.to_nat off) data).

(** One attribute changes cores alike. *)
Lemma core_fields m m' : core m = core m' ->
  m_txid m = m_txid m' /\ m_mapped m = m_mapped m' /\ m_relayed m = m_relayed m' /\ m_peer m = m_peer m' /\ m_integrity m = m_integrity m'.
Proof. destruct m, m'. by intros [=]. Qed.
Lemma stun_attr_core ty val pos m1 m2 r1 mi1 fp1 r2 mi2 fp2 :
  core m1 = core m2 -> stun_attr ty val pos m1 = Ok (r1, mi1, fp1) -> stun_attr ty val pos m2 = Ok (r2, mi2, fp2) ->
  core r1 = core r2 /\ mi1 = mi2 /\ fp1 = fp2.
Proof.
  intros Hc. destruct (core_fields _ _ Hc) as (Ht & Hm & Hr & Hp & _). unfold stun_attr. rewrite Ht, Hm, Hr, Hp.
  intros H1 H2.
  repeat match type of H1 with (if ?b then _ else _) = _ => destruct b end; try discriminate H1;
    repeat match goal with
    | H : (if ?b then _ else _) = Ok _ |- _ => destruct b; [done|]
    | H : mbind _ _ = Ok _ |- _ => bind_inv H
    | H : Ok _ = Ok _ |- _ => injection H; clear H; intros; subst
    | H1 : ?x = Ok ?a, H2 : ?x = Ok ?b |- _ => rewrite H1 in H2; injection H2; clear H2; intros; subst
    end; (split; [|done]);
    match goal with
    | |- core (set_fingerprint _ _) = _ => exact Hc
    | |- core (?s m1 ?v) = core (?s m2 ?v) => exact (f_equal (fun m => s m v) Hc)
    | |- _ => exact Hc
    end.
Qed.

(** After MESSAGE-INTEGRITY only the fingerprint can change. *)
Lemma stun_attr_fp_core val pos m r mi fp :
  stun_attr STUN_ATTR_FINGERPRINT val pos m = Ok (r, mi, fp) -> core r = core m /\ mi = false.
Proof.
  change (stun_attr _ val pos m) with (v ← attr_u32 val; Ok (set_fingerprint m (Some v), false, true)).
  intros H. bind_inv H. by injection H as <- <- <-.
Qed.
Lemma stun_walk_after data fuel pos m afp r : stun_walk fuel data pos m true afp = Ok r -> core r = core m.
Proof.
  revert pos m afp. induction fuel as [|fuel IH]; intros pos m afp; cbn [stun_walk]; cbv zeta.
  { destruct (_ <=? _)%nat; [done|]. by intros [= ->]. }
  destruct (_ <=? _)%nat; [|by intros [= ->]]. intros H. bind_inv H. bind_inv H.
  destruct (_ <? _)%nat; [done|]. destruct afp; [done|]. cbn [andb orb] in H.
  destruct (Z.eqb_spec x STUN_ATTR_FINGERPRINT) as [->|]; cbn [negb] in H; [|by eapply IH].
  bind_inv H. apply bind_Ok_inv in H as ([[m' mi] fp] & Hat & H). apply stun_attr_fp_core in Hat as [Hc ->].
  apply IH in H. congruence.
Qed.

(** An attribute before MESSAGE-INTEGRITY leaves no MAC position, and
    MESSAGE-INTEGRITY leaves its own. *)
Lemma stun_attr_integrity ty val pos m r mi fp :
  stun_attr ty val pos m = Ok (r, mi, fp) ->
  if ty =? STUN_ATTR_MESSAGE_INTEGRITY
  then mi = true /\ r = set_integrity m (Some (u16 (Z.of_nat pos)))
  else mi = false /\ m_integrity r = m_integrity m.
Proof.
  intros H. destruct (Z.eqb_spec ty STUN_ATTR_MESSAGE_INTEGRITY) as [->|Hne].
  - unfold stun_attr in H. cbn in H. destruct (negb _); [done|]. by injection H as <- <- <-.
  - unfold stun_attr in H.
    repeat match type of H with (if ?b then _ else _) = _ => let E := fresh "E" in destruct b eqn:E end;
      repeat match goal with
      | H : (if ?b then _ else _) = Ok _ |- _ => destruct b; [done|]
      | H : mbind _ _ = Ok _ |- _ => bind_inv H
      | H : Ok _ = Ok _ |- _ => injection H; clear H; intros; subst
      end; try done; by apply Z.eqb_eq in E9.
Qed.

Lemma core_integrity m m' : core m = core m' -> m_integrity m = m_integrity m'.
Proof. by intros (_ & _ & _ & _ & ?)%core_fields. Qed.

(** One iteration of the walk that goes past the attribute at [pos]. *)
Lemma stun_walk_inv fuel data pos m afp r :
  stun_walk (S fuel) data pos m false afp = Ok r -> (pos + 4 <= length data)%nat ->
  exists ty alen m' mi fp,
    nanortc_read_u16be data pos = Ok ty /\ nanortc_read_u16be data (pos + 2) = Ok alen /\
    (pos + 4 + attr_padded alen <= length data)%nat /\ afp = false /\ is_u16 alen /\
    stun_attr ty (take (Z.to_nat alen) (drop (pos + 4) data)) pos m = Ok (m', mi, fp) /\
    stun_walk fuel data (pos + (4 + attr_padded alen)) m' mi fp = Ok r.
Proof.
  cbn [stun_walk]. cbv zeta. intros H Hpos. rewrite (proj2 (Nat.leb_le _ _) Hpos) in H.
  bind_inv H. bind_inv H. destruct (Nat.ltb_spec (length data) (pos + 4 + attr_padded x0)); [done|].
  destruct afp; [done|]. cbn [andb orb] in H. bind_inv H. apply rdn_inv in Hx1 as [_ ->].
  apply bind_Ok_inv in H as ([[m' mi] fp] & Hat & H). exists x, x0, m', mi, fp. split_and!; try done.
  by apply (read_u16be_range _ _ _ Hx0).
Qed.
Lemma stun_walk_end fuel data pos m ami afp r :
  (length data < pos + 4)%nat -> stun_walk fuel data pos m ami afp = Ok r -> r = m.
Proof. intros Hl. destruct fuel; cbn [stun_walk]; cbv zeta; rewrite (proj2 (Nat.leb_gt _ _)) by lia; by intros [= ->]. Qed.

(** The position of MESSAGE-INTEGRITY is not before the walk's. *)
Lemma stun_walk_integrity fuel data pos m afp r off :
  Z.of_nat (length data) <= 65535 -> m_integrity m = None -> stun_walk fuel data pos m false afp = Ok r ->
  m_integrity r = Some off -> (pos <= Z.to_nat off)%nat /\ (Z.to_nat off + 4 <= length data)%nat.
Proof.
  intros Hl. revert pos m afp. induction fuel as [|fuel IH]; intros pos m afp Hm Hw Hr;
    (destruct (le_lt_dec (pos + 4) (length data)) as [Hpos|Hpos]; [|apply stun_walk_end in Hw as ->; [congruence|done]]).
  { cbn [stun_walk] in Hw. cbv zeta in Hw. by rewrite (proj2 (Nat.leb_le _ _) Hpos) in Hw. }
  apply stun_walk_inv in Hw as (ty & alen & m' & mi & fp & _ & _ & Hpad & -> & _ & Hat & Hw); [|done].
  apply stun_attr_integrity in Hat. destruct (ty =? _); destruct Hat as [-> Hat].
  - apply stun_walk_after, core_integrity in Hw. rewrite Hr, Hat in Hw. cbn [m_integrity set_integrity] in Hw. injection Hw as ->.
    rewrite u16_id by mach. lia.
  - apply IH in Hw; [lia | congruence | done].
Qed.

(** Two walks over the same covered octets report the same. *)
Lemma stun_walk_covered f1 f2 d1 d2 pos m1 m2 afp r1 r2 off :
  Z.of_nat (length d1) <= 65535 -> Z.of_nat (length d2) <= 65535 -> (4 <= pos)%nat ->
  (forall i, (4 <= i < Z.to_nat off)%nat -> d1 !! i = d2 !! i) ->
  core m1 = core m2 -> m_integrity m1 = None ->
  stun_walk f1 d1 pos m1 false afp = Ok r1 -> stun_walk f2 d2 pos m2 false afp = Ok r2 ->
  m_integrity r1 = Some off -> m_integrity r2 = Some off -> core r1 = core r2.
Proof.
  intros Hl1 Hl2 Hpos Hd. revert f2 pos m1 m2 afp Hpos. induction f1 as [|f1 IH]; intros f2 pos m1 m2 afp Hpos Hc Hm1 Hw1 Hw2 Hr1 Hr2;
    pose proof (core_integrity _ _ Hc) as Hm2; rewrite Hm1 in Hm2; symmetry in Hm2;
    pose proof (stun_walk_integrity _ _ _ _ _ _ _ Hl1 Hm1 Hw1 Hr1) as [Hoff1 Hlen1];
    pose proof (stun_walk_integrity _ _ _ _ _ _ _ Hl2 Hm2 Hw2 Hr2) as [Hoff2 Hlen2].
  { cbn [stun_walk] in Hw1. cbv zeta in Hw1. by rewrite (proj2 (Nat.leb_le _ _)) in Hw1 by lia. }
  destruct f2 as [|f2]. { cbn [stun_walk] in Hw2. cbv zeta in Hw2. by rewrite (proj2 (Nat.leb_le _ _)) in Hw2 by lia. }
  apply stun_walk_inv in Hw1 as (ty1 & al1 & n1 & mi1 & fp1 & Hty1 & Hal1 & Hp1 & -> & Hu1 & Hat1 & Hw1); [|lia].
  apply stun_walk_inv in Hw2 as (ty2 & al2 & n2 & mi2 & fp2 & Hty2 & Hal2 & Hp2 & _ & Hu2 & Hat2 & Hw2); [|lia].
  pose proof (stun_attr_integrity _ _ _ _ _ _ _ Hat1) as Hi1. pose proof (stun_attr_integrity _ _ _ _ _ _ _ Hat2) as Hi2.
  destruct (Z.eqb_spec ty1 STUN_ATTR_MESSAGE_INTEGRITY) as [->|Hn1]; destruct Hi1 as [-> Hi1];
    (destruct (Z.eqb_spec ty2 STUN_ATTR_MESSAGE_INTEGRITY) as [->|Hn2]; destruct Hi2 as [-> Hi2]).
  - apply stun_walk_after in Hw1, Hw2. rewrite Hw1, Hw2, Hi1, Hi2. exact (f_equal (fun m => set_integrity m _) Hc).
  - apply stun_walk_integrity with (off := off) in Hw2; [|done | congruence | done].
    apply stun_walk_after, core_integrity in Hw1. rewrite Hr1, Hi1 in Hw1. cbn in Hw1. injection Hw1 as ->.
    rewrite u16_id in Hw2 by mach. lia.
  - apply stun_walk_integrity with (off := off) in Hw1; [|done | congruence | done].
    apply stun_walk_after, core_integrity in Hw2. rewrite Hr2, Hi2 in Hw2. cbn in Hw2. injection Hw2 as ->.
    rewrite u16_id in Hw1 by mach. lia.
  - pose proof Hw1 as Ho1. apply stun_walk_integrity with (off := off) in Ho1; [|done | congruence | done].
    assert (forall i, (i = pos \/ i = pos + 2)%nat -> nanortc_read_u16be d1 i = nanortc_read_u16be d2 i) as Hread.
    { intros i Hi. unfold nanortc_read_u16be, rd8. rewrite !Hd by lia. done. }
    rewrite Hread in Hty1, Hal1 by tauto. rewrite Hty1 in Hty2. rewrite Hal1 in Hal2. injection Hty2 as ->. injection Hal2 as ->.
    assert (take (Z.to_nat al2) (drop (pos + 4) d1) = take (Z.to_nat al2) (drop (pos + 4) d2)) as Hv.
    { pose proof (attr_padded_ge _ Hu2). apply list_eq. intros i. destruct (le_lt_dec (Z.to_nat al2) i).
      - by rewrite !lookup_take_ge by lia.
      - rewrite !lookup_take_lt, !lookup_drop by lia. apply Hd. lia. }
    rewrite Hv in Hat1. pose proof (stun_attr_core _ _ _ _ _ _ _ _ _ _ _ Hc Hat1 Hat2) as (Hc' & _ & ->).
    eapply (IH _ _ _ _ _ _ Hc'); [congruence | done..]. Unshelve. lia.
Qed.

Lemma verify_integrity_inv hmac data m key off :
  m_integrity m = Some off -> (STUN_HEADER_SIZE <= Z.to_nat off)%nat ->
  stun_verify_integrity hmac data m key = Ok NANORTC_OK ->
  (Z.to_nat off + 24 <= length data)%nat /\ hmac key (mac_input data off) = take 20 (drop (Z.to_nat off + 4) data).
Proof.
  unfold STUN_HEADER_SIZE. intros Hm Hoff. unfold stun_verify_integrity. rewrite Hm. cbv zeta.
  destruct (Nat.ltb_spec (length data) (Z.to_nat off + 24)); [done|].
  destruct (Nat.ltb_spec STUN_COPY_SIZE (Z.to_nat off)) as [|Hc]; [done|]. set (al := u16 _).
  rewrite (rdn_Ok data 0) by lia. rewrite bind_Ok, drop_0. set (n := Z.to_nat off) in *.
  rewrite wr_0 by (rewrite length_replicate, length_take; lia). rewrite bind_Ok.
  assert (take n data = take 2 data ++ take 2 (drop 2 data) ++ drop 4 (take n data)) as Hsplit.
  { rewrite <- (take_drop 2 (take n data)) at 1. rewrite take_take, Nat.min_l by lia. f_equal.
    rewrite <- (take_drop 2 (drop 2 (take n data))) at 1. rewrite drop_drop. f_equal.
    rewrite skipn_firstn_comm, take_take, Nat.min_l by lia. done. }
  rewrite Hsplit at 1. rewrite <- !app_assoc. unfold nanortc_write_u16be.
  rewrite wr_mid by (rewrite ?length_take, ?length_drop; cbn [be16 length]; lia). rewrite bind_Ok.
  rewrite (app_assoc (be16 al)), (app_assoc (take 2 data)), rdn_front.
  2: { rewrite !length_app, length_drop, !length_take. cbn [be16 length]. lia. }
  rewrite bind_Ok. rewrite (rdn_Ok data), bind_Ok by lia.
  destruct (bool_decide_reflect (hmac key (take 2 data ++ be16 al ++ drop 4 (take n data)) = take 20 (drop (n + 4) data))); [|done].
  done.
Qed.

Lemma mac_input_inj d1 d2 off1 off2 :
  (20 <= Z.to_nat off1 <= length d1)%nat -> (20 <= Z.to_nat off2 <= length d2)%nat ->
  mac_input d1 off1 = mac_input d2 off2 ->
  off1 = off2 /\ forall i, (i < 2 \/ 4 <= i < Z.to_nat off1)%nat -> d1 !! i = d2 !! i.
Proof.
  intros H1 H2 Heq. unfold mac_input in Heq.
  assert (off1 = off2) as <-.
  { apply (f_equal length) in Heq. rewrite !length_app, !length_drop, !length_take in Heq. cbn [be16 length] in Heq. lia. }
  split; [done|]. apply app_inj_1 in Heq as [Ht Heq]; [|rewrite !length_take; lia].
  apply app_inj_1 in Heq as [_ Hd]; [|done]. intros i [Hi|Hi].
  - by rewrite <- (lookup_take_lt d1 2), <- (lookup_take_lt d2 2), Ht by lia.
  - rewrite <- (lookup_take_lt d1 (Z.to_nat off1)), <- (lookup_take_lt d2 (Z.to_nat off1)) by lia.
    replace i with (4 + (i - 4))%nat by lia. by rewrite <- !lookup_drop, Hd.
Qed.

Lemma stun_parse_inv data m :
  stun_parse data = Ok m ->
  exists type txid, nanortc_read_u16be data 0 = Ok type /\ rdn data 8 STUN_TXID_SIZE = Ok txid /\
    exists mlen, stun_walk (length data) data STUN_HEADER_SIZE (stun_msg_init type mlen txid) false false = Ok m.
Proof.
  unfold stun_parse. cbv zeta. intros H. destruct (_ <? _)%nat; [done|]. bind_inv H. destruct (negb _); [done|].
  bind_inv H. bind_inv H. bind_inv H. do 3 (destruct (negb _); [done|]). bind_inv H. eauto 10.
Qed.

(** C31: two datagrams that parse, verify under one key and carry the same MAC report
    the same message (type, transaction id and every attribute the parser
    keeps, except the length field and the fingerprint), or else the MAC
    collides under that key: what the parser reports is authenticated. *)
Theorem stun_integrity_binds (hmac_sha1 : list Z -> list Z -> list Z) (key d1 d2 : list Z) (m1 m2 : stun_msg) :
  Z.of_nat (length d1) <= 65535 -> Z.of_nat (length d2) <= 65535 ->
  stun_parse d1 = Ok m1 -> stun_parse d2 = Ok m2 ->
  stun_verify_integrity hmac_sha1 d1 m1 key = Ok NANORTC_OK -> stun_verify_integrity hmac_sha1 d2 m2 key = Ok NANORTC_OK ->
  (forall off1 off2, m_integrity m1 = Some off1 -> m_integrity m2 = Some off2 ->
     take 20 (drop (Z.to_nat off1 + 4) d1) = take 20 (drop (Z.to_nat off2 + 4) d2)) ->
  core m1 = core m2 \/ exists x y, x <> y /\ hmac_sha1 key x = hmac_sha1 key y.
Proof.
  intros Hl1 Hl2 Hp1 Hp2 Hv1 Hv2 Hmac.
  apply stun_parse_inv in Hp1 as (ty1 & tx1 & Hty1 & Htx1 & ln1 & Hw1). apply stun_parse_inv in Hp2 as (ty2 & tx2 & Hty2 & Htx2 & ln2 & Hw2).
  destruct (m_integrity m1) as [off1|] eqn:Hi1; [specialize (Hmac off1)|unfold stun_verify_integrity in Hv1; by rewrite Hi1 in Hv1].
  destruct (m_integrity m2) as [off2|] eqn:Hi2; [specialize (Hmac off2 eq_refl eq_refl)|unfold stun_verify_integrity in Hv2; by rewrite Hi2 in Hv2].
  pose proof (stun_walk_integrity (length d1) d1 _ (stun_msg_init ty1 ln1 tx1) false m1 off1 Hl1 eq_refl Hw1 Hi1) as [Ho1 _].
  pose proof (stun_walk_integrity (length d2) d2 _ (stun_msg_init ty2 ln2 tx2) false m2 off2 Hl2 eq_refl Hw2 Hi2) as [Ho2 _]. unfold STUN_HEADER_SIZE in Ho1, Ho2.
  apply (verify_integrity_inv _ _ _ _ off1) in Hv1 as [Hb1 Hh1]; [|done..]. apply (verify_integrity_inv _ _ _ _ off2) in Hv2 as [Hb2 Hh2]; [|done..].
  destruct (decide (mac_input d1 off1 = mac_input d2 off2)) as [Heq|Hne].
  2: { right. exists (mac_input d1 off1), (mac_input d2 off2). split; [done|]. by rewrite Hh1, Hh2. }
  left. apply mac_input_inj in Heq as [<- Hag]; [|lia..].
  assert (ty1 = ty2) as <-.
  { unfold nanortc_read_u16be, rd8 in Hty1, Hty2. rewrite !Hag in Hty1 by lia. congruence. }
  assert (tx1 = tx2) as <-.
  { apply rdn_inv in Htx1 as [_ ->], Htx2 as [_ ->]. apply list_eq. intros i. unfold STUN_TXID_SIZE. destruct (le_lt_dec 12 i).
    - by rewrite !lookup_take_ge by lia.
    - rewrite !lookup_take_lt, !lookup_drop by lia. apply Hag. lia. }
  eapply (stun_walk_covered _ _ d1 d2); [exact Hl1 | exact Hl2 | | | | | exact Hw1 | exact Hw2 | exact Hi1 | exact Hi2];
    [unfold STUN_HEADER_SIZE; lia | intros i Hi; apply Hag; lia | done | done].
Qed.

(** A MAC for the witnesses: twenty copies of the sum of the octets. *)
Definition toy_mac (key x : list Z) : list Z := replicate 20 (u8 (foldr Z.add 0 (key ++ x))).
Lemma toy_mac_length k x : length (toy_mac k x) = 20%nat.
Proof. apply length_replicate. Qed.
Lemma toy_mac_bytes k x : bytes (toy_mac k x).
Proof. apply Forall_replicate, u8_range. Qed.

Lemma stun_integrity_binds_witness :
  let key := [1; 2; 3] in let avs := [(STUN_ATTR_PRIORITY, be32 77)] in let txid := replicate 12 5 in
  let d1 := signed_message toy_mac STUN_BINDING_REQUEST txid key avs in
  let d2 := stun_header STUN_BINDING_REQUEST 32 txid ++ attrs_bytes (with_mac toy_mac STUN_BINDING_REQUEST txid key avs) in
  d1 <> d2 /\ exists m1 m2, stun_parse d1 = Ok m1 /\ stun_parse d2 = Ok m2 /\ m_priority m1 = 77 /\
  (core m1 = core m2 \/ exists x y, x <> y /\ toy_mac key x = toy_mac key y).
Proof.
  intros key avs txid d1 d2. split; [by apply (bool_decide_eq_true_1 _)|].
  eexists _, _. split; [vm_compute; reflexivity|]. split; [vm_compute; reflexivity|]. split; [reflexivity|].
  apply (stun_integrity_binds toy_mac key d1 d2); try (vm_compute; reflexivity); [done | done |].
  intros off1 off2 [= <-] [= <-]. vm_compute. reflexivity.
Defined.
Lemma stun_binding_request_roundtrip_witness :
  let username := [97; 58; 98; 99; 100] in let txid := replicate 12 5 in
  exists msg m,
    stun_verify_fingerprint msg = Ok NANORTC_OK /\ stun_parse msg = Ok m /\ m_username m = Some username /\
    stun_verify_integrity toy_mac msg m [1] = Ok NANORTC_OK.
Proof.
  intros username txid.
  destruct (stun_binding_request_roundtrip toy_mac toy_mac_length toy_mac_bytes username 77 true true 99 txid [1] [])
    as (msg & covered & m & Henc & Hfp & Hparse & (_ & _ & Hu & _) & Hint);
    [by apply (bool_decide_eq_true_1 _) | cbn; lia | unfold is_u32; lia | unfold is_u64; lia | done |
     by apply (bool_decide_eq_true_1 _) |].
  exists msg, m. split_and!; [done..|]. rewrite Hint. by rewrite bool_decide_eq_true_2.
Defined.
Lemma stun_binding_response_roundtrip_witness :
  let txid := replicate 12 5 in
  exists msg m, stun_encode_binding_response toy_mac txid [192; 0; 2; 33] STUN_FAMILY_IPV4 32853 [1] (replicate 80 0) =
      Ok (msg ++ drop (length msg) (replicate 80 0), length msg) /\
    stun_parse msg = Ok m /\ m_mapped m = StunAddr ([192; 0; 2; 33] ++ replicate 12 0) 32853 STUN_FAMILY_IPV4.
Proof.
  intros txid.
  assert (bytes txid) as Ht by by apply (bool_decide_eq_true_1 _).
  assert (bytes [192; 0; 2; 33]) as Hs by by apply (bool_decide_eq_true_1 _).
  pose proof (stun_binding_response_roundtrip toy_mac toy_mac_length toy_mac_bytes txid [192; 0; 2; 33]
    STUN_FAMILY_IPV4 32853 [1] (replicate 80 0) eq_refl Ht Hs ltac:(cbn; lia) ltac:(unfold is_u16; lia)) as H.
  rewrite bool_decide_eq_true_2 in H by by left. destruct H as (msg & _ & m & He & _ & _ & Hp & (_ & _ & Hm) & _).
  exists msg, m. split_and!; done.
Defined.
