(* ===== verification/Ice.v ===== *)
(** The ICE agent, [src/nano_ice.c] (RFC 8445, RFC 7675): candidate pairs, the
    table of pending checks with its queue of triggered checks, the STUN handler
    of both roles, check scheduling, nomination, restart and consent. *)

From Stdlib Require Import ZArith Lia.
From stdpp Require Import base list numbers.
From S2P Require Import Prelude Wire Crc Stun.

Local Open Scope Z_scope.

Definition STUN_BINDING_ERROR : Z := 0x0111.
Definition NANORTC_MAX_ICE_CANDIDATES : nat := 8.
Definition NANORTC_MAX_LOCAL_CANDIDATES : nat := 4.
Definition NANORTC_ICE_MAX_CHECKS : Z := 25.
Definition NANORTC_ICE_CHECK_INTERVAL_MS : Z := 50.
Definition NANORTC_ICE_MAX_PENDING_CHECKS : nat := 4.
Definition NANORTC_ICE_RTO_MS : Z := 500.
Definition NANORTC_ICE_CHECK_TIMEOUT_MS : Z := 5000.
Definition NANORTC_ICE_CONSENT_INTERVAL_MS : Z := 15000.
Definition NANORTC_ICE_CONSENT_TIMEOUT_MS : Z := 30000.
Definition NANORTC_ICE_UFRAG_SIZE : nat := 9.
Definition NANORTC_ICE_PWD_SIZE : nat := 24.
Definition NANORTC_ICE_REMOTE_UFRAG_SIZE : nat := 32.
Definition NANORTC_ICE_REMOTE_PWD_SIZE : nat := 48.
Definition NANORTC_ADDR_SIZE : nat := 16.
Definition NANORTC_ICE_LOCAL_IDX_UNKNOWN : nat := 255.

Inductive ice_state : Type :=
| NANORTC_ICE_STATE_NEW | NANORTC_ICE_STATE_CHECKING | NANORTC_ICE_STATE_CONNECTED
| NANORTC_ICE_STATE_DISCONNECTED | NANORTC_ICE_STATE_FAILED.
#[global] Instance ice_state_eq_dec : EqDecision ice_state.
Proof. solve_decision. Defined.

(** [nano_ice_cand_type_t], stored as [uint8_t]. *)
Definition NANORTC_ICE_CAND_HOST : Z := 0.
Definition NANORTC_ICE_CAND_SRFLX : Z := 1.
Definition NANORTC_ICE_CAND_RELAY : Z := 2.
Definition NANORTC_ICE_CAND_PRFLX : Z := 3.
Definition ICE_PRFLX_PRIORITY (idx : nat) : Z :=
  u32 (Z.lor (Z.lor (u32 (Z.shiftl 110 24)) (u32 (Z.shiftl (u32 (65535 - Z.of_nat idx)) 8))) 255).

(** [nanortc_addr_t]. *)
Record nanortc_addr : Type := Addr { ad_family : Z; ad_addr : list Z; ad_port : Z }.
Record ice_candidate : Type := Cand { ca_addr : list Z; ca_port : Z; ca_family : Z; ca_type : Z }.
Definition cand_zero : ice_candidate := Cand (replicate NANORTC_ADDR_SIZE 0) 0 0 0.
Record ice_pending : Type := Pending {
  pe_txid : list Z; pe_sent_at_ms : Z; pe_local : nat; pe_remote : nat; pe_in_flight : bool; pe_flags : Z
}.
Definition pending_zero : ice_pending := Pending (replicate STUN_TXID_SIZE 0) 0 0 0 false 0.
(** A credential: its buffer and its length. *)
Record cred : Type := Cred { cr_buf : list Z; cr_len : nat }.
(** The selected pair. *)
Record selected : Type := Selected {
  se_addr : list Z; se_port : Z; se_family : Z; se_type : Z;
  se_local_addr : list Z; se_local_port : Z; se_local_family : Z; se_local_idx : nat; se_local_type : Z
}.
Record consent : Type := Consent { co_next_ms : Z; co_expiry_ms : Z; co_txid : list Z; co_pending : bool }.
(** [nano_ice_t], credentials, selected pair and consent fields grouped. *)
Record nano_ice : Type := Ice {
  ic_state : ice_state; ic_controlling : bool; ic_lufrag : cred; ic_lpwd : cred; ic_rufrag : cred; ic_rpwd : cred;
  ic_selected : selected; ic_interval : Z; ic_next_check : Z; ic_tie_breaker : Z; ic_check_count : Z; ic_nominated : bool;
  ic_srflx_base : nat; ic_pending : list ice_pending; ic_locals : list ice_candidate; ic_local_count : nat;
  ic_remotes : list ice_candidate; ic_remote_count : nat; ic_cur_local : nat; ic_cur_remote : nat; ic_eoc : bool;
  ic_generation : Z; ic_consent : consent
}.
Definition with_ice_state i x := Ice x (ic_controlling i) (ic_lufrag i) (ic_lpwd i) (ic_rufrag i) (ic_rpwd i) (ic_selected i) (ic_interval i) (ic_next_check i) (ic_tie_breaker i) (ic_check_count i) (ic_nominated i) (ic_srflx_base i) (ic_pending i) (ic_locals i) (ic_local_count i) (ic_remotes i) (ic_remote_count i) (ic_cur_local i) (ic_cur_remote i) (ic_eoc i) (ic_generation i) (ic_consent i).
Definition with_pending i x := Ice (ic_state i) (ic_controlling i) (ic_lufrag i) (ic_lpwd i) (ic_rufrag i) (ic_rpwd i) (ic_selected i) (ic_interval i) (ic_next_check i) (ic_tie_breaker i) (ic_check_count i) (ic_nominated i) (ic_srflx_base i) x (ic_locals i) (ic_local_count i) (ic_remotes i) (ic_remote_count i) (ic_cur_local i) (ic_cur_remote i) (ic_eoc i) (ic_generation i) (ic_consent i).
Definition with_remotes i x n := Ice (ic_state i) (ic_controlling i) (ic_lufrag i) (ic_lpwd i) (ic_rufrag i) (ic_rpwd i) (ic_selected i) (ic_interval i) (ic_next_check i) (ic_tie_breaker i) (ic_check_count i) (ic_nominated i) (ic_srflx_base i) (ic_pending i) (ic_locals i) (ic_local_count i) x n (ic_cur_local i) (ic_cur_remote i) (ic_eoc i) (ic_generation i) (ic_consent i).
(** [selected_*], [nominated] and [state], as [ice_select_pair] sets them. *)
Definition with_selected i x := Ice NANORTC_ICE_STATE_CONNECTED (ic_controlling i) (ic_lufrag i) (ic_lpwd i) (ic_rufrag i) (ic_rpwd i) x (ic_interval i) (ic_next_check i) (ic_tie_breaker i) (ic_check_count i) true (ic_srflx_base i) (ic_pending i) (ic_locals i) (ic_local_count i) (ic_remotes i) (ic_remote_count i) (ic_cur_local i) (ic_cur_remote i) (ic_eoc i) (ic_generation i) (ic_consent i).
(** The scheduling fields [ice_send_check] sets. *)
Definition with_schedule i count next local remote := Ice NANORTC_ICE_STATE_CHECKING (ic_controlling i) (ic_lufrag i) (ic_lpwd i) (ic_rufrag i) (ic_rpwd i) (ic_selected i) (ic_interval i) next (ic_tie_breaker i) count (ic_nominated i) (ic_srflx_base i) (ic_pending i) (ic_locals i) (ic_local_count i) (ic_remotes i) (ic_remote_count i) local remote (ic_eoc i) (ic_generation i) (ic_consent i).
Definition with_consent i x := Ice (ic_state i) (ic_controlling i) (ic_lufrag i) (ic_lpwd i) (ic_rufrag i) (ic_rpwd i) (ic_selected i) (ic_interval i) (ic_next_check i) (ic_tie_breaker i) (ic_check_count i) (ic_nominated i) (ic_srflx_base i) (ic_pending i) (ic_locals i) (ic_local_count i) (ic_remotes i) (ic_remote_count i) (ic_cur_local i) (ic_cur_remote i) (ic_eoc i) (ic_generation i) x.

Definition cred_zero (size : nat) : cred := Cred (replicate size 0) 0.
Definition selected_zero : selected := Selected (replicate NANORTC_ADDR_SIZE 0) 0 0 0 (replicate NANORTC_ADDR_SIZE 0) 0 0 0 0.
Definition consent_zero : consent := Consent 0 0 (replicate STUN_TXID_SIZE 0) false.
(** The structure zeroed, then its role, tie breaker, generation, base and local
    candidates given. *)
Definition ice_fresh (controlling : bool) (tie_breaker generation : Z) (srflx_base : nat) (locals : list ice_candidate) (local_count : nat) : nano_ice :=
  Ice NANORTC_ICE_STATE_NEW controlling (cred_zero NANORTC_ICE_UFRAG_SIZE) (cred_zero NANORTC_ICE_PWD_SIZE)
    (cred_zero NANORTC_ICE_REMOTE_UFRAG_SIZE) (cred_zero NANORTC_ICE_REMOTE_PWD_SIZE) selected_zero NANORTC_ICE_CHECK_INTERVAL_MS 0 tie_breaker 0
    false srflx_base (replicate NANORTC_ICE_MAX_PENDING_CHECKS pending_zero) locals local_count
    (replicate NANORTC_MAX_ICE_CANDIDATES cand_zero) 0 0 0 false generation consent_zero.
Definition ice_init (controlling : bool) : nano_ice :=
  ice_fresh controlling 0 0 0 (replicate NANORTC_MAX_LOCAL_CANDIDATES cand_zero) 0.
Definition ice_restart (ice : nano_ice) : nano_ice :=
  ice_fresh (ic_controlling ice) (ic_tie_breaker ice) (u8 (ic_generation ice + 1)) (ic_srflx_base ice) (ic_locals ice) (ic_local_count ice).

Definition ice_is_stun (data : list Z) : bool := match data with [] => false | d :: _ => d <=? 3 end.

(** * User name *)

Fixpoint find_octet (c : Z) (s : list Z) (i : nat) : option nat :=
  match s with [] => None | x :: s => if x =? c then Some i else find_octet c s (S i) end.
(** [memcmp] with the first [n] octets of a credential's buffer. *)
Definition cred_is (c : cred) (n : nat) (s : list Z) : res bool := x ← rdn (cr_buf c) 0 n; Ok (bool_decide (x = s)).
Definition ice_verify_username (ice : nano_ice) (msg : stun_msg) : res bool :=
  match m_username msg with
  | None => Ok false
  | Some username =>
      let username_len := length username in
      if (cr_len (ic_lufrag ice) =? 0)%nat || (cr_len (ic_lpwd ice) =? 0)%nat || (username_len =? 0)%nat then Ok false else
      match find_octet 58 username 0 with
      | None => Ok false
      | Some local_len =>
          if negb (local_len =? cr_len (ic_lufrag ice))%nat then Ok false else
          let remote_len := (username_len - local_len - 1)%nat in
          same ← cred_is (ic_lufrag ice) local_len (take local_len username);
          if negb same || (remote_len =? 0)%nat then Ok false else
          if (cr_len (ic_rufrag ice) =? 0)%nat then Ok true else
          if negb (remote_len =? cr_len (ic_rufrag ice))%nat then Ok false else
          cred_is (ic_rufrag ice) remote_len (drop (S local_len) username)
      end
  end.
Definition addr_to_stun_family (family : Z) : Z :=
  if family =? 4 then STUN_FAMILY_IPV4 else if family =? 6 then STUN_FAMILY_IPV6 else 0.

(** * The table of pending checks *)

Definition ICE_CHECK_QUEUED : Z := 0x01.
Definition ICE_CHECK_VALID : Z := 0x02.
Definition ICE_CHECK_NOMINATE : Z := 0x04.
Definition ICE_CHECK_TRIGGERED : Z := 0x08.
Definition ICE_CHECK_RETRY_SHIFT : Z := 4.
Definition ICE_CHECK_STATE_MASK : Z := 0x0f.
Definition flagged (p : ice_pending) (f : Z) : bool := negb (Z.land (pe_flags p) f =? 0).
Definition set_flags p f := Pending (pe_txid p) (pe_sent_at_ms p) (pe_local p) (pe_remote p) (pe_in_flight p) f.
Definition set_sent p t := Pending (pe_txid p) t (pe_local p) (pe_remote p) (pe_in_flight p) (pe_flags p).
Definition set_in_flight p b := Pending (pe_txid p) (pe_sent_at_ms p) (pe_local p) (pe_remote p) b (pe_flags p).
Definition set_pair p l r := Pending (pe_txid p) (pe_sent_at_ms p) l r (pe_in_flight p) (pe_flags p).
Definition get_pending (ps : list ice_pending) (i : nat) : res ice_pending := match ps !! i with Some p => Ok p | None => Fault end.
Definition get_cand (cs : list ice_candidate) (i : nat) : res ice_candidate := match cs !! i with Some c => Ok c | None => Fault end.

(** The slot [p] already updated goes to the end of the queue. *)
Definition ice_queue_check (ps : list ice_pending) (slot : nat) : res (list ice_pending) :=
  p ← get_pending ps slot;
  let position := Z.of_nat (length (filter (fun q => flagged q ICE_CHECK_QUEUED = true) ps)) in
  Ok (<[slot := set_flags (set_sent p position) (Z.lor (pe_flags p) ICE_CHECK_QUEUED)]> ps).
Definition move_up (after : Z) (q : ice_pending) : ice_pending :=
  if flagged q ICE_CHECK_QUEUED && (after <? pe_sent_at_ms q) then set_sent q (u32 (pe_sent_at_ms q - 1)) else q.
Definition ice_unqueue_check (ps : list ice_pending) (slot : nat) : res (list ice_pending) :=
  p ← get_pending ps slot;
  if negb (flagged p ICE_CHECK_QUEUED) then Ok ps else
  Ok (<[slot := set_flags p (Z.land (pe_flags p) (Z.lnot ICE_CHECK_QUEUED))]> (map (move_up (pe_sent_at_ms p)) ps)).

Definition ice_local_base_idx (ice : nano_ice) (idx : nat) : res nat :=
  if (idx <? ic_local_count ice)%nat then
    c ← get_cand (ic_locals ice) idx;
    if ca_type c =? NANORTC_ICE_CAND_SRFLX then
      if (ic_srflx_base ice <? ic_local_count ice)%nat then
        b ← get_cand (ic_locals ice) (ic_srflx_base ice);
        Ok (if ca_type b =? NANORTC_ICE_CAND_HOST then ic_srflx_base ice else NANORTC_ICE_LOCAL_IDX_UNKNOWN)
      else Ok NANORTC_ICE_LOCAL_IDX_UNKNOWN
    else Ok idx
  else Ok idx.
Definition ice_addr_matches (c : ice_candidate) (addr : nanortc_addr) : bool :=
  (ca_family c =? ad_family addr) && (ca_port c =? ad_port addr) && bool_decide (ca_addr c = ad_addr addr).
Definition ice_select_pair (ice : nano_ice) (local remote : nat) : res nano_ice :=
  r ← get_cand (ic_remotes ice) remote;
  base ← ice_local_base_idx ice local;
  l ← (if (base <? ic_local_count ice)%nat then get_cand (ic_locals ice) base else Ok cand_zero);
  t ← get_cand (ic_locals ice) local;
  Ok (with_selected ice (Selected (ca_addr r) (ca_port r) (ca_family r) (ca_type r) (ca_addr l) (ca_port l) (ca_family l) local (ca_type t))).

(** * Triggered checks *)

(** The loop over the remote candidates: the first that matches, else [count]. *)
Fixpoint find_remote (k : nat) (cs : list ice_candidate) (i : nat) (src : nanortc_addr) : res nat :=
  match k with
  | O => Ok i
  | S k => c ← get_cand cs i; if ice_addr_matches c src then Ok i else find_remote k cs (S i) src
  end.
(** Whether the slot holds a check of this remote on this socket. *)
Definition same_check (ice : nano_ice) (p : ice_pending) (base remote : nat) : res bool :=
  if (pe_in_flight p || negb (pe_flags p =? 0)) && (pe_remote p =? remote)%nat
  then b ← ice_local_base_idx ice (pe_local p); Ok (b =? base)%nat else Ok false.
(** The slot of the check, else the first idle one, else [None] for [-1]. *)
Fixpoint find_slot (ice : nano_ice) (ps : list ice_pending) (i base remote : nat) (slot : option nat) : res (option nat) :=
  match ps with
  | [] => Ok slot
  | p :: ps =>
      same ← same_check ice p base remote;
      if (same : bool) then Ok (Some i) else
      find_slot ice ps (S i) base remote
        (match slot with None => if negb (pe_in_flight p) && negb (flagged p ICE_CHECK_QUEUED) then Some i else None | s => s end)
  end.
Definition ice_trigger_check (ice : nano_ice) (local : nat) (src : nanortc_addr) (nominate : bool) : res (nano_ice * bool) :=
  if bool_decide (ic_state ice = NANORTC_ICE_STATE_CONNECTED) || bool_decide (ic_state ice = NANORTC_ICE_STATE_FAILED) ||
     bool_decide (ic_state ice = NANORTC_ICE_STATE_DISCONNECTED) then Ok (ice, true) else
  wrong ← (if (ic_local_count ice <=? local)%nat then Ok true
           else c ← get_cand (ic_locals ice) local; Ok (negb (ca_family c =? ad_family src)));
  if (wrong : bool) then Ok (ice, negb nominate) else
  remote ← find_remote (ic_remote_count ice) (ic_remotes ice) 0 src;
  base ← ice_local_base_idx ice local;
  slot ← find_slot ice (ic_pending ice) 0 base remote None;
  match slot with
  | None => Ok (ice, false)
  | Some slot =>
      if (NANORTC_MAX_ICE_CANDIDATES <=? remote)%nat then Ok (ice, false) else
      let ice := if (remote =? ic_remote_count ice)%nat
                 then with_remotes ice (<[remote := Cand (ad_addr src) (ad_port src) (ad_family src) NANORTC_ICE_CAND_PRFLX]> (ic_remotes ice)) (S (ic_remote_count ice))
                 else ice in
      p ← get_pending (ic_pending ice) slot;
      keep ← (if (negb (pe_in_flight p) && (pe_flags p =? 0)) || negb (pe_remote p =? remote)%nat then Ok false
              else b ← ice_local_base_idx ice (pe_local p); Ok (b =? base)%nat);
      let p := if (keep : bool) then p else set_pair pending_zero local remote in
      let p := if nominate then set_flags p (Z.lor (pe_flags p) ICE_CHECK_NOMINATE) else p in
      let ps := <[slot := p]> (ic_pending ice) in
      if flagged p ICE_CHECK_VALID then
        let ice := with_pending ice ps in
        if nominate then ice ← ice_select_pair ice (pe_local p) remote; Ok (ice, true) else Ok (ice, true)
      else if flagged p ICE_CHECK_TRIGGERED then Ok (with_pending ice ps, true)
      else
        let p := set_flags (set_in_flight p false) (Z.lor (Z.land (pe_flags p) ICE_CHECK_NOMINATE) ICE_CHECK_TRIGGERED) in
        ps ← ice_queue_check (<[slot := p]> ps) slot;
        Ok (with_pending ice ps, true)
  end.

(** The first local candidate that satisfies [P], else the unknown index. *)
Fixpoint find_local (P : ice_candidate -> bool) (k : nat) (cs : list ice_candidate) (i : nat) : res nat :=
  match k with
  | O => Ok NANORTC_ICE_LOCAL_IDX_UNKNOWN
  | S k => c ← get_cand cs i; if P c then Ok i else find_local P k cs (S i)
  end.
Definition ice_find_local_idx_by_family (ice : nano_ice) (family : Z) : res nat :=
  if family =? 0 then Ok NANORTC_ICE_LOCAL_IDX_UNKNOWN
  else find_local (fun c => ca_family c =? family) (ic_local_count ice) (ic_locals ice) 0.

(** * Scheduling *)

Definition ice_retry_delay (p : ice_pending) : Z :=
  let retries := Z.shiftr (pe_flags p) ICE_CHECK_RETRY_SHIFT in
  let delay := NANORTC_ICE_RTO_MS * u32 (Z.shiftl 1 retries - 1) in
  if (15 <=? retries) || (NANORTC_ICE_CHECK_TIMEOUT_MS <? delay) then NANORTC_ICE_CHECK_TIMEOUT_MS else u32 delay.
Definition ice_pair_ready (ice : nano_ice) (local remote : nat) (relay_ready : option (list bool)) : res bool :=
  if (local <? ic_local_count ice)%nat && (remote <? ic_remote_count ice)%nat then
    l ← get_cand (ic_locals ice) local;
    r ← get_cand (ic_remotes ice) remote;
    if negb (ca_family l =? ca_family r) then Ok false else
    match relay_ready with
    | None => Ok true
    | Some ready =>
        if negb (ca_type l =? NANORTC_ICE_CAND_RELAY) then Ok true
        else match ready !! remote with Some b => Ok b | None => Fault end
    end
  else Ok false.

Record ice_check : Type := IceCheck { ch_slot : option nat; ch_local : nat; ch_remote : nat; ch_retransmit : bool; ch_expire : bool }.
Definition check_none : ice_check := IceCheck None 0 0 false false.
(** The state of the loop over the pending table. *)
Record scan : Type := Scan { sc_best : Z; sc_free : option nat; sc_active : bool; sc_check : ice_check }.
Definition ice_pace (ice : nano_ice) (now_ms : Z) : Z := if ic_next_check ice =? 0 then 0 else nano_time_until now_ms (ic_next_check ice).
Definition scan_pending (ice : nano_ice) (now_ms : Z) (relay_ready : option (list bool)) (s : scan) (i : nat) : res scan :=
  p ← get_pending (ic_pending ice) i;
  let queued := flagged p ICE_CHECK_QUEUED in
  if negb (pe_in_flight p) && negb queued then
    Ok (if (pe_flags p =? 0) && match sc_free s with None => true | _ => false end
        then Scan (sc_best s) (Some i) (sc_active s) (sc_check s) else s)
  else
    let s := Scan (sc_best s) (sc_free s) true (sc_check s) in
    let age := nano_time_elapsed now_ms (pe_sent_at_ms p) in
    let expire := (pe_in_flight p && (NANORTC_ICE_CHECK_TIMEOUT_MS <=? age)) ||
                  (negb (pe_in_flight p) && negb (flagged p ICE_CHECK_VALID) && (NANORTC_ICE_MAX_CHECKS <=? ic_check_count ice)) in
    ready ← (if expire then Ok true else ice_pair_ready ice (pe_local p) (pe_remote p) relay_ready);
    if negb ready then Ok s else
    let delay := if pe_in_flight p then let due := ice_retry_delay p in if age <? due then due - age else 0 else 0 in
    let pace := ice_pace ice now_ms in
    let delay := if negb expire && (delay <? pace) then pace else delay in
    let c := sc_check s in
    earlier ← match ch_slot c with
              | None => Ok false
              | Some j => q ← get_pending (ic_pending ice) j; Ok (pe_sent_at_ms p <? pe_sent_at_ms q)
              end;
    if (delay <? sc_best s) || ((delay =? sc_best s) && negb (ch_expire c) && queued && (ch_retransmit c || earlier))
    then Ok (Scan delay (sc_free s) true (IceCheck (Some i) (pe_local p) (pe_remote p) (pe_in_flight p) expire))
    else Ok s.
Fixpoint fold_check {A B} (f : A -> B -> res A) (a : A) (l : list B) : res A :=
  match l with [] => Ok a | b :: l => a ← f a b; fold_check f a l end.
Definition pair_known (ps : list ice_pending) (local remote : nat) : bool :=
  existsb (fun p => (pe_in_flight p || negb (pe_flags p =? 0)) && (pe_local p =? local)%nat && (pe_remote p =? remote)%nat) ps.
(** The loop over the candidate pairs from [n]: the first to check. *)
Fixpoint scan_pairs (k : nat) (ice : nano_ice) (relay_ready : option (list bool)) (sooner : bool) (start total n : nat) : res (option (nat * nat)) :=
  match k with
  | O => Ok None
  | S k =>
      let pair := ((start + n) mod total)%nat in
      let local := (pair / ic_remote_count ice)%nat in
      let remote := (pair mod ic_remote_count ice)%nat in
      ready ← ice_pair_ready ice local remote relay_ready;
      if ready && negb (pair_known (ic_pending ice) local remote) && sooner then Ok (Some (local, remote))
      else scan_pairs k ice relay_ready sooner start total (S n)
  end.
Definition ice_get_check (ice : nano_ice) (now_ms : Z) (relay_ready : option (list bool)) : res (Z * ice_check) :=
  if negb (bool_decide (ic_state ice = NANORTC_ICE_STATE_NEW)) && negb (bool_decide (ic_state ice = NANORTC_ICE_STATE_CHECKING))
  then Ok (UINT32_MAX, check_none) else
  if ic_eoc ice && (ic_remote_count ice =? 0)%nat then Ok (0, IceCheck None 0 0 false true) else
  if (cr_len (ic_lufrag ice) =? 0)%nat || (cr_len (ic_lpwd ice) =? 0)%nat || (cr_len (ic_rufrag ice) =? 0)%nat ||
     (cr_len (ic_rpwd ice) =? 0)%nat || (ic_local_count ice =? 0)%nat || (ic_remote_count ice =? 0)%nat
  then Ok (UINT32_MAX, check_none) else
  let pace := ice_pace ice now_ms in
  s ← fold_check (scan_pending ice now_ms relay_ready) (Scan UINT32_MAX None false check_none) (seq 0 NANORTC_ICE_MAX_PENDING_CHECKS);
  if sc_best s =? 0 then Ok (0, sc_check s) else
  if NANORTC_ICE_MAX_CHECKS <=? ic_check_count ice then
    if negb (sc_active s) then Ok (0, IceCheck None (ch_local (sc_check s)) (ch_remote (sc_check s)) (ch_retransmit (sc_check s)) true)
    else Ok (sc_best s, sc_check s)
  else
    match sc_free s with
    | None => Ok (sc_best s, sc_check s)
    | Some slot =>
        let total := (ic_local_count ice * ic_remote_count ice)%nat in
        let start := (ic_cur_local ice * ic_remote_count ice + ic_cur_remote ice)%nat in
        found ← scan_pairs total ice relay_ready (pace <? sc_best s) start total 0;
        match found with
        | Some (local, remote) => Ok (pace, IceCheck (Some slot) local remote false false)
        | None => Ok (sc_best s, sc_check s)
        end
    end.

(** * Sending and receiving *)

Section Provider.
Context (hmac_sha1 : list Z -> list Z -> list Z).
Context {R : Type} (random_bytes : R -> nat -> R * option (list Z)).

(** The user name "remote:local". *)
Definition ice_username (ice : nano_ice) : res (list Z) :=
  r ← rdn (cr_buf (ic_rufrag ice)) 0 (cr_len (ic_rufrag ice));
  l ← rdn (cr_buf (ic_lufrag ice)) 0 (cr_len (ic_lufrag ice));
  Ok (r ++ [58] ++ l).
Definition cred_text (c : cred) : res (list Z) := rdn (cr_buf c) 0 (cr_len c).

(** The agent, the provider, the code, the caller's buffer and [*out_len]. *)
Definition ice_send_check (ice : nano_ice) (g : R) (now_ms : Z) (check : ice_check) (buf : list Z)
  : res (nano_ice * R * Z * list Z * nat) :=
  if ch_expire check then
    match ch_slot check with
    | None => Ok (with_ice_state ice NANORTC_ICE_STATE_FAILED, g, NANORTC_OK, buf, 0%nat)
    | Some slot =>
        ps ← ice_unqueue_check (ic_pending ice) slot;
        Ok (with_pending ice (<[slot := pending_zero]> ps), g, NANORTC_OK, buf, 0%nat)
    end
  else
    match ch_slot check with
    | None => Ok (ice, g, NANORTC_ERR_INVALID_PARAM, buf, 0%nat)
    | Some slot =>
        if (NANORTC_ICE_MAX_PENDING_CHECKS <=? slot)%nat then Ok (ice, g, NANORTC_ERR_INVALID_PARAM, buf, 0%nat) else
        old ← get_pending (ic_pending ice) slot;
        match (if ch_retransmit check then (g, Some old) else
               match random_bytes g STUN_TXID_SIZE with
               | (g, None) => (g, None)
               | (g, Some txid) =>
                   (g, Some (Pending txid now_ms (ch_local check) (ch_remote check) (pe_in_flight old)
                              (Z.land (pe_flags old) ICE_CHECK_STATE_MASK)))
               end) with
        | (g, None) => Ok (ice, g, NANORTC_ERR_CRYPTO, buf, 0%nat)
        | (g, Some pending) =>
            if (NANORTC_ICE_REMOTE_UFRAG_SIZE <=? cr_len (ic_rufrag ice))%nat || (NANORTC_ICE_UFRAG_SIZE <=? cr_len (ic_lufrag ice))%nat
            then Ok (ice, g, NANORTC_ERR_BUFFER_TOO_SMALL, buf, 0%nat) else
            username ← ice_username ice;
            key ← cred_text (ic_rpwd ice);
            match stun_encode_binding_request hmac_sha1 username (ICE_PRFLX_PRIORITY (ch_local check))
                    (ic_controlling ice && flagged pending ICE_CHECK_NOMINATE) (ic_controlling ice) (ic_tie_breaker ice) (pe_txid pending) key buf with
            | Fault => Fault
            | Err rc => Ok (ice, g, rc, buf, 0%nat)
            | Ok (buf, out_len) =>
                let pending := set_flags (set_in_flight pending true)
                  (u8 (Z.land (pe_flags pending) (Z.lnot ICE_CHECK_QUEUED) + Z.shiftl 1 ICE_CHECK_RETRY_SHIFT)) in
                ps ← ice_unqueue_check (ic_pending ice) slot;
                let ice := with_pending ice (<[slot := pending]> ps) in
                let count := if negb (ch_retransmit check) && (ic_check_count ice <? 255) then u8 (ic_check_count ice + 1) else ic_check_count ice in
                let next := nano_time_deadline now_ms (ic_interval ice) in
                let remote := u8 (Z.of_nat (ch_remote check) + 1) in
                if Z.of_nat (ic_remote_count ice) <=? remote then
                  if (ic_local_count ice =? 0)%nat then Fault (** the division traps *) else
                  Ok (with_schedule ice count next ((ch_local check + 1) mod ic_local_count ice)%nat 0%nat, g, NANORTC_OK, buf, out_len)
                else Ok (with_schedule ice count next (ch_local check) (Z.to_nat remote), g, NANORTC_OK, buf, out_len)
            end
        end
    end.
Definition ice_generate_check (ice : nano_ice) (g : R) (now_ms : Z) (buf : list Z) : res (nano_ice * R * Z * list Z * nat) :=
  '(delay, check) ← ice_get_check ice now_ms None;
  if negb (delay =? 0) then Ok (ice, g, NANORTC_OK, buf, 0%nat) else ice_send_check ice g now_ms check buf.

(** Both verifications; a response without either attribute is refused. *)
Definition stun_authentic (data : list Z) (msg : stun_msg) (pwd : cred) : res Z :=
  match m_fingerprint msg with
  | None => Ok NANORTC_ERR_PROTOCOL
  | Some _ =>
      rc ← stun_verify_fingerprint data;
      if negb (rc =? NANORTC_OK) then Ok rc else
      match m_integrity msg with
      | None => Ok NANORTC_ERR_PROTOCOL
      | Some _ => key ← cred_text pwd; stun_verify_integrity hmac_sha1 data msg key
      end
  end.

(** [local_idx] resolved to the candidate of the receiving path. *)
Definition resolve_local (ice : nano_ice) (src : nanortc_addr) (local_idx : nat) (via_turn : bool) : res nat :=
  if via_turn
  then find_local (fun c => (ca_type c =? NANORTC_ICE_CAND_RELAY) && (ca_family c =? ad_family src)) (ic_local_count ice) (ic_locals ice) 0
  else if (ic_local_count ice <=? local_idx)%nat then ice_find_local_idx_by_family ice (ad_family src) else Ok local_idx.
Definition ice_handle_request (ice : nano_ice) (data : list Z) (msg : stun_msg) (src : nanortc_addr) (local_idx : nat) (via_turn : bool)
    (resp_buf : list Z) : res (nano_ice * Z * list Z * nat) :=
  match m_fingerprint msg with
  | None => Ok (ice, NANORTC_ERR_PROTOCOL, resp_buf, 0%nat)
  | Some _ =>
      rc ← stun_verify_fingerprint data;
      if negb (rc =? NANORTC_OK) then Ok (ice, rc, resp_buf, 0%nat) else
      user ← ice_verify_username ice msg;
      if negb user then Ok (ice, NANORTC_ERR_PROTOCOL, resp_buf, 0%nat) else
      match m_integrity msg with
      | None => Ok (ice, NANORTC_ERR_PROTOCOL, resp_buf, 0%nat)
      | Some _ =>
          key ← cred_text (ic_lpwd ice);
          rc ← stun_verify_integrity hmac_sha1 data msg key;
          if negb (rc =? NANORTC_OK) then Ok (ice, rc, resp_buf, 0%nat) else
          let stun_family := addr_to_stun_family (ad_family src) in
          if stun_family =? 0 then Ok (ice, NANORTC_ERR_INVALID_PARAM, resp_buf, 0%nat) else
          match stun_encode_binding_response hmac_sha1 (m_txid msg) (ad_addr src) stun_family (ad_port src) key resp_buf with
          | Fault => Fault
          | Err rc => Ok (ice, rc, resp_buf, 0%nat)
          | Ok (resp_buf, resp_len) =>
              resolved ← resolve_local ice src local_idx via_turn;
              '(ice, admitted) ← ice_trigger_check ice resolved src (m_use_candidate msg && negb (ic_controlling ice));
              if negb admitted then Ok (ice, NANORTC_ERR_WOULD_BLOCK, resp_buf, 0%nat) else Ok (ice, NANORTC_OK, resp_buf, resp_len)
          end
      end
  end.

(** The slot in flight under this transaction id. *)
Fixpoint find_txid (txid : list Z) (ps : list ice_pending) (i : nat) : option nat :=
  match ps with
  | [] => None
  | p :: ps => if pe_in_flight p && bool_decide (txid = pe_txid p) then Some i else find_txid txid ps (S i)
  end.
(** The gathered reflexive candidate with this mapped address on this socket. *)
Fixpoint find_reflexive (k : nat) (ice : nano_ice) (mapped : stun_addr) (base i : nat) : res (option nat) :=
  match k with
  | O => Ok None
  | S k =>
      c ← get_cand (ic_locals ice) i;
      if (ca_type c =? NANORTC_ICE_CAND_SRFLX) && (ca_port c =? sa_port mapped) && (addr_to_stun_family (ca_family c) =? sa_family mapped) &&
         bool_decide (ca_addr c = sa_addr mapped)
      then b ← ice_local_base_idx ice i; if (b =? base)%nat then Ok (Some i) else find_reflexive k ice mapped base (S i)
      else find_reflexive k ice mapped base (S i)
  end.
(** Whether the response came back on the path of its check. *)
Definition same_path (ice : nano_ice) (p : ice_pending) (src : nanortc_addr) (local_idx : nat) (via_turn : bool) : res bool :=
  if (ic_local_count ice <=? pe_local p)%nat || (ic_remote_count ice <=? pe_remote p)%nat then Ok false else
  c ← get_cand (ic_remotes ice) (pe_remote p);
  if negb (ice_addr_matches c src) then Ok false else
  if (local_idx <? ic_local_count ice)%nat then
    b ← ice_local_base_idx ice local_idx;
    b' ← ice_local_base_idx ice (pe_local p);
    Ok ((b =? b')%nat || via_turn)
  else Ok true.
Definition ice_handle_response (ice : nano_ice) (data : list Z) (msg : stun_msg) (src : nanortc_addr) (local_idx : nat) (via_turn : bool)
    : res (nano_ice * Z) :=
  let c := ic_consent ice in
  if co_pending c && bool_decide (m_txid msg = co_txid c) then
    rc ← stun_authentic data msg (ic_rpwd ice);
    if negb (rc =? NANORTC_OK) then Ok (ice, NANORTC_ERR_PROTOCOL)
    else Ok (with_consent ice (Consent (co_next_ms c) (co_expiry_ms c) (co_txid c) false), NANORTC_OK)
  else
  match find_txid (m_txid msg) (ic_pending ice) 0 with
  | None => Ok (ice, NANORTC_ERR_PROTOCOL)
  | Some slot =>
      rc ← stun_authentic data msg (ic_rpwd ice);
      if negb (rc =? NANORTC_OK) then Ok (ice, rc) else
      p ← get_pending (ic_pending ice) slot;
      path ← same_path ice p src local_idx via_turn;
      if negb path then Ok (ice, NANORTC_ERR_PROTOCOL) else
      base ← ice_local_base_idx ice (pe_local p);
      reflexive ← find_reflexive (ic_local_count ice) ice (m_mapped msg) base 0;
      let p := set_in_flight p false in
      let p := match reflexive with Some i => set_pair p i (pe_remote p) | None => p end in
      if bool_decide (ic_state ice = NANORTC_ICE_STATE_CONNECTED) then Ok (with_pending ice (<[slot := p]> (ic_pending ice)), NANORTC_OK) else
      if flagged p ICE_CHECK_NOMINATE then
        ice ← ice_select_pair ice (pe_local p) (pe_remote p);
        Ok (with_pending ice (<[slot := set_flags p ICE_CHECK_VALID]> (ic_pending ice)), NANORTC_OK)
      else if ic_controlling ice then
        ps ← ice_queue_check (<[slot := set_flags p (Z.lor ICE_CHECK_VALID ICE_CHECK_NOMINATE)]> (ic_pending ice)) slot;
        Ok (with_pending ice ps, NANORTC_OK)
      else Ok (with_pending ice (<[slot := set_flags p ICE_CHECK_VALID]> (ic_pending ice)), NANORTC_OK)
  end.
Definition ice_handle_error (ice : nano_ice) (data : list Z) (msg : stun_msg) : res (nano_ice * Z) :=
  rc ← stun_authentic data msg (ic_rpwd ice);
  if negb (rc =? NANORTC_OK) then Ok (ice, NANORTC_ERR_PROTOCOL) else
  match find_txid (m_txid msg) (ic_pending ice) 0 with
  | None => Ok (ice, NANORTC_ERR_PROTOCOL)
  | Some slot => Ok (with_pending ice (<[slot := pending_zero]> (ic_pending ice)), NANORTC_ERR_PROTOCOL)
  end.
Definition ice_handle_stun (ice : nano_ice) (data : list Z) (src : nanortc_addr) (local_idx : nat) (via_turn : bool) (resp_buf : list Z)
    : res (nano_ice * Z * list Z * nat) :=
  match stun_parse data with
  | Fault => Fault
  | Err rc => Ok (ice, rc, resp_buf, 0%nat)
  | Ok msg =>
      if m_type msg =? STUN_BINDING_REQUEST then ice_handle_request ice data msg src local_idx via_turn resp_buf
      else if m_type msg =? STUN_BINDING_RESPONSE then
        '(ice, rc) ← ice_handle_response ice data msg src local_idx via_turn; Ok (ice, rc, resp_buf, 0%nat)
      else if m_type msg =? STUN_BINDING_ERROR then
        '(ice, rc) ← ice_handle_error ice data msg; Ok (ice, rc, resp_buf, 0%nat)
      else Ok (ice, NANORTC_ERR_PROTOCOL, resp_buf, 0%nat)
  end.

(** * Consent *)

Definition ice_generate_consent (ice : nano_ice) (g : R) (now_ms : Z) (buf : list Z) : res (nano_ice * R * Z * list Z * nat) :=
  let c := ic_consent ice in
  if negb (bool_decide (ic_state ice = NANORTC_ICE_STATE_CONNECTED)) then Ok (ice, g, NANORTC_OK, buf, 0%nat) else
  if negb (co_next_ms c =? 0) && negb (nano_time_is_due now_ms (co_next_ms c)) then Ok (ice, g, NANORTC_OK, buf, 0%nat) else
  match random_bytes g STUN_TXID_SIZE with
  | (g, None) => Ok (ice, g, NANORTC_ERR_CRYPTO, buf, 0%nat)
  | (g, Some txid) =>
      if (64 <=? cr_len (ic_rufrag ice) + 1 + cr_len (ic_lufrag ice))%nat then Ok (ice, g, NANORTC_ERR_BUFFER_TOO_SMALL, buf, 0%nat) else
      username ← ice_username ice;
      key ← cred_text (ic_rpwd ice);
      match stun_encode_binding_request hmac_sha1 username (ICE_PRFLX_PRIORITY (se_local_idx (ic_selected ice))) false (ic_controlling ice)
              (ic_tie_breaker ice) txid key buf with
      | Fault => Fault
      | Err rc => Ok (ice, g, rc, buf, 0%nat)
      | Ok (buf, out_len) =>
          Ok (with_consent ice (Consent (nano_time_deadline now_ms NANORTC_ICE_CONSENT_INTERVAL_MS) (co_expiry_ms c) txid true), g, NANORTC_OK, buf, out_len)
      end
  end.
Definition ice_consent_expired (ice : nano_ice) (now_ms : Z) : bool :=
  if negb (bool_decide (ic_state ice = NANORTC_ICE_STATE_CONNECTED)) then false
  else if co_expiry_ms (ic_consent ice) =? 0 then true else nano_time_is_due now_ms (co_expiry_ms (ic_consent ice)).
Definition sooner (best now_ms deadline : Z) : Z := if deadline =? 0 then best else let left := nano_time_until now_ms deadline in if left <? best then left else best.
Definition ice_next_timeout_ms (ice : nano_ice) (now_ms : Z) : res Z :=
  '(best, _) ← ice_get_check ice now_ms None;
  Ok (if bool_decide (ic_state ice = NANORTC_ICE_STATE_CONNECTED)
      then sooner (sooner best now_ms (co_next_ms (ic_consent ice))) now_ms (co_expiry_ms (ic_consent ice)) else best).
End Provider.
