(* ===== verification/IceHistory.v ===== *)
(** Histories of the ICE agent of [src/nano_ice.c]: over every sequence of
    datagrams, timer events and trickled candidates the agent stays within its
    tables, connects only on a pair it has checked, and sends a bounded number
    of checks. *)

From Stdlib Require Import ZArith Lia.
From stdpp Require Import base list numbers.
From S2P Require Import Prelude Wire Crc Stun Ice.

Local Open Scope Z_scope.

(** * Sums over the pending table *)

Definition total (w : ice_pending -> Z) (ps : list ice_pending) : Z := foldr (fun p a => w p + a) 0 ps.
Arguments total : simpl never.
Lemma total_cons w p ps : total w (p :: ps) = w p + total w ps.
Proof. done. Qed.
Lemma total_insert w ps i x y : ps !! i = Some x -> total w (<[i := y]> ps) = total w ps - w x + w y.
Proof.
  revert i. induction ps as [|p ps IH]; intros [|i] H; try done.
  - injection H as <-. change (<[0%nat := y]> (p :: ps)) with (y :: ps). rewrite !total_cons. lia.
  - change (<[S i := y]> (p :: ps)) with (p :: <[i := y]> ps). rewrite !total_cons, (IH i H). lia.
Qed.
Lemma total_map w f ps : (forall p, w (f p) = w p) -> total w (map f ps) = total w ps.
Proof. intros H. induction ps as [|p ps IH]; [done|]. cbn [map]. by rewrite !total_cons, H, IH. Qed.
Lemma total_bounds w ps k : (forall p, 0 <= w p <= k) -> 0 <= total w ps <= k * Z.of_nat (length ps).
Proof. intros H. induction ps as [|p ps IH]; [change (0 <= 0 <= k * 0); lia|]. rewrite total_cons. cbn [length]. pose proof (H p). lia. Qed.
Lemma total_le w ps i p : (forall q, 0 <= w q) -> ps !! i = Some p -> w p <= total w ps.
Proof.
  intros Hw. assert (forall l, 0 <= total w l) as Hpos.
  { intros l. induction l as [|q l IH]; [done|]. rewrite total_cons. pose proof (Hw q). lia. }
  revert i. induction ps as [|q ps IH]; intros [|i] H; try done; rewrite total_cons.
  - injection H as <-. pose proof (Hpos ps). lia.
  - pose proof (IH i H). pose proof (Hw q). lia.
Qed.

(** * Flags *)

Definition all_octets (P : Z -> bool) : bool := forallb (fun n => P (Z.of_nat n)) (seq 0 256).
Lemma octet_cases (P : Z -> bool) f : all_octets P = true -> is_u8 f -> P f = true.
Proof.
  intros H Hf. unfold all_octets in H. rewrite forallb_forall in H. rewrite <- (Z2Nat.id f) by (unfold is_u8 in Hf; lia).
  apply H, in_seq. unfold is_u8 in Hf. lia.
Qed.
Definition has (f flag : Z) : bool := negb (Z.land f flag =? 0).
(** The three ways the flags of a slot change. *)
Definition flags_after_queue (f : Z) : Z := Z.lor f ICE_CHECK_QUEUED.
Definition flags_after_unqueue (f : Z) : Z := Z.land f (Z.lnot ICE_CHECK_QUEUED).
Definition flags_after_trigger (f : Z) : Z := Z.lor (Z.land f ICE_CHECK_NOMINATE) ICE_CHECK_TRIGGERED.
Definition flags_after_send (f : Z) : Z := u8 (Z.land f (Z.lnot ICE_CHECK_QUEUED) + Z.shiftl 1 ICE_CHECK_RETRY_SHIFT).
Definition retries (f : Z) : Z := Z.shiftr f ICE_CHECK_RETRY_SHIFT.
(** Flags described: queued, valid, nominate, triggered and retransmissions. *)
Definition flag_facts (f : Z) (q v n t : bool) (r : Z) : Prop :=
  is_u8 f /\ has f ICE_CHECK_QUEUED = q /\ has f ICE_CHECK_VALID = v /\ has f ICE_CHECK_NOMINATE = n /\ has f ICE_CHECK_TRIGGERED = t /\ retries f = r.
Definition flag_factsb (f : Z) (q v n t : bool) (r : Z) : bool :=
  (0 <=? f) && (f <? 256) && Bool.eqb (has f ICE_CHECK_QUEUED) q && Bool.eqb (has f ICE_CHECK_VALID) v && Bool.eqb (has f ICE_CHECK_NOMINATE) n &&
  Bool.eqb (has f ICE_CHECK_TRIGGERED) t && (retries f =? r).
Lemma flag_factsb_spec f q v n t r : flag_factsb f q v n t r = true -> flag_facts f q v n t r.
Proof.
  unfold flag_factsb. intros H. bool_facts. repeat match goal with H : Bool.eqb _ _ = true |- _ => apply Bool.eqb_prop in H end.
  unfold flag_facts, is_u8. split_and!; done || lia.
Qed.
(** A change of flags known on every octet. *)
Lemma flags_change (g : Z -> Z) (q v n t : Z -> bool) (r : Z -> Z) f :
  all_octets (fun f => flag_factsb (g f) (q f) (v f) (n f) (t f) (r f)) = true -> is_u8 f -> flag_facts (g f) (q f) (v f) (n f) (t f) (r f).
Proof. intros H Hf. apply flag_factsb_spec. by apply (octet_cases _ f H). Qed.
Definition hv f := has f ICE_CHECK_VALID.
Definition hn f := has f ICE_CHECK_NOMINATE.
Definition ht f := has f ICE_CHECK_TRIGGERED.
Definition hq f := has f ICE_CHECK_QUEUED.
Lemma queue_flags f : is_u8 f -> flag_facts (flags_after_queue f) true (hv f) (hn f) (ht f) (retries f).
Proof. by apply (flags_change flags_after_queue (fun _ => true) hv hn ht retries). Qed.
Lemma unqueue_flags f : is_u8 f -> flag_facts (flags_after_unqueue f) false (hv f) (hn f) (ht f) (retries f).
Proof. by apply (flags_change flags_after_unqueue (fun _ => false) hv hn ht retries). Qed.
Lemma trigger_flags f : is_u8 f -> flag_facts (flags_after_trigger f) false false (hn f) true 0.
Proof. by apply (flags_change flags_after_trigger (fun _ => false) (fun _ => false) hn (fun _ => true) (fun _ => 0)). Qed.
Lemma send_flags f : is_u8 f -> flag_facts (flags_after_send f) false (hv f) (hn f) (ht f) ((retries f + 1) mod 16).
Proof. by apply (flags_change flags_after_send (fun _ => false) hv hn ht (fun f => (retries f + 1) mod 16)). Qed.
Lemma nominate_flags f : is_u8 f -> flag_facts (Z.lor f ICE_CHECK_NOMINATE) (hq f) (hv f) true (ht f) (retries f).
Proof. by apply (flags_change (fun f => Z.lor f ICE_CHECK_NOMINATE) hq hv (fun _ => true) ht retries). Qed.
Lemma mask_flags f : is_u8 f -> flag_facts (Z.land f ICE_CHECK_STATE_MASK) (hq f) (hv f) (hn f) (ht f) 0.
Proof. by apply (flags_change (fun f => Z.land f ICE_CHECK_STATE_MASK) hq hv hn ht (fun _ => 0)). Qed.
Lemma no_flags f : is_u8 f -> f = 0 -> flag_facts f false false false false 0.
Proof. by intros _ ->. Qed.
Lemma retries_range f : is_u8 f -> 0 <= retries f < 16.
Proof. intros H. unfold retries, ICE_CHECK_RETRY_SHIFT. rewrite Z.shiftr_div_pow2 by lia. mach. Qed.

(** * The invariant *)

(** A check not yet confirmed in flight, or a nomination waiting. *)
Definition pends (p : ice_pending) : Z :=
  if (pe_in_flight p && negb (hv (pe_flags p))) || (hq (pe_flags p) && hv (pe_flags p)) then 1 else 0.
(** Transmissions a check in flight has left. *)
Definition budget (p : ice_pending) : Z := if pe_in_flight p then 4 - retries (pe_flags p) else 0.
Definition queued (p : ice_pending) : Z := if hq (pe_flags p) then 1 else 0.

(** [locals], [nl] and [base] do not change; [valid] lists the pairs (socket,
    remote) a response has confirmed. *)
Record slot_ok (nl nr : nat) (base : nat -> nat) (controlling : bool) (valid : list (nat * nat)) (p : ice_pending) : Prop := {
  so_txid : length (pe_txid p) = STUN_TXID_SIZE;
  so_flags : is_u8 (pe_flags p);
  so_pair : pe_in_flight p = true \/ pe_flags p <> 0 -> (pe_local p < nl)%nat /\ (pe_remote p < nr)%nat;
  so_apart : pe_in_flight p = true -> hq (pe_flags p) = false /\ 1 <= retries (pe_flags p) <= 4;
  so_queued : hq (pe_flags p) = true -> hv (pe_flags p) = true \/ ht (pe_flags p) = true;
  so_valid : hv (pe_flags p) = true -> (base (pe_local p), pe_remote p) ∈ valid;
  so_nominate : controlling = true -> hn (pe_flags p) = true -> hv (pe_flags p) = true;
  so_again : pe_in_flight p = true \/ hq (pe_flags p) = true -> hv (pe_flags p) = true -> hn (pe_flags p) = true
}.
Definition queue_ok (ps : list ice_pending) : Prop :=
  (forall i p, ps !! i = Some p -> hq (pe_flags p) = true -> 0 <= pe_sent_at_ms p < total queued ps) /\
  (forall i j p q, ps !! i = Some p -> ps !! j = Some q -> i <> j -> hq (pe_flags p) = true -> hq (pe_flags q) = true -> pe_sent_at_ms p <> pe_sent_at_ms q).

Lemma queued_range p : 0 <= queued p <= 1.
Proof. unfold queued. destruct (hq _); lia. Qed.
Lemma pends_range p : 0 <= pends p <= 1.
Proof. unfold pends. destruct (_ || _); lia. Qed.
Lemma queue_same ps i p p' : queue_ok ps -> ps !! i = Some p -> hq (pe_flags p') = hq (pe_flags p) ->
  (hq (pe_flags p) = true -> pe_sent_at_ms p' = pe_sent_at_ms p) -> queue_ok (<[i := p']> ps).
Proof.
  intros [H1 H2] Hp Hq Hs. assert (total queued (<[i := p']> ps) = total queued ps) as Ht.
  { rewrite (total_insert _ _ _ _ _ Hp). unfold queued. rewrite Hq. lia. }
  pose proof (lookup_lt_Some _ _ _ Hp) as Hlt. split.
  - rewrite Ht. intros j q Hj Hqq. destruct (decide (i = j)) as [<-|].
    + rewrite list_lookup_insert_eq in Hj by done. injection Hj as <-. rewrite Hq in Hqq. rewrite (Hs Hqq). by apply (H1 i).
    + rewrite list_lookup_insert_ne in Hj by done. by apply (H1 j).
  - intros j k a b [(<- & <- & _)|[_ Ha]]%list_lookup_insert_Some [(<- & <- & _)|[_ Hb]]%list_lookup_insert_Some Hjk Hqa Hqb; try congruence.
    + rewrite Hq in Hqa. rewrite (Hs Hqa). by apply (H2 i k).
    + rewrite Hq in Hqb. rewrite (Hs Hqb). by apply (H2 j i).
    + by apply (H2 j k).
Qed.
(** The end of the queue. *)
Lemma queue_push ps i p p' : queue_ok ps -> ps !! i = Some p -> hq (pe_flags p) = false -> hq (pe_flags p') = true ->
  pe_sent_at_ms p' = total queued ps -> queue_ok (<[i := p']> ps).
Proof.
  intros [H1 H2] Hp Hq Hq' Hs. assert (total queued (<[i := p']> ps) = total queued ps + 1) as Ht.
  { rewrite (total_insert _ _ _ _ _ Hp). unfold queued. rewrite Hq, Hq'. lia. }
  pose proof (lookup_lt_Some _ _ _ Hp) as Hlt. pose proof (total_bounds queued ps 1 queued_range) as Hb0. split.
  - rewrite Ht. intros j q Hj Hqq. destruct (decide (i = j)) as [<-|].
    + rewrite list_lookup_insert_eq in Hj by done. injection Hj as <-. lia.
    + rewrite list_lookup_insert_ne in Hj by done. pose proof (H1 j q Hj Hqq). lia.
  - intros j k a b [(<- & <- & _)|[_ Ha]]%list_lookup_insert_Some [(<- & <- & _)|[_ Hb]]%list_lookup_insert_Some Hjk Hqa Hqb; try congruence.
    + pose proof (H1 k b Hb Hqb). lia.
    + pose proof (H1 j a Ha Hqa). lia.
    + by apply (H2 j k).
Qed.
Lemma move_up_flags t q : pe_flags (move_up t q) = pe_flags q.
Proof. unfold move_up. by destruct (_ && _). Qed.
Lemma move_up_sent t q : 0 <= t -> is_u32 (pe_sent_at_ms q) \/ t <= pe_sent_at_ms q < 2 ^ 32 \/ 0 <= pe_sent_at_ms q < 2 ^ 32 -> hq (pe_flags q) = true ->
  pe_sent_at_ms (move_up t q) = if t <? pe_sent_at_ms q then pe_sent_at_ms q - 1 else pe_sent_at_ms q.
Proof.
  intros Ht Hr Hq. unfold move_up. change (flagged q ICE_CHECK_QUEUED) with (hq (pe_flags q)). rewrite Hq. cbn [andb].
  destruct (Z.ltb_spec t (pe_sent_at_ms q)); [|done]. cbn [pe_sent_at_ms set_sent]. rewrite u32_id; [done|]. unfold is_u32 in *. lia.
Qed.
(** A slot leaves the queue. *)
Lemma queue_pop ps i p p' : queue_ok ps -> (length ps <= 255)%nat -> ps !! i = Some p -> hq (pe_flags p) = true -> hq (pe_flags p') = false ->
  queue_ok (<[i := p']> (map (move_up (pe_sent_at_ms p)) ps)).
Proof.
  intros [H1 H2] Hlen Hp Hq Hq'. set (t := pe_sent_at_ms p). set (ps1 := map (move_up t) ps).
  assert (ps1 !! i = Some (move_up t p)) as Hp1 by (unfold ps1; by rewrite list_lookup_fmap, Hp).
  assert (total queued ps1 = total queued ps) as Hsame by (apply total_map; intros q; unfold queued; by rewrite move_up_flags).
  assert (total queued (<[i := p']> ps1) = total queued ps - 1) as Ht.
  { rewrite (total_insert _ _ _ _ _ Hp1), Hsame. unfold queued. rewrite move_up_flags, Hq, Hq'. lia. }
  pose proof (total_bounds queued ps 1 queued_range) as Hb0. pose proof (H1 i p Hp Hq) as Hti. fold t in Hti.
  pose proof (lookup_lt_Some _ _ _ Hp1) as Hlt.
  assert (forall j q, j <> i -> (<[i := p']> ps1) !! j = Some q -> hq (pe_flags q) = true -> exists q0, ps !! j = Some q0 /\ hq (pe_flags q0) = true /\
    pe_sent_at_ms q0 <> t /\ 0 <= pe_sent_at_ms q0 < total queued ps /\ pe_sent_at_ms q = if t <? pe_sent_at_ms q0 then pe_sent_at_ms q0 - 1 else pe_sent_at_ms q0) as Hold.
  { intros j q Hj Hjq Hqq. rewrite list_lookup_insert_ne in Hjq by done. unfold ps1 in Hjq. rewrite list_lookup_fmap in Hjq.
    destruct (ps !! j) as [q0|] eqn:E; [|done]. injection Hjq as <-. rewrite move_up_flags in Hqq. pose proof (H1 j q0 E Hqq).
    exists q0. split_and!; try done; [by apply (H2 j i) | lia | lia |]. apply move_up_sent; [lia | right; right; lia | done]. }
  split.
  - rewrite Ht. intros j q Hj Hqq. destruct (decide (j = i)) as [->|Hne].
    + rewrite list_lookup_insert_eq in Hj by done. injection Hj as <-. congruence.
    + destruct (Hold j q Hne Hj Hqq) as (q0 & _ & _ & Hn & Hr & ->). destruct (Z.ltb_spec t (pe_sent_at_ms q0)); lia.
  - intros j k a b Ha Hb Hjk Hqa Hqb. destruct (decide (j = i)) as [->|Hji].
    { rewrite list_lookup_insert_eq in Ha by done. injection Ha as <-. congruence. }
    destruct (decide (k = i)) as [->|Hki].
    { rewrite list_lookup_insert_eq in Hb by done. injection Hb as <-. congruence. }
    destruct (Hold j a Hji Ha Hqa) as (a0 & Ha0 & Hqa0 & Hna & _ & ->), (Hold k b Hki Hb Hqb) as (b0 & Hb0' & Hqb0 & Hnb & _ & ->).
    pose proof (H2 j k a0 b0 Ha0 Hb0' Hjk Hqa0 Hqb0). destruct (Z.ltb_spec t (pe_sent_at_ms a0)), (Z.ltb_spec t (pe_sent_at_ms b0)); lia.
Qed.
Lemma queue_length ps : Z.of_nat (length (filter (fun q => flagged q ICE_CHECK_QUEUED = true) ps)) = total queued ps.
Proof.
  induction ps as [|q ps IH]; [done|]. rewrite total_cons, filter_cons. unfold queued at 1. change (flagged q ICE_CHECK_QUEUED) with (hq (pe_flags q)).
  destruct (hq (pe_flags q)) eqn:E; case_decide; try congruence; cbn [length]; lia.
Qed.

(** * The agent *)

Definition base_of (ice : nano_ice) (i : nat) : nat := match ice_local_base_idx ice i with Ok b => b | _ => 0%nat end.
Definition cred_ok (c : cred) (size : nat) : Prop := length (cr_buf c) = size /\ (cr_len c <= size)%nat.
Record agent_ok (ice : nano_ice) (valid : list (nat * nat)) (sent : Z) : Prop := {
  ao_pending : length (ic_pending ice) = NANORTC_ICE_MAX_PENDING_CHECKS;
  ao_locals : length (ic_locals ice) = NANORTC_MAX_LOCAL_CANDIDATES /\ (ic_local_count ice <= NANORTC_MAX_LOCAL_CANDIDATES)%nat;
  ao_remotes : length (ic_remotes ice) = NANORTC_MAX_ICE_CANDIDATES /\ (ic_remote_count ice <= NANORTC_MAX_ICE_CANDIDATES)%nat;
  ao_creds : cred_ok (ic_lufrag ice) NANORTC_ICE_UFRAG_SIZE /\ cred_ok (ic_lpwd ice) NANORTC_ICE_PWD_SIZE /\
             cred_ok (ic_rufrag ice) NANORTC_ICE_REMOTE_UFRAG_SIZE /\ cred_ok (ic_rpwd ice) NANORTC_ICE_REMOTE_PWD_SIZE;
  ao_slots : Forall (slot_ok (ic_local_count ice) (ic_remote_count ice) (base_of ice) (ic_controlling ice) valid) (ic_pending ice);
  ao_queue : queue_ok (ic_pending ice);
  ao_count : 0 <= ic_check_count ice /\ ic_check_count ice + total pends (ic_pending ice) <= 29;
  ao_sent : sent + total budget (ic_pending ice) <= 4 * ic_check_count ice;
  ao_selected : ic_state ice = NANORTC_ICE_STATE_CONNECTED ->
    ic_nominated ice = true /\ (se_local_idx (ic_selected ice) < ic_local_count ice)%nat /\
    exists r c, (base_of ice (se_local_idx (ic_selected ice)), r) ∈ valid /\ (r < ic_remote_count ice)%nat /\ ic_remotes ice !! r = Some c /\
      se_addr (ic_selected ice) = ca_addr c /\ se_port (ic_selected ice) = ca_port c /\ se_family (ic_selected ice) = ca_family c
}.

Lemma slot_mono nl nr nr' base c valid valid' p :
  (nr <= nr')%nat -> (forall x, x ∈ valid -> x ∈ valid') -> slot_ok nl nr base c valid p -> slot_ok nl nr' base c valid' p.
Proof. intros Hn Hv []. constructor; auto. intros H. destruct (so_pair0 H). lia. Qed.
Lemma slot_zero nl nr base c valid : slot_ok nl nr base c valid pending_zero.
Proof. constructor; try done. by intros [?|?]. Qed.
(** One slot of the table changes. *)
Lemma agent_table ice valid sent i p p' :
  agent_ok ice valid sent -> ic_pending ice !! i = Some p ->
  slot_ok (ic_local_count ice) (ic_remote_count ice) (base_of ice) (ic_controlling ice) valid p' ->
  queue_ok (<[i := p']> (ic_pending ice)) -> pends p' <= pends p -> budget p' <= budget p ->
  agent_ok (with_pending ice (<[i := p']> (ic_pending ice))) valid sent.
Proof.
  intros [] Hp Hs Hq Hd Hb. constructor; cbn; try done.
  - by rewrite length_insert.
  - by apply Forall_insert.
  - rewrite (total_insert _ _ _ _ _ Hp). lia.
  - rewrite (total_insert _ _ _ _ _ Hp). lia.
Qed.
Lemma agent_valid ice valid valid' sent : (forall x, x ∈ valid -> x ∈ valid') -> agent_ok ice valid sent -> agent_ok ice valid' sent.
Proof.
  intros Hv []. constructor; try done.
  - eapply Forall_impl; [|exact ao_slots0]. intros p. by apply slot_mono.
  - intros H. destruct (ao_selected0 H) as (H1 & H2 & r & c & H3 & H4). split; [done|]. split; [done|]. exists r, c. split; [by apply Hv | done].
Qed.

Section agent.
Context (ice : nano_ice) (valid : list (nat * nat)) (sent : Z) (Hok : agent_ok ice valid sent).

Lemma slot_at i p : ic_pending ice !! i = Some p -> slot_ok (ic_local_count ice) (ic_remote_count ice) (base_of ice) (ic_controlling ice) valid p.
Proof using Hok. intros H. exact (proj1 (Forall_lookup _ _) (ao_slots _ _ _ Hok) i p H). Qed.
Lemma get_pending_Ok i : (i < NANORTC_ICE_MAX_PENDING_CHECKS)%nat -> exists p, ic_pending ice !! i = Some p /\ get_pending (ic_pending ice) i = Ok p.
Proof using Hok.
  intros H. destruct (lookup_lt_is_Some_2 (ic_pending ice) i) as [p Hp]; [by rewrite (ao_pending _ _ _ Hok)|].
  exists p. unfold get_pending. by rewrite Hp.
Qed.
Lemma get_local_Ok i : (i < ic_local_count ice)%nat -> exists c, ic_locals ice !! i = Some c /\ get_cand (ic_locals ice) i = Ok c.
Proof using Hok.
  intros H. destruct (ao_locals _ _ _ Hok). destruct (lookup_lt_is_Some_2 (ic_locals ice) i) as [c Hc]; [lia|]. exists c. unfold get_cand. by rewrite Hc.
Qed.
Lemma get_remote_Ok i : (i < ic_remote_count ice)%nat -> exists c, ic_remotes ice !! i = Some c /\ get_cand (ic_remotes ice) i = Ok c.
Proof using Hok.
  intros H. destruct (ao_remotes _ _ _ Hok). destruct (lookup_lt_is_Some_2 (ic_remotes ice) i) as [c Hc]; [lia|]. exists c. unfold get_cand. by rewrite Hc.
Qed.
Lemma base_Ok i : ice_local_base_idx ice i = Ok (base_of ice i).
Proof using Hok.
  unfold base_of, ice_local_base_idx. destruct (Nat.ltb_spec i (ic_local_count ice)) as [H|]; [|done].
  destruct (get_local_Ok i H) as (c & _ & ->). rewrite bind_Ok. destruct (_ =? _); [|done].
  destruct (Nat.ltb_spec (ic_srflx_base ice) (ic_local_count ice)) as [H2|]; [|done].
  destruct (get_local_Ok _ H2) as (b & _ & ->). done.
Qed.
Lemma select_pair_Ok l r : (l < ic_local_count ice)%nat -> (r < ic_remote_count ice)%nat -> (base_of ice l, r) ∈ valid ->
  exists s c, ice_select_pair ice l r = Ok (with_selected ice s) /\ ic_remotes ice !! r = Some c /\ se_local_idx s = l /\
    se_addr s = ca_addr c /\ se_port s = ca_port c /\ se_family s = ca_family c.
Proof using Hok.
  intros Hl Hr Hv. unfold ice_select_pair. destruct (get_remote_Ok r Hr) as (c & Hc & ->). rewrite base_Ok, !bind_Ok.
  assert (exists b, (if (base_of ice l <? ic_local_count ice)%nat then get_cand (ic_locals ice) (base_of ice l) else Ok cand_zero) = Ok b) as [b ->].
  { destruct (Nat.ltb_spec (base_of ice l) (ic_local_count ice)) as [H|]; [|eauto]. destruct (get_local_Ok _ H) as (b & _ & ->). eauto. }
  rewrite bind_Ok. destruct (get_local_Ok l Hl) as (t & _ & ->). rewrite bind_Ok. by eexists _, c.
Qed.
(** The table with one slot changed, and a pair selected. *)
Lemma agent_select i p p' l r s c :
  ic_pending ice !! i = Some p ->
  slot_ok (ic_local_count ice) (ic_remote_count ice) (base_of ice) (ic_controlling ice) valid p' ->
  queue_ok (<[i := p']> (ic_pending ice)) -> pends p' <= pends p -> budget p' <= budget p ->
  (l < ic_local_count ice)%nat -> (r < ic_remote_count ice)%nat -> (base_of ice l, r) ∈ valid ->
  ic_remotes ice !! r = Some c -> se_local_idx s = l -> se_addr s = ca_addr c -> se_port s = ca_port c -> se_family s = ca_family c ->
  agent_ok (with_selected (with_pending ice (<[i := p']> (ic_pending ice))) s) valid sent.
Proof using Hok.
  intros Hp Hs Hq Hd Hb Hl Hr Hv Hc Hsl H1 H2 H3. destruct (agent_table ice valid sent i p p' Hok Hp Hs Hq Hd Hb).
  constructor; try done. intros _. split; [done|]. split; [cbn; lia|]. exists r, c. split; [|done].
  change (base_of (with_selected (with_pending ice (<[i := p']> (ic_pending ice))) s)) with (base_of ice). cbn. by rewrite Hsl.
Qed.
Lemma queue_check_Ok ps i p : ps !! i = Some p -> exists p', ice_queue_check ps i = Ok (<[i := p']> ps) /\
  p' = set_flags (set_sent p (total queued ps)) (flags_after_queue (pe_flags p)).
Proof using. intros H. unfold ice_queue_check, get_pending. rewrite H, bind_Ok, queue_length. by eexists. Qed.
End agent.

(** * Triggered checks *)

Definition idle_slot (p : ice_pending) : Prop := pe_in_flight p = false /\ hq (pe_flags p) = false.
Lemma idle_pends p : idle_slot p -> pends p = 0 /\ budget p = 0.
Proof. intros [H1 H2]. unfold pends, budget. by rewrite H1, H2. Qed.
Lemma zero_pends : pends pending_zero = 0 /\ budget pending_zero = 0.
Proof. done. Qed.
Lemma find_remote_Ok cs src k : forall i, (i + k <= length cs)%nat -> exists r, find_remote k cs i src = Ok r /\ (i <= r <= i + k)%nat.
Proof.
  induction k as [|k IH]; intros i H; cbn [find_remote]; [exists i; split; [done|lia]|].
  destruct (lookup_lt_is_Some_2 cs i ltac:(lia)) as [c Hc]. unfold get_cand. rewrite Hc, bind_Ok.
  destruct (ice_addr_matches c src); [exists i; split; [done|lia]|]. destruct (IH (S i) ltac:(lia)) as (r & -> & Hr). exists r. split; [done|lia].
Qed.

Section trigger.
Context (ice : nano_ice) (valid : list (nat * nat)) (sent : Z) (Hok : agent_ok ice valid sent).

Definition same_of (p : ice_pending) (base remote : nat) : bool :=
  (pe_in_flight p || negb (pe_flags p =? 0)) && (pe_remote p =? remote)%nat && (base_of ice (pe_local p) =? base)%nat.
Lemma same_check_Ok p base remote : same_check ice p base remote = Ok (same_of p base remote).
Proof using Hok.
  unfold same_check, same_of. destruct (_ && (_ =? _)%nat); [|done]. by rewrite (base_Ok ice valid sent Hok), bind_Ok.
Qed.
Lemma find_slot_Ok base remote ps : forall i slot, exists o, find_slot ice ps i base remote slot = Ok o /\
  forall j, o = Some j -> slot = Some j \/ exists p, (i <= j)%nat /\ ps !! (j - i)%nat = Some p /\ (same_of p base remote = true \/ idle_slot p).
Proof using Hok.
  induction ps as [|p ps IH]; intros i slot; cbn [find_slot]; [exists slot; split; [done|by left]|].
  rewrite same_check_Ok, bind_Ok. destruct (same_of p base remote) eqn:Hs.
  { eexists. split; [done|]. intros j [= <-]. right. exists p. split; [lia|]. rewrite Nat.sub_diag. split; [done|by left]. }
  set (slot' := match slot with None => _ | s => s end). destruct (IH (S i) slot') as (o & -> & Ho). exists o. split; [done|].
  intros j Hj. destruct (Ho j Hj) as [Hs'|(q & Hij & Hq & H)].
  - unfold slot' in Hs'. destruct slot as [s|]; [by left|]. destruct (negb (pe_in_flight p) && _) eqn:E; [|done]. injection Hs' as <-. bool_facts.
    right. exists p. split; [lia|]. rewrite Nat.sub_diag. split; [done|]. by right.
  - right. exists q. split; [lia|]. replace (j - i)%nat with (S (j - S i)) by lia. done.
Qed.
(** Learning a peer-reflexive candidate. *)
Lemma agent_learn c : (ic_remote_count ice < NANORTC_MAX_ICE_CANDIDATES)%nat ->
  agent_ok (with_remotes ice (<[ic_remote_count ice := c]> (ic_remotes ice)) (S (ic_remote_count ice))) valid sent.
Proof using Hok.
  intros Hr. destruct Hok. constructor; try done; cbn [with_remotes ic_remotes ic_remote_count ic_pending ic_local_count ic_controlling ic_state ic_selected ic_nominated].
  - rewrite length_insert. split; [apply ao_remotes0 | lia].
  - eapply Forall_impl; [|exact ao_slots0]. intros p. apply slot_mono; [lia | done].
  - intros H. destruct (ao_selected0 H) as (H1 & H2 & r & c' & H3 & H4 & H5 & H6). split; [done|]. split; [done|]. exists r, c'. split; [done|].
    split; [lia|]. rewrite list_lookup_insert_ne by lia. done.
Qed.
End trigger.

(** [p'] may take the place of [p]. *)
Record replaces (ice : nano_ice) (valid : list (nat * nat)) (p p' : ice_pending) : Prop := {
  re_slot : slot_ok (ic_local_count ice) (ic_remote_count ice) (base_of ice) (ic_controlling ice) valid p';
  re_pair : (pe_local p' < ic_local_count ice)%nat /\ (pe_remote p' < ic_remote_count ice)%nat;
  re_queue : hq (pe_flags p') = hq (pe_flags p) /\ (hq (pe_flags p) = true -> pe_sent_at_ms p' = pe_sent_at_ms p);
  re_weights : pends p' <= pends p /\ budget p' <= budget p
}.
Lemma replaces_nominate ice valid p p' : ic_controlling ice = false -> replaces ice valid p p' ->
  replaces ice valid p (set_flags p' (Z.lor (pe_flags p') ICE_CHECK_NOMINATE)).
Proof.
  intros Hc [[] Hp [Hq1 Hq2] [Hw1 Hw2]]. destruct (nominate_flags _ so_flags0) as (F1 & F2 & F3 & F4 & F5 & F6).
  change (hq (Z.lor (pe_flags p') ICE_CHECK_NOMINATE) = hq (pe_flags p')) in F2. change (hv (Z.lor (pe_flags p') ICE_CHECK_NOMINATE) = hv (pe_flags p')) in F3.
  change (hn (Z.lor (pe_flags p') ICE_CHECK_NOMINATE) = true) in F4. change (ht (Z.lor (pe_flags p') ICE_CHECK_NOMINATE) = ht (pe_flags p')) in F5.
  constructor; [constructor|..]; unfold pends, budget in *; cbn [set_flags pe_txid pe_flags pe_in_flight pe_local pe_remote pe_sent_at_ms];
    rewrite ?F2, ?F3, ?F4, ?F5, ?F6; try done. congruence.
Qed.
(** The slot kept, or taken for the new pair. *)
Lemma replaces_pair ice valid sent p slot local remote :
  agent_ok ice valid sent -> ic_pending ice !! slot = Some p -> (local < ic_local_count ice)%nat -> (remote < ic_remote_count ice)%nat ->
  same_of ice p (base_of ice local) remote = true \/ idle_slot p ->
  let keep := same_of ice p (base_of ice local) remote in
  let p' := if keep then p else set_pair pending_zero local remote in
  replaces ice valid p p' /\ pe_remote p' = remote.
Proof.
  intros Hok Hp Hl Hr Hcase keep p'. pose proof (slot_at ice valid sent Hok slot p Hp) as Hs. unfold p', keep, same_of in *.
  destruct (_ && _ && _) eqn:E.
  - bool_facts. split; [|done]. constructor; [done | | done | lia]. apply (so_pair _ _ _ _ _ _ Hs).
    destruct (pe_in_flight p); [by left|right]. cbn [orb] in *. bool_facts. done.
  - destruct Hcase as [?|Hi]; [done|]. split; [|done]. pose proof (idle_pends p Hi) as [W1 W2]. destruct Hi as [H1 H2].
    constructor; [|done| |rewrite W1, W2; done].
    + by constructor.
    + by rewrite H2.
Qed.
Lemma replaces_table ice valid sent slot p p' : agent_ok ice valid sent -> ic_pending ice !! slot = Some p -> replaces ice valid p p' ->
  agent_ok (with_pending ice (<[slot := p']> (ic_pending ice))) valid sent.
Proof.
  intros Hok Hp [H1 H2 [H3 H4] [H5 H6]]. apply (agent_table _ _ _ _ p); try done. by apply (queue_same _ _ p), H4; [apply Hok|..].
Qed.
(** The slot is queued as a triggered check. *)
Lemma replaces_trigger ice valid sent slot p p' : agent_ok ice valid sent -> ic_pending ice !! slot = Some p -> replaces ice valid p p' ->
  hv (pe_flags p') = false -> ht (pe_flags p') = false ->
  let p2 := set_flags (set_in_flight p' false) (flags_after_trigger (pe_flags p')) in
  exists ps, ice_queue_check (<[slot := p2]> (<[slot := p']> (ic_pending ice))) slot = Ok ps /\ agent_ok (with_pending ice ps) valid sent.
Proof.
  intros Hok Hp [H1 H2 [H3 H4] [H5 H6]] Hv Ht p2. pose proof (lookup_lt_Some _ _ _ Hp) as Hlt. rewrite list_insert_insert_eq.
  assert ((<[slot := p2]> (ic_pending ice)) !! slot = Some p2) as Hp2 by (by rewrite list_lookup_insert_eq).
  destruct (queue_check_Ok _ slot p2 Hp2) as (p3 & -> & Hp3). rewrite list_insert_insert_eq. eexists. split; [done|].
  pose proof (so_flags _ _ _ _ _ _ H1) as Hf. destruct (trigger_flags _ Hf) as (F1 & F2 & F3 & F4 & F5 & F6).
  destruct (queue_flags (pe_flags p2) F1) as (G1 & G2 & G3 & G4 & G5 & G6).
  assert (hq (pe_flags p) = false) as Hq.
  { rewrite <- H3. destruct (hq (pe_flags p')) eqn:E; [|done]. destruct (so_queued _ _ _ _ _ _ H1 E); congruence. }
  assert (pe_flags p3 = flags_after_queue (pe_flags p2) /\ pe_in_flight p3 = false /\ pe_local p3 = pe_local p' /\ pe_remote p3 = pe_remote p' /\
    pe_txid p3 = pe_txid p' /\ pe_sent_at_ms p3 = total queued (ic_pending ice)) as (E1 & E2 & E3 & E4 & E5 & E6).
  { rewrite Hp3. split_and!; try done. cbn [pe_sent_at_ms set_flags set_sent]. rewrite (total_insert _ _ _ _ _ Hp). unfold queued at 2 3.
    change (hq (pe_flags p2)) with (has (flags_after_trigger (pe_flags p')) ICE_CHECK_QUEUED). rewrite F2, Hq. lia. }
  unfold hq, hv, hn, ht in *. cbn [p2 set_flags pe_flags] in *. rewrite F3 in G3. rewrite F4 in G4. rewrite F5 in G5.
  apply (agent_table _ _ _ _ p); try done.
  - constructor; rewrite ?E1, ?E2, ?E3, ?E4, ?E5; unfold hq, hv, hn, ht; rewrite ?G2, ?G3, ?G4, ?G5; try done.
    + apply H1.
    + intros _. by right.
    + intros Hc Hn. pose proof (so_nominate _ _ _ _ _ _ H1 Hc Hn) as Hx. unfold hv in Hx. congruence.
  - apply (queue_push _ _ p); try done; [apply Hok |]. by rewrite E1.
  - assert (pends p3 = 0) as ->; [|apply pends_range]. unfold pends. rewrite E1, E2. unfold hq, hv. by rewrite G3, Bool.andb_false_r.
  - unfold budget at 1. rewrite E2. unfold budget. destruct (pe_in_flight p) eqn:Ei; [|done].
    pose proof (so_apart _ _ _ _ _ _ (slot_at ice valid sent Hok slot p Hp) Ei). lia.
Qed.
Lemma trigger_Ok ice valid sent local src nominate :
  agent_ok ice valid sent -> (nominate = true -> ic_controlling ice = false) ->
  exists ice' b, ice_trigger_check ice local src nominate = Ok (ice', b) /\ agent_ok ice' valid sent.
Proof.
  intros Hok Hnom. unfold ice_trigger_check. destruct (_ || _ || _); [by eexists _, _|].
  destruct (Nat.leb_spec (ic_local_count ice) local) as [|Hl]; [rewrite bind_Ok; by eexists _, _|].
  destruct (get_local_Ok ice valid sent Hok local Hl) as (lc & _ & ->). rewrite !bind_Ok. destruct (negb _); [by eexists _, _|].
  pose proof (ao_remotes _ _ _ Hok) as [Hr1 Hr2].
  destruct (find_remote_Ok (ic_remotes ice) src (ic_remote_count ice) 0 ltac:(lia)) as (remote & -> & Hrem). rewrite bind_Ok.
  rewrite (base_Ok ice valid sent Hok), bind_Ok.
  destruct (find_slot_Ok ice valid sent Hok (base_of ice local) remote (ic_pending ice) 0 None) as (o & -> & Ho). rewrite bind_Ok.
  destruct o as [slot|]; [|by eexists _, _]. destruct (Nat.leb_spec NANORTC_MAX_ICE_CANDIDATES remote) as [|Hmax]; [by eexists _, _|].
  destruct (Ho slot eq_refl) as [?|(p & _ & Hp & Hcase)]; [done|]. rewrite Nat.sub_0_r in Hp. clear Ho.
  set (ice1 := if (remote =? ic_remote_count ice)%nat then _ else ice).
  assert (agent_ok ice1 valid sent /\ (remote < ic_remote_count ice1)%nat /\ ic_pending ice1 = ic_pending ice /\ ic_local_count ice1 = ic_local_count ice /\
    base_of ice1 = base_of ice /\ ic_controlling ice1 = ic_controlling ice) as (Hok1 & Hrem1 & Hps1 & Hlc1 & Hb1 & Hctl1).
  { unfold ice1. destruct (Nat.eqb_spec remote (ic_remote_count ice)) as [->|]; [|split_and!; try done; lia].
    split_and!; try done; [by apply agent_learn | cbn; lia]. }
  unfold get_pending. rewrite Hps1, Hp, bind_Ok. clearbody ice1. rewrite <- Hps1 in Hp.
  assert ((if negb (pe_in_flight p) && (pe_flags p =? 0) || negb (pe_remote p =? remote)%nat then Ok false
           else b ← ice_local_base_idx ice1 (pe_local p); Ok (b =? base_of ice local)%nat) = Ok (same_of ice p (base_of ice local) remote)) as ->.
  { rewrite (base_Ok ice1 valid sent Hok1), bind_Ok, Hb1. unfold same_of. destruct (pe_in_flight p), (pe_flags p =? 0), (pe_remote p =? remote)%nat; done. }
  rewrite bind_Ok. set (keep := same_of ice p (base_of ice local) remote). set (p0 := if keep then p else _).
  assert (replaces ice1 valid p p0 /\ pe_remote p0 = remote) as [Hrep Hpr].
  { pose proof (replaces_pair ice1 valid sent p slot local remote Hok1 Hp ltac:(lia) Hrem1) as H. unfold same_of in H. rewrite Hb1 in H. by apply H. }
  clearbody p0. clear Hcase. rewrite <- Hps1. set (p1 := if nominate then _ else p0).
  assert (replaces ice1 valid p p1 /\ pe_remote p1 = remote /\ pe_local p1 = pe_local p0) as (Hrep1 & Hpr1 & Hpl1).
  { unfold p1. destruct nominate; [|done]. split; [|done]. apply replaces_nominate; [rewrite Hctl1; by apply Hnom | done]. }
  clearbody p1. change (flagged p1 ICE_CHECK_VALID) with (hv (pe_flags p1)). change (flagged p1 ICE_CHECK_TRIGGERED) with (ht (pe_flags p1)).
  destruct (hv (pe_flags p1)) eqn:Hv.
  - destruct nominate; [|eexists _, _; split; [done|]; by eapply replaces_table].
    pose proof (replaces_table ice1 valid sent slot p p1 Hok1 Hp Hrep1) as Hok2. destruct (re_pair _ _ _ _ Hrep1) as [Hl1 _].
    pose proof (so_valid _ _ _ _ _ _ (re_slot _ _ _ _ Hrep1) Hv) as Hin. rewrite Hpr1 in Hin.
    destruct (select_pair_Ok _ valid sent Hok2 (pe_local p1) remote Hl1 Hrem1 Hin) as (se & c & -> & Hc & Hse & A1 & A2 & A3). rewrite bind_Ok.
    eexists _, _. split; [done|]. destruct Hrep1 as [R1 R2 [R3 R4] [R5 R6]].
    eapply (agent_select ice1 valid sent Hok1 slot p p1 (pe_local p1) remote se c); try done. apply (queue_same _ _ p); [apply Hok1 | done..].
  - destruct (ht (pe_flags p1)) eqn:Ht; [eexists _, _; split; [done|]; by eapply replaces_table|].
    destruct (replaces_trigger ice1 valid sent slot p p1 Hok1 Hp Hrep1 Hv Ht) as (ps & Hps & Hokps).
    change (Z.lor (Z.land (pe_flags p1) ICE_CHECK_NOMINATE) ICE_CHECK_TRIGGERED) with (flags_after_trigger (pe_flags p1)).
    rewrite Hps, bind_Ok. by eexists _, _.
Qed.

(** * Datagrams *)

Section handlers.
Context (hmac_sha1 : list Z -> list Z -> list Z).
Context (hmac_length : forall k x, length (hmac_sha1 k x) = 20%nat).

Lemma cred_text_Ok c size : cred_ok c size -> cred_text c = Ok (take (cr_len c) (cr_buf c)).
Proof using. intros [H1 H2]. unfold cred_text. rewrite rdn_Ok by lia. by rewrite drop_0. Qed.
Lemma authentic_total data msg c size : cred_ok c size -> exists rc, stun_authentic hmac_sha1 data msg c = Ok rc.
Proof using.
  intros Hc. unfold stun_authentic. destruct (m_fingerprint msg); [|by eexists]. destruct (verify_fingerprint_total data) as [rc ->]. rewrite bind_Ok.
  destruct (negb _); [by eexists|]. destruct (m_integrity msg); [|by eexists]. rewrite (cred_text_Ok c size Hc), bind_Ok. apply verify_integrity_total.
Qed.
Lemma find_txid_spec txid ps : forall i slot, find_txid txid ps i = Some slot ->
  exists p, (i <= slot)%nat /\ ps !! (slot - i)%nat = Some p /\ pe_in_flight p = true /\ pe_txid p = txid.
Proof using.
  induction ps as [|p ps IH]; intros i slot H; [done|]. cbn [find_txid] in H. destruct (_ && _) eqn:E.
  - injection H as <-. bool_facts. exists p. rewrite Nat.sub_diag. split; [lia|]. split; [done|]. split; [done|]. symmetry. by eapply bool_decide_eq_true_1.
  - destruct (IH (S i) slot H) as (q & H1 & H2 & H3). exists q. split; [lia|]. replace (slot - i)%nat with (S (slot - S i)) by lia. done.
Qed.
Lemma find_reflexive_Ok ice valid sent mapped base k : agent_ok ice valid sent -> forall i, (i + k = ic_local_count ice)%nat ->
  exists o, find_reflexive k ice mapped base i = Ok o /\ forall j, o = Some j -> (j < ic_local_count ice)%nat /\ base_of ice j = base.
Proof using.
  intros Hok. induction k as [|k IH]; intros i Hi; cbn [find_reflexive]; [by exists None|].
  destruct (get_local_Ok ice valid sent Hok i ltac:(lia)) as (c & _ & ->). rewrite bind_Ok.
  destruct (IH (S i) ltac:(lia)) as (o & Ho & Hj). destruct (_ && _ && _ && _); [|rewrite Ho; by exists o].
  rewrite (base_Ok ice valid sent Hok), bind_Ok. destruct (Nat.eqb_spec (base_of ice i) base) as [Hb|]; [|rewrite Ho; by exists o].
  eexists. split; [done|]. intros j [= <-]. split; [lia|done].
Qed.
Lemma same_path_Ok ice valid sent p src local_idx via_turn : agent_ok ice valid sent ->
  exists b, same_path ice p src local_idx via_turn = Ok b /\
    (b = true -> (pe_local p < ic_local_count ice)%nat /\ (pe_remote p < ic_remote_count ice)%nat).
Proof using.
  intros Hok. unfold same_path. destruct (_ || _) eqn:E; [by eexists|]. bool_facts.
  destruct (get_remote_Ok ice valid sent Hok (pe_remote p) ltac:(lia)) as (c & _ & ->). rewrite bind_Ok.
  destruct (negb _); [by eexists|]. destruct (local_idx <? _)%nat; [|eexists; split; [done|]; lia].
  rewrite !(base_Ok ice valid sent Hok), !bind_Ok. eexists. split; [done|]. lia.
Qed.

(** The pair that a datagram confirms: an authenticated response to the check in
    flight under its transaction id, on that check's path. *)
Definition confirms (ice : nano_ice) (data : list Z) (src : nanortc_addr) (local_idx : nat) (via_turn : bool) : list (nat * nat) :=
  match stun_parse data with
  | Ok msg =>
      if (m_type msg =? STUN_BINDING_RESPONSE) && negb (co_pending (ic_consent ice) && bool_decide (m_txid msg = co_txid (ic_consent ice))) then
        match find_txid (m_txid msg) (ic_pending ice) 0 with
        | Some slot =>
            match ic_pending ice !! slot, stun_authentic hmac_sha1 data msg (ic_rpwd ice) with
            | Some p, Ok 0 =>
                match same_path ice p src local_idx via_turn with Ok true => [(base_of ice (pe_local p), pe_remote p)] | _ => [] end
            | _, _ => []
            end
        | None => []
        end
      else []
  | _ => []
  end.
(** A confirmed slot, with the flags the response leaves it. *)
Lemma confirmed_slot ice valid sent slot p refl f :
  agent_ok ice valid sent -> ic_pending ice !! slot = Some p -> pe_in_flight p = true ->
  (forall j, refl = Some j -> (j < ic_local_count ice)%nat /\ base_of ice j = base_of ice (pe_local p)) ->
  (base_of ice (pe_local p), pe_remote p) ∈ valid ->
  let q := match refl with Some i => set_pair (set_in_flight p false) i (pe_remote p) | None => set_in_flight p false end in
  (f = pe_flags p \/ f = ICE_CHECK_VALID) ->
  replaces ice valid p (set_flags q f) /\ pe_remote q = pe_remote p /\ base_of ice (pe_local q) = base_of ice (pe_local p) /\
    (pe_local q < ic_local_count ice)%nat /\ (pe_remote q < ic_remote_count ice)%nat.
Proof using.
  intros Hok Hp Hin Hrefl Hv q Hf. pose proof (slot_at ice valid sent Hok slot p Hp) as Hs. destruct (so_pair _ _ _ _ _ _ Hs ltac:(by left)) as [Hl Hr].
  destruct (so_apart _ _ _ _ _ _ Hs Hin) as [Hq Hret].
  assert (pe_remote q = pe_remote p /\ base_of ice (pe_local q) = base_of ice (pe_local p) /\ (pe_local q < ic_local_count ice)%nat /\
    pe_txid q = pe_txid p /\ pe_in_flight q = false) as (Q1 & Q2 & Q3 & Q4 & Q5).
  { unfold q. destruct refl as [j|]; [|done]. destruct (Hrefl j eq_refl). done. }
  clearbody q. split; [|split_and!; [done..| lia]]. assert (hq f = false) as Hqf by (destruct Hf as [-> | ->]; done).
  constructor; [constructor|..]; unfold pends, budget; cbn [set_flags pe_txid pe_flags pe_in_flight pe_local pe_remote pe_sent_at_ms];
    rewrite ?Q1, ?Q2, ?Q4, ?Q5, ?Hqf, ?Hq; try done.
  - apply Hs.
  - destruct Hf as [-> | ->]; [apply Hs | unfold is_u8, ICE_CHECK_VALID; lia].
  - intros Hc Hn. destruct Hf as [-> | ->]; [by apply (so_nominate _ _ _ _ _ _ Hs) | done].
  - intros [?|?]; congruence.
  - rewrite Hin. cbn [andb orb]. split; [destruct (_ || _)|]; lia.
Qed.

Lemma response_Ok ice valid sent data msg src local_idx via_turn :
  agent_ok ice valid sent -> stun_parse data = Ok msg -> m_type msg = STUN_BINDING_RESPONSE ->
  exists ice' rc, ice_handle_response hmac_sha1 ice data msg src local_idx via_turn = Ok (ice', rc) /\
    agent_ok ice' (valid ++ confirms ice data src local_idx via_turn) sent.
Proof using.
  intros Hok Hparse Hty. unfold confirms. rewrite Hparse, Hty. cbn [Z.eqb STUN_BINDING_RESPONSE Pos.eqb andb].
  pose proof (ao_creds _ _ _ Hok) as (_ & _ & _ & Hpwd). unfold ice_handle_response. cbv zeta.
  destruct (authentic_total data msg _ _ Hpwd) as [rc Hrc].
  assert (forall x, agent_ok ice x sent -> agent_ok ice (x ++ []) sent) as Hnil by (intros x; by rewrite app_nil_r).
  destruct (co_pending _ && _) eqn:Hco; cbn [negb].
  { rewrite Hrc, bind_Ok. destruct (negb _); eexists _, _; (split; [done|]); rewrite app_nil_r; [done|]. by destruct Hok; constructor. }
  destruct (find_txid (m_txid msg) (ic_pending ice) 0) as [slot|] eqn:Hfind; [|eexists _, _; split; [done|]; by apply Hnil].
  destruct (find_txid_spec _ _ _ _ Hfind) as (p & _ & Hp & Hin & _). rewrite Nat.sub_0_r in Hp.
  rewrite Hp, Hrc, bind_Ok. destruct (Z.eqb_spec rc NANORTC_OK) as [->|Hne]; cbn [negb].
  2: { eexists _, _. split; [done|]. destruct rc; [done|..]; by apply Hnil. }
  change (match NANORTC_OK with 0 => ?a | _ => _ end) with a. unfold get_pending. rewrite Hp, bind_Ok.
  destruct (same_path_Ok ice valid sent p src local_idx via_turn Hok) as (b & -> & Hpath). rewrite bind_Ok.
  destruct b; cbn [negb]; [|eexists _, _; split; [done|]; by apply Hnil]. destruct (Hpath eq_refl) as [Hl Hr].
  set (valid' := valid ++ [(base_of ice (pe_local p), pe_remote p)]).
  assert (agent_ok ice valid' sent) as Hok' by (apply (agent_valid ice valid); [|done]; intros x Hx; apply elem_of_app; by left).
  assert ((base_of ice (pe_local p), pe_remote p) ∈ valid') as Hin' by (apply elem_of_app; right; left).
  rewrite (base_Ok ice valid sent Hok), bind_Ok.
  destruct (find_reflexive_Ok ice valid sent (m_mapped msg) (base_of ice (pe_local p)) (ic_local_count ice) Hok 0 ltac:(lia)) as (refl & -> & Hrefl). rewrite bind_Ok.
  pose proof (fun f => confirmed_slot ice valid' sent slot p refl f Hok' Hp Hin Hrefl Hin') as Hslot. cbv zeta in Hslot.
  set (q := match refl with Some i => _ | None => _ end) in *.
  destruct (Hslot (pe_flags p) ltac:(by left)) as (Hsame & Hqr & Hqb & Hql & Hqn). destruct (Hslot ICE_CHECK_VALID ltac:(by right)) as (Hval & _).
  assert (pe_in_flight q = false) as Hqi by (unfold q; by destruct refl). assert (pe_flags q = pe_flags p) as Hqf by (unfold q; by destruct refl). assert (set_flags q (pe_flags p) = q) as Hqq by (rewrite <- Hqf; by destruct q).
  clearbody q. destruct (bool_decide (ic_state ice = _)) eqn:Hconn.
  { eexists _, _. split; [done|]. rewrite Hqq in Hsame. by eapply replaces_table. }
  destruct (flagged q ICE_CHECK_NOMINATE) eqn:Hnom.
  { assert ((base_of ice (pe_local q), pe_remote q) ∈ valid') as Hqin by (by rewrite Hqb, Hqr).
    destruct (select_pair_Ok ice valid' sent Hok' (pe_local q) (pe_remote q) Hql Hqn Hqin) as (s & c & -> & Hc & Hse & A1 & A2 & A3). rewrite bind_Ok.
    eexists _, _. split; [done|]. destruct Hval as [R1 R2 [R3 R4] [R5 R6]].
    change (with_pending (with_selected ice s) (<[slot := set_flags q ICE_CHECK_VALID]> (ic_pending (with_selected ice s))))
      with (with_selected (with_pending ice (<[slot := set_flags q ICE_CHECK_VALID]> (ic_pending ice))) s).
    eapply (agent_select ice valid' sent Hok' slot p _ (pe_local q) (pe_remote q) s c); try done. apply (queue_same _ _ p); [apply Hok | done..]. }
  destruct (ic_controlling ice) eqn:Hctl; [|eexists _, _; split; [done|]; by eapply replaces_table].
  set (p2 := set_flags q (Z.lor ICE_CHECK_VALID ICE_CHECK_NOMINATE)).
  pose proof (lookup_lt_Some _ _ _ Hp) as Hlt. assert ((<[slot := p2]> (ic_pending ice)) !! slot = Some p2) as Hp2 by (by rewrite list_lookup_insert_eq).
  destruct (queue_check_Ok _ slot p2 Hp2) as (p3 & -> & Hp3). rewrite bind_Ok, list_insert_insert_eq. eexists _, _. split; [done|].
  pose proof (slot_at ice valid sent Hok slot p Hp) as Hs. destruct (so_apart _ _ _ _ _ _ Hs Hin) as [Hpq Hret].
  assert (pe_flags p3 = 7 /\ pe_in_flight p3 = false /\ pe_local p3 = pe_local q /\ pe_remote p3 = pe_remote q /\ pe_txid p3 = pe_txid q /\
    pe_sent_at_ms p3 = total queued (ic_pending ice)) as (E1 & E2 & E3 & E4 & E5 & E6).
  { rewrite Hp3. split_and!; try done. cbn [pe_sent_at_ms set_flags set_sent]. rewrite (total_insert _ _ _ _ _ Hp). unfold queued at 2 3.
    change (hq (pe_flags p2)) with false. rewrite Hpq. lia. }
  assert (pends p = 1) as Hone.
  { unfold pends. rewrite Hin. destruct (hv (pe_flags p)) eqn:Hv; [|done]. pose proof (so_again _ _ _ _ _ _ Hs ltac:(by left) Hv) as Hn.
    change (hn (pe_flags q) = false) in Hnom. congruence. }
  pose proof (re_slot _ _ _ _ Hsame) as Hsl. rewrite Hqq in Hsl.
  apply (agent_table _ _ _ _ p); try done.
  - constructor; rewrite ?E1, ?E2, ?E3, ?E4, ?E5; try done; [apply Hsl | by left | by rewrite Hqb, Hqr].
  - apply (queue_push _ _ p); try done; [apply Hok | by rewrite E1].
  - pose proof (pends_range p3). lia.
  - unfold budget. rewrite E2, Hin. lia.
Qed.
Lemma error_Ok ice valid sent data msg :
  agent_ok ice valid sent -> exists ice' rc, ice_handle_error hmac_sha1 ice data msg = Ok (ice', rc) /\ agent_ok ice' valid sent.
Proof using.
  intros Hok. pose proof (ao_creds _ _ _ Hok) as (_ & _ & _ & Hpwd). unfold ice_handle_error.
  destruct (authentic_total data msg _ _ Hpwd) as [rc ->]. rewrite bind_Ok. destruct (negb _); [by eexists _, _|].
  destruct (find_txid (m_txid msg) (ic_pending ice) 0) as [slot|] eqn:Hfind; [|by eexists _, _].
  destruct (find_txid_spec _ _ _ _ Hfind) as (p & _ & Hp & Hin & _). rewrite Nat.sub_0_r in Hp. eexists _, _. split; [done|].
  destruct (so_apart _ _ _ _ _ _ (slot_at ice valid sent Hok slot p Hp) Hin) as [Hpq Hret].
  apply (agent_table _ _ _ _ p); try done; [apply slot_zero | apply (queue_same _ _ p); [apply Hok | done | by rewrite Hpq | by rewrite Hpq] | |].
  - destruct zero_pends as [-> _]. apply pends_range.
  - unfold budget. rewrite Hin. cbn. lia.
Qed.

Lemma find_local_Ok ice valid sent P k : agent_ok ice valid sent -> forall i, (i + k <= ic_local_count ice)%nat -> exists j, find_local P k (ic_locals ice) i = Ok j.
Proof using.
  intros Hok. induction k as [|k IH]; intros i Hi; cbn [find_local]; [by eexists|].
  destruct (get_local_Ok ice valid sent Hok i ltac:(lia)) as (c & _ & ->). rewrite bind_Ok. destruct (P c); [by eexists|]. apply IH. lia.
Qed.
Lemma resolve_local_Ok ice valid sent src local_idx via_turn : agent_ok ice valid sent -> exists j, resolve_local ice src local_idx via_turn = Ok j.
Proof using.
  intros Hok. unfold resolve_local, ice_find_local_idx_by_family. destruct via_turn; [apply (find_local_Ok _ _ _ _ _ Hok); lia|].
  destruct (_ <=? _)%nat; [|by eexists]. destruct (_ =? 0); [by eexists|]. apply (find_local_Ok _ _ _ _ _ Hok). lia.
Qed.
Lemma verify_username_Ok ice valid sent msg : agent_ok ice valid sent -> exists b, ice_verify_username ice msg = Ok b.
Proof using.
  intros Hok. pose proof (ao_creds _ _ _ Hok) as ([L1 L2] & _ & [R1 R2] & _). unfold ice_verify_username, cred_is. destruct (m_username msg) as [u|]; [|by eexists]. cbv zeta.
  destruct (_ || _ || _); [by eexists|]. destruct (find_octet 58 u 0) as [n|]; [|by eexists]. destruct (Nat.eqb_spec n (cr_len (ic_lufrag ice))) as [->|]; cbn [negb]; [|by eexists].
  rewrite (rdn_Ok (cr_buf (ic_lufrag ice))) by lia. rewrite !bind_Ok. destruct (_ || _); [by eexists|]. destruct (_ =? 0)%nat; [by eexists|].
  destruct (Nat.eqb_spec (length u - cr_len (ic_lufrag ice) - 1) (cr_len (ic_rufrag ice))) as [->|]; cbn [negb]; [|by eexists].
  rewrite (rdn_Ok (cr_buf (ic_rufrag ice))) by lia. rewrite bind_Ok. by eexists.
Qed.
Definition addr_ok (a : nanortc_addr) : Prop := length (ad_addr a) = NANORTC_ADDR_SIZE /\ bytes (ad_addr a).
Lemma request_Ok ice valid sent data msg src local_idx via_turn buf :
  agent_ok ice valid sent -> length (m_txid msg) = STUN_TXID_SIZE -> addr_ok src ->
  exists ice' rc buf' n, ice_handle_request hmac_sha1 ice data msg src local_idx via_turn buf = Ok (ice', rc, buf', n) /\ agent_ok ice' valid sent.
Proof using hmac_length.
  intros Hok Htx [Ha1 Ha2]. pose proof (ao_creds _ _ _ Hok) as (_ & Hpwd & _). unfold ice_handle_request.
  destruct (m_fingerprint msg); [|by eexists _, _, _, _]. destruct (verify_fingerprint_total data) as [rc ->]. rewrite bind_Ok.
  destruct (negb _); [by eexists _, _, _, _|]. destruct (verify_username_Ok ice valid sent msg Hok) as [b ->]. rewrite bind_Ok.
  destruct (negb b); [by eexists _, _, _, _|]. destruct (m_integrity msg); [|by eexists _, _, _, _].
  rewrite (cred_text_Ok _ _ Hpwd), bind_Ok. set (key := take _ _). destruct (verify_integrity_total hmac_sha1 data msg key) as [rc2 ->]. rewrite bind_Ok.
  destruct (negb _); [by eexists _, _, _, _|]. cbv zeta. destruct (Z.eqb_spec (addr_to_stun_family (ad_family src)) 0) as [|Hf]; [by eexists _, _, _, _|].
  assert (family_ok (addr_to_stun_family (ad_family src))) as Hfam.
  { unfold addr_to_stun_family in *. destruct (_ =? 4); [by left|]. destruct (_ =? 6); [by right|]. done. }
  rewrite (encode_binding_response_spec hmac_sha1 hmac_length) by (try done; unfold addr_size, NANORTC_ADDR_SIZE in *; destruct (_ =? _); lia).
  destruct (length buf <? 76)%nat; [by eexists _, _, _, _|]. destruct (resolve_local_Ok ice valid sent src local_idx via_turn Hok) as [r ->]. rewrite bind_Ok.
  destruct (trigger_Ok ice valid sent r src (m_use_candidate msg && negb (ic_controlling ice)) Hok) as (ice' & adm & -> & Hok').
  { intros H. bool_facts. done. }
  rewrite bind_Ok. destruct (negb adm); by eexists _, _, _, _.
Qed.
Lemma stun_Ok ice valid sent data src local_idx via_turn buf :
  agent_ok ice valid sent -> bytes data -> addr_ok src ->
  exists ice' rc buf' n, ice_handle_stun hmac_sha1 ice data src local_idx via_turn buf = Ok (ice', rc, buf', n) /\
    agent_ok ice' (valid ++ confirms ice data src local_idx via_turn) sent.
Proof using hmac_length.
  intros Hok Hb Hsrc. pose proof (stun_parse_wp data Hb) as Hwp. pose proof (wp_safe _ _ Hwp) as Hsafe. pose proof (fun m => wp_elim _ _ m Hwp) as Hmsg. unfold ice_handle_stun.
  assert (forall ice', confirms ice data src local_idx via_turn = [] -> agent_ok ice' valid sent -> agent_ok ice' (valid ++ confirms ice data src local_idx via_turn) sent) as Hnil
    by (intros ice' ->; by rewrite app_nil_r).
  destruct (stun_parse data) as [msg|rc|] eqn:Hparse; [|eexists _, _, _, _; split; [done|]; apply Hnil; [unfold confirms; by rewrite Hparse | done] | done].
  assert (m_type msg <> STUN_BINDING_RESPONSE -> confirms ice data src local_idx via_turn = []) as Hno.
  { intros H. unfold confirms. rewrite Hparse. by rewrite (proj2 (Z.eqb_neq _ _)). }
  destruct (Z.eqb_spec (m_type msg) STUN_BINDING_REQUEST) as [Ht|_].
  { destruct (request_Ok ice valid sent data msg src local_idx via_turn buf Hok (mo_txid _ (Hmsg msg eq_refl)) Hsrc) as (ice' & rc & b & n & -> & Hok').
    eexists _, _, _, _. split; [done|]. apply Hnil; [apply Hno; by rewrite Ht | done]. }
  destruct (Z.eqb_spec (m_type msg) STUN_BINDING_RESPONSE) as [Ht|Hne].
  { destruct (response_Ok ice valid sent data msg src local_idx via_turn Hok Hparse Ht) as (ice' & rc & -> & Hok'). rewrite bind_Ok. by eexists _, _, _, _. }
  destruct (_ =? STUN_BINDING_ERROR); [|eexists _, _, _, _; split; [done|]; apply Hnil; [by apply Hno | done]].
  destruct (error_Ok ice valid sent data msg Hok) as (ice' & rc & -> & Hok'). rewrite bind_Ok. eexists _, _, _, _. split; [done|]. apply Hnil; [by apply Hno | done].
Qed.
End handlers.

(** * Timers *)

Lemma retry_delay_small f : is_u8 f -> forall p, pe_flags p = f -> ice_retry_delay p < 5000 -> retries f <= 3.
Proof.
  intros Hf p Hp H. unfold ice_retry_delay in H. rewrite Hp in H. change (Z.shiftr f ICE_CHECK_RETRY_SHIFT) with (retries f) in H.
  pose proof (retries_range f Hf). destruct (Z.le_gt_cases (retries f) 3) as [|Hgt]; [done|]. exfalso.
  assert (retries f = 4 \/ retries f = 5 \/ retries f = 6 \/ retries f = 7 \/ retries f = 8 \/ retries f = 9 \/ retries f = 10 \/ retries f = 11 \/
    retries f = 12 \/ retries f = 13 \/ retries f = 14 \/ retries f = 15) as Hc by lia.
  repeat destruct Hc as [Hc|Hc]; rewrite Hc in H; vm_compute in H; discriminate.
Qed.
(** A check [ice_get_check] may hand to [ice_send_check]. *)
Inductive check_ok (ice : nano_ice) (c : ice_check) : Prop :=
| ck_fail : ch_expire c = true -> ch_slot c = None -> check_ok ice c
| ck_expire i p : ch_expire c = true -> ch_slot c = Some i -> ic_pending ice !! i = Some p -> check_ok ice c
| ck_again i p : ch_expire c = false -> ch_slot c = Some i -> ch_retransmit c = true -> ic_pending ice !! i = Some p ->
    pe_in_flight p = true -> retries (pe_flags p) <= 3 -> ch_local c = pe_local p -> ch_remote c = pe_remote p -> check_ok ice c
| ck_queued i p : ch_expire c = false -> ch_slot c = Some i -> ch_retransmit c = false -> ic_pending ice !! i = Some p ->
    pe_in_flight p = false -> hq (pe_flags p) = true -> ch_local c = pe_local p -> ch_remote c = pe_remote p ->
    (hv (pe_flags p) = true \/ ic_check_count ice < NANORTC_ICE_MAX_CHECKS) -> check_ok ice c
| ck_pair i p : ch_expire c = false -> ch_slot c = Some i -> ch_retransmit c = false -> ic_pending ice !! i = Some p ->
    pe_in_flight p = false -> pe_flags p = 0 -> (ch_local c < ic_local_count ice)%nat -> (ch_remote c < ic_remote_count ice)%nat ->
    ic_check_count ice < NANORTC_ICE_MAX_CHECKS -> check_ok ice c.

Section timers.
Context (ice : nano_ice) (valid : list (nat * nat)) (sent : Z) (Hok : agent_ok ice valid sent).
Context (now : Z) (relay : option (list bool)).
Context (Hrelay : forall l, relay = Some l -> length l = NANORTC_MAX_ICE_CANDIDATES).

Lemma pair_ready_Ok l r : exists b, ice_pair_ready ice l r relay = Ok b /\ (b = true -> (l < ic_local_count ice)%nat /\ (r < ic_remote_count ice)%nat).
Proof using Hok Hrelay.
  unfold ice_pair_ready. destruct (Nat.ltb_spec l (ic_local_count ice)) as [Hl|]; cbn [andb]; [|by eexists].
  destruct (Nat.ltb_spec r (ic_remote_count ice)) as [Hr|]; [|by eexists].
  destruct (get_local_Ok ice valid sent Hok l Hl) as (c & _ & ->), (get_remote_Ok ice valid sent Hok r Hr) as (d & _ & ->). rewrite !bind_Ok.
  destruct (negb _); [by eexists|]. destruct relay as [ready|]; [|by eexists]. destruct (negb _); [by eexists|].
  pose proof (ao_remotes _ _ _ Hok) as [_ Hmax]. destruct (lookup_lt_is_Some_2 ready r) as [b ->]; [rewrite (Hrelay ready eq_refl); lia|]. by eexists.
Qed.
(** The loop over the pending table. *)
Definition scan_ok (s : scan) : Prop :=
  (forall i, sc_free s = Some i -> exists p, ic_pending ice !! i = Some p /\ pe_in_flight p = false /\ pe_flags p = 0) /\
  match ch_slot (sc_check s) with
  | None => sc_best s = UINT32_MAX
  | Some i => exists p, ic_pending ice !! i = Some p /\ (sc_best s = 0 -> check_ok ice (sc_check s))
  end.
Lemma scan_pending_Ok s i : scan_ok s -> (i < NANORTC_ICE_MAX_PENDING_CHECKS)%nat ->
  exists s', scan_pending ice now relay s i = Ok s' /\ scan_ok s'.
Proof using Hok Hrelay.
  intros [Hfree Hck] Hi. destruct (get_pending_Ok ice valid sent Hok i Hi) as (p & Hp & Hget). pose proof (slot_at ice valid sent Hok i p Hp) as Hs.
  unfold scan_pending. rewrite Hget, bind_Ok. change (flagged p ICE_CHECK_QUEUED) with (hq (pe_flags p)). change (flagged p ICE_CHECK_VALID) with (hv (pe_flags p)).
  destruct (negb (pe_in_flight p) && negb (hq (pe_flags p))) eqn:Hidle.
  { bool_facts. eexists. split; [done|]. destruct (_ && _) eqn:E; [|done]. bool_facts. split; [|done]. cbn [sc_free]. intros j [= <-]. by exists p. }
  cbv zeta. set (age := nano_time_elapsed now (pe_sent_at_ms p)).
  set (expire := pe_in_flight p && _ || _). set (s0 := Scan (sc_best s) (sc_free s) true (sc_check s)).
  assert (scan_ok s0) as Hs0 by done.
  assert (exists b, (if expire then Ok true else ice_pair_ready ice (pe_local p) (pe_remote p) relay) = Ok b /\
    (b = true -> expire = true \/ (pe_local p < ic_local_count ice)%nat /\ (pe_remote p < ic_remote_count ice)%nat)) as (ready & -> & Hready).
  { destruct expire; [exists true; split; [done|by left]|]. destruct (pair_ready_Ok (pe_local p) (pe_remote p)) as (b & -> & Hb). exists b. split; [done|]. intros ->. right. by apply Hb. }
  rewrite bind_Ok. destruct ready; cbn [negb]; [|by eexists]. specialize (Hready eq_refl).
  set (delay0 := if pe_in_flight p then _ else 0). set (delay := if negb expire && (delay0 <? ice_pace ice now) then ice_pace ice now else delay0).
  assert (exists b, match ch_slot (sc_check s0) with None => Ok false | Some j => q ← get_pending (ic_pending ice) j; Ok (pe_sent_at_ms p <? pe_sent_at_ms q) end = Ok b) as [earlier ->].
  { cbn [sc_check s0]. destruct (ch_slot (sc_check s)) as [j|] eqn:E; [|by eexists]. destruct Hck as (q & Hq & _).
    unfold get_pending. rewrite Hq, bind_Ok. by eexists. }
  rewrite bind_Ok. match goal with |- context [if ?b then Ok (Scan _ _ _ _) else _] => destruct b end; [|by eexists]. eexists. split; [done|]. split; [exact Hfree|]. cbn [sc_check ch_slot sc_best]. exists p. split; [done|].
  intros Hz. destruct expire eqn:Hex; [by eapply (ck_expire _ _ i p)|].
  assert (delay0 <= 0) as Hd0.
  { unfold delay in Hz. cbn [negb andb] in Hz. destruct (Z.ltb_spec delay0 (ice_pace ice now)); lia. }
  unfold expire in Hex. bool_facts. destruct (pe_in_flight p) eqn:Hin.
  - apply (ck_again _ _ i p); try done. cbn [andb] in *. bool_facts.
    apply (retry_delay_small _ (so_flags _ _ _ _ _ _ Hs) p eq_refl). unfold delay0 in Hd0. cbv zeta in Hd0.
    change NANORTC_ICE_CHECK_TIMEOUT_MS with 5000 in *. destruct (Z.ltb_spec age (ice_retry_delay p)); lia.
  - cbn [negb andb] in *. bool_facts. apply (ck_queued _ _ i p); try done.
    change (hv (pe_flags p) = true \/ ic_check_count ice < NANORTC_ICE_MAX_CHECKS).
    destruct (hv (pe_flags p)); [by left|right]. cbn [negb andb] in *. bool_facts. lia.
Qed.
Lemma scan_all_Ok is_ : forall s, scan_ok s -> Forall (fun i => (i < NANORTC_ICE_MAX_PENDING_CHECKS)%nat) is_ ->
  exists s', fold_check (scan_pending ice now relay) s is_ = Ok s' /\ scan_ok s'.
Proof using Hok Hrelay.
  induction is_ as [|i is_ IH]; intros s Hs Hi; [by exists s|]. apply Forall_cons_iff in Hi as [Hi His].
  destruct (scan_pending_Ok s i Hs Hi) as (s1 & H1 & Hs1). cbn [fold_check]. rewrite H1, bind_Ok. by apply IH.
Qed.
Lemma scan_pairs_Ok sooner start total0 k : (0 < ic_remote_count ice)%nat -> forall n, exists o, scan_pairs k ice relay sooner start total0 n = Ok o /\
  forall l r, o = Some (l, r) -> (l < ic_local_count ice)%nat /\ (r < ic_remote_count ice)%nat.
Proof using Hok Hrelay.
  intros Hr. induction k as [|k IH]; intros n; cbn [scan_pairs]; [by exists None|].
  destruct (pair_ready_Ok ((start + n) mod total0 / ic_remote_count ice) ((start + n) mod total0 mod ic_remote_count ice)) as (b & -> & Hb). rewrite bind_Ok.
  destruct (b && _ && sooner) eqn:E; [|apply IH]. bool_facts. eexists. split; [done|]. intros l r [= <- <-]. by apply Hb.
Qed.
Lemma get_check_Ok : exists d c, ice_get_check ice now relay = Ok (d, c) /\ (d = 0 -> check_ok ice c).
Proof using Hok Hrelay.
  unfold ice_get_check. destruct (_ && _); [by eexists _, _|]. destruct (ic_eoc ice && _); [eexists _, _; split; [done|]; intros _; by apply ck_fail|].
  destruct (_ || _ || _ || _ || _ || _) eqn:Hsetup; [by eexists _, _|]. bool_facts. cbv zeta.
  destruct (scan_all_Ok (seq 0 NANORTC_ICE_MAX_PENDING_CHECKS) (Scan UINT32_MAX None false check_none)) as (s & -> & Hfree & Hck);
    [done | apply Forall_seq; lia |]. rewrite bind_Ok.
  destruct (Z.eqb_spec (sc_best s) 0) as [Hz|Hnz].
  { eexists _, _. split; [done|]. intros _. destruct (ch_slot (sc_check s)) as [i|]; [destruct Hck as (p & _ & Hx); by apply Hx | by rewrite Hck in Hz]. }
  destruct (Z.leb_spec NANORTC_ICE_MAX_CHECKS (ic_check_count ice)) as [|Hcount].
  { destruct (negb _); eexists _, _; (split; [done|]); [intros _; by apply ck_fail | lia]. }
  destruct (sc_free s) as [slot|] eqn:Hf; [|eexists _, _; split; [done|]; lia].
  match goal with |- context [scan_pairs ?k ice relay ?so ?st ?t 0] => destruct (scan_pairs_Ok so st t k ltac:(lia) 0) as (o & -> & Ho) end. rewrite bind_Ok.
  destruct o as [[l r]|]; [|eexists _, _; split; [done|]; lia]. destruct (Ho l r eq_refl) as [Hl Hr]. destruct (Hfree slot eq_refl) as (p & Hp & Hi & Hp0).
  eexists _, _. split; [done|]. intros _. by apply (ck_pair _ _ slot p).
Qed.
End timers.

Section sending.
Context (hmac_sha1 : list Z -> list Z -> list Z).
Context (hmac_length : forall k x, length (hmac_sha1 k x) = 20%nat).
Context {R : Type} (random_bytes : R -> nat -> R * option (list Z)).
Context (Hrandom : forall g n g' b, random_bytes g n = (g', Some b) -> length b = n).

Definition one (n : nat) : Z := if (0 <? n)%nat then 1 else 0.
Lemma username_Ok ice valid sent : agent_ok ice valid sent ->
  exists u, ice_username ice = Ok u /\ length u = (cr_len (ic_rufrag ice) + 1 + cr_len (ic_lufrag ice))%nat /\ (length u <= 42)%nat.
Proof using.
  intros Hok. destruct (ao_creds _ _ _ Hok) as ([L1 L2] & _ & [R1 R2] & _). unfold ice_username. rewrite (rdn_Ok (cr_buf (ic_rufrag ice))), bind_Ok by lia.
  rewrite (rdn_Ok (cr_buf (ic_lufrag ice))), bind_Ok by lia. eexists. split; [done|].
  rewrite !length_app, !length_take, !length_drop. cbn [length]. unfold NANORTC_ICE_UFRAG_SIZE, NANORTC_ICE_REMOTE_UFRAG_SIZE in *. lia.
Qed.
Lemma move_up_case t q : move_up t q = q \/ exists x, move_up t q = set_sent q x.
Proof using. unfold move_up. destruct (_ && _); [right; by eexists | by left]. Qed.
Lemma move_up_pends t q : pends (move_up t q) = pends q.
Proof using. by destruct (move_up_case t q) as [-> | [x ->] ]. Qed.
Lemma move_up_budget t q : budget (move_up t q) = budget q.
Proof using. by destruct (move_up_case t q) as [-> | [x ->] ]. Qed.
(** The slot and the schedule after a check went out. *)
Lemma agent_sent ice valid sent i p p' ps now l r c :
  agent_ok ice valid sent -> ic_pending ice !! i = Some p ->
  slot_ok (ic_local_count ice) (ic_remote_count ice) (base_of ice) (ic_controlling ice) valid p' ->
  queue_ok (<[i := p']> ps) -> (forall w, (forall t q, w (move_up t q) = w q) -> total w (<[i := p']> ps) = total w (ic_pending ice) - w p + w p') ->
  Forall (slot_ok (ic_local_count ice) (ic_remote_count ice) (base_of ice) (ic_controlling ice) valid) ps -> length ps = length (ic_pending ice) ->
  0 <= c -> c + total pends (ic_pending ice) - pends p + pends p' <= 29 ->
  sent + 1 + total budget (ic_pending ice) - budget p + budget p' <= 4 * c ->
  agent_ok (with_schedule (with_pending ice (<[i := p']> ps)) c now l r) valid (sent + 1).
Proof using.
  intros [] Hp Hs Hq Hw Hps Hlen H0 Hd Hb. constructor; cbn; try done.
  - by rewrite length_insert, Hlen.
  - by apply Forall_insert.
  - rewrite Hw by apply move_up_pends. lia.
  - rewrite Hw by apply move_up_budget. lia.
Qed.
Lemma move_up_slot nl nr base c valid t p : slot_ok nl nr base c valid p -> slot_ok nl nr base c valid (move_up t p).
Proof using. intros H. unfold move_up. destruct (_ && _); [|done]. by destruct H. Qed.
Lemma unqueue_Ok ice valid sent i p : agent_ok ice valid sent -> ic_pending ice !! i = Some p ->
  exists ps, ice_unqueue_check (ic_pending ice) i = Ok ps /\ length ps = length (ic_pending ice) /\
    Forall (slot_ok (ic_local_count ice) (ic_remote_count ice) (base_of ice) (ic_controlling ice) valid) ps /\
    forall p', hq (pe_flags p') = false -> queue_ok (<[i := p']> ps) /\
      forall w, (forall t q, w (move_up t q) = w q) -> total w (<[i := p']> ps) = total w (ic_pending ice) - w p + w p'.
Proof using.
  intros Hok Hp. unfold ice_unqueue_check, get_pending. rewrite Hp, bind_Ok. change (flagged p ICE_CHECK_QUEUED) with (hq (pe_flags p)).
  destruct (hq (pe_flags p)) eqn:Hq; cbn [negb].
  2: { eexists. split; [done|]. split; [done|]. split; [apply Hok|]. intros p' Hq'. split; [|intros w _; by apply total_insert].
       apply (queue_same _ _ p); [apply Hok | done | congruence | congruence]. }
  eexists. split; [done|]. split; [by rewrite length_insert, length_map|].
  pose proof (slot_at ice valid sent Hok i p Hp) as Hs.
  assert (Forall (slot_ok (ic_local_count ice) (ic_remote_count ice) (base_of ice) (ic_controlling ice) valid) (map (move_up (pe_sent_at_ms p)) (ic_pending ice))) as Hmap.
  { apply List.Forall_map. eapply Forall_impl; [|apply Hok]. intros q. apply move_up_slot. }
  assert (Hp1 : map (move_up (pe_sent_at_ms p)) (ic_pending ice) !! i = Some (move_up (pe_sent_at_ms p) p)) by (by rewrite list_lookup_fmap, Hp).
  split.
  - apply Forall_insert; [done|]. destruct Hs. destruct (unqueue_flags _ so_flags0) as (F1 & F2 & F3 & F4 & F5 & F6).
    unfold flags_after_unqueue in *. unfold hq, hv, hn, ht in *.
    constructor; cbn [set_flags pe_txid pe_flags pe_in_flight pe_local pe_remote]; unfold hq, hv, hn, ht; rewrite ?F2, ?F3, ?F4, ?F5, ?F6; try done.
    + intros _. apply so_pair0. right. intros Hz. rewrite Hz in Hq. done.
    + intros H. destruct (so_apart0 H). done.
    + intros _. apply so_again0. by right.
  - intros p' Hq'. rewrite list_insert_insert_eq. split.
    + apply queue_pop; try done; [apply Hok | rewrite (ao_pending _ _ _ Hok); unfold NANORTC_ICE_MAX_PENDING_CHECKS; lia].
    + intros w Hw. rewrite (total_insert _ _ _ _ _ Hp1), total_map, Hw by (intros q; apply Hw). done.
Qed.
Lemma with_schedule_split ice c now (l r l' r' : nat) (b : bool) :
  (if b then with_schedule ice c now l r else with_schedule ice c now l' r') = with_schedule ice c now (if b then l else l') (if b then r else r').
Proof using. by destruct b. Qed.
(** The slot a check goes out from, the transaction of [ice_send_check]. *)
Definition transaction (g : R) (now : Z) (c : ice_check) (p : ice_pending) : R * option ice_pending :=
  if ch_retransmit c then (g, Some p) else
  match random_bytes g STUN_TXID_SIZE with
  | (g, None) => (g, None)
  | (g, Some txid) => (g, Some (Pending txid now (ch_local c) (ch_remote c) (pe_in_flight p) (Z.land (pe_flags p) ICE_CHECK_STATE_MASK)))
  end.
Lemma sent_slot ice valid sent g now c i p g1 pend :
  agent_ok ice valid sent -> check_ok ice c -> ch_expire c = false -> ch_slot c = Some i -> ic_pending ice !! i = Some p ->
  transaction g now c p = (g1, Some pend) ->
  let pend' := set_flags (set_in_flight pend true) (flags_after_send (pe_flags pend)) in
  let count := if negb (ch_retransmit c) && (ic_check_count ice <? 255) then u8 (ic_check_count ice + 1) else ic_check_count ice in
  length (pe_txid pend) = STUN_TXID_SIZE /\ hq (pe_flags pend') = false /\ pe_local pend = ch_local c /\ pe_remote pend = ch_remote c /\
  slot_ok (ic_local_count ice) (ic_remote_count ice) (base_of ice) (ic_controlling ice) valid pend' /\ 0 <= count /\
  count + total pends (ic_pending ice) - pends p + pends pend' <= 29 /\
  sent + 1 + total budget (ic_pending ice) - budget p + budget pend' <= 4 * count.
Proof using Hrandom.
  intros Hok Hc Hex Hsl Hp Hch pend' count. pose proof (slot_at ice valid sent Hok i p Hp) as Hs.
  pose proof (ao_count _ _ _ Hok) as [Hc0 Hc29]. pose proof (ao_sent _ _ _ Hok) as Hbud. destruct Hs.
  pose proof (total_bounds pends (<[i := pend']> (ic_pending ice)) 1 pends_range) as Htb. rewrite length_insert, (ao_pending _ _ _ Hok) in Htb.
  rewrite (total_insert _ _ _ _ _ Hp) in Htb. change (1 * Z.of_nat NANORTC_ICE_MAX_PENDING_CHECKS) with 4 in Htb.
  pose proof (total_bounds pends (ic_pending ice) 1 pends_range) as [Htp _].
  destruct (ch_retransmit c) eqn:Hre.
  - unfold transaction in Hch. rewrite Hre in Hch. injection Hch as <- <-.
    assert (pe_in_flight p = true /\ retries (pe_flags p) <= 3 /\ ch_local c = pe_local p /\ ch_remote c = pe_remote p) as (Hin & Hr3 & Hl & Hr).
    { destruct Hc; try congruence. assert (i0 = i) as -> by congruence. assert (p0 = p) as -> by congruence. done. }
    destruct (send_flags _ so_flags0) as (F1 & F2 & F3 & F4 & F5 & F6). destruct (so_apart0 Hin) as [Hq Hrr]. rewrite Z.mod_small in F6 by lia.
    change (pe_flags pend') with (flags_after_send (pe_flags p)). fold (hq (flags_after_send (pe_flags p))) (hv (flags_after_send (pe_flags p))) (hn (flags_after_send (pe_flags p))) in F2, F3, F4.
    split; [done|]. split; [exact F2|]. split; [done|]. split; [done|]. split; [|split; [done|]].
    + constructor; change (pe_flags pend') with (flags_after_send (pe_flags p)); rewrite ?F2, ?F3, ?F4, ?F6; try done.
      * intros _. apply so_pair0. by left.
      * intros _. split; [done|lia].
      * intros _. apply so_again0. by left.
    + assert (pends pend' = pends p) as ->. { unfold pends. change (pe_flags pend') with (flags_after_send (pe_flags p)). rewrite F2, F3, Hq, Hin. done. }
      split; [unfold count; cbn [negb andb]; lia|]. unfold budget at 2 3. change (pe_flags pend') with (flags_after_send (pe_flags p)). rewrite Hin, F6.
      unfold count. cbn [negb andb pend' pe_in_flight set_flags set_in_flight]. lia.
  - assert (exists txid, length txid = STUN_TXID_SIZE /\ pend = Pending txid now (ch_local c) (ch_remote c) (pe_in_flight p) (Z.land (pe_flags p) ICE_CHECK_STATE_MASK)) as (txid & Htx & ->).
    { unfold transaction in Hch. rewrite Hre in Hch. destruct (random_bytes g STUN_TXID_SIZE) as [g' [txid|]] eqn:E; [|done]. injection Hch as _ <-. apply Hrandom in E. eauto. }
    assert (pe_in_flight p = false /\ (ch_local c < ic_local_count ice)%nat /\ (ch_remote c < ic_remote_count ice)%nat /\
      (hv (pe_flags p) = true -> hq (pe_flags p) = true /\ ch_local c = pe_local p /\ ch_remote c = pe_remote p) /\
      (hv (pe_flags p) = true \/ ic_check_count ice < NANORTC_ICE_MAX_CHECKS)) as (Hin & Hl & Hr & Hvq & Hlim).
    { destruct Hc as [| |j q|j q|j q]; try congruence; assert (j = i) as -> by congruence; assert (q = p) as -> by congruence.
      - split; [done|]. destruct so_pair0 as [G1 G2]; [right; intros Hz; match goal with H : hq _ = true |- _ => by rewrite Hz in H end|].
        split; [congruence|]. split; [congruence|]. done.
      - split_and!; try done; [intros Hv; match goal with H : pe_flags p = 0 |- _ => by rewrite H in Hv end | by right]. }
    destruct (mask_flags _ so_flags0) as (M1 & M2 & M3 & M4 & M5 & M6). set (f := Z.land (pe_flags p) ICE_CHECK_STATE_MASK) in *.
    destruct (send_flags f M1) as (F1 & F2 & F3 & F4 & F5 & F6). rewrite M6 in F6. change ((0 + 1) mod 16) with 1 in F6.
    unfold hv in F3 at 1. rewrite M3 in F3. unfold hn in F4 at 1. rewrite M4 in F4.
    change (pe_flags pend') with (flags_after_send f).
    fold (hq (flags_after_send f)) (hv (flags_after_send f)) (hn (flags_after_send f)) in F2, F3, F4.
    assert (count = ic_check_count ice + 1) as Hcount.
    { unfold count. cbn [negb andb]. destruct (Z.ltb_spec (ic_check_count ice) 255); [|lia]. apply u8_id. unfold is_u8. lia. }
    split; [done|]. split; [exact F2|]. split; [done|]. split; [done|]. split; [|split; [lia|]].
    + constructor; change (pe_flags pend') with (flags_after_send f); rewrite ?F2, ?F3, ?F4, ?F6; try done.
      * intros Hv. destruct (Hvq Hv) as (_ & G1 & G2). cbn [pend' pe_local pe_remote set_flags set_in_flight]. rewrite G1, G2. by apply so_valid0.
      * intros _ Hv. destruct (Hvq Hv) as (G & _). apply so_again0; [by right|done].
    + assert (budget p = 0 /\ budget pend' = 3) as [-> ->].
      { unfold budget. change (pe_flags pend') with (flags_after_send f). rewrite Hin, F6. done. }
      split; [|lia]. destruct Hlim as [Hv|Hlim]; [|unfold NANORTC_ICE_MAX_CHECKS in Hlim; lia].
      destruct (Hvq Hv) as (Hq & _). assert (pends p = 1 /\ pends pend' = 0) as [-> ->]; [|lia].
      unfold pends. change (pe_flags pend') with (flags_after_send f). rewrite Hin, Hq, Hv, F2, F3, Hv. done.
Qed.
Lemma send_check_Ok ice valid sent g now c buf : agent_ok ice valid sent -> check_ok ice c ->
  exists ice' g' rc buf' n, ice_send_check hmac_sha1 random_bytes ice g now c buf = Ok (ice', g', rc, buf', n) /\ agent_ok ice' valid (sent + one n).
Proof using Hrandom hmac_length.
  intros Hok Hc. unfold ice_send_check. assert (forall x, agent_ok x valid sent -> agent_ok x valid (sent + one 0)) as H0 by (intros x; unfold one; cbn; by rewrite Z.add_0_r).
  destruct (ch_expire c) eqn:Hex.
  { destruct (ch_slot c) as [i|] eqn:Hsl.
    2: { eexists _, _, _, _, _. split; [done|]. apply H0. destruct Hok; constructor; try done. }
    assert (exists p, ic_pending ice !! i = Some p) as [p Hp] by (destruct Hc; simplify_eq; eauto).
    destruct (unqueue_Ok ice valid sent i p Hok Hp) as (ps & -> & Hlen & Hps & Hput). rewrite bind_Ok. eexists _, _, _, _, _. split; [done|]. apply H0.
    destruct (Hput pending_zero eq_refl) as [Hq Hw]. destruct Hok. constructor; cbn; try done.
    - by rewrite length_insert, Hlen.
    - apply Forall_insert; [done | apply slot_zero].
    - rewrite Hw by apply move_up_pends. destruct zero_pends as [-> _]. pose proof (pends_range p). lia.
    - rewrite Hw by apply move_up_budget. destruct zero_pends as [_ ->].
      assert (0 <= budget p); [|lia]. unfold budget. destruct (pe_in_flight p) eqn:Hi; [|done].
      pose proof (proj1 (Forall_lookup _ _) ao_slots0 i p Hp) as Hs. pose proof (so_apart _ _ _ _ _ _ Hs Hi). lia. }
  assert (exists i p, ch_slot c = Some i /\ ic_pending ice !! i = Some p) as (i & p & Hsl & Hp) by (destruct Hc; try congruence; eauto).
  rewrite Hsl. pose proof (lookup_lt_Some _ _ _ Hp) as Hlt. rewrite (ao_pending _ _ _ Hok) in Hlt. rewrite (proj2 (Nat.leb_gt _ _)) by done.
  unfold get_pending at 1. rewrite Hp, bind_Ok. pose proof (slot_at ice valid sent Hok i p Hp) as Hs.
  fold (transaction g now c p). destruct (transaction g now c p) as [g1 [pend|]] eqn:Hch; [|eexists _, _, _, _, _; split; [done|]; by apply H0].
  destruct (_ || _); [eexists _, _, _, _, _; split; [done|]; by apply H0|].
  destruct (username_Ok ice valid sent Hok) as (u & -> & _ & Hu). rewrite bind_Ok.
  pose proof (ao_creds _ _ _ Hok) as (_ & _ & _ & Hpwd). rewrite (cred_text_Ok _ _ Hpwd), bind_Ok.
  destruct (sent_slot ice valid sent g now c i p g1 pend Hok Hc Hex Hsl Hp Hch) as (Htx & Hq' & _ & Hrem & Hslot & G0 & G1 & G2).
  change (u8 (Z.land (pe_flags pend) (Z.lnot ICE_CHECK_QUEUED) + Z.shiftl 1 ICE_CHECK_RETRY_SHIFT)) with (flags_after_send (pe_flags pend)).
  set (pend' := set_flags (set_in_flight pend true) (flags_after_send (pe_flags pend))) in *.
  set (count := if negb (ch_retransmit c) && (ic_check_count ice <? 255) then u8 (ic_check_count ice + 1) else ic_check_count ice) in *.
  rewrite (encode_binding_request_spec hmac_sha1 hmac_length) by (done || unfold is_u16; lia). set (msg := signed_message _ _ _ _ _).
  assert (0 < length msg)%nat as Hmsg by (unfold msg, signed_message; cbv zeta; rewrite length_app, stun_header_length by done; unfold STUN_HEADER_SIZE; lia).
  destruct (length buf <? length msg)%nat; [eexists _, _, _, _, _; split; [done|]; by apply H0|].
  destruct (unqueue_Ok ice valid sent i p Hok Hp) as (ps & -> & Hlen & Hps & Hput). rewrite bind_Ok. destruct (Hput pend' Hq') as [Hq Hw].
  cbv zeta. change (ic_check_count (with_pending ice _)) with (ic_check_count ice). fold count.
  change (ic_remote_count (with_pending ice _)) with (ic_remote_count ice). change (ic_local_count (with_pending ice _)) with (ic_local_count ice).
  assert (one (length msg) = 1) as Hone by (unfold one; by rewrite (proj2 (Nat.ltb_lt _ _))).
  pose proof (so_pair _ _ _ _ _ _ Hslot ltac:(by left)) as [Hl _].
  destruct (_ <=? _); [rewrite (proj2 (Nat.eqb_neq (ic_local_count ice) 0)) by lia|]; eexists _, _, _, _, _; (split; [done|]); rewrite Hone; by apply (agent_sent ice valid sent i p).
Qed.
End sending.

(** * Histories *)

Definition with_eoc i := Ice (ic_state i) (ic_controlling i) (ic_lufrag i) (ic_lpwd i) (ic_rufrag i) (ic_rpwd i) (ic_selected i) (ic_interval i) (ic_next_check i) (ic_tie_breaker i) (ic_check_count i) (ic_nominated i) (ic_srflx_base i) (ic_pending i) (ic_locals i) (ic_local_count i) (ic_remotes i) (ic_remote_count i) (ic_cur_local i) (ic_cur_remote i) true (ic_generation i) (ic_consent i).
(** A remote candidate the application adds. *)
Definition trickle (ice : nano_ice) (c : ice_candidate) : nano_ice :=
  if (ic_remote_count ice <? NANORTC_MAX_ICE_CANDIDATES)%nat
  then with_remotes ice (<[ic_remote_count ice := c]> (ic_remotes ice)) (S (ic_remote_count ice)) else ice.
Inductive ice_event : Type :=
| Datagram (data : list Z) (src : nanortc_addr) (local_idx : nat) (via_turn : bool) (resp_buf : list Z)
| Tick (now : Z) (relay_ready : option (list bool)) (buf : list Z)   (** [ice_get_check], and [ice_send_check] when it is due *)
| Keepalive (now : Z) (buf : list Z)                                   (** [ice_generate_consent] *)
| Trickle (c : ice_candidate)
| EndOfCandidates.
Definition event_valid (ev : ice_event) : Prop :=
  match ev with
  | Datagram data src _ _ _ => bytes data /\ addr_ok src
  | Tick _ relay _ => forall l, relay = Some l -> length l = NANORTC_MAX_ICE_CANDIDATES
  | _ => True
  end.

Section history.
Context (hmac_sha1 : list Z -> list Z -> list Z).
Context (hmac_length : forall k x, length (hmac_sha1 k x) = 20%nat).
Context {R : Type} (random_bytes : R -> nat -> R * option (list Z)).
Context (Hrandom : forall g n g' b, random_bytes g n = (g', Some b) -> length b = n).

(** The agent, the provider, the pairs confirmed and the checks sent. *)
Record agent : Type := Agent { ag_ice : nano_ice; ag_rng : R; ag_confirmed : list (nat * nat); ag_sent : Z }.
Definition agent_step (a : agent) (ev : ice_event) : res agent :=
  let ice := ag_ice a in
  match ev with
  | Datagram data src local_idx via_turn buf =>
      '(ice', _, _, _) ← ice_handle_stun hmac_sha1 ice data src local_idx via_turn buf;
      Ok (Agent ice' (ag_rng a) (ag_confirmed a ++ confirms hmac_sha1 ice data src local_idx via_turn) (ag_sent a))
  | Tick now relay_ready buf =>
      '(delay, check) ← ice_get_check ice now relay_ready;
      if negb (delay =? 0) then Ok a else
      '(ice', g, _, _, n) ← ice_send_check hmac_sha1 random_bytes ice (ag_rng a) now check buf;
      Ok (Agent ice' g (ag_confirmed a) (ag_sent a + one n))
  | Keepalive now buf =>
      '(ice', g, _, _, _) ← ice_generate_consent hmac_sha1 random_bytes ice (ag_rng a) now buf;
      Ok (Agent ice' g (ag_confirmed a) (ag_sent a))
  | Trickle c => Ok (Agent (trickle ice c) (ag_rng a) (ag_confirmed a) (ag_sent a))
  | EndOfCandidates => Ok (Agent (with_eoc ice) (ag_rng a) (ag_confirmed a) (ag_sent a))
  end.
Definition agent_run (a : agent) (evs : list ice_event) : res agent := fold_check agent_step a evs.

Lemma consent_Ok ice valid sent g now buf : agent_ok ice valid sent ->
  exists ice' g' rc buf' n, ice_generate_consent hmac_sha1 random_bytes ice g now buf = Ok (ice', g', rc, buf', n) /\ agent_ok ice' valid sent.
Proof using Hrandom hmac_length.
  intros Hok. unfold ice_generate_consent. cbv zeta. destruct (negb _); [by eexists _, _, _, _, _|]. destruct (_ && _); [by eexists _, _, _, _, _|].
  destruct (random_bytes g STUN_TXID_SIZE) as [g' [txid|]] eqn:Hr; [|by eexists _, _, _, _, _]. apply Hrandom in Hr.
  destruct (_ <=? _)%nat; [by eexists _, _, _, _, _|]. destruct (username_Ok ice valid sent Hok) as (u & -> & _ & Hu). rewrite bind_Ok.
  pose proof (ao_creds _ _ _ Hok) as (_ & _ & _ & Hpwd). rewrite (cred_text_Ok _ _ Hpwd), bind_Ok.
  rewrite (encode_binding_request_spec hmac_sha1 hmac_length) by (done || unfold is_u16; lia).
  destruct (_ <? _)%nat; [by eexists _, _, _, _, _|]. eexists _, _, _, _, _. split; [done|]. by destruct Hok; constructor.
Qed.
Definition agent_inv (a : agent) : Prop := agent_ok (ag_ice a) (ag_confirmed a) (ag_sent a).
Lemma agent_step_Ok a ev : agent_inv a -> event_valid ev -> exists a', agent_step a ev = Ok a' /\ agent_inv a'.
Proof using Hrandom hmac_length.
  intros Hok Hev. unfold agent_inv in Hok. destruct ev as [data src li vt buf|now relay buf|now buf|c|]; cbn [agent_step event_valid] in *.
  - destruct Hev as [Hb Hsrc]. destruct (stun_Ok hmac_sha1 hmac_length _ _ _ data src li vt buf Hok Hb Hsrc) as (ice' & rc & b & n & -> & Hok'). rewrite bind_Ok. by eexists.
  - destruct (get_check_Ok _ _ _ Hok now relay Hev) as (d & c & -> & Hc). rewrite bind_Ok. destruct (Z.eqb_spec d 0) as [->|]; cbn [negb]; [|by exists a].
    destruct (send_check_Ok hmac_sha1 hmac_length random_bytes Hrandom _ _ _ (ag_rng a) now c buf Hok (Hc eq_refl)) as (ice' & g & rc & b & n & -> & Hok'). rewrite bind_Ok. by eexists.
  - destruct (consent_Ok _ _ _ (ag_rng a) now buf Hok) as (ice' & g & rc & b & n & -> & Hok'). rewrite bind_Ok. by eexists.
  - eexists. split; [done|]. unfold agent_inv, trickle. cbn [ag_ice ag_confirmed ag_sent]. destruct (Nat.ltb_spec (ic_remote_count (ag_ice a)) NANORTC_MAX_ICE_CANDIDATES); [by apply agent_learn | done].
  - eexists. split; [done|]. unfold agent_inv. cbn. by destruct Hok; constructor.
Qed.
Lemma agent_run_Ok evs : forall a, agent_inv a -> Forall event_valid evs -> exists a', agent_run a evs = Ok a' /\ agent_inv a'.
Proof using Hrandom hmac_length.
  induction evs as [|ev evs IH]; intros a Ha Hev; [by exists a|]. apply Forall_cons_iff in Hev as [He Hev].
  destruct (agent_step_Ok a ev Ha He) as (a1 & H1 & Ha1). unfold agent_run. cbn [fold_check]. rewrite H1, bind_Ok. by apply IH.
Qed.

(** An agent set up for a session: credentials and local candidates given, its
    tables empty. *)
Definition configured (ice : nano_ice) : Prop :=
  ic_state ice = NANORTC_ICE_STATE_NEW /\ ic_pending ice = replicate NANORTC_ICE_MAX_PENDING_CHECKS pending_zero /\
  length (ic_locals ice) = NANORTC_MAX_LOCAL_CANDIDATES /\ (ic_local_count ice <= NANORTC_MAX_LOCAL_CANDIDATES)%nat /\
  length (ic_remotes ice) = NANORTC_MAX_ICE_CANDIDATES /\ (ic_remote_count ice <= NANORTC_MAX_ICE_CANDIDATES)%nat /\
  cred_ok (ic_lufrag ice) NANORTC_ICE_UFRAG_SIZE /\ cred_ok (ic_lpwd ice) NANORTC_ICE_PWD_SIZE /\
  cred_ok (ic_rufrag ice) NANORTC_ICE_REMOTE_UFRAG_SIZE /\ cred_ok (ic_rpwd ice) NANORTC_ICE_REMOTE_PWD_SIZE /\ ic_check_count ice = 0.
Lemma configured_ok ice : configured ice -> agent_ok ice [] 0.
Proof using.
  intros (H1 & H2 & H3 & H4 & H5 & H6 & H7 & H8 & H9 & H10 & H11). constructor; try done.
  - by rewrite H2.
  - rewrite H2. apply Forall_replicate, slot_zero.
  - rewrite H2. split; intros i p; [|intros j q]; intros [-> _]%lookup_replicate; done.
  - rewrite H2, H11. change (0 <= 0 /\ 0 + 0 <= 29). lia.
  - rewrite H2, H11. change (0 + 0 <= 4 * 0). lia.
  - intros H. congruence.
Qed.

Lemma budget_nonneg nl nr base c valid ps : Forall (slot_ok nl nr base c valid) ps -> 0 <= total budget ps.
Proof using.
  induction 1 as [|p ps Hp _ IH]; [done|]. rewrite total_cons. unfold budget at 1. destruct (pe_in_flight p) eqn:E; [|lia].
  pose proof (so_apart _ _ _ _ _ _ Hp E). lia.
Qed.

(** C7: over every sequence of datagrams (arbitrary octets from arbitrary
    sources), timer events, keepalives and trickled candidates, the agent never
    leaves its tables. When it is connected, its selected remote address is that
    of a candidate for which an authenticated response to a check of its own,
    sent from the selected local socket, came back; a controlling agent marks
    for nomination only such pairs. *)
Theorem ice_connects_checked_pair ice g evs :
  configured ice -> Forall event_valid evs ->
  exists a, agent_run (Agent ice g [] 0) evs = Ok a /\ let ice' := ag_ice a in
    (ic_state ice' = NANORTC_ICE_STATE_CONNECTED -> ic_nominated ice' = true /\
       exists r c, (base_of ice' (se_local_idx (ic_selected ice')), r) ∈ ag_confirmed a /\ ic_remotes ice' !! r = Some c /\
         se_addr (ic_selected ice') = ca_addr c /\ se_port (ic_selected ice') = ca_port c /\ se_family (ic_selected ice') = ca_family c) /\
    (ic_controlling ice' = true -> forall i p, ic_pending ice' !! i = Some p -> flagged p ICE_CHECK_NOMINATE = true ->
       (base_of ice' (pe_local p), pe_remote p) ∈ ag_confirmed a).
Proof using Hrandom hmac_length.
  intros Hc Hev. destruct (agent_run_Ok evs (Agent ice g [] 0) (configured_ok ice Hc) Hev) as (a & Hr & Ha). exists a. split; [exact Hr|]. cbv zeta. split.
  - intros H. destruct (ao_selected _ _ _ Ha H) as (H1 & _ & r & c & H2 & _ & H3 & H4). split; [done|]. by exists r, c.
  - intros Hctl i p Hp Hn. pose proof (slot_at _ _ _ Ha i p Hp) as Hs. by apply (so_valid _ _ _ _ _ _ Hs), (so_nominate _ _ _ _ _ _ Hs).
Qed.

(** C8: between restarts the agent sends at most 116 datagrams with connectivity
    checks (29 transactions of four transmissions), whatever arrives and however
    often the timer fires; the queue of triggered checks stays an initial
    segment of positions, each held once. *)
Theorem ice_checks_bounded ice g evs :
  configured ice -> Forall event_valid evs ->
  exists a, agent_run (Agent ice g [] 0) evs = Ok a /\ ag_sent a <= 116 /\ ic_check_count (ag_ice a) <= 29 /\ queue_ok (ic_pending (ag_ice a)).
Proof using Hrandom hmac_length.
  intros Hc Hev. destruct (agent_run_Ok evs (Agent ice g [] 0) (configured_ok ice Hc) Hev) as (a & Hr & Ha). exists a. split; [exact Hr|].
  destruct (ao_count _ _ _ Ha) as [H1 H2]. pose proof (ao_sent _ _ _ Ha) as H3. pose proof (total_bounds pends (ic_pending (ag_ice a)) 1 pends_range) as [H4 _].
  pose proof (budget_nonneg _ _ _ _ _ _ (ao_slots _ _ _ Ha)) as H5.
  split; [lia|]. split; [lia|]. apply Ha.
Qed.
End history.

(** * Concrete runs *)

(** A provider of constant octets that counts its calls. *)
Definition counted (g : nat) (n : nat) : nat * option (list Z) := (S g, Some (replicate n (Z.of_nat g mod 256))).
Lemma counted_law g n g' b : counted g n = (g', Some b) -> length b = n.
Proof. intros [= _ <-]. apply length_replicate. Qed.
Definition text (size : nat) (s : list Z) : cred := Cred (s ++ replicate (size - length s) 0) (length s).
(** One IPv4 host candidate, credentials of both sides. *)
Definition demo_ice : nano_ice :=
  Ice NANORTC_ICE_STATE_NEW true (text 9 [97; 49]) (text 24 [112; 113]) (text 32 [98; 50]) (text 48 [114; 115]) selected_zero 50 0 77 0 false 0
    (replicate 4 pending_zero) (Cand (replicate 16 1) 5000 4 NANORTC_ICE_CAND_HOST :: replicate 3 cand_zero) 1 (replicate 8 cand_zero) 0 0 0 false 0 consent_zero.
Definition demo_ice_events : list ice_event :=
  [Tick 1000 None (replicate 128 0); Trickle (Cand (replicate 16 2) 6000 4 NANORTC_ICE_CAND_HOST); Tick 1050 None (replicate 128 0);
   Datagram [1; 1; 0; 0] (Addr 4 (replicate 16 2) 6000) 0 false (replicate 128 0); Tick 1600 None (replicate 128 0); EndOfCandidates;
   Tick 2600 None (replicate 128 0); Keepalive 2700 (replicate 128 0)].
Lemma demo_configured : configured demo_ice.
Proof. unfold configured, cred_ok. split_and!; first [reflexivity | vm_compute; lia]. Qed.
Lemma demo_ice_events_valid : Forall event_valid demo_ice_events.
Proof. repeat (apply List.Forall_cons; [first [exact I | intros l; discriminate | split; [|split]; [.. | cbn]; try reflexivity; apply (bool_decide_eq_true_1 _); vm_compute; reflexivity]|]). apply List.Forall_nil. Qed.
Lemma ice_connects_checked_pair_witness :
  exists a, agent_run toy_mac counted (Agent demo_ice 0%nat [] 0) demo_ice_events = Ok a /\
    (ic_state (ag_ice a) = NANORTC_ICE_STATE_CONNECTED -> ic_nominated (ag_ice a) = true).
Proof.
  destruct (ice_connects_checked_pair toy_mac toy_mac_length counted counted_law demo_ice 0%nat demo_ice_events demo_configured demo_ice_events_valid)
    as (a & H & Hc & _). exists a. split; [exact H|]. intros Hs. exact (proj1 (Hc Hs)).
Defined.
Lemma ice_checks_bounded_witness :
  exists a, agent_run toy_mac counted (Agent demo_ice 0%nat [] 0) demo_ice_events = Ok a /\ ag_sent a <= 116.
Proof.
  destruct (ice_checks_bounded toy_mac toy_mac_length counted counted_law demo_ice 0%nat demo_ice_events demo_configured demo_ice_events_valid)
    as (a & H & Hb & _). exists a. exact (conj H Hb).
Defined.
Example demo_ice_sent : (match agent_run toy_mac counted (Agent demo_ice 0%nat [] 0) demo_ice_events with Ok a => ag_sent a | _ => -1 end) = 3.
Proof. vm_compute. reflexivity. Qed.
