(* ===== verification/IceConnect.v ===== *)
(** Two ICE agents of [src/nano_ice.c]: what a datagram must carry to have any
    effect, and the exchange of checks that connects both. *)

From Stdlib Require Import ZArith Lia.
From stdpp Require Import base list numbers.
From S2P Require Import Prelude Wire Crc Stun Ice.

Local Open Scope Z_scope.

(** * What a datagram must carry *)

Section authentic.
Context (hmac_sha1 : list Z -> list Z -> list Z).
Abbreviation ice_handle_stun := (ice_handle_stun hmac_sha1).

Lemma stun_authentic_inv data msg pwd : stun_authentic hmac_sha1 data msg pwd = Ok NANORTC_OK ->
  stun_verify_fingerprint data = Ok NANORTC_OK /\ exists key, cred_text pwd = Ok key /\ stun_verify_integrity hmac_sha1 data msg key = Ok NANORTC_OK.
Proof.
  unfold stun_authentic. intros H. destruct (m_fingerprint msg); [|done]. bind_inv H. destruct (Z.eqb_spec x NANORTC_OK) as [->|]; cbn [negb] in H; [|congruence].
  destruct (m_integrity msg); [|done]. bind_inv H. split; [done|]. by exists x.
Qed.

(** The peer proved to know the password [pwd]. *)
Definition signed_under (data : list Z) (msg : stun_msg) (pwd : cred) : Prop :=
  stun_verify_fingerprint data = Ok NANORTC_OK /\ exists key, cred_text pwd = Ok key /\ stun_verify_integrity hmac_sha1 data msg key = Ok NANORTC_OK.

(** C9: a datagram that changes anything in the agent, or that the agent answers,
    parses as a STUN message with a right fingerprint and is either a request
    with the agent's user name whose MAC verifies under the agent's own
    password, or a response or error response under the transaction id of a
    check or consent request in flight whose MAC verifies under the peer's
    password. *)
Theorem ice_unauthenticated_ignored ice data src local_idx via_turn buf ice' rc buf' n :
  ice_handle_stun ice data src local_idx via_turn buf = Ok (ice', rc, buf', n) ->
  ice' <> ice \/ n <> 0%nat ->
  exists msg, stun_parse data = Ok msg /\
    ((m_type msg = STUN_BINDING_REQUEST /\ ice_verify_username ice msg = Ok true /\ signed_under data msg (ic_lpwd ice)) \/
     ((m_type msg = STUN_BINDING_RESPONSE \/ m_type msg = STUN_BINDING_ERROR) /\ signed_under data msg (ic_rpwd ice) /\
      ((co_pending (ic_consent ice) = true /\ m_txid msg = co_txid (ic_consent ice)) \/
       exists slot, find_txid (m_txid msg) (ic_pending ice) 0 = Some slot))).
Proof.
  unfold Ice.ice_handle_stun; intros H Hne. destruct (stun_parse data) as [msg|e|] eqn:Hp; [|destruct Hne; congruence|done]. exists msg. split; [done|].
  destruct (Z.eqb_spec (m_type msg) STUN_BINDING_REQUEST) as [Ht|_].
  { left. split; [done|]. unfold ice_handle_request in H. destruct (m_fingerprint msg); [|destruct Hne; congruence]. bind_inv H.
    destruct (Z.eqb_spec x NANORTC_OK) as [->|]; cbn [negb] in H; [|destruct Hne; congruence]. bind_inv H. destruct x; cbn [negb] in H; [|destruct Hne; congruence].
    split; [done|]. destruct (m_integrity msg); [|destruct Hne; congruence]. bind_inv H. rename x into key. bind_inv H.
    destruct (Z.eqb_spec x NANORTC_OK) as [->|]; cbn [negb] in H; [|destruct Hne; congruence]. split; [done|]. by exists key. }
  right. destruct (Z.eqb_spec (m_type msg) STUN_BINDING_RESPONSE) as [Ht|_].
  { split; [by left|]. bind_inv H. destruct x as [ice1 rc1]. injection H as -> _ _ <-. destruct Hne as [Hne|]; [|done]. unfold ice_handle_response in Hx. cbv zeta in Hx.
    destruct (co_pending _ && _) eqn:Hc.
    - bind_inv Hx. destruct (Z.eqb_spec x NANORTC_OK) as [->|]; cbn [negb] in Hx; [|congruence]. split; [by apply stun_authentic_inv|]. left. by apply andb_prop in Hc as [? ?%bool_decide_eq_true].
    - destruct (find_txid _ _ _) as [slot|] eqn:Hf; [|congruence]. bind_inv Hx. destruct (Z.eqb_spec x NANORTC_OK) as [->|]; cbn [negb] in Hx; [|congruence].
      split; [by apply stun_authentic_inv|]. right. by exists slot. }
  destruct (Z.eqb_spec (m_type msg) STUN_BINDING_ERROR) as [Ht|_]; [|destruct Hne; congruence].
  split; [by right|]. bind_inv H. destruct x as [ice1 rc1]. injection H as -> _ _ <-. destruct Hne as [Hne|]; [|done]. unfold ice_handle_error in Hx.
  bind_inv Hx. destruct (Z.eqb_spec x NANORTC_OK) as [->|]; cbn [negb] in Hx; [|congruence]. split; [by apply stun_authentic_inv|].
  destruct (find_txid _ _ _) as [slot|] eqn:Hf; [|congruence]. right. by exists slot.
Qed.
End authentic.

(** * Two agents *)

(** A party: its credentials and its one host candidate. *)
Record party : Type := Party { y_ufrag : list Z; y_pwd : list Z; y_addr : list Z; y_port : Z; y_family : Z }.
Definition credential (size : nat) (s : list Z) : cred := Cred (s ++ replicate (size - length s) 0) (length s).
Definition host (y : party) : ice_candidate := Cand (y_addr y) (y_port y) (y_family y) NANORTC_ICE_CAND_HOST.
Definition source (y : party) : nanortc_addr := Addr (y_family y) (y_addr y) (y_port y).
Record party_ok (y : party) : Prop := {
  yo_ufrag : bytes (y_ufrag y) /\ (0 < length (y_ufrag y) < NANORTC_ICE_UFRAG_SIZE)%nat /\ 58 ∉ y_ufrag y;
  yo_pwd : (0 < length (y_pwd y) < NANORTC_ICE_PWD_SIZE)%nat;
  yo_addr : length (y_addr y) = NANORTC_ADDR_SIZE /\ bytes (y_addr y) /\ is_u16 (y_port y);
  yo_family : y_family y = 4 \/ y_family y = 6
}.
(** The credentials of [a] facing [b]. *)
Definition creds (ice : nano_ice) (a b : party) : Prop :=
  ic_lufrag ice = credential NANORTC_ICE_UFRAG_SIZE (y_ufrag a) /\ ic_lpwd ice = credential NANORTC_ICE_PWD_SIZE (y_pwd a) /\
  ic_rufrag ice = credential NANORTC_ICE_REMOTE_UFRAG_SIZE (y_ufrag b) /\ ic_rpwd ice = credential NANORTC_ICE_REMOTE_PWD_SIZE (y_pwd b).

Lemma credential_text size s : cred_text (credential size s) = Ok s.
Proof. unfold cred_text, credential. cbn [cr_buf cr_len]. by rewrite rdn_front. Qed.
Lemma cred_is_credential size n s t : n = length s -> cred_is (credential size s) n t = Ok (bool_decide (s = t)).
Proof. intros ->. unfold cred_is, credential. cbn [cr_buf]. by rewrite rdn_front. Qed.
Lemma find_octet_app c s rest i : c ∉ s -> find_octet c (s ++ c :: rest) i = Some (i + length s)%nat.
Proof.
  revert i. induction s as [|x s IH]; intros i H; cbn [app find_octet length].
  - rewrite Z.eqb_refl. f_equal. lia.
  - apply not_elem_of_cons in H as [H1 H2]. rewrite (proj2 (Z.eqb_neq x c)) by congruence. rewrite IH by done. f_equal. lia.
Qed.

Section connect.
Context (hmac_sha1 : list Z -> list Z -> list Z).
Context (hmac_length : forall k x, length (hmac_sha1 k x) = 20%nat).
Context (hmac_bytes : forall k x, bytes (hmac_sha1 k x)).
Context {R : Type} (random_bytes : R -> nat -> R * option (list Z)).
Abbreviation ice_handle_stun := (ice_handle_stun hmac_sha1).
Abbreviation ice_generate_check := (ice_generate_check hmac_sha1 random_bytes).

(** The request [b] sends to [a], and [a]'s response to the address it saw. *)
Definition username (a b : party) : list Z := y_ufrag a ++ 58 :: y_ufrag b.
Definition request (a b : party) (uc ctl : bool) (tb : Z) (txid : list Z) : list Z :=
  signed_message hmac_sha1 STUN_BINDING_REQUEST txid (y_pwd a) (request_attrs (username a b) (ICE_PRFLX_PRIORITY 0) uc ctl tb).
Definition response (a : party) (src : nanortc_addr) (txid : list Z) : list Z :=
  signed_message hmac_sha1 STUN_BINDING_RESPONSE txid (y_pwd a) (response_attrs txid (ad_addr src) (addr_to_stun_family (ad_family src)) (ad_port src)).

Context (a b : party) (Ha : party_ok a) (Hb : party_ok b).

Lemma username_length : (3 <= length (username a b) <= 17)%nat.
Proof using Ha Hb.
  destruct (yo_ufrag a Ha) as (_ & H1 & _), (yo_ufrag b Hb) as (_ & H2 & _). unfold username, NANORTC_ICE_UFRAG_SIZE in *. rewrite length_app. cbn [length]. lia.
Qed.
Lemma username_bytes : bytes (username a b).
Proof using Ha Hb.
  apply Forall_app_2; [apply (yo_ufrag a Ha)|]. apply List.Forall_cons; [done | apply (yo_ufrag b Hb)].
Qed.
Lemma ice_username_eq ice : creds ice b a -> ice_username ice = Ok (username a b).
Proof.
  intros (H1 & _ & H2 & _). unfold ice_username. rewrite H1, H2. unfold credential. cbn [cr_buf cr_len].
  rewrite (rdn_front (y_ufrag a)), bind_Ok, (rdn_front (y_ufrag b)), bind_Ok by done. done.
Qed.

(** What the parser reports of a request, and the two verifications. *)
Lemma request_reads uc ctl tb txid : is_u64 tb -> length txid = STUN_TXID_SIZE -> bytes txid ->
  exists m, stun_parse (request a b uc ctl tb txid) = Ok m /\ m_type m = STUN_BINDING_REQUEST /\ m_txid m = txid /\ m_username m = Some (username a b) /\
    m_use_candidate m = uc /\ m_fingerprint m <> None /\ m_integrity m <> None /\ stun_verify_fingerprint (request a b uc ctl tb txid) = Ok NANORTC_OK /\
    stun_verify_integrity hmac_sha1 (request a b uc ctl tb txid) m (y_pwd a) = Ok NANORTC_OK.
Proof using Ha Hb hmac_bytes hmac_length.
  intros Htb Ht Htb'. pose proof username_length as Hul. pose proof username_bytes as Hub. unfold request.
  assert (is_u16 (Z.of_nat (length (username a b)))) as Hu by mach.
  set (avs := request_attrs _ _ _ _ _). assert (Forall attr_ok avs) as Hav by (by apply request_attrs_ok).
  assert (length (attrs_bytes avs) <= 504)%nat as Hlen.
  { unfold avs. rewrite request_attrs_bytes, !length_app, attr_bytes_length, attr_padded_eq, Nat2Z.id by done.
    pose proof (Nat.Div0.div_le_mono (length (username a b) + 3) 20 4 ltac:(lia)) as Hd. change (20 / 4)%nat with 5%nat in Hd.
    destruct uc; cbn [length be16 be32 be64 app]; lia. }
  eexists. split.
  { apply (stun_parse_signed hmac_sha1 hmac_length hmac_bytes); [done | done | done | done | done | lia | apply request_attrs_walk; [vm_compute; split; congruence | done]]. }
  split_and!; try (by destruct ctl, uc).
  - by apply verify_fingerprint_signed.
  - rewrite (verify_integrity_signed hmac_sha1 hmac_length) by (done || lia || by destruct ctl, uc). by rewrite bool_decide_eq_true_2.
Qed.

Lemma stun_family_ok f : f = 4 \/ f = 6 -> family_ok (addr_to_stun_family f) /\ (addr_size (addr_to_stun_family f) <= 16)%nat /\ addr_to_stun_family f <> 0.
Proof. intros [-> | ->]; (split; [|by vm_compute; split; lia]); [by left | by right]. Qed.
Lemma response_reads txid ice : length txid = STUN_TXID_SIZE -> bytes txid -> creds ice b a ->
  exists m, stun_parse (response a (source b) txid) = Ok m /\ m_type m = STUN_BINDING_RESPONSE /\ m_txid m = txid /\
    stun_authentic hmac_sha1 (response a (source b) txid) m (ic_rpwd ice) = Ok NANORTC_OK.
Proof using Ha Hb hmac_bytes hmac_length.
  intros Ht Htb (_ & _ & _ & Hpwd). unfold response, source. cbn [ad_addr ad_family ad_port]. destruct (yo_addr b Hb) as (Hl & Hbb & Hport).
  destruct (stun_family_ok _ (yo_family b Hb)) as (Hf & Hs & _). set (f := addr_to_stun_family _) in *. unfold NANORTC_ADDR_SIZE in Hl.
  set (avs := response_attrs _ _ _ _). assert (length (attrs_bytes avs) = 8 + addr_size f)%nat as Hlen.
  { unfold avs. rewrite response_attrs_bytes by (done || lia). rewrite !length_app, xor_value_length by (done || lia). cbn. lia. }
  assert (Forall attr_ok avs) as Hav.
  { apply List.Forall_cons; [|done]. split_and!; cbn [fst snd]; [done | rewrite xor_value_length by (done || lia); mach|].
    unfold xor_value. repeat apply Forall_app_2; [destruct Hf as [-> | ->]; by (repeat apply List.Forall_cons) | apply be16_bytes |].
    destruct (_ =? _); [apply be32_bytes|]. apply zip_lxor_bytes; [by apply Forall_take|]. apply Forall_app_2; [apply be32_bytes | done]. }
  eexists. split.
  { apply (stun_parse_signed hmac_sha1 hmac_length hmac_bytes); [done | done | done | done | done | lia | apply response_attrs_walk; done || lia]. }
  split; [done|]. split; [done|]. unfold stun_authentic. cbn [m_fingerprint set_fingerprint m_integrity set_integrity].
  rewrite verify_fingerprint_signed by (done || lia). rewrite bind_Ok. cbn [negb Z.eqb NANORTC_OK]. rewrite Hpwd, credential_text, bind_Ok.
  rewrite (verify_integrity_signed hmac_sha1 hmac_length) by (done || lia). by rewrite bool_decide_eq_true_2.
Qed.

Lemma verify_username_own ice m : creds ice a b -> m_username m = Some (username a b) -> ice_verify_username ice m = Ok true.
Proof using Ha Hb.
  intros (H1 & H2 & H3 & _) Hm. destruct (yo_ufrag a Ha) as (_ & La & Na), (yo_ufrag b Hb) as (_ & Lb & _). pose proof (yo_pwd a Ha) as Lp. pose proof username_length as Lu.
  unfold ice_verify_username. rewrite Hm. cbv zeta. rewrite H1, H2, H3.
  repeat match goal with |- context [cr_len (credential ?k ?l)] => change (cr_len (credential k l)) with (length l) end.
  rewrite !(proj2 (Nat.eqb_neq _ 0)) by lia. cbn [orb]. unfold username at 1. rewrite find_octet_app by done. rewrite Nat.add_0_l, Nat.eqb_refl. cbn [negb].
  assert (take (length (y_ufrag a)) (username a b) = y_ufrag a) as -> by (unfold username; by rewrite take_app_length).
  assert (drop (S (length (y_ufrag a))) (username a b) = y_ufrag b) as ->.
  { unfold username. rewrite (cons_middle 58 (y_ufrag a) (y_ufrag b)), app_assoc, drop_app_length' by (rewrite length_app; cbn; lia). done. }
  rewrite (cred_is_credential _ _ (y_ufrag a) (y_ufrag a)), bind_Ok, bool_decide_eq_true_2 by done. cbn [negb orb].
  assert (length (username a b) - length (y_ufrag a) - 1 = length (y_ufrag b))%nat as -> by (unfold username; rewrite length_app; cbn [length]; lia).
  rewrite (proj2 (Nat.eqb_neq _ 0)) by lia. rewrite Nat.eqb_refl. cbn [negb]. rewrite (cred_is_credential _ _ (y_ufrag b) (y_ufrag b)) by done. by rewrite bool_decide_eq_true_2.
Qed.
(** An authentic request: answered, and handed to [ice_trigger_check]. *)
Lemma handle_request_eq ice uc ctl tb txid buf : creds ice a b -> (0 < ic_local_count ice)%nat -> (76 <= length buf)%nat ->
  is_u64 tb -> length txid = STUN_TXID_SIZE -> bytes txid ->
  let resp := response a (source b) txid in
  ice_handle_stun ice (request a b uc ctl tb txid) (source b) 0 false buf =
  ('(ice, admitted) ← ice_trigger_check ice 0 (source b) (uc && negb (ic_controlling ice));
   if negb admitted then Ok (ice, NANORTC_ERR_WOULD_BLOCK, resp ++ drop (length resp) buf, 0%nat)
   else Ok (ice, NANORTC_OK, resp ++ drop (length resp) buf, length resp)).
Proof using Ha Hb hmac_bytes hmac_length.
  intros Hc Hn Hbuf Htb Ht Htxb resp. destruct (request_reads uc ctl tb txid Htb Ht Htxb) as (m & Hp & Hty & Htx & Hu & Huc & Hfp & Hmi & Hvf & Hvi).
  unfold Ice.ice_handle_stun. rewrite Hp, Hty. cbn [Z.eqb STUN_BINDING_REQUEST Pos.eqb]. unfold ice_handle_request.
  destruct (m_fingerprint m); [|done]. rewrite Hvf, bind_Ok. cbn [negb Z.eqb NANORTC_OK]. rewrite (verify_username_own ice m Hc Hu), bind_Ok. cbn [negb].
  destruct (m_integrity m); [|done]. destruct Hc as (H1 & H2 & H3 & H4). rewrite H2, credential_text, bind_Ok, Hvi, bind_Ok. cbn [negb Z.eqb NANORTC_OK]. cbv zeta.
  destruct (yo_addr b Hb) as (Hl & Hbb & Hport). destruct (stun_family_ok _ (yo_family b Hb)) as (Hf & Hs & Hf0). unfold source. cbn [ad_family ad_addr ad_port].
  rewrite (proj2 (Z.eqb_neq _ _) Hf0). rewrite (encode_binding_response_spec hmac_sha1 hmac_length) by (unfold NANORTC_ADDR_SIZE in *; congruence || lia || done).
  rewrite (proj2 (Nat.ltb_ge _ _) Hbuf). unfold resolve_local. rewrite (proj2 (Nat.leb_gt _ _) Hn), bind_Ok, Htx, Huc. done.
Qed.
End connect.

(** * The exchange *)

(** An agent with one host candidate and one slot of its table in use. *)
Record view : Type := View { v_state : ice_state; v_selected : selected; v_next : Z; v_count : Z; v_nominated : bool; v_slot : ice_pending }.
Definition agent_of (ctl : bool) (tb : Z) (base : nat) (eoc : bool) (gen : Z) (a b : party) (rs : list ice_candidate) (n : nat) (v : view) : nano_ice :=
  Ice (v_state v) ctl (credential NANORTC_ICE_UFRAG_SIZE (y_ufrag a)) (credential NANORTC_ICE_PWD_SIZE (y_pwd a))
    (credential NANORTC_ICE_REMOTE_UFRAG_SIZE (y_ufrag b)) (credential NANORTC_ICE_REMOTE_PWD_SIZE (y_pwd b))
    (v_selected v) NANORTC_ICE_CHECK_INTERVAL_MS (v_next v) tb (v_count v) (v_nominated v) base
    (v_slot v :: replicate 3 pending_zero) (host a :: replicate 3 cand_zero) 1 rs n 0 0 eoc gen consent_zero.
Definition in_slot (txid : list Z) (sent : Z) (in_flight : bool) (flags : Z) : ice_pending := Pending txid sent 0 0 in_flight flags.
Definition ready_slot (p : ice_pending) : Prop := exists txid flags, p = in_slot txid 0 false flags /\ (flags = 0 \/ flags = 7 \/ flags = 9).

Section exchange.
Context (hmac_sha1 : list Z -> list Z -> list Z).
Context (hmac_length : forall k x, length (hmac_sha1 k x) = 20%nat).
Context (hmac_bytes : forall k x, bytes (hmac_sha1 k x)).
Context {R : Type} (random_bytes : R -> nat -> R * option (list Z)).
Context (ctl : bool) (tb : Z) (base : nat) (eoc : bool) (gen : Z) (a b : party) (Ha : party_ok a) (Hb : party_ok b) (Hfam : y_family b = y_family a).
Context (Htb : is_u64 tb).
Abbreviation agent := (agent_of ctl tb base eoc gen a b).

Lemma get_check_ready st sel next count nom p r rs now :
  st = NANORTC_ICE_STATE_NEW \/ st = NANORTC_ICE_STATE_CHECKING -> next = 0 \/ nano_time_until now next = 0 -> 0 <= count < 25 -> ready_slot p ->
  ca_family r = y_family a ->
  ice_get_check (agent (r :: rs) 1 (View st sel next count nom p)) now None = Ok (0, IceCheck (Some 0%nat) 0 0 false false).
Proof using Ha Hb.
  intros Hst Hnext Hcount (txid & f & -> & Hf) Hr. set (ice := agent _ _ _).
  assert (ice_pace ice now = 0) as Hpace.
  { unfold ice_pace. cbn [ic_next_check ice agent_of v_next]. destruct (Z.eqb_spec next 0); [done|]. by destruct Hnext. }
  assert (ice_pair_ready ice 0 0 None = Ok true) as Hready.
  { unfold ice_pair_ready. cbn. by rewrite Hr, Z.eqb_refl. }
  destruct (yo_ufrag a Ha) as (_ & La & _), (yo_ufrag b Hb) as (_ & Lb & _). pose proof (yo_pwd a Ha). pose proof (yo_pwd b Hb).
  assert (((cr_len (ic_lufrag ice) =? 0)%nat || (cr_len (ic_lpwd ice) =? 0)%nat || (cr_len (ic_rufrag ice) =? 0)%nat || (cr_len (ic_rpwd ice) =? 0)%nat) = false) as Hcr.
  { cbn [ice agent_of ic_lufrag ic_lpwd ic_rufrag ic_rpwd credential cr_len]. by rewrite !(proj2 (Nat.eqb_neq _ 0)) by lia. }
  assert (scan_pending ice now None (Scan UINT32_MAX None false check_none) 0 =
    Ok (if f =? 0 then Scan UINT32_MAX (Some 0%nat) false check_none else Scan 0 None true (IceCheck (Some 0%nat) 0 0 false false))) as Hscan.
  { unfold scan_pending. change (get_pending (ic_pending ice) 0) with (Ok (in_slot txid 0 false f)). rewrite bind_Ok. cbv zeta.
    change (ic_check_count ice) with count. rewrite (proj2 (Z.leb_gt NANORTC_ICE_MAX_CHECKS count)) by (unfold NANORTC_ICE_MAX_CHECKS; lia).
    change (pe_local (in_slot txid 0 false f)) with 0%nat. change (pe_remote (in_slot txid 0 false f)) with 0%nat. rewrite Hready, Hpace.
    destruct Hf as [-> |[-> | ->] ]; reflexivity. }
  assert ((negb (bool_decide (ic_state ice = NANORTC_ICE_STATE_NEW)) && negb (bool_decide (ic_state ice = NANORTC_ICE_STATE_CHECKING))) = false) as Hs0.
  { change (ic_state ice) with st. by destruct Hst as [-> | ->]. }
  unfold ice_get_check. rewrite Hs0, Hcr, Hpace. change (ic_local_count ice) with 1%nat. change (ic_remote_count ice) with 1%nat. change (ic_check_count ice) with count.
  rewrite andb_false_r. cbn [Nat.eqb orb seq fold_check]. cbn [fold_check NANORTC_ICE_MAX_PENDING_CHECKS seq]. rewrite Hscan, bind_Ok.
  rewrite (proj2 (Z.leb_gt NANORTC_ICE_MAX_CHECKS count)) by (unfold NANORTC_ICE_MAX_CHECKS; lia).
  assert (forall s i, i = 1%nat \/ i = 2%nat \/ i = 3%nat -> scan_pending ice now None s i =
    Ok (if match sc_free s with None => true | _ => false end then Scan (sc_best s) (Some i) (sc_active s) (sc_check s) else s)) as Hidle.
  { intros s i [-> |[-> | ->] ]; reflexivity. }
  rewrite (Hidle _ 1%nat), bind_Ok by tauto. rewrite (Hidle _ 2%nat), bind_Ok by tauto. rewrite (Hidle _ 3%nat), !bind_Ok by tauto.
  destruct (Z.eqb_spec f 0) as [Hf0|Hf0]; [|reflexivity]. cbn [sc_free sc_best sc_active sc_check]. cbn [Z.eqb UINT32_MAX].
  change (ic_cur_local ice * 1 + ic_cur_remote ice)%nat with 0%nat. cbn [scan_pairs Nat.mul Nat.add]. change (ic_remote_count ice) with 1%nat.
  change (0 mod 1 / 1)%nat with 0%nat. change (0 mod 1 mod 1)%nat with 0%nat. rewrite Hready, bind_Ok.
  assert (pair_known (ic_pending ice) 0 0 = false) as -> by (cbn; by rewrite Hf0). reflexivity.
Qed.

Lemma creds_of rs n v : creds (agent rs n v) a b.
Proof using. by split_and!. Qed.
Lemma unqueue_ready txid f : f = 0 \/ f = 7 \/ f = 9 ->
  exists ps, ice_unqueue_check (in_slot txid 0 false f :: replicate 3 pending_zero) 0 = Ok ps /\
    forall p, <[0%nat := p]> ps = p :: replicate 3 pending_zero.
Proof using. intros [-> |[-> | ->] ]; eexists; split; reflexivity. Qed.
(** The timer finds the slot's check due, or its one pair unchecked, and sends. *)
Lemma generate_ready st sel next count nom txid0 f r rs g g' now txid buf :
  st = NANORTC_ICE_STATE_NEW \/ st = NANORTC_ICE_STATE_CHECKING -> next = 0 \/ nano_time_until now next = 0 -> 0 <= count < 25 ->
  f = 0 \/ f = 7 \/ f = 9 -> ca_family r = y_family a -> random_bytes g STUN_TXID_SIZE = (g', Some txid) -> length txid = STUN_TXID_SIZE ->
  let msg := request hmac_sha1 b a (ctl && negb (Z.land f 4 =? 0)) ctl tb txid in
  (length msg <= length buf)%nat ->
  ice_generate_check hmac_sha1 random_bytes (agent (r :: rs) 1 (View st sel next count nom (in_slot txid0 0 false f))) g now buf =
  Ok (agent (r :: rs) 1 (View NANORTC_ICE_STATE_CHECKING sel (nano_time_deadline now NANORTC_ICE_CHECK_INTERVAL_MS) (count + 1) nom
        (in_slot txid now true (Z.land f 14 + 16))), g', NANORTC_OK, msg ++ drop (length msg) buf, length msg).
Proof using Ha Hb Htb hmac_length.
  intros Hst Hnext Hcount Hf Hr Hrng Ht msg Hbuf. unfold ice_generate_check.
  assert (((NANORTC_ICE_REMOTE_UFRAG_SIZE <=? length (y_ufrag b)) || (NANORTC_ICE_UFRAG_SIZE <=? length (y_ufrag a)))%nat = false) as Hfits.
  { destruct (yo_ufrag a Ha) as (_ & La & _), (yo_ufrag b Hb) as (_ & Lb & _). unfold NANORTC_ICE_UFRAG_SIZE, NANORTC_ICE_REMOTE_UFRAG_SIZE in *.
    by rewrite !(proj2 (Nat.leb_gt _ _)) by lia. }
  assert ((count <? 255) = true) as Hlt255 by lia. assert (u8 (count + 1) = count + 1) as Hu8 by (apply u8_id; unfold is_u8; lia).
  pose proof (username_length b a Hb Ha) as Hu. assert (is_u16 (Z.of_nat (length (username b a)) + 100)) as Hu16 by mach.
  rewrite (get_check_ready st sel next count nom _ r rs now) by (try done; by exists txid0, f). rewrite bind_Ok. cbn [negb Z.eqb].
  set (ice := agent _ _ _). unfold ice_send_check. cbn [ch_expire ch_slot ch_retransmit ch_local ch_remote]. cbn [Nat.leb NANORTC_ICE_MAX_PENDING_CHECKS].
  change (get_pending (ic_pending ice) 0) with (Ok (in_slot txid0 0 false f)). rewrite bind_Ok, Hrng.
  change (cr_len (ic_rufrag ice)) with (length (y_ufrag b)). change (cr_len (ic_lufrag ice)) with (length (y_ufrag a)).
  rewrite Hfits. cbn [orb].
  rewrite (ice_username_eq b a ice) by apply creds_of. rewrite bind_Ok.
  change (ic_rpwd ice) with (credential NANORTC_ICE_REMOTE_PWD_SIZE (y_pwd b)). rewrite credential_text, bind_Ok.
  change (ic_controlling ice) with ctl. change (ic_tie_breaker ice) with tb. cbn [pe_txid].
  rewrite (encode_binding_request_spec hmac_sha1 hmac_length) by done.
  assert (flagged (Pending txid now 0 0 (pe_in_flight (in_slot txid0 0 false f)) (Z.land (pe_flags (in_slot txid0 0 false f)) ICE_CHECK_STATE_MASK)) ICE_CHECK_NOMINATE =
    negb (Z.land f 4 =? 0)) as -> by (by destruct Hf as [-> |[-> | ->] ]).
  cbv zeta. change (signed_message _ _ _ _ _) with msg. rewrite (proj2 (Nat.ltb_ge _ _) Hbuf).
  destruct (unqueue_ready txid0 f Hf) as (ps & Hps & Hins). change (ic_pending ice) with (in_slot txid0 0 false f :: replicate 3 pending_zero). rewrite Hps, bind_Ok, Hins.
  repeat match goal with |- context [ic_check_count ?i] => change (ic_check_count i) with count end.
  rewrite Hlt255, Hu8. cbn [negb andb].
  destruct Hf as [-> |[-> | ->] ]; reflexivity.
Qed.

(** A remote candidate with the peer's address; the one an unknown source becomes. *)
Definition reaches (r : ice_candidate) : Prop := ca_addr r = y_addr b /\ ca_port r = y_port b /\ ca_family r = y_family b.
Definition reflexive : ice_candidate := Cand (y_addr b) (y_port b) (y_family b) NANORTC_ICE_CAND_PRFLX.
Lemma reaches_matches r : reaches r -> ice_addr_matches r (source b) = true.
Proof using.
  intros (H1 & H2 & H3). unfold ice_addr_matches, source. cbn [ad_family ad_port ad_addr]. by rewrite H1, H2, H3, !Z.eqb_refl, bool_decide_eq_true_2.
Qed.
(** The selected pair: the peer's candidate and the one local candidate. *)
Definition pair_with (r : ice_candidate) : selected :=
  Selected (ca_addr r) (ca_port r) (ca_family r) (ca_type r) (y_addr a) (y_port a) (y_family a) 0 NANORTC_ICE_CAND_HOST.

Lemma same_family : (y_family a =? y_family b) = true.
Proof using Hfam. by rewrite Hfam, Z.eqb_refl. Qed.
(** The peer's first request: its check is queued, and an unknown source learnt. *)
Lemma trigger_new st sel next count nom txid r rs n :
  st = NANORTC_ICE_STATE_NEW \/ st = NANORTC_ICE_STATE_CHECKING -> (n = 0 \/ n = 1 /\ reaches r)%nat ->
  ice_trigger_check (agent (r :: rs) n (View st sel next count nom (in_slot txid 0 false 0))) 0 (source b) false =
  Ok (agent ((if (n =? 0)%nat then reflexive else r) :: rs) 1 (View st sel next count nom (in_slot (replicate STUN_TXID_SIZE 0) 0 false 9)), true).
Proof using Hfam.
  intros Hst Hn. pose proof same_family as Hsame. unfold ice_trigger_check. set (ice := agent _ _ _).
  assert ((bool_decide (ic_state ice = NANORTC_ICE_STATE_CONNECTED) || bool_decide (ic_state ice = NANORTC_ICE_STATE_FAILED) ||
           bool_decide (ic_state ice = NANORTC_ICE_STATE_DISCONNECTED)) = false) as -> by (change (ic_state ice) with st; by destruct Hst as [-> | ->]).
  cbn. rewrite Hsame. destruct Hn as [-> |[-> Hr] ]; cbn; [reflexivity|]. rewrite (reaches_matches r Hr). reflexivity.
Qed.
(** Later requests on a pair that answered: only a nomination changes anything. *)
Lemma trigger_valid st sel next count nom txid t r rs f (nominate : bool) :
  st = NANORTC_ICE_STATE_NEW \/ st = NANORTC_ICE_STATE_CHECKING -> reaches r -> f = 2 \/ f = 7 ->
  ice_trigger_check (agent (r :: rs) 1 (View st sel next count nom (in_slot txid t false f))) 0 (source b) nominate =
  Ok (agent (r :: rs) 1 (if nominate then View NANORTC_ICE_STATE_CONNECTED (pair_with r) next count true (in_slot txid t false (Z.lor f 4))
                         else View st sel next count nom (in_slot txid t false f)), true).
Proof using Hfam.
  intros Hst Hr Hf. pose proof same_family as Hsame. unfold ice_trigger_check. set (ice := agent _ _ _).
  assert ((bool_decide (ic_state ice = NANORTC_ICE_STATE_CONNECTED) || bool_decide (ic_state ice = NANORTC_ICE_STATE_FAILED) ||
           bool_decide (ic_state ice = NANORTC_ICE_STATE_DISCONNECTED)) = false) as -> by (change (ic_state ice) with st; by destruct Hst as [-> | ->]).
  cbn. rewrite Hsame. cbn. rewrite (reaches_matches r Hr). destruct Hf as [-> | ->], nominate; reflexivity.
Qed.

(** The response to the check in flight. *)
Lemma handle_response_eq sel next count nom txid now f r rs buf : reaches r -> f = 16 \/ f = 24 \/ f = 22 -> length txid = STUN_TXID_SIZE -> bytes txid ->
  ice_handle_stun hmac_sha1 (agent (r :: rs) 1 (View NANORTC_ICE_STATE_CHECKING sel next count nom (in_slot txid now true f)))
    (response hmac_sha1 b (source a) txid) (source b) 0 false buf =
  Ok (agent (r :: rs) 1 (if negb (Z.land f 4 =? 0) then View NANORTC_ICE_STATE_CONNECTED (pair_with r) next count true (in_slot txid now false 2)
                         else if ctl then View NANORTC_ICE_STATE_CHECKING sel next count nom (in_slot txid 0 false 7)
                         else View NANORTC_ICE_STATE_CHECKING sel next count nom (in_slot txid now false 2)), NANORTC_OK, buf, 0%nat).
Proof using Ha Hb hmac_bytes hmac_length.
  intros Hr Hf Ht Htb'. set (ice := agent _ _ _).
  destruct (response_reads hmac_sha1 hmac_length hmac_bytes b a Hb Ha txid ice Ht Htb' (creds_of _ _ _)) as (m & Hp & Hty & Htx & Hauth).
  unfold ice_handle_stun. rewrite Hp, Hty. cbn [Z.eqb STUN_BINDING_REQUEST STUN_BINDING_RESPONSE Pos.eqb]. unfold ice_handle_response. rewrite Htx, Hauth.
  cbn. rewrite bool_decide_eq_true_2 by done. cbn. unfold same_path. cbn. rewrite (reaches_matches r Hr). cbn.
  subst ice. clear Hauth. destruct Hf as [-> |[-> | ->] ]; try reflexivity; destruct ctl; reflexivity.
Qed.
End exchange.

Lemma request_length hmac a b (uc ctl : bool) tb txid : (forall k x, length (hmac k x) = 20%nat) -> party_ok a -> party_ok b -> length txid = STUN_TXID_SIZE ->
  (length (request hmac a b uc ctl tb txid) <= 100)%nat.
Proof.
  intros Hh Ha Hb Ht. unfold request. pose proof (username_length a b Ha Hb) as Hu. assert (is_u16 (Z.of_nat (length (username a b)))) as Hu16 by mach.
  unfold signed_message. cbv zeta. rewrite length_app, stun_header_length, signed_length by done. rewrite request_attrs_bytes, !length_app, attr_bytes_length, attr_padded_eq, Nat2Z.id by done.
  pose proof (Nat.Div0.div_le_mono (length (username a b) + 3) 20 4 ltac:(lia)) as Hd. change (20 / 4)%nat with 5%nat in Hd.
  unfold STUN_HEADER_SIZE. destruct uc, ctl; cbn [length be16 be32 be64 app]; lia.
Qed.
Lemma response_length hmac a b txid : (forall k x, length (hmac k x) = 20%nat) -> party_ok b -> length txid = STUN_TXID_SIZE ->
  (length (response hmac a (source b) txid) <= 76)%nat.
Proof.
  intros Hh Hb Ht. unfold response, source, signed_message. cbv zeta. cbn [ad_addr ad_family ad_port]. destruct (yo_addr b Hb) as (Hl & _). unfold NANORTC_ADDR_SIZE in Hl.
  destruct (stun_family_ok _ (yo_family b Hb)) as (Hf & Hs & _). rewrite length_app, stun_header_length, signed_length by done. rewrite response_attrs_bytes by (done || lia).
  rewrite !length_app, xor_value_length by (done || lia). unfold STUN_HEADER_SIZE. cbn [length be16]. lia.
Qed.

Section both.
Context (hmac_sha1 : list Z -> list Z -> list Z).
Context (hmac_length : forall k x, length (hmac_sha1 k x) = 20%nat).
Context (hmac_bytes : forall k x, bytes (hmac_sha1 k x)).
Context {R : Type} (random_bytes : R -> nat -> R * option (list Z)).
Context (random_law : forall g n g' bs, random_bytes g n = (g', Some bs) -> length bs = n /\ bytes bs).

(** [x]'s timer fires; what it sends reaches [y], and the answer [x]. *)
Definition ping (x y : nano_ice) (g : R) (now : Z) (from to : nanortc_addr) (buf : list Z) : res (nano_ice * nano_ice * R) :=
  '(x, g, _, out, n) ← ice_generate_check hmac_sha1 random_bytes x g now buf;
  '(y, _, answer, m) ← ice_handle_stun hmac_sha1 y (take n out) from 0 false buf;
  '(x, _, _, _) ← ice_handle_stun hmac_sha1 x (take m answer) to 0 false buf;
  Ok (x, y, g).
Lemma ping_eq a b x y gx gx' now buf uc ctl tb txid x1 x2 y' : party_ok a -> party_ok b -> (76 <= length buf)%nat -> is_u64 tb ->
  length txid = STUN_TXID_SIZE -> bytes txid -> creds y b a -> (0 < ic_local_count y)%nat ->
  let req := request hmac_sha1 b a uc ctl tb txid in
  ice_generate_check hmac_sha1 random_bytes x gx now buf = Ok (x1, gx', NANORTC_OK, req ++ drop (length req) buf, length req) ->
  ice_trigger_check y 0 (source a) (uc && negb (ic_controlling y)) = Ok (y', true) ->
  ice_handle_stun hmac_sha1 x1 (response hmac_sha1 b (source a) txid) (source b) 0 false buf = Ok (x2, NANORTC_OK, buf, 0%nat) ->
  ping x y gx now (source a) (source b) buf = Ok (x2, y', gx').
Proof using hmac_length hmac_bytes.
  intros Ha Hb Hbuf Htb Ht Htxb Hc Hn req Hgen Htrig Hresp. unfold ping. rewrite Hgen, bind_Ok, take_app_length. unfold req.
  rewrite (handle_request_eq hmac_sha1 hmac_length hmac_bytes b a Hb Ha) by done. rewrite Htrig, !bind_Ok. cbn [negb]. by rewrite bind_Ok, take_app_length, Hresp, bind_Ok.
Qed.
(** A check of [x], the triggered check of [y], the nomination of [x]. *)
Definition three_pings (x y : nano_ice) (gx gy : R) (t1 t2 t3 : Z) (ax ay : nanortc_addr) (buf : list Z) : res (nano_ice * nano_ice) :=
  '(x, y, gx) ← ping x y gx t1 ax ay buf;
  '(y, x, _) ← ping y x gy t2 ay ax buf;
  '(x, y, _) ← ping x y gx t3 ax ay buf;
  Ok (x, y).
(** An agent before its first check. *)
Definition start (ctl : bool) (tb : Z) (base : nat) (eoc : bool) (gen : Z) (a b : party) (rs : list ice_candidate) (n : nat) : nano_ice :=
  agent_of ctl tb base eoc gen a b rs n (View NANORTC_ICE_STATE_NEW selected_zero 0 0 false pending_zero).

(** C6: a controlling and a controlled agent that hold each other's credentials
    connect in three checks: the controlling agent's check, the controlled
    agent's triggered check and the controlling agent's nomination, each
    answered, leave both CONNECTED and nominated with each other's address
    selected. The controlled agent need not know the peer's candidate: it learns
    it from the first check as a peer-reflexive one.  Each agent has one host
    candidate. *)
Theorem ice_agents_connect a b tba tbb ba bb ea eb ga gb rA rB rsA rsB n gx gx' gx'' gy gy' tx1 tx2 tx3 t1 t2 t3 buf :
  party_ok a -> party_ok b -> y_family a = y_family b -> is_u64 tba -> is_u64 tbb ->
  reaches b rA -> (n = 0 \/ n = 1 /\ reaches a rB)%nat -> (100 <= length buf)%nat ->
  random_bytes gx STUN_TXID_SIZE = (gx', Some tx1) -> random_bytes gy STUN_TXID_SIZE = (gy', Some tx2) -> random_bytes gx' STUN_TXID_SIZE = (gx'', Some tx3) ->
  nano_time_until t3 (nano_time_deadline t1 NANORTC_ICE_CHECK_INTERVAL_MS) = 0 ->
  exists x y, three_pings (start true tba ba ea ga a b (rA :: rsA) 1) (start false tbb bb eb gb b a (rB :: rsB) n) gx gy t1 t2 t3 (source a) (source b) buf = Ok (x, y) /\
    (ic_state x = NANORTC_ICE_STATE_CONNECTED /\ ic_nominated x = true /\ se_addr (ic_selected x) = y_addr b /\ se_port (ic_selected x) = y_port b) /\
    (ic_state y = NANORTC_ICE_STATE_CONNECTED /\ ic_nominated y = true /\ se_addr (ic_selected y) = y_addr a /\ se_port (ic_selected y) = y_port a).
Proof using hmac_length hmac_bytes random_law.
  intros Ha Hb Hfam Htba Htbb HrA Hn Hbuf R1 R2 R3 Hdue. assert (y_family b = y_family a) as Hfam' by done.
  destruct (random_law _ _ _ _ R1) as [L1 B1], (random_law _ _ _ _ R2) as [L2 B2], (random_law _ _ _ _ R3) as [L3 B3].
  pose proof (fun uc c tb txid => request_length hmac_sha1 a b uc c tb txid hmac_length Ha Hb) as Lab.
  pose proof (fun uc c tb txid => request_length hmac_sha1 b a uc c tb txid hmac_length Hb Ha) as Lba.
  pose proof (fun txid => response_length hmac_sha1 a b txid hmac_length Hb) as Pa. pose proof (fun txid => response_length hmac_sha1 b a txid hmac_length Ha) as Pb.
  set (rB' := if (n =? 0)%nat then reflexive a else rB). assert (reaches a rB') as HrB.
  { destruct Hn as [-> |[-> Hr] ]; [by split_and! | done]. }
  pose proof (fun uc c tb txid H => Nat.le_trans _ _ _ (Lab uc c tb txid H) Hbuf) as Fab. pose proof (fun uc c tb txid H => Nat.le_trans _ _ _ (Lba uc c tb txid H) Hbuf) as Fba.
  assert (76 <= length buf)%nat as Hbuf' by lia.
  assert (ca_family rA = y_family a) as FrA by (destruct HrA as (_ & _ & ->); done). assert (ca_family rB' = y_family b) as FrB by (destruct HrB as (_ & _ & ->); done).
  unfold three_pings, start. change pending_zero with (in_slot (replicate STUN_TXID_SIZE 0) 0 false 0).
  erewrite (ping_eq a b _ _ gx gx' t1 buf false true tba tx1); [|done..| | | |].
  2: { cbn. lia. }
  2: { apply (generate_ready hmac_sha1 hmac_length random_bytes true tba ba ea ga a b Ha Hb Htba _ _ _ _ _ _ 0); first [done | by left | by apply Fba | lia]. }
  2: { apply (trigger_new false tbb bb eb gb b a Hfam); [by left | done]. }
  2: { apply (handle_response_eq hmac_sha1 hmac_length hmac_bytes true tba ba ea ga a b Ha Hb); first [done | by left]. }
  cbn [negb Z.land Z.eqb]. rewrite bind_Ok. fold rB'.
  erewrite (ping_eq b a _ _ gy gy' t2 buf false false tbb tx2); [|done..| | | |].
  2: { cbn. lia. }
  2: { apply (generate_ready hmac_sha1 hmac_length random_bytes false tbb bb eb gb b a Hb Ha Htbb _ _ _ _ _ _ 9); first [done | by left | by right; right | by apply Fab | lia]. }
  2: { apply (trigger_valid true tba ba ea ga a b Hfam' _ _ _ _ _ _ _ _ _ 7); [by right | done | by right]. }
  2: { apply (handle_response_eq hmac_sha1 hmac_length hmac_bytes false tbb bb eb gb b a Hb Ha); first [done | by right; left]. }
  change (negb (Z.land (Z.land 9 14 + 16) 4 =? 0)) with false. change (negb (Z.land (Z.land 0 14 + 16) 4 =? 0)) with false. cbn [andb]. rewrite bind_Ok.
  erewrite (ping_eq a b _ _ gx' gx'' t3 buf true true tba tx3); [|done..| | | |].
  2: { cbn. lia. }
  2: { apply (generate_ready hmac_sha1 hmac_length random_bytes true tba ba ea ga a b Ha Hb Htba _ _ _ _ _ _ 7); first [done | by right | by right; left | by apply Fba | lia]. }
  2: { apply (trigger_valid false tbb bb eb gb b a Hfam _ _ _ _ _ _ _ _ _ 2); [by right | done | by left]. }
  2: { apply (handle_response_eq hmac_sha1 hmac_length hmac_bytes true tba ba ea ga a b Ha Hb); first [done | by right; right]. }
  rewrite bind_Ok. eexists _, _. split; [done|]. destruct HrA as (A1 & A2 & A3), HrB as (B4 & B5 & B6). by split_and!.
Qed.
End both.

(** * Concrete runs *)

Definition demo_a : party := Party [97; 49; 98; 50] (replicate 22 7) (replicate 16 1) 5000 4.
Definition demo_b : party := Party [99; 51; 100; 52] (replicate 22 9) (replicate 16 2) 6000 4.
(** A provider of twelve octets that counts its calls. *)
Definition counter (g : nat) (n : nat) : nat * option (list Z) := (S g, Some (replicate n (Z.of_nat g mod 256))).
Lemma counter_law g n g' bs : counter g n = (g', Some bs) -> length bs = n /\ bytes bs.
Proof. intros [= _ <-]. split; [apply length_replicate|]. apply Forall_replicate. unfold is_u8. Z.div_mod_to_equations. lia. Qed.
Definition party_okb (y : party) : bool :=
  bool_decide (bytes (y_ufrag y)) && (0 <? length (y_ufrag y))%nat && (length (y_ufrag y) <? NANORTC_ICE_UFRAG_SIZE)%nat && bool_decide (58 ∉ y_ufrag y) &&
  (0 <? length (y_pwd y))%nat && (length (y_pwd y) <? NANORTC_ICE_PWD_SIZE)%nat && (length (y_addr y) =? NANORTC_ADDR_SIZE)%nat &&
  bool_decide (bytes (y_addr y)) && (0 <=? y_port y) && (y_port y <? 65536) && ((y_family y =? 4) || (y_family y =? 6)).
Lemma party_okb_spec y : party_okb y = true -> party_ok y.
Proof.
  unfold party_okb. intros H. repeat match goal with H : _ && _ = true |- _ => apply andb_prop in H as [H ?] end. bool_facts.
  repeat match goal with H : bool_decide _ = true |- _ => apply bool_decide_eq_true_1 in H end. constructor; try (split_and!; done || (unfold is_u16; lia)); lia.
Qed.
Lemma ice_agents_connect_witness :
  exists x y, three_pings toy_mac counter (start true 77 0 false 0 demo_a demo_b (host demo_b :: replicate 7 cand_zero) 1)
      (start false 88 0 false 0 demo_b demo_a (replicate 8 cand_zero) 0) 0%nat 10%nat 1000 1010 1060 (source demo_a) (source demo_b) (replicate 256 0) = Ok (x, y) /\
    ic_state x = NANORTC_ICE_STATE_CONNECTED /\ ic_state y = NANORTC_ICE_STATE_CONNECTED.
Proof.
  destruct (ice_agents_connect toy_mac toy_mac_length toy_mac_bytes counter counter_law demo_a demo_b 77 88 0 0 false false 0 0 (host demo_b) cand_zero
    (replicate 7 cand_zero) (replicate 7 cand_zero) 0 0%nat 1%nat 2%nat 10%nat 11%nat (replicate 12 0) (replicate 12 10) (replicate 12 1) 1000 1010 1060 (replicate 256 0))
    as (x & y & H & Hx & Hy).
  1, 2: apply party_okb_spec; vm_compute; reflexivity.
  all: [> reflexivity | unfold is_u64; lia | unfold is_u64; lia | exact (conj eq_refl (conj eq_refl eq_refl)) | left; reflexivity | rewrite length_replicate; lia
        | vm_compute; reflexivity | vm_compute; reflexivity | vm_compute; reflexivity | vm_compute; reflexivity |].
  exists x, y. exact (conj H (conj (proj1 Hx) (proj1 Hy))).
Defined.
Lemma ice_unauthenticated_ignored_witness :
  let ice := start false 88 0 false 0 demo_b demo_a (replicate 8 cand_zero) 0 in
  exists msg, stun_parse (request toy_mac demo_b demo_a false true 77 (replicate 12 5)) = Ok msg /\ m_txid msg = replicate 12 5 /\
    ((m_type msg = STUN_BINDING_REQUEST /\ ice_verify_username ice msg = Ok true /\ signed_under toy_mac (request toy_mac demo_b demo_a false true 77 (replicate 12 5)) msg (ic_lpwd ice)) \/
     m_type msg <> STUN_BINDING_REQUEST).
Proof.
  intros ice. pose proof (ice_unauthenticated_ignored toy_mac ice (request toy_mac demo_b demo_a false true 77 (replicate 12 5)) (source demo_a) 0 false (replicate 80 0)) as H.
  edestruct H as (msg & Hp & Hc); [vm_compute; reflexivity | right; discriminate |]. exists msg. split; [exact Hp|]. vm_compute in Hp. injection Hp as <-.
  split; [reflexivity|]. destruct Hc as [Hc|(Ht & _)]; [left; exact Hc | right; destruct Ht as [Ht|Ht]; rewrite Ht; discriminate].
Defined.
