(* ===== verification/Turn.v ===== *)
(** The TURN client of [src/nano_turn.c] (RFC 5766, RFC 8656): allocation with
    the long-term credential mechanism, refresh, permissions, channels,
    retransmission, the work selector, and the framing of relayed data. *)

From Stdlib Require Import ZArith Lia.
From stdpp Require Import base list numbers.
From S2P Require Import Prelude Wire Crc Stun.

Local Open Scope Z_scope.

(** * Constants *)

Definition STUN_ATTR_REQUESTED_TRANSPORT : Z := 0x0019.
Definition STUN_ALLOCATE_REQUEST : Z := 0x0003.
Definition STUN_ALLOCATE_RESPONSE : Z := 0x0103.
Definition STUN_ALLOCATE_ERROR : Z := 0x0113.
Definition STUN_REFRESH_REQUEST : Z := 0x0004.
Definition STUN_REFRESH_RESPONSE : Z := 0x0104.
Definition STUN_REFRESH_ERROR : Z := 0x0114.
Definition STUN_SEND_INDICATION : Z := 0x0016.
Definition STUN_DATA_INDICATION : Z := 0x0017.
Definition STUN_CREATE_PERMISSION_REQUEST : Z := 0x0008.
Definition STUN_CREATE_PERMISSION_RESPONSE : Z := 0x0108.
Definition STUN_CREATE_PERMISSION_ERROR : Z := 0x0118.
Definition STUN_CHANNEL_BIND_REQUEST : Z := 0x0009.
Definition STUN_CHANNEL_BIND_RESPONSE : Z := 0x0109.
Definition STUN_CHANNEL_BIND_ERROR : Z := 0x0119.
Definition NANORTC_TURN_HMAC_KEY_SIZE : nat := 16.
Definition NANORTC_TURN_USERNAME_SIZE : nat := 64.
Definition NANORTC_TURN_PASSWORD_SIZE : nat := 64.
Definition NANORTC_TURN_REALM_SIZE : nat := 64.
Definition NANORTC_TURN_NONCE_SIZE : nat := 128.
Definition NANORTC_STUN_ATTR_WIRE_SIZE (vlen : Z) : nat := 4 + attr_padded vlen.
Definition NANORTC_TURN_MAX_REQUEST_SIZE : nat :=
  8 + STUN_TXID_SIZE + NANORTC_STUN_ATTR_WIRE_SIZE 4 + NANORTC_STUN_ATTR_WIRE_SIZE 20 +
  NANORTC_STUN_ATTR_WIRE_SIZE (Z.of_nat NANORTC_TURN_USERNAME_SIZE) + NANORTC_STUN_ATTR_WIRE_SIZE (Z.of_nat NANORTC_TURN_REALM_SIZE) +
  NANORTC_STUN_ATTR_WIRE_SIZE (Z.of_nat NANORTC_TURN_NONCE_SIZE) + NANORTC_STUN_ATTR_WIRE_SIZE 20.
Definition NANORTC_TURN_MAX_PERMISSIONS : nat := 8.
Definition NANORTC_TURN_MAX_CHANNELS : nat := 4.
Definition NANORTC_TURN_RTO_MS : Z := 500.
Definition NANORTC_TURN_MAX_TRANSMISSIONS : Z := 7.
Definition TURN_DEFAULT_LIFETIME : Z := 600.
Definition TURN_REFRESH_MARGIN_MS : Z := 60000.
Definition TURN_PERMISSION_INTERVAL_MS : Z := 240000.
Definition TURN_CHANNEL_REFRESH_MS : Z := 540000.
Definition TURN_TRANSPORT_UDP : Z := 17.
Definition TURN_RTO_MAX_MULTIPLIER : Z := 16.

(** * State *)

Inductive turn_state : Type :=
| NANORTC_TURN_IDLE | NANORTC_TURN_ALLOCATING | NANORTC_TURN_CHALLENGED | NANORTC_TURN_ALLOCATED | NANORTC_TURN_FAILED.
#[global] Instance turn_state_eq_dec : EqDecision turn_state.
Proof. solve_decision. Defined.
Inductive turn_txn : Type := NANORTC_TURN_TXN_NONE | NANORTC_TURN_TXN_ALLOCATE | NANORTC_TURN_TXN_REFRESH.
#[global] Instance turn_txn_eq_dec : EqDecision turn_txn.
Proof. solve_decision. Defined.
Inductive turn_request_state : Type := NANORTC_TURN_REQUEST_NONE | NANORTC_TURN_REQUEST_WAITING | NANORTC_TURN_REQUEST_REAUTH.
#[global] Instance turn_request_state_eq_dec : EqDecision turn_request_state.
Proof. solve_decision. Defined.
(** The field as a condition. *)
Definition pending (s : turn_request_state) : bool := match s with NANORTC_TURN_REQUEST_NONE => false | _ => true end.

(** [nano_turn_permission_t]. *)
Record turn_permission : Type := Permission {
  pm_addr : list Z; pm_deadline_ms : Z; pm_txid : list Z; pm_port : Z; pm_family : Z; pm_active : bool;
  pm_pending : turn_request_state; pm_transmissions : Z; pm_terminal : bool
}.
(** An element of [channels]. *)
Record turn_channel : Type := Channel {
  ch_addr : list Z; ch_deadline_ms : Z; ch_txid : list Z; ch_port : Z; ch_channel : Z; ch_family : Z; ch_bound : bool;
  ch_pending : turn_request_state; ch_transmissions : Z
}.
(** A text buffer and its length. *)
Record cstring : Type := CString { cs_buf : list Z; cs_len : nat }.
(** The allocation-wide transaction: [transaction], [transaction_authenticated],
    [transaction_transmissions], [transaction_reauth], [transaction_retry_at_ms]
    and [last_txid]. *)
Record turn_transaction : Type := Txn {
  tx_kind : turn_txn; tx_authenticated : bool; tx_transmissions : Z; tx_reauth : bool; tx_retry_at_ms : Z; tx_last_txid : list Z
}.
(** Credentials: [auth] is the union of the password and the derived key. *)
Record turn_auth : Type := Auth {
  au_username : cstring; au_auth : list Z; au_password_len : nat; au_realm : cstring; au_nonce : cstring; au_key_valid : bool
}.
(** The allocation: relayed address, lifetime and refresh time. *)
Record turn_relay : Type := Relay { re_addr : list Z; re_port : Z; re_family : Z; re_lifetime_s : Z; re_refresh_at_ms : Z }.
(** [nano_turn_t]. *)
Record nano_turn : Type := Turn {
  tu_state : turn_state; tu_configured : bool; tu_server_addr : list Z; tu_server_port : Z; tu_server_family : Z;
  tu_auth : turn_auth; tu_relay : turn_relay; tu_txn : turn_transaction;
  tu_permission_count : nat; tu_channel_count : nat; tu_next_channel : Z;
  tu_permissions : list turn_permission; tu_channels : list turn_channel
}.
Definition with_turn_state t x := Turn x (tu_configured t) (tu_server_addr t) (tu_server_port t) (tu_server_family t) (tu_auth t) (tu_relay t) (tu_txn t) (tu_permission_count t) (tu_channel_count t) (tu_next_channel t) (tu_permissions t) (tu_channels t).
Definition with_auth t x := Turn (tu_state t) (tu_configured t) (tu_server_addr t) (tu_server_port t) (tu_server_family t) x (tu_relay t) (tu_txn t) (tu_permission_count t) (tu_channel_count t) (tu_next_channel t) (tu_permissions t) (tu_channels t).
Definition with_relay t x := Turn (tu_state t) (tu_configured t) (tu_server_addr t) (tu_server_port t) (tu_server_family t) (tu_auth t) x (tu_txn t) (tu_permission_count t) (tu_channel_count t) (tu_next_channel t) (tu_permissions t) (tu_channels t).
Definition with_txn t x := Turn (tu_state t) (tu_configured t) (tu_server_addr t) (tu_server_port t) (tu_server_family t) (tu_auth t) (tu_relay t) x (tu_permission_count t) (tu_channel_count t) (tu_next_channel t) (tu_permissions t) (tu_channels t).
Definition with_permissions t n x := Turn (tu_state t) (tu_configured t) (tu_server_addr t) (tu_server_port t) (tu_server_family t) (tu_auth t) (tu_relay t) (tu_txn t) n (tu_channel_count t) (tu_next_channel t) x (tu_channels t).
Definition with_channels t n next x := Turn (tu_state t) (tu_configured t) (tu_server_addr t) (tu_server_port t) (tu_server_family t) (tu_auth t) (tu_relay t) (tu_txn t) (tu_permission_count t) n next (tu_permissions t) x.
Definition set_permission t i p := with_permissions t (tu_permission_count t) (<[i := p]> (tu_permissions t)).
Definition set_turn_channel t i c := with_channels t (tu_channel_count t) (tu_next_channel t) (<[i := c]> (tu_channels t)).

Definition permission_zero : turn_permission :=
  Permission (replicate STUN_ADDR_SIZE 0) 0 (replicate STUN_TXID_SIZE 0) 0 0 false NANORTC_TURN_REQUEST_NONE 0 false.
Definition channel_zero : turn_channel :=
  Channel (replicate STUN_ADDR_SIZE 0) 0 (replicate STUN_TXID_SIZE 0) 0 0 0 false NANORTC_TURN_REQUEST_NONE 0.
Definition cstring_zero (size : nat) : cstring := CString (replicate size 0) 0.
Definition txn_zero : turn_transaction := Txn NANORTC_TURN_TXN_NONE false 0 false 0 (replicate STUN_TXID_SIZE 0).
Definition turn_init : nano_turn :=
  Turn NANORTC_TURN_IDLE false (replicate STUN_ADDR_SIZE 0) 0 0
    (Auth (cstring_zero NANORTC_TURN_USERNAME_SIZE) (replicate NANORTC_TURN_PASSWORD_SIZE 0) 0 (cstring_zero NANORTC_TURN_REALM_SIZE)
      (cstring_zero NANORTC_TURN_NONCE_SIZE) false)
    (Relay (replicate STUN_ADDR_SIZE 0) 0 0 0 0) txn_zero 0 0 0x4000
    (replicate NANORTC_TURN_MAX_PERMISSIONS permission_zero) (replicate NANORTC_TURN_MAX_CHANNELS channel_zero).
Definition get_permission (t : nano_turn) (i : nat) : res turn_permission := match tu_permissions t !! i with Some p => Ok p | None => Fault end.
Definition get_turn_channel (t : nano_turn) (i : nat) : res turn_channel := match tu_channels t !! i with Some c => Ok c | None => Fault end.

(** * Delays *)

Definition turn_refresh_delay_ms (lifetime_s : Z) : Z :=
  let max_lifetime_s := NANO_TIME_MAX_INTERVAL_MS / 1000 in
  let bounded_s := if max_lifetime_s <? lifetime_s then max_lifetime_s else lifetime_s in
  let lifetime_ms := u32 (bounded_s * 1000) in
  let margin_ms := if 60 <? bounded_s then TURN_REFRESH_MARGIN_MS else lifetime_ms / 2 in
  let delay_ms := u32 (lifetime_ms - margin_ms) in
  if delay_ms =? 0 then 1 else delay_ms.
Fixpoint retry_loop (k : nat) (delay_ms : Z) : Z :=
  let max_delay_ms := NANORTC_TURN_RTO_MS * TURN_RTO_MAX_MULTIPLIER in
  match k with
  | O => delay_ms
  | S k => if max_delay_ms / 2 <=? delay_ms then max_delay_ms else retry_loop k (u32 (delay_ms * 2))
  end.
Definition turn_retry_delay_ms (transmissions : Z) : Z := retry_loop (Z.to_nat (transmissions - 1)) NANORTC_TURN_RTO_MS.

(** * Message building *)

(** The buffer and the octets written. *)
Definition stun_write_attr (buf : list Z) (pos : nat) (type : Z) (val : list Z) : res (list Z * nat) :=
  let val_len := length val in
  buf ← nanortc_write_u16be buf pos type;
  buf ← nanortc_write_u16be buf (pos + 2) (Z.of_nat val_len);
  buf ← (if (0 <? val_len)%nat then wr buf (pos + 4) val else Ok buf);
  let padded := attr_padded (Z.of_nat val_len) in
  buf ← (if (val_len <? padded)%nat then wr buf (pos + 4 + val_len) (replicate (padded - val_len) 0) else Ok buf);
  Ok (buf, (4 + padded)%nat).
Definition stun_encode_xor_addr (buf : list Z) (pos : nat) (attr_type : Z) (addr : list Z) (family port : Z) (txid : list Z) : res (list Z * nat) :=
  let val := [0; if family =? 4 then STUN_FAMILY_IPV4 else STUN_FAMILY_IPV6] ++ be16 (Z.lxor port (u16 (Z.shiftr STUN_MAGIC_COOKIE 16))) in
  if family =? 4 then
    raw ← nanortc_read_u32be addr 0;
    stun_write_attr buf pos attr_type (val ++ be32 (Z.lxor raw STUN_MAGIC_COOKIE))
  else
    octets ← xor_octets 16 0 addr (xor_mask txid);
    stun_write_attr buf pos attr_type (val ++ octets).
Definition stun_write_header (buf : list Z) (type : Z) (txid : list Z) : res (list Z) :=
  buf ← nanortc_write_u16be buf 0 type;
  buf ← nanortc_write_u16be buf 2 0;
  buf ← nanortc_write_u32be buf 4 STUN_MAGIC_COOKIE;
  wr buf 8 txid.
Definition stun_finalize_length (buf : list Z) (total_len : nat) : res (list Z) :=
  nanortc_write_u16be buf 2 (u16 (Z.of_nat (total_len - STUN_HEADER_SIZE))).
Definition cs_text (s : cstring) : res (list Z) := rdn (cs_buf s) 0 (cs_len s).
(** [memcpy] of a text shorter than its buffer, with its NUL. *)
Definition cs_store (s : cstring) (text : list Z) : res cstring :=
  buf ← wr (cs_buf s) 0 text;
  buf ← wr buf (length text) [0];
  Ok (CString buf (length text)).

Section Provider.
Context (hmac_sha1 : list Z -> list Z -> list Z).
(** [crypto->md5], which may be absent. *)
Context (md5 : option (list Z -> list Z)).
Context {R : Type} (random_bytes : R -> nat -> R * option (list Z)).

Definition stun_append_integrity (buf : list Z) (msg_len : nat) (key : list Z) : res (list Z * nat) :=
  buf ← nanortc_write_u16be buf 2 (u16 (Z.of_nat (msg_len - STUN_HEADER_SIZE + 24)));
  covered ← rdn buf 0 msg_len;
  buf ← nanortc_write_u16be buf msg_len STUN_ATTR_MESSAGE_INTEGRITY;
  buf ← nanortc_write_u16be buf (msg_len + 2) 20;
  buf ← wr buf (msg_len + 4) (hmac_sha1 key covered);
  let pos := (msg_len + 24)%nat in
  buf ← stun_finalize_length buf pos;
  Ok (buf, pos).
(** USERNAME, REALM, NONCE and MESSAGE-INTEGRITY, as every authenticated
    request ends. *)
Definition append_credentials (t : nano_turn) (buf : list Z) (pos : nat) : res (list Z * nat) :=
  let a := tu_auth t in
  username ← cs_text (au_username a);
  '(buf, n) ← stun_write_attr buf pos STUN_ATTR_USERNAME username;
  let pos := (pos + n)%nat in
  realm ← cs_text (au_realm a);
  '(buf, n) ← stun_write_attr buf pos STUN_ATTR_REALM realm;
  let pos := (pos + n)%nat in
  nonce ← cs_text (au_nonce a);
  '(buf, n) ← stun_write_attr buf pos STUN_ATTR_NONCE nonce;
  let pos := (pos + n)%nat in
  key ← rdn (au_auth a) 0 NANORTC_TURN_HMAC_KEY_SIZE;
  stun_append_integrity buf pos key.

Definition turn_build_allocate (t : nano_turn) (authenticated : bool) (txid buf : list Z) : res (list Z * nat) :=
  if (length buf <? NANORTC_TURN_MAX_REQUEST_SIZE)%nat then Err NANORTC_ERR_BUFFER_TOO_SMALL else
  buf ← stun_write_header buf STUN_ALLOCATE_REQUEST txid;
  let pos := STUN_HEADER_SIZE in
  '(buf, n) ← stun_write_attr buf pos STUN_ATTR_REQUESTED_TRANSPORT [TURN_TRANSPORT_UDP; 0; 0; 0];
  let pos := (pos + n)%nat in
  '(buf, n) ← stun_write_attr buf pos STUN_ATTR_LIFETIME (be32 TURN_DEFAULT_LIFETIME);
  let pos := (pos + n)%nat in
  if authenticated then append_credentials t buf pos
  else buf ← stun_finalize_length buf pos; Ok (buf, pos).
Definition turn_build_refresh (t : nano_turn) (lifetime_s : Z) (txid buf : list Z) : res (list Z * nat) :=
  if (length buf <? NANORTC_TURN_MAX_REQUEST_SIZE)%nat then Err NANORTC_ERR_BUFFER_TOO_SMALL else
  buf ← stun_write_header buf STUN_REFRESH_REQUEST txid;
  let pos := STUN_HEADER_SIZE in
  '(buf, n) ← stun_write_attr buf pos STUN_ATTR_LIFETIME (be32 lifetime_s);
  append_credentials t buf (pos + n)%nat.
Definition turn_build_permission (t : nano_turn) (peer_addr : list Z) (peer_family peer_port : Z) (txid buf : list Z) : res (list Z * nat) :=
  if (length buf <? NANORTC_TURN_MAX_REQUEST_SIZE)%nat then Err NANORTC_ERR_BUFFER_TOO_SMALL else
  buf ← stun_write_header buf STUN_CREATE_PERMISSION_REQUEST txid;
  let pos := STUN_HEADER_SIZE in
  '(buf, n) ← stun_encode_xor_addr buf pos STUN_ATTR_XOR_PEER_ADDRESS peer_addr peer_family peer_port txid;
  append_credentials t buf (pos + n)%nat.
Definition turn_build_channel_bind (t : nano_turn) (index : nat) (txid buf : list Z) : res (list Z * nat) :=
  if (length buf <? NANORTC_TURN_MAX_REQUEST_SIZE)%nat then Err NANORTC_ERR_BUFFER_TOO_SMALL else
  buf ← stun_write_header buf STUN_CHANNEL_BIND_REQUEST txid;
  let pos := STUN_HEADER_SIZE in
  c ← get_turn_channel t index;
  '(buf, n) ← stun_write_attr buf pos STUN_ATTR_CHANNEL_NUMBER (be16 (ch_channel c) ++ [0; 0]);
  let pos := (pos + n)%nat in
  '(buf, n) ← stun_encode_xor_addr buf pos STUN_ATTR_XOR_PEER_ADDRESS (ch_addr c) (ch_family c) (ch_port c) txid;
  append_credentials t buf (pos + n)%nat.

(** * Credentials and transactions *)

(** The scratch buffer holds the three texts and two separators. *)
Definition turn_derive_key (t : nano_turn) : res (nano_turn * Z) :=
  match md5 with
  | None => Ok (t, NANORTC_ERR_CRYPTO)
  | Some md5 =>
      let a := tu_auth t in
      username ← cs_text (au_username a);
      realm ← cs_text (au_realm a);
      password ← rdn (au_auth a) 0 (au_password_len a);
      let input := username ++ [58] ++ realm ++ [58] ++ password in
      if (NANORTC_TURN_USERNAME_SIZE + NANORTC_TURN_REALM_SIZE + NANORTC_TURN_PASSWORD_SIZE + 3 <? length input)%nat then Fault else
      auth ← wr (au_auth a) 0 (md5 input);
      Ok (with_auth t (Auth (au_username a) auth (au_password_len a) (au_realm a) (au_nonce a) true), NANORTC_OK)
  end.
Definition reauth_permission (p : turn_permission) : turn_permission :=
  if pending (pm_pending p)
  then Permission (pm_addr p) (pm_deadline_ms p) (pm_txid p) (pm_port p) (pm_family p) (pm_active p) NANORTC_TURN_REQUEST_REAUTH (pm_transmissions p) (pm_terminal p)
  else p.
Definition reauth_channel (c : turn_channel) : turn_channel :=
  if pending (ch_pending c)
  then Channel (ch_addr c) (ch_deadline_ms c) (ch_txid c) (ch_port c) (ch_channel c) (ch_family c) (ch_bound c) NANORTC_TURN_REQUEST_REAUTH (ch_transmissions c)
  else c.
(** [f] on the first [n] elements. *)
Definition map_first {A} (f : A -> A) (n : nat) (l : list A) : list A := map f (take n l) ++ drop n l.
Definition turn_store_nonce (t : nano_turn) (nonce : list Z) : res nano_turn :=
  let stored_len := Nat.min (length nonce) (NANORTC_TURN_NONCE_SIZE - 1) in
  let a := tu_auth t in
  n ← cs_store (au_nonce a) (take stored_len nonce);
  let x := tu_txn t in
  let x := if negb (bool_decide (tx_kind x = NANORTC_TURN_TXN_NONE)) && tx_authenticated x
           then Txn (tx_kind x) (tx_authenticated x) (tx_transmissions x) true (tx_retry_at_ms x) (tx_last_txid x) else x in
  if (length (tu_permissions t) <? tu_permission_count t)%nat || (length (tu_channels t) <? tu_channel_count t)%nat then Fault else
  let t := with_txn (with_auth t (Auth (au_username a) (au_auth a) (au_password_len a) (au_realm a) n (au_key_valid a))) x in
  let t := with_permissions t (tu_permission_count t) (map_first reauth_permission (tu_permission_count t) (tu_permissions t)) in
  Ok (with_channels t (tu_channel_count t) (tu_next_channel t) (map_first reauth_channel (tu_channel_count t) (tu_channels t))).
Definition turn_clear_transaction (t : nano_turn) : nano_turn :=
  with_txn t (Txn NANORTC_TURN_TXN_NONE false 0 false 0 (tx_last_txid (tu_txn t))).
Definition turn_start_transaction (t : nano_turn) (transaction : turn_txn) (authenticated : bool) (txid : list Z) : nano_turn :=
  with_txn t (Txn transaction authenticated 1 false 0 txid).
Definition turn_reset_peer_state (t : nano_turn) : nano_turn :=
  with_channels (with_permissions t 0 (replicate NANORTC_TURN_MAX_PERMISSIONS permission_zero)) 0 0x4000
    (replicate NANORTC_TURN_MAX_CHANNELS channel_zero).

Definition turn_configure (t : nano_turn) (server_addr : list Z) (server_family server_port : Z) (username password : list Z) : res (nano_turn * Z) :=
  if (NANORTC_TURN_USERNAME_SIZE <=? length username)%nat || (NANORTC_TURN_PASSWORD_SIZE <=? length password)%nat
  then Ok (t, NANORTC_ERR_BUFFER_TOO_SMALL) else
  server ← rdn server_addr 0 STUN_ADDR_SIZE;
  let a := tu_auth t in
  u ← cs_store (au_username a) username;
  auth ← wr (au_auth a) 0 password;
  auth ← wr auth (length password) [0];
  Ok (Turn (tu_state t) true server server_port server_family
        (Auth u auth (length password) (au_realm a) (au_nonce a) (au_key_valid a)) (tu_relay t) (tu_txn t)
        (tu_permission_count t) (tu_channel_count t) (tu_next_channel t) (tu_permissions t) (tu_channels t), NANORTC_OK).

(** An operation that may write a request into the caller's buffer: the client,
    the provider, the code, the buffer and [*out_len]. *)
Definition outcome : Type := nano_turn * R * Z * list Z * nat.
Definition turn_start_allocate (t : nano_turn) (g : R) (buf : list Z) : res outcome :=
  if negb (tu_configured t) then Ok (t, g, NANORTC_ERR_STATE, buf, 0%nat) else
  if negb (bool_decide (tx_kind (tu_txn t) = NANORTC_TURN_TXN_NONE)) then Ok (t, g, NANORTC_ERR_STATE, buf, 0%nat) else
  match random_bytes g STUN_TXID_SIZE with
  | (g, None) => Ok (t, g, NANORTC_ERR_CRYPTO, buf, 0%nat)
  | (g, Some txid) =>
      let authenticated := bool_decide (tu_state t = NANORTC_TURN_CHALLENGED) && au_key_valid (tu_auth t) in
      match turn_build_allocate t authenticated txid buf with
      | Fault => Fault
      | Err rc => Ok (t, g, rc, buf, 0%nat)
      | Ok (buf, n) =>
          let t := turn_start_transaction t NANORTC_TURN_TXN_ALLOCATE authenticated txid in
          Ok (with_turn_state t NANORTC_TURN_ALLOCATING, g, NANORTC_OK, buf, n)
      end
  end.

(** * Responses *)

(** The first of [k] requests waiting under this transaction id. *)
Fixpoint find_waiting {A} (state : A -> turn_request_state) (id : A -> list Z) (txid : list Z) (k : nat) (l : list A) (i : nat) : res (option nat) :=
  match k with
  | O => Ok None
  | S k =>
      match l !! i with
      | None => Fault
      | Some x => if bool_decide (state x = NANORTC_TURN_REQUEST_WAITING) && bool_decide (id x = txid) then Ok (Some i)
                  else find_waiting state id txid k l (S i)
      end
  end.
Definition is_error (type : Z) : bool :=
  (type =? STUN_ALLOCATE_ERROR) || (type =? STUN_REFRESH_ERROR) || (type =? STUN_CHANNEL_BIND_ERROR) || (type =? STUN_CREATE_PERMISSION_ERROR).
(** A stale nonce: the new one is stored and the request becomes due. *)
Definition handle_stale_nonce (t : nano_turn) (now_ms : Z) (msg : stun_msg) (txid_match authenticated : bool) (permission_index channel_index : option nat)
    : res (nano_turn * Z) :=
  transmissions ← (if txid_match then Ok (tx_transmissions (tu_txn t)) else
                   match permission_index, channel_index with
                   | Some i, _ => p ← get_permission t i; Ok (pm_transmissions p)
                   | None, Some i => c ← get_turn_channel t i; Ok (ch_transmissions c)
                   | None, None => Fault
                   end);
  match m_nonce msg with
  | Some nonce =>
      if negb authenticated || (length nonce =? 0)%nat || (NANORTC_TURN_MAX_TRANSMISSIONS <=? transmissions)
      then Ok (turn_clear_transaction (with_turn_state t NANORTC_TURN_FAILED), NANORTC_ERR_PROTOCOL) else
      t ← turn_store_nonce t nonce;
      if txid_match then
        let x := tu_txn t in Ok (with_txn t (Txn (tx_kind x) (tx_authenticated x) (tx_transmissions x) (tx_reauth x) now_ms (tx_last_txid x)), NANORTC_OK)
      else
        match permission_index, channel_index with
        | Some i, _ =>
            p ← get_permission t i;
            Ok (set_permission t i (Permission (pm_addr p) now_ms (pm_txid p) (pm_port p) (pm_family p) (pm_active p) (pm_pending p) (pm_transmissions p) (pm_terminal p)), NANORTC_OK)
        | None, Some i =>
            c ← get_turn_channel t i;
            Ok (set_turn_channel t i (Channel (ch_addr c) now_ms (ch_txid c) (ch_port c) (ch_channel c) (ch_family c) (ch_bound c) (ch_pending c) (ch_transmissions c)), NANORTC_OK)
        | None, None => Fault
        end
  | None => Ok (turn_clear_transaction (with_turn_state t NANORTC_TURN_FAILED), NANORTC_ERR_PROTOCOL)
  end.
Definition lifetime_of (msg : stun_msg) : Z := if 0 <? m_lifetime msg then m_lifetime msg else TURN_DEFAULT_LIFETIME.
Definition handle_allocate_response (t : nano_turn) (now_ms : Z) (msg : stun_msg) : nano_turn * Z :=
  let relayed := m_relayed msg in
  if sa_family relayed =? 0 then (t, NANORTC_ERR_PROTOCOL) else
  let lifetime_s := lifetime_of msg in
  let t := with_relay t (Relay (sa_addr relayed) (sa_port relayed) (sa_family relayed) lifetime_s
             (nano_time_deadline now_ms (turn_refresh_delay_ms lifetime_s))) in
  (turn_clear_transaction (with_turn_state t NANORTC_TURN_ALLOCATED), NANORTC_OK).
Definition handle_allocate_error (t : nano_turn) (msg : stun_msg) : res (nano_turn * Z) :=
  if (m_error_code msg =? 401) && bool_decide (tu_state t = NANORTC_TURN_ALLOCATING) then
    let authenticated := tx_authenticated (tu_txn t) in
    let t := turn_clear_transaction t in
    if (authenticated : bool) then Ok (with_turn_state t NANORTC_TURN_FAILED, NANORTC_ERR_PROTOCOL) else
    match m_realm msg, m_nonce msg with
    | Some realm, Some nonce =>
        let rlen := Nat.min (length realm) (NANORTC_TURN_REALM_SIZE - 1) in
        let a := tu_auth t in
        r ← cs_store (au_realm a) (take rlen realm);
        t ← turn_store_nonce (with_auth t (Auth (au_username a) (au_auth a) (au_password_len a) r (au_nonce a) (au_key_valid a))) nonce;
        '(t, rc) ← turn_derive_key t;
        if negb (rc =? NANORTC_OK) then Ok (with_turn_state t NANORTC_TURN_FAILED, rc)
        else Ok (with_turn_state t NANORTC_TURN_CHALLENGED, NANORTC_OK)
    | _, _ => Ok (with_turn_state t NANORTC_TURN_FAILED, NANORTC_ERR_PROTOCOL)
    end
  else Ok (with_turn_state (turn_clear_transaction t) NANORTC_TURN_FAILED, NANORTC_ERR_PROTOCOL).
Definition handle_refresh_response (t : nano_turn) (now_ms : Z) (msg : stun_msg) : nano_turn * Z :=
  let t := turn_clear_transaction t in
  let r := tu_relay t in
  let lifetime_s := lifetime_of msg in
  (with_relay t (Relay (re_addr r) (re_port r) (re_family r) lifetime_s (nano_time_deadline now_ms (turn_refresh_delay_ms lifetime_s))), NANORTC_OK).
Definition permission_granted (p : turn_permission) (now_ms : Z) : turn_permission :=
  Permission (pm_addr p) (nano_time_deadline now_ms TURN_PERMISSION_INTERVAL_MS) (pm_txid p) (pm_port p) (pm_family p) true NANORTC_TURN_REQUEST_NONE 0 false.
Definition permission_refused (p : turn_permission) (deadline_ms : Z) (terminal : bool) : turn_permission :=
  Permission (pm_addr p) deadline_ms (pm_txid p) (pm_port p) (pm_family p) false NANORTC_TURN_REQUEST_NONE 0 terminal.
Definition handle_permission_error (t : nano_turn) (now_ms : Z) (msg : stun_msg) (i : nat) : res (nano_turn * Z) :=
  p ← get_permission t i;
  if (m_error_code msg =? 403) || (m_error_code msg =? 443) then Ok (set_permission t i (permission_refused p 0 true), NANORTC_OK) else
  if m_error_code msg =? 508 then
    Ok (set_permission t i (permission_refused p (nano_time_deadline now_ms (turn_retry_delay_ms NANORTC_TURN_MAX_TRANSMISSIONS)) false), NANORTC_OK)
  else Ok (with_turn_state (set_permission t i (permission_refused p 0 false)) NANORTC_TURN_FAILED, NANORTC_ERR_PROTOCOL).
Definition channel_answered (c : turn_channel) (deadline_ms : Z) (bound : bool) : turn_channel :=
  Channel (ch_addr c) deadline_ms (ch_txid c) (ch_port c) (ch_channel c) (ch_family c) bound NANORTC_TURN_REQUEST_NONE (ch_transmissions c).
Definition the_index {A} (i : option A) : res A := match i with Some i => Ok i | None => Fault end.
Definition turn_dispatch (t : nano_turn) (now_ms : Z) (msg : stun_msg) (permission_index channel_index : option nat) : res (nano_turn * Z) :=
  if m_type msg =? STUN_ALLOCATE_RESPONSE then Ok (handle_allocate_response t now_ms msg)
  else if m_type msg =? STUN_ALLOCATE_ERROR then handle_allocate_error t msg
  else if m_type msg =? STUN_REFRESH_RESPONSE then Ok (handle_refresh_response t now_ms msg)
  else if m_type msg =? STUN_REFRESH_ERROR then Ok (with_turn_state (turn_clear_transaction t) NANORTC_TURN_FAILED, NANORTC_ERR_PROTOCOL)
  else if m_type msg =? STUN_CREATE_PERMISSION_RESPONSE then
    i ← the_index permission_index; p ← get_permission t i; Ok (set_permission t i (permission_granted p now_ms), NANORTC_OK)
  else if m_type msg =? STUN_CREATE_PERMISSION_ERROR then i ← the_index permission_index; handle_permission_error t now_ms msg i
  else if m_type msg =? STUN_CHANNEL_BIND_RESPONSE then
    i ← the_index channel_index; c ← get_turn_channel t i;
    Ok (set_turn_channel t i (channel_answered c (nano_time_deadline now_ms TURN_CHANNEL_REFRESH_MS) true), NANORTC_OK)
  else if m_type msg =? STUN_CHANNEL_BIND_ERROR then
    i ← the_index channel_index; c ← get_turn_channel t i;
    Ok (set_turn_channel t i (channel_answered c 0 (ch_bound c)), NANORTC_ERR_PROTOCOL)
  else Ok (t, NANORTC_ERR_PROTOCOL).
Definition turn_handle_response (t : nano_turn) (now_ms : Z) (data : list Z) : res (nano_turn * Z) :=
  match stun_parse data with
  | Fault => Fault
  | Err rc => Ok (t, rc)
  | Ok msg =>
      let x := tu_txn t in
      let txid_match := negb (bool_decide (tx_kind x = NANORTC_TURN_TXN_NONE)) && negb (tx_reauth x) && bool_decide (m_txid msg = tx_last_txid x) in
      let allocation_response := (m_type msg =? STUN_ALLOCATE_RESPONSE) || (m_type msg =? STUN_ALLOCATE_ERROR) in
      let refresh_response := (m_type msg =? STUN_REFRESH_RESPONSE) || (m_type msg =? STUN_REFRESH_ERROR) in
      if txid_match && ((bool_decide (tx_kind x = NANORTC_TURN_TXN_ALLOCATE) && negb allocation_response) ||
                        (bool_decide (tx_kind x = NANORTC_TURN_TXN_REFRESH) && negb refresh_response))
      then Ok (t, NANORTC_ERR_PROTOCOL) else
      permission_index ← (if (m_type msg =? STUN_CREATE_PERMISSION_RESPONSE) || (m_type msg =? STUN_CREATE_PERMISSION_ERROR)
                          then find_waiting pm_pending pm_txid (m_txid msg) (tu_permission_count t) (tu_permissions t) 0 else Ok None);
      channel_index ← (if (m_type msg =? STUN_CHANNEL_BIND_RESPONSE) || (m_type msg =? STUN_CHANNEL_BIND_ERROR)
                       then find_waiting ch_pending ch_txid (m_txid msg) (tu_channel_count t) (tu_channels t) 0 else Ok None);
      let peer_request := match permission_index, channel_index with None, None => false | _, _ => true end in
      if negb txid_match && negb peer_request then Ok (t, NANORTC_OK) else
      fingerprint ← (match m_fingerprint msg with None => Ok NANORTC_OK | Some _ => stun_verify_fingerprint data end);
      if negb (fingerprint =? NANORTC_OK) then Ok (t, NANORTC_OK) else
      let authenticated := (txid_match && tx_authenticated x) || peer_request in
      let error_response := is_error (m_type msg) in
      let challenge := error_response && ((m_error_code msg =? 401) || (m_error_code msg =? 438)) in
      key ← rdn (au_auth (tu_auth t)) 0 NANORTC_TURN_HMAC_KEY_SIZE;
      integrity ← (if authenticated && (match m_integrity msg with Some _ => true | None => false end || negb challenge)
                   then stun_verify_integrity hmac_sha1 data msg key else Ok NANORTC_OK);
      if negb (integrity =? NANORTC_OK) then Ok (t, NANORTC_OK) else
      if error_response && (m_error_code msg =? 438)
      then handle_stale_nonce t now_ms msg txid_match authenticated permission_index channel_index
      else turn_dispatch t now_ms msg permission_index channel_index
  end.

(** * Refresh, release, permissions, channels *)

Definition turn_generate_refresh (t : nano_turn) (g : R) (now_ms : Z) (buf : list Z) : res outcome :=
  let refresh_at_ms := re_refresh_at_ms (tu_relay t) in
  if negb (bool_decide (tu_state t = NANORTC_TURN_ALLOCATED)) then Ok (t, g, NANORTC_OK, buf, 0%nat) else
  if negb (bool_decide (tx_kind (tu_txn t) = NANORTC_TURN_TXN_NONE)) then Ok (t, g, NANORTC_OK, buf, 0%nat) else
  if negb (refresh_at_ms =? 0) && negb (nano_time_is_due now_ms refresh_at_ms) then Ok (t, g, NANORTC_OK, buf, 0%nat) else
  match random_bytes g STUN_TXID_SIZE with
  | (g, None) => Ok (t, g, NANORTC_ERR_CRYPTO, buf, 0%nat)
  | (g, Some txid) =>
      match turn_build_refresh t TURN_DEFAULT_LIFETIME txid buf with
      | Fault => Fault
      | Err rc => Ok (t, g, rc, buf, 0%nat)
      | Ok (buf, n) => Ok (turn_start_transaction t NANORTC_TURN_TXN_REFRESH true txid, g, NANORTC_OK, buf, n)
      end
  end.
Definition turn_deallocate (t : nano_turn) (g : R) (buf : list Z) : res outcome :=
  if negb (bool_decide (tu_state t = NANORTC_TURN_ALLOCATED)) || negb (au_key_valid (tu_auth t)) then Ok (t, g, NANORTC_ERR_STATE, buf, 0%nat) else
  if (length buf <? NANORTC_TURN_MAX_REQUEST_SIZE)%nat then Ok (t, g, NANORTC_ERR_BUFFER_TOO_SMALL, buf, 0%nat) else
  match random_bytes g STUN_TXID_SIZE with
  | (g, None) => Ok (t, g, NANORTC_ERR_CRYPTO, buf, 0%nat)
  | (g, Some txid) =>
      match turn_build_refresh t 0 txid buf with
      | Fault => Fault
      | Err rc => Ok (t, g, rc, buf, 0%nat)
      | Ok (buf, n) =>
          let t := turn_clear_transaction (with_turn_state t NANORTC_TURN_IDLE) in
          let r := tu_relay t in
          Ok (turn_reset_peer_state (with_relay t (Relay (re_addr r) (re_port r) 0 0 0)), g, NANORTC_OK, buf, n)
      end
  end.

Definition addr_len (family : Z) : nat := if family =? 4 then 4 else 16.
(** [memcmp] of the first [n] octets. *)
Definition same_octets (a b : list Z) (n : nat) : res bool := x ← rdn a 0 n; y ← rdn b 0 n; Ok (bool_decide (x = y)).
Fixpoint find_permission (k : nat) (ps : list turn_permission) (i : nat) (addr : list Z) (family : Z) : res (option nat) :=
  match k with
  | O => Ok None
  | S k =>
      match ps !! i with
      | None => Fault
      | Some p =>
          same ← (if pm_family p =? family then same_octets (pm_addr p) addr (addr_len family) else Ok false);
          if (same : bool) then Ok (Some i) else find_permission k ps (S i) addr family
      end
  end.
Definition turn_find_permission (t : nano_turn) (addr : list Z) (family : Z) : res (option nat) :=
  find_permission (tu_permission_count t) (tu_permissions t) 0 addr family.
(** The first channel of a peer that satisfies [P]. *)
Fixpoint find_channel (P : turn_channel -> bool) (k : nat) (cs : list turn_channel) (i : nat) (addr : list Z) (family port : Z) : res (option nat) :=
  match k with
  | O => Ok None
  | S k =>
      match cs !! i with
      | None => Fault
      | Some c =>
          same ← (if P c && (ch_family c =? family) && (ch_port c =? port) then same_octets (ch_addr c) addr (addr_len family) else Ok false);
          if (same : bool) then Ok (Some i) else find_channel P k cs (S i) addr family port
      end
  end.
Definition turn_find_channel (P : turn_channel -> bool) (t : nano_turn) (addr : list Z) (family port : Z) : res (option nat) :=
  find_channel P (tu_channel_count t) (tu_channels t) 0 addr family port.

Definition turn_can_create_permission (t : nano_turn) (addr : list Z) (family now_ms : Z) : res bool :=
  let f := re_family (tu_relay t) in
  let relay_family := if f =? STUN_FAMILY_IPV4 then 4 else if f =? STUN_FAMILY_IPV6 then 6 else 0 in
  if negb (tu_configured t) || negb (bool_decide (tu_state t = NANORTC_TURN_ALLOCATED)) || negb (family =? relay_family) then Ok false else
  i ← turn_find_permission t addr family;
  match i with
  | None => Ok (tu_permission_count t <? NANORTC_TURN_MAX_PERMISSIONS)%nat
  | Some i =>
      p ← get_permission t i;
      Ok (negb (pm_active p) && negb (pending (pm_pending p)) && negb (pm_terminal p) &&
          ((pm_deadline_ms p =? 0) || nano_time_is_due now_ms (pm_deadline_ms p)))
  end.
Definition turn_peer_is_ready (t : nano_turn) (addr : list Z) (family : Z) : res bool :=
  i ← turn_find_permission t addr family;
  match i with
  | None => Ok (NANORTC_TURN_MAX_PERMISSIONS <=? tu_permission_count t)%nat
  | Some i => p ← get_permission t i; Ok (pm_active p || pm_terminal p)
  end.
Definition turn_can_bind_channel (t : nano_turn) (addr : list Z) (family port : Z) : res bool :=
  if negb (bool_decide (tu_state t = NANORTC_TURN_ALLOCATED)) || (family =? 0) then Ok false else
  i ← turn_find_permission t addr family;
  match i with
  | None => Ok false
  | Some i =>
      p ← get_permission t i;
      if negb (pm_active p) then Ok false else
      j ← turn_find_channel (fun _ => true) t addr family port;
      match j with
      | Some j => c ← get_turn_channel t j; Ok (negb (ch_bound c) && negb (pending (ch_pending c)))
      | None => Ok ((tu_channel_count t <? NANORTC_TURN_MAX_CHANNELS)%nat && (tu_next_channel t <=? 0x4FFE))
      end
  end.

Definition turn_create_permission (t : nano_turn) (g : R) (peer_addr : list Z) (peer_family peer_port : Z) (buf : list Z) : res outcome :=
  if negb (bool_decide (tu_state t = NANORTC_TURN_ALLOCATED)) || negb (au_key_valid (tu_auth t)) then Ok (t, g, NANORTC_ERR_STATE, buf, 0%nat) else
  if (length buf <? NANORTC_TURN_MAX_REQUEST_SIZE)%nat then Ok (t, g, NANORTC_ERR_BUFFER_TOO_SMALL, buf, 0%nat) else
  found ← turn_find_permission t peer_addr peer_family;
  let is_new := match found with None => true | Some _ => false end in
  if is_new && negb (tu_permission_count t <? NANORTC_TURN_MAX_PERMISSIONS)%nat then Ok (t, g, NANORTC_ERR_BUFFER_TOO_SMALL, buf, 0%nat) else
  let pi := match found with Some i => i | None => tu_permission_count t end in
  old ← get_permission t pi;
  if negb is_new && (pending (pm_pending old) || pm_terminal old) then Ok (t, g, NANORTC_OK, buf, 0%nat) else
  match random_bytes g STUN_TXID_SIZE with
  | (g, None) => Ok (t, g, NANORTC_ERR_CRYPTO, buf, 0%nat)
  | (g, Some txid) =>
      match turn_build_permission t peer_addr peer_family peer_port txid buf with
      | Fault => Fault
      | Err rc => Ok (t, g, rc, buf, 0%nat)
      | Ok (buf, n) =>
          addr ← (if is_new then rdn peer_addr 0 STUN_ADDR_SIZE else Ok (pm_addr old));
          let p := Permission addr 0 txid peer_port (if is_new then peer_family else pm_family old) (if is_new then false else pm_active old)
                     NANORTC_TURN_REQUEST_WAITING 1 false in
          Ok (with_permissions t (if is_new then S (tu_permission_count t) else tu_permission_count t) (<[pi := p]> (tu_permissions t)), g, NANORTC_OK, buf, n)
      end
  end.

Definition turn_channel_bind (t : nano_turn) (g : R) (peer_addr : list Z) (peer_family peer_port : Z) (buf : list Z) : res outcome :=
  if negb (bool_decide (tu_state t = NANORTC_TURN_ALLOCATED)) || negb (au_key_valid (tu_auth t)) then Ok (t, g, NANORTC_ERR_STATE, buf, 0%nat) else
  if (length buf <? NANORTC_TURN_MAX_REQUEST_SIZE)%nat then Ok (t, g, NANORTC_ERR_BUFFER_TOO_SMALL, buf, 0%nat) else
  found ← turn_find_channel (fun _ => true) t peer_addr peer_family peer_port;
  let is_new := match found with None => true | Some _ => false end in
  if is_new && ((NANORTC_TURN_MAX_CHANNELS <=? tu_channel_count t)%nat || (0x4FFE <? tu_next_channel t))
  then Ok (t, g, NANORTC_ERR_BUFFER_TOO_SMALL, buf, 0%nat) else
  let ci := match found with Some i => i | None => tu_channel_count t end in
  old ← get_turn_channel t ci;
  if negb is_new && pending (ch_pending old) then Ok (t, g, NANORTC_OK, buf, 0%nat) else
  match random_bytes g STUN_TXID_SIZE with
  | (g, None) => Ok (t, g, NANORTC_ERR_CRYPTO, buf, 0%nat)
  | (g, Some txid) =>
      addr ← (if is_new then rdn peer_addr 0 STUN_ADDR_SIZE else Ok (ch_addr old));
      let c := Channel addr (ch_deadline_ms old) txid peer_port (if is_new then tu_next_channel t else ch_channel old)
                 (if is_new then peer_family else ch_family old) (if is_new then false else ch_bound old) (ch_pending old) (ch_transmissions old) in
      let t' := with_channels t (if is_new then S (tu_channel_count t) else tu_channel_count t)
                  (if is_new then u16 (tu_next_channel t + 1) else tu_next_channel t) (<[ci := c]> (tu_channels t)) in
      match turn_build_channel_bind t' ci txid buf with
      | Fault => Fault
      | Err rc =>
          Ok (if is_new then with_channels t' (tu_channel_count t) (u16 (tu_next_channel t' - 1)) (<[ci := channel_zero]> (tu_channels t')) else t', g, rc, buf, 0%nat)
      | Ok (buf, n) =>
          Ok (set_turn_channel t' ci (Channel addr 0 txid peer_port (ch_channel c) (ch_family c) (ch_bound c) NANORTC_TURN_REQUEST_WAITING 1), g, NANORTC_OK, buf, n)
      end
  end.

(** * Retransmission *)

(** A scan of a table: the table scanned to its end with nothing sent, or the
    outcome of the request that was due. *)
Inductive scanned : Type := Scanned (t : nano_turn) | Sent (o : outcome).
(** The transaction id of a retransmission: a new one after a nonce change. *)
Definition retransmit_txid (g : R) (reauth : bool) (txid : list Z) : R * option (list Z) :=
  if reauth then random_bytes g STUN_TXID_SIZE else (g, Some txid).
Definition retransmit_transaction (t : nano_turn) (g : R) (now_ms : Z) (buf : list Z) : res scanned :=
  let x := tu_txn t in
  if bool_decide (tx_kind x = NANORTC_TURN_TXN_NONE) then Ok (Scanned t) else
  if (tx_retry_at_ms x =? 0) && negb (tx_reauth x) then
    Ok (Scanned (with_txn t (Txn (tx_kind x) (tx_authenticated x) (tx_transmissions x) (tx_reauth x)
         (nano_time_deadline now_ms (turn_retry_delay_ms (tx_transmissions x))) (tx_last_txid x))))
  else if negb (nano_time_is_due now_ms (tx_retry_at_ms x)) then Ok (Scanned t)
  else if NANORTC_TURN_MAX_TRANSMISSIONS <=? tx_transmissions x then
    Ok (Sent (with_turn_state (turn_clear_transaction t) NANORTC_TURN_FAILED, g, NANORTC_ERR_PROTOCOL, buf, 0%nat))
  else
    match retransmit_txid g (tx_reauth x) (tx_last_txid x) with
    | (g, None) => Ok (Sent (t, g, NANORTC_ERR_CRYPTO, buf, 0%nat))
    | (g, Some txid) =>
        match (if bool_decide (tx_kind x = NANORTC_TURN_TXN_ALLOCATE) then turn_build_allocate t (tx_authenticated x) txid buf
               else turn_build_refresh t TURN_DEFAULT_LIFETIME txid buf) with
        | Fault => Fault
        | Err rc => Ok (Sent (t, g, rc, buf, 0%nat))
        | Ok (buf, n) =>
            let transmissions := u8 (tx_transmissions x + 1) in
            Ok (Sent (with_txn t (Txn (tx_kind x) (tx_authenticated x) transmissions false
                       (nano_time_deadline now_ms (turn_retry_delay_ms transmissions)) txid), g, NANORTC_OK, buf, n))
        end
    end.
(** The loop over the permissions from [i]. *)
Fixpoint retransmit_permissions (k : nat) (t : nano_turn) (g : R) (i : nat) (now_ms : Z) (buf : list Z) : res scanned :=
  match k with
  | O => Ok (Scanned t)
  | S k =>
      p ← get_permission t i;
      if negb (pending (pm_pending p)) then retransmit_permissions k t g (S i) now_ms buf else
      let reauth := bool_decide (pm_pending p = NANORTC_TURN_REQUEST_REAUTH) in
      if (pm_deadline_ms p =? 0) && negb reauth then
        retransmit_permissions k (set_permission t i (Permission (pm_addr p) (nano_time_deadline now_ms (turn_retry_delay_ms (pm_transmissions p)))
          (pm_txid p) (pm_port p) (pm_family p) (pm_active p) (pm_pending p) (pm_transmissions p) (pm_terminal p))) g (S i) now_ms buf
      else if negb (nano_time_is_due now_ms (pm_deadline_ms p)) then retransmit_permissions k t g (S i) now_ms buf
      else if NANORTC_TURN_MAX_TRANSMISSIONS <=? pm_transmissions p then
        retransmit_permissions k (set_permission t i
          (permission_refused p (nano_time_deadline now_ms (turn_retry_delay_ms NANORTC_TURN_MAX_TRANSMISSIONS)) false)) g (S i) now_ms buf
      else
        match retransmit_txid g reauth (pm_txid p) with
        | (g, None) => Ok (Sent (t, g, NANORTC_ERR_CRYPTO, buf, 0%nat))
        | (g, Some txid) =>
            match turn_build_permission t (pm_addr p) (pm_family p) (pm_port p) txid buf with
            | Fault => Fault
            | Err rc => Ok (Sent (t, g, rc, buf, 0%nat))
            | Ok (buf, n) =>
                let transmissions := u8 (pm_transmissions p + 1) in
                Ok (Sent (set_permission t i (Permission (pm_addr p) (nano_time_deadline now_ms (turn_retry_delay_ms transmissions)) txid (pm_port p)
                           (pm_family p) (pm_active p) NANORTC_TURN_REQUEST_WAITING transmissions (pm_terminal p)), g, NANORTC_OK, buf, n))
            end
        end
  end.
Fixpoint retransmit_channels (k : nat) (t : nano_turn) (g : R) (i : nat) (now_ms : Z) (buf : list Z) : res scanned :=
  match k with
  | O => Ok (Scanned t)
  | S k =>
      c ← get_turn_channel t i;
      if negb (pending (ch_pending c)) then retransmit_channels k t g (S i) now_ms buf else
      let reauth := bool_decide (ch_pending c = NANORTC_TURN_REQUEST_REAUTH) in
      if (ch_deadline_ms c =? 0) && negb reauth then
        retransmit_channels k (set_turn_channel t i (Channel (ch_addr c) (nano_time_deadline now_ms (turn_retry_delay_ms (ch_transmissions c)))
          (ch_txid c) (ch_port c) (ch_channel c) (ch_family c) (ch_bound c) (ch_pending c) (ch_transmissions c))) g (S i) now_ms buf
      else if negb (nano_time_is_due now_ms (ch_deadline_ms c)) then retransmit_channels k t g (S i) now_ms buf
      else if NANORTC_TURN_MAX_TRANSMISSIONS <=? ch_transmissions c then
        retransmit_channels k (set_turn_channel t i (channel_answered c 0 (ch_bound c))) g (S i) now_ms buf
      else
        match retransmit_txid g reauth (ch_txid c) with
        | (g, None) => Ok (Sent (t, g, NANORTC_ERR_CRYPTO, buf, 0%nat))
        | (g, Some txid) =>
            match turn_build_channel_bind t i txid buf with
            | Fault => Fault
            | Err rc => Ok (Sent (t, g, rc, buf, 0%nat))
            | Ok (buf, n) =>
                let transmissions := u8 (ch_transmissions c + 1) in
                Ok (Sent (set_turn_channel t i (Channel (ch_addr c) (nano_time_deadline now_ms (turn_retry_delay_ms transmissions)) txid (ch_port c)
                           (ch_channel c) (ch_family c) (ch_bound c) NANORTC_TURN_REQUEST_WAITING transmissions), g, NANORTC_OK, buf, n))
            end
        end
  end.
Definition turn_generate_retransmit (t : nano_turn) (g : R) (now_ms : Z) (buf : list Z) : res outcome :=
  s ← retransmit_transaction t g now_ms buf;
  match s with
  | Sent o => Ok o
  | Scanned t =>
      s ← retransmit_permissions (tu_permission_count t) t g 0 now_ms buf;
      match s with
      | Sent o => Ok o
      | Scanned t =>
          s ← retransmit_channels (tu_channel_count t) t g 0 now_ms buf;
          match s with Sent o => Ok o | Scanned t => Ok (t, g, NANORTC_OK, buf, 0%nat) end
      end
  end.

(** * Work selection *)

Inductive turn_work_type : Type :=
| TURN_WORK_NONE | TURN_WORK_RETRANSMIT | TURN_WORK_ALLOCATE | TURN_WORK_REFRESH | TURN_WORK_PERMISSION | TURN_WORK_CHANNEL.
#[global] Instance turn_work_type_eq_dec : EqDecision turn_work_type.
Proof using. solve_decision. Defined.
Record turn_work : Type := Work { wk_type : turn_work_type; wk_delay_ms : Z; wk_index : nat }.
Definition turn_consider_work (work : turn_work) (type : turn_work_type) (index : nat) (deadline now_ms : Z) : turn_work :=
  let delay := if deadline =? 0 then 0 else nano_time_until now_ms deadline in
  if delay <? wk_delay_ms work then Work type delay index else work.
(** The loops over a table: the work considered for element [i]. *)
Fixpoint consider_each {A} (f : turn_work -> A -> nat -> turn_work) (k : nat) (l : list A) (i : nat) (work : turn_work) : res turn_work :=
  match k with
  | O => Ok work
  | S k => match l !! i with Some x => consider_each f k l (S i) (f work x i) | None => Fault end
  end.
Definition turn_next_work (t : nano_turn) (now_ms : Z) : res turn_work :=
  let work := Work TURN_WORK_NONE UINT32_MAX 0 in
  if negb (tu_configured t) || bool_decide (tu_state t = NANORTC_TURN_FAILED) then Ok work else
  let idle := bool_decide (tx_kind (tu_txn t) = NANORTC_TURN_TXN_NONE) in
  let work :=
    if negb idle then turn_consider_work work TURN_WORK_RETRANSMIT 0 (tx_retry_at_ms (tu_txn t)) now_ms
    else if bool_decide (tu_state t = NANORTC_TURN_IDLE) || bool_decide (tu_state t = NANORTC_TURN_CHALLENGED)
    then turn_consider_work work TURN_WORK_ALLOCATE 0 0 now_ms else work in
  if negb (bool_decide (tu_state t = NANORTC_TURN_ALLOCATED)) then Ok work else
  work ← consider_each (fun w p i => if pending (pm_pending p) then turn_consider_work w TURN_WORK_RETRANSMIT i (pm_deadline_ms p) now_ms else w)
           (tu_permission_count t) (tu_permissions t) 0 work;
  work ← consider_each (fun w c i => if pending (ch_pending c) then turn_consider_work w TURN_WORK_RETRANSMIT i (ch_deadline_ms c) now_ms else w)
           (tu_channel_count t) (tu_channels t) 0 work;
  let work := if idle then turn_consider_work work TURN_WORK_REFRESH 0 (re_refresh_at_ms (tu_relay t)) now_ms else work in
  work ← consider_each (fun w p i => if negb (pending (pm_pending p)) && negb (pm_terminal p)
                                     then turn_consider_work w TURN_WORK_PERMISSION i (pm_deadline_ms p) now_ms else w)
           (tu_permission_count t) (tu_permissions t) 0 work;
  consider_each (fun w c i => if ch_bound c && negb (pending (ch_pending c)) then turn_consider_work w TURN_WORK_CHANNEL i (ch_deadline_ms c) now_ms else w)
    (tu_channel_count t) (tu_channels t) 0 work.
Definition turn_next_timeout_ms (t : nano_turn) (now_ms : Z) : res Z := w ← turn_next_work t now_ms; Ok (wk_delay_ms w).
Definition turn_do_work (t : nano_turn) (g : R) (now_ms : Z) (buf : list Z) (work : turn_work) : res outcome :=
  match wk_type work with
  | TURN_WORK_ALLOCATE => turn_start_allocate t g buf
  | TURN_WORK_REFRESH => turn_generate_refresh t g now_ms buf
  | TURN_WORK_PERMISSION => p ← get_permission t (wk_index work); turn_create_permission t g (pm_addr p) (pm_family p) (pm_port p) buf
  | TURN_WORK_CHANNEL => c ← get_turn_channel t (wk_index work); turn_channel_bind t g (ch_addr c) (ch_family c) (ch_port c) buf
  | _ => Ok (t, g, NANORTC_OK, buf, 0%nat)
  end.
Definition turn_poll_output (t : nano_turn) (g : R) (now_ms : Z) (buf : list Z) : res outcome :=
  work ← turn_next_work t now_ms;
  if negb (wk_delay_ms work =? 0) then Ok (t, g, NANORTC_OK, buf, 0%nat) else
  if bool_decide (wk_type work = TURN_WORK_RETRANSMIT) then
    '(t, g, rc, buf, n) ← turn_generate_retransmit t g now_ms buf;
    if negb (rc =? NANORTC_OK) || negb (n =? 0)%nat then Ok (t, g, rc, buf, n) else
    work ← turn_next_work t now_ms;
    if negb (wk_delay_ms work =? 0) then Ok (t, g, NANORTC_OK, buf, 0%nat) else turn_do_work t g now_ms buf work
  else turn_do_work t g now_ms buf work.
End Provider.

(** * Relayed data *)

Definition turn_wrap_send (peer_addr : list Z) (peer_family peer_port : Z) (payload buf : list Z) : res (list Z * nat) :=
  let needed := (STUN_HEADER_SIZE + 32 + 4 + attr_padded (Z.of_nat (length payload)))%nat in
  if (length buf <? needed)%nat then Err NANORTC_ERR_BUFFER_TOO_SMALL else
  let txid := replicate STUN_TXID_SIZE 0 in
  buf ← stun_write_header buf STUN_SEND_INDICATION txid;
  let pos := STUN_HEADER_SIZE in
  '(buf, n) ← stun_encode_xor_addr buf pos STUN_ATTR_XOR_PEER_ADDRESS peer_addr peer_family peer_port txid;
  let pos := (pos + n)%nat in
  data ← rdn payload 0 (Z.to_nat (u16 (Z.of_nat (length payload))));
  '(buf, n) ← stun_write_attr buf pos STUN_ATTR_DATA data;
  let pos := (pos + n)%nat in
  buf ← stun_finalize_length buf pos;
  Ok (buf, pos).
(** The peer's address, family and port, and the payload. *)
Definition turn_unwrap_data (data : list Z) : res (stun_addr * list Z) :=
  msg ← stun_parse data;
  if negb (m_type msg =? STUN_DATA_INDICATION) then Err NANORTC_ERR_PROTOCOL else
  match m_data msg with
  | Some payload =>
      if (sa_family (m_peer msg) =? 0) || (length payload =? 0)%nat then Err NANORTC_ERR_PROTOCOL else Ok (m_peer msg, payload)
  | None => Err NANORTC_ERR_PROTOCOL
  end.
Definition turn_is_from_server (t : nano_turn) (src_addr : list Z) (src_family src_port : Z) : res bool :=
  if negb (tu_configured t) || negb (src_family =? tu_server_family t) || negb (src_port =? tu_server_port t) then Ok false
  else same_octets src_addr (tu_server_addr t) (addr_len src_family).
Definition nano_turn_wrap_channel_data (channel : Z) (payload buf : list Z) : res (list Z * nat) :=
  let padded := attr_padded (Z.of_nat (length payload)) in
  let needed := (4 + padded)%nat in
  if (length buf <? needed)%nat then Err NANORTC_ERR_BUFFER_TOO_SMALL else
  buf ← nanortc_write_u16be buf 0 channel;
  buf ← nanortc_write_u16be buf 2 (u16 (Z.of_nat (length payload)));
  buf ← wr buf 4 payload;
  buf ← (if (length payload <? padded)%nat then wr buf (4 + length payload) (replicate (padded - length payload) 0) else Ok buf);
  Ok (buf, needed).
Definition turn_unwrap_channel_data (data : list Z) : res (Z * list Z) :=
  if (length data <? 4)%nat then Err NANORTC_ERR_PARSE else
  channel ← nanortc_read_u16be data 0;
  plen ← nanortc_read_u16be data 2;
  if (channel <? 0x4000) || (0x7FFF <? channel) then Err NANORTC_ERR_PROTOCOL else
  if (length data <? 4 + Z.to_nat plen)%nat then Err NANORTC_ERR_PARSE else
  payload ← rdn data 4 (Z.to_nat plen);
  Ok (channel, payload).
Definition turn_find_channel_for_peer (t : nano_turn) (peer_addr : list Z) (peer_family peer_port : Z) : res (option Z) :=
  i ← turn_find_channel ch_bound t peer_addr peer_family peer_port;
  match i with Some i => c ← get_turn_channel t i; Ok (Some (ch_channel c)) | None => Ok None end.
Fixpoint find_number (k : nat) (cs : list turn_channel) (i : nat) (channel : Z) : res (option turn_channel) :=
  match k with
  | O => Ok None
  | S k => match cs !! i with
           | None => Fault
           | Some c => if ch_bound c && (ch_channel c =? channel) then Ok (Some c) else find_number k cs (S i) channel
           end
  end.
Definition turn_find_peer_for_channel (t : nano_turn) (channel : Z) : res (option (list Z * Z * Z)) :=
  c ← find_number (tu_channel_count t) (tu_channels t) 0 channel;
  Ok (match c with Some c => Some (ch_addr c, ch_family c, ch_port c) | None => None end).
Definition turn_is_channel_data (data : list Z) : bool :=
  match data with d :: _ => negb (length data <? 4)%nat && (0x40 <=? d) && (d <=? 0x7F) | [] => false end.
