(* ===== verification/TurnRequests.v ===== *)
(** The requests of the TURN client: what [src/nano_turn.c] writes, that it fits
    [NANORTC_TURN_MAX_REQUEST_SIZE], and what a server reads from it. *)

From Stdlib Require Import ZArith Lia.
From stdpp Require Import base list numbers.
From S2P Require Import Prelude Wire Crc Stun Turn.

Local Open Scope Z_scope.

(** * Attributes at the cursor *)

Lemma stun_write_attr_spec pre rest pos ty val :
  pos = length pre -> is_u16 (Z.of_nat (length val)) -> (length (attr_bytes ty val) <= length rest)%nat ->
  stun_write_attr (pre ++ rest) pos ty val =
  Ok ((pre ++ attr_bytes ty val) ++ drop (length (attr_bytes ty val)) rest, length (attr_bytes ty val)).
Proof.
  intros -> Hv Hr. pose proof (attr_padded_ge _ Hv) as Hp. rewrite Nat2Z.id in Hp. rewrite attr_bytes_length in Hr |- * by done.
  unfold stun_write_attr. cbv zeta. set (p := attr_padded (Z.of_nat (length val))) in *.
  unfold nanortc_write_u16be. rewrite wr_append, bind_Ok by (cbn; lia). cbn [length be16].
  rewrite wr_append by (rewrite ?length_app, ?length_drop; cbn [length be16]; lia). rewrite bind_Ok. cbn [length be16]. rewrite drop_drop. cbn [Nat.add].
  set (h := ((pre ++ be16 ty) ++ be16 (Z.of_nat (length val)))). assert (length h = length pre + 4)%nat as Hh by (unfold h; rewrite !length_app; cbn [length be16]; lia).
  assert ((if (0 <? length val)%nat then wr (h ++ drop 4 rest) (length pre + 4) val else Ok (h ++ drop 4 rest)) =
          Ok ((h ++ val) ++ drop (4 + length val) rest)) as Hval.
  { destruct (Nat.ltb_spec 0 (length val)).
    - rewrite wr_append by (rewrite ?length_drop; lia). rewrite drop_drop. done.
    - destruct val; [|cbn in *; lia]. by rewrite app_nil_r. }
  rewrite Hval, bind_Ok.
  assert ((if (length val <? p)%nat then wr ((h ++ val) ++ drop (4 + length val) rest) (length pre + 4 + length val) (replicate (p - length val) 0)
           else Ok ((h ++ val) ++ drop (4 + length val) rest)) =
          Ok (((h ++ val) ++ replicate (p - length val) 0) ++ drop (4 + p) rest)) as ->.
  { destruct (Nat.ltb_spec (length val) p).
    - rewrite wr_append by (rewrite ?length_app, ?length_drop, ?length_replicate; lia). rewrite length_replicate, drop_drop. do 3 f_equal. lia.
    - replace (p - length val)%nat with 0%nat by lia. cbn [replicate]. rewrite app_nil_r. do 3 f_equal. lia. }
  rewrite bind_Ok. unfold attr_bytes, h. fold p. by rewrite <- !app_assoc.
Qed.
(** The XOR value of an address in the client's family numbering. *)
Definition stun_family (family : Z) : Z := if family =? 4 then STUN_FAMILY_IPV4 else STUN_FAMILY_IPV6.
Lemma stun_family_fam family : family_ok (stun_family family).
Proof. unfold stun_family. destruct (_ =? _); [by left | by right]. Qed.
Lemma stun_encode_xor_addr_spec pre rest pos ty addr family port txid :
  pos = length pre -> length addr = STUN_ADDR_SIZE -> bytes addr -> length txid = STUN_TXID_SIZE ->
  let val := xor_value txid addr (stun_family family) port in (length (attr_bytes ty val) <= length rest)%nat ->
  stun_encode_xor_addr (pre ++ rest) pos ty addr family port txid =
  Ok ((pre ++ attr_bytes ty val) ++ drop (length (attr_bytes ty val)) rest, length (attr_bytes ty val)).
Proof.
  intros Hpos Ha Hab Ht val Hr. unfold STUN_ADDR_SIZE in Ha.
  assert (addr_size (stun_family family) <= 16)%nat as Hs by (unfold addr_size; destruct (_ =? _); lia).
  pose proof (xor_value_length txid addr _ port Ht (stun_family_fam family) ltac:(lia)) as Hl. fold val in Hl.
  assert (is_u16 (Z.of_nat (length val))) as Hu by (rewrite Hl; mach).
  rewrite <- (stun_write_attr_spec pre rest pos ty val) by done.
  unfold stun_encode_xor_addr. cbv zeta. unfold val, xor_value, stun_family. destruct (Z.eqb_spec family 4).
  - rewrite read_u32be_Ok by (done || lia). rewrite bind_Ok. cbn [Nat.add Z.eqb STUN_FAMILY_IPV4 Pos.eqb]. by rewrite <- app_assoc.
  - rewrite xor_octets_16 by (done || lia). rewrite bind_Ok. cbn [Z.eqb STUN_FAMILY_IPV4 STUN_FAMILY_IPV6 Pos.eqb]. by rewrite <- app_assoc.
Qed.

Lemma stun_write_header_Ok buf type txid : length txid = STUN_TXID_SIZE -> (STUN_HEADER_SIZE <= length buf)%nat ->
  stun_write_header buf type txid = Ok (stun_header type 0 txid ++ drop STUN_HEADER_SIZE buf).
Proof. apply write_stun_header_Ok. Qed.

(** * Texts *)

Definition cs_ok (s : cstring) (size : nat) : Prop := length (cs_buf s) = size /\ (cs_len s < size)%nat /\ bytes (cs_buf s).
Definition cs_value (s : cstring) : list Z := take (cs_len s) (cs_buf s).
Lemma cs_text_Ok s size : cs_ok s size -> cs_text s = Ok (cs_value s).
Proof. intros (Hl & Hn & _). unfold cs_text. by rewrite rdn_Ok, drop_0 by lia. Qed.
Lemma cs_value_length s size : cs_ok s size -> length (cs_value s) = cs_len s.
Proof. intros (Hl & Hn & _). unfold cs_value. rewrite length_take. lia. Qed.
Lemma cs_value_bytes s size : cs_ok s size -> bytes (cs_value s).
Proof. intros (_ & _ & Hb). by apply Forall_take. Qed.
Lemma cs_store_Ok s size text : cs_ok s size -> (length text < size)%nat -> bytes text ->
  exists s', cs_store s text = Ok s' /\ cs_ok s' size /\ cs_value s' = text.
Proof.
  intros (Hl & Hn & Hb) Ht Htb. unfold cs_store. rewrite wr_Ok by lia. rewrite bind_Ok, take_0, app_nil_l, Nat.add_0_l.
  rewrite wr_append by (rewrite ?length_drop; cbn; lia). rewrite bind_Ok. eexists. split; [done|].
  split; [|unfold cs_value; cbn [cs_buf cs_len]; by rewrite <- app_assoc, take_app_length].
  split_and!; cbn [cs_buf cs_len]; [rewrite !length_app, !length_drop; cbn [length]; lia | lia |].
  rewrite drop_drop. repeat apply Forall_app_2; [done | by bytes_split | by apply Forall_drop].
Qed.

(** * Authenticated messages *)

Section Messages.
Context (hmac_sha1 : list Z -> list Z -> list Z).
Context (hmac_length : forall k x, length (hmac_sha1 k x) = 20%nat).

(** A message that ends in MESSAGE-INTEGRITY. *)
Definition mac_message (type : Z) (txid key : list Z) (avs : list (Z * list Z)) : list Z :=
  let body := attrs_bytes (with_mac hmac_sha1 type txid key avs) in stun_header type (Z.of_nat (length body)) txid ++ body.
(** One that ends without it. *)
Definition plain_message (type : Z) (txid : list Z) (avs : list (Z * list Z)) : list Z :=
  stun_header type (Z.of_nat (length (attrs_bytes avs))) txid ++ attrs_bytes avs.
Lemma mac_message_length type txid key avs : length txid = STUN_TXID_SIZE ->
  length (mac_message type txid key avs) = (STUN_HEADER_SIZE + length (attrs_bytes avs) + 24)%nat.
Proof using hmac_length.
  intros Ht. unfold mac_message. cbv zeta. rewrite length_app, stun_header_length, with_mac_length by done. lia.
Qed.
Lemma append_integrity_spec type l0 txid key avs room :
  length txid = STUN_TXID_SIZE -> Z.of_nat (length (attrs_bytes avs)) + 24 < 65536 -> (24 <= length room)%nat ->
  stun_append_integrity hmac_sha1 (stun_header type l0 txid ++ attrs_bytes avs ++ room) (STUN_HEADER_SIZE + length (attrs_bytes avs)) key =
  Ok (mac_message type txid key avs ++ drop 24 room, length (mac_message type txid key avs)).
Proof using hmac_length.
  intros Ht Hn Hr. set (n := length (attrs_bytes avs)) in *. pose proof (stun_header_length type) as Hh.
  unfold stun_append_integrity. rewrite patch_length, bind_Ok.
  replace (u16 (Z.of_nat (STUN_HEADER_SIZE + n - STUN_HEADER_SIZE + 24))) with (Z.of_nat n + 24) by (unfold STUN_HEADER_SIZE; rewrite u16_id; mach).
  rewrite (app_assoc _ (attrs_bytes avs)). rewrite (rdn_front (_ ++ attrs_bytes avs)) by (rewrite ?length_app, ?Hh by done; fold n; done).
  rewrite bind_Ok. change (hmac_sha1 key _) with (stun_mac hmac_sha1 type txid key (attrs_bytes avs)).
  unfold nanortc_write_u16be. rewrite wr_append by (rewrite ?length_app, ?Hh by done; fold n; cbn; lia). rewrite bind_Ok. cbn [length be16].
  rewrite wr_append by (rewrite ?length_app, ?length_drop, ?Hh by done; fold n; cbn; lia). rewrite bind_Ok. cbn [length be16]. rewrite drop_drop.
  rewrite wr_append by (rewrite ?length_app, ?length_drop, ?mac_length, ?Hh by done; fold n; cbn; lia). rewrite mac_length, drop_drop, bind_Ok by done. cbn [Nat.add].
  unfold stun_finalize_length. rewrite <- !app_assoc, patch_length, bind_Ok. unfold mac_message. cbv zeta. rewrite length_app, Hh, with_mac_bytes by done.
  do 2 f_equal; [|rewrite !length_app, mac_length by done; fold n; cbn [length be16]; lia].
  rewrite <- !app_assoc. f_equal. rewrite !length_app, mac_length by done. fold n. cbn [length be16]. f_equal.
  unfold STUN_HEADER_SIZE. rewrite u16_id; mach.
Qed.

(** The credentials of a client as attributes. *)
Definition credential_attrs (a : turn_auth) : list (Z * list Z) :=
  [(STUN_ATTR_USERNAME, cs_value (au_username a)); (STUN_ATTR_REALM, cs_value (au_realm a)); (STUN_ATTR_NONCE, cs_value (au_nonce a))].
Definition auth_key (a : turn_auth) : list Z := take NANORTC_TURN_HMAC_KEY_SIZE (au_auth a).
Record auth_ok (a : turn_auth) : Prop := {
  ao_username : cs_ok (au_username a) NANORTC_TURN_USERNAME_SIZE;
  ao_auth : length (au_auth a) = NANORTC_TURN_PASSWORD_SIZE /\ bytes (au_auth a);
  ao_password : (au_password_len a < NANORTC_TURN_PASSWORD_SIZE)%nat;
  ao_realm : cs_ok (au_realm a) NANORTC_TURN_REALM_SIZE;
  ao_nonce : cs_ok (au_nonce a) NANORTC_TURN_NONCE_SIZE
}.
Lemma attr_room ty val n : (length val < 4 * n)%nat -> (n < 100)%nat -> is_u16 (Z.of_nat (length val)) /\ (length (attr_bytes ty val) <= 4 + 4 * n)%nat.
Proof.
  intros Hl Hn. assert (is_u16 (Z.of_nat (length val))) as Hu by mach. split; [done|]. rewrite attr_bytes_length, attr_padded_eq, Nat2Z.id by done.
  pose proof (Nat.Div0.div_le_mono (length val + 3) (n * 4 + 3) 4 ltac:(lia)) as H. rewrite Nat.div_add_l in H by lia. change (3 / 4)%nat with 0%nat in H.
  assert (((length val + 3) / 4 <= n)%nat) by lia. lia.
Qed.
Lemma credential_attrs_fit a : auth_ok a -> Forall (fun av => is_u16 (Z.of_nat (length av.2))) (credential_attrs a) /\ (length (attrs_bytes (credential_attrs a)) <= 268)%nat.
Proof.
  intros [Hu _ _ Hr Hn]. unfold credential_attrs, attrs_bytes. cbn [map concat fst snd]. rewrite app_nil_r, !length_app.
  pose proof (cs_value_length _ _ Hu) as Lu. pose proof (cs_value_length _ _ Hr) as Lr. pose proof (cs_value_length _ _ Hn) as Ln.
  destruct Hu as (_ & Hu & _), Hr as (_ & Hr & _), Hn as (_ & Hn & _). unfold NANORTC_TURN_USERNAME_SIZE, NANORTC_TURN_REALM_SIZE, NANORTC_TURN_NONCE_SIZE in *.
  destruct (attr_room STUN_ATTR_USERNAME (cs_value (au_username a)) 16) as [U1 U2]; [lia..|]. destruct (attr_room STUN_ATTR_REALM (cs_value (au_realm a)) 16) as [R1 R2]; [lia..|].
  destruct (attr_room STUN_ATTR_NONCE (cs_value (au_nonce a)) 32) as [N1 N2]; [lia..|]. split; [|lia]. by repeat apply List.Forall_cons.
Qed.
(** Both halves of a request: its own attributes are written, the credentials
    follow. *)
Lemma append_credentials_spec t type l0 txid avs room : auth_ok (tu_auth t) -> length txid = STUN_TXID_SIZE ->
  (length (attrs_bytes avs) <= 32)%nat -> (292 <= length room)%nat ->
  let msg := mac_message type txid (auth_key (tu_auth t)) (avs ++ credential_attrs (tu_auth t)) in
  append_credentials hmac_sha1 t (stun_header type l0 txid ++ attrs_bytes avs ++ room) (STUN_HEADER_SIZE + length (attrs_bytes avs)) =
  Ok (msg ++ drop (length msg - STUN_HEADER_SIZE - length (attrs_bytes avs)) room, length msg).
Proof using hmac_length.
  intros Ha Ht Hn Hr msg. assert (length msg = STUN_HEADER_SIZE + length (attrs_bytes (avs ++ credential_attrs (tu_auth t))) + 24)%nat as Hm by by apply mac_message_length.
  destruct (credential_attrs_fit _ Ha) as [Hu Hfit]. pose proof (stun_header_length type l0 txid Ht) as Hh.
  pose proof Ha as [Hau [Hk _] _ Har Han]. unfold append_credentials. cbv zeta. rewrite (cs_text_Ok _ _ Hau), (cs_text_Ok _ _ Har), (cs_text_Ok _ _ Han), !bind_Ok.
  unfold credential_attrs, attrs_bytes in Hfit. cbn [map concat fst snd] in Hfit. rewrite app_nil_r, !length_app in Hfit.
  apply Forall_cons_iff in Hu as [U Hu]. apply Forall_cons_iff in Hu as [Rl Hu]. apply Forall_cons_iff in Hu as [N _]. cbn [fst snd] in *.
  set (ub := attr_bytes STUN_ATTR_USERNAME _) in *. set (rb := attr_bytes STUN_ATTR_REALM _) in *. set (nb := attr_bytes STUN_ATTR_NONCE _) in *.
  rewrite (app_assoc _ _ room). rewrite stun_write_attr_spec by (rewrite ?length_app; fold ub; done || lia). fold ub. rewrite bind_Ok. cbv beta iota. rewrite ?bind_Ok.
  rewrite stun_write_attr_spec by (rewrite ?length_app, ?length_drop; fold rb; done || lia). fold rb. rewrite bind_Ok, drop_drop. cbv beta iota. rewrite ?bind_Ok.
  rewrite stun_write_attr_spec by (rewrite ?length_app, ?length_drop; fold nb; done || lia). fold nb. rewrite bind_Ok, drop_drop. cbv beta iota. rewrite ?bind_Ok.
  rewrite rdn_Ok by (rewrite Hk; unfold NANORTC_TURN_PASSWORD_SIZE, NANORTC_TURN_HMAC_KEY_SIZE; lia). rewrite bind_Ok, drop_0.
  assert (attrs_bytes (avs ++ credential_attrs (tu_auth t)) = attrs_bytes avs ++ ub ++ rb ++ nb) as Hab.
  { rewrite attrs_bytes_app. f_equal. unfold credential_attrs, attrs_bytes. cbn [map concat fst snd]. by rewrite app_nil_r. }
  rewrite <- !app_assoc. rewrite (app_assoc rb), (app_assoc ub), (app_assoc (attrs_bytes avs)), <- Hab.
  replace (STUN_HEADER_SIZE + length (attrs_bytes avs) + length ub + length rb + length nb)%nat with (STUN_HEADER_SIZE + length (attrs_bytes (avs ++ credential_attrs (tu_auth t))))%nat
    by (rewrite Hab, !length_app; lia).
  rewrite append_integrity_spec by (rewrite ?length_drop, ?Hab, ?length_app; done || lia). rewrite drop_drop. fold (auth_key (tu_auth t)). fold msg.
  do 3 f_equal. rewrite Hm, Hab, !length_app. unfold STUN_HEADER_SIZE. f_equal. lia.
Qed.
End Messages.

(** * The four requests *)

Definition allocate_attrs : list (Z * list Z) :=
  [(STUN_ATTR_REQUESTED_TRANSPORT, [TURN_TRANSPORT_UDP; 0; 0; 0]); (STUN_ATTR_LIFETIME, be32 TURN_DEFAULT_LIFETIME)].
Definition refresh_attrs (lifetime_s : Z) : list (Z * list Z) := [(STUN_ATTR_LIFETIME, be32 lifetime_s)].
Definition permission_attrs (addr : list Z) (family port : Z) (txid : list Z) : list (Z * list Z) :=
  [(STUN_ATTR_XOR_PEER_ADDRESS, xor_value txid addr (stun_family family) port)].
Definition channel_attrs (c : turn_channel) (txid : list Z) : list (Z * list Z) :=
  (STUN_ATTR_CHANNEL_NUMBER, be16 (ch_channel c) ++ [0; 0]) :: permission_attrs (ch_addr c) (ch_family c) (ch_port c) txid.

Section Requests.
Context (hmac_sha1 : list Z -> list Z -> list Z).
Context (hmac_length : forall k x, length (hmac_sha1 k x) = 20%nat).

Definition authenticated_request (a : turn_auth) (type : Z) (txid : list Z) (avs : list (Z * list Z)) : list Z :=
  mac_message hmac_sha1 type txid (auth_key a) (avs ++ credential_attrs a).
Definition allocate_request (a : turn_auth) (authenticated : bool) (txid : list Z) : list Z :=
  if authenticated then authenticated_request a STUN_ALLOCATE_REQUEST txid allocate_attrs else plain_message STUN_ALLOCATE_REQUEST txid allocate_attrs.
(** What a builder returns: the message at the head of the buffer. *)
Definition built (msg buf : list Z) : res (list Z * nat) :=
  if (length buf <? NANORTC_TURN_MAX_REQUEST_SIZE)%nat then Err NANORTC_ERR_BUFFER_TOO_SMALL else Ok (msg ++ drop (length msg) buf, length msg).
Definition fits (msg : list Z) : Prop := (length msg <= NANORTC_TURN_MAX_REQUEST_SIZE)%nat.

Lemma max_request_size : NANORTC_TURN_MAX_REQUEST_SIZE = 344%nat.
Proof. reflexivity. Qed.
Lemma authenticated_request_fits a type txid avs : auth_ok a -> length txid = STUN_TXID_SIZE -> (length (attrs_bytes avs) <= 32)%nat ->
  fits (authenticated_request a type txid avs).
Proof using hmac_length.
  intros Ha Ht Hn. destruct (credential_attrs_fit a Ha) as [_ Hc]. unfold fits, authenticated_request. rewrite mac_message_length by done.
  rewrite attrs_bytes_app, length_app, max_request_size. unfold STUN_HEADER_SIZE. lia.
Qed.
(** The header and the attributes of a request, then its credentials. *)
Lemma built_request t type txid avs buf : auth_ok (tu_auth t) -> length txid = STUN_TXID_SIZE -> (length (attrs_bytes avs) <= 32)%nat ->
  (NANORTC_TURN_MAX_REQUEST_SIZE <= length buf)%nat ->
  append_credentials hmac_sha1 t (stun_header type 0 txid ++ attrs_bytes avs ++ drop (STUN_HEADER_SIZE + length (attrs_bytes avs)) buf)
    (STUN_HEADER_SIZE + length (attrs_bytes avs)) = built (authenticated_request (tu_auth t) type txid avs) buf.
Proof using hmac_length.
  intros Ha Ht Hn Hb. unfold built. rewrite (proj2 (Nat.ltb_ge _ _) Hb). rewrite max_request_size in Hb.
  rewrite append_credentials_spec by (rewrite ?length_drop; unfold STUN_HEADER_SIZE; done || lia). fold (authenticated_request (tu_auth t) type txid avs).
  rewrite drop_drop. do 2 f_equal. f_equal. unfold authenticated_request. rewrite mac_message_length by done. rewrite attrs_bytes_app, length_app. unfold STUN_HEADER_SIZE. f_equal. lia.
Qed.

Lemma permission_attrs_length addr family port txid : length addr = STUN_ADDR_SIZE -> length txid = STUN_TXID_SIZE ->
  is_u16 (Z.of_nat (length (xor_value txid addr (stun_family family) port))) /\ (length (attrs_bytes (permission_attrs addr family port txid)) <= 24)%nat.
Proof using.
  intros Ha Ht. unfold STUN_ADDR_SIZE in Ha. assert (addr_size (stun_family family) <= 16)%nat as Hs by (unfold addr_size; destruct (_ =? _); lia).
  pose proof (xor_value_length txid addr _ port Ht (stun_family_fam family) ltac:(lia)) as Hl.
  destruct (attr_room STUN_ATTR_XOR_PEER_ADDRESS (xor_value txid addr (stun_family family) port) 6) as [H1 _]; [lia..|]. split; [done|].
  unfold permission_attrs, attrs_bytes. cbn [map concat fst snd]. rewrite app_nil_r, attr_bytes_length, Hl by done.
  assert (addr_size (stun_family family) = 4 \/ addr_size (stun_family family) = 16)%nat as [-> | ->] by (unfold addr_size; destruct (_ =? _); tauto); vm_compute; lia.
Qed.

Lemma build_allocate_spec t authenticated txid buf : auth_ok (tu_auth t) -> length txid = STUN_TXID_SIZE ->
  turn_build_allocate hmac_sha1 t authenticated txid buf = built (allocate_request (tu_auth t) authenticated txid) buf.
Proof using hmac_length.
  intros Ha Ht. unfold turn_build_allocate. destruct (Nat.ltb_spec (length buf) NANORTC_TURN_MAX_REQUEST_SIZE) as [H|Hbuf].
  { unfold built. by rewrite (proj2 (Nat.ltb_lt _ _)). }
  pose proof Hbuf as Hb. rewrite max_request_size in Hb. pose proof (stun_header_length STUN_ALLOCATE_REQUEST 0 txid Ht) as Hh.
  rewrite stun_write_header_Ok by (unfold STUN_HEADER_SIZE; done || lia). rewrite bind_Ok. cbv zeta.
  rewrite stun_write_attr_spec by (rewrite ?length_drop; unfold STUN_HEADER_SIZE; first [done | vm_compute; lia | change (length (attr_bytes _ _)) with 8%nat; lia]).
  rewrite bind_Ok. cbv beta iota. change (length (attr_bytes STUN_ATTR_REQUESTED_TRANSPORT _)) with 8%nat. rewrite drop_drop.
  rewrite stun_write_attr_spec by (rewrite ?length_app, ?length_drop; unfold STUN_HEADER_SIZE in *; first [done | change (length (attr_bytes _ _)) with 8%nat; lia]).
  rewrite bind_Ok. cbv beta iota. change (length (attr_bytes STUN_ATTR_LIFETIME _)) with 8%nat. rewrite drop_drop, <- !app_assoc.
  change (attr_bytes STUN_ATTR_REQUESTED_TRANSPORT [TURN_TRANSPORT_UDP; 0; 0; 0] ++ attr_bytes STUN_ATTR_LIFETIME (be32 TURN_DEFAULT_LIFETIME) ++ ?r)
    with (attrs_bytes allocate_attrs ++ r).
  destruct authenticated.
  - apply (built_request t STUN_ALLOCATE_REQUEST txid allocate_attrs); first [done | vm_compute; lia].
  - unfold stun_finalize_length. rewrite patch_length, bind_Ok. unfold built. rewrite (proj2 (Nat.ltb_ge _ _) Hbuf). unfold allocate_request, plain_message.
    rewrite length_app, stun_header_length by done. by rewrite <- app_assoc.
Qed.
Lemma build_refresh_spec t lifetime_s txid buf : auth_ok (tu_auth t) -> length txid = STUN_TXID_SIZE ->
  turn_build_refresh hmac_sha1 t lifetime_s txid buf = built (authenticated_request (tu_auth t) STUN_REFRESH_REQUEST txid (refresh_attrs lifetime_s)) buf.
Proof using hmac_length.
  intros Ha Ht. unfold turn_build_refresh. destruct (Nat.ltb_spec (length buf) NANORTC_TURN_MAX_REQUEST_SIZE) as [H|Hbuf].
  { unfold built. by rewrite (proj2 (Nat.ltb_lt _ _)). }
  pose proof Hbuf as Hb. rewrite max_request_size in Hb. pose proof (stun_header_length STUN_REFRESH_REQUEST 0 txid Ht) as Hh.
  rewrite stun_write_header_Ok by (unfold STUN_HEADER_SIZE; done || lia). rewrite bind_Ok. cbv zeta.
  rewrite stun_write_attr_spec by (rewrite ?length_drop; unfold STUN_HEADER_SIZE; first [done | change (length (attr_bytes _ _)) with 8%nat; lia]).
  rewrite bind_Ok. cbv beta iota. change (length (attr_bytes STUN_ATTR_LIFETIME _)) with 8%nat. rewrite drop_drop, <- !app_assoc.
  change (attr_bytes STUN_ATTR_LIFETIME (be32 lifetime_s)) with (attrs_bytes (refresh_attrs lifetime_s)).
  apply (built_request t STUN_REFRESH_REQUEST txid (refresh_attrs lifetime_s)); first [done | change (length _) with 8%nat; lia].
Qed.
Lemma build_permission_spec t addr family port txid buf : auth_ok (tu_auth t) -> length txid = STUN_TXID_SIZE -> length addr = STUN_ADDR_SIZE -> bytes addr ->
  turn_build_permission hmac_sha1 t addr family port txid buf =
  built (authenticated_request (tu_auth t) STUN_CREATE_PERMISSION_REQUEST txid (permission_attrs addr family port txid)) buf.
Proof using hmac_length.
  intros Ha Ht Hl Hab. unfold turn_build_permission. destruct (Nat.ltb_spec (length buf) NANORTC_TURN_MAX_REQUEST_SIZE) as [H|Hbuf].
  { unfold built. by rewrite (proj2 (Nat.ltb_lt _ _)). }
  pose proof Hbuf as Hb. rewrite max_request_size in Hb. pose proof (stun_header_length STUN_CREATE_PERMISSION_REQUEST 0 txid Ht) as Hh.
  destruct (permission_attrs_length addr family port txid Hl Ht) as [_ Hn]. pose proof Hn as Hn'. unfold permission_attrs, attrs_bytes in Hn'. cbn [map concat fst snd] in Hn'. rewrite app_nil_r in Hn'.
  rewrite stun_write_header_Ok by (unfold STUN_HEADER_SIZE; done || lia). rewrite bind_Ok. cbv zeta.
  rewrite stun_encode_xor_addr_spec by (rewrite ?length_drop; unfold STUN_HEADER_SIZE; first [done | lia]).
  rewrite bind_Ok. cbv beta iota. rewrite drop_drop, <- !app_assoc.
  assert (attr_bytes STUN_ATTR_XOR_PEER_ADDRESS (xor_value txid addr (stun_family family) port) = attrs_bytes (permission_attrs addr family port txid)) as ->
    by (unfold permission_attrs, attrs_bytes; cbn [map concat fst snd]; by rewrite app_nil_r).
  apply (built_request t STUN_CREATE_PERMISSION_REQUEST txid (permission_attrs addr family port txid)); first [done | lia].
Qed.
Lemma channel_attrs_bytes c txid : attrs_bytes (channel_attrs c txid) =
  attr_bytes STUN_ATTR_CHANNEL_NUMBER (be16 (ch_channel c) ++ [0; 0]) ++ attr_bytes STUN_ATTR_XOR_PEER_ADDRESS (xor_value txid (ch_addr c) (stun_family (ch_family c)) (ch_port c)).
Proof using. unfold channel_attrs, permission_attrs, attrs_bytes. cbn [map concat fst snd]. by rewrite app_nil_r. Qed.
Lemma build_channel_bind_spec t i c txid buf : auth_ok (tu_auth t) -> length txid = STUN_TXID_SIZE -> tu_channels t !! i = Some c ->
  length (ch_addr c) = STUN_ADDR_SIZE -> bytes (ch_addr c) ->
  turn_build_channel_bind hmac_sha1 t i txid buf = built (authenticated_request (tu_auth t) STUN_CHANNEL_BIND_REQUEST txid (channel_attrs c txid)) buf.
Proof using hmac_length.
  intros Ha Ht Hc Hl Hab. unfold turn_build_channel_bind, get_turn_channel. rewrite Hc. destruct (Nat.ltb_spec (length buf) NANORTC_TURN_MAX_REQUEST_SIZE) as [H|Hbuf].
  { unfold built. by rewrite (proj2 (Nat.ltb_lt _ _)). }
  pose proof Hbuf as Hb. rewrite max_request_size in Hb. pose proof (stun_header_length STUN_CHANNEL_BIND_REQUEST 0 txid Ht) as Hh.
  destruct (permission_attrs_length (ch_addr c) (ch_family c) (ch_port c) txid Hl Ht) as [_ Hn]. unfold permission_attrs, attrs_bytes in Hn. cbn [map concat fst snd] in Hn. rewrite app_nil_r in Hn.
  rewrite stun_write_header_Ok by (unfold STUN_HEADER_SIZE; done || lia). rewrite bind_Ok. cbv zeta. rewrite bind_Ok.
  rewrite stun_write_attr_spec by (rewrite ?length_drop; unfold STUN_HEADER_SIZE; first [done | change (length (attr_bytes _ _)) with 8%nat; lia]).
  rewrite bind_Ok. cbv beta iota. change (length (attr_bytes STUN_ATTR_CHANNEL_NUMBER _)) with 8%nat. rewrite drop_drop.
  rewrite stun_encode_xor_addr_spec by (rewrite ?length_app, ?length_drop, ?Hh; unfold STUN_HEADER_SIZE; first [done | lia]).
  rewrite bind_Ok. cbv beta iota. rewrite drop_drop, <- !app_assoc. rewrite (app_assoc (attr_bytes STUN_ATTR_CHANNEL_NUMBER _)), <- channel_attrs_bytes.
  assert (length (attrs_bytes (channel_attrs c txid)) = 8 + length (attr_bytes STUN_ATTR_XOR_PEER_ADDRESS (xor_value txid (ch_addr c) (stun_family (ch_family c)) (ch_port c))))%nat as Hca
    by (by rewrite channel_attrs_bytes, length_app).
  rewrite <- !Nat.add_assoc, <- Hca. apply (built_request t STUN_CHANNEL_BIND_REQUEST txid (channel_attrs c txid)); first [done | lia].
Qed.
End Requests.

(** * What a server reads *)

(** The authenticated requests with what each asks for. *)
Inductive turn_request : Type :=
| AllocateRequest | RefreshRequest (lifetime_s : Z) | PermissionRequest (addr : list Z) (family port : Z) | ChannelRequest (index : nat) (c : turn_channel).
Definition request_type (k : turn_request) : Z :=
  match k with
  | AllocateRequest => STUN_ALLOCATE_REQUEST | RefreshRequest _ => STUN_REFRESH_REQUEST
  | PermissionRequest _ _ _ => STUN_CREATE_PERMISSION_REQUEST | ChannelRequest _ _ => STUN_CHANNEL_BIND_REQUEST
  end.
Definition asked (k : turn_request) (txid : list Z) : list (Z * list Z) :=
  match k with
  | AllocateRequest => allocate_attrs | RefreshRequest l => refresh_attrs l
  | PermissionRequest addr family port => permission_attrs addr family port txid | ChannelRequest _ c => channel_attrs c txid
  end.
(** The peer's address as the parser reports it. *)
Definition reported (addr : list Z) (family port : Z) : stun_addr :=
  let n := addr_size (stun_family family) in StunAddr (take n addr ++ replicate (STUN_ADDR_SIZE - n) 0) port (stun_family family).
Definition carries (k : turn_request) (m : stun_msg) : Prop :=
  match k with
  | AllocateRequest => m_lifetime m = TURN_DEFAULT_LIFETIME
  | RefreshRequest l => m_lifetime m = l
  | PermissionRequest addr family port => m_peer m = reported addr family port
  | ChannelRequest _ c => m_channel m = ch_channel c /\ m_peer m = reported (ch_addr c) (ch_family c) (ch_port c)
  end.
Definition peer_ok (addr : list Z) (port : Z) : Prop := length addr = STUN_ADDR_SIZE /\ bytes addr /\ is_u16 port.
Definition request_ok (t : nano_turn) (k : turn_request) : Prop :=
  match k with
  | AllocateRequest => True
  | RefreshRequest l => is_u32 l
  | PermissionRequest addr _ port => peer_ok addr port
  | ChannelRequest i c => tu_channels t !! i = Some c /\ is_u16 (ch_channel c) /\ peer_ok (ch_addr c) (ch_port c)
  end.
Definition request_build (hmac_sha1 : list Z -> list Z -> list Z) (t : nano_turn) (k : turn_request) (txid buf : list Z) : res (list Z * nat) :=
  match k with
  | AllocateRequest => turn_build_allocate hmac_sha1 t true txid buf
  | RefreshRequest l => turn_build_refresh hmac_sha1 t l txid buf
  | PermissionRequest addr family port => turn_build_permission hmac_sha1 t addr family port txid buf
  | ChannelRequest i c => turn_build_channel_bind hmac_sha1 t i txid buf
  end.

Lemma xor_value_ok txid addr family port : length txid = STUN_TXID_SIZE -> bytes txid -> peer_ok addr port ->
  bytes (xor_value txid addr (stun_family family) port).
Proof.
  intros Ht Htb (Hl & Hb & Hp). unfold xor_value. repeat apply Forall_app_2.
  - destruct (stun_family_fam family) as [-> | ->]; by (repeat apply List.Forall_cons).
  - apply be16_bytes.
  - destruct (_ =? _); [apply be32_bytes|]. apply zip_lxor_bytes; [by apply Forall_take|]. apply Forall_app_2; [apply be32_bytes | done].
Qed.
Lemma asked_ok t k txid : request_ok t k -> length txid = STUN_TXID_SIZE -> bytes txid ->
  Forall attr_ok (asked k txid) /\ (length (attrs_bytes (asked k txid)) <= 32)%nat.
Proof.
  intros Hk Ht Htb. destruct k as [|l|addr family port|i c]; cbn [request_ok asked] in *.
  - split; [|vm_compute; lia]. repeat (apply List.Forall_cons; [split_and!; [done | done | by (repeat apply List.Forall_cons)]|]). done.
  - split; [|change (length _) with 8%nat; lia]. apply List.Forall_cons; [split_and!; [done | done | apply be32_bytes] | done].
  - pose proof Hk as (Hl & Hb & Hp). destruct (permission_attrs_length addr family port txid Hl Ht) as [Hu Hn]. split; [|lia].
    apply List.Forall_cons; [split_and!; cbn [fst snd]; [done | done | by apply xor_value_ok] | done].
  - destruct Hk as (_ & Hc & Hk). pose proof Hk as (Hl & Hb & Hp). destruct (permission_attrs_length (ch_addr c) (ch_family c) (ch_port c) txid Hl Ht) as [Hu Hn].
    split; [|unfold channel_attrs; rewrite attrs_bytes_cons, length_app; change (length (attr_bytes _ _)) with 8%nat; lia].
    apply List.Forall_cons; [split_and!; cbn [fst snd]; [done | done | apply Forall_app_2; [apply be16_bytes | by (repeat apply List.Forall_cons)]]|].
    apply List.Forall_cons; [split_and!; cbn [fst snd]; [done | done | by apply xor_value_ok] | done].
Qed.
Lemma credential_attrs_ok a : auth_ok a -> Forall attr_ok (credential_attrs a).
Proof.
  intros Ha. destruct (credential_attrs_fit a Ha) as [Hu _]. apply Forall_cons_iff in Hu as [U Hu]. apply Forall_cons_iff in Hu as [Rl Hu]. apply Forall_cons_iff in Hu as [N _].
  destruct Ha as [A1 _ _ A2 A3]. repeat (apply List.Forall_cons; [split_and!; cbn [fst snd] in *; [done | done | by eapply cs_value_bytes]|]). done.
Qed.
Lemma peer_walk txid addr family port m : length txid = STUN_TXID_SIZE -> peer_ok addr port -> m_txid m = txid -> m_peer m = no_addr ->
  attr_addr (xor_value txid addr (stun_family family) port) (m_txid m) (m_peer m) = Ok (reported addr family port).
Proof.
  intros Ht (Hl & Hb & Hp) -> ->. unfold attr_addr. unfold STUN_ADDR_SIZE in Hl.
  assert (addr_size (stun_family family) <= 16)%nat as Hs by (unfold addr_size; destruct (_ =? _); lia).
  rewrite decode_xor_value by first [done | apply stun_family_fam | lia]. unfold reported. cbn [no_addr sa_addr]. by rewrite drop_replicate.
Qed.
(** The walk over what is asked and the credentials. *)
Lemma asked_walk t k txid a len : request_ok t k -> length txid = STUN_TXID_SIZE ->
  exists m, stun_attrs (asked k txid ++ credential_attrs a) STUN_HEADER_SIZE (stun_msg_init (request_type k) len txid) false false = Ok (m, false, false) /\
    m_type m = request_type k /\ m_txid m = txid /\ m_username m = Some (cs_value (au_username a)) /\ m_realm m = Some (cs_value (au_realm a)) /\
    m_nonce m = Some (cs_value (au_nonce a)) /\ carries k m.
Proof.
  intros Hk Ht. rewrite stun_attrs_app. set (m0 := stun_msg_init _ _ _).
  assert (exists m, stun_attrs (asked k txid) STUN_HEADER_SIZE m0 false false = Ok (m, false, false) /\ m_type m = request_type k /\ m_txid m = txid /\ carries k m) as (m & -> & H1 & H2 & H3).
  { destruct k as [|l|addr family port|i c]; cbn [request_ok] in *.
    - eexists. split; [reflexivity|]. done.
    - cbn [asked refresh_attrs stun_attrs andb orb].
      change (stun_attr STUN_ATTR_LIFETIME (be32 l) STUN_HEADER_SIZE m0) with (v ← attr_u32 (be32 l); Ok (set_lifetime m0 v, false, false)).
      rewrite attr_u32_be32, !bind_Ok by done. by eexists.
    - cbn [asked permission_attrs stun_attrs andb orb]. set (v := xor_value _ _ _ _).
      change (stun_attr STUN_ATTR_XOR_PEER_ADDRESS v STUN_HEADER_SIZE m0) with (a ← attr_addr v (m_txid m0) (m_peer m0); Ok (set_peer m0 a, false, false)).
      unfold v. rewrite peer_walk by done. rewrite !bind_Ok. by eexists.
    - destruct Hk as (_ & Hc & Hk). cbn [asked channel_attrs permission_attrs stun_attrs andb orb]. set (v := xor_value _ _ _ _).
      assert (stun_attr STUN_ATTR_CHANNEL_NUMBER (be16 (ch_channel c) ++ [0; 0]) STUN_HEADER_SIZE m0 = Ok (set_channel m0 (ch_channel c), false, false)) as ->.
      { change (stun_attr STUN_ATTR_CHANNEL_NUMBER (be16 (ch_channel c) ++ [0; 0]) STUN_HEADER_SIZE m0)
          with (n ← nanortc_read_u16be (be16 (ch_channel c) ++ [0; 0]) 0; Ok (set_channel m0 n, false, false)).
        pose proof (read_u16be_app [] (ch_channel c) [0; 0] 0 eq_refl) as Hr. rewrite app_nil_l in Hr. rewrite Hr, u16_id by done. done. }
      rewrite bind_Ok. cbv beta iota. cbn [orb andb]. set (m1 := set_channel m0 _). set (pos := (_ + _)%nat).
      change (stun_attr STUN_ATTR_XOR_PEER_ADDRESS v pos m1) with (a ← attr_addr v (m_txid m1) (m_peer m1); Ok (set_peer m1 a, false, false)).
      unfold v. rewrite peer_walk by done. rewrite !bind_Ok. by eexists. }
  rewrite bind_Ok. cbn [credential_attrs stun_attrs andb orb].
  eexists. split; [reflexivity|]. destruct k; done.
Qed.

Section Roundtrip.
Context (hmac_sha1 : list Z -> list Z -> list Z).
Context (hmac_length : forall k x, length (hmac_sha1 k x) = 20%nat).
Context (hmac_bytes : forall k x, bytes (hmac_sha1 k x)).

Lemma mac_message_parse type txid key avs m : is_u16 type -> Z.land (u8 (Z.shiftr type 8)) 0xC0 = 0 -> length txid = STUN_TXID_SIZE ->
  Forall attr_ok avs -> Z.of_nat (length (attrs_bytes avs)) + 52 < 65536 ->
  stun_attrs avs STUN_HEADER_SIZE (stun_msg_init type (Z.of_nat (length (attrs_bytes avs)) + 24) txid) false false = Ok (m, false, false) ->
  stun_parse (mac_message hmac_sha1 type txid key avs) = Ok (set_integrity m (Some (Z.of_nat (STUN_HEADER_SIZE + length (attrs_bytes avs))))).
Proof using hmac_length hmac_bytes.
  intros Hty Htop Ht Hav Hn Hattrs. unfold mac_message. cbv zeta. pose proof (with_mac_length hmac_sha1 hmac_length type txid key avs) as Hl.
  rewrite stun_parse_attrs by (first [done | by apply with_mac_ok | rewrite Hl; mach]). rewrite Hl.
  replace (Z.of_nat (_ + 24)) with (Z.of_nat (length (attrs_bytes avs)) + 24) by lia.
  unfold with_mac. rewrite stun_attrs_app, Hattrs, bind_Ok. cbn [stun_attrs andb].
  rewrite stun_attr_mac, !bind_Ok by (by apply mac_length). rewrite u16_id by (unfold STUN_HEADER_SIZE; mach). done.
Qed.

(** C16: an authenticated request the client builds (Allocate, Refresh,
    CreatePermission, ChannelBind) is refused exactly when the buffer is below
    [NANORTC_TURN_MAX_REQUEST_SIZE], never exceeds that size, and parses back to
    its type, transaction id, user name, realm and nonce and to what it asks
    for (lifetime, peer address, channel number); its integrity verifies under a
    key exactly when that key gives the same MAC of the covered octets. *)
Theorem turn_request_roundtrip t k txid buf :
  auth_ok (tu_auth t) -> request_ok t k -> length txid = STUN_TXID_SIZE -> bytes txid ->
  exists msg covered m,
    request_build hmac_sha1 t k txid buf =
      (if (length buf <? NANORTC_TURN_MAX_REQUEST_SIZE)%nat then Err NANORTC_ERR_BUFFER_TOO_SMALL
       else Ok (msg ++ drop (length msg) buf, length msg)) /\
    (length msg <= NANORTC_TURN_MAX_REQUEST_SIZE)%nat /\ stun_parse msg = Ok m /\
    (m_type m = request_type k /\ m_txid m = txid /\ carries k m) /\
    (m_username m = Some (cs_value (au_username (tu_auth t))) /\ m_realm m = Some (cs_value (au_realm (tu_auth t))) /\
     m_nonce m = Some (cs_value (au_nonce (tu_auth t)))) /\
    forall key, stun_verify_integrity hmac_sha1 msg m key =
      Ok (if bool_decide (hmac_sha1 key covered = hmac_sha1 (auth_key (tu_auth t)) covered) then NANORTC_OK else NANORTC_ERR_PROTOCOL).
Proof using hmac_length hmac_bytes.
  intros Ha Hk Ht Htb. set (a := tu_auth t) in *. destruct (asked_ok t k txid Hk Ht Htb) as [Hok Hn]. pose proof (credential_attrs_ok a Ha) as Hc. destruct (credential_attrs_fit a Ha) as [_ Hfit].
  set (avs := asked k txid ++ credential_attrs a). assert (Forall attr_ok avs) as Hav by by apply Forall_app_2.
  assert (length (attrs_bytes avs) <= 300)%nat as Hlen by (unfold avs; rewrite attrs_bytes_app, length_app; lia).
  destruct (asked_walk t k txid a (Z.of_nat (length (attrs_bytes avs)) + 24) Hk Ht) as (m & Hm & F1 & F2 & F3 & F4 & F5 & F6).
  exists (authenticated_request hmac_sha1 a (request_type k) txid (asked k txid)),
    (stun_header (request_type k) (Z.of_nat (length (attrs_bytes avs)) + 24) txid ++ attrs_bytes avs).
  eexists. split.
  { fold (built (authenticated_request hmac_sha1 a (request_type k) txid (asked k txid)) buf).
    destruct k as [|l|addr family port|i c]; cbn [request_build request_ok request_type asked] in *.
    - by apply (build_allocate_spec hmac_sha1 hmac_length t true).
    - by apply build_refresh_spec.
    - destruct Hk as (Hl & Hb & _). by apply build_permission_spec.
    - destruct Hk as (Hi & _ & Hl & Hb & _). by apply build_channel_bind_spec. }
  split; [by apply authenticated_request_fits|].
  split; [apply mac_message_parse; [by destruct k | by destruct k | done | done | fold avs; lia | exact Hm]|].
  split; [by destruct k|]. split; [done|]. intros key. unfold authenticated_request, mac_message. fold avs. cbv zeta.
  rewrite <- (app_nil_r (attrs_bytes (with_mac _ _ _ _ avs))). rewrite app_nil_r at 1.
  rewrite (verify_integrity_at hmac_sha1 hmac_length); [done | done | lia | done].
Qed.
End Roundtrip.

Definition demo_text (c : Z) (size : nat) : cstring := CString (c :: replicate (size - 1) 0) 1.
Definition demo_client : nano_turn :=
  with_auth turn_init (Auth (demo_text 117 NANORTC_TURN_USERNAME_SIZE) (replicate NANORTC_TURN_PASSWORD_SIZE 7) 2 (demo_text 114 NANORTC_TURN_REALM_SIZE)
    (demo_text 110 NANORTC_TURN_NONCE_SIZE) true).
Lemma demo_text_ok c size : is_u8 c -> (1 < size)%nat -> cs_ok (demo_text c size) size.
Proof.
  intros Hc Hs. split_and!; [cbn; rewrite length_replicate; lia | done | apply List.Forall_cons; [done | by apply Forall_replicate]].
Qed.
Lemma demo_client_ok : auth_ok (tu_auth demo_client).
Proof. constructor; first [apply demo_text_ok; [done | vm_compute; lia] | split; [done | by apply Forall_replicate] | vm_compute; lia]. Qed.
Lemma turn_request_roundtrip_witness : exists msg m,
  request_build toy_mac demo_client (PermissionRequest ([192; 0; 2; 33] ++ replicate 12 0) 4 5000) (replicate 12 9) (replicate 400 0) =
    Ok (msg ++ drop (length msg) (replicate 400 0), length msg) /\
  stun_parse msg = Ok m /\ m_peer m = StunAddr ([192; 0; 2; 33] ++ replicate 12 0) 5000 STUN_FAMILY_IPV4 /\
  stun_verify_integrity toy_mac msg m (replicate 16 7) = Ok NANORTC_OK.
Proof.
  destruct (turn_request_roundtrip toy_mac toy_mac_length toy_mac_bytes demo_client (PermissionRequest ([192; 0; 2; 33] ++ replicate 12 0) 4 5000) (replicate 12 9) (replicate 400 0))
    as (msg & covered & m & H1 & _ & H3 & (_ & _ & H4) & _ & H5).
  - exact demo_client_ok.
  - split; [done|]. split; [|done]. apply Forall_app_2; [by (repeat apply List.Forall_cons) | by apply Forall_replicate].
  - done.
  - by apply Forall_replicate.
  - exists msg, m. split; [exact H1|]. split; [exact H3|]. split; [exact H4|]. rewrite (H5 (replicate 16 7)). by rewrite bool_decide_eq_true_2.
Defined.
