(* ===== verification/TurnHistory.v ===== *)
(** Histories of the TURN client of [src/nano_turn.c]: the tables of permissions
    and channels stay well formed over every sequence of operations and of
    datagrams, what is sent fits, and only authenticated responses count. *)

From Stdlib Require Import ZArith Lia.
From stdpp Require Import base list numbers.
From S2P Require Import Prelude Wire Crc Stun Turn TurnRequests.

Local Open Scope Z_scope.

(** * The invariant *)

(** A request waiting has been sent between one and seven times. *)
Definition sends_ok (waiting : bool) (transmissions : Z) : Prop :=
  0 <= transmissions <= NANORTC_TURN_MAX_TRANSMISSIONS /\ (waiting = true -> 1 <= transmissions).
Definition address_ok (addr : list Z) : Prop := length addr = STUN_ADDR_SIZE /\ bytes addr.
Definition permission_ok (p : turn_permission) : Prop :=
  address_ok (pm_addr p) /\ length (pm_txid p) = STUN_TXID_SIZE /\ is_u16 (pm_port p) /\ sends_ok (pending (pm_pending p)) (pm_transmissions p).
Definition turn_channel_ok (c : turn_channel) : Prop :=
  address_ok (ch_addr c) /\ length (ch_txid c) = STUN_TXID_SIZE /\ is_u16 (ch_port c) /\ is_u16 (ch_channel c) /\ sends_ok (pending (ch_pending c)) (ch_transmissions c).
(** What identifies a permission, and a channel. *)
Definition permission_key (p : turn_permission) : Z * list Z := (pm_family p, take (addr_len (pm_family p)) (pm_addr p)).
Definition channel_key (c : turn_channel) : Z * Z * list Z := (ch_family c, ch_port c, take (addr_len (ch_family c)) (ch_addr c)).
Definition distinct {A B} (key : A -> B) (n : nat) (l : list A) : Prop :=
  forall i j x y, (i < n)%nat -> (j < n)%nat -> l !! i = Some x -> l !! j = Some y -> key x = key y -> i = j.
Record permissions_ok (n : nat) (ps : list turn_permission) : Prop := {
  po_length : length ps = NANORTC_TURN_MAX_PERMISSIONS /\ (n <= NANORTC_TURN_MAX_PERMISSIONS)%nat;
  po_each : Forall permission_ok ps;
  po_distinct : distinct permission_key n ps
}.
Record channels_ok (n : nat) (next : Z) (cs : list turn_channel) : Prop := {
  co_length : length cs = NANORTC_TURN_MAX_CHANNELS /\ (n <= NANORTC_TURN_MAX_CHANNELS)%nat;
  co_next : next = 0x4000 + Z.of_nat n;
  co_each : Forall turn_channel_ok cs;
  co_number : forall i c, (i < n)%nat -> cs !! i = Some c -> ch_channel c = 0x4000 + Z.of_nat i;
  co_distinct : distinct channel_key n cs
}.
Definition txn_ok (x : turn_transaction) : Prop :=
  length (tx_last_txid x) = STUN_TXID_SIZE /\ sends_ok (negb (bool_decide (tx_kind x = NANORTC_TURN_TXN_NONE))) (tx_transmissions x).
Record turn_ok (t : nano_turn) : Prop := {
  to_auth : auth_ok (tu_auth t);
  to_server : length (tu_server_addr t) = STUN_ADDR_SIZE;
  to_txn : txn_ok (tu_txn t);
  to_permissions : permissions_ok (tu_permission_count t) (tu_permissions t);
  to_channels : channels_ok (tu_channel_count t) (tu_next_channel t) (tu_channels t)
}.

Lemma sends_zero : sends_ok false 0.
Proof. split; [unfold NANORTC_TURN_MAX_TRANSMISSIONS; lia | done]. Qed.
Lemma sends_one : sends_ok true 1.
Proof. split; [unfold NANORTC_TURN_MAX_TRANSMISSIONS; lia | lia]. Qed.
Lemma permission_zero_ok : permission_ok permission_zero.
Proof. split; [split; [done | apply Forall_replicate, is_u8_0]|]. split; [done|]. split; [done | apply sends_zero]. Qed.
Lemma channel_zero_ok : turn_channel_ok channel_zero.
Proof. split; [split; [done | apply Forall_replicate, is_u8_0]|]. split; [done|]. split; [done|]. split; [done | apply sends_zero]. Qed.
Lemma distinct_0 {A B} (key : A -> B) l : distinct key 0 l.
Proof. intros i j x y Hi. lia. Qed.
(** A change that keeps the key. *)
Lemma distinct_same {A B} (key : A -> B) n l i x x' : distinct key n l -> l !! i = Some x -> key x' = key x -> distinct key n (<[i := x']> l).
Proof.
  intros Hd Hx Hk j k y z Hj Hkn [(<- & <- & _)|[_ Hy]]%list_lookup_insert_Some [(<- & <- & _)|[_ Hz]]%list_lookup_insert_Some Heq; try done.
  - apply (Hd i k x z); try done. congruence.
  - apply (Hd j i y x); try done. congruence.
  - by apply (Hd j k y z).
Qed.
(** A new element with a new key. *)
Lemma distinct_new {A B} (key : A -> B) n l x : distinct key n l -> (forall i y, (i < n)%nat -> l !! i = Some y -> key y <> key x) ->
  distinct key (S n) (<[n := x]> l).
Proof.
  intros Hd Hnew j k y z Hj Hk [(-> & <- & _)|[Hne Hy]]%list_lookup_insert_Some [(-> & <- & _)|[Hne' Hz]]%list_lookup_insert_Some Heq; try done.
  - exfalso. apply (Hnew k z); [lia | done | done].
  - exfalso. apply (Hnew j y); [lia | done | done].
  - apply (Hd j k y z); try done; lia.
Qed.
Lemma permissions_update n ps i p p' : permissions_ok n ps -> ps !! i = Some p -> permission_ok p' -> permission_key p' = permission_key p ->
  permissions_ok n (<[i := p']> ps).
Proof. intros [[H1 H1'] H2 H3] Hp Hp' Hk. constructor; [by rewrite length_insert | by apply Forall_insert | by eapply distinct_same]. Qed.
Lemma permissions_new n ps p : permissions_ok n ps -> (n < NANORTC_TURN_MAX_PERMISSIONS)%nat -> permission_ok p ->
  (forall i q, (i < n)%nat -> ps !! i = Some q -> permission_key q <> permission_key p) -> permissions_ok (S n) (<[n := p]> ps).
Proof. intros [[H1 H1'] H2 H3] Hn Hp Hnew. constructor; [rewrite length_insert; split; [done | lia] | by apply Forall_insert | by apply distinct_new]. Qed.
Lemma channels_update n next cs i c c' : channels_ok n next cs -> cs !! i = Some c -> turn_channel_ok c' -> channel_key c' = channel_key c -> ch_channel c' = ch_channel c ->
  channels_ok n next (<[i := c']> cs).
Proof.
  intros [[H1 H1'] H2 H3 H4 H5] Hc Hc' Hk Hn. constructor; [by rewrite length_insert | done | by apply Forall_insert | | by eapply distinct_same].
  intros j d Hj [(<- & <- & _)|[_ Hd]]%list_lookup_insert_Some; [rewrite Hn|]; by apply H4.
Qed.
Lemma channels_new n next cs c : channels_ok n next cs -> (n < NANORTC_TURN_MAX_CHANNELS)%nat -> turn_channel_ok c -> ch_channel c = next ->
  (forall i d, (i < n)%nat -> cs !! i = Some d -> channel_key d <> channel_key c) -> channels_ok (S n) (u16 (next + 1)) (<[n := c]> cs).
Proof.
  intros [[H1 H1'] H2 H3 H4 H5] Hn Hc Hnum Hnew. assert (n < 4)%nat as Hn4 by done.
  constructor; [rewrite length_insert; split; [done | lia] | rewrite u16_id by (unfold is_u16; lia); lia | by apply Forall_insert | | by apply distinct_new].
  intros j d Hj [(<- & <- & _)|[Hne Hd]]%list_lookup_insert_Some; [congruence|]. apply H4; [lia | done].
Qed.
Lemma turn_ok_permissions t n ps : turn_ok t -> permissions_ok n ps -> turn_ok (with_permissions t n ps).
Proof. by intros [] Hp; constructor. Qed.
Lemma turn_ok_channels t n next cs : turn_ok t -> channels_ok n next cs -> turn_ok (with_channels t n next cs).
Proof. by intros [] Hp; constructor. Qed.
Lemma turn_ok_txn t x : turn_ok t -> txn_ok x -> turn_ok (with_txn t x).
Proof. by intros [] Hp; constructor. Qed.
Lemma turn_ok_auth t a : turn_ok t -> auth_ok a -> turn_ok (with_auth t a).
Proof. by intros [] Hp; constructor. Qed.
Lemma turn_ok_relay t r : turn_ok t -> turn_ok (with_relay t r).
Proof. by intros []; constructor. Qed.
Lemma turn_ok_state t s : turn_ok t -> turn_ok (with_turn_state t s).
Proof. by intros []; constructor. Qed.
Lemma turn_ok_clear t : turn_ok t -> turn_ok (turn_clear_transaction t).
Proof. intros H. apply turn_ok_txn; [done|]. split; [apply (to_txn t H) | apply sends_zero]. Qed.
Lemma turn_ok_reset t : turn_ok t -> turn_ok (turn_reset_peer_state t).
Proof.
  intros H. apply turn_ok_channels; [apply turn_ok_permissions; [done|]|].
  - constructor; [split; [done | lia] | apply Forall_replicate, permission_zero_ok | apply distinct_0].
  - constructor; [split; [done | lia] | done | apply Forall_replicate, channel_zero_ok | lia | apply distinct_0].
Qed.
Create HintDb turn.
#[local] Hint Resolve turn_ok_state turn_ok_relay turn_ok_clear : turn.
Lemma cs_zero_ok size : (0 < size)%nat -> cs_ok (cstring_zero size) size.
Proof. intros H. split_and!; [apply length_replicate | done | apply Forall_replicate, is_u8_0]. Qed.
Lemma turn_init_ok : turn_ok turn_init.
Proof.
  constructor; [| done | split; [done | apply sends_zero] | |].
  - constructor; [apply cs_zero_ok; unfold NANORTC_TURN_USERNAME_SIZE; lia | split; [done | apply Forall_replicate, is_u8_0] | unfold NANORTC_TURN_PASSWORD_SIZE; cbn; lia
      | apply cs_zero_ok; unfold NANORTC_TURN_REALM_SIZE; lia | apply cs_zero_ok; unfold NANORTC_TURN_NONCE_SIZE; lia].
  - constructor; [split; [done | cbn; lia] | apply Forall_replicate, permission_zero_ok | apply distinct_0].
  - constructor; [split; [done | cbn; lia] | done | apply Forall_replicate, channel_zero_ok | cbn; lia | apply distinct_0].
Qed.
Lemma permission_update t i p p' : turn_ok t -> tu_permissions t !! i = Some p -> permission_ok p' -> permission_key p' = permission_key p -> turn_ok (set_permission t i p').
Proof. intros H Hp Hp' Hk. apply turn_ok_permissions; [done|]. eapply permissions_update; [apply (to_permissions t H) | done..]. Qed.
Lemma channel_update t i c c' : turn_ok t -> tu_channels t !! i = Some c -> turn_channel_ok c' -> channel_key c' = channel_key c -> ch_channel c' = ch_channel c -> turn_ok (set_turn_channel t i c').
Proof. intros H Hc Hc' Hk Hn. apply turn_ok_channels; [done|]. eapply channels_update; [apply (to_channels t H) | done..]. Qed.

Section lookups.
Context (t : nano_turn) (Hok : turn_ok t).
Lemma permission_at i : (i < NANORTC_TURN_MAX_PERMISSIONS)%nat -> exists p, tu_permissions t !! i = Some p /\ get_permission t i = Ok p /\ permission_ok p.
Proof using Hok.
  intros Hi. destruct (to_permissions t Hok) as [[Hl _] He _]. destruct (lookup_lt_is_Some_2 (tu_permissions t) i) as [p Hp]; [lia|].
  exists p. split; [done|]. split; [unfold get_permission; by rewrite Hp|]. exact (proj1 (Forall_lookup _ _) He i p Hp).
Qed.
Lemma channel_at i : (i < NANORTC_TURN_MAX_CHANNELS)%nat -> exists c, tu_channels t !! i = Some c /\ get_turn_channel t i = Ok c /\ turn_channel_ok c.
Proof using Hok.
  intros Hi. destruct (to_channels t Hok) as [[Hl _] _ He _ _]. destruct (lookup_lt_is_Some_2 (tu_channels t) i) as [c Hc]; [lia|].
  exists c. split; [done|]. split; [unfold get_turn_channel; by rewrite Hc|]. exact (proj1 (Forall_lookup _ _) He i c Hc).
Qed.
Lemma permission_live i : (i < tu_permission_count t)%nat -> (i < NANORTC_TURN_MAX_PERMISSIONS)%nat.
Proof using Hok. pose proof (proj2 (po_length _ _ (to_permissions t Hok))). lia. Qed.
Lemma channel_live i : (i < tu_channel_count t)%nat -> (i < NANORTC_TURN_MAX_CHANNELS)%nat.
Proof using Hok. pose proof (proj2 (co_length _ _ _ (to_channels t Hok))). lia. Qed.
End lookups.

(** * Searches *)

Lemma same_octets_Ok a b n : (n <= length a)%nat -> (n <= length b)%nat -> same_octets a b n = Ok (bool_decide (take n a = take n b)).
Proof. intros Ha Hb. unfold same_octets. by rewrite !rdn_Ok, !drop_0 by lia. Qed.
Lemma addr_len_le family : (addr_len family <= 16)%nat.
Proof. unfold addr_len. destruct (_ =? _); lia. Qed.
Lemma find_permission_spec addr family k ps : forall i, (i + k <= length ps)%nat -> Forall permission_ok ps -> length addr = STUN_ADDR_SIZE ->
  exists o, find_permission k ps i addr family = Ok o /\
    match o with
    | Some j => (i <= j < i + k)%nat /\ exists p, ps !! j = Some p /\ permission_key p = (family, take (addr_len family) addr)
    | None => forall j p, (i <= j < i + k)%nat -> ps !! j = Some p -> permission_key p <> (family, take (addr_len family) addr)
    end.
Proof.
  unfold STUN_ADDR_SIZE. pose proof (addr_len_le family) as Hal. induction k as [|k IH]; intros i Hi Hps Ha; cbn [find_permission]; [eexists; split; [done|]; cbn; intros; lia|].
  destruct (lookup_lt_is_Some_2 ps i) as [p Hp]; [lia|]. rewrite Hp. pose proof (proj1 (Forall_lookup _ _) Hps i p Hp) as ((Hl & _) & _). unfold STUN_ADDR_SIZE in Hl.
  assert ((if pm_family p =? family then same_octets (pm_addr p) addr (addr_len family) else Ok false) =
          Ok (bool_decide (permission_key p = (family, take (addr_len family) addr)))) as ->.
  { unfold permission_key. destruct (Z.eqb_spec (pm_family p) family) as [->|Hne].
    - rewrite same_octets_Ok by lia. f_equal. apply bool_decide_ext. split; [intros ->; done | by intros [=]].
    - symmetry. f_equal. apply bool_decide_eq_false_2. by intros [=]. }
  rewrite bind_Ok. destruct (bool_decide_reflect (permission_key p = (family, take (addr_len family) addr))) as [Hk|Hk].
  - eexists. split; [done|]. cbn. split; [lia|]. by exists p.
  - destruct (IH (S i)) as (o & -> & Ho); [lia | done | done|]. eexists. split; [done|]. destruct o as [j|].
    + destruct Ho as [Hj Ho]. split; [lia | done].
    + intros j q Hj Hq. destruct (decide (j = i)) as [->|]; [congruence|]. apply (Ho j q); [lia | done].
Qed.
Lemma find_channel_spec P addr family port k cs : forall i, (i + k <= length cs)%nat -> Forall turn_channel_ok cs -> length addr = STUN_ADDR_SIZE ->
  exists o, find_channel P k cs i addr family port = Ok o /\
    match o with
    | Some j => (i <= j < i + k)%nat /\ exists c, cs !! j = Some c /\ P c = true /\ channel_key c = (family, port, take (addr_len family) addr)
    | None => forall j c, (i <= j < i + k)%nat -> cs !! j = Some c -> P c = true -> channel_key c <> (family, port, take (addr_len family) addr)
    end.
Proof.
  unfold STUN_ADDR_SIZE. pose proof (addr_len_le family) as Hal. induction k as [|k IH]; intros i Hi Hcs Ha; cbn [find_channel]; [eexists; split; [done|]; cbn; intros; lia|].
  destruct (lookup_lt_is_Some_2 cs i) as [c Hc]; [lia|]. rewrite Hc. pose proof (proj1 (Forall_lookup _ _) Hcs i c Hc) as ((Hl & _) & _). unfold STUN_ADDR_SIZE in Hl.
  assert ((if P c && (ch_family c =? family) && (ch_port c =? port) then same_octets (ch_addr c) addr (addr_len family) else Ok false) =
          Ok (P c && bool_decide (channel_key c = (family, port, take (addr_len family) addr)))) as ->.
  { unfold channel_key. destruct (P c); cbn [andb]; [|done]. destruct (Z.eqb_spec (ch_family c) family) as [->|Hne]; cbn [andb].
    - destruct (Z.eqb_spec (ch_port c) port) as [->|Hne].
      + rewrite same_octets_Ok by lia. f_equal. apply bool_decide_ext. split; [intros ->; done | by intros [=]].
      + symmetry. f_equal. apply bool_decide_eq_false_2. by intros [=].
    - symmetry. f_equal. apply bool_decide_eq_false_2. by intros [=]. }
  rewrite bind_Ok. destruct (P c) eqn:HP; cbn [andb].
  2: { destruct (IH (S i)) as (o & -> & Ho); [lia | done | done|]. eexists. split; [done|]. destruct o as [j|].
       + destruct Ho as [Hj Ho]. split; [lia | done].
       + intros j q Hj Hq HPq. destruct (decide (j = i)) as [->|]; [congruence|]. apply (Ho j q); [lia | done..]. }
  destruct (bool_decide_reflect (channel_key c = (family, port, take (addr_len family) addr))) as [Hk|Hk].
  - eexists. split; [done|]. cbn. split; [lia|]. by exists c.
  - destruct (IH (S i)) as (o & -> & Ho); [lia | done | done|]. eexists. split; [done|]. destruct o as [j|].
    + destruct Ho as [Hj Ho]. split; [lia | done].
    + intros j q Hj Hq HPq. destruct (decide (j = i)) as [->|]; [congruence|]. apply (Ho j q); [lia | done..].
Qed.
Lemma find_waiting_spec {A} (state : A -> turn_request_state) (id : A -> list Z) txid k l : forall i, (i + k <= length l)%nat ->
  exists o, find_waiting state id txid k l i = Ok o /\
    match o with Some j => (i <= j < i + k)%nat /\ exists x, l !! j = Some x /\ state x = NANORTC_TURN_REQUEST_WAITING /\ id x = txid | None => True end.
Proof.
  induction k as [|k IH]; intros i Hi; cbn [find_waiting]; [by eexists|]. destruct (lookup_lt_is_Some_2 l i) as [x Hx]; [lia|]. rewrite Hx.
  destruct (bool_decide_reflect (state x = NANORTC_TURN_REQUEST_WAITING)) as [H1|H1]; cbn [andb];
    [destruct (bool_decide_reflect (id x = txid)) as [H2|H2]|]; [eexists; split; [done|]; cbn; split; [lia | by exists x]| |];
    (destruct (IH (S i)) as (o & -> & Ho); [lia|]; eexists; split; [done|]; destruct o as [j|]; [|done]; destruct Ho as [Hj Ho]; split; [lia | done]).
Qed.

(** * Handlers *)

Lemma map_first_lookup {A} (f : A -> A) n l i : map_first f n l !! i = (if (i <? n)%nat then f else id) <$> l !! i.
Proof.
  unfold map_first. destruct (Nat.ltb_spec i n).
  - destruct (decide (i < length l)%nat) as [Hl|Hl].
    + rewrite lookup_app_l by (rewrite length_map, length_take; lia). by rewrite list_lookup_fmap, lookup_take_lt.
    + rewrite (lookup_ge_None_2 l) by lia. apply lookup_ge_None_2. rewrite length_app, length_map, length_take, length_drop. lia.
  - destruct (decide (n <= length l)%nat) as [Hl|Hl].
    + rewrite lookup_app_r by (rewrite length_map, length_take; lia). rewrite length_map, length_take, lookup_drop.
      replace (n + (i - n `min` length l))%nat with i by lia. by destruct (l !! i).
    + rewrite (lookup_ge_None_2 l) by lia. apply lookup_ge_None_2. rewrite length_app, length_map, length_take, length_drop. lia.
Qed.
Lemma map_first_length {A} (f : A -> A) n l : length (map_first f n l) = length l.
Proof. unfold map_first. rewrite length_app, length_map, length_take, length_drop. lia. Qed.
Lemma permissions_map n ps f k : permissions_ok n ps -> (forall p, permission_ok p -> permission_ok (f p) /\ permission_key (f p) = permission_key p) ->
  permissions_ok n (map_first f k ps).
Proof.
  intros [[H1 H1'] H2 H3] Hf.
  assert (forall i p, map_first f k ps !! i = Some p -> exists q, ps !! i = Some q /\ permission_ok p /\ permission_key p = permission_key q) as Hat.
  { intros i p. rewrite map_first_lookup. destruct (ps !! i) as [q|] eqn:Hq; [|done]. pose proof (proj1 (Forall_lookup _ _) H2 i q Hq) as Hok. destruct (Hf q Hok).
    intros Hp. exists q. destruct (i <? k)%nat; injection Hp as <-; by split_and!. }
  constructor; [by rewrite map_first_length | |].
  - apply Forall_lookup. intros i p Hp. by destruct (Hat i p Hp) as (q & _ & ? & _).
  - intros i j x y Hi Hj Hx Hy Hk. destruct (Hat i x Hx) as (x' & Hx' & _ & Ex), (Hat j y Hy) as (y' & Hy' & _ & Ey). apply (H3 i j x' y'); try done. congruence.
Qed.
Lemma channels_map n next cs f k : channels_ok n next cs ->
  (forall c, turn_channel_ok c -> turn_channel_ok (f c) /\ channel_key (f c) = channel_key c /\ ch_channel (f c) = ch_channel c) -> channels_ok n next (map_first f k cs).
Proof.
  intros [[H1 H1'] H2 H3 H4 H5] Hf.
  assert (forall i c, map_first f k cs !! i = Some c -> exists d, cs !! i = Some d /\ turn_channel_ok c /\ channel_key c = channel_key d /\ ch_channel c = ch_channel d) as Hat.
  { intros i c. rewrite map_first_lookup. destruct (cs !! i) as [d|] eqn:Hd; [|done]. pose proof (proj1 (Forall_lookup _ _) H3 i d Hd) as Hok. destruct (Hf d Hok) as (? & ? & ?).
    intros Hp. exists d. destruct (i <? k)%nat; injection Hp as <-; by split_and!. }
  constructor; [by rewrite map_first_length | done | | |].
  - apply Forall_lookup. intros i c Hc. by destruct (Hat i c Hc) as (q & _ & ? & _).
  - intros i c Hi Hc. destruct (Hat i c Hc) as (d & Hd & _ & _ & ->). by apply H4.
  - intros i j x y Hi Hj Hx Hy Hk. destruct (Hat i x Hx) as (x' & Hx' & _ & Ex & _), (Hat j y Hy) as (y' & Hy' & _ & Ey & _). apply (H5 i j x' y'); try done. congruence.
Qed.
Lemma reauth_permission_ok p : permission_ok p -> permission_ok (reauth_permission p) /\ permission_key (reauth_permission p) = permission_key p.
Proof. intros (H1 & H2 & H3 & H4 & H5). unfold reauth_permission. destruct (pending (pm_pending p)) eqn:E; [|by rewrite <- E in H5]. by split. Qed.
Lemma reauth_channel_ok c : turn_channel_ok c -> turn_channel_ok (reauth_channel c) /\ channel_key (reauth_channel c) = channel_key c /\ ch_channel (reauth_channel c) = ch_channel c.
Proof. intros (H1 & H2 & H3 & H4 & H5 & H6). unfold reauth_channel. destruct (pending (ch_pending c)) eqn:E; [|by rewrite <- E in H6]. by split_and!. Qed.

(** What [turn_store_nonce] leaves alone. *)
Lemma store_nonce_Ok t nonce : turn_ok t -> bytes nonce ->
  exists t', turn_store_nonce t nonce = Ok t' /\ turn_ok t' /\ tu_permission_count t' = tu_permission_count t /\ tu_channel_count t' = tu_channel_count t /\
    tu_state t' = tu_state t /\ au_key_valid (tu_auth t') = au_key_valid (tu_auth t).
Proof.
  intros Hok Hb. unfold turn_store_nonce. cbv zeta. pose proof (to_auth t Hok) as Ha. pose proof (ao_nonce _ Ha) as Hn.
  destruct (cs_store_Ok (au_nonce (tu_auth t)) NANORTC_TURN_NONCE_SIZE (take (Nat.min (length nonce) (NANORTC_TURN_NONCE_SIZE - 1)) nonce)) as (n & -> & Hn' & _); [done | | by apply Forall_take |].
  { rewrite length_take. unfold NANORTC_TURN_NONCE_SIZE. lia. }
  rewrite bind_Ok. destruct (po_length _ _ (to_permissions t Hok)) as [P1 P2]. destruct (co_length _ _ _ (to_channels t Hok)) as [C1 C2].
  rewrite (proj2 (Nat.ltb_ge _ _)) by lia. rewrite (proj2 (Nat.ltb_ge _ _)) by lia. cbn [orb]. eexists. split; [done|]. split; [|done].
  apply turn_ok_channels; [apply turn_ok_permissions|].
  - apply turn_ok_txn; [apply turn_ok_auth; [done|] |].
    + destruct Ha. by constructor.
    + pose proof (to_txn t Hok) as (T1 & T2). destruct (negb _ && _) eqn:E; [|by split]. split; [done|]. done.
  - apply permissions_map; [apply (to_permissions t Hok) | apply reauth_permission_ok].
  - apply channels_map; [apply (to_channels t Hok) | apply reauth_channel_ok].
Qed.

Lemma stale_nonce_Ok t now msg txid_match authenticated pidx cidx : turn_ok t -> msg_ok msg ->
  (forall i, pidx = Some i -> (i < tu_permission_count t)%nat) -> (forall i, cidx = Some i -> (i < tu_channel_count t)%nat) ->
  (txid_match = true \/ pidx <> None \/ cidx <> None) ->
  exists t' rc, handle_stale_nonce t now msg txid_match authenticated pidx cidx = Ok (t', rc) /\ turn_ok t'.
Proof.
  intros Hok Hm Hpi Hci Hsome. unfold handle_stale_nonce.
  assert (exists x, (if txid_match then Ok (tx_transmissions (tu_txn t)) else match pidx, cidx with
     | Some i, _ => p ← get_permission t i; Ok (pm_transmissions p) | None, Some i => c ← get_turn_channel t i; Ok (ch_transmissions c) | None, None => Fault end) = Ok x) as [tr ->].
  { destruct txid_match; [by eexists|]. destruct pidx as [i|].
    - destruct (permission_at t Hok i) as (p & _ & -> & _); [apply (permission_live t Hok), Hpi; done|]. by eexists.
    - destruct cidx as [i|]; [|destruct Hsome as [|[|]]; done]. destruct (channel_at t Hok i) as (c & _ & -> & _); [apply (channel_live t Hok), Hci; done|]. by eexists. }
  rewrite bind_Ok. destruct (m_nonce msg) as [nonce|] eqn:En; [|eexists _, _; split; [done|]; auto with turn].
  destruct (_ || _); [eexists _, _; split; [done|]; auto with turn|]. assert (bytes nonce) as Hb by (apply (mo_texts _ Hm); tauto).
  destruct (store_nonce_Ok t nonce Hok Hb) as (t1 & -> & Hok1 & Hpc & Hcc & _). rewrite bind_Ok.
  destruct txid_match. { eexists _, _. split; [done|]. apply turn_ok_txn; [done|]. apply (to_txn t1 Hok1). }
  destruct pidx as [i|].
  - destruct (permission_at t1 Hok1 i) as (p & Hp & -> & Hpok); [apply (permission_live t1 Hok1); rewrite Hpc; by apply Hpi|]. rewrite bind_Ok.
    eexists _, _. split; [done|]. by eapply permission_update.
  - destruct cidx as [i|]; [|destruct Hsome as [|[|]]; done].
    destruct (channel_at t1 Hok1 i) as (c & Hc & -> & Hcok); [apply (channel_live t1 Hok1); rewrite Hcc; by apply Hci|]. rewrite bind_Ok.
    eexists _, _. split; [done|]. by eapply channel_update.
Qed.
Lemma permission_refused_ok p deadline terminal : permission_ok p -> permission_ok (permission_refused p deadline terminal).
Proof. intros (H1 & H2 & H3 & _). split_and!; try done; apply H1 || apply sends_zero. Qed.
Lemma channel_answered_ok c deadline bound : turn_channel_ok c -> turn_channel_ok (channel_answered c deadline bound).
Proof. intros (H1 & H2 & H3 & H4 & H5 & _). split; [done|]. by split_and!. Qed.
Lemma permission_error_Ok t now msg i : turn_ok t -> (i < tu_permission_count t)%nat -> exists t' rc, handle_permission_error t now msg i = Ok (t', rc) /\ turn_ok t'.
Proof.
  intros Hok Hi. unfold handle_permission_error. destruct (permission_at t Hok i) as (p & Hp & -> & Hpok); [by apply (permission_live t Hok)|]. rewrite bind_Ok.
  assert (forall d b, turn_ok (set_permission t i (permission_refused p d b))) as Hset by (intros d b; eapply permission_update; [done | done | by apply permission_refused_ok | done]).
  destruct (_ || _); [eexists _, _; split; [done|]; apply Hset|]. destruct (_ =? 508); [eexists _, _; split; [done|]; apply Hset|].
  eexists _, _. split; [done|]. apply turn_ok_state, Hset.
Qed.

Section handlers.
Context (md5 : option (list Z -> list Z)).
Context (md5_law : forall f x, md5 = Some f -> length (f x) = NANORTC_TURN_HMAC_KEY_SIZE /\ bytes (f x)).

Lemma derive_key_Ok t : turn_ok t -> exists t' rc, turn_derive_key md5 t = Ok (t', rc) /\ turn_ok t'.
Proof using md5_law.
  intros Hok. unfold turn_derive_key. destruct md5 as [f|]; [|by eexists _, _]. pose proof (to_auth t Hok) as Ha. pose proof Ha as [Hu [Hk Hkb] Hp Hr Hn].
  rewrite (cs_text_Ok _ _ Hu), (cs_text_Ok _ _ Hr), !bind_Ok. rewrite rdn_Ok, bind_Ok, drop_0 by (rewrite Hk; lia). cbv zeta.
  pose proof (cs_value_length _ _ Hu) as Lu. pose proof (cs_value_length _ _ Hr) as Lr. destruct Hu as (_ & Hul & _), Hr as (_ & Hrl & _).
  rewrite (proj2 (Nat.ltb_ge _ _)). 2: { rewrite !length_app, length_take, Lu, Lr. cbn [length]. lia. }
  set (input := _ ++ _). destruct (md5_law f input eq_refl) as [L B]. rewrite wr_Ok, bind_Ok by (rewrite L, Hk; unfold NANORTC_TURN_HMAC_KEY_SIZE, NANORTC_TURN_PASSWORD_SIZE; lia).
  eexists _, _. split; [done|]. apply turn_ok_auth; [done|]. constructor; try done; [apply (ao_username _ Ha) | | apply (ao_realm _ Ha)].
  cbn [au_auth]. rewrite take_0, app_nil_l, Nat.add_0_l. split; [rewrite length_app, length_drop, L, Hk; reflexivity | apply Forall_app_2; [done | by apply Forall_drop]].
Qed.
Lemma allocate_error_Ok t msg : turn_ok t -> msg_ok msg -> exists t' rc, handle_allocate_error md5 t msg = Ok (t', rc) /\ turn_ok t'.
Proof using md5_law.
  intros Hok Hm. unfold handle_allocate_error. destruct (_ && _); [|eexists _, _; split; [done|]; auto with turn]. cbv zeta.
  destruct (tx_authenticated _); [eexists _, _; split; [done|]; auto with turn|].
  destruct (m_realm msg) as [realm|] eqn:Er; [|eexists _, _; split; [done|]; auto with turn]. destruct (m_nonce msg) as [nonce|] eqn:En; [|eexists _, _; split; [done|]; auto with turn].
  pose proof (turn_ok_clear t Hok) as Hok1. pose proof (to_auth _ Hok1) as Ha. pose proof Ha as [A1 A2 A3 A4 A5].
  destruct (cs_store_Ok (au_realm (tu_auth (turn_clear_transaction t))) NANORTC_TURN_REALM_SIZE (take (Nat.min (length realm) (NANORTC_TURN_REALM_SIZE - 1)) realm)) as (r & -> & Hr & _);
    [done | rewrite length_take; unfold NANORTC_TURN_REALM_SIZE; lia | apply Forall_take, (mo_texts _ Hm); tauto |].
  rewrite bind_Ok. set (t1 := with_auth _ _). assert (turn_ok t1) as Hok2 by (apply turn_ok_auth; [done|]; by constructor).
  destruct (store_nonce_Ok t1 nonce Hok2) as (t2 & -> & Hok3 & _); [apply (mo_texts _ Hm); tauto|]. rewrite bind_Ok.
  destruct (derive_key_Ok t2 Hok3) as (t3 & rc & -> & Hok4). rewrite bind_Ok. destruct (negb _); eexists _, _; (split; [done|]); auto with turn.
Qed.
(** The index a response is dispatched with. *)
Lemma dispatch_Ok t now msg pidx cidx : turn_ok t -> msg_ok msg ->
  (forall i, pidx = Some i -> (i < tu_permission_count t)%nat) -> (forall i, cidx = Some i -> (i < tu_channel_count t)%nat) ->
  (m_type msg = STUN_CREATE_PERMISSION_RESPONSE \/ m_type msg = STUN_CREATE_PERMISSION_ERROR -> pidx <> None) ->
  (m_type msg = STUN_CHANNEL_BIND_RESPONSE \/ m_type msg = STUN_CHANNEL_BIND_ERROR -> cidx <> None) ->
  exists t' rc, turn_dispatch md5 t now msg pidx cidx = Ok (t', rc) /\ turn_ok t'.
Proof using md5_law.
  intros Hok Hm Hpi Hci Hp Hc. unfold turn_dispatch.
  destruct (_ =? STUN_ALLOCATE_RESPONSE). { unfold handle_allocate_response. destruct (_ =? 0); eexists _, _; (split; [done|]); auto 10 with turn. }
  destruct (_ =? STUN_ALLOCATE_ERROR); [by apply allocate_error_Ok|].
  destruct (_ =? STUN_REFRESH_RESPONSE). { eexists _, _. split; [done|]. apply turn_ok_relay. auto with turn. }
  destruct (_ =? STUN_REFRESH_ERROR); [eexists _, _; split; [done|]; auto with turn|].
  destruct (Z.eqb_spec (m_type msg) STUN_CREATE_PERMISSION_RESPONSE) as [Ht|_].
  { destruct pidx as [i|]; [|by destruct Hp; [left|]]. cbn [the_index]. rewrite bind_Ok. destruct (permission_at t Hok i) as (p & Hpe & -> & Hpok); [apply (permission_live t Hok); by apply Hpi|].
    rewrite bind_Ok. eexists _, _. split; [done|]. eapply permission_update; [done | done | | done]. destruct Hpok as (H1 & H2 & H3 & _). split; [done|]. split_and!; try done; apply sends_zero. }
  destruct (Z.eqb_spec (m_type msg) STUN_CREATE_PERMISSION_ERROR) as [Ht|_].
  { destruct pidx as [i|]; [|by destruct Hp; [right|]]. cbn [the_index]. rewrite bind_Ok. apply permission_error_Ok; [done | by apply Hpi]. }
  destruct (Z.eqb_spec (m_type msg) STUN_CHANNEL_BIND_RESPONSE) as [Ht|_].
  { destruct cidx as [i|]; [|by destruct Hc; [left|]]. cbn [the_index]. rewrite bind_Ok. destruct (channel_at t Hok i) as (c & Hce & -> & Hcok); [apply (channel_live t Hok); by apply Hci|].
    rewrite bind_Ok. eexists _, _. split; [done|]. eapply channel_update; [done | done | by apply channel_answered_ok | done..]. }
  destruct (Z.eqb_spec (m_type msg) STUN_CHANNEL_BIND_ERROR) as [Ht|_]; [|by eexists _, _].
  destruct cidx as [i|]; [|by destruct Hc; [right|]]. cbn [the_index]. rewrite bind_Ok. destruct (channel_at t Hok i) as (c & Hce & -> & Hcok); [apply (channel_live t Hok); by apply Hci|].
  rewrite bind_Ok. eexists _, _. split; [done|]. eapply channel_update; [done | done | by apply channel_answered_ok | done..].
Qed.
Context (hmac_sha1 : list Z -> list Z -> list Z).
Lemma if_total {A} (b : bool) (x : res A) (z : A) : (exists y, x = Ok y) -> exists y, (if b then x else Ok z) = Ok y.
Proof. destruct b; [done|]. by exists z. Qed.
Lemma waiting_index_Ok {A} (state : A -> turn_request_state) (id : A -> list Z) txid (b : bool) k l : (k <= length l)%nat ->
  exists o, (if b then find_waiting state id txid k l 0 else Ok None) = Ok o /\ (forall i, o = Some i -> (i < k)%nat) /\ (b = false -> o = None).
Proof.
  intros Hk. destruct b; [|exists None; split_and!; done]. destruct (find_waiting_spec state id txid k l 0 ltac:(lia)) as (o & -> & Ho).
  exists o. split_and!; [done | | done]. intros i ->. destruct Ho. lia.
Qed.
Lemma turn_response_Ok t now data : turn_ok t -> bytes data -> exists t' rc, turn_handle_response hmac_sha1 md5 t now data = Ok (t', rc) /\ turn_ok t'.
Proof using md5_law.
  intros Hok Hb. pose proof (stun_parse_wp data Hb) as Hwp. unfold turn_handle_response. destruct (stun_parse data) as [msg|rc|] eqn:Hparse; [|by eexists _, _ | done].
  cbn [wp] in Hwp. cbv zeta. set (x := tu_txn t). set (txid_match := negb _ && negb (tx_reauth x) && _).
  destruct (txid_match && _) eqn:Hkind; [by eexists _, _|].
  assert (txid_match = true -> m_type msg = STUN_ALLOCATE_RESPONSE \/ m_type msg = STUN_ALLOCATE_ERROR \/ m_type msg = STUN_REFRESH_RESPONSE \/ m_type msg = STUN_REFRESH_ERROR) as Hno.
  { intros Hx. rewrite Hx in Hkind. unfold txid_match in Hx. rewrite andb_true_l, orb_false_iff, !andb_false_iff, !negb_false_iff, !orb_true_iff, !Z.eqb_eq, !bool_decide_eq_false in Hkind.
    destruct (tx_kind x) eqn:Ek; [done | |]; intuition congruence. }
  clear Hkind. destruct (waiting_index_Ok pm_pending pm_txid (m_txid msg) ((m_type msg =? STUN_CREATE_PERMISSION_RESPONSE) || (m_type msg =? STUN_CREATE_PERMISSION_ERROR))
    (tu_permission_count t) (tu_permissions t)) as (pidx & -> & Hpi & Hp0); [destruct (po_length _ _ (to_permissions t Hok)); lia|].
  rewrite bind_Ok. destruct (waiting_index_Ok ch_pending ch_txid (m_txid msg) ((m_type msg =? STUN_CHANNEL_BIND_RESPONSE) || (m_type msg =? STUN_CHANNEL_BIND_ERROR))
    (tu_channel_count t) (tu_channels t)) as (cidx & -> & Hci & Hc0); [destruct (co_length _ _ _ (to_channels t Hok)); lia|].
  rewrite bind_Ok. match goal with |- context [negb txid_match && negb ?p] => set (peer := p) end.
  destruct (negb txid_match && negb peer) eqn:Hmatch; [by eexists _, _|].
  assert (exists rc, (match m_fingerprint msg with None => Ok NANORTC_OK | Some _ => stun_verify_fingerprint data end) = Ok rc) as [rc1 ->].
  { destruct (m_fingerprint msg); [apply verify_fingerprint_total | by eexists]. }
  rewrite bind_Ok. destruct (negb (rc1 =? NANORTC_OK)); [by eexists _, _|].
  rewrite rdn_Ok, bind_Ok by (rewrite (proj1 (ao_auth _ (to_auth t Hok))); unfold NANORTC_TURN_HMAC_KEY_SIZE, NANORTC_TURN_PASSWORD_SIZE; lia).
  match goal with |- context [if ?b then stun_verify_integrity _ _ _ ?k else _] => assert (exists rc, (if b then stun_verify_integrity hmac_sha1 data msg k else Ok NANORTC_OK) = Ok rc) as [rc2 ->] end.
  { apply if_total, verify_integrity_total. }
  rewrite bind_Ok. destruct (negb (rc2 =? NANORTC_OK)); [by eexists _, _|].
  match goal with |- context [if ?b then handle_stale_nonce _ _ _ _ _ _ _ else _] => destruct b end.
  - apply stale_nonce_Ok; [done..|]. unfold peer in Hmatch. destruct txid_match; [by left|]. right. destruct pidx; [by left|]. destruct cidx; [by right | done].
  - apply dispatch_Ok; [done..| |].
    + intros Ht ->. destruct txid_match eqn:Hx; [by destruct (Hno eq_refl) as [E|[E|[E|E]]], Ht as [Ht|Ht]; rewrite E in Ht|]. unfold peer in Hmatch. destruct cidx as [i|]; [|done].
      destruct Ht as [Ht|Ht]; rewrite Ht in Hc0; by specialize (Hc0 eq_refl).
    + intros Ht ->. destruct txid_match eqn:Hx; [by destruct (Hno eq_refl) as [E|[E|[E|E]]], Ht as [Ht|Ht]; rewrite E in Ht|]. unfold peer in Hmatch. destruct pidx as [i|]; [|done].
      destruct Ht as [Ht|Ht]; rewrite Ht in Hp0; by specialize (Hp0 eq_refl).
Qed.
End handlers.

(** * Operations *)

Section operations.
Context (hmac_sha1 : list Z -> list Z -> list Z).
Context (hmac_length : forall k x, length (hmac_sha1 k x) = 20%nat).
Context {R : Type} (random_bytes : R -> nat -> R * option (list Z)).
Context (random_law : forall g n g' x, random_bytes g n = (g', Some x) -> length x = n /\ bytes x).

(** What an operation may leave in the caller's buffer: nothing, or one request
    at its head that fits. *)
Definition wrote (buf buf' : list Z) (n : nat) : Prop :=
  (n = 0%nat /\ buf' = buf) \/ exists msg, fits msg /\ (NANORTC_TURN_MAX_REQUEST_SIZE <= length buf)%nat /\ buf' = msg ++ drop (length msg) buf /\ n = length msg.
Definition op_ok (buf : list Z) (r : res (@outcome R)) : Prop :=
  exists t' g' rc buf' n, r = Ok (t', g', rc, buf', n) /\ turn_ok t' /\ wrote buf buf' n.
Definition scanned_ok (buf : list Z) (r : res (@scanned R)) : Prop :=
  (exists t', r = Ok (Scanned t') /\ turn_ok t') \/ exists o, r = Ok (Sent o) /\ op_ok buf (Ok o).

Lemma op_nothing t g rc buf : turn_ok t -> op_ok buf (Ok (t, g, rc, buf, 0%nat)).
Proof using. intros H. exists t, g, rc, buf, 0%nat. split; [done|]. split; [done | by left]. Qed.
Lemma op_sent t g rc msg buf : turn_ok t -> fits msg -> (NANORTC_TURN_MAX_REQUEST_SIZE <= length buf)%nat ->
  op_ok buf (Ok (t, g, rc, msg ++ drop (length msg) buf, length msg)).
Proof using. intros H Hf Hb. eexists _, _, _, _, _. split; [done|]. split; [done|]. right. by exists msg. Qed.
Lemma built_op msg buf (t : nano_turn) t2 (g : R) : turn_ok t -> turn_ok t2 -> fits msg ->
  op_ok buf (match built msg buf with Fault => Fault | Err rc => Ok (t, g, rc, buf, 0%nat) | Ok (buf, n) => Ok (t2, g, NANORTC_OK, buf, n) end).
Proof using.
  intros H H2 Hf. unfold built. destruct (Nat.ltb_spec (length buf) NANORTC_TURN_MAX_REQUEST_SIZE); [by apply op_nothing | by apply op_sent].
Qed.
Lemma built_scan msg buf (t : nano_turn) t2 (g : R) : turn_ok t -> turn_ok t2 -> fits msg ->
  scanned_ok buf (match built msg buf with Fault => Fault | Err rc => Ok (Sent (t, g, rc, buf, 0%nat)) | Ok (buf, n) => Ok (Sent (t2, g, NANORTC_OK, buf, n)) end).
Proof using.
  intros H H2 Hf. right. unfold built. destruct (Nat.ltb_spec (length buf) NANORTC_TURN_MAX_REQUEST_SIZE); (eexists; split; [done|]); [by apply op_nothing | by apply op_sent].
Qed.

Lemma allocate_fits t authenticated txid : turn_ok t -> length txid = STUN_TXID_SIZE -> fits (allocate_request hmac_sha1 (tu_auth t) authenticated txid).
Proof using hmac_length.
  intros H Ht. unfold allocate_request. destruct authenticated; [apply authenticated_request_fits; first [done | apply (to_auth t H) | vm_compute; lia]|].
  unfold fits, plain_message. rewrite length_app, stun_header_length by done. rewrite max_request_size. change (length (attrs_bytes allocate_attrs)) with 16%nat. unfold STUN_HEADER_SIZE. lia.
Qed.
Lemma refresh_fits t lifetime_s txid : turn_ok t -> length txid = STUN_TXID_SIZE -> fits (authenticated_request hmac_sha1 (tu_auth t) STUN_REFRESH_REQUEST txid (refresh_attrs lifetime_s)).
Proof using hmac_length. intros H Ht. apply authenticated_request_fits; [done | apply (to_auth t H) | done | change (length _) with 8%nat; lia]. Qed.
Lemma permission_fits t addr family port txid : turn_ok t -> length txid = STUN_TXID_SIZE -> length addr = STUN_ADDR_SIZE ->
  fits (authenticated_request hmac_sha1 (tu_auth t) STUN_CREATE_PERMISSION_REQUEST txid (permission_attrs addr family port txid)).
Proof using hmac_length.
  intros H Ht Ha. destruct (permission_attrs_length addr family port txid Ha Ht) as [_ Hn]. apply authenticated_request_fits; [done | apply (to_auth t H) | done | lia].
Qed.
Lemma channel_fits t c txid : turn_ok t -> length txid = STUN_TXID_SIZE -> length (ch_addr c) = STUN_ADDR_SIZE ->
  fits (authenticated_request hmac_sha1 (tu_auth t) STUN_CHANNEL_BIND_REQUEST txid (channel_attrs c txid)).
Proof using hmac_length.
  intros H Ht Ha. destruct (permission_attrs_length (ch_addr c) (ch_family c) (ch_port c) txid Ha Ht) as [_ Hn].
  apply authenticated_request_fits; [done | apply (to_auth t H) | done|]. rewrite channel_attrs_bytes, length_app.
  unfold permission_attrs, attrs_bytes in Hn. cbn [map concat fst snd] in Hn. rewrite app_nil_r in Hn. change (length (attr_bytes STUN_ATTR_CHANNEL_NUMBER _)) with 8%nat. lia.
Qed.

Lemma start_ok t k authenticated txid : turn_ok t -> k <> NANORTC_TURN_TXN_NONE -> length txid = STUN_TXID_SIZE -> turn_ok (turn_start_transaction t k authenticated txid).
Proof using.
  intros H Hk Ht. apply turn_ok_txn; [done|]. split; [done|]. split; cbn; [unfold NANORTC_TURN_MAX_TRANSMISSIONS; lia | lia].
Qed.
Lemma configure_Ok t server_addr family port username password : turn_ok t -> length server_addr = STUN_ADDR_SIZE -> bytes username -> bytes password ->
  exists t' rc, turn_configure t server_addr family port username password = Ok (t', rc) /\ turn_ok t'.
Proof using.
  intros Hok Hs Hu Hp. unfold turn_configure. destruct (Nat.leb_spec NANORTC_TURN_USERNAME_SIZE (length username)); cbn [orb]; [by eexists _, _|].
  destruct (Nat.leb_spec NANORTC_TURN_PASSWORD_SIZE (length password)) as [|Hpl]; [by eexists _, _|].
  rewrite rdn_Ok by (rewrite Hs; lia). rewrite bind_Ok, drop_0. cbv zeta. pose proof (to_auth t Hok) as [A1 [A2 A2'] A3 A4 A5].
  destruct (cs_store_Ok _ _ username A1) as (u & -> & Hu' & _); [done..|]. rewrite bind_Ok. rewrite wr_Ok, bind_Ok by lia. rewrite take_0, app_nil_l, Nat.add_0_l.
  rewrite wr_append by (rewrite ?length_drop; cbn; lia). rewrite bind_Ok. eexists _, _. split; [done|]. destruct Hok. constructor; try done.
  - constructor; try done. cbn [tu_auth au_auth]. split; [rewrite !length_app, !length_drop; cbn [length]; lia|].
    rewrite drop_drop. repeat apply Forall_app_2; [done | by bytes_split | by apply Forall_drop].
  - cbn. by rewrite length_take, Hs.
Qed.
Lemma start_allocate_Ok t g buf : turn_ok t -> op_ok buf (turn_start_allocate hmac_sha1 random_bytes t g buf).
Proof using hmac_length random_law.
  intros Hok. unfold turn_start_allocate. destruct (negb _); [by apply op_nothing|]. destruct (negb _); [by apply op_nothing|].
  destruct (random_bytes g STUN_TXID_SIZE) as [g' [txid|]] eqn:Hr; [|by apply op_nothing]. apply random_law in Hr as [Ht _]. cbv zeta.
  rewrite build_allocate_spec by (done || apply (to_auth t Hok)). apply built_op; [done | | by apply allocate_fits]. by apply turn_ok_state, start_ok.
Qed.
Lemma generate_refresh_Ok t g now buf : turn_ok t -> op_ok buf (turn_generate_refresh hmac_sha1 random_bytes t g now buf).
Proof using hmac_length random_law.
  intros Hok. unfold turn_generate_refresh. cbv zeta. do 2 (destruct (negb _); [by apply op_nothing|]). destruct (_ && _); [by apply op_nothing|].
  destruct (random_bytes g STUN_TXID_SIZE) as [g' [txid|]] eqn:Hr; [|by apply op_nothing]. apply random_law in Hr as [Ht _].
  rewrite build_refresh_spec by (done || apply (to_auth t Hok)). apply built_op; [done | by apply start_ok | by apply refresh_fits].
Qed.
Lemma deallocate_Ok t g buf : turn_ok t -> op_ok buf (turn_deallocate hmac_sha1 random_bytes t g buf).
Proof using hmac_length random_law.
  intros Hok. unfold turn_deallocate. destruct (_ || _); [by apply op_nothing|]. destruct (_ <? _)%nat; [by apply op_nothing|].
  destruct (random_bytes g STUN_TXID_SIZE) as [g' [txid|]] eqn:Hr; [|by apply op_nothing]. apply random_law in Hr as [Ht _]. cbv zeta.
  rewrite build_refresh_spec by (done || apply (to_auth t Hok)). apply built_op; [done | | by apply refresh_fits].
  apply turn_ok_reset, turn_ok_relay. auto with turn.
Qed.
Lemma create_permission_Ok t g addr family port buf : turn_ok t -> peer_ok addr port ->
  op_ok buf (turn_create_permission hmac_sha1 random_bytes t g addr family port buf).
Proof using hmac_length random_law.
  intros Hok (Ha & Hab & Hpu). unfold turn_create_permission. destruct (_ || _); [by apply op_nothing|]. destruct (Nat.ltb_spec (length buf) NANORTC_TURN_MAX_REQUEST_SIZE) as [|Hbuf]; [by apply op_nothing|].
  destruct (to_permissions t Hok) as [[L1 L2] He Hd]. unfold turn_find_permission.
  destruct (find_permission_spec addr family (tu_permission_count t) (tu_permissions t) 0) as (o & -> & Ho); [lia | done | done|]. rewrite bind_Ok. cbv zeta.
  destruct o as [i|]; cbn [andb negb].
  - destruct Ho as [Hi (p & Hp & Hk)]. destruct (permission_at t Hok i) as (p' & Hp' & -> & Hpok); [lia|]. rewrite bind_Ok.
    rewrite Hp in Hp'. injection Hp' as <-. destruct (_ || _); [by apply op_nothing|].
    destruct (random_bytes g STUN_TXID_SIZE) as [g' [txid|]] eqn:Hr; [|by apply op_nothing]. apply random_law in Hr as [Ht _].
    rewrite build_permission_spec by (done || apply (to_auth t Hok)). unfold built. rewrite (proj2 (Nat.ltb_ge _ _) Hbuf), bind_Ok. apply op_sent; [| by apply permission_fits | done].
    eapply permission_update; [done | done | | done]. destruct Hpok as (P1 & P2 & P3 & P4). split_and!; first [done | apply sends_one].
  - destruct (Nat.ltb_spec (tu_permission_count t) NANORTC_TURN_MAX_PERMISSIONS) as [Hlt|]; cbn [negb]; [|by apply op_nothing].
    destruct (permission_at t Hok (tu_permission_count t) Hlt) as (p & Hp & -> & Hpok). rewrite bind_Ok.
    destruct (random_bytes g STUN_TXID_SIZE) as [g' [txid|]] eqn:Hr; [|by apply op_nothing]. apply random_law in Hr as [Ht _].
    rewrite build_permission_spec by (done || apply (to_auth t Hok)). unfold built. rewrite (proj2 (Nat.ltb_ge _ _) Hbuf), rdn_Ok, drop_0 by lia. rewrite bind_Ok. apply op_sent; [| by apply permission_fits | done].
    rewrite take_ge by lia. apply turn_ok_permissions; [done|]. apply permissions_new; [apply (to_permissions t Hok) | done | |].
    + split_and!; first [done | apply sends_one].
    + intros j q Hj Hq. apply (Ho j q); [lia | done].
Qed.
Lemma channel_bind_Ok t g addr family port buf : turn_ok t -> peer_ok addr port ->
  op_ok buf (turn_channel_bind hmac_sha1 random_bytes t g addr family port buf).
Proof using hmac_length random_law.
  intros Hok (Ha & Hab & Hpu). unfold turn_channel_bind. destruct (_ || _); [by apply op_nothing|].
  destruct (Nat.ltb_spec (length buf) NANORTC_TURN_MAX_REQUEST_SIZE) as [|Hbuf]; [by apply op_nothing|].
  destruct (to_channels t Hok) as [[L1 L2] Hnext He Hnum Hd]. unfold turn_find_channel.
  destruct (find_channel_spec (fun _ => true) addr family port (tu_channel_count t) (tu_channels t) 0) as (o & -> & Ho); [lia | done | done|]. rewrite bind_Ok. cbv zeta.
  destruct o as [i|]; cbn [andb negb].
  - destruct Ho as [Hi (c & Hc & _ & Hk)]. destruct (channel_at t Hok i) as (c' & Hc' & -> & Hcok); [lia|]. rewrite bind_Ok.
    rewrite Hc in Hc'. injection Hc' as <-. destruct (pending _); [by apply op_nothing|].
    destruct (random_bytes g STUN_TXID_SIZE) as [g' [txid|]] eqn:Hr; [|by apply op_nothing]. apply random_law in Hr as [Ht _]. rewrite bind_Ok.
    set (c1 := Channel _ _ _ _ _ _ _ _ _). destruct Hcok as ((C1 & C1') & C2 & C3 & C4 & C5). unfold channel_key in Hk.
    assert (turn_ok (set_turn_channel t i c1)) as Hok1.
    { eapply channel_update; [done | done | | | done]; [split_and!; done | unfold channel_key; cbn; congruence]. }
    rewrite (build_channel_bind_spec _ hmac_length _ i c1) by first [done | apply (to_auth t Hok) | cbn; apply list_lookup_insert_eq; lia].
    unfold built. rewrite (proj2 (Nat.ltb_ge _ _) Hbuf). apply op_sent; [| by apply channel_fits | done].
    eapply channel_update; [exact Hok1 | cbn; apply list_lookup_insert_eq; lia | | | done]; [|done]. split_and!; first [done | apply sends_one].
  - destruct (Nat.leb_spec NANORTC_TURN_MAX_CHANNELS (tu_channel_count t)) as [|Hlt]; cbn [orb]; [by apply op_nothing|]. destruct (_ <? _); [by apply op_nothing|].
    destruct (channel_at t Hok (tu_channel_count t) Hlt) as (c & Hc & -> & Hcok). rewrite bind_Ok.
    destruct (random_bytes g STUN_TXID_SIZE) as [g' [txid|]] eqn:Hr; [|by apply op_nothing]. apply random_law in Hr as [Ht _]. rewrite rdn_Ok, drop_0 by lia. rewrite bind_Ok, (take_ge addr) by lia.
    set (c1 := Channel _ _ _ _ _ _ _ _ _). destruct Hcok as ((C1 & C1') & C2 & C3 & C4 & C5).
    assert (turn_ok (with_channels t (S (tu_channel_count t)) (u16 (tu_next_channel t + 1)) (<[tu_channel_count t:=c1]> (tu_channels t)))) as Hok1.
    { apply turn_ok_channels; [done|]. apply channels_new; [apply (to_channels t Hok) | done | | done |].
      - split_and!; try done. cbn. rewrite Hnext. unfold NANORTC_TURN_MAX_CHANNELS in L2. unfold is_u16. lia.
      - intros j d Hj Hd'. by apply (Ho j d); [lia | done |]. }
    rewrite (build_channel_bind_spec _ hmac_length _ (tu_channel_count t) c1) by first [done | apply (to_auth t Hok) | cbn; apply list_lookup_insert_eq; lia].
    unfold built. rewrite (proj2 (Nat.ltb_ge _ _) Hbuf). apply op_sent; [| by apply channel_fits | done].
    eapply channel_update; [exact Hok1 | cbn; apply list_lookup_insert_eq; lia | | | done]; [|done]. pose proof (to_channels _ Hok1) as [_ _ He1 _ _].
    destruct (proj1 (Forall_lookup _ _) He1 (tu_channel_count t) c1) as (D1 & D2 & D3 & D4 & D5); [cbn; apply list_lookup_insert_eq; lia|].
    split_and!; first [done | apply sends_one].
Qed.
Ltac scan_if := match goal with |- scanned_ok _ (if ?b then _ else _) => destruct b | |- op_ok _ (if ?b then _ else _) => destruct b end.

(** One more transmission of a request sent fewer than seven times. *)
Lemma sends_more b n : sends_ok b n -> n < NANORTC_TURN_MAX_TRANSMISSIONS -> sends_ok true (u8 (n + 1)).
Proof using. unfold sends_ok, NANORTC_TURN_MAX_TRANSMISSIONS. intros [H _] Hn. rewrite u8_id by (unfold is_u8; lia). split; lia. Qed.
Lemma retransmit_txid_law g reauth txid g' x : length txid = STUN_TXID_SIZE -> retransmit_txid random_bytes g reauth txid = (g', Some x) -> length x = STUN_TXID_SIZE.
Proof using random_law. unfold retransmit_txid. destruct reauth; [intros _ H; apply (random_law _ _ _ _ H) | by intros ? [= <- <-]]. Qed.
Lemma scan_nothing t g rc buf : turn_ok t -> scanned_ok buf (Ok (Sent (t, g, rc, buf, 0%nat))).
Proof using. intros H. right. eexists. split; [done|]. by apply op_nothing. Qed.
Lemma scan_end t buf : turn_ok t -> scanned_ok buf (Ok (Scanned t)).
Proof using. intros H. left. by eexists. Qed.
Lemma retransmit_transaction_Ok t g now buf : turn_ok t -> scanned_ok buf (retransmit_transaction hmac_sha1 random_bytes t g now buf).
Proof using hmac_length random_law.
  intros Hok. unfold retransmit_transaction. cbv zeta. destruct (bool_decide_reflect (tx_kind (tu_txn t) = NANORTC_TURN_TXN_NONE)) as [|Hk]; [by apply scan_end|].
  destruct (to_txn t Hok) as (Ht & Hs). scan_if. { apply scan_end, turn_ok_txn; [done|]. by split. }
  scan_if; [by apply scan_end|]. destruct (Z.leb_spec NANORTC_TURN_MAX_TRANSMISSIONS (tx_transmissions (tu_txn t))) as [|Hn]; [apply scan_nothing; auto with turn|].
  destruct (retransmit_txid _ _ _ _) as [g' [txid|]] eqn:Hr; [|by apply scan_nothing]. apply retransmit_txid_law in Hr; [|done].
  assert (turn_ok (with_txn t (Txn (tx_kind (tu_txn t)) (tx_authenticated (tu_txn t)) (u8 (tx_transmissions (tu_txn t) + 1)) false
                       (nano_time_deadline now (turn_retry_delay_ms (u8 (tx_transmissions (tu_txn t) + 1)))) txid))) as Hok'.
  { apply turn_ok_txn; [done|]. split; [done|]. cbn [tx_kind tx_transmissions]. rewrite bool_decide_eq_false_2 by done. by eapply sends_more. }
  match goal with |- context [if ?b then turn_build_allocate _ _ _ _ _ else _] => destruct b end.
  - rewrite build_allocate_spec by (done || apply (to_auth t Hok)). apply built_scan; [done.. | by apply allocate_fits].
  - rewrite build_refresh_spec by (done || apply (to_auth t Hok)). apply built_scan; [done.. | by apply refresh_fits].
Qed.
Lemma retransmit_permissions_Ok g now buf k : forall t i, turn_ok t -> (i + k <= tu_permission_count t)%nat ->
  scanned_ok buf (retransmit_permissions hmac_sha1 random_bytes k t g i now buf).
Proof using hmac_length random_law.
  induction k as [|k IH]; intros t i Hok Hi; cbn [retransmit_permissions]; [by apply scan_end|].
  destruct (permission_at t Hok i) as (p & Hp & -> & Hpok); [apply (permission_live t Hok); lia|]. rewrite bind_Ok. cbv zeta.
  destruct (negb (pending (pm_pending p))) eqn:Hpend; [apply IH; [done | lia]|]. pose proof Hpok as (P1 & P2 & P3 & P4). apply negb_false_iff in Hpend.
  scan_if. { apply IH; [|cbn; lia]. by eapply permission_update. }
  scan_if; [apply IH; [done | lia]|].
  destruct (Z.leb_spec NANORTC_TURN_MAX_TRANSMISSIONS (pm_transmissions p)) as [|Hn].
  { apply IH; [|cbn; lia]. eapply permission_update; [done | done | by apply permission_refused_ok | done]. }
  destruct (retransmit_txid _ _ _ _) as [g' [txid|]] eqn:Hr; [|by apply scan_nothing]. apply retransmit_txid_law in Hr; [|done].
  rewrite build_permission_spec by first [done | apply (to_auth t Hok) | apply P1]. apply built_scan; [done | | apply permission_fits; [done.. | apply P1]].
  eapply permission_update; [done | done | | done]. split; [done|]. split; [done|]. split; [done|]. cbn [pm_pending pm_transmissions pending]. by eapply sends_more.
Qed.
Lemma retransmit_channels_Ok g now buf k : forall t i, turn_ok t -> (i + k <= tu_channel_count t)%nat ->
  scanned_ok buf (retransmit_channels hmac_sha1 random_bytes k t g i now buf).
Proof using hmac_length random_law.
  induction k as [|k IH]; intros t i Hok Hi; cbn [retransmit_channels]; [by apply scan_end|].
  destruct (channel_at t Hok i) as (c & Hc & -> & Hcok); [apply (channel_live t Hok); lia|]. rewrite bind_Ok. cbv zeta.
  destruct (negb (pending (ch_pending c))) eqn:Hpend; [apply IH; [done | lia]|]. pose proof Hcok as (C1 & C2 & C3 & C4 & C5). apply negb_false_iff in Hpend.
  scan_if. { apply IH; [|cbn; lia]. by eapply channel_update. }
  scan_if; [apply IH; [done | lia]|].
  destruct (Z.leb_spec NANORTC_TURN_MAX_TRANSMISSIONS (ch_transmissions c)) as [|Hn].
  { apply IH; [|cbn; lia]. eapply channel_update; [done | done | by apply channel_answered_ok | done..]. }
  destruct (retransmit_txid _ _ _ _) as [g' [txid|]] eqn:Hr; [|by apply scan_nothing]. apply retransmit_txid_law in Hr; [|done].
  rewrite (build_channel_bind_spec _ hmac_length t i c) by first [done | apply (to_auth t Hok) | apply C1]. apply built_scan; [done | | apply channel_fits; [done.. | apply C1]].
  eapply channel_update; [done | done | | done..]. split; [done|]. split; [done|]. split; [done|]. split; [done|]. cbn [ch_pending ch_transmissions pending]. by eapply sends_more.
Qed.
Lemma generate_retransmit_Ok t g now buf : turn_ok t -> op_ok buf (turn_generate_retransmit hmac_sha1 random_bytes t g now buf).
Proof using hmac_length random_law.
  intros Hok. unfold turn_generate_retransmit.
  destruct (retransmit_transaction_Ok t g now buf Hok) as [(t1 & -> & Hok1)|(o & -> & Ho)]; rewrite bind_Ok; [|done].
  destruct (retransmit_permissions_Ok g now buf (tu_permission_count t1) t1 0 Hok1 (le_n _)) as [(t2 & -> & Hok2)|(o & -> & Ho)]; rewrite bind_Ok; [|done].
  destruct (retransmit_channels_Ok g now buf (tu_channel_count t2) t2 0 Hok2 (le_n _)) as [(t3 & -> & Hok3)|(o & -> & Ho)]; rewrite bind_Ok; [|done].
  by apply op_nothing.
Qed.

Lemma consider_each_Ok {A} (f : turn_work -> A -> nat -> turn_work) (P : turn_work -> Prop) k l : forall i w, (i + k <= length l)%nat -> P w ->
  (forall w x j, (j < i + k)%nat -> P w -> P (f w x j)) -> exists w', consider_each f k l i w = Ok w' /\ P w'.
Proof using.
  induction k as [|k IH]; intros i w Hl Hw Hf; cbn [consider_each]; [by eexists|]. destruct (lookup_lt_is_Some_2 l i) as [x Hx]; [lia|]. rewrite Hx.
  apply IH; [lia | apply Hf; [lia | done] |]. intros w' y j Hj. apply Hf. lia.
Qed.
(** The work chosen names a live entry of its table. *)
Definition work_ok (t : nano_turn) (w : turn_work) : Prop :=
  match wk_type w with
  | TURN_WORK_PERMISSION => (wk_index w < tu_permission_count t)%nat
  | TURN_WORK_CHANNEL => (wk_index w < tu_channel_count t)%nat
  | _ => True
  end.
Lemma consider_ok t w ty i deadline now : work_ok t w -> work_ok t (Work ty 0 i) -> work_ok t (turn_consider_work w ty i deadline now).
Proof using. intros Hw Hn. unfold turn_consider_work. cbv zeta. by destruct (_ <? wk_delay_ms w). Qed.
Lemma next_work_Ok t now : turn_ok t -> exists w, turn_next_work t now = Ok w /\ work_ok t w.
Proof using.
  intros Hok. unfold turn_next_work. cbv zeta. destruct (_ || _); [by eexists|]. set (idle := bool_decide (tx_kind _ = _)).
  set (w0 := if negb idle then _ else _). assert (work_ok t w0) as Hw0.
  { unfold w0. destruct (negb idle); [by apply consider_ok|]. destruct (_ || _); [by apply consider_ok | done]. }
  clearbody w0. destruct (negb (bool_decide _)); [by eexists|].
  destruct (to_permissions t Hok) as [[L1 L2] _ _], (to_channels t Hok) as [[M1 M2] _ _ _ _].
  edestruct (@consider_each_Ok turn_permission) as (w1 & E1 & H1); [| exact Hw0 | | setoid_rewrite E1]; [lia | |].
  { intros w x j Hj Hw. cbv beta. destruct (pending _); [by apply consider_ok | done]. }
  rewrite bind_Ok. edestruct (@consider_each_Ok turn_channel) as (w2 & E2 & H2); [| exact H1 | | setoid_rewrite E2]; [lia | |].
  { intros w x j Hj Hw. cbv beta. destruct (pending _); [by apply consider_ok | done]. }
  rewrite bind_Ok. set (w3 := if idle then _ else _). assert (work_ok t w3) as H3 by (unfold w3; destruct idle; [by apply consider_ok | done]). clearbody w3.
  edestruct (@consider_each_Ok turn_permission) as (w4 & E4 & H4); [| exact H3 | | setoid_rewrite E4]; [lia | |].
  { intros w x j Hj Hw. cbv beta. destruct (_ && _); [by apply consider_ok | done]. }
  rewrite bind_Ok. edestruct (@consider_each_Ok turn_channel) as (w5 & E5 & H5); [| exact H4 | | setoid_rewrite E5]; [lia | | by eexists].
  intros w x j Hj Hw. cbv beta. destruct (_ && _); [by apply consider_ok | done].
Qed.
Lemma do_work_Ok t g now buf w : turn_ok t -> work_ok t w -> op_ok buf (turn_do_work hmac_sha1 random_bytes t g now buf w).
Proof using hmac_length random_law.
  intros Hok Hw. unfold turn_do_work, work_ok in *. destruct (wk_type w); try by apply op_nothing.
  - by apply start_allocate_Ok.
  - by apply generate_refresh_Ok.
  - destruct (permission_at t Hok (wk_index w)) as (p & _ & -> & (P1 & _ & P3 & _)); [by apply (permission_live t Hok)|]. rewrite bind_Ok.
    apply create_permission_Ok; [done|]. split; [apply P1|]. split; [apply P1 | done].
  - destruct (channel_at t Hok (wk_index w)) as (c & _ & -> & (C1 & _ & C3 & _)); [by apply (channel_live t Hok)|]. rewrite bind_Ok.
    apply channel_bind_Ok; [done|]. split; [apply C1|]. split; [apply C1 | done].
Qed.
Lemma poll_output_Ok t g now buf : turn_ok t -> op_ok buf (turn_poll_output hmac_sha1 random_bytes t g now buf).
Proof using hmac_length random_law.
  intros Hok. unfold turn_poll_output. destruct (next_work_Ok t now Hok) as (w & -> & Hw). rewrite bind_Ok.
  destruct (negb _); [by apply op_nothing|]. destruct (bool_decide _); [|by apply do_work_Ok].
  destruct (generate_retransmit_Ok t g now buf Hok) as (t1 & g1 & rc & buf1 & n & -> & Hok1 & Hwr). rewrite bind_Ok. cbv beta iota.
  destruct (_ || _) eqn:E; [by exists t1, g1, rc, buf1, n|]. apply orb_false_iff in E as [_ E]. apply negb_false_iff, Nat.eqb_eq in E as ->.
  destruct Hwr as [[_ ->]|(msg & _ & _ & -> & Hm)]; cycle 1. { destruct msg; [|done]. cbn. rewrite drop_0. destruct (next_work_Ok t1 now Hok1) as (w1 & -> & Hw1). rewrite bind_Ok.
    destruct (negb _); [by apply op_nothing | by apply do_work_Ok]. }
  destruct (next_work_Ok t1 now Hok1) as (w1 & -> & Hw1). rewrite bind_Ok. destruct (negb _); [by apply op_nothing | by apply do_work_Ok].
Qed.
End operations.

(** * Histories *)

(** What the caller does: the buffers are the caller's own. *)
Inductive turn_event : Type :=
| Configure (server_addr : list Z) (family port : Z) (username password : list Z)
| StartAllocate (buf : list Z)
| Response (now_ms : Z) (data : list Z)
| Poll (now_ms : Z) (buf : list Z)
| Refresh (now_ms : Z) (buf : list Z)
| Retransmit (now_ms : Z) (buf : list Z)
| Deallocate (buf : list Z)
| CreatePermission (addr : list Z) (family port : Z) (buf : list Z)
| ChannelBind (addr : list Z) (family port : Z) (buf : list Z).
Definition event_ok (e : turn_event) : Prop :=
  match e with
  | Configure addr _ _ username password => length addr = STUN_ADDR_SIZE /\ bytes username /\ bytes password
  | Response _ data => bytes data
  | CreatePermission addr _ port _ | ChannelBind addr _ port _ => peer_ok addr port
  | _ => True
  end.

Section histories.
Context (hmac_sha1 : list Z -> list Z -> list Z).
Context (hmac_length : forall k x, length (hmac_sha1 k x) = 20%nat).
Context (md5 : option (list Z -> list Z)).
Context (md5_law : forall f x, md5 = Some f -> length (f x) = NANORTC_TURN_HMAC_KEY_SIZE /\ bytes (f x)).
Context {R : Type} (random_bytes : R -> nat -> R * option (list Z)).
Context (random_law : forall g n g' x, random_bytes g n = (g', Some x) -> length x = n /\ bytes x).

(** The client, the provider and the request written, after one event. *)
Definition turn_step (t : nano_turn) (g : R) (e : turn_event) : res (nano_turn * R * list Z) :=
  let sends (r : res outcome) := '(t, g, rc, buf, n) ← r; sent ← rdn buf 0 n; Ok (t, g, sent) in
  match e with
  | Configure addr family port username password => '(t, rc) ← turn_configure t addr family port username password; Ok (t, g, [])
  | Response now_ms data => '(t, rc) ← turn_handle_response hmac_sha1 md5 t now_ms data; Ok (t, g, [])
  | StartAllocate buf => sends (turn_start_allocate hmac_sha1 random_bytes t g buf)
  | Poll now_ms buf => sends (turn_poll_output hmac_sha1 random_bytes t g now_ms buf)
  | Refresh now_ms buf => sends (turn_generate_refresh hmac_sha1 random_bytes t g now_ms buf)
  | Retransmit now_ms buf => sends (turn_generate_retransmit hmac_sha1 random_bytes t g now_ms buf)
  | Deallocate buf => sends (turn_deallocate hmac_sha1 random_bytes t g buf)
  | CreatePermission addr family port buf => sends (turn_create_permission hmac_sha1 random_bytes t g addr family port buf)
  | ChannelBind addr family port buf => sends (turn_channel_bind hmac_sha1 random_bytes t g addr family port buf)
  end.
Fixpoint turn_run (t : nano_turn) (g : R) (es : list turn_event) : res (nano_turn * R * list (list Z)) :=
  match es with
  | [] => Ok (t, g, [])
  | e :: es => '(t, g, sent) ← turn_step t g e; '(t, g, rest) ← turn_run t g es; Ok (t, g, sent :: rest)
  end.
Lemma sends_step buf (r : res (@outcome R)) : op_ok buf r ->
  exists t' g' sent, ('(t, g, rc, buf, n) ← r; sent ← rdn buf 0 n; Ok (t, g, sent)) = Ok (t', g', sent) /\ turn_ok t' /\ fits sent.
Proof using.
  intros (t' & g' & rc & buf' & n & -> & Hok & Hw). rewrite bind_Ok. cbv beta iota. destruct Hw as [[-> ->]|(msg & Hf & _ & -> & ->)].
  - rewrite rdn_Ok, bind_Ok by lia. eexists _, _, _. split; [done|]. split; [done|]. rewrite take_0. unfold fits. cbn. lia.
  - rewrite rdn_front, bind_Ok by done. by eexists _, _, _.
Qed.
Lemma step_Ok t g e : turn_ok t -> event_ok e -> exists t' g' sent, turn_step t g e = Ok (t', g', sent) /\ turn_ok t' /\ fits sent.
Proof using hmac_length md5_law random_law.
  intros Hok He. assert (fits []) as Hf by (unfold fits; cbn; lia). destruct e; cbn [turn_step event_ok] in *.
  - destruct He as (? & ? & ?). destruct (configure_Ok t server_addr family port username password) as (t' & rc & -> & Hok'); [done..|]. rewrite bind_Ok. by eexists _, _, _.
  - by eapply sends_step, start_allocate_Ok.
  - destruct (turn_response_Ok md5 md5_law hmac_sha1 t now_ms data) as (t' & rc & -> & Hok'); [done..|]. rewrite bind_Ok. by eexists _, _, _.
  - by eapply sends_step, poll_output_Ok.
  - by eapply sends_step, generate_refresh_Ok.
  - by eapply sends_step, generate_retransmit_Ok.
  - by eapply sends_step, deallocate_Ok.
  - by eapply sends_step, create_permission_Ok.
  - by eapply sends_step, channel_bind_Ok.
Qed.
Lemma run_Ok es : forall t g, turn_ok t -> Forall event_ok es -> exists t' g' sent, turn_run t g es = Ok (t', g', sent) /\ turn_ok t' /\ Forall fits sent.
Proof using hmac_length md5_law random_law.
  induction es as [|e es IH]; intros t g Hok Hes; cbn [turn_run]; [by eexists _, _, _|]. apply Forall_cons_iff in Hes as [He Hes].
  destruct (step_Ok t g e Hok He) as (t1 & g1 & sent & -> & Hok1 & Hs). rewrite bind_Ok. cbv beta iota.
  destruct (IH t1 g1 Hok1 Hes) as (t2 & g2 & rest & -> & Hok2 & Hr). rewrite bind_Ok. cbv beta iota. eexists _, _, _. split; [done|]. split; [done | by constructor].
Qed.
End histories.

(** C13: over every sequence of calls and datagrams from [turn_init], the TURN
    client never reads or writes outside its buffers, every request it writes
    fits [NANORTC_TURN_MAX_REQUEST_SIZE], its texts stay shorter than their
    buffers, no two permissions name the same peer address and no two channels
    the same peer, channel [i] has number [0x4000 + i], and a request waiting
    has been sent between one and [NANORTC_TURN_MAX_TRANSMISSIONS] times. *)
Theorem turn_history hmac_sha1 md5 R (random_bytes : R -> nat -> R * option (list Z)) g es
  (Hmac : forall k x, length (hmac_sha1 k x) = 20%nat)
  (Hmd5 : forall f x, md5 = Some f -> length (f x) = NANORTC_TURN_HMAC_KEY_SIZE /\ bytes (f x))
  (Hrandom : forall g n g' x, random_bytes g n = (g', Some x) -> length x = n /\ bytes x)
  (Hevents : Forall event_ok es) :
  exists t g' sent, turn_run hmac_sha1 md5 random_bytes turn_init g es = Ok (t, g', sent) /\ Forall fits sent /\ turn_ok t.
Proof.
  destruct (run_Ok hmac_sha1 Hmac md5 Hmd5 random_bytes Hrandom es turn_init g turn_init_ok Hevents) as (t & g' & sent & Hrun & Hok & Hs). by exists t, g', sent.
Qed.

(** A provider for concrete runs: a serial number as randomness, a sum as
    digest. *)
Definition serial (g : nat) (n : nat) : nat * option (list Z) := (S g, Some (replicate n (Z.of_nat g mod 256))).
Lemma serial_law g n g' bs : serial g n = (g', Some bs) -> length bs = n /\ bytes bs.
Proof.
  unfold serial. intros [= <- <-]. split; [apply length_replicate|]. apply Forall_replicate. pose proof (Z.mod_pos_bound (Z.of_nat g) 256). unfold is_u8. lia.
Qed.
Definition toy_md5 (x : list Z) : list Z := replicate 16 (u8 (foldr Z.add 0 x)).
Lemma toy_md5_law f x : Some toy_md5 = Some f -> length (f x) = NANORTC_TURN_HMAC_KEY_SIZE /\ bytes (f x).
Proof. intros [= <-]. split; [done|]. apply Forall_replicate, u8_range. Qed.
(** A server's answers to the client's requests, whose transaction ids are the
    serial numbers. *)
Definition demo_txid (g : nat) : list Z := replicate STUN_TXID_SIZE (Z.of_nat g mod 256).
Definition demo_user : list Z := [117; 115; 101; 114].
Definition demo_password : list Z := [112; 119].
Definition demo_realm : list Z := [114].
Definition demo_nonce : list Z := [110; 49].
Definition demo_key : list Z := toy_md5 (demo_user ++ [58] ++ demo_realm ++ [58] ++ demo_password).
Definition challenge_401 (txid : list Z) : list Z :=
  plain_message STUN_ALLOCATE_ERROR txid [(STUN_ATTR_ERROR_CODE, [0; 0; 4; 1]); (STUN_ATTR_REALM, demo_realm); (STUN_ATTR_NONCE, demo_nonce)].
Definition granted (type : Z) (txid : list Z) (avs : list (Z * list Z)) : list Z := mac_message toy_mac type txid demo_key avs.
Definition demo_relayed : list Z := [203; 0; 113; 5] ++ replicate 12 0.
Definition demo_peer : list Z := [192; 0; 2; 33] ++ replicate 12 0.
Definition demo_server : list Z := [198; 51; 100; 1] ++ replicate 12 0.
Definition demo_buf : list Z := replicate 400 0.
Definition turn_demo_events : list turn_event :=
  [ Configure demo_server 4 3478 demo_user demo_password; Poll 10 demo_buf; Response 20 (challenge_401 (demo_txid 1)); Poll 30 demo_buf;
    Response 40 (granted STUN_ALLOCATE_RESPONSE (demo_txid 2)
      [(STUN_ATTR_XOR_RELAYED_ADDRESS, xor_value (demo_txid 2) demo_relayed STUN_FAMILY_IPV4 49152); (STUN_ATTR_LIFETIME, be32 600)]);
    CreatePermission demo_peer 4 5000 demo_buf; Response 60 (granted STUN_CREATE_PERMISSION_RESPONSE (demo_txid 3) []);
    ChannelBind demo_peer 4 5000 demo_buf; Response 80 (granted STUN_CHANNEL_BIND_RESPONSE (demo_txid 4) []) ].
Lemma demo_events_ok : Forall event_ok turn_demo_events.
Proof.
  assert (forall l, bool_decide (bytes l) = true -> bytes l) as Hb by (intros l Hl; by apply bool_decide_eq_true in Hl).
  repeat (apply List.Forall_cons; [first [done | apply Hb; vm_compute; reflexivity | split_and!; first [done | apply Hb; vm_compute; reflexivity]]|]). done.
Qed.
Lemma turn_history_witness : exists t g' sent, turn_run toy_mac (Some toy_md5) serial turn_init 1%nat turn_demo_events = Ok (t, g', sent) /\ Forall fits sent /\ turn_ok t.
Proof. exact (turn_history toy_mac (Some toy_md5) nat serial 1%nat turn_demo_events toy_mac_length toy_md5_law serial_law demo_events_ok). Defined.

(** * Only answers count *)

(** The response answers a request in flight: the transaction, or a permission
    or a channel that waits under its transaction id. *)
Inductive in_flight (t : nano_turn) (msg : stun_msg) : Prop :=
| FlightTransaction : m_txid msg = tx_last_txid (tu_txn t) -> tx_reauth (tu_txn t) = false ->
    (tx_kind (tu_txn t) = NANORTC_TURN_TXN_ALLOCATE /\ (m_type msg = STUN_ALLOCATE_RESPONSE \/ m_type msg = STUN_ALLOCATE_ERROR) \/
     tx_kind (tu_txn t) = NANORTC_TURN_TXN_REFRESH /\ (m_type msg = STUN_REFRESH_RESPONSE \/ m_type msg = STUN_REFRESH_ERROR)) -> in_flight t msg
| FlightPermission i p : tu_permissions t !! i = Some p -> (i < tu_permission_count t)%nat -> pm_pending p = NANORTC_TURN_REQUEST_WAITING -> pm_txid p = m_txid msg ->
    m_type msg = STUN_CREATE_PERMISSION_RESPONSE \/ m_type msg = STUN_CREATE_PERMISSION_ERROR -> in_flight t msg
| FlightChannel i c : tu_channels t !! i = Some c -> (i < tu_channel_count t)%nat -> ch_pending c = NANORTC_TURN_REQUEST_WAITING -> ch_txid c = m_txid msg ->
    m_type msg = STUN_CHANNEL_BIND_RESPONSE \/ m_type msg = STUN_CHANNEL_BIND_ERROR -> in_flight t msg.
(** Why it is believed: it verifies under the client's key, or it is a challenge
    without MESSAGE-INTEGRITY, or it answers the first Allocate, which carries
    no credentials. *)
Definition believed (hmac_sha1 : list Z -> list Z -> list Z) (t : nano_turn) (data : list Z) (msg : stun_msg) : Prop :=
  stun_verify_integrity hmac_sha1 data msg (auth_key (tu_auth t)) = Ok NANORTC_OK \/
  (is_error (m_type msg) = true /\ (m_error_code msg = 401 \/ m_error_code msg = 438) /\ m_integrity msg = None) \/
  (tx_kind (tu_txn t) <> NANORTC_TURN_TXN_NONE /\ tx_authenticated (tu_txn t) = false /\ m_txid msg = tx_last_txid (tu_txn t)).

Lemma find_waiting_sound {A} (state : A -> turn_request_state) (id : A -> list Z) txid k l : forall i j, find_waiting state id txid k l i = Ok (Some j) ->
  (i <= j < i + k)%nat /\ exists x, l !! j = Some x /\ state x = NANORTC_TURN_REQUEST_WAITING /\ id x = txid.
Proof.
  induction k as [|k IH]; intros i j; cbn [find_waiting]; [done|]. destruct (l !! i) as [x|] eqn:Hx; [|done].
  destruct (_ && _) eqn:E.
  - intros [= <-]. apply andb_true_iff in E as [E1%bool_decide_eq_true E2%bool_decide_eq_true]. split; [lia | by exists x].
  - intros [Hj H]%IH. split; [lia | done].
Qed.
Lemma waiting_sound {A} (state : A -> turn_request_state) (id : A -> list Z) txid (b : bool) k l o :
  (if b then find_waiting state id txid k l 0 else Ok None) = Ok o -> forall j, o = Some j ->
  b = true /\ (j < k)%nat /\ exists x, l !! j = Some x /\ state x = NANORTC_TURN_REQUEST_WAITING /\ id x = txid.
Proof. destruct b; [|by intros [= <-]]. intros H j ->. destruct (find_waiting_sound _ _ _ _ _ _ _ H) as [Hj Hx]. split; [done|]. split; [lia | done]. Qed.

(** C14: a datagram that changes the TURN client parses as a STUN response to a
    request in flight, and verifies under the client's key, or is a 401 or 438
    challenge without MESSAGE-INTEGRITY, or answers the first Allocate (which
    carries no credentials); every other datagram leaves the client as it
    was. *)
Theorem turn_only_answers hmac_sha1 md5 t now_ms data t' rc
  (Hresponse : turn_handle_response hmac_sha1 md5 t now_ms data = Ok (t', rc)) (Hchanged : t' <> t) :
  exists msg, stun_parse data = Ok msg /\ in_flight t msg /\ believed hmac_sha1 t data msg.
Proof.
  revert Hresponse. unfold turn_handle_response. destruct (stun_parse data) as [msg| |]; [|by intros [= <- _] | done]. cbv zeta.
  set (x := tu_txn t). set (txid_match := negb _ && negb (tx_reauth x) && _). destruct (txid_match && _) eqn:Hkind; [by intros [= <- _]|].
  match goal with |- context [if ?b then find_waiting pm_pending _ _ _ _ _ else _] => set (bp := b) end.
  match goal with |- context [if ?b then find_waiting ch_pending _ _ _ _ _ else _] => set (bc := b) end.
  destruct (if bp then _ else _) as [pidx| |] eqn:Hp; [rewrite bind_Ok | done..]. destruct (if bc then _ else _) as [cidx| |] eqn:Hc; [rewrite bind_Ok | done..].
  pose proof (waiting_sound _ _ _ _ _ _ _ Hp) as Hp'. pose proof (waiting_sound _ _ _ _ _ _ _ Hc) as Hc'. clear Hp Hc.
  match goal with |- context [negb txid_match && negb ?p] => set (peer := p) end.
  destruct (negb txid_match && negb peer) eqn:Hmatch; [by intros [= <- _]|].
  destruct (match m_fingerprint msg with None => _ | Some _ => _ end) as [rc1| |]; [rewrite bind_Ok | done..]. destruct (negb (rc1 =? _)); [by intros [= <- _]|].
  destruct (rdn (au_auth (tu_auth t)) 0 NANORTC_TURN_HMAC_KEY_SIZE) as [key| |] eqn:Hkey; [rewrite bind_Ok | done..].
  assert (key = auth_key (tu_auth t)) as ->. { unfold rdn in Hkey. case_match; [|done]. injection Hkey as <-. unfold auth_key. by rewrite drop_0. }
  match goal with |- context [if ?b then stun_verify_integrity _ _ _ _ else _] => set (checked := b) end.
  destruct (if checked then _ else _) as [rc2| |] eqn:Hint; [rewrite bind_Ok | done..]. destruct (Z.eqb_spec rc2 NANORTC_OK) as [->|]; cbn [negb]; [|by intros [= <- _]].
  intros _. exists msg. split; [done|].
  assert (txid_match = true -> in_flight t msg) as Htx.
  { intros Hx. rewrite Hx, andb_true_l, orb_false_iff, !andb_false_iff, !negb_false_iff, !orb_true_iff, !Z.eqb_eq, !bool_decide_eq_false in Hkind.
    unfold txid_match in Hx. rewrite !andb_true_iff, !negb_true_iff, bool_decide_eq_true, bool_decide_eq_false in Hx. destruct Hx as [[Hx1 Hx2] Hx3].
    apply FlightTransaction; [done..|]. fold x. destruct (tx_kind x); [done | left; intuition congruence | right; intuition congruence]. }
  assert (peer = true -> in_flight t msg) as Hpeer.
  { unfold peer. destruct pidx as [i|].
    - intros _. destruct (Hp' i eq_refl) as (Hb & Hi & p & H1 & H2 & H3). apply orb_true_iff in Hb. rewrite !Z.eqb_eq in Hb. by eapply FlightPermission.
    - destruct cidx as [i|]; [|done]. intros _. destruct (Hc' i eq_refl) as (Hb & Hi & c & H1 & H2 & H3). apply orb_true_iff in Hb. rewrite !Z.eqb_eq in Hb. by eapply FlightChannel. }
  split; [destruct txid_match; [by apply Htx|]; destruct peer; [by apply Hpeer | done]|].
  unfold believed. destruct checked eqn:Hch; [by left|]. right. unfold checked in Hch. apply andb_false_iff in Hch as [Hch|Hch].
  - right. apply orb_false_iff in Hch as [Hch Hpf]. rewrite Hpf in Hmatch. destruct txid_match eqn:Hx; [|done]. cbn [andb] in Hch.
    unfold txid_match in Hx. rewrite !andb_true_iff, !negb_true_iff, bool_decide_eq_true, bool_decide_eq_false in Hx. by destruct Hx as [[Hx1 Hx2] Hx3].
  - left. apply orb_false_iff in Hch as [Hch1 Hch2]. apply negb_false_iff, andb_true_iff in Hch2 as [He Hcode]. apply orb_true_iff in Hcode. rewrite !Z.eqb_eq in Hcode.
    split; [done|]. split; [done|]. by destruct (m_integrity msg).
Qed.
Definition client_after (es : list turn_event) : nano_turn :=
  match turn_run toy_mac (Some toy_md5) serial turn_init 1%nat es with Ok (t, _, _) => t | _ => turn_init end.
Lemma turn_only_answers_witness : exists msg, stun_parse (challenge_401 (demo_txid 1)) = Ok msg /\ in_flight (client_after (take 2 turn_demo_events)) msg /\
  believed toy_mac (client_after (take 2 turn_demo_events)) (challenge_401 (demo_txid 1)) msg.
Proof.
  apply (turn_only_answers toy_mac (Some toy_md5) (client_after (take 2 turn_demo_events)) 20 (challenge_401 (demo_txid 1)) (client_after (take 3 turn_demo_events)) NANORTC_OK).
  - vm_compute. reflexivity.
  - intros H. apply (f_equal tu_state) in H. vm_compute in H. discriminate H.
Defined.

(** * Channels *)

Lemma find_number_spec i c cs k : forall j, (j + k <= length cs)%nat -> (j <= i < j + k)%nat -> cs !! i = Some c -> ch_bound c = true ->
  (forall j' d, (j' < j + k)%nat -> cs !! j' = Some d -> ch_channel d = ch_channel c -> j' = i) -> find_number k cs j (ch_channel c) = Ok (Some c).
Proof.
  induction k as [|k IH]; intros j Hl Hi Hc Hb Hu; [lia|]. cbn [find_number]. destruct (lookup_lt_is_Some_2 cs j) as [d Hd]; [lia|]. rewrite Hd.
  destruct (decide (j = i)) as [->|Hne]; [rewrite Hc in Hd; injection Hd as <-; by rewrite Hb, Z.eqb_refl|].
  destruct (Z.eqb_spec (ch_channel d) (ch_channel c)) as [E|_]; [by destruct (Hne (Hu j d ltac:(lia) Hd E))|]. rewrite andb_false_r.
  apply IH; try done; [lia.. |]. intros j' d' Hj. apply Hu. lia.
Qed.
Lemma channel_data_parses channel payload tail : 0x4000 <= channel <= 0x7FFF -> Z.of_nat (length payload) < 65536 ->
  turn_unwrap_channel_data (be16 channel ++ be16 (Z.of_nat (length payload)) ++ payload ++ tail) = Ok (channel, payload).
Proof.
  intros Hc Hp. unfold turn_unwrap_channel_data. rewrite (proj2 (Nat.ltb_ge _ _)) by (rewrite !length_app; cbn [length be16]; lia).
  pose proof (read_u16be_app [] channel (be16 (Z.of_nat (length payload)) ++ payload ++ tail) 0 eq_refl) as H1. rewrite app_nil_l in H1. rewrite H1, bind_Ok.
  rewrite (read_u16be_app (be16 channel)), bind_Ok by done. rewrite !u16_id by (unfold is_u16; lia).
  rewrite (proj2 (Z.ltb_ge _ _)), (proj2 (Z.ltb_ge _ _)) by lia. cbn [orb]. rewrite Nat2Z.id.
  rewrite (proj2 (Nat.ltb_ge _ _)) by (rewrite !length_app; cbn [length be16]; lia). rewrite (app_assoc (be16 channel)).
  rewrite (rdn_mid _ payload tail) by done. by rewrite bind_Ok.
Qed.
Definition channel_data (channel : Z) (payload : list Z) : list Z :=
  let len := Z.of_nat (length payload) in be16 channel ++ be16 len ++ payload ++ replicate (attr_padded len - length payload) 0.
Lemma wrap_channel_data_spec channel payload buf : Z.of_nat (length payload) < 65536 ->
  nano_turn_wrap_channel_data channel payload buf =
  (if (length buf <? 4 + attr_padded (Z.of_nat (length payload)))%nat then Err NANORTC_ERR_BUFFER_TOO_SMALL
   else Ok (channel_data channel payload ++ drop (length (channel_data channel payload)) buf, length (channel_data channel payload))).
Proof.
  intros Hp. assert (is_u16 (Z.of_nat (length payload))) as Hu by (unfold is_u16; lia). pose proof (attr_padded_ge _ Hu) as Hge. rewrite Nat2Z.id in Hge.
  unfold nano_turn_wrap_channel_data. cbv zeta. set (p := attr_padded _) in *. destruct (Nat.ltb_spec (length buf) (4 + p)) as [|Hb]; [done|].
  assert (length (channel_data channel payload) = 4 + p)%nat as Hl by (unfold channel_data; cbv zeta; fold p; rewrite !length_app, length_replicate; cbn [length be16]; lia).
  unfold nanortc_write_u16be. rewrite <- (app_nil_l buf) at 1. rewrite wr_append by (cbn; lia). rewrite bind_Ok, app_nil_l. cbn [length be16].
  rewrite wr_append by (rewrite ?length_drop; cbn; lia). rewrite bind_Ok, drop_drop, u16_id by done. cbn [length be16 Nat.add].
  rewrite wr_append by (rewrite ?length_app, ?length_drop; cbn; lia). rewrite bind_Ok, drop_drop.
  assert (forall rest, (p - length payload <= length rest)%nat -> (if (length payload <? p)%nat then wr (((be16 channel ++ be16 (Z.of_nat (length payload))) ++ payload) ++ rest) (4 + length payload) (replicate (p - length payload) 0)
     else Ok (((be16 channel ++ be16 (Z.of_nat (length payload))) ++ payload) ++ rest)) = Ok (channel_data channel payload ++ drop (p - length payload) rest)) as Hpad.
  { intros rest Hr. unfold channel_data. cbv zeta. fold p. destruct (Nat.ltb_spec (length payload) p) as [|].
    - rewrite wr_append by (rewrite ?length_app, ?length_replicate; cbn [length be16]; lia). rewrite length_replicate. by rewrite <- !app_assoc.
    - replace (p - length payload)%nat with 0%nat by lia. cbn [replicate]. by rewrite app_nil_r, drop_0, <- !app_assoc. }
  rewrite Hpad by (rewrite length_drop; lia). rewrite bind_Ok, drop_drop, Hl. do 3 f_equal. f_equal. lia.
Qed.

(** A channel the client has bound is the path to exactly one peer: sending to
    the peer finds the channel's number, the frame written for it is recognised
    as channel data and gives back number and payload (with or without the
    padding), and looking the number up gives back the peer. *)
Theorem turn_channel_path t i c addr payload buf
  (Hok : turn_ok t) (Hc : tu_channels t !! i = Some c) (Hi : (i < tu_channel_count t)%nat) (Hbound : ch_bound c = true)
  (Haddr : length addr = STUN_ADDR_SIZE) (Hsame : take (addr_len (ch_family c)) addr = take (addr_len (ch_family c)) (ch_addr c))
  (Hpayload : Z.of_nat (length payload) < 65536) (Hbuf : (8 + length payload <= length buf)%nat) :
  turn_find_channel_for_peer t addr (ch_family c) (ch_port c) = Ok (Some (ch_channel c)) /\
  (exists buf' n, nano_turn_wrap_channel_data (ch_channel c) payload buf = Ok (buf', n) /\ (4 + length payload <= n < 8 + length payload)%nat /\
    turn_is_channel_data (take n buf') = true /\
    turn_unwrap_channel_data (take n buf') = Ok (ch_channel c, payload) /\
    turn_unwrap_channel_data (take (4 + length payload) buf') = Ok (ch_channel c, payload)) /\
  turn_find_peer_for_channel t (ch_channel c) = Ok (Some (ch_addr c, ch_family c, ch_port c)).
Proof.
  destruct (to_channels t Hok) as [[L1 L2] _ He Hnum Hd]. pose proof (Hnum i c Hi Hc) as Hn. unfold NANORTC_TURN_MAX_CHANNELS in *. split; [|split].
  - unfold turn_find_channel_for_peer, turn_find_channel.
    destruct (find_channel_spec ch_bound addr (ch_family c) (ch_port c) (tu_channel_count t) (tu_channels t) 0) as (o & -> & Ho); [lia | done | done|]. rewrite bind_Ok.
    assert (channel_key c = (ch_family c, ch_port c, take (addr_len (ch_family c)) addr)) as Hk by (unfold channel_key; by rewrite Hsame). destruct o as [j|].
    + destruct Ho as [Hj (d & Hd' & _ & Hkd)]. assert (j = i) as -> by (apply (Hd j i d c); [lia | done.. | congruence]). unfold get_turn_channel. rewrite Hc. done.
    + destruct (Ho i c); [lia | done..].
  - assert (is_u16 (Z.of_nat (length payload))) as Hu by (unfold is_u16; lia). pose proof (attr_padded_ge _ Hu) as Hge. pose proof (attr_padded_eq _ Hu) as Heq. rewrite Nat2Z.id in *.
    assert (attr_padded (Z.of_nat (length payload)) < 4 + length payload)%nat as Hpl. { rewrite Heq. pose proof (Nat.Div0.mul_div_le (length payload + 3) 4). lia. }
    rewrite wrap_channel_data_spec by done. rewrite (proj2 (Nat.ltb_ge _ _)) by lia. eexists _, _. split; [done|]. rewrite take_app_length.
    assert (length (channel_data (ch_channel c) payload) = 4 + attr_padded (Z.of_nat (length payload)))%nat as Hl
      by (unfold channel_data; cbv zeta; rewrite !length_app, length_replicate; cbn [length be16]; lia).
    split; [lia|]. split; [|split].
    + unfold turn_is_channel_data. change (channel_data (ch_channel c) payload) with (u8 (Z.shiftr (ch_channel c) 8) :: (tail (channel_data (ch_channel c) payload))) at 1.
      rewrite Hl. rewrite (proj2 (Nat.ltb_ge _ _)) by lia. cbn [negb andb]. assert (u8 (Z.shiftr (ch_channel c) 8) = 0x40) as ->; [|done]. rewrite Hn. assert (i < 4)%nat as Hi4 by lia.
      do 4 (destruct i as [|i]; [reflexivity|]). lia.
    + unfold channel_data. apply channel_data_parses; [lia | done].
    + unfold channel_data. cbv zeta. rewrite <- (app_nil_r (take _ _)). rewrite !app_assoc, <- app_assoc. rewrite take_app_le by (rewrite !length_app; cbn [length be16]; lia).
      rewrite take_ge by (rewrite !length_app; cbn [length be16]; lia). rewrite <- !app_assoc. apply channel_data_parses; [lia | done].
  - unfold turn_find_peer_for_channel. rewrite (find_number_spec i); [done | lia | lia | done | done |].
    intros j d Hj Hdj Hnj. rewrite (Hnum j d) in Hnj by (done || lia). lia.
Qed.
Lemma client_ok es : Forall event_ok es -> turn_ok (client_after es).
Proof.
  intros He. unfold client_after.
  destruct (run_Ok toy_mac toy_mac_length (Some toy_md5) toy_md5_law serial serial_law es turn_init 1%nat turn_init_ok He) as (t & g & sent & -> & Hok & _). done.
Qed.
Definition demo_channel : turn_channel := default channel_zero (tu_channels (client_after turn_demo_events) !! 0%nat).
Lemma turn_channel_path_witness : turn_find_channel_for_peer (client_after turn_demo_events) demo_peer 4 5000 = Ok (Some 0x4000) /\
  (exists buf' n, nano_turn_wrap_channel_data 0x4000 [1; 2; 3] demo_buf = Ok (buf', n) /\ turn_unwrap_channel_data (take n buf') = Ok (0x4000, [1; 2; 3])) /\
  turn_find_peer_for_channel (client_after turn_demo_events) 0x4000 = Ok (Some (demo_peer, 4, 5000)).
Proof.
  assert (ch_channel demo_channel = 0x4000 /\ ch_family demo_channel = 4 /\ ch_port demo_channel = 5000 /\ ch_addr demo_channel = demo_peer) as (E1 & E2 & E3 & E4) by (vm_compute; done).
  destruct (turn_channel_path (client_after turn_demo_events) 0 demo_channel demo_peer [1; 2; 3] demo_buf) as (H1 & (buf' & n & H2 & _ & _ & H3 & _) & H4).
  - apply client_ok, demo_events_ok.
  - vm_compute. reflexivity.
  - vm_compute. lia.
  - vm_compute. reflexivity.
  - reflexivity.
  - by rewrite E4.
  - vm_compute. reflexivity.
  - unfold demo_buf. rewrite length_replicate. cbn [length]. lia.
  - rewrite E1, E2, E3 in *. rewrite E4 in H4. split; [exact H1|]. split; [|exact H4]. exists buf', n. split; [exact H2 | exact H3].
Defined.
