(* ===== verification/TurnSession.v ===== *)
(** A session of the TURN client of [src/nano_turn.c]: from the configuration to
    the allocation, through the server's challenge. *)

From Stdlib Require Import ZArith Lia.
From stdpp Require Import base list numbers.
From S2P Require Import Prelude Wire Crc Stun Turn TurnRequests TurnHistory.

Local Open Scope Z_scope.

Section session.
Context (hmac_sha1 : list Z -> list Z -> list Z).
Context (hmac_length : forall k x, length (hmac_sha1 k x) = 20%nat).
Context (md5 : list Z -> list Z).
Context (md5_law : forall x, length (md5 x) = NANORTC_TURN_HMAC_KEY_SIZE /\ bytes (md5 x)).
Context {R : Type} (random_bytes : R -> nat -> R * option (list Z)).

(** The long-term credential key: MD5 of [username:realm:password]. *)
Definition long_term_key (username realm password : list Z) : list Z := md5 (username ++ [58] ++ realm ++ [58] ++ password).
(** A client that holds a user name and, in the union, a password. *)
Record holds (t : nano_turn) (username password : list Z) : Prop := {
  ho_ok : turn_ok t;
  ho_configured : tu_configured t = true;
  ho_username : cs_value (au_username (tu_auth t)) = username;
  ho_password : take (au_password_len (tu_auth t)) (au_auth (tu_auth t)) = password
}.
Definition fingerprint_fits (data : list Z) (m : stun_msg) : Prop :=
  match m_fingerprint m with None => True | Some _ => stun_verify_fingerprint data = Ok NANORTC_OK end.

Lemma configure_holds t server_addr family port username password :
  turn_ok t -> length server_addr = STUN_ADDR_SIZE -> bytes username -> bytes password ->
  (length username < NANORTC_TURN_USERNAME_SIZE)%nat -> (length password < NANORTC_TURN_PASSWORD_SIZE)%nat ->
  exists t', turn_configure t server_addr family port username password = Ok (t', NANORTC_OK) /\ holds t' username password /\
    tu_state t' = tu_state t /\ tu_txn t' = tu_txn t.
Proof using.
  intros Hok Hs Hu Hp Hul Hpl. destruct (configure_Ok t server_addr family port username password Hok Hs Hu Hp) as (t' & rc & Hc & Hok').
  pose proof Hc as Hc'. unfold turn_configure in Hc. rewrite (proj2 (Nat.leb_gt _ _)), (proj2 (Nat.leb_gt _ _)) in Hc by done. cbn [orb] in Hc.
  rewrite rdn_Ok in Hc by (rewrite Hs; lia). rewrite bind_Ok in Hc. cbv zeta in Hc. pose proof (to_auth t Hok) as [A1 [A2 A2'] A3 A4 A5].
  destruct (cs_store_Ok _ _ username A1) as (u & Hst & Hu' & Huv); [done..|]. rewrite Hst, bind_Ok in Hc. rewrite wr_Ok, bind_Ok in Hc by lia. rewrite take_0, app_nil_l, Nat.add_0_l in Hc.
  rewrite wr_append in Hc by (rewrite ?length_drop; cbn; lia). rewrite bind_Ok in Hc. injection Hc as <- <-. eexists. split; [exact Hc'|]. split; [|done].
  constructor; cbn; [done | done | done |]. by rewrite <- app_assoc, take_app_length.
Qed.
(** An idle or challenged client without a transaction polls into an Allocate. *)
Lemma poll_allocates t g now buf : tu_configured t = true -> tu_state t = NANORTC_TURN_IDLE \/ tu_state t = NANORTC_TURN_CHALLENGED ->
  tx_kind (tu_txn t) = NANORTC_TURN_TXN_NONE -> turn_poll_output hmac_sha1 random_bytes t g now buf = turn_start_allocate hmac_sha1 random_bytes t g buf.
Proof using.
  intros Hc Hs Hk. unfold turn_poll_output, turn_next_work. rewrite Hc, Hk. cbv zeta. cbn [negb orb].
  destruct Hs as [-> | ->]; reflexivity.
Qed.
Lemma start_allocate_spec t g g' txid buf : turn_ok t -> tu_configured t = true -> tx_kind (tu_txn t) = NANORTC_TURN_TXN_NONE ->
  random_bytes g STUN_TXID_SIZE = (g', Some txid) -> length txid = STUN_TXID_SIZE -> (NANORTC_TURN_MAX_REQUEST_SIZE <= length buf)%nat ->
  let authenticated := bool_decide (tu_state t = NANORTC_TURN_CHALLENGED) && au_key_valid (tu_auth t) in
  let msg := allocate_request hmac_sha1 (tu_auth t) authenticated txid in
  turn_start_allocate hmac_sha1 random_bytes t g buf =
  Ok (with_turn_state (turn_start_transaction t NANORTC_TURN_TXN_ALLOCATE authenticated txid) NANORTC_TURN_ALLOCATING, g', NANORTC_OK, msg ++ drop (length msg) buf, length msg).
Proof using hmac_length.
  intros Hok Hc Hk Hr Ht Hb authenticated msg. unfold turn_start_allocate. rewrite Hc, Hk, Hr. cbn [negb]. rewrite bool_decide_eq_true_2 by done. cbn [negb].
  cbv zeta. fold authenticated. rewrite build_allocate_spec by (done || apply (to_auth t Hok)). unfold built. by rewrite (proj2 (Nat.ltb_ge _ _) Hb).
Qed.

(** A response that matches the Allocate in flight reaches the dispatcher. *)
Lemma allocation_answer t now data m : turn_ok t -> tx_kind (tu_txn t) = NANORTC_TURN_TXN_ALLOCATE -> tx_reauth (tu_txn t) = false ->
  stun_parse data = Ok m -> m_txid m = tx_last_txid (tu_txn t) -> m_type m = STUN_ALLOCATE_RESPONSE \/ m_type m = STUN_ALLOCATE_ERROR ->
  fingerprint_fits data m -> m_error_code m <> 438 ->
  (tx_authenticated (tu_txn t) = true -> stun_verify_integrity hmac_sha1 data m (auth_key (tu_auth t)) = Ok NANORTC_OK) ->
  turn_handle_response hmac_sha1 (Some md5) t now data = turn_dispatch (Some md5) t now m None None.
Proof using.
  intros Hok Hk Hre Hp Hid Hty Hf Hcode Hint. unfold turn_handle_response. rewrite Hp. cbv zeta. rewrite Hk, Hre, Hid. rewrite (bool_decide_eq_true_2 (tx_last_txid _ = _)) by done.
  replace ((m_type m =? STUN_CREATE_PERMISSION_RESPONSE) || (m_type m =? STUN_CREATE_PERMISSION_ERROR)) with false by (by destruct Hty as [-> | ->]).
  replace ((m_type m =? STUN_CHANNEL_BIND_RESPONSE) || (m_type m =? STUN_CHANNEL_BIND_ERROR)) with false by (by destruct Hty as [-> | ->]).
  rewrite !bind_Ok. replace ((m_type m =? STUN_ALLOCATE_RESPONSE) || (m_type m =? STUN_ALLOCATE_ERROR)) with true by (by destruct Hty as [-> | ->]).
  change (bool_decide (NANORTC_TURN_TXN_ALLOCATE = NANORTC_TURN_TXN_NONE)) with false. change (bool_decide (NANORTC_TURN_TXN_ALLOCATE = NANORTC_TURN_TXN_ALLOCATE)) with true.
  change (bool_decide (NANORTC_TURN_TXN_ALLOCATE = NANORTC_TURN_TXN_REFRESH)) with false. cbn [negb andb orb]. assert ((match m_fingerprint m with None => Ok NANORTC_OK | Some _ => stun_verify_fingerprint data end) = Ok NANORTC_OK) as ->.
  { unfold fingerprint_fits in Hf. by destruct (m_fingerprint m). }
  rewrite bind_Ok. change (negb (NANORTC_OK =? NANORTC_OK)) with false. cbv iota. rewrite rdn_Ok, drop_0 by (rewrite (proj1 (ao_auth _ (to_auth t Hok))); unfold NANORTC_TURN_HMAC_KEY_SIZE, NANORTC_TURN_PASSWORD_SIZE; lia).
  rewrite bind_Ok. fold (auth_key (tu_auth t)).
  assert (forall b : bool, (if (tx_authenticated (tu_txn t) || false) && b then stun_verify_integrity hmac_sha1 data m (auth_key (tu_auth t)) else Ok NANORTC_OK) = Ok NANORTC_OK) as ->.
  { intros b. rewrite orb_false_r. destruct (tx_authenticated (tu_txn t)); [rewrite Hint by done; by destruct b | done]. }
  rewrite bind_Ok. change (negb (NANORTC_OK =? NANORTC_OK)) with false. cbv iota. by rewrite (proj2 (Z.eqb_neq _ _) Hcode), andb_false_r.
Qed.
(** What the client knows once challenged. *)
Record knows (t : nano_turn) (username realm nonce key : list Z) : Prop := {
  kn_ok : turn_ok t;
  kn_configured : tu_configured t = true;
  kn_valid : au_key_valid (tu_auth t) = true;
  kn_key : auth_key (tu_auth t) = key;
  kn_username : cs_value (au_username (tu_auth t)) = username;
  kn_realm : cs_value (au_realm (tu_auth t)) = realm;
  kn_nonce : cs_value (au_nonce (tu_auth t)) = nonce
}.
Lemma store_nonce_spec t nonce : turn_ok t -> bytes nonce -> (length nonce < NANORTC_TURN_NONCE_SIZE)%nat -> tx_kind (tu_txn t) = NANORTC_TURN_TXN_NONE ->
  exists t' n, turn_store_nonce t nonce = Ok t' /\ turn_ok t' /\ cs_value n = nonce /\ tu_txn t' = tu_txn t /\ tu_configured t' = tu_configured t /\ tu_state t' = tu_state t /\
    tu_auth t' = (let a := tu_auth t in Auth (au_username a) (au_auth a) (au_password_len a) (au_realm a) n (au_key_valid a)).
Proof using.
  intros Hok Hb Hl Hk. destruct (store_nonce_Ok t nonce Hok Hb) as (t' & Hs & Hok' & _). pose proof Hs as Hs'. unfold turn_store_nonce in Hs'. cbv zeta in Hs'.
  rewrite take_ge in Hs' by lia. destruct (cs_store_Ok _ _ nonce (ao_nonce _ (to_auth t Hok)) Hl Hb) as (n & Hn & _ & Hv). rewrite Hn, bind_Ok in Hs'. rewrite Hk in Hs'.
  rewrite bool_decide_eq_true_2 in Hs' by done. cbn [negb andb] in Hs'. destruct (_ || _); [done|]. injection Hs' as <-. eexists _, n. by split_and!.
Qed.
Lemma challenge_spec t now data m username password realm nonce :
  holds t username password -> tu_state t = NANORTC_TURN_ALLOCATING -> tx_kind (tu_txn t) = NANORTC_TURN_TXN_ALLOCATE -> tx_reauth (tu_txn t) = false ->
  tx_authenticated (tu_txn t) = false -> bytes data -> stun_parse data = Ok m -> m_txid m = tx_last_txid (tu_txn t) -> m_type m = STUN_ALLOCATE_ERROR -> m_error_code m = 401 ->
  fingerprint_fits data m -> m_realm m = Some realm -> m_nonce m = Some nonce ->
  (length realm < NANORTC_TURN_REALM_SIZE)%nat -> (length nonce < NANORTC_TURN_NONCE_SIZE)%nat ->
  exists t', turn_handle_response hmac_sha1 (Some md5) t now data = Ok (t', NANORTC_OK) /\ knows t' username realm nonce (long_term_key username realm password) /\
    tu_state t' = NANORTC_TURN_CHALLENGED /\ tx_kind (tu_txn t') = NANORTC_TURN_TXN_NONE.
Proof using md5_law.
  intros [Hok Hconf Hu Hpw] Hst Hk Hre Hau Hb Hp Hid Hty Hcode Hf Hr Hn Hrl Hnl.
  pose proof (stun_parse_wp data Hb) as Hwp. rewrite Hp in Hwp. cbn [wp] in Hwp.
  rewrite (allocation_answer t now data m) by first [done | by right | rewrite Hcode; done | rewrite Hau; done].
  unfold turn_dispatch. rewrite Hty. change (STUN_ALLOCATE_ERROR =? STUN_ALLOCATE_RESPONSE) with false. rewrite Z.eqb_refl. unfold handle_allocate_error.
  rewrite Hcode, Hst, Hau, Hr, Hn. change ((401 =? 401) && bool_decide (NANORTC_TURN_ALLOCATING = NANORTC_TURN_ALLOCATING)) with true. cbv iota zeta.
  pose proof (turn_ok_clear t Hok) as Hok1. rewrite (take_ge realm) by lia.
  destruct (cs_store_Ok (au_realm (tu_auth (turn_clear_transaction t))) NANORTC_TURN_REALM_SIZE realm) as (r & -> & Hr' & Hrv);
    [apply (ao_realm _ (to_auth _ Hok1)) | done | apply (mo_texts _ Hwp); tauto|].
  rewrite bind_Ok. set (t1 := with_auth _ _). assert (turn_ok t1) as Hok2 by (apply turn_ok_auth; [done|]; destruct (to_auth _ Hok1); by constructor).
  destruct (store_nonce_spec t1 nonce Hok2) as (t2 & n & -> & Hok3 & Hnv & E1 & E2 & E3 & E4); [apply (mo_texts _ Hwp); tauto | done | done|]. rewrite bind_Ok.
  destruct (derive_key_Ok (Some md5) (fun f x E => ltac:(injection E as <-; apply md5_law)) t2 Hok3) as (t3 & rc & Hd & Hok4). rewrite Hd, bind_Ok. cbv beta iota.
  unfold turn_derive_key in Hd. rewrite E4 in Hd. cbn [au_username au_auth au_password_len au_realm au_nonce au_key_valid] in Hd. change (tu_auth t1) with (Auth (au_username (tu_auth t)) (au_auth (tu_auth t)) (au_password_len (tu_auth t)) r (au_nonce (tu_auth t)) (au_key_valid (tu_auth t))) in Hd.
  cbn [au_username au_auth au_password_len au_realm au_nonce au_key_valid] in Hd. pose proof (to_auth t Hok) as [A1 [A2 A2'] A3 A4 A5].
  rewrite (cs_text_Ok _ _ A1), (cs_text_Ok _ _ Hr'), !bind_Ok in Hd. rewrite rdn_Ok, bind_Ok, drop_0 in Hd by (rewrite A2; lia). rewrite Hu, Hrv, Hpw in Hd. cbv zeta in Hd. fold (long_term_key username realm password) in Hd.
  destruct (_ <? _)%nat; [done|]. destruct (md5_law (username ++ [58] ++ realm ++ [58] ++ password)) as [L _]. fold (long_term_key username realm password) in L.
  rewrite wr_Ok, bind_Ok in Hd by (rewrite L, A2; unfold NANORTC_TURN_HMAC_KEY_SIZE, NANORTC_TURN_PASSWORD_SIZE; lia). injection Hd as <- <-. change (negb (NANORTC_OK =? NANORTC_OK)) with false. cbv iota.
  eexists. split; [done|]. split; [|split; [done|]; cbn; by rewrite E1]. constructor; [by apply turn_ok_state | by cbn; rewrite E2 | done | | done..].
  unfold auth_key. cbn [tu_auth au_auth with_turn_state with_auth]. rewrite ?take_0, ?app_nil_l, <- L. apply take_app_length.
Qed.
(** The authenticated answer. *)
Lemma granted_spec t now data m : turn_ok t -> tx_kind (tu_txn t) = NANORTC_TURN_TXN_ALLOCATE -> tx_reauth (tu_txn t) = false ->
  stun_parse data = Ok m -> m_txid m = tx_last_txid (tu_txn t) -> m_type m = STUN_ALLOCATE_RESPONSE -> m_error_code m <> 438 -> fingerprint_fits data m ->
  stun_verify_integrity hmac_sha1 data m (auth_key (tu_auth t)) = Ok NANORTC_OK -> sa_family (m_relayed m) <> 0 ->
  turn_handle_response hmac_sha1 (Some md5) t now data =
  Ok (turn_clear_transaction (with_turn_state (with_relay t (Relay (sa_addr (m_relayed m)) (sa_port (m_relayed m)) (sa_family (m_relayed m)) (lifetime_of m)
       (nano_time_deadline now (turn_refresh_delay_ms (lifetime_of m))))) NANORTC_TURN_ALLOCATED), NANORTC_OK).
Proof using.
  intros Hok Hk Hre Hp Hid Hty Hcode Hf Hint Hfam. rewrite (allocation_answer t now data m) by first [done | by left].
  unfold turn_dispatch. rewrite Hty, Z.eqb_refl. unfold handle_allocate_response. cbv zeta. by rewrite (proj2 (Z.eqb_neq _ _) Hfam).
Qed.
End session.

(** C15: a client configured with a user name and a password that polls, is
    challenged with 401, polls again and is answered reaches ALLOCATED with the
    relayed address it was given: its first request is a plain Allocate, its
    second carries user name, realm and nonce and is signed with the MD5 key of
    [username:realm:password]; the refresh is scheduled from the granted
    lifetime and no transaction remains. *)
Theorem turn_allocates hmac_sha1 md5 R (random_bytes : R -> nat -> R * option (list Z)) (g g1 g2 : R) (txid1 txid2 : list Z)
  server_addr family port username password realm nonce buf data1 data2 m1 m2 now1 now2 now3 now4
  (Hmac : forall k x, length (hmac_sha1 k x) = 20%nat)
  (Hmd5 : forall x, length (md5 x) = NANORTC_TURN_HMAC_KEY_SIZE /\ bytes (md5 x))
  (Hserver : length server_addr = STUN_ADDR_SIZE) (Htexts : bytes username /\ bytes password)
  (Hlengths : (length username < NANORTC_TURN_USERNAME_SIZE)%nat /\ (length password < NANORTC_TURN_PASSWORD_SIZE)%nat /\
              (length realm < NANORTC_TURN_REALM_SIZE)%nat /\ (length nonce < NANORTC_TURN_NONCE_SIZE)%nat)
  (Hbuf : (NANORTC_TURN_MAX_REQUEST_SIZE <= length buf)%nat)
  (Hrandom1 : random_bytes g STUN_TXID_SIZE = (g1, Some txid1) /\ length txid1 = STUN_TXID_SIZE)
  (Hrandom2 : random_bytes g1 STUN_TXID_SIZE = (g2, Some txid2) /\ length txid2 = STUN_TXID_SIZE)
  (Hchallenge : bytes data1 /\ stun_parse data1 = Ok m1 /\ fingerprint_fits data1 m1 /\ m_type m1 = STUN_ALLOCATE_ERROR /\ m_txid m1 = txid1 /\
                m_error_code m1 = 401 /\ m_realm m1 = Some realm /\ m_nonce m1 = Some nonce)
  (Hgrant : stun_parse data2 = Ok m2 /\ fingerprint_fits data2 m2 /\ m_type m2 = STUN_ALLOCATE_RESPONSE /\ m_txid m2 = txid2 /\ m_error_code m2 <> 438 /\
            sa_family (m_relayed m2) <> 0 /\ stun_verify_integrity hmac_sha1 data2 m2 (long_term_key md5 username realm password) = Ok NANORTC_OK) :
  exists t, turn_run hmac_sha1 (Some md5) random_bytes turn_init g
      [Configure server_addr family port username password; Poll now1 buf; Response now2 data1; Poll now3 buf; Response now4 data2] =
    Ok (t, g2, [ []; plain_message STUN_ALLOCATE_REQUEST txid1 allocate_attrs; [];
                 mac_message hmac_sha1 STUN_ALLOCATE_REQUEST txid2 (long_term_key md5 username realm password)
                   (allocate_attrs ++ [(STUN_ATTR_USERNAME, username); (STUN_ATTR_REALM, realm); (STUN_ATTR_NONCE, nonce)]); [] ]) /\
    tu_state t = NANORTC_TURN_ALLOCATED /\ tx_kind (tu_txn t) = NANORTC_TURN_TXN_NONE /\
    tu_relay t = Relay (sa_addr (m_relayed m2)) (sa_port (m_relayed m2)) (sa_family (m_relayed m2)) (lifetime_of m2)
                   (nano_time_deadline now4 (turn_refresh_delay_ms (lifetime_of m2))).
Proof.
  destruct Htexts as [Hub Hpb], Hlengths as (Hul & Hpl & Hrl & Hnl), Hrandom1 as [Hg1 Ht1], Hrandom2 as [Hg2 Ht2].
  destruct Hchallenge as (Hd1 & Hp1 & Hf1 & Hty1 & Hid1 & Hc1 & Hr1 & Hn1), Hgrant as (Hp2 & Hf2 & Hty2 & Hid2 & Hc2 & Hfam & Hint).
  destruct (configure_holds turn_init server_addr family port username password turn_init_ok Hserver Hub Hpb Hul Hpl) as (ta & Ha & Hholds & Hsa & Hxa).
  assert (tx_kind (tu_txn ta) = NANORTC_TURN_TXN_NONE) as Hka by by rewrite Hxa.
  pose proof Hholds as [Hoka Hca Hua Hpwa].
  pose proof (start_allocate_spec hmac_sha1 Hmac random_bytes ta g g1 txid1 buf Hoka Hca Hka Hg1 Ht1 Hbuf) as Hstart1. rewrite Hsa in Hstart1. cbv zeta in Hstart1.
  change (bool_decide (tu_state turn_init = NANORTC_TURN_CHALLENGED)) with false in Hstart1. cbn [andb] in Hstart1.
  set (tb := with_turn_state _ _) in Hstart1. assert (turn_ok tb) as Hokb by (by apply turn_ok_state, start_ok).
  assert (holds tb username password) as Hholdsb by (constructor; [done | by destruct Hholds..]).
  destruct (challenge_spec hmac_sha1 md5 Hmd5 tb now2 data1 m1 username password realm nonce Hholdsb) as (tc & Hresp1 & Hknows & Hsc & Hkc); [done..|].
  pose proof Hknows as [Hokc Hcc Hvc Hkeyc Huc Hrc Hnc].
  pose proof (start_allocate_spec hmac_sha1 Hmac random_bytes tc g1 g2 txid2 buf Hokc Hcc Hkc Hg2 Ht2 Hbuf) as Hstart2. rewrite Hsc, Hvc in Hstart2. cbv zeta in Hstart2.
  change (bool_decide (NANORTC_TURN_CHALLENGED = NANORTC_TURN_CHALLENGED) && true) with true in Hstart2.
  set (td := with_turn_state _ _) in Hstart2. assert (turn_ok td) as Hokd by (by apply turn_ok_state, start_ok).
  assert (stun_verify_integrity hmac_sha1 data2 m2 (auth_key (tu_auth td)) = Ok NANORTC_OK) as Hintd by (change (tu_auth td) with (tu_auth tc); by rewrite Hkeyc).
  pose proof (granted_spec hmac_sha1 md5 td now4 data2 m2 Hokd eq_refl eq_refl Hp2 Hid2 Hty2 Hc2 Hf2 Hintd Hfam) as Hresp2.
  match type of Hresp2 with _ = Ok (?t, _) => exists t end. split; [|by split_and!].
  cbn [turn_run turn_step]. rewrite Ha, !bind_Ok. rewrite poll_allocates by first [done | left; by rewrite Hsa]. rewrite Hstart1, !bind_Ok. cbv beta iota. rewrite rdn_front, !bind_Ok by done. cbv beta iota.
  rewrite Hresp1, !bind_Ok. rewrite poll_allocates by first [done | by right]. rewrite Hstart2, !bind_Ok. cbv beta iota. rewrite rdn_front, !bind_Ok by done. cbv beta iota.
  rewrite Hresp2, !bind_Ok. unfold allocate_request, authenticated_request, credential_attrs. by rewrite Hkeyc, Huc, Hrc, Hnc.
Qed.
Definition demo_grant : list Z :=
  granted STUN_ALLOCATE_RESPONSE (demo_txid 2) [(STUN_ATTR_XOR_RELAYED_ADDRESS, xor_value (demo_txid 2) demo_relayed STUN_FAMILY_IPV4 49152); (STUN_ATTR_LIFETIME, be32 600)].
Definition parsed (data : list Z) : stun_msg := match stun_parse data with Ok m => m | _ => stun_msg_init 0 0 [] end.
Lemma turn_allocates_witness : exists t, turn_run toy_mac (Some toy_md5) serial turn_init 1%nat
      [Configure demo_server 4 3478 demo_user demo_password; Poll 10 demo_buf; Response 20 (challenge_401 (demo_txid 1)); Poll 30 demo_buf; Response 40 demo_grant] =
    Ok (t, 3%nat, [ []; plain_message STUN_ALLOCATE_REQUEST (demo_txid 1) allocate_attrs; [];
                 mac_message toy_mac STUN_ALLOCATE_REQUEST (demo_txid 2) (long_term_key toy_md5 demo_user demo_realm demo_password)
                   (allocate_attrs ++ [(STUN_ATTR_USERNAME, demo_user); (STUN_ATTR_REALM, demo_realm); (STUN_ATTR_NONCE, demo_nonce)]); [] ]) /\
    tu_state t = NANORTC_TURN_ALLOCATED /\ tx_kind (tu_txn t) = NANORTC_TURN_TXN_NONE /\
    tu_relay t = Relay demo_relayed 49152 STUN_FAMILY_IPV4 600 (nano_time_deadline 40 (turn_refresh_delay_ms 600)).
Proof.
  assert (forall l, bool_decide (bytes l) = true -> bytes l) as Hb by (intros l Hl; by apply bool_decide_eq_true in Hl).
  apply (turn_allocates toy_mac toy_md5 nat serial 1%nat 2%nat 3%nat (demo_txid 1) (demo_txid 2) demo_server 4 3478 demo_user demo_password demo_realm demo_nonce demo_buf
    (challenge_401 (demo_txid 1)) demo_grant (parsed (challenge_401 (demo_txid 1))) (parsed demo_grant) 10 20 30 40 toy_mac_length).
  - intros x. apply (toy_md5_law toy_md5). reflexivity.
  - reflexivity.
  - split; apply Hb; vm_compute; reflexivity.
  - split; [vm_compute; lia|]. split; [vm_compute; lia|]. split; vm_compute; lia.
  - unfold demo_buf. rewrite length_replicate. vm_compute. lia.
  - split; reflexivity.
  - split; reflexivity.
  - split; [apply Hb; vm_compute; reflexivity|]. split; [vm_compute; reflexivity|]. split; [vm_compute; exact I|]. repeat (split; [vm_compute; reflexivity|]). vm_compute. reflexivity.
  - split; [vm_compute; reflexivity|]. split; [vm_compute; exact I|]. split; [vm_compute; reflexivity|]. split; [vm_compute; reflexivity|].
    split; [vm_compute; discriminate|]. split; [vm_compute; discriminate|]. vm_compute. reflexivity.
Defined.
