(* ===== verification/Sdp.v ===== *)
(** SDP, [src/nano_sdp.c] (RFC 8866, RFC 8829): the line parser of offers and
    answers, the m-line table, and the generator with its bounded appends.  A
    text is a list of octets; a pointer into a line, bounded by the line's end,
    is the list of the octets from it to that end. *)

From Stdlib Require Import ZArith Lia String Ascii.
From stdpp Require Import base list numbers.
From S2P Require Import Prelude Wire Media.

Local Open Scope Z_scope.

(** * Constants *)

Definition NANORTC_MAX_MEDIA_TRACKS : nat := 2.
Definition NANORTC_SDP_MAX_CANDIDATES : nat := 12.
Definition NANORTC_SDP_FINGERPRINT_SIZE : nat := 104.
Definition NANORTC_SDP_MIN_BUF_SIZE : nat := 256.
Definition NANORTC_H265_SPROP_FMTP_SIZE : nat := 512.
Definition NANORTC_IPV6_STR_SIZE : nat := 46.
Definition NANORTC_TWCC_EXT_ID : Z := 3.
Definition SDP_MAX_MESSAGE_SIZE : Z := 4096.
Definition SDP_LOCAL_CANDIDATES : nat := 4.
Definition SDP_LOCAL_UFRAG_SIZE : nat := 9.
Definition SDP_LOCAL_PWD_SIZE : nat := 24.
Definition SDP_REMOTE_UFRAG_SIZE : nat := 32.
Definition SDP_REMOTE_PWD_SIZE : nat := 48.
Definition SDP_MLINE_APPLICATION : Z := 1.
Definition SDP_MLINE_AUDIO : Z := 2.
Definition SDP_MLINE_VIDEO : Z := 3.
Definition NANORTC_DIR_SENDRECV : Z := 0.
Definition NANORTC_DIR_SENDONLY : Z := 1.
Definition NANORTC_DIR_RECVONLY : Z := 2.
Definition NANORTC_DIR_INACTIVE : Z := 3.

(** A string literal as the octets before its NUL. *)
Definition lit (s : string) : list Z := map (fun a => Z.of_N (N_of_ascii a)) (list_ascii_of_string s).
Definition crlf : list Z := [13; 10].
Definition NANORTC_TWCC_EXT_URI : list Z := lit "http://www.ietf.org/id/draft-holmer-rmcat-transport-wide-cc-extensions-01".

(** * State *)

Inductive sdp_setup : Type := NANORTC_SDP_SETUP_ACTPASS | NANORTC_SDP_SETUP_ACTIVE | NANORTC_SDP_SETUP_PASSIVE.
#[global] Instance sdp_setup_eq_dec : EqDecision sdp_setup.
Proof. solve_decision. Defined.
(** [nano_sdp_candidate_t]. *)
Record sdp_candidate : Type := Candidate { sc_addr : list Z; sc_port : Z }.
(** The H.265 fields a track keeps across a parse. *)
Record h265_local : Type := H265Local { hl_sprop : list Z; hl_sprop_len : nat; hl_profile_id : Z; hl_tier_flag : Z; hl_level_id : Z }.
(** [nano_sdp_mline_t]. *)
Record nano_sdp_mline : Type := Mline {
  ml_kind : Z; ml_mid : Z; ml_pt : Z; ml_remote_pt : Z; ml_sample_rate : Z; ml_channels : Z; ml_codec : Z;
  ml_direction : Z; ml_remote_direction : Z; ml_active : bool;
  ml_h264_rtpmap_pt : Z; ml_twcc_ext_id : Z; ml_h265_rtpmap_pt : Z; ml_h265 : h265_local
}.
Definition ml_set_pt m x := Mline (ml_kind m) (ml_mid m) x (ml_remote_pt m) (ml_sample_rate m) (ml_channels m) (ml_codec m) (ml_direction m) (ml_remote_direction m) (ml_active m) (ml_h264_rtpmap_pt m) (ml_twcc_ext_id m) (ml_h265_rtpmap_pt m) (ml_h265 m).
Definition ml_set_remote_direction m x := Mline (ml_kind m) (ml_mid m) (ml_pt m) (ml_remote_pt m) (ml_sample_rate m) (ml_channels m) (ml_codec m) (ml_direction m) x (ml_active m) (ml_h264_rtpmap_pt m) (ml_twcc_ext_id m) (ml_h265_rtpmap_pt m) (ml_h265 m).
Definition ml_set_h264_rtpmap m x := Mline (ml_kind m) (ml_mid m) (ml_pt m) (ml_remote_pt m) (ml_sample_rate m) (ml_channels m) (ml_codec m) (ml_direction m) (ml_remote_direction m) (ml_active m) x (ml_twcc_ext_id m) (ml_h265_rtpmap_pt m) (ml_h265 m).
Definition ml_set_twcc m x := Mline (ml_kind m) (ml_mid m) (ml_pt m) (ml_remote_pt m) (ml_sample_rate m) (ml_channels m) (ml_codec m) (ml_direction m) (ml_remote_direction m) (ml_active m) (ml_h264_rtpmap_pt m) x (ml_h265_rtpmap_pt m) (ml_h265 m).
Definition ml_set_h265_rtpmap m x := Mline (ml_kind m) (ml_mid m) (ml_pt m) (ml_remote_pt m) (ml_sample_rate m) (ml_channels m) (ml_codec m) (ml_direction m) (ml_remote_direction m) (ml_active m) (ml_h264_rtpmap_pt m) (ml_twcc_ext_id m) x (ml_h265 m).
(** The fields read from the peer's SDP. *)
Record sdp_remote : Type := Remote {
  rs_ufrag : list Z; rs_pwd : list Z; rs_fingerprint : list Z; rs_max_message_size : Z; rs_sctp_port : Z; rs_setup : sdp_setup;
  rs_candidates : list sdp_candidate; rs_candidate_count : nat; rs_end_of_candidates : bool
}.
(** The local fields; [srflx] and [relay] are their address buffer, port and
    [has_] flag. *)
Record sdp_extra : Type := Extra { se_ip : list Z; se_port : Z; se_has : bool }.
Record sdp_local : Type := Local {
  ls_ufrag : list Z; ls_pwd : list Z; ls_fingerprint : list Z; ls_sctp_port : Z; ls_setup : sdp_setup;
  ls_candidates : list sdp_candidate; ls_candidate_count : nat; ls_srflx : sdp_extra; ls_relay : sdp_extra
}.
(** The media lines. *)
Record sdp_media : Type := MediaLines { ms_mlines : list nano_sdp_mline; ms_mline_count : nat; ms_has_datachannel : bool; ms_dc_mid : Z; ms_mid_count : Z }.
(** [nano_sdp_t]. *)
Record nano_sdp : Type := Sdp { sd_remote : sdp_remote; sd_local : sdp_local; sd_media : sdp_media; sd_parsed : bool }.
Definition with_remote_sdp s x := Sdp x (sd_local s) (sd_media s) (sd_parsed s).
Definition with_media s x := Sdp (sd_remote s) (sd_local s) x (sd_parsed s).
Definition set_mlines md x := MediaLines x (ms_mline_count md) (ms_has_datachannel md) (ms_dc_mid md) (ms_mid_count md).

Definition h265_zero : h265_local := H265Local (replicate NANORTC_H265_SPROP_FMTP_SIZE 0) 0 0 0 0.
Definition mline_zero : nano_sdp_mline := Mline 0 0 0 0 0 0 0 0 0 false 0 0 0 h265_zero.
Definition sdp_candidate_zero : sdp_candidate := Candidate (replicate NANORTC_IPV6_STR_SIZE 0) 0.
Definition extra_zero : sdp_extra := Extra (replicate NANORTC_IPV6_STR_SIZE 0) 0 false.
Definition sdp_init : nano_sdp :=
  Sdp (Remote (replicate SDP_REMOTE_UFRAG_SIZE 0) (replicate SDP_REMOTE_PWD_SIZE 0) (replicate NANORTC_SDP_FINGERPRINT_SIZE 0) 0 0 NANORTC_SDP_SETUP_ACTPASS
         (replicate NANORTC_SDP_MAX_CANDIDATES sdp_candidate_zero) 0 false)
      (Local (replicate SDP_LOCAL_UFRAG_SIZE 0) (replicate SDP_LOCAL_PWD_SIZE 0) (replicate NANORTC_SDP_FINGERPRINT_SIZE 0) 5000 NANORTC_SDP_SETUP_PASSIVE
         (replicate SDP_LOCAL_CANDIDATES sdp_candidate_zero) 0 extra_zero extra_zero)
      (MediaLines (replicate NANORTC_MAX_MEDIA_TRACKS mline_zero) 0 false 0 0) false.

(** * Reading a line *)

(** The number and what follows its digits. *)
Fixpoint parse_digits (val : Z) (p : list Z) : Z * list Z :=
  match p with
  | c :: r => if is_digit c then parse_digits (u32 (val * 10 + (c - 48))) r else (val, p)
  | [] => (val, [])
  end.
Definition parse_u32 (p : list Z) : Z * list Z := parse_digits 0 p.
(** The length of the first line, its end of line included. *)
Fixpoint find_eol (s : list Z) : nat :=
  match s with
  | [] => 0
  | c :: r =>
      if c =? 10 then 1
      else match r with
           | d :: _ => if (c =? 13) && (d =? 10) then 2 else S (find_eol r)
           | [] => 1
           end
  end.
Fixpoint line_starts_with (line prefix : list Z) {struct prefix} : bool :=
  match prefix, line with
  | [], _ => true
  | c :: p, d :: l => (c =? d) && line_starts_with l p
  | _, [] => false
  end.
(** The value up to the end of line, without trailing blanks. *)
Fixpoint until_eol (val : list Z) : list Z :=
  match val with c :: r => if (c =? 13) || (c =? 10) then [] else c :: until_eol r | [] => [] end.
Fixpoint drop_while (P : Z -> bool) (l : list Z) : list Z := match l with c :: r => if P c then drop_while P r else l | [] => [] end.
Definition strip_end (P : Z -> bool) (l : list Z) : list Z := rev (drop_while P (rev l)).
Definition is_blank (c : Z) : bool := (c =? 32) || (c =? 9).
Definition extract_value (line : list Z) (plen : nat) (dst : list Z) : res (list Z) :=
  let dst_size := length dst in
  let v := strip_end is_blank (until_eol (drop plen line)) in
  let vlen := if (dst_size <=? length v)%nat then (dst_size - 1)%nat else length v in
  dst ← wr dst 0 (take vlen v);
  wr dst vlen [0].
(** From one blank-separated field to the next. *)
Fixpoint skip_word (p : list Z) : list Z := match p with c :: r => if c =? 32 then p else skip_word r | [] => [] end.
Fixpoint take_word (p : list Z) : list Z := match p with c :: r => if c =? 32 then [] else c :: take_word r | [] => [] end.
Definition skip_spaces (p : list Z) : list Z := drop_while (fun c => c =? 32) p.
Definition next_field (p : list Z) : list Z := skip_spaces (skip_word p).

Definition parse_mline_first_pt (line : list Z) (skip : nat) : Z :=
  match next_field (next_field (drop skip line)) with [] => 0 | p => u8 (fst (parse_u32 p)) end.
Definition parse_rtpmap (ml : nano_sdp_mline) (line : list Z) : nano_sdp_mline :=
  let p := drop 9 line in
  let '(pt, next) := parse_u32 p in
  if (length next =? length p)%nat then ml else
  match next with
  | c :: p =>
      if negb (c =? 32) then ml else
      if ml_kind ml =? SDP_MLINE_VIDEO then
        if line_starts_with p (lit "H264") then ml_set_h264_rtpmap ml (u8 pt)
        else if line_starts_with p (lit "H265") then
          let ml := ml_set_h265_rtpmap ml (u8 pt) in
          if ml_codec ml =? NANORTC_CODEC_H265 then ml_set_pt ml (u8 pt) else ml
        else ml
      else ml
  | [] => ml
  end.
(** What the scan of an fmtp line finds. *)
Record fmtp_flags : Type := Fmtp { ff_mode1 : bool; ff_profile : bool; ff_bad_txmode : bool; ff_bad_don : bool }.
Definition bad_don (search : list Z) : bool :=
  line_starts_with search (lit "sprop-max-don-diff=") &&
  match drop 19 search with c :: _ => is_digit c && negb (c =? 48) | [] => false end.
Fixpoint scan_fmtp (search : list Z) (f : fmtp_flags) : fmtp_flags :=
  match search with
  | [] => f
  | _ :: r =>
      if (length search <? 12)%nat then f else
      scan_fmtp r (Fmtp (ff_mode1 f || line_starts_with search (lit "packetization-mode=1"))
                        (ff_profile f || line_starts_with search (lit "profile-level-id=42e01f"))
                        (ff_bad_txmode f || line_starts_with search (lit "tx-mode=MSMT") || line_starts_with search (lit "tx-mode=MSST"))
                        (ff_bad_don f || bad_don search))
  end.
(** The m-line after an fmtp line, and whether the line rejects the offer. *)
Definition parse_fmtp (ml : nano_sdp_mline) (line : list Z) : nano_sdp_mline * bool :=
  let '(fmtp_pt, search) := parse_u32 (drop 7 line) in
  let f := scan_fmtp search (Fmtp false false false false) in
  let is_valid_h264 := ff_mode1 f && ((ml_h264_rtpmap_pt ml =? 0) || (ml_h264_rtpmap_pt ml =? u8 fmtp_pt)) in
  let local_is_h265 := ml_codec ml =? NANORTC_CODEC_H265 in
  let ml := if is_valid_h264 && negb local_is_h265 && (ff_profile f || (ml_pt ml =? 0)) then ml_set_pt ml (u8 fmtp_pt) else ml in
  if negb (ml_h265_rtpmap_pt ml =? 0) && (u8 fmtp_pt =? ml_h265_rtpmap_pt ml) then
    if ff_bad_txmode f || ff_bad_don f then (ml, true)
    else if (ml_pt ml =? 0) || (ml_codec ml =? NANORTC_CODEC_H265) then (ml_set_pt ml (u8 fmtp_pt), false) else (ml, false)
  else (ml, false).
Definition parse_extmap (ml : nano_sdp_mline) (line : list Z) : nano_sdp_mline :=
  let '(ext_id, p) := parse_u32 (drop 9 line) in
  if (1 <=? ext_id) && (ext_id <=? 14) then
    let p := match p with c :: r => if c =? 47 then drop_while (fun c => negb (is_blank c)) r else p | [] => p end in
    let p := drop_while is_blank p in
    if line_starts_with p NANORTC_TWCC_EXT_URI &&
       match drop (length NANORTC_TWCC_EXT_URI) p with [] => true | c :: _ => is_blank c || (c =? 13) || (c =? 10) end
    then ml_set_twcc ml (u8 ext_id) else ml
  else ml.
Definition direction_of (line : list Z) : Z :=
  if line_starts_with line (lit "a=sendonly") then NANORTC_DIR_SENDONLY
  else if line_starts_with line (lit "a=recvonly") then NANORTC_DIR_RECVONLY
  else if line_starts_with line (lit "a=inactive") then NANORTC_DIR_INACTIVE
  else NANORTC_DIR_SENDRECV.
Definition is_direction (line : list Z) : bool :=
  line_starts_with line (lit "a=sendrecv") || line_starts_with line (lit "a=sendonly") ||
  line_starts_with line (lit "a=recvonly") || line_starts_with line (lit "a=inactive").

(** * The parser *)

(** The digits of [a=max-message-size]; [None] is the parse error. *)
Fixpoint parse_limit (v : list Z) (limit : Z) : option Z :=
  match v with
  | [] => Some limit
  | c :: v => if negb (is_digit c) || ((UINT32_MAX - (c - 48)) / 10 <? limit) then None else parse_limit v (u32 (limit * 10 + (c - 48)))
  end.
Definition is_line_end (c : Z) : bool := (c =? 13) || (c =? 10) || is_blank c.
Definition parse_setup (line : list Z) : res sdp_setup :=
  setup_str ← extract_value line 8 (replicate 16 0);
  Ok (if line_starts_with setup_str (lit "active") then NANORTC_SDP_SETUP_ACTIVE
      else if line_starts_with setup_str (lit "passive") then NANORTC_SDP_SETUP_PASSIVE
      else NANORTC_SDP_SETUP_ACTPASS).
Definition parse_candidate (r : sdp_remote) (line : list Z) : res sdp_remote :=
  if (rs_candidate_count r <? NANORTC_SDP_MAX_CANDIDATES)%nat then
    let p := Nat.iter 4 next_field (drop 12 line) in
    let addr := take_word p in
    let cand_port := u16 (fst (parse_u32 (skip_spaces (skip_word p)))) in
    if (0 <? length addr)%nat && (length addr <? NANORTC_IPV6_STR_SIZE)%nat && (0 <? cand_port) then
      match rs_candidates r !! rs_candidate_count r with
      | None => Fault
      | Some c =>
          a ← wr (sc_addr c) 0 addr;
          a ← wr a (length addr) [0];
          Ok (Remote (rs_ufrag r) (rs_pwd r) (rs_fingerprint r) (rs_max_message_size r) (rs_sctp_port r) (rs_setup r)
                (<[rs_candidate_count r := Candidate a cand_port]> (rs_candidates r)) (S (rs_candidate_count r)) (rs_end_of_candidates r))
      end
    else Ok r
  else Ok r.
(** The session attributes: the remote fields after the line, and the code. *)
Definition parse_session (r : sdp_remote) (line : list Z) : res (sdp_remote * Z) :=
  if line_starts_with line (lit "a=ice-ufrag:") then
    x ← extract_value line 12 (rs_ufrag r);
    Ok (Remote x (rs_pwd r) (rs_fingerprint r) (rs_max_message_size r) (rs_sctp_port r) (rs_setup r) (rs_candidates r) (rs_candidate_count r) (rs_end_of_candidates r), NANORTC_OK)
  else if line_starts_with line (lit "a=ice-pwd:") then
    x ← extract_value line 10 (rs_pwd r);
    Ok (Remote (rs_ufrag r) x (rs_fingerprint r) (rs_max_message_size r) (rs_sctp_port r) (rs_setup r) (rs_candidates r) (rs_candidate_count r) (rs_end_of_candidates r), NANORTC_OK)
  else if line_starts_with line (lit "a=fingerprint:") then
    x ← extract_value line 14 (rs_fingerprint r);
    Ok (Remote (rs_ufrag r) (rs_pwd r) x (rs_max_message_size r) (rs_sctp_port r) (rs_setup r) (rs_candidates r) (rs_candidate_count r) (rs_end_of_candidates r), NANORTC_OK)
  else if line_starts_with line (lit "a=max-message-size:") then
    match strip_end is_line_end (drop 19 line) with
    | [] => Ok (r, NANORTC_ERR_PARSE)
    | v => match parse_limit v 0 with
           | None => Ok (r, NANORTC_ERR_PARSE)
           | Some x => Ok (Remote (rs_ufrag r) (rs_pwd r) (rs_fingerprint r) x (rs_sctp_port r) (rs_setup r) (rs_candidates r) (rs_candidate_count r) (rs_end_of_candidates r), NANORTC_OK)
           end
    end
  else if line_starts_with line (lit "a=sctp-port:") then
    let x := u16 (fst (parse_u32 (drop 12 line))) in
    Ok (Remote (rs_ufrag r) (rs_pwd r) (rs_fingerprint r) (rs_max_message_size r) x (rs_setup r) (rs_candidates r) (rs_candidate_count r) (rs_end_of_candidates r), NANORTC_OK)
  else if line_starts_with line (lit "a=setup:") then
    x ← parse_setup line;
    Ok (Remote (rs_ufrag r) (rs_pwd r) (rs_fingerprint r) (rs_max_message_size r) (rs_sctp_port r) x (rs_candidates r) (rs_candidate_count r) (rs_end_of_candidates r), NANORTC_OK)
  else if line_starts_with line (lit "a=candidate:") then
    r ← parse_candidate r line;
    Ok (r, NANORTC_OK)
  else if line_starts_with line (lit "a=end-of-candidates") then
    Ok (Remote (rs_ufrag r) (rs_pwd r) (rs_fingerprint r) (rs_max_message_size r) (rs_sctp_port r) (rs_setup r) (rs_candidates r) (rs_candidate_count r) true, NANORTC_OK)
  else Ok (r, NANORTC_OK).

(** What a track keeps: the codec and the H.265 fields. *)
Record mline_saved : Type := Saved { sv_codec : Z; sv_h265 : h265_local }.
Definition save_mline (m : nano_sdp_mline) : mline_saved :=
  let h := ml_h265 m in
  let flen := hl_sprop_len h in
  Saved (ml_codec m)
    (H265Local (if (0 <? flen)%nat && (flen <=? NANORTC_H265_SPROP_FMTP_SIZE)%nat
                then take flen (hl_sprop h) ++ replicate (NANORTC_H265_SPROP_FMTP_SIZE - flen) 0 else replicate NANORTC_H265_SPROP_FMTP_SIZE 0)
       flen (hl_profile_id h) (hl_tier_flag h) (hl_level_id h)).
(** The m-line of a new media section; a saved length beyond the buffer would
    be copied out of it. *)
Definition new_mline (is_video : bool) (mid : Z) (line : list Z) (p : option mline_saved) : res nano_sdp_mline :=
  let ml := Mline (if is_video then SDP_MLINE_VIDEO else SDP_MLINE_AUDIO) mid 0 (parse_mline_first_pt line 8) 0 0 0 0 0 true 0 0 0 h265_zero in
  match p with
  | None => Ok ml
  | Some p =>
      let h := sv_h265 p in
      sprop ← (if is_video && (0 <? hl_sprop_len h)%nat then
                 x ← rdn (hl_sprop h) 0 (hl_sprop_len h); b ← wr (hl_sprop h265_zero) 0 x; Ok (b, hl_sprop_len h)
               else Ok (hl_sprop h265_zero, 0%nat));
      Ok (Mline (ml_kind ml) (ml_mid ml) 0 (ml_remote_pt ml) 0 0 (sv_codec p) 0 0 true 0 0 0
            (H265Local (fst sprop) (snd sprop) (hl_profile_id h) (hl_tier_flag h) (hl_level_id h)))
  end.

(** The parser between two lines: the state, the current media section and
    whether an fmtp line has rejected the offer. *)
Record sdp_parser : Type := Parser { pr_sdp : nano_sdp; pr_current : option nat; pr_reject : bool }.
Definition on_mline (st : sdp_parser) (i : nat) (f : nano_sdp_mline -> nano_sdp_mline * bool) : res sdp_parser :=
  let md := sd_media (pr_sdp st) in
  match ms_mlines md !! i with
  | None => Fault
  | Some ml => let '(ml, reject) := f ml in
               Ok (Parser (with_media (pr_sdp st) (set_mlines md (<[i := ml]> (ms_mlines md)))) (Some i) (pr_reject st || reject))
  end.
Definition media_section (saved : list mline_saved) (st : sdp_parser) (is_video : bool) (line : list Z) : res sdp_parser :=
  let s := pr_sdp st in
  let md := sd_media s in
  let mid_count := u8 (ms_mid_count md + 1) in
  if (ms_mline_count md <? NANORTC_MAX_MEDIA_TRACKS)%nat then
    let idx := ms_mline_count md in
    match ms_mlines md !! idx with
    | None => Fault
    | Some _ =>
        ml ← new_mline is_video (ms_mid_count md) line (saved !! idx);
        Ok (Parser (with_media s (MediaLines (<[idx := ml]> (ms_mlines md)) (S idx) (ms_has_datachannel md) (ms_dc_mid md) mid_count)) (Some idx) (pr_reject st))
    end
  else Ok (Parser (with_media s (MediaLines (ms_mlines md) (ms_mline_count md) (ms_has_datachannel md) (ms_dc_mid md) mid_count)) None (pr_reject st)).
Definition is_video_mline (st : sdp_parser) (i : nat) : bool :=
  match ms_mlines (sd_media (pr_sdp st)) !! i with Some ml => ml_kind ml =? SDP_MLINE_VIDEO | None => false end.
Definition session_line (st : sdp_parser) (line : list Z) : res (sdp_parser * Z) :=
  '(r, rc) ← parse_session (sd_remote (pr_sdp st)) line;
  Ok (Parser (with_remote_sdp (pr_sdp st) r) (pr_current st) (pr_reject st), rc).
Definition parse_line (saved : list mline_saved) (st : sdp_parser) (line : list Z) : res (sdp_parser * Z) :=
  let s := pr_sdp st in
  let md := sd_media s in
  if line_starts_with line (lit "m=application ") then
    Ok (Parser (with_media s (MediaLines (ms_mlines md) (ms_mline_count md) true (ms_mid_count md) (u8 (ms_mid_count md + 1)))) None (pr_reject st), NANORTC_OK)
  else if line_starts_with line (lit "m=audio ") || line_starts_with line (lit "m=video ") then
    st ← media_section saved st (line_starts_with line (lit "m=video ")) line;
    Ok (st, NANORTC_OK)
  else if line_starts_with line (lit "m=") then
    Ok (Parser (with_media s (MediaLines (ms_mlines md) (ms_mline_count md) (ms_has_datachannel md) (ms_dc_mid md) (u8 (ms_mid_count md + 1)))) None (pr_reject st), NANORTC_OK)
  else
    match pr_current st with
    | None => session_line st line
    | Some i =>
        if line_starts_with line (lit "a=rtpmap:") then st ← on_mline st i (fun ml => (parse_rtpmap ml line, false)); Ok (st, NANORTC_OK)
        else if is_video_mline st i && line_starts_with line (lit "a=fmtp:") then st ← on_mline st i (fun ml => parse_fmtp ml line); Ok (st, NANORTC_OK)
        else if line_starts_with line (lit "a=extmap:") then st ← on_mline st i (fun ml => (parse_extmap ml line, false)); Ok (st, NANORTC_OK)
        else if is_direction line then st ← on_mline st i (fun ml => (ml_set_remote_direction ml (direction_of line), false)); Ok (st, NANORTC_OK)
        else session_line st line
    end.
Fixpoint parse_lines (fuel : nat) (saved : list mline_saved) (st : sdp_parser) (text : list Z) : res (sdp_parser * Z) :=
  match text with
  | [] => Ok (st, NANORTC_OK)
  | _ =>
      match fuel with
      | O => Fault
      | S fuel =>
          let n := find_eol text in
          '(st, rc) ← parse_line saved st (take n text);
          if negb (rc =? NANORTC_OK) then Ok (st, rc) else parse_lines fuel saved st (drop n text)
      end
  end.
Definition sdp_parse (s : nano_sdp) (sdp_str : list Z) : res (nano_sdp * Z) :=
  if (length sdp_str =? 0)%nat then Ok (s, NANORTC_ERR_INVALID_PARAM) else
  let md := sd_media s in
  let saved := map save_mline (take (Nat.min (ms_mline_count md) NANORTC_MAX_MEDIA_TRACKS) (ms_mlines md)) in
  let r := sd_remote s in
  let r := Remote (rs_ufrag r) (rs_pwd r) (rs_fingerprint r) 65536 (rs_sctp_port r) (rs_setup r) (rs_candidates r) (rs_candidate_count r) (rs_end_of_candidates r) in
  let s := Sdp r (sd_local s) (MediaLines (ms_mlines md) 0 false (ms_dc_mid md) 0) (sd_parsed s) in
  '(st, rc) ← parse_lines (length sdp_str) saved (Parser s None false) sdp_str;
  let s := pr_sdp st in
  if negb (rc =? NANORTC_OK) then Ok (s, rc) else
  ufrag ← rd8 (rs_ufrag (sd_remote s)) 0;
  pwd ← rd8 (rs_pwd (sd_remote s)) 0;
  if (ufrag =? 0) || (pwd =? 0) then Ok (s, NANORTC_ERR_PARSE) else
  if pr_reject st then Ok (s, NANORTC_ERR_PARSE) else
  Ok (Sdp (sd_remote s) (sd_local s) (sd_media s) true, NANORTC_OK).

(** * The m-line table *)

Fixpoint find_mline (k : nat) (l : list nano_sdp_mline) (i : nat) (mid : Z) : res (option nat) :=
  match k with
  | O => Ok None
  | S k => match l !! i with
           | None => Fault
           | Some m => if ml_active m && (ml_mid m =? mid) then Ok (Some i) else find_mline k l (S i) mid
           end
  end.
Definition sdp_find_mline (s : nano_sdp) (mid : Z) : res (option nat) :=
  find_mline (ms_mline_count (sd_media s)) (ms_mlines (sd_media s)) 0 mid.
Definition sdp_add_mline (s : nano_sdp) (kind codec pt sample_rate channels direction : Z) : res (nano_sdp * Z) :=
  let md := sd_media s in
  if (NANORTC_MAX_MEDIA_TRACKS <=? ms_mline_count md)%nat then Ok (s, NANORTC_ERR_BUFFER_TOO_SMALL) else
  match ms_mlines md !! ms_mline_count md with
  | None => Fault
  | Some _ =>
      let ml := Mline kind (ms_mid_count md) pt 0 sample_rate channels codec direction 0 true 0 0 0 h265_zero in
      Ok (with_media s (MediaLines (<[ms_mline_count md := ml]> (ms_mlines md)) (S (ms_mline_count md)) (ms_has_datachannel md) (ms_dc_mid md) (u8 (ms_mid_count md + 1))),
          ms_mid_count md)
  end.

(** * The generator *)

(** The buffer and the cursor; a failed append is [NANORTC_ERR_BUFFER_TOO_SMALL],
    the code of the [overflow] label. *)
Definition writer : Type := list Z * nat.
Definition sdp_append (w : writer) (str : list Z) : res writer :=
  let '(buf, pos) := w in
  let slen := length str in
  if (length buf <=? pos + slen)%nat then Err NANORTC_ERR_BUFFER_TOO_SMALL else
  buf ← wr buf pos str;
  buf ← wr buf (pos + slen) [0];
  Ok (buf, (pos + slen)%nat).
(** The digits of [v], last first, in an array of [size] octets. *)
Fixpoint rev_digits (size : nat) (v : Z) : res (list Z) :=
  if 0 <? v then
    match size with
    | O => Fault
    | S size => r ← rev_digits size (v / 10); Ok (48 + v mod 10 :: r)
    end
  else Ok [].
Definition decimal (size : nat) (v : Z) : res (list Z) :=
  if v =? 0 then Ok [48] else r ← rev_digits size v; Ok (rev r).
Definition sdp_append_u16 (w : writer) (val : Z) : res writer := tmp ← decimal 8 val; sdp_append w tmp.
Definition sdp_append_u32 (w : writer) (val : Z) : res writer := tmp ← decimal 12 val; sdp_append w tmp.
(** The text of a character array, up to its NUL. *)
Fixpoint c_string (b : list Z) : res (list Z) :=
  match b with [] => Fault | c :: r => if c =? 0 then Ok [] else s ← c_string r; Ok (c :: s) end.
Definition sdp_append_array (w : writer) (b : list Z) : res writer := s ← c_string b; sdp_append w s.

Definition sdp_append_transport_attrs (l : sdp_local) (w : writer) : res writer :=
  w ← sdp_append w (lit "a=ice-ufrag:");
  w ← sdp_append_array w (ls_ufrag l);
  w ← sdp_append w crlf;
  w ← sdp_append w (lit "a=ice-pwd:");
  w ← sdp_append_array w (ls_pwd l);
  w ← sdp_append w crlf;
  c ← rd8 (ls_fingerprint l) 0;
  w ← (if negb (c =? 0) then
         w ← sdp_append w (lit "a=fingerprint:");
         w ← sdp_append_array w (ls_fingerprint l);
         sdp_append w crlf
       else Ok w);
  sdp_append w (match ls_setup l with
                | NANORTC_SDP_SETUP_ACTIVE => lit "a=setup:active" ++ crlf
                | NANORTC_SDP_SETUP_ACTPASS => lit "a=setup:actpass" ++ crlf
                | NANORTC_SDP_SETUP_PASSIVE => lit "a=setup:passive" ++ crlf
                end).
Definition type_priority (type_pref idx : Z) : Z := u32 (Z.lor (Z.lor (u32 (Z.shiftl type_pref 24)) (u32 (Z.shiftl (u32 (65535 - idx)) 8))) 255).
Definition ICE_HOST_PRIORITY (idx : Z) : Z := type_priority 126 idx.
Definition ICE_SRFLX_PRIORITY (idx : Z) : Z := type_priority 100 idx.
Definition ICE_RELAY_PRIORITY (idx : Z) : Z := type_priority 0 idx.
(** [k] host candidates from index [i] on. *)
Fixpoint append_host_candidates (k : nat) (cs : list sdp_candidate) (i : nat) (w : writer) : res writer :=
  match k with
  | O => Ok w
  | S k =>
      match cs !! i with
      | None => Fault
      | Some c =>
          first ← rd8 (sc_addr c) 0;
          w ← (if first =? 0 then Ok w else
               w ← sdp_append w (lit "a=candidate:");
               w ← sdp_append_u16 w (u16 (Z.of_nat i + 1));
               w ← sdp_append w (lit " 1 UDP ");
               w ← sdp_append_u32 w (ICE_HOST_PRIORITY (Z.of_nat i));
               w ← sdp_append w (lit " ");
               w ← sdp_append_array w (sc_addr c);
               w ← sdp_append w (lit " ");
               w ← sdp_append_u16 w (sc_port c);
               sdp_append w (lit " typ host" ++ crlf));
          append_host_candidates k cs (S i) w
      end
  end.
Definition sdp_append_host_candidates (l : sdp_local) (w : writer) : res writer :=
  append_host_candidates (ls_candidate_count l) (ls_candidates l) 0 w.
Definition has_colon (s : list Z) : bool := existsb (fun c => c =? 58) s.
Definition sdp_append_related_address (w : writer) (ip : list Z) : res writer :=
  len ← nanortc_strnlen ip NANORTC_IPV6_STR_SIZE;
  text ← rdn ip 0 len;
  sdp_append w (if has_colon text then lit " raddr :: rport 9" else lit " raddr 0.0.0.0 rport 9").
(** The server-reflexive and the relay candidate differ in their constants. *)
Definition append_extra_candidate (e : sdp_extra) (head typ : list Z) (prio : Z) (w : writer) : res writer :=
  first ← rd8 (se_ip e) 0;
  if negb (se_has e) || (first =? 0) then Ok w else
  w ← sdp_append w head;
  w ← sdp_append_u32 w prio;
  w ← sdp_append w (lit " ");
  w ← sdp_append_array w (se_ip e);
  w ← sdp_append w (lit " ");
  w ← sdp_append_u16 w (se_port e);
  w ← sdp_append w typ;
  w ← sdp_append_related_address w (se_ip e);
  sdp_append w crlf.
Definition sdp_append_srflx_candidate (l : sdp_local) (w : writer) : res writer :=
  append_extra_candidate (ls_srflx l) (lit "a=candidate:3 1 UDP ") (lit " typ srflx") (ICE_SRFLX_PRIORITY (Z.of_nat (ls_candidate_count l))) w.
Definition sdp_append_relay_candidate (l : sdp_local) (w : writer) : res writer :=
  let relay_idx := u8 (Z.of_nat (ls_candidate_count l) + (if se_has (ls_srflx l) then 1 else 0)) in
  append_extra_candidate (ls_relay l) (lit "a=candidate:2 1 UDP ") (lit " typ relay") (ICE_RELAY_PRIORITY relay_idx) w.
Definition sdp_local_is_ipv6 (l : sdp_local) : res bool :=
  if (0 <? ls_candidate_count l)%nat then
    match ls_candidates l !! 0%nat with
    | None => Fault
    | Some c => s ← c_string (sc_addr c); Ok (has_colon s)
    end
  else Ok false.
Definition sdp_connection_line (l : sdp_local) : res (list Z) :=
  six ← sdp_local_is_ipv6 l; Ok (if (six : bool) then lit "c=IN IP6 ::" ++ crlf else lit "c=IN IP4 0.0.0.0" ++ crlf).
Definition sdp_origin_line (l : sdp_local) : res (list Z) :=
  six ← sdp_local_is_ipv6 l; Ok (if (six : bool) then lit "o=- 1 1 IN IP6 ::" ++ crlf else lit "o=- 1 1 IN IP4 0.0.0.0" ++ crlf).

(** What every m-line begins with, from its number to its transport. *)
Definition append_mid (l : sdp_local) (mid : Z) (w : writer) : res writer :=
  c ← sdp_connection_line l;
  w ← sdp_append w c;
  w ← sdp_append w (lit "a=mid:");
  w ← sdp_append_u16 w mid;
  sdp_append w crlf.
Definition sdp_append_datachannel_mline (l : sdp_local) (w : writer) (mid : Z) : res writer :=
  w ← sdp_append w (lit "m=application 9 UDP/DTLS/SCTP webrtc-datachannel" ++ crlf);
  w ← append_mid l mid w;
  w ← sdp_append w (lit "a=sendrecv" ++ crlf);
  w ← sdp_append w (lit "a=ice-options:trickle" ++ crlf);
  w ← sdp_append_transport_attrs l w;
  w ← sdp_append w (lit "a=sctp-port:");
  w ← sdp_append_u16 w (ls_sctp_port l);
  w ← sdp_append w crlf;
  w ← sdp_append w (lit "a=max-message-size:");
  w ← sdp_append_u16 w (u16 SDP_MAX_MESSAGE_SIZE);
  sdp_append w crlf.
Definition sdp_append_direction (w : writer) (dir : Z) : res writer :=
  sdp_append w (if dir =? NANORTC_DIR_SENDONLY then lit "a=sendonly" ++ crlf
                else if dir =? NANORTC_DIR_RECVONLY then lit "a=recvonly" ++ crlf
                else if dir =? NANORTC_DIR_INACTIVE then lit "a=inactive" ++ crlf
                else lit "a=sendrecv" ++ crlf).
(** The head of a media m-line up to [a=rtpmap:] and its payload type. *)
Definition append_media_head (l : sdp_local) (ml : nano_sdp_mline) (head : list Z) (mid : Z) (w : writer) : res writer :=
  w ← sdp_append w head;
  w ← sdp_append_u16 w (ml_pt ml);
  w ← sdp_append w crlf;
  w ← append_mid l mid w;
  w ← sdp_append_direction w (ml_direction ml);
  w ← sdp_append_transport_attrs l w;
  w ← sdp_append w (lit "a=rtcp-mux" ++ crlf);
  w ← sdp_append w (lit "a=rtpmap:");
  sdp_append_u16 w (ml_pt ml).
Definition sdp_append_audio_mline (l : sdp_local) (ml : nano_sdp_mline) (w : writer) (mid : Z) : res writer :=
  w ← append_media_head l ml (lit "m=audio 9 UDP/TLS/RTP/SAVPF ") mid w;
  w ← sdp_append w (if ml_pt ml =? 0 then lit " PCMU/8000" else if ml_pt ml =? 8 then lit " PCMA/8000" else lit " opus/48000/2");
  w ← sdp_append w crlf;
  if ml_sample_rate ml =? 48000 then
    w ← sdp_append w (lit "a=fmtp:");
    w ← sdp_append_u16 w (ml_pt ml);
    w ← sdp_append w (if 2 <=? ml_channels ml then lit " minptime=10;useinbandfec=1;stereo=1" ++ crlf else lit " minptime=10;useinbandfec=1;stereo=0" ++ crlf);
    sdp_append w (lit "a=ptime:20" ++ crlf)
  else Ok w.
(** [";"] and the sprop fragment, written without the helper. *)
Definition append_sprop (h : h265_local) (w : writer) : res writer :=
  let '(buf, pos) := w in
  let frag_len := hl_sprop_len h in
  if (0 <? frag_len)%nat then
    if (length buf <=? pos + frag_len + 1)%nat then Err NANORTC_ERR_BUFFER_TOO_SMALL else
    buf ← wr buf pos [59];
    frag ← rdn (hl_sprop h) 0 frag_len;
    buf ← wr buf (pos + 1) frag;
    buf ← wr buf (pos + 1 + frag_len) [0];
    Ok (buf, (pos + 1 + frag_len)%nat)
  else Ok (buf, pos).
Definition append_video_codec (ml : nano_sdp_mline) (w : writer) : res writer :=
  if ml_codec ml =? NANORTC_CODEC_H265 then
    let h := ml_h265 ml in
    w ← sdp_append w (lit " H265/90000" ++ crlf);
    w ← sdp_append w (lit "a=fmtp:");
    w ← sdp_append_u16 w (ml_pt ml);
    w ← sdp_append w (lit " profile-id=");
    w ← sdp_append_u16 w (if hl_profile_id h =? 0 then 1 else hl_profile_id h);
    w ← sdp_append w (lit ";tier-flag=");
    w ← sdp_append_u16 w (hl_tier_flag h);
    w ← sdp_append w (lit ";level-id=");
    w ← sdp_append_u16 w (if hl_level_id h =? 0 then 93 else hl_level_id h);
    w ← sdp_append w (lit ";tx-mode=SRST");
    w ← append_sprop h w;
    sdp_append w crlf
  else
    w ← sdp_append w (lit " H264/90000" ++ crlf);
    w ← sdp_append w (lit "a=fmtp:");
    w ← sdp_append_u16 w (ml_pt ml);
    sdp_append w (lit " level-asymmetry-allowed=1;packetization-mode=1;profile-level-id=42e01f" ++ crlf).
(** The writer, and the m-line with the extension id it has advertised. *)
Definition sdp_append_video_mline (l : sdp_local) (ml : nano_sdp_mline) (w : writer) (mid : Z) : res (writer * nano_sdp_mline) :=
  w ← append_media_head l ml (lit "m=video 9 UDP/TLS/RTP/SAVPF ") mid w;
  w ← append_video_codec ml w;
  w ← sdp_append w (lit "a=rtcp-fb:");
  w ← sdp_append_u16 w (ml_pt ml);
  w ← sdp_append w (lit " nack pli" ++ crlf);
  w ← sdp_append w (lit "a=rtcp-fb:");
  w ← sdp_append_u16 w (ml_pt ml);
  w ← sdp_append w (lit " transport-cc" ++ crlf);
  let twcc_id := if ml_twcc_ext_id ml =? 0 then u8 NANORTC_TWCC_EXT_ID else ml_twcc_ext_id ml in
  if (1 <=? twcc_id) && (twcc_id <=? 14) then
    w ← sdp_append w (lit "a=extmap:");
    w ← sdp_append_u16 w twcc_id;
    w ← sdp_append w (lit " " ++ NANORTC_TWCC_EXT_URI ++ crlf);
    Ok (w, ml_set_twcc ml twcc_id)
  else Ok (w, ml).

(** An entry of the m-line table: type, MID and index. *)
Record sdp_entry : Type := Entry { en_type : Z; en_mid : Z; en_idx : nat }.
Fixpoint media_entries (k : nat) (l : list nano_sdp_mline) (i : nat) : res (list sdp_entry) :=
  match k with
  | O => Ok []
  | S k => match l !! i with
           | None => Fault
           | Some m => rest ← media_entries k l (S i); Ok (if ml_active m then Entry (ml_kind m) (ml_mid m) i :: rest else rest)
           end
  end.
(** One pass of the outer loop: [x] against each later element, exchanged with
    those of a smaller MID. *)
Fixpoint sweep (x : sdp_entry) (rest : list sdp_entry) : sdp_entry * list sdp_entry :=
  match rest with
  | [] => (x, [])
  | y :: r => if en_mid y <? en_mid x then let '(m, r) := sweep y r in (m, x :: r) else let '(m, r) := sweep x r in (m, y :: r)
  end.
Fixpoint sort_entries (k : nat) (es : list sdp_entry) : list sdp_entry :=
  match k, es with
  | S k, x :: r => let '(m, r) := sweep x r in m :: sort_entries k r
  | _, _ => es
  end.
Fixpoint append_bundle (es : list sdp_entry) (w : writer) : res writer :=
  match es with
  | [] => Ok w
  | e :: es => w ← sdp_append w (lit " "); w ← sdp_append_u16 w (en_mid e); append_bundle es w
  end.
(** One m-line: the m-line table may change with a video line. *)
Definition append_entry (l : sdp_local) (mls : list nano_sdp_mline) (e : sdp_entry) (w : writer) : res (list nano_sdp_mline * writer) :=
  if en_type e =? SDP_MLINE_APPLICATION then w ← sdp_append_datachannel_mline l w (en_mid e); Ok (mls, w)
  else if en_type e =? SDP_MLINE_AUDIO then
    match mls !! en_idx e with None => Fault | Some ml => w ← sdp_append_audio_mline l ml w (en_mid e); Ok (mls, w) end
  else if en_type e =? SDP_MLINE_VIDEO then
    match mls !! en_idx e with None => Fault | Some ml => '(w, ml) ← sdp_append_video_mline l ml w (en_mid e); Ok (<[en_idx e := ml]> mls, w) end
  else Ok (mls, w).
Definition append_candidates (l : sdp_local) (w : writer) : res writer :=
  w ← sdp_append_host_candidates l w;
  w ← sdp_append_srflx_candidate l w;
  sdp_append_relay_candidate l w.
(** The m-lines in order, the candidates after the first; the table is kept
    even when a later append overflows. *)
Fixpoint append_entries (l : sdp_local) (mls : list nano_sdp_mline) (first : bool) (es : list sdp_entry) (w : writer) : list nano_sdp_mline * res writer :=
  match es with
  | [] => (mls, Ok w)
  | e :: es =>
      match append_entry l mls e w with
      | Ok (mls, w) =>
          match (if first then append_candidates l w else Ok w) with
          | Ok w => append_entries l mls false es w
          | Err rc => (mls, Err rc)
          | Fault => (mls, Fault)
          end
      | Err rc => (mls, Err rc)
      | Fault => (mls, Fault)
      end
  end.
Definition sdp_entries (s : nano_sdp) : res (list sdp_entry) :=
  let md := sd_media s in
  es ← media_entries (ms_mline_count md) (ms_mlines md) 0;
  let es := if ms_has_datachannel md then es ++ [Entry SDP_MLINE_APPLICATION (ms_dc_mid md) 0] else es in
  if (NANORTC_MAX_MEDIA_TRACKS + 1 <? length es)%nat then Fault else
  Ok (sort_entries (length es) es).
(** The state, and the text with its length or the code. *)
Definition sdp_generate_answer (s : nano_sdp) (buf : list Z) : nano_sdp * res writer :=
  let l := sd_local s in
  let head :=
    if (length buf <? NANORTC_SDP_MIN_BUF_SIZE)%nat then Err NANORTC_ERR_INVALID_PARAM else
    w ← sdp_append (buf, 0%nat) (lit "v=0" ++ crlf);
    o ← sdp_origin_line l;
    w ← sdp_append w o;
    w ← sdp_append w (lit "s=-" ++ crlf);
    w ← sdp_append w (lit "t=0 0" ++ crlf);
    es ← sdp_entries s;
    w ← sdp_append w (lit "a=group:BUNDLE");
    w ← append_bundle es w;
    w ← sdp_append w crlf;
    Ok (w, es) in
  match head with
  | Ok (w, es) =>
      let '(mls, r) := append_entries l (ms_mlines (sd_media s)) true es w in
      (with_media s (set_mlines (sd_media s) mls), r)
  | Err rc => (s, Err rc)
  | Fault => (s, Fault)
  end.

(** A concrete offer for evaluation. *)
Definition text_array (s : list Z) (size : nat) : list Z := s ++ replicate (size - length s) 0.
