(* ===== verification/SdpText.v ===== *)
(** What the generator of [src/nano_sdp.c] writes: the lines of an offer or
    answer, in full or not at all. *)

From Stdlib Require Import ZArith Lia String Ascii Sorted.
From stdpp Require Import base list sorting numbers.
From S2P Require Import Prelude Wire Media Sdp.

Local Open Scope Z_scope.

Arguments lit : simpl never.
Arguments crlf : simpl never.

(** * Appending *)

(** The writer over a buffer of [n] octets holds [text] and its NUL. *)
Definition has (n : nat) (text : list Z) (w : writer) : Prop :=
  (length text < n)%nat /\ snd w = length text /\ exists rest, fst w = text ++ rest /\ length (fst w) = n.
(** An appending action: all of [s], or the overflow code. *)
Definition appends (f : writer -> res writer) (s : list Z) : Prop :=
  forall n text w, has n text w ->
  if (n <=? length text + length s)%nat then f w = Err NANORTC_ERR_BUFFER_TOO_SMALL
  else exists w', f w = Ok w' /\ has n (text ++ s) w'.

Lemma appends_append s : appends (fun w => sdp_append w s) s.
Proof.
  intros n text [buf pos] (Hn & Hp & rest & Hb & Hl). cbn [fst snd] in *. subst. unfold sdp_append. rewrite length_app in *.
  destruct (Nat.leb_spec (length text + length rest) (length text + length s)); [done|].
  rewrite wr_append by (done || lia). rewrite bind_Ok. rewrite wr_append by (rewrite ?length_app, ?length_drop; cbn [length]; lia). rewrite bind_Ok.
  eexists. split; [done|]. split; [rewrite !length_app; lia|]. split; [cbn; rewrite length_app; lia|].
  exists ([0] ++ drop (length [0]) (drop (length s) rest)). cbn [fst]. split; [by rewrite <- !app_assoc|]. rewrite !length_app, !length_drop. cbn [length]. lia.
Qed.
Lemma appends_bind f g s t : appends f s -> appends g t -> appends (fun w => w ← f w; g w) (s ++ t).
Proof.
  intros Hf Hg n text w Hw. specialize (Hf n text w Hw). rewrite length_app. destruct (Nat.leb_spec n (length text + length s)) as [|Hs].
  - rewrite Hf. by rewrite (proj2 (Nat.leb_le _ _)) by lia.
  - destruct Hf as (w' & -> & Hw'). rewrite bind_Ok. specialize (Hg n _ w' Hw'). rewrite length_app in Hg. rewrite Nat.add_assoc.
    destruct (_ <=? _)%nat; [done|]. by rewrite app_assoc.
Qed.
Lemma appends_nil : appends (fun w => Ok w) [].
Proof.
  intros n text w Hw. pose proof Hw as [Hn _]. cbn [length]. rewrite (proj2 (Nat.leb_gt _ _)) by lia. exists w. split; [done|]. by rewrite app_nil_r.
Qed.
Lemma appends_eq f s t : appends f s -> s = t -> appends f t.
Proof. by intros H <-. Qed.
Lemma appends_pure {A} (x : res A) (a : A) (k : A -> writer -> res writer) s : x = Ok a -> appends (k a) s -> appends (fun w => a ← x; k a w) s.
Proof. intros -> H n text w Hw. rewrite bind_Ok. by apply H. Qed.

(** * Numerals *)

(** The digits of [v], last first, and the numeral. *)
Fixpoint rdigits (size : nat) (v : Z) : list Z :=
  match size with O => [] | S size => if 0 <? v then 48 + v mod 10 :: rdigits size (v / 10) else [] end.
Definition dec (v : Z) : list Z := if v =? 0 then [48] else rev (rdigits 10 v).
Lemma rev_digits_Ok size : forall k v, (k <= size)%nat -> 0 <= v < 10 ^ Z.of_nat k -> rev_digits size v = Ok (rdigits k v).
Proof.
  induction size as [|size IH]; intros k v Hk Hv.
  - destruct k; [|lia]. change (10 ^ Z.of_nat 0) with 1 in Hv. assert (v = 0) as -> by lia. done.
  - cbn [rev_digits]. destruct k as [|k].
    { change (10 ^ Z.of_nat 0) with 1 in Hv. assert (v = 0) as -> by lia. done. }
    cbn [rdigits]. destruct (Z.ltb_spec 0 v); [|done]. rewrite (IH k); [done | lia|]. rewrite Nat2Z.inj_succ, Z.pow_succ_r in Hv by lia.
    split; [apply Z.div_pos; lia | apply Z.div_lt_upper_bound; lia].
Qed.
Lemma rdigits_more k : forall m v, 0 <= v < 10 ^ Z.of_nat k -> (k <= m)%nat -> rdigits m v = rdigits k v.
Proof.
  intros m v Hv Hm. pose proof (rev_digits_Ok m k v Hm Hv) as H1. assert (0 <= v < 10 ^ Z.of_nat m) as Hv'.
  { split; [lia|]. apply Z.lt_le_trans with (1 := proj2 Hv). apply Z.pow_le_mono_r; lia. }
  pose proof (rev_digits_Ok m m v (le_n _) Hv') as H2. congruence.
Qed.
Lemma decimal_Ok size k v : (k <= size)%nat -> (k <= 10)%nat -> 0 <= v < 10 ^ Z.of_nat k -> decimal size v = Ok (dec v).
Proof.
  intros Hk Hk' Hv. unfold decimal, dec. destruct (v =? 0); [done|]. rewrite (rev_digits_Ok size k) by done. by rewrite bind_Ok, (rdigits_more k 10) by done.
Qed.
Lemma appends_u16 v : is_u16 v -> appends (fun w => sdp_append_u16 w v) (dec v).
Proof.
  intros Hv. unfold sdp_append_u16. eapply (appends_pure _ _ (fun tmp w => sdp_append w tmp)); [|apply appends_append].
  apply (decimal_Ok 8 5); [lia | lia|]. change (10 ^ Z.of_nat 5) with 100000. unfold is_u16 in Hv. lia.
Qed.
Lemma appends_u32 v : is_u32 v -> appends (fun w => sdp_append_u32 w v) (dec v).
Proof.
  intros Hv. unfold sdp_append_u32. eapply (appends_pure _ _ (fun tmp w => sdp_append w tmp)); [|apply appends_append].
  apply (decimal_Ok 12 10); [lia | lia|]. change (10 ^ Z.of_nat 10) with 10000000000. unfold is_u32 in Hv. lia.
Qed.
Lemma dec_digits v : 0 <= v -> Forall (fun c => is_digit c = true) (dec v).
Proof.
  intros Hv. unfold dec. destruct (v =? 0); [by repeat constructor|]. apply Forall_rev. generalize 10%nat. intros k. revert v Hv. induction k as [|k IH]; intros v Hv; cbn [rdigits]; [done|].
  destruct (0 <? v); [|done]. constructor; [|apply IH, Z.div_pos; lia]. pose proof (Z.mod_pos_bound v 10 ltac:(lia)). unfold is_digit. apply andb_true_iff. rewrite !Z.leb_le. lia.
Qed.

(** * Arrays *)

(** The text an array holds, and that it is terminated. *)
Definition text_of (b : list Z) : list Z := match c_string b with Ok s => s | _ => [] end.
Definition terminated (b : list Z) : Prop := c_string b = Ok (text_of b).
Lemma appends_array b : terminated b -> appends (fun w => sdp_append_array w b) (text_of b).
Proof. intros H. unfold sdp_append_array. apply (appends_pure _ _ (fun s w => sdp_append w s) _ H), appends_append. Qed.
Lemma c_string_split b s : c_string b = Ok s -> exists r, b = s ++ 0 :: r /\ Forall (fun c => c <> 0) s.
Proof.
  revert s. induction b as [|c b IH]; intros s; cbn [c_string]; [done|]. destruct (Z.eqb_spec c 0) as [->|Hc]; [intros [= <-]; by exists b|].
  destruct (c_string b) as [t| |]; [|done..]. rewrite bind_Ok. intros [= <-]. destruct (IH t eq_refl) as (r & -> & Ht). exists r. split; [done | by constructor].
Qed.
Lemma c_string_app s r : Forall (fun c => c <> 0) s -> c_string (s ++ 0 :: r) = Ok s.
Proof.
  induction 1 as [|c s Hc _ IH]; [done|]. cbn [app c_string]. by rewrite (proj2 (Z.eqb_neq _ _) Hc), IH.
Qed.
Lemma terminated_first b : terminated b -> exists c, rd8 b 0 = Ok c /\ (c = 0 <-> text_of b = []).
Proof.
  intros H. destruct (c_string_split _ _ H) as (r & Hb & Hn). set (s := text_of b) in *. clearbody s. rewrite Hb. destruct s as [|c s]; [by exists 0|].
  exists c. split; [done|]. apply Forall_cons_iff in Hn as [Hc _]. split; [intros ->; done | done].
Qed.

(** * Lines *)

Definition render (ls : list (list Z)) : list Z := concat (map (fun l => l ++ crlf) ls).
Lemma render_app a b : render (a ++ b) = render a ++ render b.
Proof. unfold render. by rewrite map_app, concat_app. Qed.
Lemma render_cons l ls : render (l :: ls) = l ++ crlf ++ render ls.
Proof. unfold render. cbn [map concat]. by rewrite <- app_assoc. Qed.

Create HintDb appends.
#[local] Hint Resolve appends_append appends_u16 appends_u32 appends_array appends_nil : appends.
(** A sequence of appends whose text is left to an equation. *)
Ltac appending := eapply appends_eq; [repeat (eapply appends_bind; [solve [eauto with appends]|]); solve [eauto with appends]|].
Ltac same_text := rewrite ?render_app, ?render_cons; cbn [render map concat app]; rewrite <- ?app_assoc, ?app_nil_r; cbn [app]; rewrite <- ?app_assoc; try done.

Definition setup_text (x : sdp_setup) : list Z :=
  match x with NANORTC_SDP_SETUP_ACTIVE => lit "active" | NANORTC_SDP_SETUP_ACTPASS => lit "actpass" | NANORTC_SDP_SETUP_PASSIVE => lit "passive" end.
Definition transport_lines (l : sdp_local) : list (list Z) :=
  [lit "a=ice-ufrag:" ++ text_of (ls_ufrag l); lit "a=ice-pwd:" ++ text_of (ls_pwd l)] ++
  (match text_of (ls_fingerprint l) with [] => [] | fp => [lit "a=fingerprint:" ++ fp] end) ++ [lit "a=setup:" ++ setup_text (ls_setup l)].
Definition host_line (i : nat) (c : sdp_candidate) : list Z :=
  lit "a=candidate:" ++ dec (u16 (Z.of_nat i + 1)) ++ lit " 1 UDP " ++ dec (ICE_HOST_PRIORITY (Z.of_nat i)) ++ lit " " ++ text_of (sc_addr c) ++ lit " " ++
  dec (sc_port c) ++ lit " typ host".
Definition host_lines (cs : list sdp_candidate) (i : nat) : list (list Z) :=
  concat (imap (fun j c => match text_of (sc_addr c) with [] => [] | _ => [host_line (i + j) c] end) cs).
Definition related (ip : list Z) : list Z := if has_colon ip then lit " raddr :: rport 9" else lit " raddr 0.0.0.0 rport 9".
Definition extra_lines (e : sdp_extra) (head typ : list Z) (prio : Z) : list (list Z) :=
  match se_has e, text_of (se_ip e) with
  | true, (_ :: _) as ip => [head ++ dec prio ++ lit " " ++ ip ++ lit " " ++ dec (se_port e) ++ typ ++ related ip]
  | _, _ => []
  end.
Definition srflx_lines (l : sdp_local) : list (list Z) :=
  extra_lines (ls_srflx l) (lit "a=candidate:3 1 UDP ") (lit " typ srflx") (ICE_SRFLX_PRIORITY (Z.of_nat (ls_candidate_count l))).
Definition relay_lines (l : sdp_local) : list (list Z) :=
  extra_lines (ls_relay l) (lit "a=candidate:2 1 UDP ") (lit " typ relay")
    (ICE_RELAY_PRIORITY (u8 (Z.of_nat (ls_candidate_count l) + (if se_has (ls_srflx l) then 1 else 0)))).
Definition candidate_lines (l : sdp_local) : list (list Z) :=
  host_lines (take (ls_candidate_count l) (ls_candidates l)) 0 ++ srflx_lines l ++ relay_lines l.

(** Local fields the generator can read. *)
Definition extra_ok (e : sdp_extra) : Prop := length (se_ip e) = NANORTC_IPV6_STR_SIZE /\ terminated (se_ip e) /\ is_u16 (se_port e).
Record local_ok (l : sdp_local) : Prop := {
  lo_ufrag : terminated (ls_ufrag l);
  lo_pwd : terminated (ls_pwd l);
  lo_fingerprint : terminated (ls_fingerprint l);
  lo_sctp_port : is_u16 (ls_sctp_port l);
  lo_candidates : Forall (fun c => terminated (sc_addr c) /\ is_u16 (sc_port c)) (ls_candidates l);
  lo_count : (ls_candidate_count l <= length (ls_candidates l))%nat;
  lo_srflx : extra_ok (ls_srflx l);
  lo_relay : extra_ok (ls_relay l)
}.

Lemma appends_transport l : local_ok l -> appends (sdp_append_transport_attrs l) (render (transport_lines l)).
Proof.
  intros Hl. destruct (terminated_first _ (lo_fingerprint l Hl)) as (c & Hc & Hfp).
  pose proof (lo_ufrag l Hl). pose proof (lo_pwd l Hl). pose proof (lo_fingerprint l Hl) as Hft.
  eapply appends_eq; [unfold sdp_append_transport_attrs; do 6 (eapply appends_bind; [solve [eauto with appends]|]);
    eapply (appends_pure _ _ (fun c w => w ← (if negb (c =? 0) then _ else _); _) _ Hc);
    eapply (appends_bind _ _ (render (match text_of (ls_fingerprint l) with [] => [] | fp => [lit "a=fingerprint:" ++ fp] end))); [|apply appends_append]|].
  - destruct (Z.eqb_spec c 0) as [E|E]; cbn [negb].
    + rewrite (proj1 Hfp E). apply appends_nil.
    + destruct (text_of (ls_fingerprint l)) as [|d fp] eqn:Ht; [by destruct (E (proj2 Hfp eq_refl))|]. appending. rewrite Ht. same_text.
  - unfold transport_lines. same_text. by destruct (ls_setup l).
Qed.
Lemma type_priority_u32 t i : is_u32 (type_priority t i).
Proof. apply u32_range. Qed.
Lemma appends_host_candidates cs k : forall i, (i + k <= length cs)%nat -> Forall (fun c => terminated (sc_addr c) /\ is_u16 (sc_port c)) cs ->
  appends (append_host_candidates k cs i) (render (host_lines (take k (drop i cs)) i)).
Proof.
  induction k as [|k IH]; intros i Hi Hcs; cbn [append_host_candidates].
  { rewrite take_0. apply appends_nil. }
  destruct (lookup_lt_is_Some_2 cs i) as [c Hc]; [lia|]. rewrite (drop_S _ c) by done. rewrite firstn_cons. unfold host_lines. cbn [imap concat].
  rewrite Hc. destruct (proj1 (Forall_lookup _ _) Hcs i c Hc) as [Ht Hp]. destruct (terminated_first _ Ht) as (d & Hd & He). rewrite Nat.add_0_r, render_app.
  eapply (appends_pure _ _ (fun d w => w ← (if d =? 0 then _ else _); _) _ Hd). eapply appends_bind.
  - destruct (Z.eqb_spec d 0) as [E|E]; [rewrite (proj1 He E); apply appends_nil|]. pose proof (u16_range (Z.of_nat i + 1)). pose proof (type_priority_u32 126 (Z.of_nat i)).
    destruct (text_of (sc_addr c)) as [|x xs] eqn:Hx; [by destruct (E (proj2 He eq_refl))|]. appending. unfold host_line. rewrite Hx. same_text.
  - eapply appends_eq; [apply IH; [lia | done]|]. f_equal. unfold host_lines. f_equal. apply imap_ext. intros j x _. cbn. by rewrite Nat.add_succ_r.
Qed.
Lemma strnlen_loop_app s r k i : forall pre, i = length pre -> Forall (fun c => c <> 0) s -> (length s < k)%nat -> (i + k <= length pre + length s + S (length r))%nat ->
  forall m, (i + length s < m)%nat -> strnlen_loop k (pre ++ s ++ 0 :: r) i m = Ok (i + length s)%nat.
Proof.
  revert k i. induction s as [|c s IH]; intros k i pre -> Hs Hk Hi m Hm; (destruct k as [|k]; [cbn in Hk; lia|]); cbn [strnlen_loop length] in *.
  - rewrite (proj2 (Nat.ltb_lt _ _)) by lia. unfold rd8. rewrite lookup_app_r, Nat.sub_diag by lia. cbn. by rewrite Nat.add_0_r.
  - apply Forall_cons_iff in Hs as [Hc Hs]. rewrite (proj2 (Nat.ltb_lt _ _)) by lia. unfold rd8. rewrite lookup_app_r, Nat.sub_diag by lia. cbn [lookup list_lookup app].
    rewrite bind_Ok, (proj2 (Z.eqb_neq _ _) Hc). specialize (IH k (length pre + 1)%nat (pre ++ [c])). rewrite <- app_assoc in IH. cbn [app] in IH.
    rewrite IH; [f_equal; lia | rewrite length_app; done | done | lia | rewrite length_app; cbn [length]; lia | lia].
Qed.
Lemma appends_related e : extra_ok e -> appends (fun w => sdp_append_related_address w (se_ip e)) (related (text_of (se_ip e))).
Proof.
  intros (Hl & Ht & _). destruct (c_string_split _ _ Ht) as (r & Hb & Hn). set (s := text_of (se_ip e)) in *. unfold sdp_append_related_address, nanortc_strnlen.
  assert (length s + S (length r) = 46)%nat as Hlen by (rewrite Hb, length_app in Hl; exact Hl).
  rewrite Hb. eapply (appends_pure _ _ (fun len w => text ← rdn (s ++ 0 :: r) 0 len; sdp_append w _)).
  - apply (strnlen_loop_app s r NANORTC_IPV6_STR_SIZE 0 []); unfold NANORTC_IPV6_STR_SIZE; cbn [length]; first [done | lia].
  - eapply (appends_pure _ _ (fun text w => sdp_append w _)); [by apply rdn_front|]. apply appends_append.
Qed.
#[local] Hint Resolve appends_related type_priority_u32 : appends.
Lemma appends_extra e head typ prio : extra_ok e -> is_u32 prio -> appends (append_extra_candidate e head typ prio) (render (extra_lines e head typ prio)).
Proof.
  intros He Hprio. pose proof He as (Hl & Ht & Hp). destruct (terminated_first _ Ht) as (d & Hd & Hz). unfold append_extra_candidate, extra_lines.
  eapply (appends_pure _ _ (fun d w => if negb (se_has e) || (d =? 0) then _ else _) _ Hd). destruct (se_has e); cbn [negb orb]; [|apply appends_nil].
  destruct (Z.eqb_spec d 0) as [E|E]; [rewrite (proj1 Hz E); apply appends_nil|].
  destruct (text_of (se_ip e)) as [|x xs] eqn:Hx; [by destruct (E (proj2 Hz eq_refl))|]. appending. rewrite Hx. same_text.
Qed.
Lemma appends_candidates l : local_ok l -> appends (append_candidates l) (render (candidate_lines l)).
Proof.
  intros Hl. unfold append_candidates, candidate_lines. rewrite !render_app. eapply appends_bind; [|eapply appends_bind].
  - apply (appends_host_candidates _ _ 0); [apply (lo_count l Hl) | apply (lo_candidates l Hl)].
  - apply appends_extra; [apply (lo_srflx l Hl) | apply type_priority_u32].
  - apply appends_extra; [apply (lo_relay l Hl) | apply type_priority_u32].
Qed.

(** * Media lines *)

Definition local_v6 (l : sdp_local) : bool :=
  match take (ls_candidate_count l) (ls_candidates l) with c :: _ => has_colon (text_of (sc_addr c)) | [] => false end.
Definition connection_text (l : sdp_local) : list Z := if local_v6 l then lit "c=IN IP6 ::" else lit "c=IN IP4 0.0.0.0".
Definition origin_text (l : sdp_local) : list Z := if local_v6 l then lit "o=- 1 1 IN IP6 ::" else lit "o=- 1 1 IN IP4 0.0.0.0".
Definition mid_lines (l : sdp_local) (mid : Z) : list (list Z) := [connection_text l; lit "a=mid:" ++ dec mid].
Definition direction_text (dir : Z) : list Z :=
  if dir =? NANORTC_DIR_SENDONLY then lit "a=sendonly" else if dir =? NANORTC_DIR_RECVONLY then lit "a=recvonly"
  else if dir =? NANORTC_DIR_INACTIVE then lit "a=inactive" else lit "a=sendrecv".
Definition datachannel_lines (l : sdp_local) (mid : Z) : list (list Z) :=
  [lit "m=application 9 UDP/DTLS/SCTP webrtc-datachannel"] ++ mid_lines l mid ++ [lit "a=sendrecv"; lit "a=ice-options:trickle"] ++ transport_lines l ++
  [lit "a=sctp-port:" ++ dec (ls_sctp_port l); lit "a=max-message-size:" ++ dec (u16 SDP_MAX_MESSAGE_SIZE)].
(** A media section: what comes before its rtpmap line, of which the codec is
    [codec]. *)
Definition media_head_lines (l : sdp_local) (ml : nano_sdp_mline) (head : list Z) (mid : Z) : list (list Z) :=
  [head ++ dec (ml_pt ml)] ++ mid_lines l mid ++ [direction_text (ml_direction ml)] ++ transport_lines l ++ [lit "a=rtcp-mux"].
Definition rtpmap_line (ml : nano_sdp_mline) (codec : list Z) : list Z := lit "a=rtpmap:" ++ dec (ml_pt ml) ++ codec.
Definition media_lines (l : sdp_local) (ml : nano_sdp_mline) (head codec : list Z) (mid : Z) : list (list Z) :=
  media_head_lines l ml head mid ++ [rtpmap_line ml codec].
Definition audio_codec (ml : nano_sdp_mline) : list Z :=
  if ml_pt ml =? 0 then lit " PCMU/8000" else if ml_pt ml =? 8 then lit " PCMA/8000" else lit " opus/48000/2".
Definition audio_lines (l : sdp_local) (ml : nano_sdp_mline) (mid : Z) : list (list Z) :=
  media_lines l ml (lit "m=audio 9 UDP/TLS/RTP/SAVPF ") (audio_codec ml) mid ++
  if ml_sample_rate ml =? 48000 then
    [lit "a=fmtp:" ++ dec (ml_pt ml) ++ (if 2 <=? ml_channels ml then lit " minptime=10;useinbandfec=1;stereo=1" else lit " minptime=10;useinbandfec=1;stereo=0");
     lit "a=ptime:20"]
  else [].
Definition h265_fmtp (ml : nano_sdp_mline) : list Z :=
  let h := ml_h265 ml in
  lit "a=fmtp:" ++ dec (ml_pt ml) ++ lit " profile-id=" ++ dec (if hl_profile_id h =? 0 then 1 else hl_profile_id h) ++ lit ";tier-flag=" ++ dec (hl_tier_flag h) ++
  lit ";level-id=" ++ dec (if hl_level_id h =? 0 then 93 else hl_level_id h) ++ lit ";tx-mode=SRST" ++
  (if (0 <? hl_sprop_len h)%nat then [59] ++ take (hl_sprop_len h) (hl_sprop h) else []).
Definition is_h265 (ml : nano_sdp_mline) : bool := ml_codec ml =? NANORTC_CODEC_H265.
Definition video_codec (ml : nano_sdp_mline) : list Z := if is_h265 ml then lit " H265/90000" else lit " H264/90000".
Definition video_fmtp (ml : nano_sdp_mline) : list Z :=
  if is_h265 ml then h265_fmtp ml else lit "a=fmtp:" ++ dec (ml_pt ml) ++ lit " level-asymmetry-allowed=1;packetization-mode=1;profile-level-id=42e01f".
(** The extension id advertised. *)
Definition twcc_of (ml : nano_sdp_mline) : Z := if ml_twcc_ext_id ml =? 0 then NANORTC_TWCC_EXT_ID else ml_twcc_ext_id ml.
Definition twcc_valid (ml : nano_sdp_mline) : bool := (1 <=? twcc_of ml) && (twcc_of ml <=? 14).
Definition video_lines (l : sdp_local) (ml : nano_sdp_mline) (mid : Z) : list (list Z) :=
  media_lines l ml (lit "m=video 9 UDP/TLS/RTP/SAVPF ") (video_codec ml) mid ++
  [video_fmtp ml; lit "a=rtcp-fb:" ++ dec (ml_pt ml) ++ lit " nack pli"; lit "a=rtcp-fb:" ++ dec (ml_pt ml) ++ lit " transport-cc"] ++
  if twcc_valid ml then [lit "a=extmap:" ++ dec (twcc_of ml) ++ lit " " ++ NANORTC_TWCC_EXT_URI] else [].

(** M-lines the generator can read. *)
Definition h265_ok (h : h265_local) : Prop :=
  length (hl_sprop h) = NANORTC_H265_SPROP_FMTP_SIZE /\ (hl_sprop_len h <= NANORTC_H265_SPROP_FMTP_SIZE)%nat /\
  is_u8 (hl_profile_id h) /\ is_u8 (hl_tier_flag h) /\ is_u8 (hl_level_id h).
Definition mline_ok (ml : nano_sdp_mline) : Prop := is_u8 (ml_mid ml) /\ is_u8 (ml_pt ml) /\ is_u8 (ml_twcc_ext_id ml) /\ h265_ok (ml_h265 ml).

Lemma u8_u16 v : is_u8 v -> is_u16 v.
Proof. unfold is_u8, is_u16. lia. Qed.
#[local] Hint Resolve u8_u16 appends_transport : appends.
Lemma local_ipv6_Ok l : local_ok l -> sdp_local_is_ipv6 l = Ok (local_v6 l).
Proof.
  intros Hl. unfold sdp_local_is_ipv6, local_v6. pose proof (lo_count l Hl). destruct (ls_candidate_count l) as [|k]; [done|]. cbn [Nat.ltb Nat.leb].
  pose proof (lo_candidates l Hl) as Hc. destruct (ls_candidates l) as [|c cs]; [cbn in *; lia|]. apply Forall_cons_iff in Hc as [[Hc _] _]. cbn [lookup list_lookup take]. rewrite Hc. done.
Qed.
Lemma appends_mid l mid : local_ok l -> is_u8 mid -> appends (append_mid l mid) (render (mid_lines l mid)).
Proof.
  intros Hl Hm. unfold append_mid, sdp_connection_line. rewrite (local_ipv6_Ok l Hl), bind_Ok. apply u8_u16 in Hm.
  eapply (appends_pure _ _ (fun c w => w ← sdp_append w c; _)); [done|]. appending. unfold mid_lines, connection_text. destruct (local_v6 l); same_text.
Qed.
#[local] Hint Resolve appends_mid : appends.
Lemma appends_datachannel l mid : local_ok l -> is_u8 mid -> appends (fun w => sdp_append_datachannel_mline l w mid) (render (datachannel_lines l mid)).
Proof.
  intros Hl Hm. pose proof (lo_sctp_port l Hl). pose proof (u16_range SDP_MAX_MESSAGE_SIZE). unfold sdp_append_datachannel_mline. appending.
  unfold datachannel_lines. same_text.
Qed.
Lemma appends_direction dir : appends (fun w => sdp_append_direction w dir) (direction_text dir ++ crlf).
Proof. unfold sdp_append_direction, direction_text. eapply appends_eq; [apply appends_append|]. repeat (destruct (_ =? _); [done|]). done. Qed.
#[local] Hint Resolve appends_direction : appends.
Lemma appends_media_head l ml head mid : local_ok l -> mline_ok ml -> is_u8 mid ->
  appends (append_media_head l ml head mid) (render (media_head_lines l ml head mid) ++ lit "a=rtpmap:" ++ dec (ml_pt ml)).
Proof.
  intros Hl (Hm & Hp & _) Hmid. apply u8_u16 in Hp. unfold append_media_head. appending. unfold media_head_lines. same_text.
Qed.
#[local] Hint Resolve appends_media_head : appends.
Lemma appends_audio l ml mid : local_ok l -> mline_ok ml -> is_u8 mid -> appends (fun w => sdp_append_audio_mline l ml w mid) (render (audio_lines l ml mid)).
Proof.
  intros Hl Hml Hmid. pose proof Hml as (_ & Hp & _). apply u8_u16 in Hp. unfold sdp_append_audio_mline, audio_lines. destruct (ml_sample_rate ml =? 48000).
  - appending. unfold media_lines, rtpmap_line, audio_codec. same_text. by destruct (2 <=? ml_channels ml); rewrite <- ?app_assoc.
  - appending. unfold media_lines, rtpmap_line, audio_codec. same_text.
Qed.
Lemma appends_sprop h : h265_ok h -> appends (append_sprop h) (if (0 <? hl_sprop_len h)%nat then [59] ++ take (hl_sprop_len h) (hl_sprop h) else []).
Proof.
  intros (Hl & Hn & _) n text [buf pos] Hw. unfold append_sprop. destruct (Nat.ltb_spec 0 (hl_sprop_len h)) as [H0|]; [|by apply appends_nil].
  destruct Hw as (Hlt & Hp & rest & Hb & Hlen). cbn [fst snd] in *. subst pos buf n. rewrite !length_app in *. rewrite (length_take_le _ (hl_sprop_len h)) by lia. cbn [length].
  destruct (Nat.leb_spec (length text + length rest) (length text + hl_sprop_len h + 1)).
  { by rewrite (proj2 (Nat.leb_le _ _)) by lia. }
  rewrite (proj2 (Nat.leb_gt _ _)) by lia. set (frag := take (hl_sprop_len h) (hl_sprop h)). assert (length frag = hl_sprop_len h) as Hf by (unfold frag; rewrite length_take_le; lia).
  rewrite wr_append by (cbn; lia). rewrite bind_Ok. rewrite rdn_Ok, bind_Ok, drop_0 by lia. fold frag.
  rewrite wr_append by (rewrite ?length_app, ?length_drop; cbn [length]; lia). rewrite bind_Ok.
  rewrite wr_append by (rewrite ?length_app, ?length_drop; cbn [length]; lia). rewrite bind_Ok. eexists. split; [done|]. rewrite <- Hf.
  split; [rewrite !length_app; cbn [length]; lia|]. split; [cbn [snd]; rewrite !length_app; cbn [length]; lia|].
  eexists. cbn [fst]. split; [rewrite <- !app_assoc; cbn [app]; reflexivity|]. rewrite !length_app, !length_drop. cbn [length]. lia.
Qed.
#[local] Hint Resolve appends_sprop : appends.
Lemma or_default_u16 v d : is_u8 v -> is_u8 d -> is_u16 (if v =? 0 then d else v).
Proof. intros Hv Hd. destruct (_ =? _); by apply u8_u16. Qed.
Lemma appends_video_codec ml : mline_ok ml -> appends (append_video_codec ml) (video_codec ml ++ crlf ++ video_fmtp ml ++ crlf).
Proof.
  intros (Hm & Hp & _ & Hh). apply u8_u16 in Hp. pose proof Hh as (_ & _ & H1 & H2 & H3). apply u8_u16 in H2.
  pose proof (or_default_u16 (hl_profile_id (ml_h265 ml)) 1 H1 ltac:(done)). pose proof (or_default_u16 (hl_level_id (ml_h265 ml)) 93 H3 ltac:(done)).
  unfold append_video_codec, video_codec, video_fmtp, is_h265, h265_fmtp. destruct (ml_codec ml =? NANORTC_CODEC_H265); cbv zeta.
  - appending. same_text.
  - appending. same_text.
Qed.
#[local] Hint Resolve appends_video_codec : appends.
Definition advertised (ml : nano_sdp_mline) : nano_sdp_mline := if twcc_valid ml then ml_set_twcc ml (twcc_of ml) else ml.
(** An appending action with a result. *)
Definition yields {A} (f : writer -> res (writer * A)) (a : A) (s : list Z) : Prop :=
  forall n text w, has n text w ->
  if (n <=? length text + length s)%nat then f w = Err NANORTC_ERR_BUFFER_TOO_SMALL
  else exists w', f w = Ok (w', a) /\ has n (text ++ s) w'.
Lemma yields_bind {A} f (g : writer -> res (writer * A)) a s t : appends f s -> yields g a t -> yields (fun w => w ← f w; g w) a (s ++ t).
Proof.
  intros Hf Hg n text w Hw. specialize (Hf n text w Hw). rewrite length_app. destruct (Nat.leb_spec n (length text + length s)) as [|Hs].
  - rewrite Hf. by rewrite (proj2 (Nat.leb_le _ _)) by lia.
  - destruct Hf as (w' & -> & Hw'). rewrite bind_Ok. specialize (Hg n _ w' Hw'). rewrite length_app in Hg. rewrite Nat.add_assoc.
    destruct (_ <=? _)%nat; [done|]. by rewrite app_assoc.
Qed.
Lemma yields_ret {A} (a : A) : yields (fun w => Ok (w, a)) a [].
Proof.
  intros n text w Hw. pose proof Hw as [Hn _]. cbn [length]. rewrite (proj2 (Nat.leb_gt _ _)) by lia. exists w. split; [done|]. by rewrite app_nil_r.
Qed.
Lemma yields_eq {A} f (a b : A) s t : yields f a s -> a = b -> s = t -> yields f b t.
Proof. by intros H <- <-. Qed.
Lemma yields_video l ml mid : local_ok l -> mline_ok ml -> is_u8 mid -> yields (fun w => sdp_append_video_mline l ml w mid) (advertised ml) (render (video_lines l ml mid)).
Proof.
  intros Hl Hml Hmid. pose proof Hml as (_ & Hp & Ht & _). apply u8_u16 in Hp.
  assert (is_u16 (twcc_of ml)) as Htw by (unfold twcc_of, NANORTC_TWCC_EXT_ID; destruct (_ =? _); [done | by apply u8_u16]).
  unfold sdp_append_video_mline. cbv zeta. change (u8 NANORTC_TWCC_EXT_ID) with NANORTC_TWCC_EXT_ID. fold (twcc_of ml). fold (twcc_valid ml). unfold advertised, video_lines. destruct (twcc_valid ml).
  - eapply yields_eq; [repeat (eapply yields_bind; [solve [eauto with appends]|]); apply yields_ret | done|]. unfold media_lines, rtpmap_line. same_text.
  - eapply yields_eq; [repeat (eapply yields_bind; [solve [eauto with appends]|]); apply yields_ret | done|]. unfold media_lines, rtpmap_line. same_text.
Qed.

(** * The whole text *)

Definition kind_ok (ml : nano_sdp_mline) : Prop := ml_kind ml = SDP_MLINE_AUDIO \/ ml_kind ml = SDP_MLINE_VIDEO.
Record media_ok (md : sdp_media) : Prop := {
  mo_length : length (ms_mlines md) = NANORTC_MAX_MEDIA_TRACKS;
  mo_count : (ms_mline_count md <= NANORTC_MAX_MEDIA_TRACKS)%nat;
  mo_mlines : Forall mline_ok (ms_mlines md);
  mo_dc_mid : is_u8 (ms_dc_mid md)
}.
(** The table of m-lines as the generator orders it. *)
Definition active_entries (mls : list nano_sdp_mline) (i : nat) : list sdp_entry :=
  concat (imap (fun j m => if ml_active m then [Entry (ml_kind m) (ml_mid m) (i + j)] else []) mls).
(** The m-lines in use, in the order of the table, and the data channel's. *)
Definition declared (md : sdp_media) : list sdp_entry :=
  active_entries (take (ms_mline_count md) (ms_mlines md)) 0 ++ (if ms_has_datachannel md then [Entry SDP_MLINE_APPLICATION (ms_dc_mid md) 0] else []).
Definition entries_of (md : sdp_media) : list sdp_entry := sort_entries (length (declared md)) (declared md).
Definition entry_lines (l : sdp_local) (mls : list nano_sdp_mline) (e : sdp_entry) : list (list Z) :=
  if en_type e =? SDP_MLINE_APPLICATION then datachannel_lines l (en_mid e)
  else match mls !! en_idx e with
       | None => []
       | Some ml => if en_type e =? SDP_MLINE_AUDIO then audio_lines l ml (en_mid e)
                    else if en_type e =? SDP_MLINE_VIDEO then video_lines l ml (en_mid e) else []
       end.
Fixpoint all_lines (l : sdp_local) (mls : list nano_sdp_mline) (first : bool) (es : list sdp_entry) : list (list Z) :=
  match es with
  | [] => []
  | e :: es => entry_lines l mls e ++ (if first then candidate_lines l else []) ++ all_lines l mls false es
  end.
Definition bundle_text (es : list sdp_entry) : list Z := concat (map (fun e => lit " " ++ dec (en_mid e)) es).
Definition lines_with (s : nano_sdp) (es : list sdp_entry) : list (list Z) :=
  [lit "v=0"; origin_text (sd_local s); lit "s=-"; lit "t=0 0"; lit "a=group:BUNDLE" ++ bundle_text es] ++
  all_lines (sd_local s) (ms_mlines (sd_media s)) true es.
Definition sdp_lines (s : nano_sdp) : list (list Z) := lines_with s (entries_of (sd_media s)).
(** The order of the m-lines: those declared, by their MIDs. *)
Definition by_mid (md : sdp_media) (es : list sdp_entry) : Prop := Permutation es (declared md) /\ StronglySorted Z.le (map en_mid es).

(** Sorting reorders, by MID. *)
Lemma sweep_perm x rest : let '(m, r) := sweep x rest in Permutation (m :: r) (x :: rest).
Proof.
  revert x. induction rest as [|y r IH]; intros x; cbn [sweep]; [done|]. destruct (_ <? _).
  - specialize (IH y). destruct (sweep y r) as [m r']. by rewrite perm_swap, IH.
  - specialize (IH x). destruct (sweep x r) as [m r']. rewrite perm_swap, IH. apply perm_swap.
Qed.
Lemma sort_perm k : forall es, Permutation (sort_entries k es) es.
Proof.
  induction k as [|k IH]; intros es; [done|]. destruct es as [|x r]; [done|]. cbn [sort_entries]. pose proof (sweep_perm x r) as H. destruct (sweep x r) as [m r'].
  by rewrite IH.
Qed.
Lemma sweep_least rest : forall x, let '(m, r) := sweep x rest in en_mid m <= en_mid x /\ Forall (fun y => en_mid m <= en_mid y) r.
Proof.
  induction rest as [|y r IH]; intros x; cbn [sweep]; [split; [lia | constructor]|]. destruct (Z.ltb_spec (en_mid y) (en_mid x)).
  - specialize (IH y). destruct (sweep y r) as [m r']. destruct IH as [H1 H2]. split; [lia|]. constructor; [lia | done].
  - specialize (IH x). destruct (sweep x r) as [m r']. destruct IH as [H1 H2]. split; [lia|]. constructor; [lia | done].
Qed.
Lemma sort_sorted k : forall es, (length es <= k)%nat -> StronglySorted Z.le (map en_mid (sort_entries k es)).
Proof.
  induction k as [|k IH]; intros [|x r] Hk; cbn [length] in Hk; try lia; [constructor | constructor|]. cbn [sort_entries].
  pose proof (sweep_perm x r) as Hp. pose proof (sweep_least r x) as Hl. destruct (sweep x r) as [m r'].
  apply Permutation_length in Hp. cbn [length] in Hp. cbn [map]. constructor; [apply IH; lia|]. apply Forall_map. apply (Permutation_Forall (symmetry (sort_perm k r'))), Hl.
Qed.
Lemma entries_by_mid md : by_mid md (entries_of md).
Proof. split; [apply sort_perm | by apply sort_sorted]. Qed.
Lemma sorted_le_unique l1 l2 : StronglySorted Z.le l1 -> StronglySorted Z.le l2 -> Permutation l1 l2 -> l1 = l2.
Proof. intros H1 H2 Hp. by apply (StronglySorted_unique Z.le). Qed.
(** An entry of the table names its m-line. *)
Definition entry_ok (mls : list nano_sdp_mline) (e : sdp_entry) : Prop :=
  is_u8 (en_mid e) /\ (en_type e = SDP_MLINE_APPLICATION \/ exists ml, mls !! en_idx e = Some ml /\ mline_ok ml).
Lemma media_entries_Ok k mls : forall i, (i + k <= length mls)%nat -> media_entries k mls i = Ok (active_entries (take k (drop i mls)) i).
Proof.
  induction k as [|k IH]; intros i Hi; cbn [media_entries]; [by rewrite take_0|]. destruct (lookup_lt_is_Some_2 mls i) as [m Hm]; [lia|].
  rewrite Hm, (drop_S _ m) by done. rewrite IH, bind_Ok by lia. rewrite firstn_cons. unfold active_entries. cbn [imap concat]. rewrite Nat.add_0_r.
  assert (forall rest, (if ml_active m then Entry (ml_kind m) (ml_mid m) i :: rest else rest) = (if ml_active m then [Entry (ml_kind m) (ml_mid m) i] else []) ++ rest) as E
    by (intros rest; by destruct (ml_active m)).
  rewrite E. do 3 f_equal. apply imap_ext. intros j x _. cbn. by rewrite Nat.add_succ_r.
Qed.
Lemma active_entries_in mls : forall i e, e ∈ active_entries mls i -> exists j m, mls !! j = Some m /\ ml_active m = true /\ e = Entry (ml_kind m) (ml_mid m) (i + j).
Proof.
  induction mls as [|m mls IH]; intros i e; unfold active_entries; cbn [imap concat]; [by intros ?%elem_of_nil|]. rewrite elem_of_app. intros [H|H].
  - exists 0%nat, m. split; [done|]. destruct (ml_active m); [|by apply elem_of_nil in H]. by apply list_elem_of_singleton in H.
  - destruct (IH (S i) e) as (j & m' & Hj & Ha & ->).
    + unfold active_entries. erewrite imap_ext; [exact H|]. intros k x _. cbn. by rewrite Nat.add_succ_r.
    + exists (S j), m'. split; [done|]. split; [done|]. f_equal. lia.
Qed.
Lemma active_entries_length mls : forall i, (length (active_entries mls i) <= length mls)%nat.
Proof.
  induction mls as [|m mls IH]; intros i; unfold active_entries; cbn [imap concat length]; [lia|]. rewrite length_app. specialize (IH (S i)). unfold active_entries in IH.
  erewrite imap_ext; [|intros k x _; cbn; rewrite Nat.add_succ_r, <- Nat.add_succ_l; reflexivity]. destruct (ml_active m); cbn [length]; lia.
Qed.
Lemma sdp_entries_Ok s : media_ok (sd_media s) -> sdp_entries s = Ok (entries_of (sd_media s)) /\ Forall (entry_ok (ms_mlines (sd_media s))) (entries_of (sd_media s)).
Proof.
  intros [H1 H2 H3 H4]. unfold sdp_entries, entries_of, declared. set (md := sd_media s) in *. rewrite media_entries_Ok by lia. rewrite bind_Ok, drop_0. cbv zeta.
  set (es := active_entries _ 0). pose proof (active_entries_length (take (ms_mline_count md) (ms_mlines md)) 0) as Hlen. fold es in Hlen. rewrite length_take in Hlen.
  assert ((if ms_has_datachannel md then es ++ [Entry SDP_MLINE_APPLICATION (ms_dc_mid md) 0] else es) = es ++ (if ms_has_datachannel md then [Entry SDP_MLINE_APPLICATION (ms_dc_mid md) 0] else [])) as ->
    by (destruct (ms_has_datachannel md); [done | by rewrite app_nil_r]).
  set (all := es ++ _). assert (length all <= NANORTC_MAX_MEDIA_TRACKS + 1)%nat as Hall by (unfold all; rewrite length_app; destruct (ms_has_datachannel md); cbn [length]; lia).
  rewrite (proj2 (Nat.ltb_ge _ _)) by lia. split; [done|]. rewrite sort_perm. unfold all. apply Forall_app_2.
  - apply Forall_forall. intros e He%list_elem_of_In. destruct (active_entries_in _ _ _ He) as (j & m & Hj & _ & ->). cbn. apply lookup_take_Some in Hj as [Hj _].
    pose proof (proj1 (Forall_lookup _ _) H3 j m Hj) as Hm. split; [apply Hm|]. right. by exists m.
  - destruct (ms_has_datachannel md); [|done]. constructor; [|done]. split; [done | by left].
Qed.

(** The m-lines once their extension ids are advertised. *)
Definition advertise (mls : list nano_sdp_mline) (e : sdp_entry) : list nano_sdp_mline :=
  if en_type e =? SDP_MLINE_VIDEO then alter advertised (en_idx e) mls else mls.
Lemma advertised_ok ml : mline_ok ml -> mline_ok (advertised ml).
Proof.
  intros (H1 & H2 & H3 & H4). unfold advertised. destruct (twcc_valid ml); [|done]. split; [done|]. split; [done|]. split; [|done]. cbn.
  unfold twcc_of, NANORTC_TWCC_EXT_ID. by destruct (_ =? _).
Qed.
Lemma twcc_advertised ml : twcc_of (advertised ml) = twcc_of ml.
Proof.
  unfold advertised. destruct (twcc_valid ml) eqn:E; [|done]. unfold twcc_of at 1. cbn. unfold twcc_valid in E. apply andb_true_iff in E as [E _]. apply Z.leb_le in E.
  by rewrite (proj2 (Z.eqb_neq _ _)) by lia.
Qed.
Lemma video_lines_advertised l ml mid : video_lines l (advertised ml) mid = video_lines l ml mid.
Proof. unfold video_lines, twcc_valid. rewrite twcc_advertised. unfold advertised. by destruct (twcc_valid ml). Qed.
Lemma audio_lines_advertised l ml mid : audio_lines l (advertised ml) mid = audio_lines l ml mid.
Proof. unfold advertised. by destruct (twcc_valid ml). Qed.
Lemma entry_lines_advertise l mls e e' : entry_lines l (advertise mls e') e = entry_lines l mls e.
Proof.
  unfold entry_lines, advertise. destruct (_ =? SDP_MLINE_VIDEO); [|done]. destruct (_ =? _); [done|]. destruct (decide (en_idx e' = en_idx e)) as [->|Hne].
  - rewrite list_lookup_alter_eq. destruct (mls !! en_idx e) as [ml|]; [|done]. cbn. destruct (_ =? _); [apply audio_lines_advertised|]. destruct (_ =? _); [apply video_lines_advertised | done].
  - by rewrite list_lookup_alter_ne.
Qed.
Lemma entry_ok_advertise mls e e' : entry_ok mls e -> entry_ok (advertise mls e') e.
Proof.
  intros [Hm [Ht|(ml & Hl & Hml)]]; (split; [done|]); [by left|]. right. unfold advertise. destruct (_ =? SDP_MLINE_VIDEO); [|by exists ml].
  destruct (decide (en_idx e' = en_idx e)) as [->|Hne].
  - exists (advertised ml). rewrite list_lookup_alter_eq, Hl. split; [done | by apply advertised_ok].
  - exists ml. by rewrite list_lookup_alter_ne.
Qed.

Lemma yields_pure {A B} (x : res A) (a : A) (k : A -> writer -> res (writer * B)) (b : B) s : x = Ok a -> yields (k a) b s -> yields (fun w => a ← x; k a w) b s.
Proof. intros -> H n text w Hw. rewrite bind_Ok. by apply H. Qed.
Lemma appends_bundle es : Forall (fun e => is_u8 (en_mid e)) es -> appends (append_bundle es) (bundle_text es).
Proof.
  induction 1 as [|e es He _ IH]; cbn [append_bundle]; [apply appends_nil|]. apply u8_u16 in He. unfold bundle_text in *. cbn [map concat]. rewrite <- app_assoc.
  eapply appends_bind; [apply appends_append|]. eapply appends_bind; [by apply appends_u16 | done].
Qed.
(** One m-line with its place in the buffer. *)
Lemma append_entry_spec l mls e n text w : local_ok l -> entry_ok mls e -> has n text w ->
  let s := render (entry_lines l mls e) in
  if (n <=? length text + length s)%nat then append_entry l mls e w = Err NANORTC_ERR_BUFFER_TOO_SMALL
  else exists w', append_entry l mls e w = Ok (advertise mls e, w') /\ has n (text ++ s) w'.
Proof.
  intros Hl [Hm Ht] Hw s. unfold append_entry, advertise. unfold s, entry_lines. destruct (Z.eqb_spec (en_type e) SDP_MLINE_APPLICATION) as [->|Hna].
  - change (SDP_MLINE_APPLICATION =? SDP_MLINE_VIDEO) with false. cbv iota. pose proof (appends_datachannel l (en_mid e) Hl Hm n text w Hw) as H. cbv beta in H.
    destruct (_ <=? _)%nat; [by rewrite H|]. destruct H as (w' & -> & Hw'). rewrite bind_Ok. by exists w'.
  - destruct Ht as [|(ml & Hlk & Hml)]; [done|]. rewrite Hlk. destruct (Z.eqb_spec (en_type e) SDP_MLINE_AUDIO) as [->|Haud].
    + change (SDP_MLINE_AUDIO =? SDP_MLINE_VIDEO) with false. cbv iota. pose proof (appends_audio l ml (en_mid e) Hl Hml Hm n text w Hw) as H. cbv beta in H.
      destruct (_ <=? _)%nat; [by rewrite H|]. destruct H as (w' & -> & Hw'). rewrite bind_Ok. by exists w'.
    + destruct (en_type e =? SDP_MLINE_VIDEO).
      * pose proof (yields_video l ml (en_mid e) Hl Hml Hm n text w Hw) as H. cbv beta in H. destruct (_ <=? _)%nat; [by rewrite H|]. destruct H as (w' & -> & Hw'). rewrite bind_Ok.
        exists w'. split; [|done]. f_equal. f_equal. apply list_eq. intros i. destruct (decide (i = en_idx e)) as [->|Hne].
        -- rewrite list_lookup_alter_eq, Hlk. by apply list_lookup_insert_eq, (lookup_lt_Some _ _ _ Hlk).
        -- rewrite list_lookup_insert_ne, list_lookup_alter_ne by done. done.
      * pose proof (appends_nil n text w Hw) as H. change (render []) with (@nil Z). destruct (_ <=? _)%nat; [|destruct H as (w' & [= <-] & Hw'); by exists w].
        done.
Qed.
Lemma append_entries_spec l es : forall mls first n text w, local_ok l -> Forall (entry_ok mls) es -> has n text w ->
  let s := render (all_lines l mls first es) in
  if (n <=? length text + length s)%nat then snd (append_entries l mls first es w) = Err NANORTC_ERR_BUFFER_TOO_SMALL
  else exists w', append_entries l mls first es w = (foldl advertise mls es, Ok w') /\ has n (text ++ s) w'.
Proof.
  induction es as [|e es IH]; intros mls first n text w Hl Hes Hw s; unfold s; cbn [all_lines append_entries].
  { change (render []) with (@nil Z). pose proof (appends_nil n text w Hw) as H. destruct (_ <=? _)%nat; [done|]. destruct H as (w' & [= <-] & Hw'). by exists w. }
  apply Forall_cons_iff in Hes as [He Hes]. rewrite !render_app, !length_app. pose proof (append_entry_spec l mls e n text w Hl He Hw) as H. cbv zeta in H.
  destruct (Nat.leb_spec n (length text + length (render (entry_lines l mls e)))) as [Hle|Hgt].
  { rewrite H. by rewrite (proj2 (Nat.leb_le _ _)) by lia. }
  destruct H as (w1 & -> & Hw1).
  assert (appends (fun w => if first then append_candidates l w else Ok w) (render (if first then candidate_lines l else []))) as Hc
    by (destruct first; [by apply appends_candidates | apply appends_nil]).
  specialize (Hc n _ w1 Hw1). cbv beta in Hc. rewrite length_app in Hc. destruct (Nat.leb_spec n (length text + length (render (entry_lines l mls e)) + length (render (if first then candidate_lines l else [])))) as [Hle|Hgt'].
  { rewrite Hc. by rewrite (proj2 (Nat.leb_le _ _)) by lia. }
  destruct Hc as (w2 & -> & Hw2).
  assert (all_lines l (advertise mls e) false es = all_lines l mls false es) as Hsame.
  { clear. generalize false. induction es as [|e' es IH]; intros b; cbn [all_lines]; [done|]. by rewrite entry_lines_advertise, IH. }
  specialize (IH (advertise mls e) false n ((text ++ render (entry_lines l mls e)) ++ render (if first then candidate_lines l else [])) w2 Hl). cbv zeta in IH. rewrite Hsame in IH.
  assert (Forall (entry_ok (advertise mls e)) es) as Hes' by (eapply List.Forall_impl; [|exact Hes]; intros x; apply entry_ok_advertise). specialize (IH Hes' Hw2). rewrite !length_app in IH. rewrite !Nat.add_assoc. cbn [foldl].
  destruct (_ <=? _)%nat; [done|]. destruct IH as (w' & -> & Hw'). exists w'. split; [done|]. by rewrite <- !app_assoc in Hw'.
Qed.

(** The generator against its specification. *)
Lemma generate_answer_spec s buf
  (Hlocal : local_ok (sd_local s)) (Hmedia : media_ok (sd_media s)) (Hmin : (NANORTC_SDP_MIN_BUF_SIZE <= length buf)%nat) :
  let text := render (sdp_lines s) in
  let sent := foldl advertise (ms_mlines (sd_media s)) (entries_of (sd_media s)) in
  if (length buf <=? length text)%nat then snd (sdp_generate_answer s buf) = Err NANORTC_ERR_BUFFER_TOO_SMALL
  else exists buf', sdp_generate_answer s buf = (with_media s (set_mlines (sd_media s) sent), Ok (buf', length text)) /\
         length buf' = length buf /\ take (length text) buf' = text.
Proof.
  intros text sent. destruct (sdp_entries_Ok s Hmedia) as [He Hes]. unfold sdp_generate_answer. rewrite (proj2 (Nat.ltb_ge _ _)) by lia. cbv zeta.
  unfold sdp_origin_line. rewrite (local_ipv6_Ok _ Hlocal), bind_Ok. rewrite He.
  set (es := entries_of (sd_media s)) in *. set (l := sd_local s) in *. set (mls := ms_mlines (sd_media s)) in *.
  assert (Forall (fun e => is_u8 (en_mid e)) es) as Hmids by (eapply List.Forall_impl; [|exact Hes]; by intros e []).
  set (head := [lit "v=0"; origin_text l; lit "s=-"; lit "t=0 0"; lit "a=group:BUNDLE" ++ bundle_text es]).
  match goal with |- context [match (w ← sdp_append (buf, 0%nat) ?v; @?k w) with Ok _ => _ | Err _ => _ | Fault => _ end] =>
    assert (yields (fun w => w ← sdp_append w v; k w) es (render head)) as Hhead end.
  { eapply yields_eq; [do 4 (eapply yields_bind; [solve [eauto with appends]|]); eapply (yields_pure _ es (fun es w => w ← sdp_append w _; w ← append_bundle es w; w ← sdp_append w crlf; Ok (w, es)));
      [done|]; eapply yields_bind; [apply appends_append|]; eapply yields_bind; [by apply appends_bundle|]; eapply yields_bind; [apply appends_append | apply yields_ret] | done|].
    unfold head, origin_text. destruct (local_v6 l); same_text. }
  assert (has (length buf) [] (buf, 0%nat)) as H0 by (split; [unfold NANORTC_SDP_MIN_BUF_SIZE in Hmin; cbn; lia|]; split; [done|]; by exists buf).
  specialize (Hhead (length buf) [] (buf, 0%nat) H0). cbv beta in Hhead. rewrite app_nil_l in Hhead. cbn [length Nat.add] in Hhead.
  assert (text = render head ++ render (all_lines l mls true es)) as Htext by (unfold text, sdp_lines, lines_with, head; fold l mls es; by rewrite render_app).
  rewrite Htext, length_app. destruct (Nat.leb_spec (length buf) (length (render head))) as [|Hgt].
  { rewrite Hhead. by rewrite (proj2 (Nat.leb_le _ _)) by lia. }
  destruct Hhead as (w1 & -> & Hw1). pose proof (append_entries_spec l es mls true (length buf) _ w1 Hlocal Hes Hw1) as H. cbv zeta in H.
  destruct (_ <=? _)%nat.
  - destruct (append_entries l mls true es w1) as [mls' r]. cbn [snd] in *. by rewrite H.
  - destruct H as ([buf' pos] & -> & _ & Hpos & rest & Hb & Hlen). cbn [fst snd] in *. subst pos. rewrite length_app. exists buf'. split; [done|]. split; [done|].
    rewrite Hb, <- length_app. by rewrite take_app_length.
Qed.

(** A session offering audio, video and a data channel. *)
Definition demo_local : sdp_local :=
  Local (text_array (lit "abcd1234") SDP_LOCAL_UFRAG_SIZE) (text_array (lit "0123456789012345678901") SDP_LOCAL_PWD_SIZE)
    (text_array (lit "sha-256 AB:CD:EF") NANORTC_SDP_FINGERPRINT_SIZE) 5000 NANORTC_SDP_SETUP_ACTPASS
    (Candidate (text_array (lit "192.168.1.2") NANORTC_IPV6_STR_SIZE) 9999 :: replicate 3 sdp_candidate_zero) 1
    (Extra (text_array (lit "203.0.113.7") NANORTC_IPV6_STR_SIZE) 40000 true) extra_zero.
Definition demo_media : sdp_media :=
  MediaLines [Mline SDP_MLINE_AUDIO 0 111 0 48000 2 0 NANORTC_DIR_SENDRECV 0 true 0 0 0 h265_zero;
              Mline SDP_MLINE_VIDEO 2 96 0 90000 0 0 NANORTC_DIR_SENDONLY 0 true 0 0 0 h265_zero] 2 true 1 3.
Definition demo_session : nano_sdp := Sdp (sd_remote sdp_init) demo_local demo_media false.
Lemma demo_local_ok : local_ok demo_local.
Proof.
  constructor; try (vm_compute; reflexivity); try (split; vm_compute; congruence).
  - repeat (apply List.Forall_cons; [split; [vm_compute; reflexivity | split; vm_compute; congruence]|]). constructor.
  - cbn. lia.
  - split; [vm_compute; reflexivity|]. split; [vm_compute; reflexivity | split; vm_compute; congruence].
  - split; [vm_compute; reflexivity|]. split; [vm_compute; reflexivity | split; vm_compute; congruence].
Qed.
Lemma h265_zero_ok : h265_ok h265_zero.
Proof. split; [vm_compute; reflexivity|]. split; [unfold NANORTC_H265_SPROP_FMTP_SIZE; cbn; lia|]. split_and!; unfold is_u8; cbn; lia. Qed.
Lemma demo_media_ok : media_ok demo_media.
Proof.
  constructor; [reflexivity | done | | unfold is_u8; cbn; lia]. repeat (apply List.Forall_cons; [split_and!; try (unfold is_u8; cbn; lia); exact h265_zero_ok|]). constructor.
Qed.

(** C19: [sdp_generate_answer] writes the session's lines whole, each ended by
    CRLF: origin and connection lines of the address family, the BUNDLE group,
    the m-lines in use, each once, in ascending order of their MIDs with the
    candidates after the first, or else refuses with
    [NANORTC_ERR_BUFFER_TOO_SMALL] exactly when the text and its NUL do not fit;
    the state changes only in the extension ids advertised. *)
Theorem sdp_generate_writes s buf
  (Hlocal : local_ok (sd_local s)) (Hmedia : media_ok (sd_media s)) (Hmin : (NANORTC_SDP_MIN_BUF_SIZE <= length buf)%nat) :
  exists es, by_mid (sd_media s) es /\
  let text := render (lines_with s es) in
  if (length buf <=? length text)%nat then snd (sdp_generate_answer s buf) = Err NANORTC_ERR_BUFFER_TOO_SMALL
  else exists buf', sdp_generate_answer s buf = (with_media s (set_mlines (sd_media s) (foldl advertise (ms_mlines (sd_media s)) es)), Ok (buf', length text)) /\
         length buf' = length buf /\ take (length text) buf' = text.
Proof.
  exists (entries_of (sd_media s)). split; [apply entries_by_mid|]. exact (generate_answer_spec s buf Hlocal Hmedia Hmin).
Qed.
(** The same session with the data channel between its media lines in MID order. *)
Definition demo_order : list sdp_entry := [Entry SDP_MLINE_AUDIO 0 0; Entry SDP_MLINE_APPLICATION 1 0; Entry SDP_MLINE_VIDEO 2 1].
Lemma demo_by_mid es : by_mid demo_media es -> es = demo_order.
Proof.
  intros [Hp Hs]. change (declared demo_media) with [Entry SDP_MLINE_AUDIO 0 0; Entry SDP_MLINE_VIDEO 2 1; Entry SDP_MLINE_APPLICATION 1 0] in Hp.
  assert (Permutation es demo_order) as Hp' by (rewrite Hp; unfold demo_order; apply perm_skip, perm_swap).
  assert (map en_mid es = map en_mid demo_order) as Hm by (apply sorted_le_unique; [done | repeat constructor; cbn; lia | by apply Permutation_map]).
  destruct es as [|a [|b [|c [|]]]]; try done. injection Hm as Ha Hb Hc.
  assert (forall e, e ∈ [a; b; c] -> e ∈ demo_order) as Hin by (intros e; by rewrite Hp').
  assert (forall e, e ∈ demo_order -> en_mid e = 0 /\ e = Entry SDP_MLINE_AUDIO 0 0 \/ en_mid e = 1 /\ e = Entry SDP_MLINE_APPLICATION 1 0 \/ en_mid e = 2 /\ e = Entry SDP_MLINE_VIDEO 2 1) as Hcase
    by (unfold demo_order; intros e He; rewrite !elem_of_cons, elem_of_nil in He; destruct He as [-> | [-> | [-> | []]]]; auto).
  destruct (Hcase a) as [[_ ->]|[[H _]|[H _]]]; [apply Hin; by left | | lia | lia].
  destruct (Hcase b) as [[H _]|[[_ ->]|[H _]]]; [apply Hin; by right; left | lia | | lia].
  destruct (Hcase c) as [[H _]|[[H _]|[_ ->]]]; [apply Hin; by right; right; left | lia | lia | done].
Qed.
Lemma sdp_generate_writes_witness : (NANORTC_SDP_MIN_BUF_SIZE <= 4096)%nat /\
  (exists buf', sdp_generate_answer demo_session (replicate 4096 0) =
     (with_media demo_session (set_mlines demo_media (foldl advertise (ms_mlines demo_media) demo_order)), Ok (buf', length (render (lines_with demo_session demo_order)))) /\
     length buf' = 4096%nat /\ take (length (render (lines_with demo_session demo_order))) buf' = render (lines_with demo_session demo_order)) /\
  snd (sdp_generate_answer demo_session (replicate 256 0)) = Err NANORTC_ERR_BUFFER_TOO_SMALL.
Proof.
  assert (NANORTC_SDP_MIN_BUF_SIZE <= 4096)%nat as H by (apply Nat.leb_le; vm_compute; reflexivity).
  split; [exact H|]. split.
  - destruct (sdp_generate_writes demo_session (replicate 4096 0) demo_local_ok demo_media_ok H) as (es & He & Hw). rewrite (demo_by_mid es He) in Hw. cbv zeta in Hw.
    match type of Hw with if ?c then _ else _ => assert (c = false) as E by (vm_compute; reflexivity) end. rewrite E in Hw. exact Hw.
  - destruct (sdp_generate_writes demo_session (replicate 256 0) demo_local_ok demo_media_ok (le_n _)) as (es & He & Hw). rewrite (demo_by_mid es He) in Hw. cbv zeta in Hw.
    match type of Hw with if ?c then _ else _ => assert (c = true) as E by (vm_compute; reflexivity) end. rewrite E in Hw. exact Hw.
Defined.
