(* ===== verification/SdpParse.v ===== *)
(** What a peer reads from the generator's text: the parser of [src/nano_sdp.c]
    line by line over what [SdpText] says is written. *)

From Stdlib Require Import ZArith Lia String Ascii Sorted.
From stdpp Require Import base list numbers.
From S2P Require Import Prelude Wire Media Sdp SdpText.

Local Open Scope Z_scope.

(** * From text to lines *)

Definition plain (l : list Z) : Prop := Forall (fun c => c <> 10 /\ c <> 13) l.
Lemma find_eol_plain l r : plain l -> find_eol (l ++ crlf ++ r) = (length l + 2)%nat.
Proof.
  induction 1 as [|c l [H1 H2] _ IH]; [done|]. cbn [app find_eol length]. rewrite (proj2 (Z.eqb_neq _ _) H1). rewrite IH. rewrite (proj2 (Z.eqb_neq _ _) H2). cbn [andb].
  destruct l; done.
Qed.
Fixpoint run_lines (saved : list mline_saved) (st : sdp_parser) (ls : list (list Z)) : res (sdp_parser * Z) :=
  match ls with
  | [] => Ok (st, NANORTC_OK)
  | l :: ls => '(st, rc) ← parse_line saved st (l ++ crlf); if negb (rc =? NANORTC_OK) then Ok (st, rc) else run_lines saved st ls
  end.
Lemma parse_lines_render saved ls : forall fuel st, Forall plain ls -> (length ls <= fuel)%nat -> parse_lines fuel saved st (render ls) = run_lines saved st ls.
Proof.
  induction ls as [|l ls IH]; intros fuel st Hp Hf; [by destruct fuel|]. apply Forall_cons_iff in Hp as [Hl Hp]. rewrite render_cons. destruct fuel as [|fuel]; [cbn in Hf; lia|].
  assert (exists c t, l ++ crlf ++ render ls = c :: t) as (c & t & E) by (destruct l as [|c l]; [by exists 13, (10 :: render ls) | by exists c, (l ++ crlf ++ render ls)]).
  cbn [run_lines]. rewrite E. cbn [parse_lines]. rewrite <- E. rewrite find_eol_plain by done. rewrite app_assoc.
  assert (length (l ++ crlf) = length l + 2)%nat as Hlen by (rewrite length_app; done). rewrite <- Hlen, take_app_length, drop_app_length.
  destruct (parse_line saved st (l ++ crlf)) as [[st' rc]| |]; [|done..]. rewrite !bind_Ok. cbv beta iota. destruct (negb _); [done|]. apply IH; [done|]. cbn in Hf. lia.
Qed.
(** The lines leave the parser in [st'] without an error. *)
Definition steps (saved : list mline_saved) (st : sdp_parser) (ls : list (list Z)) (st' : sdp_parser) : Prop := run_lines saved st ls = Ok (st', NANORTC_OK).
Lemma steps_nil saved st : steps saved st [] st.
Proof. done. Qed.
Lemma steps_cons saved st l ls st1 st2 : parse_line saved st (l ++ crlf) = Ok (st1, NANORTC_OK) -> steps saved st1 ls st2 -> steps saved st (l :: ls) st2.
Proof. intros H1 H2. unfold steps. cbn [run_lines]. rewrite H1, bind_Ok. exact H2. Qed.
Lemma steps_app saved a : forall b st st1 st2, steps saved st a st1 -> steps saved st1 b st2 -> steps saved st (a ++ b) st2.
Proof.
  induction a as [|l a IH]; intros b st st1 st2 Ha Hb; [by injection Ha as ->|]. unfold steps in Ha. cbn [run_lines] in Ha.
  destruct (parse_line saved st (l ++ crlf)) as [[st' rc]| |] eqn:E; [|done..]. rewrite bind_Ok in Ha. destruct (Z.eqb_spec rc NANORTC_OK) as [->|Hne]; cbn [negb] in Ha; [|congruence].
  eapply steps_cons; [exact E|]. by eapply IH.
Qed.

(** * Numerals and values *)

Lemma decimal_value_app a b acc : decimal_value (a ++ b) acc = decimal_value b (decimal_value a acc).
Proof. revert acc. induction a as [|c a IH]; intros acc; [done|]. cbn. by rewrite IH. Qed.
Lemma rdigits_value k : forall v, 0 <= v < 10 ^ Z.of_nat k -> decimal_value (rev (rdigits k v)) 0 = v.
Proof.
  induction k as [|k IH]; intros v Hv; cbn [rdigits].
  - change (10 ^ Z.of_nat 0) with 1 in Hv. cbn. lia.
  - destruct (Z.ltb_spec 0 v); [|cbn; lia]. cbn [rev]. rewrite decimal_value_app. rewrite Nat2Z.inj_succ, Z.pow_succ_r in Hv by lia.
    rewrite IH by (split; [apply Z.div_pos; lia | apply Z.div_lt_upper_bound; lia]). cbn. pose proof (Z.div_mod v 10 ltac:(lia)). lia.
Qed.
Lemma dec_value v : is_u32 v -> decimal_value (dec v) 0 = v.
Proof.
  intros Hv. unfold dec. destruct (Z.eqb_spec v 0) as [->|]; [done|]. apply rdigits_value. change (10 ^ Z.of_nat 10) with 10000000000. unfold is_u32 in Hv. lia.
Qed.
Lemma dec_nonempty v : 0 <= v -> dec v <> [].
Proof.
  intros Hv. unfold dec. destruct (Z.eqb_spec v 0); [done|]. cbn [rdigits]. rewrite (proj2 (Z.ltb_lt _ _)) by lia. cbn [rev]. intros H%app_eq_nil. by destruct H.
Qed.
Definition no_digit (r : list Z) : Prop := match r with c :: _ => is_digit c = false | [] => True end.
Lemma parse_digits_app ds r : forall val, Forall (fun c => is_digit c = true) ds -> no_digit r -> 0 <= val -> decimal_value ds val < 2 ^ 32 ->
  parse_digits val (ds ++ r) = (decimal_value ds val, r).
Proof.
  induction ds as [|c ds IH]; intros val Hd Hr Hv Hb; cbn [app parse_digits decimal_value] in *.
  - destruct r as [|c r]; [done|]. cbn [parse_digits]. unfold no_digit in Hr. by rewrite Hr.
  - apply Forall_cons_iff in Hd as [Hc Hd]. rewrite Hc. unfold is_digit in Hc. apply andb_true_iff in Hc as [Hc1%Z.leb_le Hc2%Z.leb_le].
    assert (val * 10 + (c - 48) <= decimal_value ds (val * 10 + (c - 48))) by (apply decimal_value_ge; [|lia]; apply forallb_forall; intros x Hx; exact (proj1 (List.Forall_forall _ _) Hd x Hx)).
    rewrite u32_id by (unfold is_u32; lia). apply IH; try done. lia.
Qed.
Lemma parse_dec v r : is_u32 v -> no_digit r -> parse_u32 (dec v ++ r) = (v, r).
Proof.
  intros Hv Hr. unfold parse_u32. pose proof (dec_value v Hv) as Hd. rewrite parse_digits_app; [by rewrite Hd | apply dec_digits; unfold is_u32 in Hv; lia | done | lia | rewrite Hd; apply Hv].
Qed.
(** A value that survives: no line end, no trailing blank. *)
Definition value_ok (v : list Z) : Prop := plain v /\ match rev v with c :: _ => is_blank c = false | [] => True end.
Lemma until_eol_plain v r : plain v -> until_eol (v ++ crlf ++ r) = v.
Proof.
  induction 1 as [|c v [H1 H2] _ IH]; [done|]. cbn [app until_eol]. rewrite (proj2 (Z.eqb_neq _ _) H1), (proj2 (Z.eqb_neq _ _) H2). cbn [orb]. by rewrite IH.
Qed.
Lemma strip_end_ok P v : match rev v with c :: _ => P c = false | [] => True end -> strip_end P v = v.
Proof.
  intros H. unfold strip_end. rewrite <- (rev_involutive v) at 2. destruct (rev v) as [|c r]; [done|]. cbn [drop_while]. by rewrite H.
Qed.
(** What a text copied into an array leaves. *)
Definition store (v dst : list Z) : list Z := v ++ 0 :: drop (length v + 1) dst.
Lemma store_length v dst : (length v < length dst)%nat -> length (store v dst) = length dst.
Proof. intros H. unfold store. rewrite length_app. cbn [length]. rewrite length_drop. lia. Qed.
Lemma store_text v dst : Forall (fun c => c <> 0) v -> terminated (store v dst) /\ text_of (store v dst) = v.
Proof. intros H. unfold terminated, text_of, store. by rewrite c_string_app. Qed.
Lemma store_store v w dst : length v = length w -> store v (store w dst) = store v dst.
Proof.
  intros H. unfold store. f_equal. f_equal. rewrite H. generalize (drop (length w + 1) dst). intros x. change (w ++ 0 :: x) with (w ++ [0] ++ x).
  rewrite (app_assoc w [0]). replace (length w + 1)%nat with (length (w ++ [0])) by (by rewrite length_app). apply drop_app_length.
Qed.
Lemma extract_value_spec p v dst plen : plen = length p -> value_ok v -> (length v < length dst)%nat -> extract_value ((p ++ v) ++ crlf) plen dst = Ok (store v dst).
Proof.
  intros -> [Hp Hb] Hl. unfold extract_value. rewrite <- app_assoc, drop_app_length. rewrite <- (app_nil_r crlf), until_eol_plain, strip_end_ok by done.
  rewrite (proj2 (Nat.leb_gt _ _)) by lia. rewrite take_ge by lia. rewrite wr_Ok, bind_Ok by lia. rewrite take_0, app_nil_l, Nat.add_0_l.
  rewrite wr_append by (rewrite ?length_drop; cbn; lia). rewrite drop_drop. unfold store. by rewrite <- app_assoc.
Qed.

(** * Lines of the generator *)

(** Decides a prefix test that the literal head of the line settles. *)
Ltac starts := repeat match goal with |- context [line_starts_with ?l ?q] =>
  first [change (line_starts_with l q) with false | change (line_starts_with l q) with true]; cbv iota end.
(** A line that no branch before the session attributes takes. *)
Definition session_only (line : list Z) : Prop :=
  line_starts_with line (lit "m=application ") = false /\ line_starts_with line (lit "m=audio ") = false /\ line_starts_with line (lit "m=video ") = false /\
  line_starts_with line (lit "m=") = false /\ line_starts_with line (lit "a=rtpmap:") = false /\ line_starts_with line (lit "a=fmtp:") = false /\
  line_starts_with line (lit "a=extmap:") = false /\ is_direction line = false.
Lemma session_only_line saved st line : session_only line -> parse_line saved st line = session_line st line.
Proof.
  intros (H1 & H2 & H3 & H4 & H5 & H6 & H7 & H8). unfold parse_line. cbv zeta. rewrite H1, H2, H3, H4, H5, H6, H7, H8. cbn [orb]. destruct (pr_current st); [by rewrite andb_false_r | done].
Qed.
Definition with_remote_parser (st : sdp_parser) (r : sdp_remote) : sdp_parser := Parser (with_remote_sdp (pr_sdp st) r) (pr_current st) (pr_reject st).
Lemma session_step saved st line r : session_only line -> parse_session (sd_remote (pr_sdp st)) line = Ok (r, NANORTC_OK) ->
  parse_line saved st line = Ok (with_remote_parser st r, NANORTC_OK).
Proof. intros H Hp. rewrite session_only_line by done. unfold session_line. by rewrite Hp. Qed.
Lemma with_same_remote st : with_remote_parser st (sd_remote (pr_sdp st)) = st.
Proof. by destruct st as [[] ? ?]. Qed.
(** A line of no interest. *)
Definition ignored (line : list Z) : Prop := session_only line /\ forall r, parse_session r line = Ok (r, NANORTC_OK).
Lemma ignored_step saved st line : ignored line -> parse_line saved st line = Ok (st, NANORTC_OK).
Proof. intros [H Hr]. rewrite (session_step _ _ _ _ H (Hr _)). by rewrite with_same_remote. Qed.
Ltac session := unfold session_only, is_direction; starts; by split_and!.
Ltac ignoring := split; [session | intros r; unfold parse_session; starts; reflexivity].
Lemma ignored_version : ignored (lit "v=0" ++ crlf). Proof. ignoring. Qed.
Lemma ignored_name : ignored (lit "s=-" ++ crlf). Proof. ignoring. Qed.
Lemma ignored_time : ignored (lit "t=0 0" ++ crlf). Proof. ignoring. Qed.
Lemma ignored_origin l : ignored (origin_text l ++ crlf). Proof. unfold origin_text. destruct (local_v6 l); ignoring. Qed.
Lemma ignored_connection l : ignored (connection_text l ++ crlf). Proof. unfold connection_text. destruct (local_v6 l); ignoring. Qed.
Lemma ignored_bundle x : ignored ((lit "a=group:BUNDLE" ++ x) ++ crlf). Proof. ignoring. Qed.
Lemma ignored_mid x : ignored ((lit "a=mid:" ++ x) ++ crlf). Proof. ignoring. Qed.
Lemma ignored_trickle : ignored (lit "a=ice-options:trickle" ++ crlf). Proof. ignoring. Qed.
Lemma ignored_mux : ignored (lit "a=rtcp-mux" ++ crlf). Proof. ignoring. Qed.
Lemma ignored_ptime : ignored (lit "a=ptime:20" ++ crlf). Proof. ignoring. Qed.
Lemma ignored_feedback x : ignored ((lit "a=rtcp-fb:" ++ x) ++ crlf). Proof. ignoring. Qed.

(** * The transport attributes *)

Definition set_ufrag r x := Remote x (rs_pwd r) (rs_fingerprint r) (rs_max_message_size r) (rs_sctp_port r) (rs_setup r) (rs_candidates r) (rs_candidate_count r) (rs_end_of_candidates r).
Definition set_pwd r x := Remote (rs_ufrag r) x (rs_fingerprint r) (rs_max_message_size r) (rs_sctp_port r) (rs_setup r) (rs_candidates r) (rs_candidate_count r) (rs_end_of_candidates r).
Definition set_remote_fingerprint r x := Remote (rs_ufrag r) (rs_pwd r) x (rs_max_message_size r) (rs_sctp_port r) (rs_setup r) (rs_candidates r) (rs_candidate_count r) (rs_end_of_candidates r).
Definition set_max_message r x := Remote (rs_ufrag r) (rs_pwd r) (rs_fingerprint r) x (rs_sctp_port r) (rs_setup r) (rs_candidates r) (rs_candidate_count r) (rs_end_of_candidates r).
Definition set_sctp_port r x := Remote (rs_ufrag r) (rs_pwd r) (rs_fingerprint r) (rs_max_message_size r) x (rs_setup r) (rs_candidates r) (rs_candidate_count r) (rs_end_of_candidates r).
Definition set_remote_setup r x := Remote (rs_ufrag r) (rs_pwd r) (rs_fingerprint r) (rs_max_message_size r) (rs_sctp_port r) x (rs_candidates r) (rs_candidate_count r) (rs_end_of_candidates r).
Definition set_candidates r n x := Remote (rs_ufrag r) (rs_pwd r) (rs_fingerprint r) (rs_max_message_size r) (rs_sctp_port r) (rs_setup r) x n (rs_end_of_candidates r).
(** The arrays of the receiver. *)
Record remote_ok (r : sdp_remote) : Prop := {
  ro_ufrag : length (rs_ufrag r) = SDP_REMOTE_UFRAG_SIZE;
  ro_pwd : length (rs_pwd r) = SDP_REMOTE_PWD_SIZE;
  ro_fingerprint : length (rs_fingerprint r) = NANORTC_SDP_FINGERPRINT_SIZE;
  ro_candidates : length (rs_candidates r) = NANORTC_SDP_MAX_CANDIDATES;
  ro_count : (rs_candidate_count r <= NANORTC_SDP_MAX_CANDIDATES)%nat;
  ro_addresses : Forall (fun c => length (sc_addr c) = NANORTC_IPV6_STR_SIZE) (rs_candidates r)
}.
(** A text a line can carry, of fewer than [n] octets. *)
Definition carried (n : nat) (v : list Z) : Prop := value_ok v /\ (length v < n)%nat.
Record transport_ok (l : sdp_local) : Prop := {
  tr_ufrag : carried SDP_REMOTE_UFRAG_SIZE (text_of (ls_ufrag l));
  tr_pwd : carried SDP_REMOTE_PWD_SIZE (text_of (ls_pwd l));
  tr_fingerprint : carried NANORTC_SDP_FINGERPRINT_SIZE (text_of (ls_fingerprint l))
}.
Definition transport_remote (l : sdp_local) (r : sdp_remote) : sdp_remote :=
  let r := set_ufrag r (store (text_of (ls_ufrag l)) (rs_ufrag r)) in
  let r := set_pwd r (store (text_of (ls_pwd l)) (rs_pwd r)) in
  let r := match text_of (ls_fingerprint l) with [] => r | fp => set_remote_fingerprint r (store fp (rs_fingerprint r)) end in
  set_remote_setup r (ls_setup l).
Lemma steps_session saved st l ls r st' : session_only (l ++ crlf) -> parse_session (sd_remote (pr_sdp st)) (l ++ crlf) = Ok (r, NANORTC_OK) ->
  steps saved (with_remote_parser st r) ls st' -> steps saved st (l :: ls) st'.
Proof. intros Hs Hp H. eapply steps_cons; [by apply (session_step _ _ _ _ Hs Hp)|]. done. Qed.
Lemma steps_ignored saved st l ls st' : ignored (l ++ crlf) -> steps saved st ls st' -> steps saved st (l :: ls) st'.
Proof. intros Hi H. eapply steps_cons; [by apply ignored_step|]. done. Qed.
Lemma parse_setup_text x : parse_setup ((lit "a=setup:" ++ setup_text x) ++ crlf) = Ok x.
Proof. destruct x; vm_compute; reflexivity. Qed.
Lemma steps_transport saved st l : remote_ok (sd_remote (pr_sdp st)) -> transport_ok l ->
  steps saved st (transport_lines l) (with_remote_parser st (transport_remote l (sd_remote (pr_sdp st)))).
Proof.
  intros [R1 R2 R3 R4 R5 R6] [[U1 U2] [P1 P2] [F1 F2]]. unfold transport_lines. cbn [app]. set (r := sd_remote (pr_sdp st)) in *.
  assert (forall v, session_only ((lit "a=ice-ufrag:" ++ v) ++ crlf)) as S1 by (intros v; session).
  assert (forall v, session_only ((lit "a=ice-pwd:" ++ v) ++ crlf)) as S2 by (intros v; session).
  assert (forall v, session_only ((lit "a=fingerprint:" ++ v) ++ crlf)) as S3 by (intros v; session).
  assert (forall v, session_only ((lit "a=setup:" ++ v) ++ crlf)) as S4 by (intros v; session).
  eapply steps_session; [apply S1 | unfold parse_session; starts; rewrite extract_value_spec, bind_Ok by first [done | eapply Nat.lt_le_trans; [eassumption|]; apply Nat.eq_le_incl; symmetry; first [exact R1 | exact R2 | exact R3]]; reflexivity|].
  eapply steps_session; [apply S2 | unfold parse_session; starts; rewrite extract_value_spec, bind_Ok by first [done | eapply Nat.lt_le_trans; [eassumption|]; apply Nat.eq_le_incl; symmetry; first [exact R1 | exact R2 | exact R3]]; reflexivity|].
  set (st2 := with_remote_parser (with_remote_parser st _) _).
  assert (forall st3, steps saved st3 [lit "a=setup:" ++ setup_text (ls_setup l)] (with_remote_parser st3 (set_remote_setup (sd_remote (pr_sdp st3)) (ls_setup l)))) as Hsetup.
  { intros st3. eapply steps_session; [apply S4 | | apply steps_nil]. unfold parse_session. starts. by rewrite parse_setup_text, bind_Ok. }
  unfold transport_remote. destruct (text_of (ls_fingerprint l)) as [|d fp] eqn:Hfp; [exact (Hsetup st2)|].
  eapply steps_session; [apply S3 | unfold parse_session; starts; rewrite extract_value_spec, bind_Ok by first [done | eapply Nat.lt_le_trans; [eassumption|]; apply Nat.eq_le_incl; symmetry; first [exact R1 | exact R2 | exact R3]]; reflexivity | exact (Hsetup _)].
Qed.
Lemma transport_remote_ok l r : transport_ok l -> remote_ok r -> remote_ok (transport_remote l r).
Proof.
  intros [[U1 U2] [P1 P2] [F1 F2]] [R1 R2 R3 R4 R5 R6]. unfold transport_remote. destruct (text_of (ls_fingerprint l)) as [|d fp] eqn:Hfp;
    (constructor; first [exact R1 | exact R2 | exact R3 | exact R4 | exact R5 | exact R6 |
      refine (eq_trans (store_length _ _ _) _); [|first [exact R1 | exact R2 | exact R3]]; (eapply Nat.lt_le_trans; [eassumption|]; apply Nat.eq_le_incl; symmetry; first [exact R1 | exact R2 | exact R3])]).
Qed.

(** * Candidates *)

Definition word (f : list Z) : Prop := Forall (fun c => c <> 32) f.
Lemma skip_word_app f r : word f -> skip_word (f ++ 32 :: r) = 32 :: r.
Proof. induction 1 as [|c f Hc _ IH]; [done|]. cbn [app skip_word]. by rewrite (proj2 (Z.eqb_neq _ _) Hc). Qed.
Lemma take_word_app f r : word f -> take_word (f ++ 32 :: r) = f.
Proof. induction 1 as [|c f Hc _ IH]; [done|]. cbn [app take_word]. rewrite (proj2 (Z.eqb_neq _ _) Hc). by rewrite IH. Qed.
(** A word at least one octet long, followed by what does not begin with a blank. *)
Lemma skip_space_word f r : word f -> f <> [] -> skip_spaces (32 :: f ++ r) = f ++ r.
Proof. intros Hf Hn. destruct f as [|c f]; [done|]. apply Forall_cons_iff in Hf as [Hc _]. unfold skip_spaces. cbn [app drop_while]. by rewrite Z.eqb_refl, (proj2 (Z.eqb_neq _ _) Hc). Qed.
Lemma next_field_app f g r : word f -> word g -> g <> [] -> next_field (f ++ 32 :: g ++ r) = g ++ r.
Proof. intros Hf Hg Hn. unfold next_field. by rewrite skip_word_app, skip_space_word. Qed.
Lemma digits_word ds : Forall (fun c => is_digit c = true) ds -> word ds.
Proof. apply List.Forall_impl. intros c Hc ->. done. Qed.
Lemma dec_word v : 0 <= v -> word (dec v).
Proof. intros Hv. by apply digits_word, dec_digits. Qed.
(** An address a candidate line can carry. *)
Definition sdp_address_ok (a : list Z) : Prop := word a /\ a <> [] /\ (length a < NANORTC_IPV6_STR_SIZE)%nat.
Definition push_candidate (r : sdp_remote) (a : list Z) (port : Z) : sdp_remote :=
  set_candidates r (S (rs_candidate_count r))
    (<[rs_candidate_count r := Candidate (store a (sc_addr (default sdp_candidate_zero (rs_candidates r !! rs_candidate_count r)))) port]> (rs_candidates r)).
(** The fields of a candidate line. *)
Definition candidate_line (found proto prio a : list Z) (port : Z) (rest : list Z) : list Z :=
  lit "a=candidate:" ++ found ++ 32 :: lit "1" ++ 32 :: proto ++ 32 :: prio ++ 32 :: a ++ 32 :: dec port ++ 32 :: rest.
Lemma parse_candidate_spec r found proto prio a port rest : remote_ok r -> (rs_candidate_count r < NANORTC_SDP_MAX_CANDIDATES)%nat ->
  word found -> word proto -> proto <> [] -> word prio -> prio <> [] -> sdp_address_ok a -> is_u16 port -> 0 < port ->
  parse_candidate r (candidate_line found proto prio a port rest) = Ok (push_candidate r a port).
Proof.
  intros [R1 R2 R3 R4 R5 R6] Hc Hf Hp Hpn Hq Hqn (Ha & Han & Hal) Hport Hpos. unfold parse_candidate. rewrite (proj2 (Nat.ltb_lt _ _) Hc). unfold candidate_line.
  change 12%nat with (length (lit "a=candidate:")). rewrite drop_app_length.
  match goal with |- context [Nat.iter 4 next_field ?x] => change (Nat.iter 4 next_field x) with (next_field (next_field (next_field (next_field x)))) end.
  assert (word (lit "1")) as H1 by (apply List.Forall_cons; [done | done]).
  rewrite (next_field_app found (lit "1")), (next_field_app (lit "1") proto), (next_field_app proto prio), (next_field_app prio a) by done.
  rewrite take_word_app, skip_word_app by done. assert (0 <= port) as Hp0 by lia.
  rewrite skip_space_word by first [by apply dec_word | by apply dec_nonempty]. rewrite parse_dec by (done || (unfold is_u16 in Hport; unfold is_u32; lia)). cbn [fst]. rewrite u16_id by done.
  destruct a as [|x a]; [done|]. change (0 <? length (x :: a))%nat with true. rewrite (proj2 (Nat.ltb_lt _ _) Hal), (proj2 (Z.ltb_lt _ _) Hpos). cbn [andb].
  unfold push_candidate. destruct (lookup_lt_is_Some_2 (rs_candidates r) (rs_candidate_count r)) as [c Hlk]; [lia|]. rewrite Hlk. change (default sdp_candidate_zero (Some c)) with c.
  pose proof (proj1 (Forall_lookup _ _) R6 _ c Hlk) as Hcl. cbv beta in Hcl. set (b := x :: a) in *. assert (length b < length (sc_addr c))%nat as Hbl by (rewrite Hcl; exact Hal).
  rewrite wr_Ok, bind_Ok by lia. rewrite take_0, app_nil_l, Nat.add_0_l. rewrite wr_append by (rewrite ?length_drop; cbn [length]; lia). rewrite bind_Ok, drop_drop. unfold store. by rewrite <- app_assoc.
Qed.
Lemma push_candidate_ok r a port : remote_ok r -> (rs_candidate_count r < NANORTC_SDP_MAX_CANDIDATES)%nat -> (length a < NANORTC_IPV6_STR_SIZE)%nat -> remote_ok (push_candidate r a port).
Proof.
  intros [R1 R2 R3 R4 R5 R6] Hc Ha. unfold push_candidate. destruct (lookup_lt_is_Some_2 (rs_candidates r) (rs_candidate_count r)) as [c Hlk]; [lia|]. rewrite Hlk. change (default sdp_candidate_zero (Some c)) with c.
  pose proof (proj1 (Forall_lookup _ _) R6 _ c Hlk) as Hcl. cbv beta in Hcl.
  constructor; cbn [set_candidates rs_ufrag rs_pwd rs_fingerprint rs_candidates rs_candidate_count]; [done.. | by rewrite length_insert | lia |].
  apply Forall_insert; [done|]. cbn [sc_addr]. rewrite store_length by (rewrite Hcl; exact Ha). exact Hcl.
Qed.
(** The candidates a text offers, in order. *)
Definition offered (l : sdp_local) : list (list Z * Z) :=
  concat (map (fun c => match text_of (sc_addr c) with [] => [] | a => [(a, sc_port c)] end) (take (ls_candidate_count l) (ls_candidates l))) ++
  (match se_has (ls_srflx l), text_of (se_ip (ls_srflx l)) with true, (_ :: _) as a => [(a, se_port (ls_srflx l))] | _, _ => [] end) ++
  (match se_has (ls_relay l), text_of (se_ip (ls_relay l)) with true, (_ :: _) as a => [(a, se_port (ls_relay l))] | _, _ => [] end).
Definition push_candidates (r : sdp_remote) (cs : list (list Z * Z)) : sdp_remote := foldl (fun r c => push_candidate r (fst c) (snd c)) r cs.
Definition candidate_ok (c : list Z * Z) : Prop := sdp_address_ok (fst c) /\ is_u16 (snd c) /\ 0 < snd c.
Lemma steps_candidate saved st found prio rest c ls st' :
  remote_ok (sd_remote (pr_sdp st)) -> (rs_candidate_count (sd_remote (pr_sdp st)) < NANORTC_SDP_MAX_CANDIDATES)%nat ->
  word found -> word prio -> prio <> [] -> candidate_ok c ->
  steps saved (with_remote_parser st (push_candidate (sd_remote (pr_sdp st)) (fst c) (snd c))) ls st' ->
  steps saved st ((lit "a=candidate:" ++ found ++ lit " 1 UDP " ++ prio ++ lit " " ++ fst c ++ lit " " ++ dec (snd c) ++ lit " " ++ rest) :: ls) st'.
Proof.
  intros Hr Hn Hf Hq Hqn (Ha & Hp & Hpos) Hrest.
  assert ((lit "a=candidate:" ++ found ++ lit " 1 UDP " ++ prio ++ lit " " ++ fst c ++ lit " " ++ dec (snd c) ++ lit " " ++ rest) ++ crlf =
          candidate_line found (lit "UDP") prio (fst c) (snd c) (rest ++ crlf)) as E.
  { unfold candidate_line. change (lit " 1 UDP ") with (32 :: lit "1" ++ 32 :: lit "UDP" ++ [32]). change (lit " ") with [32]. rewrite <- !app_assoc. cbn [app]. rewrite <- !app_assoc. done. }
  eapply steps_session; [rewrite E; session | | exact Hrest]. rewrite E. unfold parse_session, candidate_line. starts. fold (candidate_line found (lit "UDP") prio (fst c) (snd c) (rest ++ crlf)).
  assert (word (lit "UDP")) as Hu by (by repeat (apply List.Forall_cons; [done|])).
  by rewrite parse_candidate_spec, bind_Ok by done.
Qed.
(** A line that offers [c]. *)
Definition offers (line : list Z) (c : list Z * Z) : Prop :=
  exists found prio rest, word found /\ word prio /\ prio <> [] /\
    line = lit "a=candidate:" ++ found ++ lit " 1 UDP " ++ prio ++ lit " " ++ fst c ++ lit " " ++ dec (snd c) ++ lit " " ++ rest.
Lemma push_candidates_ok cs : forall r, remote_ok r -> (rs_candidate_count r + length cs <= NANORTC_SDP_MAX_CANDIDATES)%nat -> Forall candidate_ok cs -> remote_ok (push_candidates r cs).
Proof.
  induction cs as [|c cs IH]; intros r Hr Hn Hc; [done|]. apply Forall_cons_iff in Hc as [((_ & _ & Hl) & _) Hc]. cbn [length] in Hn. unfold push_candidates. cbn [foldl].
  apply IH; [apply push_candidate_ok; [done | lia | done] | cbn; lia | done].
Qed.
Lemma steps_candidates saved lines cs : Forall2 offers lines cs -> forall st, remote_ok (sd_remote (pr_sdp st)) -> Forall candidate_ok cs ->
  (rs_candidate_count (sd_remote (pr_sdp st)) + length cs <= NANORTC_SDP_MAX_CANDIDATES)%nat ->
  steps saved st lines (with_remote_parser st (push_candidates (sd_remote (pr_sdp st)) cs)).
Proof.
  induction 1 as [|line c lines cs (found & prio & rest & Hf & Hp & Hpn & ->) _ IH]; intros st Hr Hc Hn.
  - unfold push_candidates. cbn [foldl]. rewrite with_same_remote. apply steps_nil.
  - apply Forall_cons_iff in Hc as [Hc Hcs]. cbn [length] in Hn. apply steps_candidate; [done | lia | done..|].
    refine (IH (with_remote_parser st (push_candidate (sd_remote (pr_sdp st)) (fst c) (snd c))) _ Hcs _).
    + apply push_candidate_ok; [done | lia | apply Hc].
    + cbn. lia.
Qed.
Lemma u16_nonneg v : 0 <= u16 v. Proof. pose proof (u16_range v) as H. unfold is_u16 in H. lia. Qed.
Lemma type_priority_nonneg t i : 0 <= type_priority t i.
Proof. pose proof (type_priority_u32 t i) as H. unfold is_u32 in H. lia. Qed.
Lemma offers_host cs : forall i, Forall2 offers (host_lines cs i) (concat (map (fun c => match text_of (sc_addr c) with [] => [] | a => [(a, sc_port c)] end) cs)).
Proof.
  induction cs as [|c cs IH]; intros i; [constructor|]. unfold host_lines. cbn [imap concat map]. apply Forall2_app.
  - destruct (text_of (sc_addr c)) as [|x a] eqn:E; constructor; [|constructor]. rewrite Nat.add_0_r.
    exists (dec (u16 (Z.of_nat i + 1))), (dec (ICE_HOST_PRIORITY (Z.of_nat i))), (lit "typ host").
    split; [apply dec_word, u16_nonneg|]. split; [apply dec_word, type_priority_nonneg|]. split; [apply dec_nonempty, type_priority_nonneg|].
    unfold host_line. rewrite E. done.
  - refine (eq_rect _ (fun x => Forall2 offers x _) (IH (S i)) _ _). unfold host_lines. f_equal. apply imap_ext. intros j x _. cbn. by rewrite Nat.add_succ_r.
Qed.
Lemma offers_extra e found kind prio : word found -> 0 <= prio ->
  Forall2 offers (extra_lines e (lit "a=candidate:" ++ found ++ lit " 1 UDP ") (lit " " ++ kind) prio)
    (match se_has e, text_of (se_ip e) with true, (_ :: _) as a => [(a, se_port e)] | _, _ => [] end).
Proof.
  intros Hf Hp. unfold extra_lines. destruct (se_has e); [|constructor]. destruct (text_of (se_ip e)) as [|x a] eqn:E; constructor; [|constructor].
  exists found, (dec prio), (kind ++ related (x :: a)). split; [done|]. split; [by apply dec_word|]. split; [by apply dec_nonempty|]. cbn [fst snd]. by rewrite <- !app_assoc.
Qed.
Lemma offers_all l : Forall2 offers (candidate_lines l) (offered l).
Proof.
  unfold candidate_lines, offered. apply Forall2_app; [apply offers_host|]. apply Forall2_app.
  - apply (offers_extra _ (lit "3") (lit "typ srflx")); [by repeat (apply List.Forall_cons; [done|]) | apply type_priority_nonneg].
  - apply (offers_extra _ (lit "2") (lit "typ relay")); [by repeat (apply List.Forall_cons; [done|]) | apply type_priority_nonneg].
Qed.

(** * The data-channel section *)

(** Outside a media section a direction is of no interest. *)
Lemma direction_outside saved st dir : pr_current st = None -> parse_line saved st (direction_text dir ++ crlf) = Ok (st, NANORTC_OK).
Proof.
  intros Hc. assert (forall r, parse_session r (direction_text dir ++ crlf) = Ok (r, NANORTC_OK)) as Hp
    by (intros r; unfold direction_text; repeat (destruct (_ =? _)); unfold parse_session; starts; reflexivity).
  assert (parse_line saved st (direction_text dir ++ crlf) = session_line st (direction_text dir ++ crlf)) as ->
    by (unfold parse_line, direction_text; repeat (destruct (_ =? _)); starts; by rewrite Hc).
  unfold session_line. rewrite Hp, bind_Ok. cbv beta iota. by destruct st as [[] ? ?].
Qed.
Definition dc_remote (l : sdp_local) (r : sdp_remote) : sdp_remote :=
  set_max_message (set_sctp_port (transport_remote l r) (ls_sctp_port l)) SDP_MAX_MESSAGE_SIZE.
Definition dc_section (l : sdp_local) (st : sdp_parser) : sdp_parser :=
  let s := pr_sdp st in let md := sd_media s in
  Parser (Sdp (dc_remote l (sd_remote s)) (sd_local s) (MediaLines (ms_mlines md) (ms_mline_count md) true (ms_mid_count md) (u8 (ms_mid_count md + 1))) (sd_parsed s)) None (pr_reject st).
Lemma steps_datachannel saved st l mid : remote_ok (sd_remote (pr_sdp st)) -> transport_ok l -> is_u16 (ls_sctp_port l) ->
  steps saved st (datachannel_lines l mid) (dc_section l st).
Proof.
  intros Hr Ht Hport. unfold datachannel_lines, mid_lines. cbn [app]. eapply steps_cons; [unfold parse_line; starts; reflexivity|].
  set (st1 := Parser _ None _). change (sd_remote (pr_sdp st)) with (sd_remote (pr_sdp st1)) in Hr.
  eapply steps_ignored; [apply ignored_connection|]. eapply steps_ignored; [apply ignored_mid|].
  eapply steps_cons; [by apply (direction_outside saved st1 NANORTC_DIR_SENDRECV)|]. eapply steps_ignored; [apply ignored_trickle|].
  eapply steps_app; [by apply steps_transport|]. set (st2 := with_remote_parser st1 _).
  assert (forall v, session_only ((lit "a=sctp-port:" ++ v) ++ crlf)) as S1 by (intros v; session).
  eapply steps_session; [apply S1 | unfold parse_session; starts; rewrite <- app_assoc; change 12%nat with (length (lit "a=sctp-port:")); rewrite drop_app_length;
    rewrite parse_dec by (first [done | unfold is_u16 in Hport; unfold is_u32; lia]); cbn [fst]; rewrite u16_id by done; reflexivity|].
  eapply steps_session; [session | unfold parse_session; starts; vm_compute (strip_end _ _); cbv iota; vm_compute (parse_limit _ _); cbv iota; reflexivity | apply steps_nil].
Qed.

(** * The media sections *)

(** The state with m-line [i], the current one, replaced. *)
Definition at_mline (st : sdp_parser) (i : nat) (m : nano_sdp_mline) : Prop := pr_current st = Some i /\ ms_mlines (sd_media (pr_sdp st)) !! i = Some m.
Definition put_mline (st : sdp_parser) (i : nat) (m : nano_sdp_mline) : sdp_parser :=
  Parser (with_media (pr_sdp st) (set_mlines (sd_media (pr_sdp st)) (<[i := m]> (ms_mlines (sd_media (pr_sdp st)))))) (Some i) (pr_reject st).
Lemma on_mline_at st i m f m' : at_mline st i m -> f m = (m', false) -> on_mline st i f = Ok (put_mline st i m').
Proof. intros [_ Hm] Hf. unfold on_mline. rewrite Hm, Hf, orb_false_r. done. Qed.
Lemma at_put st i m m' : at_mline st i m -> at_mline (put_mline st i m') i m'.
Proof. intros [_ Hm]. split; [done|]. cbn. by apply list_lookup_insert_eq, (lookup_lt_Some _ _ _ Hm). Qed.
Lemma put_put st i m m' : put_mline (put_mline st i m) i m' = put_mline st i m'.
Proof. unfold put_mline. cbn. by rewrite list_insert_insert_eq. Qed.
Lemma at_remote st i m r : at_mline st i m -> at_mline (with_remote_parser st r) i m.
Proof. done. Qed.
Lemma put_remote st i m r : put_mline (with_remote_parser st r) i m = with_remote_parser (put_mline st i m) r.
Proof. done. Qed.
Lemma put_same st i m : at_mline st i m -> put_mline st i m = st.
Proof. intros [Hc Hm]. unfold put_mline. rewrite list_insert_id by done. destruct st as [[? ? [] ?] ? ?]. cbn in *. by subst. Qed.
Lemma is_video_at st i m : at_mline st i m -> is_video_mline st i = (ml_kind m =? SDP_MLINE_VIDEO).
Proof. intros [_ Hm]. unfold is_video_mline. by rewrite Hm. Qed.

Definition normal_direction (d : Z) : Z :=
  if d =? NANORTC_DIR_SENDONLY then NANORTC_DIR_SENDONLY else if d =? NANORTC_DIR_RECVONLY then NANORTC_DIR_RECVONLY
  else if d =? NANORTC_DIR_INACTIVE then NANORTC_DIR_INACTIVE else NANORTC_DIR_SENDRECV.
Lemma direction_inside saved st i m dir : at_mline st i m ->
  parse_line saved st (direction_text dir ++ crlf) = Ok (put_mline st i (ml_set_remote_direction m (normal_direction dir)), NANORTC_OK).
Proof.
  intros Hm.
  assert (direction_of (direction_text dir ++ crlf) = normal_direction dir /\ is_direction (direction_text dir ++ crlf) = true) as [Hd Hi]
    by (unfold direction_text, normal_direction; repeat (destruct (_ =? _)); by split).
  assert (parse_line saved st (direction_text dir ++ crlf) =
    (st ← on_mline st i (fun ml => (ml_set_remote_direction ml (direction_of (direction_text dir ++ crlf)), false)); Ok (st, NANORTC_OK))) as ->.
  { unfold parse_line. cbv zeta. rewrite Hi, (proj1 Hm). unfold direction_text. repeat (destruct (_ =? _)); starts; rewrite ?andb_false_r; reflexivity. }
  rewrite (on_mline_at _ _ _ _ _ Hm eq_refl), bind_Ok. by rewrite Hd.
Qed.
Lemma session_dec v r : no_digit r -> is_u32 v -> length (snd (parse_u32 (dec v ++ r))) <> length (dec v ++ r).
Proof.
  intros Hr Hv. rewrite parse_dec by done. cbn [snd]. rewrite length_app. pose proof (dec_nonempty v ltac:(unfold is_u32 in Hv; lia)). destruct (dec v); [done|]. cbn [length]. lia.
Qed.
Lemma rtpmap_value m pt codec : is_u8 pt -> (match codec with c :: _ => c = 32 | [] => False end) ->
  parse_rtpmap m ((lit "a=rtpmap:" ++ dec pt ++ codec) ++ crlf) =
  (if ml_kind m =? SDP_MLINE_VIDEO then
     if line_starts_with (tail codec ++ crlf) (lit "H264") then ml_set_h264_rtpmap m pt
     else if line_starts_with (tail codec ++ crlf) (lit "H265") then
       let m := ml_set_h265_rtpmap m pt in if ml_codec m =? NANORTC_CODEC_H265 then ml_set_pt m pt else m
     else m
   else m).
Proof.
  intros Hpt Hc. destruct codec as [|c codec]; [done|]. subst c. unfold parse_rtpmap. rewrite <- !app_assoc. change 9%nat with (length (lit "a=rtpmap:")). rewrite drop_app_length.
  assert (is_u32 pt) as H32 by (unfold is_u8 in Hpt; unfold is_u32; lia). pose proof (session_dec pt ((32 :: codec) ++ crlf) eq_refl H32) as Hl.
  rewrite parse_dec in * by done. cbn [snd] in Hl. rewrite (proj2 (Nat.eqb_neq _ _) Hl). cbn [app tail]. change (negb (32 =? 32)) with false. cbv iota. rewrite u8_id by done. reflexivity.
Qed.
Lemma first_pt_value kind pt : is_u8 pt -> length kind = 8%nat -> parse_mline_first_pt ((kind ++ lit "9 UDP/TLS/RTP/SAVPF " ++ dec pt) ++ crlf) 8 = pt.
Proof.
  intros Hpt Hk. unfold parse_mline_first_pt. rewrite <- !app_assoc, <- Hk, drop_app_length.
  match goal with |- context [next_field (next_field ?x)] => change (next_field (next_field x)) with (skip_spaces (32 :: dec pt ++ crlf)) end.
  assert (0 <= pt) as H0 by (unfold is_u8 in Hpt; lia). rewrite skip_space_word by first [by apply dec_word | by apply dec_nonempty].
  pose proof (dec_nonempty pt H0). destruct (dec pt ++ crlf) as [|c t] eqn:E; [by destruct (dec pt)|]. rewrite <- E, parse_dec by (done || (unfold is_u8 in Hpt; unfold is_u32; lia)).
  cbn [fst]. by rewrite u8_id.
Qed.
(** The fmtp line of an H.264 m-line whose rtpmap line has been read. *)
Definition h264_fmtp_text : list Z := lit " level-asymmetry-allowed=1;packetization-mode=1;profile-level-id=42e01f".
Lemma fmtp_value m pt : is_u8 pt -> ml_h264_rtpmap_pt m = pt -> ml_h265_rtpmap_pt m = 0 ->
  parse_fmtp m ((lit "a=fmtp:" ++ dec pt ++ h264_fmtp_text) ++ crlf) = (if is_h265 m then m else ml_set_pt m pt, false).
Proof.
  intros Hpt H4 H5. unfold parse_fmtp. rewrite <- !app_assoc. change 7%nat with (length (lit "a=fmtp:")). rewrite drop_app_length.
  rewrite parse_dec by (done || (unfold is_u8 in Hpt; unfold is_u32; lia)).
  assert (scan_fmtp (h264_fmtp_text ++ crlf) (Fmtp false false false false) = Fmtp true true false false) as -> by (vm_compute; reflexivity).
  cbn [ff_mode1 ff_profile ff_bad_txmode ff_bad_don]. rewrite u8_id by done. rewrite H4, Z.eqb_refl, orb_true_r. cbn [andb orb]. unfold is_h265. destruct (ml_codec m =? _); cbn [negb andb].
  - by rewrite H5.
  - cbn. by rewrite H5.
Qed.
(** An fmtp line that asks for no multi-stream transmission and no DON difference. *)
Fixpoint unobjectionable (t : list Z) : bool :=
  match t with
  | [] => true
  | _ :: r => negb (line_starts_with t (lit "tx-mode=MSMT")) && negb (line_starts_with t (lit "tx-mode=MSST")) && negb (bad_don t) && unobjectionable r
  end.
Lemma unobjectionable_app a b : unobjectionable (a ++ b) = true -> unobjectionable b = true.
Proof. induction a as [|x a IH]; [done|]. cbn [app unobjectionable]. intros [_ H]%andb_true_iff. by apply IH. Qed.
Lemma scan_unobjectionable t : forall f, unobjectionable t = true -> ff_bad_txmode (scan_fmtp t f) = ff_bad_txmode f /\ ff_bad_don (scan_fmtp t f) = ff_bad_don f.
Proof.
  induction t as [|c t IH]; intros f H; [done|]. cbn [scan_fmtp]. destruct (_ <? 12)%nat; [done|]. cbn [unobjectionable] in H.
  repeat (apply andb_true_iff in H as [H ?]). apply negb_true_iff in H. repeat match goal with E : negb _ = true |- _ => apply negb_true_iff in E end.
  edestruct IH as [-> ->]; [done|]. cbn [ff_bad_txmode ff_bad_don]. repeat match goal with E : _ = false |- _ => rewrite E end. by rewrite !orb_false_r.
Qed.
(** The fmtp line of an H.265 m-line whose rtpmap line has been read. *)
Lemma h265_fmtp_value m ml : is_u8 (ml_pt ml) -> ml_h264_rtpmap_pt m = 0 -> ml_h265_rtpmap_pt m = ml_pt ml -> unobjectionable (h265_fmtp ml ++ crlf) = true ->
  parse_fmtp m (h265_fmtp ml ++ crlf) = (m, false) \/ parse_fmtp m (h265_fmtp ml ++ crlf) = (ml_set_pt m (ml_pt ml), false).
Proof.
  intros Hpt H4 H5 Hq. unfold h265_fmtp in *. rewrite <- !app_assoc in *. match type of Hq with unobjectionable (_ ++ _ ++ ?t) = _ => set (params := t) in * end.
  unfold parse_fmtp. change 7%nat with (length (lit "a=fmtp:")). rewrite drop_app_length. rewrite parse_dec by (done || (unfold is_u8 in Hpt; unfold is_u32; lia)).
  do 2 apply unobjectionable_app in Hq. destruct (scan_unobjectionable params (Fmtp false false false false) Hq) as [-> ->]. cbn [ff_bad_txmode ff_bad_don orb].
  rewrite u8_id, H4 by done. cbv zeta. change (0 =? 0) with true. cbn [orb]. set (m1 := if _ && _ && _ then _ else _).
  assert (m1 = m \/ m1 = ml_set_pt m (ml_pt ml)) as Hm1 by (unfold m1; destruct (_ && _ && _); [by right | by left]).
  assert (ml_h265_rtpmap_pt m1 = ml_pt ml) as -> by (destruct Hm1 as [-> | ->]; exact H5). rewrite Z.eqb_refl, andb_true_r.
  clearbody m1. destruct (ml_pt ml =? 0), (_ || _); cbn [negb]; destruct Hm1 as [-> | ->]; first [left; reflexivity | right; reflexivity].
Qed.
Lemma extmap_value m id : 1 <= id <= 14 -> parse_extmap m ((lit "a=extmap:" ++ dec id ++ lit " " ++ NANORTC_TWCC_EXT_URI) ++ crlf) = ml_set_twcc m id.
Proof.
  intros Hid. unfold parse_extmap. rewrite <- !app_assoc. change 9%nat with (length (lit "a=extmap:")). rewrite drop_app_length.
  rewrite parse_dec by (done || (unfold is_u32; lia)). rewrite (proj2 (Z.leb_le _ _)), (proj2 (Z.leb_le _ _)) by lia. cbn [andb].
  rewrite u8_id by (unfold is_u8; lia). vm_compute (if _ && _ then _ else _). done.
Qed.
(** A new media section whose m-line has become [m]. *)
Definition opened (st : sdp_parser) (m : nano_sdp_mline) : sdp_parser :=
  let s := pr_sdp st in let md := sd_media s in
  Parser (with_media s (MediaLines (<[ms_mline_count md := m]> (ms_mlines md)) (S (ms_mline_count md)) (ms_has_datachannel md) (ms_dc_mid md) (u8 (ms_mid_count md + 1))))
    (Some (ms_mline_count md)) (pr_reject st).
Definition room (st : sdp_parser) : Prop :=
  length (ms_mlines (sd_media (pr_sdp st))) = NANORTC_MAX_MEDIA_TRACKS /\ (ms_mline_count (sd_media (pr_sdp st)) < NANORTC_MAX_MEDIA_TRACKS)%nat.
Definition saved_ok (p : mline_saved) : Prop :=
  length (hl_sprop (sv_h265 p)) = NANORTC_H265_SPROP_FMTP_SIZE /\ (hl_sprop_len (sv_h265 p) <= NANORTC_H265_SPROP_FMTP_SIZE)%nat.
Lemma opened_at st m : room st -> at_mline (opened st m) (ms_mline_count (sd_media (pr_sdp st))) m.
Proof. intros [Hl Hc]. split; [done|]. cbn. apply list_lookup_insert_eq. lia. Qed.
Lemma opened_put st m m' : put_mline (opened st m) (ms_mline_count (sd_media (pr_sdp st))) m' = opened st m'.
Proof. unfold put_mline, opened. cbn. by rewrite list_insert_insert_eq. Qed.
(** What a new m-line begins with. *)
Definition fresh (is_video : bool) (mid pt codec : Z) (h : h265_local) : nano_sdp_mline :=
  Mline (if is_video then SDP_MLINE_VIDEO else SDP_MLINE_AUDIO) mid 0 pt 0 0 codec 0 0 true 0 0 0 h.
Lemma new_mline_Ok is_video mid line p : (forall x, p = Some x -> saved_ok x) -> exists codec h, new_mline is_video mid line p = Ok (fresh is_video mid (parse_mline_first_pt line 8) codec h).
Proof.
  intros Hp. unfold new_mline, fresh. destruct p as [p|]; [|by exists 0, h265_zero]. destruct (Hp p eq_refl) as [Hl Hn].
  destruct (is_video && _).
  - rewrite rdn_Ok, bind_Ok by lia. rewrite wr_Ok, bind_Ok by (rewrite length_take_le by (rewrite length_drop; lia); change (length (hl_sprop h265_zero)) with NANORTC_H265_SPROP_FMTP_SIZE; lia). by eexists _, _.
  - rewrite bind_Ok. by eexists _, _.
Qed.
Definition media_head (is_video : bool) : list Z := if is_video then lit "m=video 9 UDP/TLS/RTP/SAVPF " else lit "m=audio 9 UDP/TLS/RTP/SAVPF ".
Lemma section_opens saved st is_video pt : room st -> Forall saved_ok saved -> is_u8 pt ->
  exists codec h, parse_line saved st ((media_head is_video ++ dec pt) ++ crlf) = Ok (opened st (fresh is_video (ms_mid_count (sd_media (pr_sdp st))) pt codec h), NANORTC_OK).
Proof.
  intros [Hl Hc] Hs Hpt. set (line := (media_head is_video ++ dec pt) ++ crlf).
  assert (forall x, saved !! ms_mline_count (sd_media (pr_sdp st)) = Some x -> saved_ok x) as Hx by (intros x Hx; exact (proj1 (Forall_lookup _ _) Hs _ _ Hx)).
  destruct (new_mline_Ok is_video (ms_mid_count (sd_media (pr_sdp st))) line _ Hx) as (codec & h & Hnew). exists codec, h.
  assert (parse_mline_first_pt line 8 = pt) as Hfirst
    by (unfold line, media_head; destruct is_video; [exact (first_pt_value (lit "m=video ") pt Hpt eq_refl) | exact (first_pt_value (lit "m=audio ") pt Hpt eq_refl)]).
  rewrite Hfirst in Hnew.
  assert (parse_line saved st line = (st ← media_section saved st is_video line; Ok (st, NANORTC_OK))) as -> by (unfold line, media_head; destruct is_video; unfold parse_line; starts; reflexivity).
  unfold media_section. cbv zeta. rewrite (proj2 (Nat.ltb_lt _ _) Hc). destruct (lookup_lt_is_Some_2 (ms_mlines (sd_media (pr_sdp st))) (ms_mline_count (sd_media (pr_sdp st)))) as [x Hlk]; [lia|].
  rewrite Hlk, Hnew, !bind_Ok. done.
Qed.
(** The m-line as its rtpmap line leaves it. *)
Definition mapped (m : nano_sdp_mline) (pt : Z) (codec : list Z) : nano_sdp_mline := parse_rtpmap m ((lit "a=rtpmap:" ++ dec pt ++ codec) ++ crlf).
Lemma rtpmap_inside saved st i m pt codec : at_mline st i m ->
  parse_line saved st ((lit "a=rtpmap:" ++ dec pt ++ codec) ++ crlf) = Ok (put_mline st i (mapped m pt codec), NANORTC_OK).
Proof. intros Hm. unfold parse_line. starts. rewrite (proj1 Hm). cbv zeta. cbn [orb]. by rewrite (on_mline_at _ _ _ (fun ml => (parse_rtpmap ml _, false)) _ Hm eq_refl), bind_Ok. Qed.
Lemma steps_media_lines saved st l ml is_video codec mid : room st -> Forall saved_ok saved -> is_u8 (ml_pt ml) -> remote_ok (sd_remote (pr_sdp st)) -> transport_ok l ->
  exists k h, steps saved st (media_lines l ml (media_head is_video) codec mid)
    (with_remote_parser (opened st (mapped (ml_set_remote_direction (fresh is_video (ms_mid_count (sd_media (pr_sdp st))) (ml_pt ml) k h) (normal_direction (ml_direction ml))) (ml_pt ml) codec))
       (transport_remote l (sd_remote (pr_sdp st)))).
Proof.
  intros Hroom Hs Hpt Hr Ht. destruct (section_opens saved st is_video (ml_pt ml) Hroom Hs Hpt) as (k & h & Hopen). exists k, h. set (m := fresh _ _ _ _ _) in *.
  unfold media_lines, media_head_lines, mid_lines. cbn [app]. rewrite <- !app_assoc. cbn [app]. eapply steps_cons; [exact Hopen|].
  eapply steps_ignored; [apply ignored_connection|]. eapply steps_ignored; [apply ignored_mid|].
  eapply steps_cons; [apply (direction_inside saved _ _ _ _ (opened_at st m Hroom))|]. rewrite opened_put. set (m1 := ml_set_remote_direction m _).
  eapply steps_app; [apply (steps_transport saved (opened st m1) l Hr Ht)|]. eapply steps_ignored; [apply ignored_mux|].
  eapply steps_cons; [apply (rtpmap_inside saved _ _ _ _ codec (at_remote _ _ _ (transport_remote l (sd_remote (pr_sdp (opened st m1)))) (opened_at st m1 Hroom)))|].
  rewrite put_remote, opened_put. apply steps_nil.
Qed.
(** What the receiver knows of the sender's m-line [ml]. *)
Record heard (ml : nano_sdp_mline) (kind mid : Z) (m : nano_sdp_mline) : Prop := {
  he_kind : ml_kind m = kind;
  he_mid : ml_mid m = mid;
  he_active : ml_active m = true;
  he_pt : ml_remote_pt m = ml_pt ml;
  he_direction : ml_remote_direction m = normal_direction (ml_direction ml);
  he_agreed : kind = SDP_MLINE_VIDEO ->
    if is_h265 ml then ml_h265_rtpmap_pt m = ml_pt ml /\ (ml_codec m = NANORTC_CODEC_H265 -> ml_pt m = ml_pt ml)
    else ml_h264_rtpmap_pt m = ml_pt ml /\ (ml_codec m <> NANORTC_CODEC_H265 -> ml_pt m = ml_pt ml);
  he_twcc : ml_twcc_ext_id m = (if (kind =? SDP_MLINE_VIDEO) && twcc_valid ml then twcc_of ml else 0)
}.
Lemma ignored_audio_fmtp saved st i m x : at_mline st i m -> ml_kind m = SDP_MLINE_AUDIO -> parse_line saved st ((lit "a=fmtp:" ++ x) ++ crlf) = Ok (st, NANORTC_OK).
Proof.
  intros Hm Hk. assert (forall r, parse_session r ((lit "a=fmtp:" ++ x) ++ crlf) = Ok (r, NANORTC_OK)) as Hp by (intros r; unfold parse_session; starts; reflexivity).
  unfold parse_line. cbv zeta. rewrite (proj1 Hm), (is_video_at _ _ _ Hm), Hk. change (SDP_MLINE_AUDIO =? SDP_MLINE_VIDEO) with false. starts. cbn [orb andb].
  change (is_direction _) with false. cbv iota. unfold session_line. rewrite Hp, bind_Ok. cbv beta iota. by destruct st as [[] ? ?].
Qed.
Lemma steps_audio saved st l ml mid : room st -> Forall saved_ok saved -> is_u8 (ml_pt ml) -> remote_ok (sd_remote (pr_sdp st)) -> transport_ok l ->
  exists m, steps saved st (audio_lines l ml mid) (with_remote_parser (opened st m) (transport_remote l (sd_remote (pr_sdp st)))) /\
    heard ml SDP_MLINE_AUDIO (ms_mid_count (sd_media (pr_sdp st))) m.
Proof.
  intros Hroom Hs Hpt Hr Ht. destruct (steps_media_lines saved st l ml false (audio_codec ml) mid Hroom Hs Hpt Hr Ht) as (k & h & Hst).
  assert (forall m, ml_kind m = SDP_MLINE_AUDIO -> mapped m (ml_pt ml) (audio_codec ml) = m) as Hmap.
  { intros m Hk. unfold mapped, audio_codec. repeat (destruct (_ =? _)); rewrite rtpmap_value by done; by rewrite Hk. }
  rewrite Hmap in Hst by done. set (m := ml_set_remote_direction _ _) in *. exists m. split; [|by constructor].
  unfold audio_lines. eapply steps_app; [exact Hst|]. destruct (ml_sample_rate ml =? 48000); [|apply steps_nil].
  eapply steps_cons; [apply (ignored_audio_fmtp saved _ _ m _ (at_remote _ _ _ _ (opened_at st m Hroom))); done|]. eapply steps_ignored; [apply ignored_ptime | apply steps_nil].
Qed.
(** Video m-lines whose text a parser takes: the parameter sets in the fmtp line
    of an H.265 m-line do not break the line nor ask for anything else. *)
Definition video_sendable (ml : nano_sdp_mline) : Prop := is_h265 ml = true -> plain (h265_fmtp ml) /\ unobjectionable (h265_fmtp ml ++ crlf) = true.
(** The rtpmap and fmtp lines of a video m-line, read into a new one. *)
Lemma video_codec_lines ml mid k h : is_u8 (ml_pt ml) -> video_sendable ml ->
  let m0 := ml_set_remote_direction (fresh true mid (ml_pt ml) k h) (normal_direction (ml_direction ml)) in
  exists m, parse_fmtp (mapped m0 (ml_pt ml) (video_codec ml)) (video_fmtp ml ++ crlf) = (m, false) /\ ml_kind (mapped m0 (ml_pt ml) (video_codec ml)) = SDP_MLINE_VIDEO /\
    heard ml SDP_MLINE_VIDEO mid (if twcc_valid ml then ml_set_twcc m (twcc_of ml) else m).
Proof.
  intros Hpt Hs m0. unfold video_codec, video_fmtp, mapped. destruct (is_h265 ml) eqn:H265; rewrite rtpmap_value by done.
  - change (ml_kind m0 =? SDP_MLINE_VIDEO) with true. change (line_starts_with (tail (lit " H265/90000") ++ crlf) (lit "H264")) with false.
    change (line_starts_with (tail (lit " H265/90000") ++ crlf) (lit "H265")) with true. cbv iota zeta. destruct (Hs H265) as [_ Hq].
    change (ml_codec (ml_set_h265_rtpmap m0 (ml_pt ml))) with k. set (m1 := if k =? NANORTC_CODEC_H265 then _ else _).
    assert (m1 = ml_set_h265_rtpmap m0 (ml_pt ml) /\ k <> NANORTC_CODEC_H265 \/ m1 = ml_set_pt (ml_set_h265_rtpmap m0 (ml_pt ml)) (ml_pt ml)) as Hm1
      by (unfold m1; destruct (Z.eqb_spec k NANORTC_CODEC_H265); [by right | by left]). clearbody m1.
    assert (ml_h264_rtpmap_pt m1 = 0 /\ ml_h265_rtpmap_pt m1 = ml_pt ml /\ ml_kind m1 = SDP_MLINE_VIDEO) as (E4 & E5 & Ek) by (destruct Hm1 as [[-> _] | ->]; done).
    destruct (h265_fmtp_value m1 ml Hpt E4 E5 Hq) as [-> | ->]; eexists; (split; [reflexivity|]); (split; [exact Ek|]);
      destruct (twcc_valid ml) eqn:Ht; (constructor; [..|intros _; rewrite H265|rewrite Ht]); destruct Hm1 as [[-> Hk] | ->]; done.
  - change (ml_kind m0 =? SDP_MLINE_VIDEO) with true. change (line_starts_with (tail (lit " H264/90000") ++ crlf) (lit "H264")) with true. cbv iota zeta.
    set (m1 := ml_set_h264_rtpmap _ _). exists (if is_h265 m1 then m1 else ml_set_pt m1 (ml_pt ml)). split; [by apply (fmtp_value m1 (ml_pt ml) Hpt eq_refl eq_refl)|]. split; [done|].
    change (is_h265 m1) with (k =? NANORTC_CODEC_H265). destruct (twcc_valid ml) eqn:Ht;
      (constructor; [..|intros _; rewrite H265; split; [|intros Hk]|rewrite Ht]); destruct (Z.eqb_spec k NANORTC_CODEC_H265) as [->|]; done.
Qed.
Lemma steps_video saved st l ml mid : room st -> Forall saved_ok saved -> is_u8 (ml_pt ml) -> video_sendable ml -> remote_ok (sd_remote (pr_sdp st)) -> transport_ok l ->
  exists m, steps saved st (video_lines l ml mid) (with_remote_parser (opened st m) (transport_remote l (sd_remote (pr_sdp st)))) /\
    heard ml SDP_MLINE_VIDEO (ms_mid_count (sd_media (pr_sdp st))) m.
Proof.
  intros Hroom Hs Hpt Hsend Hr Ht. destruct (steps_media_lines saved st l ml true (video_codec ml) mid Hroom Hs Hpt Hr Ht) as (k & h & Hst).
  destruct (video_codec_lines ml (ms_mid_count (sd_media (pr_sdp st))) k h Hpt Hsend) as (m1 & Hfmtp & Hkind & Hheard). set (m := mapped _ _ _) in *.
  set (m2 := if twcc_valid ml then ml_set_twcc m1 (twcc_of ml) else m1). exists m2. split.
  - unfold video_lines. eapply steps_app; [exact Hst|]. set (st1 := with_remote_parser _ _). pose proof (at_remote _ _ _ (transport_remote l (sd_remote (pr_sdp st))) (opened_at st m Hroom)) as Hat. fold st1 in Hat.
    assert (exists x, video_fmtp ml = lit "a=fmtp:" ++ x) as (x & Hx) by (unfold video_fmtp, h265_fmtp; destruct (is_h265 ml); by eexists). rewrite Hx in *.
    cbn [app]. eapply steps_cons.
    { unfold parse_line. starts. rewrite (proj1 Hat). cbv zeta. rewrite (is_video_at _ _ _ Hat), Hkind. change (SDP_MLINE_VIDEO =? SDP_MLINE_VIDEO) with true. cbn [orb andb].
      rewrite (on_mline_at _ _ _ (fun ml => parse_fmtp ml _) m1 Hat Hfmtp), bind_Ok. reflexivity. }
    eapply steps_ignored; [apply ignored_feedback|]. eapply steps_ignored; [apply ignored_feedback|]. pose proof (at_put _ _ _ m1 Hat) as Hat1. unfold m2. unfold st1 in *. rewrite put_remote, opened_put in *.
    destruct (twcc_valid ml) eqn:Htw; [|apply steps_nil]. unfold twcc_valid in Htw. apply andb_true_iff in Htw as [H1%Z.leb_le H2%Z.leb_le].
    eapply steps_cons; [|apply steps_nil]. unfold parse_line. starts. rewrite (proj1 Hat1). cbv zeta. rewrite andb_false_r. cbn [orb andb].
    rewrite (on_mline_at _ _ _ (fun ml => (parse_extmap ml _, false)) _ Hat1 eq_refl), bind_Ok, extmap_value by lia. by rewrite put_remote, opened_put.
  - exact Hheard.
Qed.

(** * The whole text *)

(** The transport attributes of [l], read. *)
Record text_heard (l : sdp_local) (r : sdp_remote) : Prop := {
  th_ufrag : c_string (rs_ufrag r) = Ok (text_of (ls_ufrag l));
  th_pwd : c_string (rs_pwd r) = Ok (text_of (ls_pwd l));
  th_fingerprint : text_of (ls_fingerprint l) <> [] -> c_string (rs_fingerprint r) = Ok (text_of (ls_fingerprint l));
  th_setup : rs_setup r = ls_setup l
}.
Lemma text_of_nonzero b : Forall (fun c => c <> 0) (text_of b).
Proof. unfold text_of. destruct (c_string b) as [s| |] eqn:E; [|done..]. by destruct (c_string_split _ _ E) as (r & _ & H). Qed.
Lemma store_string v dst : Forall (fun c => c <> 0) v -> c_string (store v dst) = Ok v.
Proof. intros H. by apply c_string_app. Qed.
Lemma transport_heard l r : text_heard l (transport_remote l r).
Proof.
  unfold transport_remote. pose proof (text_of_nonzero (ls_fingerprint l)) as Hfp. destruct (text_of (ls_fingerprint l)) as [|x fp] eqn:E; constructor; cbn -[store];
    first [by apply store_string, text_of_nonzero | done | (intros _; rewrite E; by apply store_string) | (intros H; by destruct H)].
Qed.
(** The candidates held. *)
Definition candidates_of (r : sdp_remote) : list (list Z * Z) := map (fun c => (text_of (sc_addr c), sc_port c)) (take (rs_candidate_count r) (rs_candidates r)).
Lemma push_candidates_of r a port : remote_ok r -> (rs_candidate_count r < NANORTC_SDP_MAX_CANDIDATES)%nat -> Forall (fun c => c <> 0) a ->
  candidates_of (push_candidate r a port) = candidates_of r ++ [(a, port)].
Proof.
  intros [R1 R2 R3 R4 R5 R6] Hc Ha. unfold candidates_of, push_candidate. cbn -[take store]. rewrite (take_S_r _ _ (Candidate (store a (sc_addr (default sdp_candidate_zero (rs_candidates r !! rs_candidate_count r)))) port))
    by (apply list_lookup_insert_eq; lia). rewrite take_insert_ge by lia. rewrite map_app. cbn -[store]. by rewrite (proj2 (store_text _ _ Ha)).
Qed.
Lemma push_heard l r a port : text_heard l r -> text_heard l (push_candidate r a port).
Proof. by intros []. Qed.
Lemma push_candidates_spec l cs : forall r, remote_ok r -> (rs_candidate_count r + length cs <= NANORTC_SDP_MAX_CANDIDATES)%nat -> Forall candidate_ok cs -> Forall (fun c => Forall (fun x => x <> 0) (fst c)) cs ->
  candidates_of (push_candidates r cs) = candidates_of r ++ cs /\ (text_heard l r -> text_heard l (push_candidates r cs)) /\
  rs_sctp_port (push_candidates r cs) = rs_sctp_port r /\ rs_max_message_size (push_candidates r cs) = rs_max_message_size r.
Proof.
  induction cs as [|[a port] cs IH]; intros r Hr Hn Hc Hz; [by rewrite app_nil_r|]. apply Forall_cons_iff in Hc as [((? & ? & Hl) & _) Hc]. apply Forall_cons_iff in Hz as [Hza Hz]. cbn [length] in Hn.
  change (push_candidates r ((a, port) :: cs)) with (push_candidates (push_candidate r a port) cs). cbn [fst] in Hza, Hl.
  destruct (IH (push_candidate r a port)) as (H1 & H2 & H3 & H4); [apply push_candidate_ok; [done | lia | done] | cbn; lia | done | done|].
  split; [rewrite H1, push_candidates_of by (done || lia); by rewrite <- app_assoc|]. split; [intros Ht; by apply H2, push_heard|]. by rewrite H3, H4.
Qed.
Lemma offered_nonzero l : Forall (fun c => Forall (fun x => x <> 0) (fst c)) (offered l).
Proof.
  assert (forall b p, Forall (fun c : list Z * Z => Forall (fun x => x <> 0) (fst c)) (match text_of b with [] => [] | a => [(a, p)] end)) as H.
  { intros b p. pose proof (text_of_nonzero b) as Hb. destruct (text_of b); [constructor | by apply Forall_singleton]. }
  assert (forall e, Forall (fun c : list Z * Z => Forall (fun x => x <> 0) (fst c)) (match se_has e, text_of (se_ip e) with true, (_ :: _) as a => [(a, se_port e)] | _, _ => [] end)) as He.
  { intros e. destruct (se_has e); [|constructor]. exact (H (se_ip e) (se_port e)). }
  unfold offered. apply Forall_app_2; [|apply Forall_app_2; apply He]. induction (take _ _) as [|c cs IH]; [constructor|]. cbn [map concat]. apply Forall_app_2; [apply H | exact IH].
Qed.

Definition is_media (e : sdp_entry) : Prop := en_type e <> SDP_MLINE_APPLICATION.
#[local] Instance is_media_dec e : Decision (is_media e).
Proof. unfold is_media. apply _. Defined.
(** The entries whose sections the parser can mirror: a data channel, audio, or
    video. *)
Definition entry_plain (mls : list nano_sdp_mline) (e : sdp_entry) : Prop :=
  en_type e = SDP_MLINE_APPLICATION \/
  exists ml, mls !! en_idx e = Some ml /\ is_u8 (ml_pt ml) /\ (en_type e = SDP_MLINE_AUDIO \/ en_type e = SDP_MLINE_VIDEO /\ video_sendable ml).
(** Whether a data channel is known, its MID, port and limit. *)
Definition dc_view (st : sdp_parser) : bool * Z * Z * Z :=
  let s := pr_sdp st in (ms_has_datachannel (sd_media s), ms_dc_mid (sd_media s), rs_sctp_port (sd_remote s), rs_max_message_size (sd_remote s)).
Definition dc_step (l : sdp_local) (v : bool * Z * Z * Z) (e : sdp_entry) : bool * Z * Z * Z :=
  if decide (is_media e) then v else (true, en_mid e, ls_sctp_port l, SDP_MAX_MESSAGE_SIZE).
Definition mlines_of (st : sdp_parser) : list nano_sdp_mline := take (ms_mline_count (sd_media (pr_sdp st))) (ms_mlines (sd_media (pr_sdp st))).
Definition heard_entry (mls : list nano_sdp_mline) (e : sdp_entry) (m : nano_sdp_mline) : Prop := exists ml, mls !! en_idx e = Some ml /\ heard ml (en_type e) (en_mid e) m.
(** From [st] over the sections of [es] to [st']. *)
Record mirrored (l : sdp_local) (mls : list nano_sdp_mline) (es : list sdp_entry) (cs : list (list Z * Z)) (st st' : sdp_parser) : Prop := {
  mi_remote : remote_ok (sd_remote (pr_sdp st'));
  mi_heard : es <> [] \/ text_heard l (sd_remote (pr_sdp st)) -> text_heard l (sd_remote (pr_sdp st'));
  mi_candidates : candidates_of (sd_remote (pr_sdp st')) = candidates_of (sd_remote (pr_sdp st)) ++ cs;
  mi_dc : dc_view st' = foldl (dc_step l) (dc_view st) es;
  mi_mlines : exists ms, mlines_of st' = mlines_of st ++ ms /\ Forall2 (heard_entry mls) (filter is_media es) ms;
  mi_length : length (ms_mlines (sd_media (pr_sdp st'))) = NANORTC_MAX_MEDIA_TRACKS;
  mi_count : ms_mline_count (sd_media (pr_sdp st')) = (ms_mline_count (sd_media (pr_sdp st)) + length (filter is_media es))%nat;
  mi_mids : ms_mid_count (sd_media (pr_sdp st')) = ms_mid_count (sd_media (pr_sdp st)) + Z.of_nat (length es);
  mi_local : sd_local (pr_sdp st') = sd_local (pr_sdp st);
  mi_reject : pr_reject st' = pr_reject st
}.
Lemma transport_keeps l r : candidates_of (transport_remote l r) = candidates_of r /\ rs_sctp_port (transport_remote l r) = rs_sctp_port r /\ rs_max_message_size (transport_remote l r) = rs_max_message_size r.
Proof. unfold transport_remote. by destruct (text_of (ls_fingerprint l)). Qed.
Lemma mirrored_app l mls e es cs1 cs2 st st1 st2 : mirrored l mls [e] cs1 st st1 -> mirrored l mls es cs2 st1 st2 -> mirrored l mls (e :: es) (cs1 ++ cs2) st st2.
Proof.
  intros [A1 A2 A3 A4 (ms1 & A5 & A5') A6 A7 A8 A9 A10] [B1 B2 B3 B4 (ms2 & B5 & B5') B6 B7 B8 B9 B10]. constructor.
  - done.
  - intros _. apply B2. right. apply A2. by left.
  - by rewrite B3, A3, app_assoc.
  - rewrite B4, A4. done.
  - exists (ms1 ++ ms2). split; [by rewrite B5, A5, app_assoc|]. change (e :: es) with ([e] ++ es). rewrite list.filter_app. by apply Forall2_app.
  - done.
  - rewrite B7, A7. change (e :: es) with ([e] ++ es). rewrite list.filter_app, length_app. lia.
  - rewrite B8, A8. cbn [length]. lia.
  - congruence.
  - congruence.
Qed.
Lemma opened_mlines st m r : room st -> mlines_of (with_remote_parser (opened st m) r) = mlines_of st ++ [m].
Proof. intros [Hl Hc]. unfold mlines_of. cbn -[take]. rewrite (take_S_r _ _ m) by (apply list_lookup_insert_eq; lia). by rewrite take_insert_ge by lia. Qed.
Lemma mirrored_media l mls e ml m st : room st -> is_media e -> mls !! en_idx e = Some ml -> en_mid e = ms_mid_count (sd_media (pr_sdp st)) -> 0 <= en_mid e < 255 ->
  transport_ok l -> remote_ok (sd_remote (pr_sdp st)) -> heard ml (en_type e) (ms_mid_count (sd_media (pr_sdp st))) m ->
  mirrored l mls [e] [] st (with_remote_parser (opened st m) (transport_remote l (sd_remote (pr_sdp st)))).
Proof.
  intros Hroom Hm Hlk Hmid Hb Ht Hr Hh. destruct (transport_keeps l (sd_remote (pr_sdp st))) as (K1 & K2 & K3).
  assert (filter is_media [e] = [e]) as Hf by (rewrite filter_cons_True by done; done). constructor.
  - by apply transport_remote_ok.
  - intros _. apply transport_heard.
  - rewrite app_nil_r. exact K1.
  - cbn [foldl]. unfold dc_step. destruct (decide (is_media e)); [|done]. unfold dc_view. cbn -[transport_remote]. by rewrite K2, K3.
  - exists [m]. split; [by apply opened_mlines|]. rewrite Hf. constructor; [|constructor]. exists ml. split; [done|]. by rewrite Hmid.
  - cbn. rewrite length_insert. apply Hroom.
  - rewrite Hf. cbn. lia.
  - cbn. rewrite u8_id by (unfold is_u8; lia). lia.
  - done.
  - done.
Qed.
Lemma mirrored_dc l mls e st : en_type e = SDP_MLINE_APPLICATION -> length (ms_mlines (sd_media (pr_sdp st))) = NANORTC_MAX_MEDIA_TRACKS -> en_mid e = ms_mid_count (sd_media (pr_sdp st)) -> 0 <= en_mid e < 255 ->
  transport_ok l -> remote_ok (sd_remote (pr_sdp st)) -> mirrored l mls [e] [] st (dc_section l st).
Proof.
  intros Ha Hl Hmid Hb Ht Hr. destruct (transport_keeps l (sd_remote (pr_sdp st))) as (K1 & K2 & K3). assert (~ is_media e) as Hm by (unfold is_media; by intros []).
  assert (filter is_media [e] = []) as Hf by (rewrite filter_cons_False by done; done). pose proof (transport_remote_ok l _ Ht Hr) as [T1 T2 T3 T4 T5 T6]. constructor.
  - by constructor.
  - intros _. destruct (transport_heard l (sd_remote (pr_sdp st))). by constructor.
  - rewrite app_nil_r. exact K1.
  - cbn [foldl]. unfold dc_step. destruct (decide (is_media e)); [done|]. unfold dc_view. cbn. by rewrite Hmid.
  - exists []. split; [by rewrite app_nil_r|]. by rewrite Hf.
  - exact Hl.
  - rewrite Hf. cbn. lia.
  - cbn. rewrite u8_id by (unfold is_u8; lia). lia.
  - done.
  - done.
Qed.
Lemma mirrored_candidates l mls e st st' : remote_ok (sd_remote (pr_sdp st')) -> Forall candidate_ok (offered l) -> (rs_candidate_count (sd_remote (pr_sdp st')) + length (offered l) <= NANORTC_SDP_MAX_CANDIDATES)%nat ->
  mirrored l mls [e] [] st st' -> mirrored l mls [e] (offered l) st (with_remote_parser st' (push_candidates (sd_remote (pr_sdp st')) (offered l))).
Proof.
  intros Hr Hc Hn [A1 A2 A3 A4 A5 A6 A7 A8 A9 A10]. destruct (push_candidates_spec l _ _ Hr Hn Hc (offered_nonzero l)) as (P1 & P2 & P3 & P4). constructor; try done.
  - by apply push_candidates_ok.
  - intros H. by apply P2, A2.
  - cbn [pr_sdp with_remote_parser with_remote_sdp sd_remote]. rewrite P1, A3. by rewrite app_nil_r.
  - rewrite <- A4. unfold dc_view. cbn -[push_candidates]. by rewrite P3, P4.
Qed.
Lemma with_remote_current st r : sd_remote (pr_sdp (with_remote_parser st r)) = r.
Proof. done. Qed.
(** One section: the state it leaves, and the candidates it does not touch. *)
Lemma steps_section saved l mls e st : Forall saved_ok saved -> transport_ok l -> is_u16 (ls_sctp_port l) -> remote_ok (sd_remote (pr_sdp st)) ->
  entry_plain mls e -> length (ms_mlines (sd_media (pr_sdp st))) = NANORTC_MAX_MEDIA_TRACKS -> (is_media e -> (ms_mline_count (sd_media (pr_sdp st)) < NANORTC_MAX_MEDIA_TRACKS)%nat) ->
  en_mid e = ms_mid_count (sd_media (pr_sdp st)) -> 0 <= en_mid e < 255 ->
  exists st', steps saved st (entry_lines l mls e) st' /\ mirrored l mls [e] [] st st' /\ rs_candidate_count (sd_remote (pr_sdp st')) = rs_candidate_count (sd_remote (pr_sdp st)).
Proof.
  intros Hs Ht Hport Hr He Hlen Hcount Hmid Hb. unfold entry_lines.
  assert (forall r, rs_candidate_count (transport_remote l r) = rs_candidate_count r) as Hkeep by (intros r; unfold transport_remote; by destruct (text_of (ls_fingerprint l))).
  destruct (Z.eqb_spec (en_type e) SDP_MLINE_APPLICATION) as [Ha|Hm].
  - exists (dc_section l st). split; [by apply steps_datachannel|]. split; [by apply mirrored_dc|]. apply Hkeep.
  - destruct He as [|(ml & Hlk & Hpt & Hk)]; [done|]. assert (room st) as Hroom by (split; [done | by apply Hcount]). rewrite Hlk.
    assert (exists m, steps saved st (if en_type e =? SDP_MLINE_AUDIO then audio_lines l ml (en_mid e) else if en_type e =? SDP_MLINE_VIDEO then video_lines l ml (en_mid e) else [])
      (with_remote_parser (opened st m) (transport_remote l (sd_remote (pr_sdp st)))) /\ heard ml (en_type e) (ms_mid_count (sd_media (pr_sdp st))) m) as (m & Hst & Hh).
    { destruct Hk as [->|[-> Hvs]]; [apply (steps_audio saved st l ml (en_mid e)); done | apply (steps_video saved st l ml (en_mid e)); done]. }
    eexists. split; [exact Hst|]. split; [by apply (mirrored_media l mls e ml m)|]. apply Hkeep.
Qed.
Lemma mirrored_nil l mls st : remote_ok (sd_remote (pr_sdp st)) -> length (ms_mlines (sd_media (pr_sdp st))) = NANORTC_MAX_MEDIA_TRACKS -> mirrored l mls [] [] st st.
Proof.
  intros Hr Hl. constructor; [done | by intros [|] | by rewrite app_nil_r | done | | done | | | done | done].
  - exists []. by rewrite app_nil_r.
  - cbn. lia.
  - cbn. lia.
Qed.
Lemma steps_sections saved l mls es : forall first st, Forall saved_ok saved -> transport_ok l -> is_u16 (ls_sctp_port l) -> Forall candidate_ok (offered l) ->
  remote_ok (sd_remote (pr_sdp st)) -> length (ms_mlines (sd_media (pr_sdp st))) = NANORTC_MAX_MEDIA_TRACKS ->
  Forall (entry_plain mls) es -> map en_mid es = seqZ (ms_mid_count (sd_media (pr_sdp st))) (Z.of_nat (length es)) ->
  0 <= ms_mid_count (sd_media (pr_sdp st)) -> ms_mid_count (sd_media (pr_sdp st)) + Z.of_nat (length es) <= 255 ->
  (ms_mline_count (sd_media (pr_sdp st)) + length (filter is_media es) <= NANORTC_MAX_MEDIA_TRACKS)%nat ->
  (first = true -> (rs_candidate_count (sd_remote (pr_sdp st)) + length (offered l) <= NANORTC_SDP_MAX_CANDIDATES)%nat) ->
  exists st', steps saved st (all_lines l mls first es) st' /\ mirrored l mls es (match es with _ :: _ => if first then offered l else [] | [] => [] end) st st'.
Proof.
  induction es as [|e es IH]; intros first st Hs Ht Hport Hc Hr Hlen He Hmids Hm0 Hm Hcount Hcand; cbn [all_lines].
  { exists st. split; [apply steps_nil | by apply mirrored_nil]. }
  apply Forall_cons_iff in He as [He Hes]. cbn [map length] in *. rewrite seqZ_cons in Hmids by lia. injection Hmids as Hmid Hmids.
  assert (length (filter is_media (e :: es)) = length (filter is_media [e]) + length (filter is_media es))%nat as Hfl by (change (e :: es) with ([e] ++ es); by rewrite list.filter_app, length_app).
  destruct (steps_section saved l mls e st Hs Ht Hport Hr He Hlen) as (st1 & Hst1 & Hmi1 & Hcc1); [intros Hmed; rewrite Hfl, (filter_cons_True is_media e []) in Hcount by done; cbn [length] in Hcount; lia | done | lia|].
  set (cs := if first then offered l else []).
  assert (exists st2, steps saved st1 (if first then candidate_lines l else []) st2 /\ mirrored l mls [e] cs st st2) as (st2 & Hst2 & Hmi2).
  { pose proof (mi_remote _ _ _ _ _ _ Hmi1) as R1. unfold cs. destruct first; [|by exists st1]. specialize (Hcand eq_refl). eexists. split.
    - apply (steps_candidates saved _ _ (offers_all l)); [done | done | lia].
    - by apply mirrored_candidates; first [done | lia]. }
  pose proof Hmi2 as [B1 _ _ _ _ B6 B7 B8 _ _]. cbn [length] in B8.
  destruct (IH false st2) as (st3 & Hst3 & Hmi3); try done; [rewrite Hmids, B8; f_equal; lia | lia | lia | rewrite B7; lia|].
  exists st3. split; [by eapply steps_app; [exact Hst1 | eapply steps_app; [exact Hst2 | exact Hst3]]|].
  pose proof (mirrored_app l mls e es cs _ st st2 st3 Hmi2 Hmi3) as H. destruct es; by rewrite app_nil_r in H.
Qed.

(** * Round trip *)

Definition plainb (l : list Z) : bool := forallb (fun c => negb (c =? 10) && negb (c =? 13)) l.
Lemma plainb_plain l : plainb l = true -> plain l.
Proof.
  intros H. apply List.Forall_forall. intros c Hc. pose proof (proj1 (forallb_forall _ _) H c Hc) as E. cbv beta in E. apply andb_true_iff in E as [E1%negb_true_iff E2%negb_true_iff].
  split; [by apply Z.eqb_neq | by apply Z.eqb_neq].
Qed.
Lemma plain_app a b : plain a -> plain b -> plain (a ++ b).
Proof. apply Forall_app_2. Qed.
Lemma plain_dec v : 0 <= v -> plain (dec v).
Proof. intros Hv. eapply List.Forall_impl; [|by apply dec_digits]. intros c Hc. unfold is_digit in Hc. apply andb_true_iff in Hc as [?%Z.leb_le ?%Z.leb_le]. lia. Qed.
Lemma u8_nonneg v : is_u8 v -> 0 <= v. Proof. unfold is_u8. lia. Qed.
Lemma u16_is_nonneg v : is_u16 v -> 0 <= v. Proof. unfold is_u16. lia. Qed.
Create HintDb plain.
#[local] Hint Resolve plain_dec u8_nonneg u16_is_nonneg type_priority_nonneg u16_nonneg : plain.
(** Splits a text into literals, numerals and what the context knows plain. *)
Ltac plain := repeat apply plain_app; first [assumption | solve [eauto with plain] | apply plainb_plain; vm_compute; reflexivity].
Ltac plains := repeat (apply List.Forall_nil || (apply List.Forall_cons; [plain|])).
Lemma plain_transport l : transport_ok l -> Forall plain (transport_lines l).
Proof.
  intros [[[U _] _] [[P _] _] [[F _] _]]. unfold transport_lines. cbn [app]. destruct (text_of (ls_fingerprint l)); destruct (ls_setup l); cbn [app setup_text]; plains.
Qed.
Lemma plain_connection l : plain (connection_text l).
Proof. unfold connection_text. destruct (local_v6 l); plain. Qed.
Lemma plain_datachannel l mid : transport_ok l -> is_u16 (ls_sctp_port l) -> 0 <= mid -> Forall plain (datachannel_lines l mid).
Proof.
  intros Ht Hp Hm. unfold datachannel_lines, mid_lines. pose proof (plain_connection l). pose proof (plain_transport l Ht). pose proof (u16_nonneg SDP_MAX_MESSAGE_SIZE).
  cbn [app]. repeat (apply List.Forall_cons; [plain|]). apply Forall_app_2; [done|]. plains.
Qed.
Lemma plain_media l ml head codec mid : transport_ok l -> is_u8 (ml_pt ml) -> 0 <= mid -> plain head -> plain codec -> Forall plain (media_lines l ml head codec mid).
Proof.
  intros Ht Hp Hm Hh Hc. unfold media_lines, media_head_lines, mid_lines, rtpmap_line. pose proof (plain_connection l). pose proof (plain_transport l Ht).
  assert (plain (direction_text (ml_direction ml))) by (unfold direction_text; repeat (destruct (_ =? _); [plain|]); plain).
  cbn [app]. repeat (apply List.Forall_cons; [plain|]). rewrite <- !app_assoc. cbn [app]. repeat (apply List.Forall_cons; [plain|]). apply Forall_app_2; [done|]. plains.
Qed.
Lemma plain_entry l mls e : transport_ok l -> is_u16 (ls_sctp_port l) -> entry_plain mls e -> 0 <= en_mid e -> Forall plain (entry_lines l mls e).
Proof.
  intros Ht Hp He Hm. unfold entry_lines. destruct (Z.eqb_spec (en_type e) SDP_MLINE_APPLICATION); [by apply plain_datachannel|]. destruct He as [|(ml & -> & Hpt & Hk)]; [done|].
  destruct Hk as [->|[-> Hvs]].
  - change (SDP_MLINE_AUDIO =? SDP_MLINE_AUDIO) with true. cbv iota. unfold audio_lines. apply Forall_app_2.
    + apply plain_media; [done.. | plain |]. unfold audio_codec. repeat (destruct (_ =? _)); plain.
    + destruct (_ =? _); [|constructor]. destruct (2 <=? _); plains.
  - change (SDP_MLINE_VIDEO =? SDP_MLINE_AUDIO) with false. change (SDP_MLINE_VIDEO =? SDP_MLINE_VIDEO) with true. cbv iota. unfold video_lines.
    assert (plain (video_codec ml)) by (unfold video_codec; destruct (is_h265 ml); plain).
    assert (plain (video_fmtp ml)) by (unfold video_fmtp; destruct (is_h265 ml) eqn:E; [apply (Hvs E) | plain]).
    apply Forall_app_2; [apply plain_media; done || plain|]. cbn [app]. repeat (apply List.Forall_cons; [plain|]). destruct (twcc_valid ml) eqn:Htw; [|constructor].
    unfold twcc_valid in Htw. apply andb_true_iff in Htw as [Hlo%Z.leb_le _]. assert (0 <= twcc_of ml) by lia. plains.
Qed.
Lemma plain_host cs : forall i, Forall (fun c => is_u16 (sc_port c) /\ plain (text_of (sc_addr c))) cs -> Forall plain (host_lines cs i).
Proof.
  induction cs as [|c cs IH]; intros i Hc; [constructor|]. apply Forall_cons_iff in Hc as [[Hp Ha] Hc]. unfold host_lines. cbn [imap concat]. apply Forall_app_2.
  - destruct (text_of (sc_addr c)) as [|x a] eqn:E; [constructor|]. apply Forall_singleton. unfold host_line, ICE_HOST_PRIORITY. rewrite E. plain.
  - refine (eq_rect _ (fun x => Forall plain x) (IH (S i) Hc) _ _). unfold host_lines. f_equal. apply imap_ext. intros j x _. cbn. by rewrite Nat.add_succ_r.
Qed.
Lemma plain_extra e head typ prio : is_u16 (se_port e) -> plain (text_of (se_ip e)) -> 0 <= prio -> plain head -> plain typ -> Forall plain (extra_lines e head typ prio).
Proof.
  intros Hp Ha Hprio Hh Ht. unfold extra_lines. destruct (se_has e); [|constructor]. destruct (text_of (se_ip e)) as [|x a]; [constructor|]. apply Forall_singleton.
  assert (plain (related (x :: a))) by (unfold related; destruct (has_colon _); plain). plain.
Qed.
(** A session whose text a peer's parser can mirror: credentials and addresses
    that stand in a line, and at least one section, the MIDs numbered from 0.  Only
    the m-lines in use count, whatever the other slots of the array hold. *)
Record sendable (s : nano_sdp) : Prop := {
  sn_transport : transport_ok (sd_local s);
  sn_ufrag : text_of (ls_ufrag (sd_local s)) <> [];
  sn_pwd : text_of (ls_pwd (sd_local s)) <> [];
  sn_addresses : Forall (fun c => plain (text_of (sc_addr c))) (ls_candidates (sd_local s)) /\ plain (text_of (se_ip (ls_srflx (sd_local s)))) /\ plain (text_of (se_ip (ls_relay (sd_local s))));
  sn_candidates : Forall candidate_ok (offered (sd_local s));
  sn_kinds : Forall (fun m => ml_active m = true -> ml_kind m = SDP_MLINE_AUDIO \/ ml_kind m = SDP_MLINE_VIDEO /\ video_sendable m) (take (ms_mline_count (sd_media s)) (ms_mlines (sd_media s)));
  sn_mids : Permutation (map en_mid (declared (sd_media s))) (seqZ 0 (Z.of_nat (length (declared (sd_media s)))));
  sn_some : declared (sd_media s) <> []
}.
Lemma seqZ_sorted n : forall m, StronglySorted Z.le (seqZ m (Z.of_nat n)).
Proof.
  induction n as [|n IH]; intros m; [constructor|]. rewrite seqZ_cons by lia. replace (Z.pred (Z.of_nat (S n))) with (Z.of_nat n) by lia.
  constructor; [apply IH|]. apply List.Forall_forall. intros x Hx%list_elem_of_In%elem_of_seqZ. lia.
Qed.
Lemma sendable_mids s : sendable s -> map en_mid (entries_of (sd_media s)) = seqZ 0 (Z.of_nat (length (entries_of (sd_media s)))) /\ entries_of (sd_media s) <> [].
Proof.
  intros H. destruct (entries_by_mid (sd_media s)) as [Hp Hs]. pose proof (Permutation_length Hp) as Hl. rewrite Hl. split.
  - apply sorted_le_unique; [done | apply seqZ_sorted|]. rewrite <- (sn_mids s H). by apply Permutation_map.
  - intros E. rewrite E in Hp. by apply (sn_some s H), Permutation_nil.
Qed.
Lemma plain_candidates s : local_ok (sd_local s) -> sendable s -> Forall plain (candidate_lines (sd_local s)).
Proof.
  intros Hl Hs. destruct (sn_addresses s Hs) as (H1 & H2 & H3). unfold candidate_lines. apply Forall_app_2.
  - apply plain_host, Forall_take. apply List.Forall_forall. intros c Hc. split; [apply (proj1 (List.Forall_forall _ _) (lo_candidates _ Hl) c Hc) | exact (proj1 (List.Forall_forall _ _) H1 c Hc)].
  - apply Forall_app_2; apply plain_extra; first [apply (lo_srflx _ Hl) | apply (lo_relay _ Hl) | done | apply type_priority_nonneg | plain].
Qed.
Lemma entries_plain s : media_ok (sd_media s) -> sendable s -> Forall (entry_plain (ms_mlines (sd_media s))) (entries_of (sd_media s)) /\ (length (filter is_media (entries_of (sd_media s))) <= NANORTC_MAX_MEDIA_TRACKS)%nat /\ (length (entries_of (sd_media s)) <= NANORTC_MAX_MEDIA_TRACKS + 1)%nat /\ Forall (fun e => ~ is_media e -> en_mid e = ms_dc_mid (sd_media s)) (entries_of (sd_media s)) /\ (ms_has_datachannel (sd_media s) = true <-> Exists (fun e => ~ is_media e) (entries_of (sd_media s))).
Proof.
  intros [H1 H2 H3 H4] Hs. unfold entries_of, declared. set (md := sd_media s) in *. set (act := active_entries _ _). set (dcs := if ms_has_datachannel md then _ else _).
  assert (Forall (fun e => entry_plain (ms_mlines md) e /\ is_media e) act) as Ha.
  { apply List.Forall_forall. intros e He%list_elem_of_In. destruct (active_entries_in _ _ _ He) as (j & m & Hj0 & Hact & ->). pose proof Hj0 as [Hj _]%lookup_take_Some. cbn [Nat.add].
    pose proof (proj1 (Forall_lookup _ _) H3 j m Hj) as (_ & Hp & _). pose proof (proj1 (Forall_lookup _ _) (sn_kinds s Hs) j m Hj0 Hact) as Hk. split.
    - right. exists m. done.
    - unfold is_media. cbn [en_type]. destruct Hk as [->|[-> _]]; done. }
  pose proof (sort_perm (length (act ++ dcs)) (act ++ dcs)) as Hperm. cbv zeta.
  set (es := sort_entries _ _) in *. set (all := act ++ dcs) in *.
  assert (forall P, Forall P all -> Forall P es) as Hall by (intros P H; eapply Permutation_Forall; [symmetry; exact Hperm | exact H]).
  assert (length (filter is_media es) = length (filter is_media all)) as Hfil by (apply Permutation_length; by rewrite Hperm).
  assert (length es = length all) as Hels by (by apply Permutation_length). rewrite Hfil, Hels. unfold all.
  assert (length act <= NANORTC_MAX_MEDIA_TRACKS)%nat as Hlen.
  { unfold act. pose proof (active_entries_length (take (ms_mline_count md) (ms_mlines md)) 0) as H. rewrite length_take in H. lia. }
  assert (filter is_media dcs = []) as Hd by (unfold dcs; destruct (ms_has_datachannel md); done).
  split_and!.
  - apply Hall, Forall_app_2; [eapply List.Forall_impl; [|exact Ha]; by intros e [] |]. unfold dcs. destruct (ms_has_datachannel md); [apply Forall_singleton; by left | constructor].
  - rewrite list.filter_app, Hd, app_nil_r. etrans; [apply length_filter | done].
  - rewrite length_app. unfold dcs. destruct (ms_has_datachannel md); cbn [length]; lia.
  - apply Hall, Forall_app_2; [eapply List.Forall_impl; [|exact Ha]; by intros e [] |]. unfold dcs. destruct (ms_has_datachannel md); [by apply Forall_singleton | constructor].
  - assert (Exists (fun e => ~ is_media e) es <-> Exists (fun e => ~ is_media e) all) as -> by (rewrite !Exists_exists; split; intros (e & He & Hn); exists e; (split; [|done]); by rewrite Hperm in * || rewrite <- Hperm).
    unfold all. rewrite Exists_app. split.
    + intros E. right. unfold dcs. rewrite E. constructor. unfold is_media. cbn. by intros H.
    + intros [H|H]; [|unfold dcs in H; destruct (ms_has_datachannel md); [done | by inversion H]]. exfalso.
      apply Exists_exists in H as (e & He & Hn). apply Hn, (proj1 (List.Forall_forall _ _) Ha e He).
Qed.

Lemma dc_fold l d es : forall v, Forall (fun e => ~ is_media e -> en_mid e = d) es ->
  foldl (dc_step l) v es = (if decide (Exists (fun e => ~ is_media e) es) then (true, d, ls_sctp_port l, SDP_MAX_MESSAGE_SIZE) else v).
Proof.
  induction es as [|e es IH]; intros v Hes; cbn [foldl].
  - destruct (decide _) as [H|]; [by inversion H | done].
  - apply Forall_cons_iff in Hes as [He Hes]. rewrite (IH _ Hes). unfold dc_step. destruct (decide (Exists _ es)) as [Hx|Hx].
    + destruct (decide (Exists _ (e :: es))) as [|Hn]; [done|]. destruct Hn. by right.
    + destruct (decide (is_media e)) as [Hm|Hm].
      * destruct (decide (Exists _ (e :: es))) as [Hy|]; [|done]. inversion Hy; subst; done.
      * rewrite (He Hm). destruct (decide (Exists _ (e :: es))) as [|Hn]; [done|]. destruct Hn. by left.
Qed.
Lemma length_render ls : (length ls <= length (render ls))%nat.
Proof. induction ls as [|l ls IH]; [done|]. rewrite render_cons, !length_app. change (length crlf) with 2%nat. cbn [length]. lia. Qed.
Lemma plain_lines s : local_ok (sd_local s) -> media_ok (sd_media s) -> sendable s -> Forall plain (sdp_lines s).
Proof.
  intros Hl Hm Hs. destruct (entries_plain s Hm Hs) as (He & _). destruct (sdp_entries_Ok s Hm) as [_ Hes].
  assert (Forall (fun e => 0 <= en_mid e) (entries_of (sd_media s))) as Hmids by (eapply List.Forall_impl; [|exact Hes]; intros e [H _]; by apply u8_nonneg).
  unfold sdp_lines, lines_with. set (es := entries_of (sd_media s)) in *. clearbody es. apply Forall_app_2.
  - assert (plain (origin_text (sd_local s))) by (unfold origin_text; destruct (local_v6 _); plain).
    assert (plain (bundle_text es)) by (unfold bundle_text; clear He Hes; induction Hmids as [|e es He _ IH]; [by constructor|]; cbn [map concat]; plain). plains.
  - generalize true. clear Hes. induction es as [|e es IH]; intros first; cbn [all_lines]; [constructor|]. apply Forall_cons_iff in He as [He1 He], Hmids as [Hm1 Hmids].
    apply Forall_app_2; [apply plain_entry; [apply (sn_transport s Hs) | apply (lo_sctp_port _ Hl) | done..]|]. apply Forall_app_2; [|by apply IH].
    destruct first; [by apply plain_candidates | constructor].
Qed.
Lemma saved_all md : media_ok md -> Forall saved_ok (map save_mline (take (Nat.min (ms_mline_count md) NANORTC_MAX_MEDIA_TRACKS) (ms_mlines md))).
Proof.
  intros [_ _ H3 _]. apply Forall_map, Forall_take. eapply List.Forall_impl; [|exact H3]. intros m (_ & _ & _ & (Hl & Hn & _)). unfold saved_ok, save_mline. cbv zeta. cbn [sv_h265 hl_sprop hl_sprop_len]. split; [|done].
  destruct (_ && _); [|apply length_replicate]. rewrite length_app, length_replicate, length_take_le by lia. lia.
Qed.
(** A session that can receive an SDP. *)
Definition receiver_ok (r : nano_sdp) : Prop := remote_ok (sd_remote r) /\ media_ok (sd_media r).
(** What the receiver has of the sender. *)
Record session_heard (s r r' : nano_sdp) : Prop := {
  sh_transport : text_heard (sd_local s) (sd_remote r');
  sh_candidates : candidates_of (sd_remote r') = candidates_of (sd_remote r) ++ offered (sd_local s);
  sh_channel : (ms_has_datachannel (sd_media r'), ms_dc_mid (sd_media r'), rs_sctp_port (sd_remote r'), rs_max_message_size (sd_remote r')) =
    if ms_has_datachannel (sd_media s) then (true, ms_dc_mid (sd_media s), ls_sctp_port (sd_local s), SDP_MAX_MESSAGE_SIZE)
    else (false, ms_dc_mid (sd_media r), rs_sctp_port (sd_remote r), 65536);
  sh_media : exists es, by_mid (sd_media s) es /\ Forall2 (heard_entry (ms_mlines (sd_media s))) (filter is_media es) (take (ms_mline_count (sd_media r')) (ms_mlines (sd_media r')));
  sh_local : sd_local r' = sd_local r;
  sh_parsed : sd_parsed r' = true
}.
Lemma parse_mirrors s r : local_ok (sd_local s) -> media_ok (sd_media s) -> sendable s -> receiver_ok r ->
  (rs_candidate_count (sd_remote r) + length (offered (sd_local s)) <= NANORTC_SDP_MAX_CANDIDATES)%nat ->
  exists r', sdp_parse r (render (sdp_lines s)) = Ok (r', NANORTC_OK) /\ session_heard s r r'.
Proof.
  intros Hl Hm Hs [Hr Hrm] Hroom. unfold sdp_parse. pose proof (length_render (sdp_lines s)) as Hlen. assert (5 <= length (sdp_lines s))%nat as H5 by (unfold sdp_lines, lines_with; rewrite length_app; cbn [length]; lia).
  rewrite (proj2 (Nat.eqb_neq _ _)) by lia. cbv zeta. set (saved := map save_mline _). pose proof (saved_all _ Hrm) as Hsaved. fold saved in Hsaved.
  set (r0 := Remote _ _ _ _ _ _ _ _ _). set (st0 := Parser _ None false). assert (remote_ok (sd_remote (pr_sdp st0))) as Hr0 by (by destruct Hr).
  destruct (entries_plain s Hm Hs) as (Hep & Hcnt & Hcnt2 & Hdc & Hhas). destruct (sendable_mids s Hs) as [Hmids Hsome].
  destruct (steps_sections saved (sd_local s) (ms_mlines (sd_media s)) (entries_of (sd_media s)) true st0) as (st & Hst & Hmir);
    [done | apply (sn_transport s Hs) | apply (lo_sctp_port _ Hl) | apply (sn_candidates s Hs) | done | apply (mo_length _ Hrm) | done | exact Hmids | done | cbn; unfold NANORTC_MAX_MEDIA_TRACKS in *; lia | exact Hcnt | intros _; exact Hroom|].
  assert (steps saved st0 (sdp_lines s) st) as Hall.
  { unfold sdp_lines, lines_with. cbn [app]. eapply steps_ignored; [apply ignored_version|]. eapply steps_ignored; [apply ignored_origin|]. eapply steps_ignored; [apply ignored_name|].
    eapply steps_ignored; [apply ignored_time|]. eapply steps_ignored; [apply ignored_bundle|]. exact Hst. }
  rewrite (parse_lines_render saved (sdp_lines s)) by (done || by apply plain_lines). rewrite Hall, bind_Ok. cbv beta iota. change (negb (NANORTC_OK =? NANORTC_OK)) with false. cbv iota.
  destruct Hmir as [M1 M2 M3 M4 (ms & M5 & M5') M6 M7 M8 M9 M10]. pose proof (M2 (or_introl Hsome)) as Hheard. pose proof Hheard as [T1 T2 T3 T4].
  assert (forall b t, c_string b = Ok t -> t <> [] -> exists c, rd8 b 0 = Ok c /\ c <> 0) as Hfirst.
  { intros b t Hb Ht. destruct (c_string_split _ _ Hb) as (x & -> & Hn). destruct t as [|c t]; [done|]. apply Forall_cons_iff in Hn as [Hc _]. by exists c. }
  destruct (Hfirst _ _ T1 (sn_ufrag s Hs)) as (c1 & -> & Hc1). destruct (Hfirst _ _ T2 (sn_pwd s Hs)) as (c2 & -> & Hc2). rewrite !bind_Ok.
  rewrite (proj2 (Z.eqb_neq _ _) Hc1), (proj2 (Z.eqb_neq _ _) Hc2), M10. cbn [orb pr_reject st0]. cbv iota. eexists. split; [reflexivity|].
  constructor; cbn [sd_remote sd_media sd_local sd_parsed]; [done | | | | by rewrite M9 | done].
  - rewrite M3. destruct (entries_of (sd_media s)) eqn:E; [by destruct Hsome|]. done.
  - unfold dc_view in M4. rewrite M4, (dc_fold _ (ms_dc_mid (sd_media s))) by done. destruct (decide _) as [Hx|Hx].
    + by rewrite (proj2 Hhas Hx).
    + destruct (ms_has_datachannel (sd_media s)); [by destruct (Hx (proj1 Hhas eq_refl)) | done].
  - exists (entries_of (sd_media s)). split; [apply entries_by_mid|]. unfold mlines_of in M5. rewrite M5. exact M5'.
Qed.
(** C17: A session's generated SDP, parsed by a peer, tells it the session: user
    fragment, password, fingerprint and role, every candidate offered with its
    port, the data channel with its MID, port and message limit, and each audio
    and video m-line in use, in MID order, with its MID, payload type, direction
    and transport-wide extension; the peer's own description is untouched.  The
    session has at least one section and MIDs numbered from 0, its texts are not
    empty, stand in a line and fit the peer's arrays, and the peer's table has
    room for the candidates. *)
Theorem sdp_roundtrip s r buf
  (Hlocal : local_ok (sd_local s)) (Hmedia : media_ok (sd_media s)) (Hsend : sendable s) (Hreceive : receiver_ok r)
  (Hroom : (rs_candidate_count (sd_remote r) + length (offered (sd_local s)) <= NANORTC_SDP_MAX_CANDIDATES)%nat)
  (Hmin : (NANORTC_SDP_MIN_BUF_SIZE <= length buf)%nat) (Hfit : (length (render (sdp_lines s)) < length buf)%nat) :
  exists s' buf' n r', sdp_generate_answer s buf = (s', Ok (buf', n)) /\
    sdp_parse r (take n buf') = Ok (r', NANORTC_OK) /\ session_heard s r r'.
Proof.
  pose proof (generate_answer_spec s buf Hlocal Hmedia Hmin) as H. cbv zeta in H. rewrite (proj2 (Nat.leb_gt _ _) Hfit) in H. destruct H as (buf' & -> & _ & Htext).
  destruct (parse_mirrors s r Hlocal Hmedia Hsend Hreceive Hroom) as (r' & Hparse & Hh). exists (with_media s (set_mlines (sd_media s) (foldl advertise (ms_mlines (sd_media s)) (entries_of (sd_media s))))), buf', (length (render (sdp_lines s))), r'.
  split; [done|]. by rewrite Htext.
Qed.

Lemma init_receiver_ok : receiver_ok sdp_init.
Proof.
  split.
  - constructor; try (vm_compute; reflexivity); [cbn; lia|]. by repeat (apply List.Forall_cons; [reflexivity|]).
  - constructor; [reflexivity | cbn; lia | | unfold is_u8; cbn; lia]. repeat (apply List.Forall_cons; [split_and!; try (unfold is_u8; cbn; lia); exact h265_zero_ok|]). constructor.
Qed.
Lemma carried_check n v : plainb v = true -> (match rev v with c :: _ => negb (is_blank c) | [] => true end) = true -> (length v <? n)%nat = true -> carried n v.
Proof. intros H1 H2 H3. split; [split; [by apply plainb_plain|]; by destruct (rev v); [|apply negb_true_iff] | by apply Nat.ltb_lt]. Qed.
Lemma demo_text_sendable md : let s := Sdp (sd_remote sdp_init) demo_local md false in
  Forall (fun m => ml_active m = true -> ml_kind m = SDP_MLINE_AUDIO \/ ml_kind m = SDP_MLINE_VIDEO /\ video_sendable m) (take (ms_mline_count md) (ms_mlines md)) ->
  Permutation (map en_mid (declared md)) (seqZ 0 (Z.of_nat (length (declared md)))) -> declared md <> [] -> sendable s.
Proof.
  intros s Hk Hm Hs. constructor; cbn [s sd_local sd_media]; [.. | exact Hk | exact Hm | exact Hs].
  - constructor; apply carried_check; vm_compute; reflexivity.
  - vm_compute. congruence.
  - vm_compute. congruence.
  - split; [repeat (apply List.Forall_cons; [apply plainb_plain; vm_compute; reflexivity|]); constructor | split; apply plainb_plain; vm_compute; reflexivity].
  - assert (offered demo_local = [(lit "192.168.1.2", 9999); (lit "203.0.113.7", 40000)]) as -> by (vm_compute; reflexivity).
    repeat (apply List.Forall_cons; [split; [split; [by repeat (apply List.Forall_cons; [done|]) | split; [done | apply Nat.ltb_lt; vm_compute; reflexivity]] | cbn; unfold is_u16; lia]|]). constructor.
Qed.
Lemma demo_sendable : sendable demo_session.
Proof.
  apply demo_text_sendable; [|apply perm_skip, perm_swap | done]. constructor; [by left|]. constructor; [right; split; [done | by unfold video_sendable] | constructor].
Qed.
(** A session with a data channel only, and one with a single H.265 track, the
    second slot of the table unused. *)
Definition demo_channel : sdp_media := MediaLines [mline_zero; mline_zero] 0 true 0 1.
Definition demo_h265_line : nano_sdp_mline :=
  Mline SDP_MLINE_VIDEO 0 98 0 90000 0 NANORTC_CODEC_H265 NANORTC_DIR_SENDRECV 0 true 0 0 0
    (H265Local (take NANORTC_H265_SPROP_FMTP_SIZE (lit "sprop-vps=QAEMAf//" ++ replicate NANORTC_H265_SPROP_FMTP_SIZE 0)) 18 1 0 93).
Definition demo_h265 : sdp_media := MediaLines [demo_h265_line; mline_zero] 1 false 0 1.
Definition session_of (md : sdp_media) : nano_sdp := Sdp (sd_remote sdp_init) demo_local md false.
Lemma zero_line_ok : mline_ok mline_zero.
Proof. split_and!; try (unfold is_u8; cbn; lia). exact h265_zero_ok. Qed.
Lemma demo_channel_ok : media_ok demo_channel /\ sendable (session_of demo_channel).
Proof.
  split.
  - constructor; [reflexivity | cbn; lia | | unfold is_u8; cbn; lia]. repeat (apply List.Forall_cons; [exact zero_line_ok|]). constructor.
  - apply demo_text_sendable; [constructor | reflexivity | done].
Qed.
Lemma demo_h265_ok : media_ok demo_h265 /\ sendable (session_of demo_h265).
Proof.
  split.
  - constructor; [reflexivity | by apply Nat.leb_le | | unfold is_u8; cbn; lia]. apply List.Forall_cons; [|apply List.Forall_cons; [exact zero_line_ok | constructor]].
    split_and!; try (unfold is_u8; cbn; lia). split_and!; try (unfold is_u8; cbn; lia); [vm_compute; reflexivity | apply Nat.leb_le; vm_compute; reflexivity].
  - apply demo_text_sendable; [|reflexivity | done]. constructor; [|constructor]. right. split; [done|]. intros _. split; [apply plainb_plain|]; vm_compute; reflexivity.
Qed.
Lemma sdp_roundtrip_witness : (length (render (sdp_lines demo_session)) < 4096)%nat /\
  (exists s' buf' n r', sdp_generate_answer demo_session (replicate 4096 0) = (s', Ok (buf', n)) /\
    sdp_parse sdp_init (take n buf') = Ok (r', NANORTC_OK) /\ session_heard demo_session sdp_init r') /\
  (exists s' buf' n r', sdp_generate_answer (session_of demo_channel) (replicate 4096 0) = (s', Ok (buf', n)) /\
    sdp_parse sdp_init (take n buf') = Ok (r', NANORTC_OK) /\ session_heard (session_of demo_channel) sdp_init r') /\
  (exists s' buf' n r', sdp_generate_answer (session_of demo_h265) (replicate 4096 0) = (s', Ok (buf', n)) /\
    sdp_parse sdp_init (take n buf') = Ok (r', NANORTC_OK) /\ session_heard (session_of demo_h265) sdp_init r').
Proof.
  split; [apply Nat.ltb_lt; vm_compute; reflexivity|]. split; [|split].
  - apply (sdp_roundtrip demo_session sdp_init (replicate 4096 0) demo_local_ok demo_media_ok demo_sendable init_receiver_ok); apply Nat.leb_le; vm_compute; reflexivity.
  - apply (sdp_roundtrip (session_of demo_channel) sdp_init (replicate 4096 0) demo_local_ok (proj1 demo_channel_ok) (proj2 demo_channel_ok) init_receiver_ok); apply Nat.leb_le; vm_compute; reflexivity.
  - apply (sdp_roundtrip (session_of demo_h265) sdp_init (replicate 4096 0) demo_local_ok (proj1 demo_h265_ok) (proj2 demo_h265_ok) init_receiver_ok); apply Nat.leb_le; vm_compute; reflexivity.
Defined.
