(* ===== verification/SdpSafe.v ===== *)
(** The parser of [src/nano_sdp.c] on any input: it ends, stays inside its
    arrays and leaves a session the generator can print. *)

From Stdlib Require Import ZArith Lia String Ascii.
From stdpp Require Import base list numbers.
From S2P Require Import Prelude Wire Media Sdp SdpText SdpParse.

Local Open Scope Z_scope.

(** * Lines *)

Lemma extract_value_Ok line plen dst : (0 < length dst)%nat -> exists x, extract_value line plen dst = Ok x /\ length x = length dst.
Proof.
  intros Hd. unfold extract_value. set (v := strip_end _ _). set (vlen := if (length dst <=? length v)%nat then _ else _).
  assert (vlen < length dst /\ vlen <= length v)%nat as [Hv1 Hv2] by (unfold vlen; destruct (Nat.leb_spec (length dst) (length v)); lia).
  assert (length (take vlen v) = vlen) as Ht by (rewrite length_take_le; lia).
  rewrite wr_Ok, bind_Ok by lia. set (d := _ ++ _). assert (length d = length dst) as Hl by (unfold d; rewrite !length_app, length_take, length_drop, Ht; lia).
  rewrite wr_Ok by (cbn [length]; lia). eexists. split; [reflexivity|]. rewrite !length_app, length_take, length_drop. cbn [length]. lia.
Qed.
Lemma remote_fields r x : remote_ok r ->
  (length x = SDP_REMOTE_UFRAG_SIZE -> remote_ok (set_ufrag r x)) /\ (length x = SDP_REMOTE_PWD_SIZE -> remote_ok (set_pwd r x)) /\
  (length x = NANORTC_SDP_FINGERPRINT_SIZE -> remote_ok (set_remote_fingerprint r x)).
Proof. intros []. split_and!; intros; by constructor. Qed.
Lemma remote_words r x setup b : remote_ok r -> remote_ok (set_max_message r x) /\ remote_ok (set_sctp_port r x) /\ remote_ok (set_remote_setup r setup) /\
  remote_ok (Remote (rs_ufrag r) (rs_pwd r) (rs_fingerprint r) (rs_max_message_size r) (rs_sctp_port r) (rs_setup r) (rs_candidates r) (rs_candidate_count r) b).
Proof. intros []. split_and!; by constructor. Qed.
Lemma parse_candidate_Ok r line : remote_ok r -> exists r', parse_candidate r line = Ok r' /\ remote_ok r'.
Proof.
  intros Hr. pose proof Hr as [R1 R2 R3 R4 R5 R6]. unfold parse_candidate. destruct (Nat.ltb_spec (rs_candidate_count r) NANORTC_SDP_MAX_CANDIDATES) as [Hc|]; [|by exists r]. cbv zeta.
  match goal with |- context [if ?b then _ else _] => destruct b eqn:Hb; [|by exists r] end. apply andb_true_iff in Hb as [Hb _]. apply andb_true_iff in Hb as [_ Hb%Nat.ltb_lt].
  destruct (lookup_lt_is_Some_2 (rs_candidates r) (rs_candidate_count r)) as [c Hlk]; [lia|]. rewrite Hlk. pose proof (proj1 (Forall_lookup _ _) R6 _ c Hlk) as Hcl. cbv beta in Hcl.
  set (a := take_word _) in *. rewrite wr_Ok, bind_Ok by lia. set (d := _ ++ _). assert (length d = NANORTC_IPV6_STR_SIZE) as Hd by (unfold d; rewrite !length_app, length_take, length_drop; lia).
  rewrite wr_Ok, bind_Ok by (cbn [length]; lia). eexists. split; [reflexivity|]. constructor; cbn [rs_ufrag rs_pwd rs_fingerprint rs_candidates rs_candidate_count]; [done.. | by rewrite length_insert | lia |].
  apply Forall_insert; [done|]. cbn [sc_addr]. rewrite !length_app, length_take, length_drop. cbn [length]. lia.
Qed.
Lemma parse_session_Ok r line : remote_ok r -> exists r' rc, parse_session r line = Ok (r', rc) /\ remote_ok r' /\ (rc = NANORTC_OK \/ rc = NANORTC_ERR_PARSE).
Proof.
  intros Hr. pose proof Hr as [R1 R2 R3 R4 R5 R6]. unfold parse_session.
  assert (0 < length (rs_ufrag r) /\ 0 < length (rs_pwd r) /\ 0 < length (rs_fingerprint r))%nat as (P1 & P2 & P3)
    by (rewrite R1, R2, R3; unfold SDP_REMOTE_UFRAG_SIZE, SDP_REMOTE_PWD_SIZE, NANORTC_SDP_FINGERPRINT_SIZE; lia).
  destruct (line_starts_with line (lit "a=ice-ufrag:")).
  { destruct (extract_value_Ok line 12 _ P1) as (x & -> & Hx). rewrite bind_Ok. do 2 eexists. split; [reflexivity|]. split; [apply (remote_fields r x Hr); by rewrite Hx | by left]. }
  destruct (line_starts_with line (lit "a=ice-pwd:")).
  { destruct (extract_value_Ok line 10 _ P2) as (x & -> & Hx). rewrite bind_Ok. do 2 eexists. split; [reflexivity|]. split; [apply (remote_fields r x Hr); by rewrite Hx | by left]. }
  destruct (line_starts_with line (lit "a=fingerprint:")).
  { destruct (extract_value_Ok line 14 _ P3) as (x & -> & Hx). rewrite bind_Ok. do 2 eexists. split; [reflexivity|]. split; [apply (remote_fields r x Hr); by rewrite Hx | by left]. }
  destruct (line_starts_with line (lit "a=max-message-size:")).
  { destruct (strip_end is_line_end (drop 19 line)) as [|c v]; [do 2 eexists; split; [reflexivity|]; split; [done | by right]|].
    destruct (parse_limit (c :: v) 0) as [x|]; do 2 eexists; (split; [reflexivity|]); [split; [apply (remote_words r x NANORTC_SDP_SETUP_ACTIVE true Hr) | by left] | split; [done | by right]]. }
  destruct (line_starts_with line (lit "a=sctp-port:")).
  { do 2 eexists. split; [reflexivity|]. split; [apply (remote_words r (u16 (fst (parse_u32 (drop 12 line)))) NANORTC_SDP_SETUP_ACTIVE true Hr) | by left]. }
  destruct (line_starts_with line (lit "a=setup:")).
  { unfold parse_setup. destruct (extract_value_Ok line 8 (replicate 16 0)) as (x & -> & _); [rewrite length_replicate; lia|]. rewrite bind_Ok. cbv beta. rewrite bind_Ok.
    do 2 eexists. split; [reflexivity|]. split; [|by left]. match goal with |- remote_ok (Remote _ _ _ _ _ ?s _ _ _) => apply (remote_words r 0 s true Hr) end. }
  destruct (line_starts_with line (lit "a=candidate:")).
  { destruct (parse_candidate_Ok r line Hr) as (r' & -> & Hr'). rewrite bind_Ok. do 2 eexists. split; [reflexivity|]. split; [done | by left]. }
  destruct (line_starts_with line (lit "a=end-of-candidates")); do 2 eexists; (split; [reflexivity|]); (split; [|by left]); [apply (remote_words r 0 NANORTC_SDP_SETUP_ACTIVE true Hr) | done].
Qed.

(** * Media attributes *)

Lemma ml_set_pt_ok m x : mline_ok m -> is_u8 x -> mline_ok (ml_set_pt m x).
Proof. intros (H1 & H2 & H3 & H4) Hx. exact (conj H1 (conj Hx (conj H3 H4))). Qed.
Lemma ml_set_h264_rtpmap_ok m x : mline_ok m -> is_u8 x -> mline_ok (ml_set_h264_rtpmap m x).
Proof. intros (H1 & H2 & H3 & H4) Hx. exact (conj H1 (conj H2 (conj H3 H4))). Qed.
Lemma ml_set_h265_rtpmap_ok m x : mline_ok m -> is_u8 x -> mline_ok (ml_set_h265_rtpmap m x).
Proof. intros (H1 & H2 & H3 & H4) Hx. exact (conj H1 (conj H2 (conj H3 H4))). Qed.
Lemma ml_set_twcc_ok m x : mline_ok m -> is_u8 x -> mline_ok (ml_set_twcc m x).
Proof. intros (H1 & H2 & H3 & H4) Hx. exact (conj H1 (conj H2 (conj Hx H4))). Qed.
Lemma parse_rtpmap_ok m line : mline_ok m -> mline_ok (parse_rtpmap m line).
Proof.
  intros Hm. unfold parse_rtpmap. destruct (parse_u32 _) as [pt next]. pose proof (u8_range pt) as Hpt. destruct (_ =? _)%nat; [done|]. destruct next as [|c next]; [done|].
  destruct (negb _); [done|]. destruct (_ =? _); [|done]. destruct (line_starts_with _ (lit "H264")); [by apply ml_set_h264_rtpmap_ok|]. destruct (line_starts_with _ (lit "H265")); [|done]. cbv zeta.
  assert (mline_ok (ml_set_h265_rtpmap m (u8 pt))) as H5 by (by apply ml_set_h265_rtpmap_ok). destruct (_ =? _); [by apply ml_set_pt_ok | done].
Qed.
Lemma parse_fmtp_ok m line : mline_ok m -> mline_ok (fst (parse_fmtp m line)).
Proof.
  intros Hm. unfold parse_fmtp. destruct (parse_u32 _) as [pt search]. cbv zeta. pose proof (u8_range pt) as Hpt.
  match goal with |- context [if ?b then ml_set_pt m ?x else m] =>
    assert (mline_ok (if b then ml_set_pt m x else m)) as H1 by (destruct b; [by apply ml_set_pt_ok | done]); set (m1 := if b then ml_set_pt m x else m) in *; clearbody m1 end.
  destruct (_ && _); [|done]. destruct (_ || _); [done|]. destruct (_ || _); [by apply ml_set_pt_ok | done].
Qed.
Lemma parse_extmap_ok m line : mline_ok m -> mline_ok (parse_extmap m line).
Proof.
  intros Hm. unfold parse_extmap. destruct (parse_u32 _) as [id p]. pose proof (u8_range id). destruct (_ && _); [|done]. cbv zeta. destruct (_ && _); [by apply ml_set_twcc_ok | done].
Qed.
(** A session the parser can work on. *)
Record session_ok (s : nano_sdp) : Prop := { so_remote : remote_ok (sd_remote s); so_media : media_ok (sd_media s); so_mids : is_u8 (ms_mid_count (sd_media s)) }.
Record parser_ok (st : sdp_parser) : Prop := {
  po_session : session_ok (pr_sdp st);
  po_current : forall i, pr_current st = Some i -> (i < NANORTC_MAX_MEDIA_TRACKS)%nat
}.
Lemma on_mline_Ok st i f : parser_ok st -> (i < NANORTC_MAX_MEDIA_TRACKS)%nat -> (forall m, mline_ok m -> mline_ok (fst (f m))) ->
  exists st', on_mline st i f = Ok st' /\ parser_ok st' /\ sd_local (pr_sdp st') = sd_local (pr_sdp st).
Proof.
  intros [[Hr [M1 M2 M3 M4] Hm] Hc] Hi Hf. unfold on_mline. destruct (lookup_lt_is_Some_2 (ms_mlines (sd_media (pr_sdp st))) i) as [ml Hlk]; [lia|]. rewrite Hlk.
  specialize (Hf ml (proj1 (Forall_lookup _ _) M3 _ _ Hlk)). destruct (f ml) as [ml' rj]. cbn [fst] in Hf. eexists. split; [reflexivity|]. split; [|done]. constructor.
  - constructor; [done | | done]. constructor; [by cbn; rewrite length_insert | done | by apply Forall_insert | done].
  - intros j [= <-]. done.
Qed.
Lemma new_mline_ok is_video mid line p : is_u8 mid -> (forall x, p = Some x -> saved_ok x /\ h265_ok (sv_h265 x)) -> exists m, new_mline is_video mid line p = Ok m /\ mline_ok m.
Proof.
  intros Hmid Hp. unfold new_mline. destruct p as [p|]; [|eexists; split; [reflexivity|]; split; [exact Hmid|]; split; [unfold is_u8; cbn; lia|]; split; [unfold is_u8; cbn; lia | exact h265_zero_ok]].
  destruct (Hp p eq_refl) as [[Hl Hn] (_ & _ & H1 & H2 & H3)]. set (h := sv_h265 p) in *.
  assert (exists sprop, (if is_video && (0 <? hl_sprop_len h)%nat then x ← rdn (hl_sprop h) 0 (hl_sprop_len h); b ← wr (hl_sprop h265_zero) 0 x; Ok (b, hl_sprop_len h) else Ok (hl_sprop h265_zero, 0%nat)) = Ok sprop /\
    length (fst sprop) = NANORTC_H265_SPROP_FMTP_SIZE /\ (snd sprop <= NANORTC_H265_SPROP_FMTP_SIZE)%nat) as (sprop & -> & Hs1 & Hs2).
  { destruct (is_video && _).
    - assert (length (hl_sprop h265_zero) = NANORTC_H265_SPROP_FMTP_SIZE) as Hz by apply length_replicate.
      rewrite rdn_Ok, bind_Ok by lia. set (x := take _ _). assert (length x = hl_sprop_len h) as Hx by (unfold x; rewrite length_take_le; [done | rewrite length_drop; lia]).
      rewrite wr_Ok, bind_Ok by (cbn [Nat.add]; lia). eexists. split; [reflexivity|]. cbn [fst snd]. rewrite !length_app, length_take, length_drop. cbn [Nat.add]. lia.
    - eexists. split; [reflexivity|]. split; [apply length_replicate | cbn [snd]; lia]. }
  rewrite bind_Ok. eexists. split; [reflexivity|]. by split_and!.
Qed.
Lemma set_media_ok st md c : parser_ok st -> media_ok md -> is_u8 (ms_mid_count md) -> (forall i, c = Some i -> (i < NANORTC_MAX_MEDIA_TRACKS)%nat) ->
  parser_ok (Parser (with_media (pr_sdp st) md) c (pr_reject st)).
Proof. intros [[Hr _ _] _] Hmd Hm Hc. constructor; [by constructor | exact Hc]. Qed.
Lemma media_section_Ok saved st is_video line : parser_ok st -> Forall (fun x => saved_ok x /\ h265_ok (sv_h265 x)) saved ->
  exists st', media_section saved st is_video line = Ok st' /\ parser_ok st' /\ sd_local (pr_sdp st') = sd_local (pr_sdp st).
Proof.
  intros Hst Hs. pose proof Hst as [[Hr [M1 M2 M3 M4] Hm] Hc]. unfold media_section. cbv zeta. destruct (Nat.ltb_spec (ms_mline_count (sd_media (pr_sdp st))) NANORTC_MAX_MEDIA_TRACKS) as [Hlt|].
  - destruct (lookup_lt_is_Some_2 (ms_mlines (sd_media (pr_sdp st))) (ms_mline_count (sd_media (pr_sdp st)))) as [m Hlk]; [lia|]. rewrite Hlk.
    destruct (new_mline_ok is_video (ms_mid_count (sd_media (pr_sdp st))) line (saved !! ms_mline_count (sd_media (pr_sdp st))) Hm) as (ml & -> & Hml); [intros x Hx; exact (proj1 (Forall_lookup _ _) Hs _ _ Hx)|].
    rewrite bind_Ok. eexists. split; [reflexivity|]. split; [|done]. apply set_media_ok; [done | | apply u8_range | by intros i [= <-]].
    constructor; [by cbn; rewrite length_insert | cbn; lia | by apply Forall_insert | done].
  - eexists. split; [reflexivity|]. split; [|done]. by apply set_media_ok; [| constructor | apply u8_range |].
Qed.
Lemma session_line_Ok st line : parser_ok st -> exists st' rc, session_line st line = Ok (st', rc) /\ parser_ok st' /\ sd_local (pr_sdp st') = sd_local (pr_sdp st) /\ (rc = NANORTC_OK \/ rc = NANORTC_ERR_PARSE).
Proof.
  intros [[Hr Hmd Hm] Hc]. unfold session_line. destruct (parse_session_Ok _ line Hr) as (r & rc & -> & Hr' & Hrc). rewrite bind_Ok. do 2 eexists. split; [reflexivity|].
  split; [|done]. by constructor.
Qed.
Lemma parse_line_Ok saved st line : parser_ok st -> Forall (fun x => saved_ok x /\ h265_ok (sv_h265 x)) saved ->
  exists st' rc, parse_line saved st line = Ok (st', rc) /\ parser_ok st' /\ sd_local (pr_sdp st') = sd_local (pr_sdp st) /\ (rc = NANORTC_OK \/ rc = NANORTC_ERR_PARSE).
Proof.
  intros Hst Hs. pose proof Hst as [[Hr Hmd Hm] Hc]. pose proof Hmd as [M1 M2 M3 M4]. unfold parse_line. cbv zeta.
  assert (forall (x : res sdp_parser), (exists st', x = Ok st' /\ parser_ok st' /\ sd_local (pr_sdp st') = sd_local (pr_sdp st)) ->
    exists st' rc, (st ← x; Ok (st, NANORTC_OK)) = Ok (st', rc) /\ parser_ok st' /\ sd_local (pr_sdp st') = sd_local (pr_sdp st) /\ (rc = NANORTC_OK \/ rc = NANORTC_ERR_PARSE)) as Hlift.
  { intros x (st' & -> & H). rewrite bind_Ok. do 2 eexists. split; [reflexivity|]. destruct H. split; [done|]. split; [done | by left]. }
  destruct (line_starts_with line (lit "m=application ")).
  { do 2 eexists. split; [reflexivity|]. split; [|split; [done | by left]]. by apply set_media_ok; [| constructor | apply u8_range |]. }
  destruct (line_starts_with line (lit "m=audio ") || line_starts_with line (lit "m=video ")); [apply Hlift; by apply media_section_Ok|].
  destruct (line_starts_with line (lit "m=")).
  { do 2 eexists. split; [reflexivity|]. split; [|split; [done | by left]]. by apply set_media_ok; [| constructor | apply u8_range |]. }
  destruct (pr_current st) as [i|] eqn:Hcur; [|by apply session_line_Ok]. specialize (Hc i eq_refl).
  destruct (line_starts_with line (lit "a=rtpmap:")); [apply Hlift, on_mline_Ok; [done..|]; intros m; apply parse_rtpmap_ok|].
  destruct (is_video_mline st i && line_starts_with line (lit "a=fmtp:")); [apply Hlift, on_mline_Ok; [done..|]; intros m; apply parse_fmtp_ok|].
  destruct (line_starts_with line (lit "a=extmap:")); [apply Hlift, on_mline_Ok; [done..|]; intros m; apply parse_extmap_ok|].
  destruct (is_direction line); [apply Hlift, on_mline_Ok; [done..|]; intros m Hml; exact Hml | by apply session_line_Ok].
Qed.

(** * Texts *)

Lemma find_eol_pos c s : (0 < find_eol (c :: s) <= S (length s))%nat.
Proof.
  revert c. induction s as [|d s IH]; intros c; cbn [find_eol]; [destruct (c =? 10); cbn; lia|]. destruct (c =? 10); [cbn; lia|]. destruct (_ && _); [cbn; lia|].
  specialize (IH d). cbn [find_eol] in IH. cbn [length]. lia.
Qed.
Lemma parse_lines_Ok saved fuel : forall st text, parser_ok st -> Forall (fun x => saved_ok x /\ h265_ok (sv_h265 x)) saved -> (length text <= fuel)%nat ->
  exists st' rc, parse_lines fuel saved st text = Ok (st', rc) /\ parser_ok st' /\ sd_local (pr_sdp st') = sd_local (pr_sdp st) /\ (rc = NANORTC_OK \/ rc = NANORTC_ERR_PARSE).
Proof.
  induction fuel as [|fuel IH]; intros st text Hst Hs Hf.
  - destruct text; [|cbn in Hf; lia]. exists st, NANORTC_OK. split; [done|]. split; [done|]. split; [done | by left].
  - destruct text as [|c text]; [exists st, NANORTC_OK; split; [done|]; split; [done|]; split; [done | by left]|]. cbn [parse_lines]. pose proof (find_eol_pos c text) as Hn.
    destruct (parse_line_Ok saved st (take (find_eol (c :: text)) (c :: text)) Hst Hs) as (st1 & rc & -> & Hst1 & Hl1 & Hrc). rewrite bind_Ok. cbv beta iota.
    destruct (negb _); [by exists st1, rc|]. destruct (IH st1 (drop (find_eol (c :: text)) (c :: text)) Hst1 Hs) as (st2 & rc2 & -> & Hst2 & Hl2 & Hrc2); [rewrite length_drop; cbn [length] in *; lia|].
    exists st2, rc2. split; [done|]. split; [done|]. split; [congruence | done].
Qed.
Lemma saved_h265 md : media_ok md -> Forall (fun x => saved_ok x /\ h265_ok (sv_h265 x)) (map save_mline (take (Nat.min (ms_mline_count md) NANORTC_MAX_MEDIA_TRACKS) (ms_mlines md))).
Proof.
  intros Hmd. pose proof (saved_all md Hmd) as Hs. destruct Hmd as [_ _ H3 _]. apply Forall_map, Forall_take. apply Forall_map in Hs.
  eapply List.Forall_impl; [|exact H3]. intros m (_ & _ & _ & (Hl & Hn & H)). assert (saved_ok (save_mline m)) as Hok.
  { unfold saved_ok, save_mline. cbv zeta. cbn [sv_h265 hl_sprop hl_sprop_len]. split; [|done]. destruct (_ && _); [|apply length_replicate]. rewrite length_app, length_replicate, length_take_le by lia. lia. }
  split; [done|]. destruct Hok as [A B]. exact (conj A (conj B H)).
Qed.

(** C18: On every text [sdp_parse] ends inside the text and the session's arrays:
    it returns OK or a parse error and leaves a well-formed session whose local
    description is as it was; it accepts only when user fragment and password
    are present, and marks the session parsed. *)
Theorem sdp_parse_total s text (Hs : session_ok s) :
  exists s' rc, sdp_parse s text = Ok (s', rc) /\ session_ok s' /\ sd_local s' = sd_local s /\
    (text = [] <-> rc = NANORTC_ERR_INVALID_PARAM) /\ (rc = NANORTC_OK \/ rc = NANORTC_ERR_PARSE \/ rc = NANORTC_ERR_INVALID_PARAM) /\
    (rc = NANORTC_OK -> sd_parsed s' = true /\ (exists c, rd8 (rs_ufrag (sd_remote s')) 0 = Ok c /\ c <> 0) /\ exists c, rd8 (rs_pwd (sd_remote s')) 0 = Ok c /\ c <> 0).
Proof.
  destruct Hs as [Hr Hmd Hm]. unfold sdp_parse. destruct text as [|x text]; [exists s, NANORTC_ERR_INVALID_PARAM; split_and!; try done; by right; right|]. change (length (x :: text) =? 0)%nat with false. cbv zeta iota.
  set (saved := map save_mline _). set (st0 := Parser _ None false). pose proof (saved_h265 _ Hmd) as Hsaved. fold saved in Hsaved.
  assert (parser_ok st0) as H0 by (constructor; [|done]; constructor; [by destruct Hr; constructor | destruct Hmd; constructor; try done; cbn; lia | done]).
  destruct (parse_lines_Ok saved (length (x :: text)) st0 (x :: text) H0 Hsaved (le_n _)) as (st & rc & -> & [Hok _] & Hl & Hrc). rewrite bind_Ok. cbv beta iota.
  assert (x :: text = [] <-> rc = NANORTC_ERR_INVALID_PARAM) as Hne by (split; [done | destruct Hrc as [->| ->]; done]).
  assert (x :: text = [] <-> NANORTC_ERR_PARSE = NANORTC_ERR_INVALID_PARAM) as Hne2 by done. assert (x :: text = [] <-> NANORTC_OK = NANORTC_ERR_INVALID_PARAM) as Hne3 by done.
  destruct (Z.eqb_spec rc NANORTC_OK) as [->|Hn]; cbn [negb]; [|exists (pr_sdp st), rc; split; [done|]; split; [done|]; split; [done|]; split; [done|]; split; [destruct Hrc; [by left | by right; left] | done]].
  pose proof Hok as [[R1 R2 R3 R4 R5 R6] Hmd' Hm'].
  assert (exists c, rd8 (rs_ufrag (sd_remote (pr_sdp st))) 0 = Ok c) as (c1 & Hc1) by (eexists; apply rd8_Ok; rewrite R1; unfold SDP_REMOTE_UFRAG_SIZE; lia).
  assert (exists c, rd8 (rs_pwd (sd_remote (pr_sdp st))) 0 = Ok c) as (c2 & Hc2) by (eexists; apply rd8_Ok; rewrite R2; unfold SDP_REMOTE_PWD_SIZE; lia).
  rewrite Hc1, Hc2, !bind_Ok. destruct (Z.eqb_spec c1 0); cbn [orb]; [exists (pr_sdp st), NANORTC_ERR_PARSE; split; [done|]; split; [done|]; split; [done|]; split; [done|]; split; [by right; left | done]|].
  destruct (Z.eqb_spec c2 0); [exists (pr_sdp st), NANORTC_ERR_PARSE; split; [done|]; split; [done|]; split; [done|]; split; [done|]; split; [by right; left | done]|].
  destruct (pr_reject st); [exists (pr_sdp st), NANORTC_ERR_PARSE; split; [done|]; split; [done|]; split; [done|]; split; [done|]; split; [by right; left | done]|].
  eexists _, NANORTC_OK. split; [reflexivity|]. split; [by constructor|]. split; [done|]. split; [done|]. split; [by left|]. intros _. split; [done|]. split; [by exists c1 | by exists c2].
Qed.
Lemma init_session_ok : session_ok sdp_init.
Proof. destruct init_receiver_ok. constructor; [done | done | unfold is_u8; cbn; lia]. Qed.
(** Line noise, and a session without credentials. *)
Lemma sdp_parse_total_witness : session_ok sdp_init /\
  exists s' rc, sdp_parse sdp_init (lit "a=candidate:1 1 UDP" ++ [10; 13; 255] ++ lit "m=video 9 X 96") = Ok (s', rc) /\ session_ok s' /\ rc = NANORTC_ERR_PARSE.
Proof.
  split; [exact init_session_ok|]. destruct (sdp_parse_total sdp_init (lit "a=candidate:1 1 UDP" ++ [10; 13; 255] ++ lit "m=video 9 X 96") init_session_ok) as (s' & rc & E & Hs & _).
  exists s', rc. split; [exact E|]. split; [exact Hs|]. assert (match sdp_parse sdp_init (lit "a=candidate:1 1 UDP" ++ [10; 13; 255] ++ lit "m=video 9 X 96") with Ok (_, c) => c | _ => 0 end = NANORTC_ERR_PARSE) as H by (vm_compute; reflexivity).
  rewrite E in H. exact H.
Defined.
