(* ===== verification/Candidate.v ===== *)
(** Trickled candidates and server URLs, [src/nano_rtc_negotiate.c]: the
    candidate line written for the application and read from the peer, the
    candidate table it feeds, and the [iceServers] configuration.  A
    NUL-terminated argument is the list of its octets before the NUL. *)

From Stdlib Require Import ZArith Lia String Ascii.
From stdpp Require Import base list numbers.
From S2P Require Import Prelude Wire Addr Ice Turn Sdp SdpText.

Local Open Scope Z_scope.

Definition ICE_CANDIDATE_STR_SIZE : nat := 142.

(** * Tokens *)

Definition candidate_is_space (c : Z) : bool := (c =? 32) || (c =? 9) || (c =? 13) || (c =? 10).
Fixpoint token_chars (p : list Z) : list Z * list Z :=
  match p with
  | c :: r => if candidate_is_space c then ([], p) else let '(t, q) := token_chars r in (c :: t, q)
  | [] => ([], [])
  end.
(** The token and the cursor after it. *)
Definition candidate_next_token (cursor : list Z) : option (list Z * list Z) :=
  match drop_while candidate_is_space cursor with [] => None | p => Some (token_chars p) end.
Definition lower (c : Z) : Z := if (65 <=? c) && (c <=? 90) then c - 65 + 97 else c.
Definition candidate_token_eq_ci (token literal : list Z) : bool := bool_decide (map lower token = map lower literal).
Fixpoint token_u32 (t : list Z) (parsed : Z) : option Z :=
  match t with
  | [] => Some parsed
  | c :: t =>
      if negb (is_digit c) || ((UINT32_MAX - (c - 48)) / 10 <? parsed) then None else token_u32 t (u32 (parsed * 10 + (c - 48)))
  end.
Definition candidate_token_u32 (t : list Z) : option Z := match t with [] => None | _ => token_u32 t 0 end.

(** * Writing a candidate *)

Definition cand_append (buf : list Z) (pos : nat) (str : list Z) : res (list Z * nat) := buf ← wr buf pos str; Ok (buf, (pos + length str)%nat).
Definition cand_append_u32 (buf : list Z) (pos : nat) (val : Z) : res (list Z * nat) := tmp ← decimal 12 val; cand_append buf pos tmp.
Definition nano_rtc_build_candidate_str (buf : list Z) (foundation priority : Z) (ip : list Z) (port : Z) (type : list Z) : res (list Z * nat) :=
  '(buf, pos) ← cand_append buf 0 (lit "candidate:");
  '(buf, pos) ← cand_append_u32 buf pos foundation;
  '(buf, pos) ← cand_append buf pos (lit " 1 UDP ");
  '(buf, pos) ← cand_append_u32 buf pos priority;
  '(buf, pos) ← cand_append buf pos [32];
  '(buf, pos) ← cand_append buf pos ip;
  '(buf, pos) ← cand_append buf pos [32];
  '(buf, pos) ← cand_append_u32 buf pos port;
  '(buf, pos) ← cand_append buf pos (lit " typ ");
  '(buf, pos) ← cand_append buf pos type;
  '(buf, pos) ← (if (length type =? 5)%nat && (bool_decide (type = lit "srflx") || bool_decide (type = lit "relay")) then
                   if has_colon ip then cand_append buf pos (lit " raddr :: rport 9") else cand_append buf pos (lit " raddr 0.0.0.0 rport 9")
                 else Ok (buf, pos));
  buf ← wr buf pos [0];
  Ok (buf, pos).

(** The candidates of which the application has not been told: the [pending]
    flags, beside the local description and the string it is shown. *)
Record trickle : Type := Trickle { tk_host : list bool; tk_srflx : bool; tk_relay : bool; tk_str : list Z }.
(** The first pending host candidate from index [i] on. *)
Fixpoint pending_host (k : nat) (flags : list bool) (cs : list sdp_candidate) (i : nat) : res (option (nat * sdp_candidate)) :=
  match k with
  | O => Ok None
  | S k =>
      match flags !! i, cs !! i with
      | Some true, Some c => Ok (Some (i, c))
      | Some false, Some _ => pending_host k flags cs (S i)
      | _, _ => Fault
      end
  end.
(** The candidate chosen: address buffer, port, foundation, priority and type. *)
Record chosen : Type := Chosen { cn_ip : list Z; cn_port : Z; cn_foundation : Z; cn_priority : Z; cn_type : list Z }.
Definition choose_candidate (t : trickle) (l : sdp_local) : res (option (trickle * chosen)) :=
  host ← pending_host (ls_candidate_count l) (tk_host t) (ls_candidates l) 0;
  match host with
  | Some (i, c) =>
      Ok (Some (Trickle (<[i := false]> (tk_host t)) (tk_srflx t) (tk_relay t) (tk_str t),
                Chosen (sc_addr c) (sc_port c) (u16 (Z.of_nat i + 1)) (ICE_HOST_PRIORITY (Z.of_nat i)) (lit "host")))
  | None =>
      if tk_srflx t then
        Ok (Some (Trickle (tk_host t) false (tk_relay t) (tk_str t), Chosen (Sdp.se_ip (ls_srflx l)) (Sdp.se_port (ls_srflx l)) 3 1090519295 (lit "srflx")))
      else if tk_relay t then
        Ok (Some (Trickle (tk_host t) (tk_srflx t) false (tk_str t), Chosen (Sdp.se_ip (ls_relay l)) (Sdp.se_port (ls_relay l)) 2 16777215 (lit "relay")))
      else Ok None
  end.
(** The state and the string's length, or [None] for [NANORTC_ERR_NO_DATA]. *)
Definition nano_rtc_candidate_produce (t : trickle) (l : sdp_local) : res (option (trickle * nat)) :=
  pick ← choose_candidate t l;
  match pick with
  | None => Ok None
  | Some (t, c) =>
      len ← nanortc_strnlen (cn_ip c) NANORTC_IPV6_STR_SIZE;
      ip ← rdn (cn_ip c) 0 len;
      '(str, n) ← nano_rtc_build_candidate_str (tk_str t) (cn_foundation c) (cn_priority c) ip (cn_port c) (cn_type c);
      Ok (Some (Trickle (tk_host t) (tk_srflx t) (tk_relay t) str, n))
  end.
(** [nanortc_add_local_candidate]: the three states, and the code. *)
Definition nanortc_add_local_candidate (l : sdp_local) (ice : nano_ice) (t : trickle) (ip : list Z) (port : Z) : res (sdp_local * nano_ice * trickle * Z) :=
  if (NANORTC_MAX_LOCAL_CANDIDATES <=? ls_candidate_count l)%nat then Ok (l, ice, t, NANORTC_ERR_BUFFER_TOO_SMALL) else
  let idx := ls_candidate_count l in
  match ls_candidates l !! idx, ic_locals ice !! idx, tk_host t !! idx with
  | Some c, Some _, Some _ =>
      if (length (sc_addr c) <=? length ip)%nat then Ok (l, ice, t, NANORTC_ERR_BUFFER_TOO_SMALL) else
      a ← wr (sc_addr c) 0 (ip ++ [0]);
      let cs := <[idx := Candidate a port]> (ls_candidates l) in
      let stored n := Local (ls_ufrag l) (ls_pwd l) (ls_fingerprint l) (ls_sctp_port l) (ls_setup l) cs n (ls_srflx l) (ls_relay l) in
      match addr_parse_auto ip with
      | Err rc => Ok (stored idx, ice, t, rc)
      | Fault => Fault
      | Ok (addr, family) =>
          let ice := Ice (ic_state ice) (ic_controlling ice) (ic_lufrag ice) (ic_lpwd ice) (ic_rufrag ice) (ic_rpwd ice) (ic_selected ice) (ic_interval ice) (ic_next_check ice) (ic_tie_breaker ice) (ic_check_count ice) (ic_nominated ice) (ic_srflx_base ice) (ic_pending ice)
                       (<[idx := Cand addr port family NANORTC_ICE_CAND_HOST]> (ic_locals ice)) (S idx) (ic_remotes ice) (ic_remote_count ice) (ic_cur_local ice) (ic_cur_remote ice) (ic_eoc ice) (ic_generation ice) (ic_consent ice) in
          Ok (stored (S idx), ice, Trickle (<[idx := true]> (tk_host t)) (tk_srflx t) (tk_relay t) (tk_str t), NANORTC_OK)
      end
  | _, _, _ => Fault
  end.

(** * Reading a candidate *)

Definition need {A} (o : option A) : res A := match o with Some x => Ok x | None => Err NANORTC_ERR_PARSE end.
(** The value of the first [typ] attribute. *)
Fixpoint find_typ (fuel : nat) (p : list Z) : res Z :=
  match candidate_next_token p with
  | None => Ok NANORTC_ICE_CAND_HOST
  | Some (key, p) =>
      match fuel with
      | O => Fault
      | S fuel =>
          if negb (candidate_token_eq_ci key (lit "typ")) then find_typ fuel p else
          '(value, _) ← need (candidate_next_token p);
          Ok (if candidate_token_eq_ci value (lit "host") then NANORTC_ICE_CAND_HOST
              else if candidate_token_eq_ci value (lit "srflx") || candidate_token_eq_ci value (lit "prflx") then NANORTC_ICE_CAND_SRFLX
              else if candidate_token_eq_ci value (lit "relay") then NANORTC_ICE_CAND_RELAY
              else NANORTC_ICE_CAND_HOST)
      end
  end.
Definition port_of (t : list Z) : res Z :=
  v ← need (candidate_token_u32 t);
  if (v =? 0) || (UINT16_MAX <? v) then Err NANORTC_ERR_PARSE else Ok v.
(** Address text, port and type of a candidate string. *)
Definition candidate_fields (str : list Z) : res (list Z * Z * Z) :=
  if line_starts_with str (lit "candidate:") then
    let p := drop 10 str in
    '(_, p) ← need (candidate_next_token p);
    '(component, p) ← need (candidate_next_token p);
    '(transport, p) ← need (candidate_next_token p);
    '(_, p) ← need (candidate_next_token p);
    '(address, p) ← need (candidate_next_token p);
    '(port_token, p) ← need (candidate_next_token p);
    component_value ← need (candidate_token_u32 component);
    port ← port_of port_token;
    if negb (component_value =? 1) || negb (candidate_token_eq_ci transport (lit "udp")) then Err NANORTC_ERR_NOT_IMPLEMENTED else
    type ← find_typ (length p) p;
    Ok (address, port, type)
  else
    '(address, p) ← need (candidate_next_token str);
    '(port_token, _) ← need (candidate_next_token p);
    port ← port_of port_token;
    Ok (address, port, NANORTC_ICE_CAND_HOST).
Definition addr_bytes (family : Z) : nat := if family =? 4 then 4 else NANORTC_ADDR_SIZE.
Definition same_candidate (c : ice_candidate) (addr : list Z) (family port : Z) : bool :=
  (ca_family c =? family) && (ca_port c =? port) && bool_decide (take (addr_bytes family) (ca_addr c) = take (addr_bytes family) addr).
(** The first of [k] candidates from index [i] on with this transport address. *)
Fixpoint find_candidate (k : nat) (cs : list ice_candidate) (i : nat) (addr : list Z) (family port : Z) : res (option (nat * ice_candidate)) :=
  match k with
  | O => Ok None
  | S k => match cs !! i with
           | None => Fault
           | Some c => if same_candidate c addr family port then Ok (Some (i, c)) else find_candidate k cs (S i) addr family port
           end
  end.
(** Every refusal leaves the agent as it was. *)
Definition nanortc_add_remote_candidate (ice : nano_ice) (candidate_str : list Z) : res nano_ice :=
  '(addr_str, port, type) ← candidate_fields candidate_str;
  if (length addr_str =? 0)%nat || (NANORTC_IPV6_STR_SIZE <=? length addr_str)%nat || (port =? 0) then Err NANORTC_ERR_PARSE else
  '(addr, family) ← addr_parse_auto addr_str;
  existing ← find_candidate (ic_remote_count ice) (ic_remotes ice) 0 addr family port;
  match existing with
  | Some (i, c) =>
      Ok (if ca_type c <? type then with_remotes ice (<[i := Cand (ca_addr c) (ca_port c) (ca_family c) type]> (ic_remotes ice)) (ic_remote_count ice) else ice)
  | None =>
      if (NANORTC_MAX_ICE_CANDIDATES <=? ic_remote_count ice)%nat then Err NANORTC_ERR_BUFFER_TOO_SMALL else
      match ic_remotes ice !! ic_remote_count ice with
      | None => Fault
      | Some _ =>
          let n := addr_bytes family in
          Ok (with_remotes ice (<[ic_remote_count ice := Cand (take n addr ++ replicate (NANORTC_ADDR_SIZE - n) 0) port family type]> (ic_remotes ice)) (S (ic_remote_count ice)))
      end
  end.
Definition with_eoc (i : nano_ice) (x : bool) : nano_ice :=
  Ice (ic_state i) (ic_controlling i) (ic_lufrag i) (ic_lpwd i) (ic_rufrag i) (ic_rpwd i) (ic_selected i) (ic_interval i) (ic_next_check i) (ic_tie_breaker i) (ic_check_count i) (ic_nominated i) (ic_srflx_base i) (ic_pending i) (ic_locals i) (ic_local_count i) (ic_remotes i) (ic_remote_count i) (ic_cur_local i) (ic_cur_remote i) x (ic_generation i) (ic_consent i).
Definition add_ignoring (ice : nano_ice) (str : list Z) : res nano_ice :=
  match nanortc_add_remote_candidate ice str with Ok ice => Ok ice | Err _ => Ok ice | Fault => Fault end.
Fixpoint add_candidates (cs : list sdp_candidate) (ice : nano_ice) : res nano_ice :=
  match cs with
  | [] => Ok ice
  | c :: cs =>
      addr ← c_string (sc_addr c);
      let addr := take NANORTC_IPV6_STR_SIZE addr in
      ice ← (if (length addr + 8 <? NANORTC_IPV6_STR_SIZE + 16)%nat then
               tmp ← decimal 8 (sc_port c); add_ignoring ice (addr ++ [32] ++ tmp)
             else Ok ice);
      add_candidates cs ice
  end.
Definition rtc_add_sdp_candidates (r : sdp_remote) (ice : nano_ice) : res nano_ice :=
  ice ← add_candidates (take (rs_candidate_count r) (rs_candidates r)) ice;
  Ok (if rs_end_of_candidates r then with_eoc ice true else ice).
Definition nanortc_end_of_candidates (r : sdp_remote) (ice : nano_ice) : sdp_remote * nano_ice :=
  (Remote (rs_ufrag r) (rs_pwd r) (rs_fingerprint r) (rs_max_message_size r) (rs_sctp_port r) (rs_setup r) (rs_candidates r) (rs_candidate_count r) true, with_eoc ice true).

(** * Servers *)

(** The position of the last colon. *)
Fixpoint last_colon (s : list Z) (i : nat) (found : option nat) : option nat :=
  match s with [] => found | c :: s => last_colon s (S i) (if c =? 58 then Some i else found) end.
(** 0 for STUN, 1 for TURN with host and port; -1 on error. *)
Definition parse_ice_url (url : list Z) (host_size : nat) : Z * list Z * Z :=
  let found := if line_starts_with url (lit "stun:") then Some 0 else if line_starts_with url (lit "turn:") then Some 1 else None in
  match found with
  | None => (-1, [], 3478)
  | Some type =>
      let p := drop 5 url in
      match last_colon p 0 None with
      | Some (S i as colon) =>
          if (host_size <=? colon)%nat then (-1, [], 3478) else (type, take colon p, u16 (fst (parse_u32 (drop (S colon) p))))
      | _ => if (host_size <=? length p)%nat then (-1, [], 3478) else (type, p, 3478)
      end
  end.
(** [nanortc_ice_server_t]: URLs, user name and credential, null as [None]. *)
Record ice_server : Type := Server { is_urls : list (option (list Z)); is_username : option (list Z); is_credential : option (list Z) }.
(** The TURN client and the STUN server fields. *)
Record servers : Type := Servers { sr_turn : nano_turn; sr_stun : option (list Z * Z * Z) }.
Definition apply_url (st : servers) (s : ice_server) (url : list Z) : res (servers * Z) :=
  let '(type, host, port) := parse_ice_url url NANORTC_IPV6_STR_SIZE in
  if (type =? 1) && negb (tu_configured (sr_turn st)) then
    match is_username s, is_credential s with
    | Some username, Some credential =>
        match addr_parse_auto host with
        | Err _ => Ok (st, NANORTC_OK)
        | Fault => Fault
        | Ok (addr, family) =>
            '(t, _) ← turn_configure (sr_turn st) addr family port username credential;
            Ok (Servers t (sr_stun st), NANORTC_OK)
        end
    | _, _ => Ok (st, NANORTC_ERR_INVALID_PARAM)
    end
  else if type =? 0 then
    match sr_stun st with
    | Some _ => Ok (st, NANORTC_OK)
    | None =>
        match addr_parse_auto host with
        | Err _ => Ok (st, NANORTC_OK)
        | Fault => Fault
        | Ok (addr, family) => Ok (Servers (sr_turn st) (Some (addr, family, port)), NANORTC_OK)
        end
    end
  else Ok (st, NANORTC_OK).
Fixpoint apply_urls (st : servers) (s : ice_server) (urls : list (option (list Z))) : res (servers * Z) :=
  match urls with
  | [] => Ok (st, NANORTC_OK)
  | None :: urls => apply_urls st s urls
  | Some url :: urls => '(st, rc) ← apply_url st s url; if rc =? NANORTC_OK then apply_urls st s urls else Ok (st, rc)
  end.
Fixpoint nano_rtc_apply_ice_servers (st : servers) (ss : list ice_server) : res (servers * Z) :=
  match ss with
  | [] => Ok (st, NANORTC_OK)
  | s :: ss => '(st, rc) ← apply_urls st s (is_urls s); if rc =? NANORTC_OK then nano_rtc_apply_ice_servers st ss else Ok (st, rc)
  end.
