(* ===== verification/CandidateTrickle.v ===== *)
(** Candidates told to a peer, by trickling or in an SDP, end up in the peer's
    ICE table. *)

From Stdlib Require Import ZArith Lia String Ascii.
From stdpp Require Import base list numbers.
From S2P Require Import Prelude Wire Addr Ice Turn Sdp SdpText SdpParse Candidate.

Local Open Scope Z_scope.

(** * Tokens *)

Definition token (t : list Z) : Prop := t <> [] /\ Forall (fun c => candidate_is_space c = false) t.
Definition token_end (r : list Z) : Prop := match r with c :: _ => candidate_is_space c = true | [] => True end.
Lemma token_chars_app t r : Forall (fun c => candidate_is_space c = false) t -> token_end r -> token_chars (t ++ r) = (t, r).
Proof.
  induction 1 as [|c t Hc _ IH]; intros Hr; cbn [app token_chars].
  - destruct r as [|c r]; [done|]. cbn [token_chars]. cbn [token_end] in Hr. by rewrite Hr.
  - by rewrite Hc, IH.
Qed.
Lemma next_token_app t r : token t -> token_end r -> candidate_next_token (t ++ r) = Some (t, r).
Proof.
  intros [Hn Ht] Hr. unfold candidate_next_token. destruct t as [|c t]; [done|]. pose proof Ht as Ht'. apply Forall_cons_iff in Ht' as [Hc _]. cbn [app drop_while]. rewrite Hc.
  change (c :: t ++ r) with ((c :: t) ++ r). by rewrite token_chars_app.
Qed.
Lemma next_token_space t r : token t -> token_end r -> candidate_next_token (32 :: t ++ r) = Some (t, r).
Proof. intros Ht Hr. rewrite <- (next_token_app t r Ht Hr). done. Qed.
Lemma digit_token ds : ds <> [] -> Forall (fun c => is_digit c = true) ds -> token ds.
Proof.
  intros Hn Hd. split; [done|]. eapply List.Forall_impl; [|exact Hd]. intros c Hc. unfold is_digit in Hc. apply andb_true_iff in Hc as [H1%Z.leb_le H2%Z.leb_le].
  unfold candidate_is_space. by rewrite !(proj2 (Z.eqb_neq _ _)) by lia.
Qed.
Lemma dec_token v : 0 <= v -> token (dec v).
Proof. intros Hv. apply digit_token; [by apply dec_nonempty | by apply dec_digits]. Qed.
Lemma token_u32_digits ds : forall val, Forall (fun c => is_digit c = true) ds -> 0 <= val -> decimal_value ds val < 2 ^ 32 -> token_u32 ds val = Some (decimal_value ds val).
Proof.
  induction ds as [|c ds IH]; intros val Hd Hv Hb; cbn [token_u32 decimal_value] in *; [done|]. apply Forall_cons_iff in Hd as [Hc Hd]. pose proof Hc as Hc'. unfold is_digit in Hc'.
  apply andb_true_iff in Hc' as [H1%Z.leb_le H2%Z.leb_le]. rewrite Hc. cbn [negb orb].
  assert (val * 10 + (c - 48) <= decimal_value ds (val * 10 + (c - 48))) by (apply decimal_value_ge; [|lia]; apply forallb_forall; intros x Hx; exact (proj1 (List.Forall_forall _ _) Hd x Hx)).
  assert (((UINT32_MAX - (c - 48)) / 10 <? val) = false) as -> by (apply Z.ltb_ge; unfold UINT32_MAX; apply Z.div_le_lower_bound; lia).
  rewrite u32_id by (unfold is_u32; lia). apply IH; [done | lia | done].
Qed.
Lemma token_u32_dec v : is_u32 v -> candidate_token_u32 (dec v) = Some v.
Proof.
  intros Hv. pose proof (dec_value v Hv) as Hd. unfold candidate_token_u32. pose proof (dec_nonempty v ltac:(unfold is_u32 in Hv; lia)). destruct (dec v) eqn:E; [done|]. rewrite <- E in *.
  rewrite token_u32_digits; [by rewrite Hd | apply dec_digits; unfold is_u32 in Hv; lia | lia | rewrite Hd; apply Hv].
Qed.
Lemma port_of_dec v : is_u16 v -> 0 < v -> port_of (dec v) = Ok v.
Proof.
  intros Hv Hp. unfold port_of. rewrite token_u32_dec by (unfold is_u16 in Hv; unfold is_u32; lia). cbn [need]. rewrite bind_Ok.
  rewrite (proj2 (Z.eqb_neq _ _)) by lia. rewrite (proj2 (Z.ltb_ge _ _)) by (unfold is_u16 in Hv; unfold UINT16_MAX; lia). done.
Qed.

(** * The candidate string *)

Lemma dec_length v k : (1 <= k <= 10)%nat -> 0 <= v < 10 ^ Z.of_nat k -> (length (dec v) <= k)%nat.
Proof.
  intros Hk Hv. unfold dec. destruct (v =? 0); [cbn; lia|]. rewrite length_rev, (rdigits_more k) by (done || lia). clear Hk. revert v Hv. induction k as [|k IH]; intros v Hv; cbn [rdigits]; [cbn; lia|].
  destruct (0 <? v); [|cbn; lia]. cbn [length]. rewrite Nat2Z.inj_succ, Z.pow_succ_r in Hv by lia. apply le_n_S, IH. split; [apply Z.div_pos; lia | apply Z.div_lt_upper_bound; lia].
Qed.
Definition related_text (ip type : list Z) : list Z :=
  if (length type =? 5)%nat && (bool_decide (type = lit "srflx") || bool_decide (type = lit "relay")) then related ip else [].
Definition candidate_text (foundation priority : Z) (ip : list Z) (port : Z) (type : list Z) : list Z :=
  lit "candidate:" ++ dec foundation ++ lit " 1 UDP " ++ dec priority ++ [32] ++ ip ++ [32] ++ dec port ++ lit " typ " ++ type ++ related_text ip type.
(** [text] written at the front of a buffer of [n] octets. *)
Definition written (n : nat) (text : list Z) (w : list Z * nat) : Prop := exists rest, w = (text ++ rest, length text) /\ length (text ++ rest) = n.
(** A writer that leaves [text] and its NUL. *)
Definition leaves (n : nat) (text : list Z) (x : res (list Z * nat)) : Prop := exists rest, x = Ok (text ++ 0 :: rest, length text) /\ length (text ++ 0 :: rest) = n.
Lemma append_step n text buf pos s k T : written n text (buf, pos) -> (length text + length s <= n)%nat ->
  (forall w, written n (text ++ s) w -> leaves n T (k w)) -> leaves n T (cand_append buf pos s ≫= k).
Proof.
  intros (rest & [= -> ->] & Hl) Hs Hk. unfold cand_append. rewrite length_app in Hl. rewrite wr_append by (done || lia). rewrite !bind_Ok. apply Hk.
  exists (drop (length s) rest). split; [by rewrite <- app_assoc, length_app|]. rewrite !length_app, length_drop. lia.
Qed.
Lemma append_u32_step n text buf pos v k T : written n text (buf, pos) -> is_u32 v -> (length text + length (dec v) <= n)%nat ->
  (forall w, written n (text ++ dec v) w -> leaves n T (k w)) -> leaves n T (cand_append_u32 buf pos v ≫= k).
Proof.
  intros Hw Hv Hs Hk. unfold cand_append_u32. rewrite (decimal_Ok 12 10) by ((lia || (change (10 ^ Z.of_nat 10) with 10000000000; unfold is_u32 in Hv; lia))).
  rewrite bind_Ok. by apply (append_step n text).
Qed.
Lemma end_step n text buf pos : written n text (buf, pos) -> (length text < n)%nat -> leaves n text (buf ← wr buf pos [0]; Ok (buf, pos)).
Proof.
  intros (rest & [= -> ->] & Hl) Hn. rewrite length_app in Hl. rewrite wr_append by (cbn [length]; lia). rewrite bind_Ok. exists (drop (length [0]) rest). split; [by rewrite <- app_assoc|].
  rewrite length_app. cbn [length]. rewrite length_drop. cbn [length]. lia.
Qed.
Definition candidate_kind (type : list Z) : Prop := type = lit "host" \/ type = lit "srflx" \/ type = lit "relay".
Lemma kind_length type : candidate_kind type -> (length type <= 5)%nat.
Proof. intros [->|[->| ->]]; vm_compute; lia. Qed.
Lemma related_length ip : (length (related ip) <= 22)%nat.
Proof. unfold related. destruct (has_colon ip); apply Nat.leb_le; vm_compute; reflexivity. Qed.
Lemma candidate_text_length f prio ip port type : is_u16 f -> is_u32 prio -> is_u16 port -> (length ip < NANORTC_IPV6_STR_SIZE)%nat -> candidate_kind type ->
  (length (candidate_text f prio ip port type) < ICE_CANDIDATE_STR_SIZE)%nat.
Proof.
  intros Hf Hprio Hport Hip Hk. pose proof (kind_length type Hk) as Ht. pose proof (related_length ip) as Hrel.
  assert (length (dec f) <= 5)%nat as Hdf by (apply dec_length; [lia|]; change (10 ^ Z.of_nat 5) with 100000; unfold is_u16 in Hf; lia).
  assert (length (dec port) <= 5)%nat as Hdp by (apply dec_length; [lia|]; change (10 ^ Z.of_nat 5) with 100000; unfold is_u16 in Hport; lia).
  assert (length (dec prio) <= 10)%nat as Hdq by (apply dec_length; [lia|]; change (10 ^ Z.of_nat 10) with 10000000000; unfold is_u32 in Hprio; lia).
  assert (length (lit "candidate:") = 10 /\ length (lit " 1 UDP ") = 7 /\ length (lit " typ ") = 5)%nat as (L1 & L2 & L3) by (by vm_compute).
  assert (length (related_text ip type) <= 22)%nat by (unfold related_text; destruct (_ && _); cbn [length]; lia).
  unfold candidate_text. rewrite !length_app, L1, L2, L3. unfold NANORTC_IPV6_STR_SIZE, ICE_CANDIDATE_STR_SIZE in *. cbn [length]. lia.
Qed.
(** One step of the builder. *)
Ltac put := first [eapply append_step | eapply append_u32_step]; [eassumption | first [assumption | cbn [length app]; rewrite ?length_app; cbn [length]; lia] .. | let b := fresh "b" in let p := fresh "p" in let H := fresh "Hw" in intros [b p] H; cbv beta iota].
Lemma build_candidate_spec buf f prio ip port type : length buf = ICE_CANDIDATE_STR_SIZE -> is_u16 f -> is_u32 prio -> is_u16 port -> (length ip < NANORTC_IPV6_STR_SIZE)%nat -> candidate_kind type ->
  leaves ICE_CANDIDATE_STR_SIZE (candidate_text f prio ip port type) (nano_rtc_build_candidate_str buf f prio ip port type).
Proof.
  intros Hb Hf Hprio Hport Hip Hk. pose proof (candidate_text_length f prio ip port type Hf Hprio Hport Hip Hk) as HT. unfold candidate_text in HT. rewrite !length_app in HT.
  assert (is_u32 f /\ is_u32 port) as [Hf32 Hp32] by (unfold is_u16 in *; unfold is_u32; lia).
  assert (written ICE_CANDIDATE_STR_SIZE [] (buf, 0%nat)) as Hw by (by exists buf).
  assert (forall text buf pos, written ICE_CANDIDATE_STR_SIZE text (buf, pos) -> text ++ related_text ip type = candidate_text f prio ip port type ->
    leaves ICE_CANDIDATE_STR_SIZE (candidate_text f prio ip port type)
      ('(buf, pos) ← (if (length type =? 5)%nat && (bool_decide (type = lit "srflx") || bool_decide (type = lit "relay")) then
                   if has_colon ip then cand_append buf pos (lit " raddr :: rport 9") else cand_append buf pos (lit " raddr 0.0.0.0 rport 9")
                 else Ok (buf, pos)); buf ← wr buf pos [0]; Ok (buf, pos))) as Hlast.
  { intros text b p Hwt E. pose proof (candidate_text_length f prio ip port type Hf Hprio Hport Hip Hk) as HTl. rewrite <- E in *. clear E. unfold related_text, related in *. rewrite length_app in HTl.
    destruct (_ && _); [destruct (has_colon ip)|].
    - eapply append_step; [exact Hwt | lia|]. intros [b1 p1] Hw1. apply end_step; [done | rewrite length_app; lia].
    - eapply append_step; [exact Hwt | lia|]. intros [b1 p1] Hw1. apply end_step; [done | rewrite length_app; lia].
    - rewrite bind_Ok, app_nil_r. cbn [length] in HTl. apply end_step; [done | lia]. }
  unfold nano_rtc_build_candidate_str. cbn [length app] in HT.
  do 10 put. apply (Hlast _ _ _ ltac:(eassumption)). unfold candidate_text. cbn [app]. by rewrite <- !app_assoc.
Qed.

(** * Reading it back *)

Definition kind_code (type : list Z) : Z :=
  if bool_decide (type = lit "srflx") then NANORTC_ICE_CAND_SRFLX else if bool_decide (type = lit "relay") then NANORTC_ICE_CAND_RELAY else NANORTC_ICE_CAND_HOST.
Lemma read_kind ip type : candidate_kind type -> let p := lit " typ " ++ type ++ related_text ip type in find_typ (length p) p = Ok (kind_code type).
Proof.
  intros Hk p. unfold p, related_text, related. destruct Hk as [->|[->| ->]]; [by vm_compute|..]; (match goal with |- context [if ?b then _ else _] => change b with true end; cbv iota; destruct (has_colon ip); by vm_compute).
Qed.
Lemma fields_of_text f prio ip port type : 0 <= f -> 0 <= prio -> is_u16 port -> 0 < port -> token ip -> candidate_kind type ->
  candidate_fields (candidate_text f prio ip port type) = Ok (ip, port, kind_code type).
Proof.
  intros Hf Hprio Hport Hpos Hip Hk. unfold candidate_fields, candidate_text. change (line_starts_with (lit "candidate:" ++ _) (lit "candidate:")) with true. cbv iota.
  change 10%nat with (length (lit "candidate:")). rewrite drop_app_length.
  assert (token (lit "1") /\ token (lit "UDP")) as [T1 T2] by (split; (split; [done|]; by repeat (apply List.Forall_cons; [done|]))).
  change (lit " 1 UDP ") with (32 :: lit "1" ++ 32 :: lit "UDP" ++ [32]).
  rewrite (next_token_app (dec f)) by first [by apply dec_token | done]. cbn [need]. rewrite bind_Ok. cbv beta iota.
  rewrite <- !app_comm_cons, <- !app_assoc, <- !app_comm_cons, <- !app_assoc. cbn [app].
  rewrite (next_token_space (lit "1")) by done. cbn [need]. rewrite bind_Ok. cbv beta iota.
  rewrite (next_token_space (lit "UDP")) by done. cbn [need]. rewrite bind_Ok. cbv beta iota.
  rewrite (next_token_space (dec prio)) by first [by apply dec_token | done]. cbn [need]. rewrite bind_Ok. cbv beta iota.
  rewrite (next_token_space ip) by done. cbn [need]. rewrite bind_Ok. cbv beta iota.
  rewrite (next_token_space (dec port)) by first [apply dec_token; lia | done]. cbn [need]. rewrite bind_Ok. cbv beta iota.
  change (candidate_token_u32 (lit "1")) with (Some 1). cbn [need]. rewrite bind_Ok, port_of_dec, bind_Ok by done.
  change (negb (1 =? 1) || negb (candidate_token_eq_ci (lit "UDP") (lit "udp"))) with false. cbv iota.
  pose proof (read_kind ip type Hk) as Hr. cbv zeta in Hr. by rewrite Hr, bind_Ok.
Qed.
(** The short form, of which an SDP's candidates are told. *)
Lemma fields_of_short ip port : is_u16 port -> 0 < port -> token ip -> line_starts_with (ip ++ [32] ++ dec port) (lit "candidate:") = false ->
  candidate_fields (ip ++ [32] ++ dec port) = Ok (ip, port, NANORTC_ICE_CAND_HOST).
Proof.
  intros Hport Hpos Hip Hno. unfold candidate_fields. rewrite Hno. rewrite (next_token_app ip) by done. cbn [need]. rewrite bind_Ok. cbv beta iota. cbn [app].
  replace (32 :: dec port) with (32 :: dec port ++ []) by (by rewrite app_nil_r). rewrite (next_token_space (dec port)) by first [apply dec_token; lia | done]. cbn [need]. rewrite bind_Ok. cbv beta iota.
  by rewrite port_of_dec, bind_Ok.
Qed.

(** * The candidate table *)

Definition table (ice : nano_ice) : list ice_candidate := take (ic_remote_count ice) (ic_remotes ice).
Record table_ok (ice : nano_ice) : Prop := { tb_length : length (ic_remotes ice) = NANORTC_MAX_ICE_CANDIDATES; tb_count : (ic_remote_count ice <= NANORTC_MAX_ICE_CANDIDATES)%nat }.
(** The agent can check [addr] of [family] and [port]. *)
Definition knows (ice : nano_ice) (addr : list Z) (family port : Z) : Prop := Exists (fun c => same_candidate c addr family port = true) (table ice).
Lemma find_candidate_spec k cs : forall i addr family port, (i + k <= length cs)%nat ->
  match find_candidate k cs i addr family port with
  | Ok (Some (j, c)) => (i <= j < i + k)%nat /\ cs !! j = Some c /\ same_candidate c addr family port = true
  | Ok None => Forall (fun c => same_candidate c addr family port = false) (take k (drop i cs))
  | _ => False
  end.
Proof.
  induction k as [|k IH]; intros i addr family port Hi; cbn [find_candidate]; [by rewrite take_0|]. destruct (lookup_lt_is_Some_2 cs i) as [c Hc]; [lia|]. rewrite Hc.
  destruct (same_candidate c addr family port) eqn:E; [by split_and!; try lia|]. specialize (IH (S i) addr family port ltac:(lia)).
  destruct (find_candidate k cs (S i) addr family port) as [[[j d]|]| |]; [destruct IH as (? & ? & ?); by split_and!; try lia | | done | done].
  rewrite (drop_S _ c) by done. rewrite firstn_cons. by constructor.
Qed.
Definition same_place (c d : ice_candidate) : Prop := ca_addr c = ca_addr d /\ ca_port c = ca_port d /\ ca_family c = ca_family d /\ ca_type c <= ca_type d.
Lemma same_place_same c d addr family port : same_place c d -> same_candidate d addr family port = same_candidate c addr family port.
Proof. intros (H1 & H2 & H3 & _). unfold same_candidate. by rewrite H1, H2, H3. Qed.
(** What one candidate does to the table: it is known, with its type, and the
    others are as they were; or the table is full of others. *)
Definition added (ice ice' : nano_ice) (addr : list Z) (family port type : Z) : Prop :=
  Exists (fun c => same_candidate c addr family port = true /\ type <= ca_type c) (table ice') /\
  (exists old new, table ice' = old ++ new /\ Forall2 same_place (table ice) old /\ (length new <= 1)%nat) /\ table_ok ice'.
Lemma same_candidate_new addr family port type : length addr = NANORTC_ADDR_SIZE ->
  same_candidate (Cand (take (addr_bytes family) addr ++ replicate (NANORTC_ADDR_SIZE - addr_bytes family) 0) port family type) addr family port = true.
Proof.
  intros Hl. unfold same_candidate. cbn [ca_addr ca_port ca_family]. rewrite !Z.eqb_refl. cbn [andb]. apply bool_decide_eq_true.
  rewrite take_app_le; [rewrite take_take; by rewrite Nat.min_id|]. rewrite length_take, Hl. unfold addr_bytes, NANORTC_ADDR_SIZE. destruct (_ =? _); cbn; lia.
Qed.
Lemma Forall2_same_place cs : Forall2 same_place cs cs.
Proof. apply Forall2_same_length_lookup_2; [done|]. intros i x y Hx Hy. rewrite Hx in Hy. injection Hy as ->. by repeat split. Qed.
Lemma Exists_at {A} (P : A -> Prop) (l : list A) i x : l !! i = Some x -> P x -> Exists P l.
Proof. intros Hi Hx. apply Exists_exists. exists x. split; [by apply list_elem_of_In, list_elem_of_lookup_2 with i | done]. Qed.
Lemma add_fields ice str ip port type addr family : table_ok ice -> candidate_fields str = Ok (ip, port, type) -> 0 < port -> ip <> [] -> (length ip < NANORTC_IPV6_STR_SIZE)%nat ->
  addr_parse_auto ip = Ok (addr, family) -> length addr = NANORTC_ADDR_SIZE ->
  (exists ice', nanortc_add_remote_candidate ice str = Ok ice' /\ added ice ice' addr family port type) \/
  (nanortc_add_remote_candidate ice str = Err NANORTC_ERR_BUFFER_TOO_SMALL /\ ic_remote_count ice = NANORTC_MAX_ICE_CANDIDATES /\ ~ knows ice addr family port).
Proof.
  intros [Hl Hc] Hf Hp Hn Hip Ha Hal. unfold nanortc_add_remote_candidate. rewrite Hf, bind_Ok. cbv beta iota. destruct ip as [|x ip]; [done|]. change (length (x :: ip) =? 0)%nat with false.
  rewrite (proj2 (Nat.leb_gt _ _)), (proj2 (Z.eqb_neq _ _)) by lia. cbn [orb]. rewrite Ha, bind_Ok. cbv beta iota.
  pose proof (find_candidate_spec (ic_remote_count ice) (ic_remotes ice) 0 addr family port ltac:(lia)) as Hs.
  destruct (find_candidate _ _ _ _ _ _) as [[[j c]|]| |]; [| |done|done]; rewrite bind_Ok.
  - destruct Hs as (Hj & Hlk & Hsame). left. eexists. split; [reflexivity|]. set (d := Cand (ca_addr c) (ca_port c) (ca_family c) type). destruct (Z.ltb_spec (ca_type c) type) as [Hlt|Hge].
    + assert (table (with_remotes ice (<[j := d]> (ic_remotes ice)) (ic_remote_count ice)) = <[j := d]> (table ice)) as Ht by (unfold table; cbn [ic_remote_count ic_remotes with_remotes]; by rewrite take_insert_lt by lia).
      split; [|split].
      * rewrite Ht. apply (Exists_at _ _ j d); [|split; [exact Hsame | done]]. apply list_lookup_insert_eq. unfold table. rewrite length_take. lia.
      * exists (<[j := d]> (table ice)), []. rewrite Ht, app_nil_r. split; [done|]. split; [|cbn; lia].
        apply Forall2_same_length_lookup_2; [by rewrite length_insert|]. intros i a b Ha1 Hb1. destruct (decide (i = j)) as [->|Hne].
        -- rewrite list_lookup_insert_eq in Hb1 by (by eapply lookup_lt_Some). injection Hb1 as <-. unfold table in Ha1. rewrite lookup_take_lt in Ha1 by lia. rewrite Hlk in Ha1. injection Ha1 as <-. split; [done|]. split; [done|]. split; [done | cbn; lia].
        -- rewrite list_lookup_insert_ne in Hb1 by done. rewrite Ha1 in Hb1. injection Hb1 as ->. by repeat split.
      * constructor; cbn; [by rewrite length_insert | done].
    + split; [|split; [|done]].
      * apply (Exists_at _ _ j c); [|done]. unfold table. by rewrite lookup_take_lt by lia.
      * exists (table ice), []. rewrite app_nil_r. split; [done|]. split; [apply Forall2_same_place | cbn; lia].
  - rewrite drop_0 in Hs. destruct (Nat.leb_spec NANORTC_MAX_ICE_CANDIDATES (ic_remote_count ice)) as [Hfull|Hroom].
    + right. split; [done|]. split; [lia|]. unfold knows, table. intros Hk. apply Exists_exists in Hk as (c & Hin & Hsame). pose proof (proj1 (List.Forall_forall _ _) Hs c) as Hx. cbv beta in Hx.
      rewrite Hx in Hsame; [done|]. first [exact Hin | by apply list_elem_of_In].
    + left. destruct (lookup_lt_is_Some_2 (ic_remotes ice) (ic_remote_count ice)) as [z Hz]; [lia|]. rewrite Hz. eexists. split; [reflexivity|]. set (d := Cand (take _ addr ++ _) port family type).
      assert (table (with_remotes ice (<[ic_remote_count ice := d]> (ic_remotes ice)) (S (ic_remote_count ice))) = table ice ++ [d]) as Ht.
      { unfold table. cbn [ic_remote_count ic_remotes with_remotes]. rewrite (take_S_r _ _ d) by (apply list_lookup_insert_eq; lia). by rewrite take_insert_ge by lia. }
      split; [|split].
      * rewrite Ht. apply Exists_app. right. left. split; [by apply same_candidate_new | done].
      * exists (table ice), [d]. split; [exact Ht|]. split; [apply Forall2_same_place | cbn; lia].
      * constructor; cbn; [by rewrite length_insert | lia].
Qed.
Lemma group_octets_length gs : length (concat (map group_octets gs)) = (2 * length gs)%nat.
Proof. induction gs as [|g gs IH]; [done|]. cbn [map concat]. rewrite length_app, IH. cbn [length group_octets]. lia. Qed.
Lemma expand_length groups d out : expand_ipv6 groups d = Ok out -> length out = 16%nat.
Proof.
  unfold expand_ipv6, IPV6_MAX_GROUPS. destruct d as [d|].
  - destruct (Nat.ltb_spec 8 (length groups)); [done|]. cbv zeta. intros [= <-]. rewrite !length_app, length_replicate, !group_octets_length, length_take, length_drop. lia.
  - destruct (Nat.eqb_spec (length groups) 8) as [E|]; [|done]. intros [= <-]. rewrite group_octets_length, E. done.
Qed.
Lemma parse_auto_length str addr family : addr_parse_auto str = Ok (addr, family) -> length addr = NANORTC_ADDR_SIZE.
Proof.
  unfold addr_parse_auto. destruct str as [|c str]; [done|]. destruct (existsb _ _).
  - destruct (addr_parse_ipv6 _) as [out| |] eqn:E; [|done..]. rewrite bind_Ok. intros [= <- <-]. unfold addr_parse_ipv6 in E.
    destruct (match str with c1 :: rest => _ | [] => _ end) as [[d|] r].
    + destruct r; [by injection E as <-|]. destruct (parse_ipv6_loop _ _ _ _) as [[gs d']| |]; [|done..]. rewrite bind_Ok in E. by apply expand_length in E.
    + destruct (parse_ipv6_loop _ _ _ _) as [[gs d']| |]; [|done..]. rewrite bind_Ok in E. by apply expand_length in E.
  - destruct (addr_parse_ipv4 _) as [out| |] eqn:E; [|done..]. rewrite bind_Ok. intros [= <- <-]. apply addr_parse_ipv4_iff in E as (_ & segs & Hn & _ & _ & ->). by rewrite length_app, length_map, Hn.
Qed.

(** * Trickling *)

(** The candidates of which the application has not been told, in order. *)
Definition waiting (t : trickle) (l : sdp_local) : list (list Z * Z * list Z) :=
  concat (zip_with (fun (b : bool) c => if b then [(text_of (sc_addr c), sc_port c, lit "host")] else []) (take (ls_candidate_count l) (tk_host t)) (take (ls_candidate_count l) (ls_candidates l))) ++
  (if tk_srflx t then [(text_of (Sdp.se_ip (ls_srflx l)), Sdp.se_port (ls_srflx l), lit "srflx")] else []) ++
  (if tk_relay t then [(text_of (Sdp.se_ip (ls_relay l)), Sdp.se_port (ls_relay l), lit "relay")] else []).
(** An address buffer whose text a peer can read. *)
Definition tellable (b : list Z) (port : Z) : Prop :=
  length b = NANORTC_IPV6_STR_SIZE /\ terminated b /\ token (text_of b) /\ is_u16 port /\ 0 < port /\ exists addr family, addr_parse_auto (text_of b) = Ok (addr, family).
Record trickle_ok (t : trickle) (l : sdp_local) : Prop := {
  tr_flags : (ls_candidate_count l <= length (tk_host t))%nat;
  tr_count : (ls_candidate_count l <= length (ls_candidates l))%nat;
  tr_hosts : forall i c, (i < ls_candidate_count l)%nat -> ls_candidates l !! i = Some c -> tk_host t !! i = Some true -> tellable (sc_addr c) (sc_port c);
  tr_srflx : tk_srflx t = true -> tellable (Sdp.se_ip (ls_srflx l)) (Sdp.se_port (ls_srflx l));
  tr_relay : tk_relay t = true -> tellable (Sdp.se_ip (ls_relay l)) (Sdp.se_port (ls_relay l));
  tr_str : length (tk_str t) = ICE_CANDIDATE_STR_SIZE
}.
Definition host_waits (flags : list bool) (cs : list sdp_candidate) : list (list Z * Z * list Z) :=
  concat (zip_with (fun (b : bool) c => if b then [(text_of (sc_addr c), sc_port c, lit "host")] else []) flags cs).
Lemma pending_host_spec k flags cs : forall i, (i + k <= length flags)%nat -> (i + k <= length cs)%nat ->
  match pending_host k flags cs i with
  | Ok None => host_waits (take k (drop i flags)) (take k (drop i cs)) = []
  | Ok (Some (j, c)) => (i <= j < i + k)%nat /\ cs !! j = Some c /\ flags !! j = Some true /\
      host_waits (take k (drop i flags)) (take k (drop i cs)) = (text_of (sc_addr c), sc_port c, lit "host") :: host_waits (take k (drop i (<[j := false]> flags))) (take k (drop i cs))
  | _ => False
  end.
Proof.
  induction k as [|k IH]; intros i Hf Hc; cbn [pending_host]; [by rewrite !take_0|].
  destruct (lookup_lt_is_Some_2 flags i) as [b Hb]; [lia|]. destruct (lookup_lt_is_Some_2 cs i) as [c Hlk]; [lia|]. rewrite Hb, Hlk. rewrite (drop_S flags b), (drop_S cs c) by done. rewrite !firstn_cons.
  destruct b.
  - split; [lia|]. split; [done|]. split; [done|]. rewrite (drop_S (<[i:=false]> flags) false) by (apply list_lookup_insert_eq; lia). rewrite firstn_cons. unfold host_waits. cbn [zip_with concat app]. by rewrite drop_insert_lt by lia.
  - specialize (IH (S i) ltac:(lia) ltac:(lia)). destruct (pending_host k flags cs (S i)) as [[[j d]|]| |]; [|exact IH | done | done].
    destruct IH as (Hj & Hd & Ht & E). split; [lia|]. split; [done|]. split; [done|]. rewrite (drop_S (<[j:=false]> flags) false) by (by rewrite list_lookup_insert_ne by lia). rewrite firstn_cons. unfold host_waits in *. cbn [zip_with concat app]. exact E.
Qed.
(** One poll: nothing to tell, or the first waiting candidate. *)
Lemma strnlen_text b : length b = NANORTC_IPV6_STR_SIZE -> terminated b -> nanortc_strnlen b NANORTC_IPV6_STR_SIZE = Ok (length (text_of b)) /\ rdn b 0 (length (text_of b)) = Ok (text_of b) /\ (length (text_of b) < NANORTC_IPV6_STR_SIZE)%nat.
Proof.
  intros Hl Ht. destruct (c_string_split _ _ Ht) as (r & Hb & Hn). set (s := text_of b) in *. assert (length s + S (length r) = NANORTC_IPV6_STR_SIZE)%nat as Hlen by (rewrite Hb, length_app in Hl; exact Hl).
  rewrite Hb. split; [|split; [by apply rdn_front | lia]]. unfold nanortc_strnlen. apply (strnlen_loop_app s r NANORTC_IPV6_STR_SIZE 0 []); cbn [length]; first [done | lia].
Qed.
Definition nonzero (s : list Z) : Prop := Forall (fun c => c <> 0) s.
Lemma nonzero_lit s : forallb (fun c => negb (c =? 0)) s = true -> nonzero s.
Proof. intros H. apply List.Forall_forall. intros c Hc. pose proof (proj1 (forallb_forall _ _) H c Hc) as E. cbv beta in E. by apply negb_true_iff, Z.eqb_neq in E. Qed.
Lemma nonzero_app a b : nonzero a -> nonzero b -> nonzero (a ++ b).
Proof. apply Forall_app_2. Qed.
Lemma nonzero_dec v : 0 <= v -> nonzero (dec v).
Proof. intros Hv. eapply List.Forall_impl; [|by apply dec_digits]. intros c Hc ->. done. Qed.
Lemma candidate_text_nonzero f prio ip port type : 0 <= f -> 0 <= prio -> 0 <= port -> nonzero ip -> candidate_kind type -> nonzero (candidate_text f prio ip port type).
Proof.
  intros Hf Hq Hp Hip Hk. unfold candidate_text. repeat apply nonzero_app; try (by apply nonzero_dec); try assumption; try (apply nonzero_lit; vm_compute; reflexivity).
  - destruct Hk as [->|[->| ->]]; apply nonzero_lit; vm_compute; reflexivity.
  - unfold related_text, related. destruct (_ && _); [|constructor]. destruct (has_colon ip); apply nonzero_lit; vm_compute; reflexivity.
Qed.
Lemma produce_spec t l : trickle_ok t l ->
  match waiting t l with
  | [] => nano_rtc_candidate_produce t l = Ok None
  | (ip, port, type) :: ws =>
      exists t' f prio, nano_rtc_candidate_produce t l = Ok (Some (t', length (candidate_text f prio ip port type))) /\ 0 <= f /\ 0 <= prio /\
        c_string (tk_str t') = Ok (candidate_text f prio ip port type) /\ candidate_kind type /\ (exists b, text_of b = ip /\ tellable b port) /\ waiting t' l = ws /\ trickle_ok t' l
  end.
Proof.
  intros Hok. pose proof Hok as [H1 H2 H3 H4 H5 H6]. unfold nano_rtc_candidate_produce, choose_candidate.
  pose proof (pending_host_spec (ls_candidate_count l) (tk_host t) (ls_candidates l) 0 H1 H2) as Hp. rewrite !drop_0 in Hp. unfold waiting.
  assert (forall b port f prio type (t0 : trickle), tk_str t0 = tk_str t -> tellable b port -> candidate_kind type -> is_u16 f -> is_u32 prio ->
    exists str, (len ← nanortc_strnlen b NANORTC_IPV6_STR_SIZE; ip ← rdn b 0 len; '(str, n) ← nano_rtc_build_candidate_str (tk_str t0) f prio ip port type;
       Ok (Some (Trickle (tk_host t0) (tk_srflx t0) (tk_relay t0) str, n))) = Ok (Some (Trickle (tk_host t0) (tk_srflx t0) (tk_relay t0) str, length (candidate_text f prio (text_of b) port type))) /\
      c_string str = Ok (candidate_text f prio (text_of b) port type) /\ length str = ICE_CANDIDATE_STR_SIZE) as Hbuild.
  { intros b port f prio type t0 E (Hl & Ht & Htok & Hport & Hpos & _) Hk Hf Hprio. destruct (strnlen_text b Hl Ht) as (-> & Hrd & Hlt). rewrite bind_Ok, Hrd, bind_Ok, E.
    destruct (build_candidate_spec (tk_str t) f prio (text_of b) port type H6 Hf Hprio Hport Hlt Hk) as (rest & -> & Hlen). rewrite bind_Ok. eexists. split; [reflexivity|]. split; [|done].
    apply c_string_app, candidate_text_nonzero; [apply Hf | apply Hprio | lia | apply text_of_nonzero | done]. }
  destruct (pending_host _ _ _ _) as [[[j c]|]| |]; [| |done|done]; rewrite bind_Ok.
  - destruct Hp as (Hj & Hlk & Hflag & Hw). unfold host_waits in Hw. rewrite Hw. cbn [app]. rewrite bind_Ok. cbn [cn_ip cn_port cn_foundation cn_priority cn_type]. cbv beta iota.
    pose proof (H3 j c ltac:(lia) Hlk Hflag) as Htell.
    destruct (Hbuild (sc_addr c) (sc_port c) (u16 (Z.of_nat j + 1)) (ICE_HOST_PRIORITY (Z.of_nat j)) (lit "host") (Trickle (<[j:=false]> (tk_host t)) (tk_srflx t) (tk_relay t) (tk_str t))) as (str & -> & Hs & Hsl);
      [done | done | by left | apply u16_range | apply type_priority_u32|].
    eexists _, _, _. split; [reflexivity|]. split; [apply u16_nonneg|]. split; [apply type_priority_nonneg|]. split; [exact Hs|]. split; [by left|]. split; [by exists (sc_addr c)|]. split; [done|].
    constructor; cbn [tk_host tk_srflx tk_relay tk_str]; [by rewrite length_insert | done | | done | done | done].
    intros i d Hi Hd Hfl. destruct (decide (i = j)) as [->|Hne]; [rewrite list_lookup_insert_eq in Hfl by lia; done|]. rewrite list_lookup_insert_ne in Hfl by done. by apply H3 with i.
  - unfold host_waits in Hp. rewrite Hp. cbn [app]. destruct (tk_srflx t) eqn:Es; cbn [app]; [|destruct (tk_relay t) eqn:Er; [|by rewrite bind_Ok]].
    + rewrite bind_Ok. cbn [cn_ip cn_port cn_foundation cn_priority cn_type]. cbv beta iota.
      destruct (Hbuild (Sdp.se_ip (ls_srflx l)) (Sdp.se_port (ls_srflx l)) 3 1090519295 (lit "srflx") (Trickle (tk_host t) false (tk_relay t) (tk_str t))) as (str & -> & Hs & Hsl);
        [done | by apply H4 | right; by left | done | done|].
      eexists _, _, _. split; [reflexivity|]. split; [done|]. split; [done|]. split; [exact Hs|]. split; [right; by left|]. split; [exists (Sdp.se_ip (ls_srflx l)); split; [done | by apply H4]|].
      split; [cbn [tk_host tk_srflx tk_relay]; by rewrite Hp|]. by constructor.
    + rewrite bind_Ok. cbn [cn_ip cn_port cn_foundation cn_priority cn_type]. cbv beta iota.
      destruct (Hbuild (Sdp.se_ip (ls_relay l)) (Sdp.se_port (ls_relay l)) 2 16777215 (lit "relay") (Trickle (tk_host t) false false (tk_str t))) as (str & -> & Hs & Hsl);
        [done | by apply H5 | right; by right | done | done|].
      eexists _, _, _. split; [reflexivity|]. split; [done|]. split; [done|]. split; [exact Hs|]. split; [right; by right|]. split; [exists (Sdp.se_ip (ls_relay l)); split; [done | by apply H5]|].
      split; [cbn [tk_host tk_srflx tk_relay]; by rewrite Hp|]. by constructor.
Qed.
(** The application polls until there is nothing to tell, and hands each string
    to the peer. *)
Fixpoint trickle_all (fuel : nat) (t : trickle) (l : sdp_local) (peer : nano_ice) : res (trickle * nano_ice) :=
  match fuel with
  | O => Fault
  | S fuel =>
      told ← nano_rtc_candidate_produce t l;
      match told with
      | None => Ok (t, peer)
      | Some (t, _) => str ← c_string (tk_str t); peer ← add_ignoring peer str; trickle_all fuel t l peer
      end
  end.
(** The peer's table has the candidate, of this type or a later one. *)
Definition told (ice : nano_ice) (w : list Z * Z * list Z) : Prop :=
  let '(ip, port, type) := w in
  exists addr family, addr_parse_auto ip = Ok (addr, family) /\ Exists (fun c => same_candidate c addr family port = true /\ kind_code type <= ca_type c) (table ice).
Lemma Exists_grow ice ice' addr family port type : (exists old new, table ice' = old ++ new /\ Forall2 same_place (table ice) old /\ (length new <= 1)%nat) ->
  Exists (fun c => same_candidate c addr family port = true /\ type <= ca_type c) (table ice) -> Exists (fun c => same_candidate c addr family port = true /\ type <= ca_type c) (table ice').
Proof.
  intros (old & new & -> & H2 & _) He. apply Exists_app. left. induction H2 as [|c d cs ds Hcd _ IH]; [by inversion He|]. apply Exists_cons in He as [[Hs Ht]|He].
  - left. split; [by rewrite (same_place_same c d)|]. destruct Hcd as (_ & _ & _ & Hle). lia.
  - right. by apply IH.
Qed.
Lemma table_length ice : table_ok ice -> length (table ice) = ic_remote_count ice.
Proof. intros [Hl Hc]. unfold table. rewrite length_take. lia. Qed.
Lemma grow_count ice ice' : table_ok ice -> table_ok ice' -> (exists old new, table ice' = old ++ new /\ Forall2 same_place (table ice) old /\ (length new <= 1)%nat) -> (ic_remote_count ice' <= S (ic_remote_count ice))%nat.
Proof. intros H H' (old & new & E & H2 & Hn). rewrite <- (table_length ice'), <- (table_length ice), E, length_app by done. apply Forall2_length in H2. lia. Qed.
Lemma trickle_told l : forall n t ice, n = length (waiting t l) -> trickle_ok t l -> table_ok ice -> (ic_remote_count ice + length (waiting t l) <= NANORTC_MAX_ICE_CANDIDATES)%nat ->
  exists t' ice', trickle_all (S n) t l ice = Ok (t', ice') /\ waiting t' l = [] /\ trickle_ok t' l /\ table_ok ice' /\ Forall (told ice') (waiting t l) /\ forall w, told ice w -> told ice' w.
Proof.
  induction n as [|n IH]; intros t ice Hn Ht Hice Hroom; pose proof (produce_spec t l Ht) as Hp; cbn [trickle_all]; destruct (waiting t l) as [|[[ip port] type] ws] eqn:Hw; try done.
  - exists t, ice. rewrite Hp, bind_Ok. split; [done|]. split; [done|]. split; [done|]. split; [done|]. split; [constructor | done].
  - destruct Hp as (t1 & f & prio & -> & Hf & Hq & Hstr & Hk & (b & Hip & Hb) & Hws & Ht1). rewrite bind_Ok. cbv beta iota. rewrite Hstr, bind_Ok. subst ip.
    destruct Hb as (Hbl & Hbt & Htok & Hport & Hpos & addr & family & Ha). injection Hn as Hn. cbn [length] in Hroom. destruct (strnlen_text b Hbl Hbt) as (_ & _ & Hlt).
    destruct (add_fields ice (candidate_text f prio (text_of b) port type) (text_of b) port (kind_code type) addr family) as [(ice1 & Hadd & Hin & Hgrow & Hok)|(_ & Hfull & _)];
      [done | by apply fields_of_text | done | apply Htok | done | done | by eapply parse_auto_length | | lia].
    unfold add_ignoring. rewrite Hadd, bind_Ok. destruct (IH t1 ice1) as (t2 & ice2 & Hrun & Hnone & Ht2 & Hok2 & Htold & Hmono); [by rewrite Hws | done | done | rewrite Hws; pose proof (grow_count ice ice1 Hice Hok Hgrow); lia|].
    exists t2, ice2. split; [exact Hrun|]. split; [done|]. split; [done|]. split; [done|]. rewrite Hws in Htold. split.
    + constructor; [|exact Htold]. apply Hmono. by exists addr, family.
    + intros [[ip p] k] (a & fa & Hpa & He). apply Hmono. exists a, fa. split; [done|]. by eapply Exists_grow.
Qed.

(** C20: Polling tells the application each waiting candidate once and then says
    there is none, in as many polls as candidates and one; every string is one
    the peer's [nanortc_add_remote_candidate] takes, so that the peer's table
    ends up with every candidate's address, family and port under its type, or a
    type of higher code where it knew the address already, keeping those it had. *)
Theorem candidate_trickle t l ice (Ht : trickle_ok t l) (Hice : table_ok ice) (Hroom : (ic_remote_count ice + length (waiting t l) <= NANORTC_MAX_ICE_CANDIDATES)%nat) :
  exists t' ice', trickle_all (S (length (waiting t l))) t l ice = Ok (t', ice') /\ nano_rtc_candidate_produce t' l = Ok None /\
    table_ok ice' /\ Forall (told ice') (waiting t l) /\ forall w, told ice w -> told ice' w.
Proof.
  destruct (trickle_told l _ t ice eq_refl Ht Hice Hroom) as (t' & ice' & Hrun & Hnone & Ht' & Hok & H & Hmono). exists t', ice'. split; [exact Hrun|]. split; [|done].
  pose proof (produce_spec t' l Ht') as Hp. by rewrite Hnone in Hp.
Qed.
Definition demo_trickle : trickle := Trickle [true; false; false; false] true true (replicate ICE_CANDIDATE_STR_SIZE 0).
Definition demo_sender : sdp_local :=
  Local (text_array (lit "abcd1234") SDP_LOCAL_UFRAG_SIZE) (text_array (lit "0123456789012345678901") SDP_LOCAL_PWD_SIZE)
    (text_array (lit "sha-256 AB:CD:EF") NANORTC_SDP_FINGERPRINT_SIZE) 5000 NANORTC_SDP_SETUP_ACTPASS
    (Candidate (text_array (lit "192.168.1.2") NANORTC_IPV6_STR_SIZE) 9999 :: replicate 3 sdp_candidate_zero) 1
    (Extra (text_array (lit "203.0.113.7") NANORTC_IPV6_STR_SIZE) 40000 true) (Extra (text_array (lit "2001:db8::7") NANORTC_IPV6_STR_SIZE) 50000 true).
Lemma tellable_check b port addr family : (length b =? NANORTC_IPV6_STR_SIZE)%nat = true -> (match c_string b with Ok _ => true | _ => false end) = true ->
  (negb (length (text_of b) =? 0)%nat && forallb (fun c => negb (candidate_is_space c)) (text_of b)) = true -> ((0 <? port) && (port <? 65536)) = true ->
  addr_parse_auto (text_of b) = Ok (addr, family) -> tellable b port.
Proof.
  intros H1%Nat.eqb_eq H2 [H3 H4]%andb_true_iff [H5%Z.ltb_lt H6%Z.ltb_lt]%andb_true_iff Ha. split; [done|]. split; [unfold terminated, text_of; by destruct (c_string b)|].
  split; [split; [by destruct (text_of b) | apply List.Forall_forall; intros c Hc; apply negb_true_iff; exact (proj1 (forallb_forall _ _) H4 c Hc)]|]. split; [unfold is_u16; lia|]. split; [done|]. by exists addr, family.
Qed.
Lemma demo_trickle_ok : trickle_ok demo_trickle demo_sender.
Proof.
  constructor; [cbn; lia | cbn; lia | | intros _; eapply tellable_check; vm_compute; reflexivity | intros _; eapply tellable_check; vm_compute; reflexivity | reflexivity].
  intros [|i] c Hi Hc _; [|cbn in Hi; lia]. injection Hc as <-. eapply tellable_check; vm_compute; reflexivity.
Qed.
Lemma fresh_table_ok b : table_ok (ice_init b).
Proof. constructor; cbn; [done | lia]. Qed.
Lemma candidate_trickle_witness : length (waiting demo_trickle demo_sender) = 3%nat /\
  exists t' ice', trickle_all 4 demo_trickle demo_sender (ice_init true) = Ok (t', ice') /\ nano_rtc_candidate_produce t' demo_sender = Ok None /\
    table_ok ice' /\ Forall (told ice') (waiting demo_trickle demo_sender) /\ forall w, told (ice_init true) w -> told ice' w.
Proof.
  assert (length (waiting demo_trickle demo_sender) = 3%nat) as E by (vm_compute; reflexivity). split; [exact E|].
  pose proof (candidate_trickle demo_trickle demo_sender (ice_init true) demo_trickle_ok (fresh_table_ok true) ltac:(rewrite E; apply Nat.leb_le; reflexivity)) as H. rewrite E in H. exact H.
Defined.

(** * Candidates of an SDP *)

Lemma starts_split l p : line_starts_with l p = true -> exists x, l = p ++ x.
Proof.
  revert l. induction p as [|c p IH]; intros l H; [by exists l|]. destruct l as [|d l]; [done|]. cbn [line_starts_with] in H. apply andb_true_iff in H as [->%Z.eqb_eq H].
  destruct (IH l H) as (x & ->). by exists x.
Qed.
Lemma no_address_prefix x : addr_parse_auto (lit "candidate:" ++ x) = Err ADDR_ERR_PARSE.
Proof. reflexivity. Qed.
Lemma address_no_prefix ip port addr family : token ip -> addr_parse_auto ip = Ok (addr, family) -> line_starts_with (ip ++ [32] ++ dec port) (lit "candidate:") = false.
Proof.
  intros [_ Htok] Ha. destruct (line_starts_with _ _) eqn:E; [|done]. exfalso. apply starts_split in E as (x & E).
  destruct (Nat.le_gt_cases (length (lit "candidate:")) (length ip)) as [Hle|Hlt].
  - assert (ip = lit "candidate:" ++ drop (length (lit "candidate:")) ip) as Hip.
    { rewrite <- (take_drop (length (lit "candidate:")) ip) at 1. f_equal. assert (take (length (lit "candidate:")) (ip ++ [32] ++ dec port) = lit "candidate:") as Ht by (by rewrite E, take_app_length).
      by rewrite take_app_le in Ht by done. }
    rewrite Hip, no_address_prefix in Ha. done.
  - assert ((lit "candidate:" ++ x) !! length ip = Some 32) as Hx by (rewrite <- E, lookup_app_r, Nat.sub_diag by lia; done).
    rewrite lookup_app_l in Hx by done. apply list_elem_of_lookup_2 in Hx. revert Hx. apply (bool_decide_eq_false_1 _). vm_compute. reflexivity.
Qed.
(** What one short string tells. *)
Lemma short_told ice ip port addr family : table_ok ice -> token ip -> (length ip < NANORTC_IPV6_STR_SIZE)%nat -> is_u16 port -> 0 < port -> addr_parse_auto ip = Ok (addr, family) ->
  (ic_remote_count ice < NANORTC_MAX_ICE_CANDIDATES)%nat ->
  exists ice', nanortc_add_remote_candidate ice (ip ++ [32] ++ dec port) = Ok ice' /\ added ice ice' addr family port NANORTC_ICE_CAND_HOST.
Proof.
  intros Hice Htok Hlt Hport Hpos Ha Hroom. destruct (add_fields ice (ip ++ [32] ++ dec port) ip port NANORTC_ICE_CAND_HOST addr family) as [H|(_ & Hfull & _)];
    [done | apply fields_of_short; [done.. | by eapply address_no_prefix] | done | apply Htok | done | done | by eapply parse_auto_length | exact H | lia].
Qed.
Lemma add_candidates_told cs : forall ice, table_ok ice -> Forall (fun c => terminated (sc_addr c) /\ token (text_of (sc_addr c)) /\ (length (text_of (sc_addr c)) < NANORTC_IPV6_STR_SIZE)%nat /\ is_u16 (sc_port c) /\ 0 < sc_port c /\
    exists addr family, addr_parse_auto (text_of (sc_addr c)) = Ok (addr, family)) cs -> (ic_remote_count ice + length cs <= NANORTC_MAX_ICE_CANDIDATES)%nat ->
  exists ice', add_candidates cs ice = Ok ice' /\ table_ok ice' /\ Forall (told ice') (map (fun c => (text_of (sc_addr c), sc_port c, lit "host")) cs) /\ forall w, told ice w -> told ice' w.
Proof.
  induction cs as [|c cs IH]; intros ice Hice Hcs Hroom; cbn [add_candidates map].
  { exists ice. split; [done|]. split; [done|]. split; [constructor | done]. }
  apply Forall_cons_iff in Hcs as [(Ht & Htok & Hlt & Hport & Hpos & addr & family & Ha) Hcs]. cbn [length] in Hroom. rewrite Ht, bind_Ok. cbv zeta. rewrite take_ge by lia.
  rewrite (proj2 (Nat.ltb_lt _ _)) by lia. rewrite (decimal_Ok 8 5) by (lia || (change (10 ^ Z.of_nat 5) with 100000; unfold is_u16 in Hport; lia)). rewrite bind_Ok. unfold add_ignoring.
  destruct (short_told ice (text_of (sc_addr c)) (sc_port c) addr family) as (ice1 & -> & Hin & Hgrow & Hok); [done.. | lia |]. rewrite bind_Ok.
  destruct (IH ice1 Hok Hcs) as (ice2 & Hrun & Hok2 & Htold & Hmono); [pose proof (grow_count ice ice1 Hice Hok Hgrow); lia|].
  exists ice2. split; [exact Hrun|]. split; [done|]. split.
  - constructor; [|exact Htold]. apply Hmono. by exists addr, family.
  - intros [[ip p] k] (a & fa & Hpa & He). apply Hmono. exists a, fa. split; [done|]. by eapply Exists_grow.
Qed.
Lemma text_terminated b : text_of b <> [] -> terminated b.
Proof. unfold terminated, text_of. by destruct (c_string b). Qed.
(** C21: The candidates a session offers in its SDP become candidates of the
    peer's ICE agent: the peer parses the text and adds them, and each one's
    address, family and port is in its table, beside those it had.  The session is
    as for the round trip, each address offered is one the peer can parse, and the
    peer's tables have room. *)
Theorem sdp_candidates_reach_ice s r buf ice
  (Hlocal : local_ok (sd_local s)) (Hmedia : media_ok (sd_media s)) (Hsend : sendable s) (Hreceive : receiver_ok r)
  (Hfresh : rs_candidate_count (sd_remote r) = 0%nat) (Hsmall : (length (offered (sd_local s)) <= NANORTC_SDP_MAX_CANDIDATES)%nat)
  (Haddresses : Forall (fun c => token (fst c) /\ exists addr family, addr_parse_auto (fst c) = Ok (addr, family)) (offered (sd_local s)))
  (Hmin : (NANORTC_SDP_MIN_BUF_SIZE <= length buf)%nat) (Hfit : (length (render (sdp_lines s)) < length buf)%nat)
  (Hice : table_ok ice) (Hroom : (ic_remote_count ice + length (offered (sd_local s)) <= NANORTC_MAX_ICE_CANDIDATES)%nat) :
  exists s' buf' n r' ice', sdp_generate_answer s buf = (s', Ok (buf', n)) /\ sdp_parse r (take n buf') = Ok (r', NANORTC_OK) /\
    rtc_add_sdp_candidates (sd_remote r') ice = Ok ice' /\ table_ok ice' /\
    Forall (fun c => told ice' (fst c, snd c, lit "host")) (offered (sd_local s)) /\ forall w, told ice w -> told ice' w.
Proof.
  pose proof (generate_answer_spec s buf Hlocal Hmedia Hmin) as H. cbv zeta in H. rewrite (proj2 (Nat.leb_gt _ _) Hfit) in H. destruct H as (buf' & -> & _ & Htext).
  destruct (parse_mirrors s r Hlocal Hmedia Hsend Hreceive) as (r' & Hparse & Hh); [by rewrite Hfresh|].
  pose proof (sh_candidates _ _ _ Hh) as Hcs. assert (candidates_of (sd_remote r) = []) as Hnone by (unfold candidates_of; by rewrite Hfresh, take_0). rewrite Hnone in Hcs. cbn [app] in Hcs. unfold candidates_of in Hcs.
  set (cs := take _ _) in Hcs. pose proof (sn_candidates s Hsend) as Hok. rewrite <- Hcs in Haddresses, Hok, Hroom. rewrite Forall_map in Haddresses. rewrite Forall_map in Hok. rewrite length_map in Hroom.
  destruct (add_candidates_told cs ice Hice) as (ice' & Hrun & Hice' & Htold & Hmono); [|done|].
  { apply List.Forall_forall. intros c Hc. pose proof (proj1 (List.Forall_forall _ _) Haddresses c Hc) as (Htok & Ha). pose proof (proj1 (List.Forall_forall _ _) Hok c Hc) as ((_ & Hn & Hl) & Hp & Hpos). cbn [fst snd] in *.
    split; [by apply text_terminated|]. done. }
  exists (with_media s (set_mlines (sd_media s) (foldl advertise (ms_mlines (sd_media s)) (entries_of (sd_media s))))), buf', (length (render (sdp_lines s))), r'.
  assert (forall b w, told (with_eoc ice' b) w <-> told ice' w) as Heoc by (intros b [[? ?] ?]; done).
  exists (if rs_end_of_candidates (sd_remote r') then with_eoc ice' true else ice'). split; [done|]. split; [by rewrite Htext|]. unfold rtc_add_sdp_candidates. fold cs. rewrite Hrun, bind_Ok. split; [done|].
  split; [destruct (rs_end_of_candidates _); [by destruct Hice' | done]|]. rewrite <- Hcs. split.
  - rewrite Forall_map. rewrite Forall_map in Htold. eapply List.Forall_impl; [|exact Htold]. intros c Hc. cbn [fst snd]. by destruct (rs_end_of_candidates _).
  - intros w Hw. apply Hmono in Hw. by destruct (rs_end_of_candidates _).
Qed.
Lemma demo_addresses : Forall (fun c => token (fst c) /\ exists addr family, addr_parse_auto (fst c) = Ok (addr, family)) (offered demo_local).
Proof.
  assert (offered demo_local = [(lit "192.168.1.2", 9999); (lit "203.0.113.7", 40000)]) as -> by (vm_compute; reflexivity).
  repeat (apply List.Forall_cons; [split; [split; [done | by repeat (apply List.Forall_cons; [done|])] | by eexists _, _]|]). constructor.
Qed.
(** A session with a data channel only. *)
Lemma sdp_candidates_reach_ice_witness : length (offered demo_local) = 2%nat /\
  exists s' buf' n r' ice', sdp_generate_answer (session_of demo_channel) (replicate 4096 0) = (s', Ok (buf', n)) /\ sdp_parse sdp_init (take n buf') = Ok (r', NANORTC_OK) /\
    rtc_add_sdp_candidates (sd_remote r') (ice_init false) = Ok ice' /\ table_ok ice' /\
    Forall (fun c => told ice' (fst c, snd c, lit "host")) (offered demo_local) /\ forall w, told (ice_init false) w -> told ice' w.
Proof.
  split; [vm_compute; reflexivity|].
  apply (sdp_candidates_reach_ice (session_of demo_channel) sdp_init (replicate 4096 0) (ice_init false) demo_local_ok (proj1 demo_channel_ok) (proj2 demo_channel_ok) init_receiver_ok);
    [reflexivity | apply Nat.leb_le; vm_compute; reflexivity | exact demo_addresses | apply Nat.leb_le; vm_compute; reflexivity | apply Nat.leb_le; vm_compute; reflexivity | apply fresh_table_ok | apply Nat.leb_le; vm_compute; reflexivity].
Defined.
