(* ===== verification/OutQueue.v ===== *)
(** The output queue of the connection, [src/nano_rtc.c]: the ring of outputs
    that the application polls, the buffers it refers to and when they are given
    back, pending events, and the TURN wrapping done while polling. *)

From Stdlib Require Import ZArith Lia.
From stdpp Require Import base list numbers.
From S2P Require Import Prelude Wire Stun Ice Turn Rtp Srtp Bwe Media.

Local Open Scope Z_scope.

Definition NANORTC_OUT_QUEUE_SIZE : nat := 32.
Definition NANORTC_TX_SLOT_COUNT : nat := 4.
Definition NANORTC_NACK_RETX_RING : nat := 4.
Definition NANORTC_VIDEO_PKT_RING_SIZE : nat := NANORTC_OUT_QUEUE_SIZE.
Definition NANORTC_MEDIA_BUF_SIZE : nat := Z.to_nat 1232.
(** [NANORTC_DTLS_BUF_SIZE], the largest of the three sizes. *)
Definition NANORTC_TX_SLOT_SIZE : nat := Z.to_nat 2048.
Definition NANORTC_TURN_BUF_SIZE : nat := (NANORTC_MEDIA_BUF_SIZE + 48)%nat.
(** Two media tracks and eight data channels. *)
Definition NANORTC_PENDING_EVENT_SLOTS : nat := 3 + 3 * 2 + 2 * 8 + 2.

(** * Data *)

(** Where the pointers of an event lead: the depacketizer's buffer or the playout
    buffer of a track, the receive pool of the association, the texts of a
    channel, the text of the candidate last trickled.  Whoever reads through one
    reads what the buffer holds by then. *)
Inductive event_ref : Type :=
| DepktBuf (track : nat) | MediaBuf (track : nat) | RecvPool | ChannelLabel (channel : nat) | ChannelProtocol (channel : nat) | CandidateStr.
(** [nanortc_event_t] *)
Inductive rtc_event : Type :=
| EvConnected (mids : list Z) (mid_count : Z)
| EvDisconnected
| EvIceStateChange (ice_state : Z)
| EvMediaAdded (mid kind direction : Z)
| EvMediaChanged (mid old_direction new_direction : Z)
| EvMediaData (mid pt timestamp : Z) (data : event_ref) (len : nat) (contiguous is_keyframe : bool)
| EvKeyframeRequest (mid : Z)
| EvDatachannelOpen (id : Z) (label protocol : event_ref) (ordered partial_reliability : bool) (max_retransmits : Z)
| EvDatachannelData (id : Z) (data : event_ref) (len : nat) (binary : bool)
| EvDatachannelClose (id : Z)
| EvDatachannelBufferedLow (id : Z)
| EvBitrateEstimate (bitrate_bps prev_bitrate_bps direction source : Z)
| EvIceCandidate (candidate_str : event_ref) (end_of_candidates : bool)
| EvSpecRecommendation (rung width height fps bitrate_bps : Z).
Definition event_type (e : rtc_event) : Z :=
  match e with
  | EvConnected _ _ => 0 | EvDisconnected => 1 | EvIceStateChange _ => 2 | EvMediaAdded _ _ _ => 3
  | EvMediaChanged _ _ _ => 4 | EvMediaData _ _ _ _ _ _ _ => 5 | EvKeyframeRequest _ => 6
  | EvDatachannelOpen _ _ _ _ _ _ => 7 | EvDatachannelData _ _ _ _ => 8 | EvDatachannelClose _ => 9
  | EvDatachannelBufferedLow _ => 10 | EvBitrateEstimate _ _ _ _ => 11 | EvIceCandidate _ _ => 12
  | EvSpecRecommendation _ _ _ _ _ => 13
  end.

(** Where the data of a queued packet lies: a transmit slot, a retransmission
    slot, a slot of the video packet ring, or the TURN scratch buffer. *)
Inductive data_ref : Type := TxSlot (i : nat) | RetxSlot (i : nat) | PktSlot (i : nat) | TurnBuf.
Record transmit : Type := Transmit { tm_data : data_ref; tm_len : nat; tm_dest : nanortc_addr; tm_src : nanortc_addr }.
(** [nanortc_output_t] *)
Inductive rtc_output : Type := OutTransmit (t : transmit) | OutEvent (e : rtc_event).

(** An entry of [out_wrap_meta]. *)
Record wrap_meta : Type := WrapMeta { wm_via_turn : bool; wm_peer_dest : nanortc_addr }.
Record out_queue : Type := OutQueue { oq_queue : list rtc_output; oq_wrap : list wrap_meta; oq_head : Z; oq_tail : Z }.
(** Buffers with their release cursors and the bit set of those in use. *)
Record backing : Type := Backing { bk_bufs : list (list Z); bk_free_at : list Z; bk_in_use : Z }.
(** The video packet ring: packets, their sequence numbers and lengths, and the
    write cursor. *)
Record pkt_ring : Type := PktRing { pr_bufs : list (list Z); pr_meta : list (Z * nat); pr_tail : Z }.
(** [nano_pacer_t] *)
Record nano_pacer : Type := Pacer {
  pc_head : Z; pc_tail : Z; pc_budget_bytes : Z; pc_last_refill_ms : Z; pc_refill_inited : bool;
  pc_next_release_ms : Z; pc_enqueue_ms : list Z
}.
(** The [stats_*] counters of the transmit path. *)
Record tx_stats : Type := TxStats {
  st_tx_queue_full : Z; st_enqueue_via_turn : Z; st_enqueue_direct : Z; st_wrap_dropped : Z;
  st_pkt_ring_overrun : Z; st_paced_packets : Z; st_pace_catchup : Z
}.
(** The part of [nanortc_t] that sending uses. *)
Record rtc : Type := Rtc {
  r_queue : out_queue; r_pending : list rtc_event; r_tx : backing; r_tx_cursor : nat; r_retx : backing;
  r_ring : pkt_ring; r_pacer : nano_pacer; r_turn_buf : list Z; r_stats : tx_stats;
  r_turn : nano_turn; r_ice : nano_ice; r_remote_addr : nanortc_addr; r_now_ms : Z; r_bwe : nano_bwe;
  r_srtp : nano_srtp; r_media : list nanortc_track; r_media_count : nat; r_state : Z
}.
Definition with_queue r x := Rtc x (r_pending r) (r_tx r) (r_tx_cursor r) (r_retx r) (r_ring r) (r_pacer r) (r_turn_buf r) (r_stats r) (r_turn r) (r_ice r) (r_remote_addr r) (r_now_ms r) (r_bwe r) (r_srtp r) (r_media r) (r_media_count r) (r_state r).
Definition with_events r x := Rtc (r_queue r) x (r_tx r) (r_tx_cursor r) (r_retx r) (r_ring r) (r_pacer r) (r_turn_buf r) (r_stats r) (r_turn r) (r_ice r) (r_remote_addr r) (r_now_ms r) (r_bwe r) (r_srtp r) (r_media r) (r_media_count r) (r_state r).
Definition with_tx r x c := Rtc (r_queue r) (r_pending r) x c (r_retx r) (r_ring r) (r_pacer r) (r_turn_buf r) (r_stats r) (r_turn r) (r_ice r) (r_remote_addr r) (r_now_ms r) (r_bwe r) (r_srtp r) (r_media r) (r_media_count r) (r_state r).
Definition with_retx r x := Rtc (r_queue r) (r_pending r) (r_tx r) (r_tx_cursor r) x (r_ring r) (r_pacer r) (r_turn_buf r) (r_stats r) (r_turn r) (r_ice r) (r_remote_addr r) (r_now_ms r) (r_bwe r) (r_srtp r) (r_media r) (r_media_count r) (r_state r).
Definition with_ring r x := Rtc (r_queue r) (r_pending r) (r_tx r) (r_tx_cursor r) (r_retx r) x (r_pacer r) (r_turn_buf r) (r_stats r) (r_turn r) (r_ice r) (r_remote_addr r) (r_now_ms r) (r_bwe r) (r_srtp r) (r_media r) (r_media_count r) (r_state r).
Definition with_pacer r x := Rtc (r_queue r) (r_pending r) (r_tx r) (r_tx_cursor r) (r_retx r) (r_ring r) x (r_turn_buf r) (r_stats r) (r_turn r) (r_ice r) (r_remote_addr r) (r_now_ms r) (r_bwe r) (r_srtp r) (r_media r) (r_media_count r) (r_state r).
Definition with_turn_buf r x := Rtc (r_queue r) (r_pending r) (r_tx r) (r_tx_cursor r) (r_retx r) (r_ring r) (r_pacer r) x (r_stats r) (r_turn r) (r_ice r) (r_remote_addr r) (r_now_ms r) (r_bwe r) (r_srtp r) (r_media r) (r_media_count r) (r_state r).
Definition with_stats r x := Rtc (r_queue r) (r_pending r) (r_tx r) (r_tx_cursor r) (r_retx r) (r_ring r) (r_pacer r) (r_turn_buf r) x (r_turn r) (r_ice r) (r_remote_addr r) (r_now_ms r) (r_bwe r) (r_srtp r) (r_media r) (r_media_count r) (r_state r).
Definition with_media r s m := Rtc (r_queue r) (r_pending r) (r_tx r) (r_tx_cursor r) (r_retx r) (r_ring r) (r_pacer r) (r_turn_buf r) (r_stats r) (r_turn r) (r_ice r) (r_remote_addr r) (r_now_ms r) (r_bwe r) s m (r_media_count r) (r_state r).

Definition count_queue_full s := TxStats (u32 (st_tx_queue_full s + 1)) (st_enqueue_via_turn s) (st_enqueue_direct s) (st_wrap_dropped s) (st_pkt_ring_overrun s) (st_paced_packets s) (st_pace_catchup s).
Definition count_via_turn s := TxStats (st_tx_queue_full s) (u32 (st_enqueue_via_turn s + 1)) (st_enqueue_direct s) (st_wrap_dropped s) (st_pkt_ring_overrun s) (st_paced_packets s) (st_pace_catchup s).
Definition count_direct s := TxStats (st_tx_queue_full s) (st_enqueue_via_turn s) (u32 (st_enqueue_direct s + 1)) (st_wrap_dropped s) (st_pkt_ring_overrun s) (st_paced_packets s) (st_pace_catchup s).
Definition count_wrap_dropped s := TxStats (st_tx_queue_full s) (st_enqueue_via_turn s) (st_enqueue_direct s) (u32 (st_wrap_dropped s + 1)) (st_pkt_ring_overrun s) (st_paced_packets s) (st_pace_catchup s).

(** * Queue *)

Definition oq_used (q : out_queue) : Z := u16 (oq_tail q - oq_head q).
(** The ring's slot of a cursor. *)
Definition out_slot (cursor : Z) : nat := Z.to_nat (Z.land cursor 31).
Definition rtc_enqueue_output (q : out_queue) (out : rtc_output) : res (out_queue * Z) :=
  if Z.of_nat NANORTC_OUT_QUEUE_SIZE <=? oq_used q then Ok (q, NANORTC_ERR_BUFFER_TOO_SMALL) else
  let slot := out_slot (oq_tail q) in
  match oq_queue q !! slot, oq_wrap q !! slot with
  | Some _, Some w =>
      Ok (OutQueue (<[slot := out]> (oq_queue q)) (<[slot := WrapMeta false (wm_peer_dest w)]> (oq_wrap q)) (oq_head q) (u16 (oq_tail q + 1)), NANORTC_OK)
  | _, _ => Fault
  end.
Definition rtc_output_has_space (q : out_queue) : bool := oq_used q <? Z.of_nat NANORTC_OUT_QUEUE_SIZE.

(** Buffers [i] to [i + k - 1] given back whose cursor is the queue's head. *)
Fixpoint release_bits (k i : nat) (free_at : list Z) (head in_use : Z) : res Z :=
  match k with
  | O => Ok in_use
  | S k =>
      match free_at !! i with
      | None => Fault
      | Some f => release_bits k (S i) free_at head (if Z.testbit in_use (Z.of_nat i) && (f =? head) then Z.clearbit in_use (Z.of_nat i) else in_use)
      end
  end.
Definition release_backing (k : nat) (b : backing) (head : Z) : res backing :=
  in_use ← release_bits k 0 (bk_free_at b) head (bk_in_use b); Ok (Backing (bk_bufs b) (bk_free_at b) in_use).
Definition rtc_release_output_backing (r : rtc) : res rtc :=
  tx ← release_backing NANORTC_TX_SLOT_COUNT (r_tx r) (oq_head (r_queue r));
  retx ← release_backing NANORTC_NACK_RETX_RING (r_retx r) (oq_head (r_queue r));
  Ok (with_retx (with_tx r tx (r_tx_cursor r)) retx).

(** * Transmit slots *)

(** The first of [k] slots from position [n] of the cursor on that is free. *)
Fixpoint find_tx_slot (k n cursor : nat) (in_use : Z) : option nat :=
  match k with
  | O => None
  | S k =>
      let i := Z.to_nat (Z.land (Z.of_nat (cursor + n)) 3) in
      if Z.testbit in_use (Z.of_nat i) then find_tx_slot k (S n) cursor in_use else Some i
  end.
(** The slot, or [None] for [NANORTC_ERR_WOULD_BLOCK]. *)
Definition nano_rtc_tx_slot_acquire (r : rtc) : rtc * option nat :=
  if negb (rtc_output_has_space (r_queue r)) then (with_stats r (count_queue_full (r_stats r)), None) else
  match find_tx_slot NANORTC_TX_SLOT_COUNT 0 (r_tx_cursor r) (bk_in_use (r_tx r)) with
  | Some i => (with_tx r (r_tx r) (Z.to_nat (Z.land (Z.of_nat (i + 1)) 3)), Some i)
  | None => (r, None)
  end.

Inductive rtc_tx_route : Type := RTC_TX_ROUTE_DIRECT | RTC_TX_ROUTE_SELECTED | RTC_TX_ROUTE_FORCE_TURN.
#[global] Instance rtc_tx_route_eq_dec : EqDecision rtc_tx_route.
Proof. solve_decision. Defined.

Definition no_address : nanortc_addr := Addr 0 (replicate NANORTC_ADDR_SIZE 0) 0.
Definition source_of (ice : nano_ice) (local_src : option nanortc_addr) : nanortc_addr :=
  let s := ic_selected ice in
  match local_src with
  | Some a => a
  | None => if negb (se_local_family s =? 0) then Addr (se_local_family s) (se_local_addr s) (se_local_port s) else no_address
  end.
Definition needs_turn (r : rtc) (route : rtc_tx_route) : bool :=
  negb (bool_decide (route = RTC_TX_ROUTE_DIRECT)) && tu_configured (r_turn r) && bool_decide (tu_state (r_turn r) = NANORTC_TURN_ALLOCATED) &&
  (bool_decide (route = RTC_TX_ROUTE_FORCE_TURN) || (se_local_type (ic_selected (r_ice r)) =? NANORTC_ICE_CAND_RELAY)).
Definition rtc_enqueue_transmit_ref (r : rtc) (data : data_ref) (len : nat) (peer_dest : nanortc_addr) (local_src : option nanortc_addr) (route : rtc_tx_route) : res (rtc * Z) :=
  let out := OutTransmit (Transmit data len peer_dest (source_of (r_ice r) local_src)) in
  let slot := out_slot (oq_tail (r_queue r)) in
  '(q, rc) ← rtc_enqueue_output (r_queue r) out;
  if negb (rc =? NANORTC_OK) then Ok (with_stats r (count_queue_full (r_stats r)), rc) else
  if needs_turn r route then
    match oq_wrap q !! slot with
    | None => Fault
    | Some _ =>
        let q := OutQueue (oq_queue q) (<[slot := WrapMeta true peer_dest]> (oq_wrap q)) (oq_head q) (oq_tail q) in
        Ok (with_stats (with_queue r q) (count_via_turn (r_stats r)), NANORTC_OK)
    end
  else if negb (bool_decide (route = RTC_TX_ROUTE_DIRECT)) then Ok (with_stats (with_queue r q) (count_direct (r_stats r)), NANORTC_OK)
  else Ok (with_queue r q, NANORTC_OK).
Definition route_of (force_via_turn : bool) : rtc_tx_route := if force_via_turn then RTC_TX_ROUTE_FORCE_TURN else RTC_TX_ROUTE_SELECTED.
Definition nano_rtc_enqueue_transmit (r : rtc) (data : data_ref) (len : nat) (peer_dest : nanortc_addr) (force_via_turn : bool) : res (rtc * Z) :=
  rtc_enqueue_transmit_ref r data len peer_dest None (route_of force_via_turn).
(** [tx_slot_free_at] and the bit, once the packet is in the queue. *)
Definition pin_buffer (b : backing) (i : nat) (tail : Z) : res backing :=
  match bk_free_at b !! i with
  | None => Fault
  | Some _ => Ok (Backing (bk_bufs b) (<[i := tail]> (bk_free_at b)) (Z.setbit (bk_in_use b) (Z.of_nat i)))
  end.
Definition rtc_tx_slot_commit_route (r : rtc) (slot : nat) (len : nat) (peer_dest : nanortc_addr) (local_src : option nanortc_addr) (route : rtc_tx_route) : res (rtc * Z) :=
  if (NANORTC_TX_SLOT_COUNT <=? slot)%nat || (NANORTC_TX_SLOT_SIZE <? len)%nat then Ok (r, NANORTC_ERR_INVALID_PARAM) else
  if Z.testbit (bk_in_use (r_tx r)) (Z.of_nat slot) then Ok (r, NANORTC_ERR_STATE) else
  '(r, rc) ← rtc_enqueue_transmit_ref r (TxSlot slot) len peer_dest local_src route;
  if negb (rc =? NANORTC_OK) then Ok (r, if rc =? NANORTC_ERR_BUFFER_TOO_SMALL then NANORTC_ERR_WOULD_BLOCK else rc) else
  tx ← pin_buffer (r_tx r) slot (oq_tail (r_queue r));
  Ok (with_tx r tx (r_tx_cursor r), NANORTC_OK).
Definition nano_rtc_tx_slot_commit (r : rtc) (slot len : nat) (peer_dest : nanortc_addr) (force_via_turn : bool) : res (rtc * Z) :=
  rtc_tx_slot_commit_route r slot len peer_dest None (route_of force_via_turn).
Definition rtc_tx_slot_commit_direct (r : rtc) (slot len : nat) (dest : nanortc_addr) (local_src : option nanortc_addr) : res (rtc * Z) :=
  rtc_tx_slot_commit_route r slot len dest local_src RTC_TX_ROUTE_DIRECT.

(** What a producer that has acquired slot [i] writes into it. *)
Definition write_tx_slot (r : rtc) (i : nat) (octets : list Z) : res rtc :=
  match bk_bufs (r_tx r) !! i with
  | None => Fault
  | Some b => b ← wr b 0 octets; Ok (with_tx r (Backing (<[i := b]> (bk_bufs (r_tx r))) (bk_free_at (r_tx r)) (bk_in_use (r_tx r))) (r_tx_cursor r))
  end.

(** * Events *)

Definition rtc_event_key (e : rtc_event) : Z :=
  match e with
  | EvMediaAdded mid _ _ | EvMediaChanged mid _ _ | EvKeyframeRequest mid => mid
  | EvDatachannelClose id | EvDatachannelBufferedLow id => id
  | _ => 0
  end.
Definition is_payload (e : rtc_event) : bool :=
  (event_type e =? 5) || (event_type e =? 8) || (event_type e =? 7) || (event_type e =? 12).
(** The pending events without the first one of this type and key, if any. *)
Fixpoint remove_pending (e : rtc_event) (l : list rtc_event) : option (list rtc_event) :=
  match l with
  | [] => None
  | old :: l =>
      if (event_type old =? event_type e) && (rtc_event_key old =? rtc_event_key e) then Some l
      else rest ← remove_pending e l; Some (old :: rest)
  end.
Definition nano_rtc_emit_event_full (r : rtc) (e : rtc_event) : res (rtc * Z) :=
  if negb (is_payload e) && (negb (length (r_pending r) =? 0)%nat || negb (rtc_output_has_space (r_queue r))) then
    match remove_pending e (r_pending r) with
    | Some l => Ok (with_events r (l ++ [e]), NANORTC_OK)
    | None =>
        if (length (r_pending r) =? NANORTC_PENDING_EVENT_SLOTS)%nat then Ok (r, NANORTC_ERR_WOULD_BLOCK)
        else Ok (with_events r (r_pending r ++ [e]), NANORTC_OK)
    end
  else
    '(q, rc) ← rtc_enqueue_output (r_queue r) (OutEvent e);
    Ok (with_queue r q, rc).

(** * Polling *)

Definition buffer_of (r : rtc) (d : data_ref) : res (list Z) :=
  match (match d with TxSlot i => bk_bufs (r_tx r) !! i | RetxSlot i => bk_bufs (r_retx r) !! i | PktSlot i => pr_bufs (r_ring r) !! i | TurnBuf => Some (r_turn_buf r) end) with
  | Some b => Ok b
  | None => Fault
  end.
(** The octets a packet refers to. *)
Definition octets_of (r : rtc) (t : transmit) : res (list Z) := b ← buffer_of r (tm_data t); rdn b 0 (tm_len t).
(** The ChannelData or Send frame, or [None] when it does not fit. *)
Definition wrap_output (r : rtc) (peer : nanortc_addr) (data : list Z) : res (option (list Z * nat)) :=
  channel ← turn_find_channel_for_peer (r_turn r) (ad_addr peer) (ad_family peer) (ad_port peer);
  match (match channel with
         | Some channel => nano_turn_wrap_channel_data channel data (r_turn_buf r)
         | None => turn_wrap_send (ad_addr peer) (ad_family peer) (ad_port peer) data (r_turn_buf r)
         end) with
  | Fault => Fault
  | Err _ => Ok None
  | Ok (buf, wrap_len) => Ok (if (wrap_len =? 0)%nat then None else Some (buf, wrap_len))
  end.
Definition advance_head (r : rtc) : res rtc :=
  let q := r_queue r in
  rtc_release_output_backing (with_queue r (OutQueue (oq_queue q) (oq_wrap q) (u16 (oq_head q + 1)) (oq_tail q))).
Definition turn_server (t : nano_turn) : nanortc_addr :=
  Addr (if tu_server_family t =? STUN_FAMILY_IPV4 then 4 else 6) (tu_server_addr t) (tu_server_port t).
(** The output at the head, [None] for [NANORTC_ERR_NO_DATA]. *)
Fixpoint poll_queue (fuel : nat) (r : rtc) : res (rtc * option rtc_output) :=
  match fuel with
  | O => Fault
  | S fuel =>
      let q := r_queue r in
      if oq_head q =? oq_tail q then Ok (r, None) else
      let slot := out_slot (oq_head q) in
      match oq_queue q !! slot, oq_wrap q !! slot with
      | Some (OutTransmit t), Some (WrapMeta true peer) =>
          data ← octets_of r t;
          wrapped ← wrap_output r peer data;
          match wrapped with
          | None => r ← advance_head (with_stats r (count_wrap_dropped (r_stats r))); poll_queue fuel r
          | Some (buf, wrap_len) =>
              r ← advance_head (with_turn_buf r buf);
              Ok (r, Some (OutTransmit (Transmit TurnBuf wrap_len (turn_server (r_turn r)) no_address)))
          end
      | Some out, Some _ => r ← advance_head r; Ok (r, Some out)
      | _, _ => Fault
      end
  end.
(** Every turn takes an entry off. *)
Definition rtc_poll_queued_output (r : rtc) : res (rtc * option rtc_output) := poll_queue (S (Z.to_nat (oq_used (r_queue r)))) r.
(** The first of the pending events. *)
Definition poll_pending (r : rtc) : option (rtc * rtc_output) :=
  match r_pending r with [] => None | e :: l => Some (with_events r l, OutEvent e) end.
