(* ===== verification/OutQueueFifo.v ===== *)
(** The output ring of [OutQueue] as a bounded queue: its entries in order under
    wrapping cursors, and the buffers they own until they are polled. *)

From Stdlib Require Import ZArith Lia.
From stdpp Require Import base list numbers.
From S2P Require Import Prelude Wire Stun Ice Turn OutQueue.

Local Open Scope Z_scope.

(** * The ring *)

Lemma out_slot_eq c : 0 <= c -> out_slot c = Z.to_nat (c mod 32).
Proof. intros Hc. unfold out_slot. change 31 with (Z.ones 5). by rewrite Z.land_ones by lia. Qed.
Lemma out_slot_lt c : 0 <= c -> (out_slot c < 32)%nat.
Proof. intros Hc. rewrite out_slot_eq by done. pose proof (Z.mod_pos_bound c 32). lia. Qed.
(** The cursor [n] places on. *)
Definition cursor (c : Z) (n : nat) : Z := u16 (c + Z.of_nat n).
Lemma cursor_u16 c n : is_u16 (cursor c n).
Proof. apply u16_range. Qed.
Lemma cursor_0 c : is_u16 c -> cursor c 0 = c.
Proof. intros H. unfold cursor. rewrite Z.add_0_r. by apply u16_id. Qed.
Lemma cursor_S c n : cursor c (S n) = u16 (cursor c n + 1).
Proof. unfold cursor. mach. Qed.
Lemma cursor_cursor c n m : cursor (cursor c n) m = cursor c (n + m).
Proof. unfold cursor. mach. Qed.
Lemma cursor_diff c n : Z.of_nat n < 65536 -> u16 (cursor c n - c) = Z.of_nat n.
Proof. intros H. unfold cursor. mach. Qed.
Lemma cursor_inj c n m : Z.of_nat n < 65536 -> Z.of_nat m < 65536 -> cursor c n = cursor c m -> n = m.
Proof. intros Hn Hm H. unfold cursor in H. revert H. mach. Qed.
Lemma cursor_slot_inj c n m : (n < m < n + 32)%nat -> out_slot (cursor c n) <> out_slot (cursor c m).
Proof.
  intros Hm. rewrite !out_slot_eq by (unfold cursor; mach). intros H%Z2Nat.inj; [|apply Z.mod_pos_bound; lia..].
  revert H. unfold cursor, u16. change (2 ^ 16) with (32 * 2048). rewrite !Z.rem_mul_r by lia. intros H.
  rewrite !(Z.mul_comm 32), !Z_mod_plus_full, !Zmod_mod in H. Z.div_mod_to_equations. lia.
Qed.

Abbreviation entry := (rtc_output * wrap_meta)%type.
(** The ring holds the entries [es], first to last. *)
Record ring_holds (q : out_queue) (es : list entry) : Prop := {
  rh_head : is_u16 (oq_head q);
  rh_tail : oq_tail q = cursor (oq_head q) (length es);
  rh_room : (length es <= NANORTC_OUT_QUEUE_SIZE)%nat;
  rh_size : length (oq_queue q) = NANORTC_OUT_QUEUE_SIZE /\ length (oq_wrap q) = NANORTC_OUT_QUEUE_SIZE;
  rh_at : forall j e, es !! j = Some e ->
    oq_queue q !! out_slot (cursor (oq_head q) j) = Some (fst e) /\ oq_wrap q !! out_slot (cursor (oq_head q) j) = Some (snd e)
}.
Lemma ring_holds_used q es : ring_holds q es -> oq_used q = Z.of_nat (length es).
Proof. intros [H Ht Hr _ _]. unfold oq_used, NANORTC_OUT_QUEUE_SIZE in *. rewrite Ht. apply cursor_diff. lia. Qed.
Lemma ring_holds_tail_lt q es : ring_holds q es -> (out_slot (oq_tail q) < 32)%nat.
Proof. intros [_ Ht _ _ _]. rewrite Ht. apply out_slot_lt, cursor_u16. Qed.
Lemma ring_holds_space q es : ring_holds q es -> rtc_output_has_space q = (length es <? NANORTC_OUT_QUEUE_SIZE)%nat.
Proof.
  intros H. unfold rtc_output_has_space. rewrite (ring_holds_used _ _ H). unfold NANORTC_OUT_QUEUE_SIZE.
  destruct (Nat.ltb_spec (length es) 32); [apply Z.ltb_lt | apply Z.ltb_ge]; lia.
Qed.
(** The slot behind the last entry is none of theirs. *)
Lemma ring_holds_fresh q es j : ring_holds q es -> (length es < NANORTC_OUT_QUEUE_SIZE)%nat -> (j < length es)%nat ->
  out_slot (cursor (oq_head q) j) <> out_slot (oq_tail q).
Proof. intros [_ Ht _ _ _] Hl Hj. rewrite Ht. apply cursor_slot_inj. unfold NANORTC_OUT_QUEUE_SIZE in Hl. lia. Qed.
Lemma ring_push q es e : ring_holds q es -> (length es < NANORTC_OUT_QUEUE_SIZE)%nat ->
  ring_holds (OutQueue (<[out_slot (oq_tail q) := fst e]> (oq_queue q)) (<[out_slot (oq_tail q) := snd e]> (oq_wrap q)) (oq_head q) (u16 (oq_tail q + 1))) (es ++ [e]).
Proof.
  intros H Hl. pose proof (ring_holds_tail_lt _ _ H) as Hs. pose proof (ring_holds_fresh q es) as Hf. pose proof H as [Hh Ht Hr [L1 L2] Ha].
  unfold NANORTC_OUT_QUEUE_SIZE in *. constructor; cbn [oq_head oq_tail oq_queue oq_wrap].
  - done.
  - rewrite length_app, Ht. cbn [length]. by rewrite Nat.add_1_r, cursor_S.
  - rewrite length_app. cbn [length]. unfold NANORTC_OUT_QUEUE_SIZE. lia.
  - by rewrite !length_insert.
  - intros j x Hx. destruct (Nat.lt_ge_cases j (length es)) as [Hj|Hj].
    + rewrite lookup_app_l in Hx by done. assert (out_slot (oq_tail q) <> out_slot (cursor (oq_head q) j)) as Hne by (apply not_eq_sym; apply Hf; [exact H | lia | lia]).
      rewrite !list_lookup_insert_ne by done. by apply Ha.
    + rewrite lookup_app_r in Hx by done. apply list_lookup_singleton_Some in Hx as [Hk <-].
      replace (cursor (oq_head q) j) with (oq_tail q) by (rewrite Ht; replace j with (length es) by lia; done). rewrite !list_lookup_insert_eq by lia. done.
Qed.
Lemma ring_pop q e es : ring_holds q (e :: es) -> ring_holds (OutQueue (oq_queue q) (oq_wrap q) (u16 (oq_head q + 1)) (oq_tail q)) es.
Proof.
  intros [Hh Ht Hr HL Ha]. cbn [length] in *. assert (u16 (oq_head q + 1) = cursor (oq_head q) 1) as Hc by (unfold cursor; f_equal; lia).
  constructor; cbn [oq_head oq_tail oq_queue oq_wrap]; [apply u16_range | rewrite Ht, Hc, cursor_cursor; f_equal; lia | unfold NANORTC_OUT_QUEUE_SIZE in *; lia | done |].
  intros j x Hx. rewrite Hc, cursor_cursor. by apply (Ha (S j)).
Qed.
Lemma ring_front q e es : ring_holds q (e :: es) -> (oq_head q =? oq_tail q) = false /\
  oq_queue q !! out_slot (oq_head q) = Some (fst e) /\ oq_wrap q !! out_slot (oq_head q) = Some (snd e).
Proof.
  intros H. pose proof (ring_holds_used _ _ H) as Hu. destruct H as [Hh Ht Hr _ Ha]. split.
  - apply Z.eqb_neq. intros He. unfold oq_used in Hu. rewrite He, Z.sub_diag in Hu. cbn [length] in Hu. change (u16 0) with 0 in Hu. lia.
  - specialize (Ha 0%nat e eq_refl). by rewrite cursor_0 in Ha.
Qed.
Lemma ring_empty q : ring_holds q [] -> (oq_head q =? oq_tail q) = true.
Proof. intros [Hh Ht _ _ _]. rewrite Ht. cbn [length]. rewrite cursor_0 by done. apply Z.eqb_refl. Qed.

(** The operations on the ring. *)
Lemma enqueue_output_spec q es out : ring_holds q es ->
  (length es = NANORTC_OUT_QUEUE_SIZE /\ rtc_enqueue_output q out = Ok (q, NANORTC_ERR_BUFFER_TOO_SMALL)) \/
  ((length es < NANORTC_OUT_QUEUE_SIZE)%nat /\ exists q' peer, rtc_enqueue_output q out = Ok (q', NANORTC_OK) /\ ring_holds q' (es ++ [(out, WrapMeta false peer)]) /\
    oq_head q' = oq_head q /\ oq_tail q' = u16 (oq_tail q + 1) /\
    forall p, ring_holds (OutQueue (oq_queue q') (<[out_slot (oq_tail q) := WrapMeta true p]> (oq_wrap q')) (oq_head q') (oq_tail q')) (es ++ [(out, WrapMeta true p)]) /\
      is_Some (oq_wrap q' !! out_slot (oq_tail q))).
Proof.
  intros H. pose proof (ring_holds_used _ _ H) as Hu. pose proof (ring_holds_tail_lt _ _ H) as Hs. pose proof (rh_room _ _ H) as Hr. pose proof (rh_size _ _ H) as [L1 L2].
  unfold rtc_enqueue_output. rewrite Hu. unfold NANORTC_OUT_QUEUE_SIZE in *.
  destruct (Z.leb_spec (Z.of_nat 32) (Z.of_nat (length es))) as [|Hlt]; [left; split; [lia | done]|]. right. split; [lia|].
  destruct (lookup_lt_is_Some_2 (oq_queue q) (out_slot (oq_tail q))) as [o Ho]; [lia|]. destruct (lookup_lt_is_Some_2 (oq_wrap q) (out_slot (oq_tail q))) as [w Hw]; [lia|].
  cbv zeta. rewrite Ho, Hw. eexists _, (wm_peer_dest w). split; [reflexivity|].
  assert (length es < NANORTC_OUT_QUEUE_SIZE)%nat as Hl by (unfold NANORTC_OUT_QUEUE_SIZE; lia).
  split; [exact (ring_push q es (out, WrapMeta false (wm_peer_dest w)) H Hl)|]. split; [done|]. split; [done|]. intros p. cbn [oq_queue oq_wrap oq_head oq_tail]. split.
  - rewrite list_insert_insert_eq. exact (ring_push q es (out, WrapMeta true p) H Hl).
  - rewrite list_lookup_insert_eq by lia. done.
Qed.

(** * Ownership *)

(** The buffer of a pool that an entry refers to. *)
Definition tx_ref (d : data_ref) : option nat := match d with TxSlot i => Some i | _ => None end.
Definition retx_ref (d : data_ref) : option nat := match d with RetxSlot i => Some i | _ => None end.
Definition refers (ref : data_ref -> option nat) (e : entry) (i : nat) : Prop :=
  match fst e with OutTransmit t => ref (tm_data t) = Some i | OutEvent _ => False end.
(** The buffers in use are those that queued entries refer to, each by one, whose
    dequeue moves the head to the buffer's cursor. *)
Record owned (ref : data_ref -> option nat) (n : nat) (b : backing) (head : Z) (es : list entry) : Prop := {
  ow_size : length (bk_free_at b) = n /\ length (bk_bufs b) = n;
  ow_used : forall j e i, es !! j = Some e -> refers ref e i -> (i < n)%nat /\ Z.testbit (bk_in_use b) (Z.of_nat i) = true /\ bk_free_at b !! i = Some (cursor head (S j));
  ow_live : forall i, (i < n)%nat -> Z.testbit (bk_in_use b) (Z.of_nat i) = true -> exists j e, es !! j = Some e /\ refers ref e i
}.
Lemma release_bits_spec free_at head k : forall i in_use, (i + k <= length free_at)%nat ->
  exists in_use', release_bits k i free_at head in_use = Ok in_use' /\
    forall m, 0 <= m -> Z.testbit in_use' m = Z.testbit in_use m && negb (bool_decide ((Z.of_nat i <= m < Z.of_nat (i + k)) /\ free_at !! Z.to_nat m = Some head)).
Proof.
  induction k as [|k IH]; intros i in_use Hl; cbn [release_bits].
  { exists in_use. split; [done|]. intros m Hm. rewrite bool_decide_eq_false_2 by lia. by rewrite andb_true_r. }
  destruct (lookup_lt_is_Some_2 free_at i) as [f Hf]; [lia|]. rewrite Hf.
  destruct (IH (S i) (if Z.testbit in_use (Z.of_nat i) && (f =? head) then Z.clearbit in_use (Z.of_nat i) else in_use)) as (u & -> & Hu); [lia|].
  exists u. split; [done|]. intros m Hm. rewrite Hu by done.
  destruct (Z.eq_dec m (Z.of_nat i)) as [->|Hne].
  - rewrite bool_decide_eq_false_2 by lia. rewrite Nat2Z.id, Hf, andb_true_r. destruct (Z.testbit in_use (Z.of_nat i)) eqn:Hb; cbn [andb].
    + destruct (Z.eqb_spec f head) as [->|Hfh].
      * rewrite Z.clearbit_eq. rewrite bool_decide_eq_true_2 by (split; [lia | done]). done.
      * rewrite Hb. rewrite bool_decide_eq_false_2 by (intros [_ [=]]; done). done.
    + done.
  - assert (Z.testbit (if Z.testbit in_use (Z.of_nat i) && (f =? head) then Z.clearbit in_use (Z.of_nat i) else in_use) m = Z.testbit in_use m) as ->.
    { destruct (_ && _); [|done]. by rewrite Z.clearbit_neq by lia. }
    f_equal. f_equal. apply bool_decide_ext. split; intros [? ?]; (split; [lia | done]).
Qed.
Lemma release_owned ref n b head e es : is_u16 head -> (length es < NANORTC_OUT_QUEUE_SIZE)%nat -> owned ref n b head (e :: es) ->
  exists b', release_backing n b (cursor head 1) = Ok b' /\ owned ref n b' (cursor head 1) es /\ bk_bufs b' = bk_bufs b.
Proof.
  intros Hh Hl [[L1 L2] Hu Hlive]. unfold release_backing.
  destruct (release_bits_spec (bk_free_at b) (cursor head 1) n 0 (bk_in_use b)) as (u & -> & Hbit); [lia|]. rewrite bind_Ok.
  eexists. split; [done|]. split; [|done]. unfold NANORTC_OUT_QUEUE_SIZE in Hl. constructor; cbn [bk_free_at bk_bufs bk_in_use]; [done| |].
  - intros j x i Hx Hr. destruct (Hu (S j) x i Hx Hr) as (Hi & Hb & Hf). split; [done|]. pose proof (lookup_lt_Some _ _ _ Hx).
    split; [|rewrite Hf; f_equal; rewrite cursor_cursor; f_equal; lia]. rewrite Hbit, Hb by lia. rewrite bool_decide_eq_false_2; [done|].
    rewrite Nat2Z.id, Hf. intros [_ [= He]]. apply cursor_inj in He; lia.
  - intros i Hi Hb. rewrite Hbit in Hb by lia. apply andb_true_iff in Hb as [Hb Hd]. destruct (Hlive i Hi Hb) as ([|j] & x & Hx & Hr); [|by exists j, x].
    destruct (Hu 0%nat x i Hx Hr) as (_ & _ & Hf). rewrite bool_decide_eq_true_2 in Hd by (rewrite Nat2Z.id; split; [lia | done]). done.
Qed.
(** Queueing an entry that refers to none of the pool's buffers. *)
Lemma owned_app_other ref n b head es e : (forall i, ~ refers ref e i) -> owned ref n b head es -> owned ref n b head (es ++ [e]).
Proof.
  intros Hn [HL Hu Hlive]. constructor; [done| |].
  - intros j x i Hx Hr. apply lookup_app_Some in Hx as [Hx|[_ Hx]]; [by eapply Hu|]. apply list_lookup_singleton_Some in Hx as [_ <-]. by destruct (Hn i).
  - intros i Hi Hb. destruct (Hlive i Hi Hb) as (j & x & Hx & Hr). exists j, x. split; [by apply lookup_app_l_Some | done].
Qed.
(** One that refers to a free buffer, which is then pinned. *)
Lemma owned_app_pin ref n b head es e i tail : owned ref n b head es -> (i < n)%nat -> Z.testbit (bk_in_use b) (Z.of_nat i) = false ->
  (forall k, refers ref e k <-> k = i) -> tail = cursor head (S (length es)) ->
  exists b', pin_buffer b i tail = Ok b' /\ owned ref n b' head (es ++ [e]) /\ bk_bufs b' = bk_bufs b.
Proof.
  intros [[L1 L2] Hu Hlive] Hi Hfree Href ->. unfold pin_buffer. destruct (lookup_lt_is_Some_2 (bk_free_at b) i) as [f ->]; [lia|].
  eexists. split; [done|]. split; [|done]. constructor; cbn [bk_free_at bk_bufs bk_in_use]; [by rewrite length_insert| |].
  - intros j x k Hx Hr. apply lookup_app_Some in Hx as [Hx|[Hj Hx]].
    + destruct (Hu j x k Hx Hr) as (Hk & Hb & Hf). assert (k <> i) as Hne by (intros ->; congruence).
      split; [done|]. rewrite Z.setbit_neq by lia. split; [done|]. by rewrite list_lookup_insert_ne by done.
    + apply list_lookup_singleton_Some in Hx as [Hz <-]. apply Href in Hr as ->. split; [done|]. rewrite Z.setbit_eq by lia. split; [done|].
      rewrite list_lookup_insert_eq by lia. repeat f_equal. lia.
  - intros k Hk Hb. destruct (decide (k = i)) as [->|Hne].
    + exists (length es), e. rewrite lookup_app_r, Nat.sub_diag by done. split; [done | by apply Href].
    + rewrite Z.setbit_neq in Hb by lia. destruct (Hlive k Hk Hb) as (j & x & Hx & Hr). exists j, x. split; [by apply lookup_app_l_Some | done].
Qed.
(** Writing a buffer of the pool changes no ownership. *)
Lemma owned_bufs ref n b head es bufs : length bufs = n -> owned ref n b head es -> owned ref n (Backing bufs (bk_free_at b) (bk_in_use b)) head es.
Proof. intros Hl [[L1 L2] Hu Hlive]. by constructor. Qed.
