(* ===== verification/OutQueueSpec.v ===== *)
(** What the sending half of the connection promises: a bounded queue of packets
    and events, pending events and paced video packets; and how [OutQueue]'s
    state represents it. *)

From Stdlib Require Import ZArith Lia.
From stdpp Require Import base list numbers.
From S2P Require Import Prelude Wire Stun Ice Turn TurnRequests TurnHistory OutQueue OutQueueFifo.

Local Open Scope Z_scope.

(** * The abstract state *)

(** How a packet came into the queue: written for it, copied to answer a NACK, or
    released by the pacer. *)
Inductive packet_kind : Type := Transient | Retransmission | Media.
#[global] Instance packet_kind_eq_dec : EqDecision packet_kind.
Proof. solve_decision. Defined.
(** A packet as it was when it was queued; [pk_via] is the peer it is relayed to. *)
Record packet : Type := Packet { pk_kind : packet_kind; pk_octets : list Z; pk_dest : nanortc_addr; pk_src : nanortc_addr; pk_via : option nanortc_addr }.
Inductive item : Type := ItPacket (p : packet) | ItEvent (e : rtc_event).
Record sending : Type := Sending { sn_queue : list item; sn_pending : list rtc_event; sn_paced : list (list Z) }.

Definition kind_is (k : packet_kind) (it : item) : bool :=
  match it with ItPacket p => bool_decide (pk_kind p = k) | ItEvent _ => false end.
Definition count (k : packet_kind) (l : list item) : nat := length (List.filter (kind_is k) l).
Lemma count_app k l m : count k (l ++ m) = (count k l + count k m)%nat.
Proof. unfold count. by rewrite List.filter_app, length_app. Qed.
Lemma count_cons k it l : count k (it :: l) = ((if kind_is k it then 1 else 0) + count k l)%nat.
Proof. unfold count. cbn [List.filter]. by destruct (kind_is k it). Qed.

(** * Representation *)

Definition kind_of (d : data_ref) : packet_kind := match d with TxSlot _ => Transient | RetxSlot _ => Retransmission | _ => Media end.
Definition address_16 (a : nanortc_addr) : Prop := length (ad_addr a) = STUN_ADDR_SIZE /\ bytes (ad_addr a).
(** A queue entry stands for an item. *)
Definition shows (r : rtc) (e : entry) (it : item) : Prop :=
  match fst e, it with
  | OutEvent ev, ItEvent ev' => ev = ev'
  | OutTransmit t, ItPacket p =>
      tm_data t <> TurnBuf /\ octets_of r t = Ok (pk_octets p) /\ pk_kind p = kind_of (tm_data t) /\ pk_dest p = tm_dest t /\ pk_src p = tm_src t /\
      pk_via p = (if wm_via_turn (snd e) then Some (wm_peer_dest (snd e)) else None) /\ (wm_via_turn (snd e) = true -> address_16 (wm_peer_dest (snd e)))
  | _, _ => False
  end.
Record memory_ok (r : rtc) : Prop := {
  mo_tx : Forall (fun b => length b = NANORTC_TX_SLOT_SIZE) (bk_bufs (r_tx r));
  mo_retx : Forall (fun b => length b = NANORTC_MEDIA_BUF_SIZE) (bk_bufs (r_retx r));
  mo_ring : length (pr_bufs (r_ring r)) = NANORTC_VIDEO_PKT_RING_SIZE /\ Forall (fun b => length b = NANORTC_MEDIA_BUF_SIZE) (pr_bufs (r_ring r));
  mo_meta : length (pr_meta (r_ring r)) = NANORTC_VIDEO_PKT_RING_SIZE /\ Forall (fun m => (snd m <= NANORTC_MEDIA_BUF_SIZE)%nat) (pr_meta (r_ring r));
  mo_enqueue : length (pc_enqueue_ms (r_pacer r)) = NANORTC_VIDEO_PKT_RING_SIZE;
  mo_turn : length (r_turn_buf r) = NANORTC_TURN_BUF_SIZE;
  mo_cursor : (r_tx_cursor r < NANORTC_TX_SLOT_COUNT)%nat
}.
(** The cursor [n] places before. *)
Definition back (c : Z) (n : nat) : Z := u16 (c - Z.of_nat n).
Lemma cursor_back c n : is_u16 c -> cursor (back c n) n = c.
Proof. intros H. unfold cursor, back. mach. Qed.
Lemma back_cursor c n m : back (cursor c n) (n + m) = back c m.
Proof. unfold cursor, back. mach. Qed.
Record represents (r : rtc) (es : list entry) (s : sending) : Prop := {
  rp_ring : ring_holds (r_queue r) es;
  rp_items : Forall2 (shows r) es (sn_queue s);
  rp_tx : owned tx_ref NANORTC_TX_SLOT_COUNT (r_tx r) (oq_head (r_queue r)) es;
  rp_retx : owned retx_ref NANORTC_NACK_RETX_RING (r_retx r) (oq_head (r_queue r)) es;
  rp_memory : memory_ok r;
  rp_media : forall j t w i, es !! j = Some (OutTransmit t, w) -> tm_data t = PktSlot i ->
    i = out_slot (back (pc_head (r_pacer r)) (count Media (drop j (sn_queue s))));
  rp_pacer : is_u16 (pc_head (r_pacer r)) /\ pc_tail (r_pacer r) = pr_tail (r_ring r) /\ pr_tail (r_ring r) = cursor (pc_head (r_pacer r)) (length (sn_paced s));
  rp_paced : forall k d, sn_paced s !! k = Some d -> let i := out_slot (cursor (pc_head (r_pacer r)) k) in
    exists sq b, pr_meta (r_ring r) !! i = Some (sq, length d) /\ pr_bufs (r_ring r) !! i = Some b /\ take (length d) b = d /\ (0 < length d)%nat;
  rp_room : (count Media (sn_queue s) + length (sn_paced s) <= NANORTC_VIDEO_PKT_RING_SIZE)%nat;
  rp_pending : r_pending r = sn_pending s /\ (length (sn_pending s) <= NANORTC_PENDING_EVENT_SLOTS)%nat;
  rp_turn : turn_ok (r_turn r);
  rp_remote : address_16 (r_remote_addr r)
}.

(** * Frames *)

(** The queued packets of [es] have the same data in both states. *)
Definition same_data (r r' : rtc) (es : list entry) : Prop :=
  forall j t w, es !! j = Some (OutTransmit t, w) -> buffer_of r' (tm_data t) = buffer_of r (tm_data t).
Lemma shows_same r r' es its : same_data r r' es -> Forall2 (shows r) es its -> Forall2 (shows r') es its.
Proof.
  intros Hs H. apply Forall2_same_length_lookup. apply Forall2_same_length_lookup in H as [Hl H]. split; [done|].
  intros j [[t|ev] w] it He Hi; specialize (H j _ it He Hi); unfold shows in *; cbn [fst snd] in *; [|done]. destruct it as [p|]; [|done].
  destruct H as (H1 & H2 & H). split; [done|]. split; [|done]. unfold octets_of in *. by rewrite (Hs _ _ _ He).
Qed.
Lemma same_data_refl r es : same_data r r es.
Proof. by intros j t w _. Qed.
Lemma shows_not_turn r e it t w : shows r e it -> e = (OutTransmit t, w) -> tm_data t <> TurnBuf.
Proof. intros H ->. unfold shows in H. cbn in H. destruct it; [|done]. by destruct H. Qed.
Lemma entry_not_turn r es its j t w : Forall2 (shows r) es its -> es !! j = Some (OutTransmit t, w) -> tm_data t <> TurnBuf.
Proof.
  intros H Hj. apply Forall2_same_length_lookup in H as [Hl H]. destruct (lookup_lt_is_Some_2 its j) as [it Hit]; [rewrite <- Hl; by eapply lookup_lt_Some|].
  eapply shows_not_turn; [by eapply H | done].
Qed.

(** * Pools and the packets they hold *)

Definition kind_ref (k : packet_kind) : data_ref -> option nat := match k with Transient => tx_ref | Retransmission => retx_ref | Media => fun d => match d with PktSlot i => Some i | _ => None end end.
(** The buffers that the entries refer to. *)
Definition refs (ref : data_ref -> option nat) (es : list entry) : list nat :=
  omap (fun e : entry => match fst e with OutTransmit t => ref (tm_data t) | OutEvent _ => None end) es.
Lemma elem_of_refs ref es i : i ∈ refs ref es <-> exists j e, es !! j = Some e /\ refers ref e i.
Proof.
  unfold refs, refers. rewrite list_elem_of_omap. split.
  - intros (e & He & Hi). apply list_elem_of_lookup in He as [j Hj]. exists j, e. split; [done|]. by destruct (fst e).
  - intros (j & e & Hj & Hi). exists e. split; [by eapply list_elem_of_lookup_2|]. by destruct (fst e).
Qed.
Lemma refs_count r k es its : Forall2 (shows r) es its -> length (refs (kind_ref k) es) = count k its.
Proof.
  induction 1 as [|e it es its He _ IH]; [done|]. rewrite count_cons, <- IH. unfold refs. cbn [omap list_omap]. unfold shows in He.
  destruct (fst e) as [t|ev], it as [p|ev']; try done. destruct He as (Hn & _ & Hk & _). unfold kind_is. rewrite Hk.
  destruct k, (tm_data t); cbn; try done; by rewrite ?bool_decide_eq_true_2, ?bool_decide_eq_false_2.
Qed.
Lemma owned_nodup ref n b head es : (length es <= NANORTC_OUT_QUEUE_SIZE)%nat -> owned ref n b head es -> NoDup (refs ref es).
Proof.
  intros Hl [_ Hu _]. unfold NANORTC_OUT_QUEUE_SIZE in Hl.
  assert (forall l off, (off + length l <= 32)%nat -> (forall j e i, l !! j = Some e -> refers ref e i -> bk_free_at b !! i = Some (cursor head (S (off + j)))) -> NoDup (refs ref l)) as Hgen.
  { clear. induction l as [|e l IH]; intros off Ho H; [constructor|]. cbn [length] in Ho.
    assert (NoDup (refs ref l)) as Hn by (apply (IH (S off)); [lia|]; intros j x i Hx Hi; rewrite (H (S j) x i Hx Hi); do 2 f_equal; lia).
    unfold refs. cbn [omap list_omap]. destruct (match fst e with OutTransmit t => ref (tm_data t) | OutEvent _ => None end) as [i|] eqn:Hi; [|done].
    constructor; [|done]. intros Hin. apply elem_of_refs in Hin as (j & x & Hx & Hr). pose proof (lookup_lt_Some _ _ _ Hx).
    pose proof (H (S j) x i Hx Hr) as H1. rewrite (H 0%nat e i eq_refl) in H1 by (unfold refers; by destruct (fst e)). injection H1 as H1. apply cursor_inj in H1; lia. }
  apply (Hgen es 0%nat); [lia|]. intros j e i He Hr. by apply (Hu j e i).
Qed.
(** A pool is exhausted when as many packets as it has buffers wait in the queue. *)
Lemma pool_exhausted r k n b head es its : (length es <= NANORTC_OUT_QUEUE_SIZE)%nat -> Forall2 (shows r) es its -> owned (kind_ref k) n b head es ->
  (count k its <= n)%nat /\ ((forall i, (i < n)%nat -> Z.testbit (bk_in_use b) (Z.of_nat i) = true) <-> count k its = n).
Proof.
  intros Hl Hs Ho. pose proof (owned_nodup _ _ _ _ _ Hl Ho) as Hn. rewrite <- (refs_count r k es its Hs). destruct Ho as [_ Hu Hlive].
  assert (incl (refs (kind_ref k) es) (seq 0 n)) as Hincl.
  { intros i Hi%list_elem_of_In. apply elem_of_refs in Hi as (j & e & He & Hr). apply in_seq. destruct (Hu j e i He Hr). lia. }
  assert (NoDup (refs (kind_ref k) es)) as Hn' by done. apply NoDup_ListNoDup in Hn'. pose proof (NoDup_incl_length Hn' Hincl) as Hle. rewrite length_seq in Hle.
  split; [done|]. split.
  - intros Hall. assert (incl (seq 0 n) (refs (kind_ref k) es)) as Hback.
    { intros i Hi%in_seq. apply list_elem_of_In. apply elem_of_refs. apply Hlive; [lia|]. apply Hall. lia. }
    pose proof (NoDup_incl_length (List.seq_NoDup n 0) Hback) as H. rewrite length_seq in H. lia.
  - intros He i Hi. assert (In i (refs (kind_ref k) es)) as Hin.
    { apply (NoDup_length_incl Hn' (l' := seq 0 n)); [rewrite length_seq; lia | done | apply in_seq; lia]. }
    apply list_elem_of_In, elem_of_refs in Hin as (j & e & He' & Hr). by destruct (Hu j e i He' Hr) as (_ & ? & _).
Qed.
