(* ===== verification/OutQueueSteps.v ===== *)
(** The operations on the output queue implement the bounded queue of
    [OutQueueSpec]: transmitting, emitting an event, polling, and the TURN
    framing at the moment of the poll. *)

From Stdlib Require Import ZArith Lia.
From stdpp Require Import base list numbers.
From S2P Require Import Prelude Wire Stun Ice Turn TurnRequests TurnHistory OutQueue OutQueueFifo OutQueueSpec.

Local Open Scope Z_scope.

(** * The specification *)

(** What the application is handed. *)
Inductive sent : Type := SentPacket (octets : list Z) (dest src : nanortc_addr) | SentEvent (e : rtc_event).
Definition queue_full (s : sending) : bool := (NANORTC_OUT_QUEUE_SIZE <=? length (sn_queue s))%nat.
Definition push (s : sending) (it : item) : sending := Sending (sn_queue s ++ [it]) (sn_pending s) (sn_paced s).
(** A packet written for the queue: refused while the queue is full or four such
    packets wait in it. *)
Definition spec_transmit (s : sending) (p : packet) : sending * Z :=
  if queue_full s || (NANORTC_TX_SLOT_COUNT <=? count Transient (sn_queue s))%nat then (s, NANORTC_ERR_WOULD_BLOCK) else (push s (ItPacket p), NANORTC_OK).
(** An event: queued, or kept aside while the queue is full or others are kept,
    replacing one of its type and key. *)
Definition spec_event (s : sending) (e : rtc_event) : sending * Z :=
  if negb (is_payload e) && (negb (length (sn_pending s) =? 0)%nat || queue_full s) then
    match remove_pending e (sn_pending s) with
    | Some l => (Sending (sn_queue s) (l ++ [e]) (sn_paced s), NANORTC_OK)
    | None =>
        if (length (sn_pending s) =? NANORTC_PENDING_EVENT_SLOTS)%nat then (s, NANORTC_ERR_WOULD_BLOCK)
        else (Sending (sn_queue s) (sn_pending s ++ [e]) (sn_paced s), NANORTC_OK)
    end
  else if queue_full s then (s, NANORTC_ERR_BUFFER_TOO_SMALL) else (push s (ItEvent e), NANORTC_OK).

(** The Send indication that carries [data] to [peer]. *)
Definition send_indication (peer : nanortc_addr) (data : list Z) : list Z :=
  let txid := replicate STUN_TXID_SIZE 0 in
  let a := attr_bytes STUN_ATTR_XOR_PEER_ADDRESS (xor_value txid (ad_addr peer) (stun_family (ad_family peer)) (ad_port peer)) in
  let b := attr_bytes STUN_ATTR_DATA data in
  stun_header STUN_SEND_INDICATION (Z.of_nat (length (a ++ b))) txid ++ a ++ b.
(** The frame that relays [data] to [peer]: on its channel when one is bound, else
    as a Send indication; none when it does not fit the scratch buffer. *)
Definition relay_frame (t : nano_turn) (peer : nanortc_addr) (data : list Z) : option (list Z) :=
  let padded := attr_padded (Z.of_nat (length data)) in
  match turn_find_channel_for_peer t (ad_addr peer) (ad_family peer) (ad_port peer) with
  | Ok (Some channel) => if (NANORTC_TURN_BUF_SIZE <? 4 + padded)%nat then None else Some (channel_data channel data)
  | _ => if (NANORTC_TURN_BUF_SIZE <? STUN_HEADER_SIZE + 32 + 4 + padded)%nat then None else Some (send_indication peer data)
  end.
Definition deliver (t : nano_turn) (it : item) : option sent :=
  match it with
  | ItEvent e => Some (SentEvent e)
  | ItPacket p =>
      match pk_via p with
      | None => Some (SentPacket (pk_octets p) (pk_dest p) (pk_src p))
      | Some peer => frame ← relay_frame t peer (pk_octets p); Some (SentPacket frame (turn_server t) no_address)
      end
  end.
(** The first item that can be delivered, and what is left behind it. *)
Fixpoint spec_poll (t : nano_turn) (l : list item) : list item * option sent :=
  match l with
  | [] => ([], None)
  | it :: l => match deliver t it with Some out => (l, Some out) | None => spec_poll t l end
  end.

(** * Queueing *)

Section Queueing.
Context (r : rtc) (es : list entry) (s : sending) (H : represents r es s).

Lemma items_length : length es = length (sn_queue s).
Proof using H. exact (Forall2_length (rp_items _ _ _ H)). Qed.
Lemma queue_space : rtc_output_has_space (r_queue r) = negb (queue_full s).
Proof using H.
  rewrite (ring_holds_space _ _ (rp_ring _ _ _ H)), items_length. unfold queue_full, NANORTC_OUT_QUEUE_SIZE.
  destruct (Nat.leb_spec 32 (length (sn_queue s))), (Nat.ltb_spec (length (sn_queue s)) 32); cbn; lia || done.
Qed.
Lemma room_queue : (length es <= NANORTC_OUT_QUEUE_SIZE)%nat.
Proof using H. apply (rh_room _ _ (rp_ring _ _ _ H)). Qed.

(** A queued entry that is not from the packet ring, with the pools that then hold. *)
Lemma represents_push q st tx cur retx e it : ring_holds q (es ++ [e]) -> oq_head q = oq_head (r_queue r) -> shows r e it -> kind_is Media it = false ->
  owned tx_ref NANORTC_TX_SLOT_COUNT tx (oq_head q) (es ++ [e]) -> bk_bufs tx = bk_bufs (r_tx r) ->
  owned retx_ref NANORTC_NACK_RETX_RING retx (oq_head q) (es ++ [e]) -> bk_bufs retx = bk_bufs (r_retx r) -> (cur < NANORTC_TX_SLOT_COUNT)%nat ->
  represents (with_retx (with_tx (with_stats (with_queue r q) st) tx cur) retx) (es ++ [e]) (push s it).
Proof using H.
  intros Hq Hhead Hit Hk Htx Hbtx Hretx Hbretx Hcur. destruct H as [H1 H2 H3 H4 H5 H6 H7 H8 H9 H10 H11 H12].
  set (r' := with_retx _ _). assert (forall d, buffer_of r' d = buffer_of r d) as Hbuf by (intros []; unfold buffer_of, r'; cbn; rewrite ?Hbtx, ?Hbretx; done).
  constructor; cbn [push sn_queue sn_pending sn_paced]; try done.
  - apply (shows_same r); [by intros j t w _|]. apply Forall2_app; [done | by constructor].
  - destruct H5. constructor; cbn; rewrite ?Hbtx, ?Hbretx; done.
  - intros j t w i Hj Hd. destruct (Nat.lt_ge_cases j (length es)) as [Hlt|Hge].
    + rewrite lookup_app_l in Hj by done. rewrite (H6 _ _ _ _ Hj Hd). do 2 f_equal. rewrite drop_app_le by (rewrite <- items_length; lia).
      rewrite count_app, count_cons, Hk. cbn. lia.
    + rewrite lookup_app_r in Hj by done. apply list_lookup_singleton_Some in Hj as [_ ->]. unfold shows in Hit. cbn [fst] in Hit. destruct it as [p|]; [|done].
      destruct Hit as (_ & _ & Hkind & _). rewrite Hd in Hkind. cbn in Hkind, Hk. rewrite bool_decide_eq_true_2 in Hk by done. done.
  - rewrite count_app, count_cons, Hk. cbn. lia.
Qed.
Lemma with_same_pools q st : with_retx (with_tx (with_stats (with_queue r q) st) (r_tx r) (r_tx_cursor r)) (r_retx r) = with_stats (with_queue r q) st.
Proof using Type. done. Qed.

(** Enqueueing a packet whose data lie at [d]. *)
Lemma enqueue_ref_spec d len dest src route :
  (queue_full s = true /\ exists st, rtc_enqueue_transmit_ref r d len dest src route = Ok (with_stats r st, NANORTC_ERR_BUFFER_TOO_SMALL)) \/
  (queue_full s = false /\ exists q st w, rtc_enqueue_transmit_ref r d len dest src route = Ok (with_stats (with_queue r q) st, NANORTC_OK) /\
    ring_holds q (es ++ [(OutTransmit (Transmit d len dest (source_of (r_ice r) src)), w)]) /\ oq_head q = oq_head (r_queue r) /\ oq_tail q = cursor (oq_head q) (S (length es)) /\
    wm_via_turn w = needs_turn r route /\ (wm_via_turn w = true -> wm_peer_dest w = dest)).
Proof using H.
  pose proof (rp_ring _ _ _ H) as Hq. unfold rtc_enqueue_transmit_ref. cbv zeta.
  destruct (enqueue_output_spec (r_queue r) es (OutTransmit (Transmit d len dest (source_of (r_ice r) src))) Hq) as [[Hl ->]|[Hl (q & peer & -> & Hq' & Hh & Ht & Hwrap)]].
  - left. rewrite bind_Ok. split; [unfold queue_full; rewrite <- items_length, Hl; done|]. by eexists.
  - right. rewrite bind_Ok. cbn [negb Z.eqb NANORTC_OK].
    assert (oq_tail q = cursor (oq_head q) (S (length es))) as Htail by (rewrite Ht, (rh_tail _ _ Hq), Hh; by rewrite cursor_S).
    split; [unfold queue_full; rewrite <- items_length; by apply Nat.leb_gt|]. destruct (needs_turn r route) eqn:Hn.
    + destruct (Hwrap dest) as [Hq'' [w0 ->]]. eexists _, _, (WrapMeta true dest). split; [reflexivity|]. split; [exact Hq''|]. done.
    + destruct (negb (bool_decide (route = RTC_TX_ROUTE_DIRECT))).
      * exists q, (count_direct (r_stats r)), (WrapMeta false peer). done.
      * exists q, (r_stats r), (WrapMeta false peer). destruct r; done.
Qed.

(** The packet an entry for [d] is. *)
Definition packet_of (k : packet_kind) (octets : list Z) (dest : nanortc_addr) (src : option nanortc_addr) (route : rtc_tx_route) : packet :=
  Packet k octets dest (source_of (r_ice r) src) (if needs_turn r route then Some dest else None).
Lemma shows_packet d len dest src route w octets : d <> TurnBuf -> octets_of r (Transmit d len dest (source_of (r_ice r) src)) = Ok octets -> address_16 dest ->
  wm_via_turn w = needs_turn r route -> (wm_via_turn w = true -> wm_peer_dest w = dest) ->
  shows r (OutTransmit (Transmit d len dest (source_of (r_ice r) src)), w) (ItPacket (packet_of (kind_of d) octets dest src route)).
Proof using Type.
  intros Hd Ho Ha Hw Hp. unfold shows, packet_of. cbn. rewrite Hw. split_and!; try done.
  - rewrite <- Hw. destruct (wm_via_turn w) eqn:Hv; [|done]. by rewrite Hp.
  - intros Hn. rewrite Hp by congruence. done.
Qed.
End Queueing.

(** * Transmit slots *)

Lemma slot_position cur n : (cur < 4)%nat -> Z.to_nat (Z.land (Z.of_nat (cur + n)) 3) = ((cur + n) mod 4)%nat.
Proof. intros _. change 3 with (Z.ones 2). rewrite Z.land_ones by lia. change (2 ^ 2) with (Z.of_nat 4). by rewrite <- Nat2Z.inj_mod, Nat2Z.id. Qed.
Lemma find_tx_slot_spec cur in_use k : forall n, (cur < 4)%nat ->
  match find_tx_slot k n cur in_use with
  | Some i => (i < 4)%nat /\ Z.testbit in_use (Z.of_nat i) = false
  | None => forall m, (n <= m < n + k)%nat -> Z.testbit in_use (Z.of_nat ((cur + m) mod 4)) = true
  end.
Proof.
  induction k as [|k IH]; intros n Hc; cbn [find_tx_slot]; [lia|]. rewrite slot_position by done. destruct (Z.testbit in_use (Z.of_nat ((cur + n) mod 4))) eqn:Hb.
  - specialize (IH (S n) Hc). destruct (find_tx_slot k (S n) cur in_use); [done|]. intros m Hm. destruct (decide (m = n)) as [->|]; [done|]. apply IH. lia.
  - split; [|done]. apply Nat.mod_upper_bound. lia.
Qed.
(** The four positions from any cursor on are all the slots. *)
Lemma find_tx_slot_none cur in_use : (cur < 4)%nat -> find_tx_slot NANORTC_TX_SLOT_COUNT 0 cur in_use = None -> forall i, (i < 4)%nat -> Z.testbit in_use (Z.of_nat i) = true.
Proof.
  intros Hc Hf i Hi. pose proof (find_tx_slot_spec cur in_use NANORTC_TX_SLOT_COUNT 0 Hc) as H. rewrite Hf in H. unfold NANORTC_TX_SLOT_COUNT in H.
  specialize (H ((4 + i - cur) mod 4)%nat). rewrite <- H; [|pose proof (Nat.mod_upper_bound (4 + i - cur) 4); lia]. do 2 f_equal.
  rewrite Nat.Div0.add_mod_idemp_r. replace (cur + (4 + i - cur))%nat with (i + 1 * 4)%nat by lia. rewrite Nat.Div0.mod_add. by rewrite Nat.mod_small by lia.
Qed.

(** The fields that sending reads but does not change. *)
Definition same_env (r r' : rtc) : Prop :=
  r_turn r' = r_turn r /\ r_ice r' = r_ice r /\ r_remote_addr r' = r_remote_addr r /\ r_now_ms r' = r_now_ms r /\ r_bwe r' = r_bwe r /\ r_srtp r' = r_srtp r /\
  r_media r' = r_media r /\ r_media_count r' = r_media_count r /\ r_state r' = r_state r.
Lemma same_env_refl r : same_env r r.
Proof. done. Qed.
Lemma same_env_trans r1 r2 r3 : same_env r1 r2 -> same_env r2 r3 -> same_env r1 r3.
Proof. unfold same_env. intros (? & ? & ? & ? & ? & ? & ? & ? & ?) (? & ? & ? & ? & ? & ? & ? & ? & ?). split_and!; congruence. Qed.

(** Writing a buffer of a pool that is not in use. *)
Lemma represents_tx_buf r es s i b cur : represents r es s -> Z.testbit (bk_in_use (r_tx r)) (Z.of_nat i) = false -> length b = NANORTC_TX_SLOT_SIZE ->
  (cur < NANORTC_TX_SLOT_COUNT)%nat ->
  represents (with_tx r (Backing (<[i := b]> (bk_bufs (r_tx r))) (bk_free_at (r_tx r)) (bk_in_use (r_tx r))) cur) es s.
Proof.
  intros [H1 H2 H3 H4 H5 H6 H7 H8 H9 H10 H11 H12] Hbit Hb Hcur. constructor; try done.
  - apply (shows_same r); [|done]. intros j t w Hj. destruct (tm_data t) as [k| | |] eqn:Hd; try done. unfold buffer_of. cbn.
    rewrite list_lookup_insert_ne; [done|]. intros ->. destruct (ow_used _ _ _ _ _ H3 j _ k Hj) as (_ & Hu & _); [by unfold refers; cbn; rewrite Hd | congruence].
  - apply owned_bufs; [by rewrite length_insert; apply (ow_size _ _ _ _ _ H3) | done].
  - destruct H5 as [M1 M2 M3 M4 M5 M6 M7]. constructor; try done. cbn. by apply Forall_insert.
Qed.
Lemma represents_retx_buf r es s i b : represents r es s -> Z.testbit (bk_in_use (r_retx r)) (Z.of_nat i) = false -> length b = NANORTC_MEDIA_BUF_SIZE ->
  represents (with_retx r (Backing (<[i := b]> (bk_bufs (r_retx r))) (bk_free_at (r_retx r)) (bk_in_use (r_retx r)))) es s.
Proof.
  intros [H1 H2 H3 H4 H5 H6 H7 H8 H9 H10 H11 H12] Hbit Hb. constructor; try done.
  - apply (shows_same r); [|done]. intros j t w Hj. destruct (tm_data t) as [|k| |] eqn:Hd; try done. unfold buffer_of. cbn.
    rewrite list_lookup_insert_ne; [done|]. intros ->. destruct (ow_used _ _ _ _ _ H4 j _ k Hj) as (_ & Hu & _); [by unfold refers; cbn; rewrite Hd | congruence].
  - apply owned_bufs; [by rewrite length_insert; apply (ow_size _ _ _ _ _ H4) | done].
  - destruct H5 as [M1 M2 M3 M4 M5 M6 M7]. constructor; try done. cbn. by apply Forall_insert.
Qed.
Lemma represents_stats r es s st : represents r es s -> represents (with_stats r st) es s.
Proof.
  intros [H1 H2 H3 H4 H5 H6 H7 H8 H9 H10 H11 H12]. constructor; try done.
  destruct H5. by constructor.
Qed.

(** What a producer of a control packet does: acquire, write, commit. *)
Definition transmit_octets (r : rtc) (octets : list Z) (dest : nanortc_addr) (src : option nanortc_addr) (route : rtc_tx_route) : res (rtc * Z) :=
  let '(r, acquired) := nano_rtc_tx_slot_acquire r in
  match acquired with
  | None => Ok (r, NANORTC_ERR_WOULD_BLOCK)
  | Some slot => r ← write_tx_slot r slot octets; rtc_tx_slot_commit_route r slot (length octets) dest src route
  end.
Lemma acquire_spec r es s : represents r es s ->
  match nano_rtc_tx_slot_acquire r with
  | (r', None) => represents r' es s /\ same_env r r' /\ queue_full s || (NANORTC_TX_SLOT_COUNT <=? count Transient (sn_queue s))%nat = true
  | (r', Some i) => exists cur, r' = with_tx r (r_tx r) cur /\ (cur < NANORTC_TX_SLOT_COUNT)%nat /\ (i < NANORTC_TX_SLOT_COUNT)%nat /\
      Z.testbit (bk_in_use (r_tx r)) (Z.of_nat i) = false /\ queue_full s || (NANORTC_TX_SLOT_COUNT <=? count Transient (sn_queue s))%nat = false
  end.
Proof.
  intros H. unfold nano_rtc_tx_slot_acquire. rewrite (queue_space r es s H), negb_involutive. pose proof (rp_memory _ _ _ H) as Hm. pose proof (mo_cursor _ Hm) as Hc. unfold NANORTC_TX_SLOT_COUNT in Hc.
  destruct (queue_full s); [split; [by apply represents_stats | done]|]. cbn [orb].
  destruct (pool_exhausted r Transient _ _ _ _ _ (room_queue r es s H) (rp_items _ _ _ H) (rp_tx _ _ _ H)) as [Hle Hiff].
  pose proof (find_tx_slot_spec (r_tx_cursor r) (bk_in_use (r_tx r)) NANORTC_TX_SLOT_COUNT 0 Hc) as Hf. destruct (find_tx_slot _ _ _ _) as [i|] eqn:He.
  - destruct Hf as [Hi Hb]. eexists. split; [done|]. unfold NANORTC_TX_SLOT_COUNT in *. split; [replace (i + 1)%nat with (i + 1 + 0)%nat by lia|].
    { change 3 with (Z.ones 2). rewrite Z.land_ones by lia. change (2 ^ 2) with (Z.of_nat 4). rewrite <- Nat2Z.inj_mod, Nat2Z.id. apply Nat.mod_upper_bound. lia. }
    split; [done|]. split; [done|]. apply Nat.leb_gt. destruct (decide (count Transient (sn_queue s) = 4%nat)) as [E|]; [|lia]. rewrite (proj2 Hiff E i Hi) in Hb. done.
  - split; [done|]. split; [done|]. apply Nat.leb_le. rewrite (proj1 Hiff); [done|]. exact (find_tx_slot_none _ _ Hc He).
Qed.
(** Committing slot [i], whose buffer starts with [octets]. *)
Lemma commit_spec r es s i octets b dest src route : represents r es s -> queue_full s = false -> (i < NANORTC_TX_SLOT_COUNT)%nat -> Z.testbit (bk_in_use (r_tx r)) (Z.of_nat i) = false ->
  bk_bufs (r_tx r) !! i = Some b -> take (length octets) b = octets -> address_16 dest ->
  exists r' es', rtc_tx_slot_commit_route r i (length octets) dest src route = Ok (r', NANORTC_OK) /\ same_env r r' /\ pr_bufs (r_ring r') = pr_bufs (r_ring r) /\
    represents r' es' (push s (ItPacket (packet_of r Transient octets dest src route))).
Proof.
  intros H Hfull Hi Hbit Hb Ho Ha. unfold rtc_tx_slot_commit_route. rewrite (proj2 (Nat.leb_gt _ _) Hi). cbn [orb].
  assert (length b = NANORTC_TX_SLOT_SIZE) as Hl by exact (proj1 (Forall_lookup _ _) (mo_tx _ (rp_memory _ _ _ H)) i b Hb).
  assert (length octets <= length b)%nat as Hle by (rewrite <- Ho, length_take; lia). rewrite (proj2 (Nat.ltb_ge _ _)) by (rewrite <- Hl; done). rewrite Hbit.
  destruct (enqueue_ref_spec r es s H (TxSlot i) (length octets) dest src route) as [[? _]|(_ & q & st & w & -> & Hq & Hh & Ht & Hw1 & Hw2)]; [congruence|].
  rewrite bind_Ok. cbn [negb Z.eqb NANORTC_OK r_tx r_queue with_stats with_queue].
  pose proof (rp_tx _ _ _ H) as Htx. rewrite <- Hh in Htx.
  destruct (owned_app_pin tx_ref NANORTC_TX_SLOT_COUNT (r_tx r) (oq_head q) es (OutTransmit (Transmit (TxSlot i) (length octets) dest (source_of (r_ice r) src)), w) i (oq_tail q)) as (tx & -> & Htx' & Hbufs);
    [done | done | done | intros k; unfold refers; cbn; split; congruence | done|].
  rewrite bind_Ok. eexists _, _. split; [reflexivity|]. split; [done|]. split; [done|].
  change (with_tx (with_stats (with_queue r q) st) tx (r_tx_cursor (with_stats (with_queue r q) st))) with (with_retx (with_tx (with_stats (with_queue r q) st) tx (r_tx_cursor r)) (r_retx r)).
  apply (represents_push r es s H); try done.
  - apply (shows_packet r (TxSlot i)); try done. unfold octets_of, buffer_of. cbn [tm_data tm_len]. rewrite Hb, bind_Ok, rdn_Ok by lia. by rewrite drop_0, Ho.
  - rewrite Hh. apply owned_app_other; [|apply (rp_retx _ _ _ H)]. intros k. unfold refers. cbn. congruence.
  - apply (mo_cursor _ (rp_memory _ _ _ H)).
Qed.
Lemma transmit_refines r es s octets dest src route : represents r es s -> (length octets <= NANORTC_TX_SLOT_SIZE)%nat -> address_16 dest ->
  let '(s', rc) := spec_transmit s (packet_of r Transient octets dest src route) in
  exists r' es', transmit_octets r octets dest src route = Ok (r', rc) /\ represents r' es' s' /\ same_env r r'.
Proof.
  intros H Hl Ha. unfold transmit_octets, spec_transmit. pose proof (acquire_spec r es s H) as Hacq. destruct (nano_rtc_tx_slot_acquire r) as [r1 [i|]].
  - destruct Hacq as (cur & -> & Hcur & Hi & Hbit & Hg). rewrite Hg. apply orb_false_iff in Hg as [Hfull _].
    pose proof (rp_memory _ _ _ H) as Hm. destruct (ow_size _ _ _ _ _ (rp_tx _ _ _ H)) as [_ L2]. destruct (lookup_lt_is_Some_2 (bk_bufs (r_tx r)) i) as [b Hb]; [lia|].
    pose proof (proj1 (Forall_lookup _ _) (mo_tx _ Hm) i b Hb) as Hbl. cbn in Hbl. unfold write_tx_slot. cbn [r_tx with_tx r_tx_cursor]. rewrite Hb. rewrite wr_Ok by lia. rewrite !bind_Ok, take_0, app_nil_l, Nat.add_0_l.
    set (b' := octets ++ drop (length octets) b). assert (length b' = NANORTC_TX_SLOT_SIZE) as Hb' by (unfold b'; rewrite length_app, length_drop; lia).
    pose proof (represents_tx_buf r es s i b' cur H Hbit Hb' Hcur) as H1.
    destruct (commit_spec _ es s i octets b' dest src route H1 Hfull Hi) as (r' & es' & Hrun & He & _ & Hr'); [done | cbn; apply list_lookup_insert_eq; lia | unfold b'; by rewrite take_app_length | done|].
    exists r', es'. split; [exact Hrun|]. split; [exact Hr' | exact He].
  - destruct Hacq as (H1 & He & ->). exists r1, es. done.
Qed.

(** * Events *)

Lemma remove_pending_length e l l' : remove_pending e l = Some l' -> length l = S (length l').
Proof.
  revert l'. induction l as [|x l IH]; intros l'; cbn [remove_pending]; [done|]. destruct (_ && _); [by intros [= ->]|].
  destruct (remove_pending e l) as [m|]; cbn; [|done]. intros [= <-]. cbn [length]. by rewrite (IH m).
Qed.
Lemma represents_events r es s l : represents r es s -> (length l <= NANORTC_PENDING_EVENT_SLOTS)%nat -> represents (with_events r l) es (Sending (sn_queue s) l (sn_paced s)).
Proof.
  intros [H1 H2 H3 H4 H5 H6 H7 H8 H9 H10 H11 H12] Hl. constructor; try done.
  destruct H5. by constructor.
Qed.
Lemma emit_event_refines r es s e : represents r es s ->
  let '(s', rc) := spec_event s e in exists r' es', nano_rtc_emit_event_full r e = Ok (r', rc) /\ represents r' es' s' /\ same_env r r'.
Proof.
  intros H. unfold spec_event, nano_rtc_emit_event_full. rewrite (queue_space r es s H), negb_involutive. destruct (rp_pending _ _ _ H) as [-> Hp].
  destruct (negb (is_payload e) && _) eqn:Hside.
  - destruct (remove_pending e (sn_pending s)) as [l|] eqn:Hr.
    + eexists _, es. split; [reflexivity|]. split; [|done]. apply represents_events; [done|]. apply remove_pending_length in Hr. rewrite length_app. cbn [length]. lia.
    + destruct (Nat.eqb_spec (length (sn_pending s)) NANORTC_PENDING_EVENT_SLOTS) as [|Hne]; [by exists r, es|].
      eexists _, es. split; [reflexivity|]. split; [|done]. apply represents_events; [done|]. rewrite length_app. cbn [length]. lia.
  - destruct (enqueue_output_spec (r_queue r) es (OutEvent e) (rp_ring _ _ _ H)) as [[Hl ->]|[Hl (q & peer & -> & Hq' & Hh & Ht & _)]]; rewrite bind_Ok.
    + assert (queue_full s = true) as -> by (unfold queue_full; rewrite <- (items_length r es s H), Hl; done). exists (with_queue r (r_queue r)), es. destruct r; done.
    + assert (queue_full s = false) as -> by (unfold queue_full; rewrite <- (items_length r es s H); by apply Nat.leb_gt).
      exists (with_queue r q), (es ++ [(OutEvent e, WrapMeta false peer)]). split; [done|]. split; [|done].
      change (with_queue r q) with (with_retx (with_tx (with_stats (with_queue r q) (r_stats r)) (r_tx r) (r_tx_cursor r)) (r_retx r)).
      apply (represents_push r es s H); try done.
      * rewrite Hh. apply owned_app_other; [intros k; unfold refers; cbn; tauto | apply (rp_tx _ _ _ H)].
      * rewrite Hh. apply owned_app_other; [intros k; unfold refers; cbn; tauto | apply (rp_retx _ _ _ H)].
      * apply (mo_cursor _ (rp_memory _ _ _ H)).
Qed.

(** * Polling *)

(** The output as the application reads it. *)
Definition render (r : rtc) (o : rtc_output) : res sent :=
  match o with OutTransmit t => octets ← octets_of r t; Ok (SentPacket octets (tm_dest t) (tm_src t)) | OutEvent e => Ok (SentEvent e) end.
Lemma find_channel_Ok t peer : turn_ok t -> address_16 peer -> exists o, turn_find_channel_for_peer t (ad_addr peer) (ad_family peer) (ad_port peer) = Ok o.
Proof.
  intros Hok [Ha _]. destruct (to_channels t Hok) as [[L1 L2] _ He Hnum Hd]. unfold turn_find_channel_for_peer, turn_find_channel.
  destruct (find_channel_spec ch_bound (ad_addr peer) (ad_family peer) (ad_port peer) (tu_channel_count t) (tu_channels t) 0) as (o & -> & Ho); [lia | done | done|]. rewrite bind_Ok.
  destruct o as [i|]; [|by eexists]. destruct Ho as [_ (c & Hc & _)]. unfold get_turn_channel. rewrite Hc. by eexists.
Qed.
Lemma wrap_send_spec peer data buf : address_16 peer -> (length data <= NANORTC_TX_SLOT_SIZE)%nat ->
  turn_wrap_send (ad_addr peer) (ad_family peer) (ad_port peer) data buf =
  (if (length buf <? STUN_HEADER_SIZE + 32 + 4 + attr_padded (Z.of_nat (length data)))%nat then Err NANORTC_ERR_BUFFER_TOO_SMALL
   else let f := send_indication peer data in Ok (f ++ drop (length f) buf, length f)).
Proof.
  intros [Ha Hab] Hl. unfold turn_wrap_send. cbv zeta. destruct (Nat.ltb_spec (length buf) (STUN_HEADER_SIZE + 32 + 4 + attr_padded (Z.of_nat (length data)))) as [|Hb]; [done|].
  assert (Z.of_nat (length data) <= 2048) as Hz by (unfold NANORTC_TX_SLOT_SIZE in Hl; lia).
  assert (is_u16 (Z.of_nat (length data))) as Hu by mach. set (txid := replicate STUN_TXID_SIZE 0).
  rewrite stun_write_header_Ok by (done || lia). rewrite bind_Ok.
  pose proof (xor_value_length txid (ad_addr peer) _ (ad_port peer) eq_refl (stun_family_fam (ad_family peer))) as Hxl.
  assert (addr_size (stun_family (ad_family peer)) <= 16)%nat as Has by (unfold addr_size; destruct (_ =? _); lia). unfold STUN_ADDR_SIZE in Ha. specialize (Hxl ltac:(lia)).
  set (a := attr_bytes STUN_ATTR_XOR_PEER_ADDRESS (xor_value txid (ad_addr peer) (stun_family (ad_family peer)) (ad_port peer))).
  assert (length a <= 24)%nat as Hal.
  { unfold a. rewrite attr_bytes_length by (rewrite Hxl; mach). rewrite attr_padded_eq by (rewrite Hxl; mach). rewrite Hxl, Nat2Z.id. pose proof (Nat.Div0.div_le_mono (4 + addr_size (stun_family (ad_family peer)) + 3) 23 4 ltac:(lia)) as Hd. change (23 / 4)%nat with 5%nat in Hd. lia. }
  pose proof (stun_header_length STUN_SEND_INDICATION 0 txid eq_refl) as Hh.
  rewrite stun_encode_xor_addr_spec by (rewrite ?length_drop; fold txid a; first [done | rewrite Hh; done | unfold STUN_HEADER_SIZE in *; lia]). fold a. rewrite bind_Ok. cbv beta iota.
  rewrite (u16_id _ Hu), Nat2Z.id, rdn_Ok, drop_0, (firstn_all data), bind_Ok by lia.
  pose proof (attr_bytes_length STUN_ATTR_DATA data Hu) as Hdl. set (b := attr_bytes STUN_ATTR_DATA data) in *.
  rewrite stun_write_attr_spec by (rewrite ?length_app, ?length_drop, ?Hh; fold b; first [done | unfold STUN_HEADER_SIZE in *; lia]). fold b. rewrite bind_Ok. cbv beta iota.
  unfold stun_finalize_length. rewrite drop_drop, <- !app_assoc, patch_length, bind_Ok. unfold send_indication. cbv zeta. fold txid a b.
  assert (forall l, length (stun_header STUN_SEND_INDICATION l txid) = STUN_HEADER_SIZE) as Hh' by (intros l; by apply stun_header_length).
  assert (u16 (Z.of_nat (STUN_HEADER_SIZE + length a + length b - STUN_HEADER_SIZE)) = Z.of_nat (length (a ++ b))) as ->.
  { rewrite length_app. replace (STUN_HEADER_SIZE + length a + length b - STUN_HEADER_SIZE)%nat with (length a + length b)%nat by lia. apply u16_id.
    assert (length b <= 4 + 2051)%nat as Hbl; [|unfold is_u16; lia]. rewrite Hdl, attr_padded_eq, Nat2Z.id by done. pose proof (Nat.Div0.mul_div_le (length data + 3) 4). lia. }
  rewrite (length_app (stun_header _ _ _)), Hh', length_app. apply (f_equal Ok), injective_projections; cbn [fst snd]; [|lia]. rewrite <- !app_assoc. do 3 f_equal. by rewrite drop_drop.
Qed.
Lemma wrap_output_spec r peer data : turn_ok (r_turn r) -> address_16 peer -> (length data <= NANORTC_TX_SLOT_SIZE)%nat -> length (r_turn_buf r) = NANORTC_TURN_BUF_SIZE ->
  wrap_output r peer data = Ok (f ← relay_frame (r_turn r) peer data; Some (f ++ drop (length f) (r_turn_buf r), length f)) /\
  forall f, relay_frame (r_turn r) peer data = Some f -> (0 < length f <= NANORTC_TURN_BUF_SIZE)%nat.
Proof.
  intros Hok Ha Hl Hbuf. unfold wrap_output, relay_frame. destruct (find_channel_Ok (r_turn r) peer Hok Ha) as [o ->]. rewrite bind_Ok. cbv zeta.
  assert (Z.of_nat (length data) <= 2048) as Hz by (unfold NANORTC_TX_SLOT_SIZE in Hl; lia). assert (is_u16 (Z.of_nat (length data))) as Hu by mach.
  destruct o as [channel|].
  - rewrite wrap_channel_data_spec, Hbuf by lia. destruct (Nat.ltb_spec NANORTC_TURN_BUF_SIZE (4 + attr_padded (Z.of_nat (length data)))) as [|Hf]; [done|].
    pose proof (attr_padded_ge _ Hu) as Hge. rewrite Nat2Z.id in Hge.
    assert (length (channel_data channel data) = 4 + attr_padded (Z.of_nat (length data)))%nat as Hcl by (unfold channel_data; cbv zeta; rewrite !length_app, length_replicate; cbn [length be16]; lia).
    rewrite (proj2 (Nat.eqb_neq _ _)) by lia. split; [done|]. intros f [= <-]. lia.
  - rewrite wrap_send_spec, Hbuf by done. destruct (Nat.ltb_spec NANORTC_TURN_BUF_SIZE (STUN_HEADER_SIZE + 32 + 4 + attr_padded (Z.of_nat (length data)))) as [|Hf]; [done|]. cbv zeta.
    assert (length (send_indication peer data) <= STUN_HEADER_SIZE + 24 + 4 + attr_padded (Z.of_nat (length data)) /\ 0 < length (send_indication peer data))%nat as [Hs1 Hs2].
    { unfold send_indication. cbv zeta. rewrite !length_app, stun_header_length, (attr_bytes_length _ data Hu) by done.
      destruct Ha as [Ha _]. unfold STUN_ADDR_SIZE in Ha. assert (addr_size (stun_family (ad_family peer)) <= 16)%nat as Has by (unfold addr_size; destruct (_ =? _); lia).
      pose proof (xor_value_length (replicate STUN_TXID_SIZE 0) (ad_addr peer) _ (ad_port peer) eq_refl (stun_family_fam (ad_family peer)) ltac:(lia)) as Hxl.
      rewrite attr_bytes_length by (rewrite Hxl; mach). rewrite attr_padded_eq by (rewrite Hxl; mach). rewrite Hxl, Nat2Z.id. pose proof (Nat.Div0.div_le_mono (4 + addr_size (stun_family (ad_family peer)) + 3) 23 4 ltac:(lia)) as Hd. change (23 / 4)%nat with 5%nat in Hd. unfold STUN_HEADER_SIZE. lia. }
    rewrite (proj2 (Nat.eqb_neq _ _)) by lia. split; [done|]. intros f [= <-]. unfold STUN_HEADER_SIZE in *. lia.
Qed.

Lemma octets_small r es its j t w octets : memory_ok r -> Forall2 (shows r) es its -> es !! j = Some (OutTransmit t, w) -> octets_of r t = Ok octets -> (length octets <= NANORTC_TX_SLOT_SIZE)%nat.
Proof.
  intros Hm Hs Hj Ho. pose proof (entry_not_turn r es its j t w Hs Hj) as Hn. unfold octets_of in Ho. apply bind_Ok_inv in Ho as (b & Hb & Ho). apply rdn_inv in Ho as [Hle ->].
  assert (length b <= NANORTC_TX_SLOT_SIZE)%nat as Hbl; [|rewrite length_take, length_drop; lia].
  assert (NANORTC_MEDIA_BUF_SIZE <= NANORTC_TX_SLOT_SIZE)%nat as Hms by (apply Nat2Z.inj_le; vm_compute; done).
  unfold buffer_of in Hb. destruct (tm_data t) as [i|i|i|]; [| | |done].
  - destruct (bk_bufs (r_tx r) !! i) as [x|] eqn:Hx; [|done]. injection Hb as ->. pose proof (proj1 (Forall_lookup _ _) (mo_tx _ Hm) i b Hx) as E. cbn in E. lia.
  - destruct (bk_bufs (r_retx r) !! i) as [x|] eqn:Hx; [|done]. injection Hb as ->. pose proof (proj1 (Forall_lookup _ _) (mo_retx _ Hm) i b Hx) as E. cbn in E. lia.
  - destruct (pr_bufs (r_ring r) !! i) as [x|] eqn:Hx; [|done]. injection Hb as ->. pose proof (proj1 (Forall_lookup _ _) (proj2 (mo_ring _ Hm)) i b Hx) as E. cbn in E. lia.
Qed.
(** Taking the first entry off: its buffers are given back, and still hold its data. *)
Lemma represents_pop r e es it l p q : represents r (e :: es) (Sending (it :: l) p q) ->
  exists r', advance_head r = Ok r' /\ represents r' es (Sending l p q) /\ same_env r r' /\ r_turn_buf r' = r_turn_buf r /\ (forall d, buffer_of r' d = buffer_of r d).
Proof.
  intros H. pose proof (room_queue _ _ _ H) as Hroom. cbn [length] in Hroom. destruct H as [H1 H2 H3 H4 H5 H6 H7 H8 H9 H10 H11 H12]. pose proof (rh_head _ _ H1) as Hh.
  assert (u16 (oq_head (r_queue r) + 1) = cursor (oq_head (r_queue r)) 1) as Hc by (unfold cursor; f_equal; lia).
  unfold advance_head, rtc_release_output_backing. cbn [r_queue r_tx r_retx with_queue oq_head r_tx_cursor]. rewrite Hc.
  destruct (release_owned tx_ref _ _ _ e es Hh ltac:(lia) H3) as (tx & -> & Htx & Hbtx). rewrite bind_Ok.
  destruct (release_owned retx_ref _ _ _ e es Hh ltac:(lia) H4) as (retx & -> & Hretx & Hbretx). rewrite bind_Ok.
  eexists. split; [reflexivity|]. set (r' := with_retx _ _). assert (forall d, buffer_of r' d = buffer_of r d) as Hbuf by (intros []; unfold buffer_of, r'; cbn; rewrite ?Hbtx, ?Hbretx; done).
  split; [|done]. cbn [sn_queue sn_pending sn_paced] in *. constructor; cbn [sn_queue sn_pending sn_paced]; try done.
  - unfold r'. cbn. rewrite <- Hc. by apply ring_pop with e.
  - apply (shows_same r); [by intros j t w _|]. by inversion H2.
  - destruct H5. constructor; cbn; rewrite ?Hbtx, ?Hbretx; done.
  - intros j t w i Hj Hd. by apply (H6 (S j) t w i).
  - rewrite count_cons in H9. lia.
Qed.
Lemma represents_turn_buf r es s b : represents r es s -> length b = NANORTC_TURN_BUF_SIZE -> represents (with_turn_buf r b) es s.
Proof.
  intros [H1 H2 H3 H4 H5 H6 H7 H8 H9 H10 H11 H12] Hb. constructor; try done.
  - apply (shows_same r); [|done]. intros j t w Hj. pose proof (entry_not_turn r es _ j t w H2 Hj). unfold buffer_of. by destruct (tm_data t).
  - destruct H5. by constructor.
Qed.
Lemma poll_queue_refines fuel : forall r es s, represents r es s -> (length es < fuel)%nat ->
  let '(l, out) := spec_poll (r_turn r) (sn_queue s) in
  exists r' es' o, poll_queue fuel r = Ok (r', o) /\ represents r' es' (Sending l (sn_pending s) (sn_paced s)) /\ same_env r r' /\
    match out with None => o = None | Some x => exists o', o = Some o' /\ render r' o' = Ok x end.
Proof.
  induction fuel as [|fuel IH]; intros r es [l p q] H Hf; [lia|]. cbn [sn_queue sn_pending sn_paced]. cbn [poll_queue]. pose proof (rp_ring _ _ _ H) as Hring. pose proof (rp_items _ _ _ H) as Hitems. cbn [sn_queue] in Hitems.
  destruct es as [|e es].
  { inversion Hitems; subst. rewrite (ring_empty _ Hring). exists r, [], None. done. }
  inversion Hitems as [|? it ? l' Hit Hrest]; subst. destruct (ring_front _ _ _ Hring) as (-> & -> & ->). cbn [length] in Hf.
  cbn [spec_poll deliver]. destruct e as [[t|ev] w]; cbn [fst snd]; unfold shows in Hit; cbn [fst snd] in Hit; destruct it as [pk|ev']; try done.
  2: { subst ev'. cbn [deliver]. destruct (represents_pop _ _ _ _ _ _ _ H) as (r' & Hr & Hr' & He & _). rewrite Hr, bind_Ok. exists r', es, (Some (OutEvent ev)). split; [done|]. split; [done|]. split; [done|]. by eexists. }
  destruct Hit as (Hd & Ho & Hk & Hdest & Hsrc & Hvia & Ha). destruct w as [via peer]. cbn [wm_via_turn wm_peer_dest deliver] in *. destruct via; rewrite Hvia.
  - specialize (Ha eq_refl). rewrite Ho, bind_Ok. pose proof (octets_small r _ _ 0 t _ _ (rp_memory _ _ _ H) Hitems eq_refl Ho) as Hsmall.
    destruct (wrap_output_spec r peer (pk_octets pk) (rp_turn _ _ _ H) Ha Hsmall (mo_turn _ (rp_memory _ _ _ H))) as [-> Hfr]. rewrite bind_Ok.
    destruct (relay_frame (r_turn r) peer (pk_octets pk)) as [f|]; cbn [mbind option_bind].
    + specialize (Hfr f eq_refl). set (b := f ++ drop (length f) (r_turn_buf r)). pose proof (mo_turn _ (rp_memory _ _ _ H)) as Hbl.
      assert (length b = NANORTC_TURN_BUF_SIZE) as Hb by (unfold b; rewrite length_app, length_drop; lia).
      destruct (represents_pop _ _ _ _ _ _ _ (represents_turn_buf _ _ _ b H Hb)) as (r' & Hr & Hr' & He & Htb & _). rewrite Hr, bind_Ok.
      assert (r_turn r' = r_turn r) as Het by (destruct He as (Het & _); by rewrite Het).
      eexists r', es, _. split; [reflexivity|]. split; [done|]. split; [exact He|]. eexists. split; [done|]. cbn [render]. unfold octets_of, buffer_of. cbn [tm_data tm_len]. rewrite bind_Ok, Htb. cbn [r_turn_buf with_turn_buf].
      rewrite rdn_Ok by lia. rewrite bind_Ok, drop_0. unfold b. rewrite take_app_length. cbn. by rewrite Het.
    + destruct (represents_pop _ _ _ _ _ _ _ (represents_stats _ _ _ (count_wrap_dropped (r_stats r)) H)) as (r' & Hr & Hr' & He & _). rewrite Hr, bind_Ok.
      assert (r_turn r' = r_turn r) as Het by (destruct He as (Het & _); by rewrite Het).
      specialize (IH r' es _ Hr' ltac:(lia)). cbn [sn_queue sn_pending sn_paced] in IH. rewrite Het in IH. destruct (spec_poll (r_turn r) l') as [l2 out].
      destruct IH as (r2 & es2 & o & Hp & Hrep & He2 & Hout). exists r2, es2, o. split; [done|]. split; [done|]. split; [by eapply same_env_trans | done].
  - destruct (represents_pop _ _ _ _ _ _ _ H) as (r' & Hr & Hr' & He & _ & Hbuf). rewrite Hr, bind_Ok. exists r', es, (Some (OutTransmit t)). split; [done|]. split; [done|]. split; [done|].
    eexists. split; [done|]. cbn [render]. unfold octets_of in *. rewrite Hbuf, Ho, bind_Ok. by rewrite Hdest, Hsrc.
Qed.
Lemma poll_queued_refines r es s : represents r es s ->
  let '(l, out) := spec_poll (r_turn r) (sn_queue s) in
  exists r' es' o, rtc_poll_queued_output r = Ok (r', o) /\ represents r' es' (Sending l (sn_pending s) (sn_paced s)) /\ same_env r r' /\
    match out with None => o = None | Some x => exists o', o = Some o' /\ render r' o' = Ok x end.
Proof. intros H. unfold rtc_poll_queued_output. apply (poll_queue_refines _ r es s H). rewrite (ring_holds_used _ _ (rp_ring _ _ _ H)). lia. Qed.
