(* ===== verification/VideoSend.v ===== *)
(** Sending media, [src/nano_rtc_media.c]: audio and video frames through RTP
    and SRTP, the video packet ring and the pacer that meters it into the output
    queue, RTCP feedback requests, and the answer to a NACK.  Forward error
    correction is off, its default. *)

From Stdlib Require Import ZArith Lia.
From stdpp Require Import base list numbers.
From S2P Require Import Prelude Wire Sdp Stun Ice Turn Fragment AnnexB H264 H265 Srtp Rtp Rtcp Bwe Media OutQueue.

Local Open Scope Z_scope.

Definition NANORTC_STATE_DTLS_CONNECTED : Z := 4.
Definition NANORTC_MAX_NALS_PER_AU : nat := 16.
Definition NANORTC_PACING_FACTOR_PCT : Z := 150.
Definition NANORTC_PACING_MAX_BURST_BYTES : Z := 3000.
Definition NANORTC_PACING_MIN_RATE_BPS : Z := 100000.
Definition NANORTC_PACING_MAX_QUEUE_MS : Z := 40.

Definition count_overrun s := TxStats (st_tx_queue_full s) (st_enqueue_via_turn s) (st_enqueue_direct s) (st_wrap_dropped s) (u32 (st_pkt_ring_overrun s + 1)) (st_paced_packets s) (st_pace_catchup s).
Definition count_paced s := TxStats (st_tx_queue_full s) (st_enqueue_via_turn s) (st_enqueue_direct s) (st_wrap_dropped s) (st_pkt_ring_overrun s) (u32 (st_paced_packets s + 1)) (st_pace_catchup s).
Definition count_catchup s := TxStats (st_tx_queue_full s) (st_enqueue_via_turn s) (st_enqueue_direct s) (st_wrap_dropped s) (st_pkt_ring_overrun s) (st_paced_packets s) (u32 (st_pace_catchup s + 1)).

(** * Packet ring *)

Definition pc_depth (p : nano_pacer) : Z := u16 (pc_tail p - pc_head p).
Definition pkt_ring_alloc_slot (r : rtc) : rtc * nat :=
  let out_inflight := u16 (oq_used (r_queue r) + pc_depth (r_pacer r)) in
  let r := if Z.of_nat NANORTC_VIDEO_PKT_RING_SIZE <=? out_inflight then with_stats r (count_overrun (r_stats r)) else r in
  (r, out_slot (pr_tail (r_ring r))).
Definition pkt_ring_commit_slot (r : rtc) (pslot : nat) (wire_seq : Z) (srtp_len : nat) : res rtc :=
  match pr_meta (r_ring r) !! pslot with
  | None => Fault
  | Some _ => Ok (with_ring r (PktRing (pr_bufs (r_ring r)) (<[pslot := (wire_seq, srtp_len)]> (pr_meta (r_ring r))) (u16 (pr_tail (r_ring r) + 1))))
  end.
Definition put_packet (r : rtc) (pslot : nat) (buf : list Z) : rtc :=
  with_ring r (PktRing (<[pslot := buf]> (pr_bufs (r_ring r))) (pr_meta (r_ring r)) (pr_tail (r_ring r))).

(** * Pacer *)

Definition pacer_rate_bps (bwe : nano_bwe) : Z :=
  let est := if estimated_bitrate bwe <? NANORTC_PACING_MIN_RATE_BPS then NANORTC_PACING_MIN_RATE_BPS else estimated_bitrate bwe in
  let rate := est * NANORTC_PACING_FACTOR_PCT / 100 in
  if UINT32_MAX <? rate then UINT32_MAX else rate.
Definition nano_rtc_pacer_enqueue (r : rtc) (pslot : nat) : res rtc :=
  let p := r_pacer r in
  match pc_enqueue_ms p !! pslot with
  | None => Fault
  | Some _ => Ok (with_pacer r (Pacer (pc_head p) (pr_tail (r_ring r)) (pc_budget_bytes p) (pc_last_refill_ms p) (pc_refill_inited p) (pc_next_release_ms p) (<[pslot := r_now_ms r]> (pc_enqueue_ms p))))
  end.
Definition pacer_refill (p : nano_pacer) (now rate : Z) : nano_pacer :=
  let p := if pc_refill_inited p then p else Pacer (pc_head p) (pc_tail p) (pc_budget_bytes p) now true (pc_next_release_ms p) (pc_enqueue_ms p) in
  let elapsed := nano_time_elapsed now (pc_last_refill_ms p) in
  let elapsed := if 1000 <? elapsed then 1000 else elapsed in
  if 0 <? elapsed then
    let budget := pc_budget_bytes p + rate * elapsed / 8000 in
    let budget := if NANORTC_PACING_MAX_BURST_BYTES <? budget then NANORTC_PACING_MAX_BURST_BYTES else budget in
    Pacer (pc_head p) (pc_tail p) budget now (pc_refill_inited p) (pc_next_release_ms p) (pc_enqueue_ms p)
  else p.
Definition pacer_advance (p : nano_pacer) (budget : Z) : nano_pacer :=
  Pacer (u16 (pc_head p + 1)) (pc_tail p) budget (pc_last_refill_ms p) (pc_refill_inited p) (pc_next_release_ms p) (pc_enqueue_ms p).
(** The loop that releases what is due; every turn advances the head. *)
Fixpoint pacer_release (fuel : nat) (r : rtc) : res rtc :=
  match fuel with
  | O => Fault
  | S fuel =>
      let p := r_pacer r in
      if pc_head p =? pc_tail p then Ok r else
      let slot := out_slot (pc_head p) in
      match pr_meta (r_ring r) !! slot, pc_enqueue_ms p !! slot with
      | Some (_, len), Some enqueue_ms =>
          if (len =? 0)%nat then pacer_release fuel (with_pacer r (pacer_advance p (pc_budget_bytes p))) else
          let have_budget := Z.of_nat len <=? pc_budget_bytes p in
          let aged := NANORTC_PACING_MAX_QUEUE_MS <=? nano_time_elapsed (r_now_ms r) enqueue_ms in
          if negb have_budget && negb aged then Ok r else
          if Z.of_nat NANORTC_OUT_QUEUE_SIZE <=? oq_used (r_queue r) then Ok r else
          '(r, rc) ← nano_rtc_enqueue_transmit r (PktSlot slot) len (r_remote_addr r) false;
          if negb (rc =? NANORTC_OK) then Ok r else
          let '(budget, s) := if have_budget then (pc_budget_bytes p - Z.of_nat len, r_stats r) else (0, count_catchup (r_stats r)) in
          pacer_release fuel (with_pacer (with_stats r (count_paced s)) (pacer_advance p budget))
      | _, _ => Fault
      end
  end.
Definition pacer_next_release (r : rtc) (rate : Z) : res Z :=
  let p := r_pacer r in let now := r_now_ms r in
  if pc_head p =? pc_tail p then Ok now else
  let slot := out_slot (pc_head p) in
  match pr_meta (r_ring r) !! slot, pc_enqueue_ms p !! slot with
  | Some (_, len), Some enqueue_ms =>
      let deficit := if pc_budget_bytes p <? Z.of_nat len then Z.of_nat len - pc_budget_bytes p else 0 in
      let wait := if 0 <? rate then u32 ((deficit * 8000 + rate - 1) / rate) else 1 in
      let age := nano_time_elapsed now enqueue_ms in
      let until_age := if NANORTC_PACING_MAX_QUEUE_MS <=? age then 0 else NANORTC_PACING_MAX_QUEUE_MS - age in
      let wait := if until_age <? wait then until_age else wait in
      Ok (if wait =? 0 then now else nano_time_deadline now wait)
  | _, _ => Fault
  end.
Definition nano_rtc_pacer_pump (r : rtc) : res rtc :=
  let p := r_pacer r in
  if pc_head p =? pc_tail p then Ok r else
  let rate := pacer_rate_bps (r_bwe r) in
  r ← pacer_release (S (Z.to_nat (pc_depth p))) (with_pacer r (pacer_refill p (r_now_ms r) rate));
  next ← pacer_next_release r rate;
  let p := r_pacer r in
  Ok (with_pacer r (Pacer (pc_head p) (pc_tail p) (pc_budget_bytes p) (pc_last_refill_ms p) (pc_refill_inited p) next (pc_enqueue_ms p))).
Definition nano_rtc_pacer_next_deadline_ms (p : nano_pacer) (now_ms : Z) : Z :=
  if pc_head p =? pc_tail p then UINT32_MAX else nano_time_until now_ms (pc_next_release_ms p).

(** * Frames *)

Definition pts_ms_to_rtp (pts_ms clock_rate : Z) : Z := u32 (u64 (pts_ms * clock_rate) / 1000).
Definition is_h265 (codec : Z) : bool := codec =? NANORTC_CODEC_H265.
(** The packets of one NAL unit. *)
Definition nal_worst_packets (nal_len : nat) (codec : Z) : nat :=
  if (nal_len <=? NANORTC_VIDEO_MTU)%nat then 1 else
  if is_h265 codec then let per := (NANORTC_VIDEO_MTU - H265_FU_HEADER_SIZE)%nat in (nal_len - H265_NAL_HEADER_SIZE + per - 1) / per
  else let per := (NANORTC_VIDEO_MTU - H264_FUA_HEADER_SIZE)%nat in (nal_len - 1 + per - 1) / per.
Fixpoint worst_packets (fuel : nat) (buf : list Z) (codec : Z) (offset total : nat) : res nat :=
  match fuel with
  | O => Fault
  | S fuel =>
      if (length buf <=? offset)%nat then Ok total else
      nal ← nano_annex_b_find_nal buf offset;
      match nal with
      | None => Ok total
      | Some (_, nal_len, offset) =>
          if (nal_len =? 0)%nat then Ok total else worst_packets fuel buf codec offset (total + nal_worst_packets nal_len codec)
      end
  end.
Definition video_frame_worst_packets (buf : list Z) (codec : Z) : res nat := worst_packets (S (length buf)) buf codec 0 0.

Definition set_marker (p : nano_rtp) (marker : bool) : nano_rtp :=
  NanoRtp (rtp_seq p) (rtp_ssrc p) (rtp_payload_type p) (if marker then 1 else 0) (rtp_twcc_ext_id p) (rtp_twcc_seq p).
Definition count_sent (c : nano_rtcp) (len : nat) : nano_rtcp :=
  NanoRtcp (rtcp_ssrc c) (u32 (rtcp_packets_sent c + 1)) (u32 (rtcp_octets_sent c + Z.of_nat len)) (rtcp_packets_received c) (rtcp_packets_lost c)
    (rtcp_remote_ssrc c) (rtcp_last_sr_ntp c) (rtcp_last_sr_recv_ms c) (rtcp_last_sr_recv_valid c) (rtcp_max_seq c) (rtcp_jitter c).
Definition with_rtp (m : nanortc_track) (rtp : nano_rtp) : nanortc_track :=
  Track (tr_mid m) (tr_kind m) (tr_direction m) (tr_active m) rtp (tr_rtcp m) (tr_rate_window m) (tr_fraction_lost m) (tr_codec m) (tr_sample_rate m) (tr_channels m) (tr_media m).
Definition with_sent (m : nanortc_track) (rtcp : nano_rtcp) (w : nano_rate_window) : nanortc_track :=
  Track (tr_mid m) (tr_kind m) (tr_direction m) (tr_active m) (tr_rtp m) rtcp w (tr_fraction_lost m) (tr_codec m) (tr_sample_rate m) (tr_channels m) (tr_media m).
Definition track_sent (m : nanortc_track) (now_ms : Z) (payload_len srtp_len : nat) : nanortc_track :=
  with_sent m (count_sent (tr_rtcp m) payload_len) (rate_window_on_bytes (tr_rate_window m) now_ms (Z.of_nat srtp_len)).
Definition get_track (r : rtc) (i : nat) : res nanortc_track := match r_media r !! i with Some m => Ok m | None => Fault end.
Definition put_track (r : rtc) (i : nat) (m : nanortc_track) : rtc := with_media r (r_srtp r) (<[i := m]> (r_media r)).
Definition get_packet (r : rtc) (pslot : nat) : res (list Z) := match pr_bufs (r_ring r) !! pslot with Some b => Ok b | None => Fault end.

Section Crypto.
Context (aes_128_cm : list Z -> list Z -> list Z -> Z * list Z) (hmac_sha1_80 : list Z -> list Z -> list Z).

(** RTP, SRTP and the ring for one payload, of which [None] means that it is
    staged in the buffer behind the header: what [rtc_send_video] and
    [video_send_fragment_cb] do with a fragment. *)
Definition video_send_packet (r : rtc) (i pslot : nat) (pkt_buf : list Z) (timestamp : Z) (payload : option (list Z)) (payload_len : nat) (marker : bool) : res (rtc * Z) :=
  m ← get_track r i;
  let m := with_rtp m (set_marker (tr_rtp m) marker) in
  match rtp_pack (tr_rtp m) timestamp payload payload_len pkt_buf with
  | Fault => Fault
  | Err rc => Ok (put_packet (put_track r i m) pslot pkt_buf, rc)
  | Ok (rtp, pkt_buf, rtp_len) =>
      let m := with_rtp m rtp in
      '(srtp, pkt_buf, out) ← nano_srtp_protect aes_128_cm hmac_sha1_80 (r_srtp r) pkt_buf rtp_len;
      let r := put_packet (with_media r srtp (<[i := m]> (r_media r))) pslot pkt_buf in
      match out with
      | inl rc => Ok (r, rc)
      | inr srtp_len =>
          let r := put_track r i (track_sent m (r_now_ms r) payload_len srtp_len) in
          r ← pkt_ring_commit_slot r pslot (u16 (rtp_seq rtp - 1)) (Z.to_nat (u16 (Z.of_nat srtp_len)));
          r ← nano_rtc_pacer_enqueue r pslot;
          Ok (r, NANORTC_OK)
      end
  end.

(** The body offset behind the RTP header. *)
Definition payload_offset (rtp : nano_rtp) : nat := (RTP_HEADER_SIZE + (if rtp_has_twcc rtp then RTP_TWCC_EXT_OVERHEAD else 0))%nat.
Fixpoint send_video_loop (fuel : nat) (r : rtc) (i off : nat) (timestamp : Z) (it : h264_fragment_iter) (is_last_nal : bool) : res (rtc * Z) :=
  match fuel with
  | O => Fault
  | S fuel =>
      if h264_fragment_iter_has_next it then
        let '(r, pslot) := pkt_ring_alloc_slot r in
        pkt_buf ← get_packet r pslot;
        match h264_fragment_iter_next it (drop off pkt_buf) with
        | Fault => Fault
        | Err rc => Ok (r, rc)
        | Ok (it', scratch, payload, is_last_frag) =>
            let pkt_buf := take off pkt_buf ++ scratch in
            '(r, rc) ← video_send_packet r i pslot pkt_buf timestamp (if it_single_nal it then Some payload else None) (length payload) (is_last_frag && is_last_nal);
            if negb (rc =? NANORTC_OK) then Ok (r, rc) else send_video_loop fuel r i off timestamp it' is_last_nal
        end
      else Ok (r, NANORTC_OK)
  end.
(** Every fragment takes an octet of the unit. *)
Definition rtc_send_video (r : rtc) (i : nat) (timestamp : Z) (nal : list Z) (marker : bool) : res (rtc * Z) :=
  match h264_fragment_iter_init nal NANORTC_VIDEO_MTU with
  | Fault => Fault
  | Err rc => Ok (r, rc)
  | Ok it =>
      m ← get_track r i;
      let off := payload_offset (tr_rtp m) in
      if (NANORTC_MEDIA_BUF_SIZE <=? off)%nat then Ok (r, NANORTC_ERR_BUFFER_TOO_SMALL)
      else send_video_loop (S (S (length nal))) r i off timestamp it marker
  end.

Definition video_send_fragment_cb (r : rtc) (i : nat) (timestamp : Z) (payload : list Z) (marker : bool) : res (rtc * Z) :=
  let '(r, pslot) := pkt_ring_alloc_slot r in
  pkt_buf ← get_packet r pslot;
  video_send_packet r i pslot pkt_buf timestamp (Some payload) (length payload) marker.
(** The callback's state is the connection with [last_rc], or its fault. *)
Definition h265_send_cb (i : nat) (timestamp : Z) : packet_cb (res (rtc * Z)) := fun u payload marker =>
  match u with
  | Ok (r, _) => match video_send_fragment_cb r i timestamp payload marker with Ok (r, rc) => (Ok (r, rc), rc) | e => (e, NANORTC_ERR_INTERNAL) end
  | e => (e, NANORTC_ERR_INTERNAL)
  end.
(** The units of a frame, at most [n] of them. *)
Fixpoint collect_nals (fuel n : nat) (buf : list Z) (offset : nat) : res (list h265_nal_ref) :=
  match fuel, n with
  | O, _ => Fault
  | _, O => Ok []
  | S fuel, S n =>
      if (length buf <=? offset)%nat then Ok [] else
      nal ← nano_annex_b_find_nal buf offset;
      match nal with
      | None => Ok []
      | Some (start, nal_len, offset) =>
          if (nal_len =? 0)%nat then Ok [] else
          d ← rdn buf start nal_len;
          rest ← collect_nals fuel n buf offset;
          Ok (Some d :: rest)
      end
  end.
Definition rtc_send_video_h265 (r : rtc) (i : nat) (timestamp : Z) (buf : list Z) : res (rtc * Z) :=
  nals ← collect_nals (S (length buf)) NANORTC_MAX_NALS_PER_AU buf 0;
  if (length nals =? 0)%nat then Ok (r, NANORTC_OK) else
  '(u, rc) ← h265_packetize_au (h265_send_cb i timestamp) nals NANORTC_VIDEO_MTU (Ok (r, NANORTC_OK));
  '(r, last_rc) ← u;
  Ok (r, if negb (rc =? NANORTC_OK) then rc else last_rc).
(** The H.264 units of a frame in turn. *)
Fixpoint send_video_nals (fuel : nat) (r : rtc) (i : nat) (timestamp : Z) (buf : list Z) (offset : nat) (last_rc : Z) : res (rtc * Z) :=
  match fuel with
  | O => Fault
  | S fuel =>
      if (length buf <=? offset)%nat then Ok (r, last_rc) else
      nal ← nano_annex_b_find_nal buf offset;
      match nal with
      | None => Ok (r, last_rc)
      | Some (start, nal_len, offset) =>
          if (nal_len =? 0)%nat then Ok (r, last_rc) else
          d ← rdn buf start nal_len;
          next ← nano_annex_b_find_nal buf offset;
          '(r, rc) ← rtc_send_video r i timestamp d (match next with None => true | Some _ => false end);
          if negb (rc =? NANORTC_OK) then Ok (r, rc) else send_video_nals fuel r i timestamp buf offset rc
      end
  end.
Definition may_send (dir : Z) : bool := negb ((dir =? NANORTC_DIR_RECVONLY) || (dir =? NANORTC_DIR_INACTIVE)).
(** The packets in flight of the ring: output queue and pacer. *)
Definition ring_occupied (r : rtc) : Z := oq_used (r_queue r) + pc_depth (r_pacer r).
Definition nanortc_send_video (r : rtc) (mid pts_ms : Z) (buf : list Z) : res (rtc * Z) :=
  if (length buf =? 0)%nat then Ok (r, NANORTC_ERR_INVALID_PARAM) else
  if (r_state r <? NANORTC_STATE_DTLS_CONNECTED) || negb (sr_ready (r_srtp r)) then Ok (r, NANORTC_ERR_STATE) else
  found ← track_find_by_mid (r_media r) (r_media_count r) mid;
  match found with
  | None => Ok (r, NANORTC_ERR_INVALID_PARAM)
  | Some i =>
      m ← get_track r i;
      match tr_kind m with
      | TRACK_AUDIO => Ok (r, NANORTC_ERR_INVALID_PARAM)
      | TRACK_VIDEO =>
          if negb (may_send (tr_direction m)) then Ok (r, NANORTC_ERR_STATE) else
          needed ← video_frame_worst_packets buf (u8 (tr_codec m));
          if (needed =? 0)%nat then Ok (r, NANORTC_OK) else
          let cap := NANORTC_VIDEO_PKT_RING_SIZE in
          if (cap <? needed)%nat then Ok (r, NANORTC_ERR_BUFFER_TOO_SMALL) else
          let occupied := ring_occupied r in
          if (Z.of_nat cap <=? occupied) || (Z.of_nat cap - occupied <? Z.of_nat needed) then Ok (r, NANORTC_ERR_WOULD_BLOCK) else
          let r := put_track r i (with_sent m (tr_rtcp m) (rate_window_on_frame (tr_rate_window m) (r_now_ms r))) in
          let ts := pts_ms_to_rtp pts_ms 90000 in
          if is_h265 (tr_codec m) then rtc_send_video_h265 r i ts buf
          else send_video_nals (S (length buf)) r i ts buf 0 NANORTC_OK
      end
  end.

(** * Audio and RTCP requests *)

Definition with_seqs (p : nano_rtp) (seq twcc_seq : Z) : nano_rtp :=
  NanoRtp seq (rtp_ssrc p) (rtp_payload_type p) (rtp_marker p) (rtp_twcc_ext_id p) twcc_seq.
(** The first [n] octets of a slot handed to a writer of [n] octets. *)
Definition get_slot (r : rtc) (slot : nat) : res (list Z) := match bk_bufs (r_tx r) !! slot with Some b => Ok b | None => Fault end.
Definition put_slot (r : rtc) (slot : nat) (b : list Z) : rtc :=
  with_tx r (Backing (<[slot := b]> (bk_bufs (r_tx r))) (bk_free_at (r_tx r)) (bk_in_use (r_tx r))) (r_tx_cursor r).
Definition rtc_send_audio (r : rtc) (i : nat) (timestamp : Z) (data : list Z) : res (rtc * Z) :=
  m ← get_track r i;
  let overhead := (payload_offset (tr_rtp m) + NANORTC_SRTP_AUTH_TAG_SIZE)%nat in
  if (NANORTC_MEDIA_BUF_SIZE <? overhead)%nat || (NANORTC_MEDIA_BUF_SIZE - overhead <? length data)%nat then Ok (r, NANORTC_ERR_BUFFER_TOO_SMALL) else
  let '(r, acquired) := nano_rtc_tx_slot_acquire r in
  match acquired with
  | None => Ok (r, NANORTC_ERR_WOULD_BLOCK)
  | Some slot =>
      tx_buf ← get_slot r slot;
      let seq_before := rtp_seq (tr_rtp m) in let twcc_before := rtp_twcc_seq (tr_rtp m) in
      let room := (NANORTC_MEDIA_BUF_SIZE - NANORTC_SRTP_AUTH_TAG_SIZE)%nat in
      match rtp_pack (tr_rtp m) timestamp (Some data) (length data) (take room tx_buf) with
      | Fault => Fault
      | Err rc => Ok (r, rc)
      | Ok (rtp, packed, rtp_len) =>
          let rolled_back r := put_track r i (with_rtp m (with_seqs rtp seq_before twcc_before)) in
          '(srtp, tx_buf, out) ← nano_srtp_protect aes_128_cm hmac_sha1_80 (r_srtp r) (packed ++ drop room tx_buf) rtp_len;
          let r := put_slot (with_media r srtp (r_media r)) slot tx_buf in
          match out with
          | inl rc => Ok (rolled_back r, rc)
          | inr srtp_len =>
              '(r, rc) ← nano_rtc_tx_slot_commit r slot srtp_len (r_remote_addr r) false;
              if negb (rc =? NANORTC_OK) then Ok (rolled_back r, rc)
              else Ok (put_track r i (track_sent (with_rtp m rtp) (r_now_ms r) (length data) srtp_len), NANORTC_OK)
          end
      end
  end.
Definition nanortc_send_audio (r : rtc) (mid pts_ms : Z) (data : list Z) : res (rtc * Z) :=
  if (length data =? 0)%nat then Ok (r, NANORTC_ERR_INVALID_PARAM) else
  if (r_state r <? NANORTC_STATE_DTLS_CONNECTED) || negb (sr_ready (r_srtp r)) then Ok (r, NANORTC_ERR_STATE) else
  found ← track_find_by_mid (r_media r) (r_media_count r) mid;
  match found with
  | None => Ok (r, NANORTC_ERR_INVALID_PARAM)
  | Some i =>
      m ← get_track r i;
      match tr_kind m with
      | TRACK_VIDEO => Ok (r, NANORTC_ERR_INVALID_PARAM)
      | TRACK_AUDIO =>
          if negb (may_send (tr_direction m)) then Ok (r, NANORTC_ERR_STATE)
          else rtc_send_audio r i (pts_ms_to_rtp pts_ms (tr_sample_rate m)) data
      end
  end.
(** Both feedback requests build their packet with [generate]. *)
Definition rtc_emit_feedback (r : rtc) (generate : list Z -> res (list Z * nat)) : res (rtc * Z) :=
  let '(r, acquired) := nano_rtc_tx_slot_acquire r in
  match acquired with
  | None => Ok (r, NANORTC_ERR_WOULD_BLOCK)
  | Some slot =>
      tx_buf ← get_slot r slot;
      match generate tx_buf with
      | Fault => Fault
      | Err rc => Ok (r, rc)
      | Ok (tx_buf, len) =>
          '(srtp, tx_buf, out) ← nano_srtp_protect_rtcp aes_128_cm hmac_sha1_80 (r_srtp r) tx_buf len;
          let r := put_slot (with_media r srtp (r_media r)) slot tx_buf in
          match out with
          | inl rc => Ok (r, rc)
          | inr srtcp_len => nano_rtc_tx_slot_commit r slot srtcp_len (r_remote_addr r) false
          end
      end
  end.
Definition rtc_emit_pli (r : rtc) (m : nanortc_track) : res (rtc * Z) :=
  rtc_emit_feedback r (rtcp_generate_pli (rtcp_ssrc (tr_rtcp m)) (rtcp_remote_ssrc (tr_rtcp m))).
Definition rtc_emit_nack (r : rtc) (m : nanortc_track) (pid blp : Z) : res (rtc * Z) :=
  rtc_emit_feedback r (rtcp_generate_nack (rtcp_ssrc (tr_rtcp m)) (rtcp_remote_ssrc (tr_rtcp m)) pid blp).
Definition nanortc_request_keyframe (r : rtc) (mid : Z) : res (rtc * Z) :=
  if (r_state r <? NANORTC_STATE_DTLS_CONNECTED) || negb (sr_ready (r_srtp r)) then Ok (r, NANORTC_ERR_STATE) else
  found ← track_find_by_mid (r_media r) (r_media_count r) mid;
  match found with
  | None => Ok (r, NANORTC_ERR_INVALID_PARAM)
  | Some i => m ← get_track r i; match tr_kind m with TRACK_AUDIO => Ok (r, NANORTC_ERR_INVALID_PARAM) | TRACK_VIDEO => rtc_emit_pli r m end
  end.
End Crypto.

(** * Answering a NACK *)

(** The sequence numbers [nack_pid] and the bits of [nack_blp] name. *)
Definition lost_seqs (nack_pid nack_blp : Z) : list Z :=
  nack_pid :: map (fun bit => u16 (nack_pid + 1 + Z.of_nat bit)) (filter (fun bit => Z.testbit nack_blp (Z.of_nat bit) = true) (seq 0 16)).
(** The first of [k] ring slots from [s] on with this packet. *)
Fixpoint find_packet (k s : nat) (ring : pkt_ring) (seq ssrc : Z) : res (option (nat * nat)) :=
  match k with
  | O => Ok None
  | S k =>
      match pr_meta ring !! s, pr_bufs ring !! s with
      | Some (sq, len), Some buf =>
          if (len =? 0)%nat || negb (sq =? seq) || (len <? RTP_HEADER_SIZE)%nat then find_packet k (S s) ring seq ssrc else
          media_ssrc ← nanortc_read_u32be buf 8;
          if negb (media_ssrc =? ssrc) then find_packet k (S s) ring seq ssrc else Ok (Some (s, len))
      | _, _ => Fault
      end
  end.
Fixpoint find_free (k j : nat) (in_use : Z) : option nat :=
  match k with O => None | S k => if Z.testbit in_use (Z.of_nat j) then find_free k (S j) in_use else Some j end.
Definition retransmit (r : rtc) (seq ssrc : Z) : res rtc :=
  found ← find_packet NANORTC_VIDEO_PKT_RING_SIZE 0 (r_ring r) seq ssrc;
  match found with
  | None => Ok r
  | Some (s, plen) =>
      match find_free NANORTC_NACK_RETX_RING 0 (bk_in_use (r_retx r)) with
      | None => Ok r
      | Some rslot =>
          packet ← get_packet r s;
          packet ← rdn packet 0 plen;
          match bk_bufs (r_retx r) !! rslot with
          | None => Fault
          | Some b =>
              b ← wr b 0 packet;
              let r := with_retx r (Backing (<[rslot := b]> (bk_bufs (r_retx r))) (bk_free_at (r_retx r)) (bk_in_use (r_retx r))) in
              '(r, rc) ← nano_rtc_enqueue_transmit r (RetxSlot rslot) plen (r_remote_addr r) false;
              if negb (rc =? NANORTC_OK) then Ok r else
              retx ← pin_buffer (r_retx r) rslot (oq_tail (r_queue r));
              Ok (with_retx r retx)
          end
      end
  end.
Fixpoint retransmit_all (seqs : list Z) (ssrc : Z) (r : rtc) : res rtc :=
  match seqs with [] => Ok r | s :: seqs => r ← retransmit r s ssrc; retransmit_all seqs ssrc r end.
Definition rtc_answer_nack (r : rtc) (nack_pid nack_blp nack_media_ssrc : Z) : res rtc :=
  retransmit_all (lost_seqs nack_pid nack_blp) nack_media_ssrc r.

(** * Polling *)

(** [nanortc_poll_output] up to the pending events: the pacer, the queue, then
    the events; [None] when it goes on to what the components have to deliver. *)
Definition poll_output_front (r : rtc) : res (rtc * option rtc_output) :=
  r ← nano_rtc_pacer_pump r;
  '(r, out) ← rtc_poll_queued_output r;
  match out with
  | Some out => Ok (r, Some out)
  | None => match poll_pending r with Some (r, e) => Ok (r, Some e) | None => Ok (r, None) end
  end.
