(* ===== verification/VideoSteps.v ===== *)
(** The pacer, the packet ring and the answers to NACKs implement the paced
    packets and the queue of [OutQueueSpec]. *)

From Stdlib Require Import ZArith Lia.
From stdpp Require Import base list numbers.
From S2P Require Import Prelude Wire Sdp Stun Ice Turn TurnRequests TurnHistory Fragment AnnexB H264 H265 Srtp Rtp Rtcp Bwe Media OutQueue OutQueueFifo OutQueueSpec OutQueueSteps VideoSend.

Local Open Scope Z_scope.

(** * The pacer *)

(** A paced packet in the queue. *)
Definition media_item (r : rtc) (d : list Z) : item := ItPacket (packet_of r Media d (r_remote_addr r) None RTC_TX_ROUTE_SELECTED).
Lemma media_item_kind r d : kind_is Media (media_item r d) = true.
Proof. by apply bool_decide_eq_true_2. Qed.
Definition release (r : rtc) (k : nat) (s : sending) : sending :=
  Sending (sn_queue s ++ map (media_item r) (take k (sn_paced s))) (sn_pending s) (drop k (sn_paced s)).
Lemma release_0 r s : release r 0 s = s.
Proof. destruct s as [q p d]. unfold release. cbn [sn_queue sn_pending sn_paced]. by rewrite take_0, drop_0, app_nil_r. Qed.
Lemma represents_clock r es s p : represents r es s -> pc_head p = pc_head (r_pacer r) -> pc_tail p = pc_tail (r_pacer r) -> length (pc_enqueue_ms p) = NANORTC_VIDEO_PKT_RING_SIZE ->
  represents (with_pacer r p) es s.
Proof.
  intros [H1 H2 H3 H4 H5 H6 H7 H8 H9 H10 H11 H12] Hh Ht Hl. constructor; cbn [r_pacer with_pacer r_ring]; rewrite ?Hh, ?Ht; try done.
  destruct H5. by constructor.
Qed.
Lemma needs_turn_env r r' route : same_env r r' -> needs_turn r' route = needs_turn r route.
Proof. intros (E1 & E2 & _). unfold needs_turn. by rewrite E1, E2. Qed.
Lemma media_item_env r r' d : same_env r r' -> media_item r' d = media_item r d.
Proof. intros He. pose proof (needs_turn_env r r' RTC_TX_ROUTE_SELECTED He) as Hn. destruct He as (E1 & E2 & E3 & _). unfold media_item, packet_of. by rewrite Hn, E2, E3. Qed.
Lemma release_env r r' k s : same_env r r' -> release r' k s = release r k s.
Proof. intros He. unfold release. f_equal. f_equal. apply map_ext. intros d. by apply media_item_env. Qed.
Lemma release_S r k s d rest : sn_paced s = d :: rest -> release r k (release r 1 s) = release r (S k) s.
Proof. intros Hp. unfold release. cbn [sn_queue sn_pending sn_paced]. rewrite Hp. cbn [take drop map app]. rewrite take_0, drop_0. cbn [map]. by rewrite <- app_assoc. Qed.

(** Handing the first paced packet to the queue. *)
Lemma release_one r es s d rest p : represents r es s -> sn_paced s = d :: rest -> queue_full s = false ->
  pc_head p = u16 (pc_head (r_pacer r) + 1) -> pc_tail p = pc_tail (r_pacer r) -> length (pc_enqueue_ms p) = NANORTC_VIDEO_PKT_RING_SIZE ->
  exists q st es', nano_rtc_enqueue_transmit r (PktSlot (out_slot (pc_head (r_pacer r)))) (length d) (r_remote_addr r) false = Ok (with_stats (with_queue r q) st, NANORTC_OK) /\
    forall st', represents (with_pacer (with_stats (with_queue r q) st') p) es' (release r 1 s).
Proof.
  intros H Hp Hfull Hph Hpt Hpl. unfold nano_rtc_enqueue_transmit. cbn [route_of].
  destruct (enqueue_ref_spec r es s H (PktSlot (out_slot (pc_head (r_pacer r)))) (length d) (r_remote_addr r) None RTC_TX_ROUTE_SELECTED) as [[? _]|(_ & q & st & w & -> & Hq & Hh & Ht & Hw1 & Hw2)]; [congruence|].
  eexists q, st, _. split; [reflexivity|]. intros st'. destruct (rp_pacer _ _ _ H) as (Hu & Hpt' & Hrt). rewrite Hp in Hrt. cbn [length] in Hrt.
  destruct (rp_paced _ _ _ H 0%nat d) as (sq & b & Hmeta & Hb & Hd & Hpos); [by rewrite Hp|]. rewrite cursor_0 in Hmeta, Hb by done.
  assert (u16 (pc_head (r_pacer r) + 1) = cursor (pc_head (r_pacer r)) 1) as Hc by (unfold cursor; f_equal; lia).
  pose proof (items_length r es s H) as Hlen. pose proof H as [H1 H2 H3 H4 H5 H6 H7 H8 H9 H10 H11 H12].
  assert (length b = NANORTC_MEDIA_BUF_SIZE) as Hbl by exact (proj1 (Forall_lookup _ _) (proj2 (mo_ring _ H5)) _ b Hb).
  assert (length d <= length b)%nat as Hdl by (rewrite <- Hd, length_take; lia).
  set (e := (_, w)) in *.
  assert (shows r e (media_item r d)) as Hshow.
  { unfold e, media_item. apply (shows_packet r (PktSlot _)); try done. unfold octets_of, buffer_of. cbn [tm_data tm_len]. rewrite Hb, bind_Ok, rdn_Ok by lia. by rewrite drop_0, Hd. }
  unfold release. rewrite Hp. cbn [take drop map]. rewrite take_0, drop_0. cbn [map].
  constructor; cbn [sn_queue sn_pending sn_paced r_queue r_tx r_retx r_ring r_pacer with_pacer with_stats with_queue r_pending r_turn r_remote_addr]; try done.
  - apply (shows_same r); [by intros j t w' _|]. apply Forall2_app; [done | by constructor].
  - rewrite Hh. apply owned_app_other; [|done]. intros k. unfold refers, e. cbn. congruence.
  - rewrite Hh. apply owned_app_other; [|done]. intros k. unfold refers, e. cbn. congruence.
  - destruct H5. by constructor.
  - rewrite Hph, Hc. intros j t w' i Hj Hdt. destruct (Nat.lt_ge_cases j (length es)) as [Hlt|Hge].
    + rewrite lookup_app_l in Hj by done. rewrite (H6 _ _ _ _ Hj Hdt). rewrite drop_app_le by lia. rewrite count_app, count_cons, media_item_kind. change (count Media []) with 0%nat. rewrite Nat.add_0_r, Nat.add_comm. by rewrite back_cursor.
    + rewrite lookup_app_r in Hj by done. apply list_lookup_singleton_Some in Hj as [Hz He]. unfold e in He. injection He as <- <-. cbn in Hdt. injection Hdt as <-.
      rewrite drop_app_ge by lia. replace (j - length (sn_queue s))%nat with 0%nat by lia. rewrite drop_0, count_cons, media_item_kind. change (count Media []) with 0%nat. f_equal. rewrite <- (cursor_0 (pc_head (r_pacer r)) Hu) at 1. change (1 + 0)%nat with (1 + 0)%nat. rewrite back_cursor. unfold back. rewrite cursor_0 by done. symmetry. rewrite Z.sub_0_r. by apply u16_id.
  - rewrite Hph, Hpt, Hc. split; [apply cursor_u16|]. split; [done|]. rewrite Hrt, cursor_cursor. done.
  - rewrite Hph, Hc. intros k x Hk. rewrite cursor_cursor. apply (H8 (S k)). by rewrite Hp.
  - rewrite count_app, count_cons, media_item_kind. rewrite Hp in H9. cbn [length] in H9. change (count Media []) with 0%nat. lia.
Qed.
Lemma depth_spec r es s : represents r es s -> pc_depth (r_pacer r) = Z.of_nat (length (sn_paced s)) /\ (pc_head (r_pacer r) =? pc_tail (r_pacer r)) = (length (sn_paced s) =? 0)%nat.
Proof.
  intros H. destruct (rp_pacer _ _ _ H) as (Hu & Ht & Hr). pose proof (rp_room _ _ _ H) as Hroom. unfold NANORTC_VIDEO_PKT_RING_SIZE, NANORTC_OUT_QUEUE_SIZE in Hroom.
  unfold pc_depth. rewrite Ht, Hr, cursor_diff by lia. split; [done|]. destruct (Nat.eqb_spec (length (sn_paced s)) 0) as [->|Hne].
  - rewrite cursor_0 by done. apply Z.eqb_refl.
  - apply Z.eqb_neq. intros He. rewrite <- (cursor_0 _ Hu) in He at 1. apply cursor_inj in He; lia.
Qed.
(** Whether the pacer holds the first packet back: neither paid for nor aged. *)
Definition held_back (r : rtc) (s : sending) : Prop :=
  exists d rest enqueue_ms, sn_paced s = d :: rest /\ pc_enqueue_ms (r_pacer r) !! out_slot (pc_head (r_pacer r)) = Some enqueue_ms /\
    pc_budget_bytes (r_pacer r) < Z.of_nat (length d) /\ nano_time_elapsed (r_now_ms r) enqueue_ms < NANORTC_PACING_MAX_QUEUE_MS.
Lemma pacer_release_refines fuel : forall r es s, represents r es s -> (length (sn_paced s) < fuel)%nat ->
  exists k r' es', pacer_release fuel r = Ok r' /\ represents r' es' (release r k s) /\ same_env r r' /\ (k <= length (sn_paced s))%nat /\
    (sn_paced (release r k s) = [] \/ queue_full (release r k s) = true \/ held_back r' (release r k s)).
Proof.
  induction fuel as [|fuel IH]; intros r es s H Hf; [lia|]. cbn [pacer_release]. destruct (depth_spec r es s H) as [_ ->].
  destruct (sn_paced s) as [|d rest] eqn:Hp; cbn [length] in *.
  { cbn [Nat.eqb]. exists 0%nat, r, es. rewrite release_0, Hp. split; [done|]. split; [done|]. split; [done|]. split; [lia | by left]. }
  cbn [Nat.eqb]. destruct (rp_paced _ _ _ H 0%nat d) as (sq & b & Hmeta & Hb & Hd & Hpos); [by rewrite Hp|]. destruct (rp_pacer _ _ _ H) as (Hu & Ht & Hr). rewrite cursor_0 in Hmeta by done.
  rewrite Hmeta. destruct (lookup_lt_is_Some_2 (pc_enqueue_ms (r_pacer r)) (out_slot (pc_head (r_pacer r)))) as [ms Hms].
  { rewrite (mo_enqueue _ (rp_memory _ _ _ H)). apply out_slot_lt. unfold is_u16 in Hu. lia. }
  rewrite Hms. rewrite (proj2 (Nat.eqb_neq _ _)) by lia. cbv zeta.
  assert (forall k, (k <= 0)%nat -> release r k s = s) as Hr0 by (intros k Hk; replace k with 0%nat by lia; apply release_0).
  destruct (Z.leb_spec (Z.of_nat (length d)) (pc_budget_bytes (r_pacer r))) as [Hpaid|Hpoor]; cbn [negb andb].
  2: destruct (Z.leb_spec NANORTC_PACING_MAX_QUEUE_MS (nano_time_elapsed (r_now_ms r) ms)) as [Haged|Hyoung]; cbn [negb andb].
  3: { exists 0%nat, r, es. rewrite release_0. split; [done|]. split; [done|]. split; [done|]. split; [lia|]. right. right. exists d, rest, ms. done. }
  all: rewrite (ring_holds_used _ _ (rp_ring _ _ _ H)), (items_length r es s H); unfold NANORTC_OUT_QUEUE_SIZE; destruct (Z.leb_spec (Z.of_nat 32) (Z.of_nat (length (sn_queue s)))) as [Hfull|Hroom];
    [exists 0%nat, r, es; rewrite release_0; split_and!; try done; [lia | right; left; apply Nat.leb_le; unfold NANORTC_OUT_QUEUE_SIZE; lia]|].
  all: assert (queue_full s = false) as Hnf by (apply Nat.leb_gt; unfold NANORTC_OUT_QUEUE_SIZE; lia).
  - destruct (release_one r es s d rest (pacer_advance (r_pacer r) (pc_budget_bytes (r_pacer r) - Z.of_nat (length d))) H Hp Hnf eq_refl eq_refl (mo_enqueue _ (rp_memory _ _ _ H))) as (q & st & es' & -> & Hrep).
    rewrite bind_Ok. cbn [negb Z.eqb NANORTC_OK]. destruct (IH _ es' _ (Hrep (count_paced st))) as (k & r' & es2 & Hrun & Hr' & He & Hk & Hend); [unfold release; rewrite Hp; cbn [sn_paced drop]; rewrite drop_0; lia|].
    assert (forall k, release (with_pacer (with_stats (with_queue r q) (count_paced st)) (pacer_advance (r_pacer r) (pc_budget_bytes (r_pacer r) - Z.of_nat (length d)))) k (release r 1 s) = release r (S k) s) as Hrel
      by (intros k'; rewrite (release_env r) by done; by eapply release_S).
    rewrite Hrel in Hr', Hend. exists (S k), r', es2. split; [exact Hrun|]. split; [done|]. split; [exact He|]. split; [|done]. unfold release in Hk. rewrite Hp in Hk. cbn [sn_paced drop] in Hk. rewrite drop_0 in Hk. lia.
  - destruct (release_one r es s d rest (pacer_advance (r_pacer r) 0) H Hp Hnf eq_refl eq_refl (mo_enqueue _ (rp_memory _ _ _ H))) as (q & st & es' & -> & Hrep).
    rewrite bind_Ok. cbn [negb Z.eqb NANORTC_OK]. destruct (IH _ es' _ (Hrep (count_paced (count_catchup st)))) as (k & r' & es2 & Hrun & Hr' & He & Hk & Hend); [unfold release; rewrite Hp; cbn [sn_paced drop]; rewrite drop_0; lia|].
    assert (forall k, release (with_pacer (with_stats (with_queue r q) (count_paced (count_catchup st))) (pacer_advance (r_pacer r) 0)) k (release r 1 s) = release r (S k) s) as Hrel
      by (intros k'; rewrite (release_env r) by done; by eapply release_S).
    rewrite Hrel in Hr', Hend. exists (S k), r', es2. split; [exact Hrun|]. split; [done|]. split; [exact He|]. split; [|done]. unfold release in Hk. rewrite Hp in Hk. cbn [sn_paced drop] in Hk. rewrite drop_0 in Hk. lia.
Qed.
Lemma pump_refines r es s : represents r es s ->
  exists k r' es', nano_rtc_pacer_pump r = Ok r' /\ represents r' es' (release r k s) /\ same_env r r' /\ (k <= length (sn_paced s))%nat /\
    (sn_paced (release r k s) = [] \/ queue_full (release r k s) = true \/ held_back r' (release r k s)).
Proof.
  intros H. unfold nano_rtc_pacer_pump. destruct (depth_spec r es s H) as [Hdepth ->]. destruct (sn_paced s) as [|d rest] eqn:Hp; cbn [length Nat.eqb].
  { exists 0%nat, r, es. rewrite release_0, Hp. split_and!; try done. by left. }
  rewrite Hdepth, ?Hp. set (r1 := with_pacer r (pacer_refill (r_pacer r) (r_now_ms r) (pacer_rate_bps (r_bwe r)))).
  assert (represents r1 es s) as H1.
  { pose proof (mo_enqueue _ (rp_memory _ _ _ H)). apply represents_clock; [done | | |]; unfold pacer_refill; destruct (pc_refill_inited _); cbn; destruct (0 <? _); done. }
  destruct (pacer_release_refines (S (Z.to_nat (Z.of_nat (length (d :: rest))))) r1 es s H1 ltac:(rewrite Hp; lia)) as (k & r2 & es2 & -> & H2 & He & Hk & Hend). rewrite bind_Ok.
  rewrite (release_env r) in H2, Hend by done. destruct (depth_spec r2 es2 _ H2) as [_ Hemp].
  assert (exists next, pacer_next_release r2 (pacer_rate_bps (r_bwe r)) = Ok next) as [next ->].
  { unfold pacer_next_release. rewrite Hemp. destruct (sn_paced (release r k s)) as [|x xs] eqn:Hx; cbn [length Nat.eqb]; [by eexists|].
    destruct (rp_paced _ _ _ H2 0%nat x) as (sq & b & Hmeta & _); [by rewrite Hx|]. destruct (rp_pacer _ _ _ H2) as (Hu & _). rewrite cursor_0 in Hmeta by done. rewrite Hmeta.
    destruct (lookup_lt_is_Some_2 (pc_enqueue_ms (r_pacer r2)) (out_slot (pc_head (r_pacer r2)))) as [ms ->]; [|by eexists].
    rewrite (mo_enqueue _ (rp_memory _ _ _ H2)). apply out_slot_lt. unfold is_u16 in Hu. lia. }
  rewrite bind_Ok. eexists k, _, es2. split; [reflexivity|]. split; [by apply represents_clock; try done; apply (mo_enqueue _ (rp_memory _ _ _ H2))|]. split; [exact He|]. split; [first [exact Hk | rewrite Hp in Hk; exact Hk | rewrite <- Hp; exact Hk]|].
  destruct Hend as [?|[?|Hheld]]; [by left | by right; left | by right; right].
Qed.

(** * Answers to NACKs *)

Lemma find_packet_Ok ring q ssrc k : forall i, (i + k <= length (pr_meta ring))%nat -> (i + k <= length (pr_bufs ring))%nat ->
  Forall (fun b => length b = NANORTC_MEDIA_BUF_SIZE) (pr_bufs ring) ->
  exists o, find_packet k i ring q ssrc = Ok o /\
    forall j len, o = Some (j, len) -> pr_meta ring !! j = Some (q, len) /\ (RTP_HEADER_SIZE <= len)%nat.
Proof.
  induction k as [|k IH]; intros i Hm Hb Hl; cbn [find_packet]; [by exists None|].
  destruct (lookup_lt_is_Some_2 (pr_meta ring) i) as [[sq len] Hmeta]; [lia|]. destruct (lookup_lt_is_Some_2 (pr_bufs ring) i) as [b Hbuf]; [lia|]. rewrite Hmeta, Hbuf.
  destruct (IH (S i)) as (o & Ho & Hspec); [lia | lia | done|]. destruct (_ || _) eqn:Hc; [by exists o|].
  apply orb_false_iff in Hc as [Hc Hlen%Nat.ltb_ge]. apply orb_false_iff in Hc as [_ Hsq%negb_false_iff%Z.eqb_eq].
  pose proof (proj1 (Forall_lookup _ _) Hl i b Hbuf) as Hbl. cbv beta in Hbl.
  assert (NANORTC_MEDIA_BUF_SIZE = (12 + (NANORTC_MEDIA_BUF_SIZE - 12))%nat) as Hms by (vm_compute; done).
  assert (exists v, nanortc_read_u32be b 8 = Ok v) as [v ->]. { unfold nanortc_read_u32be. eexists. rewrite (rd8_Ok b 8), (rd8_Ok b (8 + 1)), (rd8_Ok b (8 + 2)), (rd8_Ok b (8 + 3)) by lia. rewrite !bind_Ok. done. }
  rewrite bind_Ok. destruct (negb _); [by exists o|]. eexists. split; [done|]. intros j l [= <- <-]. by rewrite Hmeta, Hsq.
Qed.
Lemma find_free_spec k in_use : forall j, match find_free k j in_use with
  | Some i => (j <= i < j + k)%nat /\ Z.testbit in_use (Z.of_nat i) = false
  | None => forall i, (j <= i < j + k)%nat -> Z.testbit in_use (Z.of_nat i) = true
  end.
Proof.
  induction k as [|k IH]; intros j; cbn [find_free]; [lia|]. destruct (Z.testbit in_use (Z.of_nat j)) eqn:Hb; [|split; [lia | done]].
  specialize (IH (S j)). destruct (find_free k (S j) in_use); [destruct IH; split; [lia | done]|]. intros i Hi. destruct (decide (i = j)) as [->|]; [done|]. apply IH. lia.
Qed.
(** The answer for one sequence number: nothing, or a copy of the packet that the
    ring holds under it, queued for the peer. *)
Definition resent_item (r : rtc) (d : list Z) : item := ItPacket (packet_of r Retransmission d (r_remote_addr r) None RTC_TX_ROUTE_SELECTED).
Lemma retransmit_refines r es s q ssrc : represents r es s ->
  exists r' es' s', retransmit r q ssrc = Ok r' /\ represents r' es' s' /\ same_env r r' /\ r_ring r' = r_ring r /\ r_pacer r' = r_pacer r /\
    (s' = s \/ exists j len b, pr_meta (r_ring r) !! j = Some (q, len) /\ pr_bufs (r_ring r) !! j = Some b /\ s' = push s (resent_item r (take len b))) /\
    (forall j len, find_packet NANORTC_VIDEO_PKT_RING_SIZE 0 (r_ring r) q ssrc = Ok (Some (j, len)) -> queue_full s = false -> (count Retransmission (sn_queue s) < NANORTC_NACK_RETX_RING)%nat ->
      exists b, pr_bufs (r_ring r) !! j = Some b /\ s' = push s (resent_item r (take len b))).
Proof.
  intros H. pose proof (rp_memory _ _ _ H) as Hm. destruct (mo_ring _ Hm) as [Hrl Hrb]. destruct (mo_meta _ Hm) as [Hml Hmb]. unfold retransmit.
  destruct (find_packet_Ok (r_ring r) q ssrc NANORTC_VIDEO_PKT_RING_SIZE 0) as (o & -> & Hspec); [lia | lia | done|]. rewrite bind_Ok.
  destruct o as [[j len]|]; [|exists r, es, s; split_and!; try done; by left]. destruct (Hspec j len eq_refl) as [Hmeta Hlen].
  pose proof (find_free_spec NANORTC_NACK_RETX_RING (bk_in_use (r_retx r)) 0) as Hfree. destruct (ow_size _ _ _ _ _ (rp_retx _ _ _ H)) as [L1 L2].
  destruct (pool_exhausted r Retransmission _ _ _ _ _ (room_queue r es s H) (rp_items _ _ _ H) (rp_retx _ _ _ H)) as [_ Hex].
  destruct (find_free _ _ _) as [i|].
  2: { exists r, es, s. split_and!; try done; [by left|]. intros ? ? _ _ Hlt. rewrite (proj1 Hex) in Hlt; [lia|]. intros i Hi. apply Hfree. lia. }
  destruct Hfree as [Hi Hbit]. destruct (lookup_lt_is_Some_2 (pr_bufs (r_ring r)) j) as [b Hb]; [rewrite Hrl, <- Hml; by eapply lookup_lt_Some|].
  pose proof (proj1 (Forall_lookup _ _) Hrb j b Hb) as Hbl. pose proof (proj1 (Forall_lookup _ _) Hmb j _ Hmeta) as Hlen'. cbv beta in Hbl. cbn [snd] in Hlen'.
  unfold get_packet. rewrite Hb, bind_Ok, rdn_Ok, drop_0, bind_Ok by lia. destruct (lookup_lt_is_Some_2 (bk_bufs (r_retx r)) i) as [x Hx]; [lia|]. rewrite Hx.
  pose proof (proj1 (Forall_lookup _ _) (mo_retx _ Hm) i x Hx) as Hxl. cbv beta in Hxl. set (d := take len b). assert (length d = len) as Hd by (unfold d; rewrite length_take; lia).
  rewrite wr_Ok by lia. rewrite bind_Ok, take_0, app_nil_l, Nat.add_0_l. cbv zeta. set (x' := d ++ drop (length d) x).
  assert (length x' = NANORTC_MEDIA_BUF_SIZE) as Hx' by (unfold x'; rewrite length_app, length_drop; lia).
  pose proof (represents_retx_buf r es s i x' H Hbit Hx') as H1. set (r1 := with_retx r _) in *. unfold nano_rtc_enqueue_transmit. cbn [route_of].
  destruct (enqueue_ref_spec r1 es s H1 (RetxSlot i) len (r_remote_addr r1) None RTC_TX_ROUTE_SELECTED) as [(Hfull & st & ->)|(Hfull & q' & st & w & -> & Hq & Hh & Ht & Hw1 & Hw2)]; rewrite bind_Ok; cbn [negb Z.eqb NANORTC_OK NANORTC_ERR_BUFFER_TOO_SMALL].
  { eexists _, es, s. split; [reflexivity|]. split; [by apply represents_stats|]. split_and!; try done; [by left|]. intros; congruence. }
  set (e := (OutTransmit _, w)) in Hq. cbn [r_retx r_queue with_stats with_queue]. pose proof (rp_retx _ _ _ H1) as Ho. rewrite <- Hh in Ho.
  destruct (owned_app_pin retx_ref NANORTC_NACK_RETX_RING (r_retx r1) (oq_head q') es e i (oq_tail q')) as (retx & -> & Hretx & Hbufs);
    [done | lia | done | intros k; unfold refers, e; cbn; split; congruence | done|].
  rewrite bind_Ok. eexists _, _, _. split; [reflexivity|]. split; [|split; [done|split; [done|split; [done|split]]]].
  - change (with_retx (with_stats (with_queue r1 q') st) retx) with (with_retx (with_tx (with_stats (with_queue r1 q') st) (r_tx r1) (r_tx_cursor r1)) retx).
    apply (represents_push r1 es s H1 q' st (r_tx r1) (r_tx_cursor r1) retx e (ItPacket (packet_of r1 Retransmission d (r_remote_addr r1) None RTC_TX_ROUTE_SELECTED))); try done.
    + apply (shows_packet r1 (RetxSlot i)); try done; [|apply (rp_remote _ _ _ H)]. unfold octets_of, buffer_of. cbn [tm_data tm_len r_retx r1 with_retx bk_bufs]. rewrite list_lookup_insert_eq by lia.
      rewrite bind_Ok, rdn_Ok, drop_0 by lia. unfold x'. by rewrite take_app_length'.
    + rewrite Hh. apply owned_app_other; [|apply (rp_tx _ _ _ H1)]. intros k. unfold refers, e. cbn. congruence.
    + apply (mo_cursor _ Hm).
  - right. exists j, len, b. split; [done|]. split; [done|]. unfold resent_item. f_equal.
  - intros j' len' [= <- <-] _ _. exists b. done.
Qed.
