(* ===== verification/VideoFrame.v ===== *)
(** What [VideoSend] puts into the packet ring: one SRTP packet per payload of the
    frame, the zero-copy H.264 path included, never more than the admission
    reserved and never over a packet that waits to be sent. *)

From Stdlib Require Import ZArith Lia.
From stdpp Require Import base list numbers.
From S2P Require Import Prelude Wire Sdp Stun Ice Turn TurnRequests TurnHistory Fragment AnnexB H264 H265 Srtp Rtp Rtcp Bwe Media OutQueue OutQueueFifo OutQueueSpec OutQueueSteps VideoSend VideoSteps.

Local Open Scope Z_scope.

(** * One packet *)

Lemma rtp_header_datagram rtp ts body : bytes body -> rtp_datagram (rtp_header rtp ts) body (u16 (rtp_seq rtp)) (u32 (rtp_ssrc rtp)).
Proof.
  intros Hb. constructor.
  - split; [apply rtp_header_bytes | done].
  - unfold srtp_parse_hdr_len. rewrite rtp_header_length. unfold rtp_header, rtp_header_len, SRTP_RTP_HEADER_SIZE. destruct (rtp_has_twcc rtp).
    + unfold nanortc_read_u16be, be16, be32, rd8. cbn [app lookup list_lookup Nat.add]. rewrite !bind_Ok. cbv zeta.
      change (Z.land (u8 (Z.lor (Z.shiftl RTP_VERSION 6) 16)) 0x0F) with 0. change (Z.land (u8 (Z.lor (Z.shiftl RTP_VERSION 6) 16)) 0x10) with 16.
      change (Z.to_nat 0) with 0%nat. cbn [negb Z.eqb Nat.mul Nat.add]. rewrite !(proj2 (Nat.ltb_ge _ _)) by lia. cbn [lookup list_lookup]. rewrite !bind_Ok. unfold mret, res_ret. rewrite ?bind_Ok.
      autorewrite with wire. change (u16 1) with 1. rewrite (proj2 (Nat.ltb_ge _ _)) by (apply Nat.div_le_lower_bound; change (Z.to_nat 1) with 1%nat; lia). done.
    + unfold rd8. cbn [app lookup list_lookup]. rewrite !bind_Ok. cbv zeta. change (Z.land (u8 (Z.lor (Z.shiftl RTP_VERSION 6) 0)) 0x0F) with 0. change (Z.land (u8 (Z.lor (Z.shiftl RTP_VERSION 6) 0)) 0x10) with 0.
      change (Z.to_nat 0) with 0%nat. cbn [negb Z.eqb Nat.mul Nat.add]. rewrite !(proj2 (Nat.ltb_ge _ _)) by lia. done.
  - unfold rtp_header, nanortc_read_u16be, be16, be32, rd8. cbn [app lookup list_lookup Nat.add]. rewrite !bind_Ok. unfold mret, res_ret. by autorewrite with wire.
  - unfold rtp_header, nanortc_read_u32be, be16, be32, rd8. cbn [app lookup list_lookup Nat.add]. rewrite !bind_Ok. unfold mret, res_ret. by autorewrite with wire.
Qed.
Lemma rtp_header_small rtp : (rtp_header_len rtp <= 20)%nat.
Proof. unfold rtp_header_len. destruct (rtp_has_twcc rtp); lia. Qed.
Lemma payload_offset_eq rtp : payload_offset rtp = rtp_header_len rtp.
Proof. unfold payload_offset, rtp_header_len. by destruct (rtp_has_twcc rtp). Qed.

(** Packing a payload into a buffer, or one already staged behind the header. *)
Lemma rtp_pack_copy rtp ts p buf : (rtp_header_len rtp + length p <= length buf)%nat ->
  rtp_pack rtp ts (Some p) (length p) buf = Ok (rtp_next rtp, rtp_header rtp ts ++ p ++ drop (rtp_header_len rtp + length p) buf, (rtp_header_len rtp + length p)%nat).
Proof.
  intros Hl. pose proof (rtp_header_length rtp ts) as Hh. rewrite rtp_pack_eq by done. rewrite wr_Ok by lia. rewrite bind_Ok, take_0, app_nil_l, Nat.add_0_l, rdn_Ok, drop_0, firstn_all, bind_Ok by lia.
  rewrite wr_append by (rewrite ?length_drop; lia). rewrite bind_Ok, drop_drop, Hh, <- app_assoc. done.
Qed.
Lemma rtp_pack_staged rtp ts p pre rest : length pre = rtp_header_len rtp ->
  rtp_pack rtp ts None (length p) (pre ++ p ++ rest) = Ok (rtp_next rtp, rtp_header rtp ts ++ p ++ rest, (rtp_header_len rtp + length p)%nat).
Proof.
  intros Hl. pose proof (rtp_header_length rtp ts) as Hh. rewrite rtp_pack_eq by (rewrite !length_app; lia). rewrite wr_Ok by (rewrite !length_app; lia).
  rewrite !bind_Ok, take_0, app_nil_l, Nat.add_0_l, Hh, <- Hl, drop_app_length. done.
Qed.

Section Sealing.
Context (aes_128_cm : list Z -> list Z -> list Z -> Z * list Z) (hmac_sha1_80 : list Z -> list Z -> list Z).
Context (Laws : provider_laws aes_128_cm hmac_sha1_80).

(** The SRTP packet under header [hd] with body [p], from session [s]. *)
Definition srtp_packet (s : nano_srtp) (ss : ssrc_state) (hd p : list Z) (ssrc seq : Z) : list Z :=
  let k := sr_keys s in
  let c := cipher aes_128_cm (send_key k) (send_salt k) ssrc (packet_index (ss_roc ss) seq) p in
  hd ++ c ++ tag hmac_sha1_80 (send_auth_key k) hd c (ss_roc ss).
(** [d] is the packet that carries payload [p] for the stream [rtp], and [s'] the
    session after it. *)
Record sealed (s : nano_srtp) (rtp : nano_rtp) (ts : Z) (p d : list Z) (s' : nano_srtp) : Prop := {
  se_packet : exists ss, starts (ssrc_states s) (u32 (rtp_ssrc rtp)) ss /\
    d = srtp_packet s ss (rtp_header rtp ts) p (u32 (rtp_ssrc rtp)) (u16 (rtp_seq rtp)) /\ tracks (ssrc_states s') (u32 (rtp_ssrc rtp)) (advance ss (u16 (rtp_seq rtp)));
  se_keys : sr_keys s' = sr_keys s;
  se_others : same_tracks (u32 (rtp_ssrc rtp)) (ssrc_states s) (ssrc_states s');
  se_session : session_ok s'
}.
Lemma sealed_length s rtp ts p d s' : session_ok s -> bytes p -> sealed s rtp ts p d s' -> length d = (rtp_header_len rtp + length p + NANORTC_SRTP_AUTH_TAG_SIZE)%nat.
Proof using Laws.
  intros Hs Hp [(ss & _ & -> & _) _ _ _]. unfold srtp_packet. cbv zeta. rewrite !length_app, rtp_header_length, (tag_length _ _ Laws).
  rewrite (cipher_length _ _ Laws); [lia | apply (so_keys _ Hs) | done].
Qed.
Lemma protect_room s rtp ts p room : session_ok s -> bytes p -> (NANORTC_SRTP_AUTH_TAG_SIZE <= length room)%nat ->
  let total := (rtp_header_len rtp + length p)%nat in
  (exists d s', nano_srtp_protect aes_128_cm hmac_sha1_80 s (rtp_header rtp ts ++ p ++ room) total =
      Ok (s', d ++ drop NANORTC_SRTP_AUTH_TAG_SIZE room, inr (length d)) /\ sealed s rtp ts p d s') \/
  ((forall ss, ~ starts (ssrc_states s) (u32 (rtp_ssrc rtp)) ss) /\ exists s', session_ok s' /\ nano_srtp_protect aes_128_cm hmac_sha1_80 s (rtp_header rtp ts ++ p ++ room) total =
      Ok (s', rtp_header rtp ts ++ p ++ room, inl NANORTC_ERR_BUFFER_TOO_SMALL)).
Proof using Laws.
  intros Hs Hp Hroom total. pose proof (rtp_header_datagram rtp ts p Hp) as Hd. pose proof (rtp_header_length rtp ts) as Hh.
  destruct (get_ssrc_state_spec (ssrc_states s) (u32 (rtp_ssrc rtp)) (last_send_idx s) (so_table _ Hs)) as (states & cache & slot & Hget & Htab & Hsame & Hslot). destruct slot as [i|].
  - left. destruct Hslot as (ss & _ & _ & _ & Hst). pose proof (protect_eq _ _ Laws s (rtp_header rtp ts) p room _ _ ss Hs Hd Hroom Hst) as (s' & Heq & H1 & H2 & H3 & H4).
    rewrite Hh in Heq. fold total in Heq. exists (srtp_packet s ss (rtp_header rtp ts) p (u32 (rtp_ssrc rtp)) (u16 (rtp_seq rtp))), s'.
    assert (sealed s rtp ts p (srtp_packet s ss (rtp_header rtp ts) p (u32 (rtp_ssrc rtp)) (u16 (rtp_seq rtp))) s') as Hse by (constructor; [by exists ss | done..]).
    split; [|done]. rewrite Heq. rewrite (sealed_length _ _ _ _ _ _ Hs Hp Hse). unfold srtp_packet. cbv zeta. by rewrite <- !app_assoc.
  - right. destruct Hslot as [-> Hno]. split; [done|]. exists (set_send_idx (set_states s (ssrc_states s)) cache). split; [by destruct Hs; constructor|].
    unfold nano_srtp_protect. rewrite (so_ready _ Hs). cbn [negb]. destruct (datagram_fields _ _ _ _ (p ++ room) total Hd) as (Hq & Hr & Hl & Hmin); [by rewrite Hh|].
    rewrite (proj2 (Nat.ltb_ge _ _)) by (unfold SRTP_RTP_HEADER_SIZE, total; lia). rewrite Hq, bind_Ok, Hr, bind_Ok, Hl, Hget, bind_Ok. done.
Qed.
End Sealing.

(** * The ring under the packets that wait *)

Lemma represents_media r es s a b : represents r es s -> represents (with_media r a b) es s.
Proof. intros [H1 H2 H3 H4 H5 H6 H7 H8 H9 H10 H11 H12]. constructor; try done. destruct H5. by constructor. Qed.
Lemma ring_tail_lt r es s : represents r es s -> (out_slot (pr_tail (r_ring r)) < NANORTC_VIDEO_PKT_RING_SIZE)%nat.
Proof. intros H. destruct (rp_pacer _ _ _ H) as (_ & _ & ->). apply out_slot_lt, cursor_u16. Qed.
(** Writing at the write cursor touches no packet in flight while there is room. *)
Lemma represents_put_packet r es s b : represents r es s -> (count Media (sn_queue s) + length (sn_paced s) < NANORTC_VIDEO_PKT_RING_SIZE)%nat -> length b = NANORTC_MEDIA_BUF_SIZE ->
  represents (put_packet r (out_slot (pr_tail (r_ring r))) b) es s.
Proof.
  intros H Hroom Hb. pose proof (items_length r es s H) as Hlen. destruct H as [H1 H2 H3 H4 H5 H6 H7 H8 H9 H10 H11 H12]. destruct H7 as (Hu & Hpt & Hrt).
  unfold NANORTC_VIDEO_PKT_RING_SIZE, NANORTC_OUT_QUEUE_SIZE in Hroom. constructor; try done.
  - apply (shows_same r); [|done]. intros j t w Hj. destruct (tm_data t) as [| |k|] eqn:Hd; try done. unfold buffer_of. cbn.
    rewrite list_lookup_insert_ne; [done|]. rewrite (H6 _ _ _ _ Hj Hd), Hrt. apply Forall2_same_length_lookup in H2 as [_ H2].
    destruct (lookup_lt_is_Some_2 (sn_queue s) j) as [it Hit]; [rewrite <- Hlen; by eapply lookup_lt_Some|]. pose proof (H2 j _ _ Hj Hit) as Hs. unfold shows in Hs. cbn [fst] in Hs. destruct it as [p|]; [|done].
    destruct Hs as (_ & _ & Hk & _). rewrite Hd in Hk. cbn in Hk. set (n := count Media (drop j (sn_queue s))).
    assert (1 <= n <= count Media (sn_queue s))%nat as Hn.
    { unfold n. rewrite (drop_S _ _ _ Hit), count_cons. cbn [kind_is]. rewrite Hk, bool_decide_eq_true_2 by done. split; [lia|].
      rewrite <- (take_drop j (sn_queue s)) at 2. rewrite count_app, (drop_S _ _ _ Hit), count_cons. cbn [kind_is]. rewrite Hk, bool_decide_eq_true_2 by done. lia. }
    rewrite <- (cursor_back (pc_head (r_pacer r)) n Hu) at 1. rewrite cursor_cursor. rewrite <- (cursor_0 (back (pc_head (r_pacer r)) n)) at 2 by apply u16_range.
    apply not_eq_sym, cursor_slot_inj. lia.
  - destruct H5 as [M1 M2 [M3 M3'] M4 M5 M6 M7]. constructor; try done. cbn. split; [by rewrite length_insert | by apply Forall_insert].
  - intros k d Hk i. destruct (H8 k d Hk) as (sq & x & Hm & Hx & Hd & Hpos). exists sq, x. split; [done|]. split; [|done]. cbn. rewrite list_lookup_insert_ne; [done|].
    rewrite Hrt. apply not_eq_sym, cursor_slot_inj. pose proof (lookup_lt_Some _ _ _ Hk). lia.
Qed.
(** Every time stamp of the pacer is an old one or the present. *)
Definition stamped (r r' : rtc) : Prop := forall P : Z -> Prop, P (r_now_ms r) -> Forall P (pc_enqueue_ms (r_pacer r)) -> Forall P (pc_enqueue_ms (r_pacer r')).
Lemma stamped_trans r1 r2 r3 : r_now_ms r2 = r_now_ms r1 -> stamped r1 r2 -> stamped r2 r3 -> stamped r1 r3.
Proof. intros He H1 H2 P Hn HP. apply H2; [by rewrite He | by apply H1]. Qed.
(** Committing the packet at the write cursor to the pacer. *)
Lemma represents_commit r es s b d sq : represents r es s -> (count Media (sn_queue s) + length (sn_paced s) < NANORTC_VIDEO_PKT_RING_SIZE)%nat ->
  pr_bufs (r_ring r) !! out_slot (pr_tail (r_ring r)) = Some b -> take (length d) b = d -> (0 < length d)%nat ->
  exists r1 r2, pkt_ring_commit_slot r (out_slot (pr_tail (r_ring r))) sq (length d) = Ok r1 /\ nano_rtc_pacer_enqueue r1 (out_slot (pr_tail (r_ring r))) = Ok r2 /\
    represents r2 es (Sending (sn_queue s) (sn_pending s) (sn_paced s ++ [d])) /\ same_env r r2 /\ stamped r r2.
Proof.
  intros H Hroom Hb Hd Hpos. pose proof (ring_tail_lt r es s H) as Hlt. unfold pkt_ring_commit_slot. pose proof (rp_memory _ _ _ H) as Hm. destruct (mo_meta _ Hm) as [Hml Hmb].
  destruct (lookup_lt_is_Some_2 (pr_meta (r_ring r)) (out_slot (pr_tail (r_ring r)))) as [x Hx]; [lia|]. rewrite Hx. eexists _. unfold nano_rtc_pacer_enqueue.
  destruct (lookup_lt_is_Some_2 (pc_enqueue_ms (r_pacer r)) (out_slot (pr_tail (r_ring r)))) as [y Hy]; [rewrite (mo_enqueue _ Hm); lia|].
  eexists. split; [reflexivity|]. cbn [r_pacer with_ring]. rewrite Hy. split; [reflexivity|]. split; [|split; [done | intros P Hp HP; by apply Forall_insert]].
  pose proof (proj1 (Forall_lookup _ _) (proj2 (mo_ring _ Hm)) _ b Hb) as Hbl. cbv beta in Hbl. assert (length d <= length b)%nat as Hdl by (rewrite <- Hd, length_take; lia).
  destruct H as [H1 H2 H3 H4 H5 H6 H7 H8 H9 H10 H11 H12]. destruct H7 as (Hu & Hpt & Hrt).
  unfold NANORTC_VIDEO_PKT_RING_SIZE, NANORTC_OUT_QUEUE_SIZE in Hroom.
  constructor; cbn [sn_queue sn_pending sn_paced r_queue r_pending r_tx r_retx r_ring r_pacer r_turn r_remote_addr with_pacer with_ring pc_head pc_tail pr_tail pr_bufs pr_meta]; try done.
  - destruct H5 as [M1 M2 M3 M4 M5 M6 M7]. constructor; try done; cbn; [|by rewrite length_insert]. split; [by rewrite length_insert|]. apply Forall_insert; [done|]. cbn [snd]. lia.
  - split; [done|]. split; [done|]. rewrite Hrt, length_app. cbn [length]. by rewrite Nat.add_1_r, cursor_S.
  - intros k e Hk. destruct (Nat.lt_ge_cases k (length (sn_paced s))) as [Hkl|Hkg].
    + rewrite lookup_app_l in Hk by done. destruct (H8 k e Hk) as (sq' & x' & Hm' & Hx' & He & Hpe). exists sq', x'. rewrite list_lookup_insert_ne; [done|].
      rewrite Hrt. apply not_eq_sym, cursor_slot_inj. lia.
    + rewrite lookup_app_r in Hk by done. apply list_lookup_singleton_Some in Hk as [Hz <-]. replace k with (length (sn_paced s)) by lia. rewrite <- Hrt. exists sq, b.
      rewrite list_lookup_insert_eq by lia. done.
  - rewrite length_app. cbn [length]. unfold NANORTC_VIDEO_PKT_RING_SIZE, NANORTC_OUT_QUEUE_SIZE. lia.
Qed.

(** * One packet through RTP, SRTP and the ring *)

(** What sending a packet leaves as it was. *)
Definition keeps (r r' : rtc) : Prop :=
  r_turn r' = r_turn r /\ r_ice r' = r_ice r /\ r_remote_addr r' = r_remote_addr r /\ r_now_ms r' = r_now_ms r /\ r_bwe r' = r_bwe r /\
  r_media_count r' = r_media_count r /\ r_state r' = r_state r /\ length (r_media r') = length (r_media r).
Lemma keeps_refl r : keeps r r.
Proof. done. Qed.
Lemma keeps_trans r1 r2 r3 : keeps r1 r2 -> keeps r2 r3 -> keeps r1 r3.
Proof. unfold keeps. intros (? & ? & ? & ? & ? & ? & ? & ?) (? & ? & ? & ? & ? & ? & ? & ?). split_and!; congruence. Qed.
Lemma keeps_env r r' : same_env r r' -> keeps r r'.
Proof. unfold same_env, keeps. intros (? & ? & ? & ? & ? & ? & ? & ? & ?). split_and!; congruence. Qed.
Definition same_config (m m' : nanortc_track) : Prop :=
  tr_mid m' = tr_mid m /\ tr_kind m' = tr_kind m /\ tr_direction m' = tr_direction m /\ tr_active m' = tr_active m /\ tr_codec m' = tr_codec m /\ tr_sample_rate m' = tr_sample_rate m.
Lemma same_config_trans m1 m2 m3 : same_config m1 m2 -> same_config m2 m3 -> same_config m1 m3.
Proof. unfold same_config. intros (? & ? & ? & ? & ? & ?) (? & ? & ? & ? & ? & ?). split_and!; congruence. Qed.
(** Track [i] goes on with the RTP state [rtp]; the others stay. *)
Definition track_goes_on (l l' : list nanortc_track) (i : nat) (rtp : nano_rtp) : Prop :=
  (exists m m', l !! i = Some m /\ l' !! i = Some m' /\ same_config m m' /\ tr_rtp m' = rtp) /\ forall j, j <> i -> l' !! j = l !! j.
Lemma track_goes_on_insert l i m m' : l !! i = Some m -> same_config m m' -> track_goes_on l (<[i := m']> l) i (tr_rtp m').
Proof.
  intros Hm Hc. split; [|intros j Hj; by rewrite list_lookup_insert_ne]. exists m, m'. pose proof (lookup_lt_Some _ _ _ Hm). by rewrite list_lookup_insert_eq.
Qed.
Lemma track_goes_on_trans l1 l2 l3 i a b : track_goes_on l1 l2 i a -> track_goes_on l2 l3 i b -> track_goes_on l1 l3 i b.
Proof.
  intros [(m1 & m2 & H1 & H2 & Hc & _) Ho] [(m2' & m3 & H2' & H3 & Hc' & Hr) Ho']. simplify_eq. split; [exists m1, m3; split_and!; try done; by eapply same_config_trans|].
  intros j Hj. by rewrite Ho', Ho.
Qed.
Definition pace (s : sending) (ds : list (list Z)) : sending := Sending (sn_queue s) (sn_pending s) (sn_paced s ++ ds).
Lemma pace_nil s : pace s [] = s.
Proof. unfold pace. rewrite app_nil_r. by destruct s. Qed.
Lemma pace_pace s a b : pace (pace s a) b = pace s (a ++ b).
Proof. unfold pace. cbn. by rewrite app_assoc. Qed.
(** The free places of the ring. *)
Definition ring_room (s : sending) (n : nat) : Prop := (count Media (sn_queue s) + length (sn_paced s) + n <= NANORTC_VIDEO_PKT_RING_SIZE)%nat.

Section OnePacket.
Context (aes_128_cm : list Z -> list Z -> list Z -> Z * list Z) (hmac_sha1_80 : list Z -> list Z -> list Z).
Context (Laws : provider_laws aes_128_cm hmac_sha1_80).

Definition packet_body (p : list Z) : Prop := bytes p /\ (1 <= length p <= NANORTC_VIDEO_MTU)%nat.
(** [payload] is handed over or lies in the buffer behind the header. *)
Definition staged (rtp : nano_rtp) (p buf : list Z) (payload : option (list Z)) : Prop :=
  length buf = NANORTC_MEDIA_BUF_SIZE /\ (payload = Some p \/ payload = None /\ exists pre rest, length pre = rtp_header_len rtp /\ buf = pre ++ p ++ rest).
Lemma media_buf_room rtp p : packet_body p -> (rtp_header_len rtp + length p + NANORTC_SRTP_AUTH_TAG_SIZE <= NANORTC_MEDIA_BUF_SIZE)%nat.
Proof.
  intros [_ Hp]. pose proof (rtp_header_small rtp). pose proof video_mtu. assert (Z.of_nat NANORTC_MEDIA_BUF_SIZE = 1232) as Hb by (by vm_compute). unfold NANORTC_SRTP_AUTH_TAG_SIZE. lia.
Qed.
Lemma pack_staged rtp ts p buf payload : packet_body p -> staged rtp p buf payload ->
  exists room, length room = (NANORTC_MEDIA_BUF_SIZE - (rtp_header_len rtp + length p))%nat /\
    rtp_pack rtp ts payload (length p) buf = Ok (rtp_next rtp, rtp_header rtp ts ++ p ++ room, (rtp_header_len rtp + length p)%nat).
Proof.
  intros Hp [Hb Hs]. pose proof (media_buf_room rtp p Hp) as Hr. destruct Hs as [->|[-> (pre & rest & Hpre & ->)]].
  - exists (drop (rtp_header_len rtp + length p) buf). split; [by rewrite length_drop, Hb|]. apply rtp_pack_copy. lia.
  - exists rest. rewrite !length_app in Hb. split; [lia|]. by apply rtp_pack_staged.
Qed.

(** Either the packet is sealed and waits behind the paced ones, or the SSRC table
    has no place for the stream and nothing is sent. *)
Definition no_place (r : rtc) (rtp : nano_rtp) : Prop := forall ss, ~ starts (ssrc_states (r_srtp r)) (u32 (rtp_ssrc rtp)) ss.
Lemma send_packet_spec r es s i m ts p mk buf payload : represents r es s -> session_ok (r_srtp r) -> r_media r !! i = Some m -> packet_body p ->
  staged (tr_rtp m) p buf payload -> ring_room s 1 ->
  exists r', keeps r r' /\ stamped r r' /\ session_ok (r_srtp r') /\
    ((exists d, video_send_packet aes_128_cm hmac_sha1_80 r i (out_slot (pr_tail (r_ring r))) buf ts payload (length p) mk = Ok (r', NANORTC_OK) /\
        represents r' es (pace s [d]) /\ sealed aes_128_cm hmac_sha1_80 (r_srtp r) (set_marker (tr_rtp m) mk) ts p d (r_srtp r') /\
        track_goes_on (r_media r) (r_media r') i (rtp_next (set_marker (tr_rtp m) mk))) \/
     (no_place r (tr_rtp m) /\ video_send_packet aes_128_cm hmac_sha1_80 r i (out_slot (pr_tail (r_ring r))) buf ts payload (length p) mk = Ok (r', NANORTC_ERR_BUFFER_TOO_SMALL) /\
        represents r' es s /\ track_goes_on (r_media r) (r_media r') i (rtp_next (set_marker (tr_rtp m) mk)))).
Proof using Laws.
  intros H Hs Hm Hp Hst Hroom. set (rtp := set_marker (tr_rtp m) mk). pose proof (media_buf_room rtp p Hp) as Hmb.
  destruct (pack_staged rtp ts p buf payload Hp Hst) as (room & Hrl & Hpack). assert (rtp_header_len rtp = rtp_header_len (tr_rtp m)) as Hhl by done.
  unfold video_send_packet, get_track. rewrite Hm, bind_Ok. cbn [tr_rtp with_rtp]. fold rtp. rewrite Hpack. cbv zeta.
  assert (count Media (sn_queue s) + length (sn_paced s) < NANORTC_VIDEO_PKT_RING_SIZE)%nat as Hlt by (unfold ring_room in Hroom; lia).
  assert (NANORTC_SRTP_AUTH_TAG_SIZE <= length room)%nat as Htag by lia. destruct Hp as [Hbp Hpl].
  destruct (protect_room _ _ Laws (r_srtp r) rtp ts p room Hs Hbp Htag) as [(d & s' & Hprot & Hse)|(Hno & s' & Hok & Hprot)]; rewrite Hprot, bind_Ok.
  - pose proof (sealed_length _ _ Laws _ _ _ _ _ _ Hs Hbp Hse) as Hdl. set (slot := out_slot (pr_tail (r_ring r))). set (pkt := d ++ drop NANORTC_SRTP_AUTH_TAG_SIZE room).
    assert (length pkt = NANORTC_MEDIA_BUF_SIZE) as Hpk by (unfold pkt; rewrite length_app, length_drop; lia).
    set (m1 := with_rtp (with_rtp m rtp) (rtp_next rtp)). set (r1 := put_packet (with_media r s' (<[i := m1]> (r_media r))) slot pkt).
    set (m2 := track_sent m1 (r_now_ms r1) (length p) (length d)). set (r2 := put_track r1 i m2).
    assert (represents r2 es s) as H2 by (apply represents_media; apply (represents_put_packet (with_media r s' (<[i := m1]> (r_media r))) es s); [by apply represents_media | done | done]).
    assert (Z.of_nat NANORTC_MEDIA_BUF_SIZE = 1232) as Hms by (by vm_compute).
    rewrite (u16_id (Z.of_nat (length d))), Nat2Z.id by (unfold is_u16; lia).
    destruct (represents_commit r2 es s pkt d (u16 (rtp_seq (rtp_next rtp) - 1)) H2 Hlt) as (r3 & r4 & Hc & He & H4 & Henv & Hstamp).
    + cbn. apply list_lookup_insert_eq. rewrite (proj1 (mo_ring _ (rp_memory _ _ _ H))). by apply (ring_tail_lt r es s).
    + unfold pkt. apply take_app_length.
    + rewrite Hdl. unfold NANORTC_SRTP_AUTH_TAG_SIZE. lia.
    + change (out_slot (pr_tail (r_ring r2))) with slot in Hc, He. rewrite Hc, bind_Ok, He, bind_Ok. exists r4.
      assert (r_media r4 = <[i := m2]> (r_media r)) as Hmed by (destruct Henv as (_ & _ & _ & _ & _ & _ & -> & _); cbn; apply list_insert_insert_eq).
      split; [|split; [exact Hstamp|split]].
      * destruct Henv as (? & ? & ? & ? & ? & ? & _ & ? & ?). unfold keeps. split_and!; [done..|]. by rewrite Hmed, length_insert.
      * destruct Henv as (_ & _ & _ & _ & _ & -> & _). by destruct Hse.
      * left. exists d. split; [done|]. split; [exact H4|]. split; [by destruct Henv as (_ & _ & _ & _ & _ & -> & _)|]. rewrite Hmed. by apply (track_goes_on_insert _ _ m m2).
  - eexists. split; [|split; [|split; [|right; split; [exact Hno|split; [reflexivity|split]]]]].
    + unfold keeps. cbn. by rewrite length_insert.
    + by intros P _ HP.
    + done.
    + apply (represents_put_packet (with_media r s' (<[i := with_rtp (with_rtp m rtp) (rtp_next rtp)]> (r_media r))) es s); [by apply represents_media | done|]. rewrite !length_app, rtp_header_length. lia.
    + by apply (track_goes_on_insert _ _ m (with_rtp (with_rtp m rtp) (rtp_next rtp))).
Qed.
End OnePacket.

(** * The packets of a frame *)

Section Packets.
Context (aes_128_cm : list Z -> list Z -> list Z -> Z * list Z) (hmac_sha1_80 : list Z -> list Z -> list Z).
Context (Laws : provider_laws aes_128_cm hmac_sha1_80).

(** The packets [ds] carry the payloads [ps], one each and in order, on the stream
    from [rtp] to [rtp'] with consecutive sequence numbers. *)
Fixpoint sealed_all (s : nano_srtp) (rtp : nano_rtp) (ts : Z) (ps : list (list Z * bool)) (ds : list (list Z)) (s' : nano_srtp) (rtp' : nano_rtp) : Prop :=
  match ps, ds with
  | [], [] => s' = s /\ rtp' = rtp
  | (p, mk) :: ps, d :: ds => exists s1, sealed aes_128_cm hmac_sha1_80 s (set_marker rtp mk) ts p d s1 /\ sealed_all s1 (rtp_next (set_marker rtp mk)) ts ps ds s' rtp'
  | _, _ => False
  end.
Lemma sealed_all_length ts ps : forall s rtp ds s' rtp', sealed_all s rtp ts ps ds s' rtp' -> length ds = length ps.
Proof using Type. induction ps as [|[p mk] ps IH]; intros s rtp [|d ds] s' rtp'; cbn; try done. intros (s1 & _ & H). f_equal. by eapply IH. Qed.
Lemma sealed_all_app ts ps qs : forall s rtp ds es s1 rtp1 s' rtp', sealed_all s rtp ts ps ds s1 rtp1 -> sealed_all s1 rtp1 ts qs es s' rtp' -> sealed_all s rtp ts (ps ++ qs) (ds ++ es) s' rtp'.
Proof using Type.
  induction ps as [|[p mk] ps IH]; intros s rtp [|d ds] es s1 rtp1 s' rtp'; cbn; try done; [by intros [-> ->]|]. intros (s2 & H1 & H2) H. exists s2. split; [done|]. by eapply IH.
Qed.
(** What becomes of the payloads [ps] on track [i]: all of them wait, sealed, or the
    SSRC table refuses the stream and none is sent. *)
Definition sent_all (r : rtc) (es : list entry) (s : sending) (i : nat) (m : nanortc_track) (ts : Z) (ps : list (list Z * bool)) (r' : rtc) (rc : Z) : Prop :=
  keeps r r' /\ stamped r r' /\ session_ok (r_srtp r') /\
  ((rc = NANORTC_OK /\ exists ds rtp', represents r' es (pace s ds) /\ sealed_all (r_srtp r) (tr_rtp m) ts ps ds (r_srtp r') rtp' /\ track_goes_on (r_media r) (r_media r') i rtp') \/
   (ps <> [] /\ no_place r (tr_rtp m) /\ rc = NANORTC_ERR_BUFFER_TOO_SMALL /\ represents r' es s /\ exists rtp', track_goes_on (r_media r) (r_media r') i rtp')).
Lemma sent_none r es s i m ts : represents r es s -> session_ok (r_srtp r) -> r_media r !! i = Some m -> sent_all r es s i m ts [] r NANORTC_OK.
Proof using Type.
  intros H Hs Hm. split; [done|]. split; [by intros P _ HP|]. split; [done|]. left. split; [done|]. exists [], (tr_rtp m). rewrite pace_nil. split; [done|]. split; [done|].
  split; [|done]. by exists m, m.
Qed.
Lemma track_after l l' i rtp : track_goes_on l l' i rtp -> exists m', l' !! i = Some m' /\ tr_rtp m' = rtp.
Proof using Type. intros [(m & m' & _ & H & _ & Hr) _]. by exists m'. Qed.
(** Going on after payloads that were all sent. *)
Lemma sent_all_app r es s i m ts ps r1 ds qs m1 r' rc : keeps r r1 -> stamped r r1 -> represents r1 es (pace s ds) -> ps <> [] -> sealed_all (r_srtp r) (tr_rtp m) ts ps ds (r_srtp r1) (tr_rtp m1) ->
  track_goes_on (r_media r) (r_media r1) i (tr_rtp m1) -> ~ no_place r1 (tr_rtp m1) ->
  sent_all r1 es (pace s ds) i m1 ts qs r' rc -> sent_all r es s i m ts (ps ++ qs) r' rc.
Proof using Type.
  intros Hk Hst Hr Hne Hse Ht Hp (Hk' & Hst' & Hs' & H). split; [by eapply keeps_trans|]. split; [eapply stamped_trans; [|done..]; by destruct Hk as (_ & _ & _ & -> & _)|]. split; [done|]. destruct H as [(-> & ds' & rtp' & Hr' & Hse' & Ht')|(_ & Hno & _)]; [|done].
  left. split; [done|]. exists (ds ++ ds'), rtp'. rewrite pace_pace in Hr'. split; [done|]. split; [by eapply sealed_all_app | by eapply track_goes_on_trans].
Qed.
Lemma sealed_placed s rtp ts p d s' : sealed aes_128_cm hmac_sha1_80 s rtp ts p d s' -> exists ss, starts (ssrc_states s') (u32 (rtp_ssrc rtp)) ss.
Proof using Type. intros [(ss & _ & _ & Ht) _ _ _]. eexists. left. exact Ht. Qed.
Lemma sealed_all_placed ts ps : forall s rtp ds s' rtp', ps <> [] -> sealed_all s rtp ts ps ds s' rtp' -> u32 (rtp_ssrc rtp') = u32 (rtp_ssrc rtp) /\ exists ss, starts (ssrc_states s') (u32 (rtp_ssrc rtp')) ss.
Proof using Type.
  induction ps as [|[p mk] ps IH]; intros s rtp [|d ds] s' rtp' Hne H; try done. destruct H as (s1 & H1 & H2). destruct ps as [|q ps].
  - destruct ds; [|done]. destruct H2 as [-> ->]. split; [done|]. exact (sealed_placed _ _ _ _ _ _ H1).
  - destruct (IH _ _ _ _ _ ltac:(done) H2) as [-> Hp]. split; done.
Qed.
Lemma ring_room_pace s n ds : ring_room s (length ds + n) -> ring_room (pace s ds) n.
Proof using Type. unfold ring_room, pace. cbn [sn_queue sn_paced]. rewrite length_app. lia. Qed.
Lemma send_one r es s i m ts p mk buf payload : represents r es s -> session_ok (r_srtp r) -> r_media r !! i = Some m -> packet_body p -> staged (tr_rtp m) p buf payload -> ring_room s 1 ->
  exists r' rc, video_send_packet aes_128_cm hmac_sha1_80 r i (out_slot (pr_tail (r_ring r))) buf ts payload (length p) mk = Ok (r', rc) /\ sent_all r es s i m ts [(p, mk)] r' rc.
Proof using Laws.
  intros H Hs Hm Hp Hst Hroom. destruct (send_packet_spec _ _ Laws r es s i m ts p mk buf payload H Hs Hm Hp Hst Hroom) as (r' & Hk & Hst' & Hs' & [(d & -> & Hr & Hse & Ht)|(Hno & -> & Hr & Ht)]);
    eexists _, _; (split; [reflexivity|]); (split; [done|]); (split; [done|]); (split; [done|]).
  - left. split; [done|]. exists [d], (rtp_next (set_marker (tr_rtp m) mk)). split; [done|]. split; [|done]. cbn. by exists (r_srtp r').
  - right. split; [done|]. split; [done|]. split; [done|]. split; [done | by eexists].
Qed.
(** One payload, then the rest. *)
Lemma sent_all_cons r es s i m ts p mk r1 rc1 : r_media r !! i = Some m -> sent_all r es s i m ts [(p, mk)] r1 rc1 ->
  (rc1 <> NANORTC_OK /\ forall qs, sent_all r es s i m ts ((p, mk) :: qs) r1 rc1) \/
  (rc1 = NANORTC_OK /\ exists d m1, represents r1 es (pace s [d]) /\ session_ok (r_srtp r1) /\ r_media r1 !! i = Some m1 /\ same_config m m1 /\ tr_rtp m1 = rtp_next (set_marker (tr_rtp m) mk) /\
     (forall n, ring_room s (S n) -> ring_room (pace s [d]) n) /\ forall qs r' rc, sent_all r1 es (pace s [d]) i m1 ts qs r' rc -> sent_all r es s i m ts ((p, mk) :: qs) r' rc).
Proof using Type.
  intros Hm (Hk & Hstp & Hs & [(-> & ds & rtp' & Hr & Hse & Ht)|(_ & Hno & -> & Hr)]).
  - right. split; [done|]. destruct (sealed_all_placed _ [(p, mk)] _ _ _ _ _ ltac:(done) Hse) as [_ (ss & Hp)]. pose proof (sealed_all_length _ _ _ _ _ _ _ Hse) as Hl. destruct ds as [|d [|? ?]]; try done.
    pose proof Hse as (s1 & _ & [_ Hn]). destruct (proj1 Ht) as (m0 & m1 & Hm0 & Hm1 & Hc & Heq). simplify_eq. exists d, m1. split; [done|]. split; [done|]. split; [done|]. split; [done|]. split; [done|].
    split; [intros n; by apply (ring_room_pace s n [d])|]. intros qs r' rc. apply (sent_all_app r es s i m ts [(p, mk)] r1 [d] qs m1); rewrite ?Heq; try done. intros Hno. by apply (Hno ss).
  - left. split; [done|]. intros qs. split; [done|]. split; [done|]. split; [done|]. right. done.
Qed.

(** The ring slot that a packet is built in. *)
Lemma alloc_slot_spec r es s : represents r es s -> exists st, pkt_ring_alloc_slot r = (with_stats r st, out_slot (pr_tail (r_ring r))) /\ represents (with_stats r st) es s /\ exists b, get_packet (with_stats r st) (out_slot (pr_tail (r_ring r))) = Ok b /\ length b = NANORTC_MEDIA_BUF_SIZE.
Proof using Type.
  intros H. pose proof (ring_tail_lt r es s H) as Hlt. pose proof (mo_ring _ (rp_memory _ _ _ H)) as [Hl Hb]. rewrite <- Hl in Hlt. destruct (lookup_lt_is_Some_2 _ _ Hlt) as [b Hbuf].
  unfold pkt_ring_alloc_slot. assert (r = with_stats r (r_stats r)) as Hr by (by destruct r). destruct (_ <=? _); eexists; (split; [first [reflexivity | by rewrite Hr at 1]|]); (split; [by apply represents_stats|]); exists b; unfold get_packet; cbn [r_ring with_stats]; rewrite Hbuf; split; try done;
    exact (proj1 (Forall_lookup _ _) Hb _ b Hbuf).
Qed.
Lemma sent_all_stats r st es s i m ts ps r' rc : sent_all (with_stats r st) es s i m ts ps r' rc -> sent_all r es s i m ts ps r' rc.
Proof using Type. done. Qed.

(** * H.265 *)

Lemma fragment_cb_spec r es s i m ts p mk : represents r es s -> session_ok (r_srtp r) -> r_media r !! i = Some m -> packet_body p -> ring_room s 1 ->
  exists r' rc, video_send_fragment_cb aes_128_cm hmac_sha1_80 r i ts p mk = Ok (r', rc) /\ sent_all r es s i m ts [(p, mk)] r' rc.
Proof using Laws.
  intros H Hs Hm Hp Hroom. unfold video_send_fragment_cb. destruct (alloc_slot_spec r es s H) as (st & -> & H1 & b & -> & Hb). rewrite bind_Ok.
  destruct (send_one (with_stats r st) es s i m ts p mk b (Some p) H1 Hs Hm Hp) as (r' & rc & Hrun & Hsent); [by split; [|left] | done|]. exists r', rc. done.
Qed.
Lemma emit_payloads ts ps : forall r es s i m rc0, represents r es s -> session_ok (r_srtp r) -> r_media r !! i = Some m -> Forall (fun p => packet_body p.1) ps -> ring_room s (length ps) ->
  exists r' rc, emit_all (h265_send_cb aes_128_cm hmac_sha1_80 i ts) (Ok (r, rc0)) ps = (Ok (r', match ps with [] => rc0 | _ => rc end), rc) /\ sent_all r es s i m ts ps r' rc.
Proof using Laws.
  induction ps as [|[p mk] ps IH]; intros r es s i m rc0 H Hs Hm Hb Hroom.
  { exists r, 0. split; [done|]. by apply sent_none. }
  rewrite Forall_cons_iff in Hb. destruct Hb as [Hp Hb]. cbn [fst length] in *. destruct (fragment_cb_spec r es s i m ts p mk H Hs Hm Hp) as (r1 & rc1 & Hrun & Hsent); [unfold ring_room in *; lia|].
  cbn [emit_all h265_send_cb]. rewrite Hrun. destruct (sent_all_cons _ _ _ _ _ _ _ _ _ _ Hm Hsent) as [(Hne & Hall)|(-> & d & m1 & Hr1 & Hs1 & Hm1 & _ & _ & Hrm & Hgo)].
  - rewrite (proj2 (Z.eqb_neq _ _)) by done. exists r1, rc1. split; [done|]. apply Hall.
  - cbn [Z.eqb NANORTC_OK]. destruct (IH r1 es (pace s [d]) i m1 NANORTC_OK Hr1 Hs1 Hm1 Hb (Hrm _ Hroom)) as (r' & rc & He & Hs'). exists r', rc. split; [|by apply Hgo].
    rewrite He. destruct ps; [|done]. cbn in He. injection He as <- <-. done.
Qed.
End Packets.

(** * The payloads of a unit *)

Lemma fragments_bodies hdr max h : forall fuel first data, (forall a b, length (hdr a b) = h /\ bytes (hdr a b)) -> (0 < max)%nat -> (0 < length data)%nat -> (length data <= fuel)%nat -> (h + max <= NANORTC_VIDEO_MTU)%nat -> bytes data ->
  Forall (fun p => packet_body p.1) (fragments fuel hdr max first data) /\ length (fragments fuel hdr max first data) = ((length data + max - 1) / max)%nat.
Proof.
  induction fuel as [|fuel IH]; intros first data Hh Hmax Hd Hf Hv Hb; [lia|]. cbn [fragments]. destruct (Nat.leb_spec (length data) max) as [Hle|Hgt].
  - split; [|cbn [length]; apply Nat.div_unique with (length data - 1)%nat; lia]. constructor; [|constructor]. cbn [fst]. destruct (Hh first true) as [Hl Hhb]. split; [by apply Forall_app_2|]. rewrite length_app, Hl. lia.
  - destruct (IH false (drop max data)) as [Hall Hn]; [done | done | rewrite length_drop; lia.. | done | by apply Forall_drop|]. split.
    + constructor; [|done]. cbn [fst]. destruct (Hh first false) as [Hl Hhb]. split; [apply Forall_app_2; [done | by apply Forall_take]|]. rewrite length_app, Hl, length_take. lia.
    + cbn [length]. rewrite Hn, length_drop. replace (length data + max - 1)%nat with (length data - max + max - 1 + 1 * max)%nat by lia. rewrite Nat.div_add by lia. lia.
Qed.
Lemma octet_list_ok (f : Z -> list Z) h : is_u8 h -> forallb (fun x => forallb (fun b => (0 <=? b) && (b <? 256)) (f x)) (map Z.of_nat (seq 0 256)) = true -> bytes (f h).
Proof.
  intros Hh H. pose proof (octet_forall _ H h Hh) as Hf. cbn beta in Hf. apply List.Forall_forall. intros x Hx. rewrite forallb_forall in Hf. specialize (Hf x Hx). unfold is_u8. change (2 ^ 8) with 256. lia.
Qed.
Lemma fua_hdr_ok h first last : is_u8 h -> length (fua_hdr h first last) = 2%nat /\ bytes (fua_hdr h first last).
Proof. intros Hh. split; [done|]. destruct first, last; apply (octet_list_ok (fun h => fua_hdr h _ _) h Hh); by vm_compute. Qed.
Lemma fu_hdr_ok h0 h1 first last : is_u8 h0 -> is_u8 h1 -> length (fu_hdr h0 h1 first last) = 3%nat /\ bytes (fu_hdr h0 h1 first last).
Proof.
  intros Hh Hh1. split; [done|]. assert (bytes (fu_hdr h0 0 first last)) as Hb by (destruct first, last; apply (octet_list_ok (fun h => fu_hdr h 0 _ _) h0 Hh); by vm_compute).
  unfold fu_hdr in *. inversion_clear Hb as [|? ? H0 Hr]. inversion_clear Hr as [|? ? _ Hr']. constructor; [done|]. by constructor.
Qed.
Lemma nth_octet (l : list Z) i : bytes l -> is_u8 (nth i l 0).
Proof. intros Hb. destruct (nth_in_or_default i l 0) as [Hi| ->]; [|done]. by apply (proj1 (List.Forall_forall _ _) Hb). Qed.

(** The reservation counts an H.264 unit's packets, and an H.265 unit's own ones. *)
Lemma h264_payloads_count nalu : bytes nalu -> (0 < length nalu)%nat ->
  Forall (fun p => packet_body p.1) (h264_payloads nalu NANORTC_VIDEO_MTU) /\ forall codec, is_h265 codec = false -> length (h264_payloads nalu NANORTC_VIDEO_MTU) = nal_worst_packets (length nalu) codec.
Proof.
  intros Hb Hl. unfold h264_payloads, nal_worst_packets. pose proof video_mtu. destruct (Nat.leb_spec (length nalu) NANORTC_VIDEO_MTU) as [Hle|Hgt].
  - split; [|done]. constructor; [|constructor]. split; [done|]. cbn. lia.
  - destruct (fragments_bodies (fua_hdr (nth 0 nalu 0)) (NANORTC_VIDEO_MTU - 2) 2 (length nalu) true (drop 1 nalu)) as [Hall Hn];
      [intros a b; apply fua_hdr_ok; by apply nth_octet | lia | rewrite ?length_drop; lia.. | by apply Forall_drop|].
    split; [done|]. intros codec ->. by rewrite Hn, length_drop.
Qed.
Lemma unit_payloads_count nalu mk : bytes nalu -> (2 <= length nalu)%nat ->
  Forall (fun p => packet_body p.1) (unit_payloads nalu NANORTC_VIDEO_MTU mk) /\ forall codec, is_h265 codec = true -> length (unit_payloads nalu NANORTC_VIDEO_MTU mk) = nal_worst_packets (length nalu) codec.
Proof.
  intros Hb Hl. unfold unit_payloads, nal_worst_packets. pose proof video_mtu. destruct (Nat.leb_spec (length nalu) NANORTC_VIDEO_MTU) as [Hle|Hgt].
  - split; [|done]. constructor; [|constructor]. split; [done|]. cbn. lia.
  - destruct (fragments_bodies (fu_hdr (nth 0 nalu 0) (nth 1 nalu 0)) (NANORTC_VIDEO_MTU - 3) 3 (length nalu) true (drop 2 nalu)) as [Hall Hn];
      [intros a b; apply fu_hdr_ok; by apply nth_octet | lia | rewrite ?length_drop; lia.. | by apply Forall_drop|].
    split; [rewrite Forall_map; done|]. intros codec ->. by rewrite length_map, Hn, length_drop.
Qed.

(** * H.264 through the iterator *)

Lemma iter_next_staged it scratch it' scratch' payload last : h264_fragment_iter_next it scratch = Ok (it', scratch', payload, last) -> it_single_nal it = false -> exists rest, scratch' = payload ++ rest.
Proof.
  unfold h264_fragment_iter_next. intros H Hs. rewrite Hs in H. destruct (it_done it); [done|]. destruct (_ =? 0)%nat; [done|]. cbv zeta in H. destruct (_ <? _)%nat; [done|].
  do 5 bind_inv H. injection H as <- <- <- _. apply rdn_inv in Hx3 as [_ ->]. rewrite drop_0. eexists. symmetry. apply take_drop.
Qed.

Section IterSend.
Context (aes_128_cm : list Z -> list Z -> list Z -> Z * list Z) (hmac_sha1_80 : list Z -> list Z -> list Z).
Context (Laws : provider_laws aes_128_cm hmac_sha1_80).
Abbreviation loop := (send_video_loop aes_128_cm hmac_sha1_80).
Abbreviation sent_all := (sent_all aes_128_cm hmac_sha1_80).

Definition last_marked (last_nal : bool) (ps : list (list Z * bool)) : list (list Z * bool) := map (fun p => (p.1, p.2 && last_nal)) ps.
Lemma video_mtu_room : (3 <= NANORTC_VIDEO_MTU)%nat.
Proof using Type. vid_lia. Qed.
Lemma send_loop_at ts nalu last_nal : forall fuel o r es s i m, (1 <= o < length nalu)%nat -> (length nalu - o < fuel)%nat ->
  let ps := fragments fuel (fua_hdr (nth 0 nalu 0)) (NANORTC_VIDEO_MTU - 2) (o =? 1)%nat (drop o nalu) in
  represents r es s -> session_ok (r_srtp r) -> r_media r !! i = Some m -> Forall (fun p => packet_body p.1) ps -> ring_room s (length ps) ->
  exists r' rc, loop fuel r i (rtp_header_len (tr_rtp m)) ts (iter_at nalu NANORTC_VIDEO_MTU o) last_nal = Ok (r', rc) /\ sent_all r es s i m ts (last_marked last_nal ps) r' rc.
Proof using Laws.
  induction fuel as [|fuel IH]; intros o r es s i m Ho Hf ps H Hs Hm Hb Hroom; [lia|]. cbn [send_video_loop]. unfold h264_fragment_iter_has_next. cbn [it_done it_single_nal it_remaining iter_at orb].
  rewrite (proj2 (Nat.ltb_lt _ _)) by lia. destruct (alloc_slot_spec r es s H) as (st & -> & H1 & buf & -> & Hbuf). rewrite bind_Ok. set (off := rtp_header_len (tr_rtp m)).
  pose proof (rtp_header_small (tr_rtp m)) as Hoff. fold off in Hoff. pose proof video_mtu. assert (Z.of_nat NANORTC_MEDIA_BUF_SIZE = 1232) as Hms by (by vm_compute).
  destruct (iter_next_at nalu NANORTC_VIDEO_MTU video_mtu_room o (drop off buf) Ho) as (scratch & Hsl & Hn); [rewrite length_drop; lia|]. cbv zeta in Hn. rewrite length_drop in Hsl.
  destruct (iter_next_staged _ _ _ _ _ _ Hn eq_refl) as (rest & Hrest). rewrite Hn. clear Hn. cbn [it_single_nal]. set (payload := fua_hdr _ _ _ ++ _) in *.
  set (last := (length nalu - o <=? NANORTC_VIDEO_MTU - 2)%nat) in *.
  assert (ps = (payload, last) :: if last then [] else fragments fuel (fua_hdr (nth 0 nalu 0)) (NANORTC_VIDEO_MTU - 2) false (drop (NANORTC_VIDEO_MTU - 2) (drop o nalu))) as Hps.
  { unfold ps, payload. cbn [fragments]. rewrite length_drop. fold last. unfold last. destruct (Nat.leb_spec (length nalu - o) (NANORTC_VIDEO_MTU - 2)).
    - do 3 f_equal. symmetry. apply take_ge. rewrite length_drop. destruct (Nat.ltb_spec (length nalu - o) (NANORTC_VIDEO_MTU - 2)); lia.
    - by rewrite (proj2 (Nat.ltb_ge _ _)) by lia. }
  rewrite Hps in Hb, Hroom |- *. rewrite Forall_cons_iff in Hb. destruct Hb as [Hp Hb]. cbn [fst length] in Hp, Hroom.
  destruct (send_one aes_128_cm hmac_sha1_80 Laws (with_stats r st) es s i m ts payload (last && last_nal) (take off buf ++ scratch) None H1 Hs Hm Hp) as (r1 & rc1 & Hrun & Hsent).
  { split; [rewrite length_app, length_take; lia|]. right. split; [done|]. exists (take off buf), rest. by rewrite length_take, Hrest, Nat.min_l by lia. }
  { unfold ring_room in *. lia. }
  change (out_slot (pr_tail (r_ring (with_stats r st)))) with (out_slot (pr_tail (r_ring r))) in Hrun. rewrite Hrun, bind_Ok. apply sent_all_stats in Hsent. cbn [last_marked map fst snd].
  destruct (sent_all_cons _ _ _ _ _ _ _ _ _ _ _ _ Hm Hsent) as [(Hne & Hall)|(-> & d & m1 & Hr1 & Hs1 & Hm1 & _ & Hrtp & Hrm & Hgo)].
  - rewrite (proj2 (Z.eqb_neq _ _)) by done. exists r1, rc1. split; [done|]. apply Hall.
  - cbn [negb Z.eqb NANORTC_OK]. destruct last eqn:Hlast.
    + exists r1, NANORTC_OK. split; [|done]. destruct fuel as [|fuel]; [lia|]. reflexivity.
    + apply Nat.leb_gt in Hlast. rewrite (proj2 (Nat.ltb_ge _ _)) by lia. cbv zeta in IH.
      assert (rtp_header_len (tr_rtp m1) = off) as Hoff1 by (by rewrite Hrtp).
      destruct (IH (o + (NANORTC_VIDEO_MTU - 2))%nat r1 es (pace s [d]) i m1) as (r' & rc & Hrun' & Hs'); [lia | lia | done | done | done | | |].
      * rewrite (proj2 (Nat.eqb_neq _ _)) by lia. by rewrite drop_drop in Hb.
      * rewrite (proj2 (Nat.eqb_neq _ _)) by lia. rewrite drop_drop in Hroom. by apply Hrm.
      * rewrite Hoff1 in Hrun'. rewrite (proj2 (Nat.eqb_neq _ _)) in Hs' by lia. exists r', rc. split.
        -- rewrite <- Hrun'. unfold iter_at. rewrite Nat.sub_add_distr. done.
        -- rewrite drop_drop. by apply Hgo.
Qed.
Lemma send_unit_spec r es s i m ts nalu last_nal : represents r es s -> session_ok (r_srtp r) -> r_media r !! i = Some m -> bytes nalu -> (0 < length nalu)%nat ->
  ring_room s (length (h264_payloads nalu NANORTC_VIDEO_MTU)) ->
  exists r' rc, rtc_send_video aes_128_cm hmac_sha1_80 r i ts nalu last_nal = Ok (r', rc) /\ sent_all r es s i m ts (last_marked last_nal (h264_payloads nalu NANORTC_VIDEO_MTU)) r' rc.
Proof using Laws.
  intros H Hs Hm Hb Hl Hroom. destruct (h264_payloads_count nalu Hb Hl) as [Hall _]. pose proof video_mtu. assert (Z.of_nat NANORTC_MEDIA_BUF_SIZE = 1232) as Hms by (by vm_compute). pose proof (rtp_header_small (tr_rtp m)) as Hoff.
  unfold rtc_send_video, h264_fragment_iter_init, H264_FUA_HEADER_SIZE. rewrite (proj2 (Nat.eqb_neq _ _)), (proj2 (Nat.ltb_ge _ _)) by lia. cbn [orb]. unfold h264_payloads in *.
  destruct (Nat.leb_spec (length nalu) NANORTC_VIDEO_MTU) as [Hle|Hgt].
  - unfold get_track. rewrite Hm, bind_Ok. cbv zeta. rewrite payload_offset_eq, (proj2 (Nat.leb_gt _ _)) by lia. cbn [send_video_loop]. unfold h264_fragment_iter_has_next, h264_fragment_iter_next. cbn [it_done it_single_nal orb it_nalu].
    destruct (alloc_slot_spec r es s H) as (st & -> & H1 & buf & -> & Hbuf). rewrite bind_Ok, take_drop. rewrite Forall_cons_iff in Hall. destruct Hall as [Hp _].
    destruct (send_one aes_128_cm hmac_sha1_80 Laws (with_stats r st) es s i m ts nalu (true && last_nal) buf (Some nalu) H1 Hs Hm Hp) as (r1 & rc1 & Hrun & Hsent); [by split; [|left] | done|].
    change (out_slot (pr_tail (r_ring (with_stats r st)))) with (out_slot (pr_tail (r_ring r))) in Hrun. rewrite Hrun, bind_Ok. apply sent_all_stats in Hsent. exists r1, rc1. split; [|done].
    destruct (rc1 =? NANORTC_OK) eqn:Hrc; cbn [negb]; [|done]. apply Z.eqb_eq in Hrc. subst rc1. destruct (length nalu) eqn:Hx; [lia|]. reflexivity.
  - rewrite rd8_Ok, bind_Ok by lia. unfold get_track. rewrite Hm, bind_Ok. cbv zeta. rewrite payload_offset_eq, (proj2 (Nat.leb_gt _ _)) by lia.
    rewrite (fragments_fuel _ _ (length nalu) (S (S (length nalu)))) in Hroom, Hall |- * by (rewrite ?length_drop; lia). by apply (send_loop_at ts nalu last_nal (S (S (length nalu))) 1 r es s i m); try done; lia.
Qed.
End IterSend.
