(* ===== verification/VideoAdmit.v ===== *)
(** A video frame against the room it reserves: the units of the frame, the packets
    they become, and that what [nanortc_send_video] admits always fits the ring -
    a frame is queued whole or not at all. *)

From Stdlib Require Import ZArith Lia.
From stdpp Require Import base list numbers.
From S2P Require Import Prelude Wire Sdp Stun Ice Turn TurnRequests TurnHistory Fragment AnnexB H264 H265 Srtp Rtp Rtcp Bwe Media OutQueue OutQueueFifo OutQueueSpec OutQueueSteps VideoSend VideoSteps VideoFrame.

Local Open Scope Z_scope.

(** * The units of a frame *)

(** Each unit with whether the scanner finds nothing behind it. *)
Fixpoint frame_units (fuel : nat) (buf : list Z) (offset : nat) : list (list Z * bool) :=
  match fuel with
  | O => []
  | S fuel =>
      if (length buf <=? offset)%nat then [] else
      match nano_annex_b_find_nal buf offset with
      | Ok (Some (start, S n, offset')) =>
          (take (S n) (drop start buf), match nano_annex_b_find_nal buf offset' with Ok None => true | _ => false end) :: frame_units fuel buf offset'
      | _ => []
      end
  end.
Definition units (buf : list Z) : list (list Z * bool) := frame_units (S (length buf)) buf 0.

(** What one step of a walk sees. *)
Lemma find_nal_no_err buf o : no_err (nano_annex_b_find_nal buf o).
Proof.
  assert (forall i, no_err (start_code_at buf i)) as Hs by (intros i; unfold start_code_at; repeat no_err_step).
  assert (forall fuel i, no_err (skip_start_code fuel buf i)) as H1 by (intros fuel; induction fuel; intros i; cbn [skip_start_code]; repeat first [apply Hs | apply IHfuel | no_err_step]).
  assert (forall fuel i, no_err (next_start_code fuel buf i)) as H2 by (intros fuel; induction fuel; intros i; cbn [next_start_code]; repeat first [apply Hs | apply IHfuel | no_err_step]).
  assert (forall n i, no_err (strip_zeros buf i n)) as H3 by (intros n; induction n; intros i; cbn [strip_zeros]; repeat first [apply IHn | no_err_step]).
  unfold nano_annex_b_find_nal. repeat first [apply H1 | apply H2 | apply H3 | no_err_step].
Qed.
Lemma find_nal_cases buf o : (o <= length buf)%nat ->
  nano_annex_b_find_nal buf o = Ok None \/
  exists start n o', nano_annex_b_find_nal buf o = Ok (Some (start, n, o')) /\ (start + n <= length buf)%nat /\ (o' <= length buf)%nat /\ ((0 < n)%nat -> (o < o')%nat).
Proof.
  intros Ho. pose proof (annex_b_find_nal_safe buf o Ho) as H. pose proof (find_nal_no_err buf o) as Hn.
  destruct (nano_annex_b_find_nal buf o) as [[[[st n] o']|]|e|] eqn:He; [|by left | by destruct (Hn e) | done].
  right. exists st, n, o'. destruct (H st n o' eq_refl). split; [done|]. lia.
Qed.

(** The packets reserved for the units. *)
Definition units_worst (codec : Z) (us : list (list Z * bool)) : nat := list_sum (map (fun u => nal_worst_packets (length u.1) codec) us).
Lemma worst_packets_eq buf codec : forall fuel o total, (o <= length buf)%nat -> (length buf - o < fuel)%nat ->
  worst_packets fuel buf codec o total = Ok (total + units_worst codec (frame_units fuel buf o))%nat.
Proof.
  induction fuel as [|fuel IH]; intros o total Ho Hf; [lia|]. cbn [worst_packets frame_units]. destruct (Nat.leb_spec (length buf) o); [cbn; f_equal; lia|].
  destruct (find_nal_cases buf o Ho) as [->|(st & n & o' & -> & Hst & Ho' & Hn)]; rewrite bind_Ok; [cbn; f_equal; lia|].
  destruct n as [|n]; [cbn; f_equal; lia|]. cbn [Nat.eqb]. rewrite IH by lia. unfold units_worst. cbn [map list_sum fold_right fst]. rewrite length_take, length_drop, Nat.min_l by lia. f_equal. unfold list_sum. lia.
Qed.
Lemma frame_worst_eq buf codec : video_frame_worst_packets buf codec = Ok (units_worst codec (units buf)).
Proof. unfold video_frame_worst_packets. rewrite worst_packets_eq by lia. done. Qed.
Lemma frame_units_ok buf : bytes buf -> forall fuel o, (o <= length buf)%nat -> Forall (fun u => bytes u.1 /\ (0 < length u.1 <= length buf)%nat) (frame_units fuel buf o).
Proof.
  intros Hb. induction fuel as [|fuel IH]; intros o Ho; cbn [frame_units]; [done|]. destruct (_ <=? _)%nat; [done|].
  destruct (find_nal_cases buf o Ho) as [->|(st & n & o' & -> & Hst & Ho' & Hn)]; [done|]. destruct n as [|n]; [done|]. constructor; [|by apply IH].
  cbn [fst]. split; [by apply Forall_take, Forall_drop|]. rewrite length_take, length_drop. lia.
Qed.
Lemma collect_nals_eq buf : forall fuel n o, (o <= length buf)%nat -> (length buf - o < fuel)%nat ->
  collect_nals fuel n buf o = Ok (map (fun u => Some u.1) (take n (frame_units fuel buf o))).
Proof.
  induction fuel as [|fuel IH]; intros [|n] o Ho Hf; [lia..| |]; cbn [collect_nals frame_units]; [done|]. destruct (Nat.leb_spec (length buf) o); [done|].
  destruct (find_nal_cases buf o Ho) as [->|(st & k & o' & -> & Hst & Ho' & Hn)]; rewrite bind_Ok; [done|].
  destruct k as [|k]; [done|]. cbn [Nat.eqb]. rewrite rdn_Ok, bind_Ok, IH, bind_Ok by lia. done.
Qed.

(** * The payloads of a frame *)

Definition h264_frame_payloads (us : list (list Z * bool)) : list (list Z * bool) := concat (map (fun u => last_marked u.2 (h264_payloads u.1 NANORTC_VIDEO_MTU)) us).
Definition unit_bytes (u : list Z * bool) : Prop := bytes u.1 /\ (0 < length u.1)%nat.
Lemma h264_frame_count codec us : is_h265 codec = false -> Forall unit_bytes us -> length (h264_frame_payloads us) = units_worst codec us.
Proof.
  intros Hc. induction 1 as [|u us [Hb Hl] _ IH]; [done|]. unfold h264_frame_payloads, units_worst. cbn [map concat list_sum fold_right]. rewrite length_app. unfold last_marked. rewrite length_map.
  destruct (h264_payloads_count u.1 Hb Hl) as [_ Hu]. rewrite (Hu codec Hc). f_equal. exact IH.
Qed.
Lemma ap_packet_bytes ns : Forall bytes ns -> bytes (ap_hdr ns ++ ap_body ns).
Proof.
  intros H. apply Forall_app_2; [unfold ap_hdr; repeat constructor; apply u8_range|]. induction H as [|n ns Hn _ IH]; [done|]. rewrite ap_body_cons. apply Forall_app_2; [|by apply Forall_app_2].
  unfold be16. repeat constructor; apply u8_range.
Qed.
Lemma worst_positive codec (l : list Z) : (0 < length l)%nat -> (1 <= nal_worst_packets (length l) codec)%nat.
Proof.
  intros Hl. unfold nal_worst_packets. pose proof video_mtu. destruct (Nat.leb_spec (length l) NANORTC_VIDEO_MTU) as [|Hgt]; [lia|].
  unfold H265_FU_HEADER_SIZE, H264_FUA_HEADER_SIZE, H265_NAL_HEADER_SIZE. destruct (is_h265 codec); apply Nat.div_le_lower_bound; lia.
Qed.
Definition nals_worst (codec : Z) (nals : list (list Z)) : nat := list_sum (map (fun n => nal_worst_packets (length n) codec) nals).
Lemma nals_worst_drop codec k : forall nals, (nals_worst codec (drop k nals) <= nals_worst codec nals)%nat.
Proof. induction k as [|k IH]; intros [|n nals]; cbn [drop]; try lia. specialize (IH nals). unfold nals_worst in *. cbn [map list_sum fold_right]. unfold list_sum in *. lia. Qed.
Lemma ap_extend_long mtu next : forall b, Forall (fun n => 2 <= length n)%nat (take (ap_extend (map Some next) mtu b) next).
Proof.
  induction next as [|n next IH]; intros b; cbn [map ap_extend]; [done|]. unfold H265_NAL_HEADER_SIZE.
  destruct (Nat.ltb_spec (length n) 2); [done|]. destruct (_ <? _)%nat; [done|]. cbv zeta. destruct (_ <? _)%nat; [done|]. cbn [take]. by constructor.
Qed.
(** Any units at all: the packetizer emits no more than was reserved, and the whole
    unit list when every unit has its header. *)
Lemma au_loop_any {U} (cb : packet_cb U) codec : is_h265 codec = true -> forall fuel nals, Forall (fun n => bytes n /\ (0 < length n)%nat) nals -> (length nals < fuel)%nat ->
  exists qs rc', Forall (fun p => packet_body p.1) qs /\ (length qs <= nals_worst codec nals)%nat /\ (Forall (fun n => 2 <= length n)%nat nals -> rc' = NANORTC_OK /\ qs = au_payloads fuel nals NANORTC_VIDEO_MTU) /\
    forall u, h265_au_loop cb fuel (map Some nals) NANORTC_VIDEO_MTU u = Ok (let '(u', c) := emit_all cb u qs in (u', if c =? 0 then rc' else c)).
Proof.
  intros Hc. induction fuel as [|fuel IH]; intros nals Hn Hf; [lia|]. destruct nals as [|n rest]; [by exists [], NANORTC_OK|].
  rewrite Forall_cons_iff in Hn. destruct Hn as [[Hb Hl] Hn]. cbn [length] in Hf. pose proof video_mtu as Hmtu. pose proof (worst_positive codec n Hl) as Hw1.
  assert (forall k, nals_worst codec (n :: rest) >= nal_worst_packets (length n) codec + nals_worst codec (drop k rest))%nat as Hsum.
  { intros k. pose proof (nals_worst_drop codec k rest). unfold nals_worst in *. cbn [map list_sum fold_right]. unfold list_sum in *. lia. }
  destruct (Nat.lt_ge_cases (length n) 2) as [Hshort|Hlong].
  { exists [], NANORTC_ERR_INVALID_PARAM. split; [done|]. split; [cbn; lia|]. split; [intros Hall; inversion Hall; lia|]. intros u. cbn [map h265_au_loop]. unfold H265_NAL_HEADER_SIZE. by rewrite (proj2 (Nat.ltb_lt _ _)) by lia. }
  assert (forall (ps : list (list Z * bool)) k rest' qs, rest' = drop k rest -> Forall (fun p => packet_body p.1) ps -> (length ps <= nal_worst_packets (length n) codec)%nat ->
    Forall (fun p => packet_body p.1) qs -> (length qs <= nals_worst codec rest')%nat -> Forall (fun p => packet_body p.1) (ps ++ qs) /\ (length (ps ++ qs) <= nals_worst codec (n :: rest))%nat) as Hjoin.
  { intros ps k rest' qs -> H1 H2 H3 H4. split; [by apply Forall_app_2|]. rewrite length_app. specialize (Hsum k). lia. }
  assert (forall ps rest' qs rc', (Forall (fun n => 2 <= length n)%nat rest' -> rc' = NANORTC_OK /\ qs = au_payloads fuel rest' NANORTC_VIDEO_MTU) ->
    (Forall (fun n => 2 <= length n)%nat rest -> Forall (fun n => 2 <= length n)%nat rest') -> Forall (fun n => 2 <= length n)%nat (n :: rest) ->
    rc' = NANORTC_OK /\ ps ++ qs = ps ++ au_payloads fuel rest' NANORTC_VIDEO_MTU) as Hexact.
  { intros ps rest' qs rc' H1 H2 H. inversion H; subst. destruct (H1 (H2 ltac:(done))) as [-> ->]. done. }
  cbn [map h265_au_loop au_payloads]. unfold H265_NAL_HEADER_SIZE. rewrite (proj2 (Nat.ltb_ge (length n) 2)) by lia. rewrite !length_map.
  destruct (Nat.ltb_spec NANORTC_VIDEO_MTU (length n)) as [Hbig|Hsmall].
  - destruct (IH rest Hn) as (qs & rc' & Hq & Hql & Hall & Hrun); [lia|]. destruct (unit_payloads_count n (length rest =? 0)%nat Hb Hlong) as [Hu Hul].
    exists (unit_payloads n NANORTC_VIDEO_MTU (length rest =? 0)%nat ++ qs), rc'. destruct (Hjoin _ 0%nat rest qs eq_refl Hu) as [H1 H2]; [rewrite (Hul codec Hc); lia | done | done|].
    split; [done|]. split; [done|]. split; [by apply (Hexact _ rest)|]. intros u. rewrite h265_emit_fu_spec, bind_Ok, emit_all_app by lia.
    destruct (emit_all cb u _) as [u' rc]. destruct (rc =? 0) eqn:Hrc; cbn [negb]; [apply Hrun|]. by rewrite Hrc.
  - cbv zeta. fold (ap_run NANORTC_VIDEO_MTU n rest). destruct (ap_run_spec NANORTC_VIDEO_MTU n rest) as [Hk Hap]. cbv zeta in Hk, Hap. set (k := ap_run NANORTC_VIDEO_MTU n rest) in *.
    destruct (Nat.ltb_spec 0 k) as [Hpos|Hz].
    + destruct (IH (drop k rest)) as (qs & rc' & Hq & Hql & Hall & Hrun); [by apply Forall_drop | rewrite length_drop; lia|]. specialize (Hap Hpos).
      assert (Forall bytes (n :: take k rest)) as Hbs by (constructor; [done|]; apply Forall_take; eapply List.Forall_impl; [|exact Hn]; by intros ? []).
      exists ([(ap_hdr (n :: take k rest) ++ ap_body (n :: take k rest), (length rest =? k)%nat)] ++ qs), rc'.
      destruct (Hjoin [(ap_hdr (n :: take k rest) ++ ap_body (n :: take k rest), (length rest =? k)%nat)] k (drop k rest) qs eq_refl) as [H1 H2]; [|cbn; lia | done | done|].
      { constructor; [|constructor]. cbn [fst]. split; [by apply ap_packet_bytes|]. rewrite length_app. cbn [ap_hdr length]. lia. }
      split; [done|]. split; [done|]. split; [apply (Hexact [_] (drop k rest)); [exact Hall | by apply Forall_drop]|]. intros u.
      change (take (S k) (Some n :: map Some rest)) with (Some n :: take k (map Some rest)). rewrite firstn_map, skipn_map. change (Some n :: map Some (take k rest)) with (map Some (n :: take k rest)).
      assert (Forall (fun n => 2 <= length n)%nat (take k rest)) as Hlk by apply ap_extend_long.
      rewrite h265_emit_ap_spec, bind_Ok; [| cbn [length]; rewrite length_take; lia | by constructor | lia]. cbn [app emit_all]. destruct (cb u _ _) as [u' rc]. destruct (rc =? 0) eqn:Hrc; cbn [negb]; [apply Hrun|]. by rewrite Hrc.
    + destruct (IH rest Hn) as (qs & rc' & Hq & Hql & Hall & Hrun); [lia|]. exists ([(n, (length rest =? 0)%nat)] ++ qs), rc'.
      destruct (Hjoin [(n, (length rest =? 0)%nat)] 0%nat rest qs eq_refl) as [H1 H2]; [|cbn; lia | done | done|].
      { constructor; [|constructor]. cbn [fst]. split; [done | lia]. }
      split; [done|]. split; [done|]. split; [by apply (Hexact [_] rest)|]. intros u. cbn [app emit_all]. destruct (cb u n _) as [u' rc]. destruct (rc =? 0) eqn:Hrc; cbn [negb]; [apply Hrun|]. by rewrite Hrc.
Qed.

(** * Sending the units *)

Section Frames.
Context (aes_128_cm : list Z -> list Z -> list Z -> Z * list Z) (hmac_sha1_80 : list Z -> list Z -> list Z).
Context (Laws : provider_laws aes_128_cm hmac_sha1_80).
Abbreviation sent_all := (sent_all aes_128_cm hmac_sha1_80).

(** What was sent, then the rest. *)
Lemma sent_all_then r es s i m ts ps r1 rc1 : r_media r !! i = Some m -> ps <> [] -> sent_all r es s i m ts ps r1 rc1 ->
  (rc1 <> NANORTC_OK /\ forall qs, sent_all r es s i m ts (ps ++ qs) r1 rc1) \/
  (rc1 = NANORTC_OK /\ exists s1 m1, represents r1 es s1 /\ session_ok (r_srtp r1) /\ r_media r1 !! i = Some m1 /\
     (forall n, ring_room s (length ps + n) -> ring_room s1 n) /\ forall qs r' rc, sent_all r1 es s1 i m1 ts qs r' rc -> sent_all r es s i m ts (ps ++ qs) r' rc).
Proof using Type.
  intros Hm Hne (Hk & Hstp & Hs & [(-> & ds & rtp' & Hr & Hse & Ht)|(_ & Hno & -> & Hr)]).
  - right. split; [done|]. destruct (sealed_all_placed _ _ _ _ _ _ _ _ _ Hne Hse) as [_ (ss & Hp)]. pose proof (sealed_all_length _ _ _ _ _ _ _ _ _ Hse) as Hl.
    destruct (track_after _ _ _ _ Ht) as (m1 & Hm1 & <-). exists (pace s ds), m1. split; [done|]. split; [done|]. split; [done|]. rewrite <- Hl. split; [intros n; by apply ring_room_pace|].
    intros qs r' rc. apply (sent_all_app _ _ r es s i m ts ps r1 ds qs m1); try done. intros Hno. by apply (Hno ss).
  - left. split; [done|]. intros qs. split; [done|]. split; [done|]. split; [done|]. right. split; [by destruct ps|]. done.
Qed.
Lemma payloads_nonempty last_nal nalu : bytes nalu -> (0 < length nalu)%nat -> last_marked last_nal (h264_payloads nalu NANORTC_VIDEO_MTU) <> [].
Proof using Type.
  intros Hb Hl. pose proof (worst_positive 0 nalu Hl) as H. destruct (h264_payloads_count nalu Hb Hl) as [_ Hc]. rewrite <- (Hc 0 eq_refl) in H. destruct (h264_payloads nalu NANORTC_VIDEO_MTU); [cbn in H; lia | done].
Qed.
Lemma send_nals_spec ts buf : bytes buf -> forall fuel o r es s i m, (o <= length buf)%nat -> (length buf - o < fuel)%nat ->
  let ps := h264_frame_payloads (frame_units fuel buf o) in
  represents r es s -> session_ok (r_srtp r) -> r_media r !! i = Some m -> ring_room s (length ps) ->
  exists r' rc, send_video_nals aes_128_cm hmac_sha1_80 fuel r i ts buf o NANORTC_OK = Ok (r', rc) /\ sent_all r es s i m ts ps r' rc.
Proof using Laws.
  intros Hb. induction fuel as [|fuel IH]; intros o r es s i m Ho Hf ps H Hs Hm Hroom; [lia|]. cbn [send_video_nals]. unfold ps in *. clear ps. cbn [frame_units] in *.
  assert (exists r' rc, Ok (r, NANORTC_OK) = Ok (r', rc) /\ sent_all r es s i m ts (h264_frame_payloads []) r' rc) as Hend by (exists r, NANORTC_OK; split; [done | by apply sent_none]).
  destruct (Nat.leb_spec (length buf) o); [exact Hend|].
  destruct (find_nal_cases buf o Ho) as [Hfn|(st & k & o' & Hfn & Hst & Ho' & Hn)]; rewrite Hfn in Hroom |- *; rewrite bind_Ok; [exact Hend|].
  destruct k as [|k]; [exact Hend|]. cbn [Nat.eqb]. rewrite rdn_Ok, bind_Ok by lia. set (nalu := take (S k) (drop st buf)) in *.
  assert (exists next, nano_annex_b_find_nal buf o' = Ok next) as [next Hnext] by (destruct (find_nal_cases buf o' Ho') as [->|(? & ? & ? & -> & _)]; by eexists).
  rewrite Hnext in Hroom |- *. rewrite bind_Ok. set (last_nal := match next with None => true | Some _ => false end) in *.
  assert (bytes nalu) as Hnb by (by apply Forall_take, Forall_drop). assert (0 < length nalu)%nat as Hnl by (unfold nalu; rewrite length_take, length_drop; lia).
  unfold h264_frame_payloads in Hroom |- *. cbn [map concat fst snd] in Hroom |- *. fold (h264_frame_payloads (frame_units fuel buf o')) in Hroom |- *. rewrite length_app in Hroom.
  replace (match next with Some _ => false | None => true end) with last_nal in * by done.
  destruct (send_unit_spec _ _ Laws r es s i m ts nalu last_nal H Hs Hm Hnb Hnl) as (r1 & rc1 & Hrun & Hsent); [unfold ring_room, last_marked in *; rewrite length_map in Hroom; lia|].
  rewrite Hrun, bind_Ok. destruct (sent_all_then _ _ _ _ _ _ _ _ _ Hm (payloads_nonempty last_nal nalu Hnb Hnl) Hsent) as [(Hne & Hall)|(-> & s1 & m1 & H1 & Hs1 & Hm1 & Hrm & Hgo)].
  - rewrite (proj2 (Z.eqb_neq _ _)) by done. exists r1, rc1. split; [done|]. apply Hall.
  - cbn [negb Z.eqb NANORTC_OK]. destruct (IH o' r1 es s1 i m1) as (r' & rc & Hrun' & Hs'); [done | lia | done | done | done | by apply Hrm|]. exists r', rc. split; [done|]. by apply Hgo.
Qed.

(** The payloads of a frame of units [us]. *)
Definition h265_frame_payloads (us : list (list Z * bool)) : list (list Z * bool) :=
  let nals := map fst (take NANORTC_MAX_NALS_PER_AU us) in au_payloads (S (length nals)) nals NANORTC_VIDEO_MTU.
Definition frame_payloads (codec : Z) (us : list (list Z * bool)) : list (list Z * bool) := if is_h265 codec then h265_frame_payloads us else h264_frame_payloads us.
(** An H.265 unit has a header of two octets. *)
Definition units_whole (codec : Z) (us : list (list Z * bool)) : Prop := is_h265 codec = true -> Forall (fun u => 2 <= length u.1)%nat us.
Lemma send_h265_spec ts buf codec r es s i m : is_h265 codec = true -> bytes buf -> represents r es s -> session_ok (r_srtp r) -> r_media r !! i = Some m -> ring_room s (units_worst codec (units buf)) ->
  exists r' rc ps rc', rtc_send_video_h265 aes_128_cm hmac_sha1_80 r i ts buf = Ok (r', rc') /\ sent_all r es s i m ts ps r' rc /\ (units_whole codec (units buf) -> ps = h265_frame_payloads (units buf) /\ rc' = rc).
Proof using Laws.
  intros Hc Hb H Hs Hm Hroom. unfold rtc_send_video_h265. rewrite collect_nals_eq, bind_Ok by lia. fold (units buf). pose proof (frame_units_ok buf Hb (S (length buf)) 0 ltac:(lia)) as Hok. fold (units buf) in Hok.
  unfold h265_frame_payloads. set (us := take NANORTC_MAX_NALS_PER_AU (units buf)). rewrite <- (map_map fst Some). set (nals := map fst us). rewrite length_map.
  assert (Forall (fun n => bytes n /\ (0 < length n)%nat) nals) as Hn. { unfold nals. rewrite Forall_map. apply Forall_take. eapply List.Forall_impl; [|exact Hok]. cbn. intros ? [? ?]. split; [done | lia]. }
  assert (nals_worst codec nals <= units_worst codec (units buf))%nat as Hw.
  { unfold nals_worst, units_worst, nals, us. rewrite map_map. rewrite <- (take_drop NANORTC_MAX_NALS_PER_AU (units buf)) at 2. rewrite map_app, list_sum_app. lia. }
  destruct (Nat.eqb_spec (length nals) 0) as [Hz|Hpos].
  { apply nil_length_inv in Hz. exists r, NANORTC_OK, [], NANORTC_OK. rewrite Hz. split; [done|]. split; [by apply sent_none | done]. }
  unfold h265_packetize_au. rewrite length_map, (proj2 (Nat.eqb_neq _ _)) by done. pose proof video_mtu. unfold H265_FU_HEADER_SIZE. rewrite (proj2 (Nat.ltb_ge _ _)) by lia. cbn [orb].
  destruct (au_loop_any (h265_send_cb aes_128_cm hmac_sha1_80 i ts) codec Hc (S (length nals)) nals Hn ltac:(lia)) as (qs & rc0 & Hq & Hql & Hall & Hrun). rewrite Hrun.
  destruct (emit_payloads _ _ Laws ts qs r es s i m NANORTC_OK H Hs Hm Hq) as (r' & rc & He & Hsent); [unfold ring_room in *; lia|]. rewrite He, !bind_Ok.
  eexists r', rc, qs, _. split; [reflexivity|]. split; [done|]. intros Hlong. destruct Hall as [-> ->].
  { unfold nals, us. rewrite Forall_map. apply Forall_take. by apply Hlong. }
  split; [done|]. destruct (rc =? 0) eqn:Hrc; [|change NANORTC_OK with 0; by rewrite Hrc]. apply Z.eqb_eq in Hrc. subst rc. change NANORTC_OK with 0. cbn [Z.eqb negb]. destruct (au_payloads _ _ _); done.
Qed.
End Frames.

(** * Admission *)

(** What sending relies on besides the queue. *)
Record media_ok (r : rtc) : Prop := {
  mk_session : sr_ready (r_srtp r) = true -> session_ok (r_srtp r);
  mk_count : (r_media_count r <= length (r_media r))%nat;
  mk_codec : Forall (fun m => is_u8 (tr_codec m)) (r_media r)
}.
Definition connected (r : rtc) : bool := negb ((r_state r <? NANORTC_STATE_DTLS_CONNECTED) || negb (sr_ready (r_srtp r))).
Definition waiting (s : sending) : nat := length (sn_queue s) + length (sn_paced s).
(** Whether a frame is refused, with which code, or on which track it is sent: the
    packets it may need have to fit the ring beside everything that waits. *)
Definition video_verdict (r : rtc) (s : sending) (mid : Z) (buf : list Z) : Z + nat :=
  if (length buf =? 0)%nat then inl NANORTC_ERR_INVALID_PARAM else
  if negb (connected r) then inl NANORTC_ERR_STATE else
  match track_find_by_mid (r_media r) (r_media_count r) mid with
  | Ok (Some i) =>
      match r_media r !! i with
      | Some m =>
          match tr_kind m with
          | TRACK_AUDIO => inl NANORTC_ERR_INVALID_PARAM
          | TRACK_VIDEO =>
              if negb (may_send (tr_direction m)) then inl NANORTC_ERR_STATE else
              let needed := units_worst (tr_codec m) (units buf) in
              if (needed =? 0)%nat then inl NANORTC_OK else
              if (NANORTC_VIDEO_PKT_RING_SIZE <? needed)%nat then inl NANORTC_ERR_BUFFER_TOO_SMALL else
              if (NANORTC_VIDEO_PKT_RING_SIZE <? waiting s + needed)%nat then inl NANORTC_ERR_WOULD_BLOCK else inr i
          end
      | None => inl NANORTC_ERR_INVALID_PARAM
      end
  | _ => inl NANORTC_ERR_INVALID_PARAM
  end.
Lemma find_mid_Ok media mid : forall n i, (i + n <= length media)%nat ->
  exists o, find_mid_loop n i media mid = Ok o /\ forall j, o = Some j -> exists m, media !! j = Some m /\ tr_mid m = mid /\ tr_active m = true.
Proof.
  induction n as [|n IH]; intros i Hl; cbn [find_mid_loop]; [by exists None|]. destruct (lookup_lt_is_Some_2 media i) as [m Hm]; [lia|]. rewrite Hm.
  destruct (_ && _) eqn:Hc; [|apply IH; lia]. apply andb_true_iff in Hc as [Ha Hmid%Z.eqb_eq]. eexists. split; [done|]. intros j [= <-]. by exists m.
Qed.
Lemma find_track r mid : media_ok r -> exists o, track_find_by_mid (r_media r) (r_media_count r) mid = Ok o /\ forall i, o = Some i -> exists m, r_media r !! i = Some m /\ tr_mid m = mid /\ tr_active m = true.
Proof. intros H. apply find_mid_Ok. pose proof (mk_count _ H). lia. Qed.
Lemma media_ok_after r r' i rtp : media_ok r -> keeps r r' -> session_ok (r_srtp r') -> track_goes_on (r_media r) (r_media r') i rtp -> media_ok r'.
Proof.
  intros [H1 H2 H3] (_ & _ & _ & _ & _ & Hc & _ & Hl) Hs [(m & m' & Hm & Hm' & Hcfg & _) Ho]. constructor; [done | lia|]. apply Forall_lookup_2. intros j x Hj. destruct (decide (j = i)) as [->|Hne].
  - simplify_eq. destruct Hcfg as (_ & _ & _ & _ & -> & _). exact (proj1 (Forall_lookup _ _) H3 i m Hm).
  - rewrite Ho in Hj by done. exact (proj1 (Forall_lookup _ _) H3 j x Hj).
Qed.

Section Admission.
Context (aes_128_cm : list Z -> list Z -> list Z -> Z * list Z) (hmac_sha1_80 : list Z -> list Z -> list Z).
Context (Laws : provider_laws aes_128_cm hmac_sha1_80).

Lemma send_video_refines r es s mid pts buf : represents r es s -> media_ok r -> bytes buf ->
  exists r' rc, nanortc_send_video aes_128_cm hmac_sha1_80 r mid pts buf = Ok (r', rc) /\
    match video_verdict r s mid buf with
    | inl rc0 => r' = r /\ rc = rc0
    | inr i => exists m r0 ps rc0, r_media r !! i = Some m /\ tr_mid m = mid /\ r0 = put_track r i (with_sent m (tr_rtcp m) (rate_window_on_frame (tr_rate_window m) (r_now_ms r))) /\
        sent_all aes_128_cm hmac_sha1_80 r0 es s i m (pts_ms_to_rtp pts 90000) ps r' rc0 /\
        (units_whole (tr_codec m) (units buf) -> ps = frame_payloads (tr_codec m) (units buf) /\ rc = rc0)
    end.
Proof using Laws.
  intros H Hmed Hb. unfold nanortc_send_video, video_verdict. destruct (length buf =? 0)%nat; [by eexists _, _|]. unfold connected. rewrite negb_involutive.
  destruct ((r_state r <? NANORTC_STATE_DTLS_CONNECTED) || negb (sr_ready (r_srtp r))) eqn:Hst; [by eexists _, _|]. apply orb_false_iff in Hst as [_ Hrd%negb_false_iff].
  destruct (find_track r mid Hmed) as (o & -> & Ho). rewrite bind_Ok. destruct o as [i|]; [|by eexists _, _]. destruct (Ho i eq_refl) as (m & Hm & Hmid & _). unfold get_track. rewrite Hm, bind_Ok.
  destruct (tr_kind m); [by eexists _, _|]. destruct (negb (may_send (tr_direction m))); [by eexists _, _|].
  pose proof (proj1 (Forall_lookup _ _) (mk_codec _ Hmed) i m Hm) as Hcodec. cbv beta in Hcodec. rewrite u8_id by done. rewrite frame_worst_eq, bind_Ok. cbv zeta.
  set (needed := units_worst (tr_codec m) (units buf)). destruct (Nat.eqb_spec needed 0); [by eexists _, _|]. destruct (Nat.ltb_spec NANORTC_VIDEO_PKT_RING_SIZE needed) as [|Hcap]; [by eexists _, _|].
  assert (ring_occupied r = Z.of_nat (waiting s)) as ->.
  { unfold ring_occupied, waiting. rewrite (ring_holds_used _ _ (rp_ring _ _ _ H)), (items_length r es s H). rewrite (proj1 (depth_spec r es s H)). lia. }
  assert ((Z.of_nat NANORTC_VIDEO_PKT_RING_SIZE <=? Z.of_nat (waiting s)) || (Z.of_nat NANORTC_VIDEO_PKT_RING_SIZE - Z.of_nat (waiting s) <? Z.of_nat needed) = (NANORTC_VIDEO_PKT_RING_SIZE <? waiting s + needed)%nat) as ->.
  { destruct (Nat.ltb_spec NANORTC_VIDEO_PKT_RING_SIZE (waiting s + needed)); [apply orb_true_iff | apply orb_false_iff]; lia. }
  destruct (Nat.ltb_spec NANORTC_VIDEO_PKT_RING_SIZE (waiting s + needed)) as [|Hfit]; [by eexists _, _|].
  set (m0 := with_sent _ _ _). set (r0 := put_track r i m0). pose proof (lookup_lt_Some _ _ _ Hm) as Hlt.
  assert (represents r0 es s) as H0 by (by apply represents_media). assert (r_media r0 !! i = Some m0) as Hm0 by (by apply list_lookup_insert_eq). pose proof (mk_session _ Hmed Hrd) as Hs.
  assert (forall k, (k <= needed)%nat -> ring_room s k) as Hroom.
  { intros k Hk. unfold ring_room, waiting in *. assert (count Media (sn_queue s) <= length (sn_queue s))%nat by apply List.filter_length_le. lia. }
  assert (forall ps r' rc, sent_all aes_128_cm hmac_sha1_80 r0 es s i m0 (pts_ms_to_rtp pts 90000) ps r' rc -> sent_all aes_128_cm hmac_sha1_80 r0 es s i m (pts_ms_to_rtp pts 90000) ps r' rc) as Hsame by done.
  pose proof (frame_units_ok buf Hb (S (length buf)) 0 ltac:(lia)) as Hok. fold (units buf) in Hok.
  unfold frame_payloads. destruct (is_h265 (tr_codec m)) eqn:Hc.
  - destruct (send_h265_spec _ _ Laws (pts_ms_to_rtp pts 90000) buf (tr_codec m) r0 es s i m0 Hc Hb H0 Hs Hm0 (Hroom _ (le_n _))) as (r' & rc & ps & rc' & Hrun & Hsent & Hw).
    rewrite Hrun. exists r', rc'. split; [done|]. exists m, r0, ps, rc. split; [done|]. split; [done|]. split; [done|]. split; [by apply Hsame | by rewrite Hc].
  - assert (length (h264_frame_payloads (units buf)) = needed) as Hlen. { apply h264_frame_count; [done|]. eapply List.Forall_impl; [|exact Hok]. intros ? [? ?]. split; [done | lia]. }
    destruct (send_nals_spec _ _ Laws (pts_ms_to_rtp pts 90000) buf Hb (S (length buf)) 0 r0 es s i m0) as (r' & rc & Hrun & Hsent); [lia | lia | done | done | done | apply Hroom; unfold units in Hlen; lia|].
    rewrite Hrun. exists r', rc. split; [done|]. exists m, r0, (h264_frame_payloads (units buf)), rc. split; [done|]. split; [done|]. split; [done|]. split; [by apply Hsame | by rewrite Hc].
Qed.
End Admission.
