(* ===== verification/MediaSend.v ===== *)
(** Audio packets and RTCP requests, which go through a transmit slot: what
    [VideoSend]'s [rtc_send_audio], [rtc_emit_pli] and [rtc_emit_nack] put into the
    output queue. *)

From Stdlib Require Import ZArith Lia.
From stdpp Require Import base list numbers.
From S2P Require Import Prelude Wire Sdp Stun Ice Turn TurnRequests TurnHistory Fragment AnnexB H264 H265 Srtp Rtp Rtcp Bwe Media OutQueue OutQueueFifo OutQueueSpec OutQueueSteps VideoSend VideoSteps VideoFrame VideoAdmit.

Local Open Scope Z_scope.

Section Sending.
Context (aes_128_cm : list Z -> list Z -> list Z -> Z * list Z) (hmac_sha1_80 : list Z -> list Z -> list Z).
Context (Laws : provider_laws aes_128_cm hmac_sha1_80).

(** * A slot written in place *)

Lemma slot_sizes : Z.of_nat NANORTC_TX_SLOT_SIZE = 2048 /\ Z.of_nat NANORTC_MEDIA_BUF_SIZE = 1232.
Proof using Type. split; by vm_compute. Qed.
(** The packet that goes to the peer. *)
Definition to_peer (r : rtc) (d : list Z) : item := ItPacket (packet_of r Transient d (r_remote_addr r) None RTC_TX_ROUTE_SELECTED).
Definition no_slot (s : sending) : bool := queue_full s || (NANORTC_TX_SLOT_COUNT <=? count Transient (sn_queue s))%nat.
Lemma get_acquired r es s i cur : represents r es s -> (i < NANORTC_TX_SLOT_COUNT)%nat -> exists b, get_slot (with_tx r (r_tx r) cur) i = Ok b /\ length b = NANORTC_TX_SLOT_SIZE.
Proof using Type.
  intros H Hi. destruct (ow_size _ _ _ _ _ (rp_tx _ _ _ H)) as [_ L2]. destruct (lookup_lt_is_Some_2 (bk_bufs (r_tx r)) i) as [b Hb]; [lia|]. exists b. unfold get_slot. cbn. rewrite Hb.
  split; [done|]. exact (proj1 (Forall_lookup _ _) (mo_tx _ (rp_memory _ _ _ H)) i b Hb).
Qed.
(** Packet [d] at the front of the acquired slot, committed. *)
Lemma put_commit r es s i cur srtp media d rest : represents r es s -> no_slot s = false -> (cur < NANORTC_TX_SLOT_COUNT)%nat -> (i < NANORTC_TX_SLOT_COUNT)%nat -> Z.testbit (bk_in_use (r_tx r)) (Z.of_nat i) = false ->
  length (d ++ rest) = NANORTC_TX_SLOT_SIZE -> let r1 := put_slot (with_media (with_tx r (r_tx r) cur) srtp media) i (d ++ rest) in
  represents r1 es s /\ exists r' es', nano_rtc_tx_slot_commit r1 i (length d) (r_remote_addr r1) false = Ok (r', NANORTC_OK) /\ same_env r1 r' /\ represents r' es' (push s (to_peer r d)).
Proof using Type.
  intros H Hno Hcur Hi Hbit Hl r1. apply orb_false_iff in Hno as [Hfull _].
  pose proof (represents_tx_buf r es s i (d ++ rest) cur H Hbit Hl Hcur) as H0. apply (represents_media _ es s srtp media) in H0. split; [exact H0|].
  destruct (commit_spec r1 es s i d (d ++ rest) (r_remote_addr r) None RTC_TX_ROUTE_SELECTED H0 Hfull Hi Hbit) as (r' & es' & Hrun & Henv & _ & Hr').
  - cbn. apply list_lookup_insert_eq. destruct (ow_size _ _ _ _ _ (rp_tx _ _ _ H)). lia.
  - apply take_app_length.
  - apply (rp_remote _ _ _ H).
  - exists r', es'. done.
Qed.

(** * Audio *)

Definition audio_overhead (rtp : nano_rtp) : nat := (rtp_header_len rtp + NANORTC_SRTP_AUTH_TAG_SIZE)%nat.
Definition audio_fits (rtp : nano_rtp) (data : list Z) : bool := (audio_overhead rtp + length data <=? NANORTC_MEDIA_BUF_SIZE)%nat.
(** The frame goes out sealed, or the code says why not and the track's RTP state
    is where it was. *)
Lemma send_audio_refines r es s i m ts data : represents r es s -> session_ok (r_srtp r) -> r_media r !! i = Some m -> bytes data ->
  exists r' rc, rtc_send_audio aes_128_cm hmac_sha1_80 r i ts data = Ok (r', rc) /\ keeps r r' /\ session_ok (r_srtp r') /\
    ((rc = NANORTC_OK /\ audio_fits (tr_rtp m) data = true /\ no_slot s = false /\ exists es' d, represents r' es' (push s (to_peer r d)) /\
        sealed aes_128_cm hmac_sha1_80 (r_srtp r) (tr_rtp m) ts data d (r_srtp r') /\ track_goes_on (r_media r) (r_media r') i (rtp_next (tr_rtp m))) \/
     (represents r' es s /\ (exists rtp', track_goes_on (r_media r) (r_media r') i rtp' /\ rtp_seq rtp' = rtp_seq (tr_rtp m) /\ rtp_twcc_seq rtp' = rtp_twcc_seq (tr_rtp m) /\ rtp_ssrc rtp' = rtp_ssrc (tr_rtp m)) /\
      (rc = NANORTC_ERR_BUFFER_TOO_SMALL /\ (audio_fits (tr_rtp m) data = false \/ no_place r (tr_rtp m)) \/ rc = NANORTC_ERR_WOULD_BLOCK /\ no_slot s = true))).
Proof using Laws.
  intros H Hs Hm Hb. unfold rtc_send_audio, get_track. rewrite Hm, bind_Ok. cbv zeta. rewrite payload_offset_eq. pose proof slot_sizes as [Htx Hmb]. pose proof (rtp_header_small (tr_rtp m)) as Hoff.
  assert (track_goes_on (r_media r) (r_media r) i (tr_rtp m)) as Hstay by (split; [by exists m, m | done]).
  assert ((NANORTC_MEDIA_BUF_SIZE <? rtp_header_len (tr_rtp m) + NANORTC_SRTP_AUTH_TAG_SIZE)%nat || (NANORTC_MEDIA_BUF_SIZE - (rtp_header_len (tr_rtp m) + NANORTC_SRTP_AUTH_TAG_SIZE) <? length data)%nat = negb (audio_fits (tr_rtp m) data)) as ->.
  { unfold audio_fits, audio_overhead, NANORTC_SRTP_AUTH_TAG_SIZE. destruct (Nat.leb_spec (rtp_header_len (tr_rtp m) + 10 + length data) NANORTC_MEDIA_BUF_SIZE); cbn [negb]; [apply orb_false_iff | apply orb_true_iff]; rewrite !Nat.ltb_ge || rewrite !Nat.ltb_lt; lia. }
  destruct (audio_fits (tr_rtp m) data) eqn:Hfits; cbn [negb].
  2: { exists r, NANORTC_ERR_BUFFER_TOO_SMALL. split; [done|]. split; [done|]. split; [done|]. right. split; [done|]. split; [by exists (tr_rtp m)|]. left. split; [done | by left]. }
  pose proof (acquire_spec r es s H) as Hacq. destruct (nano_rtc_tx_slot_acquire r) as [r0 [slot|]].
  2: { destruct Hacq as (H0 & Henv & Hfull). exists r0, NANORTC_ERR_WOULD_BLOCK. split; [done|]. split; [by apply keeps_env|]. split; [by destruct Henv as (_ & _ & _ & _ & _ & -> & _)|]. right. split; [done|]. split; [|by right].
       exists (tr_rtp m). by destruct Henv as (_ & _ & _ & _ & _ & _ & -> & _). }
  destruct Hacq as (cur & -> & Hcur & Hi & Hbit & Hno). destruct (get_acquired r es s slot cur H Hi) as (b & -> & Hbl). rewrite bind_Ok.
  unfold audio_fits, audio_overhead in Hfits. apply Nat.leb_le in Hfits. unfold NANORTC_SRTP_AUTH_TAG_SIZE in Hfits.
  rewrite rtp_pack_copy by (rewrite length_take; unfold NANORTC_SRTP_AUTH_TAG_SIZE; lia). rewrite <- !app_assoc. set (room := drop _ (take _ b) ++ drop _ b).
  assert (length room = 2048 - (rtp_header_len (tr_rtp m) + length data))%nat as Hroom by (unfold room; rewrite length_app, !length_drop, length_take; unfold NANORTC_SRTP_AUTH_TAG_SIZE; lia).
  cbn [r_srtp with_tx].
  destruct (protect_room _ _ Laws (r_srtp r) (tr_rtp m) ts data room Hs Hb) as [(d & s' & Hprot & Hse)|(Hnop & s' & Hok & Hprot)]; [unfold NANORTC_SRTP_AUTH_TAG_SIZE; lia| |]; rewrite Hprot, bind_Ok.
  - pose proof (sealed_length _ _ Laws _ _ _ _ _ _ Hs Hb Hse) as Hdl. destruct (put_commit r es s slot cur s' (r_media r) d (drop NANORTC_SRTP_AUTH_TAG_SIZE room) H Hno Hcur Hi Hbit) as (_ & r1 & es1 & Hrun & Henv & H1).
    { rewrite length_app, length_drop, Hdl. unfold NANORTC_SRTP_AUTH_TAG_SIZE. lia. }
    match goal with |- context [nano_rtc_tx_slot_commit ?a ?b ?c ?d ?e] => replace (nano_rtc_tx_slot_commit a b c d e) with (Ok (r1, NANORTC_OK)) by (symmetry; exact Hrun) end.
    rewrite bind_Ok. cbn [negb Z.eqb NANORTC_OK]. eexists _, _. split; [reflexivity|]. destruct Henv as (E1 & E2 & E3 & E4 & E5 & E6 & E7 & E8 & E9). cbn in E1, E2, E3, E4, E5, E6, E7, E8, E9.
    split; [unfold keeps; cbn; rewrite length_insert; split_and!; congruence|]. cbn [r_srtp put_track with_media r_media]. split; [rewrite E6; by destruct Hse|]. left. split; [done|]. split; [done|]. split; [done|].
    exists es1, d. split; [by apply represents_media|]. split; [by rewrite E6|]. rewrite E7. by apply (track_goes_on_insert _ _ m).
  - destruct (put_commit r es s slot cur s' (r_media r) [] (rtp_header (tr_rtp m) ts ++ data ++ room) H Hno Hcur Hi Hbit) as (H1 & _).
    { cbn [app]. rewrite !length_app, rtp_header_length. lia. }
    eexists _, _. split; [reflexivity|]. split; [unfold keeps; cbn; by rewrite length_insert|]. split; [done|]. right. split; [by apply represents_media|]. split.
    + eexists. split; [by apply (track_goes_on_insert _ _ m)|]. done.
    + left. split; [done | by right].
Qed.
End Sending.

(** * RTCP requests *)

Section Requests.
Context (aes_128_cm : list Z -> list Z -> list Z -> Z * list Z) (hmac_sha1_80 : list Z -> list Z -> list Z).
Context (Laws : provider_laws aes_128_cm hmac_sha1_80).

(** The SRTCP packet that carries the RTCP packet [hd ++ body]. *)
Definition srtcp_packet (s : nano_srtp) (hd body : list Z) (ssrc : Z) : list Z :=
  let k := sr_keys s in
  let c := cipher aes_128_cm (send_rtcp_key k) (send_rtcp_salt k) ssrc (srtcp_send_index s) body in
  let e := srtcp_trailer (srtcp_send_index s) in
  hd ++ c ++ e ++ hmac_sha1_80 (send_rtcp_auth_key k) (hd ++ c ++ e).
Lemma feedback_refines r es s generate hd body ssrc : represents r es s -> session_ok (r_srtp r) -> rtcp_datagram hd body ssrc -> (length body <= 16)%nat ->
  (forall buf, generates (generate buf) buf (hd ++ body)) ->
  exists r' rc, rtc_emit_feedback aes_128_cm hmac_sha1_80 r generate = Ok (r', rc) /\ keeps r r' /\ session_ok (r_srtp r') /\ r_media r' = r_media r /\
    ((rc = NANORTC_OK /\ no_slot s = false /\ exists es', represents r' es' (push s (to_peer r (srtcp_packet (r_srtp r) hd body ssrc)))) \/
     (rc = NANORTC_ERR_WOULD_BLOCK /\ no_slot s = true /\ represents r' es s)).
Proof using Laws.
  intros H Hs Hd Hbody Hgen. unfold rtc_emit_feedback. pose proof slot_sizes as [Htx _].
  pose proof (acquire_spec r es s H) as Hacq. destruct (nano_rtc_tx_slot_acquire r) as [r0 [slot|]].
  2: { destruct Hacq as (H0 & Henv & Hfull). exists r0, NANORTC_ERR_WOULD_BLOCK. split; [done|]. split; [by apply keeps_env|]. destruct Henv as (_ & _ & _ & _ & _ & E6 & E7 & _). rewrite E6. split; [done|]. split; [done|]. by right. }
  destruct Hacq as (cur & -> & Hcur & Hi & Hbit & Hno). destruct (get_acquired r es s slot cur H Hi) as (b & -> & Hbl). rewrite bind_Ok. pose proof (Hgen b) as Hg. unfold generates in Hg. pose proof (rc_length _ _ _ Hd) as Hhl.
  rewrite length_app, Hhl, (proj2 (Nat.ltb_ge _ _)) in Hg by lia. rewrite Hg, <- !app_assoc. cbn [r_srtp with_tx].
  rewrite (protect_rtcp_eq _ _ Laws (r_srtp r) hd body _ ssrc Hs Hd) by (rewrite length_drop; unfold NANORTC_SRTCP_OVERHEAD; lia). cbv zeta. rewrite bind_Ok. rewrite drop_drop.
  set (k := sr_keys (r_srtp r)). set (c := cipher _ _ _ _ _ body). set (e := srtcp_trailer _). set (t := hmac_sha1_80 _ _). set (rest := drop _ b).
  assert (hd ++ c ++ e ++ t ++ rest = srtcp_packet (r_srtp r) hd body ssrc ++ rest) as -> by (unfold srtcp_packet; cbv zeta; by rewrite <- !app_assoc).
  assert (length (srtcp_packet (r_srtp r) hd body ssrc) = 8 + length body + NANORTC_SRTCP_OVERHEAD)%nat as Hl.
  { unfold srtcp_packet. cbv zeta. rewrite !length_app, Hhl, (hmac_length _ _ Laws). rewrite (cipher_length _ _ Laws); [done | apply (so_keys _ Hs) | apply Hd]. }
  rewrite <- Hl. set (srtp' := set_srtcp_index _ _).
  destruct (put_commit r es s slot cur srtp' (r_media r) (srtcp_packet (r_srtp r) hd body ssrc) rest H Hno Hcur Hi Hbit) as (_ & r1 & es1 & Hrun & Henv & H1).
  { rewrite length_app, Hl. unfold rest. rewrite length_drop. unfold NANORTC_SRTCP_OVERHEAD in *. lia. }
  exists r1, NANORTC_OK. destruct Henv as (E1 & E2 & E3 & E4 & E5 & E6 & E7 & E8 & E9). cbn in E1, E2, E3, E4, E5, E6, E7, E8, E9. split; [exact Hrun|]. split; [unfold keeps; split_and!; congruence|].
  rewrite E6. split; [by destruct Hs; constructor|]. split; [done|]. left. split; [done|]. split; [done|]. by exists es1.
Qed.
Lemma pli_datagram a b : rtcp_datagram (header_octets 1 RTCP_PSFB 2 a) (be32 b) (u32 a).
Proof using Type.
  constructor; [done | unfold be32; repeat constructor; apply u8_range|]. unfold header_octets, nanortc_read_u32be, be16, be32, rd8. cbn [app lookup list_lookup Nat.add]. rewrite !bind_Ok. unfold mret, res_ret. by autorewrite with wire.
Qed.
Lemma nack_datagram a b pid blp : rtcp_datagram (header_octets 1 RTCP_RTPFB 3 a) (be32 b ++ be16 pid ++ be16 blp) (u32 a).
Proof using Type.
  constructor; [done | unfold be32, be16; repeat constructor; apply u8_range|]. unfold header_octets, nanortc_read_u32be, be16, be32, rd8. cbn [app lookup list_lookup Nat.add]. rewrite !bind_Ok. unfold mret, res_ret. by autorewrite with wire.
Qed.
(** The packet of a request: a key frame, or what is lost. *)
Inductive request : Type := RequestPli | RequestNack (pid blp : Z).
Definition rtc_emit (r : rtc) (m : nanortc_track) (q : request) : res (rtc * Z) :=
  match q with RequestPli => rtc_emit_pli aes_128_cm hmac_sha1_80 r m | RequestNack pid blp => rtc_emit_nack aes_128_cm hmac_sha1_80 r m pid blp end.
Definition request_octets (m : nanortc_track) (q : request) : list Z * list Z :=
  let a := rtcp_ssrc (tr_rtcp m) in let b := rtcp_remote_ssrc (tr_rtcp m) in
  match q with RequestPli => (header_octets 1 RTCP_PSFB 2 a, be32 b) | RequestNack pid blp => (header_octets 1 RTCP_RTPFB 3 a, be32 b ++ be16 pid ++ be16 blp) end.
Definition request_packet (r : rtc) (m : nanortc_track) (q : request) : list Z :=
  srtcp_packet (r_srtp r) (request_octets m q).1 (request_octets m q).2 (u32 (rtcp_ssrc (tr_rtcp m))).
Lemma request_refines r es s m q : represents r es s -> session_ok (r_srtp r) ->
  exists r' rc, rtc_emit r m q = Ok (r', rc) /\ keeps r r' /\ session_ok (r_srtp r') /\ r_media r' = r_media r /\
    ((rc = NANORTC_OK /\ no_slot s = false /\ exists es', represents r' es' (push s (to_peer r (request_packet r m q)))) \/
     (rc = NANORTC_ERR_WOULD_BLOCK /\ no_slot s = true /\ represents r' es s)).
Proof using Laws.
  intros H Hs. destruct q as [|pid blp]; apply (feedback_refines r es s); try done; [apply pli_datagram | cbn; lia | intros buf; apply rtcp_generate_pli_spec | apply nack_datagram | cbn; lia | intros buf; apply rtcp_generate_nack_spec].
Qed.
End Requests.
