(* ===== verification/SendPath.v ===== *)
(** The sending half of the connection as a whole: from the state that
    [nanortc_init] leaves, every history of packets, events, media, NACKs, polls
    and changes of the other components runs as the bounded queue of
    [OutQueueSpec] allows. *)

From Stdlib Require Import ZArith Lia.
From stdpp Require Import base list numbers.
From S2P Require Import Prelude Wire Sdp Stun Ice Turn TurnRequests TurnHistory Fragment AnnexB H264 H265 Srtp Rtp Rtcp Bwe Media OutQueue OutQueueFifo OutQueueSpec OutQueueSteps VideoSend VideoSteps VideoFrame VideoAdmit MediaSend.

Local Open Scope Z_scope.

(** * The other components *)

(** What the connection's other components keep, as far as sending reads it. *)
Record world : Type := World {
  wo_turn : nano_turn; wo_ice : nano_ice; wo_remote : nanortc_addr; wo_now_ms : Z; wo_bwe : nano_bwe;
  wo_srtp : nano_srtp; wo_media : list nanortc_track; wo_count : nat; wo_state : Z
}.
Record world_ok (w : world) : Prop := {
  wk_turn : turn_ok (wo_turn w);
  wk_remote : address_16 (wo_remote w);
  wk_session : sr_ready (wo_srtp w) = true -> session_ok (wo_srtp w);
  wk_count : (wo_count w <= length (wo_media w))%nat;
  wk_codec : Forall (fun m => is_u8 (tr_codec m)) (wo_media w)
}.
Definition with_world (r : rtc) (w : world) : rtc :=
  Rtc (r_queue r) (r_pending r) (r_tx r) (r_tx_cursor r) (r_retx r) (r_ring r) (r_pacer r) (r_turn_buf r) (r_stats r)
    (wo_turn w) (wo_ice w) (wo_remote w) (wo_now_ms w) (wo_bwe w) (wo_srtp w) (wo_media w) (wo_count w) (wo_state w).
(** The transmit path of [nanortc_init]: zeroed, with a full pacing budget. *)
Definition rtc_start (w : world) : rtc :=
  with_world
    (Rtc (OutQueue (replicate NANORTC_OUT_QUEUE_SIZE (OutTransmit (Transmit TurnBuf 0 no_address no_address))) (replicate NANORTC_OUT_QUEUE_SIZE (WrapMeta false no_address)) 0 0) []
       (Backing (replicate NANORTC_TX_SLOT_COUNT (replicate NANORTC_TX_SLOT_SIZE 0)) (replicate NANORTC_TX_SLOT_COUNT 0) 0) 0
       (Backing (replicate NANORTC_NACK_RETX_RING (replicate NANORTC_MEDIA_BUF_SIZE 0)) (replicate NANORTC_NACK_RETX_RING 0) 0)
       (PktRing (replicate NANORTC_VIDEO_PKT_RING_SIZE (replicate NANORTC_MEDIA_BUF_SIZE 0)) (replicate NANORTC_VIDEO_PKT_RING_SIZE (0, 0%nat)) 0)
       (Pacer 0 0 NANORTC_PACING_MAX_BURST_BYTES 0 false 0 (replicate NANORTC_VIDEO_PKT_RING_SIZE 0)) (replicate NANORTC_TURN_BUF_SIZE 0) (TxStats 0 0 0 0 0 0 0)
       (wo_turn w) (wo_ice w) (wo_remote w) (wo_now_ms w) (wo_bwe w) (wo_srtp w) (wo_media w) (wo_count w) (wo_state w)) w.
Definition idle : sending := Sending [] [] [].
Lemma owned_start ref n b : length b = n -> owned ref n (Backing b (replicate n 0) 0) 0 [].
Proof. intros Hb. constructor; [cbn; by rewrite length_replicate | done|]. intros i _ Hi. by rewrite Z.bits_0 in Hi. Qed.
Lemma start_represents w : world_ok w -> represents (rtc_start w) [] idle.
Proof.
  intros [H1 H2 _ _ _]. constructor; try done.
  - constructor; [cbn; mach | done | cbn; unfold NANORTC_OUT_QUEUE_SIZE; lia | done | done].
  - by apply owned_start.
  - by apply owned_start.
  - constructor; cbn [rtc_start with_world r_tx r_retx r_ring r_pacer r_turn_buf r_tx_cursor bk_bufs pr_bufs pr_meta pc_enqueue_ms].
    + apply Forall_replicate, length_replicate.
    + apply Forall_replicate, length_replicate.
    + split; [done|]. apply Forall_replicate, length_replicate.
    + split; [done|]. apply Forall_replicate. cbn [snd]. lia.
    + done.
    + apply length_replicate.
    + unfold NANORTC_TX_SLOT_COUNT. lia.
  - cbn. unfold NANORTC_VIDEO_PKT_RING_SIZE. lia.
  - split; [done|]. cbn. lia.
Qed.
Lemma start_media w : world_ok w -> media_ok (rtc_start w).
Proof. intros [_ _ H3 H4 H5]. by constructor. Qed.
Lemma world_represents r es s w : world_ok w -> represents r es s -> represents (with_world r w) es s.
Proof. intros [Hw1 Hw2 _ _ _] [H1 H2 H3 H4 H5 H6 H7 H8 H9 H10 H11 H12]. constructor; try done. destruct H5. by constructor. Qed.
Lemma world_media r w : world_ok w -> media_ok (with_world r w).
Proof. intros [_ _ H3 H4 H5]. by constructor. Qed.

(** * Operations *)

Section Operations.
Context (aes_128_cm : list Z -> list Z -> list Z -> Z * list Z) (hmac_sha1_80 : list Z -> list Z -> list Z).
Context (Laws : provider_laws aes_128_cm hmac_sha1_80).

(** [OpWorld] is anything the other components do between two of these;
    [OpLost] is the receive path's [rtc_emit_nack], once SRTP is ready. *)
Inductive op : Type :=
| OpWorld (w : world)
| OpTransmit (octets : list Z) (dest : nanortc_addr) (src : option nanortc_addr) (route : rtc_tx_route)
| OpEvent (e : rtc_event)
| OpVideo (mid pts_ms : Z) (buf : list Z)
| OpAudio (mid pts_ms : Z) (data : list Z)
| OpKeyframe (mid : Z)
| OpLost (i : nat) (pid blp : Z)
| OpNack (pid blp ssrc : Z)
| OpPoll.
Definition op_ok (o : op) : Prop :=
  match o with
  | OpWorld w => world_ok w
  | OpTransmit octets dest _ _ => (length octets <= NANORTC_TX_SLOT_SIZE)%nat /\ address_16 dest
  | OpVideo _ _ buf => bytes buf
  | OpAudio _ _ data => bytes data
  | _ => True
  end.
(** The code the operation returns and, for a poll, what it hands over. *)
Definition perform (r : rtc) (o : op) : res (rtc * (Z * option sent)) :=
  let code (m : res (rtc * Z)) := '(r, rc) ← m; Ok (r, (rc, None)) in
  match o with
  | OpWorld w => Ok (with_world r w, (NANORTC_OK, None))
  | OpTransmit octets dest src route => code (transmit_octets r octets dest src route)
  | OpEvent e => code (nano_rtc_emit_event_full r e)
  | OpVideo mid pts buf => code (nanortc_send_video aes_128_cm hmac_sha1_80 r mid pts buf)
  | OpAudio mid pts data => code (nanortc_send_audio aes_128_cm hmac_sha1_80 r mid pts data)
  | OpKeyframe mid => code (nanortc_request_keyframe aes_128_cm hmac_sha1_80 r mid)
  | OpLost i pid blp =>
      match r_media r !! i with
      | Some m => if sr_ready (r_srtp r) then code (rtc_emit_nack aes_128_cm hmac_sha1_80 r m pid blp) else Ok (r, (NANORTC_ERR_STATE, None))
      | None => Ok (r, (NANORTC_ERR_INVALID_PARAM, None))
      end
  | OpNack pid blp ssrc => r ← rtc_answer_nack r pid blp ssrc; Ok (r, (NANORTC_OK, None))
  | OpPoll =>
      '(r, out) ← poll_output_front r;
      match out with None => Ok (r, (NANORTC_OK, None)) | Some o => x ← render r o; Ok (r, (NANORTC_OK, Some x)) end
  end.
Fixpoint run (r : rtc) (os : list op) : res (rtc * list (Z * option sent)) :=
  match os with
  | [] => Ok (r, [])
  | o :: os => '(r, x) ← perform r o; '(r, xs) ← run r os; Ok (r, x :: xs)
  end.

(** * The specification *)

(** The track that an audio frame or a key frame request is for, or the code it is
    refused with. *)
Definition track_verdict (r : rtc) (mid : Z) (check : nanortc_track -> option Z) : Z + nat :=
  if negb (connected r) then inl NANORTC_ERR_STATE else
  match track_find_by_mid (r_media r) (r_media_count r) mid with
  | Ok (Some i) =>
      match r_media r !! i with
      | Some m => match check m with Some rc => inl rc | None => inr i end
      | None => inl NANORTC_ERR_INVALID_PARAM
      end
  | _ => inl NANORTC_ERR_INVALID_PARAM
  end.
Definition audio_verdict (r : rtc) (mid : Z) (data : list Z) : Z + nat :=
  if (length data =? 0)%nat then inl NANORTC_ERR_INVALID_PARAM else
  track_verdict r mid (fun m => match tr_kind m with TRACK_VIDEO => Some NANORTC_ERR_INVALID_PARAM | TRACK_AUDIO => if may_send (tr_direction m) then None else Some NANORTC_ERR_STATE end).
Definition keyframe_verdict (r : rtc) (mid : Z) : Z + nat :=
  track_verdict r mid (fun m => match tr_kind m with TRACK_AUDIO => Some NANORTC_ERR_INVALID_PARAM | TRACK_VIDEO => None end).
Definition request_verdict (r : rtc) (o : op) : option ((Z + nat) * request) :=
  match o with
  | OpKeyframe mid => Some (keyframe_verdict r mid, RequestPli)
  | OpLost i pid blp => Some (match r_media r !! i with Some _ => if sr_ready (r_srtp r) then inr i else inl NANORTC_ERR_STATE | None => inl NANORTC_ERR_INVALID_PARAM end, RequestNack pid blp)
  | _ => None
  end.
(** A copy of a packet that the ring still holds under a sequence number asked for. *)
Definition resent_from (r : rtc) (seqs : list Z) (d : list Z) : Prop :=
  exists q j len b, q ∈ seqs /\ pr_meta (r_ring r) !! j = Some (q, len) /\ pr_bufs (r_ring r) !! j = Some b /\ d = take len b.
Definition push_all (s : sending) (its : list item) : sending := Sending (sn_queue s ++ its) (sn_pending s) (sn_paced s).
(** What an operation may do to the queue: [r] is what it reads of the other
    components. *)
Inductive accepts (r : rtc) (s : sending) : op -> Z * option sent -> sending -> Prop :=
| AcWorld w : accepts r s (OpWorld w) (NANORTC_OK, None) s
| AcTransmit octets dest src route s' rc : spec_transmit s (packet_of r Transient octets dest src route) = (s', rc) -> accepts r s (OpTransmit octets dest src route) (rc, None) s'
| AcEvent e s' rc : spec_event s e = (s', rc) -> accepts r s (OpEvent e) (rc, None) s'
| AcVideoRefused mid pts buf rc : video_verdict r s mid buf = inl rc -> accepts r s (OpVideo mid pts buf) (rc, None) s
| AcVideo mid pts buf i m ps ds srtp' rtp' rc : video_verdict r s mid buf = inr i -> r_media r !! i = Some m -> tr_mid m = mid ->
    sealed_all aes_128_cm hmac_sha1_80 (r_srtp r) (tr_rtp m) (pts_ms_to_rtp pts 90000) ps ds srtp' rtp' ->
    (units_whole (tr_codec m) (units buf) -> ps = frame_payloads (tr_codec m) (units buf) /\ rc = NANORTC_OK) -> accepts r s (OpVideo mid pts buf) (rc, None) (pace s ds)
| AcVideoNoPlace mid pts buf i m rc : video_verdict r s mid buf = inr i -> r_media r !! i = Some m -> no_place r (tr_rtp m) ->
    (units_whole (tr_codec m) (units buf) -> rc = NANORTC_ERR_BUFFER_TOO_SMALL) -> accepts r s (OpVideo mid pts buf) (rc, None) s
| AcAudioRefused mid pts data rc : audio_verdict r mid data = inl rc -> accepts r s (OpAudio mid pts data) (rc, None) s
| AcAudio mid pts data i m d srtp' : audio_verdict r mid data = inr i -> r_media r !! i = Some m -> audio_fits (tr_rtp m) data = true -> no_slot s = false ->
    sealed aes_128_cm hmac_sha1_80 (r_srtp r) (tr_rtp m) (pts_ms_to_rtp pts (tr_sample_rate m)) data d srtp' -> accepts r s (OpAudio mid pts data) (NANORTC_OK, None) (push s (to_peer r d))
| AcAudioFailed mid pts data i m rc : audio_verdict r mid data = inr i -> r_media r !! i = Some m ->
    (rc = NANORTC_ERR_BUFFER_TOO_SMALL /\ (audio_fits (tr_rtp m) data = false \/ no_place r (tr_rtp m)) \/ rc = NANORTC_ERR_WOULD_BLOCK /\ no_slot s = true) -> accepts r s (OpAudio mid pts data) (rc, None) s
| AcRequestRefused o q rc : request_verdict r o = Some (inl rc, q) -> accepts r s o (rc, None) s
| AcRequest o q i m : request_verdict r o = Some (inr i, q) -> r_media r !! i = Some m -> no_slot s = false -> accepts r s o (NANORTC_OK, None) (push s (to_peer r (request_packet aes_128_cm hmac_sha1_80 r m q)))
| AcRequestBusy o q i : request_verdict r o = Some (inr i, q) -> no_slot s = true -> accepts r s o (NANORTC_ERR_WOULD_BLOCK, None) s
| AcNack pid blp ssrc ds : Forall (resent_from r (lost_seqs pid blp)) ds -> accepts r s (OpNack pid blp ssrc) (NANORTC_OK, None) (push_all s (map (resent_item r) ds))
| AcPoll k l x : (k <= length (sn_paced s))%nat -> spec_poll (r_turn r) (sn_queue (release r k s)) = (l, Some x) -> accepts r s OpPoll (NANORTC_OK, Some x) (Sending l (sn_pending s) (sn_paced (release r k s)))
| AcPollEvent k e p : (k <= length (sn_paced s))%nat -> spec_poll (r_turn r) (sn_queue (release r k s)) = ([], None) -> sn_pending s = e :: p ->
    accepts r s OpPoll (NANORTC_OK, Some (SentEvent e)) (Sending [] p (sn_paced (release r k s)))
| AcPollNothing k : (k <= length (sn_paced s))%nat -> spec_poll (r_turn r) (sn_queue (release r k s)) = ([], None) -> sn_pending s = [] ->
    accepts r s OpPoll (NANORTC_OK, None) (Sending [] [] (sn_paced (release r k s))).

(** * Each operation *)

Definition simulates (r : rtc) (s : sending) (o : op) : Prop :=
  exists r' es' s' x, perform r o = Ok (r', x) /\ represents r' es' s' /\ media_ok r' /\ accepts r s o x s'.
Lemma keeps_media_ok r r' : media_ok r -> r_media r' = r_media r -> r_media_count r' = r_media_count r -> (sr_ready (r_srtp r') = true -> session_ok (r_srtp r')) -> media_ok r'.
Proof using Type. intros [_ H2 H3] E1 E2 H. constructor; [done | by rewrite E1, E2 | by rewrite E1]. Qed.
Lemma same_env_media_ok r r' : media_ok r -> same_env r r' -> media_ok r'.
Proof using Type. intros H (_ & _ & _ & _ & _ & E1 & E2 & E3 & _). apply (keeps_media_ok r); [done.. |]. rewrite E1. apply H. Qed.
Lemma release_pending r k s : sn_pending (release r k s) = sn_pending s.
Proof using Type. done. Qed.
Lemma spec_poll_none t l : forall l', spec_poll t l = (l', None) -> l' = [].
Proof using Type. induction l as [|it l IH]; intros l'; cbn [spec_poll]; [by intros [= <-]|]. destruct (deliver t it); [done | apply IH]. Qed.

Section One.
Context (r : rtc) (es : list entry) (s : sending) (H : represents r es s) (Hm : media_ok r).

Lemma simulates_transmit octets dest src route : op_ok (OpTransmit octets dest src route) -> simulates r s (OpTransmit octets dest src route).
Proof using H Hm.
  intros [Hl Ha]. pose proof (transmit_refines r es s octets dest src route H Hl Ha) as Ht. destruct (spec_transmit _ _) as [s' rc] eqn:He. destruct Ht as (r' & es' & Hrun & Hr' & Henv).
  exists r', es', s', (rc, None). cbn [perform]. rewrite Hrun, bind_Ok. split; [done|]. split; [done|]. split; [by eapply same_env_media_ok | by constructor].
Qed.
Lemma simulates_event e : simulates r s (OpEvent e).
Proof using H Hm.
  pose proof (emit_event_refines r es s e H) as Ht. destruct (spec_event s e) as [s' rc] eqn:He. destruct Ht as (r' & es' & Hrun & Hr' & Henv).
  exists r', es', s', (rc, None). cbn [perform]. rewrite Hrun, bind_Ok. split; [done|]. split; [done|]. split; [by eapply same_env_media_ok | by constructor].
Qed.
Lemma simulates_poll : simulates r s OpPoll.
Proof using H Hm.
  destruct (pump_refines r es s H) as (k & r1 & es1 & Hpump & H1 & Henv1 & Hk & _). unfold simulates. cbn [perform]. unfold poll_output_front. rewrite Hpump, bind_Ok.
  pose proof (poll_queued_refines r1 es1 _ H1) as Hp. assert (r_turn r1 = r_turn r) as Et by (by destruct Henv1). rewrite Et in Hp. destruct (spec_poll (r_turn r) (sn_queue (release r k s))) as [l out] eqn:Hs.
  destruct Hp as (r2 & es2 & o & Hrun & H2 & Henv2 & Hout). rewrite Hrun, bind_Ok. rewrite release_pending in H2.
  assert (media_ok r2) as Hm2 by (eapply same_env_media_ok; [|exact Henv2]; by eapply same_env_media_ok). destruct out as [x|].
  - destruct Hout as (o' & -> & Hrender). rewrite bind_Ok, Hrender, bind_Ok. eexists r2, es2, _, _. split; [reflexivity|]. split; [exact H2|]. split; [done|]. by apply AcPoll.
  - subst o. apply spec_poll_none in Hs as Hl. subst l. unfold poll_pending. destruct (rp_pending _ _ _ H2) as [Hpend Hlen]. cbn [sn_pending] in Hpend, Hlen. rewrite Hpend. destruct (sn_pending s) as [|e p] eqn:Hsp.
    + rewrite bind_Ok. eexists r2, es2, _, _. split; [reflexivity|]. split; [exact H2|]. split; [done|]. by apply AcPollNothing.
    + rewrite bind_Ok. cbn [render]. rewrite bind_Ok. eexists (with_events r2 p), es2, _, _. split; [reflexivity|]. split; [|split; [|by apply (AcPollEvent _ _ k e p)]].
      * apply (represents_events r2 es2 (Sending [] (e :: p) (sn_paced (release r k s)))); [exact H2|]. cbn [length] in Hlen. lia.
      * by destruct Hm2; constructor.
Qed.
Lemma simulates_world w : world_ok w -> simulates r s (OpWorld w).
Proof using H Hm. intros Hw. exists (with_world r w), es, s, (NANORTC_OK, None). split; [done|]. split; [by apply world_represents|]. split; [by apply world_media | constructor]. Qed.
Lemma simulates_video mid pts buf : bytes buf -> simulates r s (OpVideo mid pts buf).
Proof using H Hm Laws.
  intros Hb. destruct (send_video_refines _ _ Laws r es s mid pts buf H Hm Hb) as (r' & rc & Hrun & Hv). unfold simulates. cbn [perform]. rewrite Hrun, bind_Ok. destruct (video_verdict r s mid buf) as [rc0|i] eqn:Hverdict.
  { destruct Hv as [-> ->]. exists r, es, s, (rc0, None). split; [done|]. split; [done|]. split; [done | by constructor]. }
  destruct Hv as (m & r0 & ps & rc0 & Hi & Hmid & Hr0 & (Hk & _ & Hs & Hout) & Hwhole). pose proof (lookup_lt_Some _ _ _ Hi) as Hlt.
  assert (track_goes_on (r_media r) (r_media r0) i (tr_rtp m)) as H0 by (subst r0; by apply (track_goes_on_insert _ _ m (with_sent m _ _))).
  assert (keeps r r0) as Hk0 by (subst r0; unfold keeps; cbn; by rewrite length_insert). assert (r_srtp r0 = r_srtp r) as Es by (by subst r0).
  destruct Hout as [(-> & ds & rtp' & Hr' & Hse & Ht)|(_ & Hno & -> & Hr' & rtp' & Ht)].
  - exists r', es, (pace s ds), (rc, None). split; [done|]. split; [done|]. split.
    + apply (media_ok_after r r' i rtp'); [done | by eapply keeps_trans | done | by eapply track_goes_on_trans].
    + rewrite Es in Hse. by eapply AcVideo.
  - exists r', es, s, (rc, None). split; [done|]. split; [done|]. split.
    + apply (media_ok_after r r' i rtp'); [done | by eapply keeps_trans | done | by eapply track_goes_on_trans].
    + apply (AcVideoNoPlace _ _ _ _ _ i m); try done; [unfold no_place in *; by rewrite Es in Hno|]. intros Hw. by destruct (Hwhole Hw) as [_ ->].
Qed.
Lemma track_cases mid check : connected r = true ->
  (exists rc, track_verdict r mid check = inl rc /\ (track_find_by_mid (r_media r) (r_media_count r) mid = Ok None /\ rc = NANORTC_ERR_INVALID_PARAM \/
      exists i m, track_find_by_mid (r_media r) (r_media_count r) mid = Ok (Some i) /\ r_media r !! i = Some m /\ check m = Some rc)) \/
  exists i m, track_verdict r mid check = inr i /\ track_find_by_mid (r_media r) (r_media_count r) mid = Ok (Some i) /\ r_media r !! i = Some m /\ check m = None.
Proof using Hm.
  intros Hc. unfold track_verdict. rewrite Hc. cbn [negb]. destruct (find_track r mid Hm) as (o & Hf & Ho). rewrite Hf. destruct o as [i|]; [|left; eexists; split; [done | by left]].
  destruct (Ho i eq_refl) as (m & Hi & _). rewrite Hi. destruct (check m) as [rc|] eqn:Hch; [left; eexists; split; [done|]; right; by exists i, m | right; by exists i, m].
Qed.
Lemma connected_session : connected r = true -> session_ok (r_srtp r).
Proof using Hm. unfold connected. intros Hc%negb_true_iff%orb_false_iff. destruct Hc as [_ Hc%negb_false_iff]. by apply Hm. Qed.
Lemma simulates_audio mid pts data : bytes data -> simulates r s (OpAudio mid pts data).
Proof using H Hm Laws.
  intros Hb. unfold simulates. cbn [perform]. unfold nanortc_send_audio. assert (forall rc, audio_verdict r mid data = inl rc -> exists r' es' s' x, Ok (r, (rc, None)) = Ok (r', x) /\ represents r' es' s' /\ media_ok r' /\ accepts r s (OpAudio mid pts data) x s') as Hrefuse
    by (intros rc Hv; exists r, es, s, (rc, None); split_and!; try done; by apply AcAudioRefused).
  destruct (length data =? 0)%nat eqn:Hl; [apply Hrefuse; unfold audio_verdict; by rewrite Hl|].
  destruct ((r_state r <? NANORTC_STATE_DTLS_CONNECTED) || negb (sr_ready (r_srtp r))) eqn:Hst; [apply Hrefuse; unfold audio_verdict, track_verdict, connected; by rewrite Hl, Hst|].
  assert (connected r = true) as Hc by (unfold connected; by rewrite Hst). unfold audio_verdict in Hrefuse. rewrite Hl in Hrefuse.
  set (check := fun m => _) in Hrefuse. destruct (track_cases mid check Hc) as [(rc & Hv & [[-> ->]|(i & m & -> & Hi & Hch)])|(i & m & Hv & -> & Hi & Hch)]; rewrite bind_Ok.
  - by apply Hrefuse.
  - unfold get_track. rewrite Hi, bind_Ok. unfold check in Hch. destruct (tr_kind m); [destruct (may_send _); [done|]|]; cbn [negb]; injection Hch as <-; by apply Hrefuse.
  - unfold get_track. rewrite Hi, bind_Ok. pose proof Hch as Hch'. unfold check in Hch. destruct (tr_kind m); [|done]. destruct (may_send _); [|done]. cbn [negb].
    assert (audio_verdict r mid data = inr i) as Hverdict by (unfold audio_verdict; by rewrite Hl).
    destruct (send_audio_refines _ _ Laws r es s i m (pts_ms_to_rtp pts (tr_sample_rate m)) data H (connected_session Hc) Hi Hb) as (r' & rc & -> & Hk & Hs & [(-> & Hfits & Hslot & es' & d & Hr' & Hse & Ht)|(Hr' & (rtp' & Ht & _) & Hwhy)]); rewrite bind_Ok.
    + exists r', es', (push s (to_peer r d)), (NANORTC_OK, None). split; [done|]. split; [done|]. split; [by apply (media_ok_after r r' i (rtp_next (tr_rtp m))) | by eapply AcAudio].
    + exists r', es, s, (rc, None). split; [done|]. split; [done|]. split; [by apply (media_ok_after r r' i rtp') | by eapply AcAudioFailed].
Qed.
(** A request on track [i], once it is decided. *)
Lemma simulates_request o q i m : request_verdict r o = Some (inr i, q) -> r_media r !! i = Some m -> session_ok (r_srtp r) ->
  exists r' rc es' s', rtc_emit aes_128_cm hmac_sha1_80 r m q = Ok (r', rc) /\ represents r' es' s' /\ media_ok r' /\ accepts r s o (rc, None) s'.
Proof using H Hm Laws.
  intros Hv Hi Hs. destruct (request_refines _ _ Laws r es s m q H Hs) as (r' & rc & Hrun & Hk & Hs' & He & Hout). assert (media_ok r') as Hm' by (apply (keeps_media_ok r); [done | done | by destruct Hk as (_ & _ & _ & _ & _ & ? & _) | done]).
  destruct Hout as [(-> & Hslot & es' & Hr')|(-> & Hslot & Hr')].
  - exists r', NANORTC_OK, es', (push s (to_peer r (request_packet aes_128_cm hmac_sha1_80 r m q))). split; [done|]. split; [done|]. split; [done|]. by eapply AcRequest.
  - exists r', NANORTC_ERR_WOULD_BLOCK, es, s. split; [done|]. split; [done|]. split; [done|]. by eapply AcRequestBusy.
Qed.
Lemma simulates_keyframe mid : simulates r s (OpKeyframe mid).
Proof using H Hm Laws.
  unfold simulates. cbn [perform]. unfold nanortc_request_keyframe.
  assert (forall rc, keyframe_verdict r mid = inl rc -> exists r' es' s' x, Ok (r, (rc, None)) = Ok (r', x) /\ represents r' es' s' /\ media_ok r' /\ accepts r s (OpKeyframe mid) x s') as Hrefuse
    by (intros rc Hv; exists r, es, s, (rc, None); split_and!; try done; apply (AcRequestRefused _ _ _ RequestPli); cbn; by rewrite Hv).
  destruct ((r_state r <? NANORTC_STATE_DTLS_CONNECTED) || negb (sr_ready (r_srtp r))) eqn:Hst; [apply Hrefuse; unfold keyframe_verdict, track_verdict, connected; by rewrite Hst|].
  assert (connected r = true) as Hc by (unfold connected; by rewrite Hst). unfold keyframe_verdict in Hrefuse.
  set (check := fun m => _) in Hrefuse. destruct (track_cases mid check Hc) as [(rc & Hv & [[-> ->]|(i & m & -> & Hi & Hch)])|(i & m & Hv & -> & Hi & Hch)]; rewrite bind_Ok.
  - by apply Hrefuse.
  - unfold get_track. rewrite Hi, bind_Ok. unfold check in Hch. destruct (tr_kind m); [|done]. injection Hch as <-. by apply Hrefuse.
  - unfold get_track. rewrite Hi, bind_Ok. pose proof Hch as Hch'. unfold check in Hch. destruct (tr_kind m); [done|].
    assert (request_verdict r (OpKeyframe mid) = Some (inr i, RequestPli)) as Hverdict by (transitivity (Some (track_verdict r mid check, RequestPli)); [done | by rewrite Hv]).
    destruct (simulates_request _ _ i m Hverdict Hi (connected_session Hc)) as (r' & rc & es' & s' & Hrun & Hr' & Hm' & Ha). cbn [rtc_emit] in Hrun. rewrite Hrun, bind_Ok. by exists r', es', s', (rc, None).
Qed.
Lemma simulates_lost i pid blp : simulates r s (OpLost i pid blp).
Proof using H Hm Laws.
  unfold simulates. cbn [perform].
  assert (forall rc, request_verdict r (OpLost i pid blp) = Some (inl rc, RequestNack pid blp) -> exists r' es' s' x, Ok (r, (rc, None)) = Ok (r', x) /\ represents r' es' s' /\ media_ok r' /\ accepts r s (OpLost i pid blp) x s') as Hrefuse
    by (intros rc Hv; exists r, es, s, (rc, None); split_and!; try done; by apply (AcRequestRefused _ _ _ (RequestNack pid blp))).
  destruct (r_media r !! i) as [m|] eqn:Hi; [|apply Hrefuse; cbn; by rewrite Hi]. destruct (sr_ready (r_srtp r)) eqn:Hrd; [|apply Hrefuse; cbn; by rewrite Hi, Hrd].
  assert (request_verdict r (OpLost i pid blp) = Some (inr i, RequestNack pid blp)) as Hverdict by (cbn; by rewrite Hi, Hrd).
  destruct (simulates_request _ _ i m Hverdict Hi (mk_session _ Hm Hrd)) as (r' & rc & es' & s' & Hrun & Hr' & Hm' & Ha). cbn [rtc_emit] in Hrun. rewrite Hrun, bind_Ok. by exists r', es', s', (rc, None).
Qed.
End One.

Lemma resent_env r r' d : same_env r r' -> resent_item r' d = resent_item r d.
Proof using Type. intros He. unfold resent_item, packet_of, source_of. rewrite (needs_turn_env r r') by done. by destruct He as (_ & -> & -> & _). Qed.
Lemma answer_nack_refines ssrc seqs : forall r es s, represents r es s ->
  exists r' es' ds, retransmit_all seqs ssrc r = Ok r' /\ represents r' es' (push_all s (map (resent_item r) ds)) /\ same_env r r' /\ Forall (resent_from r seqs) ds.
Proof using Type.
  induction seqs as [|q seqs IH]; intros r es s H; cbn [retransmit_all].
  { exists r, es, []. split; [done|]. split; [|done]. unfold push_all. cbn. rewrite app_nil_r. by destruct s. }
  destruct (retransmit_refines r es s q ssrc H) as (r1 & es1 & s1 & -> & H1 & Henv & Hring & _ & Hs1 & _). rewrite bind_Ok. destruct (IH r1 es1 s1 H1) as (r' & es' & ds & -> & H' & Henv' & Hds).
  assert (map (resent_item r1) ds = map (resent_item r) ds) as Hmap by (apply map_ext; intros d; by apply resent_env). rewrite Hmap in H'.
  assert (Forall (resent_from r (q :: seqs)) ds) as Hds'.
  { eapply List.Forall_impl; [|exact Hds]. intros d (q' & j & len & b & Hq & Hj). rewrite Hring in Hj. exists q', j, len, b. split; [by right | done]. }
  assert (same_env r r') as Hee by (by eapply same_env_trans).
  destruct Hs1 as [->|(j & len & b & Hmeta & Hb & ->)]; [by exists r', es', ds|]. exists r', es', (take len b :: ds). split; [done|]. split; [|split; [done|]].
  - unfold push_all, push in *. cbn [sn_queue sn_pending sn_paced map] in *. by rewrite <- app_assoc in H'.
  - constructor; [|done]. exists q, j, len, b. split; [left|]. done.
Qed.
Lemma simulates_nack r es s pid blp ssrc : represents r es s -> media_ok r -> simulates r s (OpNack pid blp ssrc).
Proof using Type.
  intros H Hm. unfold simulates. cbn [perform]. unfold rtc_answer_nack. destruct (answer_nack_refines ssrc (lost_seqs pid blp) r es s H) as (r' & es' & ds & -> & H' & Henv & Hds). rewrite bind_Ok.
  eexists r', es', _, _. split; [reflexivity|]. split; [exact H'|]. split; [by eapply same_env_media_ok | by constructor].
Qed.
Lemma every_operation r es s o : represents r es s -> media_ok r -> op_ok o -> simulates r s o.
Proof using Laws.
  intros H Hm Ho. destruct o; [eapply simulates_world; done | eapply simulates_transmit; done | eapply simulates_event; done | eapply simulates_video; done | eapply simulates_audio; done | eapply simulates_keyframe; done |
    eapply simulates_lost; done | eapply simulates_nack; done | eapply simulates_poll; done].
Qed.

(** * Histories *)

(** The specification's runs, in step with the states of the connection that the
    operations read. *)
Fixpoint accepted (r : rtc) (s : sending) (os : list op) (xs : list (Z * option sent)) (s' : sending) : Prop :=
  match os, xs with
  | [], [] => s' = s
  | o :: os, x :: xs => exists r1 s1, perform r o = Ok (r1, x) /\ accepts r s o x s1 /\ accepted r1 s1 os xs s'
  | _, _ => False
  end.
Lemma run_refines os : forall r es s, represents r es s -> media_ok r -> Forall op_ok os ->
  exists r' xs es' s', run r os = Ok (r', xs) /\ accepted r s os xs s' /\ represents r' es' s' /\ media_ok r'.
Proof using Laws.
  induction os as [|o os IH]; intros r es s H Hm Ho; [by exists r, [], es, s|]. rewrite Forall_cons_iff in Ho. destruct Ho as [Ho Hos].
  destruct (every_operation r es s o H Hm Ho) as (r1 & es1 & s1 & x & Hrun & H1 & Hm1 & Ha). destruct (IH r1 es1 s1 H1 Hm1 Hos) as (r' & xs & es' & s' & Hrun' & Hacc & H' & Hm').
  exists r', (x :: xs), es', s'. cbn [run accepted]. rewrite Hrun, bind_Ok, Hrun', bind_Ok. split; [done|]. split; [by exists r1, s1 | done].
Qed.
End Operations.

(** * Properties *)

(** C4: from the transmit path that [nanortc_init] leaves, every history of packets
    to transmit, events, video and audio frames, key frame requests, requests for
    lost packets, answers to NACKs and polls - with anything the other components
    do in between - runs without leaving a buffer, and as the bounded queue of
    [OutQueueSpec] allows: what a poll hands over is the first item in the queue,
    with the octets it had when it was queued, framed for the relay when it goes
    through one; a packet's buffer is never given to another while it waits; media
    waits in the pacer in order; and each operation returns the code the
    specification says, having queued exactly what it says.  An event is handed
    over as it was queued; the buffers its pointers lead to belong to the receiving
    side ([VideoReceive]). *)
Theorem send_path_refines (aes_128_cm : list Z -> list Z -> list Z -> Z * list Z) (hmac_sha1_80 : list Z -> list Z -> list Z) (w : world) (os : list op) :
  provider_laws aes_128_cm hmac_sha1_80 -> world_ok w -> Forall op_ok os ->
  exists r xs es s, run aes_128_cm hmac_sha1_80 (rtc_start w) os = Ok (r, xs) /\ accepted aes_128_cm hmac_sha1_80 (rtc_start w) idle os xs s /\ represents r es s.
Proof.
  intros Laws Hw Hos. destruct (run_refines _ _ Laws os (rtc_start w) [] idle (start_represents w Hw) (start_media w Hw) Hos) as (r & xs & es & s & H1 & H2 & H3 & _). by exists r, xs, es, s.
Qed.

(** A connection with one video track, sending to 192.0.2.7 directly. *)
Definition demo_peer : nanortc_addr := Addr 4 ([192; 0; 2; 7] ++ replicate 12 0) 5000.
Definition demo_track : nanortc_track := with_rtp (track_init 1 TRACK_VIDEO NANORTC_DIR_SENDRECV 0 90000 0 0) (rtp_init 99 96).
Definition demo_world (now_ms : Z) : world := World turn_init (ice_init true) demo_peer now_ms bwe_init (toy_session true) [demo_track] 1 NANORTC_STATE_DTLS_CONNECTED.
Lemma demo_world_ok now_ms : world_ok (demo_world now_ms).
Proof.
  constructor; cbn [demo_world wo_turn wo_remote wo_srtp wo_count wo_media].
  - apply turn_init_ok.
  - split; [done|]. bytes_lit.
  - intros _. apply toy_sessions.
  - cbn [length]. lia.
  - apply List.Forall_cons; [|constructor]. change (is_u8 0). unfold is_u8. lia.
Qed.
Definition demo_frame : list Z := [0; 0; 0; 1; 0x67; 1; 2; 0; 0; 1; 0x65; 3; 4; 5].
Definition demo_ops : list op := [OpTransmit [1; 2; 3] demo_peer None RTC_TX_ROUTE_SELECTED; OpVideo 1 40 demo_frame; OpEvent EvDisconnected; OpKeyframe 1; OpPoll; OpWorld (demo_world 45); OpPoll; OpNack 0 1 99; OpPoll].
Lemma demo_ops_ok : Forall op_ok demo_ops.
Proof.
  unfold demo_ops. rewrite !Forall_cons_iff. cbn [op_ok]. split_and!; try exact I; [cbn; unfold NANORTC_TX_SLOT_SIZE; lia | apply (wk_remote _ (demo_world_ok 0)) | | apply demo_world_ok | constructor].
  unfold demo_frame. bytes_lit.
Qed.
Lemma send_path_refines_witness : exists r xs es s, run toy_aes toy_hmac (rtc_start (demo_world 5)) demo_ops = Ok (r, xs) /\ accepted toy_aes toy_hmac (rtc_start (demo_world 5)) idle demo_ops xs s /\ represents r es s.
Proof. exact (send_path_refines toy_aes toy_hmac (demo_world 5) demo_ops toy_laws (demo_world_ok 5) demo_ops_ok). Defined.
Example demo_outputs : (match run toy_aes toy_hmac (rtc_start (demo_world 5)) demo_ops with Ok (_, xs) => map (fun x => (x.1, match x.2 with Some (SentPacket d _ _) => length d | Some (SentEvent _) => 1%nat | None => 0%nat end)) xs | _ => [] end) =
  [(0, 0%nat); (0, 0%nat); (0, 0%nat); (0, 0%nat); (0, 3%nat); (0, 0%nat); (0, 1%nat); (0, 0%nat); (0, 26%nat)].
Proof. vm_compute. reflexivity. Qed.
