(* ===== verification/VideoDelivery.v ===== *)
(** From [nanortc_send_video] to the application's socket: a frame that is admitted
    is handed over by the following polls, packet by packet and in order, at the
    latest when the pacer's latency cap has passed. *)

From Stdlib Require Import ZArith Lia.
From stdpp Require Import base list numbers.
From S2P Require Import Prelude Wire Sdp Stun Ice Turn TurnRequests TurnHistory Fragment AnnexB H264 H265 Srtp Rtp Rtcp Bwe Media OutQueue OutQueueFifo OutQueueSpec OutQueueSteps VideoSend VideoSteps VideoFrame VideoAdmit MediaSend SendPath.

Local Open Scope Z_scope.

(** * The pacer's stamps *)

Lemma enqueue_keeps_pacer r d len dest force r' rc : nano_rtc_enqueue_transmit r d len dest force = Ok (r', rc) -> r_pacer r' = r_pacer r.
Proof.
  unfold nano_rtc_enqueue_transmit, rtc_enqueue_transmit_ref. cbv zeta. intros H. bind_inv H. destruct x as [q c]. destruct (negb (c =? NANORTC_OK)); [by injection H as <- _|].
  destruct (needs_turn _ _); [destruct (oq_wrap _ !! _); [by injection H as <- _ | done]|]. destruct (negb _); by injection H as <- _.
Qed.
Lemma release_keeps_stamps fuel : forall r r', pacer_release fuel r = Ok r' -> pc_enqueue_ms (r_pacer r') = pc_enqueue_ms (r_pacer r).
Proof.
  induction fuel as [|fuel IH]; intros r r'; cbn [pacer_release]; [done|]. cbv zeta. destruct (_ =? _); [by intros [= <-]|].
  destruct (pr_meta _ !! _) as [[sq len]|]; [|done]. destruct (pc_enqueue_ms (r_pacer r) !! _) as [ms|]; [|done].
  destruct (len =? 0)%nat; [intros H; by rewrite (IH _ _ H)|]. destruct (negb _ && _); [by intros [= <-]|]. destruct (_ <=? _); [by intros [= <-]|].
  intros H. bind_inv H. destruct x as [r1 rc]. apply enqueue_keeps_pacer in Hx. destruct (negb _); [injection H as <-; by rewrite Hx|].
  destruct (_ <=? _) in H; apply IH in H; by rewrite H.
Qed.
Lemma pump_keeps_stamps r r' : nano_rtc_pacer_pump r = Ok r' -> pc_enqueue_ms (r_pacer r') = pc_enqueue_ms (r_pacer r).
Proof.
  unfold nano_rtc_pacer_pump. cbv zeta. destruct (_ =? _); [by intros [= <-]|]. intros H. bind_inv H. bind_inv H. injection H as <-. cbn [r_pacer with_pacer pc_enqueue_ms].
  rewrite (release_keeps_stamps _ _ _ Hx). cbn [r_pacer with_pacer]. unfold pacer_refill. destruct (pc_refill_inited _); cbn; by destruct (0 <? _).
Qed.

(** * Polling a queue empty *)

Section Delivery.
Context (aes_128_cm : list Z -> list Z -> list Z -> Z * list Z) (hmac_sha1_80 : list Z -> list Z -> list Z).
Context (Laws : provider_laws aes_128_cm hmac_sha1_80).

(** What the items of a queue become. *)
Definition deliveries (t : nano_turn) (l : list item) : list sent := omap (deliver t) l.
Lemma spec_poll_deliveries t l : forall x rest, deliveries t l = x :: rest -> exists l', spec_poll t l = (l', Some x) /\ deliveries t l' = rest.
Proof using Type.
  induction l as [|it l IH]; intros x rest; cbn [deliveries omap list_omap spec_poll]; [done|]. unfold deliveries in *. cbn [omap list_omap]. destruct (deliver t it) as [y|]; [|apply IH].
  intros [= -> <-]. by exists l.
Qed.
Lemma poll_step r es s : represents r es s -> media_ok r ->
  exists k, (k <= length (sn_paced s))%nat /\ (sn_paced (release r k s) = [] \/ queue_full (release r k s) = true \/
      exists t, t ∈ pc_enqueue_ms (r_pacer r) /\ nano_time_elapsed (r_now_ms r) t < NANORTC_PACING_MAX_QUEUE_MS) /\
    forall l x, spec_poll (r_turn r) (sn_queue (release r k s)) = (l, Some x) ->
      exists r' es', perform aes_128_cm hmac_sha1_80 r OpPoll = Ok (r', (NANORTC_OK, Some x)) /\ represents r' es' (Sending l (sn_pending s) (sn_paced (release r k s))) /\ media_ok r' /\ same_env r r'.
Proof using Type.
  intros H Hm. destruct (pump_refines r es s H) as (k & r1 & es1 & Hpump & H1 & Henv1 & Hk & Hend). exists k. split; [done|]. split.
  - destruct Hend as [He|[He|(d & rest & ms & _ & Hms & _ & Hage)]]; [by left | by right; left|]. right. right. exists ms. rewrite (pump_keeps_stamps _ _ Hpump) in Hms. split; [by eapply list_elem_of_lookup_2|].
    by destruct Henv1 as (_ & _ & _ & <- & _).
  - intros l x Hs. cbn [perform]. unfold poll_output_front. rewrite Hpump, bind_Ok. pose proof (poll_queued_refines r1 es1 _ H1) as Hp. assert (r_turn r1 = r_turn r) as Et by (by destruct Henv1). rewrite Et, Hs in Hp.
    destruct Hp as (r2 & es2 & o & Hrun & H2 & Henv2 & (o' & -> & Hrender)). rewrite Hrun, !bind_Ok, Hrender, bind_Ok. exists r2, es2. split; [done|]. split; [exact H2|].
    assert (same_env r r2) as He by (by eapply same_env_trans). split; [by eapply same_env_media_ok | done].
Qed.
Lemma drain p : forall out r es q, represents r es (Sending q p []) -> media_ok r -> deliveries (r_turn r) q = out ->
  exists r' es' q', run aes_128_cm hmac_sha1_80 r (replicate (length out) OpPoll) = Ok (r', map (fun x => (NANORTC_OK, Some x)) out) /\ represents r' es' (Sending q' p []) /\ deliveries (r_turn r) q' = [].
Proof using Type.
  induction out as [|x out IH]; intros r es q H Hm Hout; [by exists r, es, q|]. destruct (poll_step r es _ H Hm) as (k & Hk & _ & Hstep). cbn [sn_paced length] in Hk.
  replace k with 0%nat in Hstep by lia. rewrite release_0 in Hstep. cbn [sn_queue sn_pending sn_paced] in Hstep. destruct (spec_poll_deliveries _ _ _ _ Hout) as (l & Hs & Hl).
  destruct (Hstep l x Hs) as (r1 & es1 & Hrun & H1 & Hm1 & Henv). assert (r_turn r1 = r_turn r) as Et by (by destruct Henv). rewrite <- Et in Hl.
  destruct (IH r1 es1 l H1 Hm1 Hl) as (r' & es' & q' & Hrun' & H' & Hq'). exists r', es', q'. cbn [length replicate run map]. rewrite Hrun, bind_Ok, Hrun', bind_Ok. rewrite Et in Hq'. done.
Qed.
(** Paced packets that have all aged go out whole. *)
Lemma drain_paced r es p ds : represents r es (Sending [] p ds) -> media_ok r -> Forall (fun t => NANORTC_PACING_MAX_QUEUE_MS <= nano_time_elapsed (r_now_ms r) t) (pc_enqueue_ms (r_pacer r)) ->
  let out := deliveries (r_turn r) (map (media_item r) ds) in
  exists r' es' q', run aes_128_cm hmac_sha1_80 r (replicate (length out) OpPoll) = Ok (r', map (fun x => (NANORTC_OK, Some x)) out) /\
    (out <> [] -> represents r' es' (Sending q' p []) /\ deliveries (r_turn r) q' = []).
Proof using Type.
  intros H Hm Haged. cbv zeta. destruct (deliveries (r_turn r) (map (media_item r) ds)) as [|x out] eqn:Hout; [by exists r, es, []|]. destruct (poll_step r es _ H Hm) as (k & Hk & Hend & Hstep). cbn [sn_paced] in Hk. unfold release in Hend, Hstep. cbn [sn_queue sn_pending sn_paced app] in Hend, Hstep.
  pose proof (rp_room _ _ _ H) as Hroom. cbn [sn_queue sn_paced] in Hroom. change (count Media []) with 0%nat in Hroom.
  assert (drop k ds = [] /\ take k ds = ds) as [Hd Ht].
  { assert (length ds <= k)%nat as Hle; [|split; [by apply drop_ge | by apply take_ge]]. destruct Hend as [He|[He|(t & Ht & Hage)]].
    - apply (f_equal length) in He. rewrite length_drop in He. cbn in He. lia.
    - unfold queue_full in He. cbn [sn_queue] in He. rewrite length_map, length_take in He. apply Nat.leb_le in He. unfold NANORTC_VIDEO_PKT_RING_SIZE in Hroom. lia.
    - rewrite List.Forall_forall in Haged. specialize (Haged t ltac:(by apply list_elem_of_In)). lia. }
  rewrite Hd, Ht in Hstep. destruct (spec_poll_deliveries _ _ _ _ Hout) as (l & Hs & Hl). destruct (Hstep l x Hs) as (r1 & es1 & Hrun & H1 & Hm1 & Henv). assert (r_turn r1 = r_turn r) as Et by (by destruct Henv). rewrite <- Et in Hl.
  destruct (drain p out r1 es1 l H1 Hm1 Hl) as (r' & es' & q' & Hrun' & H' & Hq'). exists r', es', q'. cbn [length replicate run map]. rewrite Hrun, bind_Ok, Hrun', bind_Ok. rewrite Et in Hq'. done.
Qed.
End Delivery.

Lemma deliveries_direct t r ds : needs_turn r RTC_TX_ROUTE_SELECTED = false -> deliveries t (map (media_item r) ds) = map (fun d => SentPacket d (r_remote_addr r) (source_of (r_ice r) None)) ds.
Proof.
  intros Hd. unfold deliveries. induction ds as [|d ds IH]; [done|]. cbn [map omap list_omap]. unfold media_item at 1, packet_of. rewrite Hd. cbn [deliver pk_via pk_octets pk_dest pk_src]. by f_equal.
Qed.

(** A frame that is admitted, up to the polls that hand it over. *)
Lemma frame_polled (aes_128_cm : list Z -> list Z -> list Z -> Z * list Z) (hmac_sha1_80 : list Z -> list Z -> list Z)
    (r : rtc) (es : list entry) (s : sending) (mid pts : Z) (buf : list Z) (i : nat) (m : nanortc_track) (w : world) :
  provider_laws aes_128_cm hmac_sha1_80 -> represents r es s -> media_ok r -> sn_queue s = [] -> sn_paced s = [] ->
  bytes buf -> video_verdict r s mid buf = inr i -> r_media r !! i = Some m -> units_whole (tr_codec m) (units buf) -> ~ no_place r (tr_rtp m) ->
  world_ok w -> let aged t := NANORTC_PACING_MAX_QUEUE_MS <= nano_time_elapsed (wo_now_ms w) t in aged (r_now_ms r) -> Forall aged (pc_enqueue_ms (r_pacer r)) ->
  exists r1 ds srtp' rtp' r2,
    nanortc_send_video aes_128_cm hmac_sha1_80 r mid pts buf = Ok (r1, NANORTC_OK) /\
    sealed_all aes_128_cm hmac_sha1_80 (r_srtp r) (tr_rtp m) (pts_ms_to_rtp pts 90000) (frame_payloads (tr_codec m) (units buf)) ds srtp' rtp' /\ srtp' = r_srtp r1 /\
    let out := deliveries (wo_turn w) (map (media_item (with_world r1 w)) ds) in
    run aes_128_cm hmac_sha1_80 (with_world r1 w) (replicate (length out) OpPoll) = Ok (r2, map (fun x => (NANORTC_OK, Some x)) out) /\
    (needs_turn (with_world r1 w) RTC_TX_ROUTE_SELECTED = false -> out = map (fun d => SentPacket d (wo_remote w) (source_of (wo_ice w) None)) ds).
Proof.
  intros Laws H Hm Hq Hp Hb Hv Hi Hw Hplace Hwo aged Hnow Hstamps. destruct (send_video_refines _ _ Laws r es s mid pts buf H Hm Hb) as (r1 & rc & Hrun & Hout). rewrite Hv in Hout.
  destruct Hout as (m' & r0 & ps & rc0 & Hi' & Hmid & Hr0 & (Hk & Hst & Hs & Hsent) & Hwhole). assert (m' = m) as -> by congruence. destruct (Hwhole Hw) as [-> ->].
  assert (r_srtp r0 = r_srtp r /\ r_now_ms r0 = r_now_ms r /\ r_pacer r0 = r_pacer r) as (Es & En & Ep) by (by subst r0).
  destruct Hsent as [(-> & ds & rtp' & Hr1 & Hse & Ht)|(_ & Hno & _)]; [|destruct Hplace; unfold no_place in *; by rewrite Es in Hno]. rewrite Es in Hse.
  assert (represents (with_world r1 w) es (pace s ds)) as H1 by (by apply world_represents).
  assert (es = []) as -> by (pose proof (items_length r es s H) as Hl; rewrite Hq in Hl; by apply nil_length_inv).
  assert (pace s ds = Sending [] (sn_pending s) ds) as Hpace by (unfold pace; by rewrite Hq, Hp). rewrite Hpace in H1.
  assert (Forall aged (pc_enqueue_ms (r_pacer r1))) as Haged by (apply Hst; [by rewrite En | by rewrite Ep]).
  destruct (drain_paced aes_128_cm hmac_sha1_80 (with_world r1 w) [] (sn_pending s) ds H1 (world_media r1 w Hwo) Haged) as (r2 & es2 & q' & Hpoll & _).
  exists r1, ds, (r_srtp r1), rtp', r2. split; [done|]. split; [done|]. split; [done|]. cbv zeta. split; [exact Hpoll|]. intros Hdirect. by apply deliveries_direct.
Qed.

(** * Properties *)

(** The hypotheses on a demonstration connection. *)
Lemma demo_verdict : video_verdict (rtc_start (demo_world 5)) idle 1 demo_frame = inr 0%nat.
Proof. vm_compute. reflexivity. Qed.
Lemma demo_units : units_whole (tr_codec demo_track) (units demo_frame).
Proof. intros H. discriminate H. Qed.
Lemma demo_states : ssrc_states (toy_session true) = replicate 4 (SsrcState 0 0 0 false).
Proof. vm_compute. reflexivity. Qed.
Lemma demo_place : ~ no_place (rtc_start (demo_world 5)) (tr_rtp demo_track).
Proof.
  intros H. apply (H (SsrcState 99 0 0 true)). change (ssrc_states (r_srtp (rtc_start (demo_world 5)))) with (ssrc_states (toy_session true)). rewrite demo_states. right. split; [|split; [reflexivity|]].
  - intros ss (j & Hj & Ha & _). apply (lookup_replicate_1 4) in Hj as [-> _]. discriminate Ha.
  - by exists 0%nat, (SsrcState 0 0 0 false).
Qed.
