(* ===== verification/MediaRecv.v ===== *)
(** The receiving half of the media path, [src/nano_rtc_media.c]: SRTP datagrams
    to tracks, depacketizers, jitter buffers and events; compound RTCP to the
    bandwidth estimator, key frame requests and retransmissions; loss recovery by
    PLI and the cadence of sender reports.  FEC, the reorder buffer, receiver
    NACK and rate control are off, their default. *)

From Stdlib Require Import ZArith Lia.
From stdpp Require Import base list numbers.
From S2P Require Import Prelude Wire Sdp Stun Ice Turn Fragment AnnexB H264 H265 Jitter Srtp Rtp Rtcp Twcc Bwe Media OutQueue VideoSend.

Local Open Scope Z_scope.

Definition NANORTC_STUN_BUF_SIZE : nat := NANORTC_MEDIA_BUF_SIZE.
Definition NANORTC_VIDEO_PLI_MIN_INTERVAL_MS : Z := 1000.
Definition NANORTC_RTCP_INTERVAL_MS : Z := 5000.
Definition NANORTC_BWE_DIR_STABLE : Z := 0.
Definition NANORTC_BWE_DIR_UP : Z := 1.
Definition NANORTC_BWE_DIR_DOWN : Z := 2.
Definition NANORTC_BWE_SRC_REMB : Z := 0.
Definition NANORTC_BWE_SRC_TWCC_LOSS : Z := 1.

(** * Data *)

(** The receive-side fields of a track: loss detection with its debounced PLI, and
    the buffer that an audio frame is popped into. *)
Record track_recv : Type := TrackRecv {
  tv_last_seq : Z; tv_seq_inited : bool; tv_lost_pending : bool; tv_last_pli_ms : Z; tv_last_pli_valid : bool; tv_media_buf : list Z
}.
Definition track_recv_init : track_recv := TrackRecv 0 false false 0 false (replicate NANORTC_MEDIA_BUF_SIZE 0).
(** The connection as receiving media sees it: what it shares with the sending
    half, the SSRC table, the m-lines, the tracks' receive-side fields (in the
    order of the tracks) and the cadence of sender reports. *)
Record media_recv : Type := MediaRecv {
  mr_rtc : rtc; mr_ssrc_map : list ssrc_entry; mr_sdp : nano_sdp; mr_tracks : list track_recv; mr_auto_pli_sent : Z;
  mr_last_rtcp_send_ms : Z; mr_last_rtcp_send_valid : bool; mr_sr_cursor : nat
}.
Definition with_rtc x r := MediaRecv r (mr_ssrc_map x) (mr_sdp x) (mr_tracks x) (mr_auto_pli_sent x) (mr_last_rtcp_send_ms x) (mr_last_rtcp_send_valid x) (mr_sr_cursor x).
Definition with_ssrc_map x m := MediaRecv (mr_rtc x) m (mr_sdp x) (mr_tracks x) (mr_auto_pli_sent x) (mr_last_rtcp_send_ms x) (mr_last_rtcp_send_valid x) (mr_sr_cursor x).
Definition with_recv x l := MediaRecv (mr_rtc x) (mr_ssrc_map x) (mr_sdp x) l (mr_auto_pli_sent x) (mr_last_rtcp_send_ms x) (mr_last_rtcp_send_valid x) (mr_sr_cursor x).
Definition count_auto_pli x := MediaRecv (mr_rtc x) (mr_ssrc_map x) (mr_sdp x) (mr_tracks x) (u32 (mr_auto_pli_sent x + 1)) (mr_last_rtcp_send_ms x) (mr_last_rtcp_send_valid x) (mr_sr_cursor x).
Definition sr_sent x now cursor := MediaRecv (mr_rtc x) (mr_ssrc_map x) (mr_sdp x) (mr_tracks x) (mr_auto_pli_sent x) now true cursor.
Definition with_bwe r b := Rtc (r_queue r) (r_pending r) (r_tx r) (r_tx_cursor r) (r_retx r) (r_ring r) (r_pacer r) (r_turn_buf r) (r_stats r) (r_turn r) (r_ice r) (r_remote_addr r) (r_now_ms r) b (r_srtp r) (r_media r) (r_media_count r) (r_state r).
Definition set_track x i m := with_rtc x (put_track (mr_rtc x) i m).
Definition get_recv x (i : nat) : res track_recv := match mr_tracks x !! i with Some t => Ok t | None => Fault end.
Definition set_recv x i t := with_recv x (<[i := t]> (mr_tracks x)).

Definition with_rtcp (m : nanortc_track) (c : nano_rtcp) : nanortc_track := with_sent m c (tr_rate_window m).
Definition with_media_state (m : nanortc_track) (s : track_media) : nanortc_track :=
  Track (tr_mid m) (tr_kind m) (tr_direction m) (tr_active m) (tr_rtp m) (tr_rtcp m) (tr_rate_window m) (tr_fraction_lost m) (tr_codec m) (tr_sample_rate m) (tr_channels m) s.
Definition with_fraction_lost (m : nanortc_track) (x : Z) : nanortc_track :=
  Track (tr_mid m) (tr_kind m) (tr_direction m) (tr_active m) (tr_rtp m) (tr_rtcp m) (tr_rate_window m) x (tr_codec m) (tr_sample_rate m) (tr_channels m) (tr_media m).
Definition set_remote_ssrc (c : nano_rtcp) (x : Z) : nano_rtcp :=
  NanoRtcp (rtcp_ssrc c) (rtcp_packets_sent c) (rtcp_octets_sent c) (rtcp_packets_received c) (rtcp_packets_lost c) x (rtcp_last_sr_ntp c) (rtcp_last_sr_recv_ms c) (rtcp_last_sr_recv_valid c) (rtcp_max_seq c) (rtcp_jitter c).
(** A sender report from the peer. *)
Definition note_sr (c : nano_rtcp) (ntp now : Z) : nano_rtcp :=
  NanoRtcp (rtcp_ssrc c) (rtcp_packets_sent c) (rtcp_octets_sent c) (rtcp_packets_received c) (rtcp_packets_lost c) (rtcp_remote_ssrc c) ntp now true (rtcp_max_seq c) (rtcp_jitter c).
(** An RTP packet from the peer. *)
Definition note_rtp (c : nano_rtcp) (seq ssrc : Z) : nano_rtcp :=
  let received := u32 (rtcp_packets_received c + 1) in
  let max_seq := if (rtcp_max_seq c <? seq) || (received =? 1) then seq else rtcp_max_seq c in
  NanoRtcp (rtcp_ssrc c) (rtcp_packets_sent c) (rtcp_octets_sent c) received (rtcp_packets_lost c)
    (if rtcp_remote_ssrc c =? 0 then ssrc else rtcp_remote_ssrc c) (rtcp_last_sr_ntp c) (rtcp_last_sr_recv_ms c) (rtcp_last_sr_recv_valid c) max_seq (rtcp_jitter c).

(** Emits an event; its code is ignored, as in the source. *)
Definition emit x e : res media_recv := '(r, _) ← nano_rtc_emit_event_full (mr_rtc x) e; Ok (with_rtc x r).

Section Crypto.
Context (aes_128_cm : list Z -> list Z -> list Z -> Z * list Z) (hmac_sha1_80 : list Z -> list Z -> list Z).

(** * Video delivery *)

Definition rtc_video_on_lost (x : media_recv) (i : nat) (lost : bool) : res media_recv :=
  if negb lost then Ok x else
  t ← get_recv x i;
  let t := TrackRecv (tv_last_seq t) (tv_seq_inited t) true (tv_last_pli_ms t) (tv_last_pli_valid t) (tv_media_buf t) in
  let x := set_recv x i t in
  let now := r_now_ms (mr_rtc x) in
  let since := nano_time_elapsed now (tv_last_pli_ms t) in
  if negb (tv_last_pli_valid t) || (NANORTC_VIDEO_PLI_MIN_INTERVAL_MS <=? since) then
    m ← get_track (mr_rtc x) i;
    '(r, rc) ← rtc_emit_pli aes_128_cm hmac_sha1_80 (mr_rtc x) m;
    let x := with_rtc x r in
    if rc =? NANORTC_OK then
      Ok (count_auto_pli (set_recv x i (TrackRecv (tv_last_seq t) (tv_seq_inited t) true now true (tv_media_buf t))))
    else Ok x
  else Ok x.

(** The depacketizer of the track, its output and whether that is a key frame;
    [None] for no complete unit. *)
Definition push_payload (m : nanortc_track) (payload : list Z) : res (nanortc_track * option (list Z * bool)) :=
  match tr_media m with
  | AudioMedia _ _ => Fault
  | VideoH265 d =>
      match h265_depkt_push d payload with
      | Fault => Fault
      | Err _ => Ok (m, None)
      | Ok (d, drc, out) =>
          let m := with_media_state m (VideoH265 d) in
          match out with
          | Some nalu => if (drc =? NANORTC_OK) && (0 <? length nalu)%nat then kf ← h265_is_keyframe nalu; Ok (m, Some (nalu, kf)) else Ok (m, None)
          | None => Ok (m, None)
          end
      end
  | VideoH264 d =>
      match h264_depkt_push d payload with
      | Fault => Fault
      | Err _ => Ok (m, None)
      | Ok (d, drc, out) =>
          let m := with_media_state m (VideoH264 d) in
          match out with
          | Some nalu => if (drc =? NANORTC_OK) && (0 <? length nalu)%nat then kf ← h264_is_keyframe nalu; Ok (m, Some (nalu, kf)) else Ok (m, None)
          | None => Ok (m, None)
          end
      end
  end.
Definition rtc_video_complete_event (x : media_recv) (i : nat) (payload : list Z) (rtp_ts : Z) : res (media_recv * option rtc_event) :=
  m ← get_track (mr_rtc x) i;
  '(m, out) ← push_payload m payload;
  let x := set_track x i m in
  match out with
  | None => Ok (x, None)
  | Some (nalu, is_kf) =>
      t ← get_recv x i;
      let ev := EvMediaData (tr_mid m) (rtp_payload_type (tr_rtp m)) rtp_ts (DepktBuf i) (length nalu) (negb (tv_lost_pending t)) is_kf in
      Ok (set_recv x i (TrackRecv (tv_last_seq t) (tv_seq_inited t) false (tv_last_pli_ms t) (tv_last_pli_valid t) (tv_media_buf t)), Some ev)
  end.
Definition rtc_video_deliver (x : media_recv) (i : nat) (payload : list Z) (rtp_ts : Z) (lost : bool) : res media_recv :=
  x ← rtc_video_on_lost x i lost;
  '(x, ev) ← rtc_video_complete_event x i payload rtp_ts;
  match ev with Some ev => emit x ev | None => Ok x end.

(** * RTP *)

(** The raw sequence check: a forward gap of more than one is a loss. *)
Definition note_seq (t : track_recv) (seq : Z) : track_recv * bool :=
  if negb (tv_seq_inited t) then (TrackRecv seq true (tv_lost_pending t) (tv_last_pli_ms t) (tv_last_pli_valid t) (tv_media_buf t), false) else
  let adv := i16 (seq - tv_last_seq t) in
  if 0 <? adv then (TrackRecv seq true (tv_lost_pending t) (tv_last_pli_ms t) (tv_last_pli_valid t) (tv_media_buf t), 1 <? adv)
  else (t, false).
(** A video track whose sender restarts under a new SSRC starts over. *)
Definition restart_track (x : media_recv) (i : nat) (m : nanortc_track) (ssrc : Z) : res media_recv :=
  match tr_kind m with
  | TRACK_AUDIO => Ok x
  | TRACK_VIDEO =>
      if negb (rtcp_remote_ssrc (tr_rtcp m) =? 0) && negb (rtcp_remote_ssrc (tr_rtcp m) =? ssrc) then
        t ← get_recv x i;
        let x := set_recv x i (TrackRecv (tv_last_seq t) false false (tv_last_pli_ms t) false (tv_media_buf t)) in
        Ok (set_track x i (with_media_state m (if is_h265 (tr_codec m) then VideoH265 h265_depkt_init else VideoH264 h264_depkt_init)))
      else Ok x
  end.
(** The first of [k] tracks from [i] on whose m-line has the payload type, with the
    stream registered for it. *)
Fixpoint discover (k i : nat) (x : media_recv) (pt ssrc : Z) : res (media_recv * Z) :=
  match k with
  | O => Ok (x, -1)
  | S k =>
      mc ← get_track (mr_rtc x) i;
      if negb (tr_active mc) then discover k (S i) x pt ssrc else
      found ← sdp_find_mline (mr_sdp x) (tr_mid mc);
      match found with
      | None => discover k (S i) x pt ssrc
      | Some j =>
          match ms_mlines (sd_media (mr_sdp x)) !! j with
          | None => Fault
          | Some ml =>
              if negb (ml_remote_pt ml =? pt) then discover k (S i) x pt ssrc else
              x ← restart_track x i mc ssrc;
              '(map, _) ← ssrc_map_register (mr_ssrc_map x) NANORTC_MAX_SSRC_MAP ssrc (tr_mid mc);
              mc ← get_track (mr_rtc x) i;
              Ok (set_track (with_ssrc_map x map) i (with_rtcp mc (set_remote_ssrc (tr_rtcp mc) ssrc)), tr_mid mc)
          end
      end
  end.
(** The MID of a stream, by its SSRC or else by its payload type. *)
Definition stream_mid (x : media_recv) (pt ssrc : Z) : res (media_recv * Z) :=
  mid ← ssrc_map_lookup (mr_ssrc_map x) NANORTC_MAX_SSRC_MAP ssrc;
  if mid <? 0 then discover (r_media_count (mr_rtc x)) 0 x pt ssrc else Ok (x, mid).
(** The packet on its track. *)
Definition route_rtp (x : media_recv) (i : nat) (seq ts ssrc : Z) (payload : list Z) : res media_recv :=
  m ← get_track (mr_rtc x) i;
  let m := with_rtcp m (note_rtp (tr_rtcp m) seq ssrc) in
  let x := set_track x i m in
  match tr_kind m with
  | TRACK_AUDIO =>
      match tr_media m with
      | AudioMedia jitter depth =>
          match jitter_push jitter seq ts payload (r_now_ms (mr_rtc x)) with
          | Fault => Fault
          | Err _ => Ok x
          | Ok (jitter, _) => Ok (set_track x i (with_media_state m (AudioMedia jitter depth)))
          end
      | _ => Fault
      end
  | TRACK_VIDEO =>
      t ← get_recv x i;
      let '(t, lost) := note_seq t seq in
      rtc_video_deliver (set_recv x i t) i payload ts lost
  end.
Definition handle_rtp (x : media_recv) (pkt : list Z) (plain_len : nat) : res (media_recv * Z) :=
  match rtp_unpack (take plain_len pkt) with
  | Fault => Fault
  | Err _ => Ok (x, NANORTC_OK)
  | Ok p =>
      payload ← rdn pkt (pkt_off p) (pkt_len p);
      '(x, mid) ← stream_mid x (pkt_pt p) (pkt_ssrc p);
      if mid <? 0 then Ok (x, NANORTC_OK) else
      found ← track_find_by_mid (r_media (mr_rtc x)) (r_media_count (mr_rtc x)) (u8 mid);
      match found with
      | None => Ok (x, NANORTC_OK)
      | Some i => x ← route_rtp x i (pkt_seq p) (pkt_ts p) (pkt_ssrc p) payload; Ok (x, NANORTC_OK)
      end
  end.

(** * RTCP *)

Definition on_sender_report (x : media_recv) (info : nano_rtcp_info) : res media_recv :=
  mid ← ssrc_map_lookup (mr_ssrc_map x) NANORTC_MAX_SSRC_MAP (info_ssrc info);
  if mid <? 0 then Ok x else
  found ← track_find_by_mid (r_media (mr_rtc x)) (r_media_count (mr_rtc x)) (u8 mid);
  match found with
  | None => Ok x
  | Some i =>
      m ← get_track (mr_rtc x) i;
      let ntp := Z.lor (u32 (Z.shiftl (Z.land (info_ntp_sec info) 0xFFFF) 16)) (Z.shiftr (info_ntp_frac info) 16) in
      let m := with_rtcp m (note_sr (tr_rtcp m) ntp (r_now_ms (mr_rtc x))) in
      Ok (set_track x i (if info_rb_valid info then with_fraction_lost m (info_rb_fraction_lost info) else m))
  end.
(** The first of [k] active tracks from [i] on that satisfies [p]. *)
Fixpoint find_track (p : nanortc_track -> bool) (k i : nat) (media : list nanortc_track) : res (option nat) :=
  match k with
  | O => Ok None
  | S k => match media !! i with
           | None => Fault
           | Some m => if tr_active m && p m then Ok (Some i) else find_track p k (S i) media
           end
  end.
Definition on_receiver_report (x : media_recv) (info : nano_rtcp_info) : res media_recv :=
  found ← find_track (fun m => rtp_ssrc (tr_rtp m) =? info_rb_source_ssrc info) (r_media_count (mr_rtc x)) 0 (r_media (mr_rtc x));
  match found with
  | None => Ok x
  | Some i => m ← get_track (mr_rtc x) i; Ok (set_track x i (with_fraction_lost m (info_rb_fraction_lost info)))
  end.
(** The estimate event after an update, when the estimate moved far enough. *)
Definition bitrate_event (x : media_recv) (prev_bps source : Z) : res media_recv :=
  let '(bwe, fires) := bwe_should_emit_event (r_bwe (mr_rtc x)) in
  let x := with_rtc x (with_bwe (mr_rtc x) bwe) in
  if fires then
    let cur_bps := estimated_bitrate bwe in
    emit x (EvBitrateEstimate cur_bps prev_bps
      (if prev_bps <? cur_bps then NANORTC_BWE_DIR_UP else if cur_bps <? prev_bps then NANORTC_BWE_DIR_DOWN else NANORTC_BWE_DIR_STABLE) source)
  else Ok x.
Definition on_remb (x : media_recv) (sub : list Z) : res media_recv :=
  let r := mr_rtc x in
  let prev_bps := estimated_bitrate (r_bwe r) in
  match bwe_on_rtcp_feedback (r_bwe r) sub (r_now_ms r) with
  | Fault => Fault
  | Err _ => bitrate_event x prev_bps NANORTC_BWE_SRC_REMB
  | Ok bwe => bitrate_event (with_rtc x (with_bwe r bwe)) prev_bps NANORTC_BWE_SRC_REMB
  end.
Definition is_video_source (ssrc : Z) (m : nanortc_track) : bool :=
  (match tr_kind m with TRACK_VIDEO => true | TRACK_AUDIO => false end) && (rtp_ssrc (tr_rtp m) =? ssrc).
Definition on_pli (x : media_recv) (info : nano_rtcp_info) : res media_recv :=
  found ← find_track (is_video_source (info_psfb_media_ssrc info)) (r_media_count (mr_rtc x)) 0 (r_media (mr_rtc x));
  match found with
  | None => Ok x
  | Some i => vm ← get_track (mr_rtc x) i; emit x (EvKeyframeRequest (tr_mid vm))
  end.
Definition on_twcc (x : media_recv) (sub : list Z) : res media_recv :=
  match twcc_parse_feedback sub with
  | Fault => Fault
  | Err _ => Ok x
  | Ok (prc, sum, _) =>
      if (prc =? NANORTC_OK) && (0 <? tw_packet_status_count sum) then
        let r := mr_rtc x in
        let lost := u16 (tw_packet_status_count sum - tw_received_count sum) in
        let loss_q8 := u16 (u32 (lost * 256) / tw_packet_status_count sum) in
        let prev_bps := estimated_bitrate (r_bwe r) in
        bitrate_event (with_rtc x (with_bwe r (bwe_on_twcc_loss (r_bwe r) loss_q8 (r_now_ms r)))) prev_bps NANORTC_BWE_SRC_TWCC_LOSS
      else Ok x
  end.
(** One packet of a compound. *)
Definition handle_rtcp_packet (x : media_recv) (sub : list Z) : res media_recv :=
  match rtcp_parse sub with
  | Fault => Fault
  | Err _ => Ok x
  | Ok info =>
      if info_type info =? RTCP_SR then on_sender_report x info
      else if (info_type info =? RTCP_RR) && info_rb_valid info then on_receiver_report x info
      else if info_type info =? RTCP_PSFB then
        b0 ← rd8 sub 0;
        let psfb_fmt := Z.land b0 0x1F in
        if psfb_fmt =? BWE_REMB_FMT then on_remb x sub
        else if psfb_fmt =? 1 then on_pli x info
        else Ok x
      else if info_type info =? RTCP_RTPFB then
        b0 ← rd8 sub 0;
        let rtpfb_fmt := Z.land b0 0x1F in
        if rtpfb_fmt =? 1 then
          r ← rtc_answer_nack (mr_rtc x) (info_nack_pid info) (info_nack_blp info) (info_nack_media_ssrc info); Ok (with_rtc x r)
        else if rtpfb_fmt =? TWCC_FMT then on_twcc x sub
        else Ok x
      else Ok x
  end.
(** The packets of the compound of [rtcp_len] octets, from [rtcp_off] on. *)
Fixpoint handle_compound (fuel : nat) (x : media_recv) (buf : list Z) (rtcp_len rtcp_off : nat) : res media_recv :=
  match fuel with
  | O => Fault
  | S fuel =>
      if (rtcp_len <? rtcp_off + RTCP_HEADER_SIZE)%nat then Ok x else
      words ← nanortc_read_u16be buf (rtcp_off + 2);
      let sub_len := ((Z.to_nat words + 1) * 4)%nat in
      if (sub_len <? RTCP_HEADER_SIZE)%nat || (rtcp_len <? rtcp_off + sub_len)%nat then Ok x else
      sub ← rdn buf rtcp_off sub_len;
      x ← handle_rtcp_packet x sub;
      handle_compound fuel x buf rtcp_len (rtcp_off + sub_len)
  end.

(** The datagrams 128 to 191 of RFC 7983.  The scratch buffer that they are
    unprotected in is an object of exactly their length. *)
Definition nano_rtc_media_handle_rtp_or_rtcp (x : media_recv) (data : list Z) : res (media_recv * Z) :=
  if negb (sr_ready (r_srtp (mr_rtc x))) then Ok (x, NANORTC_OK) else
  if (length data <? 2)%nat then Ok (x, NANORTC_ERR_PARSE) else
  second ← rd8 data 1;
  if (200 <=? second) && (second <=? 211) then
    if (NANORTC_STUN_BUF_SIZE <? length data)%nat then Ok (x, NANORTC_ERR_BUFFER_TOO_SMALL) else
    '(srtp, buf, out) ← nano_srtp_unprotect_rtcp aes_128_cm hmac_sha1_80 (r_srtp (mr_rtc x)) data (length data);
    let x := with_rtc x (with_media (mr_rtc x) srtp (r_media (mr_rtc x))) in
    match out with
    | inl _ => Ok (x, NANORTC_OK)
    | inr rtcp_len => x ← handle_compound (S rtcp_len) x buf rtcp_len 0; Ok (x, NANORTC_OK)
    end
  else
    if (NANORTC_STUN_BUF_SIZE <? length data)%nat then Ok (x, NANORTC_ERR_BUFFER_TOO_SMALL) else
    '(srtp, pkt, out) ← nano_srtp_unprotect aes_128_cm hmac_sha1_80 (r_srtp (mr_rtc x)) data (length data);
    let x := with_rtc x (with_media (mr_rtc x) srtp (r_media (mr_rtc x))) in
    match out with
    | inl _ => Ok (x, NANORTC_OK)
    | inr plain_len => handle_rtp x pkt plain_len
    end.

(** * Sender reports *)

(** The report for track [i], in a transmit slot of its own. *)
Definition emit_sr (r : rtc) (m : nanortc_track) (now_ms : Z) : res (rtc * Z) :=
  let ntp_sec := now_ms / 1000 in
  let ntp_frac := u32 (now_ms mod 1000 * 4294967) in
  let clock_rate := match tr_kind m with TRACK_VIDEO => 90000 | TRACK_AUDIO => tr_sample_rate m end in
  let rtp_ts := u32 (u64 (now_ms * clock_rate) / 1000) in
  rtc_emit_feedback aes_128_cm hmac_sha1_80 r (rtcp_generate_sr (tr_rtcp m) ntp_sec ntp_frac rtp_ts).
(** The first of [k] tracks, from place [scanned] of the rotation on, that has sent
    something. *)
Fixpoint sr_scan (k scanned : nat) (x : media_recv) (now_ms : Z) : res (media_recv * Z) :=
  match k with
  | O => Ok (x, NANORTC_OK)
  | S k =>
      let ti := ((mr_sr_cursor x + scanned) mod r_media_count (mr_rtc x))%nat in
      m ← get_track (mr_rtc x) ti;
      if negb (tr_active m) || negb (may_send (tr_direction m)) || (rtcp_packets_sent (tr_rtcp m) =? 0) then sr_scan k (S scanned) x now_ms else
      '(r, rc) ← emit_sr (mr_rtc x) m now_ms;
      let x := with_rtc x r in
      if negb (rc =? NANORTC_OK) then Ok (x, rc)
      else Ok (sr_sent x now_ms ((ti + 1) mod r_media_count (mr_rtc x)), NANORTC_OK)
  end.
Definition nano_rtc_media_emit_rtcp_sr_cadence (x : media_recv) (now_ms : Z) : res (media_recv * Z) :=
  if negb (sr_ready (r_srtp (mr_rtc x))) ||
     (mr_last_rtcp_send_valid x && (nano_time_elapsed now_ms (mr_last_rtcp_send_ms x) <? NANORTC_RTCP_INTERVAL_MS)) then Ok (x, NANORTC_OK) else
  if (r_media_count (mr_rtc x) =? 0)%nat then Ok (x, NANORTC_OK) else
  sr_scan (r_media_count (mr_rtc x)) 0 x now_ms.

End Crypto.

(** * Audio *)

(** The first audio track of [k] from [i] on with a frame that is due. *)
Fixpoint audio_produce (k i : nat) (x : media_recv) : res (media_recv * option rtc_event) :=
  match k with
  | O => Ok (x, None)
  | S k =>
      m ← get_track (mr_rtc x) i;
      match tr_active m, tr_kind m, tr_media m with
      | true, TRACK_AUDIO, AudioMedia jitter depth =>
          t ← get_recv x i;
          '(jitter, out) ← jitter_pop jitter (r_now_ms (mr_rtc x)) (tv_media_buf t);
          let x := set_track x i (with_media_state m (AudioMedia jitter depth)) in
          match out with
          | JCode _ => audio_produce k (S i) x
          | JPacket buf pop_len pop_ts =>
              let t := TrackRecv (tv_last_seq t) (tv_seq_inited t) (tv_lost_pending t) (tv_last_pli_ms t) (tv_last_pli_valid t) buf in
              Ok (set_recv x i t, Some (EvMediaData (tr_mid m) (rtp_payload_type (tr_rtp m)) pop_ts (MediaBuf i) pop_len true false))
          end
      | true, TRACK_AUDIO, _ => Fault
      | _, _, _ => audio_produce k (S i) x
      end
  end.
Definition nano_rtc_media_audio_produce (x : media_recv) : res (media_recv * option rtc_event) := audio_produce (r_media_count (mr_rtc x)) 0 x.
