(* ===== verification/MediaTracks.v ===== *)
(** The media API around the tracks, [src/nano_rtc_media.c]: adding tracks with
    their m-lines, H.265 parameter sets for the SDP, directions, statistics and
    the estimator's bounds. *)

From Stdlib Require Import ZArith Lia String Ascii.
From stdpp Require Import base list numbers.
From S2P Require Import Prelude Wire Base64 Sdp Stun Ice Turn H264 H265 Jitter Srtp Rtp Rtcp Bwe Media OutQueue VideoSend MediaRecv.

Local Open Scope Z_scope.

Definition NANORTC_CODEC_PCMA : Z := 2.
Definition NANORTC_CODEC_PCMU : Z := 3.
Definition NANORTC_VIDEO_DEFAULT_PT : Z := 96.
Definition NANORTC_VIDEO_H265_DEFAULT_PT : Z := 98.

(** * Adding tracks *)

Definition with_tracks (r : rtc) (media : list nanortc_track) (n : nat) : rtc :=
  Rtc (r_queue r) (r_pending r) (r_tx r) (r_tx_cursor r) (r_retx r) (r_ring r) (r_pacer r) (r_turn_buf r) (r_stats r) (r_turn r) (r_ice r) (r_remote_addr r) (r_now_ms r) (r_bwe r) (r_srtp r) media n (r_state r).
Definition with_sdp x s := MediaRecv (mr_rtc x) (mr_ssrc_map x) s (mr_tracks x) (mr_auto_pli_sent x) (mr_last_rtcp_send_ms x) (mr_last_rtcp_send_valid x) (mr_sr_cursor x).
(** The payload type a codec is offered with. *)
Definition default_pt (kind : track_kind) (codec : Z) : Z :=
  match kind with
  | TRACK_AUDIO => if codec =? NANORTC_CODEC_PCMU then 0 else if codec =? NANORTC_CODEC_PCMA then 8 else 111
  | TRACK_VIDEO => if codec =? NANORTC_CODEC_H265 then NANORTC_VIDEO_H265_DEFAULT_PT else NANORTC_VIDEO_DEFAULT_PT
  end.
(** The MID, or an error. *)
Definition nanortc_add_track (x : media_recv) (jitter_depth_ms : Z) (kind : track_kind) (direction codec sample_rate channels : Z) : res (media_recv * Z) :=
  let r := mr_rtc x in
  if (NANORTC_MAX_MEDIA_TRACKS <=? r_media_count r)%nat then Ok (x, NANORTC_ERR_BUFFER_TOO_SMALL) else
  let sdp_kind := match kind with TRACK_AUDIO => SDP_MLINE_AUDIO | TRACK_VIDEO => SDP_MLINE_VIDEO end in
  '(s, mid) ← sdp_add_mline (mr_sdp x) sdp_kind (u8 codec) (default_pt kind codec) sample_rate channels direction;
  let x := with_sdp x s in
  if mid <? 0 then Ok (x, mid) else
  let tidx := r_media_count r in
  match r_media r !! tidx, mr_tracks x !! tidx with
  | Some _, Some _ =>
      let m := track_init (u8 mid) kind direction (u8 codec) sample_rate channels jitter_depth_ms in
      Ok (with_rtc (set_recv x tidx track_recv_init) (with_tracks r (<[tidx := m]> (r_media r)) (S tidx)), mid)
  | _, _ => Fault
  end.
Definition nanortc_add_audio_track x depth direction codec sample_rate channels : res (media_recv * Z) :=
  nanortc_add_track x depth TRACK_AUDIO direction codec sample_rate channels.
Definition nanortc_add_video_track x depth direction codec : res (media_recv * Z) :=
  nanortc_add_track x depth TRACK_VIDEO direction codec 90000 0.

(** * H.265 parameter sets *)

(** The text with the entry, where it goes on, and the code; what was written
    before a refusal stays. *)
Definition h265_sprop_emit (dst : list Z) (pos : nat) (tag nal : list Z) : res (list Z * nat * Z) :=
  if (length dst <? pos + length tag)%nat then Ok (dst, pos, NANORTC_ERR_BUFFER_TOO_SMALL) else
  dst ← wr dst pos tag;
  let pos := (pos + length tag)%nat in
  match nano_base64_encode nal (drop pos dst) with
  | Fault => Fault
  | Err rc => Ok (dst, pos, rc)
  | Ok (text, enc_len) => Ok (take pos dst ++ text, (pos + enc_len)%nat, NANORTC_OK)
  end.
(** The octet of profile_tier_level and the level, at logical offsets 6 and 17 of a
    VPS: those that are not emulation prevention are counted. *)
Fixpoint vps_scan (vps : list Z) (i : nat) (logical : nat) (prev2 prev1 : Z) (ptl0 : option Z) : option Z * Z :=
  match vps with
  | [] => (ptl0, 0)
  | b :: vps =>
      if (2 <=? i)%nat && (prev2 =? 0) && (prev1 =? 0) && (b =? 3) then vps_scan vps (S i) logical prev1 b ptl0
      else if (logical =? 6)%nat then vps_scan vps (S i) (S logical) prev1 b (Some b)
      else if (logical =? 17)%nat then (ptl0, b)
      else vps_scan vps (S i) (S logical) prev1 b ptl0
  end.
Definition ml_set_h265 m x := Mline (ml_kind m) (ml_mid m) (ml_pt m) (ml_remote_pt m) (ml_sample_rate m) (ml_channels m) (ml_codec m) (ml_direction m) (ml_remote_direction m) (ml_active m) (ml_h264_rtpmap_pt m) (ml_twcc_ext_id m) (ml_h265_rtpmap_pt m) x.
Definition with_sprop (h : h265_local) (text : list Z) (n : nat) : h265_local := H265Local text n (hl_profile_id h) (hl_tier_flag h) (hl_level_id h).
(** ["sprop-vps="], [";sprop-sps="], [";sprop-pps="] *)
Definition h265_sprops (dst vps sps pps : list Z) : res (list Z * nat * Z) :=
  '(dst, pos, rc) ← h265_sprop_emit dst 0 (lit "sprop-vps=") vps;
  if negb (rc =? NANORTC_OK) then Ok (dst, pos, rc) else
  '(dst, pos, rc) ← h265_sprop_emit dst pos (lit ";sprop-sps=") sps;
  if negb (rc =? NANORTC_OK) then Ok (dst, pos, rc) else
  h265_sprop_emit dst pos (lit ";sprop-pps=") pps.
Definition set_profile (h : h265_local) (vps : list Z) : h265_local :=
  if (length vps <? 18)%nat then h else
  match vps_scan vps 0 0 255 255 None with
  | (Some ptl0, level) => H265Local (hl_sprop h) (hl_sprop_len h) (Z.land ptl0 0x1F) (Z.land (Z.shiftr ptl0 5) 1) level
  | (None, _) => h
  end.
Definition nanortc_video_set_h265_parameter_sets (x : media_recv) (mid : Z) (vps sps pps : list Z) : res (media_recv * Z) :=
  if (length vps <? H265_NAL_HEADER_SIZE)%nat || (length sps <? H265_NAL_HEADER_SIZE)%nat || (length pps <? H265_NAL_HEADER_SIZE)%nat then Ok (x, NANORTC_ERR_INVALID_PARAM) else
  found ← track_find_by_mid (r_media (mr_rtc x)) (r_media_count (mr_rtc x)) mid;
  match found with
  | None => Ok (x, NANORTC_ERR_INVALID_PARAM)
  | Some i =>
      m ← get_track (mr_rtc x) i;
      if negb (match tr_kind m with TRACK_VIDEO => true | TRACK_AUDIO => false end) || negb (is_h265 (tr_codec m)) then Ok (x, NANORTC_ERR_INVALID_PARAM) else
      line ← sdp_find_mline (mr_sdp x) mid;
      match line with
      | None => Ok (x, NANORTC_ERR_INVALID_PARAM)
      | Some j =>
          let md := sd_media (mr_sdp x) in
          match ms_mlines md !! j with
          | None => Fault
          | Some ml =>
              let put h := with_sdp x (Sdp.with_media (mr_sdp x) (set_mlines md (<[j := ml_set_h265 ml h]> (ms_mlines md)))) in
              '(dst, pos, rc) ← h265_sprops (hl_sprop (ml_h265 ml)) vps sps pps;
              if negb (rc =? NANORTC_OK) then Ok (put (with_sprop (ml_h265 ml) dst (hl_sprop_len (ml_h265 ml))), rc) else
              Ok (put (set_profile (with_sprop (ml_h265 ml) dst pos) vps), NANORTC_OK)
          end
      end
  end.

(** * Direction, statistics, bitrate *)

Definition with_direction (m : nanortc_track) (d : Z) : nanortc_track :=
  Track (tr_mid m) (tr_kind m) d (tr_active m) (tr_rtp m) (tr_rtcp m) (tr_rate_window m) (tr_fraction_lost m) (tr_codec m) (tr_sample_rate m) (tr_channels m) (tr_media m).
Definition nanortc_set_direction (x : media_recv) (mid dir : Z) : res media_recv :=
  found ← track_find_by_mid (r_media (mr_rtc x)) (r_media_count (mr_rtc x)) mid;
  match found with
  | None => Ok x
  | Some i =>
      m ← get_track (mr_rtc x) i;
      let x := set_track x i (with_direction m dir) in
      if tr_direction m =? dir then Ok x else emit x (EvMediaChanged mid (tr_direction m) dir)
  end.

(** [nanortc_track_stats_t] *)
Record track_stats : Type := TrackStats {
  ts_mid : Z; ts_packets_sent : Z; ts_octets_sent : Z; ts_packets_received : Z; ts_packets_lost : Z; ts_jitter : Z; ts_rtt_ms : Z;
  ts_bitrate_bps : Z; ts_estimated_bitrate_bps : Z; ts_send_bitrate_bps : Z; ts_send_fps_q8 : Z; ts_fraction_lost : Z
}.
Definition nanortc_get_track_stats (r : rtc) (mid : Z) : res (rtc * option track_stats) :=
  found ← find_track (fun m => tr_mid m =? mid) (r_media_count r) 0 (r_media r);
  match found with
  | None => Ok (r, None)
  | Some i =>
      m ← get_track r i;
      let c := tr_rtcp m in
      let rtt := if rtcp_last_sr_recv_valid c then nano_time_elapsed (r_now_ms r) (rtcp_last_sr_recv_ms c) else 0 in
      let w := rate_window_roll (tr_rate_window m) (r_now_ms r) in
      let bps := estimated_bitrate (r_bwe r) in
      Ok (put_track r i (with_sent m c w),
          Some (TrackStats mid (rtcp_packets_sent c) (rtcp_octets_sent c) (rtcp_packets_received c) (rtcp_packets_lost c) (rtcp_jitter c) rtt
                  bps bps (prev_bps w) (prev_fps_q8 w) (tr_fraction_lost m)))
  end.
Definition nanortc_get_estimated_bitrate (r : rtc) : Z := bwe_get_bitrate (r_bwe r).
Definition nanortc_set_bitrate_bounds (r : rtc) (min_bps max_bps : Z) : res (rtc * Z) :=
  match bwe_set_bounds (r_bwe r) min_bps max_bps with
  | Ok b => Ok (with_bwe r b, NANORTC_OK)
  | Err e => Ok (r, e)
  | Fault => Fault
  end.
Definition nanortc_set_initial_bitrate (r : rtc) (bps : Z) : rtc * Z := (with_bwe r (bwe_set_initial_bitrate (r_bwe r) bps), NANORTC_OK).
Definition nanortc_set_bwe_event_threshold (r : rtc) (pct : Z) : rtc * Z :=
  if 100 <? pct then (r, NANORTC_ERR_INVALID_PARAM) else
  let b := r_bwe r in
  (with_bwe r (NanoBwe (estimated_bitrate b) (prev_event_bitrate b) (bwe_last_update_ms b) (remb_count b) (twcc_count b) (smoothed_loss_q8 b) (runtime_min_bps b) (runtime_max_bps b) pct), NANORTC_OK).

(** * Properties of the VPS scan *)

(** The payload of a NAL unit without its emulation prevention octets: every 3
    after two zeroes of the unit (H.265, 7.4.1.1). *)
Fixpoint unescape (zeros : nat) (l : list Z) : list Z :=
  match l with
  | [] => []
  | b :: l => if (2 <=? zeros)%nat && (b =? 3) then unescape 0 l else b :: unescape (if b =? 0 then S zeros else 0) l
  end.
Definition zeros_seen (zeros : nat) (i : nat) (prev2 prev1 : Z) : Prop :=
  ((1 <= zeros)%nat <-> prev1 = 0) /\ ((2 <= zeros)%nat <-> prev1 = 0 /\ prev2 = 0) /\ (prev1 = 0 -> (1 <= i)%nat) /\ (prev1 = 0 -> prev2 = 0 -> (2 <= i)%nat).
Lemma zeros_step zeros i prev2 prev1 b :
  zeros_seen zeros i prev2 prev1 -> zeros_seen (if b =? 0 then S zeros else 0) (S i) prev1 b.
Proof. unfold zeros_seen. intros (H1 & H2 & H3 & H4). destruct (Z.eqb_spec b 0); lia. Qed.
Lemma vps_scan_loop l : forall i logical prev2 prev1 zeros ptl0,
  zeros_seen zeros i prev2 prev1 -> (logical <= 17)%nat -> (17 < logical + length (unescape zeros l))%nat ->
  vps_scan l i logical prev2 prev1 ptl0 =
    (if (logical <=? 6)%nat then unescape zeros l !! (6 - logical)%nat else ptl0, nth (17 - logical) (unescape zeros l) 0).
Proof.
  induction l as [|b l IH]; intros i logical prev2 prev1 zeros ptl0 Hz Hlog Hlen; cbn [unescape vps_scan] in *; [cbn in Hlen; lia|].
  assert ((2 <=? i)%nat && (prev2 =? 0) && (prev1 =? 0) && (b =? 3) = (2 <=? zeros)%nat && (b =? 3)) as ->.
  { destruct Hz as (H1 & H2 & H3 & H4). destruct (b =? 3); [|by rewrite !andb_false_r]. rewrite !andb_true_r.
    destruct (Nat.leb_spec 2 i), (Z.eqb_spec prev2 0), (Z.eqb_spec prev1 0), (Nat.leb_spec 2 zeros); cbn; try done; lia. }
  destruct (Nat.leb_spec 2 zeros) as [H2|H2], (Z.eqb_spec b 3) as [Hb|Hb]; cbn [andb] in *.
  1:{ apply IH; [|done..]. unfold zeros_seen. lia. }
  all: pose proof (zeros_step _ _ _ _ b Hz) as Hz'; cbn [length] in Hlen.
  all: destruct (Nat.eqb_spec logical 6) as [->|H6]; [erewrite IH by first [exact Hz' | lia]; reflexivity|].
  all: destruct (Nat.eqb_spec logical 17) as [->|H17]; [done|].
  all: erewrite IH by first [exact Hz' | lia]; replace (17 - logical)%nat with (S (17 - S logical)) by lia; cbn [nth]; f_equal.
  all: destruct (Nat.leb_spec logical 6), (Nat.leb_spec (S logical) 6); try lia; [|done].
  all: by replace (6 - logical)%nat with (S (6 - S logical)) by lia.
Qed.
(** The profile, tier and level that the SDP advertises are those at the logical
    offsets of the VPS, wherever emulation prevention octets are inserted. *)
Lemma set_profile_spec h vps : (18 <= length (unescape 0 vps))%nat ->
  let ptl := nth 6 (unescape 0 vps) 0 in
  set_profile h vps = H265Local (hl_sprop h) (hl_sprop_len h) (Z.land ptl 0x1F) (Z.land (Z.shiftr ptl 5) 1) (nth 17 (unescape 0 vps) 0).
Proof.
  intros Hl ptl. assert (forall l z, (length (unescape z l) <= length l)%nat) as Hle.
  { induction l as [|b l IH]; intros z; cbn [unescape]; [done|]. destruct (_ && _); cbn [length]; [pose proof (IH 0%nat); lia|]. pose proof (IH (if (b =? 0)%Z then S z else 0%nat)). lia. }
  unfold set_profile. rewrite (proj2 (Nat.ltb_ge _ _)) by (pose proof (Hle vps 0%nat); lia).
  rewrite (vps_scan_loop vps 0 0 255 255 0 None) by (unfold zeros_seen; lia). cbn [Nat.leb Nat.sub].
  destruct (lookup_lt_is_Some_2 (unescape 0 vps) 6) as [p Hp]; [lia|]. unfold ptl. rewrite Hp, (nth_lookup_Some _ _ _ _ Hp). done.
Qed.
