(* ===== verification/VideoReceive.v ===== *)
(** From the peer's datagrams to the application: the SRTP packets of H.264
    frames, handed in one after the other with a poll after each, come out as
    the frames' NAL units. *)

From Stdlib Require Import ZArith Lia.
From stdpp Require Import base gmap list numbers.
From S2P Require Import Prelude Wire Sdp Stun Ice Turn TurnRequests TurnHistory Fragment AnnexB H264 H265 Jitter Srtp Rtp Rtcp Bwe Media OutQueue OutQueueFifo OutQueueSpec OutQueueSteps VideoSend VideoSteps VideoFrame VideoAdmit MediaSend SendPath MediaRecv.

Local Open Scope Z_scope.

(** * What the application reads *)

(** The octets behind the pointer of a media event. *)
Definition media_octets (x : media_recv) (e : rtc_event) : res (list Z) :=
  match e with
  | EvMediaData _ _ _ (DepktBuf i) len _ _ =>
      m ← get_track (mr_rtc x) i;
      match tr_media m with
      | VideoH264 d => rdn (d_buf d) 0 len
      | VideoH265 d => rdn (hd_buf d) 0 len
      | AudioMedia _ _ => Fault
      end
  | EvMediaData _ _ _ (MediaBuf i) len _ _ => t ← get_recv x i; rdn (tv_media_buf t) 0 len
  | _ => Ok []
  end.
(** A unit handed out lies at the start of the depacketizer's buffer. *)
Lemma depkt_out_buf d n : depkt_out d = Ok (Some n) -> rdn (d_buf d) 0 (length n) = Ok n.
Proof.
  unfold depkt_out. intros H. bind_inv H. injection H as <-. by rewrite (rdn_length _ _ _ _ Hx).
Qed.
Lemma push_fua_buf d p d1 rc n : h264_push_fua d p = Ok (d1, rc, Some n) -> rdn (d_buf d1) 0 (length n) = Ok n.
Proof.
  unfold h264_push_fua. cbv zeta. intros H. do 3 bind_inv H. destruct (negb _); [|destruct (d_in_progress d); [|done]].
  - bind_inv H. destruct (_ <? _)%nat; [done|]. bind_inv H. destruct (negb _); [|done]. bind_inv H. injection H as <- _ ->. by apply depkt_out_buf.
  - destruct (_ <? _)%nat; [done|]. bind_inv H. destruct (negb _); [|done]. bind_inv H. injection H as <- _ ->. by apply depkt_out_buf.
Qed.
Lemma push_buf d p d1 rc n : h264_depkt_push d p = Ok (d1, rc, Some n) -> rdn (d_buf d1) 0 (length n) = Ok n.
Proof.
  unfold h264_depkt_push. cbv zeta. intros H. destruct (_ =? 0)%nat; [done|]. bind_inv H. destruct (_ && _); [|destruct (_ =? H264_NAL_STAPA); [|destruct (_ =? H264_NAL_FUA); [|done]]].
  - destruct (_ <? _)%nat; [done|]. do 2 bind_inv H. injection H as <- _ ->. by apply depkt_out_buf.
  - bind_inv H. destruct x0 as [[rc' b] pos]. destruct (negb _); [done|]. destruct (_ <? _)%nat; [|done]. bind_inv H. injection H as <- _ ->. by apply depkt_out_buf.
  - destruct (_ <? _)%nat; [done|]. by apply push_fua_buf in H.
Qed.

(** * Sessions in step *)

(** The receiver's estimate of the rollover counter for [seq] is its own counter. *)
Definition estimates (rs : ssrc_state) (seq : Z) : Prop :=
  (ss_seq_max rs <= seq <= ss_seq_max rs + 0x4000) \/ (ss_seq_max rs = 0 /\ ss_roc rs = 0).
Lemma estimates_next rs seq : is_u16 seq -> estimates rs seq ->
  estimate_roc rs seq = ss_roc rs /\ ss_roc (accept rs seq) = ss_roc rs /\ estimates (accept rs seq) (seq + 1).
Proof.
  intros Hq He. assert (estimate_roc rs seq = ss_roc rs) as Hr.
  { unfold estimate_roc. destruct He as [He|[-> ->]]; [|done]. rewrite i16_small by lia. destruct (_ || _); [|done].
    rewrite (proj2 (Z.ltb_ge _ _)) by lia. by rewrite (proj2 (Z.ltb_ge 0x4000 _)) by lia. }
  split; [done|]. unfold accept. rewrite Hr, Z.ltb_irrefl, Z.eqb_refl. cbn [orb andb].
  destruct (Z.ltb_spec 0 (i16 (seq - ss_seq_max rs))) as [Hp|Hp]; (split; [done|]); unfold estimates; cbn [ss_seq_max ss_roc]; [lia|].
  destruct He as [He|He]; [|by right]. rewrite i16_small in Hp by lia. lia.
Qed.
(** The sender's session and the receiver's before the packet [seq] of a stream. *)
Record in_step (snd rcv : nano_srtp) (ssrc seq : Z) : Prop := {
  is_sender : session_ok snd;
  is_receiver : session_ok rcv;
  is_keys : keys_match (sr_keys snd) (sr_keys rcv);
  is_counter : exists ss rs, starts (ssrc_states snd) ssrc ss /\ starts (ssrc_states rcv) ssrc rs /\ ss_roc rs = ss_roc ss /\ estimates rs seq
}.
(** The stream's identity and its next packet. *)
Definition stream_at (rtp : nano_rtp) (ssrc pt seq : Z) : Prop :=
  u32 (rtp_ssrc rtp) = ssrc /\ rtp_payload_type rtp mod 128 = pt /\ u16 (rtp_seq rtp) = seq.
Lemma stream_marker rtp mk ssrc pt seq : stream_at rtp ssrc pt seq -> stream_at (set_marker rtp mk) ssrc pt seq.
Proof. done. Qed.
Lemma stream_next rtp ssrc pt seq : stream_at rtp ssrc pt seq -> seq < 65535 -> stream_at (rtp_next rtp) ssrc pt (seq + 1).
Proof. intros (H1 & H2 & H3) Hs. split_and!; [done | done|]. cbn. pose proof (u16_range (rtp_seq rtp)). subst seq. mach. Qed.

Section Receive.
Context (aes_128_cm : list Z -> list Z -> list Z -> Z * list Z) (hmac_sha1_80 : list Z -> list Z -> list Z).
Context (Laws : provider_laws aes_128_cm hmac_sha1_80).

Lemma sealed_unprotect snd rcv rtp ts p d snd' ssrc pt seq : in_step snd rcv ssrc seq -> stream_at rtp ssrc pt seq -> bytes p -> seq < 65535 ->
  sealed aes_128_cm hmac_sha1_80 snd rtp ts p d snd' ->
  exists rcv' t, nano_srtp_unprotect aes_128_cm hmac_sha1_80 rcv d (length d) = Ok (rcv', rtp_header rtp ts ++ p ++ t, inr (rtp_header_len rtp + length p)%nat) /\
    in_step snd' rcv' ssrc (seq + 1).
Proof using Laws.
  intros [Hs Hr Hk (ss & rs & Hss & Hrs & Hroc & He)] (E1 & _ & E3) Hp Hlt Hse. pose proof (sealed_length _ _ Laws _ _ _ _ _ _ Hs Hp Hse) as Hl.
  destruct Hse as [(ss' & Hss' & -> & Htr) Hkeys _ Hok]. rewrite E1, E3 in *. assert (is_u16 seq) as Hq by (rewrite <- E3; apply u16_range).
  assert (ss' = ss) as -> by (eapply starts_fun; [apply (so_table _ Hs) | done..]).
  pose proof (rtp_header_datagram rtp ts p Hp) as Hd. rewrite E1, E3 in Hd. destruct (estimates_next rs seq Hq He) as (Hest & Hroc' & He').
  set (c := protected_body aes_128_cm snd p seq ssrc ss). set (t := protected_tag aes_128_cm hmac_sha1_80 snd (rtp_header rtp ts) p seq ssrc ss).
  assert (length t = NANORTC_SRTP_AUTH_TAG_SIZE) as Ht by (apply (tag_length _ _ Laws)).
  destruct (unprotect_protected_eq _ _ Laws snd rcv (rtp_header rtp ts) p seq ssrc ss rs Hs Hr Hk Hd t [] Ht Hrs ltac:(congruence)) as (r' & Hrun & Hr' & Hkr & Htr' & _).
  fold t in Hrun, Htr'. rewrite bool_decide_eq_true_2 in Hrun, Htr' by done. exists r', t. split.
  - rewrite app_nil_r in Hrun. rewrite Hl, <- (rtp_header_length rtp ts). exact Hrun.
  - constructor; [done | done | by rewrite Hkeys, Hkr|]. exists (advance ss seq), (accept rs seq). split; [by left|]. split; [by left|]. split; [|done].
    rewrite Hroc', Hroc. unfold advance. cbn [ss_roc]. by rewrite (proj2 (Z.eqb_neq _ _)) by lia.
Qed.
Lemma second_octet rtp ts rest : (exists v, rd8 (rtp_header rtp ts ++ rest) 1 = Ok v /\ (200 <=? v) && (v <=? 211) = true) -> 72 <= rtp_payload_type rtp mod 128 <= 83.
Proof using Type.
  intros (v & Hv & Hc). unfold rtp_header, rd8 in Hv. cbn [app lookup list_lookup] in Hv. injection Hv as <-. apply andb_true_iff in Hc as [H1 H2]. bool_facts.
  change 0x7F with (Z.ones 7) in *. rewrite Z.land_ones in * by lia. change (2 ^ 7) with 128 in *. pose proof (Z.mod_pos_bound (rtp_payload_type rtp) 128 ltac:(lia)) as Hb.
  set (q := rtp_payload_type rtp mod 128) in *. destruct (rtp_marker rtp =? 0).
  - rewrite Z.lor_0_l, u8_id in H1 by (unfold is_u8; lia). lia.
  - assert (Z.lor 0x80 q = 128 + q) as E by (change 0x80 with (Z.shiftl 1 7); rewrite lor_shiftl_add; [done | lia | change (2 ^ 7) with 128; lia]).
    rewrite E, u8_id in H1, H2 by (unfold is_u8; lia). lia.
Qed.

(** * Tracks and their streams *)

(** The m-line of a track takes the payload type, or not. *)
Definition takes (x : media_recv) (pt : Z) (m : nanortc_track) : Prop :=
  tr_active m = true /\ exists j ml, sdp_find_mline (mr_sdp x) (tr_mid m) = Ok (Some j) /\ ms_mlines (sd_media (mr_sdp x)) !! j = Some ml /\ ml_remote_pt ml = pt.
Definition passes (x : media_recv) (pt : Z) (m : nanortc_track) : Prop :=
  tr_active m = false \/ sdp_find_mline (mr_sdp x) (tr_mid m) = Ok None \/
  exists j ml, sdp_find_mline (mr_sdp x) (tr_mid m) = Ok (Some j) /\ ms_mlines (sd_media (mr_sdp x)) !! j = Some ml /\ ml_remote_pt ml <> pt.
(** Track [i] is the first to take it. *)
Definition first_with (x : media_recv) (pt : Z) (i : nat) : Prop :=
  (i < r_media_count (mr_rtc x))%nat /\ (exists m, r_media (mr_rtc x) !! i = Some m /\ takes x pt m) /\
  forall k, (k < i)%nat -> exists m, r_media (mr_rtc x) !! k = Some m /\ passes x pt m.
(** What [discover] does once it is at the track. *)
Definition found_at (x : media_recv) (i : nat) (m : nanortc_track) (ssrc : Z) : res (media_recv * Z) :=
  x ← restart_track x i m ssrc;
  '(map, _) ← ssrc_map_register (mr_ssrc_map x) NANORTC_MAX_SSRC_MAP ssrc (tr_mid m);
  mc ← get_track (mr_rtc x) i;
  Ok (set_track (with_ssrc_map x map) i (with_rtcp mc (set_remote_ssrc (tr_rtcp mc) ssrc)), tr_mid mc).
Lemma get_track_Ok r i m : r_media r !! i = Some m -> get_track r i = Ok m.
Proof using Type. intros H. unfold get_track. by rewrite H. Qed.
Lemma discover_first x pt ssrc i m : r_media (mr_rtc x) !! i = Some m -> takes x pt m -> forall k j, (j <= i < j + k)%nat ->
  (forall n, (j <= n < i)%nat -> exists mn, r_media (mr_rtc x) !! n = Some mn /\ passes x pt mn) -> discover k j x pt ssrc = found_at x i m ssrc.
Proof using Type.
  intros Hm (Ha & l & ml & Hl & Hml & Hpt) k. induction k as [|k IH]; intros j Hj Hpass; [lia|]. cbn [discover]. destruct (decide (j = i)) as [->|Hne].
  - rewrite (get_track_Ok _ _ _ Hm), bind_Ok, Ha. cbn [negb]. rewrite Hl, bind_Ok, Hml, Hpt, Z.eqb_refl. done.
  - destruct (Hpass j ltac:(lia)) as (mn & Hn & Hp). rewrite (get_track_Ok _ _ _ Hn), bind_Ok. assert (discover k (S j) x pt ssrc = found_at x i m ssrc) as IH' by (apply IH; [lia|]; intros n ?; apply Hpass; lia).
    destruct Hp as [-> | [Hf | (j' & ml' & Hf & Hml' & Hne')]]; [done | |]; (destruct (tr_active mn); [|done]); cbn [negb]; rewrite Hf, bind_Ok; [done|].
    rewrite Hml', (proj2 (Z.eqb_neq _ _)) by done. done.
Qed.

(** ** The receiving end *)

(** The track, its depacketizer at [d], before packet [seq] of the stream [ssrc]. *)
Record track_ready (x : media_recv) (i : nat) (mid own_pt : Z) (d : nano_h264_depkt) (m : nanortc_track) : Prop := {
  td_track : r_media (mr_rtc x) !! i = Some m;
  td_kind : tr_kind m = TRACK_VIDEO; td_mid : tr_mid m = mid; td_active : tr_active m = true; td_pt : rtp_payload_type (tr_rtp m) = own_pt;
  td_codec : is_h265 (tr_codec m) = false; td_media : tr_media m = VideoH264 d; td_depkt : depkt_ok d
}.
Definition settled (x : media_recv) (i : nat) (mid ssrc : Z) : Prop :=
  ssrc_map_lookup (mr_ssrc_map x) NANORTC_MAX_SSRC_MAP ssrc = Ok mid \/ exists m, r_media (mr_rtc x) !! i = Some m /\ rtcp_remote_ssrc (tr_rtcp m) = ssrc.
Record receiving (s : sending) (x : media_recv) (i : nat) (mid own_pt ssrc pt seq : Z) (d : nano_h264_depkt) : Prop := {
  rc_sending : exists es, represents (mr_rtc x) es s;
  rc_track : exists m, track_ready x i mid own_pt d m;
  rc_find : track_find_by_mid (r_media (mr_rtc x)) (r_media_count (mr_rtc x)) mid = Ok (Some i) /\ is_u8 mid;
  rc_seq : exists t, mr_tracks x !! i = Some t /\ tv_lost_pending t = false /\ (tv_seq_inited t = false \/ i16 (seq - tv_last_seq t) = 1);
  rc_map : distinct_ssrcs (mr_ssrc_map x) /\ length (mr_ssrc_map x) = NANORTC_MAX_SSRC_MAP;
  rc_route : ssrc_map_lookup (mr_ssrc_map x) NANORTC_MAX_SSRC_MAP ssrc = Ok mid \/
    (ssrc_map_lookup (mr_ssrc_map x) NANORTC_MAX_SSRC_MAP ssrc = Ok (-1) /\ first_with x pt i)
}.

Lemma find_mid_insert media mid i m m' : media !! i = Some m -> tr_active m' = tr_active m -> tr_mid m' = tr_mid m -> forall n k, find_mid_loop n k (<[i := m']> media) mid = find_mid_loop n k media mid.
Proof using Type.
  intros Hm Ha Hi n. induction n as [|n IH]; intros k; cbn [find_mid_loop]; [done|]. rewrite IH. destruct (decide (k = i)) as [->|Hne].
  - rewrite list_lookup_insert_eq, Hm, Ha, Hi by (by eapply lookup_lt_Some). done.
  - by rewrite list_lookup_insert_ne.
Qed.
Lemma first_insert x x' pt i m m' : mr_sdp x' = mr_sdp x -> r_media_count (mr_rtc x') = r_media_count (mr_rtc x) -> r_media (mr_rtc x) !! i = Some m -> r_media (mr_rtc x') = <[i := m']> (r_media (mr_rtc x)) ->
  tr_active m' = tr_active m -> tr_mid m' = tr_mid m -> first_with x pt i -> first_with x' pt i.
Proof using Type.
  intros Es Ec Hm Em Ha Hi (H1 & (m0 & Hm0 & Ht) & H3). assert (m0 = m) as -> by congruence. split; [by rewrite Ec|]. split.
  - exists m'. rewrite Em, list_lookup_insert_eq by (by eapply lookup_lt_Some). split; [done|]. unfold takes. by rewrite Es, Ha, Hi.
  - intros k Hk. destruct (H3 k Hk) as (mk & Hmk & Hp). exists mk. rewrite Em, list_lookup_insert_ne by lia. split; [done|]. unfold passes. by rewrite Es.
Qed.
(** The SSRC table still holds, and knows of this stream what it knew, or its track. *)
Definition knows_streams (x x' : media_recv) (mid ssrc : Z) : Prop :=
  distinct_ssrcs (mr_ssrc_map x') /\ length (mr_ssrc_map x') = NANORTC_MAX_SSRC_MAP /\
  (ssrc_map_lookup (mr_ssrc_map x') NANORTC_MAX_SSRC_MAP ssrc = Ok mid \/
   ssrc_map_lookup (mr_ssrc_map x') NANORTC_MAX_SSRC_MAP ssrc = ssrc_map_lookup (mr_ssrc_map x) NANORTC_MAX_SSRC_MAP ssrc).
Lemma knows_same s x x' i mid own_pt ssrc pt seq d : receiving s x i mid own_pt ssrc pt seq d -> mr_ssrc_map x' = mr_ssrc_map x -> knows_streams x x' mid ssrc.
Proof using Type. intros H E. unfold knows_streams. rewrite E. destruct (rc_map _ _ _ _ _ _ _ _ _ H). split_and!; [done | done | by right]. Qed.
(** The state after a step that touches this track alone. *)
Lemma receiving_step s s' x x' i mid own_pt ssrc pt seq seq' d d' es' m m' t' :
  receiving s x i mid own_pt ssrc pt seq d -> represents (mr_rtc x') es' s' -> mr_sdp x' = mr_sdp x -> r_media_count (mr_rtc x') = r_media_count (mr_rtc x) ->
  track_ready x i mid own_pt d m -> r_media (mr_rtc x') = <[i := m']> (r_media (mr_rtc x)) ->
  (tr_kind m' = tr_kind m /\ tr_mid m' = tr_mid m /\ tr_active m' = tr_active m /\ tr_rtp m' = tr_rtp m /\ tr_codec m' = tr_codec m) -> tr_media m' = VideoH264 d' -> depkt_ok d' ->
  mr_tracks x' !! i = Some t' -> tv_lost_pending t' = false -> (tv_seq_inited t' = false \/ i16 (seq' - tv_last_seq t') = 1) ->
  knows_streams x x' mid ssrc ->
  receiving s' x' i mid own_pt ssrc pt seq' d'.
Proof using Type.
  intros [_ _ [Hf Hu] _ [Hd Hl] Hroute] Hrep Es Ec [T1 T2 T3 T4 T5 T6 T7 T8] Em (M1 & M2 & M3 & M4 & M5) Hmed Hdep Ht Hlp Hsq Hmap.
  assert (track_find_by_mid (r_media (mr_rtc x')) (r_media_count (mr_rtc x')) mid = Ok (Some i)) as Hf'.
  { unfold track_find_by_mid. rewrite Ec, Em. by rewrite (find_mid_insert _ mid i m m' T1 M3 M2). }
  constructor; [by eexists | | done | by exists t' | |].
  - exists m'. constructor; try congruence. rewrite Em. apply list_lookup_insert_eq. by eapply lookup_lt_Some.
  - by destruct Hmap as (? & ? & _).
  - destruct Hmap as (_ & _ & [? | ->]); [by left|]. destruct Hroute as [|[Hn H1]]; [by left|]. right. split; [done|]. by apply (first_insert x x' pt i m m').
Qed.

Lemma restart_ready s x i mid own_pt ssrc pt seq d m : receiving s x i mid own_pt ssrc pt seq d -> track_ready x i mid own_pt d m ->
  exists x1 m1 d1, restart_track x i m ssrc = Ok x1 /\ receiving s x1 i mid own_pt ssrc pt seq d1 /\ track_ready x1 i mid own_pt d1 m1 /\
    r_srtp (mr_rtc x1) = r_srtp (mr_rtc x) /\ mr_ssrc_map x1 = mr_ssrc_map x /\ (rtcp_remote_ssrc (tr_rtcp m) = ssrc -> d1 = d).
Proof using Type.
  intros H Hm. pose proof Hm as [T1 T2 T3 T4 T5 T6 T7 T8]. unfold restart_track. rewrite T2. destruct (negb _ && _) eqn:Hc; [|by exists x, m, d].
  destruct (rc_seq _ _ _ _ _ _ _ _ _ H) as (t & Ht & _). unfold get_recv. rewrite Ht, bind_Ok, T6.
  set (t1 := TrackRecv _ _ _ _ _ _). set (m1 := with_media_state m _). destruct (rc_sending _ _ _ _ _ _ _ _ _ H) as (es & Hrep).
  assert (depkt_ok h264_depkt_init) as Hi by (unfold depkt_ok, h264_depkt_init; cbn [d_buf d_len d_in_progress]; rewrite length_replicate; split; [done | split; [lia | done]]).
  assert (receiving s (set_track (set_recv x i t1) i m1) i mid own_pt ssrc pt seq h264_depkt_init) as H1.
  { eapply (receiving_step s s x _ i mid own_pt ssrc pt seq seq d _ es m m1 t1); try done; [by apply represents_media | | by left | by eapply knows_same].
    cbn. apply list_lookup_insert_eq. by eapply lookup_lt_Some. }
  exists (set_track (set_recv x i t1) i m1), m1, h264_depkt_init. split; [done|]. split; [exact H1|]. split; [|split; [done|]; split; [done|]].
  - constructor; try done. cbn. apply list_lookup_insert_eq. by eapply lookup_lt_Some.
  - intros E. rewrite E, Z.eqb_refl, andb_false_r in Hc. done.
Qed.
Lemma register_knows x x' i mid own_pt s ssrc pt seq d : receiving s x i mid own_pt ssrc pt seq d ->
  exists map rc, ssrc_map_register (mr_ssrc_map x) NANORTC_MAX_SSRC_MAP ssrc mid = Ok (map, rc) /\ (mr_ssrc_map x' = map -> knows_streams x x' mid ssrc).
Proof using Type.
  intros H. destruct (rc_map _ _ _ _ _ _ _ _ _ H) as [Hd Hl]. destruct (register_refines (mr_ssrc_map x) ssrc mid Hd) as (map & rc & Hrun & Hreg & Hd' & Hl').
  rewrite Hl in *. exists map, rc. split; [done|]. intros E. unfold knows_streams. rewrite E. split; [done|]. split; [done|].
  pose proof (lookup_refines map ssrc Hd') as H1. pose proof (lookup_refines (mr_ssrc_map x) ssrc Hd) as H2. rewrite Hl' in H1. rewrite Hl in H2. rewrite H1, H2.
  unfold map_register in Hreg. unfold map_lookup. destruct (_ || _); injection Hreg as <- _; [left; by rewrite lookup_insert_eq | by right].
Qed.
Lemma stream_found s x i mid own_pt ssrc pt seq d : receiving s x i mid own_pt ssrc pt seq d ->
  exists x1 d1, stream_mid x pt ssrc = Ok (x1, mid) /\ receiving s x1 i mid own_pt ssrc pt seq d1 /\ settled x1 i mid ssrc /\
    r_srtp (mr_rtc x1) = r_srtp (mr_rtc x) /\ (settled x i mid ssrc -> d1 = d).
Proof using Type.
  intros H. pose proof (rc_find _ _ _ _ _ _ _ _ _ H) as [_ Hu]. unfold stream_mid. destruct (rc_route _ _ _ _ _ _ _ _ _ H) as [Hr|[Hr (Hi & (m & Hm & Ht) & Hb)]]; rewrite Hr, bind_Ok.
  { unfold is_u8 in Hu. rewrite (proj2 (Z.ltb_ge _ _)) by lia. exists x, d. split; [done|]. split; [done|]. split; [by left | done]. }
  cbn [Z.ltb Z.compare]. rewrite (discover_first x pt ssrc i m Hm Ht _ 0) by first [lia | intros n Hn; apply Hb; lia].
  destruct (rc_track _ _ _ _ _ _ _ _ _ H) as (m0 & Hm0). assert (m0 = m) as -> by (pose proof (td_track _ _ _ _ _ _ Hm0); congruence).
  destruct (restart_ready _ _ _ _ _ _ _ _ _ _ H Hm0) as (x1 & m1 & d1 & Hrun & H1 & Hm1 & Es & Em & Hd). unfold found_at. rewrite Hrun, bind_Ok, (td_mid _ _ _ _ _ _ Hm0).
  set (m2 := with_rtcp m1 (set_remote_ssrc (tr_rtcp m1) ssrc)).
  destruct (register_knows x1 (set_track (with_ssrc_map x1 (match ssrc_map_register (mr_ssrc_map x1) NANORTC_MAX_SSRC_MAP ssrc mid with Ok (map, _) => map | _ => [] end)) i m2) i mid own_pt s ssrc pt seq d1 H1) as (map & rc & Hreg & Hk).
  rewrite Hreg in Hk. rewrite Hreg, bind_Ok, (get_track_Ok _ _ _ (td_track _ _ _ _ _ _ Hm1)), bind_Ok, (td_mid _ _ _ _ _ _ Hm1). fold m2.
  destruct (rc_sending _ _ _ _ _ _ _ _ _ H1) as (es & Hrep). destruct (rc_seq _ _ _ _ _ _ _ _ _ H1) as (t & Ht' & Hlp & Hsq).
  eexists _, d1. split; [reflexivity|]. split; [|split; [|split; [done|]]].
  - eapply (receiving_step s s x1 _ i mid own_pt ssrc pt seq seq d1 d1 es m1 m2 t); try done; [by apply represents_media | by apply (td_media _ _ _ _ _ _ Hm1) | by apply (td_depkt _ _ _ _ _ _ Hm1) | by apply Hk].
  - right. exists m2. split; [|done]. cbn. apply list_lookup_insert_eq. eapply lookup_lt_Some, (td_track _ _ _ _ _ _ Hm1).
  - intros [Hmap | (m3 & Hm3 & Hs)]; [rewrite Hr in Hmap; injection Hmap as <-; unfold is_u8 in Hu; lia|]. apply Hd. congruence.
Qed.

(** * One packet *)

(** What the application gets to see of the depacketizer's output. *)
Definition unit_event (mid own_pt ts : Z) (i : nat) (out : option (list Z)) : option rtc_event :=
  option_map (fun nalu => EvMediaData mid own_pt ts (DepktBuf i) (length nalu) true (is_idr nalu)) out.
Definition whole_unit (nalu : list Z) : Prop := (1 <= length nalu)%nat /\ 1 <= Z.land (nth 0 nalu 0) H264_NAL_TYPE_MASK <= 23.
Definition queued (e : option rtc_event) : sending := Sending (match e with Some e => [ItEvent e] | None => [] end) [] [].
Lemma emit_queued x es e : represents (mr_rtc x) es idle -> is_payload e = true ->
  exists r es', emit x e = Ok (with_rtc x r) /\ represents r es' (queued (Some e)) /\ same_env (mr_rtc x) r.
Proof using Type.
  intros H He. pose proof (emit_event_refines (mr_rtc x) es idle e H) as Hs. unfold spec_event in Hs. rewrite He in Hs. cbn [negb andb queue_full sn_queue idle length Nat.leb] in Hs.
  destruct Hs as (r & es' & Hrun & Hrep & Henv). exists r, es'. unfold emit. rewrite Hrun, bind_Ok. done.
Qed.
Lemma note_seq_in_order t seq : tv_lost_pending t = false -> (tv_seq_inited t = false \/ i16 (seq - tv_last_seq t) = 1) ->
  exists t', note_seq t seq = (t', false) /\ tv_lost_pending t' = false /\ tv_seq_inited t' = true /\ tv_last_seq t' = seq.
Proof using Type. intros Hl [Hi|Ha]; unfold note_seq; [rewrite Hi | rewrite Ha; destruct (tv_seq_inited t)]; eexists; (split; [reflexivity|]); done. Qed.
Lemma push_unit m d p d1 out own_pt : tr_media m = VideoH264 d -> rtp_payload_type (tr_rtp m) = own_pt -> h264_depkt_push d p = Ok (d1, NANORTC_OK, out) -> (forall n, out = Some n -> whole_unit n) ->
  push_payload m p = Ok (with_media_state m (VideoH264 d1), option_map (fun n => (n, is_idr n)) out).
Proof using Type.
  intros Hm _ Hp Hw. unfold push_payload. rewrite Hm, Hp. destruct out as [n|]; [|done]. destruct (Hw n eq_refl) as [Hl Ht]. rewrite Z.eqb_refl, (proj2 (Nat.ltb_lt _ _)) by lia. cbn [andb].
  by rewrite (h264_is_keyframe_unit n Hl Ht).
Qed.
Lemma route_packet x i mid own_pt ssrc pt seq ts p d d1 out : receiving idle x i mid own_pt ssrc pt seq d -> settled x i mid ssrc ->
  is_u16 seq -> h264_depkt_push d p = Ok (d1, NANORTC_OK, out) -> depkt_ok d1 -> (forall n, out = Some n -> whole_unit n) ->
  exists x', route_rtp aes_128_cm hmac_sha1_80 x i seq ts ssrc p = Ok x' /\ receiving (queued (unit_event mid own_pt ts i out)) x' i mid own_pt ssrc pt (seq + 1) d1 /\
    settled x' i mid ssrc /\ r_srtp (mr_rtc x') = r_srtp (mr_rtc x).
Proof using Type.
  intros H Hset Hq Hp Hd1 Hw. destruct (rc_track _ _ _ _ _ _ _ _ _ H) as (m & Hm). pose proof Hm as [T1 T2 T3 T4 T5 T6 T7 T8].
  destruct (rc_seq _ _ _ _ _ _ _ _ _ H) as (t & Ht & Hlp & Hsq). destruct (note_seq_in_order t seq Hlp Hsq) as (t' & Hn & Hlp' & Hi' & Hl').
  destruct (rc_sending _ _ _ _ _ _ _ _ _ H) as (es & Hrep). assert (i < length (r_media (mr_rtc x)))%nat as Hlt by (by eapply lookup_lt_Some).
  assert (i < length (mr_tracks x))%nat as Hlt' by (by eapply lookup_lt_Some).
  set (m1 := with_rtcp m (note_rtp (tr_rtcp m) seq ssrc)). set (m2 := with_media_state m1 (VideoH264 d1)).
  unfold route_rtp. rewrite (get_track_Ok _ _ _ T1), bind_Ok. cbv zeta. fold m1. change (tr_kind m1) with (tr_kind m). rewrite T2.
  change (get_recv (set_track x i m1) i) with (get_recv x i). unfold get_recv at 1. rewrite Ht, bind_Ok, Hn. unfold rtc_video_deliver. cbn [rtc_video_on_lost negb]. rewrite bind_Ok.
  set (x1 := set_recv (set_track x i m1) i t'). unfold rtc_video_complete_event.
  assert (r_media (mr_rtc x1) !! i = Some m1) as Hm1 by (apply list_lookup_insert_eq; done). rewrite (get_track_Ok _ _ _ Hm1), bind_Ok.
  rewrite (push_unit m1 d p d1 out own_pt T7 T5 Hp Hw), bind_Ok. fold m2. set (x2 := set_track x1 i m2).
  assert (r_media (mr_rtc x2) = <[i := m2]> (r_media (mr_rtc x))) as Em by (apply list_insert_insert_eq).
  assert (mr_tracks x2 !! i = Some t') as Et by (apply list_lookup_insert_eq; done).
  assert (represents (mr_rtc x2) es idle) as Hrep2 by (by apply represents_media, represents_media).
  assert (forall y es' o, represents (mr_rtc y) es' (queued o) -> mr_sdp y = mr_sdp x -> r_media_count (mr_rtc y) = r_media_count (mr_rtc x) -> r_media (mr_rtc y) = <[i := m2]> (r_media (mr_rtc x)) ->
    mr_ssrc_map y = mr_ssrc_map x -> (exists ty, mr_tracks y !! i = Some ty /\ tv_lost_pending ty = false /\ tv_last_seq ty = seq) ->
    receiving (queued o) y i mid own_pt ssrc pt (seq + 1) d1 /\ settled y i mid ssrc) as Hgo.
  { intros y es' o Hy E1 E2 E3 E4 (ty & Hty & Hp1 & Hp2). split.
    - eapply (receiving_step idle (queued o) x y i mid own_pt ssrc pt seq (seq + 1) d d1 es' m m2 ty); try done; [|by eapply knows_same]. right. rewrite Hp2. replace (seq + 1 - seq) with 1 by lia. done.
    - destruct Hset as [Hmap|(m' & Hm' & Hr)]; [left; by rewrite E4|]. right. exists m2. split; [rewrite E3; by apply list_lookup_insert_eq|].
      assert (m' = m) as -> by congruence. cbn. rewrite Hr. destruct (Z.eqb_spec ssrc 0); congruence. }
  destruct out as [n|]; cbn [option_map].
  - unfold get_recv. rewrite Et, !bind_Ok. rewrite Hlp'. cbn [negb]. set (t2 := TrackRecv _ _ _ _ _ _). change (tr_mid m2) with (tr_mid m). change (rtp_payload_type (tr_rtp m2)) with (rtp_payload_type (tr_rtp m)). rewrite T3, T5.
    destruct (emit_queued (set_recv x2 i t2) es (EvMediaData mid own_pt ts (DepktBuf i) (length n) true (is_idr n)) Hrep2 eq_refl) as (r & es' & Hrun & Hr & Henv). rewrite Hrun.
    exists (with_rtc (set_recv x2 i t2) r). destruct Henv as (_ & _ & _ & _ & _ & Es & E1 & E2 & _). split; [done|].
    destruct (Hgo (with_rtc (set_recv x2 i t2) r) es' (Some (EvMediaData mid own_pt ts (DepktBuf i) (length n) true (is_idr n)))) as [G1 G2]; [exact Hr | done | exact E2 | etrans; [exact E1 | exact Em] | done | | by split_and!].
    exists t2. split; [|done]. apply list_lookup_insert_eq. cbn. by rewrite length_insert.
  - rewrite !bind_Ok. exists x2. split; [done|]. destruct (Hgo x2 es None) as [G1 G2]; try done. by exists t'.
Qed.

Lemma receiving_env s s' x r es' i mid own_pt ssrc pt seq d : receiving s x i mid own_pt ssrc pt seq d -> represents r es' s' -> same_env (mr_rtc x) r ->
  receiving s' (with_rtc x r) i mid own_pt ssrc pt seq d /\ (settled x i mid ssrc -> settled (with_rtc x r) i mid ssrc).
Proof using Type.
  intros H Hrep (_ & _ & _ & _ & _ & _ & E1 & E2 & _). destruct (rc_track _ _ _ _ _ _ _ _ _ H) as (m & Hm). destruct (rc_seq _ _ _ _ _ _ _ _ _ H) as (t & Ht & Hlp & Hsq).
  split.
  - eapply (receiving_step s s' x (with_rtc x r) i mid own_pt ssrc pt seq seq d d es' m m t); try done; [|by apply (td_media _ _ _ _ _ _ Hm) | by apply (td_depkt _ _ _ _ _ _ Hm) | by eapply knows_same].
    cbn. rewrite E1. symmetry. apply list_insert_id, (td_track _ _ _ _ _ _ Hm).
  - unfold settled. cbn. by rewrite E1.
Qed.
Lemma poll_queued_event r es e : represents r es (queued e) ->
  exists r' es', perform aes_128_cm hmac_sha1_80 r OpPoll = Ok (r', (NANORTC_OK, option_map SentEvent e)) /\ represents r' es' idle /\ same_env r r'.
Proof using Type.
  intros H. destruct (pump_refines r es _ H) as (k & r1 & es1 & Hpump & H1 & Henv1 & Hk & _). cbn [queued sn_paced length] in Hk. replace k with 0%nat in H1 by lia. rewrite release_0 in H1.
  cbn [perform]. unfold poll_output_front. rewrite Hpump, bind_Ok. pose proof (poll_queued_refines r1 es1 _ H1) as Hp. destruct e as [e|]; cbn [queued sn_queue spec_poll deliver option_map] in Hp |- *.
  - destruct Hp as (r2 & es2 & o & Hrun & H2 & Henv2 & (o' & -> & Hrender)). rewrite Hrun, !bind_Ok, Hrender, bind_Ok. exists r2, es2. split; [done|]. split; [exact H2 | by eapply same_env_trans].
  - destruct Hp as (r2 & es2 & o & Hrun & H2 & Henv2 & ->). rewrite Hrun, !bind_Ok. unfold poll_pending. destruct (rp_pending _ _ _ H2) as [-> _]. cbn [sn_pending].
    exists r2, es2. split; [done|]. split; [exact H2 | by eapply same_env_trans].
Qed.
(** A datagram handed in and one poll: what the poll hands out and, for a media
    event, the octets that the application finds behind its pointer. *)
Definition receive (x : media_recv) (d : list Z) : res (media_recv * option (sent * list Z)) :=
  '(x, _) ← nano_rtc_media_handle_rtp_or_rtcp aes_128_cm hmac_sha1_80 x d;
  '(r, (_, out)) ← perform aes_128_cm hmac_sha1_80 (mr_rtc x) OpPoll;
  let x := with_rtc x r in
  match out with
  | Some (SentEvent e) => octets ← media_octets x e; Ok (x, Some (SentEvent e, octets))
  | Some o => Ok (x, Some (o, []))
  | None => Ok (x, None)
  end.
Fixpoint receive_all (x : media_recv) (ds : list (list Z)) : res (media_recv * list (option (sent * list Z))) :=
  match ds with
  | [] => Ok (x, [])
  | d :: ds => '(x, out) ← receive x d; '(x, outs) ← receive_all x ds; Ok (x, out :: outs)
  end.
(** The stream's payload type cannot be taken for RTCP, and its packets fit. *)
Definition sendable (pt : Z) (p : list Z) : Prop := packet_body p /\ ~ (72 <= pt <= 83).
Lemma handle_sealed x i mid own_pt ssrc pt seq d snd rtp ts p dg snd' : receiving idle x i mid own_pt ssrc pt seq d -> in_step snd (r_srtp (mr_rtc x)) ssrc seq ->
  stream_at rtp ssrc pt seq -> sendable pt p -> seq < 65535 -> sealed aes_128_cm hmac_sha1_80 snd rtp ts p dg snd' ->
  exists x1 d0, depkt_ok d0 /\ (settled x i mid ssrc -> d0 = d) /\ receiving idle x1 i mid own_pt ssrc pt seq d0 /\ settled x1 i mid ssrc /\ in_step snd' (r_srtp (mr_rtc x1)) ssrc (seq + 1) /\
    nano_rtc_media_handle_rtp_or_rtcp aes_128_cm hmac_sha1_80 x dg = (x ← route_rtp aes_128_cm hmac_sha1_80 x1 i seq (u32 ts) ssrc p; Ok (x, NANORTC_OK)).
Proof using Laws.
  intros H Hstep Hst [Hp Hpt] Hlt Hse. pose proof Hp as [Hb Hlen]. pose proof (media_buf_room rtp p Hp) as Hroom. assert (12 <= rtp_header_len rtp)%nat as Hmin by (unfold rtp_header_len; destruct (rtp_has_twcc rtp); lia).
  pose proof (sealed_length _ _ Laws _ _ _ _ _ _ (is_sender _ _ _ _ Hstep) Hb Hse) as Hl.
  destruct (sealed_unprotect snd _ rtp ts p dg snd' ssrc pt seq Hstep Hst Hb Hlt Hse) as (rcv' & t & Hun & Hstep').
  unfold nano_rtc_media_handle_rtp_or_rtcp. rewrite (so_ready _ (is_receiver _ _ _ _ Hstep)). cbn [negb].
  rewrite (proj2 (Nat.ltb_ge (length dg) 2)) by lia.
  assert (exists v, rd8 dg 1 = Ok v /\ (200 <=? v) && (v <=? 211) = false) as (v & Hv & Hrtp).
  { destruct Hse as [(ss & _ & E & _) _ _ _]. unfold srtp_packet in E. cbv zeta in E. rewrite rd8_Ok by lia. rewrite E. clear E. eexists. split; [reflexivity|].
    destruct (_ && _) eqn:Hc; [|done]. destruct Hpt. destruct Hst as (_ & <- & _). eapply second_octet. eexists. split; [|exact Hc]. apply rd8_Ok. rewrite length_app, rtp_header_length. lia. }
  rewrite Hv, bind_Ok, Hrtp. rewrite (proj2 (Nat.ltb_ge _ _)) by (unfold NANORTC_STUN_BUF_SIZE; lia). rewrite Hun, bind_Ok. cbv zeta.
  set (x0 := with_rtc x (with_media (mr_rtc x) rcv' (r_media (mr_rtc x)))).
  assert (receiving idle x0 i mid own_pt ssrc pt seq d) as H0.
  { destruct (rc_sending _ _ _ _ _ _ _ _ _ H) as (es & Hrep). destruct (rc_track _ _ _ _ _ _ _ _ _ H) as (m & Hm). destruct (rc_seq _ _ _ _ _ _ _ _ _ H) as (tv & Htv & Hlp & Hsq).
    eapply (receiving_step idle idle x x0 i mid own_pt ssrc pt seq seq d d es m m tv); try done; [by apply represents_media | | by apply (td_media _ _ _ _ _ _ Hm) | by apply (td_depkt _ _ _ _ _ _ Hm) | by eapply knows_same].
    symmetry. apply list_insert_id, (td_track _ _ _ _ _ _ Hm). }
  unfold handle_rtp. assert (take (rtp_header_len rtp + length p) (rtp_header rtp ts ++ p ++ t) = rtp_header rtp ts ++ p) as ->.
  { rewrite app_assoc, take_app_length'; [done | by rewrite length_app, rtp_header_length]. }
  rewrite rtp_unpack_header. destruct Hst as (E1 & E2 & E3). cbn [pkt_off pkt_len pkt_pt pkt_seq pkt_ts pkt_ssrc]. rewrite E1, E2, E3.
  rewrite rdn_mid, bind_Ok by first [by rewrite rtp_header_length | done].
  destruct (stream_found _ _ _ _ _ _ _ _ _ H0) as (x1 & d0 & Hfound & H1 & Hset & Es & Hd). rewrite Hfound, bind_Ok. destruct (rc_find _ _ _ _ _ _ _ _ _ H1) as [Hfind Hu].
  unfold is_u8 in Hu. rewrite (proj2 (Z.ltb_ge mid 0)) by lia. rewrite u8_id, Hfind, bind_Ok by (unfold is_u8; lia).
  exists x1, d0. destruct (rc_track _ _ _ _ _ _ _ _ _ H1) as (m1 & Hm1). split; [by apply (td_depkt _ _ _ _ _ _ Hm1)|]. split; [exact Hd|]. split; [done|]. split; [done|]. split; [|done].
  by rewrite Es.
Qed.
(** What a poll hands out for a unit. *)
Definition handed (mid own_pt ts : Z) (i : nat) (out : option (list Z)) : option (sent * list Z) :=
  option_map (fun nalu => (SentEvent (EvMediaData mid own_pt ts (DepktBuf i) (length nalu) true (is_idr nalu)), nalu)) out.
Lemma receive_packet x i mid own_pt ssrc pt seq d snd rtp ts p dg snd' : receiving idle x i mid own_pt ssrc pt seq d -> in_step snd (r_srtp (mr_rtc x)) ssrc seq ->
  stream_at rtp ssrc pt seq -> sendable pt p -> seq < 65535 -> sealed aes_128_cm hmac_sha1_80 snd rtp ts p dg snd' ->
  exists d0, depkt_ok d0 /\ (settled x i mid ssrc -> d0 = d) /\
    forall d1 out, h264_depkt_push d0 p = Ok (d1, NANORTC_OK, out) -> (forall n, out = Some n -> whole_unit n) ->
    exists x', receive x dg = Ok (x', handed mid own_pt (u32 ts) i out) /\ receiving idle x' i mid own_pt ssrc pt (seq + 1) d1 /\
      settled x' i mid ssrc /\ in_step snd' (r_srtp (mr_rtc x')) ssrc (seq + 1).
Proof using Laws.
  intros H Hstep Hst Hp Hlt Hse. destruct (handle_sealed x i mid own_pt ssrc pt seq d snd rtp ts p dg snd' H Hstep Hst Hp Hlt Hse) as (x1 & d0 & Hd0 & Hsame & H1 & Hset & Hstep1 & Hrun).
  exists d0. split; [done|]. split; [done|]. intros d1 out Hpush Hw. pose proof (h264_depkt_push_wp d0 p Hd0) as Hwp. rewrite Hpush in Hwp. destruct Hwp as [Hd1 _].
  assert (is_u16 seq) as Hq by (destruct Hst as (_ & _ & <-); apply u16_range).
  destruct (route_packet x1 i mid own_pt ssrc pt seq (u32 ts) p d0 d1 out H1 Hset Hq Hpush Hd1 Hw) as (x2 & Hroute & H2 & Hset2 & Es). rewrite Hroute, bind_Ok in Hrun.
  destruct (rc_sending _ _ _ _ _ _ _ _ _ H2) as (es & Hrep). destruct (poll_queued_event _ es _ Hrep) as (r & es' & Hpoll & Hrep' & Henv).
  destruct (receiving_env _ idle x2 r es' _ _ _ _ _ _ _ H2 Hrep' Henv) as [H3 Hset3].
  exists (with_rtc x2 r). unfold receive. rewrite Hrun, bind_Ok, Hpoll, bind_Ok. split; [|split; [done|]].
  { destruct out as [n|]; [|done]. cbn [unit_event option_map handed media_octets]. destruct (rc_track _ _ _ _ _ _ _ _ _ H3) as (m3 & Hm3).
    rewrite (get_track_Ok _ _ _ (td_track _ _ _ _ _ _ Hm3)), bind_Ok, (td_media _ _ _ _ _ _ Hm3). by rewrite (push_buf _ _ _ _ _ Hpush), bind_Ok. } split; [by apply Hset3|].
  destruct Henv as (_ & _ & _ & _ & _ & Er & _). cbn. by rewrite Er, Es.
Qed.

(** * Units and frames *)

Definition good_output (o : Z * option (list Z)) : Prop := o.1 = NANORTC_OK /\ forall n, o.2 = Some n -> whole_unit n.
Definition seen (mid own_pt ts : Z) (i : nat) (o : Z * option (list Z)) : option (sent * list Z) := handed mid own_pt ts i o.2.
Lemma receive_payloads i mid own_pt ssrc pt ts snd' rtp' d' : forall ps outs snd rtp ds x seq d,
  receiving idle x i mid own_pt ssrc pt seq d -> settled x i mid ssrc -> in_step snd (r_srtp (mr_rtc x)) ssrc seq -> stream_at rtp ssrc pt seq ->
  Forall (fun p => sendable pt p.1) ps -> seq + Z.of_nat (length ps) <= 65535 -> sealed_all aes_128_cm hmac_sha1_80 snd rtp ts ps ds snd' rtp' ->
  Fragment.push_all h264_depkt_push d (map fst ps) = Ok (d', outs) -> Forall good_output outs ->
  exists x', receive_all x ds = Ok (x', map (seen mid own_pt (u32 ts) i) outs) /\ receiving idle x' i mid own_pt ssrc pt (seq + Z.of_nat (length ps)) d' /\
    settled x' i mid ssrc /\ in_step snd' (r_srtp (mr_rtc x')) ssrc (seq + Z.of_nat (length ps)) /\ stream_at rtp' ssrc pt (seq + Z.of_nat (length ps)).
Proof using Laws.
  intros ps. induction ps as [|[p mk] ps IH]; intros outs snd rtp [|dg ds] x seq d H Hset Hstep Hst Hps Hlen Hse Hpush Hgood; try done.
  - destruct Hse as [-> ->]. injection Hpush as <- <-. exists x. rewrite Z.add_0_r. done.
  - destruct Hse as (s1 & H1 & H2). apply List.Forall_cons_iff in Hps as [Hp Hps]. cbn [length fst] in *. cbn [map Fragment.push_all fst] in Hpush.
    destruct (receive_packet x i mid own_pt ssrc pt seq d snd (set_marker rtp mk) ts p dg s1 H Hstep (stream_marker _ _ _ _ _ Hst) Hp ltac:(lia) H1) as (d0 & _ & Hd0 & Hgo). rewrite (Hd0 Hset) in Hgo.
    bind_inv Hpush. destruct x0 as [[d1 rc] out]. bind_inv Hpush. destruct x0 as [d2 outs']. injection Hpush as <- <-. apply List.Forall_cons_iff in Hgood as [[Hrc Hw] Hgood]. cbn [fst Datatypes.snd] in Hrc, Hw. subst rc.
    destruct (Hgo d1 out Hx Hw) as (x1 & Hrun & H3 & Hset1 & Hstep1).
    destruct (IH outs' s1 (rtp_next (set_marker rtp mk)) ds x1 (seq + 1) d1 H3 Hset1 Hstep1) as (x2 & Hall & H4 & Hset2 & Hstep2 & Hst2);
      [apply stream_next; [by apply stream_marker | lia] | done | lia | done | done | done|].
    exists x2. cbn [receive_all map]. rewrite Hrun, bind_Ok, Hall, bind_Ok. replace (seq + Z.of_nat (S (length ps))) with (seq + 1 + Z.of_nat (length ps)) by lia. done.
Qed.
(** A unit the depacketizer can rebuild. *)
Definition sendable_unit (u : list Z) : Prop :=
  bytes u /\ (1 <= length u <= NANORTC_VIDEO_NAL_BUF_SIZE)%nat /\ nth 0 u 0 < 128 /\ 1 <= Z.land (nth 0 u 0) H264_NAL_TYPE_MASK <= 23.
(** The events of a frame: a unit each, in order, none after a loss, its octets in
    the buffer of track [i]. *)
Definition frame_events (mid own_pt ts : Z) (i : nat) (us : list (list Z)) : list (sent * list Z) :=
  map (fun u => (SentEvent (EvMediaData mid own_pt ts (DepktBuf i) (length u) true (is_idr u)), u)) us.
Lemma outputs_seen mid own_pt ts i k nalu : whole_unit nalu ->
  Forall good_output (outputs k nalu) /\ omap id (map (seen mid own_pt ts i) (outputs k nalu)) = frame_events mid own_pt ts i [nalu].
Proof using Type.
  intros Hw. unfold outputs. split.
  - apply Forall_app_2; [by apply Forall_replicate | constructor; [|done]]. split; [done|]. by intros n [= <-].
  - rewrite map_app. induction k as [|k IH]; [done|]. exact IH.
Qed.
Lemma receive_unit i mid own_pt ssrc pt ts snd rtp snd' rtp' u lm ds x seq d :
  receiving idle x i mid own_pt ssrc pt seq d -> in_step snd (r_srtp (mr_rtc x)) ssrc seq -> stream_at rtp ssrc pt seq -> sendable_unit u -> ~ (72 <= pt <= 83) ->
  let ps := last_marked lm (h264_payloads u NANORTC_VIDEO_MTU) in
  seq + Z.of_nat (length ps) <= 65535 -> sealed_all aes_128_cm hmac_sha1_80 snd rtp ts ps ds snd' rtp' ->
  exists x' outs d', receive_all x ds = Ok (x', outs) /\ omap id outs = frame_events mid own_pt (u32 ts) i [u] /\
    receiving idle x' i mid own_pt ssrc pt (seq + Z.of_nat (length ps)) d' /\ in_step snd' (r_srtp (mr_rtc x')) ssrc (seq + Z.of_nat (length ps)) /\ stream_at rtp' ssrc pt (seq + Z.of_nat (length ps)).
Proof using Laws.
  intros H Hstep Hst (Hb & Hl & Hh & Ht) Hpt ps Hlen Hse. destruct (h264_payloads_count u Hb ltac:(lia)) as [Hbody _].
  assert (map fst ps = map fst (h264_payloads u NANORTC_VIDEO_MTU)) as Hfst by (unfold ps, last_marked; rewrite map_map; done).
  assert (Forall (fun p => sendable pt p.1) ps) as Hsend.
  { unfold ps, last_marked. apply List.Forall_map. eapply List.Forall_impl; [|exact Hbody]. intros q Hq. by split. }
  assert (0 <= nth 0 u 0 < 128) as Hh' by (split; [|done]; by apply nth_octet).
  assert (3 <= NANORTC_VIDEO_MTU)%nat as Hmtu by (unfold NANORTC_VIDEO_MTU; lia).
  assert (forall d0, depkt_ok d0 -> exists d' k, Fragment.push_all h264_depkt_push d0 (map fst ps) = Ok (d', outputs k u)) as Hpush.
  { intros d0 Hd0. rewrite Hfst. destruct (h264_payloads_reassemble u NANORTC_VIDEO_MTU d0 Hl Hmtu Hh' Ht Hd0) as (d' & k & ? & _). by exists d', k. }
  destruct ps as [|[p mk] ps'] eqn:Hps; [destruct (Hpush h264_depkt_init) as (d' & k & He); [|by destruct k]; unfold depkt_ok, h264_depkt_init; cbn [d_buf d_len d_in_progress]; rewrite length_replicate; split; [done | split; [lia | done]]|].
  destruct ds as [|dg ds]; [done|]. destruct Hse as (s1 & H1 & H2). apply List.Forall_cons_iff in Hsend as [Hp Hsend]. cbn [length fst] in *.
  destruct (receive_packet x i mid own_pt ssrc pt seq d snd (set_marker rtp mk) ts p dg s1 H Hstep (stream_marker _ _ _ _ _ Hst) Hp ltac:(lia) H1) as (d0 & Hd0 & _ & Hgo).
  destruct (Hpush d0 Hd0) as (d' & k & He). cbn [map Fragment.push_all fst] in He. bind_inv He. destruct x0 as [[d1 rc] out]. bind_inv He. destruct x0 as [d2 outs']. injection He as <- He.
  destruct (outputs_seen mid own_pt (u32 ts) i k u (conj (proj1 Hl) Ht)) as [Hgood Hseen]. rewrite <- He in Hgood, Hseen. apply List.Forall_cons_iff in Hgood as [[Hrc Hw] Hgood]. cbn [fst Datatypes.snd] in Hrc, Hw. subst rc.
  destruct (Hgo d1 out Hx Hw) as (x1 & Hrun & H3 & Hset1 & Hstep1).
  destruct (receive_payloads i mid own_pt ssrc pt ts snd' rtp' d2 ps' outs' s1 (rtp_next (set_marker rtp mk)) ds x1 (seq + 1) d1 H3 Hset1 Hstep1) as (x2 & Hall & H4 & _ & Hstep2 & Hst2);
    [apply stream_next; [by apply stream_marker | lia] | done | lia | done | done | done|].
  exists x2, (map (seen mid own_pt (u32 ts) i) ((NANORTC_OK, out) :: outs')), d2. cbn [receive_all]. rewrite Hrun, bind_Ok, Hall, bind_Ok. split; [done|]. split; [exact Hseen|].
  replace (seq + Z.of_nat (S (length ps'))) with (seq + 1 + Z.of_nat (length ps')) by lia. done.
Qed.
Lemma sealed_all_split ts ps qs snd' rtp' : forall snd rtp ds, sealed_all aes_128_cm hmac_sha1_80 snd rtp ts (ps ++ qs) ds snd' rtp' ->
  exists ds1 ds2 s1 rtp1, ds = ds1 ++ ds2 /\ sealed_all aes_128_cm hmac_sha1_80 snd rtp ts ps ds1 s1 rtp1 /\ sealed_all aes_128_cm hmac_sha1_80 s1 rtp1 ts qs ds2 snd' rtp'.
Proof using Type.
  induction ps as [|[p mk] ps IH]; intros snd rtp ds H; [by exists [], ds, snd, rtp|]. destruct ds as [|dg ds]; [done|]. destruct H as (s1 & H1 & H2).
  destruct (IH _ _ _ H2) as (ds1 & ds2 & s2 & rtp2 & -> & H3 & H4). exists (dg :: ds1), ds2, s2, rtp2. split; [done|]. split; [by exists s1 | done].
Qed.
Lemma receive_all_app ds1 : forall x x1 outs1 ds2 x2 outs2, receive_all x ds1 = Ok (x1, outs1) -> receive_all x1 ds2 = Ok (x2, outs2) -> receive_all x (ds1 ++ ds2) = Ok (x2, outs1 ++ outs2).
Proof using Type.
  induction ds1 as [|dg ds1 IH]; intros x x1 outs1 ds2 x2 outs2 H1 H2; cbn [receive_all app] in *; [by injection H1 as -> <-|].
  destruct (receive x dg) as [[xa o]| |]; [|done..]. rewrite bind_Ok in H1 |- *. destruct (receive_all xa ds1) as [[xb os]| |] eqn:Hxb; [|done..]. rewrite bind_Ok in H1. injection H1 as <- <-.
  by rewrite (IH _ _ _ _ _ _ Hxb H2), bind_Ok.
Qed.
Lemma receive_frame i mid own_pt ssrc pt ts snd' rtp' : forall us snd rtp ds x seq d,
  receiving idle x i mid own_pt ssrc pt seq d -> in_step snd (r_srtp (mr_rtc x)) ssrc seq -> stream_at rtp ssrc pt seq -> Forall (fun u => sendable_unit u.1) us -> ~ (72 <= pt <= 83) ->
  seq + Z.of_nat (length (h264_frame_payloads us)) <= 65535 -> sealed_all aes_128_cm hmac_sha1_80 snd rtp ts (h264_frame_payloads us) ds snd' rtp' ->
  exists x' outs d', receive_all x ds = Ok (x', outs) /\ omap id outs = frame_events mid own_pt (u32 ts) i (map fst us) /\
    receiving idle x' i mid own_pt ssrc pt (seq + Z.of_nat (length (h264_frame_payloads us))) d' /\ in_step snd' (r_srtp (mr_rtc x')) ssrc (seq + Z.of_nat (length (h264_frame_payloads us))).
Proof using Laws.
  intros us. induction us as [|[u lm] us IH]; intros snd rtp ds x seq d H Hstep Hst Hus Hpt Hlen Hse.
  - destruct ds; [|done]. destruct Hse as [-> ->]. exists x, [], d. change (length (h264_frame_payloads [])) with 0%nat. by rewrite Z.add_0_r.
  - apply List.Forall_cons_iff in Hus as [Hu Hus]. unfold h264_frame_payloads in Hlen, Hse |- *. cbn [map concat fst Datatypes.snd] in Hlen, Hse |- *. fold (h264_frame_payloads us) in Hlen, Hse |- *.
    set (ps := last_marked lm (h264_payloads u NANORTC_VIDEO_MTU)) in *. rewrite length_app in Hlen |- *. destruct (sealed_all_split _ _ _ _ _ _ _ _ Hse) as (ds1 & ds2 & s1 & rtp1 & -> & H1 & H2).
    destruct (receive_unit i mid own_pt ssrc pt ts snd rtp s1 rtp1 u lm ds1 x seq d H Hstep Hst Hu Hpt ltac:(fold ps; lia) H1) as (x1 & outs1 & d1 & Hrun1 & Ho1 & H3 & Hstep1 & Hst1). fold ps in H3, Hstep1, Hst1.
    destruct (IH s1 rtp1 ds2 x1 _ d1 H3 Hstep1 Hst1 Hus Hpt ltac:(lia) H2) as (x2 & outs2 & d2 & Hrun2 & Ho2 & H4 & Hstep2).
    exists x2, (outs1 ++ outs2), d2. split; [by eapply receive_all_app|]. split; [by rewrite omap_app, Ho1, Ho2|].
    rewrite Nat2Z.inj_add, Z.add_assoc. done.
Qed.
End Receive.
