(* ===== verification/VideoEndToEnd.v ===== *)
(** A video frame from one application to the other: [nanortc_send_video] and
    [nanortc_poll_output] on one connection, [nanortc_handle_input]'s media path
    and [nanortc_poll_output] on its peer. *)

From Stdlib Require Import ZArith Lia.
From stdpp Require Import base gmap list numbers.
From S2P Require Import Prelude Wire Sdp Stun Ice Turn TurnRequests TurnHistory Fragment AnnexB H264 H265 Jitter Srtp Rtp Rtcp Bwe Media OutQueue OutQueueFifo OutQueueSpec OutQueueSteps VideoSend VideoSteps VideoFrame VideoAdmit MediaSend SendPath VideoDelivery MediaRecv VideoReceive.

Local Open Scope Z_scope.

(** A unit that the peer's depacketizer has room for and takes for one NAL unit. *)
Definition rebuildable (u : list Z) : Prop :=
  (length u <= NANORTC_VIDEO_NAL_BUF_SIZE)%nat /\ nth 0 u 0 < 128 /\ 1 <= Z.land (nth 0 u 0) H264_NAL_TYPE_MASK <= 23.
Lemma units_sendable buf : bytes buf -> Forall rebuildable (map fst (units buf)) -> Forall (fun u => sendable_unit u.1) (units buf).
Proof.
  intros Hb Hr. pose proof (frame_units_ok buf Hb (S (length buf)) 0 ltac:(lia)) as Hok. fold (units buf) in Hok. rewrite List.Forall_map in Hr.
  apply List.Forall_forall. intros u Hu. rewrite List.Forall_forall in Hok, Hr. destruct (Hok u Hu) as [H1 H2]. destruct (Hr u Hu) as (H3 & H4 & H5). split_and!; try done; lia.
Qed.

(** C1: an H.264 frame sent on a direct connection while nothing waits is handed
    over, once the pacer's latency cap has passed, as SRTP packets to the peer's
    address; and the peer, whose session is in step with the sender's and whose
    track the stream is known for or found by its payload type, handed these
    packets one after the other with a poll after each, gives its application the
    frame's NAL units: all of them, in order, an event each whose pointer leads to
    the unit's octets at that poll, with the frame's RTP timestamp and its key
    frames marked; and is ready for the stream's next packet.  The frame's units
    are of at most 16384 octets, and the stream's sequence number does not roll
    over within the frame. *)
Theorem video_end_to_end (aes_128_cm : list Z -> list Z -> list Z -> Z * list Z) (hmac_sha1_80 : list Z -> list Z -> list Z)
    (r : rtc) (es : list entry) (s : sending) (mid pts : Z) (buf : list Z) (i : nat) (m : nanortc_track) (w : world)
    (x : media_recv) (j : nat) (peer_mid peer_pt : Z) (d : nano_h264_depkt) :
  provider_laws aes_128_cm hmac_sha1_80 -> represents r es s -> media_ok r -> sn_queue s = [] -> sn_paced s = [] ->
  bytes buf -> video_verdict r s mid buf = inr i -> r_media r !! i = Some m -> is_h265 (tr_codec m) = false -> ~ no_place r (tr_rtp m) ->
  world_ok w -> let aged t := NANORTC_PACING_MAX_QUEUE_MS <= nano_time_elapsed (wo_now_ms w) t in aged (r_now_ms r) -> Forall aged (pc_enqueue_ms (r_pacer r)) ->
  needs_turn (with_world r w) RTC_TX_ROUTE_SELECTED = false -> Forall rebuildable (map fst (units buf)) ->
  let ssrc := u32 (rtp_ssrc (tr_rtp m)) in let pt := rtp_payload_type (tr_rtp m) mod 128 in let seq := u16 (rtp_seq (tr_rtp m)) in
  let n := length (h264_frame_payloads (units buf)) in
  ~ (72 <= pt <= 83) -> seq + Z.of_nat n <= 65535 ->
  receiving idle x j peer_mid peer_pt ssrc pt seq d -> in_step (r_srtp r) (r_srtp (mr_rtc x)) ssrc seq ->
  exists r1 ds r2 x' outs d',
    nanortc_send_video aes_128_cm hmac_sha1_80 r mid pts buf = Ok (r1, NANORTC_OK) /\ length ds = n /\
    run aes_128_cm hmac_sha1_80 (with_world r1 w) (replicate n OpPoll) =
      Ok (r2, map (fun p => (NANORTC_OK, Some (SentPacket p (wo_remote w) (source_of (wo_ice w) None)))) ds) /\
    receive_all aes_128_cm hmac_sha1_80 x ds = Ok (x', outs) /\
    omap id outs = frame_events peer_mid peer_pt (u32 (pts_ms_to_rtp pts 90000)) j (map fst (units buf)) /\
    receiving idle x' j peer_mid peer_pt ssrc pt (seq + Z.of_nat n) d' /\ in_step (r_srtp r1) (r_srtp (mr_rtc x')) ssrc (seq + Z.of_nat n).
Proof.
  intros Laws H Hm Hq Hp Hb Hv Hi Hc Hplace Hwo aged Hnow Hstamps Hdirect Hunits ssrc pt seq n Hpt Hlen Hrecv Hstep.
  assert (units_whole (tr_codec m) (units buf)) as Hw by (intros He; congruence).
  destruct (frame_polled aes_128_cm hmac_sha1_80 r es s mid pts buf i m w Laws H Hm Hq Hp Hb Hv Hi Hw Hplace Hwo Hnow Hstamps) as (r1 & ds & srtp' & rtp' & r2 & Hsend & Hse & -> & Hpoll & Hout).
  unfold frame_payloads in Hse. rewrite Hc in Hse. assert (length ds = n) as Hds by (by rewrite (sealed_all_length _ _ _ _ _ _ _ _ _ Hse)).
  cbv zeta in Hpoll, Hout. change (needs_turn (with_world r1 w) RTC_TX_ROUTE_SELECTED) with (needs_turn (with_world r w) RTC_TX_ROUTE_SELECTED) in Hout. rewrite (Hout Hdirect) in Hpoll.
  rewrite length_map, Hds, map_map in Hpoll.
  destruct (receive_frame aes_128_cm hmac_sha1_80 Laws j peer_mid peer_pt ssrc pt (pts_ms_to_rtp pts 90000) (r_srtp r1) rtp' (units buf) (r_srtp r) (tr_rtp m) ds x seq d) as (x' & outs & d' & Hall & Ho & H1 & H2);
    [done | done | done | by apply units_sendable | done | done | done|].
  exists r1, ds, r2, x', outs, d'. done.
Qed.


(** * A demonstration *)

(** The peer of [demo_world]: an H.264 track on MID 1 whose m-line takes payload
    type 96, no stream known yet. *)
Definition demo_peer_world : world := World turn_init (ice_init false) demo_peer 45 bwe_init (toy_session false) [demo_track] 1 NANORTC_STATE_DTLS_CONNECTED.
Definition demo_mline : nano_sdp_mline := Mline SDP_MLINE_VIDEO 1 96 96 90000 0 0 NANORTC_DIR_SENDRECV NANORTC_DIR_SENDRECV true 0 0 0 h265_zero.
Definition demo_receiver : media_recv :=
  MediaRecv (rtc_start demo_peer_world) (empty_table NANORTC_MAX_SSRC_MAP) (Sdp.with_media sdp_init (MediaLines [demo_mline] 1 false 0 2)) [track_recv_init] 0 0 false 0.
Lemma demo_peer_world_ok : world_ok demo_peer_world.
Proof. destruct (demo_world_ok 45) as [H1 H2 _ H4 H5]. constructor; [exact H1 | exact H2 | intros _; apply toy_sessions | exact H4 | exact H5]. Qed.
Lemma empty_distinct n : distinct_ssrcs (empty_table n).
Proof. intros i j a b [Ha Hoa] _ _. apply lookup_replicate_1 in Ha as [-> _]. done. Qed.
Lemma init_depkt_ok : depkt_ok h264_depkt_init.
Proof. unfold depkt_ok, h264_depkt_init. cbn [d_buf d_len d_in_progress]. rewrite length_replicate. split; [done | split; [lia | done]]. Qed.
Lemma demo_receiving : receiving idle demo_receiver 0 1 96 99 96 0 h264_depkt_init.
Proof.
  constructor.
  - exists []. apply start_represents, demo_peer_world_ok.
  - exists demo_track. constructor; try reflexivity. apply init_depkt_ok.
  - split; [reflexivity | unfold is_u8; lia].
  - exists track_recv_init. split; [reflexivity|]. split; [reflexivity | by left].
  - split; [apply empty_distinct | reflexivity].
  - right. split; [reflexivity|]. split; [cbn; lia|]. split; [|intros k Hk; lia]. exists demo_track. split; [reflexivity|]. split; [reflexivity|]. exists 0%nat, demo_mline. done.
Qed.
Lemma demo_in_step : in_step (r_srtp (rtc_start (demo_world 5))) (r_srtp (mr_rtc demo_receiver)) 99 0.
Proof.
  destruct toy_sessions as (H1 & H2 & H3). change (in_step (toy_session true) (toy_session false) 99 0). constructor; [done..|].
  assert (forall b, starts (ssrc_states (toy_session b)) 99 (SsrcState 99 0 0 true)) as Hs.
  { intros b. right. assert (ssrc_states (toy_session b) = replicate 4 (SsrcState 0 0 0 false)) as -> by by destruct b.
    split_and!; [|done | by exists 0%nat, (SsrcState 0 0 0 false)]. intros s (k & Hk & Ha & _). apply (lookup_replicate_1 4) in Hk as [-> _]. done. }
  exists (SsrcState 99 0 0 true), (SsrcState 99 0 0 true). split; [apply Hs|]. split; [apply Hs|]. split; [done|]. by right.
Qed.
Lemma demo_rebuildable : Forall rebuildable (map fst (units demo_frame)).
Proof.
  change (map fst (units demo_frame)) with [[0x67; 1; 2]; [0x65; 3; 4; 5]]. 
  assert (forall u : list Z, (length u <= 4)%nat -> nth 0 u 0 < 128 -> 1 <= Z.land (nth 0 u 0) H264_NAL_TYPE_MASK <= 23 -> rebuildable u) as Hu.
  { intros u H1 H2 H3. split; [|done]. unfold NANORTC_VIDEO_NAL_BUF_SIZE. lia. }
  apply List.Forall_cons; [|apply List.Forall_cons; [|apply List.Forall_nil]]; (apply Hu; [cbn; lia | reflexivity | vm_compute; split; discriminate]).
Qed.
Lemma video_end_to_end_witness : let r := rtc_start (demo_world 5) in let w := demo_world 45 in exists r1 ds r2 x' outs d',
  nanortc_send_video toy_aes toy_hmac r 1 40 demo_frame = Ok (r1, NANORTC_OK) /\ length ds = 2%nat /\
  run toy_aes toy_hmac (with_world r1 w) (replicate 2 OpPoll) =
    Ok (r2, map (fun p => (NANORTC_OK, Some (SentPacket p (wo_remote w) (source_of (wo_ice w) None)))) ds) /\
  receive_all toy_aes toy_hmac demo_receiver ds = Ok (x', outs) /\
  omap id outs = frame_events 1 96 (u32 (pts_ms_to_rtp 40 90000)) 0 [[0x67; 1; 2]; [0x65; 3; 4; 5]] /\
  receiving idle x' 0 1 96 99 96 2 d' /\ in_step (r_srtp r1) (r_srtp (mr_rtc x')) 99 2.
Proof.
  intros r w. apply (video_end_to_end toy_aes toy_hmac r [] idle 1 40 demo_frame 0 demo_track w demo_receiver 0 1 96 h264_depkt_init toy_laws (start_represents _ (demo_world_ok 5)) (start_media _ (demo_world_ok 5))
    eq_refl eq_refl); [bytes_lit | exact demo_verdict | reflexivity | reflexivity | exact demo_place | apply demo_world_ok | vm_compute; discriminate | apply Forall_replicate; vm_compute; discriminate |
    reflexivity | exact demo_rebuildable | vm_compute; intros [H1 H2]; by apply H2 | vm_compute; discriminate | exact demo_receiving | exact demo_in_step].
Defined.

(** The same two packets handed in one after the other without a poll in between:
    both units' events wait, but both lead to the depacketizer's buffer, and the
    first poll finds the first three octets of the second unit there. *)
Definition unpolled (x : media_recv) (d1 d2 : list Z) : res (list Z * list Z) :=
  '(x, _) ← nano_rtc_media_handle_rtp_or_rtcp toy_aes toy_hmac x d1;
  '(x, _) ← nano_rtc_media_handle_rtp_or_rtcp toy_aes toy_hmac x d2;
  '(r, (_, e1)) ← perform toy_aes toy_hmac (mr_rtc x) OpPoll;
  '(r, (_, e2)) ← perform toy_aes toy_hmac r OpPoll;
  match e1, e2 with
  | Some (SentEvent e1), Some (SentEvent e2) => u1 ← media_octets (with_rtc x r) e1; u2 ← media_octets (with_rtc x r) e2; Ok (u1, u2)
  | _, _ => Fault
  end.
Definition demo_unpolled : res (list Z * list Z) :=
  '(r1, _) ← nanortc_send_video toy_aes toy_hmac (rtc_start (demo_world 5)) 1 40 demo_frame;
  '(_, outs) ← run toy_aes toy_hmac (with_world r1 (demo_world 45)) (replicate 2 OpPoll);
  match outs with
  | [(_, Some (SentPacket d1 _ _)); (_, Some (SentPacket d2 _ _))] => unpolled demo_receiver d1 d2
  | _ => Fault
  end.
Theorem unpolled_events_alias : map fst (units demo_frame) = [[0x67; 1; 2]; [0x65; 3; 4; 5]] /\ demo_unpolled = Ok ([0x65; 3; 4], [0x65; 3; 4; 5]).
Proof. split; vm_compute; reflexivity. Qed.
