(* ===== verification/SctpCodec.v ===== *)
(** The chunk codec of [src/nano_sctp.c] (RFC 9260, RFC 3758): header, CRC-32c,
    the parsers and the encoders of every chunk, and the gap blocks of a SACK;
    that each parser reads back what its encoder wrote, and that the gap blocks
    name exactly buffered TSNs.  An encoder is given the buffer from its
    write pointer on; [memcpy] of the checksum is that of a little-endian host,
    as the source assumes. *)

From Stdlib Require Import ZArith Lia.
From stdpp Require Import base list numbers sorting.
From S2P Require Import Prelude Wire Crc.

Local Open Scope Z_scope.

Definition SCTP_CHUNK_DATA : Z := 0.
Definition SCTP_CHUNK_INIT : Z := 1.
Definition SCTP_CHUNK_INIT_ACK : Z := 2.
Definition SCTP_CHUNK_SACK : Z := 3.
Definition SCTP_CHUNK_HEARTBEAT : Z := 4.
Definition SCTP_CHUNK_HEARTBEAT_ACK : Z := 5.
Definition SCTP_CHUNK_ABORT : Z := 6.
Definition SCTP_CHUNK_SHUTDOWN : Z := 7.
Definition SCTP_CHUNK_COOKIE_ECHO : Z := 10.
Definition SCTP_CHUNK_COOKIE_ACK : Z := 11.
Definition SCTP_CHUNK_FORWARD_TSN : Z := 192.
Definition SCTP_DATA_FLAG_END : Z := 0x01.
Definition SCTP_DATA_FLAG_BEGIN : Z := 0x02.
Definition SCTP_DATA_FLAG_UNORDERED : Z := 0x04.
Definition SCTP_PARAM_STATE_COOKIE : Z := 7.
Definition SCTP_PARAM_FORWARD_TSN : Z := 0xC000.
Definition SCTP_HEADER_SIZE : nat := 12.
Definition SCTP_CHUNK_HDR_SIZE : nat := 4.
Definition SCTP_INIT_BODY_SIZE : nat := 16.
Definition SCTP_DATA_HDR_SIZE : nat := 12.
Definition SCTP_SACK_MIN_SIZE : nat := 12.
Definition NANORTC_SCTP_MAX_GAP_BLOCKS : nat := 4.
Definition SCTP_PAD4 (x : nat) : nat := Z.to_nat (Z.land (Z.of_nat x + 3) (Z.lnot 3)).

Record nsctp_header : Type := NsctpHeader { h_src_port : Z; h_dst_port : Z; h_vtag : Z }.
(** The cookie is a view into the packet, or NULL. *)
Record nsctp_init_chunk : Type := NsctpInit {
  i_initiate_tag : Z; i_a_rwnd : Z; i_num_ostreams : Z; i_num_istreams : Z; i_initial_tsn : Z;
  i_cookie : option (list Z); i_forward_tsn_supported : bool
}.
Record nsctp_data : Type := NsctpData {
  d_tsn : Z; d_stream_id : Z; d_ssn : Z; d_ppid : Z; d_flags : Z; d_payload : list Z
}.
Record nsctp_sack : Type := NsctpSack { s_cumulative_tsn : Z; s_a_rwnd : Z; s_num_gap_blocks : Z; s_num_dup_tsns : Z }.

(** * Parsers *)

Definition nsctp_parse_header (data : list Z) : res nsctp_header :=
  if (length data <? SCTP_HEADER_SIZE)%nat then Err NANORTC_ERR_PARSE else
  s ← nanortc_read_u16be data 0; d ← nanortc_read_u16be data 2; v ← nanortc_read_u32be data 4;
  Ok (NsctpHeader s d v).

(** The four octets of a [uint32_t] in memory. *)
Definition le32 (v : Z) : list Z :=
  [u8 v; u8 (Z.shiftr v 8); u8 (Z.shiftr v 16); u8 (Z.shiftr v 24)].

Definition nsctp_verify_checksum (data : list Z) : res Z :=
  if (length data <? SCTP_HEADER_SIZE)%nat then Ok NANORTC_ERR_PARSE else
  stored ← rdn data 8 4;
  head ← rdn data 0 8;
  tail ← rdn data 12 (length data - 12);
  let crc := nano_crc32c_init in
  let crc := nano_crc32c_update crc head in
  let crc := nano_crc32c_update crc [0; 0; 0; 0] in
  let crc := nano_crc32c_update crc tail in
  let computed := nano_crc32c_final crc in
  if negb (bool_decide (le32 computed = stored)) then Ok NANORTC_ERR_PROTOCOL else Ok NANORTC_OK.

(** The scan of the optional parameters: the cookie and the Forward TSN flag. *)
Fixpoint init_params (fuel : nat) (chunk : list Z) (declared_len pos : nat) (cookie : option (list Z)) (fwd : bool)
  : res (option (list Z) * bool) :=
  if ((pos + 4 <=? declared_len) && (pos + 4 <=? length chunk))%nat then
    match fuel with
    | O => Fault
    | S fuel =>
        ptype ← nanortc_read_u16be chunk pos;
        plen ← nanortc_read_u16be chunk (pos + 2);
        if plen <? 4 then Ok (cookie, fwd) else
        let fwd := fwd || ((ptype =? SCTP_PARAM_FORWARD_TSN) && (plen =? 4)) in
        cookie ← (if (ptype =? SCTP_PARAM_STATE_COOKIE) && (pos + Z.to_nat plen <=? length chunk)%nat
                  then c ← rdn chunk (pos + 4) (Z.to_nat plen - 4); Ok (Some c) else Ok cookie);
        init_params fuel chunk declared_len (pos + SCTP_PAD4 (Z.to_nat plen)) cookie fwd
    end
  else Ok (cookie, fwd).
Definition nsctp_parse_init (chunk : list Z) : res nsctp_init_chunk :=
  if (length chunk <? SCTP_CHUNK_HDR_SIZE + SCTP_INIT_BODY_SIZE)%nat then Err NANORTC_ERR_PARSE else
  let body := SCTP_CHUNK_HDR_SIZE in
  tag ← nanortc_read_u32be chunk body;
  rwnd ← nanortc_read_u32be chunk (body + 4);
  ostreams ← nanortc_read_u16be chunk (body + 8);
  istreams ← nanortc_read_u16be chunk (body + 10);
  tsn ← nanortc_read_u32be chunk (body + 12);
  declared_len ← nanortc_read_u16be chunk 2;
  '(cookie, fwd) ← init_params (length chunk) chunk (Z.to_nat declared_len) (SCTP_CHUNK_HDR_SIZE + SCTP_INIT_BODY_SIZE) None false;
  Ok (NsctpInit tag rwnd ostreams istreams tsn cookie fwd).

Definition nsctp_parse_data (chunk : list Z) : res nsctp_data :=
  if (length chunk <? SCTP_CHUNK_HDR_SIZE + SCTP_DATA_HDR_SIZE)%nat then Err NANORTC_ERR_PARSE else
  flags ← rd8 chunk 1;
  clen ← nanortc_read_u16be chunk 2;
  if (clen <? 16) || (length chunk <? Z.to_nat clen)%nat then Err NANORTC_ERR_PARSE else
  let body := SCTP_CHUNK_HDR_SIZE in
  tsn ← nanortc_read_u32be chunk body;
  sid ← nanortc_read_u16be chunk (body + 4);
  ssn ← nanortc_read_u16be chunk (body + 6);
  ppid ← nanortc_read_u32be chunk (body + 8);
  let hdr_total := (SCTP_CHUNK_HDR_SIZE + SCTP_DATA_HDR_SIZE)%nat in
  payload ← (if (hdr_total <? Z.to_nat clen)%nat && (Z.to_nat clen <=? length chunk)%nat
             then rdn chunk hdr_total (Z.to_nat clen - hdr_total) else Ok []);
  Ok (NsctpData tsn sid ssn ppid flags payload).

Definition nsctp_parse_sack (chunk : list Z) : res nsctp_sack :=
  if (length chunk <? SCTP_CHUNK_HDR_SIZE + SCTP_SACK_MIN_SIZE)%nat then Err NANORTC_ERR_PARSE else
  let body := SCTP_CHUNK_HDR_SIZE in
  cum ← nanortc_read_u32be chunk body;
  rwnd ← nanortc_read_u32be chunk (body + 4);
  ngap ← nanortc_read_u16be chunk (body + 8);
  ndup ← nanortc_read_u16be chunk (body + 10);
  Ok (NsctpSack cum rwnd ngap ndup).

(** * Encoders: the buffer and the octets written, 0 on failure *)

Definition nsctp_encode_header (buf : list Z) (src_port dst_port vtag : Z) : res (list Z * nat) :=
  buf ← nanortc_write_u16be buf 0 src_port;
  buf ← nanortc_write_u16be buf 2 dst_port;
  buf ← nanortc_write_u32be buf 4 vtag;
  buf ← nanortc_write_u32be buf 8 0;
  Ok (buf, SCTP_HEADER_SIZE).

Definition nsctp_finalize_checksum (packet : list Z) (len : nat) : res (list Z) :=
  packet ← wr packet 8 (replicate 4 0);
  covered ← rdn packet 0 len;
  wr packet 8 (le32 (nano_crc32c covered)).

Definition nsctp_encode_init (buf : list Z) (type initiate_tag a_rwnd num_ostreams num_istreams initial_tsn : Z)
    (cookie : list Z) : res (list Z * nat) :=
  let cookie_len := length cookie in
  let need := (24 + (if 0 <? cookie_len then SCTP_PAD4 (4 + cookie_len) else 0))%nat in
  if (length buf <? need)%nat || (UINT16_MAX <? Z.of_nat need) then Ok (buf, 0%nat) else
  buf ← wr buf 0 [type];
  buf ← wr buf 1 [0];
  buf ← nanortc_write_u32be buf 4 initiate_tag;
  buf ← nanortc_write_u32be buf 8 a_rwnd;
  buf ← nanortc_write_u16be buf 12 num_ostreams;
  buf ← nanortc_write_u16be buf 14 num_istreams;
  buf ← nanortc_write_u32be buf 16 initial_tsn;
  '(buf, pos) ←
    (if (0 <? cookie_len)%nat then
       buf ← nanortc_write_u16be buf 20 SCTP_PARAM_STATE_COOKIE;
       buf ← nanortc_write_u16be buf 22 (u16 (4 + Z.of_nat cookie_len));
       buf ← wr buf 24 cookie;
       let pos := (24 + cookie_len)%nat in
       (** the loop [while (pos & 3)] writes the zeros up to the next multiple *)
       buf ← wr buf pos (replicate (SCTP_PAD4 pos - pos) 0);
       Ok (buf, SCTP_PAD4 pos)
     else Ok (buf, 20%nat));
  buf ← nanortc_write_u16be buf pos SCTP_PARAM_FORWARD_TSN;
  buf ← nanortc_write_u16be buf (pos + 2) 4;
  let pos := (pos + 4)%nat in
  buf ← nanortc_write_u16be buf 2 (u16 (Z.of_nat pos));
  Ok (buf, pos).

(** The zeros after a chunk of [clen] octets, and its padded size. *)
Definition pad_chunk (buf : list Z) (clen : nat) : res (list Z * nat) :=
  let total := SCTP_PAD4 clen in
  buf ← (if (clen <? total)%nat then wr buf clen (replicate (total - clen) 0) else Ok buf);
  Ok (buf, total).

Definition nsctp_encode_cookie_echo (buf cookie : list Z) : res (list Z * nat) :=
  let cookie_len := length cookie in
  if (UINT16_MAX - 4 <? Z.of_nat cookie_len) || (length buf <? SCTP_PAD4 (4 + cookie_len))%nat then Ok (buf, 0%nat) else
  buf ← wr buf 0 [SCTP_CHUNK_COOKIE_ECHO];
  buf ← wr buf 1 [0];
  let clen := (SCTP_CHUNK_HDR_SIZE + cookie_len)%nat in
  buf ← nanortc_write_u16be buf 2 (Z.of_nat clen);
  buf ← wr buf SCTP_CHUNK_HDR_SIZE cookie;
  pad_chunk buf clen.

Definition nsctp_encode_cookie_ack (buf : list Z) : res (list Z * nat) :=
  buf ← wr buf 0 [SCTP_CHUNK_COOKIE_ACK];
  buf ← wr buf 1 [0];
  buf ← nanortc_write_u16be buf 2 (Z.of_nat SCTP_CHUNK_HDR_SIZE);
  Ok (buf, SCTP_CHUNK_HDR_SIZE).

Definition nsctp_encode_data (buf : list Z) (tsn stream_id ssn ppid flags : Z) (payload : list Z) : res (list Z * nat) :=
  let payload_len := length payload in
  if (UINT16_MAX - 16 <? Z.of_nat payload_len) || (length buf <? SCTP_PAD4 (16 + payload_len))%nat then Ok (buf, 0%nat) else
  let clen := (SCTP_CHUNK_HDR_SIZE + SCTP_DATA_HDR_SIZE + payload_len)%nat in
  buf ← wr buf 0 [SCTP_CHUNK_DATA];
  buf ← wr buf 1 [flags];
  buf ← nanortc_write_u16be buf 2 (Z.of_nat clen);
  buf ← nanortc_write_u32be buf 4 tsn;
  buf ← nanortc_write_u16be buf 8 stream_id;
  buf ← nanortc_write_u16be buf 10 ssn;
  buf ← nanortc_write_u32be buf 12 ppid;
  buf ← (if (0 <? payload_len)%nat then wr buf 16 payload else Ok buf);
  pad_chunk buf clen.

(** The fixed part of a SACK. *)
Definition encode_sack_head (buf : list Z) (clen : nat) (cumulative_tsn a_rwnd nblocks : Z) : res (list Z) :=
  buf ← wr buf 0 [SCTP_CHUNK_SACK];
  buf ← wr buf 1 [0];
  buf ← nanortc_write_u16be buf 2 (u16 (Z.of_nat clen));
  buf ← nanortc_write_u32be buf 4 cumulative_tsn;
  buf ← nanortc_write_u32be buf 8 a_rwnd;
  buf ← nanortc_write_u16be buf 12 nblocks;
  nanortc_write_u16be buf 14 0.
Definition nsctp_encode_sack (buf : list Z) (cumulative_tsn a_rwnd : Z) : res (list Z * nat) :=
  let clen := (SCTP_CHUNK_HDR_SIZE + SCTP_SACK_MIN_SIZE)%nat in
  buf ← encode_sack_head buf clen cumulative_tsn a_rwnd 0;
  Ok (buf, clen).

(** The insertion sort by signed difference: [sort_shift] walks down from the end
    of the sorted prefix, here reversed. *)
Fixpoint sort_shift (rprefix : list Z) (key : Z) : list Z :=
  match rprefix with
  | x :: rest => if i32 (x - key) >? 0 then x :: sort_shift rest key else key :: rprefix
  | [] => [key]
  end.
Definition gap_sort (tsns : list Z) : list Z := rev (foldl sort_shift [] tsns).

(** The merge of contiguous offsets into blocks; [rblocks] holds the blocks built
    so far, last first. *)
Fixpoint gap_blocks (gap_tsns : list Z) (cumulative_tsn : Z) (rblocks : list (Z * Z)) : list (Z * Z) :=
  match gap_tsns with
  | tsn :: rest =>
      if (length rblocks <? NANORTC_SCTP_MAX_GAP_BLOCKS)%nat then
        let offset := u16 (tsn - cumulative_tsn) in
        match rblocks with
        | (start, end_) :: older =>
            if offset =? end_ + 1 then gap_blocks rest cumulative_tsn ((start, offset) :: older)
            else gap_blocks rest cumulative_tsn ((offset, offset) :: rblocks)
        | [] => gap_blocks rest cumulative_tsn [(offset, offset)]
        end
      else rev rblocks
  | [] => rev rblocks
  end.
Fixpoint write_blocks (buf : list Z) (pos : nat) (blocks : list (Z * Z)) : res (list Z) :=
  match blocks with
  | [] => Ok buf
  | (start, end_) :: blocks =>
      buf ← nanortc_write_u16be buf pos start;
      buf ← nanortc_write_u16be buf (pos + 2) end_;
      write_blocks buf (pos + 4) blocks
  end.
(** [tsns] are those of the valid receive descriptors, in table order. *)
Definition nsctp_encode_sack_with_gaps (buf : list Z) (cumulative_tsn a_rwnd : Z) (tsns : list Z) : res (list Z * nat) :=
  if (length buf <? 16)%nat then Ok (buf, 0%nat) else
  let gap_tsns := filter (fun tsn => (i32 (tsn - cumulative_tsn) >? 0) = true) tsns in
  if (length gap_tsns =? 0)%nat then nsctp_encode_sack buf cumulative_tsn a_rwnd else
  let blocks := gap_blocks (gap_sort gap_tsns) cumulative_tsn [] in
  let nblocks := length blocks in
  let clen := (SCTP_CHUNK_HDR_SIZE + SCTP_SACK_MIN_SIZE + nblocks * 4)%nat in
  if (length buf <? clen)%nat then Ok (buf, 0%nat) else
  buf ← encode_sack_head buf clen cumulative_tsn a_rwnd (Z.of_nat nblocks);
  buf ← write_blocks buf 16 blocks;
  Ok (buf, clen).

Definition nsctp_encode_heartbeat (buf info : list Z) : res (list Z * nat) :=
  let info_len := length info in
  if (UINT16_MAX - 8 <? Z.of_nat info_len) || (length buf <? SCTP_PAD4 (8 + info_len))%nat then Ok (buf, 0%nat) else
  let param_len := (4 + info_len)%nat in
  let clen := (SCTP_CHUNK_HDR_SIZE + param_len)%nat in
  buf ← wr buf 0 [SCTP_CHUNK_HEARTBEAT];
  buf ← wr buf 1 [0];
  buf ← nanortc_write_u16be buf 2 (Z.of_nat clen);
  buf ← nanortc_write_u16be buf 4 1;
  buf ← nanortc_write_u16be buf 6 (Z.of_nat param_len);
  buf ← (if (0 <? info_len)%nat then wr buf 8 info else Ok buf);
  pad_chunk buf clen.
Definition nsctp_encode_heartbeat_ack (buf info : list Z) : res (list Z * nat) :=
  '(buf, n) ← nsctp_encode_heartbeat buf info;
  if (n =? 0)%nat then Ok (buf, 0%nat) else
  buf ← wr buf 0 [SCTP_CHUNK_HEARTBEAT_ACK];
  Ok (buf, n).

Definition nsctp_encode_forward_tsn (buf : list Z) (new_cumulative_tsn : Z) : res (list Z * nat) :=
  let clen := (SCTP_CHUNK_HDR_SIZE + 4)%nat in
  buf ← wr buf 0 [SCTP_CHUNK_FORWARD_TSN];
  buf ← wr buf 1 [0];
  buf ← nanortc_write_u16be buf 2 (Z.of_nat clen);
  buf ← nanortc_write_u32be buf 4 new_cumulative_tsn;
  Ok (buf, clen).
Definition nsctp_encode_shutdown (buf : list Z) (cumulative_tsn : Z) : res (list Z * nat) :=
  let clen := (SCTP_CHUNK_HDR_SIZE + 4)%nat in
  buf ← wr buf 0 [SCTP_CHUNK_SHUTDOWN];
  buf ← wr buf 1 [0];
  buf ← nanortc_write_u16be buf 2 (Z.of_nat clen);
  buf ← nanortc_write_u32be buf 4 cumulative_tsn;
  Ok (buf, clen).

Example gap_blocks_ex : gap_blocks (gap_sort [4294967295; 3; 2; 0; 6]) 4294967293 [] = [(2, 3); (5, 6); (9, 9)].
Proof. reflexivity. Qed.

(** * The gap blocks *)

Lemma pad4_eq n : SCTP_PAD4 n = (4 * ((n + 3) / 4))%nat.
Proof.
  unfold SCTP_PAD4. rewrite land_lnot3 by lia. rewrite Z2Nat.inj_mul by (Z.div_mod_to_equations; lia).
  rewrite Z2Nat.inj_div, Z2Nat.inj_add, Nat2Z.id by lia. change (Z.to_nat 4) with 4%nat. change (Z.to_nat 3) with 3%nat. lia.
Qed.
Lemma pad4_ge n : (n <= SCTP_PAD4 n < n + 4)%nat.
Proof. rewrite pad4_eq. pose proof (Nat.div_mod (n + 3) 4). pose proof (Nat.mod_upper_bound (n + 3) 4). lia. Qed.

Section Gaps.
Context (cum : Z).
(** The distance of a TSN from the cumulative one, on the wrapping clock. *)
Definition ahead (tsn : Z) : Z := u32 (tsn - cum).
(** Where the signed comparison and the 16-bit offsets are exact. *)
Definition near (tsn : Z) : Prop := 0 < ahead tsn <= 65535.

Lemma near_cmp x y : near x -> near y -> i32 (x - y) = ahead x - ahead y.
Proof.
  unfold near. intros Hx Hy. rewrite <- (i32_small (ahead x - ahead y)) by lia. unfold i32.
  replace ((x - y) mod 2 ^ 32) with ((ahead x - ahead y) mod 2 ^ 32); [done|].
  unfold ahead, u32. rewrite <- Zminus_mod. f_equal. lia.
Qed.
Lemma near_ahead_inj x y : is_u32 x -> is_u32 y -> ahead x = ahead y -> x = y.
Proof. unfold ahead. mach. Qed.

Definition before (x y : Z) : Prop := ahead x < ahead y.
Lemma sort_shift_spec rp key :
  Forall near (key :: rp) -> Forall (fun x => ahead x <> ahead key) rp -> StronglySorted (flip before) rp ->
  sort_shift rp key ≡ₚ key :: rp /\ StronglySorted (flip before) (sort_shift rp key).
Proof.
  intros Hn Hne Hs. apply Forall_cons_iff in Hn as [Hk Hn]. revert Hn Hne. induction Hs as [|x rp Hs IH Hx]; intros Hn Hne; cbn [sort_shift].
  { split; [done|]. by repeat constructor. }
  apply Forall_cons_iff in Hn as [Hnx Hn]. apply Forall_cons_iff in Hne as [Hnex Hne]. rewrite near_cmp by done.
  destruct (Z.gtb_spec (ahead x - ahead key) 0) as [Hgt|Hle].
  - destruct (IH Hn Hne) as [Hp Hs']. split; [by rewrite Hp; constructor|]. constructor; [done|].
    rewrite Hp. apply List.Forall_cons; [unfold flip, before; lia | done].
  - split; [done|]. constructor; [by constructor|]. assert (ahead x < ahead key) as Hlt by lia.
    apply List.Forall_cons; [done|]. refine (List.Forall_impl _ _ Hx). unfold flip, before. intros y Hy. lia.
Qed.
Lemma foldl_sort_spec tsns rp :
  Forall near (rp ++ tsns) -> NoDup (map ahead (rp ++ tsns)) -> StronglySorted (flip before) rp ->
  foldl sort_shift rp tsns ≡ₚ rp ++ tsns /\ StronglySorted (flip before) (foldl sort_shift rp tsns).
Proof.
  revert rp. induction tsns as [|t tsns IH]; intros rp Hn Hd Hs; cbn [foldl]; [by rewrite app_nil_r|].
  assert (rp ++ t :: tsns ≡ₚ (t :: rp) ++ tsns) as Hperm by (by rewrite <- Permutation_middle).
  assert (Forall near ((t :: rp) ++ tsns)) as Hn' by (by rewrite <- Hperm).
  assert (NoDup (map ahead ((t :: rp) ++ tsns))) as Hd' by (by rewrite <- Hperm).
  destruct (sort_shift_spec rp t) as [Hp Hs']; [by apply Forall_app in Hn' as [? _] | | done |].
  { cbn in Hd'. apply NoDup_cons_1_1 in Hd'. apply Forall_forall. intros x Hx Heq. apply Hd'.
    rewrite <- Heq. apply list_elem_of_fmap_2, elem_of_app. by left. }
  destruct (IH (sort_shift rp t)) as [Hp2 Hs2]; [by rewrite Hp | by rewrite Hp | done |].
  split; [|done]. rewrite Hp2, Hp. by rewrite Hperm.
Qed.
Lemma rev_sorted {A} (R : A -> A -> Prop) l : StronglySorted (flip R) l -> StronglySorted R (rev l).
Proof.
  induction 1 as [|x l Hs IH Hx]; cbn; [constructor|]. apply StronglySorted_app_2; [|done|by repeat constructor].
  intros y z Hy Hz. apply list_elem_of_singleton in Hz as ->. apply list_elem_of_In, in_rev, list_elem_of_In in Hy.
  rewrite Forall_forall in Hx. exact (Hx y Hy).
Qed.
Lemma gap_sort_spec tsns :
  Forall near tsns -> NoDup (map ahead tsns) -> gap_sort tsns ≡ₚ tsns /\ StronglySorted before (gap_sort tsns).
Proof.
  intros Hn Hd. destruct (foldl_sort_spec tsns []) as [Hp Hs]; [done | done | constructor|].
  unfold gap_sort. split; [rewrite <- Hp at 2; symmetry; apply Permutation_rev | by apply rev_sorted].
Qed.

(** The offsets a list of blocks covers, and the order RFC 9260 asks of it. *)
Definition covers (blocks : list (Z * Z)) (o : Z) : Prop := Exists (fun b => b.1 <= o <= b.2) blocks.
Inductive blocks_ok : Z -> list (Z * Z) -> Prop :=
| blocks_nil prev : blocks_ok prev []
| blocks_cons prev b bs : prev < b.1 <= b.2 -> b.2 <= 65535 -> blocks_ok b.2 bs -> blocks_ok prev (b :: bs).

Lemma covers_app a b o : covers (a ++ b) o <-> covers a o \/ covers b o.
Proof. apply Exists_app. Qed.
Lemma blocks_ok_app prev a b : 
  blocks_ok prev (a ++ [b]) <-> blocks_ok prev a /\ (match last a with Some c => c.2 | None => prev end) < b.1 <= b.2 /\ b.2 <= 65535.
Proof.
  revert prev. induction a as [|c a IH]; intros prev; cbn [app].
  - split; [inversion 1; subst; cbn; auto using blocks_ok|]. intros (_ & ? & ?). constructor; [done | done | constructor].
  - split.
    + inversion 1 as [|? ? ? Hc Hm Hrest]; subst. apply IH in Hrest as (Ha & Hb). split; [by constructor|].
      rewrite last_cons. by destruct (last a).
    + intros (Ha & Hb). inversion Ha as [|? ? ? Hc Hm Hrest]; subst. constructor; [done | done |]. apply IH. split; [done|].
      rewrite last_cons in Hb. by destruct (last a).
Qed.

Lemma gap_blocks_spec tsns rb :
  Forall near tsns -> StronglySorted before tsns ->
  blocks_ok 0 (rev rb) -> (forall start end_ older, rb = (start, end_) :: older -> Forall (fun t => end_ < ahead t) tsns) ->
  exists acked dropped, tsns = acked ++ dropped /\
    (forall o, covers (gap_blocks tsns cum rb) o <-> covers rb o \/ o ∈ map ahead acked) /\
    blocks_ok 0 (gap_blocks tsns cum rb) /\
    (dropped <> [] -> (NANORTC_SCTP_MAX_GAP_BLOCKS <= length (gap_blocks tsns cum rb))%nat).
Proof.
  assert (forall bs o, covers (rev bs) o <-> covers bs o) as Hrev.
  { intros bs o. unfold covers. by rewrite <- Permutation_rev. }
  intros Hn Hs. revert rb. induction Hs as [|t tsns Hs IH Ht]; intros rb Hok Hlast.
  { exists [], []. cbn. split_and!; [done | | done | done]. intros o. rewrite Hrev, elem_of_nil. tauto. }
  apply Forall_cons_iff in Hn as [Hnt Hn]. specialize (IH Hn). cbn [gap_blocks].
  destruct (Nat.ltb_spec (length rb) NANORTC_SCTP_MAX_GAP_BLOCKS) as [Hlt|Hge].
  2: { exists [], (t :: tsns). cbn. split_and!; [done | | done | by rewrite length_rev]. intros o. rewrite Hrev, elem_of_nil. tauto. }
  cbv zeta. unfold near in Hnt. assert (u16 (t - cum) = ahead t) as ->.
  { unfold ahead, u16, u32 in *. rewrite <- (Z.mod_small ((t - cum) mod 2 ^ 32) (2 ^ 16)) by lia.
    symmetry. apply Z.mod_mod_divide. by exists (2 ^ 16). }
  assert (forall o x l, o ∈ map ahead (x :: l) <-> o = ahead x \/ o ∈ map ahead l) as Hmem by (intros; cbn; apply elem_of_cons).
  assert (forall rb', (exists start older, rb' = (start, ahead t) :: older) -> blocks_ok 0 (rev rb') ->
    (forall o, covers rb' o <-> covers rb o \/ o = ahead t) ->
    exists acked dropped, t :: tsns = acked ++ dropped /\
      (forall o, covers (gap_blocks tsns cum rb') o <-> covers rb o \/ o ∈ map ahead acked) /\
      blocks_ok 0 (gap_blocks tsns cum rb') /\
      (dropped <> [] -> (NANORTC_SCTP_MAX_GAP_BLOCKS <= length (gap_blocks tsns cum rb'))%nat)) as Hstep.
  { intros rb' (start & older & ->) Hok' Hcov. destruct (IH ((start, ahead t) :: older)) as (acked & dropped & -> & Hc & Hb & Hd).
    - done.
    - by intros ? ? ? [= <- <- <-].
    - exists (t :: acked), dropped. split_and!; [done | | done | done]. intros o. rewrite Hc, Hcov, Hmem. tauto. }
  assert (forall o, o = ahead t <-> ahead t <= o <= ahead t) as Hpt by lia.
  destruct rb as [|[start end_] older].
  - apply Hstep; [eauto | apply (blocks_ok_app 0 []); cbn; repeat split; try constructor; lia |].
    intros o. unfold covers. rewrite Exists_cons, Exists_nil. cbn. rewrite Hpt. tauto.
  - specialize (Hlast _ _ _ eq_refl). apply Forall_cons_iff in Hlast as [Hlt' Hlast].
    cbn [rev] in Hok. destruct (Z.eqb_spec (ahead t) (end_ + 1)) as [Heq|Hne].
    + apply blocks_ok_app in Hok as (Ho & Hb1 & Hb2). cbn in Hb1, Hb2. apply Hstep; [eauto | |].
      * cbn [rev]. apply blocks_ok_app. cbn. split; [done|]. split; [|lia]. split; [tauto | lia].
      * intros o. unfold covers. rewrite !Exists_cons. cbn. split; [|intros [[|]|]; [left; lia | tauto | left; lia]].
        intros [|]; [|tauto]. destruct (decide (o = ahead t)); [tauto | left; left; lia].
    + apply Hstep; [eauto | |].
      * cbn [rev]. apply blocks_ok_app. split; [done|]. rewrite last_snoc. cbn. lia.
      * intros o. unfold covers. rewrite !Exists_cons. cbn. rewrite Hpt. tauto.
Qed.

Lemma gap_blocks_length tsns rb :
  (length rb <= NANORTC_SCTP_MAX_GAP_BLOCKS)%nat -> (length (gap_blocks tsns cum rb) <= NANORTC_SCTP_MAX_GAP_BLOCKS)%nat.
Proof.
  revert rb. induction tsns as [|t tsns IH]; intros rb Hrb; cbn [gap_blocks]; [by rewrite length_rev|].
  destruct (Nat.ltb_spec (length rb) NANORTC_SCTP_MAX_GAP_BLOCKS); [|by rewrite length_rev]. cbv zeta.
  destruct rb as [|[start end_] older]; [apply IH; unfold NANORTC_SCTP_MAX_GAP_BLOCKS; cbn; lia|].
  cbn [length] in *. destruct (_ =? _); apply IH; cbn [length]; lia.
Qed.

(** The SACK a receiver builds names exactly TSNs it holds: its gap blocks are
    ordered and disjoint as RFC 9260 asks, cover precisely the buffered TSNs
    beyond the cumulative one, nearest first, and leave some out only when all
    four blocks are in use (TSNs within 65535 of the cumulative one). *)
Theorem gap_sack_exact (tsns : list Z) :
  Forall near tsns -> NoDup tsns -> Forall is_u32 tsns ->
  let blocks := gap_blocks (gap_sort tsns) cum [] in
  exists acked dropped, tsns ≡ₚ acked ++ dropped /\
    (forall o, covers blocks o <-> o ∈ map ahead acked) /\
    (forall x y, x ∈ acked -> y ∈ dropped -> ahead x < ahead y) /\
    blocks_ok 0 blocks /\ (dropped <> [] -> length blocks = NANORTC_SCTP_MAX_GAP_BLOCKS).
Proof.
  intros Hn Hd Hu blocks. assert (NoDup (map ahead tsns)) as Hd'.
  { apply NoDup_fmap_2_strong; [|done]. intros x y Hx Hy. rewrite Forall_forall in Hu. apply near_ahead_inj; auto. }
  destruct (gap_sort_spec tsns Hn Hd') as [Hp Hs].
  destruct (gap_blocks_spec (gap_sort tsns) []) as (acked & dropped & Heq & Hc & Hb & Hfull); [by rewrite Hp | done | constructor | done |].
  exists acked, dropped. split_and!; [by rewrite <- Heq | | | done |].
  - intros o. unfold blocks. rewrite Hc. unfold covers. rewrite Exists_nil. tauto.
  - intros x y Hx Hy. rewrite Heq in Hs. by apply (StronglySorted_app_1_elem_of _ _ _ _ _ Hs Hx Hy).
  - intros Hne. apply Nat.le_antisymm; [|by apply Hfull]. apply gap_blocks_length. cbn. unfold NANORTC_SCTP_MAX_GAP_BLOCKS. lia.
Qed.
End Gaps.
(** Beyond 65535 the 16-bit offset wraps: the block acknowledges a TSN that never came. *)
Lemma gap_sack_wraps cum : is_u32 cum ->
  gap_blocks (gap_sort [u32 (cum + 65538)]) cum [] = [(2, 2)] /\ i32 (u32 (cum + 65538) - cum) > 0.
Proof.
  intros Hc. split.
  - cbn. assert (u16 (u32 (cum + 65538) - cum) = 2) as -> by mach. done.
  - assert (i32 (u32 (cum + 65538) - cum) = 65538) as ->; [|lia]. unfold i32.
    assert ((u32 (cum + 65538) - cum) mod 2 ^ 32 = 65538) as ->; [|done]. unfold u32. rewrite Zminus_mod_idemp_l.
    by replace (cum + 65538 - cum) with 65538 by lia.
Qed.

(** * Round trips *)

Definition data_chunk (tsn sid ssn ppid flags : Z) (payload : list Z) : list Z :=
  [SCTP_CHUNK_DATA; flags] ++ be16 (16 + Z.of_nat (length payload)) ++ be32 tsn ++ be16 sid ++ be16 ssn ++ be32 ppid ++ payload.
Definition padded (chunk : list Z) : list Z := chunk ++ replicate (SCTP_PAD4 (length chunk) - length chunk) 0.
Lemma padded_length chunk : length (padded chunk) = SCTP_PAD4 (length chunk).
Proof. unfold padded. rewrite length_app, length_replicate. pose proof (pad4_ge (length chunk)). lia. Qed.

Lemma pad_chunk_spec chunk buf :
  (SCTP_PAD4 (length chunk) <= length buf)%nat ->
  pad_chunk (chunk ++ drop (length chunk) buf) (length chunk) =
  Ok (padded chunk ++ drop (SCTP_PAD4 (length chunk)) buf, SCTP_PAD4 (length chunk)).
Proof.
  intros Hb. pose proof (pad4_ge (length chunk)). unfold pad_chunk, padded. cbv zeta.
  destruct (Nat.ltb_spec (length chunk) (SCTP_PAD4 (length chunk))) as [Hlt|Hge].
  - rewrite wr_append by (rewrite ?length_replicate, ?length_drop; lia).
    rewrite bind_Ok, length_replicate, drop_drop, <- !app_assoc. do 5 f_equal. lia.
  - replace (SCTP_PAD4 (length chunk)) with (length chunk) by lia. rewrite Nat.sub_diag. cbn [replicate]. by rewrite bind_Ok, app_nil_r.
Qed.

Lemma encode_data_spec buf tsn sid ssn ppid flags payload :
  Z.of_nat (length payload) <= UINT16_MAX - 16 ->
  let chunk := data_chunk tsn sid ssn ppid flags payload in
  nsctp_encode_data buf tsn sid ssn ppid flags payload =
  if (length buf <? SCTP_PAD4 (16 + length payload))%nat then Ok (buf, 0%nat)
  else Ok (padded chunk ++ drop (SCTP_PAD4 (length chunk)) buf, SCTP_PAD4 (length chunk)).
Proof.
  intros Hl chunk. assert (length chunk = 16 + length payload)%nat as Hc by (unfold chunk, data_chunk; cbn; lia).
  unfold nsctp_encode_data. cbv zeta. rewrite (proj2 (Z.ltb_ge _ _)) by lia. cbn [orb].
  destruct (Nat.ltb_spec (length buf) (SCTP_PAD4 (16 + length payload))) as [|Hb]; [done|].
  unfold nanortc_write_u16be, nanortc_write_u32be. pose proof (pad4_ge (16 + length payload)) as Hpad.
  rewrite !wr_then by done. rewrite <- !app_assoc. cbn [app].
  set (head := SCTP_CHUNK_DATA :: flags :: _). assert (length head = 16)%nat as Hh by done.
  rewrite wr_0, bind_Ok by (rewrite Hh; lia). rewrite Hh.
  assert (chunk = head ++ payload) as Hchunk.
  { unfold chunk, data_chunk, head. cbn [app]. rewrite <- !app_assoc. do 3 f_equal. unfold SCTP_CHUNK_HDR_SIZE, SCTP_DATA_HDR_SIZE. f_equal. lia. }
  assert ((if (0 <? length payload)%nat then wr (head ++ drop 16 buf) 16 payload else Ok (head ++ drop 16 buf)) =
          Ok (chunk ++ drop (length chunk) buf)) as ->.
  { rewrite Hc, Hchunk. destruct (Nat.ltb_spec 0 (length payload)).
    - rewrite wr_append by (rewrite ?length_drop; first [done | lia]). by rewrite drop_drop.
    - destruct payload; [|cbn in *; lia]. by rewrite app_nil_r. }
  rewrite bind_Ok. change (SCTP_CHUNK_HDR_SIZE + SCTP_DATA_HDR_SIZE + length payload)%nat with (16 + length payload)%nat.
  rewrite <- Hc. apply pad_chunk_spec. rewrite Hc. lia.
Qed.

Lemma parse_data_chunk tsn sid ssn ppid flags payload :
  is_u32 tsn -> is_u16 sid -> is_u16 ssn -> is_u32 ppid -> Z.of_nat (length payload) <= UINT16_MAX - 16 ->
  nsctp_parse_data (data_chunk tsn sid ssn ppid flags payload) = Ok (NsctpData tsn sid ssn ppid flags payload).
Proof.
  intros Ht Hs Hn Hp Hl. set (chunk := data_chunk tsn sid ssn ppid flags payload).
  assert (length chunk = 16 + length payload)%nat as Hc by (unfold chunk, data_chunk; cbn; lia).
  unfold nsctp_parse_data, SCTP_CHUNK_HDR_SIZE, SCTP_DATA_HDR_SIZE. cbv zeta. rewrite Hc, (proj2 (Nat.ltb_ge _ _)) by lia.
  assert (rd8 chunk 1 = Ok flags) as -> by done.
  assert (nanortc_read_u16be chunk 2 = Ok (16 + Z.of_nat (length payload))) as -> by (apply read16_field; [done..|mach]).
  rewrite !bind_Ok. rewrite (proj2 (Z.ltb_ge _ _)), (proj2 (Nat.ltb_ge _ _)) by lia. cbn [orb].
  assert (nanortc_read_u32be chunk 4 = Ok tsn) as -> by (by apply read32_field).
  assert (nanortc_read_u16be chunk (4 + 4) = Ok sid) as -> by (by apply read16_field).
  assert (nanortc_read_u16be chunk (4 + 6) = Ok ssn) as -> by (by apply read16_field).
  assert (nanortc_read_u32be chunk (4 + 8) = Ok ppid) as -> by (by apply read32_field).
  rewrite !bind_Ok. replace (Z.to_nat (16 + Z.of_nat (length payload))) with (16 + length payload)%nat by lia.
  rewrite (proj2 (Nat.leb_le (16 + length payload) _)) by lia. rewrite andb_true_r.
  destruct (Nat.ltb_spec (4 + 12) (16 + length payload)).
  - assert (rdn chunk (4 + 12) (16 + length payload - (4 + 12)) = Ok payload) as ->; [|done].
    rewrite <- (app_nil_r chunk). unfold chunk, data_chunk. rewrite !app_assoc, <- (app_assoc _ payload []).
    apply rdn_mid; [done|lia].
  - destruct payload; [done|cbn in *; lia].
Qed.

(** [nsctp_encode_data] writes a padded chunk exactly when it fits, and
    [nsctp_parse_data] reads the chunk back to the same TSN, stream, sequence
    number, protocol id, flags and payload, the empty one included. *)
Theorem sctp_data_roundtrip (buf : list Z) (tsn sid ssn ppid flags : Z) (payload : list Z) :
  is_u32 tsn -> is_u16 sid -> is_u16 ssn -> is_u32 ppid -> Z.of_nat (length payload) <= UINT16_MAX - 16 ->
  exists chunk, length chunk = (16 + length payload)%nat /\
    nsctp_encode_data buf tsn sid ssn ppid flags payload =
      (if (length buf <? SCTP_PAD4 (length chunk))%nat then Ok (buf, 0%nat)
       else Ok (padded chunk ++ drop (SCTP_PAD4 (length chunk)) buf, SCTP_PAD4 (length chunk))) /\
    nsctp_parse_data chunk = Ok (NsctpData tsn sid ssn ppid flags payload).
Proof.
  intros Ht Hs Hn Hp Hl. exists (data_chunk tsn sid ssn ppid flags payload).
  assert (length (data_chunk tsn sid ssn ppid flags payload) = 16 + length payload)%nat as Hc by (cbn; lia).
  split; [done|]. split; [by rewrite encode_data_spec, Hc | by apply parse_data_chunk].
Qed.

(** * The checksum *)

Definition header8 (src_port dst_port vtag : Z) : list Z := be16 src_port ++ be16 dst_port ++ be32 vtag.
Definition zero4 : list Z := [0; 0; 0; 0].
Definition sctp_packet (src_port dst_port vtag : Z) (body : list Z) : list Z :=
  let h := header8 src_port dst_port vtag in h ++ le32 (nano_crc32c (h ++ zero4 ++ body)) ++ body.
Lemma sctp_packet_length sp dp v body : length (sctp_packet sp dp v body) = (12 + length body)%nat.
Proof. done. Qed.
Lemma header8_bytes sp dp v : bytes (header8 sp dp v).
Proof. repeat apply Forall_app_2; auto using be16_bytes, be32_bytes. Qed.
Lemma le32_bytes v : bytes (le32 v).
Proof. repeat constructor; apply u8_range. Qed.
Lemma sctp_packet_bytes sp dp v body : bytes body -> bytes (sctp_packet sp dp v body).
Proof. intros Hb. apply Forall_app_2; [apply header8_bytes|]. apply Forall_app_2; [apply le32_bytes | done]. Qed.

Lemma encode_header_spec buf sp dp vtag :
  (12 <= length buf)%nat ->
  nsctp_encode_header buf sp dp vtag = Ok (header8 sp dp vtag ++ zero4 ++ drop 12 buf, SCTP_HEADER_SIZE).
Proof.
  intros Hb. unfold nsctp_encode_header, nanortc_write_u16be, nanortc_write_u32be. rewrite !wr_then by done.
  rewrite wr_0 by (cbn; lia). by rewrite bind_Ok, <- !app_assoc.
Qed.
Lemma finalize_spec sp dp vtag old body rest len :
  length old = 4%nat -> len = (12 + length body)%nat ->
  nsctp_finalize_checksum (header8 sp dp vtag ++ old ++ body ++ rest) len = Ok (sctp_packet sp dp vtag body ++ rest).
Proof.
  intros Ho ->. unfold nsctp_finalize_checksum. rewrite wr_mid by done. rewrite bind_Ok.
  change (replicate 4 0) with zero4. rewrite !(app_assoc zero4), (app_assoc (header8 sp dp vtag)), rdn_front by (rewrite !length_app; cbn; lia).
  rewrite bind_Ok, <- !app_assoc, wr_mid by done. unfold sctp_packet. by rewrite <- !app_assoc.
Qed.

Lemma verify_checksum_spec data :
  (12 <= length data)%nat ->
  nsctp_verify_checksum data =
  Ok (if bool_decide (le32 (nano_crc32c (take 8 data ++ zero4 ++ drop 12 data)) = take 4 (drop 8 data))
      then NANORTC_OK else NANORTC_ERR_PROTOCOL).
Proof.
  intros Hl. unfold nsctp_verify_checksum. rewrite (proj2 (Nat.ltb_ge _ _)) by (unfold SCTP_HEADER_SIZE; lia).
  rewrite (rdn_Ok data 8), (rdn_Ok data 0), (rdn_Ok data 12), !bind_Ok by lia. cbv zeta.
  rewrite <- !nano_crc32c_update_app, drop_0, (take_ge (drop 12 data)) by (rewrite length_drop; lia).
  change (nano_crc32c_final _) with (nano_crc32c (take 8 data ++ zero4 ++ drop 12 data)).
  by destruct (bool_decide _).
Qed.
Lemma le32_inj a b : is_u32 a -> is_u32 b -> le32 a = le32 b -> a = b.
Proof.
  unfold le32. rewrite !Z.shiftr_div_pow2 by lia. change (2 ^ 24) with 16777216.
  intros Ha Hb [= H1 H2 H3 H4]. mach_unfold. Z.div_mod_to_equations. lia.
Qed.

Lemma crc32c_mid_differs pre l post i x y :
  bytes pre -> bytes l -> bytes post -> l !! i = Some y -> is_u8 x -> x <> y ->
  nano_crc32c (pre ++ <[i := x]> l ++ post) <> nano_crc32c (pre ++ l ++ post).
Proof.
  intros Hpre Hb Hpost Hi Hx Hne. pose proof (lookup_lt_Some _ _ _ Hi) as Hlt.
  rewrite insert_take_drop by done. pose proof (take_drop_middle l i y Hi) as Hl.
  assert (bytes (take i l)) as Ha by (by apply Forall_take). assert (bytes (drop (S i) l)) as Hd by (by apply Forall_drop).
  assert (is_u8 y) as Hy by (exact (Forall_lookup_1 is_u8 l i y Hb Hi)).
  revert Hl Ha Hd. generalize (take i l) (drop (S i) l). intros a d <- Ha Hd. rewrite <- !app_assoc, !(app_assoc pre).
  cbn [app]. apply crc_detects_octet_corruption; [by apply Forall_app_2 | done | done | by apply Forall_app_2 | done].
Qed.

Lemma sctp_packet_fields sp dp v body :
  take 8 (sctp_packet sp dp v body) = header8 sp dp v /\ drop 12 (sctp_packet sp dp v body) = body /\
  take 4 (drop 8 (sctp_packet sp dp v body)) = le32 (nano_crc32c (header8 sp dp v ++ zero4 ++ body)).
Proof. done. Qed.

(** A packet the library finishes verifies and its header reads back to the
    ports and the verification tag; changing any one octet of it, the checksum
    field included, makes the verification refuse it. *)
Theorem sctp_checksum_detects (sp dp vtag : Z) (body : list Z) (i : nat) (x y : Z) :
  is_u16 sp -> is_u16 dp -> is_u32 vtag -> bytes body -> is_u8 x ->
  let packet := sctp_packet sp dp vtag body in
  nsctp_finalize_checksum (header8 sp dp vtag ++ zero4 ++ body) (12 + length body) = Ok packet /\
  nsctp_verify_checksum packet = Ok NANORTC_OK /\ nsctp_parse_header packet = Ok (NsctpHeader sp dp vtag) /\
  (packet !! i = Some y -> x <> y -> nsctp_verify_checksum (<[i := x]> packet) = Ok NANORTC_ERR_PROTOCOL).
Proof.
  intros Hsp Hdp Hv Hb Hx packet. pose proof (sctp_packet_fields sp dp vtag body) as (F1 & F2 & F3). fold packet in F1, F2, F3.
  set (h := header8 sp dp vtag) in *. assert (bytes (h ++ zero4 ++ body)) as Hall.
  { apply Forall_app_2; [apply header8_bytes|]. apply Forall_app_2; [bytes_lit | done]. }
  assert (length packet = 12 + length body)%nat as Hl by apply sctp_packet_length.
  split; [|split; [|split]].
  - unfold h. rewrite <- (app_nil_r body), (finalize_spec _ _ _ zero4) by (rewrite ?app_nil_r; done). by rewrite !app_nil_r.
  - rewrite verify_checksum_spec by lia. by rewrite F1, F2, F3, bool_decide_eq_true_2.
  - unfold nsctp_parse_header. rewrite Hl. cbn [Nat.ltb Nat.leb Nat.add SCTP_HEADER_SIZE].
    assert (nanortc_read_u16be packet 0 = Ok sp) as -> by (by apply read16_field).
    assert (nanortc_read_u16be packet 2 = Ok dp) as -> by (by apply read16_field).
    by assert (nanortc_read_u32be packet 4 = Ok vtag) as -> by (by apply read32_field).
  - intros Hi Hne. rewrite verify_checksum_spec by (rewrite length_insert; lia). rewrite bool_decide_eq_false_2; [done|].
    assert (packet = h ++ le32 (nano_crc32c (h ++ zero4 ++ body)) ++ body) as Hp by done.
    assert (length h = 8)%nat as Hh by done. assert (bytes zero4) as Hz by bytes_lit. assert (bytes h) as Hhb by apply header8_bytes.
    assert (forall l, bytes l -> is_u32 (nano_crc32c (h ++ zero4 ++ l))) as Hr.
    { intros l Hlb. apply nano_crc32c_range. apply Forall_app_2; [done|]. by apply Forall_app_2. }
    intros Heq. destruct (le_lt_dec 8 i) as [H8|H8]; [destruct (le_lt_dec 12 i) as [H12|H12]|].
    + assert (body !! (i - 12)%nat = Some y) as Hi' by (rewrite <- F2, lookup_drop; by replace (12 + (i - 12))%nat with i by lia).
      rewrite take_insert_ge, (drop_insert_ge packet 12 i), (drop_insert_ge packet 8 i), take_insert_ge, F1, F2, F3 in Heq by lia.
      apply le32_inj in Heq; [|by apply Hr, Forall_insert | by apply Hr].
      apply (crc32c_mid_differs (h ++ zero4) body [] (i - 12) x y); try done; [by apply Forall_app_2|].
      by rewrite !app_nil_r, <- !app_assoc.
    + rewrite take_insert_ge, drop_insert_lt, (drop_insert_ge packet 8 i), take_insert_lt, F1, F2, F3 in Heq by lia.
      apply (f_equal (fun l => l !! (i - 8)%nat)) in Heq. rewrite list_lookup_insert_eq in Heq by (cbn; lia).
      rewrite <- F3, lookup_take_lt, lookup_drop in Heq by lia. replace (8 + (i - 8))%nat with i in Heq by lia. congruence.
    + assert (h !! i = Some y) as Hi' by (rewrite <- F1, lookup_take_lt by lia; done).
      rewrite take_insert_lt, drop_insert_lt, drop_insert_lt, F1, F2, F3 in Heq by lia.
      apply le32_inj in Heq; [| |by apply Hr].
      2: { apply nano_crc32c_range. apply Forall_app_2; [by apply Forall_insert|]. by apply Forall_app_2. }
      revert Heq. apply (crc32c_mid_differs [] h (zero4 ++ body) i x y); try done. by apply Forall_app_2.
Qed.
Lemma sctp_checksum_detects_witness :
  let packet := sctp_packet 5000 5000 7 [3; 0; 0; 4] in
  nsctp_verify_checksum packet = Ok NANORTC_OK /\ nsctp_verify_checksum (<[15%nat := 5]> packet) = Ok NANORTC_ERR_PROTOCOL.
Proof.
  intros packet. destruct (sctp_checksum_detects 5000 5000 7 [3; 0; 0; 4] 15 5 4) as (_ & H1 & _ & H2);
    [unfold is_u16; lia | unfold is_u16; lia | unfold is_u32; lia | bytes_lit | unfold is_u8; lia |].
  split; [exact H1|]. apply H2; [reflexivity | lia].
Defined.
Lemma sctp_data_roundtrip_witness :
  exists chunk, nsctp_encode_data (replicate 40 0) 9 1 2 51 3 [104; 105] =
    Ok (padded chunk ++ drop 20 (replicate 40 0), 20%nat) /\ nsctp_parse_data chunk = Ok (NsctpData 9 1 2 51 3 [104; 105]).
Proof.
  destruct (sctp_data_roundtrip (replicate 40 0) 9 1 2 51 3 [104; 105]) as (chunk & Hl & He & Hp);
    [unfold is_u32; lia | unfold is_u16; lia | unfold is_u16; lia | unfold is_u32; lia | unfold UINT16_MAX; cbn; lia |].
  exists chunk. split; [|exact Hp]. rewrite He, Hl. reflexivity.
Defined.

(** * INIT and INIT ACK *)

Definition init_cookie_param (cookie : list Z) : list Z :=
  if (0 <? length cookie)%nat
  then be16 SCTP_PARAM_STATE_COOKIE ++ be16 (4 + Z.of_nat (length cookie)) ++ cookie ++
       replicate (SCTP_PAD4 (24 + length cookie) - (24 + length cookie)) 0
  else [].
Definition init_params_bytes (cookie : list Z) : list Z := init_cookie_param cookie ++ be16 SCTP_PARAM_FORWARD_TSN ++ be16 4.
Definition init_body (tag rwnd os ins tsn : Z) : list Z := be32 tag ++ be32 rwnd ++ be16 os ++ be16 ins ++ be32 tsn.
Definition init_chunk (type tag rwnd os ins tsn : Z) (cookie : list Z) : list Z :=
  [type; 0] ++ be16 (20 + Z.of_nat (length (init_params_bytes cookie))) ++ init_body tag rwnd os ins tsn ++ init_params_bytes cookie.

Lemma pad4_add n k : SCTP_PAD4 (4 * k + n) = (4 * k + SCTP_PAD4 n)%nat.
Proof.
  rewrite !pad4_eq. replace (4 * k + n + 3)%nat with (n + 3 + k * 4)%nat by lia. rewrite Nat.div_add by lia. lia.
Qed.
Lemma init_params_length cookie :
  length (init_params_bytes cookie) = (4 + (if (0 <? length cookie)%nat then SCTP_PAD4 (4 + length cookie) else 0))%nat.
Proof.
  unfold init_params_bytes, init_cookie_param. rewrite length_app.
  destruct (Nat.ltb_spec 0 (length cookie)); [|done]. rewrite !length_app, length_replicate.
  pose proof (pad4_ge (24 + length cookie)). pose proof (pad4_add (4 + length cookie) 5) as Hp. cbn [Nat.mul Nat.add] in *.
  change (length (be16 _)) with 2%nat. lia.
Qed.
Lemma init_chunk_length type tag rwnd os ins tsn cookie :
  length (init_chunk type tag rwnd os ins tsn cookie) = (20 + length (init_params_bytes cookie))%nat.
Proof. done. Qed.

Lemma wr_header_gap (buf : list Z) x y :
  (4 <= length buf)%nat -> exists b2 b3, [x; y] ++ drop 2 buf = [x; y; b2; b3] ++ drop 4 buf.
Proof. intros Hb. destruct buf as [|? [|? [|b2 [|b3 buf]]]]; cbn in Hb; try lia. by exists b2, b3. Qed.

Lemma encode_init_spec buf type tag rwnd os ins tsn cookie :
  Z.of_nat (length cookie) <= 60000 ->
  let chunk := init_chunk type tag rwnd os ins tsn cookie in
  nsctp_encode_init buf type tag rwnd os ins tsn cookie =
  if (length buf <? length chunk)%nat then Ok (buf, 0%nat) else Ok (chunk ++ drop (length chunk) buf, length chunk).
Proof.
  intros Hc chunk. pose proof (init_params_length cookie) as Hpl. pose proof (pad4_ge (4 + length cookie)) as Hp4.
  assert (length chunk = 20 + length (init_params_bytes cookie))%nat as Hcl by apply init_chunk_length.
  unfold nsctp_encode_init. cbv zeta.
  replace (24 + (if (0 <? length cookie)%nat then SCTP_PAD4 (4 + length cookie) else 0))%nat with (length chunk) by lia.
  assert (Z.of_nat (length chunk) <= UINT16_MAX) as Hlim by (unfold UINT16_MAX; destruct (0 <? length cookie)%nat; lia).
  rewrite (proj2 (Z.ltb_ge _ _)) by done. rewrite orb_false_r. destruct (Nat.ltb_spec (length buf) (length chunk)) as [|Hb]; [done|].
  unfold nanortc_write_u16be, nanortc_write_u32be. rewrite wr_then by done. cbn [app].
  rewrite wr_0, bind_Ok by (cbn; lia). change (length [type; 0]) with 2%nat.
  destruct (wr_header_gap buf type 0) as (b2 & b3 & ->); [lia|]. rewrite !wr_then by done. rewrite <- !app_assoc.
  fold (init_body tag rwnd os ins tsn). set (body := init_body tag rwnd os ins tsn). assert (length body = 16)%nat as Hbl by done.
  rewrite wr_append by (rewrite ?length_drop; first [done | lia]). rewrite bind_Ok, Hbl, drop_drop. change (4 + 16)%nat with 20%nat.
  set (pre := [type; 0; b2; b3] ++ body). assert (length pre = 20)%nat as Hpre by done.
  assert ((if (0 <? length cookie)%nat
           then buf0 ← wr (pre ++ drop 20 buf) 20 (be16 SCTP_PARAM_STATE_COOKIE);
                buf0 ← wr buf0 22 (be16 (u16 (4 + Z.of_nat (length cookie))));
                buf0 ← wr buf0 24 cookie;
                buf0 ← wr buf0 (24 + length cookie) (replicate (SCTP_PAD4 (24 + length cookie) - (24 + length cookie)) 0);
                Ok (buf0, SCTP_PAD4 (24 + length cookie))
           else Ok (pre ++ drop 20 buf, 20%nat)) =
          Ok ((pre ++ init_cookie_param cookie) ++ drop (20 + length (init_cookie_param cookie)) buf,
              (20 + length (init_cookie_param cookie))%nat)) as ->.
  { unfold init_params_bytes in Hcl. rewrite length_app in Hcl. cbn [length be16 app] in Hcl.
    unfold init_cookie_param in *. destruct (Nat.ltb_spec 0 (length cookie)); [|by rewrite app_nil_r].
    rewrite !wr_then by (cbn; lia). rewrite <- !app_assoc. rewrite u16_id by mach. set (param := be16 _ ++ _) in *.
    rewrite wr_append by (rewrite ?length_drop; first [done | lia]). rewrite bind_Ok, drop_drop. f_equal. f_equal; [unfold param; by rewrite <- !app_assoc|].
    unfold param. rewrite !length_app, length_replicate. pose proof (pad4_ge (24 + length cookie)).
    change (length (be16 _)) with 2%nat. lia. }
  rewrite bind_Ok. rewrite <- (app_nil_r (init_cookie_param cookie)) at 1. rewrite !wr_then by (cbn; lia).
  assert (length chunk = 20 + length (init_cookie_param cookie) + 4)%nat as Hcl'.
  { rewrite Hcl. unfold init_params_bytes. rewrite length_app. cbn. lia. }
  rewrite app_nil_r, wr_append by (rewrite ?length_app, ?length_drop, ?Hpre; cbn; lia). rewrite bind_Ok, drop_drop.
  unfold pre. rewrite <- !app_assoc. change ([type; 0; b2; b3] ++ ?x) with ([type; 0] ++ [b2; b3] ++ x).
  rewrite wr_mid by done. rewrite bind_Ok. cbn [length be16 app]. rewrite <- Hcl'. rewrite u16_id by mach.
  assert (chunk = [type; 0] ++ be16 (Z.of_nat (length chunk)) ++ body ++ init_cookie_param cookie ++
                  be16 SCTP_PARAM_FORWARD_TSN ++ be16 4) as Hch.
  { rewrite Hcl. unfold chunk, init_chunk, init_params_bytes. do 3 f_equal. lia. }
  do 2 f_equal. refine (eq_trans _ (f_equal (fun l => l ++ drop (length chunk) buf) (eq_sym Hch))). cbv beta.
  by rewrite <- !app_assoc.
Qed.

(** What the parameter scan makes of the parameters the encoder writes. *)
Lemma init_params_spec pre cookie fuel :
  length pre = 20%nat -> Z.of_nat (length cookie) <= 60000 -> (2 <= fuel)%nat ->
  let chunk := pre ++ init_params_bytes cookie in
  init_params fuel chunk (length chunk) 20 None false = Ok (if (0 <? length cookie)%nat then Some cookie else None, true).
Proof.
  intros Hpre Hc Hf chunk. pose proof (init_params_length cookie) as Hpl. pose proof (pad4_ge (4 + length cookie)) as Hp4.
  assert (length chunk = 20 + length (init_params_bytes cookie))%nat as Hcl by (unfold chunk; rewrite length_app; lia).
  assert (forall f pos c, (pos + 4 = length chunk)%nat -> (0 < pos)%nat ->
    drop pos chunk = be16 SCTP_PARAM_FORWARD_TSN ++ be16 4 -> init_params (S f) chunk (length chunk) pos c false = Ok (c, true)) as Hlast.
  { intros f pos c Hpos H0 Hd. cbn [init_params]. rewrite !(proj2 (Nat.leb_le _ _)) by lia. cbn [andb].
    assert (chunk = take pos chunk ++ be16 SCTP_PARAM_FORWARD_TSN ++ be16 4) as Hsp by (rewrite <- Hd; by rewrite take_drop).
    assert (length (take pos chunk) = pos) as Htl by (rewrite length_take; lia).
    assert (nanortc_read_u16be chunk pos = Ok SCTP_PARAM_FORWARD_TSN) as -> by (rewrite Hsp; by apply read_u16be_app).
    assert (nanortc_read_u16be chunk (pos + 2) = Ok 4) as ->.
    { rewrite Hsp, app_assoc, <- (app_nil_r (be16 4)). apply read_u16be_app. rewrite length_app. cbn. lia. }
    rewrite !bind_Ok. cbn [Z.ltb Z.compare Pos.compare Pos.compare_cont orb andb Z.eqb SCTP_PARAM_FORWARD_TSN SCTP_PARAM_STATE_COOKIE Pos.eqb].
    rewrite bind_Ok. change (SCTP_PAD4 (Z.to_nat 4)) with 4%nat. destruct f; cbn [init_params]; by rewrite (proj2 (Nat.leb_gt _ _)) by lia. }
  destruct fuel as [|[|fuel]]; [lia..|]. unfold init_params_bytes in *. unfold init_cookie_param in *.
  destruct (Nat.ltb_spec 0 (length cookie)) as [Hpos|Hnil].
  2: { apply Hlast; [cbn in Hcl; lia | lia |]. unfold chunk. by rewrite <- Hpre, drop_app_length. }
  pose proof (pad4_add (4 + length cookie) 5) as Hp24.
  replace (4 * 5 + (4 + length cookie))%nat with (24 + length cookie)%nat in Hp24 by lia.
  remember (S fuel) as f1 eqn:Hf1. cbn [init_params]. subst f1. rewrite !(proj2 (Nat.leb_le _ _)) by lia. cbn [andb].
  set (zeros := replicate _ 0) in *. set (ftsn := be16 SCTP_PARAM_FORWARD_TSN ++ be16 4) in *.
  assert (length zeros = SCTP_PAD4 (4 + length cookie) - (4 + length cookie))%nat as Hzl.
  { unfold zeros. rewrite length_replicate. lia. }
  assert (nanortc_read_u16be chunk 20 = Ok SCTP_PARAM_STATE_COOKIE) as ->.
  { unfold chunk. rewrite <- !app_assoc. by apply read_u16be_app. }
  assert (nanortc_read_u16be chunk (20 + 2) = Ok (4 + Z.of_nat (length cookie))) as ->.
  { unfold chunk. rewrite <- !app_assoc, app_assoc, read_u16be_app by (rewrite length_app; cbn; lia). rewrite u16_id; [done|mach]. }
  rewrite !bind_Ok. rewrite (proj2 (Z.ltb_ge _ _)) by lia.
  replace (Z.to_nat (4 + Z.of_nat (length cookie))) with (4 + length cookie)%nat by lia.
  rewrite (proj2 (Nat.leb_le (20 + (4 + length cookie)) _)) by lia.
  cbn [Z.eqb SCTP_PARAM_STATE_COOKIE SCTP_PARAM_FORWARD_TSN Pos.eqb andb orb].
  assert (rdn chunk (20 + 4) (4 + length cookie - 4) = Ok cookie) as ->.
  { unfold chunk. rewrite <- !app_assoc, app_assoc, app_assoc. apply rdn_mid; [rewrite !length_app; cbn; lia | lia]. }
  rewrite !bind_Ok. apply Hlast; [lia | lia |]. unfold chunk.
  rewrite app_assoc. apply drop_app_length'. rewrite !length_app. change (length (be16 _)) with 2%nat. lia.
Qed.

Lemma parse_init_chunk type tag rwnd os ins tsn cookie :
  is_u32 tag -> is_u32 rwnd -> is_u16 os -> is_u16 ins -> is_u32 tsn -> Z.of_nat (length cookie) <= 60000 ->
  nsctp_parse_init (init_chunk type tag rwnd os ins tsn cookie) =
  Ok (NsctpInit tag rwnd os ins tsn (if (0 <? length cookie)%nat then Some cookie else None) true).
Proof.
  intros Ht Hr Ho Hi Hs Hc. set (chunk := init_chunk _ _ _ _ _ _ _). pose proof (init_params_length cookie) as Hpl.
  pose proof (pad4_ge (4 + length cookie)) as Hp4.
  assert (length chunk = 20 + length (init_params_bytes cookie))%nat as Hcl by apply init_chunk_length.
  unfold nsctp_parse_init, SCTP_CHUNK_HDR_SIZE, SCTP_INIT_BODY_SIZE. cbv zeta. rewrite (proj2 (Nat.ltb_ge _ _)) by lia.
  assert (nanortc_read_u32be chunk 4 = Ok tag) as -> by (by apply read32_field).
  assert (nanortc_read_u32be chunk (4 + 4) = Ok rwnd) as -> by (by apply read32_field).
  assert (nanortc_read_u16be chunk (4 + 8) = Ok os) as -> by (by apply read16_field).
  assert (nanortc_read_u16be chunk (4 + 10) = Ok ins) as -> by (by apply read16_field).
  assert (nanortc_read_u32be chunk (4 + 12) = Ok tsn) as -> by (by apply read32_field).
  assert (nanortc_read_u16be chunk 2 = Ok (Z.of_nat (length chunk))) as ->.
  { rewrite Hcl, Nat2Z.inj_add. apply read16_field; [done..|]. destruct (0 <? length cookie)%nat; mach. }
  rewrite !bind_Ok, Nat2Z.id.
  pose proof (init_params_spec (take 20 chunk) cookie (length chunk)) as Hp.
  replace (take 20 chunk ++ init_params_bytes cookie) with chunk in Hp by done.
  change (4 + 16)%nat with 20%nat. rewrite Hp; [done | done | done | lia].
Qed.

(** [nsctp_encode_init] writes an INIT or INIT ACK chunk exactly when it fits,
    and [nsctp_parse_init] reads it back to the same tag, window, stream
    counts, initial TSN and cookie, with Forward TSN support announced. *)
Theorem sctp_init_roundtrip (buf : list Z) (type tag rwnd os ins tsn : Z) (cookie : list Z) :
  is_u32 tag -> is_u32 rwnd -> is_u16 os -> is_u16 ins -> is_u32 tsn -> Z.of_nat (length cookie) <= 60000 ->
  exists chunk,
    nsctp_encode_init buf type tag rwnd os ins tsn cookie =
      (if (length buf <? length chunk)%nat then Ok (buf, 0%nat) else Ok (chunk ++ drop (length chunk) buf, length chunk)) /\
    nsctp_parse_init chunk = Ok (NsctpInit tag rwnd os ins tsn (if (0 <? length cookie)%nat then Some cookie else None) true).
Proof.
  intros Ht Hr Ho Hi Hs Hc. exists (init_chunk type tag rwnd os ins tsn cookie).
  split; [by apply encode_init_spec | by apply parse_init_chunk].
Qed.
Lemma sctp_init_roundtrip_witness :
  exists chunk, nsctp_encode_init (replicate 60 0) SCTP_CHUNK_INIT_ACK 7 4096 65535 65535 9 [1; 2; 3; 4; 5] =
      Ok (chunk ++ drop (length chunk) (replicate 60 0), length chunk) /\
    nsctp_parse_init chunk = Ok (NsctpInit 7 4096 65535 65535 9 (Some [1; 2; 3; 4; 5]) true).
Proof.
  destruct (sctp_init_roundtrip (replicate 60 0) SCTP_CHUNK_INIT_ACK 7 4096 65535 65535 9 [1; 2; 3; 4; 5]) as (chunk & He & Hp);
    [unfold is_u32; lia | unfold is_u32; lia | unfold is_u16; lia | unfold is_u16; lia | unfold is_u32; lia | cbn; lia |].
  exists chunk. split; [|exact Hp]. rewrite He.
  destruct (Nat.ltb_spec (length (replicate 60 0)) (length chunk)) as [Hlt|]; [|done]. exfalso.
  apply (f_equal (fun r => match r with Ok (_, n) => n | _ => 0%nat end)) in He.
  vm_compute in He. discriminate He.
Defined.
