(* ===== verification/SctpRecv.v ===== *)
(** The receive half of [src/nano_sctp.c]: the stream table, the descriptor table
    over the shared payload pool, reassembly, delivery, DATA and FORWARD TSN;
    that the pool stays consistent under non-empty DATA, that what is delivered
    is what the peer sent, and where empty DATA chunks corrupt the pool. *)

From Stdlib Require Import ZArith Lia.
From stdpp Require Import base list numbers relations sorting.
From S2P Require Import Prelude Wire Crc SctpCodec.

Local Open Scope Z_scope.

Definition NANORTC_MAX_DATACHANNELS_SCTP : nat := 8.
Definition NANORTC_SCTP_MAX_RECV_GAP : nat := 8.
Definition NANORTC_SCTP_RECV_GAP_BUF_SIZE : nat := Z.to_nat 4096.
Definition NANORTC_SCTP_MAX_MESSAGE_SIZE : nat := Z.to_nat 4096.
Definition NANORTC_SCTP_MTU : nat := Z.to_nat 1200.

(** [nano_sctp_rx_entry_t] *)
Record rx_entry : Type := RxEntry {
  e_tsn : Z; e_ppid : Z; e_off : nat; e_len : nat; e_sid : Z; e_ssn : Z; e_flags : Z;
  e_delivered : bool; e_valid : bool; e_forwarded : bool
}.
Definition rx_zero : rx_entry := RxEntry 0 0 0 0 0 0 0 false false false.
Definition set_off e n := RxEntry (e_tsn e) (e_ppid e) n (e_len e) (e_sid e) (e_ssn e) (e_flags e) (e_delivered e) (e_valid e) (e_forwarded e).
Definition set_len e n := RxEntry (e_tsn e) (e_ppid e) (e_off e) n (e_sid e) (e_ssn e) (e_flags e) (e_delivered e) (e_valid e) (e_forwarded e).
Definition set_delivered e := RxEntry (e_tsn e) (e_ppid e) (e_off e) (e_len e) (e_sid e) (e_ssn e) (e_flags e) true (e_valid e) (e_forwarded e).
Definition set_invalid e := RxEntry (e_tsn e) (e_ppid e) (e_off e) (e_len e) (e_sid e) (e_ssn e) (e_flags e) (e_delivered e) false (e_forwarded e).
Definition set_forwarded e := RxEntry (e_tsn e) (e_ppid e) (e_off e) (e_len e) (e_sid e) (e_ssn e) (e_flags e) (e_delivered e) (e_valid e) true.
(** The entry [a] after [nsctp_rx_merge] has taken [b] in. *)
Definition absorb (a b : rx_entry) : rx_entry :=
  RxEntry (e_tsn b) (e_ppid a) (e_off a) (e_len a + e_len b) (e_sid a) (e_ssn a) (Z.lor (e_flags a) (Z.land (e_flags b) SCTP_DATA_FLAG_END))
    (e_delivered a) (e_valid a) (e_forwarded a || e_forwarded b).

(** The receive fields of [nano_sctp_t], with its stream table. *)
Record sctp_rx : Type := SctpRx {
  stream_ids : list Z; next_ssn : list Z; recv_ssn : list Z; stream_count : nat;
  cumulative_tsn : Z; sack_needed : bool;
  recv_gap : list rx_entry; recv_gap_count : Z; recv_gap_buf : list Z; recv_gap_buf_used : nat
}.
Definition rx_init : sctp_rx :=
  SctpRx (replicate NANORTC_MAX_DATACHANNELS_SCTP 0) (replicate NANORTC_MAX_DATACHANNELS_SCTP 0) (replicate NANORTC_MAX_DATACHANNELS_SCTP 0) 0
    0 false (replicate NANORTC_SCTP_MAX_RECV_GAP rx_zero) 0 (replicate NANORTC_SCTP_RECV_GAP_BUF_SIZE 0) 0.
Definition set_streams s ids count := SctpRx ids (next_ssn s) (recv_ssn s) count (cumulative_tsn s) (sack_needed s) (recv_gap s) (recv_gap_count s) (recv_gap_buf s) (recv_gap_buf_used s).
Definition set_next_ssn s x := SctpRx (stream_ids s) x (recv_ssn s) (stream_count s) (cumulative_tsn s) (sack_needed s) (recv_gap s) (recv_gap_count s) (recv_gap_buf s) (recv_gap_buf_used s).
Definition set_recv_ssn s x := SctpRx (stream_ids s) (next_ssn s) x (stream_count s) (cumulative_tsn s) (sack_needed s) (recv_gap s) (recv_gap_count s) (recv_gap_buf s) (recv_gap_buf_used s).
Definition set_cumulative s x := SctpRx (stream_ids s) (next_ssn s) (recv_ssn s) (stream_count s) x (sack_needed s) (recv_gap s) (recv_gap_count s) (recv_gap_buf s) (recv_gap_buf_used s).
Definition set_sack s x := SctpRx (stream_ids s) (next_ssn s) (recv_ssn s) (stream_count s) (cumulative_tsn s) x (recv_gap s) (recv_gap_count s) (recv_gap_buf s) (recv_gap_buf_used s).
Definition set_gap s g c := SctpRx (stream_ids s) (next_ssn s) (recv_ssn s) (stream_count s) (cumulative_tsn s) (sack_needed s) g c (recv_gap_buf s) (recv_gap_buf_used s).
Definition set_pool s g b u := SctpRx (stream_ids s) (next_ssn s) (recv_ssn s) (stream_count s) (cumulative_tsn s) (sack_needed s) g (recv_gap_count s) b u.

(** 16-bit arithmetic on offsets and lengths. *)
Definition sub16 (a b : nat) : nat := Z.to_nat (u16 (Z.of_nat a - Z.of_nat b)).
Definition add16 (a b : nat) : nat := Z.to_nat (u16 (Z.of_nat a + Z.of_nat b)).
Definition has_flag (flags f : Z) : bool := negb (Z.land flags f =? 0).
Definition slots : list nat := seq 0 NANORTC_SCTP_MAX_RECV_GAP.
Definition entry (s : sctp_rx) (i : nat) : res rx_entry :=
  match recv_gap s !! i with Some e => Ok e | None => Fault end.
Fixpoint fold_res {A B} (f : A -> B -> res A) (a : A) (l : list B) : res A :=
  match l with [] => Ok a | b :: l => a ← f a b; fold_res f a l end.

(** * Streams *)

Fixpoint find_stream (ids : list Z) (sid : Z) (i : nat) : option nat :=
  match ids with [] => None | x :: ids => if x =? sid then Some i else find_stream ids sid (S i) end.
(** The stream's index, or [None] for the source's [-1]. *)
Definition nsctp_stream (s : sctp_rx) (sid : Z) : sctp_rx * option nat :=
  match find_stream (take (stream_count s) (stream_ids s)) sid 0 with
  | Some i => (s, Some i)
  | None =>
      if (stream_count s =? NANORTC_MAX_DATACHANNELS_SCTP)%nat then (s, None)
      else let i := stream_count s in (set_streams s (<[i := sid]> (stream_ids s)) (S i), Some i)
  end.

(** * The pool *)

Definition shift_down (off n : nat) (e : rx_entry) : rx_entry :=
  if e_valid e && (off <? e_off e)%nat then set_off e (sub16 (e_off e) n) else e.
Definition reclaim_at (s : sctp_rx) (i : nat) : res sctp_rx :=
  e ← entry s i;
  if negb (e_valid e) || negb (e_delivered e) then Ok s else
  let n := e_len e in
  let off := e_off e in
  s ← (if (0 <? n)%nat then
         if (recv_gap_buf_used s <? off + n)%nat then Fault (** the length of the move wraps *) else
         tail ← rdn (recv_gap_buf s) (off + n) (recv_gap_buf_used s - off - n);
         buf ← wr (recv_gap_buf s) off tail;
         Ok (set_sack (set_pool s (<[i := set_len e 0]> (map (shift_down off n) (recv_gap s))) buf
                         (sub16 (recv_gap_buf_used s) n)) true)
       else Ok s);
  if i32 (e_tsn e - cumulative_tsn s) <=? 0
  then e ← entry s i; Ok (set_gap s (<[i := set_invalid e]> (recv_gap s)) (u8 (recv_gap_count s - 1)))
  else Ok s.
Definition nsctp_rx_reclaim (s : sctp_rx) : res sctp_rx := fold_res reclaim_at s slots.

Fixpoint drain_loop (fuel : nat) (s : sctp_rx) : res sctp_rx :=
  if existsb (fun e => e_valid e && (e_tsn e =? u32 (cumulative_tsn s + 1))) (recv_gap s) then
    match fuel with
    | O => Fault
    | S fuel => drain_loop fuel (set_cumulative s (u32 (cumulative_tsn s + 1)))
    end
  else Ok s.
Definition nsctp_gap_drain (s : sctp_rx) : res sctp_rx :=
  s ← drain_loop NANORTC_SCTP_MAX_RECV_GAP s; nsctp_rx_reclaim s.

(** [nsctp_reverse(buf + p, n)] *)
Fixpoint reverse_loop (k : nat) (buf : list Z) (p n i : nat) : res (list Z) :=
  match k with
  | O => Ok buf
  | S k =>
      tmp ← rd8 buf (p + i);
      x ← rd8 buf (p + (n - 1 - i));
      buf ← wr buf (p + i) [x];
      buf ← wr buf (p + (n - 1 - i)) [tmp];
      reverse_loop k buf p n (S i)
  end.
Definition nsctp_reverse (buf : list Z) (p n : nat) : res (list Z) := reverse_loop (n / 2) buf p n 0.

Definition shift_up (slot pos off n j : nat) (e : rx_entry) : rx_entry :=
  if e_valid e && negb (j =? slot)%nat && (pos <=? e_off e)%nat && (e_off e <? off)%nat
  then set_off e (add16 (e_off e) n) else e.
Definition nsctp_rx_move (s : sctp_rx) (slot pos : nat) : res sctp_rx :=
  e ← entry s slot;
  let off := e_off e in
  let n := e_len e in
  if (off =? pos)%nat || (n =? 0)%nat then Ok s else
  if (off <? pos)%nat then Fault (** the length wraps *) else
  buf ← nsctp_reverse (recv_gap_buf s) pos (off - pos);
  buf ← nsctp_reverse buf off n;
  buf ← nsctp_reverse buf pos (off - pos + n);
  Ok (set_pool s (<[slot := set_off e pos]> (imap (shift_up slot pos off n) (recv_gap s))) buf (recv_gap_buf_used s)).

Definition nsctp_fragments_follow (a b : rx_entry) : bool :=
  (e_tsn b =? u32 (e_tsn a + 1)) && (e_sid a =? e_sid b) && (e_ssn a =? e_ssn b) && (e_ppid a =? e_ppid b) &&
  negb (has_flag (Z.lxor (e_flags a) (e_flags b)) SCTP_DATA_FLAG_UNORDERED) &&
  negb (has_flag (e_flags a) SCTP_DATA_FLAG_END) && negb (has_flag (e_flags b) SCTP_DATA_FLAG_BEGIN).

(** The first pair the two loops of [nsctp_rx_merge] stop at. *)
Definition merges (cum : Z) (a b : rx_entry) : bool :=
  e_valid b && negb (e_delivered b) && negb (i32 (e_tsn b - cum) >? 0) && nsctp_fragments_follow a b.
Fixpoint find_from (P : rx_entry -> bool) (gap : list rx_entry) (j : nat) : option nat :=
  match gap with [] => None | b :: gap => if P b then Some j else find_from P gap (S j) end.
Fixpoint find_pair (cum : Z) (all gap : list rx_entry) (i : nat) : option (nat * nat) :=
  match gap with
  | [] => None
  | a :: gap =>
      match (if e_valid a && negb (e_delivered a) then find_from (merges cum a) all 0 else None) with
      | Some j => Some (i, j)
      | None => find_pair cum all gap (S i)
      end
  end.
Fixpoint merge_loop (fuel : nat) (s : sctp_rx) : res (sctp_rx * Z) :=
  match find_pair (cumulative_tsn s) (recv_gap s) (recv_gap s) 0 with
  | None => Ok (s, NANORTC_OK)
  | Some (i, j) =>
      match fuel with
      | O => Fault
      | S fuel =>
          a ← entry s i; b ← entry s j;
          if (NANORTC_SCTP_MAX_MESSAGE_SIZE <? e_len a + e_len b)%nat then Ok (s, NANORTC_ERR_BUFFER_TOO_SMALL) else
          s ← nsctp_rx_move s i 0;
          s ← nsctp_rx_move s j (e_len a);
          a ← entry s i; b ← entry s j;
          merge_loop fuel (set_gap s (<[j := set_invalid b]> (<[i := absorb a b]> (recv_gap s))) (u8 (recv_gap_count s - 1)))
      end
  end.
Definition nsctp_rx_merge (s : sctp_rx) : res (sctp_rx * Z) := merge_loop NANORTC_SCTP_MAX_RECV_GAP s.

(** * Delivery *)

(** [nano_sctp_message_t]; the borrowed view is its octets. *)
Record message : Type := Message { msg_data : list Z; msg_ppid : Z; msg_sid : Z }.

(** The fragments of the message beginning at [tsn]: an error code, or the slots
    with the total size when they are complete. *)
Fixpoint collect_parts (k : nat) (gap : list rx_entry) (tsn : Z) (parts : list nat) (total : nat) : Z + option (list nat * nat) :=
  match k with
  | O => inr None
  | S k =>
      match find_from (fun e => e_valid e && negb (e_delivered e) && (e_tsn e =? tsn)) gap 0 with
      | None => inr None
      | Some j =>
          let e := nth j gap rx_zero in
          if match parts with [] => false | p :: _ => negb (nsctp_fragments_follow (nth p gap rx_zero) e) end
          then inl NANORTC_ERR_PROTOCOL
          else if (NANORTC_SCTP_MAX_MESSAGE_SIZE - total <? e_len e)%nat then inl NANORTC_ERR_BUFFER_TOO_SMALL
          else
            let parts := j :: parts in
            let total := (total + e_len e)%nat in
            if has_flag (e_flags e) SCTP_DATA_FLAG_END then inr (Some (rev parts, total))
            else collect_parts k gap (u32 (tsn + 1)) parts total
      end
  end.
Fixpoint deliver_parts (s : sctp_rx) (parts : list nat) (pos : nat) : res sctp_rx :=
  match parts with
  | [] => Ok s
  | j :: parts =>
      s ← nsctp_rx_move s j pos;
      e ← entry s j;
      deliver_parts (set_gap s (<[j := set_delivered e]> (recv_gap s)) (recv_gap_count s)) parts (pos + e_len e)
  end.
Definition earlier_forwarded (gap : list rx_entry) (e : rx_entry) : bool :=
  existsb (fun f => e_valid f && negb (e_delivered f) && (e_sid f =? e_sid e) && e_forwarded f && (i16 (e_ssn f - e_ssn e) <? 0)) gap.
Definition nth_ssn (s : sctp_rx) (i : nat) : Z := nth i (recv_ssn s) 0.

Fixpoint poll_slots (order : list nat) (s : sctp_rx) : res (sctp_rx * Z * option message) :=
  match order with
  | [] => Ok (s, NANORTC_ERR_WOULD_BLOCK, None)
  | i :: rest =>
      e ← entry s i;
      if negb (e_valid e) || e_delivered e || negb (has_flag (e_flags e) SCTP_DATA_FLAG_BEGIN) then poll_slots rest s else
      let '(s, stream) := nsctp_stream s (e_sid e) in
      let unordered := has_flag (e_flags e) SCTP_DATA_FLAG_UNORDERED in
      let forwarded := e_forwarded e in
      match stream with
      | None => poll_slots rest s
      | Some st =>
          if negb unordered && negb forwarded && negb (e_ssn e =? nth_ssn s st) then poll_slots rest s else
          if negb unordered && earlier_forwarded (recv_gap s) e then poll_slots rest s else
          match collect_parts NANORTC_SCTP_MAX_RECV_GAP (recv_gap s) (e_tsn e) [] 0 with
          | inl rc => Ok (s, rc, None)
          | inr None => poll_slots rest s
          | inr (Some (parts, total)) =>
              s ← deliver_parts s parts 0;
              data ← rdn (recv_gap_buf s) 0 total;
              let s := if negb unordered && negb forwarded
                       then set_recv_ssn s (<[st := u16 (nth_ssn s st + 1)]> (recv_ssn s)) else s in
              Ok (s, NANORTC_OK, Some (Message data (e_ppid e) (e_sid e)))
          end
      end
  end.
Definition nsctp_poll_delivery (s : sctp_rx) : res (sctp_rx * Z * option message) :=
  s ← nsctp_rx_reclaim s; poll_slots slots s.

(** * DATA *)

(** The first scan: [None] when the TSN is held already, else the last free slot
    ([NANORTC_SCTP_MAX_RECV_GAP] when there is none). *)
Fixpoint free_slot (gap : list rx_entry) (tsn : Z) (i slot : nat) : option nat :=
  match gap with
  | [] => Some slot
  | e :: gap =>
      if e_valid e && (e_tsn e =? tsn) then None
      else free_slot gap tsn (S i) (if e_valid e then slot else i)
  end.
Fixpoint check_previous (gap : list rx_entry) (incoming : rx_entry) : Z :=
  match gap with
  | [] => NANORTC_OK
  | p :: gap =>
      if negb (e_valid p) || e_delivered p || has_flag (e_flags p) SCTP_DATA_FLAG_END || negb (u32 (e_tsn p + 1) =? e_tsn incoming)
      then check_previous gap incoming
      else if negb (nsctp_fragments_follow p incoming) then NANORTC_ERR_PROTOCOL
      else if (NANORTC_SCTP_MAX_MESSAGE_SIZE - e_len p <? e_len incoming)%nat then NANORTC_ERR_BUFFER_TOO_SMALL
      else check_previous gap incoming
  end.
Definition wire_flags (flags : Z) : Z :=
  Z.land flags (Z.lor (Z.lor SCTP_DATA_FLAG_BEGIN SCTP_DATA_FLAG_END) SCTP_DATA_FLAG_UNORDERED).

(** [nsctp_handle_data_chunk] of an established association. *)
Definition rx_data (s : sctp_rx) (data : nsctp_data) : res (sctp_rx * Z) :=
  let payload_len := length (d_payload data) in
  if (NANORTC_SCTP_MAX_MESSAGE_SIZE <? payload_len)%nat then Ok (s, NANORTC_ERR_BUFFER_TOO_SMALL) else
  let s := set_sack s true in
  if i32 (d_tsn data - cumulative_tsn s) <=? 0 then Ok (s, NANORTC_OK) else
  s ← nsctp_rx_reclaim s;
  match free_slot (recv_gap s) (d_tsn data) 0 NANORTC_SCTP_MAX_RECV_GAP with
  | None => Ok (s, NANORTC_OK)
  | Some slot =>
      let incoming := RxEntry (d_tsn data) (d_ppid data) 0 payload_len (d_stream_id data) (d_ssn data) (wire_flags (d_flags data)) false true false in
      let rc := if negb (has_flag (e_flags incoming) SCTP_DATA_FLAG_BEGIN) then check_previous (recv_gap s) incoming else NANORTC_OK in
      if negb (rc =? NANORTC_OK) then Ok (s, rc) else
      let gap := negb (d_tsn data =? u32 (cumulative_tsn s + 1)) in
      let reserve := if gap then (NANORTC_SCTP_MTU - 28)%nat else 0%nat in
      let free_bytes := (NANORTC_SCTP_RECV_GAP_BUF_SIZE - recv_gap_buf_used s)%nat in
      if (slot =? NANORTC_SCTP_MAX_RECV_GAP)%nat || (gap && (Z.of_nat NANORTC_SCTP_MAX_RECV_GAP - 1 <=? recv_gap_count s)) ||
         (free_bytes <? reserve)%nat || (free_bytes - reserve <? payload_len)%nat
      then Ok (s, NANORTC_ERR_WOULD_BLOCK) else
      let '(s, stream) := nsctp_stream s (d_stream_id data) in
      match stream with
      | None => Ok (s, NANORTC_ERR_PROTOCOL)
      | Some _ =>
          let off := recv_gap_buf_used s in
          buf ← (if (0 <? payload_len)%nat then wr (recv_gap_buf s) off (d_payload data) else Ok (recv_gap_buf s));
          let s := set_pool s (<[slot := set_off incoming off]> (recv_gap s)) buf (add16 off payload_len) in
          s ← nsctp_gap_drain (set_gap s (recv_gap s) (u8 (recv_gap_count s + 1)));
          nsctp_rx_merge s
      end
  end.
(** The same from the chunk's octets. *)
Definition rx_data_chunk (s : sctp_rx) (chunk : list Z) : res (sctp_rx * Z) :=
  match nsctp_parse_data chunk with
  | Ok data => rx_data s data
  | Err _ => Ok (s, NANORTC_ERR_PARSE)
  | Fault => Fault
  end.

(** * FORWARD TSN *)

Definition skip_stranded (new_tsn : Z) (e : rx_entry) : rx_entry :=
  if e_valid e && (i32 (e_tsn e - new_tsn) <=? 0) && negb (Z.land (e_flags e) 3 =? 3) then set_delivered e else e.
Definition forward_entry (sid ssn : Z) (e : rx_entry) : rx_entry :=
  if e_valid e && (e_sid e =? sid) && negb (has_flag (e_flags e) SCTP_DATA_FLAG_UNORDERED) && (i16 (e_ssn e - ssn) <=? 0)
  then set_forwarded e else e.
(** The stream list of the chunk, from [pos]. *)
Fixpoint forward_streams (fuel : nat) (s : sctp_rx) (chunk : list Z) (pos : nat) : res (sctp_rx * Z) :=
  if (pos <? length chunk)%nat then
    match fuel with
    | O => Fault
    | S fuel =>
        sid ← nanortc_read_u16be chunk pos;
        ssn ← nanortc_read_u16be chunk (pos + 2);
        let '(s, stream) := nsctp_stream s sid in
        match stream with
        | None => Ok (s, NANORTC_ERR_PROTOCOL)
        | Some st =>
            if i16 (ssn - nth_ssn s st) <? 0 then forward_streams fuel s chunk (pos + 4) else
            let s := set_gap s (map (forward_entry sid ssn) (recv_gap s)) (recv_gap_count s) in
            forward_streams fuel (set_recv_ssn s (<[st := u16 (ssn + 1)]> (recv_ssn s))) chunk (pos + 4)
        end
    end
  else Ok (s, NANORTC_OK).
Definition rx_forward_tsn (s : sctp_rx) (peer_forward_tsn : bool) (chunk : list Z) : res (sctp_rx * Z) :=
  let clen := length chunk in
  if (clen <? 8)%nat || negb ((clen - 8) mod 4 =? 0)%nat then Ok (s, NANORTC_ERR_PARSE) else
  if negb peer_forward_tsn then Ok (s, NANORTC_ERR_PROTOCOL) else
  new_tsn ← nanortc_read_u32be chunk 4;
  let s := set_sack s true in
  if i32 (new_tsn - cumulative_tsn s) <=? 0 then Ok (s, NANORTC_OK) else
  '(s, rc) ← nsctp_rx_merge (set_cumulative s new_tsn);
  if negb (rc =? NANORTC_OK) then Ok (s, rc) else
  '(s, rc) ← forward_streams clen (set_gap s (map (skip_stranded new_tsn) (recv_gap s)) (recv_gap_count s)) chunk 8;
  if negb (rc =? NANORTC_OK) then Ok (s, rc) else
  s ← nsctp_gap_drain s; Ok (s, NANORTC_OK).

(** The TSNs [nsctp_encode_sack_with_gaps] reports: those of the valid entries. *)
Definition held_tsns (s : sctp_rx) : list Z := map e_tsn (filter (fun e => e_valid e = true) (recv_gap s)).

(** * The pool invariant *)

Definition size_facts :
  Z.of_nat NANORTC_SCTP_RECV_GAP_BUF_SIZE = 4096 /\ Z.of_nat NANORTC_SCTP_MAX_MESSAGE_SIZE = 4096 /\ Z.of_nat NANORTC_SCTP_MTU = 1200.
Proof. repeat split. Qed.
#[local] Opaque NANORTC_SCTP_RECV_GAP_BUF_SIZE NANORTC_SCTP_MAX_MESSAGE_SIZE NANORTC_SCTP_MTU.

(** A descriptor that owns octets of the pool. *)
Definition owns (e : rx_entry) : Prop := e_valid e = true /\ (0 < e_len e)%nat.
Definition content (buf : list Z) (e : rx_entry) : list Z := take (e_len e) (drop (e_off e) buf).
Definition live_len (e : rx_entry) : nat := if e_valid e then e_len e else 0.
Definition apart (e f : rx_entry) : Prop := (e_off e + e_len e <= e_off f \/ e_off f + e_len f <= e_off e)%nat.

Record pool_ok (s : sctp_rx) : Prop := {
  po_gap : length (recv_gap s) = NANORTC_SCTP_MAX_RECV_GAP;
  po_buf : length (recv_gap_buf s) = NANORTC_SCTP_RECV_GAP_BUF_SIZE;
  po_used : recv_gap_buf_used s = sum_list_with live_len (recv_gap s);
  po_le : (recv_gap_buf_used s <= NANORTC_SCTP_RECV_GAP_BUF_SIZE)%nat;
  po_in : forall i e, recv_gap s !! i = Some e -> owns e -> (e_off e + e_len e <= recv_gap_buf_used s)%nat;
  po_apart : forall i j e f, recv_gap s !! i = Some e -> recv_gap s !! j = Some f -> i <> j -> owns e -> owns f -> apart e f;
  po_undelivered : forall i e, recv_gap s !! i = Some e -> e_valid e = true -> e_delivered e = false -> (0 < e_len e)%nat;
  po_count : recv_gap_count s = Z.of_nat (length (filter (fun e => e_valid e = true) (recv_gap s)))
}.

(** What a descriptor stands for: the fields on the wire, its delivery state and,
    until it is delivered, its octets. *)
Record held : Type := Held {
  a_tsn : Z; a_ppid : Z; a_sid : Z; a_ssn : Z; a_flags : Z; a_delivered : bool; a_forwarded : bool; a_data : list Z
}.
Definition held_of (buf : list Z) (e : rx_entry) : option held :=
  if e_valid e then Some (Held (e_tsn e) (e_ppid e) (e_sid e) (e_ssn e) (e_flags e) (e_delivered e) (e_forwarded e)
                            (if e_delivered e then [] else content buf e)) else None.
Definition table (s : sctp_rx) : list (option held) := map (held_of (recv_gap_buf s)) (recv_gap s).

Lemma entry_Ok s i e : recv_gap s !! i = Some e -> entry s i = Ok e.
Proof. unfold entry. by intros ->. Qed.
Lemma table_lookup s i e : recv_gap s !! i = Some e -> table s !! i = Some (held_of (recv_gap_buf s) e).
Proof. intros H. unfold table. by rewrite list_lookup_fmap, H. Qed.
Lemma table_ext s s' :
  length (recv_gap s') = length (recv_gap s) ->
  (forall i e, recv_gap s !! i = Some e -> exists e', recv_gap s' !! i = Some e' /\
     held_of (recv_gap_buf s') e' = held_of (recv_gap_buf s) e) -> table s' = table s.
Proof.
  intros Hl H. apply list_eq. intros i. unfold table. rewrite !list_lookup_fmap.
  destruct (recv_gap s !! i) as [e|] eqn:He; [destruct (H i e He) as (e' & -> & Hh); cbn; by rewrite Hh|].
  apply lookup_ge_None_1 in He. by rewrite lookup_ge_None_2 by lia.
Qed.
Lemma content_ext (buf buf' : list Z) len o o' :
  (forall k, (k < len)%nat -> buf' !! (o' + k)%nat = buf !! (o + k)%nat) -> take len (drop o' buf') = take len (drop o buf).
Proof.
  intros H. apply list_eq. intros k. destruct (le_lt_dec len k); [by rewrite !lookup_take_ge by lia|].
  rewrite !lookup_take_lt, !lookup_drop by done. by apply H.
Qed.

(** Sums and counts of a table with one entry replaced. *)
Lemma sum_list_insert {A} (f : A -> nat) l i x y :
  l !! i = Some x -> (sum_list_with f (<[i := y]> l) + f x = sum_list_with f l + f y)%nat.
Proof.
  revert i. induction l as [|z l IH]; intros [|i] H; try done; [injection H as ->; cbn; lia|].
  specialize (IH i H). change (<[S i := y]> (z :: l)) with (z :: <[i := y]> l). cbn [sum_list_with]. lia.
Qed.
Lemma sum_list_lookup {A} (f : A -> nat) l i x : l !! i = Some x -> (f x <= sum_list_with f l)%nat.
Proof. revert i. induction l as [|z l IH]; intros [|i] H; cbn in *; try done; [injection H as ->; lia|]. specialize (IH _ H). lia. Qed.
Lemma sum_list_lookup2 {A} (f : A -> nat) l i j x y :
  l !! i = Some x -> l !! j = Some y -> i <> j -> (f x + f y <= sum_list_with f l)%nat.
Proof.
  revert i j. induction l as [|z l IH]; intros [|i] [|j] Hi Hj Hne; cbn in *; try done.
  - injection Hi as ->. pose proof (sum_list_lookup f l j y Hj). lia.
  - injection Hj as ->. pose proof (sum_list_lookup f l i x Hi). lia.
  - assert (i <> j) as Hne' by congruence. specialize (IH _ _ Hi Hj Hne'). lia.
Qed.
Definition valid_count (gap : list rx_entry) : nat := length (filter (fun e => e_valid e = true) gap).
Lemma valid_count_insert gap i x y :
  gap !! i = Some x -> (valid_count (<[i := y]> gap) + Nat.b2n (e_valid x) = valid_count gap + Nat.b2n (e_valid y))%nat.
Proof.
  unfold valid_count. revert i. induction gap as [|z gap IH]; intros [|i] H; try done.
  - injection H as ->. change (<[0%nat := y]> (x :: gap)) with (y :: gap). rewrite !filter_cons. repeat case_decide; destruct (e_valid x), (e_valid y); try done; cbn [length Nat.b2n]; lia.
  - specialize (IH i H). change (<[S i := y]> (z :: gap)) with (z :: <[i := y]> gap).
    rewrite !filter_cons. destruct (decide _); cbn [length]; lia.
Qed.
Lemma valid_count_map (f : rx_entry -> rx_entry) gap : (forall e, e_valid (f e) = e_valid e) -> valid_count (map f gap) = valid_count gap.
Proof.
  intros Hf. unfold valid_count. induction gap as [|e gap IH]; [done|]. cbn [map]. rewrite !filter_cons, Hf.
  destruct (decide _); cbn; lia.
Qed.
Lemma valid_count_imap (f : nat -> rx_entry -> rx_entry) gap : (forall i e, e_valid (f i e) = e_valid e) -> valid_count (imap f gap) = valid_count gap.
Proof.
  unfold valid_count. revert f. induction gap as [|e gap IH]; intros f Hf; [done|]. cbn [imap]. rewrite !filter_cons, Hf.
  destruct (decide _); cbn; rewrite (IH (f ∘ S)) by (intros; apply Hf); lia.
Qed.
Lemma sum_list_map_ext {A} (f : A -> nat) (g : A -> A) l : (forall x, f (g x) = f x) -> sum_list_with f (map g l) = sum_list_with f l.
Proof. intros H. induction l as [|x l IH]; cbn; [done|]. by rewrite H, IH. Qed.
Lemma sum_list_imap_ext {A} (f : A -> nat) (g : nat -> A -> A) l : (forall i x, f (g i x) = f x) -> sum_list_with f (imap g l) = sum_list_with f l.
Proof. revert g. induction l as [|x l IH]; intros g H; cbn; [done|]. rewrite H, (IH (g ∘ S)); [done|]. intros; apply H. Qed.

(** * Moving inside the pool *)

Lemma reverse_loop_Ok k buf p n i :
  (i + k <= n)%nat -> (2 * (i + k) <= n)%nat -> (p + n <= length buf)%nat ->
  exists b, reverse_loop k buf p n i = Ok b /\ length b = length buf /\
    forall m, b !! m = if (p + i <=? m)%nat && (m <? p + i + k)%nat || (p + n - i - k <=? m)%nat && (m <? p + n - i)%nat
                       then buf !! (p + (n - 1 - (m - p)))%nat else buf !! m.
Proof.
  revert buf i. induction k as [|k IH]; intros buf i Hi Hk Hb; cbn [reverse_loop].
  { exists buf. split; [done|]. split; [done|]. intros m. zbool; cbn [andb orb]; try done; lia. }
  destruct (lookup_lt_is_Some_2 buf (p + i) ltac:(lia)) as [x Hx].
  destruct (lookup_lt_is_Some_2 buf (p + (n - 1 - i)) ltac:(lia)) as [y Hy].
  assert (rd8 buf (p + i) = Ok x) as -> by (unfold rd8; by rewrite Hx).
  assert (rd8 buf (p + (n - 1 - i)) = Ok y) as -> by (unfold rd8; by rewrite Hy). rewrite !bind_Ok.
  assert (forall b j z, (j < length b)%nat -> wr b j [z] = Ok (<[j := z]> b)) as Hwr.
  { intros b j z Hj. rewrite wr_Ok by (cbn; lia). rewrite insert_take_drop by done. cbn [length]. by rewrite Nat.add_1_r. }
  rewrite Hwr, bind_Ok by lia. rewrite Hwr, bind_Ok by (rewrite length_insert; lia).
  destruct (IH (<[(p + (n - 1 - i))%nat := x]> (<[(p + i)%nat := y]> buf)) (S i)) as (b & -> & Hlb & Hl); [lia..| |].
  { rewrite !length_insert. lia. }
  exists b. split; [done|]. split; [by rewrite Hlb, !length_insert|]. intros m. rewrite Hl.
  destruct (decide (m = p + i)%nat) as [->|H1]; [|destruct (decide (m = p + (n - 1 - i))%nat) as [->|H2]].
  - replace ((p + S i <=? p + i)%nat) with false by (symmetry; apply Nat.leb_gt; lia).
    replace ((p + n - S i - k <=? p + i)%nat) with false by (symmetry; apply Nat.leb_gt; lia). cbn [andb orb].
    rewrite list_lookup_insert_ne, list_lookup_insert_eq by lia.
    replace ((p + i <=? p + i)%nat) with true by (symmetry; apply Nat.leb_le; lia).
    replace ((p + i <? p + i + S k)%nat) with true by (symmetry; apply Nat.ltb_lt; lia). cbn [andb orb].
    rewrite <- Hy. f_equal. lia.
  - replace ((p + (n - 1 - i) <? p + S i + k)%nat) with false by (symmetry; apply Nat.ltb_ge; lia).
    replace ((p + (n - 1 - i) <? p + n - S i)%nat) with false by (symmetry; apply Nat.ltb_ge; lia). rewrite !andb_false_r. cbn [orb].
    rewrite list_lookup_insert_eq by (rewrite length_insert; lia).
    replace ((p + n - i - S k <=? p + (n - 1 - i))%nat) with true by (symmetry; apply Nat.leb_le; lia).
    replace ((p + (n - 1 - i) <? p + n - i)%nat) with true by (symmetry; apply Nat.ltb_lt; lia). rewrite orb_true_r.
    rewrite <- Hx. f_equal. lia.
  - assert (((p + S i <=? m)%nat && (m <? p + S i + k)%nat || (p + n - S i - k <=? m)%nat && (m <? p + n - S i)%nat) =
            ((p + i <=? m)%nat && (m <? p + i + S k)%nat || (p + n - i - S k <=? m)%nat && (m <? p + n - i)%nat)) as ->.
    { zbool; cbn [andb orb]; try done; lia. }
    destruct (_ || _) eqn:Hc.
    + rewrite !list_lookup_insert_ne; [done | |]; intros Heq; apply orb_true_iff in Hc; rewrite !andb_true_iff in Hc;
        rewrite ?Nat.leb_le, ?Nat.ltb_lt in Hc; lia.
    + by rewrite !list_lookup_insert_ne by lia.
Qed.
Lemma nsctp_reverse_Ok buf p n :
  (p + n <= length buf)%nat ->
  exists b, nsctp_reverse buf p n = Ok b /\ length b = length buf /\
    forall m, b !! m = if (p <=? m)%nat && (m <? p + n)%nat then buf !! (p + (n - 1 - (m - p)))%nat else buf !! m.
Proof.
  intros Hb. pose proof (Nat.div_mod_eq n 2) as Hn. pose proof (Nat.mod_upper_bound n 2 ltac:(lia)) as Hm.
  destruct (reverse_loop_Ok (n / 2) buf p n 0) as (b & Hr & Hl & H); [lia..|]. exists b. split; [done|]. split; [done|].
  intros m. rewrite H. zbool; cbn [andb orb]; try done; try lia; f_equal; lia.
Qed.

(** The three reversals rotate [pos..off+n) so that the [n] octets at [off] come first. *)
Lemma rotate_Ok buf pos off n :
  (pos <= off)%nat -> (off + n <= length buf)%nat ->
  exists b, (b ← nsctp_reverse buf pos (off - pos); b ← nsctp_reverse b off n; nsctp_reverse b pos (off - pos + n)) = Ok b /\
    length b = length buf /\
    forall m, b !! m = if (pos <=? m)%nat && (m <? pos + n)%nat then buf !! (off + (m - pos))%nat
                       else if (pos + n <=? m)%nat && (m <? off + n)%nat then buf !! (m - n)%nat else buf !! m.
Proof.
  intros Hp Hb. destruct (nsctp_reverse_Ok buf pos (off - pos)) as (b1 & -> & Hl1 & H1); [lia|]. rewrite bind_Ok.
  destruct (nsctp_reverse_Ok b1 off n) as (b2 & -> & Hl2 & H2); [lia|]. rewrite bind_Ok.
  destruct (nsctp_reverse_Ok b2 pos (off - pos + n)) as (b3 & -> & Hl3 & H3); [lia|]. exists b3. split; [done|]. split; [lia|].
  intros m. rewrite H3. zbool; cbn [andb orb]; rewrite ?H2; zbool; cbn [andb orb]; rewrite ?H1; zbool; cbn [andb orb]; try lia;
    try (f_equal; lia); done.
Qed.

Lemma add16_small a b : (a + b <= NANORTC_SCTP_RECV_GAP_BUF_SIZE)%nat -> add16 a b = (a + b)%nat.
Proof. pose proof size_facts. intros. unfold add16. rewrite u16_id by mach. lia. Qed.
Lemma sub16_small a b : (b <= a)%nat -> (a <= NANORTC_SCTP_RECV_GAP_BUF_SIZE)%nat -> sub16 a b = (a - b)%nat.
Proof. pose proof size_facts. intros. unfold sub16. rewrite u16_id by mach. lia. Qed.
Lemma held_of_set_off buf buf' e o :
  (e_valid e = true -> e_delivered e = false -> content buf' (set_off e o) = content buf e) ->
  held_of buf' (set_off e o) = held_of buf e.
Proof.
  intros H. unfold held_of. cbn [set_off e_valid e_tsn e_ppid e_sid e_ssn e_flags e_delivered e_forwarded].
  destruct (e_valid e); [|done]. do 2 f_equal. destruct (e_delivered e); [done|]. by apply H.
Qed.
Lemma set_off_self e : set_off e (e_off e) = e.
Proof. by destruct e. Qed.

(** Everything but the table and the pool. *)
Record frame (s s' : sctp_rx) : Prop := {
  fr_ids : stream_ids s' = stream_ids s; fr_next : next_ssn s' = next_ssn s; fr_recv : recv_ssn s' = recv_ssn s;
  fr_count : stream_count s' = stream_count s; fr_cum : cumulative_tsn s' = cumulative_tsn s
}.
Lemma frame_refl s : frame s s.
Proof. by constructor. Qed.
Lemma frame_trans s1 s2 s3 : frame s1 s2 -> frame s2 s3 -> frame s1 s3.
Proof. intros [] []. constructor; congruence. Qed.

Lemma rx_move_Ok s slot pos e :
  pool_ok s -> recv_gap s !! slot = Some e -> owns e -> (pos <= e_off e)%nat ->
  (forall j f, recv_gap s !! j = Some f -> j <> slot -> owns f -> (e_off f + e_len f <= pos \/ pos <= e_off f)%nat) ->
  exists s', nsctp_rx_move s slot pos = Ok s' /\ pool_ok s' /\ frame s s' /\ sack_needed s' = sack_needed s /\ table s' = table s /\
    recv_gap s' !! slot = Some (set_off e pos) /\ take pos (recv_gap_buf s') = take pos (recv_gap_buf s) /\
    (forall j f, recv_gap s !! j = Some f -> j <> slot -> exists o, recv_gap s' !! j = Some (set_off f o) /\
       (owns f -> (e_off f + e_len f <= pos)%nat -> o = e_off f) /\ (owns f -> (pos <= e_off f)%nat -> (pos <= o)%nat)).
Proof.
  intros Hok He Hlive Hpos Hb. pose proof (po_in s Hok slot e He Hlive) as Hin. pose proof (po_le s Hok) as Hle.
  pose proof (po_buf s Hok) as Hbl. pose proof (po_gap s Hok) as Hgl. destruct Hlive as [Hval Hlen]. unfold nsctp_rx_move, entry. rewrite He, bind_Ok. cbv zeta.
  destruct (Nat.eqb_spec (e_off e) pos) as [Heq|Hne].
  { cbn [orb]. exists s. split_and!; try done; [by rewrite <- Heq, set_off_self |].
    intros j f Hj _. exists (e_off f). by rewrite set_off_self. }
  rewrite (proj2 (Nat.eqb_neq _ _)) by lia. cbn [orb]. rewrite (proj2 (Nat.ltb_ge _ _)) by lia.
  destruct (rotate_Ok (recv_gap_buf s) pos (e_off e) (e_len e)) as (buf & Hrot & Hlb & Hbuf); [lia..|].
  bind_inv Hrot. bind_inv Hrot. rewrite Hx, bind_Ok, Hx0, bind_Ok, Hrot, bind_Ok. clear x Hx x0 Hx0 Hrot.
  set (up := shift_up slot pos (e_off e) (e_len e)). set (gap := <[slot := set_off e pos]> (imap up (recv_gap s))).
  set (s' := set_pool s gap buf (recv_gap_buf_used s)). exists s'.
  assert (forall j f, recv_gap s !! j = Some f -> j <> slot -> gap !! j = Some (up j f)) as Hgap.
  { intros j f Hj Hne'. unfold gap. rewrite list_lookup_insert_ne by done. by rewrite list_lookup_imap, Hj. }
  assert (gap !! slot = Some (set_off e pos)) as Hslot.
  { apply list_lookup_insert_eq. rewrite length_imap. by eapply lookup_lt_Some. }
  assert (forall j f, recv_gap s !! j = Some f -> j <> slot -> owns f ->
    up j f = set_off f (if (pos <=? e_off f)%nat && (e_off f <? e_off e)%nat then (e_off f + e_len e)%nat else e_off f) /\
    apart f e /\ (e_off f + e_len f <= recv_gap_buf_used s)%nat) as Hup.
  { intros j f Hj Hne' Hf. assert (apart f e) as Hap by (by apply (po_apart s Hok j slot)).
    pose proof (po_in s Hok j f Hj Hf) as Hinf. split; [|done]. destruct Hf as [Hfv Hfl]. unfold up, shift_up. rewrite Hfv.
    rewrite (proj2 (Nat.eqb_neq j slot)) by done. cbn [andb negb].
    destruct (_ && _)%nat eqn:Hc; [|by rewrite set_off_self]. bool_facts. rewrite add16_small; [done|].
    unfold apart in Hap. lia. }
  assert (forall j f, recv_gap s !! j = Some f -> j <> slot -> owns f -> content buf (up j f) = content (recv_gap_buf s) f) as Hcont.
  { intros j f Hj Hne' Hf. destruct (Hup j f Hj Hne' Hf) as (-> & Hap & Hinf). specialize (Hb j f Hj Hne' Hf).
    unfold content. cbn [set_off e_len e_off]. unfold apart in Hap.
    destruct (Nat.leb_spec pos (e_off f)), (Nat.ltb_spec (e_off f) (e_off e)); cbn [andb]; apply content_ext; intros k Hk;
      rewrite Hbuf; zbool; cbn [andb orb]; try lia; f_equal; lia. }
  assert (content buf (set_off e pos) = content (recv_gap_buf s) e) as Hconte.
  { unfold content. cbn [set_off e_len e_off]. apply content_ext. intros k Hk. rewrite Hbuf.
    zbool; cbn [andb orb]; try lia; f_equal; lia. }
  assert (forall j f, up j f = set_off f (e_off (up j f)) /\ live_len (up j f) = live_len f /\ e_valid (up j f) = e_valid f) as Hsame.
  { intros j f. unfold up, shift_up. destruct (_ && _); [done|]. by rewrite set_off_self. }
  assert (forall j f', gap !! j = Some f' -> j <> slot -> exists f, recv_gap s !! j = Some f /\ f' = up j f) as Hinv.
  { intros j f' Hj Hne'. unfold gap in Hj. rewrite list_lookup_insert_ne, list_lookup_imap in Hj by done.
    destruct (recv_gap s !! j) as [f|]; [|done]. injection Hj as <-. eauto. }
  assert (forall j f, owns (up j f) <-> owns f) as Hliveup.
  { intros j f. destruct (Hsame j f) as (H1 & _ & H3). unfold owns. rewrite H3. rewrite H1 at 1. done. }
  split_and!; [done | | by repeat split | done | | done | |].
  - constructor; cbn [recv_gap recv_gap_buf recv_gap_buf_used recv_gap_count set_pool s'].
    + unfold gap. by rewrite length_insert, length_imap.
    + lia.
    + pose proof (sum_list_insert live_len (imap up (recv_gap s)) slot e (set_off e pos)) as Hsum.
      rewrite list_lookup_imap, He in Hsum. cbn [fmap option_fmap option_map] in Hsum.
      assert (up slot e = e) as Hue by (unfold up, shift_up; rewrite Nat.eqb_refl; cbn [negb]; by rewrite andb_false_r).
      rewrite Hue in Hsum. specialize (Hsum eq_refl). rewrite (po_used s Hok). unfold gap.
      rewrite <- (sum_list_imap_ext live_len up (recv_gap s)) by (intros; apply Hsame).
      change (live_len (set_off e pos)) with (live_len e) in Hsum. lia.
    + lia.
    + intros j f Hj Hf. destruct (decide (j = slot)) as [->|Hne'].
      * rewrite Hslot in Hj. injection Hj as <-. cbn [set_off e_off e_len]. lia.
      * destruct (Hinv j f Hj Hne') as (g & Hg & ->). apply Hliveup in Hf.
        destruct (Hup j g Hg Hne' Hf) as (-> & Hap & Hinf). unfold apart in Hap. cbn [set_off e_off e_len].
        zbool; cbn [andb]; lia.
    + assert (forall j f, gap !! j = Some f -> j <> slot -> owns f -> apart f (set_off e pos)) as Hae.
      { intros j f Hj Hne' Hf. destruct (Hinv j f Hj Hne') as (g & Hg & ->). apply Hliveup in Hf.
        destruct (Hup j g Hg Hne' Hf) as (-> & Hap & Hinf). specialize (Hb j g Hg Hne' Hf).
        unfold apart in *. cbn [set_off e_off e_len]. destruct Hf as [_ Hfl].
        destruct (Nat.leb_spec pos (e_off g)), (Nat.ltb_spec (e_off g) (e_off e)); cbn [andb]; lia. }
      intros i j f g Hi Hj Hij Hf Hg.
      destruct (decide (i = slot)) as [->|Hi']; [|destruct (decide (j = slot)) as [->|Hj']].
      * rewrite Hslot in Hi. injection Hi as <-. pose proof (Hae j g Hj ltac:(congruence) Hg) as H. unfold apart in *. tauto.
      * rewrite Hslot in Hj. injection Hj as <-. by apply (Hae i).
      * destruct (Hinv i f Hi Hi') as (f0 & Hf0 & ->), (Hinv j g Hj Hj') as (g0 & Hg0 & ->).
        apply Hliveup in Hf, Hg. pose proof (po_apart s Hok i j f0 g0 Hf0 Hg0 Hij Hf Hg) as Hap.
        destruct (Hup i f0 Hf0 Hi' Hf) as (-> & Hapf & _), (Hup j g0 Hg0 Hj' Hg) as (-> & Hapg & _).
        pose proof (Hb i f0 Hf0 Hi' Hf). pose proof (Hb j g0 Hg0 Hj' Hg).
        destruct Hf as [_ Hfl], Hg as [_ Hgl']. unfold apart in *. cbn [set_off e_off e_len].
        destruct (Nat.leb_spec pos (e_off f0)), (Nat.ltb_spec (e_off f0) (e_off e)), (Nat.leb_spec pos (e_off g0)),
          (Nat.ltb_spec (e_off g0) (e_off e)); cbn [andb]; lia.
    + intros j f Hj Hv Hd. destruct (decide (j = slot)) as [->|Hne'].
      * rewrite Hslot in Hj. injection Hj as <-. done.
      * destruct (Hinv j f Hj Hne') as (g & Hg & ->). destruct (Hsame j g) as (Heq & _ & _). rewrite Heq in *. cbn in *.
        by apply (po_undelivered s Hok j g).
    + rewrite (po_count s Hok). fold (valid_count (recv_gap s)) (valid_count gap).
      pose proof (valid_count_insert (imap up (recv_gap s)) slot e (set_off e pos)) as Hc.
      rewrite list_lookup_imap, He in Hc. cbn [fmap option_fmap option_map] in Hc.
      assert (up slot e = e) as Hue by (unfold up, shift_up; rewrite Nat.eqb_refl; cbn [negb]; by rewrite andb_false_r).
      rewrite Hue in Hc. specialize (Hc eq_refl). change (e_valid (set_off e pos)) with (e_valid e) in Hc.
      rewrite valid_count_imap in Hc by (intros; apply Hsame). fold gap in Hc. lia.
  - apply table_ext; cbn [recv_gap recv_gap_buf set_pool s']; [unfold gap; by rewrite length_insert, length_imap|].
    intros j f Hj. destruct (decide (j = slot)) as [->|Hne'].
    + rewrite He in Hj. injection Hj as <-. exists (set_off e pos). split; [done|]. by apply held_of_set_off.
    + exists (up j f). split; [by apply Hgap|]. destruct (Hsame j f) as (Heq & _ & _). rewrite Heq. apply held_of_set_off.
      intros Hv Hd. rewrite <- Heq. apply Hcont; [done | done |]. split; [done|]. by apply (po_undelivered s Hok j f).
  - apply (content_ext _ _ pos 0 0). intros k Hk. cbn [recv_gap_buf set_pool s' Nat.add]. rewrite Hbuf.
    rewrite (proj2 (Nat.leb_gt pos k)), (proj2 (Nat.leb_gt (pos + e_len e) k)) by lia. done.
  - intros j f Hj Hne'. exists (e_off (up j f)). destruct (Hsame j f) as (Heq & _ & _). split; [cbn; rewrite <- Heq; by apply Hgap|].
    split; intros Hf Hle'; destruct (Hup j f Hj Hne' Hf) as (-> & _ & _); cbn [set_off e_off]; destruct Hf as [_ Hfl].
    + rewrite (proj2 (Nat.leb_gt _ _)) by lia. done.
    + destruct (_ && _); lia.
Qed.

(** * Reclaiming *)

Lemma table_set_gap s i e count :
  table (set_gap s (<[i := e]> (recv_gap s)) count) = <[i := held_of (recv_gap_buf s) e]> (table s).
Proof. unfold table. cbn [recv_gap recv_gap_buf set_gap]. apply list_fmap_insert. Qed.
Lemma valid_count_le gap : (valid_count gap <= length gap)%nat.
Proof. apply length_filter. Qed.

Lemma invalidate_Ok s i e :
  pool_ok s -> recv_gap s !! i = Some e -> e_valid e = true -> e_len e = 0%nat ->
  let s' := set_gap s (<[i := set_invalid e]> (recv_gap s)) (u8 (recv_gap_count s - 1)) in
  pool_ok s' /\ table s' = <[i := None]> (table s).
Proof.
  intros Hok He Hv Hl s'. split; [|apply table_set_gap]. pose proof (lookup_lt_Some _ _ _ He) as Hlt.
  assert (forall j f, recv_gap s' !! j = Some f -> e_valid f = true -> recv_gap s !! j = Some f) as Hinv.
  { intros j f Hj Hvf. cbn in Hj. destruct (decide (j = i)) as [->|].
    - rewrite list_lookup_insert_eq in Hj by done. by injection Hj as <-.
    - by rewrite list_lookup_insert_ne in Hj. }
  pose proof (sum_list_insert live_len _ _ _ (set_invalid e) He) as Hsum. unfold live_len at 2 4 in Hsum. rewrite Hv, Hl in Hsum. cbn in Hsum.
  pose proof (valid_count_insert _ _ _ (set_invalid e) He) as Hc. rewrite Hv in Hc. cbn in Hc.
  constructor; cbn [s' set_gap recv_gap recv_gap_buf recv_gap_buf_used recv_gap_count].
  - rewrite length_insert. apply Hok.
  - apply Hok.
  - rewrite (po_used s Hok). lia.
  - apply Hok.
  - intros j f Hj Hf. apply (po_in s Hok j); [by apply Hinv, Hf | done].
  - intros j k f g Hj Hk Hne Hf Hg. apply (po_apart s Hok j k); [apply Hinv; [done | apply Hf] | apply Hinv; [done | apply Hg] | done | done | done].
  - intros j f Hj Hvf. apply (po_undelivered s Hok j); [by apply Hinv | done].
  - rewrite (po_count s Hok). fold (valid_count (recv_gap s)) (valid_count (<[i := set_invalid e]> (recv_gap s))).
    pose proof (valid_count_le (recv_gap s)) as Hle. rewrite (po_gap s Hok) in Hle. unfold NANORTC_SCTP_MAX_RECV_GAP in Hle.
    rewrite u8_id by (unfold is_u8; lia). lia.
Qed.

Lemma reclaim_free_Ok s i e :
  pool_ok s -> recv_gap s !! i = Some e -> e_valid e = true -> e_delivered e = true -> (0 < e_len e)%nat ->
  let n := e_len e in let off := e_off e in
  (recv_gap_buf_used s <? off + n)%nat = false /\
  exists tail buf, rdn (recv_gap_buf s) (off + n) (recv_gap_buf_used s - off - n) = Ok tail /\ wr (recv_gap_buf s) off tail = Ok buf /\
    let s' := set_sack (set_pool s (<[i := set_len e 0]> (map (shift_down off n) (recv_gap s))) buf (sub16 (recv_gap_buf_used s) n)) true in
    pool_ok s' /\ table s' = table s /\ recv_gap s' !! i = Some (set_len e 0).
Proof.
  intros Hok He Hv Hd Hn n off. assert (owns e) as Hlive by done.
  pose proof (po_in s Hok i e He Hlive) as Hin. pose proof (po_le s Hok) as Hle. pose proof (po_buf s Hok) as Hbl.
  fold n in Hn, Hin. fold off in Hin. split; [apply Nat.ltb_ge; lia|]. rewrite rdn_Ok by lia. eexists _, _. split; [done|].
  rewrite wr_Ok by (rewrite length_take, length_drop; lia). split; [done|]. set (tail := take _ (drop (off + n) _)).
  assert (length tail = recv_gap_buf_used s - off - n)%nat as Htl by (unfold tail; rewrite length_take, length_drop; lia).
  set (buf := take off _ ++ tail ++ _). set (down := shift_down off n). set (gap := <[i := set_len e 0]> (map down (recv_gap s))).
  pose proof (lookup_lt_Some _ _ _ He) as Hlt.
  assert (forall m, (m < recv_gap_buf_used s - n)%nat -> buf !! m = recv_gap_buf s !! (if (m <? off)%nat then m else m + n)%nat) as Hbuf.
  { intros m Hm. unfold buf. destruct (Nat.ltb_spec m off).
    - by rewrite lookup_app_l, lookup_take_lt by (rewrite ?length_take; lia).
    - rewrite lookup_app_r, length_take, lookup_app_l by (rewrite ?length_take; lia). unfold tail.
      rewrite lookup_take_lt, lookup_drop by lia. f_equal. lia. }
  assert (forall (j : nat) f, down f = set_off f (e_off (down f)) /\ live_len (down f) = live_len f /\ e_valid (down f) = e_valid f) as Hsame.
  { intros _ f. unfold down, shift_down. destruct (_ && _); [done|]. by rewrite set_off_self. }
  assert (forall j f, recv_gap s !! j = Some f -> j <> i -> owns f ->
    e_off (down f) = (if (off <? e_off f)%nat then e_off f - n else e_off f)%nat /\ apart f e /\ (e_off f + e_len f <= recv_gap_buf_used s)%nat) as Hdown.
  { intros j f Hj Hne Hf. pose proof (po_apart s Hok j i f e Hj He Hne Hf Hlive) as Hap. pose proof (po_in s Hok j f Hj Hf) as Hinf.
    split; [|done]. destruct Hf as [Hvf Hlf]. unfold down, shift_down. rewrite Hvf. cbn [andb].
    destruct (Nat.ltb_spec off (e_off f)); [|done]. cbn [set_off e_off]. apply sub16_small; unfold apart in Hap; fold off n in Hap; lia. }
  assert (gap !! i = Some (set_len e 0)) as Hslot by (apply list_lookup_insert_eq; by rewrite length_map).
  assert (forall j f', gap !! j = Some f' -> j <> i -> exists f, recv_gap s !! j = Some f /\ f' = down f) as Hinv.
  { intros j f' Hj Hne. unfold gap in Hj. rewrite list_lookup_insert_ne, list_lookup_fmap in Hj by done.
    destruct (recv_gap s !! j) as [f|]; [|done]. injection Hj as <-. eauto. }
  assert (forall f, owns (down f) <-> owns f) as Hld.
  { intros f. destruct (Hsame 0%nat f) as (H1 & _ & H3). unfold owns. rewrite H3. rewrite H1 at 1. done. }
  assert (forall f, owns f -> e_len (down f) = e_len f) as Hlen.
  { intros f _. destruct (Hsame 0%nat f) as (H1 & _ & _). by rewrite H1. }
  assert (forall j f, gap !! j = Some f -> owns f -> j <> i) as Hnei.
  { intros j f Hj Hf ->. rewrite Hslot in Hj. injection Hj as <-. destruct Hf as [_ Hf]. cbn in Hf. lia. }
  assert (sub16 (recv_gap_buf_used s) n = recv_gap_buf_used s - n)%nat as Hus by (apply sub16_small; lia).
  intros s'. split; [|split; [|done]].
  - constructor; cbn [s' set_sack set_pool recv_gap recv_gap_buf recv_gap_buf_used recv_gap_count]; rewrite ?Hus.
    + unfold gap. rewrite length_insert, length_map. apply Hok.
    + unfold buf. rewrite !length_app, length_take, length_drop. lia.
    + pose proof (sum_list_insert live_len (map down (recv_gap s)) i (down e) (set_len e 0)) as Hsum.
      rewrite list_lookup_fmap, He in Hsum. specialize (Hsum eq_refl). rewrite sum_list_map_ext in Hsum by (intros; apply (Hsame 0%nat)).
      replace (live_len (down e)) with n in Hsum by (destruct (Hsame 0%nat e) as (_ & -> & _); unfold live_len; by rewrite Hv).
      replace (live_len (set_len e 0)) with 0%nat in Hsum by (unfold live_len; cbn; by destruct (e_valid e)).
      fold gap in Hsum. rewrite (po_used s Hok) in *. lia.
    + lia.
    + intros j f Hj Hf. destruct (Hinv j f Hj (Hnei j f Hj Hf)) as (g & Hg & ->). rewrite Hld in Hf.
      destruct (Hdown j g Hg (Hnei j _ Hj ltac:(by apply Hld)) Hf) as (-> & Hap & Hinf). rewrite Hlen by done.
      unfold apart in Hap. fold off n in Hap. destruct Hf as [_ Hfl]. destruct (Nat.ltb_spec off (e_off g)); lia.
    + intros j k f g Hj Hk Hne Hf Hg. pose proof (Hnei j f Hj Hf) as Hji. pose proof (Hnei k g Hk Hg) as Hki.
      destruct (Hinv j f Hj Hji) as (f0 & Hf0 & ->), (Hinv k g Hk Hki) as (g0 & Hg0 & ->). rewrite Hld in Hf, Hg.
      destruct (Hdown j f0 Hf0 Hji Hf) as (Ho1 & Hap1 & _), (Hdown k g0 Hg0 Hki Hg) as (Ho2 & Hap2 & _).
      pose proof (po_apart s Hok j k f0 g0 Hf0 Hg0 Hne Hf Hg) as Hap. unfold apart in *. rewrite Ho1, Ho2, !Hlen by done. fold off n in Hap1, Hap2.
      destruct Hf as [_ Hfl], Hg as [_ Hgl]. destruct (Nat.ltb_spec off (e_off f0)), (Nat.ltb_spec off (e_off g0)); lia.
    + intros j f Hj Hvf Hdf. destruct (decide (j = i)) as [->|Hne].
      * rewrite Hslot in Hj. injection Hj as <-. cbn in Hdf. congruence.
      * destruct (Hinv j f Hj Hne) as (g & Hg & ->). destruct (Hsame j g) as (Heq & _ & _). rewrite Heq in *. cbn in *.
        by apply (po_undelivered s Hok j g).
    + rewrite (po_count s Hok). fold (valid_count (recv_gap s)) (valid_count gap).
      pose proof (valid_count_insert (map down (recv_gap s)) i (down e) (set_len e 0)) as Hc.
      rewrite list_lookup_fmap, He in Hc. specialize (Hc eq_refl). rewrite valid_count_map in Hc by (intros; apply (Hsame 0%nat)).
      destruct (Hsame 0%nat e) as (_ & _ & Hve). rewrite Hve in Hc. change (e_valid (set_len e 0)) with (e_valid e) in Hc. fold gap in Hc. lia.
  - apply table_ext; cbn [s' set_sack set_pool recv_gap recv_gap_buf]; [unfold gap; by rewrite length_insert, length_map|].
    intros j f Hj. destruct (decide (j = i)) as [->|Hne].
    + rewrite He in Hj. injection Hj as <-. exists (set_len e 0). split; [done|]. unfold held_of. cbn. by rewrite Hv, Hd.
    + exists (down f). unfold gap. rewrite list_lookup_insert_ne, list_lookup_fmap, Hj by done. split; [done|].
      destruct (Hsame j f) as (Heq & _ & _). rewrite Heq. apply held_of_set_off. intros Hvf Hdf.
      assert (owns f) as Hf by (split; [done|]; by apply (po_undelivered s Hok j f)).
      destruct (Hdown j f Hj Hne Hf) as (Ho & Hap & Hinf). unfold content. cbn [set_off e_len e_off]. rewrite Ho.
      unfold apart in Hap. fold off n in Hap. apply content_ext. intros k Hk.
      destruct (Nat.ltb_spec off (e_off f)); rewrite Hbuf by lia.
      * rewrite (proj2 (Nat.ltb_ge _ _)) by lia. f_equal. lia.
      * rewrite (proj2 (Nat.ltb_lt _ _)) by lia. done.
Qed.

Definition a_gone (cum : Z) (h : held) : bool := a_delivered h && (i32 (a_tsn h - cum) <=? 0).
Definition a_reclaim (cum : Z) (o : option held) : option held :=
  match o with Some h => if a_gone cum h then None else Some h | None => None end.

Lemma alter_at {A} (f : A -> A) (l : list A) (i : nat) x : l !! i = Some x -> alter f i l = <[i := f x]> l.
Proof.
  intros H. apply list_eq. intros j. destruct (decide (i = j)) as [<-|Hne].
  - rewrite list_lookup_alter_eq, H, list_lookup_insert_eq by (by eapply lookup_lt_Some). done.
  - by rewrite list_lookup_alter_ne, list_lookup_insert_ne.
Qed.
Lemma alter_fix {A} (f : A -> A) (l : list A) (i : nat) x : l !! i = Some x -> f x = x -> alter f i l = l.
Proof. intros H Hf. rewrite (alter_at f l i x H), Hf. by apply list_insert_id. Qed.
Lemma fold_alter {A} (f : A -> A) (l : list A) n : (n <= length l)%nat ->
  foldl (fun l i => alter f i l) l (seq 0 n) = map f (take n l) ++ drop n l.
Proof.
  induction n as [|n IH]; intros Hn; [done|]. rewrite seq_S, foldl_app, IH by lia. cbn [foldl].
  destruct (lookup_lt_is_Some_2 l n ltac:(lia)) as [x Hx]. rewrite (take_S_r _ _ _ Hx), map_app, (drop_S _ _ _ Hx).
  rewrite <- app_assoc. replace (0 + n)%nat with (length (map f (take n l)) + 0)%nat at 1 by (rewrite length_map, length_take; lia).
  by rewrite alter_app_r.
Qed.

Lemma reclaim_at_Ok s i :
  pool_ok s -> (i < NANORTC_SCTP_MAX_RECV_GAP)%nat ->
  exists s', reclaim_at s i = Ok s' /\ pool_ok s' /\ frame s s' /\ table s' = alter (a_reclaim (cumulative_tsn s)) i (table s).
Proof.
  intros Hok Hi. destruct (lookup_lt_is_Some_2 (recv_gap s) i) as [e He]; [by rewrite (po_gap s Hok)|].
  pose proof (table_lookup s i e He) as Ht. unfold reclaim_at, entry. rewrite He, bind_Ok.
  destruct (negb (e_valid e) || negb (e_delivered e)) eqn:Hskip.
  { exists s. split; [done|]. split; [done|]. split; [apply frame_refl|]. symmetry. apply (alter_fix _ _ _ _ Ht).
    unfold held_of. destruct (e_valid e); [|done]. cbn in *. apply negb_true_iff in Hskip. rewrite Hskip. done. }
  apply orb_false_elim in Hskip as [Hv Hd]. apply negb_false_iff in Hv, Hd. cbv zeta.
  assert (forall s1 e1, pool_ok s1 -> frame s s1 -> table s1 = table s -> recv_gap s1 !! i = Some e1 -> e1 = set_len e 0 ->
    exists s', (if i32 (e_tsn e - cumulative_tsn s1) <=? 0
                then e ← match recv_gap s1 !! i with Some e => Ok e | None => Fault end;
                     Ok (set_gap s1 (<[i := set_invalid e]> (recv_gap s1)) (u8 (recv_gap_count s1 - 1)))
                else Ok s1) = Ok s' /\ pool_ok s' /\ frame s s' /\ table s' = alter (a_reclaim (cumulative_tsn s)) i (table s)) as Hfin.
  { intros s1 e1 Hok1 Hfr Ht1 He1 ->. rewrite (fr_cum _ _ Hfr).
    assert (held_of (recv_gap_buf s) e = Some (Held (e_tsn e) (e_ppid e) (e_sid e) (e_ssn e) (e_flags e) true (e_forwarded e) [])) as Hh
      by (unfold held_of; by rewrite Hv, Hd). rewrite Hh in Ht.
    destruct (Z.leb_spec (i32 (e_tsn e - cumulative_tsn s)) 0) as [Hle|Hgt].
    - rewrite He1, bind_Ok. eexists. split; [done|].
      destruct (invalidate_Ok s1 i (set_len e 0) Hok1 He1 Hv eq_refl) as [Hok' Ht']. split; [done|].
      split; [destruct Hfr; by constructor|]. rewrite Ht', Ht1, (alter_at _ _ _ _ Ht). f_equal. cbn. unfold a_gone. cbn.
      by rewrite (proj2 (Z.leb_le _ _)).
    - exists s1. split; [done|]. split; [done|]. split; [done|]. rewrite Ht1. symmetry. apply (alter_fix _ _ _ _ Ht). cbn. unfold a_gone. cbn.
      by rewrite (proj2 (Z.leb_gt _ _)). }
  destruct (Nat.ltb_spec 0 (e_len e)) as [Hn|Hn].
  - destruct (reclaim_free_Ok s i e Hok He Hv Hd Hn) as (-> & tail & buf & -> & Hw & Hok1 & Ht1 & He1). rewrite bind_Ok, Hw, !bind_Ok.
    by apply (Hfin _ (set_len e 0)).
  - rewrite bind_Ok. apply (Hfin s e); try done. destruct e; cbn in *. by replace e_len0 with 0%nat by lia.
Qed.

Lemma nsctp_rx_reclaim_Ok s :
  pool_ok s -> exists s', nsctp_rx_reclaim s = Ok s' /\ pool_ok s' /\ frame s s' /\ table s' = map (a_reclaim (cumulative_tsn s)) (table s).
Proof.
  intros Hok. assert (forall l s0, pool_ok s0 -> frame s s0 -> Forall (fun i => i < NANORTC_SCTP_MAX_RECV_GAP)%nat l ->
    exists s', fold_res reclaim_at s0 l = Ok s' /\ pool_ok s' /\ frame s s' /\
      table s' = foldl (fun t i => alter (a_reclaim (cumulative_tsn s)) i t) (table s0) l) as H.
  { induction l as [|i l IH]; intros s0 Hok0 Hfr Hl; cbn [fold_res foldl]; [by exists s0|].
    apply Forall_cons_iff in Hl as [Hi Hl]. destruct (reclaim_at_Ok s0 i Hok0 Hi) as (s1 & -> & Hok1 & Hfr1 & Ht1). rewrite bind_Ok.
    destruct (IH s1 Hok1 (frame_trans _ _ _ Hfr Hfr1) Hl) as (s' & -> & Hok' & Hfr' & Ht'). exists s'.
    by rewrite Ht', Ht1, (fr_cum _ _ Hfr). }
  destruct (H slots s Hok (frame_refl s)) as (s' & Hr & Hok' & Hfr & Ht).
  { unfold slots. apply Forall_forall. intros i Hi. apply list_elem_of_In, in_seq in Hi. lia. }
  exists s'. split; [done|]. split; [done|]. split; [done|]. rewrite Ht.
  assert (length (table s) = NANORTC_SCTP_MAX_RECV_GAP) as Hl by (unfold table; rewrite length_map; apply Hok).
  unfold slots. rewrite <- Hl, fold_alter by done. rewrite take_ge, drop_ge by done. apply app_nil_r.
Qed.

(** * Draining *)

Definition present (s : sctp_rx) (tsn : Z) : Prop := exists i e, recv_gap s !! i = Some e /\ e_valid e = true /\ e_tsn e = tsn.
Lemma present_existsb s tsn : existsb (fun e => e_valid e && (e_tsn e =? tsn)) (recv_gap s) = true <-> present s tsn.
Proof.
  rewrite existsb_exists. split.
  - intros (e & Hin & He). apply list_elem_of_In, list_elem_of_lookup_1 in Hin as [i Hi]. bool_facts. by exists i, e.
  - intros (i & e & Hi & Hv & Ht). exists e. split; [by eapply list_elem_of_In, list_elem_of_lookup_2|]. by rewrite Hv, Ht, Z.eqb_refl.
Qed.
Lemma set_cumulative_twice s a b : set_cumulative (set_cumulative s a) b = set_cumulative s b.
Proof. done. Qed.

(** At most as many steps as there are descriptors. *)
Lemma present_bound s (n : nat) :
  (Z.of_nat n < 2 ^ 32) -> (forall k, (1 <= k <= n)%nat -> present s (u32 (cumulative_tsn s + Z.of_nat k))) -> (n <= length (recv_gap s))%nat.
Proof.
  intros Hn Hp. set (l := map (fun k => u32 (cumulative_tsn s + Z.of_nat k)) (seq 1 n)).
  assert (length l = n) as Hl by (unfold l; by rewrite length_map, length_seq).
  rewrite <- (length_map e_tsn (recv_gap s)). rewrite <- Hl at 1. apply NoDup_incl_length.
  - apply NoDup_ListNoDup, NoDup_fmap_2_strong; [|apply NoDup_seq]. intros x y Hx Hy Heq.
    apply list_elem_of_In, in_seq in Hx, Hy. mach.
  - intros t Ht. unfold l in Ht. apply in_map_iff in Ht as (k & <- & Hk). apply in_seq in Hk.
    destruct (Hp k ltac:(lia)) as (i & e & Hi & _ & <-). apply in_map. by eapply list_elem_of_In, list_elem_of_lookup_2.
Qed.
Lemma drain_loop_Ok s fuel k :
  length (recv_gap s) = NANORTC_SCTP_MAX_RECV_GAP -> (k + fuel = NANORTC_SCTP_MAX_RECV_GAP)%nat ->
  (forall m, (1 <= m <= k)%nat -> present s (u32 (cumulative_tsn s + Z.of_nat m))) ->
  exists n, (k <= n <= NANORTC_SCTP_MAX_RECV_GAP)%nat /\
    drain_loop fuel (set_cumulative s (u32 (cumulative_tsn s + Z.of_nat k))) = Ok (set_cumulative s (u32 (cumulative_tsn s + Z.of_nat n))) /\
    (forall m, (1 <= m <= n)%nat -> present s (u32 (cumulative_tsn s + Z.of_nat m))) /\
    ~ present s (u32 (cumulative_tsn s + Z.of_nat n + 1)).
Proof.
  intros Hl. revert k. induction fuel as [|fuel IH]; intros k Hk Hp; cbn [drain_loop];
    (change (recv_gap (set_cumulative s _)) with (recv_gap s); cbn [cumulative_tsn set_cumulative];
     assert (u32 (u32 (cumulative_tsn s + Z.of_nat k) + 1) = u32 (cumulative_tsn s + Z.of_nat (S k))) as -> by mach;
     destruct (existsb _ _) eqn:Hex; [apply present_existsb in Hex|]).
  - assert (S k <= length (recv_gap s))%nat as Hb; [|unfold NANORTC_SCTP_MAX_RECV_GAP in *; lia].
    apply present_bound; [unfold NANORTC_SCTP_MAX_RECV_GAP in *; lia|]. intros m Hm. destruct (decide (m = S k)) as [->|]; [done|]. apply Hp. lia.
  - exists k. split; [lia|]. split; [done|]. split; [done|]. rewrite <- present_existsb.
    replace (cumulative_tsn s + Z.of_nat k + 1) with (cumulative_tsn s + Z.of_nat (S k)) by lia. by rewrite Hex.
  - rewrite set_cumulative_twice. destruct (IH (S k)) as (n & Hn & Hd & Hrest); [lia | | exists n; split; [lia|done]].
    intros m Hm. destruct (decide (m = S k)) as [->|]; [done|]. apply Hp. lia.
  - exists k. split; [lia|]. split; [done|]. split; [done|]. rewrite <- present_existsb.
    replace (cumulative_tsn s + Z.of_nat k + 1) with (cumulative_tsn s + Z.of_nat (S k)) by lia. by rewrite Hex.
Qed.
Lemma nsctp_gap_drain_Ok s :
  pool_ok s -> is_u32 (cumulative_tsn s) ->
  exists n s', nsctp_gap_drain s = Ok s' /\ pool_ok s' /\ frame (set_cumulative s (u32 (cumulative_tsn s + Z.of_nat n))) s' /\
    (forall m, (1 <= m <= n)%nat -> present s (u32 (cumulative_tsn s + Z.of_nat m))) /\
    ~ present s (u32 (cumulative_tsn s + Z.of_nat n + 1)) /\ (n <= NANORTC_SCTP_MAX_RECV_GAP)%nat /\
    table s' = map (a_reclaim (u32 (cumulative_tsn s + Z.of_nat n))) (table s).
Proof.
  intros Hok Hc. destruct (drain_loop_Ok s NANORTC_SCTP_MAX_RECV_GAP 0) as (n & Hn & Hd & Hp & Hq); [apply Hok | done | lia |].
  replace (set_cumulative s (u32 (cumulative_tsn s + Z.of_nat 0))) with s in Hd.
  2: { rewrite Z.add_0_r, u32_id by done. by destruct s. }
  set (s1 := set_cumulative s _) in *. assert (pool_ok s1) as Hok1 by (destruct Hok; by constructor).
  destruct (nsctp_rx_reclaim_Ok s1 Hok1) as (s' & Hr & Hok' & Hfr & Ht). exists n, s'.
  unfold nsctp_gap_drain. rewrite Hd, bind_Ok. split; [done|]. split; [done|]. split; [done|]. split; [done|]. split; [done|]. split; [lia|done].
Qed.

(** * Merging *)

Definition a_follow (a b : held) : bool :=
  (a_tsn b =? u32 (a_tsn a + 1)) && (a_sid a =? a_sid b) && (a_ssn a =? a_ssn b) && (a_ppid a =? a_ppid b) &&
  negb (has_flag (Z.lxor (a_flags a) (a_flags b)) SCTP_DATA_FLAG_UNORDERED) &&
  negb (has_flag (a_flags a) SCTP_DATA_FLAG_END) && negb (has_flag (a_flags b) SCTP_DATA_FLAG_BEGIN).
Definition a_absorb (a b : held) : held :=
  Held (a_tsn b) (a_ppid a) (a_sid a) (a_ssn a) (Z.lor (a_flags a) (Z.land (a_flags b) SCTP_DATA_FLAG_END))
    (a_delivered a) (a_forwarded a || a_forwarded b) (a_data a ++ a_data b).
(** One merge of the table: the cumulatively acknowledged fragment [b] joins [a]. *)
Inductive a_merge (cum : Z) : list (option held) -> list (option held) -> Prop :=
| a_merge_step t i j a b :
    t !! i = Some (Some a) -> t !! j = Some (Some b) -> i <> j -> a_delivered a = false -> a_delivered b = false ->
    a_follow a b = true -> i32 (a_tsn b - cum) <= 0 ->
    a_merge cum t (<[j := None]> (<[i := Some (a_absorb a b)]> t)).

Lemma find_from_Some P gap k j : find_from P gap k = Some j -> (k <= j)%nat /\ exists e, gap !! (j - k)%nat = Some e /\ P e = true.
Proof.
  revert k. induction gap as [|e gap IH]; intros k; cbn; [done|]. destruct (P e) eqn:HP.
  - intros [= <-]. split; [done|]. rewrite Nat.sub_diag. by exists e.
  - intros (H1 & e' & H2 & H3)%IH. split; [lia|]. exists e'. replace (j - k)%nat with (S (j - S k)) by lia. done.
Qed.
Lemma find_from_None P gap k : find_from P gap k = None -> Forall (fun e => P e = false) gap.
Proof. revert k. induction gap as [|e gap IH]; intros k; cbn; [done|]. destruct (P e) eqn:HP; [done|]. intros H%IH. by constructor. Qed.
Lemma find_pair_Some cum all gap k i j :
  find_pair cum all gap k = Some (i, j) ->
  (k <= i)%nat /\ exists a b, gap !! (i - k)%nat = Some a /\ all !! j = Some b /\
    e_valid a = true /\ e_delivered a = false /\ merges cum a b = true.
Proof.
  revert k. induction gap as [|e gap IH]; intros k; cbn; [done|].
  destruct (if _ && _ then _ else None) as [j'|] eqn:Hf.
  - intros [= <- <-]. split; [done|]. destruct (e_valid e && negb (e_delivered e)) eqn:Hc; [|done]. bool_facts.
    apply find_from_Some in Hf as (_ & b & Hb & Hm). rewrite Nat.sub_0_r in Hb. rewrite Nat.sub_diag. by exists e, b.
  - intros (H1 & a & b & H2 & H3)%IH. split; [lia|]. exists a, b. replace (i - k)%nat with (S (i - S k)) by lia. done.
Qed.
Lemma find_pair_None cum all gap k :
  find_pair cum all gap k = None ->
  forall i a j b, gap !! i = Some a -> all !! j = Some b -> e_valid a = true -> e_delivered a = false -> merges cum a b = false.
Proof.
  revert k. induction gap as [|e gap IH]; intros k H i a j b; [done|]. cbn in H.
  destruct (if _ && _ then _ else None) as [j'|] eqn:Hf; [done|]. destruct i as [|i]; [|by eapply IH].
  intros [= ->] Hb Hv Hd. rewrite Hv, Hd in Hf. cbn in Hf. apply find_from_None in Hf. rewrite Forall_forall in Hf.
  apply Hf. by eapply list_elem_of_lookup_2.
Qed.
Lemma follow_tsn a b : nsctp_fragments_follow a b = true -> e_tsn b = u32 (e_tsn a + 1).
Proof. unfold nsctp_fragments_follow. intros. bool_facts. lia. Qed.
Lemma u32_succ_neq z : z <> u32 (z + 1).
Proof. mach. Qed.

Lemma apart_sym e f : apart e f -> apart f e.
Proof. unfold apart. tauto. Qed.

(** Storing the merged entry keeps the pool. *)
Lemma absorb_Ok s i j a b :
  pool_ok s -> recv_gap s !! i = Some a -> recv_gap s !! j = Some b -> i <> j -> owns a -> owns b ->
  e_delivered a = false -> e_delivered b = false -> e_off a = 0%nat -> e_off b = e_len a ->
  let s' := set_gap s (<[j := set_invalid b]> (<[i := absorb a b]> (recv_gap s))) (u8 (recv_gap_count s - 1)) in
  exists ha hb, held_of (recv_gap_buf s) a = Some ha /\ held_of (recv_gap_buf s) b = Some hb /\
    pool_ok s' /\ table s' = <[j := None]> (<[i := Some (a_absorb ha hb)]> (table s)) /\ valid_count (recv_gap s) = S (valid_count (recv_gap s')).
Proof.
  intros Hok Ha Hb Hij La Lb Da Db Oa Ob s'. pose proof (lookup_lt_Some _ _ _ Ha) as Hi. pose proof (lookup_lt_Some _ _ _ Hb) as Hj.
  pose proof La as [Va Na]. pose proof Lb as [Vb Nb].
  assert (recv_gap s' !! i = Some (absorb a b)) as Hi'.
  { cbn. rewrite list_lookup_insert_ne by done. by apply list_lookup_insert_eq. }
  assert (recv_gap s' !! j = Some (set_invalid b)) as Hj' by (cbn; apply list_lookup_insert_eq; by rewrite length_insert).
  assert (forall k, k <> i -> k <> j -> recv_gap s' !! k = recv_gap s !! k) as Hk.
  { intros k Hki Hkj. cbn. by rewrite !list_lookup_insert_ne. }
  assert (forall k f, recv_gap s' !! k = Some f -> owns f -> k <> i -> recv_gap s !! k = Some f /\ apart (absorb a b) f /\ (e_off f + e_len f <= recv_gap_buf_used s)%nat) as Hoth.
  { intros k f Hf Lf Hki. destruct (decide (k = j)) as [->|Hkj]; [rewrite Hj' in Hf; injection Hf as <-; by destruct Lf|].
    rewrite Hk in Hf by done. split; [done|].
    pose proof (po_apart s Hok i k a f Ha Hf ltac:(congruence) La Lf) as H1. pose proof (po_apart s Hok j k b f Hb Hf ltac:(congruence) Lb Lf) as H2.
    split; [|by apply (po_in s Hok k)]. destruct Lf as [_ Nf]. unfold apart in *. cbn. lia. }
  assert (valid_count (recv_gap s) = S (valid_count (recv_gap s'))) as Hcount.
  { pose proof (valid_count_insert _ _ _ (absorb a b) Ha) as H1.
    pose proof (valid_count_insert (<[i := absorb a b]> (recv_gap s)) j b (set_invalid b)) as H2.
    rewrite list_lookup_insert_ne in H2 by done. specialize (H2 Hb). change (e_valid (absorb a b)) with (e_valid a) in H1.
    change (e_valid (set_invalid b)) with false in H2. rewrite Va in H1. rewrite Vb in H2. cbn [Nat.b2n] in *.
    cbn [s' set_gap recv_gap]. lia. }
  eexists _, _. unfold held_of at 1 2. rewrite Va, Vb, Da, Db. split; [done|]. split; [done|]. split; [|split; [|done]].
  - constructor; cbn [s' set_gap recv_gap_buf recv_gap_buf_used recv_gap_count].
    + cbn. rewrite !length_insert. apply Hok.
    + apply Hok.
    + cbn. rewrite (po_used s Hok).
      pose proof (sum_list_insert live_len _ _ _ (absorb a b) Ha) as H1.
      pose proof (sum_list_insert live_len (<[i := absorb a b]> (recv_gap s)) j b (set_invalid b)) as H2.
      rewrite list_lookup_insert_ne in H2 by done. specialize (H2 Hb). unfold live_len at 2 4 in H1. unfold live_len at 2 4 in H2.
      cbn [absorb e_valid e_len set_invalid] in *. rewrite Va in H1. rewrite Vb in H2. lia.
    + apply Hok.
    + intros k f Hf Lf. destruct (decide (k = i)) as [->|Hki]; [|by apply (Hoth k)].
      rewrite Hi' in Hf. injection Hf as <-. cbn. pose proof (po_in s Hok j b Hb Lb). lia.
    + intros k l f g Hf Hg Hkl Lf Lg. destruct (decide (k = i)) as [->|Hki]; [|destruct (decide (l = i)) as [->|Hli]].
      * rewrite Hi' in Hf. injection Hf as <-. by apply (Hoth l).
      * rewrite Hi' in Hg. injection Hg as <-. apply apart_sym. by apply (Hoth k).
      * apply (po_apart s Hok k l); [by apply Hoth | by apply Hoth | done | done | done].
    + intros k f Hf Vf Df. destruct (decide (k = i)) as [->|Hki]; [rewrite Hi' in Hf; injection Hf as <-; cbn; lia|].
      destruct (decide (k = j)) as [->|Hkj]; [rewrite Hj' in Hf; injection Hf as <-; done|].
      rewrite Hk in Hf by done. by apply (po_undelivered s Hok k).
    + rewrite (po_count s Hok). fold (valid_count (recv_gap s)) (valid_count (recv_gap s')).
      pose proof (valid_count_le (recv_gap s)) as Hle. rewrite (po_gap s Hok) in Hle. unfold NANORTC_SCTP_MAX_RECV_GAP in Hle.
      rewrite u8_id by (unfold is_u8; lia). lia.
  - unfold table. cbn [s' set_gap recv_gap recv_gap_buf]. unfold table. rewrite !list_fmap_insert. f_equal. f_equal.
    unfold held_of, a_absorb. cbn. rewrite Va, Da. do 2 f_equal. unfold content. cbn. rewrite Oa, Ob, !drop_0. symmetry. apply take_take_drop.
Qed.

Lemma held_of_undelivered buf e :
  e_valid e = true -> e_delivered e = false ->
  held_of buf e = Some (Held (e_tsn e) (e_ppid e) (e_sid e) (e_ssn e) (e_flags e) false (e_forwarded e) (content buf e)).
Proof. intros Hv Hd. unfold held_of. by rewrite Hv, Hd. Qed.
Lemma set_off_twice e a b : set_off (set_off e a) b = set_off e b.
Proof. done. Qed.

Lemma table_valid_count s s' : table s = table s' -> valid_count (recv_gap s) = valid_count (recv_gap s').
Proof.
  assert (forall buf l, valid_count l = length (filter (fun o => is_Some o) (map (held_of buf) l))) as Hv.
  { intros buf l. unfold valid_count. induction l as [|e l IH]; [done|]. cbn [map]. rewrite !filter_cons.
    assert (e_valid e = true <-> is_Some (held_of buf e)) as Hiff.
    { unfold held_of. destruct (e_valid e); [naive_solver|]. split; [done|]. by intros [? ?]. }
    destruct (decide (e_valid e = true)), (decide (is_Some (held_of buf e))); cbn [length]; rewrite ?IH; tauto. }
  intros Ht. rewrite (Hv (recv_gap_buf s)), (Hv (recv_gap_buf s') (recv_gap s')). fold (table s) (table s'). by rewrite Ht.
Qed.
Lemma merge_step_Ok s i j a b :
  pool_ok s -> recv_gap s !! i = Some a -> recv_gap s !! j = Some b -> i <> j -> e_valid a = true -> e_delivered a = false ->
  e_valid b = true -> e_delivered b = false ->
  exists s1 s2 a2 b2, nsctp_rx_move s i 0 = Ok s1 /\ nsctp_rx_move s1 j (e_len a) = Ok s2 /\
    recv_gap s2 !! i = Some a2 /\ recv_gap s2 !! j = Some b2 /\
    let s' := set_gap s2 (<[j := set_invalid b2]> (<[i := absorb a2 b2]> (recv_gap s2))) (u8 (recv_gap_count s2 - 1)) in
    exists ha hb, held_of (recv_gap_buf s) a = Some ha /\ held_of (recv_gap_buf s) b = Some hb /\
      pool_ok s' /\ frame s s' /\ table s' = <[j := None]> (<[i := Some (a_absorb ha hb)]> (table s)) /\
      valid_count (recv_gap s) = S (valid_count (recv_gap s')).
Proof.
  intros Hok Ha Hb Hij Va Da Vb Db.
  assert (owns a) as La by (split; [done | by apply (po_undelivered s Hok i)]).
  assert (owns b) as Lb by (split; [done | by apply (po_undelivered s Hok j)]).
  destruct (rx_move_Ok s i 0 a Hok Ha La) as (s1 & Hm1 & Hok1 & Hfr1 & _ & Ht1 & Ha1 & _ & Ho1); [lia | intros; lia |].
  destruct (Ho1 j b Hb ltac:(congruence)) as (ob & Hb1 & _ & _). set (b1 := set_off b ob) in *.
  assert (forall k f, recv_gap s1 !! k = Some f -> k <> i -> owns f -> (e_len a <= e_off f)%nat) as Hge.
  { intros k f Hf Hki Lf. pose proof (po_apart s1 Hok1 i k _ f Ha1 Hf ltac:(congruence) La Lf) as Hap.
    destruct Lf as [_ Nf]. unfold apart in Hap. cbn in Hap. lia. }
  destruct (rx_move_Ok s1 j (e_len a) b1 Hok1 Hb1 Lb) as (s2 & Hm2 & Hok2 & Hfr2 & _ & Ht2 & Hb2 & _ & Ho2).
  { by apply (Hge j). }
  { intros k f Hf Hkj Lf. destruct (decide (k = i)) as [->|Hki]; [|right; by apply (Hge k)].
    rewrite Ha1 in Hf. injection Hf as <-. left. cbn. lia. }
  destruct (Ho2 i _ Ha1 Hij) as (oa & Ha2 & Hoa & _). rewrite Hoa in Ha2 by (first [done | cbn; lia]). cbn [e_off set_off] in Ha2.
  exists s1, s2, (set_off (set_off a 0) 0), (set_off b1 (e_len a)). split; [done|]. split; [done|]. split; [done|]. split; [done|].
  destruct (absorb_Ok s2 i j _ _ Hok2 Ha2 Hb2 Hij La Lb Da Db eq_refl eq_refl) as (ha & hb & Hha & Hhb & Hok' & Ht' & Hc).
  assert (forall k f g, recv_gap s !! k = Some f -> recv_gap s2 !! k = Some g -> held_of (recv_gap_buf s2) g = held_of (recv_gap_buf s) f) as Hh.
  { intros k f g Hf Hg. apply table_lookup in Hf, Hg. rewrite Ht2, Ht1, Hf in Hg. by injection Hg as ->. }
  rewrite (Hh i a _ Ha Ha2) in Hha. rewrite (Hh j b _ Hb Hb2) in Hhb.
  exists ha, hb. split; [done|]. split; [done|]. split; [done|]. split.
  { destruct (frame_trans _ _ _ Hfr1 Hfr2). by constructor. }
  split; [by rewrite Ht', Ht2, Ht1|]. rewrite <- Hc.
  apply table_valid_count. by rewrite Ht2, Ht1.
Qed.

Lemma held_follow buf a b ha hb :
  held_of buf a = Some ha -> held_of buf b = Some hb -> a_follow ha hb = nsctp_fragments_follow a b.
Proof. unfold held_of. destruct (e_valid a), (e_valid b); try done. by intros [= <-] [= <-]. Qed.

Lemma valid_count_pos gap i e : gap !! i = Some e -> e_valid e = true -> (0 < valid_count gap)%nat.
Proof.
  intros He Hv. unfold valid_count. assert (e ∈ filter (fun e => e_valid e = true) gap) as Hin.
  { apply list_elem_of_filter. split; [done|]. by eapply list_elem_of_lookup_2. }
  destruct (filter _ gap); [by apply elem_of_nil in Hin | cbn; lia].
Qed.
Lemma merge_loop_Ok fuel s :
  pool_ok s -> (valid_count (recv_gap s) <= fuel)%nat ->
  exists s' rc, merge_loop fuel s = Ok (s', rc) /\ pool_ok s' /\ frame s s' /\
    rtc (a_merge (cumulative_tsn s)) (table s) (table s') /\
    (rc = NANORTC_OK /\ find_pair (cumulative_tsn s') (recv_gap s') (recv_gap s') 0 = None \/
     rc = NANORTC_ERR_BUFFER_TOO_SMALL /\ exists i j a b, table s' !! i = Some (Some a) /\ table s' !! j = Some (Some b) /\ i <> j /\
       a_delivered a = false /\ a_delivered b = false /\ a_follow a b = true /\ i32 (a_tsn b - cumulative_tsn s) <= 0 /\
       (NANORTC_SCTP_MAX_MESSAGE_SIZE < length (a_data a) + length (a_data b))%nat).
Proof.
  revert s. induction fuel as [|fuel IH]; intros s Hok Hf; cbn [merge_loop];
    (destruct (find_pair _ _ _ _) as [[i j]|] eqn:Hp;
     [|exists s, NANORTC_OK; split_and!; [done | done | done | done | left; done]]);
    apply find_pair_Some in Hp as (_ & a & b & Ha & Hb & Va & Da & Hm); rewrite Nat.sub_0_r in Ha;
    unfold merges in Hm; bool_facts;
    (assert (i <> j) as Hij by (intros ->; assert (a = b) as <- by congruence; by apply (u32_succ_neq (e_tsn a)), follow_tsn)).
  { exfalso. pose proof (valid_count_pos _ _ _ Ha Va). lia. }
  rewrite (entry_Ok s i a Ha), (entry_Ok s j b Hb), !bind_Ok.
  assert (length (content (recv_gap_buf s) a) = e_len a /\ length (content (recv_gap_buf s) b) = e_len b) as [Hca Hcb].
  { pose proof (po_buf s Hok). pose proof (po_le s Hok).
    split; unfold content; rewrite length_take, length_drop.
    - pose proof (po_in s Hok i a Ha ltac:(split; [done | by apply (po_undelivered s Hok i)])). lia.
    - pose proof (po_in s Hok j b Hb ltac:(split; [done | by apply (po_undelivered s Hok j)])). lia. }
  pose proof (held_of_undelivered (recv_gap_buf s) a Va Da) as Hha.
  pose proof (held_of_undelivered (recv_gap_buf s) b ltac:(done) ltac:(done)) as Hhb.
  pose proof (table_lookup s i a Ha) as Hta. pose proof (table_lookup s j b Hb) as Htb. rewrite Hha in Hta. rewrite Hhb in Htb.
  assert (nsctp_fragments_follow a b = true) as Hfol by done. rewrite <- (held_follow _ _ _ _ _ Hha Hhb) in Hfol.
  assert (i32 (e_tsn b - cumulative_tsn s) <= 0) as Hcum by (destruct (Z.gtb_spec (i32 (e_tsn b - cumulative_tsn s)) 0); [done|lia]).
  destruct (Nat.ltb_spec NANORTC_SCTP_MAX_MESSAGE_SIZE (e_len a + e_len b)) as [Hbig|_].
  { exists s, NANORTC_ERR_BUFFER_TOO_SMALL. split_and!; [done | done | done | done |]. right. split; [done|].
    eexists i, j, _, _. split_and!; [exact Hta | exact Htb | done | done | done | done | done |]. cbn. by rewrite Hca, Hcb. }
  destruct (merge_step_Ok s i j a b Hok Ha Hb Hij Va Da ltac:(done) ltac:(done))
    as (s1 & s2 & a2 & b2 & Hm1 & Hm2 & Ha2 & Hb2 & ha & hb & Hha' & Hhb' & Hok' & Hfr & Ht & Hc).
  rewrite Hm1, bind_Ok, Hm2, bind_Ok. rewrite (entry_Ok s2 i a2 Ha2), (entry_Ok s2 j b2 Hb2), !bind_Ok.
  set (s' := set_gap s2 _ _) in *. destruct (IH s' Hok') as (s'' & rc & -> & Hok'' & Hfr' & Hrtc & Hres); [lia|].
  exists s'', rc. rewrite (fr_cum _ _ Hfr) in Hrtc, Hres. split_and!; [done | done | by eapply frame_trans | |done].
  eapply rtc_l; [|exact Hrtc]. rewrite Ht. rewrite Hha in Hha'. rewrite Hhb in Hhb'. injection Hha' as <-. injection Hhb' as <-. by constructor.
Qed.
Lemma nsctp_rx_merge_Ok s :
  pool_ok s ->
  exists s' rc, nsctp_rx_merge s = Ok (s', rc) /\ pool_ok s' /\ frame s s' /\
    rtc (a_merge (cumulative_tsn s)) (table s) (table s') /\
    (rc = NANORTC_OK /\ find_pair (cumulative_tsn s') (recv_gap s') (recv_gap s') 0 = None \/
     rc = NANORTC_ERR_BUFFER_TOO_SMALL /\ exists i j a b, table s' !! i = Some (Some a) /\ table s' !! j = Some (Some b) /\ i <> j /\
       a_delivered a = false /\ a_delivered b = false /\ a_follow a b = true /\ i32 (a_tsn b - cumulative_tsn s) <= 0 /\
       (NANORTC_SCTP_MAX_MESSAGE_SIZE < length (a_data a) + length (a_data b))%nat).
Proof.
  intros Hok. apply merge_loop_Ok; [done|]. pose proof (valid_count_le (recv_gap s)). by rewrite (po_gap s Hok) in *.
Qed.

(** * Delivering *)

Definition a_deliver (h : held) : held := Held (a_tsn h) (a_ppid h) (a_sid h) (a_ssn h) (a_flags h) true (a_forwarded h) [].

Lemma set_delivered_Ok s j e count :
  pool_ok s -> recv_gap s !! j = Some e -> count = recv_gap_count s ->
  let s' := set_gap s (<[j := set_delivered e]> (recv_gap s)) count in
  pool_ok s' /\ table s' = alter (fmap a_deliver) j (table s).
Proof.
  intros Hok He -> s'. pose proof (lookup_lt_Some _ _ _ He) as Hj. split.
  - assert (forall k f, recv_gap s' !! k = Some f -> exists g, recv_gap s !! k = Some g /\ e_off f = e_off g /\ e_len f = e_len g /\ e_valid f = e_valid g /\
      (e_delivered f = false -> e_delivered g = false)) as Hinv.
    { intros k f Hf. cbn in Hf. destruct (decide (k = j)) as [->|Hne].
      - rewrite list_lookup_insert_eq in Hf by done. injection Hf as <-. by exists e.
      - rewrite list_lookup_insert_ne in Hf by done. by exists f. }
    assert (forall f g, e_len f = e_len g -> e_valid f = e_valid g -> owns f -> owns g) as Hlive by (unfold owns; intros f g -> ->; done).
    constructor; cbn [s' set_gap recv_gap_buf recv_gap_buf_used recv_gap_count].
    + cbn. rewrite length_insert. apply Hok.
    + apply Hok.
    + cbn. pose proof (sum_list_insert live_len _ _ _ (set_delivered e) He) as H. change (live_len (set_delivered e)) with (live_len e) in H.
      rewrite (po_used s Hok). lia.
    + apply Hok.
    + intros k f Hf Lf. destruct (Hinv k f Hf) as (g & Hg & -> & Hl & Hv & _). rewrite Hl. apply (po_in s Hok k g Hg). by apply (Hlive f).
    + intros k l f g Hf Hg Hne Lf Lg. destruct (Hinv k f Hf) as (f0 & Hf0 & Ho1 & Hl1 & Hv1 & _), (Hinv l g Hg) as (g0 & Hg0 & Ho2 & Hl2 & Hv2 & _).
      unfold apart. rewrite Ho1, Hl1, Ho2, Hl2. apply (po_apart s Hok k l f0 g0 Hf0 Hg0 Hne); [by apply (Hlive f) | by apply (Hlive g)].
    + intros k f Hf Hv Hd. destruct (Hinv k f Hf) as (g & Hg & _ & -> & Hv' & Hd'). apply (po_undelivered s Hok k g Hg); [congruence | auto].
    + cbn. rewrite (po_count s Hok). fold (valid_count (recv_gap s)) (valid_count (<[j := set_delivered e]> (recv_gap s))).
      pose proof (valid_count_insert _ _ _ (set_delivered e) He) as H. change (e_valid (set_delivered e)) with (e_valid e) in H. lia.
  - unfold s'. rewrite table_set_gap, (alter_at _ _ _ _ (table_lookup s j e He)). f_equal. unfold held_of. cbn. by destruct (e_valid e).
Qed.

Lemma table_held s j h :
  pool_ok s -> table s !! j = Some (Some h) -> a_delivered h = false ->
  exists e, recv_gap s !! j = Some e /\ owns e /\ e_delivered e = false /\ held_of (recv_gap_buf s) e = Some h /\
    a_data h = content (recv_gap_buf s) e /\ length (a_data h) = e_len e.
Proof.
  intros Hok Ht Hd. unfold table in Ht. rewrite list_lookup_fmap in Ht. destruct (recv_gap s !! j) as [e|] eqn:He; [|done].
  cbn in Ht. injection Ht as Hh. exists e. unfold held_of in *. destruct (e_valid e) eqn:Hv; [|done]. injection Hh as <-. cbn in Hd |- *.
  rewrite Hd. assert (owns e) as Hl by (split; [done | by apply (po_undelivered s Hok j)]).
  pose proof (po_in s Hok j e He Hl). pose proof (po_le s Hok). pose proof (po_buf s Hok).
  split_and!; try done. unfold content. rewrite length_take, length_drop. lia.
Qed.
Lemma table_alter_other {A} (f : A -> A) (t : list A) (j k : nat) : k <> j -> alter f j t !! k = t !! k.
Proof. intros. by rewrite list_lookup_alter_ne by congruence. Qed.

Lemma deliver_parts_Ok parts : forall s hs (moved : list nat) pos,
  pool_ok s -> NoDup parts -> Forall2 (fun j h => table s !! j = Some (Some h) /\ a_delivered h = false) parts hs ->
  (forall j, j ∈ parts -> j ∉ moved) -> (pos <= length (recv_gap_buf s))%nat ->
  (forall j f, recv_gap s !! j = Some f -> owns f -> if bool_decide (j ∈ moved) then (e_off f + e_len f <= pos)%nat else (pos <= e_off f)%nat) ->
  exists s', deliver_parts s parts pos = Ok s' /\ pool_ok s' /\ frame s s' /\
    table s' = foldl (fun t j => alter (fmap a_deliver) j t) (table s) parts /\
    let data := concat (map a_data hs) in
    (pos + length data <= length (recv_gap_buf s'))%nat /\ take (pos + length data) (recv_gap_buf s') = take pos (recv_gap_buf s) ++ data.
Proof.
  induction parts as [|j parts IH]; intros s hs moved pos Hok Hnd Hhs Hnm Hpos Hlay.
  { apply Forall2_nil_inv_l in Hhs as ->. exists s. cbn. rewrite Nat.add_0_r, app_nil_r. done. }
  apply Forall2_cons_inv_l in Hhs as (h & hs' & [Hj Hd] & Hhs & ->). apply NoDup_cons in Hnd as [Hj' Hnd].
  destruct (table_held s j h Hok Hj Hd) as (e & He & Le & De & Hh & Hdata & Hlen).
  pose proof (Hlay j e He Le) as Hoff. rewrite bool_decide_false in Hoff by (apply Hnm; left).
  destruct (rx_move_Ok s j pos e Hok He Le Hoff) as (s1 & Hm & Hok1 & Hfr1 & _ & Ht1 & He1 & Hpre & Hoth).
  { intros k f Hf Hkj Lf. pose proof (Hlay k f Hf Lf) as H. destruct (bool_decide _); auto. }
  cbn [deliver_parts]. rewrite Hm, bind_Ok. rewrite (entry_Ok s1 j _ He1), bind_Ok.
  destruct (set_delivered_Ok s1 j _ _ Hok1 He1 eq_refl) as [Hok2 Ht2]. set (s2 := set_gap s1 _ _) in *.
  change (e_len (set_off e pos)) with (e_len e).
  assert (take (pos + e_len e) (recv_gap_buf s1) = take pos (recv_gap_buf s) ++ a_data h) as Hbuf.
  { pose proof (table_lookup s1 j _ He1) as Hl. rewrite Ht1, Hj in Hl. injection Hl as Hl. rewrite held_of_undelivered in Hl; [|apply Le|done].
    rewrite <- Hpre. injection Hl as ->. cbn. unfold content. cbn. symmetry. apply take_take_drop. }
  pose proof (po_buf s Hok) as Hb0. pose proof (po_buf s1 Hok1) as Hb1. pose proof (po_le s1 Hok1) as Hle1.
  pose proof (po_in s1 Hok1 j _ He1 Le) as Hin1. cbn in Hin1.
  destruct (IH s2 hs' (j :: moved) (pos + e_len e)%nat Hok2 Hnd) as (s' & Hs' & Hok' & Hfr' & Ht' & Hfit & Htake).
  { apply Forall2_same_length_lookup in Hhs as [Hl Hhs]. apply Forall2_same_length_lookup. split; [done|]. intros i k g Hk Hg.
    destruct (Hhs i k g Hk Hg) as [Hk1 Hk2]. split; [|done]. rewrite Ht2, table_alter_other, Ht1; [done|].
    intros ->. apply Hj'. by eapply list_elem_of_lookup_2. }
  { intros k Hk. rewrite not_elem_of_cons. split; [by intros ->|]. apply Hnm. by right. }
  { cbn. lia. }
  { intros k f Hf Lf. cbn in Hf. destruct (decide (k = j)) as [->|Hkj].
    { rewrite list_lookup_insert_eq in Hf by (by eapply lookup_lt_Some). injection Hf as <-. rewrite bool_decide_true by left. cbn. lia. }
    rewrite list_lookup_insert_ne in Hf by done.
    assert (exists f0, recv_gap s !! k = Some f0) as [f0 Hf0].
    { apply lookup_lt_is_Some_2. rewrite (po_gap s Hok), <- (po_gap s1 Hok1). by eapply lookup_lt_Some. }
    destruct (Hoth k f0 Hf0 Hkj) as (o & Ho & Ho1 & Ho2). rewrite Hf in Ho. injection Ho as ->.
    assert (owns f0) as Lf0 by done. pose proof (Hlay k f0 Hf0 Lf0) as H.
    destruct (decide (k ∈ moved)) as [Hk|Hk].
    - rewrite bool_decide_true in H by done. rewrite bool_decide_true by by right. cbn. specialize (Ho1 Lf0 H). lia.
    - rewrite bool_decide_false in H by done. rewrite bool_decide_false by (rewrite not_elem_of_cons; tauto). specialize (Ho2 Lf0 H).
      pose proof (po_apart s1 Hok1 j k _ _ He1 Hf ltac:(congruence) Le Lf) as Hap. unfold apart in Hap. cbn in Hap |- *.
      destruct Lf0. lia. }
  exists s'. rewrite Hs'. split; [done|]. split; [done|]. split.
  { eapply frame_trans; [exact Hfr1|]. destruct Hfr'. by constructor. }
  split; [by rewrite Ht', Ht2, Ht1|]. cbn [map concat]. rewrite length_app, Hlen, Nat.add_assoc. split; [done|].
  cbn zeta in Htake. rewrite Htake. change (recv_gap_buf s2) with (recv_gap_buf s1). by rewrite Hbuf, <- app_assoc.
Qed.

(** * Streams *)

Definition ssn_of (s : sctp_rx) (sid : Z) : Z :=
  match find_stream (take (stream_count s) (stream_ids s)) sid 0 with Some i => nth_ssn s i | None => 0 end.
Record streams_ok (s : sctp_rx) : Prop := {
  so_ids : length (stream_ids s) = NANORTC_MAX_DATACHANNELS_SCTP;
  so_recv : length (recv_ssn s) = NANORTC_MAX_DATACHANNELS_SCTP;
  so_count : (stream_count s <= NANORTC_MAX_DATACHANNELS_SCTP)%nat;
  so_fresh : forall i, (stream_count s <= i)%nat -> nth_ssn s i = 0
}.
(** Everything but the stream table. *)
Record same_rest (s s' : sctp_rx) : Prop := {
  sr_recv : recv_ssn s' = recv_ssn s; sr_cum : cumulative_tsn s' = cumulative_tsn s; sr_gap : recv_gap s' = recv_gap s;
  sr_count : recv_gap_count s' = recv_gap_count s; sr_buf : recv_gap_buf s' = recv_gap_buf s; sr_used : recv_gap_buf_used s' = recv_gap_buf_used s
}.
Lemma same_rest_pool s s' : same_rest s s' -> pool_ok s -> pool_ok s' /\ table s' = table s.
Proof.
  intros [Hr Hc Hg Hn Hb Hu] Hok. split; [|unfold table; by rewrite Hg, Hb].
  destruct Hok. constructor; rewrite ?Hg, ?Hn, ?Hb, ?Hu; done.
Qed.

Lemma find_stream_Some ids sid k i : find_stream ids sid k = Some i -> (k <= i)%nat /\ ids !! (i - k)%nat = Some sid.
Proof.
  revert k. induction ids as [|x ids IH]; intros k; cbn; [done|]. destruct (Z.eqb_spec x sid) as [->|].
  - intros [= <-]. by rewrite Nat.sub_diag.
  - intros [H1 H2]%IH. split; [lia|]. by replace (i - k)%nat with (S (i - S k)) by lia.
Qed.
Lemma find_stream_app ids ids' sid k :
  find_stream (ids ++ ids') sid k =
  match find_stream ids sid k with Some i => Some i | None => find_stream ids' sid (k + length ids) end.
Proof.
  revert k. induction ids as [|x ids IH]; intros k; cbn [app find_stream length]; [by rewrite Nat.add_0_r|].
  destruct (x =? sid); [done|]. rewrite IH. by rewrite Nat.add_succ_r.
Qed.

Lemma nsctp_stream_Ok s sid :
  streams_ok s ->
  let '(s', o) := nsctp_stream s sid in
  streams_ok s' /\ same_rest s s' /\ (forall x, ssn_of s' x = ssn_of s x) /\
  match o with
  | None => stream_count s = NANORTC_MAX_DATACHANNELS_SCTP
  | Some st => nth_ssn s' st = ssn_of s sid /\ forall v,
      let s'' := set_recv_ssn s' (<[st := v]> (recv_ssn s')) in
      streams_ok s'' /\ forall x, ssn_of s'' x = if x =? sid then v else ssn_of s x
  end.
Proof.
  intros Hok. pose proof Hok as [Hids Hrecv Hcnt Hfresh].
  assert (forall s1 st, streams_ok s1 -> (st < stream_count s1)%nat -> find_stream (take (stream_count s1) (stream_ids s1)) sid 0 = Some st ->
    forall v, let s'' := set_recv_ssn s1 (<[st := v]> (recv_ssn s1)) in
      streams_ok s'' /\ forall x, ssn_of s'' x = if x =? sid then v else ssn_of s1 x) as Hupd.
  { intros s1 st [H1 H2 H3 H4] Hlt Hst v s''. split.
    - constructor; [done | cbn; by rewrite length_insert | done |]. intros i Hi. cbn in Hi. unfold nth_ssn. cbn. rewrite nth_lookup, list_lookup_insert_ne by lia.
      rewrite <- nth_lookup. by apply H4.
    - intros x. unfold ssn_of. cbn. unfold nth_ssn. cbn. destruct (Z.eqb_spec x sid) as [->|Hne].
      + rewrite Hst, nth_lookup, list_lookup_insert_eq by lia. done.
      + destruct (find_stream _ x 0) as [i|] eqn:Hx; [|done]. apply find_stream_Some in Hst as [_ Hst], Hx as [_ Hx].
        rewrite !nth_lookup, list_lookup_insert_ne; [done|]. intros ->. congruence. }
  unfold nsctp_stream. destruct (find_stream _ sid 0) as [st|] eqn:Hf.
  - pose proof (find_stream_Some _ _ _ _ Hf) as [_ Hl]. apply lookup_lt_Some in Hl. rewrite length_take in Hl.
    split; [done|]. split; [by constructor|]. split; [done|]. split; [by unfold ssn_of; rewrite Hf|]. apply Hupd; [done | lia | done].
  - destruct (Nat.eqb_spec (stream_count s) NANORTC_MAX_DATACHANNELS_SCTP) as [Heq|Hne]; [done|].
    set (s' := set_streams _ _ _). set (c := stream_count s) in *.
    assert (take (S c) (<[c := sid]> (stream_ids s)) = take c (stream_ids s) ++ [sid]) as Htk.
    { rewrite (take_S_r _ _ sid) by (apply list_lookup_insert_eq; lia). by rewrite take_insert_ge by lia. }
    assert (streams_ok s') as Hok'.
    { constructor; cbn; [by rewrite length_insert | done | lia |]. intros i Hi. apply Hfresh. lia. }
    assert (forall x, ssn_of s' x = ssn_of s x) as Hsame.
    { intros x. unfold ssn_of. cbn [s' set_streams stream_count stream_ids]. fold c. rewrite Htk, find_stream_app.
      destruct (find_stream (take c _) x 0); [done|]. cbn [find_stream]. destruct (sid =? x); [|done].
      apply Hfresh. rewrite length_take. fold c. lia. }
    split; [done|]. split; [by constructor|]. split; [done|].
    assert (find_stream (take (stream_count s') (stream_ids s')) sid 0 = Some c) as Hf'.
    { cbn [s' set_streams stream_count stream_ids]. rewrite Htk, find_stream_app, Hf. cbn [find_stream]. rewrite Z.eqb_refl, length_take. f_equal. lia. }
    split.
    + transitivity 0; [apply Hfresh; lia|]. unfold ssn_of. fold c. by rewrite Hf.
    + intros v. destruct (Hupd s' c Hok' ltac:(cbn; lia) Hf' v) as [H1 H2]. split; [done|]. intros x. rewrite H2, Hsame. done.
Qed.
