(* ===== verification/SctpDelivery.v ===== *)
(** What the receive half of [src/nano_sctp.c] promises: the abstract table it
    implements (a refinement), that an association delivers the peer's messages
    whole, unaltered, at most once and in stream order whatever the network does
    to the chunks, and the two inputs on which it does not deliver. *)

From Stdlib Require Import ZArith Lia.
From stdpp Require Import base list numbers relations sorting.
From S2P Require Import Prelude Wire Crc SctpCodec SctpRecv.

Local Open Scope Z_scope.
#[local] Opaque NANORTC_SCTP_RECV_GAP_BUF_SIZE NANORTC_SCTP_MAX_MESSAGE_SIZE NANORTC_SCTP_MTU.

(** * The fragments of a message *)

Definition is_begin (h : held) : bool := has_flag (a_flags h) SCTP_DATA_FLAG_BEGIN.
Definition is_end (h : held) : bool := has_flag (a_flags h) SCTP_DATA_FLAG_END.
Definition is_unordered (h : held) : bool := has_flag (a_flags h) SCTP_DATA_FLAG_UNORDERED.

(** Fragments each following the one before, the last alone ending the message. *)
Fixpoint a_chain (prev : option held) (hs : list held) : Prop :=
  match hs with
  | [] => False
  | h :: rest =>
      (match prev with None => True | Some p => a_follow p h = true end) /\
      (if is_end h then rest = [] else a_chain (Some h) rest)
  end.
Fixpoint a_tsns (tsn : Z) (hs : list held) : Prop :=
  match hs with [] => True | h :: rest => a_tsn h = tsn /\ a_tsns (u32 (tsn + 1)) rest end.
Lemma a_tsns_lookup hs tsn m h : a_tsns tsn hs -> hs !! m = Some h -> a_tsn h = if (m =? 0)%nat then tsn else u32 (tsn + Z.of_nat m).
Proof.
  revert tsn m. induction hs as [|h0 hs IH]; intros tsn m Ht Hm; [done|]. destruct Ht as [Ht Hr]. destruct m as [|m]; [by injection Hm as ->|].
  cbn in Hm. rewrite (IH _ _ Hr Hm). cbn [Nat.eqb]. destruct (Nat.eqb_spec m 0) as [->|]; [done|]. mach.
Qed.

Lemma follow_held a b ha hb buf :
  held_of buf a = Some ha -> held_of buf b = Some hb -> nsctp_fragments_follow a b = a_follow ha hb.
Proof. intros. by rewrite (held_follow _ _ _ _ _ H H0). Qed.
Lemma held_flags buf e h : held_of buf e = Some h -> a_flags h = e_flags e /\ a_tsn h = e_tsn e /\ a_sid h = e_sid e /\ a_ssn h = e_ssn e /\
  a_ppid h = e_ppid e /\ a_delivered h = e_delivered e /\ a_forwarded h = e_forwarded e /\ e_valid e = true.
Proof. unfold held_of. destruct (e_valid e); [|done]. by intros [= <-]. Qed.

Lemma collect_Ok s k tsn parts total ps tot :
  pool_ok s ->
  (forall p, head parts = Some p -> exists e, recv_gap s !! p = Some e /\ e_valid e = true) ->
  collect_parts k (recv_gap s) tsn parts total = inr (Some (ps, tot)) ->
  exists new hs, ps = rev parts ++ new /\ (length new <= k)%nat /\
    Forall2 (fun j h => table s !! j = Some (Some h) /\ a_delivered h = false) new hs /\
    a_tsns tsn hs /\ a_chain (match parts with p :: _ => held_of (recv_gap_buf s) (nth p (recv_gap s) rx_zero) | [] => None end) hs /\
    tot = (total + length (concat (map a_data hs)))%nat.
Proof.
  intros Hok. revert tsn parts total. induction k as [|k IH]; intros tsn parts total Hhd; cbn [collect_parts]; [done|].
  destruct (find_from _ _ 0) as [j|] eqn:Hf; [|done]. apply find_from_Some in Hf as (_ & e & He & Hp). rewrite Nat.sub_0_r in He.
  assert (nth j (recv_gap s) rx_zero = e) as -> by (rewrite nth_lookup, He; done). bool_facts.
  assert (e_valid e = true /\ e_delivered e = false) as [Hv Hd] by done.
  pose proof (held_of_undelivered (recv_gap_buf s) e Hv Hd) as Hh. set (h := Held _ _ _ _ _ _ _ _) in Hh.
  pose proof (table_lookup s j e He) as Ht. rewrite Hh in Ht.
  destruct (table_held s j h Hok Ht eq_refl) as (e' & He' & _ & _ & _ & Hdata & Hlen). rewrite He in He'. injection He' as <-.
  destruct (match parts with [] => false | p :: _ => _ end) eqn:Hfol; [done|]. destruct (_ <? _)%nat; [done|]. intros Hc.
  assert (match match parts with p :: _ => held_of (recv_gap_buf s) (nth p (recv_gap s) rx_zero) | [] => None end with
          | None => True | Some p => a_follow p h = true end) as Hprev.
  { destruct parts as [|p parts]; [done|]. destruct (Hhd p eq_refl) as (f & Hpf & Hfv).
    assert (nth p (recv_gap s) rx_zero = f) as Hn by (rewrite nth_lookup, Hpf; done). rewrite Hn in *.
    apply negb_false_iff in Hfol. destruct (held_of _ f) as [hf|] eqn:Hhf; [|done].
    by rewrite <- (follow_held _ _ _ _ _ Hhf Hh). }
  assert (is_end h = has_flag (e_flags e) SCTP_DATA_FLAG_END) as Hend by done.
  destruct (has_flag (e_flags e) SCTP_DATA_FLAG_END) eqn:He1.
  - injection Hc as <- <-. exists [j], [h]. cbn [rev a_tsns a_chain map concat]. rewrite Hend, app_nil_r. split_and!; first [done | cbn; lia | by repeat constructor | by rewrite Hlen].
  - apply IH in Hc as (new & hs & -> & Hl & Hall & Hts & Hch & ->); [|intros p [= <-]; by exists e].
    assert (nth j (recv_gap s) rx_zero = e) as Hn by (rewrite nth_lookup, He; done). rewrite Hn, Hh in Hch.
    exists (j :: new), (h :: hs). cbn [rev a_tsns a_chain map concat]. rewrite Hend, <- app_assoc, length_app.
    split_and!; first [done | cbn; lia | by constructor | lia].
Qed.

(** * The abstract receiver

    A table of chunks, a cumulative TSN and the next stream sequence number of
    every stream; no pool, no offsets, no slots moved. *)

Record receiver : Type := Receiver { r_table : list (option held); r_cum : Z; r_ssn : Z -> Z }.
Definition abstracts (s : sctp_rx) (r : receiver) : Prop :=
  table s = r_table r /\ cumulative_tsn s = r_cum r /\ forall sid, ssn_of s sid = r_ssn r sid.

(** What a poll delivers: a chain of undelivered chunks from one that begins a
    message and whose turn on its stream it is. *)
Record delivery (t : list (option held)) (ssn : Z -> Z) (msg : message) (t' : list (option held)) (ssn' : Z -> Z)
  (i : nat) (h : held) (parts : list nat) (hs : list held) : Prop := {
  dl_first : t !! i = Some (Some h) /\ a_delivered h = false /\ is_begin h = true;
  dl_parts : NoDup parts /\ Forall2 (fun j h => t !! j = Some (Some h) /\ a_delivered h = false) parts hs;
  dl_chain : a_tsns (a_tsn h) hs /\ a_chain None hs;
  dl_msg : msg = Message (concat (map a_data hs)) (a_ppid h) (a_sid h);
  dl_table : t' = foldl (fun t j => alter (fmap a_deliver) j t) t parts;
  dl_turn : is_unordered h = false -> a_forwarded h = false -> a_ssn h = ssn (a_sid h);
  dl_ssn : forall x, ssn' x = if negb (is_unordered h) && negb (a_forwarded h) && (x =? a_sid h) then u16 (ssn (a_sid h) + 1) else ssn x
}.
Inductive a_poll (r : receiver) : receiver -> Z * option message -> Prop :=
| a_poll_none rc : rc <> NANORTC_OK -> a_poll r (Receiver (map (a_reclaim (r_cum r)) (r_table r)) (r_cum r) (r_ssn r)) (rc, None)
| a_poll_some msg t' ssn' i h parts hs :
    delivery (map (a_reclaim (r_cum r)) (r_table r)) (r_ssn r) msg t' ssn' i h parts hs ->
    a_poll r (Receiver t' (r_cum r) ssn') (NANORTC_OK, Some msg).

Lemma Forall2_sums s parts hs :
  pool_ok s -> Forall2 (fun j h => table s !! j = Some (Some h) /\ a_delivered h = false) parts hs ->
  Forall (fun j => exists e, recv_gap s !! j = Some e /\ owns e) parts.
Proof.
  intros Hok H. apply Forall_forall. intros j Hj. apply list_elem_of_lookup_1 in Hj as [m Hm].
  destruct (Forall2_lookup_l _ _ _ _ _ H Hm) as (h & _ & Ht & Hd). destruct (table_held s j h Hok Ht Hd) as (e & He & Hl & _). eauto.
Qed.
Lemma a_tsns_NoDup (s : sctp_rx) parts hs tsn :
  (length parts <= NANORTC_SCTP_MAX_RECV_GAP)%nat -> a_tsns tsn hs ->
  Forall2 (fun j h => table s !! j = Some (Some h) /\ a_delivered h = false) parts hs -> NoDup parts.
Proof.
  intros Hl Ht H. apply NoDup_alt. intros a b j Ha Hb.
  destruct (Forall2_lookup_l _ _ _ _ _ H Ha) as (h & Hha & Hta & _), (Forall2_lookup_l _ _ _ _ _ H Hb) as (h' & Hhb & Htb & _).
  rewrite Hta in Htb. injection Htb as <-. pose proof (a_tsns_lookup _ _ _ _ Ht Hha) as H1. rewrite (a_tsns_lookup _ _ _ _ Ht Hhb) in H1.
  apply lookup_lt_Some in Ha, Hb. unfold NANORTC_SCTP_MAX_RECV_GAP in Hl. clear - H1 Ha Hb Hl.
  destruct (Nat.eqb_spec a 0), (Nat.eqb_spec b 0); mach.
Qed.

Record poll_result (t : list (option held)) (ssn : Z -> Z) (cum : Z) (s' : sctp_rx) (rc : Z) (m : option message) : Prop := {
  pr_pool : pool_ok s'; pr_streams : streams_ok s'; pr_cum : cumulative_tsn s' = cum;
  pr_out : match m with
           | None => rc <> NANORTC_OK /\ table s' = t /\ forall x, ssn_of s' x = ssn x
           | Some msg => rc = NANORTC_OK /\ exists i h parts hs, delivery t ssn msg (table s') (ssn_of s') i h parts hs
           end
}.
Lemma delivery_ext t ssn1 ssn2 msg t' ssn' i h parts hs :
  (forall x, ssn1 x = ssn2 x) -> delivery t ssn1 msg t' ssn' i h parts hs -> delivery t ssn2 msg t' ssn' i h parts hs.
Proof. intros H []. constructor; try done; [intros; rewrite <- H; auto | intros; rewrite <- !H; auto]. Qed.
Lemma poll_result_ext t ssn1 ssn2 cum s' rc m :
  (forall x, ssn1 x = ssn2 x) -> poll_result t ssn1 cum s' rc m -> poll_result t ssn2 cum s' rc m.
Proof.
  intros H [H1 H2 H3 H4]. constructor; [done..|]. destruct m as [msg|].
  - destruct H4 as (Hrc & i & h & parts & hs & Hd). split; [done|]. exists i, h, parts, hs. by eapply delivery_ext.
  - destruct H4 as (Hrc & Ht & Hs). split; [done|]. split; [done|]. intros x. by rewrite Hs.
Qed.
Lemma collect_inl k gap tsn parts total rc : collect_parts k gap tsn parts total = inl rc -> rc <> NANORTC_OK.
Proof.
  revert tsn parts total. induction k as [|k IH]; intros tsn parts total; cbn [collect_parts]; [done|].
  destruct (find_from _ _ _); [|done]. destruct (match parts with [] => false | p :: _ => _ end); [by intros [= <-]|].
  destruct (_ <? _)%nat; [by intros [= <-]|]. destruct (has_flag _ _); [done|]. apply IH.
Qed.

(** Moving the chosen fragments together and handing them out. *)
Lemma deliver_Ok s parts hs :
  pool_ok s -> NoDup parts -> Forall2 (fun j h => table s !! j = Some (Some h) /\ a_delivered h = false) parts hs ->
  exists s', deliver_parts s parts 0 = Ok s' /\ pool_ok s' /\ frame s s' /\
    table s' = foldl (fun t j => alter (fmap a_deliver) j t) (table s) parts /\
    rdn (recv_gap_buf s') 0 (length (concat (map a_data hs))) = Ok (concat (map a_data hs)).
Proof.
  intros Hok Hnd Hall. destruct (deliver_parts_Ok parts s hs [] 0 Hok Hnd Hall) as (s' & Hd & Hok' & Hfr & Ht & Hle & Hdata).
  - intros j _. apply not_elem_of_nil.
  - lia.
  - intros j f _ _. rewrite bool_decide_false by apply not_elem_of_nil. lia.
  - exists s'. cbn in Hle, Hdata. rewrite rdn_Ok by lia. by rewrite drop_0, Hdata.
Qed.

Lemma poll_slots_Ok order s :
  pool_ok s -> streams_ok s -> Forall (fun i => i < NANORTC_SCTP_MAX_RECV_GAP)%nat order ->
  exists s' rc m, poll_slots order s = Ok (s', rc, m) /\ poll_result (table s) (ssn_of s) (cumulative_tsn s) s' rc m.
Proof.
  intros Hok Hst Ho. revert s Hok Hst. induction Ho as [|i order Hi Ho IH]; intros s Hok Hst; cbn [poll_slots].
  { exists s, NANORTC_ERR_WOULD_BLOCK, None. by constructor. }
  destruct (lookup_lt_is_Some_2 (recv_gap s) i) as [e He]; [by rewrite (po_gap s Hok)|].
  rewrite (entry_Ok s i e He), bind_Ok.
  destruct (negb (e_valid e) || e_delivered e || _) eqn:Hskip; [by apply IH|]. bool_facts.
  assert (e_valid e = true /\ e_delivered e = false) as [Hv Hd] by done.
  pose proof (held_of_undelivered (recv_gap_buf s) e Hv Hd) as Hh. set (h := Held _ _ _ _ _ _ _ _) in Hh.
  pose proof (table_lookup s i e He) as Ht. rewrite Hh in Ht.
  pose proof (nsctp_stream_Ok s (e_sid e) Hst) as Hstream. destruct (nsctp_stream s (e_sid e)) as [s0 [st|]].
  - destruct Hstream as (Hst0 & Hrest & Hssn & Hnth & Hupd). destruct (same_rest_pool s s0 Hrest Hok) as [Hok0 Ht0].
    assert (exists s' rc m, poll_slots order s0 = Ok (s', rc, m) /\ poll_result (table s) (ssn_of s) (cumulative_tsn s) s' rc m) as Hgo.
    { destruct (IH s0 Hok0 Hst0) as (s' & rc & m & Hp & Hr). exists s', rc, m. split; [done|].
      rewrite Ht0, (sr_cum _ _ Hrest) in Hr. by eapply poll_result_ext. }
    destruct (_ && _ && negb (e_ssn e =? _)) eqn:Hturn; [done|]. destruct (_ && earlier_forwarded _ _); [done|].
    destruct (collect_parts _ _ _ _ _) as [rc|[[parts total]|]] eqn:Hc; [|clear Hgo|done].
    { apply collect_inl in Hc. exists s0, rc, None. split; [done|]. constructor; [done | done | apply Hrest | done]. }
    apply collect_Ok in Hc as (new & hs & -> & Hl & Hall & Hts & Hch & ->); [|done|by intros p]. cbn [rev app] in *. cbn [Nat.add].
    pose proof (a_tsns_NoDup s0 new hs _ Hl Hts Hall) as Hnd.
    destruct (deliver_Ok s0 new hs Hok0 Hnd Hall) as (s1 & Hdel & Hok1 & Hfr & Ht1 & Hdata). rewrite Hdel, bind_Ok, Hdata, bind_Ok.
    assert (nth_ssn s1 st = nth_ssn s0 st) as Hn1 by (unfold nth_ssn; by rewrite (fr_recv _ _ Hfr)).
    assert (streams_ok s1) as Hst1.
    { destruct Hst0, Hfr as [E1 E2 E3 E4 E5]. constructor; unfold nth_ssn in *; rewrite ?E1, ?E3, ?E4; done. }
    assert (forall x, ssn_of s1 x = ssn_of s0 x) as Hs1.
    { intros x. unfold ssn_of, nth_ssn. by rewrite (fr_ids _ _ Hfr), (fr_count _ _ Hfr), (fr_recv _ _ Hfr). }
    eexists _, _, _. split; [done|]. set (turn := negb _ && negb (e_forwarded e)). specialize (Hupd (u16 (nth_ssn s1 st + 1))) as [Hst2 Hssn2].
    assert (forall x, ssn_of (set_recv_ssn s1 (<[st := u16 (nth_ssn s1 st + 1)]> (recv_ssn s1))) x =
      if x =? e_sid e then u16 (ssn_of s (e_sid e) + 1) else ssn_of s x) as Hssn3.
    { intros x. rewrite <- Hnth, <- Hn1, <- Hssn2. unfold ssn_of, nth_ssn. cbn. by rewrite (fr_ids _ _ Hfr), (fr_count _ _ Hfr), (fr_recv _ _ Hfr). }
    constructor.
    + destruct turn; [|done]. destruct Hok1. by constructor.
    + destruct turn; [|done]. destruct Hst2 as [F1 F2 F3 F4], Hfr as [E1 E2 E3 E4 E5].
      constructor; unfold nth_ssn in *; cbn in *; rewrite ?E1, ?E3, ?E4 in *; done.
    + rewrite <- (sr_cum _ _ Hrest). destruct turn; apply Hfr.
    + split; [done|]. exists i, h, new, hs. rewrite <- Ht0 in *. constructor; try done.
      * rewrite <- Ht1. by destruct turn.
      * intros Hun Hfw. change (a_ssn h) with (e_ssn e). change (a_sid h) with (e_sid e).
        change (is_unordered h) with (has_flag (e_flags e) SCTP_DATA_FLAG_UNORDERED) in Hun. change (a_forwarded h) with (e_forwarded e) in Hfw.
        rewrite Hun, Hfw in Hturn. cbn in Hturn. rewrite <- Hnth. bool_facts. lia.
      * intros x. change (negb (is_unordered h) && negb (a_forwarded h)) with turn. change (a_sid h) with (e_sid e).
        destruct turn; cbn [andb]; [apply Hssn3|]. by rewrite Hs1, Hssn.
  - destruct Hstream as (Hst0 & Hrest & Hssn & _). destruct (same_rest_pool s s0 Hrest Hok) as [Hok0 Ht0].
    destruct (IH s0 Hok0 Hst0) as (s' & rc & m & Hp & Hr). exists s', rc, m. split; [done|].
    rewrite Ht0, (sr_cum _ _ Hrest) in Hr. by eapply poll_result_ext.
Qed.

Record rx_ok (s : sctp_rx) : Prop := { rx_pool : pool_ok s; rx_streams : streams_ok s; rx_cum : is_u32 (cumulative_tsn s) }.

Lemma frame_streams s s' : frame s s' -> streams_ok s -> streams_ok s' /\ forall x, ssn_of s' x = ssn_of s x.
Proof.
  intros [E1 E2 E3 E4 E5] [F1 F2 F3 F4]. split.
  - constructor; unfold nth_ssn in *; rewrite ?E1, ?E3, ?E4; done.
  - intros x. unfold ssn_of, nth_ssn. by rewrite E1, E3, E4.
Qed.
Lemma nsctp_poll_delivery_Ok s :
  pool_ok s -> streams_ok s ->
  exists s' rc m, nsctp_poll_delivery s = Ok (s', rc, m) /\
    poll_result (map (a_reclaim (cumulative_tsn s)) (table s)) (ssn_of s) (cumulative_tsn s) s' rc m.
Proof.
  intros Hok Hst. unfold nsctp_poll_delivery. destruct (nsctp_rx_reclaim_Ok s Hok) as (s1 & -> & Hok1 & Hfr & Ht). rewrite bind_Ok.
  destruct (frame_streams s s1 Hfr Hst) as [Hst1 Hs1].
  destruct (poll_slots_Ok slots s1 Hok1 Hst1) as (s' & rc & m & Hp & Hr).
  { apply Forall_forall. intros i Hi. apply list_elem_of_In, in_seq in Hi. lia. }
  exists s', rc, m. split; [done|]. rewrite Ht, (fr_cum _ _ Hfr) in Hr. by eapply poll_result_ext.
Qed.

(** * DATA *)

Definition held_of_data (d : nsctp_data) : held :=
  Held (d_tsn d) (d_ppid d) (d_stream_id d) (d_ssn d) (wire_flags (d_flags d)) false false (d_payload d).
Definition t_present (t : list (option held)) (tsn : Z) : Prop := exists i h, t !! i = Some (Some h) /\ a_tsn h = tsn.

(** What a DATA chunk does: nothing but dropping what was delivered, when it is
    known already or refused; or it is stored, the cumulative TSN advances over
    every TSN held, and acknowledged neighbours merge. *)
Inductive a_arrive (r : receiver) (d : nsctp_data) : receiver -> Z -> Prop :=
| a_arrive_skip t' rc :
    t' = r_table r \/ t' = map (a_reclaim (r_cum r)) (r_table r) ->
    (rc = NANORTC_OK -> i32 (d_tsn d - r_cum r) <= 0 \/ t_present (r_table r) (d_tsn d)) ->
    a_arrive r d (Receiver t' (r_cum r) (r_ssn r)) rc
| a_arrive_take slot n t0 t1 t' cum' rc :
    i32 (d_tsn d - r_cum r) > 0 -> t0 = map (a_reclaim (r_cum r)) (r_table r) -> ~ t_present t0 (d_tsn d) -> t0 !! slot = Some None ->
    t1 = <[slot := Some (held_of_data d)]> t0 -> cum' = u32 (r_cum r + Z.of_nat n) ->
    (forall m, (1 <= m <= n)%nat -> t_present t1 (u32 (r_cum r + Z.of_nat m))) -> ~ t_present t1 (u32 (r_cum r + Z.of_nat n + 1)) ->
    (n <= NANORTC_SCTP_MAX_RECV_GAP)%nat ->
    rtc (a_merge cum') (map (a_reclaim cum') t1) t' -> rc = NANORTC_OK \/ rc = NANORTC_ERR_BUFFER_TOO_SMALL ->
    a_arrive r d (Receiver t' cum' (r_ssn r)) rc.

Lemma present_table s tsn : present s tsn <-> t_present (table s) tsn.
Proof.
  split.
  - intros (i & e & He & Hv & <-). exists i. rewrite (table_lookup s i e He). unfold held_of. rewrite Hv. eauto.
  - intros (i & h & Hi & <-). unfold table in Hi. rewrite list_lookup_fmap in Hi. destruct (recv_gap s !! i) as [e|] eqn:He; [|done].
    cbn in Hi. injection Hi as Hh. destruct (held_flags _ _ _ Hh) as (_ & Ht & _ & _ & _ & _ & _ & Hv). by exists i, e.
Qed.
Lemma free_slot_None gap tsn i slot : free_slot gap tsn i slot = None -> exists j e, gap !! j = Some e /\ e_valid e = true /\ e_tsn e = tsn.
Proof.
  revert i slot. induction gap as [|e gap IH]; intros i slot; cbn; [done|]. destruct (e_valid e && _) eqn:Hc.
  - intros _. bool_facts. exists 0%nat, e. split; [done|]. split; [done|]. lia.
  - intros (j & f & H)%IH. by exists (S j), f.
Qed.
Lemma free_slot_Some gap tsn i slot k :
  free_slot gap tsn i slot = Some k ->
  (forall j e, gap !! j = Some e -> e_valid e = true -> e_tsn e <> tsn) /\
  (k = slot \/ (i <= k)%nat /\ exists e, gap !! (k - i)%nat = Some e /\ e_valid e = false).
Proof.
  revert i slot. induction gap as [|e gap IH]; intros i slot; cbn; [intros [= <-]; split; [done|by left]|].
  destruct (e_valid e && _) eqn:Hc; [done|]. intros [H1 H2]%IH. split.
  - intros [|j] f; [|apply H1]. intros [= ->] Hv Heq. rewrite Hv in Hc. cbn in Hc. bool_facts. lia.
  - assert (forall k', (S i <= k')%nat -> (exists f, gap !! (k' - S i)%nat = Some f /\ e_valid f = false) ->
      (i <= k')%nat /\ exists f, (e :: gap) !! (k' - i)%nat = Some f /\ e_valid f = false) as Hs.
    { intros k' Hk' Hf. split; [lia|]. by replace (k' - i)%nat with (S (k' - S i)) by lia. }
    destruct (e_valid e) eqn:Hv.
    + destruct H2 as [->|[? ?]]; [by left|right; by apply Hs].
    + right. destruct H2 as [->|[? ?]]; [|by apply Hs]. split; [done|]. rewrite Nat.sub_diag. by exists e.
Qed.

Lemma insert_Ok s slot f e payload :
  pool_ok s -> recv_gap s !! slot = Some f -> e_valid f = false -> (0 < length payload)%nat ->
  (recv_gap_buf_used s + length payload <= NANORTC_SCTP_RECV_GAP_BUF_SIZE)%nat ->
  e_valid e = true -> e_len e = length payload -> e_off e = recv_gap_buf_used s -> e_delivered e = false ->
  exists buf, wr (recv_gap_buf s) (recv_gap_buf_used s) payload = Ok buf /\
    let s' := set_gap (set_pool s (<[slot := e]> (recv_gap s)) buf (add16 (recv_gap_buf_used s) (length payload)))
                (<[slot := e]> (recv_gap s)) (u8 (recv_gap_count s + 1)) in
    pool_ok s' /\ table s' = <[slot := Some (Held (e_tsn e) (e_ppid e) (e_sid e) (e_ssn e) (e_flags e) false (e_forwarded e) payload)]> (table s).
Proof.
  intros Hok Hf Vf Hp Hfit Ve Le Oe De. pose proof (po_buf s Hok) as Hbl. pose proof (lookup_lt_Some _ _ _ Hf) as Hlt.
  pose proof (valid_count_insert _ _ _ e Hf) as Hc. rewrite Vf, Ve in Hc. cbn [Nat.b2n] in Hc.
  pose proof (valid_count_le (<[slot := e]> (recv_gap s))) as Hle. rewrite length_insert, (po_gap s Hok) in Hle. unfold NANORTC_SCTP_MAX_RECV_GAP in Hle.
  rewrite wr_Ok by lia. eexists. split; [done|]. rewrite add16_small by lia. set (buf := take _ _ ++ _).
  assert (length buf = NANORTC_SCTP_RECV_GAP_BUF_SIZE) as Hlb by (unfold buf; rewrite !length_app, length_take, length_drop; lia).
  assert (take (recv_gap_buf_used s) buf = take (recv_gap_buf_used s) (recv_gap_buf s)) as Hpre.
  { unfold buf. rewrite take_app_le by (rewrite length_take; lia). rewrite take_take. f_equal. lia. }
  intros s'.
  assert (forall j g, recv_gap s' !! j = Some g -> j <> slot -> recv_gap s !! j = Some g) as Hinv.
  { intros j g Hj Hne. cbn in Hj. by rewrite list_lookup_insert_ne in Hj. }
  assert (recv_gap s' !! slot = Some e) as Hslot by (by apply list_lookup_insert_eq).
  split.
  - constructor; cbn [s' set_gap set_pool recv_gap_buf recv_gap_buf_used recv_gap_count].
    + cbn. rewrite length_insert. apply Hok.
    + done.
    + cbn. pose proof (sum_list_insert live_len _ _ _ e Hf) as Hsum. unfold live_len at 2 4 in Hsum. rewrite Vf, Ve in Hsum.
      rewrite (po_used s Hok) in *. lia.
    + done.
    + intros j g Hg Lg. destruct (decide (j = slot)) as [->|Hne].
      * rewrite Hslot in Hg. injection Hg as <-. lia.
      * pose proof (po_in s Hok j g (Hinv _ _ Hg Hne) Lg). lia.
    + intros j k g h Hg Hh Hne Lg Lh. unfold apart. destruct (decide (j = slot)) as [->|Hj]; [|destruct (decide (k = slot)) as [->|Hk]].
      * rewrite Hslot in Hg. injection Hg as <-. pose proof (po_in s Hok k h (Hinv _ _ Hh ltac:(done)) Lh). lia.
      * rewrite Hslot in Hh. injection Hh as <-. pose proof (po_in s Hok j g (Hinv _ _ Hg ltac:(done)) Lg). lia.
      * by apply (po_apart s Hok j k g h (Hinv _ _ Hg Hj) (Hinv _ _ Hh Hk)).
    + intros j g Hg Vg Dg. destruct (decide (j = slot)) as [->|Hne]; [rewrite Hslot in Hg; injection Hg as <-; lia|].
      by apply (po_undelivered s Hok j g (Hinv _ _ Hg Hne)).
    + rewrite (po_count s Hok). fold (valid_count (recv_gap s)) (valid_count (recv_gap s')).
      change (recv_gap s') with (<[slot := e]> (recv_gap s)). rewrite u8_id by (unfold is_u8; lia). lia.
  - apply list_eq. intros j. destruct (decide (j = slot)) as [->|Hne].
    + rewrite (table_lookup s' slot e Hslot), list_lookup_insert_eq by (unfold table; by rewrite length_map). f_equal.
      rewrite held_of_undelivered by done. do 2 f_equal. unfold content. cbn [s' set_gap set_pool recv_gap_buf]. unfold buf.
      rewrite Oe, Le, drop_app_length' by (rewrite length_take; lia). by rewrite take_app_length.
    + rewrite list_lookup_insert_ne by done. unfold table. rewrite !list_lookup_fmap. cbn [s' set_gap recv_gap recv_gap_buf set_pool].
      rewrite list_lookup_insert_ne by done. destruct (recv_gap s !! j) as [g|] eqn:Hg; [|done]. cbn. f_equal.
      rewrite <- (set_off_self g) at 1. apply held_of_set_off. rewrite set_off_self. intros Vg Dg.
      pose proof (po_undelivered s Hok j g Hg Vg Dg) as Lg. pose proof (po_in s Hok j g Hg (conj Vg Lg)) as Hin.
      unfold content. apply content_ext. intros k Hk.
      rewrite <- (lookup_take_lt buf (recv_gap_buf_used s)), <- (lookup_take_lt (recv_gap_buf s) (recv_gap_buf_used s)) by lia. by rewrite Hpre.
Qed.

Lemma same_table s s' :
  recv_gap s' = recv_gap s -> recv_gap_count s' = recv_gap_count s -> recv_gap_buf s' = recv_gap_buf s -> recv_gap_buf_used s' = recv_gap_buf_used s ->
  pool_ok s -> pool_ok s' /\ table s' = table s.
Proof. intros Hg Hn Hb Hu Hok. split; [|unfold table; by rewrite Hg, Hb]. destruct Hok. constructor; rewrite ?Hg, ?Hn, ?Hb, ?Hu; done. Qed.

(** Refining the abstract receiver on one DATA chunk. *)
Lemma rx_data_Ok s r d :
  rx_ok s -> abstracts s r -> (0 < length (d_payload d))%nat ->
  exists s' rc r', rx_data s d = Ok (s', rc) /\ rx_ok s' /\ abstracts s' r' /\ a_arrive r d r' rc.
Proof.
  intros [Hok Hst Hcum] (Habt & Habc & Habs) Hp. unfold rx_data. cbv zeta.
  assert (forall s' t' rc, frame s s' -> pool_ok s' -> table s' = t' ->
    t' = table s \/ t' = map (a_reclaim (cumulative_tsn s)) (table s) ->
    (rc = NANORTC_OK -> i32 (d_tsn d - cumulative_tsn s) <= 0 \/ present s (d_tsn d)) ->
    exists s'' rc' r', Ok (s', rc) = Ok (s'', rc') /\ rx_ok s'' /\ abstracts s'' r' /\ a_arrive r d r' rc') as Hskip.
  { intros s' t' rc Hfr Hok' Ht Htt Hrc. exists s', rc, (Receiver t' (r_cum r) (r_ssn r)). split; [done|].
    destruct (frame_streams s s' Hfr Hst) as [Hst' Hs']. split; [constructor; [done | done | by rewrite (fr_cum _ _ Hfr)]|].
    split; [split; [done|]; split; [cbn; rewrite (fr_cum _ _ Hfr); done | intros x; cbn; by rewrite Hs']|].
    constructor; [by rewrite <- Habt, <- Habc|]. rewrite <- Habt, <- Habc, <- present_table. done. }
  destruct (_ <? _)%nat; [apply (Hskip s (table s)); auto using frame_refl; done|].
  set (sa := set_sack s true).
  destruct (same_table s sa eq_refl eq_refl eq_refl eq_refl Hok) as [Hoka Hta]. change (cumulative_tsn sa) with (cumulative_tsn s).
  destruct (Z.leb_spec (i32 (d_tsn d - cumulative_tsn s)) 0) as [Hold|Hnew]; [apply (Hskip sa (table s)); auto; by constructor|].
  destruct (nsctp_rx_reclaim_Ok sa Hoka) as (s1 & -> & Hok1 & Hfr1 & Ht1). rewrite bind_Ok. rewrite Hta in Ht1. change (cumulative_tsn sa) with (cumulative_tsn s) in Ht1.
  assert (frame s s1) as Hfr by (destruct Hfr1; by constructor). clear Hfr1. destruct (frame_streams s s1 Hfr Hst) as [Hst1 Hs1].
  assert (forall s' rc, frame s1 s' -> pool_ok s' -> table s' = table s1 -> (rc = NANORTC_OK -> present s1 (d_tsn d)) ->
    exists s'' rc' r', Ok (s', rc) = Ok (s'', rc') /\ rx_ok s'' /\ abstracts s'' r' /\ a_arrive r d r' rc') as Hskip1.
  { intros s' rc Hfr' Hok' Ht Hrc. apply (Hskip s' (table s1)); [by eapply frame_trans | done | done | by right |].
    intros Heq. right. specialize (Hrc Heq). apply present_table in Hrc as (i & h & Hi & Htsn). apply present_table.
    rewrite Ht1, list_lookup_fmap in Hi. destruct (table s !! i) as [[h'|]|] eqn:Hh; [|done|done]. exists i, h'. split; [done|].
    cbn in Hi. destruct (a_gone _ _); [done|]. by injection Hi as ->. }
  destruct (free_slot (recv_gap s1) (d_tsn d) 0 _) as [slot|] eqn:Hslot.
  2: { apply free_slot_None in Hslot. apply Hskip1; [apply frame_refl | done | done | done]. }
  apply free_slot_Some in Hslot as [Hnone Hslot]. set (incoming := RxEntry _ _ _ _ _ _ _ _ _ _).
  set (rc0 := if negb (has_flag (e_flags incoming) SCTP_DATA_FLAG_BEGIN) then _ else _).
  destruct (Z.eqb_spec rc0 NANORTC_OK) as [Hrc0|Hrc0]; cbn [negb]; [|apply Hskip1; [apply frame_refl | done | done | done]].
  destruct (_ || _ || _ || _) eqn:Hfull; [apply Hskip1; [apply frame_refl | done | done | done]|].
  rewrite !orb_false_iff in Hfull. destruct Hfull as [[[Hf1 _] _] Hf4]. apply Nat.eqb_neq in Hf1. apply Nat.ltb_ge in Hf4.
  destruct Hslot as [Hslot|(_ & f & Hf & Vf)]; [done|]. rewrite Nat.sub_0_r in Hf.
  pose proof (nsctp_stream_Ok s1 (d_stream_id d) Hst1) as Hstream. destruct (nsctp_stream s1 (d_stream_id d)) as [s2 [st|]].
  2: { destruct Hstream as (Hst2 & Hrest & Hs2 & _). destruct (same_rest_pool s1 s2 Hrest Hok1) as [Hok2 Ht2].
       exists s2, NANORTC_ERR_PROTOCOL, (Receiver (table s2) (r_cum r) (r_ssn r)). split; [done|].
       assert (cumulative_tsn s2 = cumulative_tsn s) as Hc2 by (rewrite (sr_cum _ _ Hrest); apply Hfr).
       split; [constructor; [done | done | by rewrite Hc2]|].
       split; [split; [done|]; split; [cbn; by rewrite Hc2 | intros x; cbn; by rewrite Hs2, Hs1]|].
       constructor; [right; by rewrite Ht2, Ht1, <- Habt, <- Habc | done]. }
  destruct Hstream as (Hst2 & Hrest & Hs2 & _). destruct (same_rest_pool s1 s2 Hrest Hok1) as [Hok2 Ht2].
  assert (cumulative_tsn s2 = cumulative_tsn s) as Hc2 by (rewrite (sr_cum _ _ Hrest); apply Hfr).
  pose proof (po_le s1 Hok1) as Hle. rewrite <- (sr_gap _ _ Hrest) in Hf.
  destruct (insert_Ok s2 slot f (set_off incoming (recv_gap_buf_used s2)) (d_payload d) Hok2 Hf Vf Hp) as (buf & Hw & Hok3 & Ht3); try done.
  { rewrite (sr_used _ _ Hrest). lia. }
  rewrite (proj2 (Nat.ltb_lt _ _) Hp), Hw, bind_Ok. set (s3 := set_gap _ _ _) in *.
  change (set_gap (set_pool s2 _ _ _) _ _) with s3.
  destruct (nsctp_gap_drain_Ok s3 Hok3) as (n & s4 & -> & Hok4 & Hfr4 & Hpres & Hnext & Hn & Ht4); [by change (is_u32 (cumulative_tsn s2)); rewrite Hc2|].
  rewrite bind_Ok. change (cumulative_tsn s3) with (cumulative_tsn s2) in *. rewrite Hc2 in *.
  destruct (nsctp_rx_merge_Ok s4 Hok4) as (s5 & rc & -> & Hok5 & Hfr5 & Hrtc & Hres).
  assert (cumulative_tsn s4 = u32 (cumulative_tsn s + Z.of_nat n)) as Hc4 by (rewrite (fr_cum _ _ Hfr4); done). rewrite Hc4 in *.
  assert (streams_ok s3 /\ forall x, ssn_of s3 x = ssn_of s2 x) as [Hst3 Hs3] by (split; [destruct Hst2; by constructor | done]).
  destruct (frame_streams _ s4 Hfr4) as [Hst4 Hs4]; [destruct Hst3; by constructor|].
  destruct (frame_streams _ s5 Hfr5 Hst4) as [Hst5 Hs5].
  exists s5, rc, (Receiver (table s5) (u32 (r_cum r + Z.of_nat n)) (r_ssn r)). split; [done|].
  assert (cumulative_tsn s5 = u32 (cumulative_tsn s + Z.of_nat n)) as Hc5 by (by rewrite (fr_cum _ _ Hfr5)).
  split; [constructor; [done | done | rewrite Hc5; apply u32_range]|].
  split; [split; [done|]; split; [cbn; by rewrite Hc5, Habc|]; intros x; cbn; rewrite Hs5, Hs4; change (ssn_of (set_cumulative s3 _) x) with (ssn_of s2 x); by rewrite Hs2, Hs1|].
  rewrite <- Habc. eapply (a_arrive_take r d slot n (table s1) (table s3)); rewrite <- ?Habc, <- ?Habt; try done; [lia | | | by rewrite Ht3, Ht2 | | | by rewrite <- Ht4 | by destruct Hres as [[-> _]|[-> _]]; auto].
  - rewrite <- present_table. intros (j & e & He & Ve & Te). by apply (Hnone j e).
  - rewrite <- Ht2, (table_lookup s2 slot f Hf). unfold held_of. by rewrite Vf.
  - intros m Hm. apply present_table. by apply Hpres.
  - rewrite <- present_table. done.
Qed.

(** The same for a poll. *)
Lemma nsctp_poll_refines s r :
  rx_ok s -> abstracts s r ->
  exists s' rc m r', nsctp_poll_delivery s = Ok (s', rc, m) /\ rx_ok s' /\ abstracts s' r' /\ a_poll r r' (rc, m).
Proof.
  intros [Hok Hst Hcum] (Habt & Habc & Habs). destruct (nsctp_poll_delivery_Ok s Hok Hst) as (s' & rc & m & -> & [H1 H2 H3 H4]).
  rewrite Habt, Habc in *. exists s', rc, m. destruct m as [msg|].
  - destruct H4 as (-> & i & h & parts & hs & Hd). exists (Receiver (table s') (r_cum r) (ssn_of s')). split; [done|].
    split; [constructor; [done | done | by rewrite H3]|]. split; [done|]. econstructor. by eapply delivery_ext.
  - destruct H4 as (Hrc & Ht & Hs). eexists. split; [done|]. split; [constructor; [done | done | by rewrite H3]|].
    split; [|by apply a_poll_none]. split; [done|]. split; [done|]. intros x. cbn. by rewrite Hs.
Qed.

(** * The peer's chunks *)

Definition begins (d : nsctp_data) : bool := has_flag (d_flags d) SCTP_DATA_FLAG_BEGIN.
Definition ends (d : nsctp_data) : bool := has_flag (d_flags d) SCTP_DATA_FLAG_END.
Definition unordered (d : nsctp_data) : bool := has_flag (d_flags d) SCTP_DATA_FLAG_UNORDERED.

(** The chunks a peer sends, in TSN order: fragments of a message are
    consecutive and share stream, SSN, PPID and U; ordered messages of a stream
    are numbered from zero. *)
Definition ordered_on (log : list nsctp_data) (sid : Z) (k : nat) : Prop :=
  match log !! k with Some d => begins d = true /\ unordered d = false /\ d_stream_id d = sid | None => False end.
#[global] Instance ordered_on_dec log sid k : Decision (ordered_on log sid k).
Proof. unfold ordered_on. destruct (log !! k); apply _. Defined.
Definition ordered_starts (log : list nsctp_data) (sid : Z) : list nat := filter (ordered_on log sid) (seq 0 (length log)).

Record chunks_ok (tsn0 : Z) (log : list nsctp_data) : Prop := {
  lo_size : Z.of_nat (length log) <= 65535;
  lo_tsn : forall k d, log !! k = Some d -> d_tsn d = u32 (tsn0 + Z.of_nat k);
  lo_payload : forall k d, log !! k = Some d -> (0 < length (d_payload d))%nat;
  lo_wire : forall k d, log !! k = Some d ->
    is_u16 (d_stream_id d) /\ is_u16 (d_ssn d) /\ is_u32 (d_ppid d) /\ Z.of_nat (length (d_payload d)) <= UINT16_MAX - 16;
  lo_first : forall d, log !! 0%nat = Some d -> begins d = true;
  lo_next : forall k d d', log !! k = Some d -> log !! S k = Some d' ->
    begins d' = ends d /\ (ends d = false ->
      d_stream_id d' = d_stream_id d /\ d_ssn d' = d_ssn d /\ d_ppid d' = d_ppid d /\ unordered d' = unordered d);
  lo_ssn : forall k d, log !! k = Some d -> ordered_on log (d_stream_id d) k ->
    d_ssn d = u16 (Z.of_nat (length (filter (ordered_on log (d_stream_id d)) (seq 0 k))))
}.

(** The chunks [i .. n) are one message of the log, and what it says. *)
Record sent_at (log : list nsctp_data) (i n : nat) : Prop := {
  se_range : (i < n <= length log)%nat;
  se_begin : forall d, log !! i = Some d -> begins d = true;
  se_inner : forall k d, (i <= k)%nat -> (S k < n)%nat -> log !! k = Some d -> ends d = false;
  se_end : forall d, log !! (n - 1)%nat = Some d -> ends d = true
}.
Definition chunks_payload (log : list nsctp_data) (i n : nat) : list Z := concat (map d_payload (take (n - i) (drop i log))).
Definition message_of (log : list nsctp_data) (iv : nat * nat) : option message :=
  d ← log !! iv.1; Some (Message (chunks_payload log iv.1 iv.2) (d_ppid d) (d_stream_id d)).

Lemma i32_sub x y : - 2 ^ 31 <= x - y < 2 ^ 31 -> i32 (u32 x - u32 y) = x - y.
Proof.
  intros H. rewrite <- (i32_small (x - y)) by lia. unfold i32, u32. by rewrite <- Zminus_mod.
Qed.
Lemma wire_flags_has f x : x = SCTP_DATA_FLAG_BEGIN \/ x = SCTP_DATA_FLAG_END \/ x = SCTP_DATA_FLAG_UNORDERED ->
  has_flag (wire_flags f) x = has_flag f x.
Proof. intros H. unfold has_flag, wire_flags. rewrite <- Z.land_assoc. by destruct H as [->|[-> | ->] ]. Qed.
Lemma absorb_flags a b x : x = SCTP_DATA_FLAG_BEGIN \/ x = SCTP_DATA_FLAG_UNORDERED -> has_flag (a_flags (a_absorb a b)) x = has_flag (a_flags a) x.
Proof.
  intros H. unfold has_flag. cbn [a_absorb a_flags]. rewrite Z.land_lor_distr_l, <- Z.land_assoc.
  replace (Z.land SCTP_DATA_FLAG_END x) with 0 by (by destruct H as [-> | ->]). by rewrite Z.land_0_r, Z.lor_0_r.
Qed.
Lemma absorb_end a b : is_end a = false -> is_end (a_absorb a b) = is_end b.
Proof.
  unfold is_end, has_flag. cbn [a_absorb a_flags]. intros H. apply negb_false_iff, Z.eqb_eq in H.
  by rewrite Z.land_lor_distr_l, H, <- Z.land_assoc.
Qed.
Lemma payload_of_app log i m n : (i <= m <= n)%nat -> chunks_payload log i n = chunks_payload log i m ++ chunks_payload log m n.
Proof.
  intros H. unfold chunks_payload. rewrite <- concat_app, <- map_app. do 2 f_equal.
  replace (n - i)%nat with ((m - i) + (n - m))%nat by lia. replace (drop m log) with (drop (m - i) (drop i log)) by (rewrite drop_drop; f_equal; lia).
  symmetry. apply take_take_drop.
Qed.
Lemma payload_of_one log p d : log !! p = Some d -> chunks_payload log p (S p) = d_payload d.
Proof.
  intros H. unfold chunks_payload. replace (S p - p)%nat with 1%nat by lia. rewrite (drop_S _ _ _ H). cbn. apply app_nil_r.
Qed.

Section delivery.
Context (tsn0 : Z) (log : list nsctp_data) (Hlog : chunks_ok tsn0 log).
Local Abbreviation N := (length log).

(** A table entry stands for the chunks [i .. n). *)
Record run (c : nat) (h : held) (i n : nat) : Prop := {
  ru_range : (i < n <= N)%nat;
  ru_tsn : a_tsn h = u32 (tsn0 + Z.of_nat (n - 1));
  ru_first : exists d, log !! i = Some d /\ a_sid h = d_stream_id d /\ a_ssn h = d_ssn d /\ a_ppid h = d_ppid d /\
    is_begin h = begins d /\ is_unordered h = unordered d;
  ru_end : exists d, log !! (n - 1)%nat = Some d /\ is_end h = ends d;
  ru_inner : forall k d, (i <= k)%nat -> (S k < n)%nat -> log !! k = Some d -> ends d = false;
  ru_data : a_delivered h = false -> a_data h = chunks_payload log i n;
  ru_forwarded : a_forwarded h = false;
  ru_acked : n = S i \/ (n <= c)%nat
}.
Definition disjoint_iv (a b : nat * nat) : Prop := (a.2 <= b.1 \/ b.2 <= a.1)%nat.
Definition open_entry (t : list (option held)) (j : nat) : Prop := exists h, t !! j = Some (Some h) /\ a_delivered h = false.
Definition outs_on (sid : Z) (outs : list (nat * nat)) : list (nat * nat) := filter (fun iv => ordered_on log sid iv.1) outs.

Record inv (r : receiver) (c : nat) (iv : nat -> nat * nat) (outs : list (nat * nat)) : Prop := {
  iv_cum : r_cum r = u32 (tsn0 - 1 + Z.of_nat c) /\ (c <= N)%nat;
  iv_run : forall j h, r_table r !! j = Some (Some h) -> run c h (iv j).1 (iv j).2;
  iv_apart : forall j k, j <> k -> open_entry (r_table r) j -> open_entry (r_table r) k -> disjoint_iv (iv j) (iv k);
  iv_out : forall i n, (i, n) ∈ outs -> sent_at log i n;
  iv_seen : forall i n p, (i, n) ∈ outs -> (i <= p < n)%nat -> (p < c)%nat \/ t_present (r_table r) (u32 (tsn0 + Z.of_nat p));
  iv_fresh : forall o j, o ∈ outs -> open_entry (r_table r) j -> disjoint_iv o (iv j);
  iv_nodup : NoDup (map fst outs);
  iv_order : forall sid, r_ssn r sid = u16 (Z.of_nat (length (outs_on sid outs))) /\
    map fst (outs_on sid outs) = take (length (outs_on sid outs)) (ordered_starts log sid)
}.

Lemma position_inj a b : (a <= N)%nat -> (b <= N)%nat -> u32 (tsn0 + Z.of_nat a) = u32 (tsn0 + Z.of_nat b) -> a = b.
Proof using Hlog. pose proof (lo_size _ _ Hlog). intros. mach. Qed.
Lemma run_position c h i n p : run c h i n -> (p <= N)%nat -> a_tsn h = u32 (tsn0 + Z.of_nat p) -> n = S p.
Proof using Hlog.
  intros Hr Hp Ht. rewrite (ru_tsn _ _ _ _ Hr) in Ht. pose proof (ru_range _ _ _ _ Hr).
  apply position_inj in Ht; lia.
Qed.
Lemma run_mono c c' h i n : (c <= c')%nat -> run c h i n -> run c' h i n.
Proof using. intros Hc []. constructor; try done. lia. Qed.
Lemma new_run c p d : log !! p = Some d -> run c (held_of_data d) p (S p).
Proof using Hlog.
  intros Hd. pose proof (lookup_lt_Some _ _ _ Hd). replace (S p - 1)%nat with p by lia.
  constructor; rewrite ?(Nat.sub_succ p 0), ?Nat.sub_0_r; cbn [held_of_data a_tsn a_sid a_ssn a_ppid a_data a_forwarded]; try done; try lia.
  - by apply (lo_tsn _ _ Hlog).
  - exists d. unfold is_begin, is_unordered, begins, unordered. cbn [held_of_data a_flags]. rewrite !wire_flags_has by auto. done.
  - exists d. unfold is_end, ends. cbn [held_of_data a_flags]. rewrite wire_flags_has by auto. done.
  - intros _. by rewrite (payload_of_one _ _ d).
Qed.

Lemma follow_end a b : a_follow a b = true -> a_tsn b = u32 (a_tsn a + 1) /\ is_end a = false.
Proof using. unfold a_follow, is_end. intros. bool_facts. split; [lia|done]. Qed.
Lemma follow_run c a b i m i' n : run c a i m -> run c b i' n -> a_follow a b = true -> disjoint_iv (i, m) (i', n) -> i' = m /\ n = S m.
Proof using Hlog.
  intros Ha Hb [Hf _]%follow_end Hdis. pose proof (ru_range _ _ _ _ Ha). pose proof (ru_range _ _ _ _ Hb).
  rewrite (ru_tsn _ _ _ _ Ha) in Hf.
  assert (n = S m) as ->; [|unfold disjoint_iv in Hdis; cbn in Hdis; lia].
  apply (run_position c b i' n m Hb); [lia|]. rewrite Hf. mach.
Qed.
Lemma merge_run c a b i m n :
  run c a i m -> run c b m n -> a_follow a b = true -> (n <= c)%nat -> a_delivered a = false -> a_delivered b = false -> run c (a_absorb a b) i n.
Proof using.
  intros Ha Hb Hf Hc Da Db. destruct (follow_end _ _ Hf) as [_ Hend]. destruct Ha as [R1 T1 F1 E1 I1 D1 W1 K1], Hb as [R2 T2 F2 E2 I2 D2 W2 K2].
  constructor; try done; [lia | | | | | | by right].
  - destruct F1 as (d & Hd & H1 & H2 & H3 & H4 & H5). exists d. unfold is_begin, is_unordered in *. rewrite !absorb_flags by auto. done.
  - destruct E2 as (d & Hd & He). exists d. split; [done|]. by rewrite absorb_end.
  - intros k d Hk Hk' Hd. destruct (decide (S k < m)%nat); [by apply (I1 k)|]. destruct (decide (S k = m)) as [<-|]; [|apply (I2 k); [lia | done | done]].
    destruct E1 as (d' & Hd' & He). replace (S k - 1)%nat with k in Hd' by lia. congruence.
  - intros _. cbn. rewrite D1, D2 by done. symmetry. apply payload_of_app. lia.
  - cbn. by rewrite W1, W2.
Qed.

(** Dropping delivered entries, advancing the cumulative TSN. *)
Lemma lookup_reclaim cum t j h : map (a_reclaim cum) t !! j = Some (Some h) -> t !! j = Some (Some h).
Proof using.
  rewrite list_lookup_fmap. destruct (t !! j) as [[h'|]|]; cbn; [|done|done]. destruct (a_gone cum h'); [done|]. by intros [= ->].
Qed.
Lemma open_reclaim cum t j : open_entry (map (a_reclaim cum) t) j -> open_entry t j.
Proof using. intros (h & H%lookup_reclaim & Hd). by exists h. Qed.
Lemma cum_le c p : (c <= N)%nat -> (p <= N)%nat -> i32 (u32 (tsn0 + Z.of_nat p) - u32 (tsn0 - 1 + Z.of_nat c)) <= 0 <-> (p < c)%nat.
Proof using Hlog. pose proof (lo_size _ _ Hlog). intros. rewrite i32_sub by lia. lia. Qed.
Lemma inv_reclaim t cum ssn c iv outs :
  inv (Receiver t cum ssn) c iv outs -> inv (Receiver (map (a_reclaim cum) t) cum ssn) c iv outs.
Proof using Hlog.
  intros [[Hcum Hc] Hrun Hap Hout Hseen Hfresh Hnd Hord]. cbn in *. constructor; cbn; try done.
  - intros j h H%lookup_reclaim. by apply Hrun.
  - intros j k Hne H1%open_reclaim H2%open_reclaim. by apply Hap.
  - intros i n p Hin Hp. destruct (Hseen i n p Hin Hp) as [?|(j & h & Hj & Ht)]; [by left|].
    destruct (a_gone cum h) eqn:Hg; [left | right; exists j, h; rewrite list_lookup_fmap, Hj; cbn; by rewrite Hg].
    unfold a_gone in Hg. bool_facts. pose proof (se_range _ _ _ (Hout i n Hin)). rewrite Ht, Hcum in *. apply (cum_le c p); lia.
  - intros o j Ho H%open_reclaim. by apply Hfresh.
Qed.
Lemma inv_advance t cum ssn c n iv outs :
  inv (Receiver t cum ssn) c iv outs -> (n <= NANORTC_SCTP_MAX_RECV_GAP)%nat ->
  (forall m, (1 <= m <= n)%nat -> t_present t (u32 (cum + Z.of_nat m))) -> inv (Receiver t (u32 (cum + Z.of_nat n)) ssn) (c + n) iv outs.
Proof using Hlog.
  intros [[Hcum Hc] Hrun Hap Hout Hseen Hfresh Hnd Hord] Hn Hp. cbn in *. pose proof (lo_size _ _ Hlog). unfold NANORTC_SCTP_MAX_RECV_GAP in Hn.
  constructor; cbn; try done.
  - split; [rewrite Hcum; mach|]. destruct n as [|n]; [lia|]. destruct (Hp (S n)) as (j & h & Hj & Ht); [lia|].
    pose proof (Hrun j h Hj) as Hr. rewrite (ru_tsn _ _ _ _ Hr), Hcum in Ht. pose proof (ru_range _ _ _ _ Hr). mach.
  - intros j h Hj. apply (run_mono c); [lia|]. by apply Hrun.
  - intros i m p Hin Hpm. destruct (Hseen i m p Hin Hpm); [left; lia | by right].
Qed.

Definition upd (iv : nat -> nat * nat) (i : nat) (x : nat * nat) : nat -> nat * nat := fun k => if (k =? i)%nat then x else iv k.
Lemma upd_eq iv i x : upd iv i x i = x.
Proof using. unfold upd. by rewrite Nat.eqb_refl. Qed.
Lemma upd_ne iv i x k : k <> i -> upd iv i x k = iv k.
Proof using. intros. unfold upd. by rewrite (proj2 (Nat.eqb_neq k i)). Qed.

Lemma run_at_tsn c h i n p : run c h i n -> (c <= p <= N)%nat -> (i <= p < n)%nat -> a_tsn h = u32 (tsn0 + Z.of_nat p).
Proof using. intros Hr Hp Hi. pose proof (ru_acked _ _ _ _ Hr). rewrite (ru_tsn _ _ _ _ Hr). do 3 f_equal. lia. Qed.

Lemma inv_insert t cum ssn c iv outs slot p d :
  inv (Receiver t cum ssn) c iv outs -> log !! p = Some d -> i32 (d_tsn d - cum) > 0 -> ~ t_present t (d_tsn d) -> t !! slot = Some None ->
  inv (Receiver (<[slot := Some (held_of_data d)]> t) cum ssn) c (upd iv slot (p, S p)) outs.
Proof using Hlog.
  intros [[Hcum Hc] Hrun Hap Hout Hseen Hfresh Hnd Hord] Hd Hnew Habs Hslot. cbn in *.
  pose proof (lookup_lt_Some _ _ _ Hd) as Hp. pose proof (lookup_lt_Some _ _ _ Hslot) as Hsl.
  pose proof (lo_tsn _ _ Hlog p d Hd) as Htsn. rewrite Htsn, Hcum in Hnew.
  assert (c <= p)%nat as Hcp by (destruct (decide (c <= p)%nat); [done|]; assert (p < c)%nat as H%cum_le by lia; lia).
  assert (forall j, j <> slot -> open_entry (<[slot := Some (held_of_data d)]> t) j -> open_entry t j) as Hopen.
  { intros j Hj (h & Hh & Dh). rewrite list_lookup_insert_ne in Hh by done. by exists h. }
  assert (forall j, open_entry t j -> disjoint_iv (p, S p) (iv j)) as Hdis.
  { intros j (h & Hh & _). pose proof (Hrun j h Hh) as Hr. unfold disjoint_iv. cbn.
    destruct (decide ((iv j).1 <= p < (iv j).2)%nat) as [Hin|]; [|lia]. exfalso. apply Habs. exists j, h. split; [done|].
    rewrite Htsn. eapply run_at_tsn; [exact Hr | lia | lia]. }
  constructor; cbn [r_table r_cum r_ssn]; try done.
  - intros j h Hj. destruct (decide (j = slot)) as [->|Hne].
    + rewrite list_lookup_insert_eq in Hj by done. injection Hj as <-. rewrite upd_eq. by apply new_run.
    + rewrite list_lookup_insert_ne in Hj by done. rewrite upd_ne by done. by apply Hrun.
  - intros j k Hjk Hj Hk. destruct (decide (j = slot)) as [->|Hj']; [|destruct (decide (k = slot)) as [->|Hk']].
    + rewrite upd_eq, upd_ne by done. apply Hdis, Hopen; done.
    + rewrite upd_eq, upd_ne by done. pose proof (Hdis j (Hopen j Hj' Hj)) as H. unfold disjoint_iv in *. lia.
    + rewrite !upd_ne by done. apply Hap; auto.
  - intros i n q Hin Hq. destruct (Hseen i n q Hin Hq) as [?|(j & h & Hj & Ht)]; [by left|]. right. exists j, h.
    rewrite list_lookup_insert_ne; [done|]. intros ->. congruence.
  - intros o j Ho Hj. destruct (decide (j = slot)) as [->|Hne]; [|rewrite upd_ne by done; by apply Hfresh; auto].
    rewrite upd_eq. unfold disjoint_iv. cbn. destruct o as [i n]. cbn. destruct (decide (i <= p < n)%nat) as [Hin|]; [|lia].
    destruct (Hseen i n p Ho Hin) as [?|Hpr]; [lia|]. exfalso. apply Habs. by rewrite Htsn.
Qed.

Lemma inv_merge cum t t' ssn c iv outs :
  inv (Receiver t cum ssn) c iv outs -> a_merge cum t t' -> exists iv', inv (Receiver t' cum ssn) c iv' outs.
Proof using Hlog.
  intros [[Hcum Hc] Hrun Hap Hout Hseen Hfresh Hnd Hord] Hm. cbn in *. destruct Hm as [t i j a b Ha Hb Hij Da Db Hf Hack].
  pose proof (Hrun i a Ha) as Ra. pose proof (Hrun j b Hb) as Rb.
  assert (disjoint_iv (iv i) (iv j)) as Hdis by (apply Hap; [done | by exists a | by exists b]).
  rewrite (surjective_pairing (iv i)), (surjective_pairing (iv j)) in Hdis.
  destruct (follow_run _ _ _ _ _ _ _ Ra Rb Hf Hdis) as [H1 H2]. set (m := (iv i).2) in *. set (i0 := (iv i).1) in *. rewrite H1, H2 in *.
  assert (S m <= c)%nat as Hmc.
  { pose proof (ru_range _ _ _ _ Rb). rewrite (ru_tsn _ _ _ _ Rb), Hcum in Hack. apply cum_le in Hack; lia. }
  pose proof (merge_run _ _ _ _ _ _ Ra Rb Hf Hmc Da Db) as Rab.
  pose proof (lookup_lt_Some _ _ _ Ha) as Hil. pose proof (lookup_lt_Some _ _ _ Hb) as Hjl.
  set (t' := <[j := None]> _). exists (upd iv i (i0, S m)).
  assert (t' !! i = Some (Some (a_absorb a b))) as Hi' by (unfold t'; rewrite list_lookup_insert_ne by done; by apply list_lookup_insert_eq).
  assert (t' !! j = Some None) as Hj' by (unfold t'; apply list_lookup_insert_eq; by rewrite length_insert).
  assert (forall k, k <> i -> k <> j -> t' !! k = t !! k) as Hk' by (intros; unfold t'; by rewrite !list_lookup_insert_ne).
  assert (forall k, k <> i -> open_entry t' k -> k <> j /\ open_entry t k) as Hopen.
  { intros k Hki (h & Hh & Dh). assert (k <> j) as Hkj by (intros ->; congruence). split; [done|]. exists h. by rewrite <- Hk'. }
  assert (forall k, k <> i -> k <> j -> open_entry t k -> disjoint_iv (i0, S m) (iv k)) as Hdisk.
  { intros k Hki Hkj Ho. pose proof (Hap i k ltac:(done) ltac:(by exists a) Ho) as D1. pose proof (Hap j k ltac:(done) ltac:(by exists b) Ho) as D2.
    destruct Ho as (h & Hh & _). pose proof (ru_range _ _ _ _ (Hrun k h Hh)). pose proof (ru_range _ _ _ _ Ra).
    unfold disjoint_iv in *. rewrite H1, H2 in D2. fold i0 m in D1. cbn [fst snd] in *. lia. }
  constructor; cbn [r_table r_cum r_ssn]; try done.
  - intros k h Hh. destruct (decide (k = i)) as [->|Hki]; [rewrite Hi' in Hh; injection Hh as <-; by rewrite upd_eq|].
    destruct (decide (k = j)) as [->|Hkj]; [congruence|]. rewrite Hk' in Hh by done. rewrite upd_ne by done. by apply Hrun.
  - intros k l Hkl Hok Hol. destruct (decide (k = i)) as [->|Hki]; [|destruct (decide (l = i)) as [->|Hli]].
    + rewrite upd_eq, upd_ne by done. destruct (Hopen l ltac:(done) Hol). by apply Hdisk.
    + rewrite upd_eq, upd_ne by done. destruct (Hopen k ltac:(done) Hok) as [Hkj Ho]. pose proof (Hdisk k Hki Hkj Ho). unfold disjoint_iv in *. lia.
    + rewrite !upd_ne by done. apply Hap; [done | by apply Hopen | by apply Hopen].
  - intros o1 o2 q Hin Hq. destruct (Hseen o1 o2 q Hin Hq) as [?|(k & h & Hh & Ht)]; [by left|].
    pose proof (se_range _ _ _ (Hout o1 o2 Hin)). destruct (decide (k = i)) as [->|Hki].
    { left. rewrite Ha in Hh. injection Hh as <-. pose proof (run_position _ _ _ _ q Ra ltac:(lia) Ht). lia. }
    destruct (decide (k = j)) as [->|Hkj].
    { left. rewrite Hb in Hh. injection Hh as <-. pose proof (run_position _ _ _ _ q Rb ltac:(lia) Ht). lia. }
    right. exists k, h. by rewrite Hk'.
  - intros o k Ho Hk. destruct (decide (k = i)) as [->|Hki]; [|rewrite upd_ne by done; apply Hfresh; [done | by apply Hopen]].
    rewrite upd_eq. pose proof (Hfresh o i Ho ltac:(by exists a)) as D1. pose proof (Hfresh o j Ho ltac:(by exists b)) as D2.
    destruct o as [o1 o2]. pose proof (se_range _ _ _ (Hout o1 o2 Ho)). pose proof (ru_range _ _ _ _ Ra).
    unfold disjoint_iv in *. rewrite H1, H2 in D2. fold i0 m in D1. cbn [fst snd] in *. lia.
Qed.
Lemma inv_merges cum t t' ssn c iv outs :
  inv (Receiver t cum ssn) c iv outs -> rtc (a_merge cum) t t' -> exists iv', inv (Receiver t' cum ssn) c iv' outs.
Proof using Hlog.
  intros Hinv Hr. revert iv Hinv. induction Hr as [t|t t1 t' Hm _ IH]; intros iv Hinv; [by exists iv|].
  destruct (inv_merge _ _ _ _ _ _ _ Hinv Hm) as (iv1 & Hinv1). by apply (IH iv1).
Qed.
Lemma inv_arrive r c iv outs p d r' rc :
  inv r c iv outs -> log !! p = Some d -> a_arrive r d r' rc -> exists c' iv', inv r' c' iv' outs.
Proof using Hlog.
  intros Hinv Hd Ha. destruct r as [t cum ssn]. destruct Ha as [t' rc Ht _|slot n t0 t1 t' cum' rc Hnew -> Habs Hslot -> -> Hp Hn Hnb Hm _]; cbn [r_table r_cum r_ssn] in *.
  - exists c, iv. destruct Ht as [->| ->]; [done | by apply inv_reclaim].
  - pose proof (inv_insert _ _ _ _ _ _ _ _ _ (inv_reclaim _ _ _ _ _ _ Hinv) Hd Hnew Habs Hslot) as H.
    pose proof (inv_reclaim _ _ _ _ _ _ (inv_advance _ _ _ _ n _ _ H Hnb Hp)) as H'.
    destruct (inv_merges _ _ _ _ _ _ _ H' Hm) as (iv' & ?). by eexists _, iv'.
Qed.

(** The chunks of a chain cover an interval that ends a message. *)
Record span (iv : nat -> nat * nat) (i n : nat) (parts : list nat) (hs : list held) : Prop := {
  sp_range : (i < n <= N)%nat;
  sp_inner : forall k d, (i <= k)%nat -> (S k < n)%nat -> log !! k = Some d -> ends d = false;
  sp_end : forall d, log !! (n - 1)%nat = Some d -> ends d = true;
  sp_data : concat (map a_data hs) = chunks_payload log i n;
  sp_cover : forall q, (i <= q < n)%nat -> exists j, j ∈ parts /\ ((iv j).1 <= q < (iv j).2)%nat
}.
Lemma chain_span t c iv hs : forall parts prev,
  (forall j h, t !! j = Some (Some h) -> run c h (iv j).1 (iv j).2) ->
  (forall j k, j <> k -> open_entry t j -> open_entry t k -> disjoint_iv (iv j) (iv k)) ->
  Forall2 (fun j h => t !! j = Some (Some h) /\ a_delivered h = false) parts hs -> NoDup parts -> a_chain prev hs ->
  exists j0 n, head parts = Some j0 /\ span iv (iv j0).1 n parts hs.
Proof using Hlog.
  induction hs as [|h hs IH]; intros parts prev Hrun Hap Hall Hnd Hch; [done|].
  apply Forall2_cons_inv_r in Hall as (j & parts' & [Hj Dj] & Hall & ->). destruct Hch as [_ Hch]. apply NoDup_cons in Hnd as [Hjp Hnd].
  pose proof (Hrun j h Hj) as R. exists j. destruct (is_end h) eqn:He.
  - exists (iv j).2. split; [done|]. subst hs. constructor; [apply R | apply R | | |].
    + intros d Hd. destruct (ru_end _ _ _ _ R) as (d' & Hd' & He'). congruence.
    + cbn. rewrite app_nil_r. by apply R.
    + intros q Hq. exists j. split; [left|done].
  - destruct (IH parts' (Some h) Hrun Hap Hall Hnd Hch) as (j1 & n & Hhd & Hsp). exists n. split; [done|].
    destruct hs as [|h1 hs]; [done|]. apply Forall2_cons_inv_r in Hall as (j1' & parts'' & [Hj1 Dj1] & Hall & ->).
    cbn in Hhd. injection Hhd as ->. destruct Hch as [Hf _]. pose proof (Hrun j1 h1 Hj1) as R1.
    assert (disjoint_iv (iv j) (iv j1)) as Hdis.
    { apply Hap; [|by exists h|by exists h1]. intros ->. apply Hjp. left. }
    rewrite (surjective_pairing (iv j)), (surjective_pairing (iv j1)) in Hdis.
    destruct (follow_run _ _ _ _ _ _ _ R R1 Hf Hdis) as [H1 _].
    pose proof (ru_range _ _ _ _ R). destruct Hsp as [S1 S2 S3 S4 S5]. rewrite H1 in *. constructor; [lia | | done | |].
    + intros k d Hk Hk' Hd. destruct (decide (S k < (iv j).2)%nat); [by apply (ru_inner _ _ _ _ R k)|].
      destruct (decide (S k = (iv j).2)) as [Heq|]; [|apply (S2 k); [lia | done | done]].
      destruct (ru_end _ _ _ _ R) as (d' & Hd' & He'). rewrite <- Heq, Nat.sub_succ, Nat.sub_0_r in Hd'. congruence.
    + change (map a_data (h :: h1 :: hs)) with (a_data h :: map a_data (h1 :: hs)). cbn [concat]. rewrite S4, (ru_data _ _ _ _ R) by done. symmetry. apply payload_of_app. lia.
    + intros q Hq. destruct (decide (q < (iv j).2)%nat); [exists j; split; [left|lia]|].
      destruct (S5 q ltac:(lia)) as (k & Hk & Hq'). exists k. split; [by right|done].
Qed.

Lemma foldl_deliver_lookup parts : forall (t : list (option held)) (k : nat), NoDup parts ->
  foldl (fun t j => alter (fmap a_deliver) j t) t parts !! k =
  if decide (k ∈ parts) then (fmap a_deliver) <$> t !! k else t !! k.
Proof using.
  induction parts as [|j parts IH]; intros t k Hnd; cbn [foldl].
  - by rewrite decide_False by apply not_elem_of_nil.
  - apply NoDup_cons in Hnd as [Hj Hnd]. rewrite IH by done. destruct (decide (k = j)) as [->|Hne].
    + rewrite decide_False, decide_True by (done || left). by rewrite list_lookup_alter_eq.
    + rewrite list_lookup_alter_ne by done. destruct (decide (k ∈ parts)); [rewrite decide_True by (by right); done|].
      rewrite decide_False; [done|]. rewrite not_elem_of_cons. tauto.
Qed.
Lemma ordered_starts_lookup sid k : ordered_on log sid k ->
  ordered_starts log sid !! length (filter (ordered_on log sid) (seq 0 k)) = Some k.
Proof using.
  intros Hk. assert (k < N)%nat as Hlt by (unfold ordered_on in Hk; destruct (log !! k) eqn:E; [by eapply lookup_lt_Some|done]).
  unfold ordered_starts. replace N with (k + S (N - k - 1))%nat by lia. rewrite seq_app, filter_app.
  rewrite lookup_app_r by lia. rewrite Nat.sub_diag. cbn [seq Nat.add]. by rewrite filter_cons_True by done.
Qed.
Lemma ordered_starts_le sid : (length (ordered_starts log sid) <= N)%nat.
Proof using. unfold ordered_starts. rewrite <- (length_seq N 0) at 2. apply length_filter. Qed.

Lemma outs_on_snoc sid outs (iv : nat * nat) : outs_on sid (outs ++ [iv]) = outs_on sid outs ++ (if decide (ordered_on log sid iv.1) then [iv] else []).
Proof using. unfold outs_on. by rewrite filter_app. Qed.

(** The turn of a stream: the message delivered is the next one sent on it. *)
Lemma order_next ssn outs i n h :
  (forall sid, ssn sid = u16 (Z.of_nat (length (outs_on sid outs))) /\
     map fst (outs_on sid outs) = take (length (outs_on sid outs)) (ordered_starts log sid)) ->
  sent_at log i n -> (exists d, log !! i = Some d /\ a_sid h = d_stream_id d /\ a_ssn h = d_ssn d /\ is_begin h = begins d /\ is_unordered h = unordered d) ->
  (is_unordered h = false -> a_ssn h = ssn (a_sid h)) ->
  forall ssn', (forall x, ssn' x = if negb (is_unordered h) && (x =? a_sid h) then u16 (ssn (a_sid h) + 1) else ssn x) ->
  forall sid, ssn' sid = u16 (Z.of_nat (length (outs_on sid (outs ++ [(i, n)])))) /\
     map fst (outs_on sid (outs ++ [(i, n)])) = take (length (outs_on sid (outs ++ [(i, n)]))) (ordered_starts log sid).
Proof using Hlog.
  intros Hord Hsent (d & Hd & Hsid & Hsn & Hb & Hu) Hturn ssn' Hssn' sid. rewrite Hssn', outs_on_snoc. cbn [fst].
  assert (ordered_on log sid i <-> is_unordered h = false /\ a_sid h = sid) as Hon.
  { unfold ordered_on. rewrite Hd, Hu, Hsid. rewrite (se_begin _ _ _ Hsent d Hd). tauto. }
  destruct (Hord sid) as [Ho1 Ho2]. destruct (decide (ordered_on log sid i)) as [Hin|Hin].
  - destruct (proj1 Hon Hin) as [Hun Hs]. rewrite Hun, Hs, Z.eqb_refl. cbn [negb andb].
    specialize (Hturn Hun). rewrite Hsn, Hs, Ho1 in Hturn. rewrite <- Hs, Hsid in Hin.
    rewrite (lo_ssn _ _ Hlog i d Hd Hin), <- Hsid, Hs in Hturn. rewrite <- Hsid, Hs in Hin.
    set (outs' := outs_on sid outs) in *.
    assert (length outs' <= N)%nat as H1.
    { rewrite <- (length_map fst outs'), Ho2, length_take. pose proof (ordered_starts_le sid). lia. }
    pose proof (lookup_lt_Some _ _ _ Hd) as H2. pose proof (length_filter (ordered_on log sid) (seq 0 i)) as H3. rewrite length_seq in H3.
    pose proof (lo_size _ _ Hlog) as H4. assert (length outs' = length (filter (ordered_on log sid) (seq 0 i))) as Hlen by (clear - Hturn H1 H2 H3 H4; mach).
    rewrite length_app. cbn [length]. rewrite Nat.add_1_r. split; [rewrite Ho1; mach|].
    rewrite map_app, Ho2. cbn [map fst]. symmetry. apply take_S_r. rewrite Hlen. by apply ordered_starts_lookup.
  - rewrite app_nil_r. split; [|done]. destruct (is_unordered h) eqn:Hun; cbn [negb andb]; [done|].
    destruct (Z.eqb_spec sid (a_sid h)) as [->|]; [|done]. exfalso. apply Hin, Hon. done.
Qed.

Lemma inv_deliver t cum ssn c iv outs msg t' ssn' i h parts hs :
  inv (Receiver t cum ssn) c iv outs -> delivery t ssn msg t' ssn' i h parts hs ->
  exists o, inv (Receiver t' cum ssn') c iv (outs ++ [o]) /\ message_of log o = Some msg.
Proof using Hlog.
  intros [[Hcum Hc] Hrun Hap Hout Hseen Hfresh Hnd Hord] [(Hi & Dh & Hb) [Hpd Hall] [Hts Hch] -> -> Hturn Hssn]. cbn [r_table r_cum r_ssn] in *.
  destruct (chain_span _ _ _ _ _ _ Hrun Hap Hall Hpd Hch) as (j0 & n & Hhd & Hsp).
  pose proof (Hrun i h Hi) as R. assert (j0 = i) as ->.
  { destruct parts as [|j parts]; [done|]. injection Hhd as ->. apply Forall2_cons_inv_l in Hall as (h0 & hs' & [Hj0 D0] & _ & ->).
    destruct Hts as [Ht0 _]. destruct (decide (j0 = i)) as [|Hne]; [done|]. exfalso. pose proof (Hrun j0 h0 Hj0) as R0.
    pose proof (ru_range _ _ _ _ R). pose proof (ru_range _ _ _ _ R0). rewrite (ru_tsn _ _ _ _ R) in Ht0.
    pose proof (run_position _ _ _ _ ((iv i).2 - 1) R0 ltac:(lia) Ht0).
    pose proof (Hap j0 i Hne ltac:(by exists h0) ltac:(by exists h)) as Hdis. unfold disjoint_iv in Hdis. lia. }
  destruct Hsp as [S1 S2 S3 S4 S5]. set (i0 := (iv i).1) in *.
  destruct (ru_first _ _ _ _ R) as (d & Hd & Hsid & Hsn & Hppid & Hbeg & Hun). fold i0 in Hd.
  assert (sent_at log i0 n) as Hsent.
  { constructor; [done | | done | done]. intros d' Hd'. congruence. }
  assert (Hfw : a_forwarded h = false) by apply R. exists (i0, n).
  assert (forall k, open_entry (foldl (fun t j => alter (fmap a_deliver) j t) t parts) k -> (k ∉ parts) /\ open_entry t k) as Hopen.
  { intros k (g & Hg & Dg). rewrite foldl_deliver_lookup in Hg by done. destruct (decide (k ∈ parts)) as [Hk|Hk]; [|split; [done|by exists g]].
    exfalso. destruct (t !! k) as [[g'|]|]; [|done|done]. cbn in Hg. injection Hg as <-. done. }
  assert (forall p, t_present t p -> t_present (foldl (fun t j => alter (fmap a_deliver) j t) t parts) p) as Hpres.
  { intros p (k & g & Hg & Tg). exists k. rewrite foldl_deliver_lookup, Hg by done. destruct (decide (k ∈ parts)); [by exists (a_deliver g)|by exists g]. }
  assert (forall k, k ∉ parts -> open_entry t k -> disjoint_iv (i0, n) (iv k)) as Hdisk.
  { intros k Hk Ho. assert (forall q, (i0 <= q < n)%nat -> ~ ((iv k).1 <= q < (iv k).2)%nat) as Hq.
    { intros q Hq1 Hq2. destruct (S5 q Hq1) as (j & Hj & Hq3). apply list_elem_of_lookup_1 in Hj as Hj'. destruct Hj' as [m Hm].
      destruct (Forall2_lookup_l _ _ _ _ _ Hall Hm) as (g & _ & Hg & Dg). assert (j <> k) as Hjk by (intros ->; done).
      pose proof (Hap j k Hjk ltac:(by exists g) Ho) as Hdis. unfold disjoint_iv in Hdis. lia. }
    destruct Ho as (g & Hg & _). pose proof (ru_range _ _ _ _ (Hrun k g Hg)). unfold disjoint_iv. cbn [fst snd].
    pose proof (Hq i0). pose proof (Hq (iv k).1). lia. }
  split; [|unfold message_of; cbn [fst snd]; rewrite Hd; cbn; by rewrite S4, Hppid, Hsid].
  constructor; cbn [r_table r_cum r_ssn]; [done | | | | | | |].
  - intros k g Hg. rewrite foldl_deliver_lookup in Hg by done. destruct (decide (k ∈ parts)); [|by apply Hrun].
    destruct (t !! k) as [[g'|]|] eqn:Hk; [|done|done]. cbn in Hg. injection Hg as <-. destruct (Hrun k g' Hk). by constructor.
  - intros k l Hkl [_ Ho1]%Hopen [_ Ho2]%Hopen. by apply Hap.
  - intros a b [Hin|Hin]%elem_of_app; [by apply Hout|]. apply list_elem_of_singleton in Hin. by injection Hin as -> ->.
  - intros a b q [Hin|Hin]%elem_of_app Hq.
    + destruct (Hseen a b q Hin Hq); [by left | right; by apply Hpres].
    + apply list_elem_of_singleton in Hin. injection Hin as -> ->. destruct (S5 q Hq) as (j & Hj & Hq3). apply list_elem_of_lookup_1 in Hj as [m Hm].
      destruct (Forall2_lookup_l _ _ _ _ _ Hall Hm) as (g & _ & Hg & Dg). pose proof (Hrun j g Hg) as Rg.
      destruct (decide (q < c)%nat); [by left|]. right. apply Hpres. exists j, g. split; [done|]. apply (run_at_tsn _ _ _ _ _ Rg); lia.
  - intros o k [Hin|Hin]%elem_of_app [Hk Ho]%Hopen; [by apply Hfresh|]. apply list_elem_of_singleton in Hin as ->. by apply Hdisk.
  - rewrite map_app. apply NoDup_app. split; [done|]. split; [|apply NoDup_singleton]. intros x Hx Hx'. cbn in Hx'. apply list_elem_of_singleton in Hx' as ->.
    apply list_elem_of_fmap in Hx as ([a b] & Heq & Hin). cbn in Heq. pose proof (Hfresh _ i Hin ltac:(by exists h)) as Hdis.
    pose proof (se_range _ _ _ (Hout a b Hin)). pose proof (ru_range _ _ _ _ R). unfold disjoint_iv in Hdis. cbn [fst snd] in Hdis. lia.
  - apply (order_next ssn outs i0 n h Hord Hsent); [by exists d | auto |]. intros x. rewrite Hssn, Hfw. cbn [negb]. by rewrite andb_true_r.
Qed.
Lemma inv_poll r c iv outs r' rc m :
  inv r c iv outs -> a_poll r r' (rc, m) ->
  match m with None => inv r' c iv outs | Some msg => exists o, inv r' c iv (outs ++ [o]) /\ message_of log o = Some msg end.
Proof using Hlog.
  intros Hinv Hp. destruct r as [t cum ssn]. pose proof (inv_reclaim _ _ _ _ _ _ Hinv) as Hinv'. inversion Hp as [rc' Hrc|msg t' ssn' i h parts hs Hd]; subst.
  - done.
  - by eapply inv_deliver.
Qed.
End delivery.

(** * Any history of the network *)

(** A chunk arriving (again, or out of order: any index of the log), a poll. *)
Inductive rx_event : Type := Arrive (k : nat) | Poll.
Definition net_step (log : list nsctp_data) (st : sctp_rx * list message) (ev : rx_event) : res (sctp_rx * list message) :=
  let '(s, out) := st in
  match ev with
  | Arrive k =>
      match log !! k with
      | None => Ok st
      | Some d =>
          '(s, _) ← rx_data_chunk s (data_chunk (d_tsn d) (d_stream_id d) (d_ssn d) (d_ppid d) (d_flags d) (d_payload d));
          Ok (s, out)
      end
  | Poll => '(s, _, m) ← nsctp_poll_delivery s; Ok (s, out ++ match m with Some msg => [msg] | None => [] end)
  end.
(** The association's receive fields once the peer's initial TSN is known. *)
Definition rx_start (tsn0 : Z) : sctp_rx := set_cumulative rx_init (u32 (tsn0 - 1)).
Definition rx_run (tsn0 : Z) (log : list nsctp_data) (events : list rx_event) : res (sctp_rx * list message) :=
  fold_res (net_step log) (rx_start tsn0, []) events.

Lemma rx_start_table tsn0 : table (rx_start tsn0) = replicate NANORTC_SCTP_MAX_RECV_GAP None.
Proof. done. Qed.
Lemma rx_start_ok tsn0 : rx_ok (rx_start tsn0).
Proof.
  assert (forall i e, recv_gap (rx_start tsn0) !! i = Some e -> e_valid e = false) as Hgap.
  { intros i e He. cbn [rx_start set_cumulative rx_init recv_gap] in He. by apply lookup_replicate in He as [-> _]. }
  assert (forall i e, recv_gap (rx_start tsn0) !! i = Some e -> ~ owns e) as Hlive.
  { intros i e He [Hv _]. by rewrite (Hgap i e He) in Hv. }
  constructor; [constructor | constructor | apply u32_range].
  - done.
  - cbn [rx_start set_cumulative rx_init recv_gap_buf]. apply length_replicate.
  - done.
  - cbn. lia.
  - intros i e He Hl. by destruct (Hlive i e He).
  - intros i j e f He _ _ Hl. by destruct (Hlive i e He).
  - intros i e He Hv. by rewrite (Hgap i e He) in Hv.
  - done.
  - done.
  - done.
  - cbn. lia.
  - intros i _. unfold nth_ssn. cbn [rx_start set_cumulative rx_init recv_ssn]. rewrite nth_lookup.
    destruct (_ !! i) as [z|] eqn:E; [by apply lookup_replicate in E as [-> _]|done].
Qed.
Lemma rx_data_chunk_log tsn0 log k d s :
  chunks_ok tsn0 log -> log !! k = Some d ->
  rx_data_chunk s (data_chunk (d_tsn d) (d_stream_id d) (d_ssn d) (d_ppid d) (d_flags d) (d_payload d)) = rx_data s d.
Proof.
  intros Hlog Hd. destruct (lo_wire _ _ Hlog k d Hd) as (H1 & H2 & H3 & H4). unfold rx_data_chunk.
  rewrite parse_data_chunk; [by destruct d | rewrite (lo_tsn _ _ Hlog k d Hd); apply u32_range | done..].
Qed.

(** One event keeps the correspondence with the log. *)
Record follows_log (tsn0 : Z) (log : list nsctp_data) (st : sctp_rx * list message) (ivs : list (nat * nat)) : Prop := {
  tk_ok : rx_ok st.1;
  tk_inv : exists r c iv, abstracts st.1 r /\ inv tsn0 log r c iv ivs;
  tk_out : Forall2 (fun iv m => message_of log iv = Some m) ivs st.2
}.
Lemma rx_step_Ok tsn0 log st ivs ev :
  chunks_ok tsn0 log -> follows_log tsn0 log st ivs -> exists st' ivs', net_step log st ev = Ok st' /\ follows_log tsn0 log st' ivs'.
Proof.
  intros Hlog [Hok (r & c & iv & Hab & Hinv) Hout]. destruct st as [s out]. cbn [fst snd] in *. destruct ev as [k|]; cbn [net_step].
  - destruct (log !! k) as [d|] eqn:Hd; [|exists (s, out), ivs; split; [done|]; constructor; [done | by exists r, c, iv | done]].
    rewrite (rx_data_chunk_log tsn0 log k d s Hlog Hd).
    destruct (rx_data_Ok s r d Hok Hab (lo_payload _ _ Hlog k d Hd)) as (s' & rc & r' & -> & Hok' & Hab' & Hr). rewrite bind_Ok.
    destruct (inv_arrive _ _ Hlog _ _ _ _ _ _ _ _ Hinv Hd Hr) as (c' & iv' & Hinv').
    exists (s', out), ivs. split; [done|]. constructor; [done | by exists r', c', iv' | done].
  - destruct (nsctp_poll_refines s r Hok Hab) as (s' & rc & m & r' & -> & Hok' & Hab' & Hr). rewrite bind_Ok.
    pose proof (inv_poll _ _ Hlog _ _ _ _ _ _ _ Hinv Hr) as H. destruct m as [msg|].
    + destruct H as (o & Hinv' & Hm). exists (s', out ++ [msg]), (ivs ++ [o]). split; [done|].
      constructor; [done | by exists r', c, iv |]. cbn. apply Forall2_app; [done|]. by repeat constructor.
    + exists (s', out ++ []), ivs. split; [done|]. rewrite app_nil_r. constructor; [done | by exists r', c, iv | done].
Qed.
Lemma rx_run_Ok tsn0 log events : forall st ivs,
  chunks_ok tsn0 log -> follows_log tsn0 log st ivs -> exists st' ivs', fold_res (net_step log) st events = Ok st' /\ follows_log tsn0 log st' ivs'.
Proof.
  induction events as [|ev events IH]; intros st ivs Hlog Ht; [by exists st, ivs|].
  destruct (rx_step_Ok tsn0 log st ivs ev Hlog Ht) as (st1 & ivs1 & Hs & Ht1). cbn [fold_res]. rewrite Hs, bind_Ok. by apply (IH st1 ivs1).
Qed.

(** C23: the pool implements the abstract receiver. Whatever the descriptors'
    offsets, the compaction and the in-place rotations of the shared buffer,
    [nsctp_handle_data_chunk] (with a non-empty payload) and
    [nsctp_poll_delivery] never fault, keep the pool consistent, and do to the
    table of chunks, the cumulative TSN and the stream numbers what the abstract
    receiver does. *)
Theorem sctp_receiver_refines s r :
  rx_ok s -> abstracts s r ->
  (forall d, (0 < length (d_payload d))%nat ->
     exists s' rc r', rx_data s d = Ok (s', rc) /\ rx_ok s' /\ abstracts s' r' /\ a_arrive r d r' rc) /\
  (exists s' rc m r', nsctp_poll_delivery s = Ok (s', rc, m) /\ rx_ok s' /\ abstracts s' r' /\ a_poll r r' (rc, m)).
Proof.
  intros Hok Hab. split; [|by apply nsctp_poll_refines]. intros d Hd. by apply rx_data_Ok.
Qed.

Theorem sctp_receiver_refines_witness :
  rx_ok (rx_start 101) /\
  exists s' rc r', rx_data (rx_start 101) (NsctpData 101 0 0 51 3 [104; 105]) = Ok (s', rc) /\ rx_ok s' /\ abstracts s' r' /\
    a_arrive (Receiver (replicate NANORTC_SCTP_MAX_RECV_GAP None) 100 (fun _ => 0)) (NsctpData 101 0 0 51 3 [104; 105]) r' rc.
Proof.
  split; [apply rx_start_ok|].
  apply (sctp_receiver_refines (rx_start 101)); [apply rx_start_ok | done | cbn; lia].
Defined.

Lemma rx_start_follows tsn0 log : follows_log tsn0 log (rx_start tsn0, []) [].
Proof.
  constructor; [apply rx_start_ok | | done].
  exists (Receiver (table (rx_start tsn0)) (u32 (tsn0 - 1)) (fun _ => 0)), 0%nat, (fun _ => (0, 0)%nat). split; [done|]. rewrite rx_start_table.
  constructor; cbn [r_table r_cum r_ssn]; try (by intros; exfalso; eapply elem_of_nil).
  - rewrite Z.add_0_r. split; [done|lia].
  - intros j h Hj. by apply lookup_replicate in Hj as [? _].
  - intros j k _ (h & Hj & _). by apply lookup_replicate in Hj as [? _].
  - apply NoDup_nil_2.
  - done.
Qed.

(** C22: whatever the network does to the chunks of a peer (loss, duplication,
    any order) and whenever the application polls, the receiver never faults and
    delivers only messages the peer sent, whole and unaltered, each at most
    once; those of an ordered stream come in the order they were sent, without
    a gap.  The peer has sent at most 65535 chunks, none with an empty payload. *)
Theorem sctp_delivers_sent tsn0 log events :
  chunks_ok tsn0 log ->
  exists s out ivs, rx_run tsn0 log events = Ok (s, out) /\
    Forall2 (fun iv m => sent_at log iv.1 iv.2 /\ message_of log iv = Some m) ivs out /\
    NoDup (map fst ivs) /\
    forall sid, map fst (outs_on log sid ivs) `prefix_of` ordered_starts log sid.
Proof.
  intros Hlog. pose proof (rx_start_follows tsn0 log) as H0.
  destruct (rx_run_Ok tsn0 log events _ _ Hlog H0) as ([s out] & ivs & Hr & [Hok (r & c & iv & _ & Hinv) Hout]).
  exists s, out, ivs. split; [done|]. split.
  - cbn in Hout. apply Forall2_same_length_lookup in Hout as [Hl Hout]. apply Forall2_same_length_lookup. split; [done|].
    intros i [a b] m Ha Hm. split; [|by apply (Hout i)]. apply (iv_out _ _ _ _ _ _ Hinv). by eapply list_elem_of_lookup_2.
  - split; [by apply Hinv|]. intros sid. destruct (iv_order _ _ _ _ _ _ Hinv sid) as [_ ->]. apply prefix_take.
Qed.

Definition demo_log : list nsctp_data :=
  [NsctpData 101 0 0 51 3 [10; 11]; NsctpData 102 0 1 51 2 [20]; NsctpData 103 0 1 51 0 [21]; NsctpData 104 0 1 51 1 [22; 23]].
Lemma demo_log_ok : chunks_ok 101 demo_log.
Proof.
  constructor; unfold demo_log.
  - cbn. lia.
  - intros [|[|[|[|k]]]] d [= <-]; done.
  - intros [|[|[|[|k]]]] d [= <-]; cbn; lia.
  - intros [|[|[|[|k]]]] d [= <-]; cbn; unfold is_u16, is_u32, UINT16_MAX; lia.
  - intros d [= <-]. done.
  - intros [|[|[|[|k]]]] d d' [= <-] [= <-]; done.
  - intros [|[|[|[|k]]]] d [= <-] (H & _); done.
Qed.
Theorem sctp_delivers_sent_witness :
  chunks_ok 101 demo_log /\
  (exists s out ivs, rx_run 101 demo_log [Arrive 3; Arrive 0; Arrive 3; Poll; Arrive 2; Arrive 1; Poll; Poll] = Ok (s, out) /\
    Forall2 (fun iv m => sent_at demo_log iv.1 iv.2 /\ message_of demo_log iv = Some m) ivs out /\ NoDup (map fst ivs) /\
    forall sid, map fst (outs_on demo_log sid ivs) `prefix_of` ordered_starts demo_log sid) /\
  match rx_run 101 demo_log [Arrive 3; Arrive 0; Arrive 3; Poll; Arrive 2; Arrive 1; Poll; Poll] with
  | Ok (_, out) => out = [Message [10; 11] 51 0; Message [20; 21; 22; 23] 51 0] | _ => False end.
Proof.
  split; [apply demo_log_ok|]. split; [apply (sctp_delivers_sent 101 demo_log), demo_log_ok | vm_compute; reflexivity].
Defined.

(** * Where delivery fails *)

#[global] Instance rx_entry_eq_dec : EqDecision rx_entry.
Proof. solve_decision. Defined.
#[global] Instance sctp_rx_eq_dec : EqDecision sctp_rx.
Proof. solve_decision. Defined.
#[global] Instance message_eq_dec : EqDecision message.
Proof. solve_decision. Defined.

(** The arrival orders of [demo_log] that leave its second message behind: its
    first fragment arrived before its second, and the last arrival is not its
    third. *)
Definition place (i : nat) (order : list nat) : nat := default (length order) (fst <$> list_find (i =.) order).
Definition strands (order : list nat) : bool := (place 1 order <? place 2 order)%nat && negb (place 3 order =? 3)%nat.
Definition demo_delivered (order : list nat) : list message :=
  Message [10; 11] 51 0 :: (if strands order then [] else [Message [20; 21; 22; 23] 51 0]).
Definition stuck (x : res (sctp_rx * list message)) (out : list message) (cum : Z) : bool :=
  match x with
  | Ok (s, out') =>
      bool_decide (out' = out) && (cumulative_tsn s =? cum) &&
      match nsctp_poll_delivery s with Ok (s', rc, None) => bool_decide (s' = s) && (rc =? NANORTC_ERR_WOULD_BLOCK) | _ => false end
  | _ => false
  end.
Lemma fold_res_app {A B} (f : A -> B -> res A) a l l' : fold_res f a (l ++ l') = (x ← fold_res f a l; fold_res f x l').
Proof. revert a. induction l as [|b l IH]; intros a; [done|]. cbn [app fold_res]. destruct (f a b); [by apply IH | done | done]. Qed.
Lemma stuck_polls tsn0 log events out cum n :
  stuck (rx_run tsn0 log events) out cum = true ->
  exists s, rx_run tsn0 log (events ++ replicate n Poll) = Ok (s, out) /\ cumulative_tsn s = cum.
Proof.
  unfold stuck. intros H. unfold rx_run in *. rewrite fold_res_app. destruct (fold_res _ _ events) as [[s out']| |]; [|done|done].
  rewrite bind_Ok. bool_facts. destruct (nsctp_poll_delivery s) as [[[s' rc] [m|]]| |] eqn:Hp; [done| |done|done]. bool_facts.
  repeat match goal with H : bool_decide _ = true |- _ => apply bool_decide_eq_true in H end. subst. exists s. split; [|lia].
  clear - Hp. induction n as [|n IH]; [done|]. cbn [replicate fold_res net_step]. rewrite Hp, bind_Ok, app_nil_r. done.
Qed.

(** What each of the 24 arrival orders of [demo_log] comes to: every chunk is
    acknowledged, and in nine orders the message of three fragments is never
    delivered, however often the application polls.  When [nsctp_rx_merge] finds
    the three acknowledged together, it starts from the later arrival of the
    first two (the table is filled from its end): the second fragment takes in
    the third and its TSN, and the first no longer finds the TSN after its own.
    Nothing on the stream is delivered again. *)
Theorem sctp_merge_strands order n : order ≡ₚ [0; 1; 2; 3]%nat ->
  exists s, rx_run 101 demo_log (map Arrive order ++ [Poll; Poll; Poll] ++ replicate n Poll) = Ok (s, demo_delivered order) /\
    cumulative_tsn s = u32 (101 + 3).
Proof.
  intros Hp. rewrite app_assoc. apply stuck_polls.
  assert (forallb (fun o => stuck (rx_run 101 demo_log (map Arrive o ++ [Poll; Poll; Poll])) (demo_delivered o) (u32 (101 + 3))) (permutations [0; 1; 2; 3]%nat) = true) as H
    by (vm_compute; reflexivity).
  rewrite forallb_forall in H. apply (H order), list_elem_of_In, permutations_Permutation. by symmetry.
Qed.
Example strands_nine : filter (fun o => strands o = true) (permutations [0; 1; 2; 3]%nat) ≡ₚ
  [[1; 2; 3; 0]; [1; 3; 2; 0]; [3; 1; 2; 0]; [0; 1; 3; 2]; [1; 0; 3; 2]; [1; 3; 0; 2]; [0; 3; 1; 2]; [3; 0; 1; 2]; [3; 1; 0; 2]]%nat.
Proof. apply (bool_decide_eq_true_1 _). vm_compute. reflexivity. Qed.

(** DATA chunks with an empty payload, which [nsctp_parse_data] accepts,
    break the pool: two of them and three ordinary messages, every one accepted,
    leave a descriptor whose offset has wrapped, and the next poll writes
    outside the receive buffer. *)
Definition empty_steps : list (nsctp_data + unit) :=
  [inl (NsctpData 1 0 0 51 3 (replicate 100 7)); inl (NsctpData 2 1 0 51 2 []); inl (NsctpData 4 2 0 51 3 (replicate 50 8));
   inr (); inr (); inr (); inl (NsctpData 3 1 0 51 1 (replicate 10 9))].
Definition accept_step (s : sctp_rx) (x : nsctp_data + unit) : res sctp_rx :=
  match x with
  | inl d => '(s, rc) ← rx_data_chunk s (data_chunk (d_tsn d) (d_stream_id d) (d_ssn d) (d_ppid d) (d_flags d) (d_payload d));
             if rc =? NANORTC_OK then Ok s else Err rc
  | inr _ => '(s, _, _) ← nsctp_poll_delivery s; Ok s
  end.
Theorem sctp_empty_data_corrupts :
  exists s, fold_res accept_step (rx_start 1) empty_steps = Ok s /\ nsctp_poll_delivery s = Fault.
Proof.
  assert (match fold_res accept_step (rx_start 1) empty_steps with
          | Ok s => match nsctp_poll_delivery s with Fault => true | _ => false end | _ => false end = true) as H by (vm_compute; reflexivity).
  destruct (fold_res accept_step (rx_start 1) empty_steps) as [s| |]; [|done|done]. exists s. split; [done|].
  by destruct (nsctp_poll_delivery s).
Qed.
