(* ===== verification/SctpSend.v ===== *)
(** The send half of [src/nano_sctp.c]: the ring of send-queue entries over the
    send buffer, fragmentation, SACK processing, abandonment (PR-SCTP), the
    retransmission timer and the FORWARD TSN it owes the peer; that fragments
    carry the message, that an acknowledgement frees exactly what it covers, and
    that reliable data stays queued until it is acknowledged. *)

From Stdlib Require Import ZArith Lia.
From stdpp Require Import base list numbers.
From S2P Require Import Prelude Wire Crc SctpCodec SctpRecv.

Local Open Scope Z_scope.

Definition NANORTC_SCTP_MAX_SEND_QUEUE : nat := 16.
Definition NANORTC_SCTP_SEND_BUF_SIZE : nat := Z.to_nat 4096.
Definition NANORTC_SCTP_RTO_INITIAL_MS : Z := 1000.
Definition NANORTC_SCTP_RTO_MAX_MS : Z := 10000.
Definition NANORTC_SCTP_MAX_RETRANSMITS : Z := 10.

(** [nsctp_send_entry_t] *)
Record send_entry : Type := SendEntry {
  t_tsn : Z; t_stream_id : Z; t_ssn : Z; t_ppid : Z; t_off : nat; t_len : nat; t_sent_at : Z; t_retransmit_count : Z;
  t_max_retransmits : Z; t_abandoned : bool; t_flags : Z; t_acked : bool; t_in_flight : bool
}.
Definition send_zero : send_entry := SendEntry 0 0 0 0 0 0 0 0 0 false 0 false false.
Definition set_abandoned e := SendEntry (t_tsn e) (t_stream_id e) (t_ssn e) (t_ppid e) (t_off e) (t_len e) (t_sent_at e) (t_retransmit_count e)
  (t_max_retransmits e) true (t_flags e) (t_acked e) (t_in_flight e).
Definition set_acked e := SendEntry (t_tsn e) (t_stream_id e) (t_ssn e) (t_ppid e) (t_off e) (t_len e) (t_sent_at e) (t_retransmit_count e)
  (t_max_retransmits e) (t_abandoned e) (t_flags e) true (t_in_flight e).
Definition set_flight e now := SendEntry (t_tsn e) (t_stream_id e) (t_ssn e) (t_ppid e) (t_off e) (t_len e) now (t_retransmit_count e)
  (t_max_retransmits e) (t_abandoned e) (t_flags e) (t_acked e) true.
Definition set_resend e now := SendEntry (t_tsn e) (t_stream_id e) (t_ssn e) (t_ppid e) (t_off e) (t_len e) now (u16 (t_retransmit_count e + 1))
  (t_max_retransmits e) (t_abandoned e) (t_flags e) (t_acked e) false.

(** The send fields of [nano_sctp_t]. *)
Record sendq : Type := SendQ {
  send_queue : list send_entry; sq_head : Z; sq_tail : Z; send_buf : list Z; send_buf_used : nat; next_tsn : Z;
  rto_ms : Z; forward_sent_at_ms : Z; forward_pending : bool
}.
Definition sendq_init : sendq :=
  SendQ (replicate NANORTC_SCTP_MAX_SEND_QUEUE send_zero) 0 0 (replicate NANORTC_SCTP_SEND_BUF_SIZE 0) 0 0 NANORTC_SCTP_RTO_INITIAL_MS 0 false.
Definition set_queue q x := SendQ x (sq_head q) (sq_tail q) (send_buf q) (send_buf_used q) (next_tsn q) (rto_ms q) (forward_sent_at_ms q) (forward_pending q).
Definition set_head q x := SendQ (send_queue q) x (sq_tail q) (send_buf q) (send_buf_used q) (next_tsn q) (rto_ms q) (forward_sent_at_ms q) (forward_pending q).
Definition set_sbuf q b u := SendQ (send_queue q) (sq_head q) (sq_tail q) b u (next_tsn q) (rto_ms q) (forward_sent_at_ms q) (forward_pending q).
Definition set_rto q x := SendQ (send_queue q) (sq_head q) (sq_tail q) (send_buf q) (send_buf_used q) (next_tsn q) x (forward_sent_at_ms q) (forward_pending q).
Definition set_forward q at_ms x := SendQ (send_queue q) (sq_head q) (sq_tail q) (send_buf q) (send_buf_used q) (next_tsn q) (rto_ms q) at_ms x.
Definition set_next_tsn q x := SendQ (send_queue q) (sq_head q) (sq_tail q) (send_buf q) (send_buf_used q) x (rto_ms q) (forward_sent_at_ms q) (forward_pending q).

Definition sq_count (q : sendq) : nat := Z.to_nat (u8 (sq_tail q - sq_head q)).
(** The slot of the [k]th entry from the head: the loops
    [for (uint8_t i = sq_head; i != sq_tail; i++)] visit [k = 0 .. sq_count - 1]. *)
Definition slot_at (q : sendq) (k : nat) : nat := Z.to_nat (Z.land (u8 (sq_head q + Z.of_nat k)) 15).
Definition sentry (q : sendq) (k : nat) : res send_entry :=
  match send_queue q !! slot_at q k with Some e => Ok e | None => Fault end.
Definition put_entry (q : sendq) (k : nat) (e : send_entry) : sendq := set_queue q (<[slot_at q k := e]> (send_queue q)).
Definition positions (q : sendq) : list nat := seq 0 (sq_count q).

(** * Queueing a message: the part of [nsctp_send_options] after its guards *)

Definition mtu_payload : nat := Z.to_nat (Z.land 1200 (Z.lnot 3) - 28).
Definition fragment_count (len : nat) : nat := if (0 <? len)%nat then (len + mtu_payload - 1) / mtu_payload else 1.
Definition fragment_flags (i count : nat) (unordered : bool) : Z :=
  Z.lor (Z.lor (if (i =? 0)%nat then SCTP_DATA_FLAG_BEGIN else 0) (if (i + 1 =? count)%nat then SCTP_DATA_FLAG_END else 0))
    (if unordered then SCTP_DATA_FLAG_UNORDERED else 0).
Fixpoint queue_fragments (k i count : nat) (q : sendq) (sid ssn ppid max_retransmits : Z) (unordered : bool) (off remaining : nat) : res sendq :=
  match k with
  | O => Ok q
  | S k =>
      let slot := Z.to_nat (Z.land (sq_tail q) 15) in
      if (length (send_queue q) <=? slot)%nat then Fault else
      let n := if (mtu_payload <? remaining)%nat then mtu_payload else remaining in
      let e := SendEntry (next_tsn q) sid ssn ppid off n 0 0 max_retransmits false (fragment_flags i count unordered) false false in
      queue_fragments k (S i) count
        (SendQ (<[slot := e]> (send_queue q)) (sq_head q) (u8 (sq_tail q + 1)) (send_buf q) (send_buf_used q) (u32 (next_tsn q + 1))
           (rto_ms q) (forward_sent_at_ms q) (forward_pending q))
        sid ssn ppid max_retransmits unordered (add16 off n) (remaining - n)
  end.
Definition queue_message (q : sendq) (sid ssn ppid max_retransmits : Z) (unordered : bool) (data : list Z) : res sendq :=
  let len := length data in
  let off := send_buf_used q in
  buf ← (if (0 <? len)%nat then wr (send_buf q) off data else Ok (send_buf q));
  queue_fragments (fragment_count len) 0 (fragment_count len) (set_sbuf q buf (add16 off len)) sid ssn ppid max_retransmits unordered off len.

(** * SACK *)

Fixpoint gap_acked_from (chunk : list Z) (i n : nat) (offset : Z) : res bool :=
  match n with
  | O => Ok false
  | S n =>
      let gap := (SCTP_CHUNK_HDR_SIZE + SCTP_SACK_MIN_SIZE + 4 * i)%nat in
      start ← nanortc_read_u16be chunk gap;
      end_ ← (if start <=? offset then nanortc_read_u16be chunk (gap + 2) else Ok 0);
      if (start <=? offset) && (offset <=? end_) then Ok true else gap_acked_from chunk (S i) n offset
  end.
Definition nsctp_gap_acked (chunk : list Z) (count : nat) (offset : Z) : res bool :=
  if (offset <=? 0) || (UINT16_MAX <? offset) then Ok false else gap_acked_from chunk 0 count offset.

Fixpoint abandon_first (q : sendq) (k : nat) : res nat :=
  match k with
  | O => Ok O
  | S k' => e ← sentry q k; if has_flag (t_flags e) SCTP_DATA_FLAG_BEGIN then Ok k else abandon_first q k'
  end.
Fixpoint abandon_parts (q : sendq) (k n : nat) : res sendq :=
  match n with
  | O => Ok q
  | S n =>
      e ← sentry q k;
      let q := put_entry q k (set_abandoned e) in
      if has_flag (t_flags e) SCTP_DATA_FLAG_END then Ok q else abandon_parts q (S k) n
  end.
(** [nsctp_abandon_message], of the entry at position [k]. *)
Definition nsctp_abandon_message (q : sendq) (k : nat) : res sendq :=
  first ← abandon_first q k;
  q ← abandon_parts q first (sq_count q - first);
  Ok (set_forward q (forward_sent_at_ms q) true).

Fixpoint check_gaps (chunk : list Z) (i n : nat) (previous_end : Z) : res bool :=
  match n with
  | O => Ok true
  | S n =>
      let gap := (SCTP_CHUNK_HDR_SIZE + SCTP_SACK_MIN_SIZE + 4 * i)%nat in
      start ← nanortc_read_u16be chunk gap;
      end_ ← nanortc_read_u16be chunk (gap + 2);
      if (start <=? previous_end) || (end_ <? start) then Ok false else check_gaps chunk (S i) n end_
  end.
Definition sack_highest (chunk : list Z) (sack : nsctp_sack) (q : sendq) (highest : Z) (k : nat) : res Z :=
  e ← sentry q k;
  let offset := i32 (t_tsn e - s_cumulative_tsn sack) in
  if t_in_flight e && (i32 (t_tsn e - highest) >? 0)
  then hit ← nsctp_gap_acked chunk (Z.to_nat (s_num_gap_blocks sack)) offset; Ok (if hit : bool then t_tsn e else highest)
  else Ok highest.
Definition sack_abandon (chunk : list Z) (sack : nsctp_sack) (highest : Z) (q : sendq) (k : nat) : res sendq :=
  e ← sentry q k;
  if t_in_flight e && negb (t_acked e) && negb (t_abandoned e) && (t_max_retransmits e =? 0) &&
     (i32 (t_tsn e - s_cumulative_tsn sack) >? 0) && (i32 (highest - t_tsn e) >? 0)
  then hit ← nsctp_gap_acked chunk (Z.to_nat (s_num_gap_blocks sack)) (i32 (t_tsn e - s_cumulative_tsn sack));
       if hit : bool then Ok q else nsctp_abandon_message q k
  else Ok q.
Definition sack_mark (sack : nsctp_sack) (q : sendq) (k : nat) : res sendq :=
  e ← sentry q k;
  Ok (if (i32 (t_tsn e - s_cumulative_tsn sack) <=? 0) && negb (t_acked e) then put_entry q k (set_acked e) else q).
Fixpoint sack_advance (n : nat) (q : sendq) : res sendq :=
  match n with
  | O => Ok q
  | S n => e ← sentry q 0; if t_acked e then sack_advance n (set_head q (u8 (sq_head q + 1))) else Ok q
  end.
Definition nsctp_handle_sack_chunk (q : sendq) (chunk : list Z) : res (sendq * Z) :=
  match nsctp_parse_sack chunk with
  | Fault => Fault
  | Err _ => Ok (q, NANORTC_ERR_PARSE)
  | Ok sack =>
      let blocks := Z.of_nat ((length chunk - SCTP_CHUNK_HDR_SIZE - SCTP_SACK_MIN_SIZE) / 4) in
      if (blocks <? s_num_gap_blocks sack) || (blocks - s_num_gap_blocks sack <? s_num_dup_tsns sack) then Ok (q, NANORTC_ERR_PARSE) else
      ordered ← check_gaps chunk 0 (Z.to_nat (s_num_gap_blocks sack)) 0;
      if negb ordered then Ok (q, NANORTC_ERR_PARSE) else
      highest ← fold_res (sack_highest chunk sack q) (s_cumulative_tsn sack) (positions q);
      q ← fold_res (sack_abandon chunk sack highest) q (positions q);
      q ← fold_res (sack_mark sack) q (positions q);
      q ← sack_advance (sq_count q) q;
      Ok (if sq_head q =? sq_tail q then set_sbuf q (send_buf q) 0 else q, NANORTC_OK)
  end.

(** * Timers *)

Inductive timeout_result : Type := Continue (q : sendq) | GiveUp (q : sendq).
(** One entry of the retransmission scan. *)
Definition resend_entry (now_ms : Z) (q : sendq) (k : nat) : res timeout_result :=
  e ← sentry q k;
  if t_in_flight e && negb (t_acked e) && negb (t_abandoned e) && (rto_ms q <=? nano_time_elapsed now_ms (t_sent_at e)) then
    if (0 <=? t_max_retransmits e) && (t_max_retransmits e <=? t_retransmit_count e)
    then q ← nsctp_abandon_message q k; Ok (Continue q)
    else if (t_max_retransmits e <? 0) && (NANORTC_SCTP_MAX_RETRANSMITS <=? t_retransmit_count e) then Ok (GiveUp q)
    else
      let rto := u32 (rto_ms q * 2) in
      Ok (Continue (set_rto (put_entry q k (set_resend e now_ms)) (if NANORTC_SCTP_RTO_MAX_MS <? rto then NANORTC_SCTP_RTO_MAX_MS else rto)))
  else Ok (Continue q).
Fixpoint resend_scan (now_ms : Z) (q : sendq) (ks : list nat) : res timeout_result :=
  match ks with
  | [] => Ok (Continue q)
  | k :: ks => r ← resend_entry now_ms q k; match r with Continue q => resend_scan now_ms q ks | GiveUp q => Ok (GiveUp q) end
  end.
(** The FORWARD TSN repetition. *)
Fixpoint forward_scan (q : sendq) (ks : list nat) : res sendq :=
  match ks with
  | [] => Ok q
  | k :: ks =>
      e ← sentry q k;
      if negb (t_acked e) && negb (t_abandoned e) then Ok q
      else forward_scan (if t_abandoned e then set_forward q (forward_sent_at_ms q) true else q) ks
  end.
Definition forward_repeat (now_ms : Z) (q : sendq) : res sendq :=
  if rto_ms q <=? nano_time_elapsed now_ms (forward_sent_at_ms q) then forward_scan q (positions q) else Ok q.

Definition time_left (now_ms since rto : Z) : Z :=
  let elapsed := nano_time_elapsed now_ms since in if rto <=? elapsed then 0 else rto - elapsed.
(** One entry of [nsctp_next_timeout_ms]'s scan. *)
Definition next_timeout_entry (now_ms : Z) (q : sendq) (best : Z) (k : nat) : res Z :=
  e ← sentry q k;
  if t_abandoned e && negb (t_acked e) then
    first ← sentry q 0;
    if negb (t_abandoned first) then Ok best else Ok (Z.min (time_left now_ms (forward_sent_at_ms q) (rto_ms q)) best)
  else if negb (t_in_flight e) || t_acked e then Ok best
  else Ok (Z.min (time_left now_ms (t_sent_at e) (rto_ms q)) best).

(** * FORWARD TSN: the streams skipped, with the last SSN of each *)

Fixpoint note_stream (streams : list (Z * Z)) (sid ssn : Z) : list (Z * Z) :=
  match streams with
  | [] => [(sid, ssn)]
  | (x, y) :: streams => if x =? sid then (x, ssn) :: streams else (x, y) :: note_stream streams sid ssn
  end.
Fixpoint skipped_streams (q : sendq) (ks : list nat) (streams : list (Z * Z)) (advanced : Z) (skipped : bool) : res (list (Z * Z) * Z * bool) :=
  match ks with
  | [] => Ok (streams, advanced, skipped)
  | k :: ks =>
      e ← sentry q k;
      if negb (t_acked e) && negb (t_abandoned e) then Ok (streams, advanced, skipped)
      else if negb (t_abandoned e) then skipped_streams q ks streams (t_tsn e) skipped
      else if has_flag (t_flags e) SCTP_DATA_FLAG_UNORDERED then skipped_streams q ks streams (t_tsn e) true
      else
        let streams := note_stream streams (t_stream_id e) (t_ssn e) in
        if (NANORTC_MAX_DATACHANNELS_SCTP <? length streams)%nat then Fault (** past [ids] *)
        else skipped_streams q ks streams (t_tsn e) true
  end.
(** The first entry [nsctp_poll_output] would transmit. *)
Fixpoint first_unsent (q : sendq) (ks : list nat) : res (option nat) :=
  match ks with
  | [] => Ok None
  | k :: ks => e ← sentry q k; if negb (t_in_flight e) && negb (t_acked e) && negb (t_abandoned e) then Ok (Some k) else first_unsent q ks
  end.

(** * The queue holds the end of the log of chunks queued so far *)

Definition sbuf_facts : Z.of_nat NANORTC_SCTP_SEND_BUF_SIZE = 4096 /\ Z.of_nat mtu_payload = 1172.
Proof. repeat split. Qed.
#[local] Opaque NANORTC_SCTP_SEND_BUF_SIZE mtu_payload NANORTC_SCTP_RECV_GAP_BUF_SIZE NANORTC_SCTP_MAX_MESSAGE_SIZE NANORTC_SCTP_MTU.

(** The DATA chunk an entry stands for. *)
Definition chunk_of (q : sendq) (e : send_entry) : nsctp_data :=
  NsctpData (t_tsn e) (t_stream_id e) (t_ssn e) (t_ppid e) (t_flags e) (take (t_len e) (drop (t_off e) (send_buf q))).
Definition reliable (e : send_entry) : Prop := t_abandoned e = false /\ t_max_retransmits e = -1.

Record send_inv (tsn0 : Z) (log : list nsctp_data) (q : sendq) : Prop := {
  si_len : length (send_queue q) = NANORTC_SCTP_MAX_SEND_QUEUE;
  si_buf : length (send_buf q) = NANORTC_SCTP_SEND_BUF_SIZE;
  si_u8 : is_u8 (sq_head q) /\ is_u8 (sq_tail q);
  si_count : (sq_count q <= NANORTC_SCTP_MAX_SEND_QUEUE)%nat /\ (sq_count q <= length log)%nat;
  si_next : next_tsn q = u32 (tsn0 + Z.of_nat (length log));
  si_used : (send_buf_used q <= NANORTC_SCTP_SEND_BUF_SIZE)%nat;
  si_forward : forward_pending q = false;
  si_entry : forall k, (k < sq_count q)%nat -> exists e, send_queue q !! slot_at q k = Some e /\ reliable e /\
    (t_off e + t_len e <= send_buf_used q)%nat /\ (t_len e <= mtu_payload)%nat /\ log !! (length log - sq_count q + k)%nat = Some (chunk_of q e)
}.

Lemma slot_at_eq q k : slot_at q k = Z.to_nat ((sq_head q + Z.of_nat k) mod 16).
Proof.
  unfold slot_at. f_equal. change 15 with (Z.ones 4). rewrite Z.land_ones by lia. change (2 ^ 4) with 16. mach.
Qed.
Lemma slot_at_lt q k : (slot_at q k < NANORTC_SCTP_MAX_SEND_QUEUE)%nat.
Proof. rewrite slot_at_eq. unfold NANORTC_SCTP_MAX_SEND_QUEUE. Z.div_mod_to_equations. lia. Qed.
Lemma slot_at_inj q k l : (k < 16)%nat -> (l < 16)%nat -> slot_at q k = slot_at q l -> k = l.
Proof. rewrite !slot_at_eq. intros. Z.div_mod_to_equations. lia. Qed.
Lemma positions_lt q k : k ∈ positions q -> (k < sq_count q)%nat.
Proof. intros H%list_elem_of_In%in_seq. lia. Qed.
Lemma positions_all q : Forall (fun k => k < sq_count q)%nat (positions q).
Proof. apply List.Forall_forall. intros k H%in_seq. lia. Qed.
Lemma sentry_Ok q k e : send_queue q !! slot_at q k = Some e -> sentry q k = Ok e.
Proof. unfold sentry. by intros ->. Qed.

(** A fold whose steps succeed and keep an invariant. *)
Lemma fold_res_inv {A B} (f : A -> B -> res A) (P : A -> Prop) l a :
  (forall a b, b ∈ l -> P a -> exists a', f a b = Ok a' /\ P a') -> P a -> exists a', fold_res f a l = Ok a' /\ P a'.
Proof.
  revert a. induction l as [|b l IH]; intros a Hf Ha; [by exists a|]. cbn [fold_res].
  destruct (Hf a b ltac:(left) Ha) as (a1 & -> & Ha1). rewrite bind_Ok. apply IH; [|done]. intros. apply Hf; [by right|done].
Qed.

(** What a descriptor says on the wire stays; flags, timers and counters may change. *)
Definition same_wire (e e' : send_entry) : Prop :=
  t_tsn e' = t_tsn e /\ t_stream_id e' = t_stream_id e /\ t_ssn e' = t_ssn e /\ t_ppid e' = t_ppid e /\ t_flags e' = t_flags e /\
  t_off e' = t_off e /\ t_len e' = t_len e.
Lemma put_inv tsn0 log q k e e' :
  send_inv tsn0 log q -> (k < sq_count q)%nat -> send_queue q !! slot_at q k = Some e -> same_wire e e' -> reliable e' ->
  send_inv tsn0 log (put_entry q k e').
Proof.
  intros [H1 H2 H3 [H4 H5] H6 H7 H7f H8] Hk He (W1 & W2 & W3 & W4 & W5 & W6 & W7) Hr. constructor; try done.
  - cbn. by rewrite length_insert.
  - intros l Hl. change (sq_count (put_entry q k e')) with (sq_count q) in *. change (slot_at (put_entry q k e') l) with (slot_at q l).
    cbn [put_entry set_queue send_queue]. destruct (H8 l Hl) as (f & Hf & Rf & Of & Lf & Gf).
    destruct (decide (l = k)) as [->|Hne].
    + rewrite list_lookup_insert_eq by (by eapply lookup_lt_Some). exists e'. rewrite He in Hf. injection Hf as <-.
      split; [done|]. split; [done|]. unfold chunk_of. cbn [send_buf send_buf_used set_queue put_entry].
      rewrite W1, W2, W3, W4, W5, W6, W7. done.
    + rewrite list_lookup_insert_ne; [by exists f|]. intros Heq. apply Hne. unfold NANORTC_SCTP_MAX_SEND_QUEUE in *. apply (slot_at_inj q); [lia|lia|done].
Qed.
Lemma entry_inv tsn0 log q k : send_inv tsn0 log q -> (k < sq_count q)%nat ->
  exists e, sentry q k = Ok e /\ send_queue q !! slot_at q k = Some e /\ reliable e.
Proof. intros H Hk. destruct (si_entry _ _ _ H k Hk) as (e & He & Hr & _). exists e. split; [by apply sentry_Ok | done]. Qed.

(** Reliable entries: nothing is ever abandoned. *)
Lemma sack_abandon_Ok tsn0 log chunk sack highest q k :
  send_inv tsn0 log q -> (k < sq_count q)%nat -> sack_abandon chunk sack highest q k = Ok q.
Proof.
  intros H Hk. destruct (entry_inv _ _ q k H Hk) as (e & He & _ & [_ Hm]). unfold sack_abandon. rewrite He, bind_Ok, Hm.
  cbn. by rewrite !andb_false_r.
Qed.
Lemma set_head_inv tsn0 log q : send_inv tsn0 log q -> (0 < sq_count q)%nat ->
  send_inv tsn0 log (set_head q (u8 (sq_head q + 1))) /\ S (sq_count (set_head q (u8 (sq_head q + 1)))) = sq_count q.
Proof.
  intros [H1 H2 [H3 H3'] [H4 H5] H6 H7 H7f H8] Hc. set (q' := set_head q _).
  assert (S (sq_count q') = sq_count q) as Hcount.
  { unfold sq_count in *. cbn [q' set_head sq_head sq_tail]. unfold NANORTC_SCTP_MAX_SEND_QUEUE in *. mach. }
  split; [|done]. constructor; try done.
  - split; [apply u8_range | done].
  - split; lia.
  - intros k Hk. destruct (H8 (S k) ltac:(lia)) as (e & He & Hr & Ho & Hl & Hg). exists e. split; [|split; [done|]].
    + rewrite <- He. cbn [q' set_head send_queue]. f_equal. rewrite !slot_at_eq. cbn [q' set_head sq_head]. f_equal. mach.
    + split; [done|]. split; [done|]. change (chunk_of q' e) with (chunk_of q e). rewrite <- Hg. f_equal. lia.
Qed.
Lemma sack_advance_Ok tsn0 log n q : send_inv tsn0 log q -> (n <= sq_count q)%nat ->
  exists q', sack_advance n q = Ok q' /\ send_inv tsn0 log q' /\ (sq_count q' + n >= sq_count q)%nat /\ (sq_count q' <= sq_count q)%nat.
Proof.
  revert q. induction n as [|n IH]; intros q Hq Hn; cbn [sack_advance]; [exists q; split; [done|]; split; [done|]; lia|].
  destruct (entry_inv _ _ q 0 Hq ltac:(lia)) as (e & -> & _ & _). rewrite bind_Ok. destruct (t_acked e); [|exists q; split; [done|]; split; [done|]; lia].
  destruct (set_head_inv _ _ q Hq ltac:(lia)) as [Hq' Hc]. destruct (IH _ Hq' ltac:(lia)) as (q' & Hs & Hi & H1 & H2).
  exists q'. split; [done|]. split; [done|]. lia.
Qed.

Lemma read16_some p i : (i + 1 < length p)%nat -> exists v, nanortc_read_u16be p i = Ok v.
Proof. intros. rewrite read_u16be_at by done. eauto. Qed.
Lemma read32_some p i : (i + 3 < length p)%nat -> exists v, nanortc_read_u32be p i = Ok v.
Proof. intros. rewrite read_u32be_at by done. eauto. Qed.

(** Reading the gap blocks of a validated SACK stays inside the chunk. *)
Lemma gap_acked_from_Ok chunk i n offset :
  (16 + 4 * (i + n) <= length chunk)%nat -> exists b, gap_acked_from chunk i n offset = Ok b.
Proof.
  revert i. induction n as [|n IH]; intros i H; cbn [gap_acked_from]; [by exists false|]. unfold SCTP_CHUNK_HDR_SIZE, SCTP_SACK_MIN_SIZE.
  destruct (read16_some chunk (4 + 12 + 4 * i)) as [a ->]; [lia|]. rewrite bind_Ok.
  assert (exists b, (if a <=? offset then nanortc_read_u16be chunk (4 + 12 + 4 * i + 2) else Ok 0) = Ok b) as [b ->].
  { destruct (a <=? offset); [|by exists 0]. apply read16_some. lia. }
  rewrite bind_Ok. destruct (_ && _); [by exists true|]. apply IH. lia.
Qed.
Lemma gap_acked_Ok chunk n offset : (16 + 4 * n <= length chunk)%nat -> exists b, nsctp_gap_acked chunk n offset = Ok b.
Proof. intros H. unfold nsctp_gap_acked. destruct (_ || _); [by exists false|]. apply gap_acked_from_Ok. lia. Qed.
Lemma check_gaps_Ok chunk i n prev : (16 + 4 * (i + n) <= length chunk)%nat -> exists b, check_gaps chunk i n prev = Ok b.
Proof.
  revert i prev. induction n as [|n IH]; intros i prev H; cbn [check_gaps]; [by exists true|]. unfold SCTP_CHUNK_HDR_SIZE, SCTP_SACK_MIN_SIZE.
  destruct (read16_some chunk (4 + 12 + 4 * i)) as [a ->]; [lia|]. destruct (read16_some chunk (4 + 12 + 4 * i + 2)) as [b ->]; [lia|].
  rewrite !bind_Ok. destruct (_ || _); [by exists false|]. apply IH. lia.
Qed.
Lemma parse_sack_Ok chunk : (length chunk < 16)%nat /\ nsctp_parse_sack chunk = Err NANORTC_ERR_PARSE \/
  (16 <= length chunk)%nat /\ exists sack, nsctp_parse_sack chunk = Ok sack.
Proof.
  unfold nsctp_parse_sack, SCTP_CHUNK_HDR_SIZE, SCTP_SACK_MIN_SIZE. destruct (Nat.ltb_spec (length chunk) (4 + 12)); [by left|right].
  split; [lia|]. destruct (read32_some chunk 4) as [a ->]; [lia|]. destruct (read32_some chunk (4 + 4)) as [b ->]; [lia|].
  destruct (read16_some chunk (4 + 8)) as [c ->]; [lia|]. destruct (read16_some chunk (4 + 10)) as [d ->]; [lia|]. rewrite !bind_Ok. eauto.
Qed.

Lemma sack_mark_Ok tsn0 log sack q k : send_inv tsn0 log q -> (k < sq_count q)%nat ->
  exists q', sack_mark sack q k = Ok q' /\ send_inv tsn0 log q' /\ sq_count q' = sq_count q.
Proof.
  intros H Hk. destruct (entry_inv _ _ q k H Hk) as (e & He & Hl & Hr). unfold sack_mark. rewrite He, bind_Ok.
  destruct (_ && _); [|by exists q]. eexists. split; [done|]. split; [|done]. by apply (put_inv _ _ _ _ e).
Qed.
(** Any SACK, any octets: the queue keeps its meaning. *)
Lemma nsctp_handle_sack_chunk_Ok tsn0 log q chunk :
  send_inv tsn0 log q -> exists q' rc, nsctp_handle_sack_chunk q chunk = Ok (q', rc) /\ send_inv tsn0 log q'.
Proof.
  intros H. unfold nsctp_handle_sack_chunk. destruct (parse_sack_Ok chunk) as [[_ ->]|[Hlen [sack ->]]]; [by exists q, NANORTC_ERR_PARSE|].
  cbv zeta. unfold SCTP_CHUNK_HDR_SIZE, SCTP_SACK_MIN_SIZE. destruct (_ || _) eqn:Hb; [by exists q, NANORTC_ERR_PARSE|]. bool_facts.
  set (blocks := ((length chunk - 4 - 12) / 4)%nat) in *. set (n := Z.to_nat (s_num_gap_blocks sack)).
  assert (4 * blocks <= length chunk - 4 - 12)%nat as Hbl by (apply Nat.Div0.mul_div_le). assert (16 + 4 * n <= length chunk)%nat as Hn by lia.
  destruct (check_gaps_Ok chunk 0 n 0) as [ord ->]; [lia|]. rewrite bind_Ok. destruct ord; cbn [negb]; [|by exists q, NANORTC_ERR_PARSE].
  destruct (fold_res_inv (sack_highest chunk sack q) (fun _ => True) (positions q) (s_cumulative_tsn sack)) as (highest & -> & _); [|done|].
  { intros hi k Hk%positions_lt _. destruct (entry_inv _ _ q k H Hk) as (e & He & _). unfold sack_highest. rewrite He, bind_Ok.
    fold n. destruct (_ && _); [|by exists hi]. destruct (gap_acked_Ok chunk n (i32 (t_tsn e - s_cumulative_tsn sack)) Hn) as [b ->]. rewrite bind_Ok. eauto. }
  rewrite bind_Ok.
  destruct (fold_res_inv (sack_abandon chunk sack highest) (fun q' => q' = q) (positions q) q) as (q1 & -> & ->); [|done|].
  { intros q' k Hk%positions_lt ->. exists q. split; [|done]. by apply (sack_abandon_Ok tsn0 log). }
  rewrite bind_Ok.
  destruct (fold_res_inv (sack_mark sack) (fun q' => send_inv tsn0 log q' /\ sq_count q' = sq_count q) (positions q) q) as (q2 & -> & H2 & Hc2); [|done|].
  { intros q' k Hk%positions_lt [Hq' Hc]. destruct (sack_mark_Ok _ _ sack q' k Hq') as (q'' & Hs & Hi & Hc'); [lia|].
    exists q''. rewrite Hc' , Hc. done. }
  rewrite bind_Ok. destruct (sack_advance_Ok _ _ (sq_count q2) q2 H2) as (q3 & -> & H3 & _); [done|]. rewrite bind_Ok.
  destruct (Z.eqb_spec (sq_head q3) (sq_tail q3)) as [Heq|]; [|by exists q3, NANORTC_OK].
  eexists _, _. split; [done|]. assert (sq_count q3 = 0%nat) as Hz by (unfold sq_count; by rewrite Heq, Z.sub_diag).
  destruct H3 as [I1 I2 I3 I4 I5 I6 I6f I7]. constructor; try done; [cbn; lia|].
  intros k Hk. change (sq_count (set_sbuf q3 (send_buf q3) 0)) with (sq_count q3) in Hk. lia.
Qed.

(** The retransmission timer: entries are marked for sending again, or the
    association gives up. *)
Lemma resend_entry_Ok tsn0 log now q k : send_inv tsn0 log q -> (k < sq_count q)%nat ->
  exists r, resend_entry now q k = Ok r /\ match r with Continue q' | GiveUp q' => send_inv tsn0 log q' /\ sq_count q' = sq_count q end.
Proof.
  intros H Hk. destruct (entry_inv _ _ q k H Hk) as (e & He & Hl & [Ha Hm]). unfold resend_entry. rewrite He, bind_Ok, Hm.
  destruct (_ && _ && _ && _); [|by exists (Continue q)]. cbn [Z.leb Z.compare andb]. destruct (_ && _); [by exists (GiveUp q)|].
  eexists. split; [done|]. cbv iota. split; [|done].
  assert (send_inv tsn0 log (put_entry q k (set_resend e now))) as [] by (by apply (put_inv _ _ _ _ e)). by constructor.
Qed.
Lemma resend_scan_Ok tsn0 log now ks : forall q, send_inv tsn0 log q -> Forall (fun k => k < sq_count q)%nat ks ->
  exists r, resend_scan now q ks = Ok r /\ match r with Continue q' | GiveUp q' => send_inv tsn0 log q' end.
Proof.
  induction ks as [|k ks IH]; intros q H Hks; [by exists (Continue q)|]. apply Forall_cons_iff in Hks as [Hk Hks]. cbn [resend_scan].
  destruct (resend_entry_Ok _ _ now q k H Hk) as (r & -> & Hr). rewrite bind_Ok. destruct r as [q'|q']; destruct Hr as [Hr Hc]; [|by exists (GiveUp q')].
  apply IH; [done|]. by rewrite Hc.
Qed.
Lemma forward_repeat_Ok tsn0 log now q : send_inv tsn0 log q -> forward_repeat now q = Ok q.
Proof.
  intros H. unfold forward_repeat. destruct (_ <=? _); [|done].
  pose proof (positions_all q) as Hks.
  induction Hks as [|k ks Hk Hks IH]; [done|]. cbn [forward_scan]. destruct (entry_inv _ _ q k H Hk) as (e & -> & _ & [Ha _]).
  rewrite bind_Ok, Ha. destruct (t_acked e); cbn [negb andb]; [apply IH|done].
Qed.
Lemma first_unsent_Ok tsn0 log q : send_inv tsn0 log q ->
  exists o, first_unsent q (positions q) = Ok o /\ match o with Some k => (k < sq_count q)%nat | None => True end.
Proof.
  intros H. pose proof (positions_all q) as Hks.
  induction Hks as [|k ks Hk Hks IH]; [by exists None|]. cbn [first_unsent]. destruct (entry_inv _ _ q k H Hk) as (e & -> & _).
  rewrite bind_Ok. destruct (_ && _ && _); [by exists (Some k) | done].
Qed.

(** * Fragmentation *)

Fixpoint fragments (k i count : nat) (tsn sid ssn ppid : Z) (unordered : bool) (data : list Z) : list nsctp_data :=
  match k with
  | O => []
  | S k =>
      NsctpData tsn sid ssn ppid (fragment_flags i count unordered) (take mtu_payload data) ::
      fragments k (S i) count (u32 (tsn + 1)) sid ssn ppid unordered (drop mtu_payload data)
  end.
(** The chunks of one message. *)
Definition message_chunks (tsn sid ssn ppid : Z) (unordered : bool) (data : list Z) : list nsctp_data :=
  fragments (fragment_count (length data)) 0 (fragment_count (length data)) tsn sid ssn ppid unordered data.

Lemma tail_slot q : is_u8 (sq_head q) -> is_u8 (sq_tail q) -> Z.to_nat (Z.land (sq_tail q) 15) = slot_at q (sq_count q).
Proof. intros. unfold slot_at. do 2 f_equal. unfold sq_count. mach. Qed.

(** Appending one entry. *)
Lemma push_inv tsn0 log q e :
  send_inv tsn0 log q -> (sq_count q < NANORTC_SCTP_MAX_SEND_QUEUE)%nat -> t_tsn e = next_tsn q -> reliable e ->
  (t_off e + t_len e <= send_buf_used q)%nat -> (t_len e <= mtu_payload)%nat ->
  let q' := SendQ (<[Z.to_nat (Z.land (sq_tail q) 15) := e]> (send_queue q)) (sq_head q) (u8 (sq_tail q + 1)) (send_buf q) (send_buf_used q)
              (u32 (next_tsn q + 1)) (rto_ms q) (forward_sent_at_ms q) (forward_pending q) in
  send_inv tsn0 (log ++ [chunk_of q e]) q' /\ sq_count q' = S (sq_count q).
Proof.
  intros [H1 H2 [H3 H3'] [H4 H5] H6 H7 H7f H8] Hc Ht Hr Ho Hl. rewrite (tail_slot q) by done. intros q'.
  assert (sq_count q' = S (sq_count q)) as Hcount.
  { unfold sq_count in *. cbn [q' sq_head sq_tail]. unfold NANORTC_SCTP_MAX_SEND_QUEUE in *. mach. }
  split; [|done]. constructor; try done.
  - cbn. by rewrite length_insert.
  - split; [done | apply u8_range].
  - rewrite length_app. cbn [length]. split; lia.
  - cbn [q' next_tsn]. rewrite H6, length_app. cbn [length]. mach.
  - intros k Hk. rewrite Hcount in *. change (slot_at q' k) with (slot_at q k). rewrite length_app. cbn [length q' send_queue].
    destruct (decide (k = sq_count q)) as [->|Hne].
    + exists e. rewrite list_lookup_insert_eq by (rewrite H1; apply slot_at_lt). split; [done|]. split; [done|]. split; [done|]. split; [done|].
      rewrite lookup_app_r by lia. by replace (length log + 1 - S (sq_count q) + sq_count q - length log)%nat with 0%nat by lia.
    + destruct (H8 k ltac:(lia)) as (f & Hf & Rf & Of & Lf & Gf). exists f. unfold NANORTC_SCTP_MAX_SEND_QUEUE in *.
      rewrite list_lookup_insert_ne by (intros Heq; apply Hne; symmetry; apply (slot_at_inj q); [lia|lia|done]).
      split; [done|]. split; [done|]. split; [done|]. split; [done|]. rewrite lookup_app_l by lia.
      change (chunk_of q' f) with (chunk_of q f). rewrite <- Gf. f_equal. lia.
Qed.

Lemma queue_fragments_Ok tsn0 sid ssn ppid unordered count k : forall log q i off data,
  send_inv tsn0 log q -> (sq_count q + k <= NANORTC_SCTP_MAX_SEND_QUEUE)%nat ->
  (off + length data <= send_buf_used q)%nat -> take (length data) (drop off (send_buf q)) = data ->
  exists q', queue_fragments k i count q sid ssn ppid (-1) unordered off (length data) = Ok q' /\
    send_inv tsn0 (log ++ fragments k i count (next_tsn q) sid ssn ppid unordered data) q' /\ sq_count q' = (sq_count q + k)%nat.
Proof.
  induction k as [|k IH]; intros log q i off data H Hk Hoff Hd; cbn [queue_fragments fragments].
  { exists q. rewrite app_nil_r, Nat.add_0_r. done. }
  pose proof (si_u8 _ _ _ H) as [Hh Ht]. pose proof (si_used _ _ _ H) as Hu. pose proof sbuf_facts. pose proof size_facts.
  assert (Z.to_nat (Z.land (sq_tail q) 15) < length (send_queue q))%nat as Hsl.
  { rewrite (si_len _ _ _ H), tail_slot by done. apply slot_at_lt. }
  cbv zeta. rewrite (proj2 (Nat.leb_gt _ _)) by done.
  set (n := if (mtu_payload <? length data)%nat then mtu_payload else length data).
  assert (n = (mtu_payload `min` length data)%nat) as Hn by (unfold n; destruct (Nat.ltb_spec mtu_payload (length data)); lia).
  set (e := SendEntry _ _ _ _ _ _ _ _ _ _ _ _ _).
  destruct (push_inv tsn0 log q e H) as [H' Hc']; [lia | done | done | cbn; lia | cbn; lia |]. set (q1 := SendQ _ _ _ _ _ _ _ _ _) in *.
  assert (chunk_of q e = NsctpData (next_tsn q) sid ssn ppid (fragment_flags i count unordered) (take mtu_payload data)) as Hch.
  { unfold chunk_of. cbn. f_equal.
    transitivity (take mtu_payload (take (length data) (drop off (send_buf q)))); [by rewrite take_take, Hn | by rewrite Hd]. }
  assert (add16 off n = off + n)%nat as -> by (apply add16_small; lia).
  replace (length data - n)%nat with (length (drop mtu_payload data)) by (rewrite length_drop; lia).
  destruct (IH (log ++ [chunk_of q e]) q1 (S i) (off + n)%nat (drop mtu_payload data) H') as (q' & -> & Hq' & Hcq).
  - lia.
  - cbn [q1 send_buf_used]. rewrite length_drop. lia.
  - cbn [q1 send_buf]. transitivity (drop mtu_payload (take (length data) (drop off (send_buf q)))); [|by rewrite Hd]. rewrite Hn, length_drop.
    destruct (Nat.leb_spec (length data) mtu_payload).
    + replace (length data - mtu_payload)%nat with 0%nat by lia. rewrite take_0. symmetry. apply drop_ge. rewrite length_take. lia.
    + rewrite Nat.min_l by lia. rewrite skipn_firstn_comm, drop_drop. done.
  - exists q'. split; [done|]. rewrite Hch in Hq'. rewrite <- app_assoc in Hq'. cbn [app] in Hq'. split; [done|]. lia.
Qed.

(** Queueing a message appends its chunks to the log, and nothing queued before
    changes. *)
Lemma queue_message_Ok tsn0 log q sid ssn ppid unordered data :
  send_inv tsn0 log q -> (sq_count q + fragment_count (length data) <= NANORTC_SCTP_MAX_SEND_QUEUE)%nat ->
  (send_buf_used q + length data <= NANORTC_SCTP_SEND_BUF_SIZE)%nat ->
  exists q', queue_message q sid ssn ppid (-1) unordered data = Ok q' /\
    send_inv tsn0 (log ++ message_chunks (next_tsn q) sid ssn ppid unordered data) q'.
Proof.
  intros H Hc Hl. pose proof (si_buf _ _ _ H) as Hb. pose proof sbuf_facts. pose proof size_facts. unfold queue_message. cbv zeta.
  set (buf := take (send_buf_used q) (send_buf q) ++ data ++ drop (send_buf_used q + length data) (send_buf q)).
  assert ((if (0 <? length data)%nat then wr (send_buf q) (send_buf_used q) data else Ok (send_buf q)) = Ok buf) as ->.
  { destruct (Nat.ltb_spec 0 (length data)); [apply wr_Ok; lia|]. unfold buf. destruct data; [|cbn in *; lia]. cbn [length app].
    rewrite Nat.add_0_r. by rewrite take_drop. }
  rewrite bind_Ok, add16_small by lia. set (q1 := set_sbuf q buf _).
  assert (length buf = length (send_buf q)) as Hlb by (unfold buf; rewrite !length_app, length_take, length_drop; lia).
  assert (send_inv tsn0 log q1) as Hq1.
  { destruct H as [I1 I2 I3 I4 I5 I6 I6f I7]. constructor; try done; [cbn; congruence|]. intros k Hk.
    destruct (I7 k Hk) as (e & He & Hr & Ho & Hle & Hg). exists e. split; [done|]. split; [done|]. cbn [q1 set_sbuf send_buf_used].
    split; [lia|]. split; [done|]. change (sq_count q1) with (sq_count q). rewrite Hg. f_equal. unfold chunk_of. cbn [q1 set_sbuf send_buf]. f_equal.
    apply content_ext. intros m Hm. unfold buf. rewrite lookup_app_l by (rewrite length_take; lia). by rewrite lookup_take_lt by lia. }
  destruct (queue_fragments_Ok tsn0 sid ssn ppid unordered (fragment_count (length data)) (fragment_count (length data)) log q1 0%nat (send_buf_used q) data Hq1)
    as (q' & -> & Hq' & _).
  - done.
  - cbn. lia.
  - cbn [q1 set_sbuf send_buf]. unfold buf. rewrite drop_app_length' by (rewrite length_take; lia). apply take_app_length.
  - by exists q'.
Qed.
