(* ===== verification/SctpSack.v ===== *)
(** A SACK from the receiver's table to the sender's queue: what
    [nsctp_encode_sack_with_gaps] writes, read back by [nsctp_parse_sack], the
    block check and [nsctp_gap_acked] of the peer ([src/nano_sctp.c]). *)

From Stdlib Require Import ZArith Lia.
From stdpp Require Import base list numbers.
From S2P Require Import Prelude Wire SctpCodec SctpSend.

Local Open Scope Z_scope.

(** * The octets of a SACK *)

Definition block_octets (bs : list (Z * Z)) : list Z := concat (map (fun b => be16 b.1 ++ be16 b.2) bs).
Definition sack_head (cum rwnd : Z) (nblocks : nat) : list Z :=
  [SCTP_CHUNK_SACK; 0] ++ be16 (Z.of_nat (16 + 4 * nblocks)) ++ be32 cum ++ be32 rwnd ++ be16 (Z.of_nat nblocks) ++ be16 0.
Definition sack_chunk (cum rwnd : Z) (bs : list (Z * Z)) : list Z := sack_head cum rwnd (length bs) ++ block_octets bs.
Lemma block_octets_cons b bs : block_octets (b :: bs) = be16 b.1 ++ be16 b.2 ++ block_octets bs.
Proof. unfold block_octets. cbn [map concat]. by rewrite <- app_assoc. Qed.
Lemma block_octets_app a b : block_octets (a ++ b) = block_octets a ++ block_octets b.
Proof. unfold block_octets. by rewrite map_app, concat_app. Qed.
Lemma block_octets_length bs : length (block_octets bs) = (4 * length bs)%nat.
Proof. induction bs as [|b bs IH]; [done|]. rewrite block_octets_cons, !length_app, IH. cbn. lia. Qed.
Lemma sack_chunk_length cum rwnd bs : length (sack_chunk cum rwnd bs) = (16 + 4 * length bs)%nat.
Proof. unfold sack_chunk. rewrite length_app, block_octets_length. done. Qed.

Lemma encode_head_spec buf clen cum rwnd nb : (16 <= length buf)%nat ->
  encode_sack_head buf clen cum rwnd nb =
  Ok ([SCTP_CHUNK_SACK; 0] ++ be16 (u16 (Z.of_nat clen)) ++ be32 cum ++ be32 rwnd ++ be16 nb ++ be16 0 ++ drop 16 buf).
Proof.
  intros H. unfold encode_sack_head, nanortc_write_u16be, nanortc_write_u32be. rewrite !wr_then by done. rewrite <- !app_assoc. cbn [app].
  rewrite (wr_last buf 0 14) by done. rewrite wr_0 by (cbn; lia). by rewrite <- !app_assoc.
Qed.
Lemma write_blocks_spec bs : forall pre rest, (4 * length bs <= length rest)%nat ->
  write_blocks (pre ++ rest) (length pre) bs = Ok (pre ++ block_octets bs ++ drop (4 * length bs) rest).
Proof.
  induction bs as [|[a b] bs IH]; intros pre rest H; cbn [write_blocks length] in *; [done|].
  unfold nanortc_write_u16be. rewrite wr_append by (cbn; lia). rewrite bind_Ok.
  rewrite wr_append by (rewrite ?length_app, ?length_drop; cbn; lia). rewrite bind_Ok.
  replace (length pre + 4)%nat with (length ((pre ++ be16 a) ++ be16 b)) by (rewrite !length_app; cbn; lia).
  rewrite drop_drop, IH by (rewrite length_drop; change (length (be16 a) + length (be16 b))%nat with 4%nat; lia).
  rewrite drop_drop, block_octets_cons, <- !app_assoc. do 6 f_equal. cbn. lia.
Qed.
Lemma be16_u16 v : be16 (u16 v) = be16 v.
Proof. unfold be16. rewrite !Z.shiftr_div_pow2 by lia. f_equal; [|f_equal]; mach. Qed.
(** The TSNs beyond the cumulative one. *)
Definition beyond (cum : Z) (tsns : list Z) : list Z := filter (fun t => 0 < i32 (t - cum)) tsns.
Lemma encode_sack_spec buf cum rwnd tsns (bs := gap_blocks (gap_sort (beyond cum tsns)) cum []) : (16 + 4 * length bs <= length buf)%nat ->
  nsctp_encode_sack_with_gaps buf cum rwnd tsns = Ok (sack_chunk cum rwnd bs ++ drop (16 + 4 * length bs) buf, (16 + 4 * length bs)%nat).
Proof.
  intros H. unfold nsctp_encode_sack_with_gaps. rewrite (proj2 (Nat.ltb_ge _ _)) by lia. cbv zeta.
  assert (filter (fun tsn => (i32 (tsn - cum) >? 0) = true) tsns = beyond cum tsns) as ->.
  { apply list_filter_iff. intros x. rewrite Z.gtb_lt. done. }
  fold bs. unfold sack_chunk, sack_head. destruct (Nat.eqb_spec (length (beyond cum tsns)) 0) as [E|E].
  - assert (bs = []) as Hbs by (unfold bs; by destruct (beyond cum tsns)). rewrite Hbs in *. cbn [length] in *.
    unfold nsctp_encode_sack. rewrite encode_head_spec, bind_Ok by lia. cbn [block_octets map concat]. rewrite app_nil_r. by rewrite <- !app_assoc.
  - unfold SCTP_CHUNK_HDR_SIZE, SCTP_SACK_MIN_SIZE. rewrite (proj2 (Nat.ltb_ge _ _)) by lia. rewrite encode_head_spec, bind_Ok by lia.
    replace (4 + 12 + length bs * 4)%nat with (16 + 4 * length bs)%nat by lia. rewrite be16_u16. fold (sack_head cum rwnd (length bs)).
    match goal with |- context [write_blocks ?b 16 bs] => replace b with (sack_head cum rwnd (length bs) ++ drop 16 buf) by (unfold sack_head; by rewrite <- !app_assoc) end.
    pose proof (write_blocks_spec bs (sack_head cum rwnd (length bs)) (drop 16 buf) ltac:(rewrite length_drop; lia)) as E1.
    change (length (sack_head cum rwnd (length bs))) with 16%nat in E1. rewrite E1, bind_Ok.
    rewrite drop_drop, <- app_assoc. done.
Qed.

(** * Reading it back *)

Lemma blocks_u16 l prev b : blocks_ok prev l -> 0 <= prev -> b ∈ l -> is_u16 b.1 /\ is_u16 b.2.
Proof.
  intros H. induction H as [|prev c l Hc Hm _ IH]; intros Hp; [by intros ?%elem_of_nil|]. intros [->|Hb]%elem_of_cons; [unfold is_u16; lia|]. apply IH; [lia | done].
Qed.
Section Read.
Context (cum rwnd : Z) (bs : list (Z * Z)).
Context (Hcum : is_u32 cum) (Hrwnd : is_u32 rwnd) (Hblocks : blocks_ok 0 bs) (Hcount : (length bs <= NANORTC_SCTP_MAX_GAP_BLOCKS)%nat).

Lemma parse_sack_chunk : nsctp_parse_sack (sack_chunk cum rwnd bs) = Ok (NsctpSack cum rwnd (Z.of_nat (length bs)) 0).
Proof using Hcum Hrwnd Hcount.
  unfold NANORTC_SCTP_MAX_GAP_BLOCKS in Hcount. unfold nsctp_parse_sack, SCTP_CHUNK_HDR_SIZE, SCTP_SACK_MIN_SIZE. rewrite sack_chunk_length, (proj2 (Nat.ltb_ge _ _)) by lia.
  unfold sack_chunk, sack_head.
  assert (nanortc_read_u32be (sack_chunk cum rwnd bs) 4 = Ok cum) as E1 by (by apply read32_field).
  assert (nanortc_read_u32be (sack_chunk cum rwnd bs) (4 + 4) = Ok rwnd) as E2 by (by apply read32_field).
  assert (nanortc_read_u16be (sack_chunk cum rwnd bs) (4 + 8) = Ok (Z.of_nat (length bs))) as E3 by (apply read16_field; [done.. | unfold is_u16; lia]).
  assert (nanortc_read_u16be (sack_chunk cum rwnd bs) (4 + 10) = Ok 0) as E4 by (by apply read16_field).
  unfold sack_chunk, sack_head in E1, E2, E3, E4. by rewrite E1, E2, E3, E4.
Qed.
Lemma read_block l1 b l2 : bs = l1 ++ b :: l2 -> nanortc_read_u16be (sack_chunk cum rwnd bs) (16 + 4 * length l1) = Ok b.1 /\
  nanortc_read_u16be (sack_chunk cum rwnd bs) (16 + 4 * length l1 + 2) = Ok b.2.
Proof using Hblocks Hcount.
  intros E. destruct (blocks_u16 bs 0 b Hblocks ltac:(lia)) as [H1 H2]; [rewrite E; apply elem_of_app; right; by left|].
  assert (forall n, length (sack_head cum rwnd n) = 16%nat) as Hh by done. unfold sack_chunk. rewrite E at 2 4. rewrite block_octets_app, block_octets_cons, !app_assoc. split.
  - rewrite <- (app_assoc _ (be16 b.2)), <- (app_assoc _ (be16 b.1)). rewrite read_u16be_app by (rewrite length_app, Hh, block_octets_length; lia). by rewrite u16_id.
  - rewrite <- (app_assoc _ (be16 b.2)). rewrite read_u16be_app by (rewrite !length_app, Hh, block_octets_length; cbn; lia). by rewrite u16_id.
Qed.
#[local] Instance covers_dec l o : Decision (covers l o).
Proof. unfold covers. apply _. Defined.
Lemma gap_acked_from_spec o l2 : forall l1, bs = l1 ++ l2 -> gap_acked_from (sack_chunk cum rwnd bs) (length l1) (length l2) o = Ok (bool_decide (covers l2 o)).
Proof using Hblocks Hcount.
  induction l2 as [|b l2 IH]; intros l1 E; cbn [length gap_acked_from].
  { rewrite bool_decide_eq_false_2; [done|]. by intros H%Exists_nil. }
  unfold SCTP_CHUNK_HDR_SIZE, SCTP_SACK_MIN_SIZE. change (4 + 12)%nat with 16%nat. destruct (read_block l1 b l2 E) as [-> E2]. rewrite bind_Ok, E2.
  assert ((if b.1 <=? o then Ok b.2 else Ok 0) = Ok (if b.1 <=? o then b.2 else 0)) as -> by (by destruct (b.1 <=? o)). rewrite bind_Ok.
  specialize (IH (l1 ++ [b])). rewrite length_app, Nat.add_1_r, <- app_assoc in IH. specialize (IH E).
  assert (covers (b :: l2) o <-> b.1 <= o <= b.2 \/ covers l2 o) as Hc by (apply Exists_cons).
  destruct (Z.leb_spec b.1 o); cbn [andb]; [destruct (Z.leb_spec o b.2)|].
  - rewrite bool_decide_eq_true_2; [done | apply Hc; left; lia].
  - rewrite IH. f_equal. apply bool_decide_ext. rewrite Hc. split; [by right | intros [|]; [lia | done]].
  - rewrite IH. f_equal. apply bool_decide_ext. rewrite Hc. split; [by right | intros [|]; [lia | done]].
Qed.
Lemma check_gaps_spec l2 : forall l1 prev, bs = l1 ++ l2 -> blocks_ok prev l2 -> check_gaps (sack_chunk cum rwnd bs) (length l1) (length l2) prev = Ok true.
Proof using Hblocks Hcount.
  induction l2 as [|b l2 IH]; intros l1 prev E Hok; cbn [length check_gaps]; [done|]. inversion Hok as [|? ? ? Hb Hm Hrest]; subst prev0 b0 bs0.
  unfold SCTP_CHUNK_HDR_SIZE, SCTP_SACK_MIN_SIZE. change (4 + 12)%nat with 16%nat. destruct (read_block l1 b l2 E) as [-> ->]. rewrite !bind_Ok.
  rewrite (proj2 (Z.leb_gt _ _)), (proj2 (Z.ltb_ge _ _)) by lia. cbn [orb].
  specialize (IH (l1 ++ [b]) b.2). rewrite length_app, Nat.add_1_r, <- app_assoc in IH. by apply IH.
Qed.
End Read.

(** * The sender's view *)

Lemma ahead_i32 cum t : 0 < i32 (t - cum) -> ahead cum t = i32 (t - cum).
Proof. unfold ahead, i32. intros H. destruct (Z.ltb_spec ((t - cum) mod 2 ^ 32) (2 ^ 31)); mach. Qed.
Lemma ahead_near cum t : near cum t -> i32 (t - cum) = ahead cum t.
Proof.
  unfold near, ahead. intros H. unfold i32. change ((t - cum) mod 2 ^ 32) with (u32 (t - cum)).
  rewrite (proj2 (Z.ltb_lt _ _)); [done|]. change (2 ^ 31) with 2147483648. lia.
Qed.

(** C24: a receiver's SACK, read by the sender, tells it exactly what arrived: the
    chunk [nsctp_encode_sack_with_gaps] writes parses to the cumulative TSN and
    the window, its blocks pass the sender's check of their order, and
    [nsctp_gap_acked] takes a TSN for acknowledged exactly when it is one of the
    held TSNs beyond the cumulative one that the blocks report: all of them, or
    with four blocks in use the nearest.  Held TSNs are distinct and at most 65535
    beyond the cumulative one, the reach of a block's 16-bit offset. *)
Theorem sack_tells_held (buf : list Z) (cum rwnd : Z) (tsns : list Z) :
  (16 + 4 * NANORTC_SCTP_MAX_GAP_BLOCKS <= length buf)%nat -> is_u32 cum -> is_u32 rwnd ->
  NoDup tsns -> Forall is_u32 tsns -> Forall (fun t => i32 (t - cum) <= 65535) tsns ->
  exists buf' n blocks acked dropped, nsctp_encode_sack_with_gaps buf cum rwnd tsns = Ok (buf', n) /\
    nsctp_parse_sack (take n buf') = Ok (NsctpSack cum rwnd (Z.of_nat blocks) 0) /\ n = (16 + 4 * blocks)%nat /\ (blocks <= NANORTC_SCTP_MAX_GAP_BLOCKS)%nat /\
    check_gaps (take n buf') 0 blocks 0 = Ok true /\
    Permutation (filter (fun t => 0 < i32 (t - cum)) tsns) (acked ++ dropped) /\
    (forall t, is_u32 t -> nsctp_gap_acked (take n buf') blocks (i32 (t - cum)) = Ok (bool_decide (t ∈ acked))) /\
    (forall x y, x ∈ acked -> y ∈ dropped -> i32 (x - cum) < i32 (y - cum)) /\
    (dropped <> [] -> blocks = NANORTC_SCTP_MAX_GAP_BLOCKS).
Proof.
  intros Hbuf Hcum Hrwnd Hd Hu Hreach. fold (beyond cum tsns). set (bs := gap_blocks (gap_sort (beyond cum tsns)) cum []).
  assert (forall t, t ∈ beyond cum tsns -> 0 < i32 (t - cum) /\ is_u32 t /\ near cum t) as Hin.
  { intros t [Hp Ht]%list_elem_of_filter. split; [done|]. pose proof (proj1 (list.Forall_forall _ _) Hreach t Ht) as Hr. split; [exact (proj1 (list.Forall_forall _ _) Hu t Ht)|]. cbn in Hr.
    unfold near. rewrite ahead_i32 by done. lia. }
  destruct (gap_sack_exact cum (beyond cum tsns)) as (acked & dropped & Hp & Hcov & Hnear & Hok & Hfull);
    [apply list.Forall_forall; intros t Ht; apply (Hin t Ht) | by apply list.NoDup_filter | apply list.Forall_forall; intros t Ht; apply (Hin t Ht)|]. fold bs in Hcov, Hok, Hfull.
  assert (length bs <= NANORTC_SCTP_MAX_GAP_BLOCKS)%nat as Hcount by (apply gap_blocks_length; cbn; lia).
  assert (forall t, t ∈ acked \/ t ∈ dropped -> 0 < i32 (t - cum) /\ is_u32 t /\ near cum t) as Hall by (intros t Ht; apply Hin; by rewrite Hp, elem_of_app).
  eexists _, _, (length bs), acked, dropped. split; [apply encode_sack_spec; fold bs; lia|]. fold bs. rewrite take_app_length' by (by rewrite sack_chunk_length).
  split; [by apply parse_sack_chunk|]. split; [done|]. split; [done|]. split; [by apply (check_gaps_spec cum rwnd bs Hok Hcount bs [])|]. split; [done|]. split; [|split; [|exact Hfull]].
  - intros t Ht. unfold nsctp_gap_acked. destruct (Z.leb_spec (i32 (t - cum)) 0) as [Hle|Hgt]; cbn [orb].
    { rewrite bool_decide_eq_false_2; [done|]. intros Ha. destruct (Hall t (or_introl Ha)). lia. }
    destruct (Z.ltb_spec UINT16_MAX (i32 (t - cum))) as [Hbig|Hsmall].
    { rewrite bool_decide_eq_false_2; [done|]. intros Ha. destruct (Hall t (or_introl Ha)) as (_ & _ & Hn). rewrite (ahead_near _ _ Hn) in Hbig. unfold near, UINT16_MAX in *. lia. }
    transitivity (Ok (bool_decide (covers bs (i32 (t - cum))))); [by apply (gap_acked_from_spec cum rwnd bs Hok Hcount (i32 (t - cum)) bs [])|]. f_equal. apply bool_decide_ext. rewrite Hcov, <- (ahead_i32 cum t Hgt). split.
    + intros (x & Hx & Hxa)%list_elem_of_fmap. destruct (Hall x (or_introl Hxa)) as (_ & Hxu & _). by rewrite (near_ahead_inj cum t x Ht Hxu Hx).
    + intros Ha. by apply list_elem_of_fmap_2.
  - intros x y Hx Hy. destruct (Hall x (or_introl Hx)) as (_ & _ & Hxn). destruct (Hall y (or_intror Hy)) as (_ & _ & Hyn). rewrite !ahead_near by done. by apply Hnear.
Qed.
(** TSNs around the 32-bit wrap, out of order, one before the cumulative TSN. *)
Definition demo_held : list Z := [3; 4294967290; 4294967295; 2; 0; 6].
Lemma sack_tells_held_witness :
  nsctp_encode_sack_with_gaps (replicate 32 0) 4294967293 1000 demo_held =
    Ok ([SCTP_CHUNK_SACK; 0] ++ be16 28 ++ be32 4294967293 ++ be32 1000 ++ be16 3 ++ be16 0 ++ be16 2 ++ be16 3 ++ be16 5 ++ be16 6 ++ be16 9 ++ be16 9 ++ replicate 4 0, 28%nat) /\
  exists buf' n blocks acked dropped, nsctp_encode_sack_with_gaps (replicate 32 0) 4294967293 1000 demo_held = Ok (buf', n) /\
    nsctp_parse_sack (take n buf') = Ok (NsctpSack 4294967293 1000 (Z.of_nat blocks) 0) /\ n = (16 + 4 * blocks)%nat /\ (blocks <= NANORTC_SCTP_MAX_GAP_BLOCKS)%nat /\
    check_gaps (take n buf') 0 blocks 0 = Ok true /\
    Permutation (filter (fun t => 0 < i32 (t - 4294967293)) demo_held) (acked ++ dropped) /\
    (forall t, is_u32 t -> nsctp_gap_acked (take n buf') blocks (i32 (t - 4294967293)) = Ok (bool_decide (t ∈ acked))) /\
    (forall x y, x ∈ acked -> y ∈ dropped -> i32 (x - 4294967293) < i32 (y - 4294967293)) /\
    (dropped <> [] -> blocks = NANORTC_SCTP_MAX_GAP_BLOCKS).
Proof.
  split; [vm_compute; reflexivity|].
  apply sack_tells_held; [apply Nat.leb_le; vm_compute; reflexivity | by apply (bool_decide_eq_true_1 _) | by apply (bool_decide_eq_true_1 _) | by apply (bool_decide_eq_true_1 _) | by apply (bool_decide_eq_true_1 _) |
    by apply (bool_decide_eq_true_1 _)].
Defined.
