(* ===== verification/Sctp.v ===== *)
(** The association of [src/nano_sctp.c]: the handshake, the dispatch over the
    chunks of a packet, acknowledgement, the output ring, sending and the
    timers, over the receive half ([SctpRecv]) and the send half ([SctpSend]).
    Randomness comes from the crypto provider: [random_bytes] threads its own
    state and fails with [None]. *)

From Stdlib Require Import ZArith Lia.
From stdpp Require Import base list numbers.
From S2P Require Import Prelude Wire Crc SctpCodec SctpRecv SctpSend.

Local Open Scope Z_scope.

Definition NANORTC_SCTP_RECV_BUF_SIZE : Z := 4096.
Definition NANORTC_SCTP_COOKIE_SIZE : nat := 32.
Definition NANORTC_SCTP_HEARTBEAT_INTERVAL_MS : Z := 30000.
Definition NANORTC_SCTP_OUT_QUEUE_SIZE : nat := 4.
Definition NSCTP_MAX_SACK_SIZE : nat := 16 + 4 * NANORTC_SCTP_MAX_GAP_BLOCKS.
Definition NSCTP_NONCE_SIZE : nat := 8.
Definition NSCTP_SECRET_SIZE : nat := 16.

Inductive sctp_state : Type :=
| NANORTC_SCTP_STATE_CLOSED
| NANORTC_SCTP_STATE_COOKIE_WAIT
| NANORTC_SCTP_STATE_COOKIE_ECHOED
| NANORTC_SCTP_STATE_ESTABLISHED
| NANORTC_SCTP_STATE_SHUTDOWN_PENDING
| NANORTC_SCTP_STATE_SHUTDOWN_SENT.
#[global] Instance sctp_state_eq_dec : EqDecision sctp_state.
Proof. solve_decision. Defined.

(** The parameters of the peer, in INIT and INIT-ACK. *)
Record peer_params : Type := PeerParams {
  remote_vtag : Z; peer_initial_tsn : Z; peer_a_rwnd : Z; peer_forward_tsn : bool; peer_num_istreams : Z; peer_num_ostreams : Z
}.
Record heartbeat : Type := Heartbeat { last_heartbeat_ms : Z; heartbeat_pending : bool; heartbeat_nonce : list Z }.
Record cookies : Type := Cookies { ck_cookie : list Z; ck_len : nat; ck_secret : list Z }.
(** The ring of assembled packets. *)
Record outq : Type := OutQ { out_bufs : list (list Z); out_lens : list nat; out_head : Z; out_tail : Z }.

(** [nano_sctp_t], its fields grouped. *)
Record sctp : Type := Sctp {
  sc_state : sctp_state; closed_due_to_failure : bool; local_vtag : Z; local_port : Z; remote_port : Z;
  peer : peer_params; now_ms : Z; peer_max_message_size : Z; rx : sctp_rx; sq : sendq; hb : heartbeat; ck : cookies; out : outq; has_crypto : bool
}.
Definition with_state s x := Sctp x (closed_due_to_failure s) (local_vtag s) (local_port s) (remote_port s) (peer s) (now_ms s) (peer_max_message_size s) (rx s) (sq s) (hb s) (ck s) (out s) (has_crypto s).
Definition with_failed s := Sctp NANORTC_SCTP_STATE_CLOSED true (local_vtag s) (local_port s) (remote_port s) (peer s) (now_ms s) (peer_max_message_size s) (rx s) (sq s) (hb s) (ck s) (out s) (has_crypto s).
Definition with_local s tag tsn secret := Sctp (sc_state s) (closed_due_to_failure s) tag (local_port s) (remote_port s) (peer s) (now_ms s) (peer_max_message_size s) (rx s) (set_next_tsn (sq s) tsn) (hb s) (Cookies (ck_cookie (ck s)) (ck_len (ck s)) secret) (out s) (has_crypto s).
Definition with_peer s p cum := Sctp (sc_state s) (closed_due_to_failure s) (local_vtag s) (local_port s) (remote_port s) p (now_ms s) (peer_max_message_size s) (set_cumulative (rx s) cum) (sq s) (hb s) (ck s) (out s) (has_crypto s).
Definition with_cookie s c n := Sctp (sc_state s) (closed_due_to_failure s) (local_vtag s) (local_port s) (remote_port s) (peer s) (now_ms s) (peer_max_message_size s) (rx s) (sq s) (hb s) (Cookies c n (ck_secret (ck s))) (out s) (has_crypto s).
Definition with_now s x := Sctp (sc_state s) (closed_due_to_failure s) (local_vtag s) (local_port s) (remote_port s) (peer s) x (peer_max_message_size s) (rx s) (sq s) (hb s) (ck s) (out s) (has_crypto s).
Definition with_rx s x := Sctp (sc_state s) (closed_due_to_failure s) (local_vtag s) (local_port s) (remote_port s) (peer s) (now_ms s) (peer_max_message_size s) x (sq s) (hb s) (ck s) (out s) (has_crypto s).
Definition with_sq s x := Sctp (sc_state s) (closed_due_to_failure s) (local_vtag s) (local_port s) (remote_port s) (peer s) (now_ms s) (peer_max_message_size s) (rx s) x (hb s) (ck s) (out s) (has_crypto s).
Definition with_hb s x := Sctp (sc_state s) (closed_due_to_failure s) (local_vtag s) (local_port s) (remote_port s) (peer s) (now_ms s) (peer_max_message_size s) (rx s) (sq s) x (ck s) (out s) (has_crypto s).
Definition with_out s x := Sctp (sc_state s) (closed_due_to_failure s) (local_vtag s) (local_port s) (remote_port s) (peer s) (now_ms s) (peer_max_message_size s) (rx s) (sq s) (hb s) (ck s) x (has_crypto s).

(** [nsctp_init], the crypto provider given by the caller afterwards. *)
Definition nsctp_init_state (crypto : bool) : sctp :=
  Sctp NANORTC_SCTP_STATE_CLOSED false 0 5000 5000 (PeerParams 0 0 0 false 0 0) 0 0 rx_init sendq_init
    (Heartbeat 0 false (replicate NSCTP_NONCE_SIZE 0)) (Cookies (replicate NANORTC_SCTP_COOKIE_SIZE 0) 0 (replicate NSCTP_SECRET_SIZE 0))
    (OutQ (replicate NANORTC_SCTP_OUT_QUEUE_SIZE (replicate NANORTC_SCTP_MTU 0)) (replicate NANORTC_SCTP_OUT_QUEUE_SIZE 0%nat) 0 0) crypto.

(** * The output ring *)

Definition nsctp_out_full (s : sctp) : bool := Z.of_nat NANORTC_SCTP_OUT_QUEUE_SIZE <=? u8 (out_tail (out s) - out_head (out s)).
Definition ring_slot (i : Z) : nat := Z.to_nat (Z.land i 3).
Definition nsctp_out_write_buf (s : sctp) : res (list Z) :=
  match out_bufs (out s) !! ring_slot (out_tail (out s)) with Some b => Ok b | None => Fault end.
Definition store_out (s : sctp) (buf : list Z) : sctp :=
  with_out s (OutQ (<[ring_slot (out_tail (out s)) := buf]> (out_bufs (out s))) (out_lens (out s)) (out_head (out s)) (out_tail (out s))).
Definition nsctp_queue_output (s : sctp) (len : nat) : res sctp :=
  if nsctp_out_full s then Ok s else
  let padded := SCTP_PAD4 len in
  if (NANORTC_SCTP_MTU <? padded)%nat || (len <? SCTP_HEADER_SIZE)%nat then Ok s else
  let idx := ring_slot (out_tail (out s)) in
  buf ← nsctp_out_write_buf s;
  buf ← nsctp_finalize_checksum buf padded;
  Ok (with_out s (OutQ (<[idx := buf]> (out_bufs (out s))) (<[idx := padded]> (out_lens (out s))) (out_head (out s)) (u8 (out_tail (out s) + 1)))).
(** [nsctp_begin_packet], an encoder at the cursor, [nsctp_queue_output]: how
    every handler but the SACK's builds its packet. *)
Definition nsctp_begin_packet (s : sctp) (vtag : Z) : res (list Z * nat) :=
  buf ← nsctp_out_write_buf s; nsctp_encode_header buf (local_port s) (remote_port s) vtag.
Definition send_chunk (s : sctp) (vtag : Z) (encode : list Z -> res (list Z * nat)) : res sctp :=
  '(buf, pos) ← nsctp_begin_packet s vtag;
  '(rest, n) ← encode (drop pos buf);
  nsctp_queue_output (store_out s (take pos buf ++ rest)) (pos + n).

Section Random.
Context {R : Type} (random_bytes : R -> nat -> R * option (list Z)).

(** Four octets of memory read as a [uint32_t] on a little-endian host. *)
Definition le_u32 (b : list Z) : Z := nth 0 b 0 + 256 * (nth 1 b 0 + 256 * (nth 2 b 0 + 256 * nth 3 b 0)).
Definition nsctp_generate_association_seed (s : sctp) (g : R) : R * option (Z * Z * list Z) :=
  if negb (has_crypto s) then (g, None) else
  match random_bytes g 4 with
  | (g, None) => (g, None)
  | (g, Some vtag) =>
      match random_bytes g 4 with
      | (g, None) => (g, None)
      | (g, Some tsn) =>
          match random_bytes g NSCTP_SECRET_SIZE with
          | (g, None) => (g, None)
          | (g, Some secret) =>
              let vtag := le_u32 vtag in let tsn := le_u32 tsn in
              (g, Some (if vtag =? 0 then 1 else vtag, if tsn =? 0 then 1 else tsn, secret))
          end
      end
  end.

(** * Handshake *)

Definition nsctp_start (s : sctp) (g : R) : res (sctp * R * Z) :=
  if negb (has_crypto s) then Ok (s, g, NANORTC_ERR_INVALID_PARAM) else
  if negb (bool_decide (sc_state s = NANORTC_SCTP_STATE_CLOSED)) then Ok (s, g, NANORTC_ERR_STATE) else
  if nsctp_out_full s then Ok (s, g, NANORTC_ERR_WOULD_BLOCK) else
  match nsctp_generate_association_seed s g with
  | (g, None) => Ok (s, g, NANORTC_ERR_CRYPTO)
  | (g, Some (tag, tsn, secret)) =>
      let s := with_local s tag tsn secret in
      s ← send_chunk s 0 (fun buf => nsctp_encode_init buf SCTP_CHUNK_INIT tag NANORTC_SCTP_RECV_BUF_SIZE 0xFFFF 0xFFFF tsn []);
      Ok (with_state s NANORTC_SCTP_STATE_COOKIE_WAIT, g, NANORTC_OK)
  end.

(** The first eight octets of the secret with the peer's tag mixed in. *)
Definition cookie_for (secret : list Z) (tag : Z) : list Z :=
  zip_with Z.lxor (take 4 secret) (be32 tag) ++ take 4 (drop 4 secret).
Definition nsctp_handle_init (s : sctp) (g : R) (chunk : list Z) : res (sctp * R * Z) :=
  match nsctp_parse_init chunk with
  | Fault => Fault
  | Err _ => Ok (s, g, NANORTC_ERR_PARSE)
  | Ok init =>
      match (if local_vtag s =? 0 then nsctp_generate_association_seed s g
             else (g, Some (local_vtag s, next_tsn (sq s), ck_secret (ck s)))) with
      | (g, None) => Ok (s, g, NANORTC_ERR_CRYPTO)
      | (g, Some (tag, tsn, secret)) =>
          let s := with_local s tag tsn secret in
          let s := with_peer s (PeerParams (i_initiate_tag init) (i_initial_tsn init) (i_a_rwnd init) (i_forward_tsn_supported init)
                                  (i_num_istreams init) (i_num_ostreams init)) (u32 (i_initial_tsn init - 1)) in
          s ← send_chunk s (remote_vtag (peer s)) (fun buf =>
                nsctp_encode_init buf SCTP_CHUNK_INIT_ACK tag NANORTC_SCTP_RECV_BUF_SIZE 0xFFFF 0xFFFF tsn (cookie_for secret (i_initiate_tag init)));
          Ok (s, g, NANORTC_OK)
      end
  end.

Definition nsctp_handle_init_ack (s : sctp) (chunk : list Z) : res (sctp * Z) :=
  if negb (bool_decide (sc_state s = NANORTC_SCTP_STATE_COOKIE_WAIT)) then Ok (s, NANORTC_ERR_STATE) else
  match nsctp_parse_init chunk with
  | Fault => Fault
  | Err _ => Ok (s, NANORTC_ERR_PARSE)
  | Ok init =>
      match i_cookie init with
      | None => Ok (s, NANORTC_ERR_PROTOCOL)
      | Some c =>
          if (length c =? 0)%nat || (NANORTC_SCTP_COOKIE_SIZE <? length c)%nat then Ok (s, NANORTC_ERR_PROTOCOL) else
          let p := peer s in
          let s := with_peer s (PeerParams (i_initiate_tag init) (i_initial_tsn init) (i_a_rwnd init) (i_forward_tsn_supported init)
                                  (peer_num_istreams p) (peer_num_ostreams p)) (u32 (i_initial_tsn init - 1)) in
          stored ← wr (ck_cookie (ck s)) 0 c;
          let s := with_cookie s stored (length c) in
          echo ← rdn stored 0 (length c);
          s ← send_chunk s (remote_vtag (peer s)) (fun buf => nsctp_encode_cookie_echo buf echo);
          Ok (with_state s NANORTC_SCTP_STATE_COOKIE_ECHOED, NANORTC_OK)
      end
  end.
Definition nsctp_handle_cookie_echo (s : sctp) (chunk : list Z) : res (sctp * Z) :=
  let chunk_body_len := (length chunk - SCTP_CHUNK_HDR_SIZE)%nat in
  if (chunk_body_len <? 8)%nat then Ok (s, NANORTC_ERR_PROTOCOL) else
  received ← rdn chunk SCTP_CHUNK_HDR_SIZE 8;
  if negb (bool_decide (received = cookie_for (ck_secret (ck s)) (remote_vtag (peer s)))) then Ok (s, NANORTC_ERR_PROTOCOL) else
  s ← send_chunk s (remote_vtag (peer s)) nsctp_encode_cookie_ack;
  Ok (with_state s NANORTC_SCTP_STATE_ESTABLISHED, NANORTC_OK).
Definition nsctp_handle_cookie_ack (s : sctp) : sctp * Z :=
  if negb (bool_decide (sc_state s = NANORTC_SCTP_STATE_COOKIE_ECHOED)) then (s, NANORTC_ERR_STATE)
  else (with_state s NANORTC_SCTP_STATE_ESTABLISHED, NANORTC_OK).

(** * Chunks of an established association *)

Definition nsctp_handle_data_chunk (s : sctp) (chunk : list Z) : res (sctp * Z) :=
  if negb (bool_decide (sc_state s = NANORTC_SCTP_STATE_ESTABLISHED)) then Ok (s, NANORTC_ERR_STATE) else
  '(r, rc) ← rx_data_chunk (rx s) chunk; Ok (with_rx s r, rc).
Definition handle_sack_chunk (s : sctp) (chunk : list Z) : res (sctp * Z) :=
  '(q, rc) ← nsctp_handle_sack_chunk (sq s) chunk; Ok (with_sq s q, rc).
Definition nsctp_handle_heartbeat (s : sctp) (chunk : list Z) : res (sctp * Z) :=
  let clen := length chunk in
  if (clen <? 8)%nat then Ok (s, NANORTC_ERR_PARSE) else
  param_len ← nanortc_read_u16be chunk 6;
  let info_len := if 4 <=? param_len then Z.to_nat (param_len - 4) else 0%nat in
  if (clen <? 8 + info_len)%nat then Ok (s, NANORTC_ERR_PARSE) else
  if nsctp_out_full s then Ok (s, NANORTC_ERR_WOULD_BLOCK) else
  if (NANORTC_SCTP_MTU - SCTP_HEADER_SIZE <? SCTP_PAD4 (8 + info_len))%nat then Ok (s, NANORTC_ERR_BUFFER_TOO_SMALL) else
  info ← rdn chunk 8 info_len;
  s ← send_chunk s (remote_vtag (peer s)) (fun buf => nsctp_encode_heartbeat_ack buf info);
  Ok (s, NANORTC_OK).
Definition nsctp_handle_heartbeat_ack (s : sctp) : sctp * Z :=
  (with_hb s (Heartbeat (last_heartbeat_ms (hb s)) false (heartbeat_nonce (hb s))), NANORTC_OK).
Definition nsctp_handle_forward_tsn (s : sctp) (chunk : list Z) : res (sctp * Z) :=
  '(r, rc) ← rx_forward_tsn (rx s) (peer_forward_tsn (peer s)) chunk; Ok (with_rx s r, rc).

(** The chunk of [NSCTP_MAX_SACK_SIZE] octets on the stack is uninitialised: its
    prefix written by the encoder alone is used. *)
Definition nsctp_queue_sack (s : sctp) (cap : nat) : res (sctp * Z) :=
  if nsctp_out_full s then Ok (s, NANORTC_ERR_WOULD_BLOCK) else
  let a_rwnd := u32 (Z.of_nat NANORTC_SCTP_RECV_GAP_BUF_SIZE - Z.of_nat (recv_gap_buf_used (rx s))) in
  '(chunk, n) ← nsctp_encode_sack_with_gaps (replicate NSCTP_MAX_SACK_SIZE 0) (cumulative_tsn (rx s)) a_rwnd (held_tsns (rx s));
  if (n =? 0)%nat || (cap <? SCTP_HEADER_SIZE + n)%nat then Ok (s, NANORTC_ERR_BUFFER_TOO_SMALL) else
  '(buf, _) ← nsctp_begin_packet s (remote_vtag (peer s));
  octets ← rdn chunk 0 n;
  buf ← wr buf SCTP_HEADER_SIZE octets;
  s ← nsctp_queue_output (store_out s buf) (SCTP_HEADER_SIZE + n);
  Ok (with_rx s (set_sack (rx s) false), NANORTC_OK).

(** * The dispatch over the chunks of a packet *)

Definition needs_output (ctype : Z) : bool :=
  (ctype =? SCTP_CHUNK_INIT) || (ctype =? SCTP_CHUNK_INIT_ACK) || (ctype =? SCTP_CHUNK_COOKIE_ECHO) || (ctype =? SCTP_CHUNK_HEARTBEAT).
Definition handle_chunk (s : sctp) (g : R) (ctype : Z) (chunk : list Z) : res (sctp * R * Z) :=
  let lift (m : res (sctp * Z)) := '(s, rc) ← m; Ok (s, g, rc) in
  if ctype =? SCTP_CHUNK_INIT then nsctp_handle_init s g chunk
  else if ctype =? SCTP_CHUNK_INIT_ACK then lift (nsctp_handle_init_ack s chunk)
  else if ctype =? SCTP_CHUNK_COOKIE_ECHO then lift (nsctp_handle_cookie_echo s chunk)
  else if ctype =? SCTP_CHUNK_COOKIE_ACK then lift (Ok (nsctp_handle_cookie_ack s))
  else if ctype =? SCTP_CHUNK_DATA then lift (nsctp_handle_data_chunk s chunk)
  else if ctype =? SCTP_CHUNK_SACK then lift (handle_sack_chunk s chunk)
  else if ctype =? SCTP_CHUNK_HEARTBEAT then lift (nsctp_handle_heartbeat s chunk)
  else if ctype =? SCTP_CHUNK_HEARTBEAT_ACK then lift (Ok (nsctp_handle_heartbeat_ack s))
  else if ctype =? SCTP_CHUNK_FORWARD_TSN then lift (nsctp_handle_forward_tsn s chunk)
  else if ctype =? SCTP_CHUNK_ABORT then Ok (with_state s NANORTC_SCTP_STATE_CLOSED, g, NANORTC_OK)
  else Ok (s, g, NANORTC_OK).
Fixpoint handle_chunks (fuel : nat) (s : sctp) (g : R) (data : list Z) (pos : nat) : res (sctp * R * Z) :=
  if (pos + SCTP_CHUNK_HDR_SIZE <=? length data)%nat then
    match fuel with
    | O => Fault
    | S fuel =>
        ctype ← rd8 data pos;
        clen ← nanortc_read_u16be data (pos + 2);
        let clen := Z.to_nat clen in
        if (clen <? SCTP_CHUNK_HDR_SIZE)%nat || (length data <? pos + clen)%nat then Ok (s, g, NANORTC_ERR_PARSE) else
        if needs_output ctype && nsctp_out_full s then Ok (s, g, NANORTC_ERR_WOULD_BLOCK) else
        chunk ← rdn data pos clen;
        '(s, g, rc) ← handle_chunk s g ctype chunk;
        if negb (rc =? NANORTC_OK) && negb ((ctype =? SCTP_CHUNK_DATA) && (rc =? NANORTC_ERR_WOULD_BLOCK)) then Ok (s, g, rc)
        else handle_chunks fuel s g data (pos + SCTP_PAD4 clen)
    end
  else
    if sack_needed (rx s) && negb (nsctp_out_full s)
    then '(s, rc) ← nsctp_queue_sack s NANORTC_SCTP_MTU; Ok (s, g, rc)
    else Ok (s, g, NANORTC_OK).
Definition nsctp_handle_data (s : sctp) (g : R) (data : list Z) : res (sctp * R * Z) :=
  if (length data <? SCTP_HEADER_SIZE)%nat then Ok (s, g, NANORTC_ERR_INVALID_PARAM) else
  rc ← nsctp_verify_checksum data;
  if negb (rc =? NANORTC_OK) then Ok (s, g, rc) else
  hdr ← nsctp_parse_header data;
  handle_chunks (length data) s g data SCTP_HEADER_SIZE.

(** * Output *)

Fixpoint write_streams (buf : list Z) (pos : nat) (streams : list (Z * Z)) : res (list Z) :=
  match streams with
  | [] => Ok buf
  | (sid, ssn) :: streams =>
      buf ← nanortc_write_u16be buf pos sid;
      buf ← nanortc_write_u16be buf (pos + 2) ssn;
      write_streams buf (pos + 4) streams
  end.
(** The state, the code, the caller's buffer and [*out_len] where it is set. *)
Definition nsctp_forward_output (s : sctp) (buf : list Z) : res (sctp * Z * list Z * option nat) :=
  '(streams, advanced, skipped) ← skipped_streams (sq s) (positions (sq s)) [] 0 false;
  if negb skipped then Ok (with_sq s (set_forward (sq s) (forward_sent_at_ms (sq s)) false), NANORTC_ERR_NO_DATA, buf, None) else
  let len := (20 + 4 * length streams)%nat in
  if (length buf <? len)%nat then Ok (s, NANORTC_ERR_BUFFER_TOO_SMALL, buf, None) else
  '(buf, _) ← nsctp_encode_header buf (local_port s) (remote_port s) (remote_vtag (peer s));
  '(rest, _) ← nsctp_encode_forward_tsn (drop SCTP_HEADER_SIZE buf) advanced;
  let buf := take SCTP_HEADER_SIZE buf ++ rest in
  buf ← nanortc_write_u16be buf (SCTP_HEADER_SIZE + 2) (u16 (Z.of_nat (len - SCTP_HEADER_SIZE)));
  buf ← write_streams buf 20 streams;
  buf ← nsctp_finalize_checksum buf len;
  Ok (with_sq s (set_forward (sq s) (now_ms s) false), NANORTC_OK, buf, Some len).

(** The packet at the head of the ring, into the caller's buffer. *)
Definition dequeue_output (s : sctp) (buf : list Z) : res (sctp * list Z * nat) :=
  let ridx := ring_slot (out_head (out s)) in
  match out_bufs (out s) !! ridx, out_lens (out s) !! ridx with
  | Some packet, Some pkt_len =>
      octets ← rdn packet 0 pkt_len;
      buf ← wr buf 0 octets;
      Ok (with_out s (OutQ (out_bufs (out s)) (out_lens (out s)) (u8 (out_head (out s) + 1)) (out_tail (out s))), buf, pkt_len)
  | _, _ => Fault
  end.
Definition poll_data (s : sctp) (buf : list Z) : res (sctp * Z * list Z * option nat) :=
  if negb (bool_decide (sc_state s = NANORTC_SCTP_STATE_ESTABLISHED)) then Ok (s, NANORTC_ERR_NO_DATA, buf, Some 0%nat) else
  unsent ← first_unsent (sq s) (positions (sq s));
  match unsent with
  | None => Ok (s, NANORTC_ERR_NO_DATA, buf, Some 0%nat)
  | Some k =>
      e ← sentry (sq s) k;
      if (length buf <? SCTP_HEADER_SIZE + SCTP_PAD4 (16 + t_len e))%nat then Ok (s, NANORTC_ERR_BUFFER_TOO_SMALL, buf, None) else
      payload ← rdn (send_buf (sq s)) (t_off e) (t_len e);
      s ← send_chunk s (remote_vtag (peer s)) (fun buf =>
            nsctp_encode_data buf (t_tsn e) (t_stream_id e) (t_ssn e) (t_ppid e) (t_flags e) payload);
      let s := with_sq s (put_entry (sq s) k (set_flight e (now_ms s))) in
      '(s, buf, n) ← dequeue_output s buf;
      Ok (s, NANORTC_OK, buf, Some n)
  end.
Definition nsctp_poll_output (s : sctp) (buf : list Z) : res (sctp * Z * list Z * option nat) :=
  '(s, rc) ← (if sack_needed (rx s) && (out_head (out s) =? out_tail (out s)) then nsctp_queue_sack s (length buf) else Ok (s, NANORTC_OK));
  if negb (rc =? NANORTC_OK) then Ok (s, rc, buf, None) else
  if negb (out_head (out s) =? out_tail (out s)) then
    match out_lens (out s) !! ring_slot (out_head (out s)) with
    | None => Fault
    | Some pkt_len =>
        if (length buf <? pkt_len)%nat then Ok (s, NANORTC_ERR_BUFFER_TOO_SMALL, buf, None) else
        '(s, buf, n) ← dequeue_output s buf; Ok (s, NANORTC_OK, buf, Some n)
    end
  else if forward_pending (sq s) then
    '(s, rc, buf, n) ← nsctp_forward_output s buf;
    if negb (rc =? NANORTC_ERR_NO_DATA) then Ok (s, rc, buf, n) else poll_data s buf
  else poll_data s buf.
Definition nsctp_has_pending_output (s : sctp) : res bool :=
  if forward_pending (sq s) then Ok true else
  if sack_needed (rx s) || negb (out_head (out s) =? out_tail (out s)) then Ok true else
  if negb (bool_decide (sc_state s = NANORTC_SCTP_STATE_ESTABLISHED)) then Ok false else
  unsent ← first_unsent (sq s) (positions (sq s));
  Ok (match unsent with Some _ => true | None => false end).

(** * Sending *)

Definition nsctp_send_options (s : sctp) (stream_id ppid : Z) (data : list Z) (unordered : bool) (max_retransmits : Z) : res (sctp * Z) :=
  let len := length data in
  if negb (bool_decide (sc_state s = NANORTC_SCTP_STATE_ESTABLISHED)) then Ok (s, NANORTC_ERR_STATE) else
  if (max_retransmits <? -1) || (UINT16_MAX <? max_retransmits) then Ok (s, NANORTC_ERR_INVALID_PARAM) else
  if (0 <=? max_retransmits) && negb (peer_forward_tsn (peer s)) then Ok (s, NANORTC_ERR_NOT_IMPLEMENTED) else
  if (NANORTC_SCTP_MAX_MESSAGE_SIZE <? len)%nat || (NANORTC_SCTP_SEND_BUF_SIZE <? len)%nat ||
     (negb (peer_max_message_size s =? 0) && (peer_max_message_size s <? Z.of_nat len))
  then Ok (s, NANORTC_ERR_BUFFER_TOO_SMALL) else
  let count := fragment_count len in
  if (NANORTC_SCTP_MAX_SEND_QUEUE <? count)%nat then Ok (s, NANORTC_ERR_BUFFER_TOO_SMALL) else
  if (NANORTC_SCTP_MAX_SEND_QUEUE - sq_count (sq s) <? count)%nat || (NANORTC_SCTP_SEND_BUF_SIZE - send_buf_used (sq s) <? len)%nat
  then Ok (s, NANORTC_ERR_WOULD_BLOCK) else
  let '(r, stream) := nsctp_stream (rx s) stream_id in
  let s := with_rx s r in
  match stream with
  | None => Ok (s, NANORTC_ERR_BUFFER_TOO_SMALL)
  | Some st =>
      let ssn := if unordered then 0 else nth st (next_ssn r) 0 in
      let s := if unordered then s else with_rx s (set_next_ssn r (<[st := u16 (ssn + 1)]> (next_ssn r))) in
      q ← queue_message (sq s) stream_id ssn ppid max_retransmits unordered data;
      Ok (with_sq s q, NANORTC_OK)
  end.
Definition nsctp_send (s : sctp) (stream_id ppid : Z) (data : list Z) : res (sctp * Z) :=
  nsctp_send_options s stream_id ppid data false (-1).

(** * Timers *)

Definition handle_heartbeat_timer (s : sctp) (g : R) (now : Z) : res (sctp * R * Z) :=
  if negb (heartbeat_pending (hb s)) && has_crypto s &&
     (NANORTC_SCTP_HEARTBEAT_INTERVAL_MS <=? nano_time_elapsed now (last_heartbeat_ms (hb s))) && negb (nsctp_out_full s)
  then
    match random_bytes g NSCTP_NONCE_SIZE with
    | (g, None) => Ok (s, g, NANORTC_ERR_CRYPTO)
    | (g, Some nonce) =>
        s ← send_chunk s (remote_vtag (peer s)) (fun buf => nsctp_encode_heartbeat buf nonce);
        Ok (with_hb s (Heartbeat now true nonce), g, NANORTC_OK)
    end
  else Ok (s, g, NANORTC_OK).
Definition nsctp_handle_timeout (s : sctp) (g : R) (now : Z) : res (sctp * R * Z) :=
  let s := with_now s now in
  if negb (bool_decide (sc_state s = NANORTC_SCTP_STATE_ESTABLISHED)) then Ok (s, g, NANORTC_OK) else
  scan ← resend_scan now (sq s) (positions (sq s));
  match scan with
  | GiveUp q => Ok (with_failed (with_sq s q), g, NANORTC_ERR_PROTOCOL)
  | Continue q => q ← forward_repeat now q; handle_heartbeat_timer (with_sq s q) g now
  end.
Definition nsctp_next_timeout_ms (s : sctp) (now : Z) : res Z :=
  if negb (bool_decide (sc_state s = NANORTC_SCTP_STATE_ESTABLISHED)) then Ok UINT32_MAX else
  best ← fold_res (next_timeout_entry now (sq s)) UINT32_MAX (positions (sq s));
  Ok (if heartbeat_pending (hb s) then best
      else Z.min (time_left now (last_heartbeat_ms (hb s)) NANORTC_SCTP_HEARTBEAT_INTERVAL_MS) best).
End Random.

(** * The output ring *)

Definition mtu_facts : Z.of_nat NANORTC_SCTP_MTU = 1200 /\ SCTP_PAD4 NANORTC_SCTP_MTU = NANORTC_SCTP_MTU.
Proof. split; vm_compute; reflexivity. Qed.
#[local] Opaque NANORTC_SCTP_MTU.

Definition out_count (o : outq) : nat := Z.to_nat (u8 (out_tail o - out_head o)).
(** The [k]th packet waiting. *)
Definition packet_at (o : outq) (k : nat) (p : list Z) : Prop :=
  exists b n, out_bufs o !! ring_slot (u8 (out_head o + Z.of_nat k)) = Some b /\ out_lens o !! ring_slot (u8 (out_head o + Z.of_nat k)) = Some n /\
    (n <= NANORTC_SCTP_MTU)%nat /\ take n b = p /\ length p = n.
Record ring_ok (P : list Z -> Prop) (o : outq) : Prop := {
  ri_bufs : length (out_bufs o) = NANORTC_SCTP_OUT_QUEUE_SIZE /\ Forall (fun b => length b = NANORTC_SCTP_MTU) (out_bufs o);
  ri_lens : length (out_lens o) = NANORTC_SCTP_OUT_QUEUE_SIZE;
  ri_u8 : is_u8 (out_head o) /\ is_u8 (out_tail o);
  ri_count : (out_count o <= NANORTC_SCTP_OUT_QUEUE_SIZE)%nat;
  ri_packets : forall k, (k < out_count o)%nat -> exists p, packet_at o k p /\ P p
}.
Lemma ring_slot_eq z : ring_slot z = Z.to_nat (z mod 4).
Proof. unfold ring_slot. change 3 with (Z.ones 2). by rewrite Z.land_ones by lia. Qed.
Lemma ring_slot_lt z : (ring_slot z < NANORTC_SCTP_OUT_QUEUE_SIZE)%nat.
Proof. rewrite ring_slot_eq. unfold NANORTC_SCTP_OUT_QUEUE_SIZE. Z.div_mod_to_equations. lia. Qed.
Lemma ring_slot_ne h k l : (k < 4)%nat -> (l < 4)%nat -> k <> l -> ring_slot (u8 (h + Z.of_nat k)) <> ring_slot (u8 (h + Z.of_nat l)).
Proof. rewrite !ring_slot_eq. intros. mach. Qed.
Lemma out_full_count s : ring_ok (fun _ => True) (out s) \/ True -> nsctp_out_full s = (NANORTC_SCTP_OUT_QUEUE_SIZE <=? out_count (out s))%nat.
Proof.
  intros _. unfold nsctp_out_full, out_count. pose proof (u8_range (out_tail (out s) - out_head (out s))) as H. unfold is_u8 in H.
  unfold NANORTC_SCTP_OUT_QUEUE_SIZE. destruct (Z.leb_spec (Z.of_nat 4) (u8 (out_tail (out s) - out_head (out s)))), (Nat.leb_spec 4 (Z.to_nat (u8 (out_tail (out s) - out_head (out s))))); lia.
Qed.
Lemma ring_mono (P Q : list Z -> Prop) o : (forall p, P p -> Q p) -> ring_ok P o -> ring_ok Q o.
Proof. intros HPQ [H1 H2 H3 H4 H5]. constructor; try done. intros k Hk. destruct (H5 k Hk) as (p & Hp & HP). exists p. auto. Qed.

(** What an encoder promises: the chunk, padded, at its cursor. *)
Definition encodes (encode : list Z -> res (list Z * nat)) (chunk : list Z) : Prop :=
  forall buf, length buf = (NANORTC_SCTP_MTU - 12)%nat ->
    encode buf = Ok (padded chunk ++ drop (SCTP_PAD4 (length chunk)) buf, SCTP_PAD4 (length chunk)).
Lemma pad4_pad4 n : SCTP_PAD4 (12 + SCTP_PAD4 n) = (12 + SCTP_PAD4 n)%nat.
Proof.
  rewrite !pad4_eq. set (m := ((n + 3) / 4)%nat). clearbody m.
  replace (12 + 4 * m + 3)%nat with (3 + (m + 3) * 4)%nat by lia. rewrite Nat.div_add by lia. change (3 / 4)%nat with 0%nat. lia.
Qed.

(** Building a packet in a free slot appends it to the ring. *)
Lemma send_chunk_Ok P s vtag encode chunk :
  ring_ok P (out s) -> nsctp_out_full s = false -> encodes encode chunk -> (SCTP_PAD4 (length chunk) <= NANORTC_SCTP_MTU - 12)%nat ->
  let packet := sctp_packet (local_port s) (remote_port s) vtag (padded chunk) in
  exists o, send_chunk s vtag encode = Ok (with_out s o) /\ out_head o = out_head (out s) /\ out_count o = S (out_count (out s)) /\
    packet_at o (out_count (out s)) packet /\ (forall k p, (k < out_count (out s))%nat -> packet_at (out s) k p -> packet_at o k p) /\
    (P packet -> ring_ok P o).
Proof.
  intros [[H1 H1'] H2 [H3 H3'] H4 H5] Hfull Henc Hfit packet. pose proof mtu_facts as [Hmtu _].
  assert (out_count (out s) < 4)%nat as Hlt.
  { rewrite out_full_count in Hfull by (by right). apply Nat.leb_gt in Hfull. done. }
  set (slot := ring_slot (out_tail (out s))). pose proof (ring_slot_lt (out_tail (out s))) as Hslot. fold slot in Hslot.
  destruct (lookup_lt_is_Some_2 (out_bufs (out s)) slot ltac:(lia)) as [b Hb].
  pose proof (proj1 (Forall_lookup _ _) H1' slot b Hb) as Hbl. cbn beta in Hbl.
  unfold send_chunk, nsctp_begin_packet, nsctp_out_write_buf. fold slot. rewrite Hb, bind_Ok, encode_header_spec, bind_Ok by lia.
  unfold SCTP_HEADER_SIZE. set (hd := header8 _ _ _). change (drop 12 (hd ++ zero4 ++ drop 12 b)) with (drop 12 b).
  rewrite Henc, bind_Ok by (rewrite length_drop; lia). change (take 12 (hd ++ zero4 ++ drop 12 b)) with (hd ++ zero4).
  rewrite <- app_assoc. set (rest := drop (SCTP_PAD4 (length chunk)) (drop 12 b)). set (n := (12 + SCTP_PAD4 (length chunk))%nat).
  set (buf := hd ++ zero4 ++ padded chunk ++ rest).
  unfold nsctp_queue_output, store_out, nsctp_out_write_buf. change (nsctp_out_full (with_out s _)) with (nsctp_out_full s). rewrite Hfull.
  cbv zeta. change (out_tail (out (with_out s _))) with (out_tail (out s)). cbn [out with_out out_bufs out_lens out_head out_tail]. fold slot.
  unfold n. rewrite pad4_pad4. fold n. rewrite (proj2 (Nat.ltb_ge _ _)) by lia. rewrite (proj2 (Nat.ltb_ge n SCTP_HEADER_SIZE)) by (unfold n, SCTP_HEADER_SIZE; lia).
  cbn [orb]. rewrite list_lookup_insert_eq by (rewrite H1; lia). rewrite bind_Ok. unfold buf, hd. rewrite finalize_spec by (rewrite ?padded_length; done).
  rewrite bind_Ok, list_insert_insert_eq. fold packet.
  assert (length packet = n) as Hpl by (unfold packet; rewrite sctp_packet_length, padded_length; done).
  set (o := OutQ (<[slot := packet ++ rest]> (out_bufs (out s))) (<[slot := n]> (out_lens (out s))) (out_head (out s)) (u8 (out_tail (out s) + 1))). exists o.
  assert (out_count o = S (out_count (out s))) as Hcount.
  { unfold out_count in *. cbn [o out_tail out_head]. mach. }
  assert (slot = ring_slot (u8 (out_head (out s) + Z.of_nat (out_count (out s))))) as Hs.
  { unfold slot. f_equal. unfold out_count. mach. }
  assert (packet_at o (out_count (out s)) packet) as Hnew.
  { exists (packet ++ rest), n. cbn [o out_bufs out_lens out_head]. rewrite <- Hs, !list_lookup_insert_eq by lia.
    split; [done|]. split; [done|]. split; [unfold n; lia|]. by rewrite <- Hpl, take_app_length. }
  assert (forall k p, (k < out_count (out s))%nat -> packet_at (out s) k p -> packet_at o k p) as Hold.
  { intros k p Hk (b' & m & Hb' & Hm & Hrest). exists b', m. cbn [o out_bufs out_lens out_head].
    rewrite !list_lookup_insert_ne by (rewrite Hs; apply ring_slot_ne; lia). done. }
  split; [done|]. split; [done|]. split; [done|]. split; [done|]. split; [done|]. intros HP. constructor.
  - cbn [o out_bufs]. rewrite length_insert. split; [done|]. apply Forall_insert; [done|]. rewrite length_app, Hpl. unfold rest.
    rewrite !length_drop. unfold n in *. lia.
  - cbn [o out_lens]. by rewrite length_insert.
  - split; [done | apply u8_range].
  - rewrite Hcount. unfold NANORTC_SCTP_OUT_QUEUE_SIZE. lia.
  - intros k Hk. rewrite Hcount in Hk. destruct (decide (k = out_count (out s))) as [->|Hne]; [by exists packet|].
    destruct (H5 k ltac:(lia)) as (p & Hp & HPp). exists p. split; [|done]. apply Hold; [lia|done].
Qed.

Lemma packet_at_det o k p q : packet_at o k p -> packet_at o k q -> p = q.
Proof.
  intros (b & n & Hb & Hn & _ & Hp & _) (b' & n' & Hb' & Hn' & _ & Hq & _). rewrite Hb in Hb'. rewrite Hn in Hn'.
  injection Hb' as <-. injection Hn' as <-. congruence.
Qed.
(** Taking the packet at the head of the ring. *)
Lemma dequeue_output_Ok P s buf p :
  ring_ok P (out s) -> (0 < out_count (out s))%nat -> packet_at (out s) 0 p -> (length p <= length buf)%nat ->
  exists o buf', dequeue_output s buf = Ok (with_out s o, buf', length p) /\ take (length p) buf' = p /\ length buf' = length buf /\
    S (out_count o) = out_count (out s) /\ ring_ok P o.
Proof.
  intros [H1 H2 [H3 H3'] H4 H5] Hc (b & n & Hb & Hn & Hmax & Hp & Hlen) Hbuf. unfold dequeue_output. rewrite Z.add_0_r in Hb, Hn.
  unfold is_u8 in H3. rewrite u8_id in Hb, Hn by (unfold is_u8; lia). cbv zeta. rewrite Hb, Hn.
  pose proof (proj1 (Forall_lookup _ _) (proj2 H1) _ b Hb) as Hbl. cbn beta in Hbl.
  rewrite rdn_Ok, bind_Ok, drop_0, Hp by lia. rewrite wr_0, bind_Ok by lia. rewrite <- Hlen.
  set (o := OutQ _ _ _ _). exists o, (p ++ drop (length p) buf). split; [done|]. split; [apply take_app_length|].
  split; [rewrite length_app, length_drop; lia|].
  assert (S (out_count o) = out_count (out s)) as Hcount.
  { unfold out_count in *. cbn [o out_tail out_head]. unfold NANORTC_SCTP_OUT_QUEUE_SIZE in *. mach. }
  split; [done|]. constructor; try done.
  - split; [apply u8_range | done].
  - lia.
  - intros k Hk. destruct (H5 (S k) ltac:(lia)) as (q & Hq & HPq). exists q. split; [|done]. unfold packet_at in *. cbn [o out_bufs out_lens out_head].
    replace (u8 (u8 (out_head (out s) + 1) + Z.of_nat k)) with (u8 (out_head (out s) + Z.of_nat (S k))) by mach. done.
Qed.

(** * The encoders in a packet *)

Lemma encodes_data tsn sid ssn ppid flags payload :
  (SCTP_PAD4 (16 + length payload) <= NANORTC_SCTP_MTU - 12)%nat ->
  encodes (fun buf => nsctp_encode_data buf tsn sid ssn ppid flags payload) (data_chunk tsn sid ssn ppid flags payload).
Proof.
  intros Hfit buf Hb. pose proof mtu_facts as [Hm _]. pose proof (pad4_ge (16 + length payload)).
  rewrite encode_data_spec by (unfold UINT16_MAX; lia). by rewrite (proj2 (Nat.ltb_ge _ _)) by lia.
Qed.
Definition heartbeat_chunk (type : Z) (info : list Z) : list Z :=
  [type; 0] ++ be16 (8 + Z.of_nat (length info)) ++ be16 1 ++ be16 (4 + Z.of_nat (length info)) ++ info.
Lemma encode_heartbeat_spec buf info :
  (SCTP_PAD4 (8 + length info) <= length buf)%nat -> Z.of_nat (length info) <= UINT16_MAX - 8 ->
  nsctp_encode_heartbeat buf info =
  Ok (padded (heartbeat_chunk SCTP_CHUNK_HEARTBEAT info) ++ drop (SCTP_PAD4 (8 + length info)) buf, SCTP_PAD4 (8 + length info)).
Proof.
  intros Hfit Hmax. set (chunk := heartbeat_chunk SCTP_CHUNK_HEARTBEAT info).
  assert (length chunk = 8 + length info)%nat as Hc by (unfold chunk, heartbeat_chunk; cbn; lia). pose proof (pad4_ge (8 + length info)).
  unfold nsctp_encode_heartbeat. cbv zeta. rewrite (proj2 (Z.ltb_ge _ _)), (proj2 (Nat.ltb_ge _ _)) by lia. cbn [orb].
  unfold nanortc_write_u16be. rewrite !wr_then by done. rewrite <- !app_assoc. cbn [app].
  set (head := SCTP_CHUNK_HEARTBEAT :: 0 :: _). assert (length head = 8)%nat as Hh by done.
  rewrite wr_0, bind_Ok by (rewrite Hh; lia). rewrite Hh.
  assert (chunk = head ++ info) as Hchunk.
  { unfold chunk, heartbeat_chunk, head, SCTP_CHUNK_HDR_SIZE. rewrite !Nat2Z.inj_add. rewrite Z.add_assoc. done. }
  assert ((if (0 <? length info)%nat then wr (head ++ drop 8 buf) 8 info else Ok (head ++ drop 8 buf)) = Ok (chunk ++ drop (length chunk) buf)) as ->.
  { rewrite Hc, Hchunk. destruct (Nat.ltb_spec 0 (length info)).
    - rewrite wr_append by (rewrite ?length_drop; first [done | lia]). by rewrite drop_drop.
    - destruct info; [|cbn in *; lia]. by rewrite app_nil_r. }
  rewrite bind_Ok. change (SCTP_CHUNK_HDR_SIZE + (4 + length info))%nat with (8 + length info)%nat.
  rewrite <- Hc. apply pad_chunk_spec. rewrite Hc. lia.
Qed.
Lemma encodes_heartbeat info : (SCTP_PAD4 (8 + length info) <= NANORTC_SCTP_MTU - 12)%nat ->
  encodes (fun buf => nsctp_encode_heartbeat buf info) (heartbeat_chunk SCTP_CHUNK_HEARTBEAT info).
Proof.
  intros Hfit buf Hb. pose proof mtu_facts as [Hm _]. pose proof (pad4_ge (8 + length info)). apply encode_heartbeat_spec; unfold UINT16_MAX; lia.
Qed.
Lemma heartbeat_chunk_length type info : length (heartbeat_chunk type info) = (8 + length info)%nat.
Proof. unfold heartbeat_chunk. cbn. lia. Qed.
Lemma encodes_heartbeat_ack info : (SCTP_PAD4 (8 + length info) <= NANORTC_SCTP_MTU - 12)%nat ->
  encodes (fun buf => nsctp_encode_heartbeat_ack buf info) (heartbeat_chunk SCTP_CHUNK_HEARTBEAT_ACK info).
Proof.
  intros Hfit buf Hb. pose proof (encodes_heartbeat info Hfit buf Hb) as He. unfold nsctp_encode_heartbeat_ack.
  pose proof (pad4_ge (8 + length info)). rewrite heartbeat_chunk_length in *. cbv beta in He. rewrite He, bind_Ok.
  rewrite (proj2 (Nat.eqb_neq _ _)) by lia.
  change (padded (heartbeat_chunk SCTP_CHUNK_HEARTBEAT info)) with ([] ++ [SCTP_CHUNK_HEARTBEAT] ++ tl (padded (heartbeat_chunk SCTP_CHUNK_HEARTBEAT info))).
  rewrite <- !app_assoc, wr_mid by done. rewrite bind_Ok. done.
Qed.
Lemma encodes_cookie_ack : encodes nsctp_encode_cookie_ack [SCTP_CHUNK_COOKIE_ACK; 0; 0; 4].
Proof.
  intros buf Hb. pose proof mtu_facts as [Hm _]. unfold nsctp_encode_cookie_ack, nanortc_write_u16be. rewrite !wr_then by done. cbn [app].
  rewrite wr_0 by (cbn; lia). by rewrite bind_Ok.
Qed.

(** * Acknowledging *)

Lemma gap_blocks_short ts cum rb : (length rb <= NANORTC_SCTP_MAX_GAP_BLOCKS)%nat -> (length (gap_blocks ts cum rb) <= NANORTC_SCTP_MAX_GAP_BLOCKS)%nat.
Proof.
  revert rb. induction ts as [|t ts IH]; intros rb H; cbn [gap_blocks]; [by rewrite length_rev|].
  destruct (Nat.ltb_spec (length rb) NANORTC_SCTP_MAX_GAP_BLOCKS); [|by rewrite length_rev].
  destruct rb as [|[a b] rb]; [by apply IH|]. destruct (_ =? _); apply IH; cbn in *; lia.
Qed.
Lemma write16_Ok buf i v : (i + 2 <= length buf)%nat -> exists buf', nanortc_write_u16be buf i v = Ok buf' /\ length buf' = length buf.
Proof.
  intros H. unfold nanortc_write_u16be. destruct (wr buf i _) as [b| |] eqn:E; [|unfold wr in E; by destruct (_ <=? _)%nat|].
  - exists b. split; [done|]. by apply wr_length in E.
  - rewrite wr_Ok in E by (cbn; lia). done.
Qed.
Lemma write_blocks_Ok blocks : forall buf pos, (pos + 4 * length blocks <= length buf)%nat ->
  exists buf', write_blocks buf pos blocks = Ok buf' /\ length buf' = length buf.
Proof.
  induction blocks as [|[a b] blocks IH]; intros buf pos H; [by exists buf|]. cbn [write_blocks length] in *.
  destruct (write16_Ok buf pos a) as (b1 & -> & L1); [lia|]. rewrite bind_Ok.
  destruct (write16_Ok b1 (pos + 2) b) as (b2 & -> & L2); [lia|]. rewrite bind_Ok.
  destruct (IH b2 (pos + 4)%nat) as (b3 & -> & L3); [lia|]. exists b3. split; [done|lia].
Qed.
Lemma encode_sack_head_Ok buf clen cum rwnd nb : (16 <= length buf)%nat ->
  exists buf', encode_sack_head buf clen cum rwnd nb = Ok buf' /\ length buf' = length buf.
Proof.
  intros H. unfold encode_sack_head, nanortc_write_u16be, nanortc_write_u32be. rewrite !wr_then by done. rewrite <- !app_assoc. cbn [app].
  rewrite (wr_last buf 0 14) by done. rewrite wr_0 by (cbn; lia). eexists. split; [done|]. rewrite !length_app, length_drop. cbn. lia.
Qed.
Lemma encode_sack_Ok cum rwnd tsns :
  exists chunk n, nsctp_encode_sack_with_gaps (replicate NSCTP_MAX_SACK_SIZE 0) cum rwnd tsns = Ok (chunk, n) /\
    length chunk = NSCTP_MAX_SACK_SIZE /\ (16 <= n <= NSCTP_MAX_SACK_SIZE)%nat.
Proof.
  unfold nsctp_encode_sack_with_gaps. change (length (replicate NSCTP_MAX_SACK_SIZE 0)) with 32%nat. rewrite (proj2 (Nat.ltb_ge 32 16)) by lia. cbv zeta.
  destruct (_ =? 0)%nat.
  - unfold nsctp_encode_sack. destruct (encode_sack_head_Ok (replicate NSCTP_MAX_SACK_SIZE 0) (SCTP_CHUNK_HDR_SIZE + SCTP_SACK_MIN_SIZE) cum rwnd 0) as (b & -> & Hb);
      [cbn; lia|]. rewrite bind_Ok. eexists _, _. split; [done|]. split; [done|]. change NSCTP_MAX_SACK_SIZE with 32%nat. unfold SCTP_CHUNK_HDR_SIZE, SCTP_SACK_MIN_SIZE. lia.
  - set (blocks := gap_blocks _ _ _). assert (length blocks <= NANORTC_SCTP_MAX_GAP_BLOCKS)%nat as Hbl by (apply gap_blocks_short; cbn; lia).
    unfold NANORTC_SCTP_MAX_GAP_BLOCKS, SCTP_CHUNK_HDR_SIZE, SCTP_SACK_MIN_SIZE in *. rewrite (proj2 (Nat.ltb_ge _ _)) by lia.
    destruct (encode_sack_head_Ok (replicate NSCTP_MAX_SACK_SIZE 0) (4 + 12 + length blocks * 4) cum rwnd (Z.of_nat (length blocks))) as (b & -> & Hb); [cbn; lia|].
    rewrite bind_Ok. destruct (write_blocks_Ok blocks b 16) as (b' & -> & Hb'); [rewrite Hb; cbn; lia|]. rewrite bind_Ok.
    eexists _, _. split; [done|]. split; [by rewrite Hb', Hb|]. change NSCTP_MAX_SACK_SIZE with 32%nat. lia.
Qed.

(** Queueing whatever was built in the free slot. *)
Lemma store_queue_Ok s buf len :
  ring_ok (fun _ => True) (out s) -> nsctp_out_full s = false -> length buf = NANORTC_SCTP_MTU -> (12 <= len <= NANORTC_SCTP_MTU)%nat ->
  exists o, nsctp_queue_output (store_out s buf) len = Ok (with_out s o) /\ ring_ok (fun _ => True) o /\ out_count o = S (out_count (out s)).
Proof.
  intros [[H1 H1'] H2 [H3 H3'] H4 H5] Hfull Hb Hlen. pose proof mtu_facts as [Hmtu Hpad].
  assert (out_count (out s) < 4)%nat as Hlt.
  { rewrite out_full_count in Hfull by (by right). apply Nat.leb_gt in Hfull. done. }
  set (slot := ring_slot (out_tail (out s))). pose proof (ring_slot_lt (out_tail (out s))) as Hslot. fold slot in Hslot.
  assert (SCTP_PAD4 len <= NANORTC_SCTP_MTU)%nat as Hp.
  { rewrite <- Hpad. rewrite !pad4_eq. apply Nat.mul_le_mono_l, Nat.Div0.div_le_mono. lia. } pose proof (pad4_ge len).
  unfold nsctp_queue_output, store_out, nsctp_out_write_buf. change (nsctp_out_full (with_out s _)) with (nsctp_out_full s). rewrite Hfull.
  cbv zeta. cbn [out with_out out_bufs out_lens out_head out_tail]. fold slot.
  rewrite (proj2 (Nat.ltb_ge _ _)) by lia. rewrite (proj2 (Nat.ltb_ge len SCTP_HEADER_SIZE)) by (unfold SCTP_HEADER_SIZE; lia).
  cbn [orb]. rewrite list_lookup_insert_eq by lia. rewrite bind_Ok. unfold nsctp_finalize_checksum.
  rewrite wr_Ok, bind_Ok by (rewrite length_replicate; lia). set (b1 := take 8 buf ++ _).
  assert (length b1 = NANORTC_SCTP_MTU) as Hb1 by (unfold b1; rewrite !length_app, length_take, length_drop, length_replicate; lia).
  rewrite rdn_Ok, bind_Ok by lia. rewrite wr_Ok, bind_Ok by (cbn [le32 length]; lia). set (b2 := take 8 b1 ++ _).
  assert (length b2 = NANORTC_SCTP_MTU) as Hb2 by (unfold b2; rewrite !length_app, length_take, length_drop; cbn [le32 length]; lia).
  rewrite list_insert_insert_eq.
  set (o := OutQ (<[slot := b2]> (out_bufs (out s))) (<[slot := SCTP_PAD4 len]> (out_lens (out s))) (out_head (out s)) (u8 (out_tail (out s) + 1))).
  exists o. assert (out_count o = S (out_count (out s))) as Hcount.
  { unfold out_count in *. cbn [o out_tail out_head]. mach. }
  split; [done|]. split; [|done]. constructor.
  - cbn [o out_bufs]. rewrite length_insert. split; [done|]. by apply Forall_insert.
  - cbn [o out_lens]. by rewrite length_insert.
  - split; [done | apply u8_range].
  - rewrite Hcount. unfold NANORTC_SCTP_OUT_QUEUE_SIZE. lia.
  - intros k Hk. rewrite Hcount in Hk. assert (slot = ring_slot (u8 (out_head (out s) + Z.of_nat (out_count (out s))))) as Hs.
    { unfold slot. f_equal. unfold out_count. mach. }
    destruct (decide (k = out_count (out s))) as [->|Hne].
    + exists (take (SCTP_PAD4 len) b2). split; [|done]. exists b2, (SCTP_PAD4 len). cbn [o out_bufs out_lens out_head]. rewrite <- Hs, !list_lookup_insert_eq by lia.
      rewrite length_take, Hb2. split_and!; [done | done | done | done | lia].
    + destruct (H5 k ltac:(lia)) as (p & (b & n & Hbk & Hn & Hrest) & _). exists p. split; [|done]. exists b, n. cbn [o out_bufs out_lens out_head].
      rewrite !list_lookup_insert_ne by (rewrite Hs; apply ring_slot_ne; lia). done.
Qed.
Lemma nsctp_queue_sack_Ok s cap :
  ring_ok (fun _ => True) (out s) -> nsctp_out_full s = false -> (12 + NSCTP_MAX_SACK_SIZE <= cap)%nat ->
  exists o, nsctp_queue_sack s cap = Ok (with_rx (with_out s o) (set_sack (rx s) false), NANORTC_OK) /\ ring_ok (fun _ => True) o /\
    out_count o = S (out_count (out s)).
Proof.
  intros Hr Hfull Hcap. pose proof mtu_facts as [Hmtu _]. unfold nsctp_queue_sack. rewrite Hfull. cbv zeta.
  destruct (encode_sack_Ok (cumulative_tsn (rx s)) (u32 (Z.of_nat NANORTC_SCTP_RECV_GAP_BUF_SIZE - Z.of_nat (recv_gap_buf_used (rx s)))) (held_tsns (rx s)))
    as (chunk & n & -> & Hc & Hn). rewrite bind_Ok. unfold SCTP_HEADER_SIZE. change NSCTP_MAX_SACK_SIZE with 32%nat in *.
  rewrite (proj2 (Nat.eqb_neq n 0)), (proj2 (Nat.ltb_ge cap _)) by lia. cbn [orb].
  unfold nsctp_begin_packet, nsctp_out_write_buf. pose proof (ring_slot_lt (out_tail (out s))) as Hslot.
  destruct (lookup_lt_is_Some_2 (out_bufs (out s)) (ring_slot (out_tail (out s)))) as [b Hb]; [by rewrite (proj1 (ri_bufs _ _ Hr))|].
  pose proof (proj1 (Forall_lookup _ _) (proj2 (ri_bufs _ _ Hr)) _ b Hb) as Hbl. cbn beta in Hbl.
  rewrite Hb, bind_Ok, encode_header_spec, bind_Ok by lia. rewrite rdn_Ok, bind_Ok by lia.
  set (b1 := header8 _ _ _ ++ _). assert (length b1 = NANORTC_SCTP_MTU) as Hb1 by (unfold b1; rewrite !length_app, length_drop; cbn; lia).
  set (oct := take n _). assert (length oct = n) as Ho by (unfold oct; rewrite length_take, length_drop; lia).
  destruct (wr b1 12 oct) as [b2| |] eqn:Hw; [|rewrite wr_Ok in Hw by lia; done..]. rewrite bind_Ok. apply wr_length in Hw as Hb2.
  destruct (store_queue_Ok s b2 (12 + n) Hr Hfull) as (o & -> & Hro & Hco); [congruence | lia |]. rewrite bind_Ok.
  by exists o.
Qed.
