(* ===== verification/SctpTransfer.v ===== *)
(** Two associations of [src/nano_sctp.c] over a network that loses, repeats and
    reorders packets: the chunks a sender's messages become, what every packet it
    emits does to the receiver, and that the messages received are messages sent. *)

From Stdlib Require Import ZArith Lia.
From stdpp Require Import base list numbers relations sorting.
From S2P Require Import Prelude Wire Crc SctpCodec SctpRecv SctpDelivery SctpSend Sctp.

Local Open Scope Z_scope.
#[local] Opaque NANORTC_SCTP_SEND_BUF_SIZE mtu_payload NANORTC_SCTP_RECV_GAP_BUF_SIZE NANORTC_SCTP_MAX_MESSAGE_SIZE NANORTC_SCTP_MTU.

(** * From messages to chunks *)

Record app_message : Type := AppMessage { am_sid : Z; am_ppid : Z; am_unordered : bool; am_data : list Z }.
Definition app_message_ok (m : app_message) : Prop :=
  is_u16 (am_sid m) /\ is_u32 (am_ppid m) /\ (0 < length (am_data m))%nat /\ Z.of_nat (length (am_data m)) <= 4096.
Definition chunks_for (tsn0 : Z) (log : list nsctp_data) (m : app_message) : list nsctp_data :=
  message_chunks (u32 (tsn0 + Z.of_nat (length log))) (am_sid m)
    (if am_unordered m then 0 else u16 (Z.of_nat (length (ordered_starts log (am_sid m))))) (am_ppid m) (am_unordered m) (am_data m).
Definition log_of (tsn0 : Z) (sent : list app_message) : list nsctp_data :=
  foldl (fun log m => log ++ chunks_for tsn0 log m) [] sent.
Lemma log_of_snoc tsn0 sent m : log_of tsn0 (sent ++ [m]) = log_of tsn0 sent ++ chunks_for tsn0 (log_of tsn0 sent) m.
Proof. unfold log_of. by rewrite foldl_app. Qed.

Lemma fragments_length k i count tsn sid ssn ppid u data : length (fragments k i count tsn sid ssn ppid u data) = k.
Proof. revert i tsn data. induction k as [|k IH]; intros; cbn; [done|]. by rewrite IH. Qed.
Lemma fragments_lookup k i count tsn sid ssn ppid u data t d :
  is_u32 tsn -> fragments k i count tsn sid ssn ppid u data !! t = Some d ->
  (t < k)%nat /\ d = NsctpData (u32 (tsn + Z.of_nat t)) sid ssn ppid (fragment_flags (i + t) count u) (take mtu_payload (drop (t * mtu_payload) data)).
Proof.
  revert i tsn data t. induction k as [|k IH]; intros i tsn data t Ht H; [done|]. destruct t as [|t].
  - injection H as <-. split; [lia|]. rewrite Z.add_0_r, u32_id by done. rewrite Nat.add_0_r. done.
  - cbn in H. apply IH in H as [H ->]; [|apply u32_range]. split; [lia|]. rewrite drop_drop. f_equal.
    + mach.
    + f_equal. lia.
Qed.
Lemma fragment_flags_has i count u :
  has_flag (fragment_flags i count u) SCTP_DATA_FLAG_BEGIN = (i =? 0)%nat /\
  has_flag (fragment_flags i count u) SCTP_DATA_FLAG_END = (i + 1 =? count)%nat /\
  has_flag (fragment_flags i count u) SCTP_DATA_FLAG_UNORDERED = u.
Proof. unfold fragment_flags. by destruct (i =? 0)%nat, (i + 1 =? count)%nat, u. Qed.

Lemma fragment_count_bounds n : (0 < n)%nat ->
  let c := fragment_count n in (0 < c)%nat /\ ((c - 1) * mtu_payload < n <= c * mtu_payload)%nat.
Proof.
  intros Hn. pose proof sbuf_facts as [_ Hm]. unfold fragment_count. rewrite (proj2 (Nat.ltb_lt 0 n)) by done. cbv zeta.
  set (m := mtu_payload) in *. clearbody m. assert (0 < m)%nat by lia.
  set (c := ((n + m - 1) / m)%nat).
  assert (m * c <= n + m - 1 < m * S c)%nat as Hc.
  { unfold c. split; [apply Nat.Div0.mul_div_le | apply Nat.mul_succ_div_gt; lia]. }
  clearbody c. nia.
Qed.
Lemma chunk_slice_nonempty n t : (t < fragment_count n)%nat -> (0 < n)%nat -> (t * mtu_payload < n)%nat.
Proof. intros Ht Hn. pose proof (fragment_count_bounds n Hn) as [_ H]. cbv zeta in H. nia. Qed.
(** The fragments' payloads are the message. *)
Lemma fragments_concat k i count tsn sid ssn ppid u data :
  (length data <= k * mtu_payload)%nat -> concat (map d_payload (fragments k i count tsn sid ssn ppid u data)) = data.
Proof.
  revert i tsn data. induction k as [|k IH]; intros i tsn data H; cbn [fragments map concat].
  - symmetry. apply nil_length_inv. lia.
  - cbn [d_payload]. rewrite IH; [apply take_drop|]. rewrite length_drop. lia.
Qed.

Lemma chunks_for_length tsn0 log m : length (chunks_for tsn0 log m) = fragment_count (length (am_data m)).
Proof. apply fragments_length. Qed.
Lemma chunks_for_lookup tsn0 log m t d :
  chunks_for tsn0 log m !! t = Some d ->
  (t < fragment_count (length (am_data m)))%nat /\
  d_tsn d = u32 (tsn0 + Z.of_nat (length log + t)) /\ d_stream_id d = am_sid m /\ d_ppid d = am_ppid m /\
  d_ssn d = (if am_unordered m then 0 else u16 (Z.of_nat (length (ordered_starts log (am_sid m))))) /\
  begins d = (t =? 0)%nat /\ ends d = (t + 1 =? fragment_count (length (am_data m)))%nat /\ unordered d = am_unordered m /\
  d_payload d = take mtu_payload (drop (t * mtu_payload) (am_data m)).
Proof.
  intros H. apply fragments_lookup in H as [Ht ->]; [|apply u32_range]. unfold begins, ends, unordered.
  destruct (fragment_flags_has (0 + t) (fragment_count (length (am_data m))) (am_unordered m)) as (H1 & H2 & H3).
  cbn [d_tsn d_stream_id d_ppid d_ssn d_flags d_payload]. rewrite H1, H2, H3.
  split; [done|]. split; [mach|]. done.
Qed.

(** * The log is well formed *)

Lemma ordered_on_app log more sid k : (k < length log)%nat -> ordered_on (log ++ more) sid k <-> ordered_on log sid k.
Proof. intros H. unfold ordered_on. by rewrite lookup_app_l. Qed.
Lemma filter_ext_in {A} (P Q : A -> Prop) `{!forall x, Decision (P x), !forall x, Decision (Q x)} (l : list A) :
  (forall x, In x l -> P x <-> Q x) -> filter P l = filter Q l.
Proof.
  induction l as [|x l IH]; intros Hiff; [done|]. rewrite !filter_cons, IH by (intros; apply Hiff; by right). pose proof (Hiff x ltac:(by left)).
  repeat case_decide; tauto.
Qed.
Lemma filter_ordered_app log more sid n : (n <= length log)%nat ->
  filter (ordered_on (log ++ more) sid) (seq 0 n) = filter (ordered_on log sid) (seq 0 n).
Proof.
  intros Hn. apply filter_ext_in. intros k Hk%in_seq. apply ordered_on_app. lia.
Qed.
Lemma ordered_starts_app log more sid :
  ordered_starts (log ++ more) sid = ordered_starts log sid ++ filter (ordered_on (log ++ more) sid) (seq (length log) (length more)).
Proof.
  unfold ordered_starts. rewrite length_app, seq_app, filter_app. f_equal. by apply filter_ordered_app.
Qed.
Lemma ordered_on_new tsn0 log m sid t : (t < length (chunks_for tsn0 log m))%nat ->
  ordered_on (log ++ chunks_for tsn0 log m) sid (length log + t) <-> t = 0%nat /\ am_unordered m = false /\ am_sid m = sid.
Proof.
  intros Ht. unfold ordered_on. rewrite lookup_app_r by lia. replace (length log + t - length log)%nat with t by lia.
  destruct (lookup_lt_is_Some_2 _ _ Ht) as [d Hd]. rewrite Hd. apply chunks_for_lookup in Hd as (_ & _ & Hs & _ & _ & Hb & _ & Hu & _).
  rewrite Hb, Hu, Hs. rewrite Nat.eqb_eq. done.
Qed.
Lemma chunks_for_pos tsn0 log m : (0 < length (am_data m))%nat -> (0 < length (chunks_for tsn0 log m))%nat.
Proof. intros H. rewrite chunks_for_length. apply (fragment_count_bounds (length (am_data m)) H). Qed.
Lemma ordered_starts_snoc tsn0 log m sid : (0 < length (am_data m))%nat ->
  ordered_starts (log ++ chunks_for tsn0 log m) sid =
  ordered_starts log sid ++ (if negb (am_unordered m) && (am_sid m =? sid) then [length log] else []).
Proof.
  intros Hm. rewrite ordered_starts_app. f_equal. set (frs := chunks_for tsn0 log m).
  assert (forall t n, (t + n = length frs)%nat -> (0 < t)%nat -> filter (ordered_on (log ++ frs) sid) (seq (length log + t) n) = []) as Hrest.
  { intros t n. revert t. induction n as [|n IH]; intros t Hn Ht; [done|]. cbn [seq]. rewrite filter_cons.
    rewrite decide_False by (unfold frs; rewrite ordered_on_new by (fold frs; lia); lia).
    rewrite <- Nat.add_succ_r. apply IH; lia. }
  pose proof (chunks_for_pos tsn0 log m Hm) as Hp. fold frs in Hp. destruct (length frs) as [|n] eqn:Hl; [lia|]. cbn [seq]. rewrite filter_cons.
  pose proof (ordered_on_new tsn0 log m sid 0) as Hnew. fold frs in Hnew. rewrite Hl, Nat.add_0_r in Hnew. specialize (Hnew ltac:(lia)).
  rewrite <- Nat.add_1_r, (Hrest 1%nat n) by lia.
  destruct (decide _) as [Hd|Hd].
  - apply Hnew in Hd as (_ & -> & ->). by rewrite Z.eqb_refl.
  - destruct (am_unordered m); [done|]. destruct (Z.eqb_spec (am_sid m) sid); [|done]. exfalso. by apply Hd, Hnew.
Qed.

Definition complete (log : list nsctp_data) : Prop := forall d, log !! (length log - 1)%nat = Some d -> ends d = true.
Lemma lookup_app_cases (log more : list nsctp_data) k d :
  (log ++ more) !! k = Some d -> ((k < length log)%nat /\ log !! k = Some d) \/ exists t, k = (length log + t)%nat /\ more !! t = Some d.
Proof.
  intros H. destruct (decide (k < length log)%nat); [left; by rewrite lookup_app_l in H|right].
  rewrite lookup_app_r in H by lia. exists (k - length log)%nat. split; [lia|done].
Qed.
Lemma chunks_ok_snoc tsn0 log m :
  chunks_ok tsn0 log -> complete log -> app_message_ok m -> Z.of_nat (length (log ++ chunks_for tsn0 log m)) <= 65535 ->
  chunks_ok tsn0 (log ++ chunks_for tsn0 log m) /\ complete (log ++ chunks_for tsn0 log m).
Proof.
  intros Hok Hcom (Hsid & Hpp & Hne & Hmax) Hsize. pose proof sbuf_facts as [_ Hmtu]. set (frs := chunks_for tsn0 log m) in *.
  assert (forall t d, frs !! t = Some d -> _) as Hfr by (intros t d; apply chunks_for_lookup).
  pose proof (chunks_for_pos tsn0 log m Hne) as Hpos. fold frs in Hpos.
  assert (length frs = fragment_count (length (am_data m))) as Hlen by apply chunks_for_length.
  split; [|intros d [[Hk Hd]|(t & Ht & Hd)]%lookup_app_cases; rewrite length_app in *; [lia|]].
  2: { apply Hfr in Hd as (_ & _ & _ & _ & _ & _ & -> & _). apply Nat.eqb_eq. lia. }
  constructor; [done | | | | | |].
  - intros k d [[Hk Hd]|(t & -> & Hd)]%lookup_app_cases; [by apply (lo_tsn _ _ Hok)|]. by apply Hfr in Hd as (_ & -> & _).
  - intros k d [[Hk Hd]|(t & -> & Hd)]%lookup_app_cases; [by apply (lo_payload _ _ Hok k)|].
    apply Hfr in Hd as (Ht & _ & _ & _ & _ & _ & _ & _ & ->). rewrite length_take, length_drop.
    pose proof (chunk_slice_nonempty _ _ Ht Hne). lia.
  - intros k d [[Hk Hd]|(t & -> & Hd)]%lookup_app_cases; [by apply (lo_wire _ _ Hok k)|].
    apply Hfr in Hd as (Ht & _ & -> & -> & -> & _ & _ & _ & ->). split; [done|]. split; [destruct (am_unordered m); [done | apply u16_range]|].
    split; [done|]. rewrite length_take, length_drop. unfold UINT16_MAX. lia.
  - intros d [[Hk Hd]|(t & Ht & Hd)]%lookup_app_cases; [by apply (lo_first _ _ Hok)|].
    apply Hfr in Hd as (_ & _ & _ & _ & _ & -> & _). apply Nat.eqb_eq. lia.
  - intros k d d' [[Hk Hd]|(t & -> & Hd)]%lookup_app_cases [[Hk' Hd']|(t' & Ht' & Hd')]%lookup_app_cases.
    + by apply (lo_next _ _ Hok k).
    + assert (t' = 0%nat) as -> by lia. assert (k = length log - 1)%nat as -> by lia. rewrite (Hcom d Hd).
      apply Hfr in Hd' as (_ & _ & _ & _ & _ & -> & _). done.
    + lia.
    + assert (t' = S t) as -> by lia. apply Hfr in Hd as (Ht & _ & S1 & P1 & N1 & _ & E1 & U1 & _), Hd' as (Hlt' & _ & S2 & P2 & N2 & B2 & _ & U2 & _).
      rewrite B2, E1, S1, S2, P1, P2, N1, N2, U1, U2. split; [|done]. symmetry. apply Nat.eqb_neq. lia.
  - intros k d [[Hk Hd]|(t & -> & Hd)]%lookup_app_cases Hon.
    + rewrite ordered_on_app in Hon by done. rewrite filter_ordered_app by lia. by apply (lo_ssn _ _ Hok).
    + pose proof (lookup_lt_Some _ _ _ Hd) as Ht. apply (ordered_on_new tsn0 log m _ t Ht) in Hon as (-> & Hu & _).
      apply Hfr in Hd as (_ & _ & -> & _ & -> & _). rewrite Hu, Nat.add_0_r, filter_ordered_app by done. done.
Qed.

(** * Back from chunks to messages *)

Definition start_of (tsn0 : Z) (sent : list app_message) (j : nat) : nat := length (log_of tsn0 (take j sent)).
Definition ordered_msg (sent : list app_message) (sid : Z) (j : nat) : Prop :=
  match sent !! j with Some m => am_unordered m = false /\ am_sid m = sid | None => False end.
#[global] Instance ordered_msg_dec sent sid j : Decision (ordered_msg sent sid j).
Proof. unfold ordered_msg. destruct (sent !! j); apply _. Defined.
(** The ordered messages sent on a stream, as positions of [sent]. *)
Definition ordered_idx (sent : list app_message) (sid : Z) : list nat := filter (ordered_msg sent sid) (seq 0 (length sent)).
Definition deliver_of (m : app_message) : message := Message (am_data m) (am_ppid m) (am_sid m).

Lemma start_of_snoc tsn0 sent m j : (j <= length sent)%nat -> start_of tsn0 (sent ++ [m]) j = start_of tsn0 sent j.
Proof. intros H. unfold start_of. by rewrite take_app_le. Qed.
Lemma start_of_length tsn0 sent : start_of tsn0 sent (length sent) = length (log_of tsn0 sent).
Proof. unfold start_of. by rewrite firstn_all. Qed.
Lemma start_of_S tsn0 sent j m : sent !! j = Some m -> start_of tsn0 sent (S j) = (start_of tsn0 sent j + fragment_count (length (am_data m)))%nat.
Proof. intros H. unfold start_of. rewrite (take_S_r _ _ _ H), log_of_snoc, length_app, chunks_for_length. done. Qed.
Lemma fragment_count_pos n : (0 < n)%nat -> (0 < fragment_count n)%nat.
Proof. intros H. apply (fragment_count_bounds n H). Qed.
Lemma start_of_mono tsn0 sent j k : Forall app_message_ok sent -> (j < k <= length sent)%nat -> (start_of tsn0 sent j < start_of tsn0 sent k)%nat.
Proof.
  intros Hok. revert j. induction k as [|k IH]; intros j Hj; [lia|]. destruct (lookup_lt_is_Some_2 sent k ltac:(lia)) as [m Hm].
  rewrite (start_of_S _ _ _ _ Hm). pose proof (proj1 (Forall_lookup _ _) Hok k m Hm) as (_ & _ & Hp & _). pose proof (fragment_count_pos _ Hp).
  destruct (decide (j = k)) as [->|]; [lia|]. pose proof (IH j ltac:(lia)). lia.
Qed.
Lemma start_of_inj tsn0 sent j k : Forall app_message_ok sent -> (j <= length sent)%nat -> (k <= length sent)%nat ->
  start_of tsn0 sent j = start_of tsn0 sent k -> j = k.
Proof.
  intros Hok Hj Hk H. destruct (lt_eq_lt_dec j k) as [[Hlt|]|Hlt]; [|done|].
  - pose proof (start_of_mono tsn0 sent j k Hok ltac:(lia)). lia.
  - pose proof (start_of_mono tsn0 sent k j Hok ltac:(lia)). lia.
Qed.

Lemma log_of_prefix tsn0 sent j : exists more, log_of tsn0 sent = log_of tsn0 (take j sent) ++ more.
Proof.
  induction sent as [|m sent IH] using rev_ind; [exists []; by rewrite take_nil|].
  destruct (decide (j <= length sent)%nat).
  - destruct IH as [more IH]. rewrite take_app_le by done. rewrite log_of_snoc, IH. eexists. by rewrite <- app_assoc.
  - exists []. rewrite take_ge by (rewrite length_app; cbn; lia). by rewrite app_nil_r.
Qed.
(** Message [j]'s chunks are at their place in the log. *)
Lemma log_of_message tsn0 sent j m t :
  sent !! j = Some m -> (t < fragment_count (length (am_data m)))%nat ->
  log_of tsn0 sent !! (start_of tsn0 sent j + t)%nat = chunks_for tsn0 (log_of tsn0 (take j sent)) m !! t.
Proof.
  intros Hm Ht. destruct (log_of_prefix tsn0 sent (S j)) as [more ->]. rewrite (take_S_r _ _ _ Hm), log_of_snoc. unfold start_of.
  rewrite <- app_assoc, lookup_app_r by lia. rewrite lookup_app_l by (rewrite chunks_for_length; lia). f_equal. lia.
Qed.
Lemma log_position tsn0 sent p : (p < length (log_of tsn0 sent))%nat ->
  exists j m t, sent !! j = Some m /\ p = (start_of tsn0 sent j + t)%nat /\ (t < fragment_count (length (am_data m)))%nat.
Proof.
  revert p. induction sent as [|m sent IH] using rev_ind; intros p Hp; [cbn in Hp; lia|].
  rewrite log_of_snoc, length_app, chunks_for_length in Hp. destruct (decide (p < length (log_of tsn0 sent))%nat) as [Hlt|].
  - destruct (IH p Hlt) as (j & m' & t & Hj & -> & Ht). exists j, m', t. pose proof (lookup_lt_Some _ _ _ Hj).
    rewrite start_of_snoc by lia. by rewrite lookup_app_l.
  - exists (length sent), m, (p - length (log_of tsn0 sent))%nat. rewrite start_of_snoc, start_of_length by lia.
    split; [by rewrite lookup_app_r, Nat.sub_diag by lia|]. lia.
Qed.

Lemma chunks_payload_message tsn0 sent j m :
  Forall app_message_ok sent -> sent !! j = Some m ->
  chunks_payload (log_of tsn0 sent) (start_of tsn0 sent j) (start_of tsn0 sent (S j)) = am_data m.
Proof.
  intros Hok Hm. pose proof (proj1 (Forall_lookup _ _) Hok j m Hm) as (_ & _ & Hp & _). rewrite (start_of_S _ _ _ _ Hm). unfold chunks_payload.
  destruct (log_of_prefix tsn0 sent (S j)) as [more ->]. rewrite (take_S_r _ _ _ Hm), log_of_snoc. unfold start_of.
  rewrite <- app_assoc, drop_app_length.
  replace (length (log_of tsn0 (take j sent)) + fragment_count (length (am_data m)) - length (log_of tsn0 (take j sent)))%nat
    with (length (chunks_for tsn0 (log_of tsn0 (take j sent)) m)) by (rewrite chunks_for_length; lia).
  rewrite take_app_length. apply fragments_concat. apply (fragment_count_bounds (length (am_data m)) Hp).
Qed.

(** An interval of the log that is a message is the chunks of one message sent. *)
Lemma sent_at_message tsn0 sent i n :
  Forall app_message_ok sent -> sent_at (log_of tsn0 sent) i n ->
  exists j m, sent !! j = Some m /\ i = start_of tsn0 sent j /\ message_of (log_of tsn0 sent) (i, n) = Some (deliver_of m).
Proof.
  intros Hok [Hr Hb Hin He]. destruct (log_position tsn0 sent i ltac:(lia)) as (j & m & t & Hm & Hi & Ht). exists j, m.
  pose proof (log_of_message tsn0 sent j m) as Hlog. pose proof (proj1 (Forall_lookup _ _) Hok j m Hm) as (_ & _ & Hp & _).
  set (c := fragment_count (length (am_data m))) in *. pose proof (fragment_count_pos _ Hp) as Hc. fold c in Hc.
  assert (forall u, (u < c)%nat -> exists d, log_of tsn0 sent !! (start_of tsn0 sent j + u)%nat = Some d /\ begins d = (u =? 0)%nat /\ ends d = (u + 1 =? c)%nat /\
    d_ppid d = am_ppid m /\ d_stream_id d = am_sid m) as Hall.
  { intros u Hu. rewrite (Hlog u Hm Hu). destruct (lookup_lt_is_Some_2 (chunks_for tsn0 (log_of tsn0 (take j sent)) m) u) as [d Hd]; [by rewrite chunks_for_length|].
    exists d. split; [done|]. apply chunks_for_lookup in Hd as (_ & _ & ? & ? & _ & ? & ? & _). done. }
  destruct (Hall t Ht) as (d & Hd & Hbd & _ & Hpd & Hsd). rewrite <- Hi in Hd. rewrite (Hb d Hd) in Hbd. symmetry in Hbd. apply Nat.eqb_eq in Hbd as ->.
  rewrite Nat.add_0_r in Hi. split; [done|]. split; [done|].
  assert (n = start_of tsn0 sent (S j)) as Hn.
  { rewrite (start_of_S _ _ _ _ Hm). fold c. destruct (lt_eq_lt_dec n (start_of tsn0 sent j + c)) as [[Hlt|]|Hgt]; [|done|]; exfalso.
    - destruct (Hall (n - 1 - start_of tsn0 sent j)%nat ltac:(lia)) as (d' & Hd' & _ & He' & _).
      replace (start_of tsn0 sent j + (n - 1 - start_of tsn0 sent j))%nat with (n - 1)%nat in Hd' by lia.
      rewrite (He d' Hd') in He'. symmetry in He'. apply Nat.eqb_eq in He'. lia.
    - destruct (Hall (c - 1)%nat ltac:(lia)) as (d' & Hd' & _ & He' & _). rewrite (Hin (start_of tsn0 sent j + (c - 1))%nat d' ltac:(lia) ltac:(lia) Hd') in He'.
      symmetry in He'. apply Nat.eqb_neq in He'. lia. }
  unfold message_of. cbn [fst snd]. rewrite Hd. cbn. unfold deliver_of. rewrite Hpd, Hsd, Hn, Hi. by rewrite (chunks_payload_message tsn0 sent j m Hok Hm).
Qed.
Lemma ordered_starts_messages tsn0 sent sid : Forall app_message_ok sent ->
  ordered_starts (log_of tsn0 sent) sid = map (start_of tsn0 sent) (ordered_idx sent sid).
Proof.
  induction sent as [|m sent IH] using rev_ind; intros Hok; [done|]. apply Forall_app in Hok as [Hok Hm]. apply Forall_cons_iff in Hm as [Hm _].
  rewrite log_of_snoc, ordered_starts_snoc, IH by (done || apply Hm). unfold ordered_idx. rewrite length_app, seq_app, filter_app, map_app.
  f_equal.
  - rewrite (filter_ext_in (ordered_msg (sent ++ [m]) sid) (ordered_msg sent sid)).
    + apply map_ext_in. intros j Hj. symmetry. apply start_of_snoc. apply list_elem_of_In, list_elem_of_filter in Hj as [_ Hj%list_elem_of_In%in_seq]. lia.
    + intros j Hj%in_seq. unfold ordered_msg. by rewrite lookup_app_l by lia.
  - cbn [length seq Nat.add]. rewrite filter_cons, filter_nil.
    assert (ordered_msg (sent ++ [m]) sid (length sent) <-> am_unordered m = false /\ am_sid m = sid) as Hiff.
    { unfold ordered_msg. rewrite lookup_app_r, Nat.sub_diag by lia. done. }
    assert (start_of tsn0 (sent ++ [m]) (length sent) = length (log_of tsn0 sent)) as Hst by (rewrite start_of_snoc, start_of_length by lia; done).
    destruct (decide _) as [Hd|Hd].
    + apply Hiff in Hd as [-> ->]. rewrite Z.eqb_refl. cbn. by rewrite Hst.
    + destruct (am_unordered m); [done|]. destruct (Z.eqb_spec (am_sid m) sid); [|done]. exfalso. by apply Hd, Hiff.
Qed.

Lemma log_of_ok tsn0 sent : Forall app_message_ok sent -> Z.of_nat (length (log_of tsn0 sent)) <= 65535 ->
  chunks_ok tsn0 (log_of tsn0 sent) /\ complete (log_of tsn0 sent).
Proof.
  induction sent as [|m sent IH] using rev_ind; intros Hok Hsize.
  { split; [|done]. constructor; try done. }
  apply Forall_app in Hok as [Hok Hm]. apply Forall_cons_iff in Hm as [Hm _]. rewrite log_of_snoc in *.
  destruct IH as [H1 H2]; [done | rewrite length_app in Hsize; lia |]. by apply chunks_ok_snoc.
Qed.

(** * A packet with one chunk at the receiver *)

Section receiver.
Context {R : Type} (random_bytes : R -> nat -> R * option (list Z)).

(** What [handle_chunks] does after the last chunk. *)
Definition finish_packet (s : sctp) (g : R) : res (sctp * R * Z) :=
  if sack_needed (rx s) && negb (nsctp_out_full s)
  then '(s, rc) ← nsctp_queue_sack s NANORTC_SCTP_MTU; Ok (s, g, rc) else Ok (s, g, NANORTC_OK).
Lemma handle_data_one s g sp dp vtag ctype chunk :
  (4 <= length chunk)%nat -> Z.of_nat (length chunk) <= UINT16_MAX -> chunk !! 0%nat = Some ctype ->
  nanortc_read_u16be chunk 2 = Ok (Z.of_nat (length chunk)) ->
  nsctp_handle_data random_bytes s g (sctp_packet sp dp vtag (padded chunk)) =
  if needs_output ctype && nsctp_out_full s then Ok (s, g, NANORTC_ERR_WOULD_BLOCK) else
  '(s, g, rc) ← handle_chunk random_bytes s g ctype chunk;
  if negb (rc =? NANORTC_OK) && negb ((ctype =? SCTP_CHUNK_DATA) && (rc =? NANORTC_ERR_WOULD_BLOCK)) then Ok (s, g, rc)
  else finish_packet s g.
Proof.
  intros H4 Hmax H0 Hlen. set (p := sctp_packet sp dp vtag (padded chunk)).
  pose proof (sctp_packet_fields sp dp vtag (padded chunk)) as (F1 & F2 & F3). fold p in F1, F2, F3.
  pose proof (pad4_ge (length chunk)) as Hpad.
  assert (length p = 12 + SCTP_PAD4 (length chunk))%nat as Hl by (unfold p; rewrite sctp_packet_length, padded_length; done).
  assert (exists pre, length pre = 12%nat /\ p = pre ++ chunk ++ replicate (SCTP_PAD4 (length chunk) - length chunk) 0) as (pre & Hpre & Hp).
  { exists (take 12 p). split; [rewrite length_take; lia|]. rewrite <- (take_drop 12 p) at 1. by rewrite F2. }
  unfold nsctp_handle_data, SCTP_HEADER_SIZE. rewrite (proj2 (Nat.ltb_ge _ _)) by lia. rewrite verify_checksum_spec by lia.
  rewrite F1, F2, F3, bool_decide_eq_true_2, bind_Ok by done. cbn [Z.eqb negb NANORTC_OK].
  assert (exists hdr, nsctp_parse_header p = Ok hdr) as [hdr ->].
  { unfold nsctp_parse_header. rewrite (proj2 (Nat.ltb_ge _ _)) by (unfold SCTP_HEADER_SIZE; lia).
    destruct (read16_some p 0) as [a ->]; [lia|]. destruct (read16_some p 2) as [b ->]; [lia|]. destruct (read32_some p 4) as [c ->]; [lia|]. rewrite !bind_Ok. eauto. }
  rewrite bind_Ok, Hl. change (12 + SCTP_PAD4 (length chunk))%nat with (S (S (10 + SCTP_PAD4 (length chunk)))) at 1.
  cbn [handle_chunks]. unfold SCTP_CHUNK_HDR_SIZE. rewrite Hl, (proj2 (Nat.leb_le _ _)) by lia.
  assert (rd8 p 12 = Ok ctype) as ->.
  { unfold rd8. by rewrite Hp, lookup_app_r, Hpre, Nat.sub_diag, lookup_app_l, H0 by lia. }
  assert (nanortc_read_u16be p (12 + 2) = Ok (Z.of_nat (length chunk))) as ->.
  { rewrite <- Hlen. unfold nanortc_read_u16be. rewrite Hp. rewrite <- Hpre, <- Nat.add_assoc, !rd8_app_r, !rd8_app_l by lia. done. }
  rewrite !bind_Ok, Nat2Z.id. rewrite (proj2 (Nat.ltb_ge _ _)) by lia. rewrite (proj2 (Nat.ltb_ge _ (12 + _))) by lia. cbn [orb].
  destruct (needs_output ctype && nsctp_out_full s); [done|].
  assert (rdn p 12 (length chunk) = Ok chunk) as -> by (rewrite Hp; by apply rdn_mid). rewrite bind_Ok.
  destruct (handle_chunk random_bytes s g ctype chunk) as [[[s' g'] rc]| |]; [|done|done]. rewrite !bind_Ok.
  destruct (_ && _); [done|]. rewrite (proj2 (Nat.leb_gt _ _)) by lia. done.
Qed.

Lemma ring_not_full s : nsctp_out_full s = false \/ nsctp_out_full s = true.
Proof. destruct (nsctp_out_full s); auto. Qed.
(** The receiver's half that takes no part in receiving. *)
Record passive (s : sctp) : Prop := {
  pv_state : sc_state s = NANORTC_SCTP_STATE_ESTABLISHED;
  pv_ring : ring_ok (fun _ => True) (out s);
  pv_queue : sq_count (sq s) = 0%nat /\ forward_pending (sq s) = false
}.
(** Two receive states that differ in [sack_needed] only. *)
Definition same_rx (r r' : sctp_rx) : Prop := exists b, r' = set_sack r b.
Lemma same_rx_refl r : same_rx r r.
Proof. exists (sack_needed r). by destruct r. Qed.
Lemma same_rx_trans r1 r2 r3 : same_rx r1 r2 -> same_rx r2 r3 -> same_rx r1 r3.
Proof. intros [b ->] [c ->]. by exists c. Qed.

Lemma finish_packet_Ok s g : passive s -> exists s' rc, finish_packet s g = Ok (s', g, rc) /\ passive s' /\ same_rx (rx s) (rx s').
Proof.
  intros [H1 H2 H3]. pose proof mtu_facts as [Hm _]. unfold finish_packet.
  destruct (sack_needed (rx s)) eqn:Hsack; cbn [andb]; [|exists s, NANORTC_OK; split; [done|]; split; [done|apply same_rx_refl]].
  destruct (nsctp_out_full s) eqn:Hfull; cbn [negb]; [exists s, NANORTC_OK; split; [done|]; split; [done|apply same_rx_refl]|].
  destruct (nsctp_queue_sack_Ok s NANORTC_SCTP_MTU H2 Hfull) as (o & -> & Ho & _); [change NSCTP_MAX_SACK_SIZE with 32%nat; lia|]. rewrite bind_Ok.
  eexists _, _. split; [done|]. split; [by constructor|]. by exists false.
Qed.

(** The receiver's [nsctp_poll_output] sends acknowledgements only. *)
Lemma poll_output_passive s : passive s ->
  exists s' rc buf n, nsctp_poll_output s (replicate NANORTC_SCTP_MTU 0) = Ok (s', rc, buf, n) /\ passive s' /\ same_rx (rx s) (rx s').
Proof.
  intros [H1 H2 [H3 H4]]. pose proof mtu_facts as [Hm _].
  assert (length (replicate NANORTC_SCTP_MTU 0) = NANORTC_SCTP_MTU) as Hbuf by apply length_replicate. unfold nsctp_poll_output. rewrite Hbuf.
  assert (exists s1 rc, (if sack_needed (rx s) && (out_head (out s) =? out_tail (out s)) then nsctp_queue_sack s NANORTC_SCTP_MTU else Ok (s, NANORTC_OK)) = Ok (s1, rc) /\
    passive s1 /\ same_rx (rx s) (rx s1) /\ sq s1 = sq s) as (s1 & rc & -> & Hp1 & Hs1 & Hq1).
  { destruct (sack_needed (rx s)); cbn [andb]; [|exists s, NANORTC_OK; split; [done|]; split; [by constructor|]; split; [apply same_rx_refl|done]].
    destruct (Z.eqb_spec (out_head (out s)) (out_tail (out s))) as [Heq|]; [|exists s, NANORTC_OK; split; [done|]; split; [by constructor|]; split; [apply same_rx_refl|done]].
    assert (nsctp_out_full s = false) as Hfull by (unfold nsctp_out_full; by rewrite Heq, Z.sub_diag).
    destruct (nsctp_queue_sack_Ok s NANORTC_SCTP_MTU H2 Hfull) as (o & -> & Ho & _); [change NSCTP_MAX_SACK_SIZE with 32%nat; lia|].
    eexists _, _. split; [done|]. split; [by constructor|]. split; [by exists false|done]. }
  rewrite bind_Ok. destruct (negb (rc =? NANORTC_OK)); [by eexists _, _, _, _|].
  destruct Hp1 as [G1 G2 [G3 G4]]. destruct (Z.eqb_spec (out_head (out s1)) (out_tail (out s1))) as [Heq|Hne]; cbn [negb].
  - rewrite G4. unfold poll_data. rewrite G1, bool_decide_eq_true_2 by done. cbn [negb]. unfold positions. rewrite G3. cbn [seq first_unsent].
    rewrite bind_Ok. by eexists _, _, _, _.
  - assert (0 < out_count (out s1))%nat as Hc by (destruct (ri_u8 _ _ G2); unfold out_count; mach).
    destruct (ri_packets _ _ G2 0%nat Hc) as (p & Hpk & _). pose proof Hpk as (b & n & Hb & Hn & Hmax & Hp & Hlen).
    rewrite Z.add_0_r, u8_id in Hn by apply (ri_u8 _ _ G2). rewrite Hn, (proj2 (Nat.ltb_ge _ _)) by lia.
    destruct (dequeue_output_Ok (fun _ => True) s1 (replicate NANORTC_SCTP_MTU 0) p G2 Hc Hpk ltac:(rewrite Hbuf; lia)) as (o & buf & -> & _ & _ & _ & Ho).
    rewrite bind_Ok. eexists _, _, _, _. split; [done|]. by split; [constructor|].
Qed.

(** A DATA packet: the receive half handles the chunk, nothing else happens but
    an acknowledgement. *)
Lemma receive_data s g sp dp vtag tsn0 log k d :
  passive s -> chunks_ok tsn0 log -> log !! k = Some d -> Z.of_nat (length (d_payload d)) <= 1172 ->
  (exists r rc, rx_data (rx s) d = Ok (r, rc)) ->
  exists s' rc r, nsctp_handle_data random_bytes s g
      (sctp_packet sp dp vtag (padded (data_chunk (d_tsn d) (d_stream_id d) (d_ssn d) (d_ppid d) (d_flags d) (d_payload d)))) = Ok (s', g, rc) /\
    passive s' /\ (exists rc, rx_data (rx s) d = Ok (r, rc)) /\ same_rx r (rx s').
Proof.
  intros Hp Hlog Hd Hlen (r & rc & Hr). set (chunk := data_chunk _ _ _ _ _ _).
  assert (length chunk = 16 + length (d_payload d))%nat as Hc by (unfold chunk, data_chunk; cbn; lia).
  rewrite (handle_data_one s g sp dp vtag SCTP_CHUNK_DATA chunk); [|lia | unfold UINT16_MAX; lia | done |].
  2: { rewrite Hc. replace (Z.of_nat (16 + length (d_payload d))) with (16 + Z.of_nat (length (d_payload d))) by lia. apply read16_field; [done..|mach]. }
  change (needs_output SCTP_CHUNK_DATA) with false. cbn [andb].
  change (handle_chunk random_bytes s g SCTP_CHUNK_DATA chunk) with ('(s, rc) ← nsctp_handle_data_chunk s chunk; Ok (s, g, rc)).
  unfold nsctp_handle_data_chunk. rewrite (pv_state s Hp), bool_decide_eq_true_2 by done. cbn [negb].
  unfold chunk. rewrite (rx_data_chunk_log tsn0 log k d (rx s) Hlog Hd), Hr, !bind_Ok.
  assert (passive (with_rx s r)) as Hp' by (destruct Hp; by constructor).
  destruct (_ && _).
  - exists (with_rx s r), rc, r. split; [done|]. split; [done|]. split; [by exists rc | apply same_rx_refl].
  - destruct (finish_packet_Ok (with_rx s r) g Hp') as (s' & rc' & -> & Hp'' & Hs). exists s', rc', r. split; [done|]. split; [done|]. split; [by exists rc | done].
Qed.

(** A HEARTBEAT leaves the receive half alone. *)
Lemma receive_heartbeat s g sp dp vtag nonce :
  passive s -> length nonce = NSCTP_NONCE_SIZE ->
  exists s' rc, nsctp_handle_data random_bytes s g (sctp_packet sp dp vtag (padded (heartbeat_chunk SCTP_CHUNK_HEARTBEAT nonce))) = Ok (s', g, rc) /\
    passive s' /\ same_rx (rx s) (rx s').
Proof.
  intros Hp Hn. pose proof mtu_facts as [Hm _]. set (chunk := heartbeat_chunk _ _). assert (length chunk = 16)%nat as Hc by (unfold chunk; rewrite heartbeat_chunk_length, Hn; done).
  rewrite (handle_data_one s g sp dp vtag SCTP_CHUNK_HEARTBEAT chunk); [|lia | unfold UINT16_MAX; lia | done |].
  2: { rewrite Hc. unfold chunk, heartbeat_chunk. rewrite Hn. done. }
  change (needs_output SCTP_CHUNK_HEARTBEAT) with true. cbn [andb].
  destruct (nsctp_out_full s) eqn:Hfull; [exists s, NANORTC_ERR_WOULD_BLOCK; split; [done|]; split; [done|apply same_rx_refl]|].
  change (handle_chunk random_bytes s g SCTP_CHUNK_HEARTBEAT chunk) with ('(s, rc) ← nsctp_handle_heartbeat s chunk; Ok (s, g, rc)).
  unfold nsctp_handle_heartbeat. cbv zeta. rewrite Hc. change (16 <? 8)%nat with false. cbv iota.
  assert (nanortc_read_u16be chunk 6 = Ok 12) as -> by (unfold chunk, heartbeat_chunk; rewrite Hn; done). rewrite bind_Ok.
  change (4 <=? 12) with true. cbv iota. change (Z.to_nat (12 - 4)) with 8%nat. change (16 <? 8 + 8)%nat with false. cbv iota. rewrite Hfull.
  change (SCTP_PAD4 (8 + 8)) with 16%nat. unfold SCTP_HEADER_SIZE. rewrite (proj2 (Nat.ltb_ge _ _)) by lia.
  assert (rdn chunk 8 8 = Ok nonce) as ->.
  { rewrite rdn_Ok by lia. f_equal. change (drop 8 chunk) with nonce. apply take_ge. by rewrite Hn. }
  rewrite bind_Ok. destruct (send_chunk_Ok (fun _ => True) s (remote_vtag (peer s)) _ _ (pv_ring s Hp) Hfull (encodes_heartbeat_ack nonce ltac:(rewrite Hn; change (SCTP_PAD4 (8 + NSCTP_NONCE_SIZE)) with 16%nat; lia)))
    as (o & -> & _ & _ & _ & _ & Ho); [rewrite heartbeat_chunk_length, Hn; change (SCTP_PAD4 (8 + NSCTP_NONCE_SIZE)) with 16%nat; lia|]. rewrite !bind_Ok.
  cbn [Z.eqb negb andb NANORTC_OK]. assert (passive (with_out s o)) as Hp' by (destruct Hp; constructor; [done | by apply Ho | done]).
  destruct (finish_packet_Ok (with_out s o) g Hp') as (s' & rc' & -> & Hp'' & Hs). by exists s', rc'.
Qed.
End receiver.

(** * The sender *)

Definition swap_ssn (r : sctp_rx) : sctp_rx :=
  SctpRx (stream_ids r) (recv_ssn r) (next_ssn r) (stream_count r) (cumulative_tsn r) (sack_needed r) (recv_gap r) (recv_gap_count r)
    (recv_gap_buf r) (recv_gap_buf_used r).
Lemma stream_swap r sid : nsctp_stream (swap_ssn r) sid = let '(r', o) := nsctp_stream r sid in (swap_ssn r', o).
Proof. unfold nsctp_stream. cbn. destruct (find_stream _ sid 0); [done|]. by destruct (_ =? _)%nat. Qed.
Definition heartbeat_packet (p : list Z) : Prop :=
  exists sp dp v nonce, length nonce = NSCTP_NONCE_SIZE /\ p = sctp_packet sp dp v (padded (heartbeat_chunk SCTP_CHUNK_HEARTBEAT nonce)).
Definition data_packet (log : list nsctp_data) (p : list Z) : Prop :=
  exists sp dp v k d, log !! k = Some d /\ Z.of_nat (length (d_payload d)) <= 1172 /\
    p = sctp_packet sp dp v (padded (data_chunk (d_tsn d) (d_stream_id d) (d_ssn d) (d_ppid d) (d_flags d) (d_payload d))).

(** A sender whose log of chunks is that of [sent]. *)
Record sender (tsn0 : Z) (sent : list app_message) (s : sctp) : Prop := {
  sn_queue : send_inv tsn0 (log_of tsn0 sent) (sq s);
  sn_ring : ring_ok heartbeat_packet (out s);
  sn_sack : sack_needed (rx s) = false;
  sn_streams : streams_ok (swap_ssn (rx s));
  sn_ssn : forall sid, ssn_of (swap_ssn (rx s)) sid = u16 (Z.of_nat (length (ordered_starts (log_of tsn0 sent) sid)));
  sn_sent : Forall app_message_ok sent
}.

Lemma sender_send tsn0 sent s m :
  sender tsn0 sent s -> is_u16 (am_sid m) -> is_u32 (am_ppid m) -> (0 < length (am_data m))%nat ->
  exists s' rc, nsctp_send_options s (am_sid m) (am_ppid m) (am_data m) (am_unordered m) (-1) = Ok (s', rc) /\
    sender tsn0 (if rc =? NANORTC_OK then sent ++ [m] else sent) s'.
Proof.
  intros Hs Hsid Hpp Hne. pose proof Hs as [Hq Hr Hk Hst Hssn Hsent]. pose proof size_facts as (_ & Hmax & _).
  assert (forall rc, rc <> NANORTC_OK -> exists s' rc', Ok (s, rc) = Ok (s', rc') /\ sender tsn0 (if rc' =? NANORTC_OK then sent ++ [m] else sent) s') as Hskip.
  { intros rc Hrc. exists s, rc. split; [done|]. by rewrite (proj2 (Z.eqb_neq _ _)). }
  unfold nsctp_send_options. cbv zeta. destruct (negb (bool_decide _)); [by apply Hskip|].
  change ((-1 <? -1) || (UINT16_MAX <? -1)) with false. change (0 <=? -1) with false. cbn [andb]. cbv iota.
  destruct (_ || _ || _) eqn:Hbig; [by apply Hskip|]. bool_facts.
  destruct (_ <? fragment_count _)%nat; [by apply Hskip|]. destruct (_ || _) eqn:Hroom; [by apply Hskip|]. bool_facts. clear Hskip.
  pose proof (nsctp_stream_Ok (swap_ssn (rx s)) (am_sid m) Hst) as Hstream. rewrite stream_swap in Hstream.
  destruct (nsctp_stream (rx s) (am_sid m)) as [r [st|]] eqn:Hns.
  2: { destruct Hstream as (Hst' & Hrest & Hssn' & _). exists (with_rx s r), NANORTC_ERR_BUFFER_TOO_SMALL. split; [done|].
       change (NANORTC_ERR_BUFFER_TOO_SMALL =? NANORTC_OK) with false. cbv iota. constructor; try done.
       - unfold nsctp_stream in Hns. destruct (find_stream _ _ _); [done|]. destruct (_ =? _)%nat; [|done]. by injection Hns as <-.
       - intros sid. cbn. rewrite Hssn'. apply Hssn. }
  destruct Hstream as (Hst' & Hrest & Hssn' & Hnth & Hupd).
  assert (sack_needed r = false) as Hkr.
  { unfold nsctp_stream in Hns. destruct (find_stream _ _ _); [by injection Hns as <- _|]. destruct (_ =? _)%nat; [done|]. by injection Hns as <- _. }
  change (nth_ssn (swap_ssn r) st) with (nth st (next_ssn r) 0) in Hnth. rewrite Hnth.
  set (ssn := if am_unordered m then 0 else ssn_of (swap_ssn (rx s)) (am_sid m)).
  set (s1 := if am_unordered m then with_rx s r else _).
  assert (sq s1 = sq s) as -> by (unfold s1; by destruct (am_unordered m)).
  destruct (queue_message_Ok tsn0 (log_of tsn0 sent) (sq s) (am_sid m) ssn (am_ppid m) (am_unordered m) (am_data m) Hq) as (q' & -> & Hq').
  { pose proof (si_count _ _ _ Hq). lia. }
  { pose proof (si_used _ _ _ Hq). lia. }
  rewrite bind_Ok. exists (with_sq s1 q'), NANORTC_OK. split; [done|]. cbn [Z.eqb NANORTC_OK].
  assert (app_message_ok m) as Hm by (split; [done|]; split; [done|]; split; [done|lia]).
  assert (log_of tsn0 (sent ++ [m]) = log_of tsn0 sent ++ message_chunks (next_tsn (sq s)) (am_sid m) ssn (am_ppid m) (am_unordered m) (am_data m)) as Hlog.
  { rewrite log_of_snoc. unfold chunks_for, ssn. rewrite (si_next _ _ _ Hq), Hssn. done. }
  constructor.
  - cbn [sq with_sq]. by rewrite Hlog.
  - unfold s1. by destruct (am_unordered m).
  - unfold s1. by destruct (am_unordered m).
  - unfold s1. destruct (am_unordered m); [done|]. cbn. specialize (Hupd (u16 (ssn + 1))) as [Hupd _]. by destruct Hupd; constructor.
  - intros sid. rewrite log_of_snoc, ordered_starts_snoc by done. unfold s1. destruct (am_unordered m) eqn:Hun; cbn [rx with_sq with_rx negb andb].
    + rewrite app_nil_r, Hssn'. apply Hssn.
    + specialize (Hupd (u16 (ssn + 1))) as [_ Hupd]. change (swap_ssn (set_next_ssn r (<[st := u16 (ssn + 1)]> (next_ssn r))))
        with (set_recv_ssn (swap_ssn r) (<[st := u16 (ssn + 1)]> (recv_ssn (swap_ssn r)))). rewrite Hupd. unfold ssn. rewrite !Hssn.
      rewrite (Z.eqb_sym (am_sid m) sid). destruct (Z.eqb_spec sid (am_sid m)) as [->|]; [|by rewrite app_nil_r].
      rewrite length_app. cbn [length]. mach.
  - apply Forall_app. split; [done|]. by constructor.
Qed.

Section sending.
Context {R : Type} (random_bytes : R -> nat -> R * option (list Z)).
Context (Hrandom : forall g n g' b, random_bytes g n = (g', Some b) -> length b = n).

Lemma sender_timeout tsn0 sent s g now :
  sender tsn0 sent s -> exists s' g' rc, nsctp_handle_timeout random_bytes s g now = Ok (s', g', rc) /\ sender tsn0 sent s'.
Proof using Hrandom.
  intros [Hq Hr Hk Hst Hssn Hsent]. pose proof mtu_facts as [Hm _]. unfold nsctp_handle_timeout. cbv zeta. change (sq (with_now s now)) with (sq s).
  destruct (negb (bool_decide _)); [eexists _, _, _; split; [done|]; by constructor|].
  destruct (resend_scan_Ok _ _ now (positions (sq s)) (sq s) Hq (positions_all _)) as (r & -> & Hr'). rewrite bind_Ok. destruct r as [q|q].
  2: { eexists _, _, _. split; [done|]. by constructor. }
  rewrite (forward_repeat_Ok _ _ now q Hr'), bind_Ok. set (s1 := with_sq _ q). assert (sender tsn0 sent s1) as H1 by (by constructor).
  unfold handle_heartbeat_timer. destruct (_ && _ && _ && _) eqn:Hhb; [|by eexists _, _, _]. bool_facts.
  destruct (random_bytes g NSCTP_NONCE_SIZE) as [g' [nonce|]] eqn:Hrand; [|by eexists _, _, _].
  apply Hrandom in Hrand as Hn.
  assert (SCTP_PAD4 (8 + length nonce) <= NANORTC_SCTP_MTU - 12)%nat as Hfit by (rewrite Hn; change (SCTP_PAD4 (8 + NSCTP_NONCE_SIZE)) with 16%nat; lia).
  destruct (send_chunk_Ok heartbeat_packet s1 (remote_vtag (peer s1)) _ _ (sn_ring _ _ _ H1) ltac:(done) (encodes_heartbeat nonce Hfit))
    as (o & -> & _ & _ & _ & _ & Ho); [by rewrite heartbeat_chunk_length|]. rewrite bind_Ok.
  eexists _, _, _. split; [done|]. constructor; try done. apply Ho. by eexists _, _, _, nonce.
Qed.

Lemma encodes_fit n : (n <= 1172)%nat -> (SCTP_PAD4 (16 + n) <= NANORTC_SCTP_MTU - 12)%nat.
Proof using.
  intros H. pose proof mtu_facts as [Hm _]. rewrite pad4_eq. assert ((16 + n + 3) / 4 <= 297)%nat as Hd; [|lia].
  transitivity ((1172 + 16 + 3) / 4)%nat; [apply Nat.Div0.div_le_mono; lia | by vm_compute].
Qed.
(** [nsctp_poll_output] emits a HEARTBEAT or a chunk of the log. *)
Lemma sender_poll tsn0 sent s :
  sender tsn0 sent s ->
  exists s' rc buf n, nsctp_poll_output s (replicate NANORTC_SCTP_MTU 0) = Ok (s', rc, buf, n) /\ sender tsn0 sent s' /\
    (rc = NANORTC_OK -> exists k, n = Some k /\ (heartbeat_packet (take k buf) \/ data_packet (log_of tsn0 sent) (take k buf))).
Proof using.
  intros Hs. pose proof Hs as [Hq Hr Hk Hst Hssn Hsent]. pose proof mtu_facts as [Hm _]. pose proof sbuf_facts as [Hsb Hmp].
  assert (length (replicate NANORTC_SCTP_MTU 0) = NANORTC_SCTP_MTU) as Hbuf by apply length_replicate. unfold nsctp_poll_output. rewrite Hbuf, Hk.
  cbn [andb]. rewrite bind_Ok. cbn [Z.eqb negb NANORTC_OK].
  destruct (Z.eqb_spec (out_head (out s)) (out_tail (out s))) as [Heq|Hne]; cbn [negb].
  2: { assert (0 < out_count (out s))%nat as Hc by (destruct (ri_u8 _ _ Hr); unfold out_count; mach).
       destruct (ri_packets _ _ Hr 0%nat Hc) as (p & Hpk & HP). pose proof Hpk as (b & n & Hb & Hn & Hmax & Hp & Hlen).
       rewrite Z.add_0_r, u8_id in Hn by apply (ri_u8 _ _ Hr). rewrite Hn, (proj2 (Nat.ltb_ge _ _)) by lia.
       destruct (dequeue_output_Ok heartbeat_packet s (replicate NANORTC_SCTP_MTU 0) p Hr Hc Hpk ltac:(rewrite Hbuf; lia)) as (o & buf & -> & Htk & _ & _ & Ho).
       rewrite bind_Ok. eexists _, _, _, _. split; [done|]. split; [by constructor|]. intros _. exists (length p). split; [done|]. left. by rewrite Htk. }
  rewrite (si_forward _ _ _ Hq). unfold poll_data. destruct (negb (bool_decide _)); [by eexists _, _, _, _|].
  destruct (first_unsent_Ok _ _ _ Hq) as ([k|] & -> & Hkk); rewrite bind_Ok; [|by eexists _, _, _, _].
  destruct (si_entry _ _ _ Hq k Hkk) as (e & He & Hrel & Hoff & Hlen & Hlog). rewrite (sentry_Ok _ _ _ He), bind_Ok.
  pose proof (encodes_fit (t_len e) ltac:(lia)) as Hfit. unfold SCTP_HEADER_SIZE. rewrite (proj2 (Nat.ltb_ge _ _)) by lia.
  pose proof (si_used _ _ _ Hq) as Hused. pose proof (si_buf _ _ _ Hq) as Hsbuf. rewrite rdn_Ok, bind_Ok by lia.
  set (payload := take (t_len e) (drop (t_off e) (send_buf (sq s)))).
  assert (length payload = t_len e) as Hpl by (unfold payload; rewrite length_take, length_drop; lia).
  assert (nsctp_out_full s = false) as Hfull by (unfold nsctp_out_full; by rewrite Heq, Z.sub_diag).
  assert (out_count (out s) = 0%nat) as Hcount by (unfold out_count; by rewrite Heq, Z.sub_diag).
  assert (ring_ok (fun _ => True) (out s)) as Hrt by (by apply (ring_mono heartbeat_packet)).
  set (chunk := data_chunk (t_tsn e) (t_stream_id e) (t_ssn e) (t_ppid e) (t_flags e) payload).
  assert (length chunk = 16 + t_len e)%nat as Hc by (unfold chunk, data_chunk; cbn; lia).
  destruct (send_chunk_Ok (fun _ => True) s (remote_vtag (peer s)) _ chunk Hrt Hfull (encodes_data (t_tsn e) (t_stream_id e) (t_ssn e) (t_ppid e) (t_flags e) payload ltac:(by rewrite Hpl)))
    as (o & -> & Hhead & Hcnt & Hpk & _ & Ho); [by rewrite Hc|]. rewrite bind_Ok. specialize (Ho I). rewrite Hcount in *.
  set (s1 := with_sq (with_out s o) _). set (packet := sctp_packet _ _ _ _) in Hpk.
  assert (length packet <= NANORTC_SCTP_MTU)%nat as Hplen by (unfold packet; rewrite sctp_packet_length, padded_length, Hc; lia).
  destruct (dequeue_output_Ok (fun _ => True) s1 (replicate NANORTC_SCTP_MTU 0) packet Ho ltac:(cbn; lia) Hpk ltac:(lia)) as (o' & buf & -> & Htk & _ & Hc' & Ho').
  rewrite bind_Ok. eexists _, _, _, _. split; [done|]. split.
  - constructor; try done.
    + cbn. by apply (put_inv _ _ _ _ e).
    + cbn [out with_out s1 with_sq] in *. destruct Ho' as [O1 O2 O3 O4 O5]. constructor; try done. intros j Hj. exfalso. change (out (with_out s o)) with o in Hc'. lia.
  - intros _. exists (length packet). split; [done|]. right. rewrite Htk. exists (local_port s), (remote_port s), (remote_vtag (peer s)).
    exists (length (log_of tsn0 sent) - sq_count (sq s) + k)%nat, (chunk_of (sq s) e). split; [done|]. split; [cbn [chunk_of d_payload]; fold payload; lia | done].
Qed.
End sending.

(** * The network *)

Section network.
Context {R : Type} (random_bytes : R -> nat -> R * option (list Z)).
Context (Hrandom : forall g n g' b, random_bytes g n = (g', Some b) -> length b = n).

(** A sender, a receiver, every packet the sender ever emitted, the messages
    accepted for sending and those delivered. *)
Record link : Type := Link { tx_end : sctp; tx_rng : R; rx_end : sctp; rx_rng : R; wire : list (list Z); sent : list app_message; got : list message }.
Inductive link_event : Type :=
| Send (m : app_message)      (** the application sends *)
| Transmit                    (** the sender's [nsctp_poll_output] *)
| SackIn (chunk : list Z)     (** any octets as a SACK chunk at the sender *)
| Timer (now : Z)             (** the sender's [nsctp_handle_timeout] *)
| Receive (k : nat)           (** the [k]th packet ever emitted arrives *)
| Reply                       (** the receiver's [nsctp_poll_output] *)
| Deliver.                    (** the receiver's [nsctp_poll_delivery] *)
Definition link_step (l : link) (ev : link_event) : res link :=
  match ev with
  | Send m =>
      '(s, rc) ← nsctp_send_options (tx_end l) (am_sid m) (am_ppid m) (am_data m) (am_unordered m) (-1);
      Ok (Link s (tx_rng l) (rx_end l) (rx_rng l) (wire l) (if rc =? NANORTC_OK then sent l ++ [m] else sent l) (got l))
  | Transmit =>
      '(s, rc, buf, n) ← nsctp_poll_output (tx_end l) (replicate NANORTC_SCTP_MTU 0);
      Ok (Link s (tx_rng l) (rx_end l) (rx_rng l)
            (match n with Some n => if rc =? NANORTC_OK then wire l ++ [take n buf] else wire l | None => wire l end) (sent l) (got l))
  | SackIn chunk => '(s, _) ← handle_sack_chunk (tx_end l) chunk; Ok (Link s (tx_rng l) (rx_end l) (rx_rng l) (wire l) (sent l) (got l))
  | Timer now =>
      '(s, g, _) ← nsctp_handle_timeout random_bytes (tx_end l) (tx_rng l) now; Ok (Link s g (rx_end l) (rx_rng l) (wire l) (sent l) (got l))
  | Receive k =>
      match wire l !! k with
      | None => Ok l
      | Some p => '(s, g, _) ← nsctp_handle_data random_bytes (rx_end l) (rx_rng l) p; Ok (Link (tx_end l) (tx_rng l) s g (wire l) (sent l) (got l))
      end
  | Reply => '(s, _, _, _) ← nsctp_poll_output (rx_end l) (replicate NANORTC_SCTP_MTU 0); Ok (Link (tx_end l) (tx_rng l) s (rx_rng l) (wire l) (sent l) (got l))
  | Deliver =>
      '(r, _, m) ← nsctp_poll_delivery (rx (rx_end l));
      Ok (Link (tx_end l) (tx_rng l) (with_rx (rx_end l) r) (rx_rng l) (wire l) (sent l) (got l ++ match m with Some m => [m] | None => [] end))
  end.
Definition link_run (l : link) (events : list link_event) : res link := fold_res link_step l events.
Definition event_ok (ev : link_event) : Prop :=
  match ev with Send m => is_u16 (am_sid m) /\ is_u32 (am_ppid m) /\ (0 < length (am_data m))%nat | _ => True end.

Lemma same_rx_follows tsn0 log r r' out ivs : same_rx r r' -> follows_log tsn0 log (r, out) ivs -> follows_log tsn0 log (r', out) ivs.
Proof using.
  intros [b ->] [H1 (q & c & iv & H2 & H3) H4]. constructor; cbn [fst snd] in *; [| |done].
  - destruct H1 as [P1 P2 P3]. constructor; [by destruct P1; constructor | by destruct P2; constructor | done].
  - exists q, c, iv. done.
Qed.
Record link_inv (tsn0 : Z) (l : link) : Prop := {
  li_sender : sender tsn0 (sent l) (tx_end l);
  li_passive : passive (rx_end l);
  li_wire : Forall (fun p => heartbeat_packet p \/ data_packet (log_of tsn0 (sent l)) p) (wire l);
  li_received : forall more, chunks_ok tsn0 (log_of tsn0 (sent l) ++ more) ->
    exists ivs, follows_log tsn0 (log_of tsn0 (sent l) ++ more) (rx (rx_end l), got l) ivs
}.
Lemma data_packet_mono log more p : data_packet log p -> data_packet (log ++ more) p.
Proof using. intros (sp & dp & v & k & d & Hd & H). exists sp, dp, v, k, d. split; [|done]. by apply lookup_app_l_Some. Qed.
Lemma link_step_Ok tsn0 l ev :
  link_inv tsn0 l -> event_ok ev -> Z.of_nat (length (log_of tsn0 (sent l))) <= 65535 ->
  exists l', link_step l ev = Ok l' /\ link_inv tsn0 l' /\ (length (sent l') <= S (length (sent l)))%nat.
Proof using Hrandom.
  intros [Hs Hp Hw Hr] Hev Hsize. destruct (log_of_ok tsn0 (sent l) (sn_sent _ _ _ Hs) Hsize) as [Hlog _].
  destruct (Hr [] ltac:(by rewrite app_nil_r)) as [ivs0 Hf0]. rewrite app_nil_r in Hf0.
  destruct ev as [m| |chunk|now|k| |]; cbn [link_step event_ok] in *.
  - destruct Hev as (H1 & H2 & H3). destruct (sender_send tsn0 (sent l) (tx_end l) m Hs H1 H2 H3) as (s & rc & -> & Hs'). rewrite bind_Ok.
    eexists. split; [done|]. cbn [tx_end rx_end wire sent got]. split; [|destruct (rc =? NANORTC_OK); rewrite ?length_app; cbn; lia].
    assert (exists more, log_of tsn0 (if rc =? NANORTC_OK then sent l ++ [m] else sent l) = log_of tsn0 (sent l) ++ more) as [more Hmore].
    { destruct (rc =? NANORTC_OK); [rewrite log_of_snoc; eauto | exists []; by rewrite app_nil_r]. }
    constructor; cbn [tx_end rx_end wire sent got]; [done | done | |].
    + rewrite Hmore. eapply Forall_impl; [exact Hw|]. intros p [?|?]; [by left | right; by apply data_packet_mono].
    + intros more'. rewrite Hmore, <- app_assoc. apply Hr.
  - destruct (sender_poll tsn0 (sent l) (tx_end l) Hs) as (s & rc & buf & n & -> & Hs' & Hout). rewrite bind_Ok. eexists. split; [done|].
    cbn [tx_end rx_end wire sent got]. split; [|lia]. constructor; cbn [tx_end rx_end wire sent got]; [done | done | | done].
    destruct n as [n|]; [|done]. destruct (Z.eqb_spec rc NANORTC_OK) as [Hrc|]; [|done]. destruct (Hout Hrc) as (k & [= <-] & Hk).
    apply Forall_app. split; [done|]. by constructor.
  - unfold handle_sack_chunk. destruct (nsctp_handle_sack_chunk_Ok _ _ _ chunk (sn_queue _ _ _ Hs)) as (q & rc & -> & Hq). rewrite !bind_Ok.
    eexists. split; [done|]. cbn [tx_end rx_end wire sent got]. split; [|lia]. constructor; cbn [tx_end rx_end wire sent got]; [|done..].
    destruct Hs. by constructor.
  - destruct (sender_timeout random_bytes Hrandom tsn0 (sent l) (tx_end l) (tx_rng l) now Hs) as (s & g & rc & -> & Hs'). rewrite bind_Ok.
    eexists. split; [done|]. cbn [tx_end rx_end wire sent got]. split; [|lia]. by constructor.
  - destruct (wire l !! k) as [p|] eqn:Hk; [|exists l; split; [done|]; split; [by constructor|lia]].
    pose proof (proj1 (Forall_lookup _ _) Hw k p Hk) as [(sp & dp & v & nonce & Hn & ->)|(sp & dp & v & j & d & Hd & Hlen & ->)].
    + destruct (receive_heartbeat random_bytes (rx_end l) (rx_rng l) sp dp v nonce Hp Hn) as (s & rc & -> & Hp' & Hsame). rewrite bind_Ok.
      eexists. split; [done|]. cbn [tx_end rx_end wire sent got]. split; [|lia]. constructor; cbn [tx_end rx_end wire sent got]; [done | done | done |].
      intros more Hok. set (log := log_of tsn0 (sent l) ++ more) in *. destruct (Hr more Hok) as [ivs Hf]. exists ivs. by eapply same_rx_follows.
    + destruct Hf0 as [Hok0 (q & c & iv & Hab & Hinv) _]. cbn [fst] in *.
      destruct (rx_data_Ok (rx (rx_end l)) q d Hok0 Hab (lo_payload _ _ Hlog j d Hd)) as (r & rc & _ & Hrx & _).
      destruct (receive_data random_bytes (rx_end l) (rx_rng l) sp dp v tsn0 (log_of tsn0 (sent l)) j d Hp Hlog Hd Hlen ltac:(by exists r, rc))
        as (s & rc' & r' & -> & Hp' & (rc'' & Hrx') & Hsame). rewrite bind_Ok. rewrite Hrx in Hrx'. injection Hrx' as <- <-.
      eexists. split; [done|]. cbn [tx_end rx_end wire sent got]. split; [|lia]. constructor; cbn [tx_end rx_end wire sent got]; [done | done | done |].
      intros more Hok. set (log := log_of tsn0 (sent l) ++ more) in *. destruct (Hr more Hok) as [ivs [Hok1 (q1 & c1 & iv1 & Hab1 & Hinv1) Hout]]. cbn [fst Datatypes.snd] in *.
      assert (log !! j = Some d) as Hd' by (by apply lookup_app_l_Some). exists ivs. apply (same_rx_follows _ _ _ _ _ _ Hsame).
      destruct (rx_data_Ok (rx (rx_end l)) q1 d Hok1 Hab1 (lo_payload _ _ Hok j d Hd')) as (r2 & rc2 & q2 & Hrx2 & Hok2 & Hab2 & Harr).
      rewrite Hrx in Hrx2. injection Hrx2 as <- <-. destruct (inv_arrive _ _ Hok _ _ _ _ _ _ _ _ Hinv1 Hd' Harr) as (c2 & iv2 & Hinv2).
      constructor; [done | by exists q2, c2, iv2 | done].
  - destruct (poll_output_passive (rx_end l) Hp) as (s & rc & buf & n & -> & Hp' & Hsame). rewrite bind_Ok.
    eexists. split; [done|]. cbn [tx_end rx_end wire sent got]. split; [|lia]. constructor; cbn [tx_end rx_end wire sent got]; [done | done | done |].
    intros more Hok. set (log := log_of tsn0 (sent l) ++ more) in *. destruct (Hr more Hok) as [ivs Hf]. exists ivs. by eapply same_rx_follows.
  - destruct Hf0 as [Hok0 (q & c & iv & Hab & Hinv) _]. cbn [fst] in *.
    destruct (nsctp_poll_refines (rx (rx_end l)) q Hok0 Hab) as (r & rc & m & _ & Hpoll & _). rewrite Hpoll, bind_Ok.
    eexists. split; [done|]. cbn [tx_end rx_end wire sent got]. split; [|lia].
    constructor; cbn [tx_end rx_end wire sent got]; [done | destruct Hp; by constructor | done |].
    intros more Hok. set (log := log_of tsn0 (sent l) ++ more) in *. destruct (Hr more Hok) as [ivs Hf].
    destruct (rx_step_Ok tsn0 log (rx (rx_end l), got l) ivs Poll Hok Hf) as (st & ivs' & Hstep & Hf'). cbn [net_step] in Hstep.
    rewrite Hpoll, bind_Ok in Hstep. injection Hstep as <-. by exists ivs'.
Qed.
Lemma fragment_count_max n : Z.of_nat n <= 4096 -> (fragment_count n <= 4)%nat.
Proof using.
  intros H. pose proof sbuf_facts as [_ Hm]. destruct (decide (n = 0)%nat) as [->|]; [by vm_compute; lia|].
  pose proof (fragment_count_bounds n ltac:(lia)) as [_ Hc]. cbv zeta in Hc. nia.
Qed.
Lemma log_of_bound tsn0 msgs : Forall app_message_ok msgs -> (length (log_of tsn0 msgs) <= 4 * length msgs)%nat.
Proof using.
  induction msgs as [|m msgs IH] using rev_ind; intros H; [done|]. apply Forall_app in H as [H Hm]. apply Forall_cons_iff in Hm as [(_ & _ & _ & Hm) _].
  rewrite log_of_snoc, !length_app, chunks_for_length. pose proof (fragment_count_max _ Hm). specialize (IH H). cbn [length]. lia.
Qed.
Lemma link_run_Ok tsn0 events : forall l,
  link_inv tsn0 l -> Forall event_ok events -> 4 * (Z.of_nat (length (sent l)) + Z.of_nat (length events)) <= 65535 ->
  exists l', link_run l events = Ok l' /\ link_inv tsn0 l' /\ (length (sent l') <= length (sent l) + length events)%nat.
Proof using Hrandom.
  induction events as [|ev events IH]; intros l Hl Hev Hsize; [exists l; split; [done|]; split; [done|cbn; lia]|].
  apply Forall_cons_iff in Hev as [He Hev]. cbn [length] in Hsize. pose proof (log_of_bound tsn0 (sent l) (sn_sent _ _ _ (li_sender _ _ Hl))) as Hb.
  destruct (link_step_Ok tsn0 l ev Hl He ltac:(lia)) as (l1 & Hs & Hl1 & Hn1). unfold link_run. cbn [fold_res]. rewrite Hs, bind_Ok.
  destruct (IH l1 Hl1 Hev ltac:(lia)) as (l' & Hr & Hl' & Hn'). exists l'. split; [exact Hr|]. split; [done|]. cbn [length]. lia.
Qed.

(** What the receiver has delivered, in terms of what was sent. *)
Definition faithful (msgs : list app_message) (out : list message) : Prop :=
  exists idx, Forall2 (fun j m => exists a, msgs !! j = Some a /\ m = deliver_of a) idx out /\ NoDup idx /\
    forall sid, filter (ordered_msg msgs sid) idx `prefix_of` ordered_idx msgs sid.
Lemma map_inj_in {A B} (f : A -> B) (l l' : list A) :
  (forall x y, x ∈ l -> y ∈ l' -> f x = f y -> x = y) -> map f l = map f l' -> l = l'.
Proof using.
  revert l'. induction l as [|x l IH]; intros [|y l'] Hf H; try done. cbn in H. injection H as H1 H2.
  f_equal; [apply Hf; [left|left|done] | apply IH; [|done]]. intros a b Ha Hb. apply Hf; by right.
Qed.
Lemma ordered_on_start tsn0 msgs j a sid : Forall app_message_ok msgs -> msgs !! j = Some a ->
  ordered_on (log_of tsn0 msgs) sid (start_of tsn0 msgs j) <-> ordered_msg msgs sid j.
Proof using.
  intros Hok Ha. pose proof (proj1 (Forall_lookup _ _) Hok j a Ha) as (_ & _ & Hp & _). pose proof (fragment_count_pos _ Hp) as Hc.
  pose proof (log_of_message tsn0 msgs j a 0 Ha Hc) as Hl. rewrite Nat.add_0_r in Hl. unfold ordered_on, ordered_msg. rewrite Ha, Hl.
  destruct (lookup_lt_is_Some_2 (chunks_for tsn0 (log_of tsn0 (take j msgs)) a) 0) as [d Hd]; [by rewrite chunks_for_length|]. rewrite Hd.
  apply chunks_for_lookup in Hd as (_ & _ & -> & _ & _ & -> & _ & -> & _). by split; [intros (_ & ? & ?) | intros (? & ?)].
Qed.
Lemma link_inv_faithful tsn0 l : link_inv tsn0 l -> Z.of_nat (length (log_of tsn0 (sent l))) <= 65535 -> faithful (sent l) (got l).
Proof using.
  intros [Hs _ _ Hr] Hsize. pose proof (sn_sent _ _ _ Hs) as Hok. destruct (log_of_ok tsn0 (sent l) Hok Hsize) as [Hlog _].
  destruct (Hr [] ltac:(by rewrite app_nil_r)) as [ivs [_ (r & c & iv & _ & Hinv) Hout]]. rewrite app_nil_r in *. cbn [Datatypes.snd] in Hout.
  pose proof (iv_out _ _ _ _ _ _ Hinv) as Hat. pose proof (iv_nodup _ _ _ _ _ _ Hinv) as Hnd.
  pose proof (fun sid => proj2 (iv_order _ _ _ _ _ _ Hinv sid)) as Hord. clear Hinv Hr.
  assert (exists idx, Forall2 (fun o j => o.1 = start_of tsn0 (sent l) j /\ exists a, sent l !! j = Some a) ivs idx /\
    Forall2 (fun j m => exists a, sent l !! j = Some a /\ m = deliver_of a) idx (got l)) as (idx & Hidx & Hgot).
  { clear Hnd Hord. induction Hout as [|[a b] m ivs out Hm Hout IH]; [by exists []|].
    destruct IH as (idx & H1 & H2); [intros; apply Hat; by right|].
    destruct (sent_at_message tsn0 (sent l) a b Hok (Hat a b ltac:(left))) as (j & am & Hj & -> & Hmsg). rewrite Hmsg in Hm. injection Hm as <-.
    exists (j :: idx). split; constructor; eauto. }
  exists idx. split; [done|]. assert (map fst ivs = map (start_of tsn0 (sent l)) idx) as Hmap.
  { clear - Hidx. by induction Hidx as [|o j ivs idx [Ho _] _ IH]; cbn; [|rewrite Ho, IH]. }
  split; [rewrite Hmap in Hnd; by apply NoDup_fmap_1 in Hnd|]. intros sid. specialize (Hord sid). rewrite ordered_starts_messages in Hord by done.
  assert (map fst (outs_on (log_of tsn0 (sent l)) sid ivs) = map (start_of tsn0 (sent l)) (filter (ordered_msg (sent l) sid) idx)) as Hfil.
  { clear - Hidx Hok. unfold outs_on. induction Hidx as [|o j ivs idx [Ho (a & Ha)] _ IH]; [done|]. rewrite !filter_cons.
    pose proof (ordered_on_start tsn0 (sent l) j a sid Hok Ha) as Hiff. rewrite <- Ho in Hiff.
    repeat case_decide; try tauto. cbn. by rewrite Ho, IH. }
  rewrite Hfil in Hord.
  assert (Forall (fun j => (j < length (sent l))%nat) idx) as Hlt.
  { clear - Hidx. induction Hidx as [|o j ivs idx [_ (a & Ha)] _ IH]; constructor; [by eapply lookup_lt_Some | done]. }
  rewrite firstn_map in Hord. apply map_inj_in in Hord; [rewrite Hord; apply prefix_take|].
  intros x y [_ Hx]%list_elem_of_filter Hy Hxy. rewrite List.Forall_forall in Hlt. apply list_elem_of_In, Hlt in Hx.
  apply start_of_inj in Hxy; [done..| lia |]. apply subseteq_take in Hy.
  apply list_elem_of_filter in Hy as [_ Hy%list_elem_of_In%in_seq]. lia.
Qed.

(** Whatever the network and the applications do, nothing faults and the
    messages delivered are the messages sent. *)
Lemma link_run_faithful tsn0 l events :
  link_inv tsn0 l -> sent l = [] -> Forall event_ok events -> 4 * Z.of_nat (length events) <= 65535 ->
  exists l', link_run l events = Ok l' /\ faithful (sent l') (got l').
Proof using Hrandom.
  intros Hl Hnil Hev Hsize. destruct (link_run_Ok tsn0 events l Hl Hev) as (l' & Hr & Hl' & Hn); [rewrite Hnil; cbn [length]; lia|].
  exists l'. split; [done|]. apply (link_inv_faithful tsn0); [done|].
  pose proof (log_of_bound tsn0 (sent l') (sn_sent _ _ _ (li_sender _ _ Hl'))). rewrite Hnil in Hn. cbn [length] in Hn. lia.
Qed.
End network.
