(* ===== verification/SctpHandshake.v ===== *)
(** The four-way handshake of [src/nano_sctp.c] between two associations, and the
    transfer that follows it: from two freshly initialised associations to the
    delivery of what was sent, over [SctpTransfer]'s network. *)

From Stdlib Require Import ZArith Lia.
From stdpp Require Import base list numbers.
From S2P Require Import Prelude Wire Crc SctpCodec SctpRecv SctpDelivery SctpSend Sctp SctpTransfer.

Local Open Scope Z_scope.
#[local] Opaque NANORTC_SCTP_SEND_BUF_SIZE mtu_payload NANORTC_SCTP_RECV_GAP_BUF_SIZE NANORTC_SCTP_MAX_MESSAGE_SIZE NANORTC_SCTP_MTU.

(** * The chunks of the handshake *)

Lemma encodes_aligned encode chunk :
  SCTP_PAD4 (length chunk) = length chunk ->
  (forall buf, length buf = (NANORTC_SCTP_MTU - 12)%nat -> encode buf = Ok (chunk ++ drop (length chunk) buf, length chunk)) ->
  encodes encode chunk.
Proof. intros Hp H buf Hb. rewrite (H buf Hb). unfold padded. by rewrite Hp, Nat.sub_diag, app_nil_r. Qed.
Lemma encodes_init type tag rwnd os ins tsn cookie : (length cookie = 0 \/ length cookie = 8)%nat ->
  length (init_chunk type tag rwnd os ins tsn cookie) = (if (0 <? length cookie)%nat then 36 else 24)%nat /\
  encodes (fun buf => nsctp_encode_init buf type tag rwnd os ins tsn cookie) (init_chunk type tag rwnd os ins tsn cookie).
Proof.
  intros Hc. pose proof mtu_facts as [Hm _].
  assert (length (init_chunk type tag rwnd os ins tsn cookie) = (if (0 <? length cookie)%nat then 36 else 24)%nat) as Hl.
  { rewrite init_chunk_length, init_params_length. by destruct Hc as [-> | ->]. }
  split; [done|]. apply encodes_aligned.
  - rewrite Hl. by destruct Hc as [-> | ->].
  - intros buf Hb. pose proof (encode_init_spec buf type tag rwnd os ins tsn cookie ltac:(lia)) as He. cbv zeta in He. rewrite He.
    rewrite (proj2 (Nat.ltb_ge _ _)); [done|]. rewrite Hl. destruct (0 <? length cookie)%nat; lia.
Qed.
Definition cookie_echo_chunk (cookie : list Z) : list Z := [SCTP_CHUNK_COOKIE_ECHO; 0; 0; 12] ++ cookie.
Lemma encodes_cookie_echo cookie : length cookie = 8%nat ->
  encodes (fun buf => nsctp_encode_cookie_echo buf cookie) (cookie_echo_chunk cookie).
Proof.
  intros Hc. pose proof mtu_facts as [Hm _]. assert (length (cookie_echo_chunk cookie) = 12%nat) as Hl by (unfold cookie_echo_chunk; cbn; lia).
  apply encodes_aligned; [by rewrite Hl|]. intros buf Hb. unfold nsctp_encode_cookie_echo. cbv zeta. rewrite Hc.
  change (SCTP_PAD4 (4 + 8)) with 12%nat. rewrite (proj2 (Nat.ltb_ge _ _)) by lia. cbn [orb Z.ltb Z.of_nat].
  change (UINT16_MAX - 4 <? Z.of_nat 8) with false. cbn [orb]. unfold nanortc_write_u16be. rewrite !wr_then by done. rewrite <- !app_assoc. cbn [app].
  rewrite wr_0 by (unfold be16; cbn [app length]; lia). rewrite bind_Ok.
  change (SCTP_CHUNK_HDR_SIZE + 8)%nat with 12%nat. change (SCTP_CHUNK_COOKIE_ECHO :: 0 :: be16 (Z.of_nat 12) ++ cookie) with (cookie_echo_chunk cookie).
  unfold pad_chunk. change (SCTP_PAD4 12) with 12%nat. cbn [Nat.ltb Nat.leb]. cbv zeta. rewrite bind_Ok. by rewrite Hl.
Qed.

(** * One packet over *)

Section handshake.
Context {R : Type} (random_bytes : R -> nat -> R * option (list Z)).

(** The next packet of [nsctp_poll_output]. *)
Definition hand_over (s : sctp) : res (sctp * list Z) :=
  '(s, rc, buf, n) ← nsctp_poll_output s (replicate NANORTC_SCTP_MTU 0);
  match n with Some n => if rc =? NANORTC_OK then Ok (s, take n buf) else Err rc | None => Err rc end.
Definition arrives (s : sctp) (g : R) (p : list Z) : res (sctp * R) :=
  '(s, g, rc) ← nsctp_handle_data random_bytes s g p; if rc =? NANORTC_OK then Ok (s, g) else Err rc.
(** INIT, INIT ACK, COOKIE ECHO and COOKIE ACK between [a], who starts, and [b]. *)
Definition connect (a : sctp) (ga : R) (b : sctp) (gb : R) : res (sctp * R * sctp * R) :=
  '(a, ga, rc) ← nsctp_start random_bytes a ga;
  if negb (rc =? NANORTC_OK) then Err rc else
  '(a, init) ← hand_over a;
  '(b, gb) ← arrives b gb init;
  '(b, init_ack) ← hand_over b;
  '(a, ga) ← arrives a ga init_ack;
  '(a, cookie_echo) ← hand_over a;
  '(b, gb) ← arrives b gb cookie_echo;
  '(b, cookie_ack) ← hand_over b;
  '(a, ga) ← arrives a ga cookie_ack;
  Ok (a, ga, b, gb).

(** An empty ring. *)
Definition idle (o : outq) : Prop := ring_ok (fun _ => True) o /\ out_count o = 0%nat.
Lemma idle_not_full s : idle (out s) -> nsctp_out_full s = false.
Proof using. intros [_ H]. rewrite out_full_count by (by right). by rewrite H. Qed.
Lemma idle_ring o P : idle o -> ring_ok P o.
Proof using. intros [[O1 O2 O3 O4 O5] H]. constructor; try done. intros k Hk. lia. Qed.

(** A packet built in an empty ring is the next one handed over. *)
Lemma hand_over_Ok s p :
  ring_ok (fun _ => True) (out s) -> out_count (out s) = 1%nat -> packet_at (out s) 0 p -> sack_needed (rx s) = false ->
  exists o, hand_over s = Ok (with_out s o, p) /\ idle o.
Proof using.
  intros Hr Hc Hpk Hs. pose proof mtu_facts as [Hm _]. assert (length (replicate NANORTC_SCTP_MTU 0) = NANORTC_SCTP_MTU) as Hbuf by apply length_replicate.
  pose proof Hpk as (b & n & Hb & Hn & Hmax & Hp & Hlen). unfold hand_over, nsctp_poll_output. rewrite Hs. cbn [andb]. rewrite bind_Ok. cbn [Z.eqb negb NANORTC_OK].
  destruct (Z.eqb_spec (out_head (out s)) (out_tail (out s))) as [Heq|Hne]; [unfold out_count in Hc; rewrite Heq, Z.sub_diag in Hc; done|]. cbn [negb].
  rewrite Z.add_0_r, u8_id in Hn by apply (ri_u8 _ _ Hr). rewrite Hn, Hbuf, (proj2 (Nat.ltb_ge _ _)) by lia.
  destruct (dequeue_output_Ok (fun _ => True) s (replicate NANORTC_SCTP_MTU 0) p Hr ltac:(lia) Hpk ltac:(rewrite Hbuf; lia)) as (o & buf & -> & Htk & _ & Hc' & Ho).
  rewrite !bind_Ok. cbn [Z.eqb NANORTC_OK]. exists o. rewrite Htk. split; [done|]. split; [done|lia].
Qed.
(** Sending a chunk into an empty ring. *)
Lemma send_idle s vtag encode chunk :
  idle (out s) -> encodes encode chunk -> (SCTP_PAD4 (length chunk) <= 1188)%nat ->
  exists o, send_chunk s vtag encode = Ok (with_out s o) /\ ring_ok (fun _ => True) o /\ out_count o = 1%nat /\
    packet_at o 0 (sctp_packet (local_port s) (remote_port s) vtag (padded chunk)).
Proof using.
  intros Hi Henc Hfit. pose proof mtu_facts as [Hm _]. pose proof (idle_not_full s Hi) as Hfull. destruct Hi as [Hr Hc].
  destruct (send_chunk_Ok (fun _ => True) s vtag encode chunk Hr Hfull Henc ltac:(lia)) as (o & Hs & _ & Hn & Hp & _ & Ho). rewrite Hc in *.
  exists o. split; [exact Hs|]. split; [by apply Ho|]. done.
Qed.

Lemma arrives_one s g sp dp vtag ctype chunk s' g' :
  (4 <= length chunk)%nat -> Z.of_nat (length chunk) <= UINT16_MAX -> chunk !! 0%nat = Some ctype ->
  nanortc_read_u16be chunk 2 = Ok (Z.of_nat (length chunk)) -> idle (out s) ->
  handle_chunk random_bytes s g ctype chunk = Ok (s', g', NANORTC_OK) -> sack_needed (rx s') = false ->
  arrives s g (sctp_packet sp dp vtag (padded chunk)) = Ok (s', g').
Proof using.
  intros H4 Hmax H0 Hlen Hi Hh Hs. unfold arrives. rewrite (handle_data_one random_bytes s g sp dp vtag ctype chunk H4 Hmax H0 Hlen).
  rewrite (idle_not_full s Hi), Bool.andb_false_r, Hh, bind_Ok. cbn [Z.eqb negb NANORTC_OK andb]. unfold finish_packet. rewrite Hs. cbn [andb]. by rewrite bind_Ok.
Qed.

(** * The four packets *)

(** An association before its first message: what the handshake has settled. *)
Definition endpoint (st : sctp_state) (vtag : Z) (p : peer_params) (cum tsn : Z) (c : cookies) (o : outq) : sctp :=
  Sctp st false vtag 5000 5000 p 0 0 (set_cumulative rx_init cum) (set_next_tsn sendq_init tsn)
    (Heartbeat 0 false (replicate NSCTP_NONCE_SIZE 0)) c o true.
Definition no_cookies : cookies := Cookies (replicate NANORTC_SCTP_COOKIE_SIZE 0) 0 (replicate NSCTP_SECRET_SIZE 0).
Definition fresh_out : outq :=
  OutQ (replicate NANORTC_SCTP_OUT_QUEUE_SIZE (replicate NANORTC_SCTP_MTU 0)) (replicate NANORTC_SCTP_OUT_QUEUE_SIZE 0%nat) 0 0.
Lemma init_assoc : nsctp_init_state true = endpoint NANORTC_SCTP_STATE_CLOSED 0 (PeerParams 0 0 0 false 0 0) 0 (next_tsn sendq_init) no_cookies fresh_out.
Proof using. done. Qed.
Lemma fresh_idle : idle fresh_out.
Proof using.
  split; [|done]. constructor; [|done| |apply Nat.le_0_l|].
  - split; [done|]. repeat (constructor; [apply length_replicate|]). constructor.
  - unfold is_u8. cbn. lia.
  - intros k Hk. by apply Nat.nlt_0_r in Hk.
Qed.
(** The values an association draws when it starts: tag, initial TSN, secret. *)
Definition seed (g : R) : R * option (Z * Z * list Z) := nsctp_generate_association_seed random_bytes (nsctp_init_state true) g.

Context (Hrandom : forall g n g' b, random_bytes g n = (g', Some b) -> length b = n /\ bytes b).
Lemma le_u32_range b : bytes b -> is_u32 (le_u32 b).
Proof using. intros Hb. unfold le_u32. pose proof (fun i => nth_u8 b i Hb) as H. unfold is_u8, is_u32 in *. pose proof (H 0%nat). pose proof (H 1%nat). pose proof (H 2%nat). specialize (H 3%nat). lia. Qed.
Lemma seed_facts g g' tag tsn secret : seed g = (g', Some (tag, tsn, secret)) -> is_u32 tag /\ tag <> 0 /\ is_u32 tsn /\ length secret = NSCTP_SECRET_SIZE.
Proof using Hrandom.
  unfold seed, nsctp_generate_association_seed. cbn [has_crypto nsctp_init_state negb]. destruct (random_bytes g 4) as [g1 [v|]] eqn:E1; [|done].
  destruct (random_bytes g1 4) as [g2 [t|]] eqn:E2; [|done]. destruct (random_bytes g2 NSCTP_SECRET_SIZE) as [g3 [k|]] eqn:E3; [|done].
  apply Hrandom in E1 as [L1 B1], E2 as [L2 B2], E3 as [L3 _]. pose proof (le_u32_range v B1). pose proof (le_u32_range t B2).
  intros [= _ <- <- <-]. split_and!; try done; repeat match goal with |- context [?x =? 0] => destruct (Z.eqb_spec x 0) end; try done; unfold is_u32; lia.
Qed.
Definition init_of (type tag tsn : Z) (cookie : list Z) : list Z := init_chunk type tag NANORTC_SCTP_RECV_BUF_SIZE 0xFFFF 0xFFFF tsn cookie.
Lemma init_of_facts type tag tsn cookie : is_u32 tag -> is_u32 tsn -> (length cookie = 0 \/ length cookie = 8)%nat ->
  let chunk := init_of type tag tsn cookie in
  (4 <= length chunk <= 36)%nat /\ chunk !! 0%nat = Some type /\ nanortc_read_u16be chunk 2 = Ok (Z.of_nat (length chunk)) /\
  nsctp_parse_init chunk = Ok (NsctpInit tag NANORTC_SCTP_RECV_BUF_SIZE 0xFFFF 0xFFFF tsn (if (0 <? length cookie)%nat then Some cookie else None) true) /\
  encodes (fun buf => nsctp_encode_init buf type tag NANORTC_SCTP_RECV_BUF_SIZE 0xFFFF 0xFFFF tsn cookie) chunk.
Proof using.
  intros Ht Hs Hc chunk. destruct (encodes_init type tag NANORTC_SCTP_RECV_BUF_SIZE 0xFFFF 0xFFFF tsn cookie Hc) as [Hl He]. fold (init_of type tag tsn cookie) in *. fold chunk in Hl, He.
  split; [rewrite Hl; destruct (0 <? length cookie)%nat; lia|]. split; [done|]. split.
  - rewrite Hl. pose proof (init_params_length cookie) as Hp. assert (20 + length (init_params_bytes cookie) = if (0 <? length cookie)%nat then 36 else 24)%nat as Hp2.
    { rewrite <- Hl. unfold chunk, init_of. by rewrite init_chunk_length. }
    rewrite <- Hp2, Nat2Z.inj_add. unfold chunk, init_of, init_chunk. apply read16_field; [done..|]. rewrite Hp.
    destruct Hc as [-> | ->]; [change (4 + _)%nat with 4%nat | change (4 + _)%nat with 16%nat]; unfold is_u16; lia.
  - split; [|done]. apply parse_init_chunk; try done; unfold is_u32, is_u16, NANORTC_SCTP_RECV_BUF_SIZE; lia.
Qed.

(** One packet is waiting. *)
Definition offers (o : outq) (vtag : Z) (chunk : list Z) : Prop :=
  ring_ok (fun _ => True) o /\ out_count o = 1%nat /\ packet_at o 0 (sctp_packet 5000 5000 vtag (padded chunk)).
Lemma hand_over_offer st vtag p c t k o v chunk : offers o v chunk ->
  exists o', hand_over (endpoint st vtag p c t k o) = Ok (endpoint st vtag p c t k o', sctp_packet 5000 5000 v (padded chunk)) /\ idle o'.
Proof using. intros (H1 & H2 & H3). by destruct (hand_over_Ok (endpoint st vtag p c t k o) _ H1 H2 H3 eq_refl) as (o' & H & Hi); exists o'. Qed.
Lemma send_offer st vtag p c t k o v encode chunk :
  idle o -> encodes encode chunk -> (length chunk <= 36)%nat ->
  exists o', send_chunk (endpoint st vtag p c t k o) v encode = Ok (endpoint st vtag p c t k o') /\ offers o' v chunk.
Proof using.
  intros Hi He Hl. destruct (send_idle (endpoint st vtag p c t k o) v encode chunk Hi He) as (o' & H & H1 & H2 & H3); [|by exists o'].
  rewrite pad4_eq. assert ((length chunk + 3) / 4 <= (36 + 3) / 4)%nat by (apply Nat.Div0.div_le_mono; lia). change ((36 + 3) / 4)%nat with 9%nat in *. lia.
Qed.
Definition with_secret (k : cookies) (secret : list Z) : cookies := Cookies (ck_cookie k) (ck_len k) secret.

Lemma seed_assoc st vtag p c t k o g : nsctp_generate_association_seed random_bytes (endpoint st vtag p c t k o) g = seed g.
Proof using. done. Qed.
Lemma start_Ok p c t k o g g' tag tsn secret :
  idle o -> seed g = (g', Some (tag, tsn, secret)) ->
  exists o', nsctp_start random_bytes (endpoint NANORTC_SCTP_STATE_CLOSED 0 p c t k o) g =
      Ok (endpoint NANORTC_SCTP_STATE_COOKIE_WAIT tag p c tsn (with_secret k secret) o', g', NANORTC_OK) /\
    offers o' 0 (init_of SCTP_CHUNK_INIT tag tsn []).
Proof using Hrandom.
  intros Hi Hs. destruct (seed_facts _ _ _ _ _ Hs) as (Ht & _ & Hn & _).
  destruct (init_of_facts SCTP_CHUNK_INIT tag tsn [] Ht Hn ltac:(by left)) as (Hl & _ & _ & _ & He).
  unfold nsctp_start. cbn [has_crypto endpoint negb]. rewrite bool_decide_eq_true_2 by done. cbn [negb].
  rewrite (idle_not_full (endpoint _ _ _ _ _ _ o) Hi). rewrite seed_assoc, Hs. cbv zeta.
  change (with_local _ tag tsn secret) with (endpoint NANORTC_SCTP_STATE_CLOSED tag p c tsn (with_secret k secret) o).
  destruct (send_offer NANORTC_SCTP_STATE_CLOSED tag p c tsn (with_secret k secret) o 0 _ _ Hi He ltac:(lia)) as (o' & Hsend & Ho). rewrite Hsend, bind_Ok.
  by exists o'.
Qed.
Lemma cookie_for_length secret tag : length secret = NSCTP_SECRET_SIZE -> length (cookie_for secret tag) = 8%nat.
Proof using. intros H. unfold cookie_for. rewrite length_app, length_zip_with, !length_take, length_drop, H. done. Qed.
(** [b] answers INIT. *)
Lemma init_Ok p c t k o g g' tag tsn secret ta na v :
  idle o -> seed g = (g', Some (tag, tsn, secret)) -> is_u32 ta -> is_u32 na ->
  exists o', arrives (endpoint NANORTC_SCTP_STATE_CLOSED 0 p c t k o) g (sctp_packet 5000 5000 v (padded (init_of SCTP_CHUNK_INIT ta na []))) =
      Ok (endpoint NANORTC_SCTP_STATE_CLOSED tag (PeerParams ta na NANORTC_SCTP_RECV_BUF_SIZE true 0xFFFF 0xFFFF) (u32 (na - 1)) tsn (with_secret k secret) o', g') /\
    offers o' ta (init_of SCTP_CHUNK_INIT_ACK tag tsn (cookie_for secret ta)).
Proof using Hrandom.
  intros Hi Hs Hta Hna. destruct (seed_facts _ _ _ _ _ Hs) as (Ht & _ & Hn & Hk). pose proof (cookie_for_length secret ta Hk) as Hck.
  destruct (init_of_facts SCTP_CHUNK_INIT_ACK tag tsn (cookie_for secret ta) Ht Hn ltac:(by right)) as (Hl & _ & _ & _ & He).
  destruct (init_of_facts SCTP_CHUNK_INIT ta na [] Hta Hna ltac:(by left)) as (Hl1 & Hty & Hlen & Hparse & _).
  set (pp := PeerParams ta na NANORTC_SCTP_RECV_BUF_SIZE true 0xFFFF 0xFFFF).
  destruct (send_offer NANORTC_SCTP_STATE_CLOSED tag pp (u32 (na - 1)) tsn (with_secret k secret) o ta _ _ Hi He ltac:(lia)) as (o' & Hsend & Ho). exists o'. split; [|done].
  apply (arrives_one _ _ _ _ _ SCTP_CHUNK_INIT); try done; [unfold UINT16_MAX; lia|].
  change (handle_chunk random_bytes ?s ?g SCTP_CHUNK_INIT ?c) with (nsctp_handle_init random_bytes s g c). unfold nsctp_handle_init. rewrite Hparse.
  change (local_vtag (endpoint _ _ _ _ _ _ _)) with 0. cbn [Z.eqb]. rewrite seed_assoc, Hs. cbv zeta. cbn [i_initiate_tag i_initial_tsn i_a_rwnd i_forward_tsn_supported i_num_istreams i_num_ostreams].
  change (with_peer (with_local _ _ _ _) _ _) with (endpoint NANORTC_SCTP_STATE_CLOSED tag pp (u32 (na - 1)) tsn (with_secret k secret) o).
  change (remote_vtag (peer (endpoint _ _ _ _ _ _ _))) with ta. by rewrite Hsend, bind_Ok.
Qed.
(** [a] answers INIT ACK. *)
Lemma init_ack_Ok vtag p c t k o g v tb nb cookie :
  idle o -> is_u32 tb -> is_u32 nb -> length cookie = 8%nat -> length (ck_cookie k) = NANORTC_SCTP_COOKIE_SIZE ->
  exists o', arrives (endpoint NANORTC_SCTP_STATE_COOKIE_WAIT vtag p c t k o) g (sctp_packet 5000 5000 v (padded (init_of SCTP_CHUNK_INIT_ACK tb nb cookie))) =
      Ok (endpoint NANORTC_SCTP_STATE_COOKIE_ECHOED vtag
            (PeerParams tb nb NANORTC_SCTP_RECV_BUF_SIZE true (peer_num_istreams p) (peer_num_ostreams p)) (u32 (nb - 1)) t
            (Cookies (cookie ++ drop 8 (ck_cookie k)) 8 (ck_secret k)) o', g) /\
    offers o' tb (cookie_echo_chunk cookie).
Proof using.
  intros Hi Htb Hnb Hc Hk. destruct (init_of_facts SCTP_CHUNK_INIT_ACK tb nb cookie Htb Hnb ltac:(by right)) as (Hl1 & Hty & Hlen & Hparse & _).
  set (pp := PeerParams tb nb NANORTC_SCTP_RECV_BUF_SIZE true (peer_num_istreams p) (peer_num_ostreams p)).
  set (ck' := Cookies (cookie ++ drop 8 (ck_cookie k)) 8 (ck_secret k)).
  assert (length (cookie_echo_chunk cookie) = 12%nat) as Hecho by (unfold cookie_echo_chunk; rewrite length_app, Hc; done).
  destruct (send_offer NANORTC_SCTP_STATE_COOKIE_WAIT vtag pp (u32 (nb - 1)) t ck' o tb _ _ Hi (encodes_cookie_echo cookie Hc) ltac:(lia)) as (o' & Hsend & Ho).
  exists o'. split; [|done]. apply (arrives_one _ _ _ _ _ SCTP_CHUNK_INIT_ACK); try done; [lia | unfold UINT16_MAX; lia |].
  change (handle_chunk random_bytes ?s0 ?g0 SCTP_CHUNK_INIT_ACK ?c0) with ('(s, rc) ← nsctp_handle_init_ack s0 c0; Ok (s, g0, rc)). unfold nsctp_handle_init_ack.
  rewrite bool_decide_eq_true_2 by done. cbn [negb]. rewrite Hparse, Hc. cbn [i_cookie Nat.ltb Nat.leb]. rewrite Hc. cbn [Nat.eqb Nat.ltb Nat.leb orb NANORTC_SCTP_COOKIE_SIZE]. cbv zeta.
  change (ck_cookie (ck (with_peer _ _ _))) with (ck_cookie k). rewrite wr_0, bind_Ok by (rewrite Hk; unfold NANORTC_SCTP_COOKIE_SIZE; lia). rewrite Hc.
  rewrite rdn_Ok by (rewrite length_app, Hc; lia). rewrite bind_Ok, drop_0. replace (take 8 (cookie ++ drop 8 (ck_cookie k))) with cookie by (rewrite <- Hc; by rewrite take_app_length).
  change (with_cookie (with_peer _ _ _) _ _) with (endpoint NANORTC_SCTP_STATE_COOKIE_WAIT vtag pp (u32 (nb - 1)) t ck' o).
  change (remote_vtag (peer (endpoint _ _ _ _ _ _ _))) with tb. by rewrite Hsend, !bind_Ok.
Qed.
(** [b] answers COOKIE ECHO. *)
Lemma cookie_echo_Ok st vtag p c t k o g v :
  idle o -> length (ck_secret k) = NSCTP_SECRET_SIZE ->
  exists o', arrives (endpoint st vtag p c t k o) g
        (sctp_packet 5000 5000 v (padded (cookie_echo_chunk (cookie_for (ck_secret k) (remote_vtag p))))) =
      Ok (endpoint NANORTC_SCTP_STATE_ESTABLISHED vtag p c t k o', g) /\
    offers o' (remote_vtag p) [SCTP_CHUNK_COOKIE_ACK; 0; 0; 4].
Proof using.
  intros Hi Hk. set (cookie := cookie_for _ _). assert (length cookie = 8%nat) as Hc by (by apply cookie_for_length).
  assert (length (cookie_echo_chunk cookie) = 12%nat) as Hl by (unfold cookie_echo_chunk; rewrite length_app, Hc; done).
  destruct (send_offer st vtag p c t k o (remote_vtag p) _ _ Hi encodes_cookie_ack ltac:(cbn; lia)) as (o' & Hsend & Ho). exists o'. split; [|done].
  apply (arrives_one _ _ _ _ _ SCTP_CHUNK_COOKIE_ECHO); try done; [lia | unfold UINT16_MAX; lia | by rewrite Hl |].
  change (handle_chunk random_bytes ?s0 ?g0 SCTP_CHUNK_COOKIE_ECHO ?c0) with ('(s, rc) ← nsctp_handle_cookie_echo s0 c0; Ok (s, g0, rc)).
  unfold nsctp_handle_cookie_echo. cbv zeta. rewrite Hl. change (12 - SCTP_CHUNK_HDR_SIZE <? 8)%nat with false. cbv iota.
  assert (rdn (cookie_echo_chunk cookie) SCTP_CHUNK_HDR_SIZE 8 = Ok cookie) as ->.
  { rewrite rdn_Ok by (rewrite Hl; unfold SCTP_CHUNK_HDR_SIZE; lia). f_equal. change (drop SCTP_CHUNK_HDR_SIZE (cookie_echo_chunk cookie)) with cookie. apply take_ge. lia. }
  rewrite bind_Ok. change (cookie_for (ck_secret (ck _)) _) with cookie. rewrite bool_decide_eq_true_2 by done. cbn [negb].
  change (remote_vtag (peer _)) with (remote_vtag p). by rewrite Hsend, !bind_Ok.
Qed.
(** [a] takes COOKIE ACK. *)
Lemma cookie_ack_Ok vtag p c t k o g v :
  idle o -> arrives (endpoint NANORTC_SCTP_STATE_COOKIE_ECHOED vtag p c t k o) g (sctp_packet 5000 5000 v (padded [SCTP_CHUNK_COOKIE_ACK; 0; 0; 4])) =
    Ok (endpoint NANORTC_SCTP_STATE_ESTABLISHED vtag p c t k o, g).
Proof using. intros Hi. by apply (arrives_one _ _ _ _ _ SCTP_CHUNK_COOKIE_ACK). Qed.

Lemma connect_Ok ga gb ga' gb' ta na ka tb nb kb :
  seed ga = (ga', Some (ta, na, ka)) -> seed gb = (gb', Some (tb, nb, kb)) ->
  exists k k' oa ob, idle oa /\ idle ob /\
    connect (nsctp_init_state true) ga (nsctp_init_state true) gb =
    Ok (endpoint NANORTC_SCTP_STATE_ESTABLISHED ta (PeerParams tb nb NANORTC_SCTP_RECV_BUF_SIZE true 0 0) (u32 (nb - 1)) na k oa, ga',
        endpoint NANORTC_SCTP_STATE_ESTABLISHED tb (PeerParams ta na NANORTC_SCTP_RECV_BUF_SIZE true 0xFFFF 0xFFFF) (u32 (na - 1)) nb k' ob, gb').
Proof using Hrandom.
  intros Ha Hb. destruct (seed_facts _ _ _ _ _ Ha) as (Hta & _ & Hna & _), (seed_facts _ _ _ _ _ Hb) as (Htb & _ & Hnb & Hkb).
  pose proof (cookie_for_length kb ta Hkb) as Hck. unfold connect. rewrite init_assoc.
  destruct (start_Ok (PeerParams 0 0 0 false 0 0) 0 (next_tsn sendq_init) no_cookies fresh_out ga ga' ta na ka fresh_idle Ha) as (o1 & -> & Ho1).
  rewrite bind_Ok. cbn [Z.eqb negb NANORTC_OK].
  destruct (hand_over_offer NANORTC_SCTP_STATE_COOKIE_WAIT ta (PeerParams 0 0 0 false 0 0) 0 na (with_secret no_cookies ka) o1 0 _ Ho1) as (o2 & -> & Hi2). rewrite bind_Ok.
  destruct (init_Ok (PeerParams 0 0 0 false 0 0) 0 (next_tsn sendq_init) no_cookies fresh_out gb gb' tb nb kb ta na 0 fresh_idle Hb Hta Hna) as (o3 & -> & Ho3). rewrite bind_Ok.
  destruct (hand_over_offer NANORTC_SCTP_STATE_CLOSED tb (PeerParams ta na NANORTC_SCTP_RECV_BUF_SIZE true 0xFFFF 0xFFFF) (u32 (na - 1)) nb (with_secret no_cookies kb) o3 ta _ Ho3)
    as (o4 & -> & Hi4). rewrite bind_Ok.
  destruct (init_ack_Ok ta (PeerParams 0 0 0 false 0 0) 0 na (with_secret no_cookies ka) o2 ga' ta tb nb (cookie_for kb ta) Hi2 Htb Hnb Hck eq_refl) as (o5 & -> & Ho5). rewrite bind_Ok.
  cbn [peer_num_istreams peer_num_ostreams].
  destruct (hand_over_offer NANORTC_SCTP_STATE_COOKIE_ECHOED ta (PeerParams tb nb NANORTC_SCTP_RECV_BUF_SIZE true 0 0) (u32 (nb - 1)) na
    (Cookies (cookie_for kb ta ++ drop 8 (ck_cookie (with_secret no_cookies ka))) 8 (ck_secret (with_secret no_cookies ka))) o5 tb _ Ho5) as (o6 & -> & Hi6). rewrite bind_Ok.
  destruct (cookie_echo_Ok NANORTC_SCTP_STATE_CLOSED tb (PeerParams ta na NANORTC_SCTP_RECV_BUF_SIZE true 0xFFFF 0xFFFF) (u32 (na - 1)) nb (with_secret no_cookies kb) o4 gb' tb Hi4 Hkb)
    as (o7 & Hc & Ho7). cbn [remote_vtag with_secret ck_secret] in Hc, Ho7. rewrite Hc, bind_Ok.
  destruct (hand_over_offer NANORTC_SCTP_STATE_ESTABLISHED tb (PeerParams ta na NANORTC_SCTP_RECV_BUF_SIZE true 0xFFFF 0xFFFF) (u32 (na - 1)) nb (with_secret no_cookies kb) o7 ta _ Ho7)
    as (o8 & -> & Hi8). rewrite bind_Ok. rewrite (cookie_ack_Ok _ _ _ _ _ _ _ _ Hi6), bind_Ok. by eexists _, _, o6, o8.
Qed.

(** * From the handshake to the transfer *)

Lemma endpoint_sender vtag p c t k o : is_u32 t -> idle o -> sender t [] (endpoint NANORTC_SCTP_STATE_ESTABLISHED vtag p c t k o).
Proof using.
  intros Ht Hi. constructor; try done.
  - constructor; try done.
    + split; apply Nat.le_0_l.
    + cbn. by rewrite Z.add_0_r, u32_id.
    + apply Nat.le_0_l.
    + intros j Hj. by apply Nat.nlt_0_r in Hj.
  - by apply idle_ring.
  - constructor; [done | done | apply Nat.le_0_l |]. intros i _. unfold nth_ssn. cbn [recv_ssn swap_ssn rx endpoint]. rewrite nth_lookup.
    destruct (_ !! i) as [z|] eqn:E; [by apply lookup_replicate in E as [-> _] | done].
Qed.
Lemma endpoint_link a b (ga gb : R) va vb pa pb ca cb na nb ka kb oa ob :
  a = endpoint NANORTC_SCTP_STATE_ESTABLISHED va pa ca na ka oa -> b = endpoint NANORTC_SCTP_STATE_ESTABLISHED vb pb cb nb kb ob ->
  idle oa -> idle ob -> is_u32 na -> cb = u32 (na - 1) -> link_inv na (Link a ga b gb [] [] []).
Proof using.
  intros -> -> Ha Hb Hna ->. constructor; cbn [tx_end rx_end sent got wire].
  - by apply endpoint_sender.
  - constructor; [done | by destruct Hb | done].
  - constructor.
  - intros more _. exists []. apply rx_start_follows.
Qed.

(** C3: two fresh associations whose providers give them random bytes connect in
    four packets: both end ESTABLISHED, each with the other's tag as its remote
    tag, the other's initial TSN as the next one expected, Forward TSN agreed
    and nothing left to send. *)
Theorem sctp_handshake ga gb ga' gb' ta na ka tb nb kb :
  seed ga = (ga', Some (ta, na, ka)) -> seed gb = (gb', Some (tb, nb, kb)) ->
  exists a b, connect (nsctp_init_state true) ga (nsctp_init_state true) gb = Ok (a, ga', b, gb') /\
    sc_state a = NANORTC_SCTP_STATE_ESTABLISHED /\ sc_state b = NANORTC_SCTP_STATE_ESTABLISHED /\
    local_vtag a = ta /\ remote_vtag (peer a) = tb /\ local_vtag b = tb /\ remote_vtag (peer b) = ta /\ ta <> 0 /\ tb <> 0 /\
    cumulative_tsn (rx a) = u32 (next_tsn (sq b) - 1) /\ cumulative_tsn (rx b) = u32 (next_tsn (sq a) - 1) /\
    peer_forward_tsn (peer a) = true /\ peer_forward_tsn (peer b) = true /\
    nsctp_has_pending_output a = Ok false /\ nsctp_has_pending_output b = Ok false.
Proof using Hrandom.
  intros Ha Hb. destruct (seed_facts _ _ _ _ _ Ha) as (_ & Hta & _), (seed_facts _ _ _ _ _ Hb) as (_ & Htb & _).
  destruct (connect_Ok ga gb ga' gb' ta na ka tb nb kb Ha Hb) as (k & k' & oa & ob & Hia & Hib & Hc).
  assert (forall o, idle o -> (out_head o =? out_tail o) = true) as Hempty.
  { intros o [Hr H0]. apply Z.eqb_eq. destruct (ri_u8 _ _ Hr). unfold out_count in H0. mach. }
  eexists _, _. split; [exact Hc|]. unfold nsctp_has_pending_output. cbn [out endpoint]. rewrite !Hempty by done. by split_and!.
Qed.

(** C2: whatever the network does to the packets of two associations that have
    connected (loss, duplication, any order, in either direction), whenever the
    timers fire and whatever octets arrive as a SACK at the sender, nothing
    faults, and the messages the receiving application gets are messages the
    sending application's calls accepted, each unaltered and at most once; those
    of an ordered stream come in sending order without a gap.  A run has at most
    16383 events, the messages sent in it are not empty and go one way, either. *)
Theorem sctp_transfer ga gb ga' gb' ta na ka tb nb kb events :
  seed ga = (ga', Some (ta, na, ka)) -> seed gb = (gb', Some (tb, nb, kb)) ->
  Forall event_ok events -> 4 * Z.of_nat (length events) <= 65535 ->
  exists a b, connect (nsctp_init_state true) ga (nsctp_init_state true) gb = Ok (a, ga', b, gb') /\
    (exists l, link_run random_bytes (Link a ga' b gb' [] [] []) events = Ok l /\ faithful (sent l) (got l)) /\
    (exists l, link_run random_bytes (Link b gb' a ga' [] [] []) events = Ok l /\ faithful (sent l) (got l)).
Proof using Hrandom.
  intros Ha Hb Hev Hsize. destruct (seed_facts _ _ _ _ _ Ha) as (_ & _ & Hna & _), (seed_facts _ _ _ _ _ Hb) as (_ & _ & Hnb & _).
  destruct (connect_Ok ga gb ga' gb' ta na ka tb nb kb Ha Hb) as (k & k' & oa & ob & Hia & Hib & Hc).
  assert (forall g n g' b, random_bytes g n = (g', Some b) -> length b = n) as Hlen by (intros g n g1 b H; by apply Hrandom in H as [? _]).
  eexists _, _. split; [exact Hc|]. split.
  - apply (link_run_faithful random_bytes Hlen na); [|done..]. by eapply endpoint_link.
  - apply (link_run_faithful random_bytes Hlen nb); [|done..]. by eapply endpoint_link.
Qed.
End handshake.

(** * Concrete runs *)

(** A provider that counts its calls. *)
Definition counting_bytes (g : nat) (n : nat) : nat * option (list Z) := (S g, Some (replicate n (Z.of_nat (S g) mod 256))).
Lemma counting_bytes_law g n g' b : counting_bytes g n = (g', Some b) -> length b = n /\ bytes b.
Proof. intros [= _ <-]. split; [apply length_replicate|]. apply Forall_replicate. unfold is_u8. Z.div_mod_to_equations. lia. Qed.

Lemma sctp_handshake_witness :
  exists a b, connect counting_bytes (nsctp_init_state true) 0%nat (nsctp_init_state true) 10%nat = Ok (a, 3%nat, b, 13%nat) /\
    sc_state a = NANORTC_SCTP_STATE_ESTABLISHED /\ sc_state b = NANORTC_SCTP_STATE_ESTABLISHED.
Proof.
  destruct (sctp_handshake counting_bytes counting_bytes_law 0%nat 10%nat 3%nat 13%nat 0x01010101 0x02020202 (replicate 16 3) 0x0b0b0b0b 0x0c0c0c0c (replicate 16 13))
    as (a & b & H & Ha & Hb & _); [vm_compute; reflexivity | vm_compute; reflexivity |].
  exists a, b. exact (conj H (conj Ha Hb)).
Defined.

Definition demo_events : list link_event :=
  [Send (AppMessage 0 51 false [10; 11]); Send (AppMessage 0 51 false [20]); Send (AppMessage 1 53 true [30; 31; 32]);
   Transmit; Transmit; Transmit; Receive 2; Receive 1; Receive 1; Deliver; Timer 5000; Receive 0; Reply; Deliver; Deliver; Deliver].
Lemma sctp_transfer_witness :
  (exists a b, connect counting_bytes (nsctp_init_state true) 0%nat (nsctp_init_state true) 10%nat = Ok (a, 3%nat, b, 13%nat) /\
    exists l, link_run counting_bytes (Link a 3%nat b 13%nat [] [] []) demo_events = Ok l /\ faithful (sent l) (got l)) /\
  match connect counting_bytes (nsctp_init_state true) 0%nat (nsctp_init_state true) 10%nat with
  | Ok (a, ga, b, gb) =>
      match link_run counting_bytes (Link a ga b gb [] [] []) demo_events with
      | Ok l => got l = [Message [30; 31; 32] 53 1; Message [10; 11] 51 0; Message [20] 51 0] | _ => False end
  | _ => False end.
Proof.
  split; [|vm_compute; reflexivity].
  destruct (sctp_transfer counting_bytes counting_bytes_law 0%nat 10%nat 3%nat 13%nat 0x01010101 0x02020202 (replicate 16 3) 0x0b0b0b0b 0x0c0c0c0c (replicate 16 13) demo_events)
    as (a & b & H & Hl & _); [vm_compute; reflexivity | vm_compute; reflexivity | | cbn; lia |].
  - repeat (apply List.Forall_cons; [first [exact I | unfold event_ok, is_u16, is_u32; cbn; lia]|]). apply List.Forall_nil.
  - exists a, b. exact (conj H Hl).
Defined.
